(* ===== verification/_CoqProject ===== *)
-Q . S2P
Prelude.v
CString.v
Spinlock.v
Sleeplock.v
Layout.v
Bio.v
Cache.v
Lru.v
BioCache.v
Log.v
LogProofs.v
Tx.v
Fs.v
FsProofs.v
FsGrow.v
FsTrunc.v
Ide.v
IdeProofs.v
Kalloc.v
Mp.v
Boot.v
Apic.v
Vm.v
VmProofs.v
VmFree.v
VmGrow.v
VmFork.v
Pipe.v
Proc.v
ProcProofs.v
Ulib.v
Grep.v
Shell.v
ShellProofs.v
ShellRun.v
Hw2Shell.v
Hw2Proofs.v
File.v
FileWrite.v
FsCrash.v
FsDir.v
Mkfs.v
MkfsProofs.v
MkfsImage.v
Progs.v
ProgsProofs.v
Syscall.v
Trap.v
Sysfile.v
Exec.v
Frame.v
FdProofs.v
SyscallProofs.v
ExecVm.v
ExecProofs.v
Kernel.v
Console.v
ConsoleProofs.v
Stab.v
Printfmt.v
Umalloc.v
UmallocProofs.v
JosString.v
JosConsole.v
JosTerm.v
JosInput.v
JosMonitor.v
JosReadline.v
JosCommand.v
