(* ===== verification/Prelude.v ===== *)
(** * xv6 and JOS: a verification library (root file)

    The repository holds the xv6 operating system with the changes of a
    course ([src/homeworks/xv6-public/], written [xv6/] below) and the labs on
    the JOS kernel ([src/labs/lab02-mem-management/], written [jos/]).  This
    library is a shallow embedding of their C code in Rocq: a C function is a
    function of the same name on an explicit state, and the theorems are about
    those functions.

    ** How C is translated

    - Integers are [Z]; an operation that can leave the range of its C type is
      followed by a conversion ([u8], [u32], [s32], ...) of this file.
    - A function that reads and writes a state [S] is an [M S A]: it returns a
      value and a state, or stops with a reason ([stop]): a panic with its
      message, a dereference of a bad pointer or index ([Faulted]), a sleep
      that nobody ends ([Asleep]), a lock of another CPU ([Spinning]), or the
      end of the bound of a loop ([NoFuel]).  Error codes are results.
    - Structures are records with the fields of the source; tables are lists
      updated by index, an index out of range faults; pointers are indices
      into tables, or addresses where the memory itself is modelled.
    - A loop that is not structural takes a [fuel] argument.  A theorem that a
      call returns is proved for all fuel above a bound that follows from the
      state (the length of the list, the size of the string, the number of
      bytes), so the bound is no restriction.
    - sleep() is a call of [sleep_on]: it gives up its lock, and continues
      with a state that the argument [env] says the others have made of it.
    - Hardware, devices behind the file table, the kernel's answer to a
      program's sbrk() and the like are parameters (classes [Controller],
      [Devsw], [BlockDev], or arguments); where a theorem needs their
      behaviour it is a hypothesis or the law of a class, with an instance.

    ** The files and the code

    Kernel, from the bottom up:
    - [CString]: memset, memmove, strncmp, strlen, ... of xv6/string.c on a
      byte memory.
    - [Spinlock]: xv6/spinlock.c with pushcli/popcli on one CPU ([Spin],
      [SpinProofs]) and the xchg loops of all CPUs interleaved ([Smp],
      [SmpProofs]); [acquire] and [release] of this file are the abstract lock
      they implement, used everywhere else.
    - [Sleeplock]: xv6/sleeplock.c and any number of processes that call it;
      what wakeup() does to them is an argument of [releasesleep_in].
    - [Layout]: superblock, inode, directory entry and log header of xv6/fs.h
      and log.c as bytes of a block.
    - [Bio], [Lru], [BioCache]: xv6/bio.c with its doubly linked list, and the
      memory disk of memide.c.  [Cache] is the interface of the buffer cache
      (class of operations on handles, with laws); [BioCache] is its instance.
    - [Log], [LogProofs]: xv6/log.c over [Cache]; a crash is a prefix of the
      sequence of writes that reached the disk.
    - [Tx]: the interface of transactions, implemented by [Log] over [Cache].
    - [Fs], [FsProofs]: xv6/fs.c over [Tx]: block allocator, inodes, files,
      directories, paths; [FsGrow]: files that grow; [FsTrunc]: itrunc();
      [FsDir]: directories as finite maps.
    - [Ide], [IdeProofs]: xv6/ide.c, the interrupt-driven disk driver.
    - [Kalloc]: xv6/kalloc.c, the free list inside the free pages.
    - [Mp]: xv6/mp.c, the tables of the BIOS; [Boot]: xv6/bootmain.c and
      jos/boot/main.c, the loading of a kernel from the disk; [Apic]:
      xv6/lapic.c, ioapic.c and picirq.c, jos/kern/kclock.c and the detection
      of memory of jos/kern/pmap.c, on a bus of registers and ports.
    - [Vm]: xv6/vm.c on the memory of [Kalloc]; [VmProofs]: what a page
      directory denotes, walkpgdir(), mappages(); [VmFree]: deallocuvm(),
      freevm(); [VmGrow]: allocuvm() and the invariant of the loops that grow
      an address space; [VmFork]: setupkvm(), copyuvm().
    - [Pipe]: xv6/pipe.c and the bounded queue it implements.
    - [Proc], [ProcProofs]: xv6/proc.c; the steps of all CPUs on the process
      table as a relation.
    - [File]: xv6/file.c; [Syscall]: syscall.c; [Trap]: sysproc.c and trap.c;
      [Sysfile]: sysfile.c; [Exec]: exec.c; [Kernel]: the table of system
      calls; [FileWrite]: the part of a write that is one transaction;
      [FsCrash]: filewrite() over fs.c, log.c and the cache under crashes.
      They share the state [kstate] of [Proc]: processes, memory,
      files, clock.  [Frame] proves what a call leaves alone, [FdProofs] the
      reference counts, [SyscallProofs] what the kernel accepts from a process.
      [ExecVm] is the flat memory that a program sees and the operations on
      page tables as operations on it; [ExecProofs] is exec() in its terms.
    - [Console], [ConsoleProofs]: xv6/console.c, kbd.c, uart.c.

    User programs: [Ulib] (xv6/ulib.c, printf.c), [Umalloc], [UmallocProofs]
    (umalloc.c), [Grep] (grep.c, wc.c), [Shell], [ShellProofs] (sh.c: the
    parser, and runcmd() and main() as trees of system calls), [ShellRun]
    (those trees run on tables of file descriptors); [Hw2Shell], [Hw2Proofs]
    (src/homeworks/hw02-shell/sh.c); [Progs], [ProgsProofs] (cat.c, ls.c,
    init.c, echo.c, rm.c, ... as interaction trees over the system calls).

    Host: [Mkfs] (xv6/mkfs.c: the image as a list of blocks), [MkfsProofs]
    (iappend() and ialloc() on a file system in the terms of [FsGrow]),
    [MkfsImage] (main(), and the kernel that boots from the image).

    JOS: [Stab] (jos/kern/kdebug.c), [Printfmt] (jos/lib/printfmt.c,
    jos/kern/printf.c), [JosString] (jos/lib/string.c), [JosConsole]
    (jos/kern/console.c) with its screen as a terminal ([JosTerm]) and its
    keyboard and input ring ([JosInput]), [JosMonitor] (jos/kern/monitor.c,
    jos/lib/readline.c) with the line editor ([JosReadline]) and the commands
    ([JosCommand]).

    ** What the theorems show

    - Crash safety: commit() is atomic and recovery is idempotent under a
      crash at any write ([LogProofs]); with the file system on top, a write()
      of any length leaves a whole number of its parts ([FsCrash]).
    - Mutual exclusion and lost wakeups: spin locks in every interleaving,
      sleep locks, one CPU per process, wait() ([Spinlock], [Sleeplock],
      [ProcProofs]).
    - Refinement of abstract specifications: the list of buffers in LRU order
      ([BioCache]), the lock ([Spinlock]), the queue of the disk and the memory
      disk ([IdeProofs]), the bounded queue of a pipe, to the byte and with the
      readers' turns in between ([Pipe]), the ordered free list of malloc() ([UmallocProofs]),
      the line editor of the console ([ConsoleProofs]); for JOS the terminal,
      the keyboard and readline() ([JosTerm], [JosInput], [JosReadline]).
    - Files and directories: writei() takes exactly the first free blocks and
      changes nothing else, itrunc() gives exactly them back, a part of a write
      fits the log; dirlink() and unlink are insertion into and deletion from a
      finite map ([FsGrow], [FsTrunc], [FileWrite], [FsDir]).
    - Composition: the image that mkfs writes is a file system for which
      initlog() succeeds and these invariants hold ([MkfsImage]).
    - Functional correctness with the error branches: balloc(), readi(),
      dirlookup(), mappages(), kalloc() and kfree(), pipes, exit(), malloc(),
      stab_binsearch(), snprintf(), mpinit(), the boot loaders, the clock and
      the interrupt controllers.
    - exec(): a call that returns -1 leaves the process, its page tables and
      the pages of all others as they were and every new page free; a call
      that succeeds gives the process exactly the memory that reading the file
      and pushing the arguments into a flat memory give, with the size, the
      entry point and the stack pointer that belong to it, and frees the old
      one; and it succeeds when the program and its arguments fit and there
      are pages enough ([ExecProofs]).  It assumes that the page tables of the
      process and the free list are in order, that the data segment of the
      kernel lies where kernel.ld puts it ([layout_ok]), and that blocks and
      devices deliver bytes ([storage_ok]).
    - Accounting: reference counts of open files through every system call,
      fork() and exit() ([FdProofs]); the reservation of log blocks; pages:
      tables, frames and free list of an address space hold the same pages
      before and after every operation ([VmGrow], [VmFork]).
    - Programs that read until the end or run for ever: cat and ls on all
      files, by interpretation of their trees; init against all answers of
      the kernel, by coinduction ([ProgsProofs]).
    - Languages: the regular expressions of grep against a declarative
      matching relation ([Grep]), the shell's parser against a printer
      ([ShellProofs]), the programs a command line starts and their
      descriptors ([ShellRun], [Hw2Proofs]), the two shells against each other
      ([Hw2Proofs]), encodings of inodes ([Layout]), strtol() against the
      formatter ([JosString]).
    - Types: the static variables of the JOS console under arbitrary values on
      its ports ([JosInput]).
    - Where the code does something else than it means to, a lemma shows it on
      the model: a log that panics although begin_op() admitted the operation
      ([log_reservation]), kill() of a dead pid ([kill_unused]), copyout()
      through a missing page table ([copyout_no_table]), fork() after sbrk()
      ([copyuvm_hole]), sbrk() without
      allocation ([sbrk_delayed], [sbrk_kernel_pointer]), lines cut by short
      reads in grep ([grep_short_read]), overflow in malloc()
      ([malloc_overflow], [malloc_shrinks]), disk errors taken for data
      ([read_error_valid]), adjacent stabs ([binsearch_adjacent]), formats
      ([minus_pads_left], [error_int_min]), the input ring of JOS
      ([ring_overflow]), delete in an empty line ([delete_at_start]), a fork1()
      that goes on ([fork1_goes_on]), a chopped line ([cd_without_newline]),
      the size of a root directory of full blocks ([root_size_behind]), an
      unknown entry of the BIOS tables ([unknown_entry_hangs]).

    Helper lemmas and automation are in this file (monad laws, the tactics
    [run], [step], [dlia], record update), in [Frame] (hint database [frames])
    and at the head of the files that use them.

    ** Not modelled

    Assembly (bootasm.S, entry.S, context switch, trap frames on the stack)
    and main(), which calls the initialisations in order; the set-up of the
    serial port (uartinit), segment registers (seginit, and of switchuvm all
    but its checks), procdump() and messages on the console where nothing
    depends on them; the test programs; the rest of jos/kern/pmap.c, whose
    functions are empty at this commit, and the other labs' copies of the
    modelled files;
    the copies of xv6 under hw01 and hw03, which differ from the modelled files
    in two system calls.  A process that returns from a system call to user
    code is not followed there.  In [FsCrash] one process runs; the
    interleaving of operations in one transaction is that of [LogProofs]. *)
From Stdlib Require Export ZArith Lia List String Ascii.
From stdpp Require Export base tactics numbers list option gmap.

#[global] Open Scope Z_scope.

(** ** Machine integers

    A C integer is a [Z]; every operation that can leave the range of its
    C type is followed by the conversion to that type. *)

Definition u8 (z : Z) : Z := z mod 2 ^ 8.
Definition u16 (z : Z) : Z := z mod 2 ^ 16.
Definition u32 (z : Z) : Z := z mod 2 ^ 32.
Definition u64 (z : Z) : Z := z mod 2 ^ 64.
Definition s8 (z : Z) : Z := (z + 2 ^ 7) mod 2 ^ 8 - 2 ^ 7.
Definition s16 (z : Z) : Z := (z + 2 ^ 15) mod 2 ^ 16 - 2 ^ 15.
Definition s32 (z : Z) : Z := (z + 2 ^ 31) mod 2 ^ 32 - 2 ^ 31.
Definition s64 (z : Z) : Z := (z + 2 ^ 63) mod 2 ^ 64 - 2 ^ 63.

(** No wrap-around. *)
Lemma u32_small x : 0 <= x < 2 ^ 32 -> u32 x = x.
Proof. apply Z.mod_small. Qed.

(** A C condition [flags & mask] used as a truth value. *)
Definition bitset (flags mask : Z) : bool := negb (Z.land flags mask =? 0).

(** C characters and string literals, as byte values. *)
Definition chr (a : ascii) : Z := Z.of_N (N_of_ascii a).
Definition str (s : string) : list Z := map chr (list_ascii_of_string s).

(** ** Record update [r <| field := v |>] *)

Class Setter {R E : Type} (getter : R -> E) : Type := set_field : (E -> E) -> R -> R.

(** One instance per record lists its fields in order. *)
Class Eta (R : Type) : Type := eta : R -> R.

Ltac build_setter getter :=
  match type of getter with
  | ?R -> _ =>
      let inst := constr:(_ : Eta R) in
      exact (fun f (r : R) => ltac:(
        let body := eval hnf in (inst r) in
        match body with
        | context C [getter r] => let out := context C [f (getter r)] in exact out
        end))
  end.

#[export] Hint Extern 1 (Setter ?g) => build_setter g : typeclass_instances.

Notation "r <| g := v |>" := (set_field (getter := g) (fun _ => v) r)
  (at level 1, left associativity, g at next level).
Notation "r <| g ::= f |>" := (set_field (getter := g) f r)
  (at level 1, left associativity, g at next level).


(** ** Kernel code as state transformers

    A C function that reads and writes the state [S] and returns an [A] is
    an [M S A].  It either returns, or stops for one of the reasons of
    [stop] with the state it left behind. *)

Inductive stop : Type :=
| Panicked (msg : string)   (* panic(msg): the machine is frozen *)
| Asleep (chan : string)    (* in sleep(chan), and nobody calls wakeup(chan) *)
| Spinning                  (* busy-waits for a lock of another CPU *)
| Faulted                   (* dereferences a bad pointer or index *)
| NoFuel.                   (* the bound of a modelled loop was reached *)

Inductive res (S A : Type) : Type :=
| Ret (a : A) (s : S)
| Stop (why : stop) (s : S).
Arguments Ret {S A} a s.
Arguments Stop {S A} why s.

Definition M (S A : Type) : Type := S -> res S A.

Definition ret {S A} (a : A) : M S A := fun s => Ret a s.
Definition bind {S A B} (m : M S A) (k : A -> M S B) : M S B :=
  fun s => match m s with
           | Ret a s' => k a s'
           | Stop w s' => Stop w s'
           end.
Definition get {S A} (f : S -> A) : M S A := fun s => Ret (f s) s.
Definition modify {S} (f : S -> S) : M S unit := fun s => Ret tt (f s).
Definition halt {S A} (w : stop) : M S A := fun s => Stop w s.
Definition panic {S A} (msg : string) : M S A := halt (Panicked msg).

Declare Scope kernel_scope.
Delimit Scope kernel_scope with kernel.
Notation "'let!' x ':=' m 'in' k" := (bind m (fun x => k))
  (at level 10, x pattern, m at level 200, k at level 200) : kernel_scope.
Notation "m ;! k" := (bind m (fun _ => k))
  (at level 199, right associativity) : kernel_scope.
#[global] Open Scope kernel_scope.

(** Panic unless the guard is false; the C text is [if(bad) panic(msg);]. *)
Definition panic_if {S} (bad : bool) (msg : string) : M S unit :=
  if bad then panic msg else ret tt.
(** [*p] and [a[i]] through a pointer that may be null or out of range. *)
Definition deref {S A} (o : option A) : M S A :=
  match o with Some a => ret a | None => halt Faulted end.

(** Run a transformer on one field of the state. *)
Definition zoom {S T A} (g : S -> T) `{Setter S T g} (m : M T A) : M S A :=
  fun s => match m (g s) with
           | Ret a t => Ret a (s <| g := t |>)
           | Stop w t => Stop w (s <| g := t |>)
           end.
(** Run a transformer on element [i] of an array. *)
Definition elt {T A} (i : nat) (m : M T A) : M (list T) A :=
  fun l => match l !! i with
           | None => Stop Faulted l
           | Some x => match m x with
                       | Ret a y => Ret a (<[i := y]> l)
                       | Stop w y => Stop w (<[i := y]> l)
                       end
           end.

(** [for(x in l) body], left early by [Some r]. *)
Fixpoint for_each {S A R} (l : list A) (body : A -> M S (option R)) : M S (option R) :=
  match l with
  | [] => ret None
  | x :: l' =>
      let! o := body x in
      match o with
      | Some r => ret (Some r)
      | None => for_each l' body
      end
  end.
(** [for(x in l) body] with no early exit. *)
Fixpoint for_all {S A} (l : list A) (body : A -> M S unit) : M S unit :=
  match l with
  | [] => ret tt
  | x :: l' => body x ;! for_all l' body
  end.

(** *** Total correctness: [m] returns from [s], in a state where [Q] holds. *)
Definition wp {S A} (m : M S A) (Q : A -> S -> Prop) (s : S) : Prop :=
  match m s with Ret a s' => Q a s' | Stop _ _ => False end.

(** ** Spin locks, as the code that uses them sees them

    The holder is a CPU number.  [Spinlock.v] models the instructions of
    acquire() and release() and proves that they implement this. *)

Class Ctx : Type := { cpu_id : nat; cur_pid : Z }.

Definition spinlock : Type := option nat.

Definition acquire `{Ctx} : M spinlock unit := fun lk =>
  match lk with
  | None => Ret tt (Some cpu_id)
  | Some c => if decide (c = cpu_id) then Stop (Panicked "acquire") lk
              else Stop Spinning lk
  end.
Definition release `{Ctx} : M spinlock unit := fun lk =>
  if decide (lk = Some cpu_id) then Ret tt None
  else Stop (Panicked "release") lk.

(** sleep(chan, lk): gives up the lock and the CPU.  [env] lists what the
    rest of the system does to the state between each call of sleep() and
    the return from it; when it is used up, no wakeup() comes any more. *)
Definition sleep_on {S A} `{Ctx} (chan : string)
    (lk : S -> spinlock) `{Setter S spinlock lk}
    (env : list (S -> S)) (resume : list (S -> S) -> M S A) : M S A :=
  zoom lk release ;!
  match env with
  | [] => halt (Asleep chan)
  | e :: env' => modify e ;! zoom lk acquire ;! resume env'
  end.

(** wakeup(chan) makes the sleepers on [chan] runnable.  It touches the
    process table only ([Proc.v]); a component's own state is unchanged. *)
Definition wakeup {S} (chan : string) : M S unit := ret tt.

(** ** Running the code in proofs *)

Create HintDb kernel discriminated.

Lemma acquire_free `{Ctx} : acquire None = Ret tt (Some cpu_id).
Proof. reflexivity. Qed.
Lemma release_mine `{Ctx} : release (Some cpu_id) = Ret tt None.
Proof. unfold release. destruct (decide _); congruence. Qed.
#[export] Hint Rewrite @acquire_free @release_mine : kernel.

Lemma bind_eq {S A B} (m : M S A) (k : A -> M S B) s a s' :
  m s = Ret a s' -> bind m k s = k a s'.
Proof. intros E. unfold bind. rewrite E. reflexivity. Qed.
Lemma bind_stop {S A B} (m : M S A) (k : A -> M S B) s w s' :
  m s = Stop w s' -> bind m k s = Stop w s'.
Proof. intros E. unfold bind. rewrite E. reflexivity. Qed.
Lemma bind_get {S A B} (f : S -> A) (k : A -> M S B) s : bind (get f) k s = k (f s) s.
Proof. reflexivity. Qed.
Lemma bind_self {S B} (k : S -> M S B) s : bind (get id) k s = k s s.
Proof. reflexivity. Qed.
Lemma bind_modify {S B} (f : S -> S) (k : unit -> M S B) s : bind (modify f) k s = k tt (f s).
Proof. reflexivity. Qed.
Lemma bind_inv {S A B} (m : M S A) (k : A -> M S B) s b s' : bind m k s = Ret b s' ->
  exists a s1, m s = Ret a s1 /\ k a s1 = Ret b s'.
Proof. unfold bind. destruct (m s) as [a s1|w s1]; [eauto | discriminate]. Qed.
Lemma panic_if_inv {S} b msg (s : S) u s' : panic_if b msg s = Ret u s' -> b = false /\ s' = s.
Proof. destruct b; [discriminate|]. intros [= _ <-]. auto. Qed.
Lemma panic_if_false {S} b msg (s : S) : b = false -> panic_if b msg s = Ret tt s.
Proof. intros ->. reflexivity. Qed.
Lemma bind_assoc {S A B C} (m : M S A) (k : A -> M S B) (h : B -> M S C) s :
  bind (bind m k) h s = bind m (fun a => bind (k a) h) s.
Proof. unfold bind. destruct (m s); reflexivity. Qed.
(** Regrouping [m ;! p ;! q ;! rest]. *)
Lemma bind_assoc3 {S A B C D} (m : M S A) (p : A -> M S B) (q : A -> M S C) (h : M S D) s :
  bind (bind m (fun a => bind (p a) (fun _ => q a))) (fun _ => h) s =
  bind m (fun a => bind (p a) (fun _ => bind (q a) (fun _ => h))) s.
Proof. unfold bind. destruct (m s) as [a s1|]; [|reflexivity]. destruct (p a s1); reflexivity. Qed.
(** The loop skips the elements the body has nothing to do for. *)
Lemma for_each_skip {S A R} (P : S -> Prop) (body : A -> M S (option R)) (l l' : list A) : forall s, P s ->
  (forall x s1, x ∈ l -> P s1 -> exists s2, body x s1 = Ret None s2 /\ P s2) ->
  exists s', for_each (l ++ l') body s = for_each l' body s' /\ P s'.
Proof.
  induction l as [|x l IH]; intros s Hs Hb; [exists s; auto|].
  destruct (Hb x s ltac:(left) Hs) as (s1 & E & H1).
  destruct (IH s1 H1) as (s' & E' & H'); [intros y s2 Hy; apply Hb; right; exact Hy|].
  exists s'. split; [|exact H']. cbn [app for_each]. rewrite (bind_eq _ _ _ _ _ E). exact E'.
Qed.
(** Values of a partial function on a list. *)
Lemma omap_ext_in {A B} (f g : A -> option B) (l : list A) : (forall y, y ∈ l -> g y = f y) ->
  omap g l = omap f l.
Proof.
  intros H. induction l as [|y l IH]; [reflexivity|]. cbn. rewrite (H y) by left.
  change (list_omap A B g l) with (omap g l). change (list_omap A B f l) with (omap f l).
  rewrite IH; [reflexivity|]. intros z Hz. apply H. right. exact Hz.
Qed.
(** One more element has a value. *)
Lemma omap_perm_cons {A B} (f g : A -> option B) (l : list A) x v : NoDup l -> x ∈ l ->
  f x = None -> g x = Some v -> (forall y, y ∈ l -> y <> x -> g y = f y) -> omap g l ≡ₚ v :: omap f l.
Proof.
  intros Hnd Hx Hf Hg Heq. apply list_elem_of_split in Hx as (l1 & l2 & ->).
  apply NoDup_app in Hnd as (_ & H1 & H2). apply NoDup_cons in H2 as [H2 _].
  rewrite !omap_app. cbn [omap list_omap]. rewrite Hf, Hg.
  rewrite (omap_ext_in f g l1) by (intros y Hy; apply Heq; [set_solver | intros ->; set_solver]).
  change (list_omap A B g l2) with (omap g l2). change (list_omap A B f l2) with (omap f l2).
  rewrite (omap_ext_in f g l2) by (intros y Hy; apply Heq; [set_solver | intros ->; set_solver]).
  symmetry. apply Permutation_middle.
Qed.
(** Leaving a call: the caller's result is that of the called function. *)
Lemma wp_eq {S A} (m : M S A) Q s a s' : m s = Ret a s' -> Q a s' -> wp m Q s.
Proof. intros E HQ. unfold wp. rewrite E. exact HQ. Qed.

(** Execute the first call of a sequence; [tac] proves what it returns. *)
Tactic Notation "step" "by" tactic3(tac) := erewrite bind_eq by tac; cbn beta iota.
Tactic Notation "step" uconstr(l) := erewrite bind_eq by (eapply l; eassumption); cbn beta iota.

(** lia with division and remainder by constants. *)
Ltac dlia := Z.to_euclidean_division_equations; lia.

(** Unfold the monad and the record updates of the goal and compute. *)
Ltac run :=
  unfold bind, ret, get, modify, halt, panic, panic_if, deref, zoom, set_field; cbn;
  autorewrite with kernel; cbn.
