(* ===== verification/CString.v ===== *)
(** * String and memory primitives

    [src/homeworks/xv6-public/string.c] and the [rep] instructions of
    [x86.h] it uses, over a flat byte memory.  Memory is a function from
    addresses to bytes; pointer arithmetic stays inside the object a pointer
    points into, so addresses are not wrapped.  A loop with no bound in the
    code ([strlen]) takes a fuel argument and returns [None] when it is used
    up: the theorems show that fuel beyond the terminator is enough. *)
From S2P Require Import Prelude.

(** ** Memory *)

Definition mem : Type := Z -> Z.
Definition store8 (m : mem) (a v : Z) : mem := fun x => if x =? a then u8 v else m x.

(** Little-endian 32-bit store, as [stosl] performs it. *)
Definition store32 (m : mem) (a v : Z) : mem :=
  store8 (store8 (store8 (store8 m a v) (a + 1) (Z.shiftr v 8))
                 (a + 2) (Z.shiftr v 16)) (a + 3) (Z.shiftr v 24).

Definition load32 (m : mem) (a : Z) : Z :=
  m a + 2 ^ 8 * m (a + 1) + 2 ^ 16 * m (a + 2) + 2 ^ 24 * m (a + 3).

(** [cld; rep stosb] *)
Fixpoint stosb (m : mem) (addr data : Z) (cnt : nat) : mem :=
  match cnt with
  | O => m
  | S cnt' => stosb (store8 m addr data) (addr + 1) data cnt'
  end.
(** [cld; rep stosl] *)
Fixpoint stosl (m : mem) (addr data : Z) (cnt : nat) : mem :=
  match cnt with
  | O => m
  | S cnt' => stosl (store32 m addr data) (addr + 4) data cnt'
  end.

Definition memset (m : mem) (dst c n : Z) : mem :=
  if (Z.rem (s32 dst) 4 =? 0) && (n mod 4 =? 0) then
    let c := Z.land c 255 in
    stosl m dst (Z.lor (Z.lor (Z.lor (Z.shiftl c 24) (Z.shiftl c 16)) (Z.shiftl c 8)) c)
      (Z.to_nat (n / 4))
  else stosb m dst c (Z.to_nat n).

Fixpoint memcmp_loop (m : mem) (s1 s2 : Z) (n : nat) : Z :=
  match n with
  | O => 0
  | S n' => if m s1 =? m s2 then memcmp_loop m (s1 + 1) (s2 + 1) n' else m s1 - m s2
  end.
Definition memcmp (m : mem) (v1 v2 n : Z) : Z := memcmp_loop m v1 v2 (Z.to_nat n).

(** [while(n-- > 0) *--d = *--s;] *)
Fixpoint copy_down (m : mem) (d s : Z) (n : nat) : mem :=
  match n with
  | O => m
  | S n' => copy_down (store8 m (d - 1) (m (s - 1))) (d - 1) (s - 1) n'
  end.
(** [while(n-- > 0) *d++ = *s++;] *)
Fixpoint copy_up (m : mem) (d s : Z) (n : nat) : mem :=
  match n with
  | O => m
  | S n' => copy_up (store8 m d (m s)) (d + 1) (s + 1) n'
  end.
Definition memmove (m : mem) (dst src n : Z) : mem :=
  if (src <? dst) && (dst <? src + n)
  then copy_down m (dst + n) (src + n) (Z.to_nat n)
  else copy_up m dst src (Z.to_nat n).
Definition memcpy (m : mem) (dst src n : Z) : mem := memmove m dst src n.

(** Chars are compared as signed bytes or as [uchar]s: the equality tests
    agree, and the difference is of the [uchar]s. *)
Fixpoint strncmp (m : mem) (p q : Z) (n : nat) : Z :=
  match n with
  | O => 0
  | S n' => if negb (m p =? 0) && (m p =? m q) then strncmp m (p + 1) (q + 1) n'
            else m p - m q
  end.

(** Second loop of strncpy, [while(n-- > 0) *s++ = 0;]. *)
Fixpoint zero_fill (m : mem) (s : Z) (n : nat) : mem :=
  match n with
  | O => m
  | S n' => zero_fill (store8 m s 0) (s + 1) n'
  end.
(** First loop, [while(n-- > 0 && ( *s++ = *t++) != 0);]: when it ends on
    a zero byte the count left feeds the second loop; when it ends on the
    count, [n] is -1 and the second loop does nothing. *)
Fixpoint strncpy (m : mem) (s t : Z) (n : nat) : mem :=
  match n with
  | O => m
  | S n' =>
      let m' := store8 m s (m t) in
      if m t =? 0 then zero_fill m' (s + 1) n' else strncpy m' (s + 1) (t + 1) n'
  end.

(** [while(--n > 0 && ( *s++ = *t++) != 0); *s = 0;], entered with [n-1]. *)
Fixpoint safestrcpy_loop (m : mem) (s t : Z) (n : nat) : mem :=
  match n with
  | O => store8 m s 0
  | S n' =>
      let m' := store8 m s (m t) in
      if m t =? 0 then store8 m' (s + 1) 0 else safestrcpy_loop m' (s + 1) (t + 1) n'
  end.
Definition safestrcpy (m : mem) (s t n : Z) : mem :=
  if n <=? 0 then m else safestrcpy_loop m s t (Z.to_nat (n - 1)).

Fixpoint strlen (fuel : nat) (m : mem) (s : Z) : option Z :=
  match fuel with
  | O => None
  | S f => if m s =? 0 then Some 0 else Z.add 1 <$> strlen f m (s + 1)
  end.

(** ** What the loops do to memory *)

Ltac mem_cases :=
  cbv beta;
  repeat match goal with
  | |- context [?a =? ?b] => destruct (Z.eqb_spec a b); try subst; simpl
  | |- context [?a <=? ?b] => destruct (Z.leb_spec a b); simpl
  | |- context [?a <? ?b] => destruct (Z.ltb_spec a b); simpl
  end; try lia.

Lemma stosb_lookup n : forall m a c x,
  stosb m a c n x = if (a <=? x) && (x <? a + Z.of_nat n) then u8 c else m x.
Proof.
  induction n as [|n IH]; intros m a c x; [simpl; mem_cases; reflexivity|].
  cbn [stosb]. rewrite IH. unfold store8. mem_cases; reflexivity.
Qed.

Lemma stosl_lookup n : forall m a c x,
  stosl m a c n x =
    if (a <=? x) && (x <? a + 4 * Z.of_nat n)
    then u8 (Z.shiftr c (8 * ((x - a) mod 4))) else m x.
Proof.
  induction n as [|n IH]; intros m a c x; [simpl; mem_cases; reflexivity|].
  cbn [stosl]. rewrite IH.
  replace ((x - (a + 4)) mod 4) with ((x - a) mod 4)
    by (replace (x - a) with (x - (a + 4) + 1 * 4) by lia; apply Z_mod_plus_full).
  unfold store32, store8.
  destruct (decide (a <= x < a + 4)) as [Hin|Hout].
  - assert (x = a \/ x = a + 1 \/ x = a + 2 \/ x = a + 3) as Hx by lia.
    destruct Hx as [-> | [-> | [-> | ->]]]; mem_cases;
      rewrite ?Z.sub_diag, ?Z.add_simpl_l; first [reflexivity | (exfalso; lia)].
  - mem_cases; first [reflexivity | exfalso; lia].
Qed.


(** The bytes of memory are in range. *)
Definition bytes_ok (m : mem) : Prop := forall x, 0 <= m x < 256.

Lemma u8_small z : 0 <= z < 256 -> u8 z = z.
Proof. intros. unfold u8. apply Z.mod_small. lia. Qed.

Lemma store8_ok m a v : bytes_ok m -> bytes_ok (store8 m a v).
Proof.
  intros H x. unfold store8. destruct (x =? a); [|apply H].
  unfold u8. apply Z.mod_pos_bound. lia.
Qed.

Lemma copy_up_lookup n : forall m d s x,
  bytes_ok m -> d <= s \/ s + Z.of_nat n <= d ->
  copy_up m d s n x =
    if (d <=? x) && (x <? d + Z.of_nat n) then m (s + (x - d)) else m x.
Proof.
  induction n as [|n IH]; intros m d s x Hm Hsep; [simpl; mem_cases; reflexivity|].
  cbn [copy_up]. rewrite IH by (auto using store8_ok || lia).
  unfold store8. rewrite (u8_small (m s)) by apply Hm.
  mem_cases; first [reflexivity | f_equal; lia].
Qed.

Lemma copy_down_lookup n : forall m d s x,
  bytes_ok m -> s <= d ->
  copy_down m d s n x =
    if (d - Z.of_nat n <=? x) && (x <? d) then m (s + (x - d)) else m x.
Proof.
  induction n as [|n IH]; intros m d s x Hm Hsep; [simpl; mem_cases; reflexivity|].
  cbn [copy_down]. rewrite IH by (auto using store8_ok || lia).
  unfold store8. rewrite (u8_small (m (s - 1))) by apply Hm.
  mem_cases; first [reflexivity | f_equal; lia].
Qed.

Lemma u8_shiftr v k : 0 <= k -> u8 (Z.shiftr v k) = v / 2 ^ k mod 256.
Proof. intros Hk. unfold u8. rewrite Z.shiftr_div_pow2 by exact Hk. reflexivity. Qed.

Lemma load32_store32 m a v : load32 (store32 m a v) a = u32 v.
Proof.
  unfold load32, store32, store8. rewrite !Z.eqb_refl.
  rewrite !(proj2 (Z.eqb_neq _ _)) by lia. rewrite !u8_shiftr by lia.
  unfold u8, u32. change (2 ^ 8) with 256. change (2 ^ 16) with 65536.
  change (2 ^ 24) with 16777216. change (2 ^ 32) with 4294967296.
  Z.div_mod_to_equations. lia.
Qed.
Lemma store32_other m a v x : x < a \/ a + 4 <= x -> store32 m a v x = m x.
Proof. intros H. unfold store32, store8. rewrite !(proj2 (Z.eqb_neq x _)) by lia. reflexivity. Qed.
Lemma load32_store32_ne m a b v : b + 4 <= a \/ a + 4 <= b -> load32 (store32 m a v) b = load32 m b.
Proof. intros H. unfold load32. rewrite !store32_other by lia. reflexivity. Qed.
Lemma load32_ext m m' a : (forall x, a <= x < a + 4 -> m x = m' x) -> load32 m a = load32 m' a.
Proof. intros H. unfold load32. rewrite !H by lia. reflexivity. Qed.
Lemma store32_ok m a v : bytes_ok m -> bytes_ok (store32 m a v).
Proof. intros H. unfold store32. auto using store8_ok. Qed.
Lemma load32_range m a : bytes_ok m -> 0 <= load32 m a < 2 ^ 32.
Proof.
  intros H. unfold load32. pose proof (H a). pose proof (H (a + 1)).
  pose proof (H (a + 2)). pose proof (H (a + 3)). lia.
Qed.

Definition splat (c : Z) : Z :=
  Z.lor (Z.lor (Z.lor (Z.shiftl c 24) (Z.shiftl c 16)) (Z.shiftl c 8)) c.

Lemma splat_byte c k : 0 <= c < 256 -> 0 <= k < 4 -> u8 (Z.shiftr (splat c) (8 * k)) = c.
Proof.
  intros Hc Hk.
  assert (forallb (fun c => forallb (fun k => u8 (Z.shiftr (splat c) (8 * k)) =? c)
            (seqZ 0 4)) (seqZ 0 256) = true) as Hall by (vm_compute; reflexivity).
  rewrite forallb_forall in Hall.
  assert (Hin : In c (seqZ 0 256)) by (apply list_elem_of_In, elem_of_seqZ; lia).
  specialize (Hall c Hin). rewrite forallb_forall in Hall.
  apply Z.eqb_eq, Hall, list_elem_of_In, elem_of_seqZ. lia.
Qed.

Lemma u8_land c : u8 (Z.land c 255) = u8 c.
Proof.
  unfold u8. change 255 with (Z.ones 8). rewrite Z.land_ones by lia.
  change (2 ^ 8) with 256. apply Z.mod_mod. lia.
Qed.

(** ** Theorems *)

Lemma memset_lookup (m : mem) (dst c n x : Z) (Hn : 0 <= n) :
  memset m dst c n x = if (dst <=? x) && (x <? dst + n) then u8 c else m x.
Proof.
  unfold memset. destruct ((Z.rem (s32 dst) 4 =? 0) && (n mod 4 =? 0)) eqn:E.
  - apply andb_prop in E as [_ E]. apply Z.eqb_eq in E.
    rewrite stosl_lookup. fold (splat (Z.land c 255)).
    assert (0 <= Z.land c 255 < 256) as Hc.
    { change 255 with (Z.ones 8). rewrite Z.land_ones by lia. apply Z.mod_pos_bound. lia. }
    assert (0 <= (x - dst) mod 4 < 4) by (apply Z.mod_pos_bound; lia).
    rewrite splat_byte by lia.
    rewrite Z2Nat.id by (apply Z.div_pos; lia).
    replace (4 * (n / 4)) with n by (rewrite (Z_div_mod_eq_full n 4) at 1; lia).
    destruct (_ && _); [|reflexivity].
    rewrite <- u8_land. symmetry. apply u8_small, Hc.
  - rewrite stosb_lookup, Z2Nat.id by lia. reflexivity.
Qed.

(** memset() writes the low byte of [c] to exactly the [n] bytes from
    [dst], whichever of its two paths (the 32-bit [rep stosl] or the byte
    [rep stosb]) it takes, and nothing else. *)
Theorem memset_spec (m : mem) (dst c n x : Z) (Hn : 0 <= n) :
  memset m dst c n x = if (dst <=? x) && (x <? dst + n) then u8 c else m x.
Proof. apply memset_lookup. exact Hn. Qed.

Example memset_spec_witness :
  0 <= 8 /\ memset (fun _ => 7) 4096 0x1ff 8 4103 = 255.
Proof. split; [lia|]. rewrite (memset_spec (fun _ => 7) 4096 0x1ff 8 4103); [reflexivity|lia]. Defined.

Lemma memmove_lookup (m : mem) (dst src n x : Z) (Hm : bytes_ok m) (Hn : 0 <= n) :
  memmove m dst src n x =
    if (dst <=? x) && (x <? dst + n) then m (src + (x - dst)) else m x.
Proof.
  unfold memmove. destruct ((src <? dst) && (dst <? src + n)) eqn:E.
  - apply andb_prop in E as [E%Z.ltb_lt _].
    rewrite copy_down_lookup by (exact Hm || lia). rewrite Z2Nat.id by lia.
    replace (dst + n - n) with dst by lia.
    destruct (_ && _); [f_equal; lia | reflexivity].
  - rewrite copy_up_lookup; [rewrite Z2Nat.id by lia; reflexivity | exact Hm |].
    apply andb_false_iff in E as [E%Z.ltb_ge | E%Z.ltb_ge]; lia.
Qed.

(** memmove() copies the [n] bytes at [src] as they were before the
    call, also when the two ranges overlap in either direction, and changes
    no other byte. *)
Theorem memmove_spec (m : mem) (dst src n x : Z) (Hm : bytes_ok m) (Hn : 0 <= n) :
  memmove m dst src n x =
    if (dst <=? x) && (x <? dst + n) then m (src + (x - dst)) else m x.
Proof. apply memmove_lookup; assumption. Qed.

Example memmove_spec_witness :
  let m := fun x => Z.land x 255 in
  bytes_ok m /\ 0 <= 16 /\ memmove m 104 100 16 110 = 106.
Proof.
  assert (bytes_ok (fun x => Z.land x 255)) as H.
  { intros x. change 255 with (Z.ones 8). rewrite Z.land_ones by lia.
    apply Z.mod_pos_bound. lia. }
  split; [exact H|]. split; [lia|].
  rewrite (memmove_spec _ 104 100 16 110 H); [reflexivity|lia].
Defined.

(** *** C strings *)

(** [cstring m p l]: at [p] there is the string [l], then its NUL. *)
Fixpoint cstring (m : mem) (p : Z) (l : list Z) : Prop :=
  match l with
  | [] => m p = 0
  | c :: l' => m p = c /\ c <> 0 /\ cstring m (p + 1) l'
  end.

Lemma cstring_ext l : forall m m' p,
  (forall x, p <= x <= p + Z.of_nat (length l) -> m' x = m x) ->
  cstring m p l -> cstring m' p l.
Proof.
  induction l as [|c l IH]; intros m m' p He; simpl in *.
  - intros Hs. rewrite He by lia. exact Hs.
  - intros (Hc & Hnz & Hl). rewrite He by lia. repeat split; auto.
    apply (IH m); [intros; apply He; lia | exact Hl].
Qed.

Lemma strlen_cstring l : forall m p fuel,
  cstring m p l -> (length l < fuel)%nat -> strlen fuel m p = Some (Z.of_nat (length l)).
Proof.
  induction l as [|c l IH]; intros m p [|fuel] Hs Hf; cbn [cstring length] in *; try lia.
  - cbn. rewrite Hs. reflexivity.
  - destruct Hs as (Hc & Hnz & Hl). cbn [strlen].
    rewrite (proj2 (Z.eqb_neq _ _)) by congruence.
    rewrite (IH m (p + 1) fuel Hl) by lia. cbn. f_equal. lia.
Qed.

Lemma zero_fill_lookup n : forall m s x,
  zero_fill m s n x = if (s <=? x) && (x <? s + Z.of_nat n) then 0 else m x.
Proof.
  induction n as [|n IH]; intros m s x; [simpl; mem_cases; reflexivity|].
  cbn [zero_fill]. rewrite IH. unfold store8. mem_cases; reflexivity.
Qed.

(** Byte [i] of the NUL-padded string [l]. *)
Definition padded (l : list Z) (i : Z) : Z := default 0 (l !! Z.to_nat i).

Lemma padded_cons c l i : 0 < i -> padded (c :: l) i = padded l (i - 1).
Proof.
  intros Hi. unfold padded. replace (Z.to_nat i) with (S (Z.to_nat (i - 1))) by lia.
  reflexivity.
Qed.

Lemma strncpy_lookup n : forall l m s t x,
  bytes_ok m -> cstring m t l ->
  s + Z.of_nat n <= t \/ t + Z.of_nat (length l) < s ->
  strncpy m s t n x =
    if (s <=? x) && (x <? s + Z.of_nat n) then padded l (x - s) else m x.
Proof.
  induction n as [|n IH]; intros l m s t x Hm Hs Hsep; [simpl; mem_cases; reflexivity|].
  cbn [strncpy].
  destruct l as [|c l]; simpl in Hs, Hsep.
  - rewrite Hs, Z.eqb_refl, zero_fill_lookup. unfold store8, padded.
    rewrite lookup_nil. mem_cases; reflexivity.
  - destruct Hs as (Hc & Hnz & Hl). rewrite Hc, (proj2 (Z.eqb_neq _ _)) by exact Hnz.
    pose proof (Hm t) as Hb. rewrite Hc in Hb.
    rewrite (IH l) by (auto using store8_ok || lia ||
      (apply (cstring_ext _ m); [|exact Hl]; intros y Hy; unfold store8; mem_cases; reflexivity)).
    unfold store8. rewrite (u8_small c) by exact Hb.
    mem_cases; rewrite ?Z.sub_diag; try reflexivity.
    rewrite padded_cons by lia. f_equal. lia.
Qed.

Lemma safestrcpy_loop_spec n : forall l m s t,
  bytes_ok m -> cstring m t l ->
  s + Z.of_nat n < t \/ t + Z.of_nat (length l) < s ->
  let m' := safestrcpy_loop m s t n in
  cstring m' s (take n l) /\
  (forall x, x < s \/ s + Z.of_nat n < x -> m' x = m x).
Proof.
  induction n as [|n IH]; intros l m s t Hm Hs Hsep; cbv zeta.
  - rewrite take_0. cbn [cstring safestrcpy_loop].
    split; [unfold store8; mem_cases; reflexivity|].
    intros x Hx. unfold store8. mem_cases; reflexivity.
  - cbn [safestrcpy_loop]. destruct l as [|c l]; simpl in Hs, Hsep.
    + rewrite Hs, Z.eqb_refl, take_nil. cbn [cstring]. unfold store8.
      split; [mem_cases; reflexivity|].
      intros x Hx. mem_cases; reflexivity.
    + destruct Hs as (Hc & Hnz & Hl). rewrite Hc, (proj2 (Z.eqb_neq _ _)) by exact Hnz.
      pose proof (Hm t) as Hb. rewrite Hc in Hb.
      destruct (IH l (store8 m s c) (s + 1) (t + 1)) as [H1 H2]; auto using store8_ok; [|lia|].
      { apply (cstring_ext _ m); [|exact Hl]. intros y Hy. unfold store8. mem_cases; reflexivity. }
      cbn [firstn cstring]. split.
      * split; [|split; [exact Hnz | exact H1]].
        rewrite H2 by lia. unfold store8. rewrite Z.eqb_refl. apply u8_small, Hb.
      * intros x Hx. rewrite H2 by lia. unfold store8. mem_cases; reflexivity.
Qed.

(** strncpy() writes the string at [t], padded with NULs, to exactly the
    [n] bytes at [s]: a long name is cut without a terminator, a short one is
    zero-filled (what directory entries and [namecmp] rely on). *)
Theorem strncpy_spec (m : mem) (s t : Z) (n : nat) (l : list Z) (x : Z)
  (Hm : bytes_ok m) (Hs : cstring m t l)
  (Hsep : s + Z.of_nat n <= t \/ t + Z.of_nat (length l) < s) :
  strncpy m s t n x =
    if (s <=? x) && (x <? s + Z.of_nat n) then padded l (x - s) else m x.
Proof. apply strncpy_lookup; assumption. Qed.

(** Memory with the string [l] at address 0 and zeroes elsewhere. *)
Definition mem_of (l : list Z) : mem := fun x => if x <? 0 then 0 else u8 (padded l x).

Lemma mem_of_ok l : bytes_ok (mem_of l).
Proof.
  intros x. unfold mem_of. destruct (x <? 0); [lia|]. unfold u8.
  apply Z.mod_pos_bound. lia.
Qed.

Example strncpy_spec_witness :
  let m := mem_of (str "usertests_long") in
  bytes_ok m /\ cstring m 0 (str "usertests_long") /\
  strncpy m 100 0 6 105 = chr "e" /\ strncpy m 100 0 6 106 = 0.
Proof.
  assert (cstring (mem_of (str "usertests_long")) 0 (str "usertests_long")) as Hs
    by (cbn; repeat split; try reflexivity; discriminate).
  split; [apply mem_of_ok|]. split; [exact Hs|].
  rewrite !(strncpy_spec _ 100 0 6 _ _ (mem_of_ok _) Hs) by (right; vm_compute; reflexivity).
  split; reflexivity.
Defined.

(** safestrcpy() always leaves a NUL-terminated string: the first [n-1]
    characters of the source at most, all written within the [n] bytes of the
    destination. *)
Theorem safestrcpy_spec (m : mem) (s t n : Z) (l : list Z)
  (Hm : bytes_ok m) (Hn : 0 < n) (Hs : cstring m t l)
  (Hsep : s + n <= t \/ t + Z.of_nat (length l) < s) :
  cstring (safestrcpy m s t n) s (take (Z.to_nat (n - 1)) l) /\
  (forall x, x < s \/ s + n <= x -> safestrcpy m s t n x = m x).
Proof.
  unfold safestrcpy. destruct (Z.leb_spec n 0); [lia|].
  destruct (safestrcpy_loop_spec (Z.to_nat (n - 1)) l m s t) as [H1 H2]; auto; [lia|].
  split; [exact H1|]. intros x Hx. apply H2. lia.
Qed.

Example safestrcpy_spec_witness :
  let m := mem_of (str "initcode") in
  bytes_ok m /\ 0 < 5 /\ cstring m 0 (str "initcode") /\
  cstring (safestrcpy m 16 0 5) 16 (str "init").
Proof.
  assert (cstring (mem_of (str "initcode")) 0 (str "initcode")) as Hs
    by (cbn; repeat split; try reflexivity; discriminate).
  split; [apply mem_of_ok|]. split; [lia|]. split; [exact Hs|].
  apply (safestrcpy_spec _ 16 0 5 (str "initcode") (mem_of_ok _)); [lia | exact Hs |].
  right. vm_compute. reflexivity.
Defined.
