(* ===== verification/Spinlock.v ===== *)
(** * Spin locks on several CPUs

    [src/homeworks/xv6-public/spinlock.c].  [Spin] models the functions as
    one CPU runs them, with the interrupt flag and the pushcli() nesting of
    that CPU.  [Smp] is the interleaving of the lock's instructions by all
    CPUs, the [xchg] being atomic.  The rest of the development uses the
    abstract lock of the prelude, which [acquire_refines] and
    [release_refines] justify. *)
From S2P Require Import Prelude.

Module Spin.

(** struct spinlock, without its debugging name; [pcs] is the recorded
    call stack. *)
Record slock := mk_slock { locked : Z; holder : option nat; pcs : list Z }.
#[export] Instance eta_slock : Eta slock := fun l => mk_slock (locked l) (holder l) (pcs l).

(** The fields of struct cpu that spinlock.c uses, and the interrupt flag of
    the CPU's eflags. *)
Record cpu := mk_cpu { ncli : Z; intena : bool; fl_if : bool }.
#[export] Instance eta_cpu : Eta cpu := fun c => mk_cpu (ncli c) (intena c) (fl_if c).

(** What one CPU works on: the lock, its own struct cpu, and memory (32-bit
    words by address) for the walk up the stack. *)
Record mach := mk_mach { lk : slock; mycpu_state : cpu; words : Z -> Z }.
#[export] Instance eta_mach : Eta mach := fun m => mk_mach (lk m) (mycpu_state m) (words m).

Section OneCpu.
Context `{Ctx}.

Definition initlock : M slock unit :=
  modify (fun l => l <| locked := 0 |> <| holder := None |>).

Definition cli : M cpu unit := modify (fun c => c <| fl_if := false |>).
Definition sti : M cpu unit := modify (fun c => c <| fl_if := true |>).

(** mycpu() of proc.c finds the entry of this CPU by its local APIC id. *)
Definition mycpu : M cpu nat :=
  let! fi := get fl_if in
  panic_if fi "mycpu called with interrupts enabled" ;!
  ret cpu_id.

Definition pushcli : M cpu unit :=
  let! eflags := get fl_if in
  cli ;!
  let! _ := mycpu in
  let! n := get ncli in
  (if n =? 0 then modify (fun c => c <| intena := eflags |>) else ret tt) ;!
  modify (fun c => c <| ncli ::= fun n => n + 1 |>).

Definition popcli : M cpu unit :=
  let! fi := get fl_if in
  panic_if fi "popcli - interruptible" ;!
  let! _ := mycpu in
  modify (fun c => c <| ncli ::= fun n => n - 1 |>) ;!
  let! n := get ncli in
  panic_if (n <? 0) "popcli" ;!
  let! ie := get intena in
  if (n =? 0) && ie then sti else ret tt.

Definition holding : M mach bool :=
  zoom mycpu_state pushcli ;!
  let! l := get lk in
  let! me := zoom mycpu_state mycpu in
  let r := negb (locked l =? 0) && bool_decide (holder l = Some me) in
  zoom mycpu_state popcli ;!
  ret r.

Definition KERNBASE : Z := 0x80000000.

(** getcallerpcs(): up to ten return addresses along the [%ebp] chain, the
    rest zero.  [left] counts the entries still to fill. *)
Fixpoint getcallerpcs (w : Z -> Z) (ebp : Z) (left : nat) : list Z :=
  match left with
  | O => []
  | S n =>
      if (ebp =? 0) || (ebp <? KERNBASE) || (ebp =? 0xffffffff)
      then repeat 0 left
      else w (ebp + 4) :: getcallerpcs w (w ebp) n
  end.

(** [xchg(&lk->locked, v)], one atomic instruction. *)
Definition xchg (v : Z) : M slock Z :=
  let! old := get locked in
  modify (fun l => l <| locked := v |>) ;! ret old.

(** [frame] is the address of acquire()'s argument, from which the caller's
    frame is found.  With the lock held by another CPU the [xchg] loop does
    not end while this CPU runs alone. *)
Definition acquire (frame : Z) : M mach unit :=
  zoom mycpu_state pushcli ;!
  let! h := holding in
  panic_if h "acquire" ;!
  let! old := zoom lk (xchg 1) in
  (if old =? 0 then ret tt else halt Spinning) ;!
  let! me := zoom mycpu_state mycpu in
  modify (fun m => m <| lk ::= fun l => l <| holder := Some me |> |>) ;!
  modify (fun m => m <| lk ::= fun l =>
                     l <| pcs := getcallerpcs (words m) (frame - 8) 10 |> |>).

Definition release : M mach unit :=
  let! h := holding in
  panic_if (negb h) "release" ;!
  modify (fun m => m <| lk ::= fun l => l <| pcs ::= fun p => <[0%nat := 0]> p |> |>) ;!
  modify (fun m => m <| lk ::= fun l => l <| holder := None |> |>) ;!
  modify (fun m => m <| lk ::= fun l => l <| locked := 0 |> |>) ;!
  zoom mycpu_state popcli.

End OneCpu.
End Spin.

(** The same instructions, one at a time, on all CPUs. *)
Module Smp.
Import Spin.

(** Where a CPU stands in acquire()/release(). *)
Inductive phase : Type :=
| Idle         (* not using the lock *)
| Trying       (* in the xchg loop *)
| Won          (* its xchg returned 0; lk->cpu not yet written *)
| Inside       (* acquire() returned *)
| Leaving.     (* release() cleared lk->cpu; lk->locked still set *)
#[export] Instance phase_eq_dec : EqDecision phase.
Proof. solve_decision. Defined.

(** Lock fields, and the phase of each CPU. *)
Record state := mk_state { s_locked : Z; s_cpu : option nat; s_phase : nat -> phase }.

Definition set_phase (f : nat -> phase) (c : nat) (p : phase) : nat -> phase :=
  fun c' => if decide (c' = c) then p else f c'.

Definition init : state := mk_state 0 None (fun _ => Idle).

Inductive step : state -> state -> Prop :=
| step_try c l h f :          (* acquire(): holding() is false *)
    f c = Idle -> ~ (l <> 0 /\ h = Some c) ->
    step (mk_state l h f) (mk_state l h (set_phase f c Trying))
| step_xchg_fail c l h f :    (* xchg returns non-zero *)
    f c = Trying -> l <> 0 ->
    step (mk_state l h f) (mk_state 1 h f)
| step_xchg_win c l h f :     (* xchg returns zero *)
    f c = Trying -> l = 0 ->
    step (mk_state l h f) (mk_state 1 h (set_phase f c Won))
| step_record c l h f :       (* lk->cpu = mycpu() *)
    f c = Won ->
    step (mk_state l h f) (mk_state l (Some c) (set_phase f c Inside))
| step_clear c l h f :        (* release(): holding() is true; lk->cpu = 0 *)
    f c = Inside -> l <> 0 -> h = Some c ->
    step (mk_state l h f) (mk_state l None (set_phase f c Leaving))
| step_unlock c l h f :       (* movl $0, lk->locked *)
    f c = Leaving ->
    step (mk_state l h f) (mk_state 0 h (set_phase f c Idle)).

(** The CPUs between a winning [xchg] and the final store. *)
Definition owns (p : phase) : Prop := p = Won \/ p = Inside \/ p = Leaving.
End Smp.

(** ** Mutual exclusion *)
Module SmpProofs.
Import Spin Smp.

Definition safe (s : state) : Prop :=
  (forall c, owns (s_phase s c) -> s_locked s <> 0) /\
  (forall c c', owns (s_phase s c) -> owns (s_phase s c') -> c = c') /\
  (forall c, s_phase s c = Inside -> s_cpu s = Some c).

Lemma owns_spec p : owns p <-> p <> Idle /\ p <> Trying.
Proof. unfold owns. destruct p; intuition congruence. Qed.

Ltac phases :=
  intros; unfold set_phase in *; repeat case_decide; subst;
  rewrite ?owns_spec in *; try (intuition congruence).

Lemma step_safe s s' : safe s -> step s s' -> safe s'.
Proof.
  unfold safe. intros (H0 & H1 & H2) Hstep.
  destruct Hstep as [c l h f E _|c l h f E E'|c l h f E E'|c l h f E|c l h f E E' Eh|c l h f E];
    simpl in *; (split; [|split]); phases;
    try (apply H1; rewrite owns_spec; intuition congruence);
    try (apply H2; intuition congruence);
    match goal with
    | H : f ?x <> Idle /\ _ |- ?l <> 0 =>
        first [ apply (H0 x); rewrite owns_spec; intuition congruence
              | exfalso; assert (x = c) by (apply H1; rewrite owns_spec; intuition congruence);
                intuition congruence ]
    | |- _ <> 0 => apply (H0 c); rewrite owns_spec; intuition congruence
    | H : f ?x <> Idle /\ _ |- _ => exfalso; apply (H0 x); rewrite ?owns_spec; intuition congruence
    | H : f ?x = Inside |- _ =>
        assert (x = c) by (apply H1; rewrite owns_spec; intuition congruence);
        intuition congruence
    end.
Qed.

Lemma reachable_safe s : rtc step init s -> safe s.
Proof.
  assert (safe init) as Hinit.
  { unfold safe, owns; simpl. repeat split; intros; destruct_or?; congruence. }
  intros Hr. remember init as s0. clear Heqs0.
  induction Hr; eauto using step_safe.
Qed.

(** C24. In every interleaving of acquire() and release() on any number of
    CPUs, at most one CPU is between a winning [xchg] and its final store,
    and a CPU inside its critical section is the one [lk->cpu] records. *)
Theorem mutual_exclusion (s : state) (c c' : nat)
  (Hr : rtc step init s) (Hc : owns (s_phase s c)) (Hc' : owns (s_phase s c')) :
  c = c' /\ (s_phase s c = Inside -> s_cpu s = Some c).
Proof.
  destruct (reachable_safe s Hr) as (_ & H1 & H2). split; [eauto | apply H2].
Qed.

Example mutual_exclusion_witness :
  exists s, rtc step init s /\ owns (s_phase s 3%nat) /\ s_cpu s = Some 3%nat.
Proof.
  exists (mk_state 1 (Some 3%nat) (set_phase (set_phase (set_phase (fun _ => Idle)
           3 Trying) 3 Won) 3 Inside)).
  assert (rtc step init (mk_state 1 (Some 3%nat)
     (set_phase (set_phase (set_phase (fun _ => Idle) 3 Trying) 3 Won) 3 Inside))) as Hr.
  { eapply rtc_l; [apply (step_try 3); [reflexivity|intros [H _]; apply H; reflexivity]|].
    eapply rtc_l; [apply (step_xchg_win 3); reflexivity|].
    eapply rtc_l; [apply (step_record 3); reflexivity|]. apply rtc_refl. }
  split; [exact Hr|]. split; [right; left; reflexivity|].
  refine (proj2 (mutual_exclusion _ 3 3 Hr _ _) eq_refl); right; left; reflexivity.
Defined.
End SmpProofs.

(** ** The lock the rest of the kernel sees *)
Module SpinProofs.
Import Spin.
Section Refinement.
Context `{Ctx}.

Definition lock_view (l : slock) : spinlock :=
  if locked l =? 0 then None else holder l.

(** Interrupts are off while pushcli() is nested, and a taken lock has an
    owner on record. *)
Definition cpu_ok (c : cpu) : Prop := 0 <= ncli c /\ (0 < ncli c -> fl_if c = false).
Definition lock_ok (l : slock) : Prop := locked l <> 0 -> is_Some (holder l).

(** The CPU state after one more pushcli(). *)
Definition pushed (c : cpu) : cpu :=
  mk_cpu (ncli c + 1) (if ncli c =? 0 then fl_if c else intena c) false.

Lemma pushcli_eq c : pushcli c = Ret tt (pushed c).
Proof. destruct c as [n i f]. unfold pushcli, pushed. cbn. destruct (n =? 0); reflexivity. Qed.

Lemma mycpu_pushed c : mycpu (pushed c) = Ret cpu_id (pushed c).
Proof. reflexivity. Qed.

Lemma popcli_pushed c : cpu_ok c ->
  popcli (pushed c) =
    Ret tt (mk_cpu (ncli c) (if ncli c =? 0 then fl_if c else intena c) (fl_if c)).
Proof.
  intros [Hn Hf]. destruct c as [n i f]. unfold popcli, pushed. cbn in *.
  replace (n + 1 - 1) with n by lia. rewrite (proj2 (Z.ltb_ge n 0)) by lia. cbn.
  destruct (Z.eqb_spec n 0) as [->|Hnz]; cbn.
  - destruct f; reflexivity.
  - rewrite Hf by lia. run. replace (n + 1 - 1) with n by lia. reflexivity.
Qed.

Lemma pushed_ok c : cpu_ok c -> cpu_ok (pushed c).
Proof. intros [Hn Hf]. split; cbn; [lia | reflexivity]. Qed.

Definition held_by_me (l : slock) : bool :=
  negb (locked l =? 0) && bool_decide (holder l = Some cpu_id).

(** holding() inside a pushcli() leaves the machine as it was. *)
Lemma holding_pushed l c w : cpu_ok c ->
  holding (mk_mach l (pushed c) w) = Ret (held_by_me l) (mk_mach l (pushed c) w).
Proof.
  intros Hc. unfold holding, bind, zoom, get, set_field.
  cbn -[pushed popcli pushcli mycpu]. rewrite pushcli_eq.
  cbn -[pushed popcli mycpu]. rewrite mycpu_pushed.
  cbn -[pushed popcli]. rewrite popcli_pushed by (apply pushed_ok, Hc).
  unfold ret, held_by_me. cbn.
  destruct (Z.eqb_spec (ncli c + 1) 0); [destruct Hc; lia | reflexivity].
Qed.

(** [release] is entered with the interrupts already off. *)
Lemma holding_off l n i w : 0 < n ->
  holding (mk_mach l (mk_cpu n i false) w) = Ret (held_by_me l) (mk_mach l (mk_cpu n i false) w).
Proof.
  intros Hn.
  replace (mk_cpu n i false) with (pushed (mk_cpu (n - 1) i (if n - 1 =? 0 then i else false))).
  2: { unfold pushed. cbn. replace (n - 1 + 1) with n by lia.
       destruct (n - 1 =? 0); reflexivity. }
  apply holding_pushed. split; cbn; [lia|]. intros.
  destruct (Z.eqb_spec (n - 1) 0); [lia | reflexivity].
Qed.

Lemma held_by_me_view l : lock_ok l -> held_by_me l = bool_decide (lock_view l = Some cpu_id).
Proof.
  unfold lock_ok, held_by_me, lock_view. intros Hl. destruct (Z.eqb_spec (locked l) 0); [|reflexivity].
  symmetry. apply bool_decide_eq_false. discriminate.
Qed.

(** acquire() implements the abstract lock: it takes a free lock and
    leaves interrupts off and pushcli() one deeper, panics when this CPU
    already holds the lock, and spins when another CPU does. *)
Theorem acquire_refines (frame : Z) (m : mach)
  (Hc : cpu_ok (mycpu_state m)) (Hl : lock_ok (lk m)) :
  match acquire frame m with
  | Ret _ m' => Prelude.acquire (lock_view (lk m)) = Ret tt (lock_view (lk m')) /\
                mycpu_state m' = pushed (mycpu_state m) /\ lock_ok (lk m')
  | Stop w _ => Prelude.acquire (lock_view (lk m)) = Stop w (lock_view (lk m))
  end.
Proof.
  destruct m as [l c w]. cbn [lk mycpu_state] in *. unfold acquire, bind, zoom, set_field.
  cbn -[pushed pushcli holding]. rewrite pushcli_eq. cbn -[pushed holding].
  rewrite holding_pushed by exact Hc.
  rewrite held_by_me_view by exact Hl. unfold Prelude.acquire.
  destruct (lock_view l) as [h|] eqn:Ev.
  - destruct (decide (h = cpu_id)) as [->|Hne]; cbn.
    + rewrite bool_decide_eq_true_2 by reflexivity. reflexivity.
    + rewrite bool_decide_eq_false_2 by congruence. cbn.
      unfold lock_view in Ev. destruct (locked l =? 0); [discriminate|]. cbn. reflexivity.
  - rewrite bool_decide_eq_false_2 by discriminate. unfold lock_view, lock_ok in *.
    destruct (Z.eqb_spec (locked l) 0) as [E|E]; [|destruct (Hl E); congruence].
    cbn. rewrite E. cbn. split; [reflexivity|]. split; [reflexivity|]. intros _. eexists. reflexivity.
Qed.

(** release() implements the abstract lock: the holder frees it and
    undoes the pushcli() of its acquire(), so that the interrupt flag is what
    it was before; any other caller panics and changes nothing. *)
Theorem release_refines (l : slock) (c : cpu) (w : Z -> Z)
  (Hc : cpu_ok c) (Hl : lock_ok l) :
  match release (mk_mach l (pushed c) w) with
  | Ret _ m' => Prelude.release (lock_view l) = Ret tt (lock_view (lk m')) /\
                fl_if (mycpu_state m') = fl_if c /\ ncli (mycpu_state m') = ncli c /\
                lock_ok (lk m')
  | Stop x m' => Prelude.release (lock_view l) = Stop x (lock_view l) /\ lk m' = l
  end.
Proof.
  unfold release, bind. rewrite holding_pushed by exact Hc.
  rewrite held_by_me_view by exact Hl. unfold Prelude.release.
  destruct (decide (lock_view l = Some cpu_id)) as [E|E].
  - rewrite bool_decide_eq_true_2 by exact E. unfold zoom, set_field.
    cbn -[pushed popcli]. rewrite popcli_pushed by exact Hc. cbn.
    repeat split; try reflexivity. intros H0. contradiction H0. reflexivity.
  - rewrite bool_decide_eq_false_2 by exact E. cbn. split; reflexivity.
Qed.
End Refinement.

Example acquire_refines_witness :
  let ctx := {| cpu_id := 1; cur_pid := 3 |} in
  let m := mk_mach (mk_slock 0 None (repeat 0 10)) (mk_cpu 0 false true) (fun _ => 0) in
  cpu_ok (mycpu_state m) /\ lock_ok (lk m) /\
  exists m', acquire 0x8dfffff0 m = Ret tt m' /\
    Prelude.acquire (lock_view (lk m)) = Ret tt (lock_view (lk m')).
Proof.
  cbv zeta.
  assert (cpu_ok (mk_cpu 0 false true)) as Hc by (split; cbn; intros; lia).
  assert (lock_ok (mk_slock 0 None (repeat 0 10))) as Hl by (intros H0; contradiction H0; reflexivity).
  split; [exact Hc|]. split; [exact Hl|].
  pose proof (@acquire_refines {| cpu_id := 1; cur_pid := 3 |} 0x8dfffff0
    (mk_mach (mk_slock 0 None (repeat 0 10)) (mk_cpu 0 false true) (fun _ => 0)) Hc Hl) as H.
  eexists. split; [vm_compute; reflexivity|]. exact (proj1 H).
Defined.

Example release_refines_witness :
  let ctx := {| cpu_id := 1; cur_pid := 3 |} in
  let l := mk_slock 1 (Some 1%nat) (repeat 0 10) in
  cpu_ok (mk_cpu 0 false true) /\ lock_ok l /\
  exists m', release (mk_mach l (pushed (mk_cpu 0 false true)) (fun _ => 0)) = Ret tt m' /\
    fl_if (mycpu_state m') = true.
Proof.
  cbv zeta.
  assert (cpu_ok (mk_cpu 0 false true)) as Hc by (split; cbn; intros; lia).
  assert (lock_ok (mk_slock 1 (Some 1%nat) (repeat 0 10))) as Hl by (intros _; eexists; reflexivity).
  split; [exact Hc|]. split; [exact Hl|].
  pose proof (@release_refines {| cpu_id := 1; cur_pid := 3 |} _ _ (fun _ => 0) Hc Hl) as H.
  eexists. split; [vm_compute; reflexivity|]. exact (proj1 (proj2 H)).
Defined.
End SpinProofs.
