(* ===== verification/Sleeplock.v ===== *)
(** * Sleep locks

    [src/homeworks/xv6-public/sleeplock.c]: the functions, and the
    interleaving of any number of processes that call them.  The critical
    sections of the inner spin lock are atomic ([Spinlock.v]). *)
From S2P Require Import Prelude.

(** struct sleeplock, without its debugging name. *)
Record sleeplock := mk_sleeplock { sl_locked : Z; sl_lk : spinlock; sl_pid : Z }.
#[export] Instance eta_sleeplock : Eta sleeplock :=
  fun l => mk_sleeplock (sl_locked l) (sl_lk l) (sl_pid l).

Section Code.
Context `{Ctx}.

Definition initsleeplock : M sleeplock unit :=
  modify (fun l => l <| sl_lk := None |> <| sl_locked := 0 |> <| sl_pid := 0 |>).

(** [while (lk->locked) sleep(lk, &lk->lk);] and the two stores after it. *)
Fixpoint acquiresleep_loop (env : list (sleeplock -> sleeplock)) : M sleeplock unit :=
  let! locked := get sl_locked in
  if locked =? 0 then
    modify (fun l => l <| sl_locked := 1 |>) ;!
    modify (fun l => l <| sl_pid := cur_pid |>)
  else
    zoom sl_lk release ;!
    match env with
    | [] => halt (Asleep "sleeplock")
    | e :: env' => modify e ;! zoom sl_lk acquire ;! acquiresleep_loop env'
    end.

Definition acquiresleep (env : list (sleeplock -> sleeplock)) : M sleeplock unit :=
  zoom sl_lk acquire ;!
  acquiresleep_loop env ;!
  zoom sl_lk release.

(** releasesleep() on a lock [lk] inside a state [S]; [wake] is what
    wakeup(lk) does to the sleepers in that state. *)
Definition releasesleep_in {S} (lk : S -> sleeplock) `{Setter S sleeplock lk} (wake : M S unit) : M S unit :=
  zoom lk (zoom sl_lk acquire) ;!
  zoom lk (modify (fun l => l <| sl_locked := 0 |>)) ;!
  zoom lk (modify (fun l => l <| sl_pid := 0 |>)) ;!
  wake ;!
  zoom lk (zoom sl_lk release).
(** For a caller whose state does not hold the sleepers. *)
Definition releasesleep : M sleeplock unit :=
  @releasesleep_in sleeplock (fun l => l) (fun f => f) (wakeup "sleeplock").

Definition holdingsleep : M sleeplock bool :=
  zoom sl_lk acquire ;!
  let! l := get (fun l => l) in
  let r := negb (sl_locked l =? 0) && (sl_pid l =? cur_pid) in
  zoom sl_lk release ;!
  ret r.
End Code.

(** ** Processes sharing one sleep lock

    Processes are named by their pids.  Each step runs the code above. *)
Inductive sphase : Type := Out | Waiting | Woken | Holding.
#[export] Instance sphase_eq_dec : EqDecision sphase.
Proof. solve_decision. Defined.

Record sstate := mk_sstate { ss_lock : sleeplock; ss_phase : Z -> sphase }.
#[export] Instance eta_sstate : Eta sstate := fun s => mk_sstate (ss_lock s) (ss_phase s).

Definition sset (f : Z -> sphase) (p : Z) (x : sphase) : Z -> sphase :=
  fun q => if decide (q = p) then x else f q.
(** wakeup(lk) in this state: every process sleeping on the lock becomes
    runnable.  Only releasesleep() calls it. *)
Definition wake_all (f : Z -> sphase) : Z -> sphase :=
  fun q => match f q with Waiting => Woken | x => x end.
Definition wake_sleepers : M sstate unit := modify (fun s => s <| ss_phase ::= wake_all |>).

Definition ctx_of (cpu : nat) (p : Z) : Ctx := {| cpu_id := cpu; cur_pid := p |}.

Inductive sstep : sstate -> sstate -> Prop :=
| sstep_acquire cpu p l f l' :
    f p = Out \/ f p = Woken ->
    @acquiresleep (ctx_of cpu p) [] l = Ret tt l' ->
    sstep (mk_sstate l f) (mk_sstate l' (sset f p Holding))
| sstep_block cpu p l f l' :
    f p = Out \/ f p = Woken ->
    @acquiresleep (ctx_of cpu p) [] l = Stop (Asleep "sleeplock") l' ->
    sstep (mk_sstate l f) (mk_sstate l' (sset f p Waiting))
| sstep_release cpu p l f l' f' :
    f p = Holding ->
    @releasesleep_in (ctx_of cpu p) sstate ss_lock _ wake_sleepers (mk_sstate l f) = Ret tt (mk_sstate l' f') ->
    sstep (mk_sstate l f) (mk_sstate l' (sset f' p Out)).

Definition sinit : sstate := mk_sstate (mk_sleeplock 0 None 0) (fun _ => Out).

(** ** Results of the calls *)
Section Lemmas.
Context `{Ctx}.

Lemma acquiresleep_eq l : sl_lk l = None ->
  acquiresleep [] l =
    if sl_locked l =? 0 then Ret tt (mk_sleeplock 1 None cur_pid)
    else Stop (Asleep "sleeplock") l.
Proof.
  intros Hl. destruct l as [k s p]. cbn in Hl. subst s. unfold acquiresleep. run.
  destruct (k =? 0); run; autorewrite with kernel; reflexivity.
Qed.

Lemma releasesleep_eq l : sl_lk l = None ->
  releasesleep l = Ret tt (mk_sleeplock 0 None 0).
Proof.
  intros Hl. destruct l as [k s p]. cbn in Hl. subst s. unfold releasesleep, releasesleep_in, wakeup. run.
  autorewrite with kernel. reflexivity.
Qed.

Lemma releasesleep_wakes l f : sl_lk l = None ->
  releasesleep_in ss_lock wake_sleepers (mk_sstate l f) = Ret tt (mk_sstate (mk_sleeplock 0 None 0) (wake_all f)).
Proof.
  intros Hl. destruct l as [k s p]. cbn in Hl. subst s. unfold releasesleep_in, wake_sleepers. run.
  autorewrite with kernel. reflexivity.
Qed.

Lemma holdingsleep_eq l : sl_lk l = None ->
  holdingsleep l = Ret (negb (sl_locked l =? 0) && (sl_pid l =? cur_pid)) l.
Proof.
  intros Hl. destruct l as [k s p]. cbn in Hl. subst s. unfold holdingsleep. run.
  autorewrite with kernel. reflexivity.
Qed.
End Lemmas.

Definition ssafe (s : sstate) : Prop :=
  sl_lk (ss_lock s) = None /\
  (forall p, ss_phase s p = Holding -> sl_locked (ss_lock s) <> 0 /\ sl_pid (ss_lock s) = p) /\
  (sl_locked (ss_lock s) = 0 -> forall p, ss_phase s p <> Waiting).

Lemma sstep_safe s s' : ssafe s -> sstep s s' -> ssafe s'.
Proof.
  unfold ssafe. intros (Hl & Hh & Hw) Hs.
  destruct Hs as [cpu p l f l' Hf Ha|cpu p l f l' Hf Ha|cpu p l f l' f' Hf Ha]; cbn in *.
  - rewrite acquiresleep_eq in Ha by exact Hl.
    destruct (Z.eqb_spec (sl_locked l) 0) as [E|E]; [|discriminate]. injection Ha as <-. cbn.
    split; [reflexivity|]. unfold sset. split; intros; [|lia].
    destruct (decide (p0 = p)); [subst; split; [lia|reflexivity]|].
    destruct (Hh p0); [assumption | lia].
  - rewrite acquiresleep_eq in Ha by exact Hl.
    destruct (Z.eqb_spec (sl_locked l) 0) as [E|E]; [discriminate|]. injection Ha as <-.
    split; [exact Hl|]. unfold sset. split; intros; [|contradiction].
    destruct (decide (p0 = p)); [discriminate | auto].
  - rewrite releasesleep_wakes in Ha by exact Hl. injection Ha as <- <-. cbn.
    split; [reflexivity|]. unfold wake_all, sset. split; intros.
    + exfalso. destruct (decide (p0 = p)); [discriminate|].
      destruct (f p0) eqn:E0; try discriminate.
      destruct (Hh p Hf), (Hh p0 E0). congruence.
    + destruct (decide (p0 = p)); [discriminate|]. destruct (f p0); discriminate.
Qed.

(** C29. At most one process holds a sleep lock at a time, in every
    interleaving; holdingsleep() tells each process whether it is the one;
    and no wakeup is lost: while the lock is free nobody is left sleeping on
    it. *)
Theorem sleeplock_safe (s : sstate) (Hr : rtc sstep sinit s) :
  (forall p q, ss_phase s p = Holding -> ss_phase s q = Holding -> p = q) /\
  (forall cpu p, ss_phase s p = Holding ->
     @holdingsleep (ctx_of cpu p) (ss_lock s) = Ret true (ss_lock s)) /\
  (sl_locked (ss_lock s) = 0 -> forall p, ss_phase s p <> Waiting).
Proof.
  assert (ssafe s) as (Hl & Hh & Hw).
  { assert (ssafe sinit) as Hi by (unfold ssafe; cbn; repeat split; try discriminate).
    remember sinit as s0. clear Heqs0. induction Hr; eauto using sstep_safe. }
  split; [|split; [|exact Hw]].
  - intros p q Hp Hq. destruct (Hh p Hp), (Hh q Hq). congruence.
  - intros cpu p Hp. destruct (Hh p Hp) as [H1 H2].
    rewrite holdingsleep_eq by exact Hl. cbn.
    rewrite (proj2 (Z.eqb_neq _ _) H1), H2, Z.eqb_refl. reflexivity.
Qed.

Example sleeplock_safe_witness :
  exists s, rtc sstep sinit s /\ ss_phase s 4 = Holding /\ ss_phase s 5 = Waiting /\
    @holdingsleep (ctx_of 0 4) (ss_lock s) = Ret true (ss_lock s).
Proof.
  exists (mk_sstate (mk_sleeplock 1 None 4) (sset (sset (fun _ => Out) 4 Holding) 5 Waiting)).
  assert (rtc sstep sinit (mk_sstate (mk_sleeplock 1 None 4)
            (sset (sset (fun _ => Out) 4 Holding) 5 Waiting))) as Hr.
  { eapply rtc_l; [apply (sstep_acquire 0 4); [left; reflexivity | reflexivity]|].
    eapply rtc_l; [apply (sstep_block 1 5); [left; reflexivity | reflexivity]|].
    apply rtc_refl. }
  split; [exact Hr|]. split; [reflexivity|]. split; [reflexivity|].
  apply (sleeplock_safe _ Hr). reflexivity.
Defined.
