(* ===== verification/Layout.v ===== *)
(** * On-disk formats

    The structures of [src/homeworks/xv6-public/fs.h] and the log header of
    [log.c], which the code reads and writes through pointers into a block:
    little-endian fields at fixed offsets of a list of bytes. *)
From S2P Require Import Prelude.

Definition ROOTINO : Z := 1.
Definition NDIRECT : Z := 12.
Definition NINDIRECT : Z := 128.     (* BSIZE / sizeof(uint) *)
Definition MAXFILE : Z := 140.       (* NDIRECT + NINDIRECT *)
Definition IPB : Z := 8.             (* BSIZE / sizeof(struct dinode) *)
Definition BPB : Z := 4096.          (* BSIZE * 8 *)
Definition DIRSIZ : nat := 14.

(** ** Little-endian fields *)

Fixpoint to_le (k : nat) (v : Z) : list Z :=
  match k with
  | O => []
  | S k' => v mod 256 :: to_le k' (v / 256)
  end.
Fixpoint from_le (l : list Z) : Z :=
  match l with
  | [] => 0
  | x :: l' => x + 256 * from_le l'
  end.

(** The [k] bytes at offset [off], and the block with [new] stored there. *)
Definition bytes_at (off k : nat) (b : list Z) : list Z := take k (drop off b).
Definition store (off : nat) (new b : list Z) : list Z := list_inserts off new b.

Definition get_u32 (off : nat) (b : list Z) : Z := from_le (bytes_at off 4 b).
Definition get_s32 (off : nat) (b : list Z) : Z := s32 (get_u32 off b).
Definition get_u16 (off : nat) (b : list Z) : Z := from_le (bytes_at off 2 b).
Definition get_s16 (off : nat) (b : list Z) : Z := s16 (get_u16 off b).
Definition put_u32 (off : nat) (v : Z) (b : list Z) : list Z := store off (to_le 4 v) b.
Definition put_u16 (off : nat) (v : Z) (b : list Z) : list Z := store off (to_le 2 v) b.

(** ** Structures *)

Record superblock := mk_superblock {
  sb_size : Z; sb_nblocks : Z; sb_ninodes : Z; sb_nlog : Z;
  sb_logstart : Z; sb_inodestart : Z; sb_bmapstart : Z }.

Definition dec_superblock (b : list Z) : superblock :=
  mk_superblock (get_u32 0 b) (get_u32 4 b) (get_u32 8 b) (get_u32 12 b)
    (get_u32 16 b) (get_u32 20 b) (get_u32 24 b).

(** [IBLOCK(i, sb)] and [BBLOCK(b, sb)] *)
Definition IBLOCK (i : Z) (sb : superblock) : Z := u32 (i / IPB + sb_inodestart sb).
Definition BBLOCK (b : Z) (sb : superblock) : Z := u32 (b / BPB + sb_bmapstart sb).

Record dinode := mk_dinode {
  di_type : Z; di_major : Z; di_minor : Z; di_nlink : Z; di_size : Z; di_addrs : list Z }.

(** sizeof(struct dinode) *)
Definition DINODE : nat := 64.

Definition enc_dinode (d : dinode) : list Z :=
  to_le 2 (di_type d) ++ to_le 2 (di_major d) ++ to_le 2 (di_minor d) ++ to_le 2 (di_nlink d) ++
  to_le 4 (di_size d) ++ concat (map (to_le 4) (di_addrs d)).
Definition dec_dinode (b : list Z) : dinode :=
  mk_dinode (get_s16 0 b) (get_s16 2 b) (get_s16 4 b) (get_s16 6 b) (get_u32 8 b)
    (map (fun i => get_u32 (12 + 4 * i) b) (seq 0 13)).

(** [( struct dinode* )bp->data + i%IPB] *)
Definition get_dinode (i : nat) (b : list Z) : dinode := dec_dinode (bytes_at (DINODE * i) DINODE b).
Definition put_dinode (i : nat) (d : dinode) (b : list Z) : list Z :=
  store (DINODE * i) (enc_dinode d) b.

Record dirent := mk_dirent { de_inum : Z; de_name : list Z }.

(** sizeof(struct dirent) *)
Definition DIRENT : nat := 16.
Definition enc_dirent (d : dirent) : list Z := to_le 2 (de_inum d) ++ de_name d.
Definition dec_dirent (b : list Z) : dirent := mk_dirent (get_u16 0 b) (bytes_at 2 DIRSIZ b).

(** ** Lemmas *)

Lemma length_to_le k v : length (to_le k v) = k.
Proof. revert v. induction k; intros; cbn; auto. Qed.

Lemma from_to_le k : forall v, from_le (to_le k v) = v mod 256 ^ Z.of_nat k.
Proof.
  induction k as [|k IH]; intros v; [rewrite Z.mod_1_r; reflexivity|].
  cbn [to_le from_le]. rewrite IH, Nat2Z.inj_succ, Z.pow_succ_r by lia.
  pose proof (Z.pow_pos_nonneg 256 (Z.of_nat k)).
  rewrite Z.rem_mul_r by lia. reflexivity.
Qed.

Lemma length_store off new b : length (store off new b) = length b.
Proof. apply length_inserts. Qed.

Lemma lookup_bytes_at off k b i :
  bytes_at off k b !! i = if decide (i < k)%nat then b !! (off + i)%nat else None.
Proof.
  unfold bytes_at. destruct (decide (i < k)%nat) as [H|H].
  - rewrite lookup_take_lt, lookup_drop by exact H. reflexivity.
  - apply lookup_take_ge. lia.
Qed.

Lemma length_bytes_at off k b : (off + k <= length b)%nat -> length (bytes_at off k b) = k.
Proof. intros. unfold bytes_at. rewrite length_take, length_drop. lia. Qed.

Lemma bytes_at_store off new b : (off + length new <= length b)%nat ->
  bytes_at off (length new) (store off new b) = new.
Proof.
  intros H. apply list_eq. intros i. rewrite lookup_bytes_at. destruct (decide _) as [Hi|Hi].
  - unfold store. rewrite list_lookup_inserts by lia. f_equal. lia.
  - symmetry. apply lookup_ge_None. lia.
Qed.

Lemma bytes_at_store_ne off k off' new b :
  (off + k <= off' \/ off' + length new <= off)%nat ->
  bytes_at off k (store off' new b) = bytes_at off k b.
Proof.
  intros H. apply list_eq. intros i. rewrite !lookup_bytes_at. destruct (decide _) as [Hi|Hi]; [|reflexivity].
  unfold store. destruct H as [H|H].
  - apply list_lookup_inserts_lt. lia.
  - apply list_lookup_inserts_ge. lia.
Qed.

(** Part of a part. *)
Lemma bytes_at_bytes_at off k off' k' b : (off' + k' <= k)%nat ->
  bytes_at off' k' (bytes_at off k b) = bytes_at (off + off') k' b.
Proof.
  intros H. apply list_eq. intros i. rewrite !lookup_bytes_at.
  destruct (decide (i < k')%nat); [|reflexivity]. rewrite decide_True by lia. f_equal. lia.
Qed.

Lemma get_put_u32 off v b : (off + 4 <= length b)%nat -> get_u32 off (put_u32 off v b) = u32 v.
Proof.
  intros H. unfold get_u32, put_u32.
  change 4%nat with (length (to_le 4 v)) at 1. rewrite bytes_at_store by (rewrite length_to_le; exact H).
  apply (from_to_le 4).
Qed.
Lemma get_put_u32_ne off off' v b : (off + 4 <= off' \/ off' + 4 <= off)%nat ->
  get_u32 off (put_u32 off' v b) = get_u32 off b.
Proof.
  intros H. unfold get_u32, put_u32. rewrite bytes_at_store_ne; [reflexivity|].
  rewrite length_to_le. exact H.
Qed.

Lemma s16_wrap v : - 2 ^ 15 <= v < 2 ^ 15 -> s16 (v mod 2 ^ 16) = v.
Proof. intros H. unfold s16. rewrite Zplus_mod_idemp_l, Z.mod_small; lia. Qed.
Lemma s32_wrap v : - 2 ^ 31 <= v < 2 ^ 31 -> s32 (u32 v) = v.
Proof. intros H. unfold s32, u32. rewrite Zplus_mod_idemp_l, Z.mod_small; lia. Qed.

(** The values the fields of a dinode and a dirent can hold. *)
Definition dinode_ok (d : dinode) : Prop :=
  (- 2 ^ 15 <= di_type d < 2 ^ 15) /\ (- 2 ^ 15 <= di_major d < 2 ^ 15) /\
  (- 2 ^ 15 <= di_minor d < 2 ^ 15) /\ (- 2 ^ 15 <= di_nlink d < 2 ^ 15) /\
  (0 <= di_size d < 2 ^ 32) /\ length (di_addrs d) = 13%nat /\
  Forall (fun a => 0 <= a < 2 ^ 32) (di_addrs d).
Definition dirent_ok (d : dirent) : Prop :=
  0 <= de_inum d < 2 ^ 16 /\ length (de_name d) = DIRSIZ.

Lemma length_concat_le l : length (concat (map (to_le 4) l)) = (4 * length l)%nat.
Proof. induction l as [|x l IH]; cbn [map concat length]; [reflexivity|]. rewrite length_app, IH, length_to_le. lia. Qed.

Lemma length_enc_dinode d : dinode_ok d -> length (enc_dinode d) = DINODE.
Proof.
  intros (_ & _ & _ & _ & _ & Hl & _). unfold enc_dinode.
  rewrite !length_app, !length_to_le, length_concat_le, Hl. reflexivity.
Qed.

(** A field of a concatenation. *)
Lemma bytes_at_app_l off k a b : (off + k <= length a)%nat -> bytes_at off k (a ++ b) = bytes_at off k a.
Proof.
  intros H. unfold bytes_at. rewrite drop_app_le, take_app_le by (rewrite ?length_drop; lia). reflexivity.
Qed.
Lemma bytes_at_app_r off k a b : (length a <= off)%nat ->
  bytes_at off k (a ++ b) = bytes_at (off - length a) k b.
Proof. intros H. unfold bytes_at. rewrite drop_app_ge by exact H. reflexivity. Qed.

Lemma bytes_at_concat_le l : forall i a, l !! i = Some a ->
  bytes_at (4 * i) 4 (concat (map (to_le 4) l)) = to_le 4 a.
Proof.
  induction l as [|x l IH]; intros [|i] a E; try discriminate; cbn [map concat].
  - injection E as <-. rewrite bytes_at_app_l by (rewrite length_to_le; lia).
    reflexivity.
  - rewrite bytes_at_app_r by (rewrite length_to_le; lia). rewrite length_to_le.
    replace (4 * S i - 4)%nat with (4 * i)%nat by lia. apply IH. exact E.
Qed.

(** Reading a field whose bytes are known. *)
Lemma get_s16_of off b v : bytes_at off 2 b = to_le 2 v -> - 2 ^ 15 <= v < 2 ^ 15 -> get_s16 off b = v.
Proof. intros E H. unfold get_s16, get_u16. rewrite E, (from_to_le 2). apply s16_wrap, H. Qed.
Lemma get_u32_of off b v : bytes_at off 4 b = to_le 4 v -> 0 <= v < 2 ^ 32 -> get_u32 off b = v.
Proof. intros E H. unfold get_u32. rewrite E, (from_to_le 4). apply Z.mod_small, H. Qed.

Lemma dec_enc_dinode d : dinode_ok d -> dec_dinode (enc_dinode d) = d.
Proof.
  destruct d as [ty mj mn nl sz ad]. intros (H1 & H2 & H3 & H4 & H5 & H6 & H7). cbn in H1, H2, H3, H4, H5, H6, H7.
  unfold dec_dinode. f_equal; try (apply get_s16_of; [reflexivity | lia]).
  - apply get_u32_of; [reflexivity | lia].
  - apply list_eq. intros i. rewrite list_lookup_fmap.
    destruct (decide (i < 13)%nat) as [Hi|Hi].
    + rewrite lookup_seq_lt by exact Hi. cbn [fmap option_fmap option_map].
      destruct (lookup_lt_is_Some_2 ad i) as [a Ha]; [lia|]. rewrite Ha. cbn [Nat.add]. f_equal.
      rewrite Forall_lookup in H7. apply get_u32_of; [|apply (H7 i a Ha)].
      unfold enc_dinode. cbn [di_type di_major di_minor di_nlink di_size di_addrs].
      rewrite !app_assoc. rewrite bytes_at_app_r by (rewrite !length_app, !length_to_le; lia).
      rewrite !length_app, !length_to_le.
      replace (12 + 4 * i - _)%nat with (4 * i)%nat by lia. apply bytes_at_concat_le. exact Ha.
    + rewrite lookup_seq_ge by lia. symmetry. apply lookup_ge_None. lia.
Qed.

(** The codec of a block of inodes. *)
Lemma get_put_dinode (b : list Z) (i j : nat) (d : dinode) : length b = 512%nat -> (i < 8)%nat -> (j < 8)%nat -> dinode_ok d ->
  length (put_dinode i d b) = 512%nat /\
  get_dinode j (put_dinode i d b) = if decide (j = i) then d else get_dinode j b.
Proof.
  intros Hb Hi Hj Hd. unfold get_dinode, put_dinode. rewrite length_store. split; [exact Hb|].
  pose proof (length_enc_dinode d Hd) as Hl. unfold DINODE in *. destruct (decide (j = i)) as [->|Hne].
  - rewrite <- Hl at 2. rewrite bytes_at_store by lia. apply dec_enc_dinode. exact Hd.
  - rewrite bytes_at_store_ne by lia. reflexivity.
Qed.

(** Inodes are stored on disk faithfully: after an inode is stored into
    slot i of a block, slot i holds exactly that inode and the other slots
    of the block are unchanged. *)
Theorem dinode_roundtrip (b : list Z) (i j : nat) (d : dinode)
    (Hb : length b = 512%nat) (Hi : (i < 8)%nat) (Hj : (j < 8)%nat) (Hd : dinode_ok d) :
  length (put_dinode i d b) = 512%nat /\
  get_dinode j (put_dinode i d b) = if decide (j = i) then d else get_dinode j b.
Proof. apply get_put_dinode; assumption. Qed.

Example dinode_roundtrip_witness :
  get_dinode 3 (put_dinode 3 (mk_dinode 2 0 0 (-1) 700 (map Z.of_nat (seq 50 13))) (repeat 7 512))
    = mk_dinode 2 0 0 (-1) 700 (map Z.of_nat (seq 50 13)).
Proof.
  apply (dinode_roundtrip (repeat 7 512) 3 3 (mk_dinode 2 0 0 (-1) 700 (map Z.of_nat (seq 50 13))));
    [reflexivity | lia | lia |].
  unfold dinode_ok. cbn -[seq]. split_and!; try lia; try reflexivity.
  apply Forall_forall. intros a Ha. apply list_elem_of_fmap in Ha as (k & -> & Hk).
  apply elem_of_seq in Hk. lia.
Defined.

Lemma dec_enc_dirent d : dirent_ok d -> dec_dirent (enc_dirent d) = d.
Proof.
  destruct d as [n nm]. intros [H1 H2]. cbn in H1, H2. unfold dec_dirent, enc_dirent, DIRSIZ in *.
  cbn [de_inum de_name]. f_equal.
  - unfold get_u16. rewrite bytes_at_app_l by (rewrite length_to_le; lia).
    change (bytes_at 0 2 (to_le 2 n)) with (to_le 2 n). rewrite (from_to_le 2). apply Z.mod_small. exact H1.
  - rewrite bytes_at_app_r by (rewrite length_to_le; lia). unfold bytes_at. rewrite length_to_le.
    cbn [Nat.sub drop]. rewrite <- H2. apply firstn_all.
Qed.
