(* ===== verification/Bio.v ===== *)
(** * Disk blocks and the buffer cache

    [src/homeworks/xv6-public/bio.c], the buffers of [buf.h] and the memory
    disk of [memide.c].  Pointers between buffers are indices into the array
    of buffers; the list head is the element after the last buffer.  The
    block device is a parameter of the cache (class [BlockDev]), so that the
    driver of [ide.c] can take the place of [memide.c] ([Ide.v]). *)
From S2P Require Import Prelude.
From S2P Require Import Sleeplock.

Definition BSIZE : Z := 512.
Definition NBUF : nat := 30.        (* MAXOPBLOCKS * 3 *)
Definition ROOTDEV : Z := 1.
Definition B_VALID : Z := 2.
Definition B_DIRTY : Z := 4.

(** The [BSIZE] bytes of a block. *)
Abbreviation block := (list Z).

Record buf := mk_buf {
  b_flags : Z; b_dev : Z; b_blockno : Z; b_lock : sleeplock; b_refcnt : Z;
  b_prev : nat; b_next : nat; b_qnext : option nat; b_data : block }.
#[export] Instance eta_buf : Eta buf := fun b =>
  mk_buf (b_flags b) (b_dev b) (b_blockno b) (b_lock b) (b_refcnt b)
         (b_prev b) (b_next b) (b_qnext b) (b_data b).

(** The disk: its size in blocks, its contents, and the blocks written so
    far in the order they reached it (the writes of a crash are a prefix). *)
Record disk := mk_disk { d_size : Z; d_img : Z -> block; d_writes : list (Z * block) }.
#[export] Instance eta_disk : Eta disk := fun d => mk_disk (d_size d) (d_img d) (d_writes d).

Record bio := mk_bio { bc_lock : spinlock; bc_buf : list buf; bc_disk : disk }.
#[export] Instance eta_bio : Eta bio := fun s => mk_bio (bc_lock s) (bc_buf s) (bc_disk s).

(** [&bcache.head] *)
Definition HEAD : nat := NBUF.

Definition on_buf {A} (i : nat) (m : M buf A) : M bio A := zoom bc_buf (elt i m).

Definition disk_write (n : Z) (data : block) (d : disk) : disk :=
  d <| d_img ::= fun f x => if x =? n then data else f x |>
    <| d_writes ::= fun w => w ++ [(n, data)] |>.

Section MemIde.
Context `{Ctx}.

(** iderw() of memide.c *)
Definition iderw (i : nat) : M bio unit :=
  let! held := on_buf i (zoom b_lock holdingsleep) in
  panic_if (negb held) "iderw: buf not locked" ;!
  let! b := on_buf i (get id) in
  panic_if (Z.land (b_flags b) (Z.lor B_VALID B_DIRTY) =? B_VALID) "iderw: nothing to do" ;!
  panic_if (negb (b_dev b =? 1)) "iderw: request not for disk 1" ;!
  let! disksize := get (fun s => d_size (bc_disk s)) in
  panic_if (disksize <=? b_blockno b) "iderw: block out of range" ;!
  (if bitset (b_flags b) B_DIRTY then
     on_buf i (modify (fun b => b <| b_flags ::= fun f => Z.land f (Z.lnot B_DIRTY) |>)) ;!
     modify (fun s => s <| bc_disk ::= disk_write (b_blockno b) (b_data b) |>)
   else
     let! p := get (fun s => d_img (bc_disk s) (b_blockno b)) in
     on_buf i (modify (fun b => b <| b_data := p |>))) ;!
  on_buf i (modify (fun b => b <| b_flags ::= Z.lor B_VALID |>)).
End MemIde.

(** What bio.c relies on: a device that synchronises one buffer. *)
Class BlockDev `{Ctx} : Type := dev_rw : nat -> M bio unit.
#[export] Instance memide `{Ctx} : BlockDev := iderw.

Section Code.
Context `{BlockDev}.

Definition init_buf (b : nat) : M bio unit :=
  let! first := on_buf HEAD (get b_next) in
  on_buf b (modify (fun x => x <| b_next := first |>)) ;!
  on_buf b (modify (fun x => x <| b_prev := HEAD |>)) ;!
  on_buf b (zoom b_lock initsleeplock) ;!
  on_buf first (modify (fun x => x <| b_prev := b |>)) ;!
  on_buf HEAD (modify (fun x => x <| b_next := b |>)).

Definition binit : M bio unit :=
  modify (fun s => s <| bc_lock := None |>) ;!
  on_buf HEAD (modify (fun x => x <| b_prev := HEAD |>)) ;!
  on_buf HEAD (modify (fun x => x <| b_next := HEAD |>)) ;!
  for_all (seq 0 NBUF) init_buf.

(** [for(b = head.next; b != &head; b = b->next)]: the first buffer that
    satisfies the test.  [fuel] bounds the walk. *)
Fixpoint walk (step : buf -> nat) (test : buf -> bool) (fuel : nat) (b : nat) : M bio (option nat) :=
  if decide (b = HEAD) then ret None else
  match fuel with
  | O => halt NoFuel
  | S fuel' =>
      let! x := on_buf b (get id) in
      if test x then ret (Some b) else walk step test fuel' (step x)
  end.

Definition bget (dev blockno : Z) : M bio nat :=
  zoom bc_lock acquire ;!
  (* Is the block already cached? *)
  let! first := on_buf HEAD (get b_next) in
  let! hit := walk b_next (fun x => (b_dev x =? dev) && (b_blockno x =? blockno)) (S NBUF) first in
  match hit with
  | Some b =>
      on_buf b (modify (fun x => x <| b_refcnt ::= Z.add 1 |>)) ;!
      zoom bc_lock release ;!
      on_buf b (zoom b_lock (acquiresleep [])) ;!
      ret b
  | None =>
      (* Not cached; recycle an unused buffer. *)
      let! last := on_buf HEAD (get b_prev) in
      let! free := walk b_prev (fun x => (b_refcnt x =? 0) && negb (bitset (b_flags x) B_DIRTY))
                     (S NBUF) last in
      match free with
      | Some b =>
          on_buf b (modify (fun x => x <| b_dev := dev |>)) ;!
          on_buf b (modify (fun x => x <| b_blockno := blockno |>)) ;!
          on_buf b (modify (fun x => x <| b_flags := 0 |>)) ;!
          on_buf b (modify (fun x => x <| b_refcnt := 1 |>)) ;!
          zoom bc_lock release ;!
          on_buf b (zoom b_lock (acquiresleep [])) ;!
          ret b
      | None => panic "bget: no buffers"
      end
  end.

Definition bread (dev blockno : Z) : M bio nat :=
  let! b := bget dev blockno in
  let! flags := on_buf b (get b_flags) in
  (if bitset flags B_VALID then ret tt else dev_rw b) ;!
  ret b.

Definition bwrite (b : nat) : M bio unit :=
  let! held := on_buf b (zoom b_lock holdingsleep) in
  panic_if (negb held) "bwrite" ;!
  on_buf b (modify (fun x => x <| b_flags ::= Z.lor B_DIRTY |>)) ;!
  dev_rw b.

(** The last lines of brelse(): b becomes the first of the list. *)
Definition move_to_front (b : nat) : M bio unit :=
  let! x := on_buf b (get id) in
  on_buf (b_next x) (modify (fun y => y <| b_prev := b_prev x |>)) ;!
  let! x := on_buf b (get id) in
  on_buf (b_prev x) (modify (fun y => y <| b_next := b_next x |>)) ;!
  let! first := on_buf HEAD (get b_next) in
  on_buf b (modify (fun y => y <| b_next := first |>)) ;!
  on_buf b (modify (fun y => y <| b_prev := HEAD |>)) ;!
  let! first := on_buf HEAD (get b_next) in
  on_buf first (modify (fun y => y <| b_prev := b |>)) ;!
  on_buf HEAD (modify (fun y => y <| b_next := b |>)).

Definition brelse (b : nat) : M bio unit :=
  let! held := on_buf b (zoom b_lock holdingsleep) in
  panic_if (negb held) "brelse" ;!
  on_buf b (zoom b_lock releasesleep) ;!
  zoom bc_lock acquire ;!
  on_buf b (modify (fun x => x <| b_refcnt ::= fun r => r - 1 |>)) ;!
  let! refcnt := on_buf b (get b_refcnt) in
  (if refcnt =? 0 then move_to_front b (* no one is waiting for it *) else ret tt) ;!
  zoom bc_lock release.
End Code.

(** The state at boot: zeroed memory. *)
Definition zero_buf : buf := mk_buf 0 0 0 (mk_sleeplock 0 None 0) 0 0 0 None (repeat 0 512).
Definition boot_bio (d : disk) : bio := mk_bio None (repeat zero_buf (S NBUF)) d.
