(* ===== verification/Cache.v ===== *)
(** * The block cache, as its clients see it

    What the buffer cache ([Bio.v]) promises to the log and the file system:
    operations on handles, and an abstract view of the state as the content
    of every block, the blocks pinned by [B_DIRTY], the handles held by the
    current process and the disk.  Clients are proved against [CacheLaws];
    [BioCache.v] proves the laws of [Bio.v]. *)
From S2P Require Import Prelude.
From S2P Require Import Bio.

(** The operations on buffers, and [bp->data], [b->blockno],
    [b->flags |= B_DIRTY] through a handle. *)
Class CacheOps (S : Type) : Type := {
  c_bread : Z -> Z -> M S nat;
  c_bwrite : nat -> M S unit;
  c_brelse : nat -> M S unit;
  c_data : nat -> M S block;
  c_set_data : nat -> block -> M S unit;
  c_blockno : nat -> M S Z;
  c_pin : nat -> M S unit }.

(** The abstract view of a cache state. *)
Class CacheView (S : Type) : Type := {
  c_ok : S -> Prop;
  c_disk : S -> disk;
  c_content : S -> Z -> block;
  c_dirty : S -> gset Z;
  c_hold : S -> gmap nat Z }.

Section View.
Context {S : Type} `{CacheView S}.

(** The blocks no buffer of which can be recycled. *)
Definition pinned (s : S) : gset Z := c_dirty s ∪ map_img (c_hold s).

Definition held (s : S) (n : Z) : Prop := exists i, c_hold s !! i = Some n.

(** [s'] is [s] with the given contents, dirty set, holds and disk. *)
Definition sees (s' : S) (content : Z -> block) (dirty : gset Z) (hold : gmap nat Z)
    (d : disk) : Prop :=
  c_ok s' /\ (forall n, c_content s' n = content n) /\ c_dirty s' = dirty /\
  c_hold s' = hold /\ c_disk s' = d.

Definition upd_content (f : Z -> block) (n : Z) (b : block) : Z -> block :=
  fun m => if m =? n then b else f m.
End View.

Class CacheLaws (S : Type) `{CacheOps S} `{CacheView S} : Prop := {
  law_bread s n :
    c_ok s -> 0 <= n < d_size (c_disk s) -> ~ held s n ->
    (size (pinned s ∪ {[n]}) <= NBUF)%nat ->
    exists i s', c_bread ROOTDEV n s = Ret i s' /\ c_hold s !! i = None /\
      sees s' (c_content s) (c_dirty s) (<[i := n]> (c_hold s)) (c_disk s);
  law_data s i n : c_ok s -> c_hold s !! i = Some n ->
    c_data i s = Ret (c_content s n) s;
  law_blockno s i n : c_ok s -> c_hold s !! i = Some n -> c_blockno i s = Ret n s;
  law_set_data s i n b : c_ok s -> c_hold s !! i = Some n -> length b = 512%nat ->
    exists s', c_set_data i b s = Ret tt s' /\
      sees s' (upd_content (c_content s) n b) (c_dirty s) (c_hold s) (c_disk s);
  law_pin s i n : c_ok s -> c_hold s !! i = Some n ->
    exists s', c_pin i s = Ret tt s' /\
      sees s' (c_content s) (c_dirty s ∪ {[n]}) (c_hold s) (c_disk s);
  law_bwrite s i n : c_ok s -> c_hold s !! i = Some n ->
    exists s', c_bwrite i s = Ret tt s' /\
      sees s' (c_content s) (c_dirty s ∖ {[n]}) (c_hold s)
        (disk_write n (c_content s n) (c_disk s));
  law_brelse s i n : c_ok s -> c_hold s !! i = Some n ->
    n ∈ c_dirty s \/ c_content s n = d_img (c_disk s) n ->
    exists s', c_brelse i s = Ret tt s' /\
      sees s' (c_content s) (c_dirty s) (delete i (c_hold s)) (c_disk s);
  law_clean s n : c_ok s -> n ∉ c_dirty s -> ~ held s n ->
    c_content s n = d_img (c_disk s) n;
  law_length s n : c_ok s -> 0 <= n < d_size (c_disk s) -> length (c_content s n) = 512%nat }.

(** ** Working with the interface

    The laws once more, on descriptions [sees s f D H d] of a state, so that
    a sequence of calls is a chain of descriptions. *)
Section Client.
Context {S : Type} `{CacheLaws S}.
Implicit Types (s : S) (f : Z -> block) (D : gset Z) (h : gmap nat Z) (d : disk).

Definition unheld (h : gmap nat Z) (n : Z) : Prop := forall i, h !! i <> Some n.

Lemma sees_self s : c_ok s -> sees s (c_content s) (c_dirty s) (c_hold s) (c_disk s).
Proof. intros. unfold sees. auto. Qed.

Lemma sees_weaken s f g D D' h h' d : sees s f D h d -> (forall n, f n = g n) -> D = D' -> h = h' ->
  sees s g D' h' d.
Proof. intros (? & E & ? & ? & ?) Hg -> ->. unfold sees. split_and!; auto. intros. rewrite E. auto. Qed.

Lemma sees_bread s f D h d n : sees s f D h d -> 0 <= n < d_size d -> unheld h n ->
  (size (D ∪ map_img h ∪ {[n]}) <= NBUF)%nat ->
  exists i s', c_bread ROOTDEV n s = Ret i s' /\ h !! i = None /\ sees s' f D (<[i := n]> h) d.
Proof.
  intros (Hok & Hf & <- & <- & <-) Hn Hh Hsz.
  destruct (law_bread s n Hok Hn) as (i & s' & E & Hi & Hs).
  - intros [j Hj]. exact (Hh j Hj).
  - exact Hsz.
  - exists i, s'. split; [exact E|]. split; [exact Hi|].
    eapply sees_weaken; [exact Hs | exact Hf | reflexivity | reflexivity].
Qed.

Lemma sees_data s f D h d i n : sees s f D h d -> h !! i = Some n -> c_data i s = Ret (f n) s.
Proof. intros (Hok & Hf & <- & <- & <-) Hi. rewrite <- Hf. apply law_data; assumption. Qed.

Lemma sees_blockno s f D h d i n : sees s f D h d -> h !! i = Some n -> c_blockno i s = Ret n s.
Proof. intros (Hok & Hf & <- & <- & <-) Hi. apply law_blockno; assumption. Qed.

Lemma sees_set_data s f D h d i n b : sees s f D h d -> h !! i = Some n -> length b = 512%nat ->
  exists s', c_set_data i b s = Ret tt s' /\ sees s' (upd_content f n b) D h d.
Proof.
  intros (Hok & Hf & <- & <- & <-) Hi Hb. destruct (law_set_data s i n b Hok Hi Hb) as (s' & E & Hs).
  exists s'. split; [exact E|]. eapply sees_weaken; [exact Hs | | reflexivity | reflexivity].
  intros m. unfold upd_content. rewrite Hf. reflexivity.
Qed.

Lemma sees_pin s f D h d i n : sees s f D h d -> h !! i = Some n ->
  exists s', c_pin i s = Ret tt s' /\ sees s' f (D ∪ {[n]}) h d.
Proof.
  intros (Hok & Hf & <- & <- & <-) Hi. destruct (law_pin s i n Hok Hi) as (s' & E & Hs).
  exists s'. split; [exact E|]. eapply sees_weaken; [exact Hs | exact Hf | reflexivity | reflexivity].
Qed.

Lemma sees_bwrite s f D h d i n : sees s f D h d -> h !! i = Some n ->
  exists s', c_bwrite i s = Ret tt s' /\ sees s' f (D ∖ {[n]}) h (disk_write n (f n) d).
Proof.
  intros (Hok & Hf & <- & <- & <-) Hi. destruct (law_bwrite s i n Hok Hi) as (s' & E & Hs).
  exists s'. split; [exact E|]. rewrite <- Hf.
  eapply sees_weaken; [exact Hs | exact Hf | reflexivity | reflexivity].
Qed.

Lemma sees_brelse s f D h d i n : sees s f D h d -> h !! i = Some n ->
  n ∈ D \/ f n = d_img d n ->
  exists s', c_brelse i s = Ret tt s' /\ sees s' f D (delete i h) d.
Proof.
  intros (Hok & Hf & <- & <- & <-) Hi Hc. destruct (law_brelse s i n Hok Hi) as (s' & E & Hs).
  { rewrite Hf. exact Hc. }
  exists s'. split; [exact E|]. eapply sees_weaken; [exact Hs | exact Hf | reflexivity | reflexivity].
Qed.

Lemma sees_clean s f D h d n : sees s f D h d -> n ∉ D -> unheld h n -> f n = d_img d n.
Proof.
  intros (Hok & Hf & <- & <- & <-) Hn Hh. rewrite <- Hf. apply law_clean; auto.
  intros [i Hi]. exact (Hh i Hi).
Qed.

Lemma sees_length s f D h d n : sees s f D h d -> 0 <= n < d_size d -> length (f n) = 512%nat.
Proof. intros (Hok & Hf & <- & <- & <-) Hn. rewrite <- Hf. apply law_length; assumption. Qed.

Lemma unheld_empty n : unheld ∅ n.
Proof. intros i. rewrite lookup_empty. discriminate. Qed.
Lemma unheld_insert h i n m : unheld h m -> n <> m -> unheld (<[i := n]> h) m.
Proof.
  intros Hh Hne j. destruct (decide (i = j)) as [->|Hj].
  - rewrite lookup_insert_eq. congruence.
  - rewrite lookup_insert_ne by exact Hj. apply Hh.
Qed.
End Client.
