(* ===== verification/Lru.v ===== *)
(** * The list of buffers

    The doubly linked list through the buffers of [Bio.v] is well formed and
    represents a list of buffers in least-recently-used order: proofs about
    the walks of bget() and the pointer writes of brelse(). *)
From S2P Require Import Prelude.
From S2P Require Import Sleeplock.
From S2P Require Import Bio.

(** ** Doubly linked lists over functions *)

(** From [a], following [f], come the elements of [l], then [e]. *)
Fixpoint linked (f : nat -> nat) (a : nat) (l : list nat) (e : nat) : Prop :=
  match l with
  | [] => f a = e
  | x :: l' => f a = x /\ linked f x l' e
  end.

Definition fupd (f : nat -> nat) (i v : nat) : nat -> nat :=
  fun j => if decide (j = i) then v else f j.

Lemma linked_app f a l1 x l2 e :
  linked f a (l1 ++ x :: l2) e <-> linked f a l1 x /\ linked f x l2 e.
Proof. revert a. induction l1 as [|y l1 IH]; intros a; simpl; [tauto|]. rewrite IH. tauto. Qed.

Lemma linked_ext f g l : forall a e,
  (forall i, i ∈ a :: l -> f i = g i) -> linked f a l e -> linked g a l e.
Proof.
  induction l as [|x l IH]; intros a e He; simpl.
  - intros <-. symmetry. apply He. left.
  - intros [H1 H2]. split; [rewrite <- He by left; exact H1|].
    apply IH; [|exact H2]. intros i Hi. apply He. right. exact Hi.
Qed.

Lemma fupd_eq f i v : fupd f i v i = v.
Proof. unfold fupd. rewrite decide_True; reflexivity. Qed.
Lemma fupd_ne f i v j : j <> i -> fupd f i v j = f j.
Proof. intros. unfold fupd. rewrite decide_False; auto. Qed.

Lemma linked_fupd f a l e i v :
  i ∉ a :: l -> linked f a l e -> linked (fupd f i v) a l e.
Proof.
  intros Hi. apply linked_ext. intros j Hj. symmetry. apply fupd_ne. congruence.
Qed.

(** [last_or a l]: the last element, [a] for the empty list. *)
Definition last_or (a : nat) (l : list nat) : nat := List.last l a.

Lemma last_or_cons a x l : last_or a (x :: l) = last_or x l.
Proof.
  unfold last_or. destruct l as [|y l _] using rev_ind; [reflexivity|].
  rewrite app_comm_cons, !last_last. reflexivity.
Qed.
Lemma last_or_in a l : last_or a l ∈ a :: l.
Proof.
  unfold last_or. destruct l as [|y l _] using rev_ind; [left|].
  rewrite last_last. set_solver.
Qed.

(** The element before [e] is found through the reversed links. *)
Lemma linked_rev_last g b l e : linked g b (rev l) e -> g b = last_or e l.
Proof.
  unfold last_or. destruct l as [|x l _] using rev_ind; simpl; [auto|].
  rewrite rev_app_distr. simpl. intros [H _]. rewrite last_last. exact H.
Qed.

(** Taking [b] out: only its predecessor's pointer changes. *)
Lemma linked_remove f l1 : forall a b l2 e,
  NoDup (a :: l1 ++ b :: l2) ->
  linked f a (l1 ++ b :: l2) e ->
  linked (fupd f (last_or a l1) (f b)) a (l1 ++ l2) e.
Proof.
  induction l1 as [|x l1 IH]; intros a b l2 e Hnd Hl.
  - cbn in *. destruct Hl as [_ Hl]. apply NoDup_cons in Hnd as [Ha Hnd].
    destruct l2 as [|y l2]; cbn in *; rewrite fupd_eq; [exact Hl|].
    destruct Hl as [Hy Hl]. split; [exact Hy|].
    apply linked_fupd; [set_solver | exact Hl].
  - rewrite last_or_cons. cbn in Hl |- *. destruct Hl as [Hx Hl].
    apply NoDup_cons in Hnd as [Ha Hnd].
    split; [|apply IH; assumption].
    rewrite fupd_ne; [exact Hx|]. intros ->. apply Ha.
    pose proof (last_or_in x l1). set_solver.
Qed.

Lemma linked_push_front f a l e b :
  b ∉ a :: l -> NoDup (a :: l) -> linked f a l e ->
  linked (fupd (fupd f b (f a)) a b) a (b :: l) e.
Proof.
  intros Hb Ha Hl. apply NoDup_cons in Ha as [Ha _]. cbn. rewrite fupd_eq. split; [reflexivity|].
  destruct l as [|y l]; cbn in *; rewrite fupd_ne, fupd_eq by set_solver; [exact Hl|].
  destruct Hl as [Hy Hl]. split; [exact Hy|]. apply linked_fupd; [exact Ha|].
  apply linked_fupd; [set_solver | exact Hl].
Qed.

Lemma linked_push_back g l : forall a e b,
  b ∉ a :: l -> NoDup (a :: l) -> linked g a l e ->
  linked (fupd (fupd g b e) (last_or a l) b) a (l ++ [b]) e.
Proof.
  induction l as [|x l IH]; intros a e b Hb Hnd Hl.
  - cbn in *. rewrite fupd_eq, fupd_ne, fupd_eq by set_solver. auto.
  - rewrite last_or_cons. cbn in Hl |- *. destruct Hl as [Hx Hl].
    apply NoDup_cons in Hnd as [Ha Hnd].
    split; [|apply IH; [set_solver|exact Hnd|exact Hl]].
    pose proof (last_or_in x l). rewrite !fupd_ne; [exact Hx|set_solver|].
    intros ->. contradiction.
Qed.

Lemma linked_next f a l e : linked f a l e -> f a = last_or e (rev l).
Proof. intros H. apply (linked_rev_last f a (rev l) e). rewrite rev_involutive. exact H. Qed.

(** ** The list of buffers *)

Definition nx (bs : list buf) (i : nat) : nat := default O (b_next <$> bs !! i).
Definition pv (bs : list buf) (i : nat) : nat := default O (b_prev <$> bs !! i).

(** [l] is the order of the buffers, most recently released first. *)
Definition order (bs : list buf) (l : list nat) : Prop :=
  l ≡ₚ seq 0 NBUF /\ linked (nx bs) HEAD l HEAD /\ linked (pv bs) HEAD (rev l) HEAD.

(** A buffer without its links. *)
Definition core (b : buf) : buf := b <| b_prev := O |> <| b_next := O |>.

Lemma order_NoDup bs l : order bs l -> NoDup (HEAD :: l).
Proof.
  intros (Hp & _ & _). constructor; [|rewrite Hp; apply NoDup_ListNoDup, seq_NoDup].
  rewrite Hp. rewrite elem_of_seq. unfold HEAD. lia.
Qed.

Lemma order_elem bs l i : order bs l -> i ∈ l <-> (i < NBUF)%nat.
Proof. intros (Hp & _ & _). rewrite Hp, elem_of_seq. lia. Qed.

Lemma order_ext bs bs' l :
  (forall i, nx bs i = nx bs' i) -> (forall i, pv bs i = pv bs' i) -> order bs l -> order bs' l.
Proof.
  intros Hn Hp (H1 & H2 & H3). split; [exact H1|].
  split; [eapply linked_ext; [|exact H2] | eapply linked_ext; [|exact H3]]; auto.
Qed.

(** The two kinds of pointer writes. *)
Abbreviation set_prev v := (fun y : buf => y <| b_prev := v |>).
Abbreviation set_next v := (fun y : buf => y <| b_next := v |>).

Section Links.
Context (bs : list buf) (i v : nat) (Hi : (i < length bs)%nat).

Lemma nx_set_next j : nx (alter (set_next v) i bs) j = fupd (nx bs) i v j.
Proof.
  unfold nx, fupd. rewrite list_lookup_alter.
  destruct (decide (i = j)) as [->|]; [|rewrite decide_False by congruence; reflexivity].
  rewrite decide_True by reflexivity.
  destruct (lookup_lt_is_Some_2 bs j Hi) as [b ->]. reflexivity.
Qed.
Lemma pv_set_prev j : pv (alter (set_prev v) i bs) j = fupd (pv bs) i v j.
Proof.
  unfold pv, fupd. rewrite list_lookup_alter.
  destruct (decide (i = j)) as [->|]; [|rewrite decide_False by congruence; reflexivity].
  rewrite decide_True by reflexivity.
  destruct (lookup_lt_is_Some_2 bs j Hi) as [b ->]. reflexivity.
Qed.
End Links.

(** An update that keeps a field, or a projection of a buffer. *)
Lemma proj_alter {A} (g : buf -> A) f i (bs : list buf) j :
  (forall b, g (f b) = g b) -> g <$> alter f i bs !! j = g <$> bs !! j.
Proof.
  intros Hg. rewrite list_lookup_alter. destruct (decide (i = j)) as [->|]; [|reflexivity].
  destruct (bs !! j); cbn; [rewrite Hg|]; reflexivity.
Qed.
Lemma nx_keep f i (bs : list buf) j : (forall b, b_next (f b) = b_next b) -> nx (alter f i bs) j = nx bs j.
Proof. intros. unfold nx. rewrite proj_alter by assumption. reflexivity. Qed.
Lemma pv_keep f i (bs : list buf) j : (forall b, b_prev (f b) = b_prev b) -> pv (alter f i bs) j = pv bs j.
Proof. intros. unfold pv. rewrite proj_alter by assumption. reflexivity. Qed.
Lemma core_keep f i (bs : list buf) : (forall b, core (f b) = core b) -> core <$> alter f i bs = core <$> bs.
Proof.
  intros. apply list_eq. intros j. rewrite !list_lookup_fmap. apply proj_alter. assumption.
Qed.

(** *** Access to one buffer *)
Section Access.
Implicit Types s : bio.

Lemma on_buf_get {A} (g : buf -> A) i s b :
  bc_buf s !! i = Some b -> on_buf i (get g) s = Ret (g b) s.
Proof.
  intros Hb. destruct s as [lk bs d]. unfold on_buf, zoom, elt, get in *. cbn in *. rewrite Hb.
  unfold set_field. cbn. rewrite list_insert_id by exact Hb. reflexivity.
Qed.
Lemma on_buf_modify f i s : (i < length (bc_buf s))%nat ->
  on_buf i (modify f) s = Ret tt (s <| bc_buf ::= alter f i |>).
Proof.
  intros Hi. destruct (lookup_lt_is_Some_2 _ _ Hi) as [b Hb]. destruct s as [lk bs d].
  unfold on_buf, zoom, elt, modify, set_field in *. cbn in *. rewrite Hb. cbn.
  f_equal. f_equal. apply list_eq. intros j. rewrite list_lookup_alter.
  destruct (decide (i = j)) as [->|].
  - rewrite Hb, list_lookup_insert_eq by exact Hi. reflexivity.
  - rewrite list_lookup_insert_ne by assumption. reflexivity.
Qed.
Lemma on_buf_next i s : (i < length (bc_buf s))%nat ->
  on_buf i (get b_next) s = Ret (nx (bc_buf s) i) s.
Proof.
  intros Hi. destruct (lookup_lt_is_Some_2 _ _ Hi) as [b Hb].
  rewrite (on_buf_get _ _ _ b Hb). unfold nx. rewrite Hb. reflexivity.
Qed.
End Access.

Lemma perm_NoDup {A} (l l' : list A) : NoDup l -> l ≡ₚ l' -> NoDup l'.
Proof. intros H E. rewrite <- E. exact H. Qed.

(** The pointer writes of [move_to_front], on the links alone. *)
Lemma links_move_to_front n p l1 i l2 :
  NoDup (HEAD :: l1 ++ i :: l2) ->
  linked n HEAD (l1 ++ i :: l2) HEAD -> linked p HEAD (rev (l1 ++ i :: l2)) HEAD ->
  let p1 := fupd p (n i) (p i) in
  let n2 := fupd n (p1 i) (n i) in
  let n3 := fupd n2 i (n2 HEAD) in
  let p4 := fupd p1 i HEAD in
  let p5 := fupd p4 (n3 HEAD) i in
  let n6 := fupd n3 HEAD i in
  linked n6 HEAD (i :: l1 ++ l2) HEAD /\ linked p5 HEAD (rev (i :: l1 ++ l2)) HEAD.
Proof.
  intros Hnd Hn Hp. cbv zeta.
  assert (p i = last_or HEAD l1) as Ei.
  { rewrite rev_app_distr in Hp. cbn in Hp. rewrite <- app_assoc in Hp. cbn in Hp.
    apply linked_app in Hp as [_ Hp]. apply linked_rev_last. exact Hp. }
  assert (n i = last_or HEAD (rev l2)) as En.
  { apply linked_app in Hn as [_ Hn]. apply linked_next. exact Hn. }
  assert (Hnd' : NoDup (HEAD :: l1 ++ l2) /\ i ∉ HEAD :: l1 ++ l2).
  { apply (perm_NoDup _ (i :: HEAD :: l1 ++ l2)) in Hnd.
    - apply NoDup_cons in Hnd as [? ?]. auto.
    - rewrite <- Permutation_middle. constructor. }
  destruct Hnd' as [Hnd' Hi].
  assert (fupd p (n i) (p i) i = p i) as Ep.
  { unfold fupd. destruct (decide (i = n i)); [|reflexivity]. reflexivity. }
  rewrite Ep, Ei.
  assert (linked (fupd n (last_or HEAD l1) (n i)) HEAD (l1 ++ l2) HEAD) as Hn2
    by (apply linked_remove; assumption).
  assert (linked (fupd p (n i) (last_or HEAD l1)) HEAD (rev (l1 ++ l2)) HEAD) as Hp1.
  { rewrite rev_app_distr, En, <- Ei. apply linked_remove.
    - eapply perm_NoDup; [exact Hnd|]. constructor. rewrite <- (Permutation_rev l2).
      rewrite <- (Permutation_rev l1). rewrite (Permutation_app_comm l1). cbn.
      rewrite <- Permutation_middle. reflexivity.
    - rewrite rev_app_distr in Hp. cbn in Hp. rewrite <- app_assoc in Hp. exact Hp. }
  split.
  - apply linked_push_front; assumption.
  - cbn [rev]. set (n2 := fupd n _ _) in *.
    rewrite (fupd_ne n2 i (n2 HEAD) HEAD) by set_solver.
    rewrite (linked_next _ _ _ _ Hn2). apply linked_push_back; [| |exact Hp1].
    + rewrite (Permutation_rev (l1 ++ l2)) in Hi. exact Hi.
    + rewrite <- (Permutation_rev (l1 ++ l2)). exact Hnd'.
Qed.

Lemma fupd_ext f g i v j : (forall x, f x = g x) -> fupd f i v j = fupd g i v j.
Proof. intros H. unfold fupd. destruct (decide _); auto. Qed.

Lemma linked_in f l : forall a e x, linked f a l e -> x ∈ a :: l -> f x ∈ l ++ [e].
Proof.
  induction l as [|y l IH]; intros a e x; cbn.
  - intros <- Hx. apply list_elem_of_singleton in Hx as ->. left.
  - intros [<- Hl] [->|Hx]%elem_of_cons; [left|]. right. eapply IH; eassumption.
Qed.

(** Every link points into the array. *)
Definition closed (bs : list buf) : Prop :=
  forall j, (j < length bs)%nat -> (nx bs j < length bs)%nat /\ (pv bs j < length bs)%nat.

Lemma order_closed bs l : length bs = S NBUF -> order bs l -> closed bs.
Proof.
  intros Hlen Ho j Hj. pose proof Ho as (_ & Hn & Hp).
  assert (forall k, k ∈ l ++ [HEAD] <-> (k < length bs)%nat) as Hk.
  { intros k. rewrite elem_of_app, (order_elem _ _ _ Ho), list_elem_of_singleton, Hlen.
    unfold HEAD. lia. }
  assert (j ∈ HEAD :: l) as Hj' by (apply Hk in Hj; set_solver).
  split; apply Hk.
  - eapply linked_in; eassumption.
  - rewrite (Permutation_rev l). eapply linked_in; [exact Hp|].
    rewrite <- (Permutation_rev l). exact Hj'.
Qed.

Lemma closed_set_next bs i v :
  closed bs -> (i < length bs)%nat -> (v < length bs)%nat -> closed (alter (set_next v) i bs).
Proof.
  intros Hc Hi Hv j. rewrite length_alter. intros Hj. destruct (Hc j Hj).
  rewrite nx_set_next, pv_keep by auto. unfold fupd. destruct (decide _); auto.
Qed.
Lemma closed_set_prev bs i v :
  closed bs -> (i < length bs)%nat -> (v < length bs)%nat -> closed (alter (set_prev v) i bs).
Proof.
  intros Hc Hi Hv j. rewrite length_alter. intros Hj. destruct (Hc j Hj).
  rewrite pv_set_prev, nx_keep by auto. unfold fupd. destruct (decide _); auto.
Qed.

(** The array after each pointer write of [move_to_front]. *)
Section Moved.
Context (bs : list buf) (i : nat).
Definition mv1 := alter (set_prev (pv bs i)) (nx bs i) bs.
Definition mv2 := alter (set_next (nx mv1 i)) (pv mv1 i) mv1.
Definition mv3 := alter (set_next (nx mv2 HEAD)) i mv2.
Definition mv4 := alter (set_prev HEAD) i mv3.
Definition mv5 := alter (set_prev i) (nx mv4 HEAD) mv4.
Definition mv6 := alter (set_next i) HEAD mv5.

Context (Hc : closed bs) (Hi : (i < length bs)%nat) (HH : (HEAD < length bs)%nat).

Lemma mv_closed : (closed mv1 /\ closed mv2 /\ closed mv3 /\ closed mv4) /\
  (length mv1 = length bs /\ length mv2 = length bs /\ length mv3 = length bs /\
   length mv4 = length bs /\ length mv5 = length bs).
Proof.
  assert (length mv1 = length bs /\ length mv2 = length bs /\ length mv3 = length bs /\
   length mv4 = length bs /\ length mv5 = length bs) as L
    by (unfold mv5, mv4, mv3, mv2, mv1; rewrite !length_alter; auto).
  split; [|exact L]. destruct L as (L1 & L2 & L3 & L4 & L5).
  assert (closed mv1) as C1 by (apply closed_set_prev; auto; apply Hc; auto).
  assert (closed mv2) as C2 by (apply closed_set_next; auto; apply C1; lia).
  assert (closed mv3) as C3 by (apply closed_set_next; auto; [lia | apply C2; lia]).
  assert (closed mv4) as C4 by (apply closed_set_prev; auto; lia).
  auto.
Qed.

Lemma move_to_front_mv lk d :
  move_to_front i (mk_bio lk bs d) = Ret tt (mk_bio lk mv6 d).
Proof.
  destruct mv_closed as [(C1 & C2 & C3 & C4) (L1 & L2 & L3 & L4 & L5)].
  destruct (lookup_lt_is_Some_2 bs i Hi) as [b Hb].
  assert (b_next b = nx bs i) as En by (unfold nx; rewrite Hb; reflexivity).
  assert (b_prev b = pv bs i) as Ep by (unfold pv; rewrite Hb; reflexivity).
  unfold move_to_front, bind. rewrite (on_buf_get _ _ (mk_bio lk bs d) b Hb). cbn [id].
  rewrite En, Ep, on_buf_modify by (apply Hc; exact Hi).
  change (set_field _ (mk_bio lk bs d)) with (mk_bio lk mv1 d). cbn iota beta.
  assert (i < length mv1)%nat as Hi1 by lia.
  destruct (lookup_lt_is_Some_2 mv1 i Hi1) as [b1 Hb1].
  assert (b_next b1 = nx mv1 i) as En1 by (unfold nx; rewrite Hb1; reflexivity).
  assert (b_prev b1 = pv mv1 i) as Ep1 by (unfold pv; rewrite Hb1; reflexivity).
  rewrite (on_buf_get _ _ (mk_bio lk mv1 d) b1 Hb1). cbn [id].
  rewrite En1, Ep1, on_buf_modify by (apply C1; lia).
  change (set_field _ (mk_bio lk mv1 d)) with (mk_bio lk mv2 d). cbn iota beta.
  rewrite on_buf_next, on_buf_modify by (cbn; lia).
  change (set_field _ (mk_bio lk mv2 d)) with (mk_bio lk mv3 d). cbn iota beta.
  rewrite on_buf_modify by (cbn; lia).
  change (set_field _ (mk_bio lk mv3 d)) with (mk_bio lk mv4 d). cbn iota beta.
  rewrite on_buf_next by (cbn; lia). rewrite on_buf_modify by (apply C4; lia).
  change (set_field _ (mk_bio lk mv4 d)) with (mk_bio lk mv5 d). cbn iota beta.
  rewrite on_buf_modify by (cbn; lia). reflexivity.
Qed.

Lemma mv6_links :
  let p1 := fupd (pv bs) (nx bs i) (pv bs i) in
  let n2 := fupd (nx bs) (p1 i) (nx bs i) in
  let n3 := fupd n2 i (n2 HEAD) in
  let p4 := fupd p1 i HEAD in
  (forall j, nx mv6 j = fupd n3 HEAD i j) /\ (forall j, pv mv6 j = fupd p4 (n3 HEAD) i j).
Proof.
  destruct mv_closed as [(C1 & C2 & C3 & C4) (L1 & L2 & L3 & L4 & L5)]. cbv zeta.
  set (p1 := fupd (pv bs) _ _). set (n2 := fupd (nx bs) _ _).
  set (n3 := fupd n2 _ _). set (p4 := fupd p1 _ _).
  assert (forall j, pv mv1 j = p1 j) as P1 by (intros; apply pv_set_prev; apply Hc; auto).
  assert (forall j, nx mv2 j = n2 j) as N2.
  { intros j. unfold mv2. rewrite nx_set_next by (apply C1; lia). rewrite P1.
    assert (forall k, nx mv1 k = nx bs k) as N1 by (intros; apply nx_keep; reflexivity).
    rewrite N1. apply fupd_ext, N1. }
  assert (forall j, nx mv3 j = n3 j) as N3.
  { intros j. unfold mv3. rewrite nx_set_next by lia. rewrite N2. apply fupd_ext, N2. }
  assert (forall j, nx mv4 j = n3 j) as N4 by (intros; rewrite <- N3; apply nx_keep; reflexivity).
  assert (forall j, pv mv4 j = p4 j) as P4.
  { intros j. unfold mv4. rewrite pv_set_prev by lia. apply fupd_ext. intros k.
    unfold mv3, mv2. rewrite !pv_keep by reflexivity. apply P1. }
  split; intros j.
  - unfold mv6. rewrite nx_set_next by lia. apply fupd_ext. intros k. rewrite <- N4.
    apply nx_keep. reflexivity.
  - unfold mv6. rewrite pv_keep by reflexivity. unfold mv5.
    rewrite pv_set_prev by (apply C4; lia). rewrite N4. apply fupd_ext, P4.
Qed.

Lemma mv6_core : core <$> mv6 = core <$> bs.
Proof. unfold mv6, mv5, mv4, mv3, mv2, mv1. rewrite !core_keep by reflexivity. reflexivity. Qed.
End Moved.

(** brelse()'s list surgery moves [i] to the front and changes nothing else. *)
Lemma move_to_front_eq lk bs d l1 i l2 :
  length bs = S NBUF -> order bs (l1 ++ i :: l2) ->
  exists bs', move_to_front i (mk_bio lk bs d) = Ret tt (mk_bio lk bs' d) /\
    order bs' (i :: l1 ++ l2) /\ core <$> bs' = core <$> bs.
Proof.
  intros Hlen Ho. pose proof (order_closed _ _ Hlen Ho) as Hc.
  pose proof (order_NoDup _ _ Ho) as Hnd.
  assert (i < length bs)%nat as Hi.
  { rewrite Hlen. apply Nat.lt_lt_succ_r, (order_elem _ _ _ Ho). set_solver. }
  assert (HEAD < length bs)%nat as HH by (rewrite Hlen; unfold HEAD; lia).
  exists (mv6 bs i). split; [apply move_to_front_mv; assumption|].
  split; [|apply mv6_core]. destruct Ho as (Hperm & Hn & Hp).
  destruct (mv6_links bs i Hc Hi HH) as [N6 P6].
  destruct (links_move_to_front _ _ _ _ _ Hnd Hn Hp) as [Hn' Hp'].
  split; [rewrite <- Hperm, <- Permutation_middle; reflexivity|].
  split; (eapply linked_ext; [|eassumption]); intros; symmetry; auto.
Qed.

(** *** Walking the list *)

Definition holds_at (test : buf -> bool) (bs : list buf) (i : nat) : bool :=
  match bs !! i with Some b => test b | None => false end.

Lemma walk_find `{BlockDev} (step : buf -> nat) test s l : forall a fuel,
  linked (fun i => default O (step <$> bc_buf s !! i)) a l HEAD ->
  Forall (fun i => i <> HEAD /\ (i < length (bc_buf s))%nat) l ->
  (length l <= fuel)%nat ->
  walk step test fuel (default O (step <$> bc_buf s !! a)) s =
    Ret (List.find (holds_at test (bc_buf s)) l) s.
Proof.
  induction l as [|x l IH]; intros a fuel Hl Hf Hlen; cbn in Hl.
  - rewrite Hl. destruct fuel; reflexivity.
  - destruct Hl as [-> Hl]. apply Forall_cons in Hf as [[Hx Hlt] Hf].
    destruct fuel as [|fuel]; [cbn in Hlen; lia|]. cbn [walk List.find].
    destruct (lookup_lt_is_Some_2 _ _ Hlt) as [b Hb].
    rewrite decide_False by exact Hx. unfold bind. rewrite (on_buf_get id x s b Hb). cbn [id].
    unfold holds_at at 1. rewrite Hb. destruct (test b); [reflexivity|].
    pose proof (IH x fuel Hl Hf) as E. rewrite Hb in E. apply E. cbn in Hlen. lia.
Qed.

Section Walks.
Context `{BlockDev} (s : bio) (l : list nat).
Context (Hlen : length (bc_buf s) = S NBUF) (Ho : order (bc_buf s) l).

Lemma order_bounds : Forall (fun i => i <> HEAD /\ (i < length (bc_buf s))%nat) l /\ length l = NBUF.
Proof.
  split.
  - apply Forall_forall. intros i Hi. apply (order_elem _ _ _ Ho) in Hi. unfold HEAD. lia.
  - destruct Ho as (Hp & _ & _). rewrite Hp. apply length_seq.
Qed.

(** From the most recently used buffer on. *)
Lemma walk_forward test :
  walk b_next test (S NBUF) (nx (bc_buf s) HEAD) s =
    Ret (List.find (holds_at test (bc_buf s)) l) s.
Proof.
  destruct order_bounds as [Hb Hl]. destruct Ho as (_ & Hn & _).
  apply walk_find; [exact Hn | exact Hb | lia].
Qed.
(** From the least recently used buffer back. *)
Lemma walk_backward test :
  walk b_prev test (S NBUF) (pv (bc_buf s) HEAD) s =
    Ret (List.find (holds_at test (bc_buf s)) (rev l)) s.
Proof.
  destruct order_bounds as [Hb Hl]. destruct Ho as (_ & _ & Hp).
  apply walk_find; [exact Hp | | rewrite length_rev; lia].
  rewrite <- (Permutation_rev l). exact Hb.
Qed.
End Walks.
