(* ===== verification/BioCache.v ===== *)
(** * The buffer cache keeps its promises

    Every block has at most one buffer and unpinned buffers agree with the
    disk; bread(), bwrite() and brelse() of [Bio.v] keep it so.  This gives
    an instance of the interface of [Cache.v]. *)
From S2P Require Import Prelude.
From S2P Require Import Sleeplock.
From S2P Require Import Bio.
From S2P Require Import Lru.
From S2P Require Import Cache.

(** ** The invariant

    It does not mention the links: it is about the cores of the buffers. *)
Section Invariant.
Context `{Ctx}.

(** A buffer is fresh, or it is cached, and then free or held by the
    current process; a free clean buffer agrees with the disk. *)
Definition buf_ok (d : disk) (b : buf) : Prop :=
  sl_lk (b_lock b) = None /\ length (b_data b) = 512%nat /\
  ((b_dev b = 0 /\ b_flags b = 0 /\ b_refcnt b = 0 /\ sl_locked (b_lock b) = 0) \/
   (b_dev b = 1 /\ 0 <= b_blockno b < d_size d /\ (b_flags b = 2 \/ b_flags b = 6) /\
    ((b_refcnt b = 0 /\ sl_locked (b_lock b) = 0 /\
      (b_flags b = 2 -> b_data b = d_img d (b_blockno b))) \/
     (b_refcnt b = 1 /\ sl_locked (b_lock b) = 1 /\ sl_pid (b_lock b) = cur_pid)))).

Definition disk_ok (d : disk) : Prop :=
  forall n, 0 <= n < d_size d -> length (d_img d n) = 512%nat.

(** No buffer other than [i] caches block [n]. *)
Definition only (i : nat) (n : Z) (cs : list buf) : Prop :=
  forall j b, cs !! j = Some b -> b_dev b = 1 -> b_blockno b = n -> j = i.

Definition cs_ok (d : disk) (cs : list buf) : Prop :=
  length cs = S NBUF /\ disk_ok d /\ (forall i b, cs !! i = Some b -> buf_ok d b) /\
  (forall b, cs !! HEAD = Some b -> b_dev b = 0) /\
  (forall i b, cs !! i = Some b -> b_dev b = 1 -> only i (b_blockno b) cs).

(** *** The abstract view *)

Definition content (d : disk) (cs : list buf) (n : Z) : block :=
  match list_find (fun b => b_dev b = 1 /\ b_blockno b = n) cs with
  | Some (_, b) => b_data b
  | None => d_img d n
  end.
Definition hold (cs : list buf) : gmap nat Z :=
  omap (fun b => if b_refcnt b =? 0 then None else Some (b_blockno b)) (map_seq 0 cs).
Definition dirty (cs : list buf) : gset Z :=
  list_to_set (omap (fun b => if bitset (b_flags b) B_DIRTY then Some (b_blockno b) else None) cs).

Lemma content_hit d cs i b : cs_ok d cs -> cs !! i = Some b -> b_dev b = 1 ->
  content d cs (b_blockno b) = b_data b.
Proof.
  intros (_ & _ & _ & _ & Hu) Hb Hd. unfold content.
  destruct (list_find _ cs) as [[j x]|] eqn:E.
  - apply list_find_Some in E as (Hx & [Hd' Hn] & _).
    pose proof (Hu i b Hb Hd j x Hx Hd' Hn). subst j. congruence.
  - apply list_find_None in E. rewrite Forall_lookup in E. destruct (E i b Hb). auto.
Qed.
Lemma content_miss d cs n :
  (forall i b, cs !! i = Some b -> b_dev b = 1 -> b_blockno b <> n) -> content d cs n = d_img d n.
Proof.
  intros Hm. unfold content. destruct (list_find _ cs) as [[j x]|] eqn:E; [|reflexivity].
  apply list_find_Some in E as (Hx & [Hd' Hn] & _). destruct (Hm j x Hx Hd' Hn).
Qed.
Lemma lookup_hold cs i :
  hold cs !! i = b ← cs !! i; if b_refcnt b =? 0 then None else Some (b_blockno b).
Proof. unfold hold. rewrite lookup_omap, lookup_map_seq_0. reflexivity. Qed.
Lemma elem_of_dirty cs n : n ∈ dirty cs <->
  exists i b, cs !! i = Some b /\ bitset (b_flags b) B_DIRTY = true /\ b_blockno b = n.
Proof.
  unfold dirty. rewrite elem_of_list_to_set, list_elem_of_omap. split.
  - intros (b & [i Hi]%list_elem_of_lookup & E). exists i, b. destruct (bitset _ _); [|discriminate].
    injection E as <-. auto.
  - intros (i & b & Hb & E & <-). exists b. rewrite E. split; [|reflexivity].
    eapply list_elem_of_lookup_2. exact Hb.
Qed.

(** *** What one changed buffer does to the view *)
Section Insert.
Context (d d' : disk) (cs : list buf) (i : nat) (b b' : buf).
Context (Hok : cs_ok d cs) (Hb : cs !! i = Some b) (HH : i <> HEAD).
Context (Hb' : buf_ok d' b') (Hdev : b_dev b' = 1) (Honly : only i (b_blockno b') cs).
Context (Hdisk : disk_ok d') (Hsize : d_size d' = d_size d).
Context (Himg : forall m, m <> b_blockno b' -> d_img d' m = d_img d m).

Lemma lookup_ins j : <[i := b']> cs !! j = if decide (j = i) then Some b' else cs !! j.
Proof.
  destruct (decide (j = i)) as [->|]; [|apply list_lookup_insert_ne; congruence].
  apply list_lookup_insert_eq. eapply lookup_lt_Some. exact Hb.
Qed.

Lemma buf_ok_other j x : j <> i -> cs !! j = Some x -> buf_ok d' x.
Proof.
  intros Hj Hx. pose proof Hok as (_ & _ & Hall & _ & _).
  destruct (Hall j x Hx) as (H1 & H2 & [Hf|(Hd & Hr & Hfl & Hst)]); split_and!; auto.
  right. rewrite Hsize, Himg; [auto|]. intros E. apply Hj, (Honly j x Hx Hd E).
Qed.

Lemma cs_ok_insert : cs_ok d' (<[i := b']> cs).
Proof.
  pose proof Hok as (Hl & _ & Hall & Hhd & Hu).
  split; [rewrite length_insert; exact Hl|]. split; [exact Hdisk|]. split; [|split].
  - intros j x. rewrite lookup_ins. destruct (decide _) as [->|]; [congruence|].
    intros Hx. eapply buf_ok_other; eassumption.
  - intros x. rewrite lookup_ins, decide_False by congruence. apply Hhd.
  - intros j x Hx Hd k y Hy Hdy E. rewrite lookup_ins in Hx, Hy.
    destruct (decide (j = i)) as [->|Hj], (decide (k = i)) as [->|Hk]; auto.
    + injection Hx as <-. apply (Honly k y); assumption.
    + injection Hy as <-. symmetry. apply (Honly j x); auto.
    + apply (Hu j x Hx Hd k y); assumption.
Qed.

Lemma content_insert :
  (b_dev b = 1 -> b_blockno b <> b_blockno b' -> b_data b = d_img d (b_blockno b)) ->
  forall m, content d' (<[i := b']> cs) m = upd_content (content d cs) (b_blockno b') (b_data b') m.
Proof.
  intros Hold m. unfold upd_content. destruct (Z.eqb_spec m (b_blockno b')) as [->|Hm].
  { apply (content_hit d' _ i b'); [apply cs_ok_insert| |exact Hdev].
    rewrite lookup_ins, decide_True by reflexivity. reflexivity. }
  destruct (decide (Exists (fun x => b_dev x = 1 /\ b_blockno x = m) (<[i := b']> cs))) as [He|He].
  - apply Exists_exists in He as (x & [j Hj]%list_elem_of_lookup & Hd & <-).
    rewrite (content_hit d' _ j x) by (auto using cs_ok_insert).
    rewrite lookup_ins in Hj. destruct (decide (j = i)); [congruence|].
    rewrite (content_hit d cs j x); auto.
  - assert (forall j x, <[i := b']> cs !! j = Some x -> b_dev x = 1 -> b_blockno x <> m) as Hmiss.
    { intros j x Hx Hd E. apply He, Exists_exists. exists x.
      split; [eapply list_elem_of_lookup_2; exact Hx | auto]. }
    rewrite content_miss, Himg by assumption.
    destruct (decide (b_dev b = 1 /\ b_blockno b = m)) as [[Hd <-]|Hn].
    + rewrite (content_hit d cs i b), Hold; auto.
    + rewrite content_miss; [reflexivity|]. intros j x Hx Hd E.
      destruct (decide (j = i)) as [->|Hj]; [apply Hn; split; congruence|].
      apply (Hmiss j x); [rewrite lookup_ins, decide_False; assumption | exact Hd | exact E].
Qed.

Lemma hold_insert : hold (<[i := b']> cs) =
  if b_refcnt b' =? 0 then delete i (hold cs) else <[i := b_blockno b']> (hold cs).
Proof.
  apply map_eq. intros j. rewrite lookup_hold, lookup_ins.
  destruct (decide (j = i)) as [->|Hj]; cbn.
  - destruct (b_refcnt b' =? 0); rewrite ?lookup_delete_eq, ?lookup_insert_eq; reflexivity.
  - destruct (b_refcnt b' =? 0); rewrite ?lookup_delete_ne, ?lookup_insert_ne by congruence;
      rewrite lookup_hold; reflexivity.
Qed.

Lemma dirty_insert : (bitset (b_flags b) B_DIRTY = true -> b_blockno b = b_blockno b') ->
  dirty (<[i := b']> cs) =
  if bitset (b_flags b') B_DIRTY then dirty cs ∪ {[b_blockno b']} else dirty cs ∖ {[b_blockno b']}.
Proof.
  intros Hfl. pose proof Hok as (_ & _ & Hall & _ & _). apply set_eq. intros n.
  assert (n ∈ dirty (<[i := b']> cs) <->
    (bitset (b_flags b') B_DIRTY = true /\ n = b_blockno b') \/
    (n ∈ dirty cs /\ n <> b_blockno b')) as ->.
  { rewrite !elem_of_dirty. split.
    - intros (j & x & Hx & Hd & Hn). rewrite lookup_ins in Hx. destruct (decide (j = i)) as [->|Hj].
      + injection Hx as <-. left. auto.
      + right. split; [eauto|]. intros ->. apply Hj, (Honly j x Hx); [|exact Hn].
        destruct (Hall j x Hx) as (_ & _ & [(_ & E & _)|(E & _)]); [|exact E].
        rewrite E in Hd. discriminate.
    - intros [[Hd ->]|[(j & x & Hx & Hd & Hn) Hne]].
      + exists i, b'. rewrite lookup_ins, decide_True by reflexivity. auto.
      + exists j, x. rewrite lookup_ins, decide_False; [auto|]. intros ->.
        apply Hne. rewrite <- Hn. replace x with b in * by congruence. auto. }
  destruct (bitset (b_flags b') B_DIRTY).
  - rewrite elem_of_union, elem_of_singleton. destruct (decide (n = b_blockno b')); naive_solver.
  - rewrite elem_of_difference, elem_of_singleton. naive_solver.
Qed.
End Insert.
End Invariant.

(** ** Calls on one buffer *)
Section Calls.
Context `{Ctx}.

(** [s] with buffer [i] changed by [f]. *)
Definition upd (i : nat) (f : buf -> buf) (s : bio) : bio := s <| bc_buf ::= alter f i |>.

Lemma lookup_upd i f s b : bc_buf s !! i = Some b -> bc_buf (upd i f s) !! i = Some (f b).
Proof. intros Hb. unfold upd, set_field. cbn. rewrite list_lookup_alter_eq, Hb. reflexivity. Qed.
Lemma upd_upd i f g s : upd i f (upd i g s) = upd i (f ∘ g) s.
Proof. unfold upd, set_field. cbn. rewrite list_alter_alter_eq. reflexivity. Qed.

Lemma on_buf_upd i f s b : bc_buf s !! i = Some b -> on_buf i (modify f) s = Ret tt (upd i f s).
Proof. intros Hb. apply on_buf_modify. eapply lookup_lt_Some. exact Hb. Qed.

Lemma on_buf_lock {A} (m : M sleeplock A) i s b (a : A) l :
  bc_buf s !! i = Some b -> m (b_lock b) = Ret a l ->
  on_buf i (zoom b_lock m) s = Ret a (upd i (fun y => y <| b_lock := l |>) s).
Proof.
  intros Hb Hm. destruct s as [lk bs d]. unfold on_buf, zoom, elt, upd, set_field in *. cbn in *.
  rewrite Hb, Hm. cbn. do 2 f_equal. apply list_eq. intros j. rewrite list_lookup_alter.
  destruct (decide (i = j)) as [->|].
  - rewrite Hb, list_lookup_insert_eq by (eapply lookup_lt_Some; exact Hb). reflexivity.
  - rewrite list_lookup_insert_ne by assumption. reflexivity.
Qed.

(** The current process holds the buffer's sleep lock. *)
Definition mine (b : buf) : Prop :=
  sl_lk (b_lock b) = None /\ sl_locked (b_lock b) = 1 /\ sl_pid (b_lock b) = cur_pid.

Lemma on_buf_mine i s b : bc_buf s !! i = Some b -> mine b ->
  on_buf i (zoom b_lock holdingsleep) s = Ret true s.
Proof.
  intros Hb (H1 & H2 & H3). erewrite on_buf_lock; [|exact Hb|].
  2: { rewrite holdingsleep_eq by exact H1. rewrite H2, H3, Z.eqb_refl. reflexivity. }
  f_equal. destruct s as [lk bs d]. unfold upd, set_field. cbn in *. f_equal.
  apply list_eq. intros j. rewrite list_lookup_alter.
  destruct (decide (i = j)) as [->|]; [|reflexivity]. rewrite Hb. destruct b. reflexivity.
Qed.
End Calls.

(** What the cache relies on: the device fills an invalid buffer, and writes
    a dirty one. *)
Class BlockDevLaws `{BlockDev} : Prop := {
  law_dev_read s i b : bc_buf s !! i = Some b -> mine b -> b_dev b = 1 ->
    b_blockno b < d_size (bc_disk s) -> b_flags b = 0 ->
    dev_rw i s = Ret tt (upd i (fun y =>
      y <| b_data := d_img (bc_disk s) (b_blockno b) |> <| b_flags := B_VALID |>) s);
  law_dev_write s i b : bc_buf s !! i = Some b -> mine b -> b_dev b = 1 ->
    b_blockno b < d_size (bc_disk s) -> b_flags b = Z.lor B_VALID B_DIRTY ->
    dev_rw i s = Ret tt (upd i (fun y => y <| b_flags := B_VALID |>) s
      <| bc_disk ::= disk_write (b_blockno b) (b_data b) |>) }.

Lemma alter_ext_at (f g : buf -> buf) i (bs : list buf) b :
  bs !! i = Some b -> f b = g b -> alter f i bs = alter g i bs.
Proof.
  intros Hb E. apply list_eq. intros j. rewrite !list_lookup_alter.
  destruct (decide (i = j)) as [->|]; [|reflexivity]. rewrite Hb. cbn. rewrite E. reflexivity.
Qed.

#[export] Instance memide_laws `{Ctx} : @BlockDevLaws _ memide.
Proof.
  split; intros s i b Hb Hm Hd Hn Hf; unfold dev_rw, memide, iderw;
    step on_buf_mine; step by reflexivity; step on_buf_get; cbn [id];
    (step by (apply panic_if_false; rewrite Hf; reflexivity));
    (step by (apply panic_if_false; rewrite Hd; reflexivity));
    step by reflexivity;
    (step by (apply panic_if_false, Z.leb_gt; exact Hn)); rewrite Hf.
  - change (bitset 0 B_DIRTY) with false. cbn iota. rewrite bind_assoc.
    step by reflexivity. step on_buf_upd.
    erewrite on_buf_upd by (apply lookup_upd; exact Hb). rewrite upd_upd.
    unfold upd, set_field. cbn. do 2 f_equal. apply (alter_ext_at _ _ _ _ b Hb).
    cbn. rewrite Hf. reflexivity.
  - change (bitset (Z.lor B_VALID B_DIRTY) B_DIRTY) with true. cbn iota. rewrite bind_assoc.
    step on_buf_upd. step by reflexivity.
    erewrite on_buf_upd by (cbn; apply (lookup_upd _ _ s); exact Hb).
    unfold upd, set_field. cbn. do 2 f_equal. rewrite list_alter_alter_eq.
    apply (alter_ext_at _ _ _ _ b Hb). cbn. rewrite Hf. reflexivity.
Qed.

Definition cores (s : bio) : list buf := core <$> bc_buf s.

Section Bget.
Context `{BlockDev}.
Implicit Types (bs : list buf) (d : disk).

Definition caches (dev n : Z) (x : buf) : bool := (b_dev x =? dev) && (b_blockno x =? n).
Definition recyclable (x : buf) : bool := (b_refcnt x =? 0) && negb (bitset (b_flags x) B_DIRTY).
Definition unlocked (b : buf) : Prop := sl_lk (b_lock b) = None /\ sl_locked (b_lock b) = 0.

(** The buffer a successful bget() returns. *)
Definition locked_buf (b : buf) : buf := b <| b_lock := mk_sleeplock 1 None cur_pid |>.
Definition recycled (dev n : Z) (b : buf) : buf :=
  mk_buf 0 dev n (mk_sleeplock 1 None cur_pid) 1 (b_prev b) (b_next b) (b_qnext b) (b_data b).

Lemma lock_bio bs d : zoom bc_lock acquire (mk_bio None bs d) = Ret tt (mk_bio (Some cpu_id) bs d).
Proof. reflexivity. Qed.
Lemma unlock_bio bs d : zoom bc_lock release (mk_bio (Some cpu_id) bs d) = Ret tt (mk_bio None bs d).
Proof. unfold zoom. cbn. rewrite release_mine. reflexivity. Qed.

Lemma lock_buf lk bs d i b : bs !! i = Some b -> unlocked b ->
  on_buf i (zoom b_lock (acquiresleep [])) (mk_bio lk bs d) =
    Ret tt (mk_bio lk (alter locked_buf i bs) d).
Proof.
  intros Hb [H1 H2]. erewrite on_buf_lock; [|exact Hb|].
  2: { rewrite acquiresleep_eq, H2 by exact H1. reflexivity. }
  reflexivity.
Qed.

Lemma modify_buf f lk bs d i b : bs !! i = Some b ->
  on_buf i (modify f) (mk_bio lk bs d) = Ret tt (mk_bio lk (alter f i bs) d).
Proof. intros Hb. apply (on_buf_upd i f (mk_bio lk bs d) b Hb). Qed.

Lemma lookup_alter_at f bs i b : bs !! i = Some b -> alter f i bs !! i = Some (f b).
Proof. intros Hb. rewrite list_lookup_alter_eq, Hb. reflexivity. Qed.

Section Cases.
Context (bs : list buf) (d : disk) (l : list nat) (dev n : Z) (i : nat) (b : buf).
Context (Hlen : length bs = S NBUF) (Ho : order bs l) (Hb : bs !! i = Some b) (Hun : unlocked b).

(** The block is cached: its buffer is locked and counted. *)
Lemma bget_hit : List.find (holds_at (caches dev n) bs) l = Some i ->
  bget dev n (mk_bio None bs d) =
    Ret i (mk_bio None (alter (fun x => locked_buf (x <| b_refcnt ::= Z.add 1 |>)) i bs) d).
Proof.
  intros Hf. unfold bget. step lock_bio.
  step by (apply on_buf_next; cbn; unfold HEAD; lia).
  step by (apply (walk_forward (mk_bio (Some cpu_id) bs d) l Hlen Ho)).
  unfold caches in Hf. cbn [bc_buf]. rewrite Hf.
  step modify_buf. step unlock_bio.
  step by (apply lock_buf with (b := b <| b_refcnt ::= Z.add 1 |>);
           [apply lookup_alter_at; exact Hb | exact Hun]).
  rewrite list_alter_alter_eq. reflexivity.
Qed.

(** It is not: the first recyclable buffer from the tail of the list, the
    least recently used one, is taken. *)
Lemma bget_recycle : List.find (holds_at (caches dev n) bs) l = None ->
  List.find (holds_at recyclable bs) (rev l) = Some i ->
  bget dev n (mk_bio None bs d) =
    Ret i (mk_bio None (alter (recycled dev n) i bs) d).
Proof.
  intros Hf Hr. unfold bget. step lock_bio.
  step by (apply on_buf_next; cbn; unfold HEAD; lia).
  step by (apply (walk_forward (mk_bio (Some cpu_id) bs d) l Hlen Ho)).
  unfold caches in Hf. cbn [bc_buf]. rewrite Hf.
  assert (exists x, bs !! HEAD = Some x) as [x Hx] by (apply lookup_lt_is_Some; unfold HEAD; lia).
  step (on_buf_get b_prev HEAD (mk_bio (Some cpu_id) bs d) x Hx).
  replace (b_prev x) with (pv bs HEAD) by (unfold pv; rewrite Hx; reflexivity).
  step by (apply (walk_backward (mk_bio (Some cpu_id) bs d) l Hlen Ho)).
  unfold recyclable in Hr. cbn [bc_buf]. rewrite Hr.
  step modify_buf.
  do 3 (step by (eapply modify_buf; rewrite ?list_alter_alter_eq; apply lookup_alter_at; exact Hb);
        rewrite list_alter_alter_eq).
  step unlock_bio.
  step by (eapply lock_buf; [apply lookup_alter_at; exact Hb | exact Hun]).
  rewrite list_alter_alter_eq. unfold ret.
  rewrite (alter_ext_at _ (recycled dev n) i bs b Hb) by reflexivity. reflexivity.
Qed.

Lemma bget_full : List.find (holds_at (caches dev n) bs) l = None ->
  List.find (holds_at recyclable bs) (rev l) = None ->
  bget dev n (mk_bio None bs d) = Stop (Panicked "bget: no buffers") (mk_bio (Some cpu_id) bs d).
Proof.
  intros Hf Hr. unfold bget. step lock_bio.
  step by (apply on_buf_next; cbn; unfold HEAD; lia).
  step by (apply (walk_forward (mk_bio (Some cpu_id) bs d) l Hlen Ho)).
  unfold caches in Hf. cbn [bc_buf]. rewrite Hf.
  assert (exists x, bs !! HEAD = Some x) as [x Hx] by (apply lookup_lt_is_Some; unfold HEAD; lia).
  step (on_buf_get b_prev HEAD (mk_bio (Some cpu_id) bs d) x Hx).
  replace (b_prev x) with (pv bs HEAD) by (unfold pv; rewrite Hx; reflexivity).
  step by (apply (walk_backward (mk_bio (Some cpu_id) bs d) l Hlen Ho)).
  unfold recyclable in Hr. cbn [bc_buf]. rewrite Hr. reflexivity.
Qed.
End Cases.
End Bget.

(** ** The instance of the interface *)

Section Instance_.
Context `{BlockDevLaws}.

Definition bio_ok (s : bio) : Prop :=
  bc_lock s = None /\ (exists l, order (bc_buf s) l) /\ cs_ok (bc_disk s) (cores s).

#[export] Instance bio_ops : CacheOps bio := {
  c_bread := bread; c_bwrite := bwrite; c_brelse := brelse;
  c_data := fun i => on_buf i (get b_data);
  c_set_data := fun i x => on_buf i (modify (fun b => b <| b_data := x |>));
  c_blockno := fun i => on_buf i (get b_blockno);
  c_pin := fun i => on_buf i (modify (fun b => b <| b_flags ::= Z.lor B_DIRTY |>)) }.

#[export] Instance bio_view : CacheView bio := {
  c_ok := bio_ok; c_disk := bc_disk;
  c_content := fun s => content (bc_disk s) (cores s);
  c_dirty := fun s => dirty (cores s);
  c_hold := fun s => hold (cores s) }.

Lemma lookup_cores lk bs d i b : bs !! i = Some b -> cores (mk_bio lk bs d) !! i = Some (core b).
Proof. intros Hb. unfold cores. rewrite list_lookup_fmap. cbn. rewrite Hb. reflexivity. Qed.
Lemma cores_lookup lk bs d i c : cores (mk_bio lk bs d) !! i = Some c ->
  exists b, bs !! i = Some b /\ c = core b.
Proof.
  unfold cores. rewrite list_lookup_fmap. cbn. destruct (bs !! i); [|discriminate].
  intros [= <-]. eauto.
Qed.
Lemma cores_alter lk bs d f i b : bs !! i = Some b ->
  cores (mk_bio lk (alter f i bs) d) = <[i := core (f b)]> (cores (mk_bio lk bs d)).
Proof.
  intros Hb. apply list_eq. intros j. unfold cores. cbn.
  rewrite list_lookup_fmap, list_lookup_alter. destruct (decide (i = j)) as [->|Hj].
  - rewrite Hb, list_lookup_insert_eq; [reflexivity|].
    rewrite length_fmap. eapply lookup_lt_Some. exact Hb.
  - rewrite list_lookup_insert_ne, list_lookup_fmap by exact Hj. reflexivity.
Qed.

Definition keeps_links (f : buf -> buf) : Prop :=
  forall y, b_next (f y) = b_next y /\ b_prev (f y) = b_prev y.

Lemma order_alter f i bs l : keeps_links f -> order bs l -> order (alter f i bs) l.
Proof. intros Hf. apply order_ext; intros j; symmetry; [apply nx_keep | apply pv_keep]; apply Hf. Qed.

(** The view after a change of buffer [i]. *)
Lemma update_sees bs d d' i b f :
  bio_ok (mk_bio None bs d) -> bs !! i = Some b -> i <> HEAD -> keeps_links f ->
  buf_ok d' (f b) -> b_dev (f b) = 1 -> only i (b_blockno (f b)) (cores (mk_bio None bs d)) ->
  disk_ok d' -> d_size d' = d_size d ->
  (forall m, m <> b_blockno (f b) -> d_img d' m = d_img d m) ->
  (b_dev b = 1 -> b_blockno b <> b_blockno (f b) -> b_data b = d_img d (b_blockno b)) ->
  (bitset (b_flags b) B_DIRTY = true -> b_blockno b = b_blockno (f b)) ->
  let cs := cores (mk_bio None bs d) in let n := b_blockno (f b) in
  sees (mk_bio None (alter f i bs) d')
    (upd_content (content d cs) n (b_data (f b)))
    (if bitset (b_flags (f b)) B_DIRTY then dirty cs ∪ {[n]} else dirty cs ∖ {[n]})
    (if b_refcnt (f b) =? 0 then delete i (hold cs) else <[i := n]> (hold cs)) d'.
Proof.
  intros (_ & [l Ho] & Hcs) Hb HH Hk Hok Hdev Honly Hd Hsz Himg Hold Hdirty. cbv zeta.
  pose proof (lookup_cores None bs d i b Hb) as Hc.
  unfold sees. cbn [c_ok c_content c_dirty c_hold c_disk bio_view].
  unfold bio_ok. cbn [bc_lock bc_buf bc_disk].
  assert (cores (mk_bio None (alter f i bs) d') = <[i := core (f b)]> (cores (mk_bio None bs d)))
    as -> by (apply (cores_alter None bs d f i b Hb)).
  split_and!.
  - reflexivity.
  - exists l. apply order_alter; assumption.
  - eapply cs_ok_insert; eauto.
  - eapply content_insert with (b := core b) (b' := core (f b)); eauto.
  - eapply dirty_insert with (b := core b) (b' := core (f b)); eauto.
  - eapply hold_insert with (b := core b) (b' := core (f b)); eauto.
  - reflexivity.
Qed.

(** What holding a buffer means. *)
Lemma held_buf s i n : bio_ok s -> hold (cores s) !! i = Some n ->
  exists b, bc_buf s !! i = Some b /\ i <> HEAD /\ b_dev b = 1 /\ b_blockno b = n /\
    0 <= n < d_size (bc_disk s) /\ (b_flags b = 2 \/ b_flags b = 6) /\ b_refcnt b = 1 /\ mine b /\
    length (b_data b) = 512%nat /\ only i n (cores s) /\
    content (bc_disk s) (cores s) n = b_data b.
Proof.
  destruct s as [lk bs d]. intros (_ & _ & Hcs). cbn [bc_buf bc_disk] in *. rewrite lookup_hold.
  destruct (cores _ !! i) as [c|] eqn:Ec; cbn [mbind option_bind]; [|discriminate].
  destruct (Z.eqb_spec (b_refcnt c) 0); [discriminate|]. intros [= <-].
  destruct (cores_lookup _ _ _ _ _ Ec) as (b & Hb & ->). exists b.
  pose proof Hcs as (_ & _ & Hall & Hhd & Hu).
  destruct (Hall i _ Ec) as (? & ? & [Hf|(Hd & Hr & Hfl & [Hst|Hst])]); cbn in *; try lia.
  assert (i <> HEAD) by (intros ->; specialize (Hhd _ Ec); cbn in Hhd; lia).
  destruct Hst as (R1 & R2 & R3). unfold mine.
  split_and!; try tauto.
  - apply (Hu i _ Ec Hd).
  - apply (content_hit d _ i (core b) Hcs Ec Hd).
Qed.

Lemma in_dirty d cs i b : cs_ok d cs -> cs !! i = Some b -> b_dev b = 1 ->
  b_blockno b ∈ dirty cs <-> bitset (b_flags b) B_DIRTY = true.
Proof.
  intros (_ & _ & Hall & _ & Hu) Hb Hd. rewrite elem_of_dirty. split; [|eauto].
  intros (j & x & Hx & Hf & E).
  assert (b_dev x = 1) as Hdx.
  { destruct (Hall j x Hx) as (_ & _ & [(_ & E' & _)|(E' & _)]); [|exact E'].
    rewrite E' in Hf. discriminate. }
  pose proof (Hu i b Hb Hd j x Hx Hdx E). subst j. congruence.
Qed.

Lemma dirty_self d cs i b : cs_ok d cs -> cs !! i = Some b -> b_dev b = 1 ->
  (if bitset (b_flags b) B_DIRTY then dirty cs ∪ {[b_blockno b]} else dirty cs ∖ {[b_blockno b]})
  = dirty cs.
Proof.
  intros Hok Hb Hd. pose proof (in_dirty d cs i b Hok Hb Hd) as Hin.
  destruct (bitset (b_flags b) B_DIRTY).
  - assert (b_blockno b ∈ dirty cs) by (apply Hin; reflexivity). set_solver.
  - assert (b_blockno b ∉ dirty cs) by (intros E; apply Hin in E; discriminate). set_solver.
Qed.

Lemma sees_ext (s : bio) (f g : Z -> block) dt dt' h h' d :
  sees s f dt h d -> (forall n, f n = g n) -> dt = dt' -> h = h' -> sees s g dt' h' d.
Proof. intros (H1' & H2' & H3' & H4' & H5') E -> ->. unfold sees. split_and!; auto. congruence. Qed.

Lemma upd_content_self (f : Z -> block) n b m : f n = b -> upd_content f n b m = f m.
Proof. intros <-. unfold upd_content. destruct (Z.eqb_spec m n) as [->|]; reflexivity. Qed.

Ltac split_bio s := destruct s as [lk bs d]; cbn [c_ok c_hold c_content c_disk c_dirty bio_view
  c_bread c_bwrite c_brelse c_data c_set_data c_blockno c_pin bio_ops bc_disk] in *.

(** A change of the held buffer that keeps it held. *)
Lemma held_update bs d d' i n b f :
  bio_ok (mk_bio None bs d) -> hold (cores (mk_bio None bs d)) !! i = Some n ->
  bs !! i = Some b -> keeps_links f ->
  b_dev (f b) = 1 -> b_blockno (f b) = n -> b_refcnt (f b) = 1 -> b_lock (f b) = b_lock b ->
  (b_flags (f b) = 2 \/ b_flags (f b) = 6) -> length (b_data (f b)) = 512%nat ->
  disk_ok d' -> d_size d' = d_size d -> (forall m, m <> n -> d_img d' m = d_img d m) ->
  let cs := cores (mk_bio None bs d) in
  sees (mk_bio None (alter f i bs) d')
    (upd_content (content d cs) n (b_data (f b)))
    (if bitset (b_flags (f b)) B_DIRTY then dirty cs ∪ {[n]} else dirty cs ∖ {[n]})
    (hold cs) d'.
Proof.
  intros Hok Hh Hb Hk F1 F2 F3 F4 F5 F6 Hd Hsz Himg.
  destruct (held_buf _ _ _ Hok Hh) as (b0 & Hb0 & HH & Hdev & Hn & Hr & Hfl & Href & Hm & Hl & Ho & _).
  cbn in Hb0, Hr. assert (b0 = b) by congruence. subst b0.
  destruct Hm as (M1 & M2 & M3).
  eapply sees_ext; [eapply (update_sees bs d d' i b f)| | |].
  all: rewrite ?F2, ?F3, ?F4; auto; try congruence; try lia.
  - unfold buf_ok. rewrite F1, F2, F3, F4, Hsz. split_and!; auto. right. split_and!; auto; lia.
  - cbn. apply insert_id. exact Hh.
Qed.

Lemma bio_data s i n : bio_ok s -> c_hold s !! i = Some n -> c_data i s = Ret (c_content s n) s.
Proof.
  intros Hok Hh. destruct (held_buf _ _ _ Hok Hh) as (b & Hb & Hx). cbn.
  rewrite (on_buf_get b_data i s b Hb). f_equal. symmetry. apply Hx.
Qed.
Lemma bio_blockno s i n : bio_ok s -> c_hold s !! i = Some n -> c_blockno i s = Ret n s.
Proof.
  intros Hok Hh. destruct (held_buf _ _ _ Hok Hh) as (b & Hb & Hx). cbn.
  rewrite (on_buf_get b_blockno i s b Hb). f_equal. apply Hx.
Qed.

Lemma bio_set_data s i n x : bio_ok s -> c_hold s !! i = Some n -> length x = 512%nat ->
  exists s', c_set_data i x s = Ret tt s' /\
    sees s' (upd_content (c_content s) n x) (c_dirty s) (c_hold s) (c_disk s).
Proof.
  intros Hok Hh Hx. split_bio s. pose proof Hok as (Hlk & _ & Hcs). cbn in Hlk. subst lk.
  destruct (held_buf _ _ _ Hok Hh) as (b & Hb & HH & Hd & Hn & Hr & Hfl & Href & _).
  cbn [bc_buf bc_disk] in *. eexists. split; [apply (modify_buf _ None bs d i b Hb)|].
  eapply sees_ext; [eapply (held_update bs d d i n b); eauto; try reflexivity| | |reflexivity].
  - intros y; split; reflexivity.
  - apply Hcs.
  - reflexivity.
  - cbn. rewrite <- Hn. apply (dirty_self d _ i (core b) Hcs (lookup_cores _ _ _ _ _ Hb) Hd).
Qed.

Lemma flags_dirty z : z = 2 \/ z = 6 -> Z.lor B_DIRTY z = 6.
Proof. intros [-> | ->]; reflexivity. Qed.

Lemma bio_pin s i n : bio_ok s -> c_hold s !! i = Some n ->
  exists s', c_pin i s = Ret tt s' /\
    sees s' (c_content s) (c_dirty s ∪ {[n]}) (c_hold s) (c_disk s).
Proof.
  intros Hok Hh. split_bio s. pose proof Hok as (Hlk & _ & Hcs). cbn in Hlk. subst lk.
  destruct (held_buf _ _ _ Hok Hh) as (b & Hb & HH & Hd & Hn & Hr & Hfl & Href & Hm & Hl & Ho & Hc).
  cbn [bc_buf bc_disk] in *. eexists. split; [apply (modify_buf _ None bs d i b Hb)|].
  pose proof (flags_dirty _ Hfl) as Ef.
  eapply sees_ext; [eapply (held_update bs d d i n b); eauto; try reflexivity| | |reflexivity].
  - intros y; split; reflexivity.
  - apply Hcs.
  - intros m. apply upd_content_self. exact Hc.
  - cbn -[dirty cores]. rewrite Ef. reflexivity.
Qed.

Lemma disk_ok_write d n b : disk_ok d -> length b = 512%nat -> disk_ok (disk_write n b d).
Proof. intros Hd Hb m Hm. cbn. destruct (m =? n); [exact Hb | apply Hd; exact Hm]. Qed.

Lemma bio_bwrite s i n : bio_ok s -> c_hold s !! i = Some n ->
  exists s', c_bwrite i s = Ret tt s' /\
    sees s' (c_content s) (c_dirty s ∖ {[n]}) (c_hold s)
      (disk_write n (c_content s n) (c_disk s)).
Proof.
  intros Hok Hh. split_bio s. pose proof Hok as (Hlk & _ & Hcs). cbn in Hlk. subst lk.
  destruct (held_buf _ _ _ Hok Hh) as (b & Hb & HH & Hd & Hn & Hr & Hfl & Href & Hm & Hl & Ho & Hc).
  cbn [bc_buf bc_disk] in *. unfold bwrite. rewrite Hc.
  step (on_buf_mine i (mk_bio None bs d) b). step by reflexivity. step modify_buf.
  erewrite law_dev_write with (b := b <| b_flags ::= Z.lor B_DIRTY |>).
  2: { apply lookup_alter_at. exact Hb. }
  2: exact Hm. 2: exact Hd. 2: cbn; lia. 2: exact (flags_dirty _ Hfl).
  rewrite <- Hn. cbn [b_data b_blockno set_field upd].
  eexists. split; [unfold upd, set_field; cbn; rewrite list_alter_alter_eq; reflexivity|].
  eapply sees_ext; [eapply (held_update bs d _ i n b); eauto| | |reflexivity].
  - intros y; split; reflexivity.
  - apply disk_ok_write; [apply Hcs | exact Hl].
  - intros m Hne. cbn. rewrite (proj2 (Z.eqb_neq m _)) by congruence. reflexivity.
  - intros m. apply upd_content_self. exact Hc.
  - cbn -[dirty cores]. rewrite Hn. reflexivity.
Qed.

(** Views look at the cores and the order only. *)
Lemma sees_cores bs bs' l d f dt h d' :
  sees (mk_bio None bs d) f dt h d' -> order bs' l -> core <$> bs' = core <$> bs ->
  sees (mk_bio None bs' d) f dt h d'.
Proof.
  intros (Hok & Hc & Hd & Hh & Hdisk) Ho E. unfold sees in *.
  cbn [c_ok c_hold c_content c_disk c_dirty bio_view] in *. unfold bio_ok, cores in *.
  cbn [bc_buf bc_disk bc_lock] in *. rewrite E. destruct Hok as (H1' & _ & H3'). split_and!; eauto.
Qed.

(** A buffer given back becomes the most recently used one. *)
Lemma brelse_eq bs d i n l1 l2 : bio_ok (mk_bio None bs d) ->
  hold (cores (mk_bio None bs d)) !! i = Some n -> order bs (l1 ++ i :: l2) ->
  exists bs', brelse i (mk_bio None bs d) = Ret tt (mk_bio None bs' d) /\
    order bs' (i :: l1 ++ l2) /\
    core <$> bs' = core <$> alter (fun x => x <| b_lock := mk_sleeplock 0 None 0 |> <| b_refcnt := 0 |>) i bs.
Proof.
  intros Hok Hh Ho.
  destruct (held_buf _ _ _ Hok Hh) as (b & Hb & HH & Hd & Hn & Hr & Hfl & Href & Hm & _).
  cbn [bc_buf bc_disk] in *. unfold brelse.
  step (on_buf_mine i (mk_bio None bs d) b). step by reflexivity.
  step by (eapply on_buf_lock; [exact Hb | apply releasesleep_eq, Hm]).
  unfold upd, set_field at 1. cbn [bc_lock bc_buf bc_disk].
  step lock_bio. step by (eapply modify_buf, lookup_alter_at; exact Hb).
  rewrite list_alter_alter_eq.
  step by (eapply on_buf_get; cbn [bc_buf]; eapply lookup_alter_at; exact Hb).
  cbn [b_refcnt compose set_field]. rewrite Href. change (1 - 1 =? 0) with true. cbn iota.
  set (f := _ ∘ _). destruct (move_to_front_eq (Some cpu_id) (alter f i bs) d l1 i l2)
    as (bs' & E & Ho' & Ec).
  - rewrite length_alter. destruct Hok as (_ & _ & Hl & _).
    unfold cores in Hl. rewrite length_fmap in Hl. exact Hl.
  - apply order_alter; [intros y; split; reflexivity | exact Ho].
  - exists bs'. split; [|split; [exact Ho'|]].
    + step by (exact E). apply unlock_bio.
    + rewrite Ec. f_equal. apply (alter_ext_at _ _ _ _ b Hb). unfold f. cbn. rewrite Href.
      reflexivity.
Qed.

Lemma bio_brelse s i n : bio_ok s -> c_hold s !! i = Some n ->
  n ∈ c_dirty s \/ c_content s n = d_img (c_disk s) n ->
  exists s', c_brelse i s = Ret tt s' /\
    sees s' (c_content s) (c_dirty s) (delete i (c_hold s)) (c_disk s).
Proof.
  intros Hok Hh Hcl. split_bio s. pose proof Hok as (Hlk & [l Ho] & Hcs). cbn in Hlk, Ho. subst lk.
  destruct (held_buf _ _ _ Hok Hh) as (b & Hb & HH & Hd & Hn & Hr & Hfl & Href & Hm & Hl & Hon & Hc).
  cbn [bc_buf bc_disk] in *.
  assert (i ∈ l) as (l1 & l2 & ->)%list_elem_of_split.
  { apply (order_elem _ _ _ Ho). apply lookup_lt_Some in Hb. destruct Hcs as [Hlen _].
    unfold cores in Hlen. rewrite length_fmap in Hlen. cbn [bc_buf] in Hlen. unfold HEAD in HH. lia. }
  destruct (brelse_eq bs d i n l1 l2 Hok Hh Ho) as (bs' & E & Ho' & Ec).
  exists (mk_bio None bs' d). split; [exact E|].
  pose proof (lookup_cores None bs d i b Hb) as Hcore.
  eapply sees_cores; [|exact Ho'|exact Ec].
  eapply sees_ext; [eapply (update_sees bs d d i b); eauto| | |].
  all: cbn -[dirty cores hold content]; try rewrite Hn.
  - intros y; split; reflexivity.
  - unfold buf_ok, set_field. cbn -[dirty cores hold content]. rewrite Hn.
    split_and!; auto. right. split_and!; auto; try lia. left. split_and!; auto. intros Ef.
    destruct Hcl as [Hcl|Hcl]; [|congruence]. rewrite <- Hn in Hcl.
    apply (in_dirty d _ i (core b) Hcs Hcore Hd) in Hcl. cbn in Hcl. rewrite Ef in Hcl. discriminate.
  - exact Hon.
  - apply Hcs.
  - intros Hx Hne. destruct (Hne eq_refl).
  - intros m. apply upd_content_self. exact Hc.
  - rewrite <- Hn. apply (dirty_self d _ i (core b) Hcs Hcore Hd).
  - reflexivity.
Qed.

(** A buffer that cannot be recycled pins its block. *)
Lemma not_recyclable d cs k b : cs_ok d cs -> cs !! k = Some b -> recyclable b = false ->
  b_dev b = 1 /\ b_blockno b ∈ dirty cs ∪ map_img (hold cs).
Proof.
  intros Hcs Hk Hr. pose proof Hcs as (_ & _ & Hall & _). unfold recyclable in Hr.
  destruct (Hall k b Hk) as (_ & _ & [(Hd & Hf & Hc & _)|(Hd & Hb & Hf & Hst)]).
  { rewrite Hc, Hf in Hr. discriminate. }
  split; [exact Hd|]. apply elem_of_union. destruct (bitset (b_flags b) B_DIRTY) eqn:Ed.
  - left. apply (in_dirty d cs k b Hcs Hk Hd). exact Ed.
  - right. apply elem_of_map_img. exists k. rewrite lookup_hold, Hk. cbn.
    destruct (b_refcnt b =? 0); [discriminate | reflexivity].
Qed.

(** Each of them pins a block of its own, so one of [NBUF] is recyclable. *)
Lemma recyclable_exists bs d l n : bio_ok (mk_bio None bs d) -> order bs l ->
  (forall i b, cores (mk_bio None bs d) !! i = Some b -> b_dev b = 1 -> b_blockno b <> n) ->
  (size (pinned (mk_bio None bs d) ∪ {[n]}) <= NBUF)%nat ->
  exists i, List.find (holds_at recyclable bs) (rev l) = Some i.
Proof.
  intros (_ & _ & Hcs) Ho Hmiss Hsz. cbn [bc_disk] in Hcs.
  change (pinned _) with (dirty (cores (mk_bio None bs d)) ∪ map_img (hold (cores (mk_bio None bs d))))
    in Hsz.
  destruct (List.find _ (rev l)) as [i|] eqn:Ef; [eauto|exfalso].
  set (cs := cores _) in *. pose proof Hcs as (Hlen & _ & _ & _ & Hu).
  set (bl := b_blockno <$> take NBUF cs).
  assert (forall k b, take NBUF cs !! k = Some b -> cs !! k = Some b /\ b_dev b = 1 /\
            b_blockno b ∈ dirty cs ∪ map_img (hold cs)) as Hpin.
  { intros k b Hk. apply lookup_take_Some in Hk as [Hk Hlt]. split; [exact Hk|].
    apply (not_recyclable d cs k b Hcs Hk).
    destruct (cores_lookup _ _ _ _ _ Hk) as (x & Hx & ->). change (recyclable x = false).
    pose proof (List.find_none _ _ Ef k) as Hn. unfold holds_at in Hn. rewrite Hx in Hn.
    apply Hn. apply list_elem_of_In. rewrite <- (Permutation_rev l).
    apply (order_elem _ _ _ Ho). exact Hlt. }
  assert (NoDup bl) as Hnd.
  { apply NoDup_alt. intros i j m Hi Hj. unfold bl in Hi, Hj. rewrite list_lookup_fmap in Hi, Hj.
    destruct (take NBUF cs !! i) as [bi|] eqn:Ei; [|discriminate].
    destruct (take NBUF cs !! j) as [bj|] eqn:Ej; [|discriminate]. cbn in *.
    destruct (Hpin i bi Ei) as (Hi' & Hdi & _), (Hpin j bj Ej) as (Hj' & Hdj & _).
    apply (Hu j bj Hj' Hdj i bi Hi' Hdi). congruence. }
  assert (size (list_to_set (C := gset Z) (n :: bl)) = S NBUF) as Hs.
  { rewrite size_list_to_set.
    - cbn [length]. unfold bl. rewrite length_fmap, length_take. lia.
    - constructor; [|exact Hnd]. unfold bl. intros Hin.
      apply list_elem_of_fmap in Hin as (b & E & [k Hk]%list_elem_of_lookup).
      destruct (Hpin k b Hk) as (Hk' & Hd & _). destruct (Hmiss k b Hk' Hd). congruence. }
  assert (list_to_set (C := gset Z) (n :: bl) ⊆ dirty cs ∪ map_img (hold cs) ∪ {[n]})
    as Hsub.
  { intros m Hm. apply elem_of_list_to_set, elem_of_cons in Hm as [->|Hm]; [set_solver|].
    apply elem_of_union_l. unfold bl in Hm.
    apply list_elem_of_fmap in Hm as (b & -> & [k Hk]%list_elem_of_lookup). apply (Hpin k b Hk). }
  apply subseteq_size in Hsub. rewrite Hs in Hsub. lia.
Qed.

(** What the search of bget() for the block finds. *)
Lemma find_block bs d l n : bio_ok (mk_bio None bs d) -> order bs l ->
  match List.find (holds_at (caches ROOTDEV n) bs) l with
  | Some i => exists b, bs !! i = Some b /\ i <> HEAD /\ b_dev b = 1 /\ b_blockno b = n
  | None => forall i b, cores (mk_bio None bs d) !! i = Some b -> b_dev b = 1 -> b_blockno b <> n
  end.
Proof.
  intros (_ & _ & Hcs) Ho. pose proof Hcs as (Hlen & _ & _ & Hhd & _).
  destruct (List.find _ l) as [i|] eqn:Ef.
  - apply List.find_some in Ef as [Hi Ht]. apply list_elem_of_In, (order_elem _ _ _ Ho) in Hi.
    unfold holds_at, caches in Ht. destruct (bs !! i) as [b|]; [|discriminate].
    apply andb_prop in Ht as [H1' H2']. exists b. unfold ROOTDEV, HEAD in *. split_and!; auto; lia.
  - intros i c Hc Hd E. destruct (cores_lookup _ _ _ _ _ Hc) as (b & Hb & ->).
    assert (i <> HEAD) as Hi by (intros ->; specialize (Hhd _ Hc); cbn in *; lia).
    assert (i ∈ l) as Hin.
    { apply (order_elem _ _ _ Ho). apply lookup_lt_Some in Hc. cbn [bc_disk] in *.
      rewrite Hlen in Hc. unfold HEAD in Hi. lia. }
    pose proof (List.find_none _ _ Ef i) as Hn. unfold holds_at, caches in Hn. rewrite Hb in Hn.
    rewrite (proj2 (Z.eqb_eq (b_dev b) ROOTDEV) Hd), (proj2 (Z.eqb_eq (b_blockno b) n) E) in Hn.
    discriminate (Hn (proj1 (list_elem_of_In _ _) Hin)).
Qed.

Section Bread.
Context (bs : list buf) (d : disk) (l : list nat) (n : Z).
Context (Hok : bio_ok (mk_bio None bs d)) (Ho : order bs l).
Context (Hn : 0 <= n < d_size d) (Hh : ~ held (mk_bio None bs d) n).

Lemma bufs_length : length bs = S NBUF.
Proof. destruct Hok as (_ & _ & Hl & _). unfold cores in Hl. rewrite length_fmap in Hl. exact Hl. Qed.

(** A buffer that is not held is unlocked. *)
Lemma free_unlocked i b : bs !! i = Some b -> hold (cores (mk_bio None bs d)) !! i = None ->
  b_refcnt b = 0 /\ unlocked b /\ length (b_data b) = 512%nat /\
  (b_dev b = 1 -> bitset (b_flags b) B_DIRTY = false -> b_data b = d_img d (b_blockno b)).
Proof.
  intros Hb Hnone. pose proof Hok as (_ & _ & _ & _ & Hall & _).
  pose proof (lookup_cores None bs d i b Hb) as Hc. rewrite lookup_hold, Hc in Hnone.
  cbn in Hnone. destruct (Z.eqb_spec (b_refcnt b) 0) as [E|E]; [|discriminate].
  destruct (Hall i _ Hc) as (Hlk & Hlen & [(D & F & R & L)|(D & B & F & [(R & L & X)|(R & L & _)])]);
    cbn in *; try lia; unfold unlocked; split_and!; auto; try lia.
  intros _ Hd. apply X. destruct F as [F|F]; [exact F|]. rewrite F in Hd. discriminate.
Qed.

Lemma bread_hit i b : List.find (holds_at (caches ROOTDEV n) bs) l = Some i ->
  bs !! i = Some b -> i <> HEAD -> b_dev b = 1 -> b_blockno b = n ->
  exists s', bread ROOTDEV n (mk_bio None bs d) = Ret i s' /\
    hold (cores (mk_bio None bs d)) !! i = None /\
    sees s' (content d (cores (mk_bio None bs d))) (dirty (cores (mk_bio None bs d)))
      (<[i := n]> (hold (cores (mk_bio None bs d)))) d.
Proof.
  intros Hf Hb HH Hd Hno. pose proof Hok as (_ & _ & Hcs). cbn [bc_disk] in Hcs.
  pose proof (lookup_cores None bs d i b Hb) as Hc.
  assert (hold (cores (mk_bio None bs d)) !! i = None) as Hnone.
  { destruct (hold _ !! i) as [m|] eqn:E; [|reflexivity]. exfalso. apply Hh. exists i. cbn -[hold cores].
    rewrite E. rewrite lookup_hold, Hc in E. cbn in E. destruct (b_refcnt b =? 0); congruence. }
  destruct (free_unlocked i b Hb Hnone) as (Hr & Hun & Hlen & _).
  pose proof Hcs as (_ & Hdk & Hall & _ & Hu).
  destruct (Hall i _ Hc) as (_ & _ & [(D & _)|(_ & _ & Hfl & _)]); [cbn in D; lia|]. cbn in Hfl.
  unfold bread. step by (apply (bget_hit bs d l ROOTDEV n i b bufs_length Ho Hb Hun Hf)).
  step by (eapply on_buf_get; cbn [bc_buf]; apply lookup_alter_at; exact Hb).
  change (b_flags (locked_buf _)) with (b_flags b).
  assert (bitset (b_flags b) B_VALID = true) as -> by (destruct Hfl as [-> | ->]; reflexivity).
  step by reflexivity. eexists. split; [reflexivity|]. split; [exact Hnone|].
  eapply sees_ext; [eapply (update_sees bs d d i b); eauto| | |].
  - intros y; split; reflexivity.
  - unfold buf_ok, locked_buf, set_field. cbn. rewrite Hr.
    destruct Hun as [U1 U2]. split_and!; auto. right. split_and!; auto; lia.
  - apply (Hu i (core b) Hc Hd).
  - intros _ Hne. destruct (Hne eq_refl).
  - intros m. apply upd_content_self. apply (content_hit d _ i (core b) Hcs Hc Hd).
  - apply (dirty_self d _ i (core b) Hcs Hc Hd).
  - cbn -[hold cores]. rewrite Hr, Hno. reflexivity.
Qed.

(** The buffer after a miss. *)
Definition filled (x : buf) : buf :=
  mk_buf B_VALID ROOTDEV n (mk_sleeplock 1 None cur_pid) 1 (b_prev x) (b_next x) (b_qnext x)
    (d_img d n).

Lemma bread_miss i b : List.find (holds_at (caches ROOTDEV n) bs) l = None ->
  List.find (holds_at recyclable bs) (rev l) = Some i -> bs !! i = Some b ->
  exists s', bread ROOTDEV n (mk_bio None bs d) = Ret i s' /\
    hold (cores (mk_bio None bs d)) !! i = None /\
    sees s' (content d (cores (mk_bio None bs d))) (dirty (cores (mk_bio None bs d)))
      (<[i := n]> (hold (cores (mk_bio None bs d)))) d.
Proof.
  intros Hf Hrec Hb. pose proof Hok as (_ & _ & Hcs). cbn [bc_disk] in Hcs.
  pose proof (lookup_cores None bs d i b Hb) as Hc.
  pose proof (find_block bs d l n Hok Ho) as Hmiss. rewrite Hf in Hmiss.
  apply List.find_some in Hrec as Hrec'. destruct Hrec' as [Hi Ht].
  apply list_elem_of_In in Hi. rewrite <- (Permutation_rev l) in Hi.
  apply (order_elem _ _ _ Ho) in Hi.
  unfold holds_at, recyclable in Ht. rewrite Hb in Ht. apply andb_prop in Ht as [Hr Hcl].
  apply negb_true_iff in Hcl.
  assert (hold (cores (mk_bio None bs d)) !! i = None) as Hnone
    by (rewrite lookup_hold, Hc; cbn; rewrite Hr; reflexivity).
  destruct (free_unlocked i b Hb Hnone) as (_ & Hun & Hlen & Hcoh).
  pose proof Hcs as (_ & Hdk & _ & _ & _).
  unfold bread. step by (apply (bget_recycle bs d l ROOTDEV n i b bufs_length Ho Hb Hun Hf Hrec)).
  step by (eapply on_buf_get; cbn [bc_buf]; apply lookup_alter_at; exact Hb).
  change (bitset (b_flags _) B_VALID) with false. cbn iota.
  step by (eapply law_dev_read with (b := recycled ROOTDEV n b);
    [apply lookup_alter_at; exact Hb | split_and!; auto; apply Hun | reflexivity | cbn; lia | reflexivity]).
  unfold upd, set_field at 1. cbn [bc_lock bc_buf bc_disk]. rewrite list_alter_alter_eq.
  rewrite (alter_ext_at _ filled i bs b Hb) by reflexivity.
  eexists. split; [reflexivity|]. split; [exact Hnone|].
  eapply sees_ext; [eapply (update_sees bs d d i b filled); eauto| | |].
  - unfold HEAD. lia.
  - intros y; split; reflexivity.
  - unfold buf_ok. cbn.
    destruct Hun as [U1 U2]. split_and!; auto. right. split_and!; auto; lia.
  - intros j x Hx Hd E. destruct (Hmiss j x Hx Hd E).
  - rewrite Hcl. discriminate.
  - intros m. apply upd_content_self. apply (content_miss d _ n Hmiss).
  - cbn -[dirty cores]. assert (n ∉ dirty (cores (mk_bio None bs d))); [|set_solver].
    intros (j & x & Hx & Hfl & E)%elem_of_dirty. pose proof Hcs as (_ & _ & Hall & _).
    destruct (Hall j x Hx) as (_ & _ & [(_ & F & _)|(D & _)]); [|destruct (Hmiss j x Hx D E)].
    rewrite F in Hfl. discriminate.
  - reflexivity.
Qed.
End Bread.

Lemma bio_bread s n : bio_ok s -> 0 <= n < d_size (c_disk s) -> ~ held s n ->
  (size (pinned s ∪ {[n]}) <= NBUF)%nat ->
  exists i s', c_bread ROOTDEV n s = Ret i s' /\ c_hold s !! i = None /\
    sees s' (c_content s) (c_dirty s) (<[i := n]> (c_hold s)) (c_disk s).
Proof.
  intros Hok Hn Hh Hsz. split_bio s. pose proof Hok as (Hlk & [l Ho] & Hcs). cbn in Hlk, Ho. subst lk.
  pose proof (find_block bs d l n Hok Ho) as Hfind.
  destruct (List.find (holds_at (caches ROOTDEV n) bs) l) as [i|] eqn:Ef.
  - destruct Hfind as (b & Hb & HH & Hd & Hno). exists i.
    eapply (bread_hit bs d l n Hok Ho Hn Hh i b); eauto.
  - destruct (recyclable_exists bs d l n Hok Ho Hfind Hsz) as [i Hi]. exists i.
    assert (is_Some (bs !! i)) as [b Hb].
    { apply List.find_some in Hi as [_ Ht]. unfold holds_at in Ht.
      destruct (bs !! i); [eauto | discriminate]. }
    eapply (bread_miss bs d l n Hok Ho Hn Hh i b); eauto.
Qed.

Lemma content_cases d cs n :
  (exists i b, cs !! i = Some b /\ b_dev b = 1 /\ b_blockno b = n) \/ content d cs n = d_img d n.
Proof.
  unfold content. destruct (list_find _ cs) as [[i b]|] eqn:E; [left|right; reflexivity].
  apply list_find_Some in E as (Hb & [Hd Hn] & _). eauto.
Qed.

Lemma bio_clean s n : bio_ok s -> n ∉ c_dirty s -> ~ held s n -> c_content s n = d_img (c_disk s) n.
Proof.
  intros Hok Hd Hh. split_bio s. pose proof Hok as (Hlk & _ & Hcs). cbn in Hlk. subst lk.
  cbn [bc_disk] in Hcs. destruct (content_cases d (cores (mk_bio None bs d)) n) as [(i & c & Hc & Hdev & <-)|E];
    [|exact E].
  rewrite (content_hit d _ i c Hcs Hc Hdev). destruct (cores_lookup _ _ _ _ _ Hc) as (b & Hb & ->).
  apply (free_unlocked bs d Hok i b Hb); [|exact Hdev|].
  - destruct (hold (cores (mk_bio None bs d)) !! i) as [m|] eqn:E; [|reflexivity].
    exfalso. apply Hh. exists i. cbn [c_hold bio_view]. rewrite E.
    rewrite lookup_hold, Hc in E. cbn in E. destruct (b_refcnt b =? 0); [discriminate|].
    injection E as <-. reflexivity.
  - apply not_true_iff_false. intros E. apply Hd. apply (in_dirty d _ i (core b) Hcs Hc Hdev). exact E.
Qed.

Lemma bio_length s n : bio_ok s -> 0 <= n < d_size (c_disk s) -> length (c_content s n) = 512%nat.
Proof.
  intros (_ & _ & Hcs) Hn. cbn [c_content bio_view]. pose proof Hcs as (_ & Hdk & Hall & _).
  destruct (content_cases (bc_disk s) (cores s) n) as [(i & c & Hc & Hdev & <-)|E].
  - rewrite (content_hit _ _ i c Hcs Hc Hdev). apply (Hall i c Hc).
  - rewrite E. apply Hdk, Hn.
Qed.

#[export] Instance bio_laws : CacheLaws bio.
Proof.
  split; intros; [eapply bio_bread | eapply bio_data | eapply bio_blockno | eapply bio_set_data |
    eapply bio_pin | eapply bio_bwrite | eapply bio_brelse | eapply bio_clean | eapply bio_length];
    eassumption.
Qed.
End Instance_.

(** ** What the cache does *)

Section Boot.
Context `{Ctx}.

(** A disk whose blocks have [BSIZE] bytes, and the state after binit(). *)
Definition lru_at_boot : list nat := rev (seq 0 NBUF).

Fixpoint linkedb (f : nat -> nat) (a : nat) (l : list nat) (e : nat) : bool :=
  match l with
  | [] => Nat.eqb (f a) e
  | x :: l' => Nat.eqb (f a) x && linkedb f x l' e
  end.
Lemma linkedb_ok f l e : forall a, linkedb f a l e = true -> linked f a l e.
Proof.
  induction l as [|x l IH]; intros a; cbn; [apply Nat.eqb_eq|].
  intros [H1%Nat.eqb_eq H2]%andb_prop. auto.
Qed.

Definition booted_bufs : list buf :=
  map (fun i => zero_buf <| b_prev := if Nat.eqb i HEAD then O else S i |>
                         <| b_next := if Nat.eqb i 0 then HEAD else pred i |>) (seq 0 (S NBUF)).

Lemma binit_eq d : binit (boot_bio d) = Ret tt (mk_bio None booted_bufs d).
Proof. vm_compute. reflexivity. Qed.
Lemma booted_cores : core <$> booted_bufs = replicate (S NBUF) (core zero_buf).
Proof. vm_compute. reflexivity. Qed.
Lemma booted_order : order booted_bufs lru_at_boot.
Proof.
  split; [symmetry; apply Permutation_rev|].
  split; apply linkedb_ok; vm_compute; reflexivity.
Qed.

Lemma zero_buf_ok d : buf_ok d (core zero_buf).
Proof.
  split; [reflexivity|]. split; [vm_compute; reflexivity|].
  left. split_and!; reflexivity.
Qed.

(** All buffers fresh: the cache shows the disk. *)
Lemma fresh_ok bs d l : core <$> bs = replicate (S NBUF) (core zero_buf) -> order bs l ->
  disk_ok d -> let s := mk_bio None bs d in
  bio_ok s /\ pinned s = ∅ /\ forall n, c_content s n = d_img d n.
Proof.
  intros Ec Ho Hd. cbv zeta.
  assert (forall i c, cores (mk_bio None bs d) !! i = Some c -> c = core zero_buf) as Hall.
  { intros i c Hc. unfold cores in Hc. cbn [bc_buf] in Hc. rewrite Ec in Hc.
    apply lookup_replicate in Hc. apply Hc. }
  split; [|split].
  - split; [reflexivity|]. split; [exists l; exact Ho|].
    split; [unfold cores; cbn [bc_buf]; rewrite Ec; apply length_replicate|].
    split; [exact Hd|]. split; [|split].
    + intros i c Hc. rewrite (Hall i c Hc). apply zero_buf_ok.
    + intros c Hc. rewrite (Hall _ c Hc). reflexivity.
    + intros i c Hc Hdev. rewrite (Hall i c Hc) in Hdev. discriminate Hdev.
  - apply set_eq. intros n. unfold pinned. rewrite elem_of_union, elem_of_map_img.
    cbn [c_dirty c_hold bio_view]. rewrite elem_of_dirty.
    split; [|intros Hn; destruct (not_elem_of_empty n Hn)].
    intros [(i & c & Hc & Hf & _)|(i & Hi)].
    + rewrite (Hall i c Hc) in Hf. discriminate Hf.
    + rewrite lookup_hold in Hi. destruct (cores _ !! i) as [c|] eqn:Hc; [|discriminate Hi].
      rewrite (Hall i c Hc) in Hi. discriminate Hi.
  - intros n. apply content_miss. intros i c Hc Hdev. rewrite (Hall i c Hc) in Hdev.
    discriminate Hdev.
Qed.

(** binit() establishes the invariant of the buffer cache on every disk
    of 512-byte blocks: the buffers form a well formed doubly linked list,
    nothing is pinned or held, and every block reads as the disk has it. *)
Theorem binit_ok (d : disk) (Hd : disk_ok d) :
  exists s, binit (boot_bio d) = Ret tt s /\ bio_ok s /\ order (bc_buf s) lru_at_boot /\
    pinned s = ∅ /\ bc_disk s = d /\ forall n, c_content s n = d_img d n.
Proof.
  exists (mk_bio None booted_bufs d).
  destruct (fresh_ok booted_bufs d lru_at_boot booted_cores booted_order Hd) as (Hok & Hp & Hc).
  split; [apply binit_eq|]. split; [exact Hok|]. split; [exact booted_order|].
  split; [exact Hp|]. split; [reflexivity | exact Hc].
Qed.

(** C25. The list is kept in least-recently-used order: a block that is not
    cached gets the least recently released buffer that is unused and clean,
    or bget() panics when there is none; brelse() makes its buffer the most
    recently used one and keeps the order of the others. *)
Theorem bcache_lru (s : bio) (l : list nat) (n : Z)
    (Hok : bio_ok s) (Ho : order (bc_buf s) l) :
  (List.find (holds_at (caches ROOTDEV n) (bc_buf s)) l = None ->
   match List.find (holds_at recyclable (bc_buf s)) (rev l) with
   | Some i => exists s', bget ROOTDEV n s = Ret i s' /\ order (bc_buf s') l
   | None => exists s', bget ROOTDEV n s = Stop (Panicked "bget: no buffers") s'
   end) /\
  (forall i m l1 l2, c_hold s !! i = Some m -> l = l1 ++ i :: l2 ->
   exists s', brelse i s = Ret tt s' /\ order (bc_buf s') (i :: l1 ++ l2)).
Proof.
  destruct s as [lk bs d]. pose proof Hok as (Hlk & _ & Hcs). cbn in Hlk, Ho. subst lk.
  cbn [bc_buf]. split.
  - intros Hf. destruct (List.find (holds_at recyclable bs) (rev l)) as [i|] eqn:Er.
    + pose proof (List.find_some _ _ Er) as [_ Ht]. unfold holds_at in Ht.
      destruct (bs !! i) as [b|] eqn:Hb; [|discriminate].
      apply andb_prop in Ht as [Hr _].
      assert (hold (cores (mk_bio None bs d)) !! i = None) as Hnone
        by (rewrite lookup_hold, (lookup_cores None bs d i b Hb); cbn; rewrite Hr; reflexivity).
      destruct (free_unlocked bs d Hok i b Hb Hnone) as (_ & Hun & _).
      rewrite (bget_recycle bs d l ROOTDEV n i b (bufs_length bs d Hok) Ho Hb Hun Hf Er).
      eexists. split; [reflexivity|]. apply order_alter; [intros y; split; reflexivity | exact Ho].
    + rewrite (bget_full bs d l ROOTDEV n (bufs_length bs d Hok) Ho Hf Er). eauto.
  - intros i m l1 l2 Hh ->. destruct (brelse_eq bs d i m l1 l2 Hok Hh Ho) as (bs' & E & Ho' & _).
    eexists. split; [exact E | exact Ho'].
Qed.

(** The cache is coherent and writes through: reading a block, changing
    it, bwrite() and brelse() succeed when fewer than NBUF other blocks are
    pinned; afterwards the disk and every later reader see the new data of
    that block and the old data of all the others. *)
Theorem bcache_write (s : bio) (n : Z) (x : block)
    (Hok : bio_ok s) (Hn : 0 <= n < d_size (bc_disk s)) (Hh : ~ held s n)
    (Hsz : (size (pinned s ∪ {[n]}) <= NBUF)%nat) (Hx : length x = 512%nat) :
  exists s',
    (let! b := bread ROOTDEV n in
     on_buf b (modify (fun y => y <| b_data := x |>)) ;! bwrite b ;! brelse b) s = Ret tt s' /\
    bio_ok s' /\ c_hold s' = c_hold s /\
    bc_disk s' = disk_write n x (bc_disk s) /\
    forall m, c_content s' m = if m =? n then x else c_content s m.
Proof.
  destruct (bio_bread s n Hok Hn Hh Hsz) as (i & s1 & E1 & Hi & Ok1 & C1 & D1 & H1 & K1).
  assert (c_hold s1 !! i = Some n) as Hi1 by (rewrite H1; apply lookup_insert_eq).
  destruct (bio_set_data s1 i n x Ok1 Hi1 Hx) as (s2 & E2 & Ok2 & C2 & D2 & H2 & K2).
  assert (c_hold s2 !! i = Some n) as Hi2 by (rewrite H2; exact Hi1).
  destruct (bio_bwrite s2 i n Ok2 Hi2) as (s3 & E3 & Ok3 & C3 & D3 & H3 & K3).
  assert (c_hold s3 !! i = Some n) as Hi3 by (rewrite H3; exact Hi2).
  assert (c_content s2 n = x) as Ex by (rewrite C2; unfold upd_content; rewrite Z.eqb_refl; reflexivity).
  destruct (bio_brelse s3 i n Ok3 Hi3) as (s4 & E4 & Ok4 & C4 & D4 & H4 & K4).
  { right. rewrite K3, C3. cbn. rewrite Z.eqb_refl. reflexivity. }
  exists s4. split; [step by (exact E1); step by (exact E2); step by (exact E3); exact E4|].
  split; [exact Ok4|]. split.
  { rewrite H4, H3, H2, H1. apply delete_insert_id. exact Hi. }
  split; [etransitivity; [exact K4|]; rewrite K3, K2, K1, Ex; reflexivity|].
  intros m. rewrite C4, C3, C2. unfold upd_content. rewrite C1. reflexivity.
Qed.

End Boot.

Section Witnesses.
#[local] Instance one_cpu : Ctx := {| cpu_id := 0; cur_pid := 1 |}.

Example binit_ok_witness :
  let d := mk_disk 100 (fun n => repeat (n mod 256) 512) [] in
  disk_ok d /\ exists s, binit (boot_bio d) = Ret tt s /\ pinned s = ∅.
Proof.
  assert (disk_ok (mk_disk 100 (fun n => repeat (n mod 256) 512) [])) as Hd
    by (intros n _; apply repeat_length).
  split; [exact Hd|]. destruct (binit_ok _ Hd) as (s & H1 & _ & _ & H2 & _).
  exists s. split; assumption.
Defined.

Example bcache_lru_witness :
  let d := mk_disk 100 (fun n => repeat (n mod 256) 512) [] in
  exists s, bget ROOTDEV 7 (mk_bio None booted_bufs d) = Ret 0%nat s /\ order (bc_buf s) lru_at_boot.
Proof.
  set (d := mk_disk 100 (fun n => repeat (n mod 256) 512) []).
  assert (disk_ok d) as Hd by (intros n _; apply repeat_length).
  destruct (fresh_ok booted_bufs d lru_at_boot booted_cores booted_order Hd) as (Hok & _ & _).
  destruct (bcache_lru (mk_bio None booted_bufs d) lru_at_boot 7 Hok booted_order) as [H1 _].
  assert (List.find (holds_at (caches ROOTDEV 7) booted_bufs) lru_at_boot = None) as E1
    by (vm_compute; reflexivity).
  assert (List.find (holds_at recyclable booted_bufs) (rev lru_at_boot) = Some O) as E2
    by (vm_compute; reflexivity).
  specialize (H1 E1). cbn [bc_buf] in H1. rewrite E2 in H1. exact H1.
Defined.

Example bcache_write_witness :
  let d := mk_disk 100 (fun n => repeat (n mod 256) 512) [] in
  exists s', (let! b := bread ROOTDEV 7 in
     on_buf b (modify (fun y => y <| b_data := repeat 9 512 |>)) ;! bwrite b ;! brelse b)
     (mk_bio None booted_bufs d) = Ret tt s' /\ bc_disk s' = disk_write 7 (repeat 9 512) d.
Proof.
  set (d := mk_disk 100 (fun n => repeat (n mod 256) 512) []).
  assert (disk_ok d) as Hd by (intros n _; apply repeat_length).
  destruct (fresh_ok booted_bufs d lru_at_boot booted_cores booted_order Hd) as (Hok & Hp & _).
  destruct (bcache_write (mk_bio None booted_bufs d) 7 (repeat 9 512) Hok) as (s' & E & _ & _ & K & _).
  - cbn. lia.
  - intros [i Hi]. unfold pinned in Hp. apply (not_elem_of_empty (C := gset Z) 7). rewrite <- Hp.
    apply elem_of_union_r, elem_of_map_img. exists i. exact Hi.
  - rewrite Hp, (left_id_L ∅ (∪)), size_singleton. unfold NBUF. lia.
  - reflexivity.
  - exists s'. split; [exact E | exact K].
Defined.
End Witnesses.
