(* ===== verification/Log.v ===== *)
(** * The write-ahead log

    [src/homeworks/xv6-public/log.c] over the interface of [Cache.v], and
    readsb() of [fs.c], which initlog() calls.  The proofs are in
    [LogProofs.v]. *)
From S2P Require Import Prelude.
From S2P Require Import Layout.
From S2P Require Import Bio.
From S2P Require Import Cache.

Definition MAXOPBLOCKS : Z := 10.
Definition LOGSIZE : Z := 30.      (* MAXOPBLOCKS * 3 *)

(** struct log; the header [lh] is the pair of [lg_n] and [lg_block]. *)
Record log := mk_log {
  lg_lock : spinlock; lg_start : Z; lg_size : Z; lg_outstanding : Z; lg_committing : Z;
  lg_dev : Z; lg_n : Z; lg_block : list Z }.
#[export] Instance eta_log : Eta log := fun l =>
  mk_log (lg_lock l) (lg_start l) (lg_size l) (lg_outstanding l) (lg_committing l)
    (lg_dev l) (lg_n l) (lg_block l).

(** The log and the cache below it. *)
Record lstate (S : Type) := mk_ls { ls_log : log; ls_cache : S }.
Arguments mk_ls {S} _ _.
Arguments ls_log {S} _.
Arguments ls_cache {S} _.
#[export] Instance eta_lstate {S} : Eta (lstate S) := fun s => mk_ls (ls_log s) (ls_cache s).

Section Code.
Context `{Ctx} {S : Type} `{CacheOps S}.

Definition in_log {A} (m : M log A) : M (lstate S) A := zoom ls_log m.
Definition in_cache {A} (m : M S A) : M (lstate S) A := zoom ls_cache m.

(** [bread(log.dev, n)] *)
Definition log_bread (n : Z) : M (lstate S) nat :=
  let! dev := in_log (get lg_dev) in
  in_cache (c_bread dev n).

(** [*( int* )(b->data + off) = v] *)
Definition store_int (b : nat) (off : Z) (v : Z) : M S unit :=
  if BSIZE <? off + 4 then halt Faulted else
  let! x := c_data b in
  c_set_data b (put_u32 (Z.to_nat off) v x).

(** [memmove(to->data, from->data, BSIZE)] *)
Definition copy_data (to from : nat) : M S unit :=
  let! x := c_data from in
  c_set_data to x.

(** [log.lh.block[i]] *)
Definition lh_block (i : Z) : M log Z := zoom lg_block (elt (Z.to_nat i) (get id)).
Definition set_lh_block (i v : Z) : M log unit :=
  zoom lg_block (elt (Z.to_nat i) (modify (fun _ => v))).

Definition readsb (dev : Z) : M S superblock :=
  let! bp := c_bread dev 1 in
  let! x := c_data bp in
  c_brelse bp ;!
  ret (dec_superblock x).

Definition install_one (tail : Z) : M (lstate S) unit :=
  let! start := in_log (get lg_start) in
  let! lbuf := log_bread (start + tail + 1) in
  let! blockno := in_log (lh_block tail) in
  let! dbuf := log_bread blockno in
  in_cache (copy_data dbuf lbuf) ;!
  in_cache (c_bwrite dbuf) ;!
  in_cache (c_brelse lbuf) ;!
  in_cache (c_brelse dbuf).

Definition install_trans : M (lstate S) unit :=
  let! n := in_log (get lg_n) in
  for_all (seqZ 0 n) install_one.

Definition read_head : M (lstate S) unit :=
  let! start := in_log (get lg_start) in
  let! buf := log_bread start in
  let! lh := in_cache (c_data buf) in
  in_log (modify (fun l => l <| lg_n := get_s32 0 lh |>)) ;!
  let! n := in_log (get lg_n) in
  for_all (seqZ 0 n) (fun i =>
    in_log (set_lh_block i (get_s32 (Z.to_nat (4 + 4 * i)) lh))) ;!
  in_cache (c_brelse buf).

Definition write_head : M (lstate S) unit :=
  let! start := in_log (get lg_start) in
  let! buf := log_bread start in
  let! n := in_log (get lg_n) in
  in_cache (store_int buf 0 n) ;!
  for_all (seqZ 0 n) (fun i =>
    let! v := in_log (lh_block i) in
    in_cache (store_int buf (4 + 4 * i) v)) ;!
  in_cache (c_bwrite buf) ;!
  in_cache (c_brelse buf).

Definition recover_from_log : M (lstate S) unit :=
  read_head ;!
  install_trans ;!
  in_log (modify (fun l => l <| lg_n := 0 |>)) ;!
  write_head.

Definition initlog (dev : Z) : M (lstate S) unit :=
  panic_if (BSIZE <=? 4 + 4 * LOGSIZE) "initlog: too big logheader" ;!
  in_log (modify (fun l => l <| lg_lock := None |>)) ;!
  let! sb := in_cache (readsb dev) in
  in_log (modify (fun l => l <| lg_start := s32 (sb_logstart sb) |>)) ;!
  in_log (modify (fun l => l <| lg_size := s32 (sb_nlog sb) |>)) ;!
  in_log (modify (fun l => l <| lg_dev := dev |>)) ;!
  recover_from_log.

(** The loop of begin_op(); the lock is held. *)
Fixpoint begin_op_loop (env : list (log -> log)) : M log unit :=
  let! l := get id in
  let wait :=
    zoom lg_lock release ;!
    match env with
    | [] => halt (Asleep "log")
    | e :: env' => modify e ;! zoom lg_lock acquire ;! begin_op_loop env'
    end in
  if negb (lg_committing l =? 0) then wait
  else if LOGSIZE <? lg_n l + (lg_outstanding l + 1) * MAXOPBLOCKS then
    (* this op might exhaust log space; wait for commit. *)
    wait
  else
    modify (fun l => l <| lg_outstanding ::= Z.add 1 |>) ;!
    zoom lg_lock release.

Definition begin_op (env : list (log -> log)) : M log unit :=
  zoom lg_lock acquire ;!
  begin_op_loop env.

Definition write_one (tail : Z) : M (lstate S) unit :=
  let! start := in_log (get lg_start) in
  let! to := log_bread (start + tail + 1) in
  let! blockno := in_log (lh_block tail) in
  let! from := log_bread blockno in
  in_cache (copy_data to from) ;!
  in_cache (c_bwrite to) ;!
  in_cache (c_brelse from) ;!
  in_cache (c_brelse to).

Definition write_log : M (lstate S) unit :=
  let! n := in_log (get lg_n) in
  for_all (seqZ 0 n) write_one.

Definition commit : M (lstate S) unit :=
  let! n := in_log (get lg_n) in
  if 0 <? n then
    write_log ;!
    write_head ;!
    install_trans ;!
    in_log (modify (fun l => l <| lg_n := 0 |>)) ;!
    write_head
  else ret tt.

(** The first part of end_op(); true when this is the last operation. *)
Definition end_op_start : M log bool :=
  zoom lg_lock acquire ;!
  modify (fun l => l <| lg_outstanding ::= fun n => n - 1 |>) ;!
  let! l := get id in
  panic_if (negb (lg_committing l =? 0)) "log.committing" ;!
  let! do_commit :=
    (if lg_outstanding l =? 0 then
       modify (fun l => l <| lg_committing := 1 |>) ;! ret true
     else wakeup "log" ;! ret false) in
  zoom lg_lock release ;!
  ret do_commit.

Definition end_op_finish : M log unit :=
  zoom lg_lock acquire ;!
  modify (fun l => l <| lg_committing := 0 |>) ;!
  wakeup "log" ;!
  zoom lg_lock release.

Definition end_op : M (lstate S) unit :=
  let! do_commit := in_log end_op_start in
  if do_commit : bool then commit ;! in_log end_op_finish else ret tt.

(** The index of the first entry that is [b], or the number of entries. *)
Fixpoint index_of (b : Z) (l : list Z) : nat :=
  match l with
  | [] => O
  | x :: l' => if x =? b then O else Datatypes.S (index_of b l')
  end.

Definition log_write (b : nat) : M (lstate S) unit :=
  let! l := in_log (get id) in
  panic_if ((LOGSIZE <=? lg_n l) || (lg_size l - 1 <=? lg_n l)) "too big a transaction" ;!
  panic_if (lg_outstanding l <? 1) "log_write outside of trans" ;!
  in_log (zoom lg_lock acquire) ;!
  let! blockno := in_cache (c_blockno b) in
  let! l := in_log (get id) in
  let i := index_of blockno (take (Z.to_nat (lg_n l)) (lg_block l)) in
  in_log (set_lh_block (Z.of_nat i) blockno) ;!
  (if Z.of_nat i =? lg_n l then in_log (modify (fun l => l <| lg_n ::= Z.add 1 |>)) else ret tt) ;!
  in_cache (c_pin b) ;!
  in_log (zoom lg_lock release).
End Code.
