(* ===== verification/LogProofs.v ===== *)
(** * Correctness of the log

    Proofs about [Log.v]: what the copy loops and the header functions do to
    the cache and the disk, atomicity of commit() under crashes, recovery,
    and the reservation scheme of begin_op() and log_write(). *)
From S2P Require Import Prelude.
From S2P Require Import Layout.
From S2P Require Import Bio.
From S2P Require Import Cache.
From S2P Require Import Lru.
From S2P Require Import BioCache.
From S2P Require Import Log.

(** ** Sequences of block writes *)

Definition apply_writes (ws : list (Z * block)) (f : Z -> block) : Z -> block :=
  foldl (fun f p => upd_content f p.1 p.2) f ws.
Definition disk_writes (ws : list (Z * block)) (d : disk) : disk :=
  foldl (fun d p => disk_write p.1 p.2 d) d ws.

Lemma apply_writes_app ws ws' f : apply_writes (ws ++ ws') f = apply_writes ws' (apply_writes ws f).
Proof. apply foldl_app. Qed.
Lemma disk_writes_app ws ws' d : disk_writes (ws ++ ws') d = disk_writes ws' (disk_writes ws d).
Proof. apply foldl_app. Qed.

Lemma apply_writes_other ws : forall f n, (forall p, p ∈ ws -> p.1 <> n) -> apply_writes ws f n = f n.
Proof.
  induction ws as [|p ws IH]; intros f n Hn; [reflexivity|]. cbn.
  fold (apply_writes ws (upd_content f p.1 p.2)). rewrite IH by (intros q Hq; apply Hn; right; exact Hq).
  unfold upd_content. rewrite (proj2 (Z.eqb_neq n p.1)); [reflexivity|].
  intros E. apply (Hn p); [left | congruence].
Qed.

Lemma apply_writes_ext ws : forall f g n, f n = g n -> apply_writes ws f n = apply_writes ws g n.
Proof.
  induction ws as [|p ws IH]; intros f g n E; [exact E|]. cbn.
  apply IH. unfold upd_content. destruct (n =? p.1); auto.
Qed.

Lemma disk_writes_size ws : forall d, d_size (disk_writes ws d) = d_size d.
Proof. induction ws as [|p ws IH]; intros d; [reflexivity|]. apply (IH (disk_write p.1 p.2 d)). Qed.
Lemma disk_writes_img ws : forall d n, d_img (disk_writes ws d) n = apply_writes ws (d_img d) n.
Proof.
  induction ws as [|p ws IH]; intros d n; [reflexivity|]. apply (IH (disk_write p.1 p.2 d)).
Qed.
Lemma disk_writes_writes ws : forall d, d_writes (disk_writes ws d) = d_writes d ++ ws.
Proof.
  induction ws as [|p ws IH]; intros d; [rewrite app_nil_r; reflexivity|].
  etransitivity; [apply (IH (disk_write p.1 p.2 d))|]. cbn. rewrite <- app_assoc. destruct p.
  reflexivity.
Qed.

(** If every write to [n] writes [b] and there is one, or [b] was there. *)
Lemma apply_writes_same ws b : forall f n,
  (forall p, p ∈ ws -> p.1 = n -> p.2 = b) -> (f n = b \/ n ∈ ws.*1) -> apply_writes ws f n = b.
Proof.
  induction ws as [|p ws IH]; intros f n Hw Hn; cbn.
  - destruct Hn as [E|Hn]; [exact E | apply elem_of_nil in Hn; destruct Hn].
  - apply IH; [intros q Hq; apply Hw; right; exact Hq|]. unfold upd_content.
    destruct (Z.eqb_spec n p.1) as [E|E].
    + left. apply Hw; [left | congruence].
    + destruct Hn as [Hn|Hn]; [left; exact Hn|]. cbn in Hn.
      apply elem_of_cons in Hn as [?|?]; [contradiction | right; assumption].
Qed.

(** ** What each function of the log does *)
Section Effects.
Context `{Ctx} {S : Type} `{CacheLaws S}.
Implicit Types (lg : log) (s : S) (f : Z -> block) (D : gset Z) (d : disk).

(** The log fits on the disk and is no larger than the cache. *)
Definition geom lg d : Prop :=
  lg_dev lg = ROOTDEV /\ 0 <= lg_start lg /\ 1 <= lg_size lg <= LOGSIZE /\
  lg_start lg + lg_size lg <= d_size d /\ length (lg_block lg) = 30%nat.

(** Block [n] belongs to the log area. *)
Definition in_area lg (n : Z) : Prop := lg_start lg <= n < lg_start lg + lg_size lg.

(** A block a transaction may write. *)
Definition home lg d (n : Z) : Prop := 0 <= n < d_size d /\ ~ in_area lg n.

Lemma in_cache_ret {A} (m : M S A) lg s a s' :
  m s = Ret a s' -> in_cache m (mk_ls lg s) = Ret a (mk_ls lg s').
Proof. intros E. unfold in_cache, zoom, set_field. cbn. rewrite E. reflexivity. Qed.
Lemma in_log_ret {A} (m : M log A) lg s a lg' :
  m lg = Ret a lg' -> in_log m (mk_ls lg s) = Ret a (mk_ls lg' s).
Proof. intros E. unfold in_log, zoom, set_field. cbn. rewrite E. reflexivity. Qed.

Lemma log_bread_ret lg s i s' n : lg_dev lg = ROOTDEV ->
  c_bread ROOTDEV n s = Ret i s' -> log_bread n (mk_ls lg s) = Ret i (mk_ls lg s').
Proof.
  intros Hd E. unfold log_bread. step by (apply in_log_ret; reflexivity). rewrite Hd.
  apply in_cache_ret. exact E.
Qed.

Lemma log_eta lg : mk_log (lg_lock lg) (lg_start lg) (lg_size lg) (lg_outstanding lg)
  (lg_committing lg) (lg_dev lg) (lg_n lg) (lg_block lg) = lg.
Proof. destruct lg. reflexivity. Qed.

Lemma lh_block_ret lg i b : lg_block lg !! Z.to_nat i = Some b -> lh_block i lg = Ret b lg.
Proof.
  intros E. unfold lh_block, zoom, elt, get, set_field. cbn. rewrite E.
  rewrite list_insert_id by exact E. unfold id. f_equal. apply log_eta.
Qed.

(** *** Copying one block *)

Lemma size_le_mono (X Y : gset Z) k : X ⊆ Y -> (size Y <= k)%nat -> (size X <= k)%nat.
Proof. intros Hs. apply subseteq_size in Hs. lia. Qed.

Lemma hold_two i j (a b : Z) : i <> j ->
  delete j (delete i (<[j := b]> (<[i := a]> (∅ : gmap nat Z)))) = ∅.
Proof.
  intros Hij. rewrite delete_insert_ne by congruence.
  rewrite (delete_insert_id ∅ i a) by apply lookup_empty. apply delete_insert_id, lookup_empty.
Qed.

Lemma install_one_eq lg s f D d tail b : geom lg d -> sees s f D ∅ d ->
  0 <= tail < lg_size lg - 1 -> lg_block lg !! Z.to_nat tail = Some b -> home lg d b ->
  let a := lg_start lg + tail + 1 in
  a ∉ D -> (size (D ∪ {[a]} ∪ {[b]}) <= NBUF)%nat ->
  exists s', install_one tail (mk_ls lg s) = Ret tt (mk_ls lg s') /\
    sees s' (upd_content f b (f a)) (D ∖ {[b]}) ∅ (disk_write b (f a) d).
Proof.
  intros (Hdev & Hst & Hsz & Hend & _) Hs Ht Hb [Hbr Hba] a Ha Hpin. unfold in_area in Hba.
  unfold install_one. step by (apply in_log_ret; reflexivity). fold a.
  assert (0 <= a < d_size d) as Har by (unfold a; lia).
  assert (b <> a) as Hne by (intros ->; apply Hba; unfold a; lia).
  destruct (sees_bread s f D ∅ d a Hs Har (unheld_empty a)) as (i & s1 & E1 & Hi & S1).
  { eapply size_le_mono; [|exact Hpin]. rewrite map_img_empty_L. set_solver. }
  step by (eapply log_bread_ret; [exact Hdev | exact E1]).
  step by (apply in_log_ret, lh_block_ret; exact Hb).
  destruct (sees_bread s1 _ _ _ _ b S1 Hbr) as (j & s2 & E2 & Hj & S2).
  { apply unheld_insert; [apply unheld_empty | congruence]. }
  { eapply size_le_mono; [|exact Hpin]. rewrite map_img_insert_notin_L by apply lookup_empty.
    rewrite map_img_empty_L. set_solver. }
  step by (eapply log_bread_ret; [exact Hdev | exact E2]).
  set (h := <[i := a]> (∅ : gmap nat Z)) in *.
  assert (i <> j) as Hij by (intros <-; unfold h in Hj; rewrite lookup_insert_eq in Hj; discriminate).
  assert (<[j := b]> h !! i = Some a) as Li
    by (rewrite lookup_insert_ne by congruence; apply lookup_insert_eq).
  assert (<[j := b]> h !! j = Some b) as Lj by apply lookup_insert_eq.
  destruct (sees_set_data s2 _ _ _ _ j b (f a) S2 Lj) as (s3 & E3 & S3).
  { eapply sees_length; [exact Hs | exact Har]. }
  step by (apply in_cache_ret; unfold copy_data; step by (eapply sees_data; [exact S2 | exact Li]); exact E3).
  destruct (sees_bwrite s3 _ _ _ _ j b S3 Lj) as (s4 & E4 & S4).
  step by (apply in_cache_ret; exact E4).
  assert (upd_content f b (f a) b = f a) as Eb by (unfold upd_content; rewrite Z.eqb_refl; reflexivity).
  rewrite Eb in S4.
  destruct (sees_brelse s4 _ _ _ _ i a S4 Li) as (s5 & E5 & S5).
  { right. cbn. unfold upd_content. rewrite (proj2 (Z.eqb_neq a b)) by congruence.
    eapply sees_clean; [exact Hs | exact Ha | apply unheld_empty]. }
  step by (apply in_cache_ret; exact E5).
  destruct (sees_brelse s5 _ _ _ _ j b S5) as (s6 & E6 & S6).
  { rewrite lookup_delete_ne by congruence. exact Lj. }
  { right. rewrite Eb. cbn. rewrite Z.eqb_refl. reflexivity. }
  exists s6. split; [apply in_cache_ret; exact E6|].
  eapply sees_weaken; [exact S6 | reflexivity | reflexivity |].
  apply hold_two. exact Hij.
Qed.

Lemma write_one_eq lg s f D d tail b : geom lg d -> sees s f D ∅ d ->
  0 <= tail < lg_size lg - 1 -> lg_block lg !! Z.to_nat tail = Some b -> home lg d b ->
  let a := lg_start lg + tail + 1 in
  a ∉ D -> b ∈ D -> (size (D ∪ {[a]} ∪ {[b]}) <= NBUF)%nat ->
  exists s', write_one tail (mk_ls lg s) = Ret tt (mk_ls lg s') /\
    sees s' (upd_content f a (f b)) D ∅ (disk_write a (f b) d).
Proof.
  intros (Hdev & Hst & Hsz & Hend & _) Hs Ht Hb [Hbr Hba] a Ha HbD Hpin. unfold in_area in Hba.
  unfold write_one. step by (apply in_log_ret; reflexivity). fold a.
  assert (0 <= a < d_size d) as Har by (unfold a; lia).
  assert (b <> a) as Hne by (intros ->; apply Hba; unfold a; lia).
  destruct (sees_bread s f D ∅ d a Hs Har (unheld_empty a)) as (i & s1 & E1 & Hi & S1).
  { eapply size_le_mono; [|exact Hpin]. rewrite map_img_empty_L. set_solver. }
  step by (eapply log_bread_ret; [exact Hdev | exact E1]).
  step by (apply in_log_ret, lh_block_ret; exact Hb).
  destruct (sees_bread s1 _ _ _ _ b S1 Hbr) as (j & s2 & E2 & Hj & S2).
  { apply unheld_insert; [apply unheld_empty | congruence]. }
  { eapply size_le_mono; [|exact Hpin]. rewrite map_img_insert_notin_L by apply lookup_empty.
    rewrite map_img_empty_L. set_solver. }
  step by (eapply log_bread_ret; [exact Hdev | exact E2]).
  set (h := <[i := a]> (∅ : gmap nat Z)) in *.
  assert (i <> j) as Hij by (intros <-; unfold h in Hj; rewrite lookup_insert_eq in Hj; discriminate).
  assert (<[j := b]> h !! i = Some a) as Li
    by (rewrite lookup_insert_ne by congruence; apply lookup_insert_eq).
  assert (<[j := b]> h !! j = Some b) as Lj by apply lookup_insert_eq.
  destruct (sees_set_data s2 _ _ _ _ i a (f b) S2 Li) as (s3 & E3 & S3).
  { eapply sees_length; [exact Hs | exact Hbr]. }
  step by (apply in_cache_ret; unfold copy_data; step by (eapply sees_data; [exact S2 | exact Lj]); exact E3).
  destruct (sees_bwrite s3 _ _ _ _ i a S3 Li) as (s4 & E4 & S4).
  step by (apply in_cache_ret; exact E4).
  assert (upd_content f a (f b) a = f b) as Ea by (unfold upd_content; rewrite Z.eqb_refl; reflexivity).
  rewrite Ea in S4. replace (D ∖ {[a]}) with D in S4 by set_solver.
  destruct (sees_brelse s4 _ _ _ _ j b S4 Lj (or_introl HbD)) as (s5 & E5 & S5).
  step by (apply in_cache_ret; exact E5).
  destruct (sees_brelse s5 _ _ _ _ i a S5) as (s6 & E6 & S6).
  { rewrite lookup_delete_ne by congruence. exact Li. }
  { right. rewrite Ea. cbn. rewrite Z.eqb_refl. reflexivity. }
  exists s6. split; [apply in_cache_ret; exact E6|].
  eapply sees_weaken; [exact S6 | reflexivity | reflexivity |].
  rewrite delete_delete. apply hold_two. exact Hij.
Qed.

(** *** The copy loops

    [l] is what is left of the list of logged blocks, from index [k] on. *)

Definition entries_at lg (k : Z) (l : list Z) : Prop :=
  0 <= k /\ k + Z.of_nat (length l) <= lg_size lg - 1 /\
  forall i b, l !! i = Some b -> lg_block lg !! (Z.to_nat k + i)%nat = Some b.

Lemma entries_at_cons lg k b l : entries_at lg k (b :: l) ->
  0 <= k < lg_size lg - 1 /\ lg_block lg !! Z.to_nat k = Some b /\ entries_at lg (k + 1) l.
Proof.
  intros (H1' & H2' & H3'). cbn [length] in H2'. split; [lia|]. split.
  - rewrite <- (Nat.add_0_r (Z.to_nat k)). apply (H3' O). reflexivity.
  - split; [lia|]. split; [lia|]. intros i x Hi. specialize (H3' (Datatypes.S i) x Hi).
    replace (Z.to_nat (k + 1) + i)%nat with (Z.to_nat k + Datatypes.S i)%nat by lia. exact H3'.
Qed.

(** The writes of install_trans() and write_log() from index [k] on. *)
Fixpoint home_writes (st : Z) f (k : Z) (l : list Z) : list (Z * block) :=
  match l with
  | [] => []
  | b :: l' => (b, f (st + k + 1)) :: home_writes st f (k + 1) l'
  end.
Fixpoint log_writes (st : Z) f (k : Z) (l : list Z) : list (Z * block) :=
  match l with
  | [] => []
  | b :: l' => (st + k + 1, f b) :: log_writes st f (k + 1) l'
  end.

Lemma home_writes_ext lg f g l : forall k, 0 <= k -> k + Z.of_nat (length l) <= lg_size lg - 1 ->
  (forall n, in_area lg n -> n <> lg_start lg -> f n = g n) ->
  home_writes (lg_start lg) f k l = home_writes (lg_start lg) g k l.
Proof.
  induction l as [|b l IH]; intros k Hk Hl He; [reflexivity|]. cbn in *.
  rewrite He by (unfold in_area; lia). f_equal. apply IH; [lia | lia | exact He].
Qed.
Lemma log_writes_ext st f g l : forall k, (forall b, b ∈ l -> f b = g b) ->
  log_writes st f k l = log_writes st g k l.
Proof.
  induction l as [|b l IH]; intros k He; [reflexivity|]. cbn.
  rewrite He by left. f_equal. apply IH. intros x Hx. apply He. right. exact Hx.
Qed.

Lemma seqZ_cons_S k n : seqZ k (Z.of_nat (Datatypes.S n)) = k :: seqZ (k + 1) (Z.of_nat n).
Proof. rewrite seqZ_cons by lia. f_equal. f_equal; lia. Qed.

Lemma install_loop lg l : forall k s f D d, geom lg d -> sees s f D ∅ d -> entries_at lg k l ->
  Forall (home lg d) l -> (forall n, n ∈ D -> ~ in_area lg n) ->
  (forall a b, in_area lg a -> b ∈ l -> (size (D ∪ {[a]} ∪ {[b]}) <= NBUF)%nat) ->
  exists s', for_all (seqZ k (Z.of_nat (length l))) install_one (mk_ls lg s) = Ret tt (mk_ls lg s') /\
    sees s' (apply_writes (home_writes (lg_start lg) f k l) f) (D ∖ list_to_set l) ∅
      (disk_writes (home_writes (lg_start lg) f k l) d).
Proof.
  induction l as [|b l IH]; intros k s f D d Hg Hs He Hh Hdis Hpin.
  - exists s. split; [reflexivity|]. eapply sees_weaken; [exact Hs | reflexivity | | reflexivity].
    cbn. set_solver.
  - apply entries_at_cons in He as He'. destruct He' as (Hk & Hb & He').
    apply Forall_cons in Hh as [Hb' Hh].
    assert (in_area lg (lg_start lg + k + 1)) as Ha by (unfold in_area; lia).
    destruct (install_one_eq lg s f D d k b Hg Hs Hk Hb Hb') as (s1 & E1 & S1).
    { intros HD. exact (Hdis _ HD Ha). }
    { apply Hpin; [exact Ha | left]. }
    destruct (IH (k + 1) s1 _ _ (disk_write _ _ d) Hg S1 He' Hh) as (s2 & E2 & S2).
    { intros n Hn. apply Hdis. set_solver. }
    { intros x y Hx Hy. eapply size_le_mono; [|apply (Hpin x y Hx); right; exact Hy]. set_solver. }
    exists s2. split.
    + cbn [length]. rewrite seqZ_cons_S. cbn [for_all]. step by (exact E1). exact E2.
    + destruct He as (? & Hlen & _). cbn [length] in Hlen.
      rewrite (home_writes_ext lg _ f) in S2.
      * eapply sees_weaken; [exact S2 | reflexivity | | reflexivity]. cbn. set_solver.
      * lia.
      * lia.
      * intros n Hn _. unfold upd_content. rewrite (proj2 (Z.eqb_neq n b)); [reflexivity|].
        intros ->. destruct Hb' as [_ Hb']. contradiction.
Qed.

Lemma write_loop lg l : forall k s f D d, geom lg d -> sees s f D ∅ d -> entries_at lg k l ->
  Forall (home lg d) l -> (forall n, n ∈ D -> ~ in_area lg n) -> (forall b, b ∈ l -> b ∈ D) ->
  (forall a b, in_area lg a -> b ∈ l -> (size (D ∪ {[a]} ∪ {[b]}) <= NBUF)%nat) ->
  exists s', for_all (seqZ k (Z.of_nat (length l))) write_one (mk_ls lg s) = Ret tt (mk_ls lg s') /\
    sees s' (apply_writes (log_writes (lg_start lg) f k l) f) D ∅ (disk_writes (log_writes (lg_start lg) f k l) d).
Proof.
  induction l as [|b l IH]; intros k s f D d Hg Hs He Hh Hdis HlD Hpin.
  - exists s. split; [reflexivity | exact Hs].
  - apply entries_at_cons in He as He'. destruct He' as (Hk & Hb & He').
    apply Forall_cons in Hh as [Hb' Hh].
    assert (in_area lg (lg_start lg + k + 1)) as Ha by (unfold in_area; lia).
    destruct (write_one_eq lg s f D d k b Hg Hs Hk Hb Hb') as (s1 & E1 & S1).
    { intros HD. exact (Hdis _ HD Ha). }
    { apply HlD. left. }
    { apply Hpin; [exact Ha | left]. }
    destruct (IH (k + 1) s1 _ _ (disk_write _ _ d) Hg S1 He' Hh Hdis) as (s2 & E2 & S2).
    { intros x Hx. apply HlD. right. exact Hx. }
    { intros x y Hx Hy. apply Hpin; [exact Hx | right; exact Hy]. }
    exists s2. split.
    + cbn [length]. rewrite seqZ_cons_S. cbn [for_all]. step by (exact E1). exact E2.
    + rewrite (log_writes_ext (lg_start lg) _ f) in S2; [exact S2|].
      intros x Hx. rewrite Forall_forall in Hh. destruct (Hh x Hx) as [_ Hx'].
      unfold upd_content. rewrite (proj2 (Z.eqb_neq x _)); [reflexivity|].
      intros ->. contradiction.
Qed.

(** *** The header block *)

Definition header_is (x : block) (l : list Z) : Prop :=
  get_s32 0 x = Z.of_nat (length l) /\
  forall i b, l !! i = Some b -> get_s32 (4 + 4 * i) x = b.

Lemma geom_area lg d n : geom lg d -> in_area lg n -> 0 <= n < d_size d.
Proof. intros (_ & ? & _ & ? & _) [? ?]. lia. Qed.
Lemma geom_start lg d : geom lg d -> in_area lg (lg_start lg).
Proof. intros (_ & ? & ? & _). unfold in_area. lia. Qed.

Lemma store_int_eq s f D h d i n off v : sees s f D h d -> h !! i = Some n ->
  0 <= n < d_size d -> 0 <= off -> off + 4 <= 512 ->
  exists s', store_int i off v s = Ret tt s' /\
    sees s' (upd_content f n (put_u32 (Z.to_nat off) v (f n))) D h d.
Proof.
  intros Hs Hi Hn Ho1 Ho2. pose proof (sees_length _ _ _ _ _ n Hs Hn) as Hl.
  destruct (sees_set_data s _ _ _ _ i n (put_u32 (Z.to_nat off) v (f n)) Hs Hi) as (s1 & E1 & S1).
  { unfold put_u32. rewrite length_store. exact Hl. }
  exists s1. split; [|exact S1]. unfold store_int.
  rewrite (proj2 (Z.ltb_ge BSIZE (off + 4))) by (unfold BSIZE; lia).
  step by (eapply sees_data; [exact Hs | exact Hi]). exact E1.
Qed.

Lemma upd_content_twice f n x y m : upd_content (upd_content f n x) n y m = upd_content f n y m.
Proof. unfold upd_content. destruct (m =? n); reflexivity. Qed.

(** The first [k] entries of [l] are stored in [x]. *)
Definition stored (x : block) (k : nat) (l : list Z) : Prop :=
  length x = 512%nat /\ get_s32 0 x = Z.of_nat (length l) /\
  forall i b, (i < k)%nat -> l !! i = Some b -> get_s32 (4 + 4 * i) x = b.

Lemma stored_put x k l b : stored x k l -> (k < 30)%nat -> l !! k = Some b -> - 2 ^ 31 <= b < 2 ^ 31 ->
  stored (put_u32 (4 + 4 * k) b x) (Datatypes.S k) l.
Proof.
  intros (Hl & Hn & He) Hk Hb Hr. split; [|split].
  - unfold put_u32. rewrite length_store. exact Hl.
  - unfold get_s32 in *. rewrite get_put_u32_ne by lia. exact Hn.
  - intros i c Hi Hc. unfold get_s32 in *. destruct (decide (i = k)) as [->|Hne].
    + rewrite get_put_u32 by lia. rewrite s32_wrap; congruence.
    + rewrite get_put_u32_ne by lia. apply He; [lia | exact Hc].
Qed.

Section Headers.
Context (lg : log) (d : disk) (D : gset Z) (l : list Z).
Context (Hg : geom lg d) (Hl : (length l <= 30)%nat).
Context (He : forall i b, l !! i = Some b -> lg_block lg !! i = Some b /\ - 2 ^ 31 <= b < 2 ^ 31).

Lemma write_head_loop buf m : forall k s f, let h := {[buf := lg_start lg]} in
  sees s f D h d -> stored (f (lg_start lg)) k l -> (k + m = length l)%nat ->
  exists s' x, for_all (seqZ (Z.of_nat k) (Z.of_nat m)) (fun i =>
      let! v := in_log (lh_block i) in in_cache (store_int buf (4 + 4 * i) v)) (mk_ls lg s)
      = Ret tt (mk_ls lg s') /\
    stored x (length l) l /\ sees s' (upd_content f (lg_start lg) x) D h d.
Proof.
  induction m as [|m IH]; intros k s f h Hs Hst Hk.
  - exists s, (f (lg_start lg)). split; [reflexivity|]. split; [replace (length l) with k by lia; exact Hst|].
    eapply sees_weaken; [exact Hs | | reflexivity | reflexivity].
    intros n. unfold upd_content. destruct (Z.eqb_spec n (lg_start lg)); congruence.
  - destruct (lookup_lt_is_Some_2 l k) as [b Hb]; [lia|]. destruct (He k b Hb) as [Hb1 Hb2].
    rewrite seqZ_cons_S. cbn [for_all]. rewrite bind_assoc.
    step by (apply in_log_ret, lh_block_ret; rewrite Nat2Z.id; exact Hb1).
    destruct (store_int_eq s f D h d buf (lg_start lg) (4 + 4 * Z.of_nat k) b Hs)
      as (s1 & E1 & S1); try lia.
    { apply lookup_insert_eq. }
    { apply (geom_area lg); [exact Hg | eapply geom_start; exact Hg]. }
    step by (apply in_cache_ret; exact E1).
    replace (Z.to_nat (4 + 4 * Z.of_nat k)) with (4 + 4 * k)%nat in S1 by lia.
    destruct (IH (Datatypes.S k) s1 _ S1) as (s2 & x & E2 & Hx & S2).
    { unfold upd_content. rewrite Z.eqb_refl. apply stored_put; [exact Hst | lia | exact Hb | exact Hb2]. }
    { lia. }
    exists s2, x. split; [|split; [exact Hx|]].
    + replace (Z.of_nat k + 1) with (Z.of_nat (Datatypes.S k)) by lia. exact E2.
    + eapply sees_weaken; [exact S2 | intros n; apply upd_content_twice | reflexivity | reflexivity].
Qed.

Lemma write_head_eq s f : lg_n lg = Z.of_nat (length l) -> sees s f D ∅ d ->
  lg_start lg ∉ D -> (size (D ∪ {[lg_start lg]}) <= NBUF)%nat ->
  exists s' hb, write_head (mk_ls lg s) = Ret tt (mk_ls lg s') /\ header_is hb l /\
    sees s' (upd_content f (lg_start lg) hb) D ∅ (disk_write (lg_start lg) hb d).
Proof.
  intros Hn Hs Hst Hpin. pose proof (geom_area lg d _ Hg (geom_start _ _ Hg)) as Hr.
  unfold write_head. step by (apply in_log_ret; reflexivity).
  destruct (sees_bread s f D ∅ d _ Hs Hr (unheld_empty _)) as (i & s1 & E1 & Hi & S1).
  { rewrite map_img_empty_L, (right_id_L ∅ (∪)). exact Hpin. }
  step by (eapply log_bread_ret; [apply Hg | exact E1]).
  step by (apply in_log_ret; reflexivity). rewrite Hn.
  destruct (store_int_eq s1 f D _ d i (lg_start lg) 0 (Z.of_nat (length l)) S1) as (s2 & E2 & S2); try lia.
  { apply lookup_insert_eq. }
  step by (apply in_cache_ret; exact E2).
  change 0 with (Z.of_nat 0) at 1.
  destruct (write_head_loop i (length l) 0 s2 _ S2) as (s3 & hb & E3 & (Hl3 & Hn3 & He3) & S3).
  { unfold upd_content. rewrite Z.eqb_refl. split; [|split; [|lia]].
    - unfold put_u32. rewrite length_store. eapply sees_length; [exact Hs | exact Hr].
    - unfold get_s32. rewrite get_put_u32; [apply s32_wrap; lia|].
      rewrite (sees_length _ _ _ _ _ _ Hs Hr). lia. }
  { reflexivity. }
  step by (exact E3).
  assert (forall g y, upd_content g (lg_start lg) y (lg_start lg) = y) as Hsame
    by (intros; unfold upd_content; rewrite Z.eqb_refl; reflexivity).
  destruct (sees_bwrite s3 _ _ _ _ i (lg_start lg) S3 (lookup_insert_eq _ _ _)) as (s4 & E4 & S4).
  rewrite Hsame in S4. replace (D ∖ {[lg_start lg]}) with D in S4 by set_solver.
  step by (apply in_cache_ret; exact E4).
  destruct (sees_brelse s4 _ _ _ _ i (lg_start lg) S4 (lookup_insert_eq _ _ _)) as (s5 & E5 & S5).
  { right. rewrite Hsame. cbn. rewrite Z.eqb_refl. reflexivity. }
  exists s5, hb. split; [apply in_cache_ret; exact E5|]. split.
  - split; [exact Hn3|]. intros j b Hj. apply He3; [eapply lookup_lt_Some; exact Hj | exact Hj].
  - eapply sees_weaken; [exact S5 | intros n; apply upd_content_twice | reflexivity |].
    apply delete_insert_id, lookup_empty.
Qed.
End Headers.

(** The log with a new header in memory. *)
Definition with_head lg (n : Z) (blk : list Z) : log := lg <| lg_n := n |> <| lg_block := blk |>.

Lemma set_lh_block_ret lg n blk i v : (i < length blk)%nat ->
  set_lh_block (Z.of_nat i) v (with_head lg n blk) = Ret tt (with_head lg n (<[i := v]> blk)).
Proof.
  intros Hi. destruct (lookup_lt_is_Some_2 _ _ Hi) as [x Hx].
  unfold set_lh_block, with_head, zoom, elt, modify, set_field. cbn.
  rewrite Nat2Z.id, Hx. reflexivity.
Qed.

Lemma read_head_loop lg n s x l m : forall k blk, header_is x l -> length blk = 30%nat ->
  (k + m = length l)%nat -> (length l <= 30)%nat ->
  (forall i b, (i < k)%nat -> l !! i = Some b -> blk !! i = Some b) ->
  exists blk', for_all (seqZ (Z.of_nat k) (Z.of_nat m)) (fun i =>
      in_log (set_lh_block i (get_s32 (Z.to_nat (4 + 4 * i)) x))) (mk_ls (with_head lg n blk) s)
      = Ret tt (mk_ls (with_head lg n blk') s) /\
    length blk' = 30%nat /\ forall i b, l !! i = Some b -> blk' !! i = Some b.
Proof.
  induction m as [|m IH]; intros k blk Hx Hlen Hk Hl Hb.
  - exists blk. split; [reflexivity|]. split; [exact Hlen|]. intros i b Hi. apply Hb; [|exact Hi].
    apply lookup_lt_Some in Hi. lia.
  - rewrite seqZ_cons_S. cbn [for_all].
    step by (apply in_log_ret, set_lh_block_ret; lia).
    replace (Z.of_nat k + 1) with (Z.of_nat (Datatypes.S k)) by lia.
    apply IH; [exact Hx | rewrite length_insert; exact Hlen | lia | exact Hl |].
    intros i b Hi E. destruct (decide (i = k)) as [->|Hne].
    + rewrite list_lookup_insert_eq by lia. f_equal. destruct Hx as [_ Hx].
      replace (Z.to_nat (4 + 4 * Z.of_nat k)) with (4 + 4 * k)%nat by lia. apply Hx. exact E.
    + rewrite list_lookup_insert_ne by congruence. apply Hb; [lia | exact E].
Qed.

Lemma read_head_eq lg s f D d l : geom lg d -> sees s f D ∅ d -> lg_start lg ∉ D ->
  (size (D ∪ {[lg_start lg]}) <= NBUF)%nat -> header_is (f (lg_start lg)) l -> (length l <= 30)%nat ->
  exists s' blk, read_head (mk_ls lg s) = Ret tt (mk_ls (with_head lg (Z.of_nat (length l)) blk) s') /\
    length blk = 30%nat /\ (forall i b, l !! i = Some b -> blk !! i = Some b) /\ sees s' f D ∅ d.
Proof.
  intros Hg Hs HD Hpin Hx Hl. pose proof (geom_area lg d _ Hg (geom_start _ _ Hg)) as Hr.
  unfold read_head. step by (apply in_log_ret; reflexivity).
  destruct (sees_bread s f D ∅ d _ Hs Hr (unheld_empty _)) as (i & s1 & E1 & Hi & S1).
  { rewrite map_img_empty_L, (right_id_L ∅ (∪)). exact Hpin. }
  step by (eapply log_bread_ret; [apply Hg | exact E1]).
  step by (apply in_cache_ret; eapply sees_data; [exact S1 | apply lookup_insert_eq]).
  step by (apply in_log_ret; reflexivity). step by (apply in_log_ret; reflexivity).
  replace (get_s32 0 (f (lg_start lg))) with (Z.of_nat (length l)) by (symmetry; apply Hx).
  cbn [lg_n]. change (lg <| lg_n := Z.of_nat (length l) |>) with
    (with_head lg (Z.of_nat (length l)) (lg_block lg)). cbn [with_head lg_n set_field].
  destruct (read_head_loop lg (Z.of_nat (length l)) s1 (f (lg_start lg)) l (length l) 0 (lg_block lg))
    as (blk & E2 & Hlen & Hblk); auto; try apply Hg; try lia.
  step by (exact E2).
  destruct (sees_brelse s1 _ _ _ _ i (lg_start lg) S1 (lookup_insert_eq _ _ _)) as (s2 & E3 & S2).
  { right. eapply sees_clean; [exact Hs | exact HD | apply unheld_empty]. }
  exists s2, blk. split; [apply in_cache_ret; exact E3|]. split; [exact Hlen|]. split; [exact Hblk|].
  eapply sees_weaken; [exact S2 | reflexivity | reflexivity |]. apply delete_insert_id, lookup_empty.
Qed.

(** *** Recovery and commit *)

Definition logged lg d (l : list Z) : Prop :=
  Z.of_nat (length l) <= lg_size lg - 1 /\ Forall (home lg d) l.

Lemma entries_at_0 lg l : Z.of_nat (length l) <= lg_size lg - 1 ->
  (forall i b, l !! i = Some b -> lg_block lg !! i = Some b) -> entries_at lg 0 l.
Proof. intros Hl He. split; [lia|]. split; [lia | exact He]. Qed.

Lemma size_add (X : gset Z) a : (size (X ∪ {[a]}) <= Datatypes.S (size X))%nat.
Proof.
  rewrite (union_comm_L X), size_union_alt, size_singleton.
  pose proof (subseteq_size (C := gset Z) (X ∖ {[a]}) X ltac:(set_solver)). lia.
Qed.
Lemma size_list_le (l : list Z) : (size (list_to_set l : gset Z) <= length l)%nat.
Proof.
  induction l as [|x l IH]; cbn [list_to_set length]; [rewrite size_empty; lia|].
  rewrite (union_comm_L {[x]}). pose proof (size_add (list_to_set l) x). lia.
Qed.

Lemma geom_head lg d n blk : geom lg d -> length blk = 30%nat -> geom (with_head lg n blk) d.
Proof. intros (? & ? & ? & ? & ?) Hl. unfold geom. auto. Qed.
Lemma geom_writes lg d ws : geom lg d -> geom lg (disk_writes ws d).
Proof. intros Hg. unfold geom. rewrite disk_writes_size. exact Hg. Qed.

Lemma recover_eq lg s f d l : geom lg d -> sees s f ∅ ∅ d -> header_is (f (lg_start lg)) l ->
  logged lg d l -> d_size d < 2 ^ 31 ->
  exists s' blk hb, let ws := home_writes (lg_start lg) f 0 l ++ [(lg_start lg, hb)] in
    recover_from_log (mk_ls lg s) = Ret tt (mk_ls (with_head lg 0 blk) s') /\
    header_is hb [] /\ length blk = 30%nat /\
    sees s' (apply_writes ws f) ∅ ∅ (disk_writes ws d).
Proof.
  intros Hg Hs Hx [Hl Hh] Hsz. pose proof Hg as (_ & _ & Hsize & _). unfold LOGSIZE in Hsize.
  unfold recover_from_log.
  destruct (read_head_eq lg s f ∅ d l Hg Hs) as (s1 & blk & E1 & Hlen & Hblk & S1);
    [set_solver | | exact Hx | lia |].
  { rewrite (left_id_L ∅ (∪)), size_singleton. unfold NBUF. lia. }
  step by (exact E1). set (lg1 := with_head lg _ blk).
  assert (geom lg1 d) as Hg1 by (apply geom_head; assumption).
  destruct (install_loop lg1 l 0 s1 f ∅ d Hg1 S1) as (s2 & E2 & S2).
  { apply entries_at_0; [exact Hl | exact Hblk]. }
  { exact Hh. }
  { set_solver. }
  { intros a b _ _. pose proof (size_add (∅ ∪ {[a]}) b). pose proof (size_add ∅ a).
    rewrite size_empty in *. unfold NBUF. lia. }
  step by (unfold install_trans; step by (apply in_log_ret; reflexivity); exact E2).
  step by (apply in_log_ret; reflexivity).
  change (lg1 <| lg_n := 0 |>) with (with_head lg 0 blk).
  destruct (write_head_eq (with_head lg 0 blk) (disk_writes (home_writes (lg_start lg) f 0 l) d) ∅ [])
    with (s := s2) (f := apply_writes (home_writes (lg_start lg) f 0 l) f) as (s3 & hb & E3 & Hhb & S3).
  - apply geom_writes, geom_head; assumption.
  - cbn. lia.
  - intros i b Hi. discriminate.
  - reflexivity.
  - eapply sees_weaken; [exact S2 | reflexivity | set_solver | reflexivity].
  - set_solver.
  - rewrite (left_id_L ∅ (∪)), size_singleton. unfold NBUF. lia.
  - exists s3, blk, hb. split; [exact E3|]. split; [exact Hhb|]. split; [exact Hlen|].
    rewrite apply_writes_app, disk_writes_app. exact S3.
Qed.

Lemma commit_eq lg s f d l : geom lg d -> sees s f (list_to_set l) ∅ d ->
  logged lg d l -> l <> [] -> lg_n lg = Z.of_nat (length l) -> d_size d < 2 ^ 31 ->
  (forall i b, l !! i = Some b -> lg_block lg !! i = Some b) ->
  exists s' hb hb0,
    let f1 := apply_writes (log_writes (lg_start lg) f 0 l) f in
    let ws := log_writes (lg_start lg) f 0 l ++ (lg_start lg, hb) :: home_writes (lg_start lg) f1 0 l ++ [(lg_start lg, hb0)] in
    commit (mk_ls lg s) = Ret tt (mk_ls (lg <| lg_n := 0 |>) s') /\
    header_is hb l /\ header_is hb0 [] /\
    sees s' (apply_writes ws f) ∅ ∅ (disk_writes ws d).
Proof.
  intros Hg Hs [Hl Hh] Hne Hn Hsz He. pose proof Hg as (_ & _ & Hsize & _). unfold LOGSIZE in Hsize.
  pose proof (entries_at_0 lg l Hl He) as Hent.
  assert (forall n, n ∈ (list_to_set l : gset Z) -> ~ in_area lg n) as Hdis.
  { intros n Hin. apply elem_of_list_to_set in Hin. rewrite Forall_forall in Hh. apply (Hh n Hin). }
  assert (forall a : Z, (size ((list_to_set l : gset Z) ∪ {[a]}) <= NBUF)%nat) as Hone.
  { intros a. pose proof (size_add (list_to_set l) a). pose proof (size_list_le l).
    unfold NBUF. lia. }
  assert (forall a b, in_area lg a -> b ∈ l ->
    (size ((list_to_set l : gset Z) ∪ {[a]} ∪ {[b]}) <= NBUF)%nat) as Hpin.
  { intros a b _ Hb. eapply size_le_mono; [|apply (Hone a)].
    apply (elem_of_list_to_set (C := gset Z)) in Hb. set_solver. }
  unfold commit. step by (apply in_log_ret; reflexivity).
  rewrite Hn. rewrite (proj2 (Z.ltb_lt 0 _)) by (destruct l; [contradiction | cbn; lia]).
  destruct (write_loop lg l 0 s f _ d Hg Hs Hent Hh Hdis) as (s1 & E1 & S1).
  { intros b Hb. apply elem_of_list_to_set. exact Hb. }
  { exact Hpin. }
  step by (unfold write_log; step by (apply in_log_ret; reflexivity); rewrite Hn; exact E1).
  set (f1 := apply_writes (log_writes (lg_start lg) f 0 l) f) in *.
  set (d1 := disk_writes (log_writes (lg_start lg) f 0 l) d) in *.
  destruct (write_head_eq lg d1 (list_to_set l) l) with (s := s1) (f := f1)
    as (s2 & hb & E2 & Hhb & S2);
    [apply geom_writes; exact Hg | lia | | exact Hn | exact S1 | | apply Hone |].
  { intros i b Hi. split; [apply He; exact Hi|]. rewrite Forall_lookup in Hh.
    destruct (Hh i b Hi) as [Hr _]. lia. }
  { intros Hin. exact (Hdis _ Hin (geom_start _ _ Hg)). }
  step by (exact E2). set (f2 := upd_content f1 (lg_start lg) hb) in *.
  destruct (install_loop lg l 0 s2 f2 _ (disk_write (lg_start lg) hb d1)
    (geom_writes lg d _ Hg : geom lg (disk_write _ _ d1)) S2 Hent) as (s3 & E3 & S3); auto.
  { eapply Forall_impl; [exact Hh|]. intros b [Hr Hb]. split; [|exact Hb]. cbn. unfold d1.
    rewrite disk_writes_size. exact Hr. }
  step by (unfold install_trans; step by (apply in_log_ret; reflexivity); rewrite Hn; exact E3).
  step by (apply in_log_ret; reflexivity).
  destruct (write_head_eq (lg <| lg_n := 0 |>)
      (disk_writes (home_writes (lg_start lg) f2 0 l) (disk_write (lg_start lg) hb d1)) ∅ [])
    with (s := s3) (f := apply_writes (home_writes (lg_start lg) f2 0 l) f2) as (s4 & hb0 & E4 & Hhb0 & S4).
  { apply geom_writes. apply (geom_writes lg d _ Hg). }
  { cbn. lia. }
  { intros i b Hi. discriminate. }
  { reflexivity. }
  { eapply sees_weaken; [exact S3 | reflexivity | set_solver | reflexivity]. }
  { set_solver. }
  { rewrite (left_id_L ∅ (∪)), size_singleton. unfold NBUF. lia. }
  exists s4, hb, hb0. cbv zeta. fold f1.
  split; [exact E4|]. split; [exact Hhb|]. split; [exact Hhb0|].
  assert (home_writes (lg_start lg) f1 0 l = home_writes (lg_start lg) f2 0 l) as Eh.
  { apply home_writes_ext; [lia | lia |]. intros n _ Hn'. unfold f2, upd_content.
    rewrite (proj2 (Z.eqb_neq n _) Hn'). reflexivity. }
  rewrite Eh, apply_writes_app, disk_writes_app. fold f1 d1.
  change ((lg_start lg, hb) :: home_writes (lg_start lg) f2 0 l ++ [(lg_start lg, hb0)])
    with ([(lg_start lg, hb)] ++ home_writes (lg_start lg) f2 0 l ++ [(lg_start lg, hb0)]).
  rewrite !apply_writes_app, !disk_writes_app. exact S4.
Qed.

(** ** Crash safety

    The disk image [g] stands for the file system [h] when recovering from
    [g] gives [h] on all blocks outside the log. *)
Definition durable lg d (g h : Z -> block) : Prop :=
  exists l, header_is (g (lg_start lg)) l /\ logged lg d l /\
    forall m, ~ in_area lg m -> apply_writes (home_writes (lg_start lg) g 0 l) g m = h m.

Lemma elem_home_writes st f l : forall k p, p ∈ home_writes st f k l ->
  exists i b, l !! i = Some b /\ p = (b, f (st + (k + Z.of_nat i) + 1)).
Proof.
  induction l as [|x l IH]; intros k p; cbn; [intros Hp; apply elem_of_nil in Hp; destruct Hp|].
  intros [->|Hp]%elem_of_cons.
  - exists O, x. rewrite Z.add_0_r. auto.
  - destruct (IH _ _ Hp) as (i & b & Hi & ->). exists (Datatypes.S i), b. split; [exact Hi|].
    do 3 f_equal. lia.
Qed.
Lemma elem_log_writes st f l : forall k p, p ∈ log_writes st f k l ->
  exists i b, l !! i = Some b /\ p = (st + (k + Z.of_nat i) + 1, f b).
Proof.
  induction l as [|x l IH]; intros k p; cbn; [intros Hp; apply elem_of_nil in Hp; destruct Hp|].
  intros [->|Hp]%elem_of_cons.
  - exists O, x. rewrite Z.add_0_r. auto.
  - destruct (IH _ _ Hp) as (i & b & Hi & ->). exists (Datatypes.S i), b. split; [exact Hi|].
    f_equal. lia.
Qed.
Lemma log_writes_elem st f l : forall k i b, l !! i = Some b ->
  (st + (k + Z.of_nat i) + 1) ∈ (log_writes st f k l).*1.
Proof.
  induction l as [|x l IH]; intros k [|i] b Hi; try discriminate; cbn.
  - rewrite Z.add_0_r. left.
  - right. replace (k + Z.of_nat (Datatypes.S i)) with (k + 1 + Z.of_nat i) by lia. eapply IH. exact Hi.
Qed.
Lemma home_writes_fst st f l : forall k, (home_writes st f k l).*1 = l.
Proof. induction l as [|x l IH]; intros k; cbn; [reflexivity | rewrite IH; reflexivity]. Qed.
Lemma length_home_writes st f k l : length (home_writes st f k l) = length l.
Proof. rewrite <- (home_writes_fst st f l k) at 2. rewrite length_fmap. reflexivity. Qed.
Lemma length_log_writes st f l : forall k, length (log_writes st f k l) = length l.
Proof. induction l as [|x l IH]; intros k; cbn; [reflexivity | rewrite IH; reflexivity]. Qed.

(** A written block does not depend on what was there. *)
Lemma apply_writes_over ws : forall f g n, n ∈ ws.*1 -> apply_writes ws f n = apply_writes ws g n.
Proof.
  induction ws as [|p ws IH]; intros f g n Hn; [apply elem_of_nil in Hn; destruct Hn|].
  cbn. destruct (decide (n ∈ ws.*1)) as [Hin|Hin]; [apply IH; exact Hin|].
  cbn in Hn. apply elem_of_cons in Hn as [->|?]; [|contradiction].
  apply apply_writes_ext. unfold upd_content. rewrite Z.eqb_refl. reflexivity.
Qed.

Lemma logged_home lg d l b : logged lg d l -> b ∈ l -> ~ in_area lg b.
Proof. intros [_ Hh] Hb. rewrite Forall_forall in Hh. apply (Hh b Hb). Qed.

(** Writes to logged blocks do not touch the log. *)
Lemma home_prefix lg d l g j m : logged lg d l -> in_area lg m ->
  apply_writes (take j (home_writes (lg_start lg) g 0 l)) g m = g m.
Proof.
  intros Hl Hm. apply apply_writes_other. intros p Hp E.
  apply (list_elem_of_fmap_2 fst) in Hp. rewrite E, <- firstn_map in Hp.
  change (map fst ?x) with (x.*1) in Hp. rewrite home_writes_fst in Hp.
  apply (logged_home lg d l m Hl); [|exact Hm].
  eapply elem_of_submseteq; [exact Hp | apply submseteq_take].
Qed.

(** Replaying a log that was cut short, and erasing it. *)
Lemma replay_prefix lg d g h l hb j : geom lg d -> header_is (g (lg_start lg)) l -> logged lg d l ->
  header_is hb [] ->
  (forall m, ~ in_area lg m -> apply_writes (home_writes (lg_start lg) g 0 l) g m = h m) ->
  let ws := home_writes (lg_start lg) g 0 l ++ [(lg_start lg, hb)] in
  durable lg d (apply_writes (take j ws) g) h.
Proof.
  intros Hg Hx Hl Hhb Hh. cbv zeta. set (hw := home_writes (lg_start lg) g 0 l) in *.
  assert (length hw = length l) as Hlen by apply length_home_writes.
  destruct (decide (j <= length l)%nat) as [Hj|Hj].
  - rewrite take_app_le by lia. set (g1 := apply_writes (take j hw) g).
    assert (forall m, in_area lg m -> g1 m = g m) as Harea
      by (intros; eapply home_prefix; eassumption).
    exists l. rewrite Harea by (eapply geom_start; exact Hg). split; [exact Hx|]. split; [exact Hl|].
    intros m Hm. rewrite <- (Hh m Hm).
    rewrite (home_writes_ext lg g1 g) by (try (destruct Hl; lia); intros; apply Harea; assumption).
    fold hw. destruct (decide (m ∈ l)) as [Hin|Hin].
    + apply apply_writes_over. unfold hw. rewrite home_writes_fst. exact Hin.
    + apply apply_writes_ext. apply apply_writes_other. intros p Hp E. apply Hin.
      apply (list_elem_of_fmap_2 fst) in Hp. rewrite E, <- firstn_map in Hp.
      change (map fst ?x) with (x.*1) in Hp. unfold hw in Hp. rewrite home_writes_fst in Hp.
      eapply elem_of_submseteq; [exact Hp | apply submseteq_take].
  - rewrite take_ge by (rewrite length_app; cbn; lia). exists [].
    rewrite apply_writes_app. cbn. unfold upd_content at 1. rewrite Z.eqb_refl.
    split; [exact Hhb|]. split; [split; [cbn; destruct Hl; lia | constructor]|].
    intros m Hm. unfold upd_content. destruct (Z.eqb_spec m (lg_start lg)) as [->|Hne].
    + destruct (Hm (geom_start _ _ Hg)).
    + apply Hh. exact Hm.
Qed.

(** After write_log() and write_head() the disk stands for the new contents. *)
Lemma committed lg d g f l hb : geom lg d -> logged lg d l -> header_is hb l ->
  (forall m, m ∉ l -> ~ in_area lg m -> f m = g m) ->
  let g1 := apply_writes (log_writes (lg_start lg) f 0 l ++ [(lg_start lg, hb)]) g in
  header_is (g1 (lg_start lg)) l /\
  home_writes (lg_start lg) g1 0 l =
    home_writes (lg_start lg) (apply_writes (log_writes (lg_start lg) f 0 l) f) 0 l /\
  forall m, ~ in_area lg m -> apply_writes (home_writes (lg_start lg) g1 0 l) g1 m = f m.
Proof.
  intros Hg Hl Hhb Hclean. cbv zeta. set (lw := log_writes (lg_start lg) f 0 l).
  rewrite apply_writes_app. cbn [apply_writes foldl]. fold (apply_writes lw g).
  set (g1 := upd_content (apply_writes lw g) _ _).
  assert (forall m, m <> lg_start lg -> g1 m = apply_writes lw g m) as Hg1.
  { intros m Hm. unfold g1, upd_content. cbn. rewrite (proj2 (Z.eqb_neq m _) Hm). reflexivity. }
  assert (forall i b g, l !! i = Some b -> apply_writes lw g (lg_start lg + (0 + Z.of_nat i) + 1) = f b)
    as Hcopy.
  { intros i b g' Hi. apply apply_writes_same.
    - intros p Hp E. destruct (elem_log_writes _ _ _ _ _ Hp) as (i' & b' & Hi' & ->). cbn in *.
      assert (i' = i) by lia. congruence.
    - right. eapply log_writes_elem. exact Hi. }
  split; [|split].
  - unfold g1, upd_content. rewrite Z.eqb_refl. exact Hhb.
  - enough (forall k l', 0 <= k -> (forall i b, l' !! i = Some b -> l !! (Z.to_nat k + i)%nat = Some b) ->
      home_writes (lg_start lg) g1 k l' = home_writes (lg_start lg) (apply_writes lw f) k l') as Hx
      by (apply Hx; [lia | auto]).
    intros k l'. revert k. induction l' as [|x l' IH]; intros k Hk Hsub; [reflexivity|]. cbn.
    pose proof (Hsub O x eq_refl) as Hx. rewrite Nat.add_0_r in Hx.
    pose proof (Hcopy _ _ g Hx) as C1. pose proof (Hcopy _ _ f Hx) as C2.
    replace (lg_start lg + (0 + Z.of_nat (Z.to_nat k)) + 1) with (lg_start lg + k + 1) in * by lia.
    rewrite Hg1, C1, C2 by lia. f_equal. apply IH; [lia|]. intros i b Hi.
    specialize (Hsub (Datatypes.S i) b Hi).
    replace (Z.to_nat (k + 1) + i)%nat with (Z.to_nat k + Datatypes.S i)%nat by lia. exact Hsub.
  - intros m Hm. apply apply_writes_same.
    + intros p Hp E. destruct (elem_home_writes _ _ _ _ _ Hp) as (i & b & Hi & ->). cbn in *.
      rewrite Hg1 by lia. rewrite <- E. apply (Hcopy i b g Hi).
    + rewrite home_writes_fst. destruct (decide (m ∈ l)) as [Hin|Hin]; [right; exact Hin | left].
      rewrite Hg1 by (intros ->; exact (Hm (geom_start _ _ Hg))).
      rewrite Hclean by assumption. apply apply_writes_other. intros p Hp E.
      destruct (elem_log_writes _ _ _ _ _ Hp) as (i & b & Hi & ->). cbn in E.
      apply lookup_lt_Some in Hi. destruct Hl as [Hl _]. apply Hm. unfold in_area. lia.
Qed.

(** Before the header is written only the log area changes. *)
Lemma uncommitted lg d g f l k : geom lg d -> logged lg d l -> header_is (g (lg_start lg)) [] ->
  durable lg d (apply_writes (take k (log_writes (lg_start lg) f 0 l)) g) g.
Proof.
  intros Hg [Hl Hh] Hx.
  assert (forall m, m = lg_start lg \/ ~ in_area lg m ->
    apply_writes (take k (log_writes (lg_start lg) f 0 l)) g m = g m) as Hsame.
  { intros m Hm. apply apply_writes_other. intros p Hp E.
    apply (elem_of_submseteq _ (log_writes (lg_start lg) f 0 l)) in Hp; [|apply submseteq_take].
    destruct (elem_log_writes _ _ _ _ _ Hp) as (i & b & Hi & ->). cbn in E.
    apply lookup_lt_Some in Hi. unfold in_area in Hm. lia. }
  exists []. rewrite Hsame by auto. split; [exact Hx|].
  split; [split; [cbn; lia | constructor]|]. intros m Hm. cbn. apply Hsame. auto.
Qed.

(** The log in memory agrees with the cache: [l] is the open transaction. *)
Record log_inv lg s (l : list Z) : Prop := {
  inv_geom : geom lg (c_disk s);
  inv_size : d_size (c_disk s) < 2 ^ 31;
  inv_n : lg_n lg = Z.of_nat (length l);
  inv_block : forall i b, l !! i = Some b -> lg_block lg !! i = Some b;
  inv_logged : logged lg (c_disk s) l;
  inv_nodup : NoDup l;
  inv_ok : c_ok s;
  inv_dirty : c_dirty s = list_to_set l;
  inv_header : header_is (d_img (c_disk s) (lg_start lg)) [] }.

(** The crash points of the writes of commit(). *)
Lemma commit_prefixes lg d f g l hb hb0 k : geom lg d -> logged lg d l ->
  header_is (g (lg_start lg)) [] -> header_is hb l -> header_is hb0 [] ->
  (forall m, m ∉ l -> ~ in_area lg m -> f m = g m) ->
  let f1 := apply_writes (log_writes (lg_start lg) f 0 l) f in
  let ws := log_writes (lg_start lg) f 0 l ++
    (lg_start lg, hb) :: home_writes (lg_start lg) f1 0 l ++ [(lg_start lg, hb0)] in
  durable lg d (apply_writes (take k ws) g) (if decide (k <= length l)%nat then g else f) /\
  (forall m, ~ in_area lg m -> apply_writes ws g m = f m) /\ apply_writes ws g (lg_start lg) = hb0.
Proof.
  intros Hg Hl Hx Hhb Hhb0 Hclean. cbv zeta.
  destruct (committed lg d g f l hb Hg Hl Hhb Hclean) as (Hx1 & Hhw & Hnew).
  rewrite <- Hhw. set (lw := log_writes (lg_start lg) f 0 l) in *.
  set (g1 := apply_writes (lw ++ [(lg_start lg, hb)]) g) in *.
  set (hw := home_writes (lg_start lg) g1 0 l) in *.
  assert (length lw = length l) as Hlw by apply length_log_writes.
  replace (lw ++ (lg_start lg, hb) :: hw ++ [(lg_start lg, hb0)])
    with ((lw ++ [(lg_start lg, hb)]) ++ hw ++ [(lg_start lg, hb0)]) by (rewrite <- app_assoc; reflexivity).
  split; [destruct (decide (k <= length l)%nat) as [Hk|Hk]|split].
  - rewrite !take_app_le by (rewrite ?length_app; cbn; lia). apply uncommitted; assumption.
  - rewrite take_app_ge by (rewrite length_app; cbn; lia). rewrite apply_writes_app. fold g1.
    apply (replay_prefix lg d g1 f l hb0); assumption.
  - intros m Hm. rewrite apply_writes_app. fold g1. rewrite apply_writes_app.
    rewrite <- (Hnew m Hm). apply apply_writes_other. intros p Hp E.
    apply list_elem_of_singleton in Hp as ->. cbn in E. apply Hm. rewrite <- E.
    eapply geom_start. exact Hg.
  - rewrite apply_writes_app. fold g1. rewrite apply_writes_app. cbn. unfold upd_content.
    rewrite Z.eqb_refl. reflexivity.
Qed.

Lemma commit_safe lg s l : log_inv lg s l -> c_hold s = ∅ -> l <> [] ->
  exists s' ws, commit (mk_ls lg s) = Ret tt (mk_ls (lg <| lg_n := 0 |>) s') /\
    log_inv (lg <| lg_n := 0 |>) s' [] /\ c_hold s' = ∅ /\ c_disk s' = disk_writes ws (c_disk s) /\
    (forall p, p ∈ ws -> in_area lg p.1 \/ p.1 ∈ l) /\
    (forall m, ~ in_area lg m ->
       c_content s' m = c_content s m /\ d_img (c_disk s') m = c_content s m) /\
    forall k, durable lg (c_disk s) (apply_writes (take k ws) (d_img (c_disk s)))
                (if decide (k <= length l)%nat then d_img (c_disk s) else c_content s).
Proof.
  intros Hinv Hfree Hne. destruct Hinv as [Hg Hsz Hn Hb Hl Hnd Hok Hd Hx].
  pose proof (sees_self s Hok) as Hs. rewrite Hfree, Hd in Hs.
  set (d := c_disk s) in *. set (f := c_content s) in *. set (g := d_img d) in *.
  destruct (commit_eq lg s f d l Hg Hs Hl Hne Hn Hsz Hb) as (s' & hb & hb0 & E & Hhb & Hhb0 & S').
  cbv zeta in S'. set (ws := log_writes (lg_start lg) f 0 l ++ _ :: _) in *.
  assert (forall m, m ∉ l -> ~ in_area lg m -> f m = g m) as Hclean.
  { intros m Hm _. eapply sees_clean; [exact Hs | | apply unheld_empty].
    rewrite elem_of_list_to_set. exact Hm. }
  pose proof (fun k => commit_prefixes lg d f g l hb hb0 k Hg Hl Hx Hhb Hhb0 Hclean) as Hp.
  cbv zeta in Hp. fold ws in Hp. destruct (Hp O) as (_ & Hhome & Hst).
  exists s', ws. split; [exact E|]. pose proof S' as (Hok' & _ & Hd' & Hh' & Hdisk').
  split; [|split; [exact Hh'|split; [|split; [|split]]]].
  - constructor; rewrite ?Hdisk'.
    + apply geom_writes. exact Hg.
    + rewrite disk_writes_size. exact Hsz.
    + reflexivity.
    + discriminate.
    + split; [destruct Hl; cbn; lia | constructor].
    + constructor.
    + exact Hok'.
    + exact Hd'.
    + rewrite disk_writes_img. cbn [lg_start set_field]. change (header_is (apply_writes ws g (lg_start lg)) []).
      rewrite Hst. exact Hhb0.
  - exact Hdisk'.
  - intros p [Hq|[->|[Hq| ->%list_elem_of_singleton]%elem_of_app]%elem_of_cons]%elem_of_app; cbn; try (left; eapply geom_start; exact Hg).
    + left. destruct (elem_log_writes _ _ _ _ _ Hq) as (i & b & Hi & ->). apply lookup_lt_Some in Hi. destruct Hl. unfold in_area. cbn. lia.
    + right. destruct (elem_home_writes _ _ _ _ _ Hq) as (i & b & Hi & ->). eapply list_elem_of_lookup_2, Hi.
  - intros m Hm. assert (d_img (c_disk s') m = f m) as Ei
      by (rewrite Hdisk', disk_writes_img; apply Hhome; exact Hm).
    split; [|exact Ei]. rewrite <- Ei. apply law_clean; [exact Hok' | rewrite Hd'; set_solver |].
    intros [i Hi]. rewrite Hh' in Hi. rewrite lookup_empty in Hi. discriminate.
  - intros k. apply (Hp k).
Qed.

(** C1. commit() is atomic under crashes: it writes the transaction so that
    the disk stands for the old file system after every proper prefix of the
    writes up to the header, and for the new one (the contents of the cache)
    from the header write on, whatever part of the rest has been done; when
    it returns, every block is at home and the log is empty again. *)
Theorem commit_atomic lg s l (Hinv : log_inv lg s l) (Hfree : c_hold s = ∅) (Hne : l <> []) :
  exists s' ws, commit (mk_ls lg s) = Ret tt (mk_ls (lg <| lg_n := 0 |>) s') /\
    log_inv (lg <| lg_n := 0 |>) s' [] /\ c_hold s' = ∅ /\
    d_writes (c_disk s') = d_writes (c_disk s) ++ ws /\
    (forall m, ~ in_area lg m ->
       c_content s' m = c_content s m /\ d_img (c_disk s') m = c_content s m) /\
    forall k, durable lg (c_disk s) (apply_writes (take k ws) (d_img (c_disk s)))
                (if decide (k <= length l)%nat then d_img (c_disk s) else c_content s).
Proof.
  destruct (commit_safe lg s l Hinv Hfree Hne) as (s' & ws & E & Hinv' & Hh & Hd & _ & Hm & Hk). exists s', ws.
  split_and!; try assumption. rewrite Hd. apply disk_writes_writes.
Qed.

(** struct log after initlog() has read the superblock. *)
Definition mount lg (sb : superblock) : log :=
  mk_log None (s32 (sb_logstart sb)) (s32 (sb_nlog sb)) (lg_outstanding lg) (lg_committing lg)
    ROOTDEV (lg_n lg) (lg_block lg).

Lemma readsb_eq s f D d : sees s f D ∅ d -> 1 < d_size d -> 1 ∉ D -> (size (D ∪ {[1%Z]}) <= NBUF)%nat ->
  exists s', readsb ROOTDEV s = Ret (dec_superblock (f 1)) s' /\ sees s' f D ∅ d.
Proof.
  intros Hs Hsz HD Hpin. unfold readsb.
  destruct (sees_bread s f D ∅ d 1 Hs ltac:(lia) (unheld_empty _)) as (i & s1 & E1 & Hi & S1).
  { rewrite map_img_empty_L, (right_id_L ∅ (∪)). exact Hpin. }
  step by (exact E1). step by (eapply sees_data; [exact S1 | apply lookup_insert_eq]).
  destruct (sees_brelse s1 _ _ _ _ i 1 S1 (lookup_insert_eq _ _ _)) as (s2 & E2 & S2).
  { right. eapply sees_clean; [exact Hs | exact HD | apply unheld_empty]. }
  step by (exact E2). exists s2. split; [reflexivity|].
  eapply sees_weaken; [exact S2 | reflexivity | reflexivity |]. apply delete_insert_id, lookup_empty.
Qed.

Lemma recovery_run lg s h : c_ok s -> c_dirty s = ∅ -> c_hold s = ∅ -> 1 < d_size (c_disk s) < 2 ^ 31 ->
  let lg0 := mount lg (dec_superblock (d_img (c_disk s) 1)) in
  geom lg0 (c_disk s) -> durable lg0 (c_disk s) (d_img (c_disk s)) h ->
  exists blk s' ws, initlog ROOTDEV (mk_ls lg s) = Ret tt (mk_ls (with_head lg0 0 blk) s') /\
    log_inv (with_head lg0 0 blk) s' [] /\ c_hold s' = ∅ /\
    c_disk s' = disk_writes ws (c_disk s) /\
    (forall m, ~ in_area lg0 m -> c_content s' m = h m /\ d_img (c_disk s') m = h m) /\
    forall k, durable lg0 (c_disk s) (apply_writes (take k ws) (d_img (c_disk s))) h.
Proof.
  intros Hok Hclean Hfree Hsize lg0 Hgeom Hdur. pose proof (sees_self s Hok) as Hs. rewrite Hfree, Hclean in Hs.
  set (d := c_disk s) in *. set (f := c_content s) in *.
  assert (forall m, f m = d_img d m) as Hf
    by (intros m; eapply sees_clean; [exact Hs | set_solver | apply unheld_empty]).
  assert (sees s (d_img d) ∅ ∅ d) as Hs'
    by (eapply sees_weaken; [exact Hs | exact Hf | reflexivity | reflexivity]).
  destruct Hdur as (l & Hx & Hl & Hh).
  destruct (readsb_eq s _ ∅ d Hs') as (s1 & E1 & S1); [lia | set_solver | |].
  { rewrite (left_id_L ∅ (∪)), size_singleton. unfold NBUF. lia. }
  destruct (recover_eq lg0 s1 _ d l Hgeom S1 Hx Hl) as (s2 & blk & hb & E2 & Hhb & Hlen & S2); [lia|].
  set (ws := home_writes _ _ _ _ ++ _) in *.
  pose proof (fun k => replay_prefix lg0 d (d_img d) h l hb k Hgeom Hx Hl Hhb Hh) as Hp.
  cbv zeta in Hp. fold ws in Hp.
  assert (apply_writes ws (d_img d) (lg_start lg0) = hb) as Hst
    by (unfold ws; rewrite apply_writes_app; cbn; unfold upd_content; rewrite Z.eqb_refl; reflexivity).
  exists blk, s2, ws. pose proof S2 as (Hok2 & Hc2 & Hd2 & Hh2 & Hdisk2).
  split; [|split; [|split; [exact Hh2|split; [|split]]]].
  - unfold initlog. step by reflexivity. step by (apply in_log_ret; reflexivity).
    step by (apply in_cache_ret; exact E1). do 3 (step by (apply in_log_ret; reflexivity)). exact E2.
  - constructor; rewrite ?Hdisk2.
    + apply geom_writes, geom_head; assumption.
    + rewrite disk_writes_size. lia.
    + reflexivity.
    + discriminate.
    + split; [destruct Hl; cbn in *; lia | constructor].
    + constructor.
    + exact Hok2.
    + exact Hd2.
    + rewrite disk_writes_img. change (lg_start (with_head lg0 0 blk)) with (lg_start lg0).
      rewrite Hst. exact Hhb.
  - exact Hdisk2.
  - intros m Hm. assert (apply_writes ws (d_img d) m = h m) as E.
    { unfold ws. rewrite apply_writes_app. rewrite <- (Hh m Hm). apply apply_writes_other.
      intros p Hq E. apply list_elem_of_singleton in Hq as ->. cbn in E. apply Hm. rewrite <- E.
      eapply geom_start. exact Hgeom. }
    split; [rewrite Hc2; exact E | rewrite Hdisk2, disk_writes_img; exact E].
  - exact Hp.
Qed.

(** C2. Recovery is correct and can itself crash: when the disk stands for
    the file system h, initlog() on a freshly started system brings every
    block of h home and empties the log; and after every prefix of its own
    writes the disk still stands for h, so that any number of crashes during
    recovery loses nothing. *)
Theorem recovery_correct lg s h (Hok : c_ok s) (Hclean : c_dirty s = ∅) (Hfree : c_hold s = ∅)
    (Hsize : 1 < d_size (c_disk s) < 2 ^ 31)
    (Hgeom : geom (mount lg (dec_superblock (d_img (c_disk s) 1))) (c_disk s))
    (Hdur : durable (mount lg (dec_superblock (d_img (c_disk s) 1))) (c_disk s) (d_img (c_disk s)) h) :
  let lg0 := mount lg (dec_superblock (d_img (c_disk s) 1)) in
  exists lg' s' ws, initlog ROOTDEV (mk_ls lg s) = Ret tt (mk_ls lg' s') /\
    log_inv lg' s' [] /\ c_hold s' = ∅ /\
    d_writes (c_disk s') = d_writes (c_disk s) ++ ws /\
    (forall m, ~ in_area lg0 m -> c_content s' m = h m /\ d_img (c_disk s') m = h m) /\
    forall k, durable lg0 (c_disk s) (apply_writes (take k ws) (d_img (c_disk s))) h.
Proof.
  intros lg0. destruct (recovery_run lg s h Hok Hclean Hfree Hsize Hgeom Hdur) as (blk & s' & ws & E & Hinv & Hh & Hdisk & Hrest).
  exists (with_head lg0 0 blk), s', ws. split_and!; try assumption; [rewrite Hdisk; apply disk_writes_writes | apply Hrest..].
Qed.

(** ** log_write() *)

Lemma index_of_in b l : b ∈ l -> l !! index_of b l = Some b.
Proof.
  induction l as [|x l IH]; intros Hb; [apply elem_of_nil in Hb; destruct Hb|]. cbn.
  destruct (Z.eqb_spec x b) as [->|Hne]; [reflexivity|]. apply IH.
  apply elem_of_cons in Hb as [?|?]; [congruence | assumption].
Qed.
Lemma index_of_notin b l : b ∉ l -> index_of b l = length l.
Proof.
  induction l as [|x l IH]; intros Hb; [reflexivity|]. cbn.
  destruct (Z.eqb_spec x b) as [->|Hne]; [destruct Hb; left|]. f_equal. apply IH.
  intros Hin. apply Hb. right. exact Hin.
Qed.

Lemma take_entries lg l : (forall i b, l !! i = Some b -> lg_block lg !! i = Some b) ->
  take (length l) (lg_block lg) = l.
Proof.
  intros Hb. apply list_eq. intros i. destruct (decide (i < length l)%nat) as [Hi|Hi].
  - rewrite lookup_take_lt by exact Hi. destruct (lookup_lt_is_Some_2 l i Hi) as [b E].
    rewrite E. apply Hb. exact E.
  - rewrite lookup_take_ge by lia. symmetry. apply lookup_ge_None. lia.
Qed.

Lemma set_lh_block_at lg i v : (i < length (lg_block lg))%nat ->
  set_lh_block (Z.of_nat i) v lg = Ret tt (lg <| lg_block ::= <[i := v]> |>).
Proof.
  intros Hi. destruct (lookup_lt_is_Some_2 _ _ Hi) as [x Hx].
  unfold set_lh_block, zoom, elt, modify, set_field. rewrite Nat2Z.id, Hx. reflexivity.
Qed.

(** The log after log_write() of block [b]. *)
Definition appended lg (l : list Z) (b : Z) : log :=
  if decide (b ∈ l) then lg
  else with_head lg (Z.of_nat (length l) + 1) (<[length l := b]> (lg_block lg)).

Lemma log_write_eq lg s l i b : log_inv lg s l -> lg_lock lg = None -> 1 <= lg_outstanding lg ->
  Z.of_nat (length l) < lg_size lg - 1 -> c_hold s !! i = Some b ->
  exists s', log_write i (mk_ls lg s) = Ret tt (mk_ls (appended lg l b) s') /\
    sees s' (c_content s) (c_dirty s ∪ {[b]}) (c_hold s) (c_disk s).
Proof.
  intros Hinv Hlk Hout Hlen Hi. destruct Hinv as [Hg Hsz Hn Hb Hl Hnd Hok Hd Hx].
  pose proof Hg as (_ & _ & Hsize & _ & Hblk). unfold LOGSIZE in Hsize.
  pose proof (sees_self s Hok) as Hs. destruct (sees_pin s _ _ _ _ i b Hs Hi) as (s1 & E1 & S1).
  destruct lg as [lk st size out com dv n blk].
  cbn [lg_lock lg_n lg_block lg_size lg_outstanding lg_start] in *. subst lk.
  exists s1. split; [|exact S1]. unfold log_write. step by (apply in_log_ret; reflexivity).
  cbn [lg_n lg_size lg_outstanding id].
  step by (apply panic_if_false; unfold LOGSIZE; apply orb_false_iff; split; lia).
  step by (apply panic_if_false; lia).
  step by (apply in_log_ret; reflexivity).
  step by (apply in_cache_ret; eapply sees_blockno; [exact Hs | exact Hi]).
  step by (apply in_log_ret; reflexivity). cbn [lg_n lg_block id set_field].
  pose proof (take_entries (mk_log None st size out com dv n blk) l Hb) as Ht. cbn [lg_block] in Ht.
  rewrite Hn, Nat2Z.id, Ht.
  unfold appended. destruct (decide (b ∈ l)) as [Hin|Hin].
  - pose proof (index_of_in b l Hin) as Hidx. pose proof (lookup_lt_Some _ _ _ Hidx) as Hlt.
    step by (apply in_log_ret, set_lh_block_at; cbn; lia).
    rewrite (proj2 (Z.eqb_neq (Z.of_nat (index_of b l)) (Z.of_nat (length l)))) by lia.
    step by reflexivity. step by (apply in_cache_ret; exact E1). apply in_log_ret.
    unfold zoom, set_field. cbn. rewrite release_mine, list_insert_id by (apply Hb; exact Hidx).
    reflexivity.
  - rewrite (index_of_notin b l Hin). step by (apply in_log_ret, set_lh_block_at; cbn; lia).
    rewrite Z.eqb_refl. step by (apply in_log_ret; reflexivity).
    step by (apply in_cache_ret; exact E1). apply in_log_ret.
    unfold zoom, set_field, with_head. cbn. rewrite release_mine. cbn.
    rewrite Z.add_comm. reflexivity.
Qed.

Lemma appended_inv lg s s' l b : log_inv lg s l -> home lg (c_disk s) b ->
  Z.of_nat (length l) < lg_size lg - 1 ->
  sees s' (c_content s) (c_dirty s ∪ {[b]}) (c_hold s) (c_disk s) ->
  log_inv (appended lg l b) s' (if decide (b ∈ l) then l else l ++ [b]).
Proof.
  intros [Hg Hsz Hn Hb [Hl1 Hl2] Hnd Hok Hd Hx] Hh Hlen (Hok' & _ & Hd' & _ & Hk').
  unfold appended. pose proof Hg as (_ & _ & Hsize & _ & Hblk). unfold LOGSIZE in Hsize.
  destruct (decide (b ∈ l)) as [Hin|Hin]; constructor; rewrite ?Hk'; auto.
  - split; assumption.
  - rewrite Hd', Hd. apply (elem_of_list_to_set (C := gset Z)) in Hin. set_solver.
  - apply geom_head; [exact Hg | rewrite length_insert; exact Hblk].
  - rewrite length_app. cbn. lia.
  - intros i c Hi. cbn. apply lookup_app_Some in Hi as [Hi|[Hi1 Hi2]].
    + rewrite list_lookup_insert_ne; [apply Hb; exact Hi|].
      intros <-. apply lookup_lt_Some in Hi. lia.
    + apply list_lookup_singleton_Some in Hi2 as [Hi2 <-].
      replace i with (length l) by lia. apply list_lookup_insert_eq. lia.
  - split; [rewrite length_app; cbn; lia|]. apply Forall_app. split; [exact Hl2|].
    constructor; [exact Hh | constructor].
  - apply NoDup_app. split; [exact Hnd|]. split; [set_solver | apply NoDup_singleton].
  - rewrite Hd', Hd, list_to_set_app_L. cbn. set_solver.
Qed.

(** log_write() records a modified buffer in the open transaction: the
    block is pinned and listed exactly once (a second write of it is
    absorbed), the contents of all blocks stay as they are, and the call
    panics instead when the log is full or no operation is running. *)
Theorem log_write_spec lg s l i b (Hinv : log_inv lg s l) (Hlk : lg_lock lg = None)
    (Hi : c_hold s !! i = Some b) (Hh : home lg (c_disk s) b) :
  if decide (lg_size lg - 1 <= Z.of_nat (length l)) then
    log_write i (mk_ls lg s) = Stop (Panicked "too big a transaction") (mk_ls lg s)
  else if decide (lg_outstanding lg < 1) then
    log_write i (mk_ls lg s) = Stop (Panicked "log_write outside of trans") (mk_ls lg s)
  else
    exists lg' s', log_write i (mk_ls lg s) = Ret tt (mk_ls lg' s') /\
      log_inv lg' s' (if decide (b ∈ l) then l else l ++ [b]) /\
      lg_lock lg' = None /\ lg_outstanding lg' = lg_outstanding lg /\
      c_hold s' = c_hold s /\ c_disk s' = c_disk s /\ forall m, c_content s' m = c_content s m.
Proof.
  pose proof (inv_n lg s l Hinv) as Hn.
  destruct (decide _) as [Hfull|Hroom]; [|destruct (decide _) as [Hout|Hout]].
  - unfold log_write. step by (apply in_log_ret; reflexivity). cbn [id]. rewrite Hn.
    rewrite (proj2 (Z.leb_le (lg_size lg - 1) _)) by exact Hfull. rewrite orb_true_r.
    destruct lg. reflexivity.
  - unfold log_write. step by (apply in_log_ret; reflexivity). cbn [id].
    pose proof (inv_geom lg s l Hinv) as (_ & _ & Hsize & _). unfold LOGSIZE in Hsize.
    step by (apply panic_if_false; unfold LOGSIZE; apply orb_false_iff; split; lia).
    rewrite (proj2 (Z.ltb_lt _ _) Hout). destruct lg. reflexivity.
  - destruct (log_write_eq lg s l i b Hinv Hlk ltac:(lia) ltac:(lia) Hi) as (s' & E & Hs').
    exists (appended lg l b), s'. split; [exact E|].
    split; [apply (appended_inv lg s s' l b Hinv Hh ltac:(lia) Hs')|].
    destruct Hs' as (_ & Hc & _ & Hhold & Hdisk).
    split; [unfold appended; destruct (decide _); exact Hlk|].
    split; [unfold appended; destruct (decide _); reflexivity|]. auto.
Qed.

Lemma in_log_inv {A} (m : M log A) lg s (a : A) L :
  in_log m (mk_ls lg s) = Ret a L -> exists lg', m lg = Ret a lg' /\ L = mk_ls lg' s.
Proof.
  unfold in_log, zoom, set_field. cbn. destruct (m lg) as [x lg'|w lg']; [|discriminate].
  intros [= <- <-]. eauto.
Qed.
Lemma in_cache_inv {A} (m : M S A) lg s (a : A) L :
  in_cache m (mk_ls lg s) = Ret a L -> exists s', m s = Ret a s' /\ L = mk_ls lg s'.
Proof.
  unfold in_cache, zoom, set_field. cbn. destruct (m s) as [x s'|w s']; [|discriminate].
  intros [= <- <-]. eauto.
Qed.

(** The log counters of two states, up to an entry added. *)
Definition grows lg lg' (k : Z) : Prop :=
  lg_lock lg' = lg_lock lg /\ lg_size lg' = lg_size lg /\ lg_outstanding lg' = lg_outstanding lg /\
  lg_committing lg' = lg_committing lg /\ lg_n lg' = lg_n lg + k.

Lemma set_lh_block_inv lg i v u lg' : set_lh_block i v lg = Ret u lg' -> grows lg lg' 0.
Proof.
  unfold set_lh_block, zoom, elt, modify, set_field, grows. cbn.
  destruct (lg_block lg !! Z.to_nat i); [|discriminate]. intros [= _ <-]. cbn. repeat split; lia.
Qed.

Lemma log_write_inv lg s h lg' s' : lg_lock lg = None ->
  log_write h (mk_ls lg s) = Ret tt (mk_ls lg' s') -> exists k, (k = 0 \/ k = 1) /\ grows lg lg' k.
Proof.
  intros Hlk E. unfold log_write in E.
  apply bind_inv in E as (l0 & L0 & E0 & E). apply in_log_inv in E0 as (? & [= <- <-] & ->).
  apply bind_inv in E as ([] & L1 & E1 & E). apply panic_if_inv in E1 as [_ ->].
  apply bind_inv in E as ([] & L2 & E2 & E). apply panic_if_inv in E2 as [_ ->].
  apply bind_inv in E as ([] & L3 & E3 & E). apply in_log_inv in E3 as (lg1 & E3 & ->).
  unfold zoom in E3. rewrite Hlk in E3. injection E3 as <-.
  apply bind_inv in E as (b & L4 & E4 & E). apply in_cache_inv in E4 as (s1 & _ & ->).
  apply bind_inv in E as (l1 & L5 & E5 & E). apply in_log_inv in E5 as (? & [= <- <-] & ->).
  cbv zeta in E. set (i := index_of b _) in E.
  apply bind_inv in E as ([] & L6 & E6 & E). apply in_log_inv in E6 as (lg2 & E6 & ->).
  apply set_lh_block_inv in E6.
  apply bind_inv in E as ([] & L7 & E7 & E).
  assert (exists lg3 k, L7 = mk_ls lg3 s1 /\ (k = 0 \/ k = 1) /\ grows lg2 lg3 k) as (lg3 & k & -> & Hk & G).
  { destruct (_ =? _).
    - apply in_log_inv in E7 as (lg3 & [= <-] & ->). eexists _, 1. split; [reflexivity|].
      split; [auto|]. unfold grows, set_field. cbn. repeat split; lia.
    - injection E7 as <-. exists lg2, 0. split; [reflexivity|]. split; [auto|].
      unfold grows. repeat split; lia. }
  apply bind_inv in E as ([] & L8 & E8 & E). apply in_cache_inv in E8 as (s2 & _ & ->).
  apply in_log_inv in E as (lg4 & E & [= -> ->]). exists k. split; [exact Hk|].
  unfold zoom, release in E. destruct (decide _); [|discriminate]. injection E as <-.
  unfold grows, set_field in *. cbn in *. intuition (congruence || lia).
Qed.

(** ** Reservations

    The system as the log sees it: the log and, for every operation that
    runs, how many entries it has added.  An operation adds at most
    MAXOPBLOCKS; the cache below is whatever it is. *)
Inductive lstep : log * list Z -> log * list Z -> Prop :=
| lstep_begin lg lg' us : begin_op [] lg = Ret tt lg' -> lstep (lg, us) (lg', 0 :: us)
| lstep_write lg lg' us i u h s s' : us !! i = Some u -> u < MAXOPBLOCKS ->
    log_write h (mk_ls lg s) = Ret tt (mk_ls lg' s') ->
    lstep (lg, us) (lg', <[i := u + (lg_n lg' - lg_n lg)]> us)
| lstep_end lg lg' us i last : (i < length us)%nat -> end_op_start lg = Ret last lg' ->
    lstep (lg, us) (lg', delete i us)
| lstep_commit lg us : lg_committing lg <> 0 -> lstep (lg, us) (lg <| lg_n := 0 |>, us)
| lstep_finish lg lg' us : lg_committing lg <> 0 -> end_op_finish lg = Ret tt lg' ->
    lstep (lg, us) (lg', us).

Definition log_empty (size : Z) : log := mk_log None 2 size 0 0 ROOTDEV 0 (repeat 0 30).

(** What the running operations may still add. *)
Definition reserved (us : list Z) : Z := foldr (fun u a => MAXOPBLOCKS - u + a) 0 us.

Definition within (size : Z) (p : log * list Z) : Prop :=
  let (lg, us) := p in
  lg_lock lg = None /\ lg_size lg = size /\ lg_outstanding lg = Z.of_nat (length us) /\
  0 <= lg_n lg /\ Forall (fun u => 0 <= u <= MAXOPBLOCKS) us /\ lg_n lg + reserved us <= LOGSIZE /\
  (lg_committing lg <> 0 -> us = []).

Lemma reserved_bound us : Forall (fun u => 0 <= u <= MAXOPBLOCKS) us ->
  0 <= reserved us <= Z.of_nat (length us) * MAXOPBLOCKS.
Proof.
  induction 1 as [|u us Hu _ IH]; cbn [reserved foldr length]; [lia|].
  fold (reserved us). unfold MAXOPBLOCKS in *. lia.
Qed.
Lemma reserved_cons u us : reserved (u :: us) = MAXOPBLOCKS - u + reserved us.
Proof. reflexivity. Qed.
Lemma reserved_insert us : forall i u v, us !! i = Some u ->
  reserved (<[i := v]> us) = reserved us + u - v.
Proof.
  induction us as [|x us IH]; intros [|i] u v E; try discriminate.
  - injection E as ->. change (reserved (v :: us) = reserved (u :: us) + u - v).
    rewrite !reserved_cons. lia.
  - change (reserved (x :: <[i := v]> us) = reserved (x :: us) + u - v).
    rewrite !reserved_cons, (IH i u v E). lia.
Qed.
Lemma reserved_delete us : forall i u, us !! i = Some u ->
  reserved (delete i us) = reserved us - (MAXOPBLOCKS - u).
Proof.
  induction us as [|x us IH]; intros [|i] u E; try discriminate.
  - injection E as ->. change (reserved us = reserved (u :: us) - (MAXOPBLOCKS - u)).
    rewrite reserved_cons. lia.
  - change (reserved (x :: delete i us) = reserved (x :: us) - (MAXOPBLOCKS - u)).
    rewrite !reserved_cons, (IH i u E). lia.
Qed.

Lemma begin_op_eq lg : lg_lock lg = None ->
  begin_op [] lg =
    if (lg_committing lg =? 0) && (lg_n lg + (lg_outstanding lg + 1) * MAXOPBLOCKS <=? LOGSIZE)
    then Ret tt (lg <| lg_outstanding ::= Z.add 1 |>) else Stop (Asleep "log") lg.
Proof.
  destruct lg as [lk st size out com dv n blk]. cbn [lg_lock]. intros ->. unfold begin_op. cbn.
  run. rewrite Z.leb_antisym. destruct (com =? 0); cbn; [|run; reflexivity].
  destruct (LOGSIZE <? _); run; reflexivity.
Qed.

Lemma end_op_start_eq lg : lg_lock lg = None -> lg_committing lg = 0 ->
  end_op_start lg =
    if lg_outstanding lg =? 1 then Ret true (lg <| lg_outstanding := 0 |> <| lg_committing := 1 |>)
    else Ret false (lg <| lg_outstanding ::= fun n => n - 1 |>).
Proof.
  destruct lg as [lk st size out com dv n blk]. cbn [lg_lock lg_committing]. intros -> ->.
  unfold end_op_start, wakeup. run. destruct (Z.eqb_spec out 1) as [->|Hne].
  { change (1 - 1 =? 0) with true. run. reflexivity. }
  rewrite (proj2 (Z.eqb_neq (out - 1) 0)) by lia. run. reflexivity.
Qed.

Lemma lstep_within size p q : within size p -> lstep p q -> within size q.
Proof.
  intros Hw Hs. destruct Hs as [lg lg' us E|lg lg' us i u h s s' Hi Hu E|lg lg' us i last Hi E|lg us Hc|lg lg' us Hc E];
    destruct Hw as (Hlk & Hsz & Hout & Hn & Hus & Hres & Hcom).
  - rewrite begin_op_eq in E by exact Hlk. destruct (Z.eqb_spec (lg_committing lg) 0) as [C|C]; [|discriminate].
    destruct (Z.leb_spec (lg_n lg + (lg_outstanding lg + 1) * MAXOPBLOCKS) LOGSIZE); [|discriminate].
    injection E as <-. pose proof (reserved_bound us Hus). unfold within, set_field. cbn [lg_lock lg_size
      lg_outstanding lg_n lg_committing length reserved foldr]. fold (reserved us).
    split_and!; auto; unfold MAXOPBLOCKS, LOGSIZE in *; try lia.
    constructor; [lia | exact Hus].
  - destruct (log_write_inv lg s h lg' s' Hlk E) as (k & Hk & G1 & G2 & G3 & G4 & G5).
    rewrite Forall_lookup in Hus. pose proof (Hus i u Hi) as Hu'.
    unfold within. rewrite G1, G2, G3, G4, length_insert, (reserved_insert us i u) by exact Hi.
    split_and!; auto; try lia.
    + apply Forall_insert; [apply Forall_lookup; exact Hus | unfold MAXOPBLOCKS in *; lia].
    + intros C. rewrite (Hcom C) in Hi. discriminate.
  - destruct (lookup_lt_is_Some_2 us i Hi) as [u Hu].
    assert (lg_committing lg = 0) as C by (destruct (Z.eq_dec (lg_committing lg) 0) as [|C];
      [assumption | rewrite (Hcom C) in Hi; cbn in Hi; lia]).
    rewrite end_op_start_eq in E by assumption.
    pose proof (reserved_delete us i u Hu) as Hr. pose proof (length_delete us i) as Hd.
    specialize (Hd ltac:(eauto)).
    rewrite Forall_lookup in Hus. pose proof (Hus i u Hu) as Hu'.
    assert (Forall (fun u => 0 <= u <= MAXOPBLOCKS) (delete i us)) as Hus'
      by (apply Forall_delete, Forall_lookup, Hus).
    unfold within. destruct (Z.eqb_spec (lg_outstanding lg) 1) as [O|O]; injection E as <- <-;
      unfold set_field; cbn [lg_lock lg_size lg_outstanding lg_n lg_committing];
      split_and!; auto; unfold MAXOPBLOCKS in *; try lia.
    intros _. apply nil_length_inv. lia.
  - unfold within, set_field. cbn. split_and!; auto; lia.
  - destruct lg as [lk st sz out com dv n blk]. cbn in *. subst lk.
    unfold end_op_finish, wakeup in E. revert E. run. intros [= <-].
    cbn. split_and!; auto.
Qed.

Lemma within_reachable size p : rtc lstep (log_empty size, []) p -> within size p.
Proof.
  intros Hr. assert (within size (log_empty size, [])) as Hi
    by (cbn; split_and!; auto; unfold LOGSIZE; lia).
  remember (log_empty size, []) as p0. clear Heqp0. induction Hr; eauto using lstep_within.
Qed.

(** begin_op() reserves log space: whatever order operations begin,
    write and end in, the log never has more than LOGSIZE entries and every
    running operation has room for the rest of its MAXOPBLOCKS entries.  The
    reservation counts LOGSIZE entries, however: on a log of LOGSIZE blocks,
    the size mkfs gives it, log_write() panics at entry LOGSIZE - 1. *)
Theorem log_reservation size lg us (Hr : rtc lstep (log_empty size, []) (lg, us)) :
  0 <= lg_n lg <= LOGSIZE /\
  (forall i u, us !! i = Some u -> u <= MAXOPBLOCKS /\ lg_n lg + (MAXOPBLOCKS - u) <= LOGSIZE) /\
  (size = LOGSIZE -> lg_n lg = LOGSIZE - 1 -> forall h s,
     log_write h (mk_ls lg s) = Stop (Panicked "too big a transaction") (mk_ls lg s)).
Proof.
  pose proof (within_reachable size _ Hr) as (Hlk & Hsz & Hout & Hn & Hus & Hres & Hcom).
  pose proof (reserved_bound us Hus). split; [lia|]. split.
  - intros i u Hi. pose proof (reserved_delete us i u Hi) as Hd.
    pose proof (reserved_bound (delete i us) (Forall_delete _ _ _ Hus)).
    rewrite Forall_lookup in Hus. pose proof (Hus i u Hi). lia.
  - intros -> E h s. unfold log_write. step by (apply in_log_ret; reflexivity). cbn [id].
    rewrite E, Hsz. destruct lg. reflexivity.
Qed.
End Effects.

(** ** Concrete instances

    The buffer cache of [Bio.v] on a small disk with a log at block 2. *)
Section Witnesses.
#[local] Instance demo_ctx : Ctx := {| cpu_id := 0; cur_pid := 1 |}.

Definition demo_super : block :=
  put_u32 0 100 (put_u32 12 30 (put_u32 16 2 (repeat 0 512))).
Definition demo_disk : disk :=
  mk_disk 100 (fun n => if n =? 1 then demo_super else repeat 0 512) [].
Definition demo_log (n : Z) (blk : list Z) : log := mk_log None 2 30 1 0 ROOTDEV n blk.
Definition demo_bio : bio := mk_bio None booted_bufs demo_disk.

Lemma demo_disk_ok : disk_ok demo_disk.
Proof. intros n _. cbn. destruct (n =? 1); reflexivity. Qed.
Lemma demo_fresh : bio_ok demo_bio /\ pinned demo_bio = ∅ /\
  forall n, c_content demo_bio n = d_img demo_disk n.
Proof. apply (fresh_ok booted_bufs demo_disk lru_at_boot booted_cores booted_order demo_disk_ok). Qed.

Lemma fresh_sees (s : bio) f : c_ok s -> pinned s = ∅ -> (forall n, c_content s n = f n) ->
  sees s f ∅ ∅ (c_disk s).
Proof.
  intros Hok Hp Hc. unfold pinned in Hp. apply empty_union_L in Hp as [Hd Hh].
  apply map_img_empty_iff_L in Hh. pose proof (sees_self s Hok) as Hs.
  rewrite Hd, Hh in Hs. eapply sees_weaken; [exact Hs | exact Hc | reflexivity | reflexivity].
Qed.
Lemma demo_sees : sees demo_bio (d_img demo_disk) ∅ ∅ demo_disk.
Proof. destruct demo_fresh as (Hok & Hp & Hc). exact (fresh_sees demo_bio _ Hok Hp Hc). Qed.

Lemma demo_geom n blk : length blk = 30%nat -> geom (demo_log n blk) demo_disk.
Proof. intros Hl. unfold geom, LOGSIZE. cbn. split_and!; auto; lia. Qed.
Lemma demo_home lg : lg_start lg = 2 -> lg_size lg = 30 -> home lg demo_disk 50.
Proof. intros H1 H2. unfold home, in_area. rewrite H1, H2. cbn. lia. Qed.
Lemma demo_header : header_is (d_img demo_disk 2) [].
Proof. split; [vm_compute; reflexivity | discriminate]. Qed.

(** Block 50 is held and nothing is logged. *)
Lemma demo_held : exists i s, log_inv (demo_log 0 (repeat 0 30)) s [] /\
  c_hold s = {[i := 50]} /\ sees s (d_img demo_disk) ∅ {[i := 50]} demo_disk.
Proof.
  destruct (sees_bread demo_bio _ _ _ _ 50 demo_sees) as (i & s & E & Hi & Hs).
  { cbn. lia. }
  { apply unheld_empty. }
  { rewrite map_img_empty_L, (left_id_L ∅ (∪)), (left_id_L ∅ (∪)), size_singleton. unfold NBUF. lia. }
  clear E. exists i, s. pose proof Hs as (Hok & Hc & Hd & Hh & Hk).
  split; [|split; [exact Hh | exact Hs]].
  constructor; rewrite ?Hk; auto; try discriminate.
  - apply demo_geom. reflexivity.
  - cbn. lia.
  - split; [cbn; lia | constructor].
  - constructor.
  - apply demo_header.
Qed.

(** A transaction that changes block 50. *)
Lemma demo_tx : exists s, log_inv (demo_log 1 (50 :: repeat 0 29)) s [50] /\ c_hold s = ∅ /\
  c_content s 50 = repeat 9 512 /\ d_img (c_disk s) 50 = repeat 0 512.
Proof.
  destruct demo_held as (i & s0 & Hinv & Hh0 & S0).
  destruct (sees_set_data s0 _ _ _ _ i 50 (repeat 9 512) S0 (lookup_insert_eq _ _ _)) as (s1 & _ & S1);
    [reflexivity|].
  destruct (sees_pin s1 _ _ _ _ i 50 S1 (lookup_insert_eq _ _ _)) as (s2 & _ & S2).
  destruct (sees_brelse s2 _ _ _ _ i 50 S2 (lookup_insert_eq _ _ _)) as (s3 & _ & S3); [left; set_solver|].
  exists s3. destruct S3 as (Hok & Hc & Hd & Hh & Hk).
  split; [|split; [|split]].
  - constructor; rewrite ?Hk.
    + apply demo_geom. reflexivity.
    + cbn. lia.
    + reflexivity.
    + intros [|i'] b E; [exact E | discriminate].
    + split; [cbn; lia|]. constructor; [apply demo_home; reflexivity | constructor].
    + apply NoDup_singleton.
    + exact Hok.
    + rewrite Hd. cbn. set_solver.
    + apply demo_header.
  - rewrite Hh. apply delete_insert_id, lookup_empty.
  - rewrite Hc. reflexivity.
  - rewrite Hk. reflexivity.
Qed.

Example commit_atomic_witness : exists s s',
  commit (mk_ls (demo_log 1 (50 :: repeat 0 29)) s) = Ret tt (mk_ls (demo_log 0 (50 :: repeat 0 29)) s') /\
  d_img (c_disk s) 50 = repeat 0 512 /\ d_img (c_disk s') 50 = repeat 9 512.
Proof.
  destruct demo_tx as (s & Hinv & Hh & Hc & Hd). exists s.
  destruct (commit_atomic _ s [50] Hinv Hh ltac:(discriminate)) as (s' & ws & E & _ & _ & _ & Hm & _).
  exists s'. split; [exact E|]. split; [exact Hd|].
  destruct (Hm 50) as [_ Hm']; [unfold in_area; cbn; lia|]. rewrite Hm'. exact Hc.
Defined.

Example log_write_spec_witness : exists i s lg' s',
  log_write i (mk_ls (demo_log 0 (repeat 0 30)) s) = Ret tt (mk_ls lg' s') /\ log_inv lg' s' [50].
Proof.
  destruct demo_held as (i & s & Hinv & Hh & Hs). exists i, s.
  pose proof (log_write_spec (demo_log 0 (repeat 0 30)) s [] i 50 Hinv eq_refl) as Hw.
  rewrite decide_False, decide_False in Hw by (cbn; lia). cbn [app] in Hw.
  destruct Hw as (lg' & s' & E & Hinv' & _).
  - rewrite Hh. apply lookup_insert_eq.
  - destruct Hs as (_ & _ & _ & _ & ->). apply demo_home; reflexivity.
  - exists lg', s'. split; [exact E|]. rewrite decide_False in Hinv' by set_solver. exact Hinv'.
Defined.

Example recovery_correct_witness : exists lg' s',
  initlog ROOTDEV (mk_ls (demo_log 7 (repeat 0 30)) demo_bio) = Ret tt (mk_ls lg' s') /\
  log_inv lg' s' [].
Proof.
  destruct demo_sees as (Hok & _ & Hd & Hh & Hk).
  assert (geom (mount (demo_log 7 (repeat 0 30)) (dec_superblock (d_img demo_disk 1))) demo_disk) as Hg
    by (vm_compute; repeat split; discriminate || reflexivity).
  destruct (recovery_correct (demo_log 7 (repeat 0 30)) demo_bio (d_img demo_disk) Hok Hd Hh)
    as (lg' & s' & ws & E & Hinv & _).
  - cbn. lia.
  - exact Hg.
  - exists []. split; [split; [vm_compute; reflexivity | discriminate]|].
    split; [split; [vm_compute; discriminate | constructor]|]. reflexivity.
  - exists lg', s'. split; [exact E | exact Hinv].
Defined.

Example log_reservation_witness : exists lg,
  rtc (lstep (S := bio)) (log_empty LOGSIZE, []) (lg, [0; 0; 0]) /\ lg_n lg + 3 * MAXOPBLOCKS <= LOGSIZE /\
  lg_n lg <= LOGSIZE.
Proof.
  set (lg := mk_log None 2 LOGSIZE 3 0 ROOTDEV 0 (repeat 0 30)). exists lg.
  assert (rtc (lstep (S := bio)) (log_empty LOGSIZE, []) (lg, [0; 0; 0])) as Hr.
  { eapply rtc_l; [eapply lstep_begin; rewrite begin_op_eq by reflexivity; reflexivity|].
    eapply rtc_l; [eapply lstep_begin; rewrite begin_op_eq by reflexivity; reflexivity|].
    eapply rtc_l; [eapply lstep_begin; rewrite begin_op_eq by reflexivity; reflexivity|]. apply rtc_refl. }
  split; [exact Hr|]. split; [vm_compute; discriminate|].
  apply (log_reservation LOGSIZE lg [0; 0; 0] Hr).
Defined.
End Witnesses.
