(* ===== verification/Tx.v ===== *)
(** * Transactions, as the file system sees them

    What the buffer cache and the log promise together to [Fs.v] between
    begin_op() and end_op(): blocks can be read through handles, changed and
    given to log_write(), as long as the log has room.  The instance at the
    end of the file is [Log.v] over any cache that satisfies [Cache.v]. *)
From S2P Require Import Prelude.
From S2P Require Import Layout.
From S2P Require Import Bio.
From S2P Require Import Cache.
From S2P Require Import Log.
From S2P Require Import LogProofs.

(** bread(dev, n), bp->data, log_write(bp) and brelse(bp). *)
Class TxOps (T : Type) : Type := {
  t_bread : Z -> Z -> M T nat;
  t_data : nat -> M T block;
  t_set_data : nat -> block -> M T unit;
  t_log_write : nat -> M T unit;
  t_brelse : nat -> M T unit }.

(** What a transaction does not change: the entries its log can hold, the
    number of blocks, the blocks it may write, the blocks on the disk, the
    place of the log, the operations running, the writes made to the disk. *)
Record frame := mk_frame {
  fr_cap : nat; fr_size : Z; fr_home : Z -> Prop; fr_base : Z -> block;
  fr_area : Z * Z; fr_ops : Z; fr_disk : disk }.

(** [tx_is s g f L h]: the blocks are [f], the blocks in [L] are logged, the
    caller holds the handles [h]. *)
Class TxView (T : Type) : Type :=
  tx_is : T -> frame -> (Z -> block) -> gset Z -> gmap nat Z -> Prop.

Class TxLaws (T : Type) `{TxOps T} `{TxView T} : Prop := {
  tx_bread s g f L h n : tx_is s g f L h -> 0 <= n < fr_size g -> unheld h n ->
    (size L + size h < NBUF)%nat ->
    exists i s', t_bread ROOTDEV n s = Ret i s' /\ h !! i = None /\ tx_is s' g f L (<[i := n]> h);
  tx_data s g f L h i n : tx_is s g f L h -> h !! i = Some n -> t_data i s = Ret (f n) s;
  tx_set_data s g f L h i n b : tx_is s g f L h -> h !! i = Some n -> length b = 512%nat ->
    exists s', t_set_data i b s = Ret tt s' /\ tx_is s' g (upd_content f n b) L h;
  tx_log_write s g f L h i n : tx_is s g f L h -> h !! i = Some n -> fr_home g n ->
    (size L < fr_cap g)%nat ->
    exists s', t_log_write i s = Ret tt s' /\ tx_is s' g f (L ∪ {[n]}) h;
  tx_brelse s g f L h i n : tx_is s g f L h -> h !! i = Some n -> n ∈ L \/ f n = fr_base g n ->
    exists s', t_brelse i s = Ret tt s' /\ tx_is s' g f L (delete i h);
  tx_clean s g f L h n : tx_is s g f L h -> n ∉ L -> unheld h n -> f n = fr_base g n;
  tx_length s g f L h n : tx_is s g f L h -> 0 <= n < fr_size g -> length (f n) = 512%nat;
  tx_weaken s g f f' L h : (forall n, f n = f' n) -> tx_is s g f L h -> tx_is s g f' L h }.

Lemma size_with (X : gset Z) a : (size (X ∪ {[a]}) <= Datatypes.S (size X))%nat.
Proof.
  rewrite (union_comm_L X), size_union_alt, size_singleton.
  pose proof (subseteq_size (C := gset Z) (X ∖ {[a]}) X ltac:(set_solver)). lia.
Qed.

(** ** Whole accesses to a block *)
Section Client.
Context {T : Type} `{TxLaws T}.
Implicit Types (s : T) (g : frame) (f : Z -> block) (L : gset Z) (h : gmap nat Z).

(** [bp = bread(dev, n); k(bp->data); brelse(bp);] for a block that [k] does
    not change. *)
Lemma tx_open_read s g f L h n : tx_is s g f L h -> 0 <= n < fr_size g -> unheld h n ->
  (size L + size h < NBUF)%nat ->
  exists i s1 s2, t_bread ROOTDEV n s = Ret i s1 /\ t_data i s1 = Ret (f n) s1 /\
    t_brelse i s1 = Ret tt s2 /\ tx_is s2 g f L h.
Proof.
  intros Hs Hn Hh Hsz. destruct (tx_bread s g f L h n Hs Hn Hh Hsz) as (i & s1 & E1 & Hi & S1).
  destruct (tx_brelse s1 g f L _ i n S1) as (s2 & E2 & S2).
  - apply lookup_insert_eq.
  - destruct (decide (n ∈ L)) as [Hin|Hin]; [auto | right; exact (tx_clean s g f L h n Hs Hin Hh)].
  - exists i, s1, s2. split; [exact E1|]. split; [eapply tx_data; [exact S1 | apply lookup_insert_eq]|].
    split; [exact E2|]. rewrite delete_insert_id in S2 by exact Hi. exact S2.
Qed.

(** The same for a block that is changed to [b] and logged. *)
Lemma tx_open_write s g f L h n b : tx_is s g f L h -> 0 <= n < fr_size g -> unheld h n ->
  (size L + size h < NBUF)%nat -> fr_home g n -> (size L < fr_cap g)%nat ->
  length b = 512%nat ->
  exists i s1 s2 s3 s4, t_bread ROOTDEV n s = Ret i s1 /\ t_data i s1 = Ret (f n) s1 /\
    t_set_data i b s1 = Ret tt s2 /\ t_log_write i s2 = Ret tt s3 /\ t_brelse i s3 = Ret tt s4 /\
    tx_is s4 g (upd_content f n b) (L ∪ {[n]}) h.
Proof.
  intros Hs Hn Hh Hsz Hhome Hroom Hb.
  destruct (tx_bread s g f L h n Hs Hn Hh Hsz) as (i & s1 & E1 & Hi & S1).
  assert (Hget : <[i := n]> h !! i = Some n) by apply lookup_insert_eq.
  destruct (tx_set_data s1 g f L _ i n b S1 Hget Hb) as (s2 & E2 & S2).
  destruct (tx_log_write s2 g _ L _ i n S2 Hget Hhome Hroom) as (s3 & E3 & S3).
  destruct (tx_brelse s3 g _ _ _ i n S3 Hget) as (s4 & E4 & S4); [left; apply elem_of_union_r, elem_of_singleton; reflexivity|].
  exists i, s1, s2, s3, s4. split; [exact E1|]. split; [eapply tx_data; eassumption|].
  do 3 (split; [assumption|]). rewrite delete_insert_id in S4 by exact Hi. exact S4.
Qed.
End Client.

(** ** The log implements transactions *)
Section Instance_.
Context `{Ctx} {S : Type} `{CacheLaws S}.

#[export] Instance log_tx_ops : TxOps (lstate S) := {|
  t_bread dev n := in_cache (c_bread dev n);
  t_data i := in_cache (c_data i);
  t_set_data i b := in_cache (c_set_data i b);
  t_log_write i := log_write i;
  t_brelse i := in_cache (c_brelse i) |}.

(** An operation is running, the log is not locked and describes [L]. *)
#[export] Instance log_tx_view : TxView (lstate S) := fun s g f L h =>
  let lg := ls_log s in
  exists l, log_inv lg (ls_cache s) l /\ L = list_to_set l /\ lg_lock lg = None /\
    1 <= lg_outstanding lg /\ sees (ls_cache s) f L h (c_disk (ls_cache s)) /\
    fr_cap g = Z.to_nat (lg_size lg - 1) /\ fr_size g = d_size (c_disk (ls_cache s)) /\
    (forall n, fr_home g n -> home lg (c_disk (ls_cache s)) n) /\ (forall n, n ∈ L -> fr_home g n) /\
    (forall n, fr_base g n = d_img (c_disk (ls_cache s)) n) /\
    lg_committing lg = 0 /\ fr_area g = (lg_start lg, lg_size lg) /\ fr_ops g = lg_outstanding lg /\
    fr_disk g = c_disk (ls_cache s).

Lemma size_map_img (h : gmap nat Z) : (size (map_img h : gset Z) <= size h)%nat.
Proof.
  induction h as [|i n h Hi IH] using map_ind; [rewrite map_img_empty, size_empty; lia|].
  rewrite map_size_insert_None by exact Hi.
  pose proof (subseteq_size (C := gset Z) _ _ (map_img_insert_subseteq (SA := gset Z) h i n)) as Hle.
  rewrite (union_comm_L {[n]}) in Hle. pose proof (size_add (map_img h) n). lia.
Qed.

Lemma size_pinned (L : gset Z) (h : gmap nat Z) n :
  (size (L ∪ map_img h ∪ {[n]} : gset Z) <= Datatypes.S (size L + size h))%nat.
Proof.
  pose proof (size_add (L ∪ map_img h) n) as Ha. rewrite (size_union_alt L) in Ha.
  assert (Hd : (map_img h : gset Z) ∖ L ⊆ map_img h) by set_solver.
  apply subseteq_size in Hd. pose proof (size_map_img h). lia.
Qed.

(** What is left of the invariant of the log when only the cache changed. *)
Lemma log_inv_sees lg s s' l f h : log_inv lg s l ->
  sees s' f (list_to_set l) h (c_disk s) -> log_inv lg s' l.
Proof.
  intros [Hg Hsz Hn Hb Hl Hnd Hok Hd Hx] (Hok' & _ & Hd' & _ & Hk'). constructor; rewrite ?Hk'; auto.
Qed.

(** Restoring the view after a step of the cache. *)
Lemma view_cache lg s s' g f f' L h h' :
  tx_is (mk_ls lg s) g f L h -> sees s' f' L h' (c_disk s) -> tx_is (mk_ls lg s') g f' L h'.
Proof.
  intros (l & Hinv & HL & Hlk & Hout & Hs & Hrest) Hs'. cbn [ls_log ls_cache] in *. subst L.
  exists l. cbn [ls_log ls_cache]. assert (Hk : c_disk s' = c_disk s) by apply Hs'. rewrite Hk.
  split; [eapply log_inv_sees; eassumption|]. auto.
Qed.
Lemma view_sees lg s g f L h : tx_is (mk_ls lg s) g f L h -> sees s f L h (c_disk s).
Proof. intros (l & _ & _ & _ & _ & Hs & _). exact Hs. Qed.
Lemma view_size lg s g f L h : tx_is (mk_ls lg s) g f L h -> fr_size g = d_size (c_disk s).
Proof. intros (l & _ & _ & _ & _ & _ & _ & E & _). exact E. Qed.
Lemma view_base lg s g f L h n : tx_is (mk_ls lg s) g f L h -> fr_base g n = d_img (c_disk s) n.
Proof. intros (l & _ & _ & _ & _ & _ & _ & _ & _ & _ & E & _). apply E. Qed.

Lemma view_log_write lg s g f L h i n : tx_is (mk_ls lg s) g f L h -> h !! i = Some n ->
  fr_home g n -> (size L < fr_cap g)%nat ->
  exists s', log_write i (mk_ls lg s) = Ret tt s' /\ tx_is s' g f (L ∪ {[n]}) h.
Proof.
  intros (l & Hinv & HL & Hlk & Hout & Hs & Hcap & Hsz & Hhome & Hlog & Hbase & Hcom & Harea & Hops & Hdisk) Hi Hh Hroom.
  cbn [ls_log ls_cache] in *. pose proof Hs as (Hok & Hf & HD & Hhold & _).
  rewrite <- Hhold in Hi. pose proof (Hhome n Hh) as Hhm.
  assert (Hlen : Z.of_nat (length l) < lg_size lg - 1).
  { assert (size L = length l); [|lia]. subst L. apply size_list_to_set. apply Hinv. }
  destruct (log_write_eq lg s l i n Hinv Hlk Hout Hlen Hi) as (s' & E & Hs').
  exists (mk_ls (appended lg l n) s'). split; [exact E|].
  pose proof (appended_inv lg s s' l n Hinv Hhm Hlen Hs') as Hinv'. assert (Hk : c_disk s' = c_disk s) by apply Hs'.
  assert (Happ : lg_lock (appended lg l n) = None /\ lg_outstanding (appended lg l n) = lg_outstanding lg /\
    lg_size (appended lg l n) = lg_size lg /\ lg_start (appended lg l n) = lg_start lg /\
    lg_committing (appended lg l n) = lg_committing lg)
    by (unfold appended; destruct (decide _); repeat split; exact Hlk).
  destruct Happ as (A1 & A2 & A3 & A4 & A5).
  exists (if decide (n ∈ l) then l else l ++ [n]). cbn [ls_log ls_cache]. rewrite Hk, A1, A2, A3, A4, A5.
  split; [exact Hinv'|]. split.
  { subst L. destruct (decide _) as [Hin|Hin].
    - apply (elem_of_list_to_set (C := gset Z)) in Hin. clear -Hin. set_solver.
    - rewrite list_to_set_app_L. cbn. clear. set_solver. }
  split; [reflexivity|]. split; [exact Hout|]. split.
  { rewrite HD, Hhold in Hs'. eapply sees_weaken; [exact Hs' | exact Hf | reflexivity | reflexivity]. }
  split; [exact Hcap|]. split; [exact Hsz|]. split; [|split; [|auto]].
  - intros m Hm. specialize (Hhome m Hm). unfold home, in_area in *. rewrite A3, A4. exact Hhome.
  - intros m [Hm|Hm%elem_of_singleton]%elem_of_union; [apply Hlog, Hm | subst m; exact Hh].
Qed.

#[export] Instance log_tx_laws : TxLaws (lstate S).
Proof.
  split.
  - intros [lg s] g f L h n Hv Hn Hh Hroom. pose proof (view_sees _ _ _ _ _ _ Hv) as Hs.
    rewrite (view_size _ _ _ _ _ _ Hv) in Hn. destruct (sees_bread s f L h _ n Hs Hn Hh) as (i & s' & E & Hi & Hs').
    { pose proof (size_pinned L h n). lia. }
    exists i, (mk_ls lg s'). split; [apply in_cache_ret, E|]. split; [exact Hi|].
    eapply view_cache; eassumption.
  - intros [lg s] g f L h i n Hv Hi. apply in_cache_ret. eapply sees_data; [apply (view_sees _ _ _ _ _ _ Hv) | exact Hi].
  - intros [lg s] g f L h i n b Hv Hi Hb. pose proof (view_sees _ _ _ _ _ _ Hv) as Hs.
    destruct (sees_set_data s _ _ _ _ i n b Hs Hi Hb) as (s' & E & Hs').
    exists (mk_ls lg s'). split; [apply in_cache_ret, E|]. eapply view_cache; eassumption.
  - intros [lg s]. apply view_log_write.
  - intros [lg s] g f L h i n Hv Hi Hc. pose proof (view_sees _ _ _ _ _ _ Hv) as Hs.
    rewrite (view_base _ _ _ _ _ _ n Hv) in Hc. destruct (sees_brelse s _ _ _ _ i n Hs Hi Hc) as (s' & E & Hs').
    exists (mk_ls lg s'). split; [apply in_cache_ret, E|]. eapply view_cache; eassumption.
  - intros [lg s] g f L h n Hv Hn Hh. rewrite (view_base _ _ _ _ _ _ n Hv).
    eapply sees_clean; [apply (view_sees _ _ _ _ _ _ Hv) | exact Hn | exact Hh].
  - intros [lg s] g f L h n Hv Hn. rewrite (view_size _ _ _ _ _ _ Hv) in Hn.
    eapply sees_length; [apply (view_sees _ _ _ _ _ _ Hv) | exact Hn].
  - intros [lg s] g f f' L h Hf Hv. eapply view_cache; [exact Hv|].
    eapply sees_weaken; [apply (view_sees _ _ _ _ _ _ Hv) | exact Hf | reflexivity | reflexivity].
Qed.
End Instance_.
