(* ===== verification/Fs.v ===== *)
(** * The file system

    [src/homeworks/xv6-public/fs.c] over the transactions of [Tx.v]: block
    allocator, inode cache, inode contents, directories, path names.
    Pointers to cached inodes are indices into [icache.inode]; a sleep lock
    that another process holds is waited for without an answer ([Asleep]).
    Bytes read or written through a [char*] are lists.  The proofs are in
    [FsProofs.v]. *)
From S2P Require Import Prelude.
From S2P Require Import Sleeplock.
From S2P Require Import Layout.
From S2P Require Import Bio.
From S2P Require Import Tx.

Definition NINODE : nat := 50.
Definition NDEV : Z := 10.
Definition T_DIR : Z := 1.
Definition T_FILE : Z := 2.
Definition T_DEV : Z := 3.

(** struct inode *)
Record inode := mk_inode {
  i_dev : Z; i_inum : Z; i_ref : Z; i_lock : sleeplock; i_valid : Z;
  i_type : Z; i_major : Z; i_minor : Z; i_nlink : Z; i_size : Z; i_addrs : list Z }.
#[export] Instance eta_inode : Eta inode := fun i =>
  mk_inode (i_dev i) (i_inum i) (i_ref i) (i_lock i) (i_valid i)
    (i_type i) (i_major i) (i_minor i) (i_nlink i) (i_size i) (i_addrs i).

(** icache *)
Record icache := mk_icache { ic_lock : spinlock; ic_inode : list inode }.
#[export] Instance eta_icache : Eta icache := fun c => mk_icache (ic_lock c) (ic_inode c).

(** The file system: blocks, superblock in memory, inode cache. *)
Record fstate (T : Type) := mk_fs { fs_tx : T; fs_sb : superblock; fs_icache : icache }.
Arguments mk_fs {T} _ _ _.
Arguments fs_tx {T} _.
Arguments fs_sb {T} _.
Arguments fs_icache {T} _.
#[export] Instance eta_fstate {T} : Eta (fstate T) := fun s =>
  mk_fs (fs_tx s) (fs_sb s) (fs_icache s).

(** devsw: the read and write functions of the devices, of an inode and a
    number of bytes or the bytes. *)
Class Devsw (S : Type) : Type := {
  dev_read : Z -> option (nat -> Z -> M S (Z * list Z));
  dev_write : Z -> option (nat -> list Z -> M S Z) }.

Record stat := mk_stat { st_dev : Z; st_ino : Z; st_type : Z; st_nlink : Z; st_size : Z }.

Section Code.
Context `{Ctx} {T : Type} `{TxOps T} `{Devsw (fstate T)}.
#[local] Abbreviation F := (M (fstate T)).

Definition in_tx {A} (m : M T A) : F A := zoom fs_tx m.
Definition in_icache {A} (m : M icache A) : F A := zoom fs_icache m.
Definition on_inode {A} (ip : nat) (m : M inode A) : F A := in_icache (zoom ic_inode (elt ip m)).
Definition inode_get (ip : nat) : F inode := on_inode ip (get id).
Definition sb : F superblock := get fs_sb.

(** *** Blocks *)

(** [m = 1 << (bi % 8)] *)
Definition mask (bi : Z) : Z := Z.shiftl 1 (bi mod 8).
(** [bp->data[bi/8]] *)
Definition bit_byte (x : block) (bi : Z) : Z := nth (Z.to_nat (bi / 8)) x 0.

Definition bzero (dev bno : Z) : F unit :=
  let! bp := in_tx (t_bread dev bno) in
  in_tx (t_set_data bp (replicate (Z.to_nat BSIZE) 0)) ;!
  in_tx (t_log_write bp) ;!
  in_tx (t_brelse bp).

(** [for(bi = 0; bi < BPB && b + bi < sb.size; bi++)] up to the first clear
    bit; [n] rounds are left. *)
Fixpoint find_free (n : nat) (x : block) (b size bi : Z) : option Z :=
  match n with
  | O => None
  | S n' =>
      if b + bi <? size then
        if Z.land (bit_byte x bi) (mask bi) =? 0 then Some bi
        else find_free n' x b size (bi + 1)
      else None
  end.

Definition balloc_try (dev b : Z) : F (option Z) :=
  let! sb := sb in
  let! bp := in_tx (t_bread dev (BBLOCK b sb)) in
  let! x := in_tx (t_data bp) in
  match find_free (Z.to_nat BPB) x b (sb_size sb) 0 with
  | Some bi =>
      (* Mark block in use. *)
      in_tx (t_set_data bp (<[Z.to_nat (bi / 8) := Z.lor (bit_byte x bi) (mask bi)]> x)) ;!
      in_tx (t_log_write bp) ;!
      in_tx (t_brelse bp) ;!
      bzero dev (b + bi) ;!
      ret (Some (b + bi))
  | None => in_tx (t_brelse bp) ;! ret None
  end.
Definition balloc (dev : Z) : F Z :=
  let! sb := sb in
  let! r := for_each (map (Z.mul BPB) (seqZ 0 ((sb_size sb + BPB - 1) / BPB))) (balloc_try dev) in
  match r with
  | Some b => ret b
  | None => panic "balloc: out of blocks"
  end.

Definition bfree (dev b : Z) : F unit :=
  let! sb := sb in
  let! bp := in_tx (t_bread dev (BBLOCK b sb)) in
  let bi := b mod BPB in
  let! x := in_tx (t_data bp) in
  panic_if (Z.land (bit_byte x bi) (mask bi) =? 0) "freeing free block" ;!
  in_tx (t_set_data bp (<[Z.to_nat (bi / 8) := Z.ldiff (bit_byte x bi) (mask bi)]> x)) ;!
  in_tx (t_log_write bp) ;!
  in_tx (t_brelse bp).

(** *** Inodes *)

Definition readsb (dev : Z) : M T superblock :=
  let! bp := t_bread dev 1 in
  let! x := t_data bp in
  t_brelse bp ;!
  ret (dec_superblock x).

Definition iinit (dev : Z) : F unit :=
  in_icache (modify (fun c => c <| ic_lock := None |>)) ;!
  for_all (seq 0 NINODE) (fun i => on_inode i (zoom i_lock initsleeplock)) ;!
  let! x := in_tx (readsb dev) in
  modify (fun s => s <| fs_sb := x |>).

(** The cache entry of an inode, or else the first one that is free. *)
Definition cached (dev inum : Z) (i : inode) : bool :=
  (0 <? i_ref i) && (i_dev i =? dev) && (i_inum i =? inum).
Definition iget (dev inum : Z) : F nat :=
  in_icache (zoom ic_lock acquire) ;!
  let! inodes := in_icache (get ic_inode) in
  (* Is the inode already cached? *)
  match list_find (fun i => cached dev inum i = true) inodes with
  | Some (ip, _) =>
      on_inode ip (modify (fun i => i <| i_ref ::= fun r => s32 (r + 1) |>)) ;!
      in_icache (zoom ic_lock release) ;!
      ret ip
  | None =>
      match list_find (fun i => i_ref i = 0) inodes with
      | None => panic "iget: no inodes"
      | Some (ip, _) =>
          (* Recycle an inode cache entry. *)
          on_inode ip (modify (fun i =>
            mk_inode dev inum 1 (i_lock i) 0 (i_type i) (i_major i) (i_minor i) (i_nlink i)
              (i_size i) (i_addrs i))) ;!
          in_icache (zoom ic_lock release) ;!
          ret ip
      end
  end.

Definition ialloc_try (dev type inum : Z) : F (option nat) :=
  let! sb := sb in
  let! bp := in_tx (t_bread dev (IBLOCK inum sb)) in
  let! x := in_tx (t_data bp) in
  let k := Z.to_nat (inum mod IPB) in
  if di_type (get_dinode k x) =? 0 then  (* a free inode *)
    in_tx (t_set_data bp (put_dinode k (mk_dinode type 0 0 0 0 (replicate 13 0)) x)) ;!
    in_tx (t_log_write bp) ;!   (* mark it allocated on the disk *)
    in_tx (t_brelse bp) ;!
    let! ip := iget dev inum in
    ret (Some ip)
  else
    in_tx (t_brelse bp) ;!
    ret None.
Definition ialloc (dev type : Z) : F nat :=
  let! sb := sb in
  let! r := for_each (seqZ 1 (sb_ninodes sb - 1)) (ialloc_try dev type) in
  match r with
  | Some ip => ret ip
  | None => panic "ialloc: no inodes"
  end.

Definition iupdate (ip : nat) : F unit :=
  let! i := inode_get ip in
  let! sb := sb in
  let! bp := in_tx (t_bread (i_dev i) (IBLOCK (i_inum i) sb)) in
  let! x := in_tx (t_data bp) in
  let d := mk_dinode (i_type i) (i_major i) (i_minor i) (i_nlink i) (i_size i) (i_addrs i) in
  in_tx (t_set_data bp (put_dinode (Z.to_nat (i_inum i mod IPB)) d x)) ;!
  in_tx (t_log_write bp) ;!
  in_tx (t_brelse bp).

Definition idup (ip : nat) : F nat :=
  in_icache (zoom ic_lock acquire) ;!
  on_inode ip (modify (fun i => i <| i_ref ::= fun r => s32 (r + 1) |>)) ;!
  in_icache (zoom ic_lock release) ;!
  ret ip.

(** [ip == 0] for a pointer to an inode. *)
Definition non_null (ip : option nat) (msg : string) : F nat :=
  match ip with Some p => ret p | None => panic msg end.

Definition ilock (ip : option nat) : F unit :=
  let! p := non_null ip "ilock" in
  let! i := inode_get p in
  panic_if (i_ref i <? 1) "ilock" ;!
  on_inode p (zoom i_lock (acquiresleep [])) ;!
  let! i := inode_get p in
  if i_valid i =? 0 then
    let! sb := sb in
    let! bp := in_tx (t_bread (i_dev i) (IBLOCK (i_inum i) sb)) in
    let! x := in_tx (t_data bp) in
    let d := get_dinode (Z.to_nat (i_inum i mod IPB)) x in
    on_inode p (modify (fun i =>
      mk_inode (i_dev i) (i_inum i) (i_ref i) (i_lock i) (i_valid i)
        (di_type d) (di_major d) (di_minor d) (di_nlink d) (di_size d) (di_addrs d))) ;!
    in_tx (t_brelse bp) ;!
    on_inode p (modify (fun i => i <| i_valid := 1 |>)) ;!
    panic_if (di_type d =? 0) "ilock: no type"
  else ret tt.

Definition iunlock (ip : option nat) : F unit :=
  let! p := non_null ip "iunlock" in
  let! held := on_inode p (zoom i_lock holdingsleep) in
  let! i := inode_get p in
  panic_if (negb held || (i_ref i <? 1)) "iunlock" ;!
  on_inode p (zoom i_lock releasesleep).

(** *** Inode content *)

(** [ip->addrs[n] = a] *)
Definition set_addr (ip n : nat) (a : Z) : F unit :=
  on_inode ip (zoom i_addrs (elt n (modify (fun _ => a)))).
(** [ip->addrs[n]], allocated when it is 0. *)
Definition addr_alloc (ip n : nat) : F Z :=
  let! i := inode_get ip in
  let! addr := deref (i_addrs i !! n) in
  if addr =? 0 then
    let! addr := balloc (i_dev i) in
    set_addr ip n addr ;!
    ret addr
  else ret addr.

Definition bmap (ip : nat) (bn : Z) : F Z :=
  if bn <? NDIRECT then addr_alloc ip (Z.to_nat bn) else
  let bn := bn - NDIRECT in
  if bn <? NINDIRECT then
    (* Load indirect block, allocating if necessary. *)
    let! addr := addr_alloc ip (Z.to_nat NDIRECT) in
    let! i := inode_get ip in
    let! bp := in_tx (t_bread (i_dev i) addr) in
    let! x := in_tx (t_data bp) in
    let addr := get_u32 (4 * Z.to_nat bn) x in
    (if addr =? 0 then
       let! addr := balloc (i_dev i) in
       let! x := in_tx (t_data bp) in
       in_tx (t_set_data bp (put_u32 (4 * Z.to_nat bn) addr x)) ;!
       in_tx (t_log_write bp) ;!
       in_tx (t_brelse bp) ;!
       ret addr
     else
       in_tx (t_brelse bp) ;!
       ret addr)
  else panic "bmap: out of range".

(** [if(ip->addrs[k]){ bfree(ip->dev, ip->addrs[k]); ip->addrs[k] = 0; }] *)
Definition trunc_addr (ip k : nat) : F unit :=
  let! i := inode_get ip in
  let! a := deref (i_addrs i !! k) in
  if a =? 0 then ret tt else
  bfree (i_dev i) a ;!
  set_addr ip k 0.
(** [if(a[j]) bfree(ip->dev, a[j]);] where [a] is [bp->data] *)
Definition trunc_entry (dev : Z) (bp j : nat) : F unit :=
  let! x := in_tx (t_data bp) in
  let aj := get_u32 (4 * j) x in
  if aj =? 0 then ret tt else bfree dev aj.
(** [if(ip->addrs[NDIRECT]){ ... }] *)
Definition trunc_indirect (ip : nat) : F unit :=
  let! i := inode_get ip in
  let! a := deref (i_addrs i !! Z.to_nat NDIRECT) in
  if a =? 0 then ret tt else
  let! bp := in_tx (t_bread (i_dev i) a) in
  for_all (seq 0 (Z.to_nat NINDIRECT)) (trunc_entry (i_dev i) bp) ;!
  in_tx (t_brelse bp) ;!
  bfree (i_dev i) a ;!
  set_addr ip (Z.to_nat NDIRECT) 0.
Definition itrunc (ip : nat) : F unit :=
  for_all (seq 0 (Z.to_nat NDIRECT)) (trunc_addr ip) ;!
  trunc_indirect ip ;!
  on_inode ip (modify (fun i => i <| i_size := 0 |>)) ;!
  iupdate ip.

Definition iput (ip : nat) : F unit :=
  on_inode ip (zoom i_lock (acquiresleep [])) ;!
  let! i := inode_get ip in
  (if negb (i_valid i =? 0) && (i_nlink i =? 0) then
     in_icache (zoom ic_lock acquire) ;!
     let! i := inode_get ip in
     let r := i_ref i in
     in_icache (zoom ic_lock release) ;!
     (* inode has no links and no other references: truncate and free. *)
     if r =? 1 then
       itrunc ip ;!
       on_inode ip (modify (fun i => i <| i_type := 0 |>)) ;!
       iupdate ip ;!
       on_inode ip (modify (fun i => i <| i_valid := 0 |>))
     else ret tt
   else ret tt) ;!
  on_inode ip (zoom i_lock releasesleep) ;!
  in_icache (zoom ic_lock acquire) ;!
  on_inode ip (modify (fun i => i <| i_ref ::= fun r => s32 (r - 1) |>)) ;!
  in_icache (zoom ic_lock release).

Definition iunlockput (ip : nat) : F unit := iunlock (Some ip) ;! iput ip.

Definition stati (ip : nat) : F stat :=
  let! i := inode_get ip in
  ret (mk_stat (i_dev i) (i_inum i) (i_type i) (i_nlink i) (i_size i)).

(** The loop of readi(): [left] bytes are to read at [off]. *)
Fixpoint readi_loop (fuel : nat) (ip : nat) (off left : Z) : F (list Z) :=
  if 0 <? left then
    match fuel with
    | O => halt NoFuel
    | S fuel' =>
        let! i := inode_get ip in
        let! bno := bmap ip (off / BSIZE) in
        let! bp := in_tx (t_bread (i_dev i) bno) in
        let m := Z.min left (BSIZE - off mod BSIZE) in
        let! x := in_tx (t_data bp) in
        in_tx (t_brelse bp) ;!
        let! rest := readi_loop fuel' ip (u32 (off + m)) (left - m) in
        ret (bytes_at (Z.to_nat (off mod BSIZE)) (Z.to_nat m) x ++ rest)
    end
  else ret [].
Definition readi (ip : nat) (off n : Z) : F (Z * list Z) :=
  let! i := inode_get ip in
  if i_type i =? T_DEV then
    if (i_major i <? 0) || (NDEV <=? i_major i) then ret (-1, [])
    else match dev_read (i_major i) with
         | None => ret (-1, [])
         | Some f => f ip n
         end
  else if (i_size i <? off) || (u32 (off + n) <? off) then ret (-1, [])
  else
    let n := if i_size i <? u32 (off + n) then u32 (i_size i - off) else n in
    let! bytes := readi_loop (Z.to_nat n) ip off n in
    ret (s32 n, bytes).

(** The loop of writei(); [src] are the bytes left. *)
Fixpoint writei_loop (fuel : nat) (ip : nat) (off : Z) (src : list Z) : F Z :=
  match src with
  | [] => ret off
  | _ =>
    match fuel with
    | O => halt NoFuel
    | S fuel' =>
        let! i := inode_get ip in
        let! bno := bmap ip (off / BSIZE) in
        let! bp := in_tx (t_bread (i_dev i) bno) in
        let m := Z.min (Z.of_nat (length src)) (BSIZE - off mod BSIZE) in
        let! x := in_tx (t_data bp) in
        in_tx (t_set_data bp (store (Z.to_nat (off mod BSIZE)) (take (Z.to_nat m) src) x)) ;!
        in_tx (t_log_write bp) ;!
        in_tx (t_brelse bp) ;!
        writei_loop fuel' ip (u32 (off + m)) (drop (Z.to_nat m) src)
    end
  end.
Definition writei (ip : nat) (off : Z) (src : list Z) : F Z :=
  let n := Z.of_nat (length src) in
  let! i := inode_get ip in
  if i_type i =? T_DEV then
    if (i_major i <? 0) || (NDEV <=? i_major i) then ret (-1)
    else match dev_write (i_major i) with
         | None => ret (-1)
         | Some f => f ip src
         end
  else if (i_size i <? off) || (u32 (off + n) <? off) then ret (-1)
  else if MAXFILE * BSIZE <? u32 (off + n) then ret (-1)
  else
    let! off := writei_loop (length src) ip off src in
    let! i := inode_get ip in
    (if (0 <? n) && (i_size i <? off) then
       on_inode ip (modify (fun i => i <| i_size := off |>)) ;!
       iupdate ip
     else ret tt) ;!
    ret (s32 n).

(** *** Directories *)

(** strncmp() and strncpy() on bytes; past its end a string is NULs. *)
Fixpoint strncmp_bytes (n : nat) (p q : list Z) : Z :=
  match n with
  | O => 0
  | S n' =>
      let x := hd 0 p in
      let y := hd 0 q in
      if negb (x =? 0) && (x =? y) then strncmp_bytes n' (tl p) (tl q) else x - y
  end.
Fixpoint strncpy_bytes (n : nat) (s : list Z) : list Z :=
  match n with
  | O => []
  | S n' =>
      match s with
      | [] => replicate n 0
      | x :: s' => if x =? 0 then replicate n 0 else x :: strncpy_bytes n' s'
      end
  end.
Definition namecmp (s t : list Z) : Z := strncmp_bytes DIRSIZ s t.

(** The directory entries of [dp]: offsets 0, 16, ... below its size. *)
Definition dir_offsets (size : Z) : list Z := map (Z.mul 16) (seqZ 0 ((size + 15) / 16)).
Definition read_dirent (dp : nat) (off : Z) (msg : string) : F dirent :=
  let! r := readi dp off 16 in
  let '(n, bytes) := r in
  panic_if (negb (n =? 16)) msg ;!
  ret (dec_dirent bytes).

(** The inode and the offset of the entry. *)
Definition dirlookup (dp : nat) (name : list Z) : F (option (nat * Z)) :=
  let! d := inode_get dp in
  panic_if (negb (i_type d =? T_DIR)) "dirlookup not DIR" ;!
  for_each (dir_offsets (i_size d)) (fun off =>
    let! de := read_dirent dp off "dirlookup read" in
    if de_inum de =? 0 then ret None
    else if namecmp name (de_name de) =? 0 then
      (* entry matches path element *)
      let! ip := iget (i_dev d) (de_inum de) in
      ret (Some (ip, off))
    else ret None).

Definition dirlink (dp : nat) (name : list Z) (inum : Z) : F Z :=
  (* Check that name is not present. *)
  let! r := dirlookup dp name in
  match r with
  | Some (ip, _) => iput ip ;! ret (-1)
  | None =>
      (* Look for an empty dirent. *)
      let! d := inode_get dp in
      let! found := for_each (dir_offsets (i_size d)) (fun off =>
        let! de := read_dirent dp off "dirlink read" in
        if de_inum de =? 0 then ret (Some off) else ret None) in
      let off := match found with
                 | Some off => off
                 | None => 16 * ((i_size d + 15) / 16)
                 end in
      let de := mk_dirent (u16 inum) (strncpy_bytes DIRSIZ name) in
      let! n := writei dp off (enc_dirent de) in
      panic_if (negb (n =? 16)) "dirlink" ;!
      ret 0
  end.

(** *** Paths *)

Definition SLASH : Z := 47.

(** [while( *path == '/') path++] and [while( *path != '/' && *path != 0)]. *)
Fixpoint skip_slashes (path : list Z) : list Z :=
  match path with
  | c :: path' => if c =? SLASH then skip_slashes path' else path
  | [] => []
  end.
Fixpoint split_elem (path : list Z) : list Z * list Z :=
  match path with
  | c :: path' => if c =? SLASH then ([], path) else
                  let '(s, rest) := split_elem path' in (c :: s, rest)
  | [] => ([], [])
  end.

(** A path is its bytes without the final NUL; [name] are the DIRSIZ bytes
    of the buffer.  The rest of the path and the new buffer. *)
Definition skipelem (path name : list Z) : option (list Z * list Z) :=
  match skip_slashes path with
  | [] => None
  | path =>
      let '(s, path) := split_elem path in
      let len := length s in
      let name :=
        if (DIRSIZ <=? len)%nat then take DIRSIZ s
        else s ++ [0] ++ drop (len + 1) name in
      Some (skip_slashes path, name)
  end.

Fixpoint namex_loop (fuel : nat) (ip : nat) (path : list Z) (nameiparent : bool) (name : list Z)
    : F (option nat * list Z) :=
  match skipelem path name with
  | None =>
      if nameiparent then iput ip ;! ret (None, name) else ret (Some ip, name)
  | Some (path', name') =>
      match fuel with
      | O => halt NoFuel
      | S fuel' =>
          ilock (Some ip) ;!
          let! i := inode_get ip in
          if negb (i_type i =? T_DIR) then iunlockput ip ;! ret (None, name')
          else if nameiparent && bool_decide (path' = []) then
            (* Stop one level early. *)
            iunlock (Some ip) ;! ret (Some ip, name')
          else
            let! next := dirlookup ip name' in
            match next with
            | None => iunlockput ip ;! ret (None, name')
            | Some (next, _) =>
                iunlockput ip ;!
                namex_loop fuel' next path' nameiparent name'
            end
      end
  end.

(** [cwd] is [myproc()->cwd]. *)
Definition namex (cwd : option nat) (path : list Z) (nameiparent : bool) (name : list Z)
    : F (option nat * list Z) :=
  let! ip := (match path with
              | c :: _ => if c =? SLASH then iget ROOTDEV ROOTINO
                          else let! d := deref cwd in idup d
              | [] => let! d := deref cwd in idup d
              end) in
  namex_loop (length path) ip path nameiparent name.
Definition namei (cwd : option nat) (path : list Z) : F (option nat) :=
  let! r := namex cwd path false (replicate DIRSIZ 0) in
  ret (fst r).
Definition nameiparent (cwd : option nat) (path name : list Z) : F (option nat * list Z) :=
  namex cwd path true name.
End Code.
