(* ===== verification/FsProofs.v ===== *)
(** * The file system: proofs

    The block allocator, the content of files, directory lookup and path
    elements of [Fs.v], over the transaction interface of [Tx.v]. *)
From S2P Require Import Prelude.
From S2P Require Import Sleeplock.
From S2P Require Import Layout.
From S2P Require Import Bio.
From S2P Require Import Cache.
From S2P Require Import Tx.
From S2P Require Import Log.
From S2P Require Import LogProofs.
From S2P Require Import Lru.
From S2P Require Import BioCache.
From S2P Require Import Fs.

(** ** Bits of the allocation map *)

Lemma mask_bit v bi : (Z.land v (mask bi) =? 0) = negb (Z.testbit v (bi mod 8)).
Proof.
  unfold mask. pose proof (Z.mod_pos_bound bi 8 ltac:(lia)) as Hk. set (k := bi mod 8) in *.
  rewrite Z.shiftl_1_l.
  destruct (Z.testbit v k) eqn:E; cbn [negb].
  - apply Z.eqb_neq. intros E0. apply (f_equal (fun z => Z.testbit z k)) in E0.
    rewrite Z.land_spec, E, Z.pow2_bits_true, Z.bits_0 in E0 by lia. discriminate E0.
  - apply Z.eqb_eq. apply Z.bits_inj. intros j. rewrite Z.land_spec, Z.bits_0.
    destruct (decide (j = k)) as [->|Hj]; [rewrite E; reflexivity|].
    rewrite Z.pow2_bits_false by congruence. apply andb_false_r.
Qed.

(** Whether the bit for block [b] is set. *)
Definition used (f : Z -> block) (sb : superblock) (b : Z) : bool :=
  Z.testbit (bit_byte (f (BBLOCK b sb)) (b mod BPB)) (b mod 8).

Lemma mod_mod_8 b : b mod BPB mod 8 = b mod 8.
Proof.
  unfold BPB. apply Z.mod_mod_divide. exists 512. reflexivity.
Qed.
Lemma used_bit f sb b :
  (Z.land (bit_byte (f (BBLOCK b sb)) (b mod BPB)) (mask (b mod BPB)) =? 0) = negb (used f sb b).
Proof.
  rewrite mask_bit. unfold used. rewrite mod_mod_8. reflexivity.
Qed.

(** Setting or clearing the bit of [b]. *)
Lemma bit_byte_insert x bi bj v : length x = 512%nat -> 0 <= bi < 4096 -> 0 <= bj ->
  bit_byte (<[Z.to_nat (bi / 8) := v]> x) bj = if bj / 8 =? bi / 8 then v else bit_byte x bj.
Proof.
  intros Hx Hi Hj. unfold bit_byte. rewrite !nth_lookup.
  assert (0 <= bi / 8 < 512) by (split; [apply Z.div_pos; lia | apply Z.div_lt_upper_bound; lia]).
  assert (0 <= bj / 8) by (apply Z.div_pos; lia).
  destruct (Z.eqb_spec (bj / 8) (bi / 8)) as [->|Hne].
  - rewrite list_lookup_insert_eq by lia. reflexivity.
  - rewrite list_lookup_insert_ne by lia. reflexivity.
Qed.

(** The block with the bit of [b] changed by [op] (or, and-not). *)
Definition set_bit (f : Z -> block) (sb : superblock) (b : Z) (op : Z -> Z -> Z) : block :=
  let bi := b mod BPB in
  <[Z.to_nat (bi / 8) := op (bit_byte (f (BBLOCK b sb)) bi) (mask bi)]> (f (BBLOCK b sb)).

(** The map blocks of two blocks are the same block or different ones. *)
Lemma BBLOCK_eq b c sb : 0 <= b < 2 ^ 31 -> 0 <= c < 2 ^ 31 -> 0 <= sb_bmapstart sb < 2 ^ 31 ->
  BBLOCK b sb = BBLOCK c sb -> b / BPB = c / BPB.
Proof.
  intros Hb Hc Hs. unfold BBLOCK, u32, BPB.
  assert (0 <= b / 4096 < 2 ^ 31) by (split; [apply Z.div_pos; lia | apply Z.div_lt_upper_bound; lia]).
  assert (0 <= c / 4096 < 2 ^ 31) by (split; [apply Z.div_pos; lia | apply Z.div_lt_upper_bound; lia]).
  rewrite !Z.mod_small by lia. lia.
Qed.

Lemma used_set_bit f sb b c op (v : bool) : 0 <= b < 2 ^ 31 -> 0 <= c < 2 ^ 31 ->
  0 <= sb_bmapstart sb < 2 ^ 31 -> length (f (BBLOCK b sb)) = 512%nat ->
  (forall x k j, 0 <= k -> 0 <= j -> Z.testbit (op x (Z.shiftl 1 k)) j = if j =? k then v else Z.testbit x j) ->
  used (upd_content f (BBLOCK b sb) (set_bit f sb b op)) sb c = if c =? b then v else used f sb c.
Proof.
  intros Hb Hc Hsb Hlen Hop. unfold used, upd_content.
  pose proof (Z.mod_pos_bound b BPB ltac:(unfold BPB; lia)) as Hbi.
  pose proof (Z.mod_pos_bound c BPB ltac:(unfold BPB; lia)) as Hci.
  pose proof (Z.mod_pos_bound b 8 ltac:(lia)). pose proof (Z.mod_pos_bound c 8 ltac:(lia)).
  destruct (Z.eqb_spec (BBLOCK c sb) (BBLOCK b sb)) as [E|E].
  - pose proof (BBLOCK_eq c b sb Hc Hb Hsb E) as Eq. unfold set_bit.
    rewrite bit_byte_insert by (unfold BPB in *; auto; lia). unfold mask. rewrite mod_mod_8.
    pose proof (mod_mod_8 b) as E1. pose proof (mod_mod_8 c) as E2.
    pose proof (Z.div_mod b BPB ltac:(unfold BPB; lia)) as D1. pose proof (Z.div_mod c BPB ltac:(unfold BPB; lia)) as D2.
    pose proof (Z.div_mod (b mod BPB) 8 ltac:(lia)) as D3. pose proof (Z.div_mod (c mod BPB) 8 ltac:(lia)) as D4.
    destruct (Z.eqb_spec (c mod BPB / 8) (b mod BPB / 8)) as [E8|E8].
    + rewrite Hop by lia. rewrite E. destruct (Z.eqb_spec (c mod 8) (b mod 8)) as [E9|E9].
      * rewrite (proj2 (Z.eqb_eq c b)) by lia. reflexivity.
      * rewrite (proj2 (Z.eqb_neq c b)) by congruence.
        unfold bit_byte. rewrite E8. reflexivity.
    + rewrite (proj2 (Z.eqb_neq c b)) by congruence. rewrite E. reflexivity.
  - rewrite (proj2 (Z.eqb_neq c b)) by congruence. reflexivity.
Qed.
Lemma lor_bit x k j : 0 <= k -> 0 <= j ->
  Z.testbit (Z.lor x (Z.shiftl 1 k)) j = if j =? k then true else Z.testbit x j.
Proof.
  intros Hk Hj. rewrite Z.lor_spec, Z.shiftl_1_l, Z.pow2_bits_eqb by lia. rewrite (Z.eqb_sym k j).
  destruct (j =? k); [apply orb_true_r | apply orb_false_r].
Qed.
Lemma ldiff_bit x k j : 0 <= k -> 0 <= j ->
  Z.testbit (Z.ldiff x (Z.shiftl 1 k)) j = if j =? k then false else Z.testbit x j.
Proof.
  intros Hk Hj. rewrite Z.ldiff_spec, Z.shiftl_1_l, Z.pow2_bits_eqb by lia. rewrite (Z.eqb_sym k j).
  destruct (j =? k); [apply andb_false_r | apply andb_true_r].
Qed.

(** One scan of a map block. *)
Lemma find_free_spec x b size : forall n bi,
  match find_free n x b size bi with
  | Some k => bi <= k < bi + Z.of_nat n /\ b + k < size /\ (Z.land (bit_byte x k) (mask k) =? 0) = true /\
      forall j, bi <= j < k -> (Z.land (bit_byte x j) (mask j) =? 0) = false
  | None => forall j, bi <= j < bi + Z.of_nat n -> b + j < size ->
      (Z.land (bit_byte x j) (mask j) =? 0) = false
  end.
Proof.
  induction n as [|n IH]; intros bi; cbn [find_free].
  - intros j Hj. lia.
  - destruct (Z.ltb_spec (b + bi) size) as [Hlt|Hge]; [|intros j Hj1 Hj2; lia].
    destruct (Z.land (bit_byte x bi) (mask bi) =? 0) eqn:E.
    + split; [lia|]. split; [exact Hlt|]. split; [exact E|]. intros j Hj. lia.
    + specialize (IH (bi + 1)). destruct (find_free n x b size (bi + 1)) as [k|].
      * destruct IH as (H1 & H2 & H3 & H4). split; [lia|]. split; [exact H2|]. split; [exact H3|].
        intros j Hj. destruct (decide (j = bi)) as [->|Hne]; [exact E | apply H4; lia].
      * intros j Hj1 Hj2. destruct (decide (j = bi)) as [->|Hne]; [exact E | apply IH; lia].
Qed.

Section Proofs.
Context `{Ctx} {T : Type} `{TxLaws T} `{Devsw (fstate T)}.
Implicit Types (t : T) (g : frame) (f : Z -> block) (L : gset Z) (h : gmap nat Z) (ic : icache).

Lemma in_tx_ret {A} (m : M T A) t sb ic a t' :
  m t = Ret a t' -> in_tx m (mk_fs t sb ic) = Ret a (mk_fs t' sb ic).
Proof. intros E. unfold in_tx, zoom, set_field. cbn. rewrite E. reflexivity. Qed.

(** ** The block allocator *)

(** The map describes the blocks of the disk; its own blocks are in use. *)
Record bitmap_ok g f (sb : superblock) : Prop := {
  bm_size : 0 <= sb_size sb <= fr_size g;
  bm_small : fr_size g < 2 ^ 31;
  bm_start : 0 <= sb_bmapstart sb < 2 ^ 31;
  bm_map : forall b, 0 <= b < sb_size sb -> 0 <= BBLOCK b sb < fr_size g /\ fr_home g (BBLOCK b sb);
  bm_home : forall b, 0 <= b < sb_size sb -> used f sb b = false -> fr_home g b;
  bm_self : forall b c, 0 <= b < sb_size sb -> 0 <= c < sb_size sb -> used f sb b = false ->
    b <> BBLOCK c sb }.

(** No buffer that the allocator touches is held. *)
Definition free_hands f (sb : superblock) h : Prop :=
  forall b, 0 <= b < sb_size sb -> unheld h (BBLOCK b sb) /\ (used f sb b = false -> unheld h b).

Definition first_free f (sb : superblock) (b : Z) : Prop :=
  0 <= b < sb_size sb /\ used f sb b = false /\ forall c, 0 <= c < b -> used f sb c = true.

(** The blocks after balloc() has returned [b]. *)
Definition allocated f sb (b : Z) : Z -> block :=
  upd_content (upd_content f (BBLOCK b sb) (set_bit f sb b Z.lor)) b (replicate (Z.to_nat BSIZE) 0).

Lemma BBLOCK_add q bi sb : 0 <= bi < BPB -> BBLOCK (BPB * q + bi) sb = BBLOCK (BPB * q) sb.
Proof.
  intros Hbi. unfold BBLOCK, BPB in *.
  rewrite (Z.mul_comm 4096), Z.div_add_l, Z.div_small, Z.div_mul, Z.add_0_r by lia. reflexivity.
Qed.
Lemma mod_add q bi : 0 <= bi < BPB -> (BPB * q + bi) mod BPB = bi.
Proof. unfold BPB. intros. rewrite Z.mul_comm, Z.add_comm, Z.mod_add by lia. apply Z.mod_small. lia. Qed.

(** The scan of one map block finds the first free block of its range. *)
Lemma find_free_used f sb q : 0 <= q ->
  match find_free (Z.to_nat BPB) (f (BBLOCK (BPB * q) sb)) (BPB * q) (sb_size sb) 0 with
  | Some k => 0 <= k < BPB /\ BPB * q + k < sb_size sb /\ used f sb (BPB * q + k) = false /\
      forall b, BPB * q <= b < BPB * q + k -> used f sb b = true
  | None => forall b, BPB * q <= b < BPB * q + BPB -> b < sb_size sb -> used f sb b = true
  end.
Proof.
  intros Hq. pose proof (find_free_spec (f (BBLOCK (BPB * q) sb)) (BPB * q) (sb_size sb) (Z.to_nat BPB) 0) as HS.
  assert (Hbit : forall j, 0 <= j < BPB ->
    (Z.land (bit_byte (f (BBLOCK (BPB * q) sb)) j) (mask j) =? 0) = negb (used f sb (BPB * q + j))).
  { intros j Hj. rewrite <- used_bit, BBLOCK_add, mod_add by exact Hj. reflexivity. }
  assert (Hused : forall b, BPB * q <= b < BPB * q + BPB ->
    (Z.land (bit_byte (f (BBLOCK (BPB * q) sb)) (b - BPB * q)) (mask (b - BPB * q)) =? 0) = false -> used f sb b = true).
  { intros b Hb E. rewrite Hbit in E by lia. apply negb_false_iff in E.
    replace (BPB * q + (b - BPB * q)) with b in E by lia. exact E. }
  destruct (find_free _ _ _ _ _) as [k|].
  - destruct HS as (H1' & H2' & H3' & H4'). assert (Hk : 0 <= k < BPB) by (unfold BPB in *; lia).
    split; [exact Hk|]. split; [exact H2'|]. split.
    + rewrite Hbit in H3' by exact Hk. apply negb_true_iff in H3'. exact H3'.
    + intros b Hb. apply Hused; [lia|]. apply H4'. lia.
  - intros b Hb1 Hb2. apply Hused; [exact Hb1|]. apply HS; [unfold BPB in *; lia | lia].
Qed.

Lemma bzero_eq t g f L h sb ic b : tx_is t g f L h -> 0 <= b < fr_size g -> unheld h b -> fr_home g b ->
  (size L + size h < NBUF)%nat -> (size L < fr_cap g)%nat ->
  exists t', bzero ROOTDEV b (mk_fs t sb ic) = Ret tt (mk_fs t' sb ic) /\
    tx_is t' g (upd_content f b (replicate (Z.to_nat BSIZE) 0)) (L ∪ {[b]}) h.
Proof.
  intros Ht Hb Hh Hhome Hsz Hcap.
  destruct (tx_open_write t g f L h b (replicate (Z.to_nat BSIZE) 0) Ht Hb Hh Hsz Hhome Hcap)
    as (i & t1 & t2 & t3 & t4 & E1 & _ & E2 & E3 & E4 & Ht4); [reflexivity|].
  exists t4. split; [|exact Ht4]. unfold bzero. step by (apply in_tx_ret, E1).
  step by (apply in_tx_ret, E2). step by (apply in_tx_ret, E3). apply in_tx_ret, E4.
Qed.

Section Alloc.
Variables (g : frame) (f : Z -> block) (sb : superblock).
Hypothesis Hbm : bitmap_ok g f sb.

Lemma try_full t L h ic q : tx_is t g f L h -> free_hands f sb h -> (size L + size h < NBUF)%nat ->
  0 <= q -> BPB * q < sb_size sb ->
  (forall b, BPB * q <= b < BPB * q + BPB -> b < sb_size sb -> used f sb b = true) ->
  exists t', balloc_try ROOTDEV (BPB * q) (mk_fs t sb ic) = Ret None (mk_fs t' sb ic) /\ tx_is t' g f L h.
Proof.
  intros Ht Hhands Hsz Hq Hqs Hfull. assert (Hb : 0 <= BPB * q < sb_size sb) by (unfold BPB in *; lia).
  destruct (tx_open_read t g f L h (BBLOCK (BPB * q) sb) Ht (proj1 (bm_map _ _ _ Hbm _ Hb))
    (proj1 (Hhands _ Hb)) Hsz) as (i & t1 & t2 & E1 & E2 & E3 & Ht2).
  exists t2. split; [|exact Ht2]. unfold balloc_try. step by reflexivity.
  step by (apply in_tx_ret, E1). step by (apply in_tx_ret, E2).
  pose proof (find_free_used f sb q Hq) as HF. cbn [fs_sb].
  destruct (find_free _ _ _ _ _) as [k|].
  - destruct HF as (Hk & Hks & Hu & _). rewrite Hfull in Hu by lia. discriminate Hu.
  - step by (apply in_tx_ret, E3). reflexivity.
Qed.

Lemma try_free t L h ic q b : tx_is t g f L h -> free_hands f sb h ->
  (size L + size h + 1 < NBUF)%nat -> (size L + 1 < fr_cap g)%nat ->
  first_free f sb b -> q = b / BPB ->
  exists t', balloc_try ROOTDEV (BPB * q) (mk_fs t sb ic) = Ret (Some b) (mk_fs t' sb ic) /\
    tx_is t' g (allocated f sb b) (L ∪ {[BBLOCK b sb]} ∪ {[b]}) h.
Proof.
  intros Ht Hhands Hsz Hcap (Hb & Hfree & Hfirst) Hq.
  assert (Hq0 : 0 <= q) by (subst q; apply Z.div_pos; [lia | reflexivity]).
  assert (Hdiv : b = BPB * q + b mod BPB) by (subst q; apply Z.div_mod; discriminate).
  pose proof (Z.mod_pos_bound b BPB ltac:(reflexivity)) as Hmod. set (k := b mod BPB) in *.
  assert (EB : BBLOCK (BPB * q) sb = BBLOCK b sb) by (rewrite Hdiv, BBLOCK_add by exact Hmod; reflexivity).
  pose proof (bm_map _ _ _ Hbm _ Hb) as [HB Hhome]. destruct (Hhands b Hb) as [HhB Hhb].
  assert (Hlen : length (f (BBLOCK b sb)) = 512%nat) by (eapply tx_length; eassumption).
  destruct (tx_open_write t g f L h (BBLOCK b sb) (set_bit f sb b Z.lor) Ht HB HhB ltac:(lia) Hhome ltac:(lia))
    as (i & t1 & t2 & t3 & t4 & E1 & E2 & E3 & E4 & E5 & Ht4).
  { unfold set_bit. rewrite length_insert. exact Hlen. }
  pose proof (size_with L (BBLOCK b sb)) as Hadd.
  destruct (bzero_eq t4 g _ _ h sb ic b Ht4 ltac:(pose proof (bm_size _ _ _ Hbm); lia) (Hhb Hfree)
    (bm_home _ _ _ Hbm b Hb Hfree) ltac:(lia) ltac:(lia)) as (t5 & E6 & Ht5).
  exists t5. split; [|exact Ht5]. unfold balloc_try. step by reflexivity. cbn [fs_sb].
  rewrite EB. step by (apply in_tx_ret, E1). step by (apply in_tx_ret, E2).
  pose proof (find_free_used f sb q Hq0) as HF. rewrite EB in HF.
  destruct (find_free _ _ _ _ _) as [k'|].
  - destruct HF as (Hk & Hks & Hu & Hbefore). assert (k' = k) as ->.
    { destruct (Z.lt_trichotomy k' k) as [Hlt|[->|Hgt]]; [|reflexivity|].
      - rewrite Hfirst in Hu by (unfold BPB in *; lia). discriminate Hu.
      - rewrite Hbefore in Hfree by lia. discriminate Hfree. }
    fold k. unfold set_bit in E3. fold k in E3. step by (apply in_tx_ret, E3).
    step by (apply in_tx_ret, E4). step by (apply in_tx_ret, E5).
    rewrite <- Hdiv. step by exact E6. reflexivity.
  - rewrite HF in Hfree by lia. discriminate Hfree.
Qed.

Lemma skip_full t L h ic n : tx_is t g f L h -> free_hands f sb h -> (size L + size h < NBUF)%nat ->
  0 <= n -> BPB * (n - 1) < sb_size sb ->
  (forall b, 0 <= b < BPB * n -> b < sb_size sb -> used f sb b = true) -> forall l,
  exists t', for_each (map (Z.mul BPB) (seqZ 0 n) ++ l) (balloc_try ROOTDEV) (mk_fs t sb ic) =
    for_each l (balloc_try ROOTDEV) (mk_fs t' sb ic) /\ tx_is t' g f L h.
Proof.
  intros Ht Hhands Hsz Hn Hlast Hfull l.
  destruct (for_each_skip (fun s => exists t', s = mk_fs t' sb ic /\ tx_is t' g f L h)
    (balloc_try ROOTDEV) (map (Z.mul BPB) (seqZ 0 n)) l (mk_fs t sb ic)) as (s' & E & t' & -> & Ht').
  - exists t. auto.
  - intros x s1 Hx (t1 & -> & Ht1). change (map (Z.mul BPB) (seqZ 0 n)) with (Z.mul BPB <$> seqZ 0 n) in Hx.
    apply list_elem_of_fmap in Hx as (q & -> & Hq). apply elem_of_seqZ in Hq.
    destruct (try_full t1 L h ic q Ht1 Hhands Hsz) as (t2 & E2 & Ht2); [lia | unfold BPB in *; lia | |].
    + intros b Hb Hbs. apply Hfull; [unfold BPB in *; lia | exact Hbs].
    + exists (mk_fs t2 sb ic). eauto.
  - exists t'. auto.
Qed.

Lemma balloc_eq t L h ic b : tx_is t g f L h -> free_hands f sb h ->
  (size L + size h + 1 < NBUF)%nat -> (size L + 1 < fr_cap g)%nat -> first_free f sb b ->
  exists t', balloc ROOTDEV (mk_fs t sb ic) = Ret b (mk_fs t' sb ic) /\
    tx_is t' g (allocated f sb b) (L ∪ {[BBLOCK b sb]} ∪ {[b]}) h.
Proof.
  intros Ht Hhands Hsz Hcap Hfirst. pose proof Hfirst as (Hb & _ & Hused).
  set (q := b / BPB). set (n := (sb_size sb + BPB - 1) / BPB).
  assert (Hq : 0 <= q /\ q < n /\ BPB * q <= b).
  { unfold q, n, BPB. clear -Hb. split; [|split]; dlia. }
  assert (El : seqZ 0 n = seqZ 0 q ++ q :: seqZ (q + 1) (n - q - 1)).
  { replace n with (q + (n - q)) at 1 by lia. rewrite seqZ_app, (seqZ_cons (0 + q)) by lia.
    unfold Z.succ, Z.pred. rewrite Z.add_0_l. do 2 f_equal. }
  unfold balloc. step by reflexivity. cbn [fs_sb]. fold n.
  change (map (Z.mul BPB)) with (fmap (M := list) (Z.mul BPB)). rewrite El, fmap_app, fmap_cons.
  destruct (skip_full t L h ic q Ht Hhands ltac:(lia) ltac:(lia) ltac:(unfold BPB in *; lia)
    ltac:(intros c Hc _; apply Hused; lia) ((BPB * q) :: (Z.mul BPB <$> seqZ (q + 1) (n - q - 1))))
    as (t1 & E1 & Ht1).
  change (map (Z.mul BPB)) with (fmap (M := list) (Z.mul BPB)) in E1.
  destruct (try_free t1 L h ic q b Ht1 Hhands Hsz Hcap Hfirst eq_refl) as (t2 & E2 & Ht2).
  exists t2. split; [|exact Ht2].
  erewrite bind_eq; [|rewrite E1; cbn [for_each]; rewrite (bind_eq _ _ _ _ _ E2); reflexivity].
  reflexivity.
Qed.

Lemma balloc_full t L h ic : tx_is t g f L h -> free_hands f sb h -> (size L + size h < NBUF)%nat ->
  (forall b, 0 <= b < sb_size sb -> used f sb b = true) ->
  exists t', balloc ROOTDEV (mk_fs t sb ic) = Stop (Panicked "balloc: out of blocks") (mk_fs t' sb ic).
Proof.
  intros Ht Hhands Hsz Hfull. set (n := (sb_size sb + BPB - 1) / BPB). pose proof (proj1 (bm_size _ _ _ Hbm)) as H4.
  destruct (skip_full t L h ic n Ht Hhands Hsz) with (l := @nil Z) as (t' & E & Ht').
  - unfold n, BPB. clear -H4. dlia.
  - unfold n, BPB. clear -H4. dlia.
  - intros b Hb Hbs. apply Hfull. lia.
  - exists t'. unfold balloc. step by reflexivity. cbn [fs_sb]. fold n. rewrite app_nil_r in E.
    step by exact E. reflexivity.
Qed.

Lemma bfree_eq t L h ic b : tx_is t g f L h -> 0 <= b < sb_size sb -> unheld h (BBLOCK b sb) ->
  (size L + size h < NBUF)%nat -> (size L < fr_cap g)%nat -> used f sb b = true ->
  exists t', bfree ROOTDEV b (mk_fs t sb ic) = Ret tt (mk_fs t' sb ic) /\
    tx_is t' g (upd_content f (BBLOCK b sb) (set_bit f sb b Z.ldiff)) (L ∪ {[BBLOCK b sb]}) h.
Proof.
  intros Ht Hb Hh Hsz Hcap Hu. destruct (bm_map _ _ _ Hbm _ Hb) as [HB Hhome].
  assert (Hlen : length (f (BBLOCK b sb)) = 512%nat) by (eapply tx_length; eassumption).
  destruct (tx_open_write t g f L h (BBLOCK b sb) (set_bit f sb b Z.ldiff) Ht HB Hh Hsz Hhome Hcap)
    as (i & t1 & t2 & t3 & t4 & E1 & E2 & E3 & E4 & E5 & Ht4).
  { unfold set_bit. rewrite length_insert. exact Hlen. }
  exists t4. split; [|exact Ht4]. unfold bfree. step by reflexivity. cbn [fs_sb].
  step by (apply in_tx_ret, E1). step by (apply in_tx_ret, E2).
  step by (apply panic_if_false; rewrite used_bit, Hu; reflexivity).
  step by (apply in_tx_ret, E3). step by (apply in_tx_ret, E4). apply in_tx_ret, E5.
Qed.
Lemma bfree_panic t L h ic b : tx_is t g f L h -> 0 <= b < sb_size sb -> unheld h (BBLOCK b sb) ->
  (size L + size h < NBUF)%nat -> used f sb b = false ->
  exists t', bfree ROOTDEV b (mk_fs t sb ic) = Stop (Panicked "freeing free block") (mk_fs t' sb ic).
Proof.
  intros Ht Hb Hh Hsz Hu. destruct (bm_map _ _ _ Hbm _ Hb) as [HB Hhome].
  destruct (tx_open_read t g f L h (BBLOCK b sb) Ht HB Hh Hsz) as (i & t1 & t2 & E1 & E2 & _ & _).
  exists t1. unfold bfree. step by reflexivity. cbn [fs_sb].
  step by (apply in_tx_ret, E1). step by (apply in_tx_ret, E2). rewrite used_bit, Hu. reflexivity.
Qed.

(** The map after an allocation. *)
Lemma used_allocated b c : first_free f sb b -> 0 <= c < sb_size sb -> length (f (BBLOCK b sb)) = 512%nat ->
  used (allocated f sb b) sb c = (c =? b) || used f sb c.
Proof.
  intros (Hb & Hfree & _) Hc Hlen. pose proof (bm_size _ _ _ Hbm). pose proof (bm_small _ _ _ Hbm).
  pose proof (bm_start _ _ _ Hbm).
  assert (E : used (allocated f sb b) sb c = used (upd_content f (BBLOCK b sb) (set_bit f sb b Z.lor)) sb c).
  { unfold used, allocated, upd_content at 1.
    rewrite (proj2 (Z.eqb_neq (BBLOCK c sb) b)); [reflexivity|].
    intros E. symmetry in E. exact (bm_self _ _ _ Hbm b c Hb Hc Hfree E). }
  rewrite E, (used_set_bit f sb b c Z.lor true); [|lia|lia|lia|exact Hlen|].
  - destruct (c =? b); reflexivity.
  - intros. apply lor_bit; assumption.
Qed.
End Alloc.

(** balloc() returns the first block that is free in the map, marks
    exactly that block, fills it with zeros and changes no other block but
    that of the map; when no block is free it panics. *)
Theorem balloc_spec g f sb t L h ic (Hbm : bitmap_ok g f sb) (Ht : tx_is t g f L h)
    (Hhands : free_hands f sb h) (Hsz : (size L + size h + 1 < NBUF)%nat)
    (Hcap : (size L + 1 < fr_cap g)%nat) :
  (forall b, first_free f sb b ->
    exists t' f', balloc ROOTDEV (mk_fs t sb ic) = Ret b (mk_fs t' sb ic) /\
      tx_is t' g f' (L ∪ {[BBLOCK b sb]} ∪ {[b]}) h /\
      (forall c, 0 <= c < sb_size sb -> used f' sb c = (c =? b) || used f sb c) /\
      f' b = replicate 512 0 /\ forall n, n <> b -> n <> BBLOCK b sb -> f' n = f n) /\
  ((forall b, 0 <= b < sb_size sb -> used f sb b = true) ->
    exists t', balloc ROOTDEV (mk_fs t sb ic) = Stop (Panicked "balloc: out of blocks") (mk_fs t' sb ic)).
Proof.
  split.
  - intros b Hb. destruct (balloc_eq g f sb Hbm t L h ic b Ht Hhands Hsz Hcap Hb) as (t' & E & Ht').
    exists t', (allocated f sb b). split; [exact E|]. split; [exact Ht'|]. split; [|split].
    + intros c Hc. apply (used_allocated g f sb Hbm b c Hb Hc). eapply tx_length; [exact Ht|].
      apply (bm_map _ _ _ Hbm), Hb.
    + unfold allocated, upd_content. rewrite Z.eqb_refl. reflexivity.
    + intros n H1' H2'. unfold allocated, upd_content.
      rewrite (proj2 (Z.eqb_neq n b)), (proj2 (Z.eqb_neq n _)) by assumption. reflexivity.
  - intros Hfull. apply (balloc_full g f sb Hbm t L h ic Ht Hhands); [lia | exact Hfull].
Qed.

(** bfree() clears exactly the bit of the block and changes nothing
    else; freeing a free block panics. *)
Theorem bfree_spec g f sb t L h ic b (Hbm : bitmap_ok g f sb) (Ht : tx_is t g f L h)
    (Hb : 0 <= b < sb_size sb) (Hh : unheld h (BBLOCK b sb))
    (Hsz : (size L + size h < NBUF)%nat) (Hcap : (size L < fr_cap g)%nat) :
  if used f sb b then
    exists t' f', bfree ROOTDEV b (mk_fs t sb ic) = Ret tt (mk_fs t' sb ic) /\
      tx_is t' g f' (L ∪ {[BBLOCK b sb]}) h /\
      (forall c, 0 <= c < sb_size sb -> used f' sb c = negb (c =? b) && used f sb c) /\
      forall n, n <> BBLOCK b sb -> f' n = f n
  else
    exists t', bfree ROOTDEV b (mk_fs t sb ic) = Stop (Panicked "freeing free block") (mk_fs t' sb ic).
Proof.
  destruct (used f sb b) eqn:Hu; [|apply (bfree_panic g f sb Hbm t L h ic b); assumption].
  destruct (bfree_eq g f sb Hbm t L h ic b Ht Hb Hh Hsz Hcap Hu) as (t' & E & Ht').
  eexists t', _. split; [exact E|]. split; [exact Ht'|]. split.
  - intros c Hc. pose proof (bm_size _ _ _ Hbm). pose proof (bm_small _ _ _ Hbm). pose proof (bm_start _ _ _ Hbm).
    rewrite (used_set_bit f sb b c Z.ldiff false); [|lia|lia|lia| |].
    + destruct (c =? b); reflexivity.
    + eapply tx_length; [exact Ht | apply (bm_map _ _ _ Hbm), Hb].
    + intros. apply ldiff_bit; assumption.
  - intros n Hn. unfold upd_content. rewrite (proj2 (Z.eqb_neq n _)) by exact Hn. reflexivity.
Qed.

(** ** The content of a file *)

(** The disk block that holds block [bn] of the inode. *)
Definition block_of f (i : inode) (bn : Z) : Z :=
  if bn <? NDIRECT then nth (Z.to_nat bn) (i_addrs i) 0
  else get_u32 (4 * Z.to_nat (bn - NDIRECT)) (f (nth 12 (i_addrs i) 0)).
Definition indirect (i : inode) : Z := nth 12 (i_addrs i) 0.

(** A file of the root device whose blocks are all there. *)
Record file_ok g f (i : inode) : Prop := {
  fi_dev : i_dev i = ROOTDEV;
  fi_type : i_type i <> T_DEV;
  fi_addrs : length (i_addrs i) = 13%nat;
  fi_size : 0 <= i_size i <= MAXFILE * BSIZE;
  fi_block : forall bn, 0 <= bn -> bn * BSIZE < i_size i ->
    block_of f i bn <> 0 /\ 0 <= block_of f i bn < fr_size g;
  fi_indirect : NDIRECT * BSIZE < i_size i -> indirect i <> 0 /\ 0 <= indirect i < fr_size g }.

Definition file_byte f (i : inode) (k : Z) : Z :=
  nth (Z.to_nat (k mod BSIZE)) (f (block_of f i (k / BSIZE))) 0.
Definition file_bytes f (i : inode) (off n : Z) : list Z := map (file_byte f i) (seqZ off n).

Lemma inode_get_eq t sb ic ip i : ic_inode ic !! ip = Some i ->
  inode_get ip (mk_fs t sb ic) = Ret i (mk_fs t sb ic).
Proof.
  intros E. unfold inode_get, on_inode, in_icache, zoom, elt, get, set_field. cbn. rewrite E. cbn.
  rewrite list_insert_id by exact E. destruct ic. reflexivity.
Qed.

Section File.
Variables (g : frame) (sb : superblock) (ic : icache) (ip : nat) (i : inode).
Hypothesis Hip : ic_inode ic !! ip = Some i.

Lemma addr_alloc_eq t n a : i_addrs i !! n = Some a -> a <> 0 ->
  addr_alloc ip n (mk_fs t sb ic) = Ret a (mk_fs t sb ic).
Proof.
  intros E Ha. unfold addr_alloc. step by (apply inode_get_eq, Hip). rewrite E. step by reflexivity.
  rewrite (proj2 (Z.eqb_neq a 0)) by exact Ha. reflexivity.
Qed.
Lemma addr_lookup n : length (i_addrs i) = 13%nat -> (n < 13)%nat -> i_addrs i !! n = Some (nth n (i_addrs i) 0).
Proof.
  intros Hl Hn. destruct (lookup_lt_is_Some_2 (i_addrs i) n) as [a E]; [rewrite Hl; exact Hn|].
  rewrite E. f_equal. symmetry. apply nth_lookup_Some, E.
Qed.

(** bmap() of a block that is there reads at most the indirect block. *)
Lemma bmap_there t f L h bn : i_dev i = ROOTDEV -> length (i_addrs i) = 13%nat -> tx_is t g f L h ->
  (size L + size h < NBUF)%nat -> (forall n, unheld h n) -> 0 <= bn < MAXFILE -> block_of f i bn <> 0 ->
  (NDIRECT <= bn -> indirect i <> 0 /\ 0 <= indirect i < fr_size g) ->
  exists t', bmap ip bn (mk_fs t sb ic) = Ret (block_of f i bn) (mk_fs t' sb ic) /\ tx_is t' g f L h.
Proof.
  intros Hdev Hlen Ht Hsz Hh Hbn Hb0 Hi. unfold bmap, block_of in *.
  destruct (Z.ltb_spec bn NDIRECT) as [Hd|Hd].
  - exists t. split; [|exact Ht]. apply addr_alloc_eq; [|exact Hb0].
    apply addr_lookup; [exact Hlen | unfold NDIRECT in *; lia].
  - destruct (Hi Hd) as [Hi0 Hir]. unfold NDIRECT, NINDIRECT, MAXFILE, indirect in *.
    rewrite (proj2 (Z.ltb_lt (bn - 12) 128)) by lia.
    step by (apply addr_alloc_eq; [apply addr_lookup; [exact Hlen | cbn; lia] | exact Hi0]).
    step by (apply inode_get_eq, Hip). rewrite Hdev.
    destruct (tx_open_read t g f L h (nth 12 (i_addrs i) 0) Ht Hir (Hh _) Hsz) as (b & t1 & t2 & E1 & E2 & E3 & Ht2).
    step by (apply in_tx_ret, E1). step by (apply in_tx_ret, E2).
    rewrite (proj2 (Z.eqb_neq (get_u32 _ _) 0)) by exact Hb0. step by (apply in_tx_ret, E3).
    exists t2. split; [reflexivity | exact Ht2].
Qed.
Lemma bmap_eq t f L h bn : file_ok g f i -> tx_is t g f L h -> (size L + size h < NBUF)%nat ->
  (forall n, unheld h n) -> 0 <= bn -> bn * BSIZE < i_size i ->
  exists t', bmap ip bn (mk_fs t sb ic) = Ret (block_of f i bn) (mk_fs t' sb ic) /\ tx_is t' g f L h.
Proof.
  intros Hf Ht Hsz Hh Hbn Hlt. pose proof (fi_size _ _ _ Hf) as Hsize. unfold MAXFILE, BSIZE in *.
  apply bmap_there; try assumption; try apply Hf; unfold MAXFILE, NDIRECT, BSIZE; try assumption; try lia.
  intros Hd. apply (fi_indirect _ _ _ Hf). unfold NDIRECT, BSIZE. lia.
Qed.

(** The part of a block that holds bytes [off .. off + m) of the file. *)
Lemma bytes_in_block f off m : length (f (block_of f i (off / BSIZE))) = 512%nat -> 0 <= off -> 0 <= m ->
  off mod BSIZE + m <= BSIZE ->
  bytes_at (Z.to_nat (off mod BSIZE)) (Z.to_nat m) (f (block_of f i (off / BSIZE))) = file_bytes f i off m.
Proof.
  intros Hlen Hoff Hm Hfit. unfold BSIZE in *. pose proof (Z.mod_pos_bound off 512 ltac:(lia)) as Hmod.
  apply list_eq. intros k. rewrite lookup_bytes_at. unfold file_bytes.
  change (map (file_byte f i)) with (fmap (M := list) (file_byte f i)). rewrite list_lookup_fmap.
  destruct (decide (k < Z.to_nat m)%nat) as [Hk|Hk].
  - rewrite lookup_seqZ_lt by lia. cbn [fmap option_fmap option_map]. unfold file_byte, BSIZE.
    assert (Ed : (off + Z.of_nat k) / 512 = off / 512 /\ (off + Z.of_nat k) mod 512 = off mod 512 + Z.of_nat k)
      by (clear -Hmod Hk Hfit; split; dlia).
    destruct Ed as [-> ->]. rewrite Z2Nat.inj_add, Nat2Z.id by lia. set (x := f _) in *.
    destruct (lookup_lt_is_Some_2 x (Z.to_nat (off mod 512) + k)) as [v E]; [lia|].
    rewrite E. f_equal. symmetry. apply nth_lookup_Some, E.
  - rewrite lookup_seqZ_ge by lia. reflexivity.
Qed.

Lemma readi_loop_eq fuel : forall t f L h off left, file_ok g f i -> tx_is t g f L h ->
  (size L + size h < NBUF)%nat -> (forall n, unheld h n) ->
  0 <= left <= Z.of_nat fuel -> 0 <= off -> off + left <= i_size i ->
  exists t', readi_loop fuel ip off left (mk_fs t sb ic) = Ret (file_bytes f i off left) (mk_fs t' sb ic) /\
    tx_is t' g f L h.
Proof.
  induction fuel as [|fuel IH]; intros t f L h off left Hf Ht Hsz Hh Hleft Hoff Hend; cbn [readi_loop].
  - rewrite (proj2 (Z.ltb_ge 0 left)) by lia. exists t. split; [|exact Ht].
    replace left with 0 by lia. reflexivity.
  - destruct (Z.ltb_spec 0 left) as [Hpos|Hz].
    2: { exists t. split; [|exact Ht]. replace left with 0 by lia. reflexivity. }
    pose proof (fi_size _ _ _ Hf) as Hsize.
    assert (Hbn : 0 <= off / BSIZE /\ off / BSIZE * BSIZE < i_size i) by (unfold BSIZE; clear -Hoff Hend Hpos; dlia).
    destruct (bmap_eq t f L h (off / BSIZE) Hf Ht Hsz Hh (proj1 Hbn) (proj2 Hbn)) as (t1 & E1 & Ht1).
    destruct (fi_block _ _ _ Hf _ (proj1 Hbn) (proj2 Hbn)) as [_ Hbr].
    destruct (tx_open_read t1 g f L h _ Ht1 Hbr (Hh _) Hsz) as (b & t2 & t3 & E2 & E3 & E4 & Ht3).
    set (m := Z.min left (BSIZE - off mod BSIZE)).
    assert (Hm : 0 < m <= left /\ off mod BSIZE + m <= BSIZE).
    { unfold m, BSIZE. pose proof (Z.mod_pos_bound off 512 ltac:(lia)). lia. }
    destruct (IH t3 f L h (off + m) (left - m) Hf Ht3 Hsz Hh ltac:(lia) ltac:(lia) ltac:(lia)) as (t4 & E5 & Ht4).
    exists t4. split; [|exact Ht4]. step by (apply inode_get_eq, Hip). step by exact E1.
    rewrite (fi_dev _ _ _ Hf). step by (apply in_tx_ret, E2). step by (apply in_tx_ret, E3).
    step by (apply in_tx_ret, E4). fold m. unfold u32.
    rewrite Z.mod_small by (unfold MAXFILE, BSIZE in Hsize; lia). step by exact E5.
    rewrite bytes_in_block by (try (eapply tx_length; eassumption); lia).
    unfold file_bytes. change (map (file_byte f i)) with (fmap (M := list) (file_byte f i)).
    rewrite <- fmap_app, <- seqZ_app by lia. unfold ret. do 3 f_equal. lia.
Qed.
End File.

Lemma readi_eq g f sb t L h ic ip i off n (Hip : ic_inode ic !! ip = Some i) (Hf : file_ok g f i)
    (Ht : tx_is t g f L h) (Hsz : (size L + size h < NBUF)%nat) (Hh : forall m, unheld h m)
    (Hoff : 0 <= off) (Hn : 0 <= n) (Hrange : off + n < 2 ^ 32) :
  exists t', tx_is t' g f L h /\
    readi ip off n (mk_fs t sb ic) =
      if i_size i <? off then Ret (-1, []) (mk_fs t' sb ic)
      else let k := Z.min n (i_size i - off) in
           Ret (k, file_bytes f i off k) (mk_fs t' sb ic).
Proof.
  pose proof (fi_size _ _ _ Hf) as Hsize. unfold MAXFILE, BSIZE in Hsize. unfold readi.
  rewrite (bind_eq _ _ _ _ _ (inode_get_eq t sb ic ip i Hip)).
  rewrite (proj2 (Z.eqb_neq (i_type i) T_DEV) (fi_type _ _ _ Hf)).
  unfold u32. rewrite (Z.mod_small (off + n)) by lia. rewrite (proj2 (Z.ltb_ge (off + n) off)) by lia.
  rewrite orb_false_r. destruct (Z.ltb_spec (i_size i) off) as [Hbehind|Hin]; [exists t; auto|].
  assert (Hk : (if i_size i <? off + n then (i_size i - off) mod 2 ^ 32 else n) = Z.min n (i_size i - off)).
  { destruct (Z.ltb_spec (i_size i) (off + n)); [rewrite Z.mod_small by lia|]; lia. }
  rewrite Hk. set (k := Z.min n (i_size i - off)).
  destruct (readi_loop_eq g sb ic ip i Hip (Z.to_nat k) t f L h off k Hf Ht Hsz Hh ltac:(lia) Hoff ltac:(lia))
    as (t' & E & Ht').
  exists t'. split; [exact Ht'|]. rewrite (bind_eq _ _ _ _ _ E). unfold ret, s32.
  rewrite Z.mod_small by lia. rewrite Z.add_simpl_r. reflexivity.
Qed.

(** readi() returns the bytes of the file from [off] on, as many as are
    asked for and as there are before its end, and changes nothing; it
    fails when [off] is behind the end. *)
Theorem readi_spec g f sb t L h ic ip i off n (Hip : ic_inode ic !! ip = Some i) (Hf : file_ok g f i)
    (Ht : tx_is t g f L h) (Hsz : (size L + size h < NBUF)%nat) (Hh : forall m, unheld h m)
    (Hoff : 0 <= off) (Hn : 0 <= n) (Hrange : off + n < 2 ^ 32) :
  exists t', tx_is t' g f L h /\
    readi ip off n (mk_fs t sb ic) =
      if i_size i <? off then Ret (-1, []) (mk_fs t' sb ic)
      else let k := Z.min n (i_size i - off) in
           Ret (k, file_bytes f i off k) (mk_fs t' sb ic).
Proof. eapply readi_eq; eassumption. Qed.

(** ** Writing a file in place *)

(** The blocks of the file may be written and are different blocks. *)
Record file_sep g f (i : inode) : Prop := {
  fs_home : forall bn, 0 <= bn -> bn * BSIZE < i_size i -> fr_home g (block_of f i bn);
  fs_inj : forall bn bn', 0 <= bn -> bn * BSIZE < i_size i -> 0 <= bn' -> bn' * BSIZE < i_size i ->
    block_of f i bn = block_of f i bn' -> bn = bn';
  fs_ind : forall bn, 0 <= bn -> bn * BSIZE < i_size i -> NDIRECT * BSIZE < i_size i ->
    block_of f i bn <> indirect i }.

(** Block [bn] of the file becomes [b]. *)
Definition put_block f (i : inode) (bn : Z) (b : block) : Z -> block := upd_content f (block_of f i bn) b.

Lemma block_of_put g f i bn b bn' : file_ok g f i -> file_sep g f i -> 0 <= bn -> bn * BSIZE < i_size i ->
  0 <= bn' -> bn' * BSIZE < i_size i -> block_of (put_block f i bn b) i bn' = block_of f i bn'.
Proof.
  intros Hf Hs Hb Hbs Hb' Hbs'. unfold block_of at 1. destruct (Z.ltb_spec bn' NDIRECT) as [Hd|Hd].
  - unfold block_of. rewrite (proj2 (Z.ltb_lt bn' NDIRECT)) by exact Hd. reflexivity.
  - unfold block_of. rewrite (proj2 (Z.ltb_ge bn' NDIRECT)) by exact Hd.
    unfold put_block, upd_content. rewrite (proj2 (Z.eqb_neq _ (block_of f i bn))); [reflexivity|].
    intros E. apply (fs_ind _ _ _ Hs bn Hb Hbs); [unfold NDIRECT, BSIZE in *; lia | symmetry; exact E].
Qed.
Lemma put_file_ok g f i bn b : file_ok g f i -> file_sep g f i -> 0 <= bn -> bn * BSIZE < i_size i ->
  file_ok g (put_block f i bn b) i /\ file_sep g (put_block f i bn b) i.
Proof.
  intros Hf Hs Hb Hbs. split; constructor; try apply Hf; intros; rewrite ?(block_of_put g) by assumption;
    try (apply Hf; assumption); try (apply Hs; assumption).
  match goal with E : block_of _ _ _ = block_of _ _ _ |- _ => rewrite !(block_of_put g) in E by assumption;
    apply (fs_inj _ _ _ Hs) in E; assumption end.
Qed.

(** One byte of a block of which a part was stored; other blocks hold none of the part. *)
Lemma nth_store off m src k (x : block) : 0 <= off -> 0 < m -> off mod BSIZE + m <= BSIZE -> Z.of_nat (length src) = m -> 0 <= k ->
  length x = 512%nat -> k / BSIZE = off / BSIZE ->
  nth (Z.to_nat (k mod BSIZE)) (store (Z.to_nat (off mod BSIZE)) src x) 0 =
  if (off <=? k) && (k <? off + m) then nth (Z.to_nat (k - off)) src 0 else nth (Z.to_nat (k mod BSIZE)) x 0.
Proof.
  unfold BSIZE. intros Hoff Hm Hfit Hsrc Hk Hlen E.
  pose proof (Z.mod_pos_bound off 512 ltac:(lia)) as Hmo. pose proof (Z.mod_pos_bound k 512 ltac:(lia)) as Hmk.
  assert (Ek : k - off = k mod 512 - off mod 512) by (clear -E; dlia).
  unfold store. rewrite !nth_lookup. destruct (Z.leb_spec off k) as [H1'|H1']; cbn [andb].
  - destruct (Z.ltb_spec k (off + m)) as [H2'|H2'].
    + rewrite list_lookup_inserts by lia. do 2 f_equal. lia.
    + rewrite list_lookup_inserts_ge by lia. reflexivity.
  - rewrite list_lookup_inserts_lt by lia. reflexivity.
Qed.
Lemma other_block off m k : 0 <= off -> off mod BSIZE + m <= BSIZE -> k / BSIZE <> off / BSIZE ->
  (off <=? k) && (k <? off + m) = false.
Proof.
  unfold BSIZE. intros Hoff Hfit E. destruct (Z.leb_spec off k) as [A1|A1], (Z.ltb_spec k (off + m)) as [A2|A2]; cbn [andb]; try reflexivity.
  exfalso. apply E. clear -Hfit Hoff A1 A2. dlia.
Qed.

(** One byte of the file after part of a block was stored. *)
Lemma file_byte_store g f i off m src k : file_ok g f i -> file_sep g f i -> 0 <= off -> 0 < m ->
  off mod BSIZE + m <= BSIZE -> off + m <= i_size i -> Z.of_nat (length src) = m -> 0 <= k < i_size i ->
  length (f (block_of f i (off / BSIZE))) = 512%nat ->
  file_byte (put_block f i (off / BSIZE) (store (Z.to_nat (off mod BSIZE)) src (f (block_of f i (off / BSIZE))))) i k =
  if (off <=? k) && (k <? off + m) then nth (Z.to_nat (k - off)) src 0 else file_byte f i k.
Proof.
  intros Hf Hs Hoff Hm Hfit Hend Hsrc Hk Hlen.
  assert (Hbn : 0 <= off / BSIZE /\ off / BSIZE * BSIZE < i_size i) by (unfold BSIZE; clear -Hoff Hm Hend; dlia).
  assert (Hbk : 0 <= k / BSIZE /\ k / BSIZE * BSIZE < i_size i) by (unfold BSIZE; clear -Hk; dlia).
  unfold file_byte. rewrite (block_of_put g) by (assumption || apply Hbn || apply Hbk).
  unfold put_block, upd_content. destruct (Z.eqb_spec (block_of f i (k / BSIZE)) (block_of f i (off / BSIZE))) as [E|E].
  - apply (fs_inj _ _ _ Hs) in E; try apply Hbn; try apply Hbk. rewrite (nth_store off m) by (assumption || lia). rewrite E. reflexivity.
  - rewrite other_block; [reflexivity | exact Hoff | exact Hfit | intros E'; apply E; f_equal; exact E'].
Qed.

(** The number of blocks that [n] bytes at [off] touch. *)
Definition span (off n : Z) : Z := if n =? 0 then 0 else (off + n - 1) / BSIZE - off / BSIZE + 1.

Section Write.
Variables (g : frame) (sb : superblock) (ic : icache) (ip : nat) (i : inode).
Hypothesis Hip : ic_inode ic !! ip = Some i.

(** [f'] is [f] with the bytes [src] at [off] of the file. *)
Definition written f f' (off : Z) (src : list Z) : Prop :=
  (forall k, 0 <= k < i_size i -> file_byte f' i k =
    if (off <=? k) && (k <? off + Z.of_nat (length src)) then nth (Z.to_nat (k - off)) src 0
    else file_byte f i k) /\
  (forall n, (forall bn, off / BSIZE <= bn -> bn * BSIZE < off + Z.of_nat (length src) -> n <> block_of f i bn) ->
    f' n = f n) /\
  (forall bn, 0 <= bn -> bn * BSIZE < i_size i -> block_of f' i bn = block_of f i bn).

Lemma written_step f f' off m src : file_ok g f i -> file_sep g f i -> 0 <= off -> 0 < m -> off mod BSIZE + m <= BSIZE ->
  m <= Z.of_nat (length src) -> off + Z.of_nat (length src) <= i_size i ->
  length (f (block_of f i (off / BSIZE))) = 512%nat ->
  m = Z.min (Z.of_nat (length src)) (BSIZE - off mod BSIZE) ->
  written (put_block f i (off / BSIZE)
    (store (Z.to_nat (off mod BSIZE)) (take (Z.to_nat m) src) (f (block_of f i (off / BSIZE))))) f'
    (off + m) (drop (Z.to_nat m) src) ->
  written f f' off src.
Proof.
  intros Hf Hs Hoff Hm Hfit Hlen Hend Hblk Emin (H1' & H2' & H3'). set (f1 := put_block _ _ _ _) in *.
  assert (Hbn : 0 <= off / BSIZE /\ off / BSIZE * BSIZE < i_size i) by (unfold BSIZE; clear -Hoff Hm Hlen Hend; dlia).
  rewrite length_drop in H1', H2'. split; [|split].
  - intros k Hk. rewrite H1' by exact Hk. unfold f1.
    rewrite (file_byte_store g f i off m (take (Z.to_nat m) src) k); try assumption; [|lia|rewrite length_take; lia].
    replace (off + m + Z.of_nat (length src - Z.to_nat m)) with (off + Z.of_nat (length src)) by lia.
    destruct (Z.leb_spec off k), (Z.leb_spec (off + m) k), (Z.ltb_spec k (off + m)),
      (Z.ltb_spec k (off + Z.of_nat (length src))); cbn [andb]; try lia; try reflexivity.
    + rewrite !nth_lookup, lookup_drop. do 2 f_equal. lia.
    + rewrite !nth_lookup, lookup_take_lt by lia. reflexivity.
  - intros n Hn. rewrite H2'.
    + unfold f1, put_block, upd_content. rewrite (proj2 (Z.eqb_neq n _)); [reflexivity|].
      apply Hn; [lia|]. unfold BSIZE in *. clear -Hoff Hm Hlen. dlia.
    + intros bn Hb1 Hb2. unfold f1. assert (Hb : off / BSIZE <= bn) by (unfold BSIZE in *; clear -Hb1 Hm; dlia).
      rewrite (block_of_put g); [apply Hn; [exact Hb | lia] | exact Hf | exact Hs | apply Hbn | apply Hbn | lia | lia].
  - intros bn Hb1 Hb2. rewrite H3' by assumption. apply (block_of_put g); try assumption; apply Hbn.
Qed.

Lemma writei_nil fuel t f L h off : tx_is t g f L h -> exists t' f' L',
  writei_loop fuel ip off [] (mk_fs t sb ic) = Ret (off + 0) (mk_fs t' sb ic) /\
  tx_is t' g f' L' h /\ written f f' off [].
Proof.
  intros Ht. exists t, f, L. rewrite Z.add_0_r. split; [destruct fuel; reflexivity|]. split; [exact Ht|].
  split; [|auto]. intros k Hk. cbn [length]. rewrite Z.add_0_r.
  destruct (Z.leb_spec off k), (Z.ltb_spec k off); try lia; reflexivity.
Qed.
Lemma writei_loop_eq fuel : forall t f L h off src, file_ok g f i -> file_sep g f i -> tx_is t g f L h ->
  Z.of_nat (size L) + span off (Z.of_nat (length src)) <= Z.of_nat (fr_cap g) ->
  Z.of_nat (size L + size h) + span off (Z.of_nat (length src)) <= Z.of_nat NBUF ->
  (forall n, unheld h n) -> (length src <= fuel)%nat -> 0 <= off -> off + Z.of_nat (length src) <= i_size i ->
  exists t' f' L', writei_loop fuel ip off src (mk_fs t sb ic) =
      Ret (off + Z.of_nat (length src)) (mk_fs t' sb ic) /\
    tx_is t' g f' L' h /\ written f f' off src.
Proof.
  induction fuel as [|fuel IH]; intros t f L h off src Hf Hs Ht Hcap Hbuf Hh Hfuel Hoff Hend.
  { destruct src; [eapply writei_nil; exact Ht | cbn in Hfuel; lia]. }
  destruct src as [|c src']; [eapply writei_nil; exact Ht|].
  remember (c :: src') as src eqn:Esrc.
  assert (Hpos : 0 < Z.of_nat (length src)) by (subst src; cbn; lia).
  pose proof (fi_size _ _ _ Hf) as Hsize. pose proof (Z.mod_pos_bound off BSIZE ltac:(reflexivity)) as Hmod.
  assert (Hbn : 0 <= off / BSIZE /\ off / BSIZE * BSIZE < i_size i) by (unfold BSIZE; clear -Hoff Hend Hpos; dlia).
  set (m := Z.min (Z.of_nat (length src)) (BSIZE - off mod BSIZE)).
  assert (Hm : 0 < m <= Z.of_nat (length src) /\ off mod BSIZE + m <= BSIZE) by lia.
  assert (Hspan : span off (Z.of_nat (length src)) =
    1 + span (off + m) (Z.of_nat (length (drop (Z.to_nat m) src)))).
  { rewrite length_drop. unfold span, m, BSIZE in *. clear -Hpos Hoff Hmod.
    destruct (Z.eqb_spec (Z.of_nat (length src)) 0), (Z.eqb_spec (Z.of_nat (length src - Z.to_nat
      (Z.min (Z.of_nat (length src)) (512 - off mod 512)))) 0); dlia. }
  assert (Hnn : forall o k, 0 <= o -> 0 <= k -> 0 <= span o k).
  { clear. intros o k Ho Hk. unfold span, BSIZE. destruct (Z.eqb_spec k 0); [lia|]. dlia. }
  pose proof (Hnn (off + m) (Z.of_nat (length (drop (Z.to_nat m) src))) ltac:(lia) ltac:(lia)) as Hrest.
  assert (Hsz : (size L + size h < NBUF)%nat) by lia.
  destruct (bmap_eq g sb ic ip i Hip t f L h (off / BSIZE) Hf Ht Hsz Hh (proj1 Hbn) (proj2 Hbn)) as (t1 & E1 & Ht1).
  destruct (fi_block _ _ _ Hf _ (proj1 Hbn) (proj2 Hbn)) as [_ Hbr].
  assert (Hblk : length (f (block_of f i (off / BSIZE))) = 512%nat) by (eapply tx_length; eassumption).
  destruct (tx_open_write t1 g f L h _ (store (Z.to_nat (off mod BSIZE)) (take (Z.to_nat m) src)
    (f (block_of f i (off / BSIZE)))) Ht1 Hbr (Hh _) Hsz (fs_home _ _ _ Hs _ (proj1 Hbn) (proj2 Hbn)) ltac:(lia))
    as (b & t2 & t3 & t4 & t5 & E2 & E3 & E4 & E5 & E6 & Ht5); [rewrite length_store; exact Hblk|].
  destruct (put_file_ok g f i (off / BSIZE) (store (Z.to_nat (off mod BSIZE)) (take (Z.to_nat m) src)
    (f (block_of f i (off / BSIZE)))) Hf Hs (proj1 Hbn) (proj2 Hbn)) as [Hf1 Hs1].
  pose proof (size_with L (block_of f i (off / BSIZE))) as Hadd.
  assert (Hsteps : writei_loop (S fuel) ip off src (mk_fs t sb ic) =
    writei_loop fuel ip (off + m) (drop (Z.to_nat m) src) (mk_fs t5 sb ic)).
  { rewrite Esrc. cbn [writei_loop]. rewrite <- Esrc. step by (apply inode_get_eq, Hip). step by exact E1.
    rewrite (fi_dev _ _ _ Hf). step by (apply in_tx_ret, E2). step by (apply in_tx_ret, E3). fold m.
    step by (apply in_tx_ret, E4). step by (apply in_tx_ret, E5). step by (apply in_tx_ret, E6).
    unfold u32. rewrite Z.mod_small by (unfold MAXFILE, BSIZE in Hsize; lia). reflexivity. }
  destruct (IH t5 _ _ h (off + m) (drop (Z.to_nat m) src) Hf1 Hs1 Ht5 ltac:(lia) ltac:(lia) Hh) as
    (t6 & f' & L' & E7 & Ht6 & Hw); [rewrite length_drop; lia | lia | rewrite length_drop; lia |].
  exists t6, f', L'. split; [|split; [exact Ht6|]].
  - rewrite Hsteps, E7, length_drop. f_equal. lia.
  - apply (written_step f f' off m src); try assumption; try reflexivity; apply Hm.
Qed.
End Write.

(** writei() inside a file puts the bytes at their offset: afterwards
    the file holds them there, every other byte of the file and every other
    block is as before, and readi() reads back what was written. *)
Theorem writei_spec g f sb t L h ic ip i off src (Hip : ic_inode ic !! ip = Some i) (Hf : file_ok g f i)
    (Hs : file_sep g f i) (Ht : tx_is t g f L h) (Hh : forall m, unheld h m)
    (Hcap : Z.of_nat (size L) + span off (Z.of_nat (length src)) <= Z.of_nat (fr_cap g))
    (Hbuf : Z.of_nat (size L + size h) + span off (Z.of_nat (length src)) <= Z.of_nat NBUF)
    (Hoff : 0 <= off) (Hend : off + Z.of_nat (length src) <= i_size i) :
  exists t' f' L', writei ip off src (mk_fs t sb ic) = Ret (Z.of_nat (length src)) (mk_fs t' sb ic) /\
    tx_is t' g f' L' h /\ written i f f' off src /\
    file_bytes f' i off (Z.of_nat (length src)) = src.
Proof.
  pose proof (fi_size _ _ _ Hf) as Hsize. unfold MAXFILE, BSIZE in Hsize.
  destruct (writei_loop_eq g sb ic ip i Hip (length src) t f L h off src Hf Hs Ht Hcap Hbuf Hh ltac:(lia) Hoff Hend)
    as (t' & f' & L' & E & Ht' & Hw).
  exists t', f', L'. split; [|split; [exact Ht' | split; [exact Hw|]]].
  - unfold writei. rewrite (bind_eq _ _ _ _ _ (inode_get_eq t sb ic ip i Hip)).
    rewrite (proj2 (Z.eqb_neq (i_type i) T_DEV) (fi_type _ _ _ Hf)).
    unfold u32, MAXFILE, BSIZE. rewrite (Z.mod_small (off + _)) by lia.
    rewrite (proj2 (Z.ltb_ge (off + Z.of_nat (length src)) off)), (proj2 (Z.ltb_ge (i_size i) off)),
      (proj2 (Z.ltb_ge (140 * 512) _)) by lia. cbn [orb].
    rewrite (bind_eq _ _ _ _ _ E). rewrite (bind_eq _ _ _ _ _ (inode_get_eq t' sb ic ip i Hip)).
    rewrite (proj2 (Z.ltb_ge (i_size i) _)), andb_false_r by lia.
    rewrite (bind_eq _ _ _ tt _ eq_refl). unfold ret, s32. rewrite Z.mod_small by lia. f_equal. lia.
  - apply list_eq. intros k. unfold file_bytes.
    change (map (file_byte f' i)) with (fmap (M := list) (file_byte f' i)). rewrite list_lookup_fmap.
    destruct (decide (k < length src)%nat) as [Hk|Hk].
    + rewrite lookup_seqZ_lt by lia. cbn [fmap option_fmap option_map]. rewrite (proj1 Hw) by lia.
      rewrite (proj2 (Z.leb_le off _)), (proj2 (Z.ltb_lt (off + Z.of_nat k) _)) by lia. cbn [andb].
      destruct (lookup_lt_is_Some_2 src k Hk) as [v Ev]. rewrite Ev. f_equal. apply nth_lookup_Some.
      rewrite <- Ev. f_equal. lia.
    + rewrite lookup_seqZ_ge by lia. symmetry. apply lookup_ge_None. lia.
Qed.

(** ** The inode cache *)

(** At most one entry in use for an inode. *)
Definition unique (ic : icache) : Prop :=
  forall j k a b, ic_inode ic !! j = Some a -> ic_inode ic !! k = Some b -> 0 < i_ref a -> 0 < i_ref b ->
    i_dev a = i_dev b -> i_inum a = i_inum b -> j = k.
(** Entry [ip] becomes [i]. *)
Definition set_inode (ic : icache) (ip : nat) (i : inode) : icache :=
  mk_icache (ic_lock ic) (<[ip := i]> (ic_inode ic)).

Lemma on_inode_modify t sb ic ip i (u : inode -> inode) : ic_inode ic !! ip = Some i ->
  on_inode ip (modify u) (mk_fs t sb ic) = Ret tt (mk_fs t sb (set_inode ic ip (u i))).
Proof.
  intros E. unfold on_inode, in_icache, zoom, elt, modify, set_field. cbn. rewrite E. reflexivity.
Qed.
Lemma lock_icache t sb l : in_icache (zoom ic_lock acquire) (mk_fs t sb (mk_icache None l)) =
  Ret tt (mk_fs t sb (mk_icache (Some cpu_id) l)).
Proof. reflexivity. Qed.
Lemma unlock_icache t sb l : in_icache (zoom ic_lock release) (mk_fs t sb (mk_icache (Some cpu_id) l)) =
  Ret tt (mk_fs t sb (mk_icache None l)).
Proof. unfold in_icache, zoom. cbn [fs_icache ic_lock]. rewrite release_mine. reflexivity. Qed.

(** The entry iget() makes of a free one. *)
Definition fresh_inode (dev inum : Z) (i : inode) : inode :=
  mk_inode dev inum 1 (i_lock i) 0 (i_type i) (i_major i) (i_minor i) (i_nlink i) (i_size i) (i_addrs i).

Lemma iget_eq t sb ic dev inum : ic_lock ic = None -> (forall j a, ic_inode ic !! j = Some a -> i_ref a < 2 ^ 31 - 1) ->
  match list_find (fun i => cached dev inum i = true) (ic_inode ic) with
  | Some (ip, i) => iget dev inum (mk_fs t sb ic) =
      Ret ip (mk_fs t sb (set_inode ic ip (i <| i_ref := i_ref i + 1 |>)))
  | None =>
      match list_find (fun i => i_ref i = 0) (ic_inode ic) with
      | Some (ip, i) => iget dev inum (mk_fs t sb ic) =
          Ret ip (mk_fs t sb (set_inode ic ip (fresh_inode dev inum i)))
      | None => exists s, iget dev inum (mk_fs t sb ic) = Stop (Panicked "iget: no inodes") s
      end
  end.
Proof.
  destruct ic as [lk l]. cbn [ic_lock ic_inode]. intros -> Hsmall.
  assert (Hstart : forall k : list inode -> M (fstate T) nat, bind (in_icache (zoom ic_lock acquire)) (fun _ => bind (in_icache (get ic_inode)) k)
    (mk_fs t sb (mk_icache None l)) = k l (mk_fs t sb (mk_icache (Some cpu_id) l))) by reflexivity.
  destruct (list_find (fun i => cached dev inum i = true) l) as [[ip i]|] eqn:Ec.
  - apply list_find_Some in Ec as Ec'. destruct Ec' as (Hi & Hc & _). unfold cached in Hc.
    unfold iget. rewrite Hstart, Ec. step by (apply on_inode_modify, Hi).
    step by apply unlock_icache. unfold set_inode, set_field, ret, s32. cbn.
    pose proof (Hsmall ip i Hi). assert (0 < i_ref i) by lia. rewrite Z.mod_small by lia.
    rewrite Z.add_simpl_r. reflexivity.
  - destruct (list_find (fun i => i_ref i = 0) l) as [[ip i]|] eqn:Ef.
    + apply list_find_Some in Ef as Ef'. destruct Ef' as (Hi & _ & _).
      unfold iget. rewrite Hstart, Ec, Ef. step by (apply on_inode_modify, Hi). step by apply unlock_icache. reflexivity.
    + eexists. unfold iget. rewrite Hstart, Ec, Ef. reflexivity.
Qed.

(** iget() hands out one cache entry per inode: the entry of a cached
    inode with one reference more, or else the first free entry, not valid
    and with one reference; it panics only when all entries are in use.  Two
    entries in use never stand for the same inode. *)
Theorem iget_spec t sb ic dev inum (Hlock : ic_lock ic = None) (Huniq : unique ic)
    (Hsmall : forall j a, ic_inode ic !! j = Some a -> 0 <= i_ref a < 2 ^ 31 - 1) :
  (exists ip i, iget dev inum (mk_fs t sb ic) = Ret ip (mk_fs t sb (set_inode ic ip i)) /\
    i_dev i = dev /\ i_inum i = inum /\ 0 < i_ref i /\ unique (set_inode ic ip i) /\
    exists i0, ic_inode ic !! ip = Some i0 /\ i_ref i = i_ref i0 + 1 /\ (i_ref i0 = 0 -> i_valid i = 0) /\
      (0 < i_ref i0 -> i = i0 <| i_ref := i_ref i |>)) \/
  (exists s, iget dev inum (mk_fs t sb ic) = Stop (Panicked "iget: no inodes") s /\
    forall j a, ic_inode ic !! j = Some a -> 0 < i_ref a).
Proof.
  pose proof (iget_eq t sb ic dev inum Hlock (fun j a E => proj2 (Hsmall j a E))) as HE.
  assert (Huniq' : forall ip i, (forall j a, j <> ip -> ic_inode ic !! j = Some a -> 0 < i_ref a ->
    i_dev a = i_dev i -> i_inum a = i_inum i -> False) -> unique (set_inode ic ip i)).
  { intros ip i Hne j k a b Hj Hk. unfold set_inode in *. cbn [ic_inode] in *.
    apply list_lookup_insert_Some in Hj as [(<- & <- & _)|[Hj1 Hj2]],
      Hk as [(<- & <- & _)|[Hk1 Hk2]]; intros Ha Hb Ed Ei; [reflexivity | | |].
    - exfalso. apply (Hne k b); congruence.
    - exfalso. apply (Hne j a); congruence.
    - exact (Huniq j k a b Hj2 Hk2 Ha Hb Ed Ei). }
  destruct (list_find (fun i => cached dev inum i = true) (ic_inode ic)) as [[ip i]|] eqn:Ec.
  - apply list_find_Some in Ec as (Hi & Hc & _). unfold cached in Hc. left. eexists ip, _.
    split; [exact HE|]. assert (Hr : 0 < i_ref i /\ i_dev i = dev /\ i_inum i = inum) by lia.
    destruct Hr as (Hr & Hd & Hn). split; [exact Hd|]. split; [exact Hn|]. split; [cbn; lia|]. split.
    + apply Huniq'. intros j a Hj Ha Hra Ed Ei. apply Hj, (Huniq j ip a i Ha Hi Hra Hr Ed Ei).
    + exists i. split; [exact Hi|]. split; [reflexivity|]. split; [lia | reflexivity].
  - apply list_find_None in Ec. destruct (list_find (fun i => i_ref i = 0) (ic_inode ic)) as [[ip i]|] eqn:Ef.
    + apply list_find_Some in Ef as (Hi & Hr & _). left. eexists ip, _. split; [exact HE|].
      split; [reflexivity|]. split; [reflexivity|]. split; [reflexivity|]. split.
      * apply Huniq'. intros j a _ Ha Hra Ed Ei. rewrite Forall_lookup in Ec. apply (Ec j a Ha).
        unfold cached. cbn in Ed, Ei. rewrite Ed, Ei, !Z.eqb_refl, (proj2 (Z.ltb_lt _ _) Hra). reflexivity.
      * exists i. split; [exact Hi|]. cbn. split; [lia|]. split; [reflexivity | lia].
    + right. destruct HE as [s HE]. exists s. split; [exact HE|]. apply list_find_None in Ef.
      intros j a Ha. rewrite Forall_lookup in Ef. specialize (Ef j a Ha). specialize (Hsmall j a Ha). lia.
Qed.

(** ** Directories *)

Lemma strncmp_eq n : forall p q, (strncmp_bytes n p q = 0) <-> strncpy_bytes n p = strncpy_bytes n q.
Proof.
  induction n as [|n IH]; intros p q; [tauto|]. cbn [strncmp_bytes].
  assert (Hcopy : forall s, strncpy_bytes (S n) s = hd 0 s :: if hd 0 s =? 0 then replicate n 0 else strncpy_bytes n (tl s)).
  { intros [|x s]; [reflexivity|]. cbn [strncpy_bytes hd tl]. destruct (Z.eqb_spec x 0) as [->|]; reflexivity. }
  rewrite !Hcopy. destruct (Z.eqb_spec (hd 0 p) 0) as [Ep|Ep]; cbn [negb andb].
  - rewrite Ep. split.
    + intros E. assert (Eq : hd 0 q = 0) by lia. rewrite Eq. reflexivity.
    + intros [= <- _]. reflexivity.
  - destruct (Z.eqb_spec (hd 0 p) (hd 0 q)) as [E|E]; cbn [andb].
    + rewrite <- E, (proj2 (Z.eqb_neq _ 0) Ep), IH. split; [intros ->; reflexivity | intros [= Ht]; exact Ht].
    + split; [lia|]. intros [= E' _]. congruence.
Qed.

(** Entry [k] of a directory, and whether it is for [name]. *)
Definition entry f (d : inode) (k : Z) : dirent := dec_dirent (file_bytes f d (16 * k) 16).
Definition entry_is (name : list Z) (e : dirent) : bool :=
  negb (de_inum e =? 0) && bool_decide (strncpy_bytes DIRSIZ name = strncpy_bytes DIRSIZ (de_name e)).

Lemma read_dirent_eq g f sb t L h ic dp d k msg : ic_inode ic !! dp = Some d -> file_ok g f d ->
  tx_is t g f L h -> (size L + size h < NBUF)%nat -> (forall m, unheld h m) ->
  0 <= k -> 16 * k + 16 <= i_size d ->
  exists t', read_dirent dp (16 * k) msg (mk_fs t sb ic) = Ret (entry f d k) (mk_fs t' sb ic) /\ tx_is t' g f L h.
Proof.
  intros Hdp Hf Ht Hsz Hh Hk Hend. pose proof (fi_size _ _ _ Hf) as Hsize. unfold MAXFILE, BSIZE in Hsize.
  destruct (readi_eq g f sb t L h ic dp d (16 * k) 16 Hdp Hf Ht Hsz Hh ltac:(lia) ltac:(lia) ltac:(lia))
    as (t' & Ht' & E).
  rewrite (proj2 (Z.ltb_ge _ _)), Z.min_l in E by lia. exists t'. split; [|exact Ht'].
  unfold read_dirent. step by exact E. reflexivity.
Qed.

Lemma dirlookup_eq g f sb t L h ic dp d name (Hdp : ic_inode ic !! dp = Some d) (Hf : file_ok g f d)
    (Htype : i_type d = T_DIR) (Hdir : i_size d mod 16 = 0) (Ht : tx_is t g f L h)
    (Hsz : (size L + size h < NBUF)%nat) (Hh : forall m, unheld h m) :
  (forall k, 0 <= k < i_size d / 16 -> entry_is name (entry f d k) = true ->
    (forall j, 0 <= j < k -> entry_is name (entry f d j) = false) ->
    exists t', tx_is t' g f L h /\ dirlookup dp name (mk_fs t sb ic) =
      (let! ip := iget (i_dev d) (de_inum (entry f d k)) in ret (Some (ip, 16 * k))) (mk_fs t' sb ic)) /\
  ((forall j, 0 <= j < i_size d / 16 -> entry_is name (entry f d j) = false) ->
    exists t', tx_is t' g f L h /\ dirlookup dp name (mk_fs t sb ic) = Ret None (mk_fs t' sb ic)).
Proof.
  set (body := fun off => let! de := read_dirent dp off "dirlookup read" in
    if de_inum de =? 0 then ret None
    else if namecmp name (de_name de) =? 0 then let! ip := iget (i_dev d) (de_inum de) in ret (Some (ip, off))
    else ret None).
  pose proof (fi_size _ _ _ Hf) as Hsize.
  assert (Hn : (i_size d + 15) / 16 = i_size d / 16) by (clear -Hdir; dlia).
  assert (Hstart : dirlookup dp name (mk_fs t sb ic) =
    for_each (Z.mul 16 <$> seqZ 0 (i_size d / 16)) body (mk_fs t sb ic)).
  { unfold dirlookup. step by (apply inode_get_eq, Hdp). rewrite Htype. step by reflexivity.
    unfold dir_offsets. rewrite Hn. reflexivity. }
  assert (Hcmp : forall e, (de_inum e =? 0) = false -> (namecmp name (de_name e) =? 0) = entry_is name e).
  { intros e E. unfold entry_is. rewrite E. cbn [negb andb].
    destruct (Z.eqb_spec (namecmp name (de_name e)) 0) as [E1|E1]; symmetry.
    - apply bool_decide_eq_true_2, strncmp_eq, E1.
    - apply bool_decide_eq_false_2. intros E2. apply E1, strncmp_eq, E2. }
  assert (Hskip : forall n l, n <= i_size d / 16 -> (forall j, 0 <= j < n -> entry_is name (entry f d j) = false) ->
    exists t', for_each ((Z.mul 16 <$> seqZ 0 n) ++ l) body (mk_fs t sb ic) = for_each l body (mk_fs t' sb ic) /\
      tx_is t' g f L h).
  { intros n l Hle Hno.
    destruct (for_each_skip (fun s => exists t', s = mk_fs t' sb ic /\ tx_is t' g f L h) body
      (Z.mul 16 <$> seqZ 0 n) l (mk_fs t sb ic)) as (s' & E & t' & -> & Ht'); [exists t; auto | | exists t'; auto].
    intros off s1 Hin (t1 & -> & Ht1). apply list_elem_of_fmap in Hin as (j & -> & Hj). apply elem_of_seqZ in Hj.
    destruct (read_dirent_eq g f sb t1 L h ic dp d j "dirlookup read" Hdp Hf Ht1 Hsz Hh ltac:(lia)) as (t2 & E2 & Ht2).
    { clear -Hj Hle Hdir. dlia. }
    exists (mk_fs t2 sb ic). split; [|exists t2; auto]. unfold body. step by exact E2.
    destruct (de_inum (entry f d j) =? 0) eqn:E0; [reflexivity|].
    rewrite (Hcmp _ E0), Hno by lia. reflexivity. }
  split.
  - intros k Hk Hyes Hno. destruct (Hskip k (16 * k :: (Z.mul 16 <$> seqZ (k + 1) (i_size d / 16 - k - 1))) ltac:(lia) Hno)
      as (t1 & E1 & Ht1).
    destruct (read_dirent_eq g f sb t1 L h ic dp d k "dirlookup read" Hdp Hf Ht1 Hsz Hh ltac:(lia)) as (t2 & E2 & Ht2).
    { clear -Hk Hdir. dlia. }
    exists t2. split; [exact Ht2|]. rewrite Hstart.
    assert (El : Z.mul 16 <$> seqZ 0 (i_size d / 16) =
      (Z.mul 16 <$> seqZ 0 k) ++ 16 * k :: (Z.mul 16 <$> seqZ (k + 1) (i_size d / 16 - k - 1))).
    { replace (i_size d / 16) with (k + (i_size d / 16 - k)) at 1 by lia.
      rewrite seqZ_app, (seqZ_cons (0 + k)), fmap_app, fmap_cons by lia. reflexivity. }
    rewrite El, E1. cbn [for_each].
    assert (E0 : (de_inum (entry f d k) =? 0) = false) by (unfold entry_is in Hyes; destruct (_ =? 0); [discriminate Hyes | reflexivity]).
    unfold body at 1. unfold bind at 1 2. rewrite E2, E0, (Hcmp _ E0), Hyes. unfold bind.
    destruct (iget _ _ _); reflexivity.
  - intros Hno. destruct (Hskip (i_size d / 16) [] ltac:(lia) Hno) as (t' & E & Ht').
    exists t'. split; [exact Ht'|]. rewrite Hstart. rewrite app_nil_r in E. rewrite E. reflexivity.
Qed.

(** dirlookup() finds the first entry in use whose name is the given
    one (up to 14 bytes, ended by a NUL if shorter), and returns its offset
    and the cached inode of its number; without such an entry it returns
    null and changes nothing. *)
Theorem dirlookup_spec g f sb t L h ic dp d name (Hdp : ic_inode ic !! dp = Some d) (Hf : file_ok g f d)
    (Htype : i_type d = T_DIR) (Hdir : i_size d mod 16 = 0) (Ht : tx_is t g f L h)
    (Hsz : (size L + size h < NBUF)%nat) (Hh : forall m, unheld h m) :
  (forall k, 0 <= k < i_size d / 16 -> entry_is name (entry f d k) = true ->
    (forall j, 0 <= j < k -> entry_is name (entry f d j) = false) ->
    exists t', tx_is t' g f L h /\ dirlookup dp name (mk_fs t sb ic) =
      (let! ip := iget (i_dev d) (de_inum (entry f d k)) in ret (Some (ip, 16 * k))) (mk_fs t' sb ic)) /\
  ((forall j, 0 <= j < i_size d / 16 -> entry_is name (entry f d j) = false) ->
    exists t', tx_is t' g f L h /\ dirlookup dp name (mk_fs t sb ic) = Ret None (mk_fs t' sb ic)).
Proof. eapply dirlookup_eq; eassumption. Qed.
End Proofs.

(** ** Path elements *)

Definition slashes (l : list Z) : Prop := Forall (fun c => c = SLASH) l.
Definition no_slash (l : list Z) : Prop := Forall (fun c => c <> SLASH) l.

Lemma skip_slashes_spec path : exists sl, slashes sl /\ path = sl ++ skip_slashes path /\
  forall c rest, skip_slashes path = c :: rest -> c <> SLASH.
Proof.
  induction path as [|c path (sl & Hsl & E & Hnext)]; cbn [skip_slashes].
  - exists []. split; [constructor|]. split; [reflexivity | discriminate].
  - destruct (Z.eqb_spec c SLASH) as [->|Hc].
    + exists (SLASH :: sl). split; [constructor; [reflexivity | exact Hsl]|]. split; [cbn; congruence | exact Hnext].
    + exists []. split; [constructor|]. split; [reflexivity|]. intros c' rest [= <- _]. exact Hc.
Qed.
Lemma split_elem_spec path : forall s rest, split_elem path = (s, rest) ->
  no_slash s /\ path = s ++ rest /\ (forall c r, rest = c :: r -> c = SLASH) /\
  (forall c r, path = c :: r -> c <> SLASH -> s <> []).
Proof.
  induction path as [|c path IH]; intros s rest E; cbn [split_elem] in E.
  - injection E as <- <-. split; [constructor|]. split; [reflexivity|]. split; discriminate.
  - destruct (Z.eqb_spec c SLASH) as [->|Hc].
    + injection E as <- <-. split; [constructor|]. split; [reflexivity|]. split; [intros c r [= <- _]; reflexivity|].
      intros c r [= <- _] Hc. congruence.
    + destruct (split_elem path) as [s' rest'] eqn:E'. injection E as <- <-.
      destruct (IH s' rest' eq_refl) as (H1 & H2 & H3 & _). split; [constructor; assumption|].
      split; [cbn; congruence|]. split; [exact H3 | discriminate].
Qed.

(** skipelem() splits off the first element of a path: it skips
    slashes, takes the bytes up to the next slash, and leaves the rest
    without leading slashes; the buffer gets the element cut to 14 bytes,
    ended by a NUL if it is shorter.  It fails exactly when no element is
    left, and the rest is shorter than the path, so that namex() ends. *)
Theorem skipelem_spec (path name : list Z) (Hname : length name = DIRSIZ) :
  match skipelem path name with
  | None => slashes path
  | Some (rest, name') =>
      exists sl s sl', path = sl ++ s ++ sl' ++ rest /\ slashes sl /\ s <> [] /\ no_slash s /\ slashes sl' /\
        (rest <> [] -> sl' <> []) /\ (forall c r, rest = c :: r -> c <> SLASH) /\
        (length rest < length path)%nat /\ length name' = DIRSIZ /\
        take DIRSIZ (s ++ [0]) = take (length s + 1) name'
  end.
Proof.
  unfold skipelem. destruct (skip_slashes_spec path) as (sl & Hsl & Epath & Hfirst).
  destruct (skip_slashes path) as [|c p] eqn:Ep.
  - rewrite Epath, app_nil_r. exact Hsl.
  - rewrite <- Ep in *. destruct (split_elem (skip_slashes path)) as [s rest] eqn:Es.
    destruct (split_elem_spec _ s rest Es) as (Hns & Erest & Hslash & Hnonempty).
    destruct (skip_slashes_spec rest) as (sl' & Hsl' & Erest' & Hfirst').
    assert (Hs0 : s <> []) by (apply (Hnonempty c p Ep), (Hfirst c p Ep)).
    exists sl, s, sl'. split; [congruence|]. split; [exact Hsl|]. split; [exact Hs0|]. split; [exact Hns|].
    split; [exact Hsl'|]. split.
    { intros Hr ->. cbn in Erest'. destruct (skip_slashes rest) as [|c' r'] eqn:E'; [congruence|].
      apply (Hfirst' c' r' eq_refl). apply (Hslash c' r'). congruence. }
    split; [exact Hfirst'|]. split.
    { apply (f_equal length) in Epath, Erest, Erest'. rewrite length_app in Epath, Erest, Erest'.
      destruct s; [congruence|]. cbn [length] in Erest. lia. }
    destruct (DIRSIZ <=? length s)%nat eqn:El.
    + apply Nat.leb_le in El. rewrite length_take, take_take, take_app_le by exact El. split; [lia|].
      f_equal. lia.
    + apply Nat.leb_gt in El. rewrite !length_app, length_drop. cbn [length]. split; [lia|].
      rewrite (app_assoc s [0]), take_ge by (rewrite length_app; cbn; unfold DIRSIZ in *; lia).
      rewrite take_app_length' by (rewrite length_app; reflexivity). reflexivity.
Qed.

Section Witnesses.
#[local] Instance demo_ctx : Ctx := {| cpu_id := 0; cur_pid := 1 |}.
#[local] Instance no_devices {S} : Devsw S := {| dev_read _ := None; dev_write _ := None |}.

(** A disk of 100 blocks: the log at 2, the map at 40 (blocks 0 to 48 are in
    use), a file in blocks 49 and 50, a directory with the entries "." and
    "ab" in block 51. *)
Definition demo_map : block := replicate 6 255 ++ [1] ++ replicate 505 0.
Definition demo_dir : block :=
  enc_dirent (mk_dirent 1 (strncpy_bytes DIRSIZ (str "."))) ++
  enc_dirent (mk_dirent 7 (strncpy_bytes DIRSIZ (str "ab"))) ++ replicate 480 0.
Definition demo_img (n : Z) : block :=
  if n =? 40 then demo_map else if n =? 49 then replicate 512 7
  else if n =? 51 then demo_dir else replicate 512 0.
Definition demo_fs_log : log := mk_log None 2 30 1 0 ROOTDEV 0 (repeat 0 30).
Definition started (img : Z -> block) : lstate bio := mk_ls demo_fs_log (mk_bio None booted_bufs (mk_disk 100 img [])).
Definition start_frame (img : Z -> block) : frame :=
  mk_frame 29 100 (home demo_fs_log (mk_disk 100 img [])) img (2, 30) 1 (mk_disk 100 img []).
Definition demo_t : lstate bio := started demo_img.
Definition demo_frame : frame := start_frame demo_img.
Definition demo_sb : superblock := mk_superblock 60 0 8 30 2 32 40.
Definition demo_file : inode :=
  mk_inode ROOTDEV 5 1 (mk_sleeplock 0 None 0) 1 T_FILE 0 0 1 600 ([49; 50] ++ replicate 11 0).
Definition demo_dir_inode : inode :=
  mk_inode ROOTDEV 1 1 (mk_sleeplock 0 None 0) 1 T_DIR 0 0 1 32 ([51] ++ replicate 12 0).
Definition free_inode : inode :=
  mk_inode 0 0 0 (mk_sleeplock 0 None 0) 0 0 0 0 0 0 (replicate 13 0).
Definition demo_ic : icache := mk_icache None (demo_file :: demo_dir_inode :: replicate 48 free_inode).

(** A transaction on any disk whose log is empty. *)
Lemma started_tx_is img : (forall n, length (img n) = 512%nat) -> img 2 = replicate 512 0 ->
  tx_is (started img) (start_frame img) img ∅ ∅.
Proof.
  intros Hlen Hlog. destruct (fresh_ok booted_bufs (mk_disk 100 img []) lru_at_boot booted_cores booted_order) as (Hok & Hp & Hc).
  { intros n _. apply Hlen. }
  pose proof (fresh_sees _ _ Hok Hp Hc) as Hs. pose proof Hs as (_ & _ & Hd & _ & Hk).
  exists []. split_and!; try reflexivity; try (cbn; lia); [|exact Hs | intros n Hn; exact Hn | intros n Hn%elem_of_empty; contradiction].
  constructor; auto; try discriminate.
  - unfold geom, LOGSIZE. cbn. split_and!; auto; lia.
  - cbn. lia.
  - split; [cbn; lia | constructor].
  - constructor.
  - split; [cbn; rewrite Hlog; vm_compute; reflexivity | discriminate].
Qed.
Lemma demo_tx_is : tx_is demo_t demo_frame demo_img ∅ ∅.
Proof. apply started_tx_is; [|reflexivity]. intros n. unfold demo_img. repeat destruct (_ =? _); reflexivity. Qed.

Lemma demo_map_block b : 0 <= b < 60 -> BBLOCK b demo_sb = 40.
Proof. intros Hb. unfold BBLOCK, BPB. cbn [sb_bmapstart demo_sb]. rewrite Z.div_small by lia. reflexivity. Qed.
Lemma used_all img sb n : forallb (fun k => used img sb (Z.of_nat k)) (seq 0 n) = true ->
  forall b, 0 <= b < Z.of_nat n -> used img sb b = true.
Proof.
  intros Hall b Hb. rewrite forallb_forall in Hall. specialize (Hall (Z.to_nat b)). rewrite Z2Nat.id in Hall by lia.
  apply Hall, in_seq. lia.
Qed.
Lemma started_bitmap img : forallb (fun k => used img demo_sb (Z.of_nat k)) (seq 0 49) = true ->
  bitmap_ok (start_frame img) img demo_sb.
Proof.
  intros Hall. pose proof (used_all _ _ _ Hall) as Hused.
  assert (Hfree : forall b, 0 <= b < 60 -> used img demo_sb b = false -> 49 <= b).
  { intros b Hb Hu. destruct (decide (b < 49)) as [Hlt|]; [|lia]. rewrite Hused in Hu by lia. discriminate Hu. }
  split; cbn [sb_size sb_bmapstart demo_sb fr_size start_frame fr_home].
  - lia.
  - lia.
  - lia.
  - intros b Hb. rewrite (demo_map_block b Hb). split; [lia|]. unfold home, in_area. cbn. lia.
  - intros b Hb Hu. specialize (Hfree b Hb Hu). unfold home, in_area. cbn. lia.
  - intros b c Hb Hc Hu. rewrite (demo_map_block c Hc). specialize (Hfree b Hb Hu). lia.
Qed.
Lemma demo_bitmap : bitmap_ok demo_frame demo_img demo_sb.
Proof. apply started_bitmap. vm_compute. reflexivity. Qed.
Lemma demo_hands : free_hands demo_img demo_sb ∅.
Proof. intros b _. split; [apply unheld_empty | intros _; apply unheld_empty]. Qed.
Lemma demo_first : first_free demo_img demo_sb 49.
Proof.
  split; [cbn; lia|]. split; [vm_compute; reflexivity|]. apply (used_all _ _ 49). vm_compute. reflexivity.
Qed.

Example balloc_spec_witness : exists t', balloc ROOTDEV (mk_fs demo_t demo_sb demo_ic) = Ret 49 (mk_fs t' demo_sb demo_ic).
Proof.
  destruct (balloc_spec demo_frame demo_img demo_sb demo_t ∅ ∅ demo_ic demo_bitmap demo_tx_is demo_hands)
    as [Hok _]; [vm_compute; lia | vm_compute; lia|].
  destruct (Hok 49 demo_first) as (t' & f' & E & _). exists t'. exact E.
Defined.

Example bfree_spec_witness : exists t', bfree ROOTDEV 30 (mk_fs demo_t demo_sb demo_ic) = Ret tt (mk_fs t' demo_sb demo_ic).
Proof.
  pose proof (bfree_spec demo_frame demo_img demo_sb demo_t ∅ ∅ demo_ic 30 demo_bitmap demo_tx_is
    ltac:(cbn; lia) (unheld_empty _) ltac:(vm_compute; lia) ltac:(vm_compute; lia)) as Hb.
  change (used demo_img demo_sb 30) with true in Hb. cbv iota in Hb.
  destruct Hb as (t' & f' & E & _). exists t'. exact E.
Defined.

Lemma demo_file_ok : file_ok demo_frame demo_img demo_file.
Proof.
  split.
  - reflexivity.
  - vm_compute. congruence.
  - reflexivity.
  - vm_compute. split; congruence.
  - intros bn Hb Hs. assert (bn = 0 \/ bn = 1) as [-> | ->] by (unfold BSIZE in Hs; cbn in Hs; lia); vm_compute; repeat split; congruence.
  - intros Hs. vm_compute in Hs. discriminate Hs.
Qed.
Lemma demo_file_sep : file_sep demo_frame demo_img demo_file.
Proof.
  split; cbn [i_size demo_file].
  - intros bn Hb Hs. assert (bn = 0 \/ bn = 1) as [-> | ->] by (unfold BSIZE in Hs; cbn in Hs; lia);
      (split; [vm_compute; split; congruence | intros [_ Hx]; vm_compute in Hx; discriminate Hx]).
  - intros bn bn' Hb Hs Hb' Hs'. assert (bn = 0 \/ bn = 1) as [-> | ->] by (unfold BSIZE in Hs; cbn in Hs; lia);
      (assert (bn' = 0 \/ bn' = 1) as [-> | ->] by (unfold BSIZE in Hs'; cbn in Hs'; lia)); vm_compute; congruence.
  - intros. unfold NDIRECT, BSIZE in *. lia.
Qed.

Example readi_spec_witness : exists t',
  readi 0 500 200 (mk_fs demo_t demo_sb demo_ic) =
  Ret (100, replicate 12 7 ++ replicate 88 0) (mk_fs t' demo_sb demo_ic).
Proof.
  destruct (readi_spec demo_frame demo_img demo_sb demo_t ∅ ∅ demo_ic 0 demo_file 500 200 eq_refl demo_file_ok
    demo_tx_is ltac:(vm_compute; lia) unheld_empty ltac:(lia) ltac:(lia) ltac:(lia)) as (t' & _ & E).
  exists t'. rewrite E. vm_compute. reflexivity.
Defined.

Example writei_spec_witness : exists t' f', writei 0 500 [1; 2; 3] (mk_fs demo_t demo_sb demo_ic) =
  Ret 3 (mk_fs t' demo_sb demo_ic) /\ file_bytes f' demo_file 500 3 = [1; 2; 3].
Proof.
  destruct (writei_spec demo_frame demo_img demo_sb demo_t ∅ ∅ demo_ic 0 demo_file 500 [1; 2; 3] eq_refl
    demo_file_ok demo_file_sep demo_tx_is unheld_empty) as (t' & f' & L' & E & _ & _ & Ef);
    [vm_compute; congruence | vm_compute; congruence | lia | vm_compute; congruence |].
  exists t', f'. split; [exact E | exact Ef].
Defined.

Lemma demo_dir_ok : file_ok demo_frame demo_img demo_dir_inode.
Proof.
  split.
  - reflexivity.
  - vm_compute. congruence.
  - reflexivity.
  - vm_compute. split; congruence.
  - intros bn Hb Hs. assert (bn = 0) as -> by (unfold BSIZE in Hs; cbn in Hs; lia). vm_compute. repeat split; congruence.
  - intros Hs. vm_compute in Hs. discriminate Hs.
Qed.

Example iget_spec_witness : exists ip i,
  iget ROOTDEV 1 (mk_fs demo_t demo_sb demo_ic) = Ret ip (mk_fs demo_t demo_sb (set_inode demo_ic ip i)) /\ i_inum i = 1 /\ 0 < i_ref i.
Proof.
  assert (Hin : forall j a, ic_inode demo_ic !! j = Some a ->
    (j, a) = (0%nat, demo_file) \/ (j, a) = (1%nat, demo_dir_inode) \/ a = free_inode).
  { intros [|[|j]] a E; [injection E as <-; auto | injection E as <-; auto|].
    right. right. cbn -[free_inode replicate] in E. apply lookup_replicate in E. tauto. }
  destruct (iget_spec demo_t demo_sb demo_ic ROOTDEV 1 eq_refl) as [(ip & i & E & _ & En & Er & _)|(s & _ & Hfull)].
  - intros j k a b Hj Hk. destruct (Hin j a Hj) as [[= -> ->]|[[= -> ->]| ->]],
      (Hin k b Hk) as [[= -> ->]|[[= -> ->]| ->]]; cbn; try lia; reflexivity.
  - intros j a Hj. destruct (Hin j a Hj) as [[= -> ->]|[[= -> ->]| ->]]; cbn; lia.
  - exists ip, i. split; [exact E|]. split; [exact En | exact Er].
  - specialize (Hfull 2%nat free_inode eq_refl). cbn in Hfull. lia.
Defined.

Example dirlookup_spec_witness : exists t', dirlookup 1 (str "ab") (mk_fs demo_t demo_sb demo_ic) =
  (let! ip := iget ROOTDEV 7 in ret (Some (ip, 16))) (mk_fs t' demo_sb demo_ic).
Proof.
  destruct (dirlookup_spec demo_frame demo_img demo_sb demo_t ∅ ∅ demo_ic 1 demo_dir_inode (str "ab") eq_refl
    demo_dir_ok eq_refl eq_refl demo_tx_is ltac:(vm_compute; lia) unheld_empty) as [Hyes _].
  destruct (Hyes 1 ltac:(vm_compute; split; congruence) ltac:(vm_compute; reflexivity)) as (t' & _ & E).
  - intros j Hj. assert (j = 0) as -> by lia. vm_compute. reflexivity.
  - exists t'. exact E.
Defined.

Example skipelem_spec_witness : skipelem (str "///a//bb") (replicate DIRSIZ 9) = Some (str "bb", [97; 0] ++ replicate 12 9) /\
  exists sl s sl', str "///a//bb" = sl ++ s ++ sl' ++ str "bb" /\ no_slash s.
Proof.
  split; [reflexivity|]. pose proof (skipelem_spec (str "///a//bb") (replicate DIRSIZ 9) eq_refl) as Hs.
  change (skipelem (str "///a//bb") (replicate DIRSIZ 9)) with (Some (str "bb", [97; 0] ++ replicate 12 9)) in Hs.
  destruct Hs as (sl & s & sl' & E & _ & _ & Hn & _). exists sl, s, sl'. split; [exact E | exact Hn].
Defined.
End Witnesses.
