(* ===== verification/FsGrow.v ===== *)
(** * Files that grow

    bmap() where a block is missing, writei() behind the end of a file and
    iupdate() of [Fs.v]: the blocks a file owns, the free blocks of the map,
    and the log entries that are enough. *)
From S2P Require Import Prelude.
From S2P Require Import Sleeplock.
From S2P Require Import Layout.
From S2P Require Import Bio.
From S2P Require Import Lru.
From S2P Require Import BioCache.
From S2P Require Import Cache.
From S2P Require Import Log.
From S2P Require Import LogProofs.
From S2P Require Import Tx.
From S2P Require Import Fs.
From S2P Require Import FsProofs.

(** ** The free blocks of the map *)

Definition frees (f : Z -> block) (sb : superblock) : list Z :=
  filter (fun b => used f sb b = false) (seqZ 0 (sb_size sb)).

Lemma elem_of_frees f sb b : b ∈ frees f sb <-> 0 <= b < sb_size sb /\ used f sb b = false.
Proof. unfold frees. rewrite list_elem_of_filter, elem_of_seqZ. split; intros [? ?]; split; auto; lia. Qed.
Lemma filter_ext {A} (P Q : A -> Prop) `{!forall x, Decision (P x), !forall x, Decision (Q x)} (l : list A) :
  (forall x, x ∈ l -> P x <-> Q x) -> filter P l = filter Q l.
Proof.
  induction l as [|x l IH]; intros HPQ; [reflexivity|]. rewrite !filter_cons.
  pose proof (HPQ x (list_elem_of_here _ _)) as Hx. rewrite IH by (intros y Hy; apply HPQ; right; exact Hy).
  destruct (decide (P x)), (decide (Q x)); tauto || reflexivity.
Qed.
Lemma filter_head {A} (P Q : A -> Prop) `{!forall x, Decision (P x), !forall x, Decision (Q x)} (l : list A) b r :
  NoDup l -> filter P l = b :: r -> (forall x, x ∈ l -> Q x <-> P x /\ x <> b) -> filter Q l = r.
Proof.
  induction l as [|x l IH]; intros Hnd E HQ; [discriminate|]. apply NoDup_cons in Hnd as [Hx Hnd]. rewrite filter_cons in *.
  pose proof (HQ x (list_elem_of_here _ _)) as Hqx. destruct (decide (P x)) as [Hp|Hp].
  - injection E as -> <-. rewrite decide_False by tauto. apply filter_ext. intros y Hy. rewrite HQ by (right; exact Hy).
    assert (y <> b) by (intros ->; contradiction). tauto.
  - rewrite decide_False by tauto. apply IH; [exact Hnd | exact E | intros y Hy; apply HQ; right; exact Hy].
Qed.
Lemma frees_ext f f' sb : (forall b, 0 <= b < sb_size sb -> used f' sb b = used f sb b) -> frees f' sb = frees f sb.
Proof. intros H. apply filter_ext. intros b Hb%elem_of_seqZ. rewrite H by lia. reflexivity. Qed.
Lemma filter_first {A} (P : A -> Prop) `{!forall x, Decision (P x)} (l : list A) b r : filter P l = b :: r ->
  exists l1 l2, l = l1 ++ b :: l2 /\ (forall x, x ∈ l1 -> ~ P x).
Proof.
  induction l as [|x l IH]; intros E; [discriminate|]. rewrite filter_cons in E. destruct (decide (P x)).
  - injection E as -> <-. exists [], l. split; [reflexivity|]. intros y Hy. apply not_elem_of_nil in Hy. contradiction.
  - destruct (IH E) as (l1 & l2 & -> & H1). exists (x :: l1), l2. split; [reflexivity|].
    intros y [->|Hy]%elem_of_cons; auto.
Qed.
Lemma frees_first f sb b r : frees f sb = b :: r -> first_free f sb b.
Proof.
  intros E. assert (b ∈ frees f sb) as Hb by (rewrite E; left). apply elem_of_frees in Hb as [Hb Hu].
  split; [exact Hb|]. split; [exact Hu|]. intros c Hc. unfold frees in E. destruct (filter_first _ _ _ _ E) as (l1 & l2 & El & H1).
  assert (Z.of_nat (length l1) = b) as Hl.
  { assert (seqZ 0 (sb_size sb) !! length l1 = Some b) as Hl by (rewrite El; apply list_lookup_middle; reflexivity).
    apply lookup_seqZ in Hl as [Hl _]. lia. }
  assert (l1 !! Z.to_nat c = Some c) as Hlc.
  { assert (seqZ 0 (sb_size sb) !! Z.to_nat c = Some c) as Hsc by (apply lookup_seqZ; lia).
    rewrite El, lookup_app_l in Hsc by lia. exact Hsc. }
  apply list_elem_of_lookup_2, H1 in Hlc. destruct (used f sb c); [reflexivity | contradiction].
Qed.

(** The allocator: balloc() hands out the head of the free blocks. *)
Record alloc_ok (g : frame) (f : Z -> block) (sb : superblock) : Prop := {
  al_map : bitmap_ok g f sb;
  al_size : 0 < sb_size sb;
  al_zero : used f sb 0 = true }.

Section Grow.
Context `{Ctx} {T : Type} `{TxLaws T} `{Devsw (fstate T)}.
Variables (g : frame) (sb : superblock).
Implicit Types (t : T) (f : Z -> block) (L W : gset Z) (h : gmap nat Z) (ic : icache).

Definition map_block (b : Z) : Prop := exists c, 0 <= c < sb_size sb /\ b = BBLOCK c sb.
Lemma used_agree f f' : (forall b, map_block b -> f' b = f b) -> forall b, 0 <= b < sb_size sb -> used f' sb b = used f sb b.
Proof. intros Hf b Hb. unfold used. rewrite Hf by (exists b; auto). reflexivity. Qed.
Lemma alloc_agree f f' : alloc_ok g f sb -> (forall b, map_block b -> f' b = f b) -> alloc_ok g f' sb.
Proof.
  intros [[B1 B2 B3 B4 B5 B6] Hs Hz] Hf. pose proof (used_agree f f' Hf) as Hu. split; [|exact Hs | rewrite Hu by lia; exact Hz].
  split; try assumption; intros *; [intros Hb U; apply B5; auto; rewrite <- Hu by exact Hb; exact U|].
  intros Hb Hc U. apply B6; auto. rewrite <- Hu by exact Hb. exact U.
Qed.

(** Blocks that may hold data: in use, writable, none of the map. *)
Record data_block f (b : Z) : Prop := {
  db_zero : b <> 0;
  db_range : 0 <= b < sb_size sb;
  db_used : used f sb b = true;
  db_home : fr_home g b;
  db_map : ~ map_block b }.
Lemma data_agree f f' b : (forall b, map_block b -> f' b = f b) -> data_block f b -> data_block f' b.
Proof. intros Hf [D1 D2 D3 D4 D5]. split; try assumption. rewrite (used_agree f f' Hf) by exact D2. exact D3. Qed.

(** What an allocation of [b] makes of the blocks. *)
Record allocates f (b : Z) f' : Prop := {
  as_ok : alloc_ok g f' sb;
  as_frees : frees f sb = b :: frees f' sb;
  as_used : forall c, 0 <= c < sb_size sb -> used f' sb c = (c =? b) || used f sb c;
  as_new : data_block f' b;
  as_zero : f' b = replicate 512 0;
  as_same : forall n, n <> b -> ~ map_block n -> f' n = f n }.

(** The log entries that are enough: a set with room in the log and in the
    buffer cache, for which the map blocks are counted once. *)
Record budget W : Prop := {
  bu_cap : (size W + 1 < fr_cap g)%nat;
  bu_buf : (size W + 2 < NBUF)%nat;
  bu_map : forall b, map_block b -> b ∈ W }.
Lemma budget_size W L h : budget W -> L ⊆ W -> (size h <= 1)%nat ->
  (size L + size h + 1 < NBUF)%nat /\ (size L + 1 < fr_cap g)%nat.
Proof. intros [B1 B2 _] Hl Hh. apply subseteq_size in Hl. lia. Qed.

(** No handle but one on a data block. *)
Definition hands f h : Prop := (size h <= 1)%nat /\ forall b, ~ unheld h b -> data_block f b.
Lemma hands_empty f h : (forall b, unheld h b) -> (size h <= 1)%nat -> hands f h.
Proof. intros Hh Hs. split; [exact Hs|]. intros b Hb. destruct (Hb (Hh b)). Qed.
Lemma hands_free f h : alloc_ok g f sb -> hands f h -> free_hands f sb h.
Proof.
  intros Ha [_ Hh] b Hb. split; [|intros Hu]; intros i Hi.
  - destruct (Hh (BBLOCK b sb)) as [_ _ _ _ Hm]; [intros Hx; exact (Hx i Hi)|]. apply Hm. exists b. auto.
  - destruct (Hh b) as [_ _ Hd _ _]; [intros Hx; exact (Hx i Hi)|]. congruence.
Qed.

Lemma balloc_step t f L h ic W b fl : alloc_ok g f sb -> tx_is t g f L h -> hands f h -> budget W -> L ⊆ W ->
  frees f sb = b :: fl -> b ∈ W ->
  exists t' f' L', balloc ROOTDEV (mk_fs t sb ic) = Ret b (mk_fs t' sb ic) /\ tx_is t' g f' L' h /\ L ⊆ L' /\ L' ⊆ W /\
    allocates f b f'.
Proof.
  intros [Hbm Hpos Hz] Ht Hh HW HL Hfl Hb. pose proof (frees_first f sb b fl Hfl) as Hfirst. pose proof Hfirst as (Hbr & Hbu & _).
  destruct (budget_size W L h HW HL (proj1 Hh)) as [Hs1 Hs2].
  destruct (balloc_eq g f sb Hbm t L h ic b Ht (hands_free f h (Build_alloc_ok g f sb Hbm Hpos Hz) Hh) Hs1 Hs2 Hfirst) as (t' & E & Ht').
  assert (length (f (BBLOCK b sb)) = 512%nat) as Hlen by (eapply tx_length; [exact Ht | apply (bm_map _ _ _ Hbm), Hbr]).
  pose proof (used_allocated g f sb Hbm b) as Hu.
  assert (forall c, 0 <= c < sb_size sb -> used (allocated f sb b) sb c = (c =? b) || used f sb c) as Hu' by (intros; apply Hu; assumption).
  assert (forall n, n <> b -> ~ map_block n -> allocated f sb b n = f n) as Hsame.
  { intros n Hn Hm. unfold allocated, upd_content. rewrite (proj2 (Z.eqb_neq n b)) by exact Hn.
    rewrite (proj2 (Z.eqb_neq n _)); [reflexivity|]. intros ->. apply Hm. exists b. auto. }
  assert (~ map_block b) as Hnm by (intros (c & Hc & Eb); exact (bm_self _ _ _ Hbm b c Hbr Hc Hbu Eb)).
  exists t', (allocated f sb b), (L ∪ {[BBLOCK b sb]} ∪ {[b]}). split; [exact E|]. split; [exact Ht'|].
  split; [clear; set_solver|]. split.
  { apply union_subseteq. split; [apply union_subseteq; split; [exact HL|]|]; apply singleton_subseteq_l;
      [apply (bu_map _ HW); exists b; auto | exact Hb]. }
  destruct Hbm as [B1 B2 B3 B4 B5 B6]. split.
  - split; [|exact Hpos | rewrite Hu' by lia; rewrite Hz; apply orb_true_r].
    split; try assumption; intros *.
    + intros Hr U. rewrite Hu' in U by exact Hr. apply orb_false_iff in U as [_ U]. auto.
    + intros Hr Hc U. rewrite Hu' in U by exact Hr. apply orb_false_iff in U as [_ U]. auto.
  - rewrite Hfl. f_equal. symmetry. apply (filter_head _ _ _ b fl (NoDup_seqZ _ _) Hfl).
    intros c Hc%elem_of_seqZ. rewrite Hu' by lia. destruct (Z.eqb_spec c b); cbn [orb]; split; intuition congruence.
  - exact Hu'.
  - split; [intros ->; congruence | exact Hbr | rewrite Hu', Z.eqb_refl by exact Hbr; reflexivity | apply B5; assumption | exact Hnm].
  - unfold allocated, upd_content. rewrite Z.eqb_refl. reflexivity.
  - exact Hsame.
Qed.

(** ** The blocks of an inode *)

(** [nb] data blocks; [hi] tells whether there is an indirect block. *)
Definition own f (i : inode) (nb : Z) (hi : bool) : list Z :=
  map (block_of f i) (seqZ 0 nb) ++ (if hi then [indirect i] else []).
Record inode_blocks f (i : inode) (nb : Z) (hi : bool) : Prop := {
  ob_dev : i_dev i = ROOTDEV;
  ob_type : i_type i <> T_DEV;
  ob_addrs : length (i_addrs i) = 13%nat;
  ob_nb : 0 <= nb <= MAXFILE;
  ob_hi : NDIRECT < nb -> hi = true;
  ob_nodup : NoDup (own f i nb hi);
  ob_good : forall b, b ∈ own f i nb hi -> data_block f b;
  ob_direct : forall k, nb <= k < NDIRECT -> nth (Z.to_nat k) (i_addrs i) 0 = 0;
  ob_noind : hi = false -> indirect i = 0;
  ob_entries : hi = true -> forall k, NDIRECT <= k -> nb <= k < MAXFILE -> block_of f i k = 0 }.

Lemma elem_of_own f i nb hi b : b ∈ own f i nb hi <-> (exists k, 0 <= k < nb /\ b = block_of f i k) \/ (hi = true /\ b = indirect i).
Proof.
  unfold own. rewrite elem_of_app. change (map (block_of f i)) with (fmap (M := list) (block_of f i)).
  rewrite list_elem_of_fmap. setoid_rewrite elem_of_seqZ. split.
  - intros [(k & -> & Hk)|Hi]; [left; exists k; split; [lia | reflexivity]|]. destruct hi; [|apply not_elem_of_nil in Hi; contradiction].
    apply list_elem_of_singleton in Hi. auto.
  - intros [(k & Hk & ->)|[-> ->]]; [left; exists k; split; [reflexivity | lia] | right; left].
Qed.
Lemma blocks_map f f' i i' nb : (forall k, 0 <= k < nb -> block_of f' i' k = block_of f i k) ->
  map (block_of f' i') (seqZ 0 nb) = map (block_of f i) (seqZ 0 nb).
Proof. intros Hk. apply map_ext_in. intros k Hin%list_elem_of_In%elem_of_seqZ. apply Hk. lia. Qed.
Lemma own_ext f f' i nb hi : (NDIRECT < nb -> f' (indirect i) = f (indirect i)) -> own f' i nb hi = own f i nb hi.
Proof.
  intros Hf. unfold own. f_equal. apply blocks_map. intros k Hk. unfold block_of.
  destruct (Z.ltb_spec k NDIRECT) as [|Hd]; [reflexivity|]. fold (indirect i). rewrite Hf by lia. reflexivity.
Qed.
Lemma blocks_ext f f' i nb hi : inode_blocks f i nb hi -> (hi = true -> f' (indirect i) = f (indirect i)) ->
  (forall b, data_block f b -> data_block f' b) -> inode_blocks f' i nb hi /\ own f' i nb hi = own f i nb hi.
Proof.
  intros [O1 O2 O3 O4 O5 O6 O7 O8 O9 O10] Hi Hd. assert (own f' i nb hi = own f i nb hi) as E by (apply own_ext; auto).
  split; [|exact E]. split; try assumption; rewrite ?E; auto.
  intros Ht k Hk1 Hk2. rewrite <- (O10 Ht k Hk1 Hk2). unfold block_of. rewrite (proj2 (Z.ltb_ge k NDIRECT)) by exact Hk1.
  fold (indirect i). rewrite Hi by exact Ht. reflexivity.
Qed.
Lemma indirect_own f i nb : indirect i ∈ own f i nb true.
Proof. apply elem_of_own. auto. Qed.

(** An allocation gives a block that is not owned and leaves the owned ones alone. *)
Lemma allocates_data f b f' : alloc_ok g f sb -> allocates f b f' -> forall c, data_block f c -> c <> b /\ data_block f' c /\ f' c = f c.
Proof.
  intros Ha [A1 A2 A3 A4 A5 A6] c [D1 D2 D3 D4 D5]. assert (c <> b) as Hc.
  { intros ->. assert (b ∈ frees f sb) as Hb by (rewrite A2; left). apply elem_of_frees in Hb as [_ Hb]. congruence. }
  split; [exact Hc|]. split; [|apply A6; assumption]. split; try assumption. rewrite A3, D3 by exact D2. apply orb_true_r.
Qed.
Lemma blocks_allocates f b f' i nb hi : alloc_ok g f sb -> allocates f b f' -> inode_blocks f i nb hi ->
  inode_blocks f' i nb hi /\ own f' i nb hi = own f i nb hi /\ b ∉ own f i nb hi.
Proof.
  intros Ha Hal Hb. pose proof (allocates_data f b f' Ha Hal) as Hd.
  destruct (blocks_ext f f' i nb hi Hb) as [B E].
  - intros ->. apply Hd, (ob_good _ _ _ _ Hb), indirect_own.
  - intros c Hc. apply Hd, Hc.
  - split; [exact B|]. split; [exact E|]. intros Hin. apply (ob_good _ _ _ _ Hb) in Hin. apply Hd in Hin as [Hne _]. congruence.
Qed.

Definition with_addr (i : inode) (n : nat) (b : Z) : inode := i <| i_addrs := <[n := b]> (i_addrs i) |>.
Lemma own_snoc f i nb hi : 0 <= nb -> own f i (nb + 1) hi ≡ₚ own f i nb hi ++ [block_of f i nb].
Proof.
  intros Hn. unfold own. change (map (block_of f i)) with (fmap (M := list) (block_of f i)).
  rewrite seqZ_app, fmap_app by lia. rewrite Z.add_0_l. assert (seqZ nb 1 = [nb]) as -> by (rewrite seqZ_cons by lia; reflexivity). cbn [fmap list_fmap].
  rewrite <- !app_assoc. apply Permutation_app_head, Permutation_app_comm.
Qed.
Lemma good_snoc f l b l' : l' ≡ₚ l ++ [b] -> NoDup l -> b ∉ l -> (forall c, c ∈ l -> data_block f c) -> data_block f b ->
  NoDup l' /\ forall c, c ∈ l' -> data_block f c.
Proof.
  intros E Hn Hb Hl Hd. split.
  - rewrite E. apply NoDup_app. split; [exact Hn|]. split; [intros c Hc ->%list_elem_of_singleton; contradiction | apply NoDup_singleton].
  - intros c Hc. rewrite E in Hc. apply elem_of_app in Hc as [Hc| ->%list_elem_of_singleton]; auto.
Qed.
Lemma add_direct f i nb b : inode_blocks f i nb false -> 0 <= nb < NDIRECT -> data_block f b -> b ∉ own f i nb false ->
  let i' := with_addr i (Z.to_nat nb) b in
  inode_blocks f i' (nb + 1) false /\ own f i' (nb + 1) false ≡ₚ own f i nb false ++ [b] /\
  (forall k, 0 <= k < nb -> block_of f i' k = block_of f i k) /\ block_of f i' nb = b.
Proof.
  intros [O1 O2 O3 O4 O5 O6 O7 O8 O9 O10] Hn Hd Hb i'. unfold NDIRECT in *.
  assert (forall k, 0 <= k < 12 -> block_of f i' k = if k =? nb then b else block_of f i k) as Hk.
  { intros k Hk. unfold block_of. rewrite (proj2 (Z.ltb_lt k NDIRECT)) by (unfold NDIRECT; lia). unfold i', with_addr. cbn.
    rewrite !nth_lookup. destruct (Z.eqb_spec k nb) as [->|Hne]; [rewrite list_lookup_insert_eq by lia; reflexivity|].
    rewrite list_lookup_insert_ne by lia. reflexivity. }
  assert (forall k, 0 <= k < nb -> block_of f i' k = block_of f i k) as Hold.
  { intros k Hk2. rewrite Hk, (proj2 (Z.eqb_neq k nb)) by lia. reflexivity. }
  assert (block_of f i' nb = b) as Hnew by (rewrite Hk, Z.eqb_refl by lia; reflexivity).
  assert (own f i' (nb + 1) false ≡ₚ own f i nb false ++ [b]) as Ep.
  { rewrite own_snoc, Hnew by lia. apply Permutation_app_tail. unfold own. rewrite (blocks_map f _ i _ nb Hold). reflexivity. }
  destruct (good_snoc f _ b _ Ep O6 Hb O7 Hd) as [Hnd Hgood]. split; [|auto]. split; try assumption; unfold MAXFILE, NDIRECT in *.
  - unfold i', with_addr. cbn. rewrite length_insert. exact O3.
  - lia.
  - lia.
  - intros k Hk2. unfold i', with_addr. cbn. rewrite nth_lookup, list_lookup_insert_ne by lia. rewrite <- nth_lookup. apply O8. lia.
  - intros _. unfold indirect, i', with_addr. cbn. rewrite nth_lookup, list_lookup_insert_ne by lia. rewrite <- nth_lookup. apply O9. reflexivity.
  - discriminate.
Qed.

Lemma get_u32_zeros off : (off + 4 <= 512)%nat -> get_u32 off (replicate 512 0) = 0.
Proof.
  intros Ho. unfold get_u32, bytes_at. rewrite drop_replicate, take_replicate, Nat.min_l by lia. reflexivity.
Qed.
Lemma add_indirect f i b : inode_blocks f i NDIRECT false -> data_block f b -> b ∉ own f i NDIRECT false -> f b = replicate 512 0 ->
  let i' := with_addr i 12 b in
  inode_blocks f i' NDIRECT true /\ own f i' NDIRECT true ≡ₚ own f i NDIRECT false ++ [b] /\
  (forall k, 0 <= k < NDIRECT -> block_of f i' k = block_of f i k) /\ indirect i' = b.
Proof.
  intros [O1 O2 O3 O4 O5 O6 O7 O8 O9 O10] Hd Hb Hz i'. unfold NDIRECT in *.
  assert (forall k, 0 <= k < 12 -> block_of f i' k = block_of f i k) as Hold.
  { intros k Hk. unfold block_of. rewrite (proj2 (Z.ltb_lt k NDIRECT)) by (unfold NDIRECT; lia). unfold i', with_addr. cbn.
    rewrite !nth_lookup, list_lookup_insert_ne by lia. reflexivity. }
  assert (indirect i' = b) as Hi.
  { unfold indirect, i', with_addr. cbn. rewrite nth_lookup, list_lookup_insert_eq by lia. reflexivity. }
  assert (own f i' 12 true ≡ₚ own f i 12 false ++ [b]) as Ep.
  { unfold own. rewrite (blocks_map f _ i _ 12 Hold), Hi, app_nil_r. reflexivity. }
  destruct (good_snoc f _ b _ Ep O6 Hb O7 Hd) as [Hnd Hgood]. split; [|auto]. split; try assumption; unfold MAXFILE, NDIRECT in *; try lia; try discriminate.
  - unfold i', with_addr. cbn. rewrite length_insert. exact O3.
  - intros _ k Hk1 Hk2. unfold block_of. rewrite (proj2 (Z.ltb_ge k NDIRECT)) by (unfold NDIRECT; lia). fold (indirect i').
    rewrite Hi, Hz. apply get_u32_zeros. unfold NDIRECT. lia.
Qed.
Definition put_entry f (i : inode) (nb b : Z) : Z -> block :=
  upd_content f (indirect i) (put_u32 (4 * Z.to_nat (nb - NDIRECT)) b (f (indirect i))).
Lemma add_entry f i nb b : inode_blocks f i nb true -> NDIRECT <= nb < MAXFILE -> data_block f b -> b ∉ own f i nb true ->
  sb_size sb < 2 ^ 31 -> length (f (indirect i)) = 512%nat -> let f' := put_entry f i nb b in
  inode_blocks f' i (nb + 1) true /\ own f' i (nb + 1) true ≡ₚ own f i nb true ++ [b] /\
  (forall k, 0 <= k < nb -> block_of f' i k = block_of f i k) /\ block_of f' i nb = b.
Proof.
  intros [O1 O2 O3 O4 O5 O6 O7 O8 O9 O10] Hn Hd Hb Hsb Hlen f'. unfold NDIRECT, MAXFILE in *.
  assert (~ map_block (indirect i)) as Hm by (apply (O7 _ (indirect_own f i nb))).
  assert (forall c, data_block f c -> data_block f' c) as Hda.
  { intros c Hc. apply (data_agree f); [|exact Hc]. intros x Hx. unfold f', put_entry, upd_content.
    destruct (Z.eqb_spec x (indirect i)) as [->|]; [contradiction | reflexivity]. }
  assert (f' (indirect i) = put_u32 (4 * Z.to_nat (nb - 12)) b (f (indirect i))) as Hfi.
  { unfold f', put_entry, upd_content. rewrite Z.eqb_refl. reflexivity. }
  assert (forall k, 0 <= k < 140 -> block_of f' i k = if k =? nb then b else block_of f i k) as Hk.
  { intros k Hk. unfold block_of. destruct (Z.ltb_spec k NDIRECT) as [H12|H12]; unfold NDIRECT in H12.
    - rewrite (proj2 (Z.eqb_neq k nb)) by lia. reflexivity.
    - fold (indirect i). rewrite Hfi. unfold NDIRECT. destruct (Z.eqb_spec k nb) as [->|Hne].
      + rewrite get_put_u32 by lia. unfold u32. apply Z.mod_small. pose proof (db_range _ _ Hd). lia.
      + rewrite get_put_u32_ne by lia. reflexivity. }
  assert (forall k, 0 <= k < nb -> block_of f' i k = block_of f i k) as Hold.
  { intros k Hk2. rewrite Hk, (proj2 (Z.eqb_neq k nb)) by lia. reflexivity. }
  assert (block_of f' i nb = b) as Hnew by (rewrite Hk, Z.eqb_refl by lia; reflexivity).
  assert (own f' i (nb + 1) true ≡ₚ own f i nb true ++ [b]) as Ep.
  { rewrite own_snoc, Hnew by lia. apply Permutation_app_tail. unfold own. rewrite (blocks_map f _ i _ nb Hold). reflexivity. }
  destruct (good_snoc f _ b _ Ep O6 Hb O7 Hd) as [Hnd Hgood]. split; [|auto]. split; try assumption; unfold MAXFILE, NDIRECT in *; try lia; try discriminate.
  - intros c Hc. apply Hda, Hgood, Hc.
  - intros _ k Hk1 Hk2. rewrite Hk, (proj2 (Z.eqb_neq k nb)) by lia. apply O10; [reflexivity | lia | lia].
Qed.

(** ** bmap() of the block behind the last one *)

(** From [nb] to [nb'] blocks: the old ones are where they were, [news] were
    free, [fl] are free still, nothing outside the file and the map changed. *)
Record grown f i nb hi f' i' nb' hi' (news fl : list Z) : Prop := {
  gr_blocks : inode_blocks f' i' nb' hi';
  gr_alloc : alloc_ok g f' sb;
  gr_frees : frees f' sb = fl;
  gr_old : forall k, 0 <= k < nb -> block_of f' i' k = block_of f i k;
  gr_own : own f' i' nb' hi' ≡ₚ own f i nb hi ++ news;
  gr_same : forall n, n ∉ own f' i' nb' hi' -> ~ map_block n -> f' n = f n;
  gr_inode : exists a, i' = i <| i_addrs := a |> }.
Lemma grown_refl f i nb hi : inode_blocks f i nb hi -> alloc_ok g f sb -> grown f i nb hi f i nb hi [] (frees f sb).
Proof. intros. split; auto; [rewrite app_nil_r; reflexivity | exists (i_addrs i); destruct i; reflexivity]. Qed.
Lemma grown_trans f i nb hi f1 i1 nb1 hi1 news1 fl1 f2 i2 nb2 hi2 news2 fl2 : nb <= nb1 ->
  grown f i nb hi f1 i1 nb1 hi1 news1 fl1 -> grown f1 i1 nb1 hi1 f2 i2 nb2 hi2 news2 fl2 ->
  grown f i nb hi f2 i2 nb2 hi2 (news1 ++ news2) fl2.
Proof.
  intros Hn [_ _ _ B4 B5 B6 [a B7]] [C1 C2 C3 C4 C5 C6 [a' C7]]. split; try assumption.
  - intros k Hk. rewrite C4, B4 by lia. reflexivity.
  - rewrite C5, B5, <- app_assoc. reflexivity.
  - intros n Hn2 Hm. rewrite C6, B6; auto. intros Hin. apply Hn2. rewrite C5. apply elem_of_app. auto.
  - exists a'. rewrite C7, B7. reflexivity.
Qed.
(** The content of the [nb] blocks is as it was. *)
Definition keeps f (i : inode) (nb : Z) f' : Prop := forall k, 0 <= k < nb -> f' (block_of f i k) = f (block_of f i k).

Lemma set_addr_eq t ic ip i n b : ic_inode ic !! ip = Some i -> (n < length (i_addrs i))%nat ->
  set_addr ip n b (mk_fs t sb ic) = Ret tt (mk_fs t sb (set_inode ic ip (with_addr i n b))).
Proof.
  intros Hi Hn. destruct (lookup_lt_is_Some_2 (i_addrs i) n Hn) as [a Ha].
  unfold set_addr, on_inode, in_icache, zoom, elt, modify, set_field. cbn. rewrite Hi. cbn. rewrite Ha. reflexivity.
Qed.
Lemma set_inode_lookup ic ip i i' : ic_inode ic !! ip = Some i -> ic_inode (set_inode ic ip i') !! ip = Some i'.
Proof. intros Hi. cbn. apply list_lookup_insert_eq. apply lookup_lt_Some in Hi. exact Hi. Qed.
Lemma set_inode_twice ic ip i i' : set_inode (set_inode ic ip i) ip i' = set_inode ic ip i'.
Proof. unfold set_inode. cbn. rewrite list_insert_insert_eq. reflexivity. Qed.

(** [ip->addrs[n]] is 0. *)
Lemma addr_alloc_new t f L ic ip i n W b fl : ic_inode ic !! ip = Some i -> i_dev i = ROOTDEV -> i_addrs i !! n = Some 0 ->
  alloc_ok g f sb -> tx_is t g f L ∅ -> budget W -> L ⊆ W -> frees f sb = b :: fl -> b ∈ W ->
  exists t' f' L', addr_alloc ip n (mk_fs t sb ic) = Ret b (mk_fs t' sb (set_inode ic ip (with_addr i n b))) /\
    tx_is t' g f' L' ∅ /\ L ⊆ L' /\ L' ⊆ W /\ allocates f b f'.
Proof.
  intros Hi Hdev Hn Ha Ht HW HL Hfl Hb.
  destruct (balloc_step t f L ∅ ic W b fl Ha Ht) as (t' & f' & L' & E & Ht' & HL1 & HL2 & Hal); try assumption.
  { apply hands_empty; [intros c; apply unheld_empty | rewrite map_size_empty; lia]. }
  exists t', f', L'. split; [|auto]. unfold addr_alloc. step by (apply inode_get_eq, Hi). rewrite Hn. step by reflexivity.
  change (0 =? 0) with true. cbv iota. rewrite Hdev. step by exact E.
  step by (apply set_addr_eq; [exact Hi | apply lookup_lt_Some in Hn; exact Hn]). reflexivity.
Qed.

Lemma own_block f i nb hi k : 0 <= k < nb -> block_of f i k ∈ own f i nb hi.
Proof. intros Hk. apply elem_of_own. left. exists k. auto. Qed.
Lemma block_ind f i nb k : inode_blocks f i nb true -> 0 <= k < nb -> block_of f i k <> indirect i.
Proof.
  intros Hb Hk E. pose proof (ob_nodup _ _ _ _ Hb) as Hn. unfold own in Hn. apply NoDup_app in Hn as (_ & Hn & _).
  apply (Hn (indirect i)); [|left]. rewrite <- E. change (map (block_of f i)) with (fmap (M := list) (block_of f i)).
  apply list_elem_of_fmap. exists k. split; [reflexivity | apply elem_of_seqZ; lia].
Qed.
Lemma block_inj f i nb hi k k' : inode_blocks f i nb hi -> 0 <= k < nb -> 0 <= k' < nb ->
  block_of f i k = block_of f i k' -> k = k'.
Proof.
  intros Hb Hk Hk' E. pose proof (ob_nodup _ _ _ _ Hb) as Hn. unfold own in Hn. apply NoDup_app in Hn as (Hn & _ & _).
  change (map (block_of f i)) with (fmap (M := list) (block_of f i)) in Hn.
  assert (forall k, 0 <= k < nb -> (block_of f i <$> seqZ 0 nb) !! Z.to_nat k = Some (block_of f i k)) as Hl.
  { intros j Hj. rewrite list_lookup_fmap, lookup_seqZ_lt by lia. cbn. do 2 f_equal. lia. }
  pose proof (NoDup_lookup _ (Z.to_nat k) (Z.to_nat k') (block_of f i k) Hn (Hl k Hk)) as Hx. rewrite E in Hx.
  specialize (Hx (Hl k' Hk')). lia.
Qed.

(** The three ways in which a file grows. *)
Lemma direct_grown f i nb b fl f1 : alloc_ok g f sb -> frees f sb = b :: fl -> allocates f b f1 ->
  inode_blocks f i nb false -> 0 <= nb < NDIRECT -> let i' := with_addr i (Z.to_nat nb) b in
  grown f i nb false f1 i' (nb + 1) false [b] fl /\ keeps f i nb f1 /\ block_of f1 i' nb = b.
Proof.
  intros Ha Hfl Hal Hb Hn i'. destruct (blocks_allocates f b f1 i nb false Ha Hal Hb) as (Hb1 & Eo & Hnb).
  pose proof (allocates_data f b f1 Ha Hal) as Hd. rewrite <- Eo in Hnb.
  destruct (add_direct f1 i nb b Hb1 Hn (as_new _ _ _ Hal) Hnb) as (Hb2 & Ep & Hold & Hnew). fold i' in Hb2, Ep, Hold, Hnew.
  assert (forall k, 0 <= k < nb -> block_of f1 i k = block_of f i k) as Hsame.
  { intros k Hk. unfold block_of. rewrite (proj2 (Z.ltb_lt k NDIRECT)) by lia. reflexivity. }
  split; [|split; [|exact Hnew]].
  - split; try assumption.
    + apply (as_ok _ _ _ Hal).
    + pose proof (as_frees _ _ _ Hal) as E. rewrite Hfl in E. injection E as E. congruence.
    + intros k Hk. rewrite Hold, Hsame by exact Hk. reflexivity.
    + rewrite Ep, Eo. reflexivity.
    + intros n Hn1 Hm. apply (as_same _ _ _ Hal); [|exact Hm]. intros ->. apply Hn1. rewrite <- Hnew at 1. apply own_block. lia.
    + eexists. reflexivity.
  - intros k Hk. apply Hd, (ob_good _ _ _ _ Hb), own_block, Hk.
Qed.
Lemma indirect_grown f i b fl f1 : alloc_ok g f sb -> frees f sb = b :: fl -> allocates f b f1 ->
  inode_blocks f i NDIRECT false -> let i' := with_addr i 12 b in
  grown f i NDIRECT false f1 i' NDIRECT true [b] fl /\ keeps f i NDIRECT f1 /\ indirect i' = b.
Proof.
  intros Ha Hfl Hal Hb i'. destruct (blocks_allocates f b f1 i _ false Ha Hal Hb) as (Hb1 & Eo & Hnb).
  pose proof (allocates_data f b f1 Ha Hal) as Hd. rewrite <- Eo in Hnb.
  destruct (add_indirect f1 i b Hb1 (as_new _ _ _ Hal) Hnb (as_zero _ _ _ Hal)) as (Hb2 & Ep & Hold & Hnew). fold i' in Hb2, Ep, Hold, Hnew.
  assert (forall k, 0 <= k < NDIRECT -> block_of f1 i k = block_of f i k) as Hsame.
  { intros k Hk. unfold block_of. rewrite (proj2 (Z.ltb_lt k NDIRECT)) by lia. reflexivity. }
  split; [|split; [|exact Hnew]].
  - split; try assumption.
    + apply (as_ok _ _ _ Hal).
    + pose proof (as_frees _ _ _ Hal) as E. rewrite Hfl in E. injection E as E. congruence.
    + intros k Hk. rewrite Hold, Hsame by exact Hk. reflexivity.
    + intros n Hn1 Hm. apply (as_same _ _ _ Hal); [|exact Hm]. intros ->. apply Hn1. rewrite <- Hnew at 1. apply indirect_own.
    + eexists. reflexivity.
  - intros k Hk. apply Hd, (ob_good _ _ _ _ Hb), own_block, Hk.
Qed.
Lemma entry_grown f i nb b f1 : alloc_ok g f sb -> allocates f b f1 -> inode_blocks f i nb true ->
  NDIRECT <= nb < MAXFILE -> length (f1 (indirect i)) = 512%nat -> let f' := put_entry f1 i nb b in
  grown f i nb true f' i (nb + 1) true [b] (frees f1 sb) /\ keeps f i nb f' /\ block_of f' i nb = b /\ f' b = replicate 512 0.
Proof.
  intros Ha Hal Hb Hn Hlen f'. destruct (blocks_allocates f b f1 i nb true Ha Hal Hb) as (Hb1 & Eo & Hnb).
  pose proof (allocates_data f b f1 Ha Hal) as Hd. pose proof (ob_good _ _ _ _ Hb1 _ (indirect_own f1 i nb)) as Hind.
  assert (sb_size sb < 2 ^ 31) as Hsmall.
  { pose proof (bm_size _ _ _ (al_map _ _ _ Ha)). pose proof (bm_small _ _ _ (al_map _ _ _ Ha)). lia. }
  rewrite <- Eo in Hnb. destruct (add_entry f1 i nb b Hb1 Hn (as_new _ _ _ Hal) Hnb Hsmall Hlen) as (Hb2 & Ep & Hold & Hnew).
  fold f' in Hb2, Ep, Hold, Hnew.
  assert (forall n, n <> indirect i -> f' n = f1 n) as Hf'.
  { intros n Hi. unfold f', put_entry, upd_content. rewrite (proj2 (Z.eqb_neq n _)) by exact Hi. reflexivity. }
  assert (forall n, map_block n -> f' n = f1 n) as Hmap.
  { intros n Hm. apply Hf'. intros ->. exact (db_map _ _ Hind Hm). }
  assert (forall k, 0 <= k < nb -> block_of f1 i k = block_of f i k) as Hsame.
  { intros k Hk. unfold block_of. fold (indirect i).
    rewrite (proj2 (proj2 (Hd (indirect i) (ob_good _ _ _ _ Hb _ (indirect_own f i nb))))). reflexivity. }
  assert (b <> indirect i) as Hbi by (intros ->; apply Hnb, indirect_own).
  split; [|split; [|split; [exact Hnew|]]].
  - split; try assumption.
    + apply (alloc_agree f1); [apply (as_ok _ _ _ Hal) | exact Hmap].
    + apply frees_ext, used_agree, Hmap.
    + intros k Hk. rewrite Hold, Hsame by exact Hk. reflexivity.
    + rewrite Ep, Eo. reflexivity.
    + intros n Hn1 Hm. rewrite Hf' by (intros ->; apply Hn1, indirect_own).
      apply (as_same _ _ _ Hal); [|exact Hm]. intros ->. apply Hn1. rewrite <- Hnew at 1. apply own_block. unfold NDIRECT in *. lia.
    + exists (i_addrs i). destruct i. reflexivity.
  - intros k Hk. rewrite Hf' by (apply block_ind with nb; assumption).
    apply Hd, (ob_good _ _ _ _ Hb), own_block, Hk.
  - rewrite Hf' by exact Hbi. apply (as_zero _ _ _ Hal).
Qed.
Lemma rewritten_grown f i nb hi k x : alloc_ok g f sb -> inode_blocks f i nb hi -> 0 <= k < nb ->
  grown f i nb hi (upd_content f (block_of f i k) x) i nb hi [] (frees f sb).
Proof.
  intros Ha Hb Hk. set (f' := upd_content _ _ _). pose proof (ob_good _ _ _ _ Hb _ (own_block f i nb hi k Hk)) as Hd.
  assert (forall n, n <> block_of f i k -> f' n = f n) as Hf'.
  { intros n Hi. unfold f', upd_content. rewrite (proj2 (Z.eqb_neq n _)) by exact Hi. reflexivity. }
  assert (forall n, map_block n -> f' n = f n) as Hmap.
  { intros n Hm. apply Hf'. intros ->. exact (db_map _ _ Hd Hm). }
  destruct (blocks_ext f f' i nb hi Hb) as [Hb' Eo].
  - intros ->. apply Hf'. intros E. symmetry in E. revert E. apply block_ind with nb; assumption.
  - intros c. apply data_agree, Hmap.
  - split; try assumption.
    + apply (alloc_agree f); assumption.
    + apply frees_ext, used_agree, Hmap.
    + intros j Hj. unfold block_of. fold (indirect i). destruct (Z.ltb_spec j NDIRECT); [reflexivity|].
      rewrite Hf'; [reflexivity|]. intros E. symmetry in E. revert E.
      destruct hi; [apply block_ind with nb; assumption|]. pose proof (ob_hi _ _ _ _ Hb). lia.
    + rewrite Eo, app_nil_r. reflexivity.
    + intros n Hn _. apply Hf'. intros ->. apply Hn. rewrite Eo. apply own_block, Hk.
    + exists (i_addrs i). destruct i. reflexivity.
Qed.

(** The entry of the indirect block is 0. *)
Lemma bmap_entry t t1 f L ic ic1 ip i W nb b fl : addr_alloc ip 12 (mk_fs t sb ic) = Ret (indirect i) (mk_fs t1 sb ic1) ->
  ic_inode ic1 !! ip = Some i -> inode_blocks f i nb true -> NDIRECT <= nb < MAXFILE -> alloc_ok g f sb ->
  tx_is t1 g f L ∅ -> budget W -> L ⊆ W -> frees f sb = b :: fl -> b ∈ W -> indirect i ∈ W ->
  exists t' f' L', bmap ip nb (mk_fs t sb ic) = Ret b (mk_fs t' sb ic1) /\ tx_is t' g f' L' ∅ /\ L ⊆ L' /\ L' ⊆ W /\
    grown f i nb true f' i (nb + 1) true [b] fl /\ keeps f i nb f' /\ block_of f' i nb = b /\ f' b = replicate 512 0.
Proof.
  intros Ea Hi Hb Hn Ha Ht HW HL Hfl HbW HiW. pose proof (ob_good _ _ _ _ Hb _ (indirect_own f i nb)) as Hind.
  pose proof (bm_size _ _ _ (al_map _ _ _ Ha)) as Hsize. pose proof (db_range _ _ Hind) as Hr.
  destruct (budget_size W L ∅ HW HL ltac:(rewrite map_size_empty; lia)) as [Hs1 Hs2].
  destruct (tx_bread t1 g f L ∅ (indirect i) Ht ltac:(lia) (unheld_empty _) ltac:(lia)) as (j & t2 & E1 & _ & Ht2).
  assert (hands f (<[j := indirect i]> ∅)) as Hh.
  { split; [rewrite map_size_insert, lookup_empty, map_size_empty; reflexivity|]. intros c Hc.
    destruct (decide (c = indirect i)) as [->|Hne]; [exact Hind|]. exfalso. apply Hc. intros k Hk.
    apply lookup_insert_Some in Hk as [[_ E]|[_ E]]; [congruence | rewrite lookup_empty in E; discriminate]. }
  destruct (balloc_step t2 f L _ ic1 W b fl Ha Ht2 Hh HW HL Hfl HbW) as (t3 & f1 & L3 & E2 & Ht3 & HL3 & HW3 & Hal).
  assert (forall f, length (f (indirect i)) = 512%nat -> length (put_u32 (4 * Z.to_nat (nb - NDIRECT)) b (f (indirect i))) = 512%nat) as Hlen.
  { intros f0 E. unfold put_u32. rewrite length_store. exact E. }
  assert (length (f1 (indirect i)) = 512%nat) as Hl1 by (eapply tx_length; [exact Ht3 | lia]).
  pose proof (lookup_insert_eq (M := gmap nat) ∅ j (indirect i)) as Hj.
  destruct (tx_set_data t3 g f1 L3 _ j _ _ Ht3 Hj (Hlen _ Hl1)) as (t4 & E3 & Ht4).
  pose proof (subseteq_size _ _ HW3) as Hsz. pose proof (bu_cap _ HW) as Hcap.
  destruct (tx_log_write t4 g _ L3 _ j _ Ht4 Hj (db_home _ _ Hind) ltac:(lia)) as (t5 & E4 & Ht5).
  destruct (tx_brelse t5 g _ _ _ j _ Ht5 Hj ltac:(left; clear; set_solver)) as (t6 & E5 & Ht6).
  rewrite delete_insert_id in Ht6 by apply lookup_empty. fold (put_entry f1 i nb b) in Ht6.
  pose proof (entry_grown f i nb b f1 Ha Hal Hb Hn Hl1) as Hg.
  exists t6, (put_entry f1 i nb b), (L3 ∪ {[indirect i]}). split.
  2: { split; [exact Ht6|]. split; [clear -HL3; set_solver|]. split; [clear -HW3 HiW; set_solver|].
    pose proof (as_frees _ _ _ Hal) as E. rewrite Hfl in E. injection E as E. rewrite E. exact Hg. }
  unfold bmap. rewrite (proj2 (Z.ltb_ge nb NDIRECT)), (proj2 (Z.ltb_lt (nb - NDIRECT) NINDIRECT))
    by (unfold NDIRECT, NINDIRECT, MAXFILE in *; lia).
  step by exact Ea. step by (apply inode_get_eq, Hi). rewrite (ob_dev _ _ _ _ Hb).
  step by (apply in_tx_ret, E1). step by (apply in_tx_ret; eapply tx_data; [exact Ht2 | exact Hj]).
  assert (get_u32 (4 * Z.to_nat (nb - NDIRECT)) (f (indirect i)) = 0) as ->.
  { rewrite <- (ob_entries _ _ _ _ Hb eq_refl nb) by lia. unfold block_of. rewrite (proj2 (Z.ltb_ge nb NDIRECT)) by lia. reflexivity. }
  change (0 =? 0) with true. cbv iota. step by exact E2. step by (apply in_tx_ret; eapply tx_data; [exact Ht3 | exact Hj]).
  step by (apply in_tx_ret, E3). step by (apply in_tx_ret, E4). step by (apply in_tx_ret, E5). reflexivity.
Qed.

(** The blocks to allocate for a file to grow from [nb] to [nb'] blocks. *)
Definition needed (nb nb' : Z) : Z := nb' - nb + (if (nb <=? NDIRECT) && (NDIRECT <? nb') then 1 else 0).

(** The block behind the last one is zeroed and new. *)
Lemma bmap_new t f L ic ip i W nb news fl : ic_inode ic !! ip = Some i -> inode_blocks f i nb (NDIRECT <? nb) -> 0 <= nb < MAXFILE ->
  alloc_ok g f sb -> tx_is t g f L ∅ -> budget W -> L ⊆ W -> frees f sb = news ++ fl ->
  Z.of_nat (length news) = needed nb (nb + 1) -> (forall b, b ∈ news -> b ∈ W) -> (NDIRECT < nb -> indirect i ∈ W) ->
  exists t' f' L' i', bmap ip nb (mk_fs t sb ic) = Ret (block_of f' i' nb) (mk_fs t' sb (set_inode ic ip i')) /\
    tx_is t' g f' L' ∅ /\ L ⊆ L' /\ L' ⊆ W /\ grown f i nb (NDIRECT <? nb) f' i' (nb + 1) (NDIRECT <? nb + 1) news fl /\
    keeps f i nb f' /\ f' (block_of f' i' nb) = replicate 512 0 /\ block_of f' i' nb ∈ W /\
    (NDIRECT < nb + 1 -> indirect i' ∈ W).
Proof.
  intros Hip Hb Hn Ha Ht HW HL Hfl Hlen HnW HiW. unfold needed in Hlen.
  assert (forall n, (n < 13)%nat -> i_addrs i !! n = Some (nth n (i_addrs i) 0)) as Hlook by (intros; apply addr_lookup; [apply Hb | assumption]).
  destruct (Z.ltb_spec nb NDIRECT) as [Hd|Hd].
  - (* a direct block *)
    rewrite (proj2 (Z.ltb_ge NDIRECT nb)), (proj2 (Z.ltb_ge NDIRECT (nb + 1))) in * by lia. rewrite andb_false_r in Hlen.
    destruct news as [|b [|]]; cbn [length] in Hlen; try lia. cbn [app] in Hfl.
    assert (i_addrs i !! Z.to_nat nb = Some 0) as H0' by (rewrite Hlook by (unfold NDIRECT in *; lia); f_equal; apply (ob_direct _ _ _ _ Hb); lia).
    destruct (addr_alloc_new t f L ic ip i (Z.to_nat nb) W b fl Hip (ob_dev _ _ _ _ Hb) H0' Ha Ht HW HL Hfl (HnW b (list_elem_of_here _ _)))
      as (t1 & f1 & L1 & E1 & Ht1 & HL1 & HW1 & Hal).
    destruct (direct_grown f i nb b fl f1 Ha Hfl Hal Hb ltac:(lia)) as (Hg & Hk & Hnew).
    exists t1, f1, L1, (with_addr i (Z.to_nat nb) b). rewrite Hnew. split_and!; try assumption.
    + unfold bmap. rewrite (proj2 (Z.ltb_lt nb NDIRECT)) by exact Hd. exact E1.
    + apply (as_zero _ _ _ Hal).
    + apply HnW. left.
    + lia.
  - rewrite (proj2 (Z.ltb_lt NDIRECT (nb + 1))) in * by lia. rewrite andb_true_r in Hlen. destruct (Z.leb_spec nb NDIRECT) as [He|He].
    + (* the first indirect one *)
      assert (nb = NDIRECT) as -> by lia. rewrite Z.ltb_irrefl in *. destruct news as [|b1 [|b2 [|]]]; cbn [length] in Hlen; try lia. cbn [app] in Hfl.
      assert (i_addrs i !! 12%nat = Some 0) as H0' by (rewrite Hlook by lia; f_equal; apply (ob_noind _ _ _ _ Hb); reflexivity).
      destruct (addr_alloc_new t f L ic ip i 12 W b1 (b2 :: fl) Hip (ob_dev _ _ _ _ Hb) H0' Ha Ht HW HL Hfl (HnW b1 (list_elem_of_here _ _)))
        as (t1 & f1 & L1 & E1 & Ht1 & HL1 & HW1 & Hal).
      destruct (indirect_grown f i b1 (b2 :: fl) f1 Ha Hfl Hal Hb) as (Hg & Hk & Hnew). set (i1 := with_addr i 12 b1) in *.
      destruct (bmap_entry t t1 f1 L1 ic (set_inode ic ip i1) ip i1 W NDIRECT b2 fl) as (t2 & f2 & L2 & E2 & Ht2 & HL2 & HW2 & Hg2 & Hk2 & Hb2 & Hz2);
        try assumption; try apply Hg.
      * rewrite Hnew. exact E1.
      * eapply set_inode_lookup, Hip.
      * unfold NDIRECT, MAXFILE. lia.
      * apply HnW. right. left.
      * rewrite Hnew. apply HnW. left.
      * exists t2, f2, L2, i1. rewrite Hb2. split_and!; try assumption.
        -- clear -HL1 HL2. set_solver.
        -- apply (grown_trans _ _ _ _ _ _ _ _ [b1] _ _ _ _ _ [b2] _ ltac:(reflexivity) Hg Hg2).
        -- intros k Hk3. rewrite <- (Hk k Hk3), <- (gr_old _ _ _ _ _ _ _ _ _ _ Hg k Hk3). apply Hk2, Hk3.
        -- apply HnW. right. left.
        -- intros _. rewrite Hnew. apply HnW. left.
    + (* an indirect one *)
      rewrite (proj2 (Z.ltb_lt NDIRECT nb)) in * by lia. destruct news as [|b [|]]; cbn [length] in Hlen; try lia. cbn [app] in Hfl.
      destruct (bmap_entry t t f L ic ic ip i W nb b fl) as (t2 & f2 & L2 & E2 & Ht2 & HL2 & HW2 & Hg2 & Hk2 & Hb2 & Hz2); try assumption; try lia.
      * apply addr_alloc_eq with i; [exact Hip | apply Hlook; lia|]. apply (ob_good _ _ _ _ Hb _ (indirect_own f i nb)).
      * apply HnW. left.
      * apply HiW. lia.
      * exists t2, f2, L2, i. rewrite Hb2. split_and!; try assumption; [| apply HnW; left | intros _; apply HiW; lia].
        rewrite E2. do 2 f_equal. unfold set_inode. rewrite list_insert_id by exact Hip. destruct ic. reflexivity.
Qed.

(** ** Content *)

(** Block [k] and byte [k] of a file of [nb] blocks; zeros behind them. *)
Definition content f (i : inode) (nb k : Z) : block := if k <? nb then f (block_of f i k) else replicate 512 0.
Definition byte_at f (i : inode) (nb k : Z) : Z := nth (Z.to_nat (k mod BSIZE)) (content f i nb (k / BSIZE)) 0.
Lemma byte_at_file f i nb k : 0 <= k < BSIZE * nb -> byte_at f i nb k = file_byte f i k.
Proof.
  intros Hk. unfold byte_at, content, file_byte. rewrite (proj2 (Z.ltb_lt (k / BSIZE) nb)); [reflexivity|].
  apply Z.div_lt_upper_bound; [reflexivity | lia].
Qed.

(** bmap() of a block of the file or of the one behind: the content is the same. *)
Lemma bmap_step t f L ic ip i W nb bn news fl : ic_inode ic !! ip = Some i -> inode_blocks f i nb (NDIRECT <? nb) ->
  0 <= bn <= nb -> bn < MAXFILE -> alloc_ok g f sb -> tx_is t g f L ∅ -> budget W -> L ⊆ W -> frees f sb = news ++ fl ->
  Z.of_nat (length news) = needed nb (Z.max nb (bn + 1)) -> (forall b, b ∈ news -> b ∈ W) ->
  (bn < nb -> block_of f i bn ∈ W) -> (NDIRECT < nb -> indirect i ∈ W) ->
  let nb' := Z.max nb (bn + 1) in
  exists t' f' L' i', bmap ip bn (mk_fs t sb ic) = Ret (block_of f' i' bn) (mk_fs t' sb (set_inode ic ip i')) /\
    tx_is t' g f' L' ∅ /\ L ⊆ L' /\ L' ⊆ W /\ grown f i nb (NDIRECT <? nb) f' i' nb' (NDIRECT <? nb') news fl /\
    (forall k, 0 <= k -> content f' i' nb' k = content f i nb k) /\ block_of f' i' bn ∈ W /\ (NDIRECT < nb' -> indirect i' ∈ W).
Proof.
  intros Hip Hb Hbn Hmax Ha Ht HW HL Hfl Hlen HnW HbW HiW nb'. fold nb' in Hlen. destruct (decide (bn < nb)) as [Hold|Hnew].
  - assert (nb' = nb) as E by lia. rewrite E in *. unfold needed in Hlen.
    assert (length news = 0%nat) as Hl0.
    { destruct (Z.leb_spec nb NDIRECT), (Z.ltb_spec NDIRECT nb); cbn [andb] in Hlen; lia. }
    apply nil_length_inv in Hl0. subst news. cbn [app] in Hfl.
    destruct (budget_size W L ∅ HW HL ltac:(rewrite map_size_empty; lia)) as [Hs1 _].
    pose proof (bm_size _ _ _ (al_map _ _ _ Ha)) as Hsize.
    destruct (bmap_there g sb ic ip i Hip t f L ∅ bn (ob_dev _ _ _ _ Hb) (ob_addrs _ _ _ _ Hb) Ht ltac:(lia) unheld_empty ltac:(lia))
      as (t1 & E1 & Ht1).
    + apply (ob_good _ _ _ _ Hb _ (own_block f i nb _ bn ltac:(lia))).
    + intros Hd. rewrite (proj2 (Z.ltb_lt NDIRECT nb)) in Hb by lia. destruct (ob_good _ _ _ _ Hb _ (indirect_own f i nb)) as [D1 D2 _ _ _]. lia.
    + exists t1, f, L, i. split_and!; try assumption; auto.
      * rewrite E1. do 2 f_equal. unfold set_inode. rewrite list_insert_id by exact Hip. destruct ic. reflexivity.
      * rewrite <- Hfl. apply grown_refl; assumption.
  - assert (bn = nb /\ nb' = nb + 1) as [-> E] by lia. rewrite E in *.
    destruct (bmap_new t f L ic ip i W nb news fl) as (t1 & f1 & L1 & i1 & E1 & Ht1 & HL1 & HW1 & Hg & Hk & Hz & HbW1 & HiW1); try assumption; [lia|].
    exists t1, f1, L1, i1. split_and!; try assumption. intros k Hk0. unfold content.
    destruct (Z.ltb_spec k nb) as [H1'|H1']; [|destruct (Z.ltb_spec k (nb + 1)) as [H2'|H2']; [|reflexivity]].
    + rewrite (proj2 (Z.ltb_lt k (nb + 1))) by lia. rewrite (gr_old _ _ _ _ _ _ _ _ _ _ Hg) by lia. apply Hk. lia.
    + assert (k = nb) as -> by lia. exact Hz.
Qed.

(** A part of a block is stored. *)
Lemma store_bytes f i nb hi off m src : inode_blocks f i nb hi -> 0 <= off -> 0 < m -> off mod BSIZE + m <= BSIZE -> off / BSIZE < nb ->
  Z.of_nat (length src) = m -> length (f (block_of f i (off / BSIZE))) = 512%nat ->
  let f' := upd_content f (block_of f i (off / BSIZE)) (store (Z.to_nat (off mod BSIZE)) src (f (block_of f i (off / BSIZE)))) in
  (forall k, 0 <= k < nb -> block_of f' i k = block_of f i k) ->
  forall k, 0 <= k -> byte_at f' i nb k = if (off <=? k) && (k <? off + m) then nth (Z.to_nat (k - off)) src 0 else byte_at f i nb k.
Proof.
  intros Hb Hoff Hm Hfit Hbn Hsrc Hlen f' Hold k Hk. unfold byte_at, content.
  assert (0 <= k / BSIZE /\ 0 <= off / BSIZE) as [Hk0 Ho0] by (unfold BSIZE; clear -Hk Hoff; split; dlia).
  destruct (Z.ltb_spec (k / BSIZE) nb) as [Hin|Hout]; [|rewrite other_block by (assumption || lia); reflexivity].
  rewrite Hold by lia. unfold f' at 1, upd_content. destruct (Z.eqb_spec (block_of f i (k / BSIZE)) (block_of f i (off / BSIZE))) as [E|E].
  - apply (block_inj f i nb hi) in E; [|assumption|lia|lia]. rewrite (nth_store off m) by (assumption || lia). rewrite E. reflexivity.
  - rewrite other_block; [reflexivity | exact Hoff | exact Hfit | intros E'; apply E; f_equal; exact E'].
Qed.

(** ** writei() behind the end *)

(** The blocks of a file of at least [nb] that holds [n] bytes. *)
Definition blocks_for (nb n : Z) : Z := Z.max nb ((n + BSIZE - 1) / BSIZE).
Lemma needed_add nb nb1 nb2 : nb <= nb1 <= nb2 -> needed nb nb2 = needed nb nb1 + needed nb1 nb2.
Proof.
  intros Hn. unfold needed. destruct (Z.leb_spec nb NDIRECT), (Z.leb_spec nb1 NDIRECT), (Z.ltb_spec NDIRECT nb2), (Z.ltb_spec NDIRECT nb1);
    cbn [andb]; lia.
Qed.
Lemma needed_nonneg nb nb' : nb <= nb' -> 0 <= needed nb nb'.
Proof. intros Hn. unfold needed. destruct (_ && _); lia. Qed.

(** What the loop of writei() does to a file of [nb] blocks. *)
Record wrote f i nb f' i' (off : Z) (src : list Z) (news fl : list Z) : Prop := {
  wr_grown : let nb' := blocks_for nb (off + Z.of_nat (length src)) in
    grown f i nb (NDIRECT <? nb) f' i' nb' (NDIRECT <? nb') news fl;
  wr_bytes : forall k, 0 <= k -> byte_at f' i' (blocks_for nb (off + Z.of_nat (length src))) k =
    if (off <=? k) && (k <? off + Z.of_nat (length src)) then nth (Z.to_nat (k - off)) src 0 else byte_at f i nb k }.
(** The log entries for it. *)
Record covers f i nb (off n : Z) (news : list Z) W : Prop := {
  co_news : forall b, b ∈ news -> b ∈ W;
  co_old : forall bn, off / BSIZE <= bn < nb -> bn * BSIZE < off + n -> block_of f i bn ∈ W;
  co_indirect : NDIRECT < nb -> indirect i ∈ W }.

Lemma wrote_nil f i nb off fl : inode_blocks f i nb (NDIRECT <? nb) -> alloc_ok g f sb -> 0 <= off <= BSIZE * nb -> frees f sb = fl ->
  wrote f i nb f i off [] [] fl.
Proof.
  intros Hb Ha Hoff <-. assert (blocks_for nb (off + Z.of_nat (length (A := Z) [])) = nb) as E.
  { unfold blocks_for. cbn [length]. rewrite Z.max_l; [reflexivity|]. unfold BSIZE in *. clear -Hoff. dlia. }
  split; rewrite E; [apply grown_refl; assumption|]. intros k Hk. cbn [length]. rewrite Z.add_0_r.
  destruct (Z.leb_spec off k), (Z.ltb_spec k off); try lia; reflexivity.
Qed.
(** A round of the loop, then the rest. *)
Lemma wrote_step f i nb f1 i1 f' i' bn m off src news1 news2 fl : let nb1 := Z.max nb (bn + 1) in
  let f2 := upd_content f1 (block_of f1 i1 bn) (store (Z.to_nat (off mod BSIZE)) (take (Z.to_nat m) src) (f1 (block_of f1 i1 bn))) in
  bn = off / BSIZE -> 0 <= off <= BSIZE * nb -> 0 < m <= Z.of_nat (length src) -> off mod BSIZE + m <= BSIZE ->
  grown f i nb (NDIRECT <? nb) f1 i1 nb1 (NDIRECT <? nb1) news1 (news2 ++ fl) ->
  (forall k, 0 <= k -> content f1 i1 nb1 k = content f i nb k) -> length (f1 (block_of f1 i1 bn)) = 512%nat ->
  grown f1 i1 nb1 (NDIRECT <? nb1) f2 i1 nb1 (NDIRECT <? nb1) [] (news2 ++ fl) ->
  wrote f2 i1 nb1 f' i' (off + m) (drop (Z.to_nat m) src) news2 fl -> wrote f i nb f' i' off src (news1 ++ news2) fl.
Proof.
  intros nb1 f2 Hbn Hoff Hm Hfit Hg1 Hc1 Hlen Hg2 [Hg3 Hw3]. unfold BSIZE in Hbn, Hoff.
  assert (0 <= bn) as Hbn0 by (clear -Hbn Hoff; dlia).
  assert (off + m + Z.of_nat (length (drop (Z.to_nat m) src)) = off + Z.of_nat (length src)) as Eend by (rewrite length_drop; lia).
  assert (blocks_for nb1 (off + Z.of_nat (length src)) = blocks_for nb (off + Z.of_nat (length src))) as Enb.
  { unfold blocks_for, nb1, BSIZE. clear -Hbn Hm Hoff. dlia. }
  rewrite Eend, Enb in *. split.
  - assert (nb <= nb1) as Hn1 by lia.
    pose proof (grown_trans _ _ _ _ _ _ _ _ _ _ _ _ _ _ _ _ Hn1 Hg1 Hg2) as Hg. rewrite app_nil_r in Hg.
    exact (grown_trans _ _ _ _ _ _ _ _ _ _ _ _ _ _ _ _ Hn1 Hg Hg3).
  - intros k Hk. rewrite Hw3 by exact Hk. subst bn.
    assert (byte_at f2 i1 nb1 k = if (off <=? k) && (k <? off + m) then nth (Z.to_nat (k - off)) (take (Z.to_nat m) src) 0 else byte_at f1 i1 nb1 k) as ->.
    { apply (store_bytes f1 i1 nb1 (NDIRECT <? nb1) off m (take (Z.to_nat m) src)); try assumption; try lia.
      - apply Hg1.
      - unfold BSIZE in *. lia.
      - rewrite length_take. lia.
      - intros j Hj. apply (gr_old _ _ _ _ _ _ _ _ _ _ Hg2), Hj. }
    assert (byte_at f1 i1 nb1 k = byte_at f i nb k) as ->.
    { unfold byte_at. rewrite Hc1; [reflexivity|]. unfold BSIZE. clear -Hk. dlia. }
    destruct (Z.leb_spec off k), (Z.leb_spec (off + m) k), (Z.ltb_spec k (off + m)),
      (Z.ltb_spec k (off + Z.of_nat (length src))); cbn [andb]; try lia; try reflexivity.
    + rewrite !nth_lookup, lookup_drop. do 2 f_equal. lia.
    + rewrite !nth_lookup, lookup_take_lt by lia. reflexivity.
Qed.

Lemma grow_nil fuel t f L ic ip i W nb off news fl : ic_inode ic !! ip = Some i ->
  inode_blocks f i nb (NDIRECT <? nb) -> alloc_ok g f sb -> tx_is t g f L ∅ -> L ⊆ W ->
  0 <= off <= BSIZE * nb -> frees f sb = news ++ fl -> Z.of_nat (length news) = needed nb (blocks_for nb (off + 0)) ->
  exists t' f' L' i', writei_loop fuel ip off [] (mk_fs t sb ic) = Ret (off + 0) (mk_fs t' sb (set_inode ic ip i')) /\
    tx_is t' g f' L' ∅ /\ L ⊆ L' /\ L' ⊆ W /\ wrote f i nb f' i' off [] news fl.
Proof.
  intros Hip Hb Ha Ht HL Hoff Hfl Hlen. assert (blocks_for nb (off + 0) = nb) as E.
  { unfold blocks_for, BSIZE in *. clear -Hoff. dlia. }
  rewrite E in Hlen. unfold needed in Hlen. destruct news; [|cbn [length] in Hlen; destruct (Z.leb_spec nb NDIRECT), (Z.ltb_spec NDIRECT nb); cbn [andb] in Hlen; lia].
  exists t, f, L, i. split_and!; try assumption; [|reflexivity|apply wrote_nil; assumption].
  rewrite Z.add_0_r. assert (set_inode ic ip i = ic) as -> by (unfold set_inode; rewrite list_insert_id by exact Hip; destruct ic; reflexivity).
  destruct fuel; reflexivity.
Qed.
Lemma grow_loop fuel : forall t f L ic ip i W nb off src news fl, ic_inode ic !! ip = Some i ->
  inode_blocks f i nb (NDIRECT <? nb) -> alloc_ok g f sb -> tx_is t g f L ∅ -> budget W -> L ⊆ W ->
  (length src <= fuel)%nat -> 0 <= off <= BSIZE * nb -> off + Z.of_nat (length src) <= MAXFILE * BSIZE -> frees f sb = news ++ fl ->
  Z.of_nat (length news) = needed nb (blocks_for nb (off + Z.of_nat (length src))) -> covers f i nb off (Z.of_nat (length src)) news W ->
  exists t' f' L' i', writei_loop fuel ip off src (mk_fs t sb ic) =
      Ret (off + Z.of_nat (length src)) (mk_fs t' sb (set_inode ic ip i')) /\
    tx_is t' g f' L' ∅ /\ L ⊆ L' /\ L' ⊆ W /\ wrote f i nb f' i' off src news fl.
Proof.
  induction fuel as [|fuel IH]; intros t f L ic ip i W nb off src news fl Hip Hb Ha Ht HW HL Hfuel Hoff Hend Hfl Hlen Hcov.
  { destruct src; [eapply grow_nil; eassumption | cbn in Hfuel; lia]. }
  destruct src as [|c src']; [eapply grow_nil; eassumption|].
  remember (c :: src') as src eqn:Esrc. assert (0 < Z.of_nat (length src)) as Hpos by (subst src; cbn; lia).
  pose proof (Z.mod_pos_bound off BSIZE ltac:(reflexivity)) as Hmod.
  set (bn := off / BSIZE). set (m := Z.min (Z.of_nat (length src)) (BSIZE - off mod BSIZE)). set (nb1 := Z.max nb (bn + 1)).
  assert (0 <= bn <= nb /\ bn < MAXFILE /\ bn * BSIZE < off + Z.of_nat (length src)) as (Hbn & Hbmax & Hbend).
  { unfold bn, MAXFILE, BSIZE in *. clear -Hoff Hend Hpos. split; [dlia|]. split; dlia. }
  assert (0 < m <= Z.of_nat (length src) /\ off mod BSIZE + m <= BSIZE) as [Hm Hfit] by lia.
  set (N := off + Z.of_nat (length src)) in *.
  assert (nb <= nb1 <= blocks_for nb N /\ blocks_for nb1 N = blocks_for nb N) as [Hn1 Hn2].
  { unfold nb1, bn, N, blocks_for, BSIZE. clear -Hpos Hoff. split; [split|]; dlia. }
  assert (off + m <= BSIZE * nb1 /\ 0 <= off + m) as [Hoff1 Hoff2].
  { unfold nb1, bn, BSIZE in *. clear -Hfit Hoff Hm. split; dlia. }
  rewrite (needed_add nb nb1) in Hlen by exact Hn1. pose proof (needed_nonneg nb nb1 (proj1 Hn1)) as Hp1. pose proof (needed_nonneg nb1 _ (proj2 Hn1)) as Hp2.
  set (news1 := take (Z.to_nat (needed nb nb1)) news). set (news2 := drop (Z.to_nat (needed nb nb1)) news).
  assert (news1 ++ news2 = news) as Enews by apply take_drop.
  assert (Z.of_nat (length news1) = needed nb nb1 /\ Z.of_nat (length news2) = needed nb1 (blocks_for nb N)) as [Hl1 Hl2].
  { unfold news1, news2. rewrite length_take, length_drop. lia. }
  destruct Hcov as [C1 C2 C3]. rewrite <- Enews in Hfl, C1. rewrite <- app_assoc in Hfl.
  destruct (bmap_step t f L ic ip i W nb bn news1 (news2 ++ fl)) as (t1 & f1 & L1 & i1 & E1 & Ht1 & HL1 & HW1 & Hg1 & Hc1 & Hb1 & Hi1);
    try assumption.
  { intros b Hin. apply C1, elem_of_app. auto. }
  { intros Hlt. apply C2; [unfold bn in *; lia | exact Hbend]. }
  fold nb1 in Hg1, Hc1, Hi1. pose proof (gr_blocks _ _ _ _ _ _ _ _ _ _ Hg1) as Hib1. pose proof (gr_alloc _ _ _ _ _ _ _ _ _ _ Hg1) as Ha1.
  assert (bn < nb1) as Hbn1 by lia.
  pose proof (ob_good _ _ _ _ Hib1 _ (own_block f1 i1 nb1 _ bn (conj (proj1 Hbn) Hbn1))) as Hd1.
  pose proof (bm_size _ _ _ (al_map _ _ _ Ha1)) as Hsz. pose proof (db_range _ _ Hd1) as Hr1.
  assert (length (f1 (block_of f1 i1 bn)) = 512%nat) as Hblk by (eapply tx_length; [exact Ht1 | lia]).
  destruct (budget_size W L1 ∅ HW HW1 ltac:(rewrite map_size_empty; lia)) as [Hs1 Hs2].
  destruct (tx_open_write t1 g f1 L1 ∅ (block_of f1 i1 bn) (store (Z.to_nat (off mod BSIZE)) (take (Z.to_nat m) src) (f1 (block_of f1 i1 bn)))
    Ht1 ltac:(lia) (unheld_empty _) ltac:(lia) (db_home _ _ Hd1) ltac:(lia) ltac:(rewrite length_store; exact Hblk))
    as (b & t2 & t3 & t4 & t5 & E2 & E3 & E4 & E5 & E6 & Ht5).
  pose proof (rewritten_grown f1 i1 nb1 _ bn (store (Z.to_nat (off mod BSIZE)) (take (Z.to_nat m) src) (f1 (block_of f1 i1 bn)))
    Ha1 Hib1 (conj (proj1 Hbn) Hbn1)) as Hg2. rewrite (gr_frees _ _ _ _ _ _ _ _ _ _ Hg1) in Hg2. set (f2 := upd_content f1 _ _) in *.
  assert (off + m + Z.of_nat (length (drop (Z.to_nat m) src)) = N) as Eend by (rewrite length_drop; unfold N; lia).
  destruct (IH t5 f2 (L1 ∪ {[block_of f1 i1 bn]}) (set_inode ic ip i1) ip i1 W nb1 (off + m) (drop (Z.to_nat m) src) news2 fl)
    as (t6 & f6 & L6 & i6 & E7 & Ht6 & HL6 & HW6 & Hw6); try assumption; rewrite ?Eend.
  - eapply set_inode_lookup, Hip.
  - apply Hg2.
  - apply Hg2.
  - clear -HW1 Hb1. set_solver.
  - rewrite length_drop. lia.
  - lia.
  - lia.
  - apply Hg2.
  - rewrite Hn2. exact Hl2.
  - split; [intros x Hx; apply C1, elem_of_app; auto | | exact Hi1]. intros k Hk Hk2. rewrite Eend in Hk2.
    assert (bn <= k) as Hbk by (unfold bn, BSIZE in *; clear -Hk Hm; dlia).
    assert (0 <= k < nb1) as Hk3 by lia.
    rewrite (gr_old _ _ _ _ _ _ _ _ _ _ Hg2) by exact Hk3. destruct (decide (k < nb)) as [Hlt|Hge].
    + rewrite (gr_old _ _ _ _ _ _ _ _ _ _ Hg1) by lia. apply C2; [unfold bn in *; lia | exact Hk2].
    + assert (k = bn) as -> by lia. exact Hb1.
  - exists t6, f6, L6, i6. rewrite set_inode_twice in E7. split_and!; try assumption.
    + rewrite Esrc. cbn [writei_loop]. rewrite <- Esrc. step by (apply inode_get_eq, Hip). step by exact E1.
      rewrite (ob_dev _ _ _ _ Hb). step by (apply in_tx_ret, E2). step by (apply in_tx_ret, E3). fold m.
      step by (apply in_tx_ret, E4). step by (apply in_tx_ret, E5). step by (apply in_tx_ret, E6).
      unfold u32. rewrite Z.mod_small by (unfold MAXFILE, BSIZE in *; lia). rewrite E7, Eend. reflexivity.
    + clear -HL1 HL6. set_solver.
    + rewrite <- Enews. eapply wrote_step with (m := m); try eassumption; try reflexivity.
Qed.

(** ** The inode on the disk *)

Definition dinode_of (i : inode) : dinode :=
  mk_dinode (i_type i) (i_major i) (i_minor i) (i_nlink i) (i_size i) (i_addrs i).
Definition home_of (i : inode) : Z := IBLOCK (i_inum i) sb.
Definition slot_of (i : inode) : nat := Z.to_nat (i_inum i mod IPB).

(** An inode of [nb] blocks, its size within them, its copy on the disk. *)
Record file_at f (i : inode) (nb : Z) : Prop := {
  fa_blocks : inode_blocks f i nb (NDIRECT <? nb);
  fa_alloc : alloc_ok g f sb;
  fa_size : 0 <= i_size i <= BSIZE * nb;
  fa_dinode : dinode_ok (dinode_of i);
  fa_home : data_block f (home_of i);
  fa_own : home_of i ∉ own f i nb (NDIRECT <? nb);
  fa_disk : get_dinode (slot_of i) (f (home_of i)) = dinode_of i }.

Lemma slot_lt i : (slot_of i < 8)%nat.
Proof. unfold slot_of, IPB. pose proof (Z.mod_pos_bound (i_inum i) 8 ltac:(lia)). lia. Qed.
Lemma blocks_size f i nb hi n : inode_blocks f i nb hi -> inode_blocks f (i <| i_size := n |>) nb hi.
Proof. intros [O1 O2 O3 O4 O5 O6 O7 O8 O9 O10]. destruct i. split; assumption. Qed.
(** A write to a block that is neither of the file nor of the map. *)
Lemma outside_grown f i nb hi b x : alloc_ok g f sb -> inode_blocks f i nb hi -> b ∉ own f i nb hi -> ~ map_block b ->
  let f' := upd_content f b x in
  inode_blocks f' i nb hi /\ alloc_ok g f' sb /\ frees f' sb = frees f sb /\ own f' i nb hi = own f i nb hi /\
  (forall c, data_block f c -> data_block f' c) /\ (forall k, 0 <= k < nb -> f' (block_of f' i k) = f (block_of f i k)).
Proof.
  intros Ha Hb Hown Hm f'. assert (forall n, n <> b -> f' n = f n) as Hf'.
  { intros n Hi. unfold f', upd_content. rewrite (proj2 (Z.eqb_neq n _)) by exact Hi. reflexivity. }
  assert (forall n, map_block n -> f' n = f n) as Hmap by (intros n Hn; apply Hf'; intros ->; contradiction).
  destruct (blocks_ext f f' i nb hi Hb) as [Hb' Eo].
  - intros ->. apply Hf'. intros E. apply Hown. rewrite <- E. apply indirect_own.
  - intros c. apply data_agree, Hmap.
  - split; [exact Hb'|]. split; [apply (alloc_agree f); assumption|]. split; [apply frees_ext, used_agree, Hmap|]. split; [exact Eo|].
    split; [intros c; apply data_agree, Hmap|]. intros k Hk.
    assert (block_of f' i k = block_of f i k) as ->.
    { unfold block_of. fold (indirect i). destruct (Z.ltb_spec k NDIRECT); [reflexivity|]. rewrite Hf'; [reflexivity|].
      intros E. apply Hown. pose proof (ob_hi _ _ _ _ Hb ltac:(lia)) as ->. rewrite <- E. apply indirect_own. }
    apply Hf'. intros E. apply Hown. rewrite <- E. apply own_block, Hk.
Qed.
Lemma addrs_range f i nb : inode_blocks f i nb (NDIRECT <? nb) -> sb_size sb < 2 ^ 31 -> Forall (fun a => 0 <= a < 2 ^ 32) (i_addrs i).
Proof.
  intros Hb Hs. apply Forall_lookup_2. intros n a Hn. pose proof (lookup_lt_Some _ _ _ Hn) as Hl. rewrite (ob_addrs _ _ _ _ Hb) in Hl.
  apply (nth_lookup_Some _ _ 0) in Hn.
  assert (forall b, data_block f b -> 0 <= b < 2 ^ 32) as Hd by (intros b [_ Hr _ _ _]; lia).
  destruct (decide (n = 12%nat)) as [->|Hne].
  - fold (indirect i) in Hn. destruct (Z.ltb_spec NDIRECT nb) as [Hi|Hi].
    + subst a. apply Hd, (ob_good _ _ _ _ Hb), indirect_own.
    + rewrite (ob_noind _ _ _ _ Hb eq_refl) in Hn. lia.
  - destruct (decide (Z.of_nat n < nb)) as [Hlt|Hge].
    + rewrite <- Hn. assert (block_of f i (Z.of_nat n) = nth n (i_addrs i) 0) as <-.
      { unfold block_of. rewrite (proj2 (Z.ltb_lt _ _)) by (unfold NDIRECT; lia). rewrite Nat2Z.id. reflexivity. }
      apply Hd, (ob_good _ _ _ _ Hb), own_block. lia.
    + pose proof (ob_direct _ _ _ _ Hb (Z.of_nat n) ltac:(unfold NDIRECT; lia)) as E. rewrite Nat2Z.id in E. lia.
Qed.

(** iupdate() stores the inode. *)
Lemma iupdate_eq t f L ic ip i W nb : ic_inode ic !! ip = Some i -> inode_blocks f i nb (NDIRECT <? nb) -> alloc_ok g f sb ->
  dinode_ok (dinode_of i) -> data_block f (home_of i) -> home_of i ∉ own f i nb (NDIRECT <? nb) ->
  tx_is t g f L ∅ -> budget W -> L ⊆ W ->
  exists t', iupdate ip (mk_fs t sb ic) = Ret tt (mk_fs t' sb ic) /\
    tx_is t' g (upd_content f (home_of i) (put_dinode (slot_of i) (dinode_of i) (f (home_of i)))) (L ∪ {[home_of i]}) ∅.
Proof.
  intros Hip Hb Ha Hd Hh Ho Ht HW HL. pose proof (bm_size _ _ _ (al_map _ _ _ Ha)) as Hsz. pose proof (db_range _ _ Hh) as Hr.
  destruct (budget_size W L ∅ HW HL ltac:(rewrite map_size_empty; lia)) as [Hs1 Hs2].
  assert (length (f (home_of i)) = 512%nat) as Hlen by (eapply tx_length; [exact Ht | lia]).
  destruct (get_put_dinode (f (home_of i)) (slot_of i) (slot_of i) (dinode_of i) Hlen (slot_lt i) (slot_lt i) Hd) as [Hl _].
  destruct (tx_open_write t g f L ∅ (home_of i) _ Ht ltac:(lia) (unheld_empty _) ltac:(lia) (db_home _ _ Hh) ltac:(lia) Hl)
    as (b & t2 & t3 & t4 & t5 & E2 & E3 & E4 & E5 & E6 & Ht5).
  exists t5. split; [|exact Ht5]. unfold iupdate. step by (apply inode_get_eq, Hip). step by reflexivity. cbn [fs_sb].
  rewrite (ob_dev _ _ _ _ Hb). fold (home_of i) (slot_of i) (dinode_of i).
  step by (apply in_tx_ret, E2). step by (apply in_tx_ret, E3). step by (apply in_tx_ret, E4). step by (apply in_tx_ret, E5).
  apply in_tx_ret, E6.
Qed.

(** Blocks in use are none of the new ones. *)
Lemma grown_data f i nb hi f' i' nb' hi' news fl c : grown f i nb hi f' i' nb' hi' news fl -> frees f sb = news ++ fl ->
  data_block f c -> data_block f' c /\ (c ∉ own f i nb hi -> c ∉ own f' i' nb' hi').
Proof.
  intros Hg Hfl [D1 D2 D3 D4 D5]. assert (c ∉ news ++ fl) as Hc.
  { rewrite <- Hfl. intros Hin. apply elem_of_frees in Hin as [_ Hu]. congruence. }
  apply not_elem_of_app in Hc as [Hc1 Hc2]. split.
  - split; try assumption. destruct (used f' sb c) eqn:Hu; [reflexivity|]. exfalso. apply Hc2.
    rewrite <- (gr_frees _ _ _ _ _ _ _ _ _ _ Hg). apply elem_of_frees. auto.
  - intros Ho. rewrite (gr_own _ _ _ _ _ _ _ _ _ _ Hg), elem_of_app. tauto.
Qed.
(** Without new blocks the inode is the same. *)
Lemma grown_same f i nb f' i' fl : inode_blocks f i nb (NDIRECT <? nb) ->
  grown f i nb (NDIRECT <? nb) f' i' nb (NDIRECT <? nb) [] fl -> i' = i.
Proof.
  intros Hb [Hb' _ _ Hold Hown _ [a Ea]]. assert (i_addrs i' = i_addrs i) as E.
  2: { rewrite Ea in E |- *. cbn in E. subst a. destruct i. reflexivity. }
  assert (indirect i' = indirect i) as Ei.
  { destruct (NDIRECT <? nb) eqn:Hi; [|rewrite (ob_noind _ _ _ _ Hb eq_refl), (ob_noind _ _ _ _ Hb' eq_refl); reflexivity].
    unfold own in Hown. rewrite (blocks_map f f' i i' nb Hold), app_nil_r in Hown. apply Permutation_app_inv_l in Hown.
    apply Permutation_length_1 in Hown. exact Hown. }
  apply list_eq_same_length with (n := 13%nat); [apply Hb | apply Hb'|]. intros n x y Hn Hx Hy.
  apply (nth_lookup_Some _ _ 0) in Hx, Hy. subst x y. destruct (decide (n = 12%nat)) as [->|Hne]; [exact Ei|].
  assert (forall f i, block_of f i (Z.of_nat n) = nth n (i_addrs i) 0) as Hd.
  { intros. unfold block_of. rewrite (proj2 (Z.ltb_lt _ _)) by (unfold NDIRECT; lia). rewrite Nat2Z.id. reflexivity. }
  destruct (decide (Z.of_nat n < nb)) as [Hlt|Hge]; [rewrite <- (Hd f i), <- (Hd f' i'); apply Hold; lia|].
  pose proof (ob_direct _ _ _ _ Hb (Z.of_nat n) ltac:(unfold NDIRECT; lia)) as E1.
  pose proof (ob_direct _ _ _ _ Hb' (Z.of_nat n) ltac:(unfold NDIRECT; lia)) as E2. rewrite Nat2Z.id in E1, E2. congruence.
Qed.

(** ** writei() of bytes at the end of a file *)

Record appended f i nb f' i' (off : Z) (src : list Z) (news fl : list Z) : Prop := {
  ap_file : file_at f' i' (blocks_for nb (off + Z.of_nat (length src)));
  ap_inode : exists a, i' = (i <| i_addrs := a |>) <| i_size := Z.max (i_size i) (off + Z.of_nat (length src)) |>;
  ap_own : let nb' := blocks_for nb (off + Z.of_nat (length src)) in
    own f' i' nb' (NDIRECT <? nb') ≡ₚ own f i nb (NDIRECT <? nb) ++ news;
  ap_frees : frees f' sb = fl;
  ap_bytes : forall k, 0 <= k < i_size i' -> file_byte f' i' k =
    if (off <=? k) && (k <? off + Z.of_nat (length src)) then nth (Z.to_nat (k - off)) src 0 else file_byte f i k;
  ap_same : forall b, b ∉ own f i nb (NDIRECT <? nb) ++ news -> ~ map_block b -> b <> home_of i -> f' b = f b;
  ap_slots : forall j, (j < 8)%nat -> j <> slot_of i -> get_dinode j (f' (home_of i)) = get_dinode j (f (home_of i)) }.

(** What the loop and then iupdate() leave. *)
Lemma appended_in f i nb f' i' off src news fl : file_at f i nb -> frees f sb = news ++ fl -> 0 <= off ->
  off + Z.of_nat (length src) <= i_size i -> Z.of_nat (length news) = needed nb (blocks_for nb (off + Z.of_nat (length src))) ->
  wrote f i nb f' i' off src news fl -> i' = i /\ appended f i nb f' i' off src news fl.
Proof.
  intros [F1 F2 F3 F4 F5 F6 F7] Hfl Hoff Hend Hlen [Hg Hbytes].
  assert (blocks_for nb (off + Z.of_nat (length src)) = nb) as E.
  { unfold blocks_for, BSIZE in *. clear -Hend F3 Hoff. dlia. }
  cbv zeta in Hg. rewrite E in *.
  assert (news = []) as -> by (unfold needed in Hlen; destruct news; [reflexivity|]; cbn [length] in Hlen;
    destruct (Z.leb_spec nb NDIRECT), (Z.ltb_spec NDIRECT nb); cbn [andb] in Hlen; lia).
  pose proof (grown_same f i nb f' i' fl F1 Hg) as ->. split; [reflexivity|].
  destruct (grown_data _ _ _ _ _ _ _ _ _ _ _ Hg Hfl F5) as [F5' F6'].
  assert (f' (home_of i) = f (home_of i)) as Eh by (apply (gr_same _ _ _ _ _ _ _ _ _ _ Hg); [auto | apply F5]).
  split; rewrite ?E; cbv zeta; rewrite ?E.
  - split; try assumption; try apply Hg; [apply F6', F6 | rewrite Eh; exact F7].
  - exists (i_addrs i). rewrite Z.max_l by lia. destruct i. reflexivity.
  - apply Hg.
  - apply Hg.
  - intros k Hk. rewrite <- !(byte_at_file _ _ nb) by lia. apply Hbytes. lia.
  - intros b Hb Hm _. apply (gr_same _ _ _ _ _ _ _ _ _ _ Hg); [|exact Hm]. rewrite (gr_own _ _ _ _ _ _ _ _ _ _ Hg). exact Hb.
  - intros j _ _. rewrite Eh. reflexivity.
Qed.
Lemma appended_behind f i nb f' i' off src news fl x : let i2 := i' <| i_size := off + Z.of_nat (length src) |> in
  let f2 := upd_content f' (home_of i) x in
  file_at f i nb -> frees f sb = news ++ fl -> 0 <= off <= i_size i -> i_size i < off + Z.of_nat (length src) ->
  off + Z.of_nat (length src) <= MAXFILE * BSIZE -> wrote f i nb f' i' off src news fl -> x = put_dinode (slot_of i) (dinode_of i2) (f' (home_of i)) ->
  length (f' (home_of i)) = 512%nat ->
  dinode_ok (dinode_of i2) /\ data_block f' (home_of i) /\
  home_of i ∉ own f' i2 (blocks_for nb (off + Z.of_nat (length src))) (NDIRECT <? blocks_for nb (off + Z.of_nat (length src))) /\
  inode_blocks f' i2 (blocks_for nb (off + Z.of_nat (length src))) (NDIRECT <? blocks_for nb (off + Z.of_nat (length src))) /\
  appended f i nb f2 i2 off src news fl.
Proof.
  intros i2 f2 [F1 F2 F3 F4 F5 F6 F7] Hfl Hoff Hend Hmax [Hg Hbytes] Hx Hlen. cbv zeta in Hg.
  set (N := off + Z.of_nat (length src)) in *. set (nb' := blocks_for nb N) in *.
  destruct (gr_inode _ _ _ _ _ _ _ _ _ _ Hg) as [a Ea]. pose proof (gr_blocks _ _ _ _ _ _ _ _ _ _ Hg) as Hb'.
  pose proof (gr_alloc _ _ _ _ _ _ _ _ _ _ Hg) as Ha'.
  assert (sb_size sb < 2 ^ 31) as Hsmall.
  { pose proof (bm_size _ _ _ (al_map _ _ _ Ha')). pose proof (bm_small _ _ _ (al_map _ _ _ Ha')). lia. }
  pose proof (addrs_range f' i' nb' Hb' Hsmall) as Hrange. pose proof (ob_addrs _ _ _ _ Hb') as Haddrs.
  destruct (grown_data _ _ _ _ _ _ _ _ _ _ _ Hg Hfl F5) as [F5' F6']. specialize (F6' F6).
  assert (dinode_ok (dinode_of i2)) as Hd2.
  { destruct F4 as (Y1 & Y2 & Y3 & Y4 & _). subst i'. unfold i2. destruct i. cbn in *. unfold dinode_ok. cbn.
    split_and!; try assumption; try lia; unfold MAXFILE, BSIZE in *; lia. }
  pose proof (outside_grown f' i' nb' _ (home_of i) x Ha' Hb' F6' (db_map _ _ F5')) as G.
  cbv zeta in G. change (upd_content f' (home_of i) x) with f2 in G. destruct G as (G1 & G2 & G3 & G4 & G5 & G6).
  assert (f2 (home_of i) = x) as Eh by (unfold f2, upd_content; rewrite Z.eqb_refl; reflexivity).
  assert (home_of i2 = home_of i /\ slot_of i2 = slot_of i) as [Eh2 Es2] by (subst i'; destruct i; split; reflexivity).
  assert (i_size i2 = N) as Esz by (destruct i'; reflexivity).
  assert (forall f, own f i2 nb' (NDIRECT <? nb') = own f i' nb' (NDIRECT <? nb')) as Eown by (intros; destruct i'; reflexivity).
  assert (forall f k, block_of f i2 k = block_of f i' k) as Eblk by (intros; destruct i'; reflexivity).
  pose proof (get_put_dinode (f' (home_of i)) (slot_of i)) as Hslots.
  split; [exact Hd2|]. split; [exact F5'|]. split; [rewrite Eown; exact F6'|]. split; [apply blocks_size, Hb'|].
  split; cbv zeta; fold N nb'.
  - split; try assumption.
    + apply blocks_size, G1.
    + rewrite Esz. unfold nb', blocks_for, BSIZE in *. clear -Hend Hoff. dlia.
    + rewrite Eh2. apply G5, F5'.
    + rewrite Eh2, Eown, G4. exact F6'.
    + rewrite Eh2, Es2, Eh, Hx. destruct (Hslots (slot_of i) _ Hlen (slot_lt i) (slot_lt i) Hd2) as [_ E].
      rewrite decide_True in E by reflexivity. exact E.
  - exists a. rewrite Z.max_r by lia. subst i'. reflexivity.
  - rewrite Eown, G4. apply (gr_own _ _ _ _ _ _ _ _ _ _ Hg).
  - rewrite G3. apply Hg.
  - intros k Hk. rewrite Esz in Hk. unfold file_byte at 1. rewrite Eblk.
    assert (0 <= k / BSIZE < nb') as Hkb by (unfold nb', blocks_for, BSIZE; clear -Hk; dlia).
    rewrite (G6 _ Hkb). fold (file_byte f' i' k). rewrite <- (byte_at_file f' i' nb') by (unfold nb', blocks_for, BSIZE in *; clear -Hk; dlia).
    rewrite Hbytes by lia. destruct (Z.leb_spec off k), (Z.ltb_spec k N); cbn [andb]; try lia; try reflexivity;
      apply byte_at_file; lia.
  - intros b Hb Hm Hne. unfold f2, upd_content. rewrite (proj2 (Z.eqb_neq b _)) by exact Hne.
    apply (gr_same _ _ _ _ _ _ _ _ _ _ Hg); [|exact Hm]. rewrite (gr_own _ _ _ _ _ _ _ _ _ _ Hg). exact Hb.
  - intros j Hj Hne. rewrite Eh, Hx. destruct (Hslots j _ Hlen (slot_lt i) Hj Hd2) as [_ E]. rewrite decide_False in E by exact Hne.
    rewrite E. f_equal. apply (gr_same _ _ _ _ _ _ _ _ _ _ Hg); [exact F6' | apply F5].
Qed.

Lemma writei_append t f L ic ip i W nb off src news fl : ic_inode ic !! ip = Some i -> file_at f i nb -> tx_is t g f L ∅ ->
  budget W -> L ⊆ W -> home_of i ∈ W -> 0 <= off <= i_size i -> off + Z.of_nat (length src) <= MAXFILE * BSIZE ->
  frees f sb = news ++ fl -> Z.of_nat (length news) = needed nb (blocks_for nb (off + Z.of_nat (length src))) ->
  covers f i nb off (Z.of_nat (length src)) news W ->
  exists t' f' L' i', writei ip off src (mk_fs t sb ic) = Ret (Z.of_nat (length src)) (mk_fs t' sb (set_inode ic ip i')) /\
    tx_is t' g f' L' ∅ /\ L ⊆ L' /\ L' ⊆ W /\ appended f i nb f' i' off src news fl.
Proof.
  intros Hip Hf Ht HW HL HhW Hoff Hmax Hfl Hlen Hcov. pose proof (fa_blocks _ _ _ Hf) as Hb. pose proof (fa_size _ _ _ Hf) as Hsize.
  destruct (grow_loop (length src) t f L ic ip i W nb off src news fl) as (t1 & f1 & L1 & i1 & E1 & Ht1 & HL1 & HW1 & Hw);
    try assumption; try apply Hf; [lia | lia|].
  set (n := Z.of_nat (length src)) in *. assert (s32 n = n) as Es by (unfold s32; rewrite Z.mod_small; unfold MAXFILE, BSIZE in *; lia).
  pose proof (set_inode_lookup ic ip i i1 Hip) as Hip1.
  assert (forall m, writei ip off src (mk_fs t sb ic) = m <->
    bind (if (0 <? n) && (i_size i1 <? off + n) then on_inode ip (modify (fun i => i <| i_size := off + n |>)) ;! iupdate ip else ret tt)
      (fun _ => ret n) (mk_fs t1 sb (set_inode ic ip i1)) = m) as Hrun.
  { intros m. unfold writei. fold n. rewrite (bind_eq _ _ _ _ _ (inode_get_eq t sb ic ip i Hip)).
    rewrite (proj2 (Z.eqb_neq (i_type i) T_DEV) (ob_type _ _ _ _ Hb)).
    unfold u32. rewrite (Z.mod_small (off + n)) by (unfold MAXFILE, BSIZE in *; lia).
    rewrite (proj2 (Z.ltb_ge (off + n) off)), (proj2 (Z.ltb_ge (i_size i) off)), (proj2 (Z.ltb_ge (MAXFILE * BSIZE) _)) by lia. cbn [orb].
    rewrite (bind_eq _ _ _ _ _ E1), (bind_eq _ _ _ _ _ (inode_get_eq t1 sb _ ip i1 Hip1)), Es. reflexivity. }
  destruct (gr_inode _ _ _ _ _ _ _ _ _ _ (wr_grown _ _ _ _ _ _ _ _ _ Hw)) as [a Ea].
  assert (i_size i1 = i_size i) as Esz by (rewrite Ea; destruct i; reflexivity).
  destruct (Z.ltb_spec (i_size i) (off + n)) as [Hgrow|Hin].
  - rewrite <- Esz in Hgrow. rewrite (proj2 (Z.ltb_lt _ _) Hgrow), (proj2 (Z.ltb_lt 0 n)) in Hrun by lia. cbn [andb] in Hrun. rewrite Esz in Hgrow.
    pose proof (gr_alloc _ _ _ _ _ _ _ _ _ _ (wr_grown _ _ _ _ _ _ _ _ _ Hw)) as Ha1.
    destruct (grown_data _ _ _ _ _ _ _ _ _ _ _ (wr_grown _ _ _ _ _ _ _ _ _ Hw) Hfl (fa_home _ _ _ Hf)) as [Hd1 _].
    pose proof (bm_size _ _ _ (al_map _ _ _ Ha1)) as Hsz. pose proof (db_range _ _ Hd1) as Hr1.
    assert (length (f1 (home_of i)) = 512%nat) as Hl1 by (eapply tx_length; [exact Ht1 | lia]).
    destruct (appended_behind f i nb f1 i1 off src news fl _ Hf Hfl Hoff Hgrow Hmax Hw eq_refl Hl1) as (A1 & A2 & A3 & A4 & A5).
    fold n in A1, A3, A4, A5. set (i2 := i1 <| i_size := off + n |>) in *.
    assert (home_of i2 = home_of i /\ slot_of i2 = slot_of i) as [Eh2 Es2] by (unfold i2; rewrite Ea; destruct i; split; reflexivity).
    destruct (iupdate_eq t1 f1 L1 (set_inode ic ip i2) ip i2 W (blocks_for nb (off + n))) as (t2 & E2 & Ht2); try assumption; rewrite ?Eh2; try assumption.
    { eapply set_inode_lookup, Hip. }
    rewrite Eh2, Es2 in Ht2. eexists t2, _, _, i2. split; [|split; [exact Ht2|]].
    + apply Hrun. unfold bind at 1. rewrite (bind_eq _ _ _ _ _ (on_inode_modify t1 sb _ ip i1 (fun i => i <| i_size := off + n |>) Hip1)).
      fold i2. rewrite set_inode_twice, E2. reflexivity.
    + split; [clear -HL1; set_solver|]. split; [clear -HW1 HhW; set_solver | exact A5].
  - destruct (appended_in f i nb f1 i1 off src news fl Hf Hfl ltac:(lia) Hin Hlen Hw) as [-> Hap].
    exists t1, f1, L1, i. split_and!; try assumption. apply Hrun. rewrite (proj2 (Z.ltb_ge (i_size i) (off + n))), andb_false_r by lia. reflexivity.
Qed.
End Grow.

(** C5. writei() makes a file grow: it returns the number of bytes, the file
    holds them at their offset and is otherwise as it was, its size is that
    of the bytes; bmap() took exactly the first free blocks of the map, as
    many as are missing with the indirect block, which now belong to the
    file and are no longer free; the inode with its new blocks and size is on
    the disk; the other inodes and every block that is not of this file or
    of the map are as before; all blocks written are log entries foreseen. *)
Theorem writei_grows `{Ctx} {T} `{TxLaws T} `{Devsw (fstate T)} g sb t f L ic ip i W nb off src news fl
    (Hip : ic_inode ic !! ip = Some i) (Hf : file_at g sb f i nb) (Ht : tx_is t g f L ∅) (HW : budget g sb W) (HL : L ⊆ W)
    (Hhome : home_of sb i ∈ W) (Hoff : 0 <= off <= i_size i) (Hend : off + Z.of_nat (length src) <= MAXFILE * BSIZE)
    (Hfree : frees f sb = news ++ fl) (Hnews : Z.of_nat (length news) = needed nb (blocks_for nb (off + Z.of_nat (length src))))
    (Hcov : covers f i nb off (Z.of_nat (length src)) news W) :
  exists t' f' L' i', writei ip off src (mk_fs t sb ic) = Ret (Z.of_nat (length src)) (mk_fs t' sb (set_inode ic ip i')) /\
    tx_is t' g f' L' ∅ /\ L ⊆ L' /\ L' ⊆ W /\ appended g sb f i nb f' i' off src news fl.
Proof. eapply writei_append; eassumption. Qed.

Section Witnesses.
#[local] Instance grow_ctx : Ctx := {| cpu_id := 0; cur_pid := 1 |}.
#[local] Instance grow_devices {S} : Devsw S := {| dev_read _ := None; dev_write _ := None |}.

(** The disk of [demo_file] with its blocks 49 and 50 in use and the inode
    at its place in block 32; an empty file. *)
Definition grow_img (n : Z) : block :=
  if n =? 40 then replicate 6 255 ++ [7] ++ replicate 505 0 else if n =? 49 then replicate 512 7
  else if n =? 32 then put_dinode 5 (dinode_of demo_file) (replicate 512 0) else replicate 512 0.
Definition empty_file : inode :=
  mk_inode ROOTDEV 6 1 (mk_sleeplock 0 None 0) 1 0 0 0 0 0 (replicate 13 0).
Definition grow_ic : icache := mk_icache None [demo_file; empty_file].
Lemma grow_tx_is : tx_is (started grow_img) (start_frame grow_img) grow_img ∅ ∅.
Proof. apply started_tx_is; [|reflexivity]. intros n. unfold grow_img. repeat destruct (_ =? _); reflexivity. Qed.
Lemma grow_alloc : alloc_ok (start_frame grow_img) grow_img demo_sb.
Proof. split; [apply started_bitmap; vm_compute; reflexivity | reflexivity | vm_compute; reflexivity]. Qed.
Lemma grow_map b : map_block demo_sb b -> b = 40.
Proof. intros (c & Hc & ->). apply demo_map_block, Hc. Qed.
Lemma grow_data b : 32 <= b < 51 -> b <> 40 -> data_block (start_frame grow_img) demo_sb grow_img b.
Proof.
  intros Hb Hne. split; [lia | cbn; lia | apply (used_all _ _ 51); [vm_compute; reflexivity | lia] | |].
  - cbn. unfold home, in_area. cbn. lia.
  - intros Hm%grow_map. contradiction.
Qed.
Lemma grow_file : file_at (start_frame grow_img) demo_sb grow_img demo_file 2.
Proof.
  assert (forall b, b ∈ [49; 50] -> b = 49 \/ b = 50) as Hin by (intros b Hb; set_solver).
  split; [split | exact grow_alloc | unfold BSIZE; cbn; lia | | apply (grow_data 32); lia | | vm_compute; reflexivity];
    try reflexivity; try discriminate; try (change (own grow_img demo_file 2 (NDIRECT <? 2)) with [49; 50]).
  - unfold MAXFILE. lia.
  - apply NoDup_cons. split; [set_solver | apply NoDup_singleton].
  - intros b [->| ->]%Hin; apply grow_data; lia.
  - intros k Hk. unfold NDIRECT in Hk. apply nth_lookup_Some. cbn [i_addrs demo_file].
    rewrite lookup_app_r by (cbn [length]; lia). apply lookup_replicate. cbn [length]. lia.
  - unfold dinode_ok, dinode_of. cbn -[Z.pow]. unfold T_FILE. split_and!; try lia; try reflexivity. repeat (constructor; [lia|]). constructor.
  - intros [E|E]%Hin; discriminate E.
Qed.
Lemma grow_empty : file_at (start_frame grow_img) demo_sb grow_img empty_file 0.
Proof.
  split; [split | exact grow_alloc | unfold BSIZE; cbn; lia | | apply (grow_data 32); lia | | vm_compute; reflexivity];
    try reflexivity; try discriminate; try (change (own grow_img empty_file 0 (NDIRECT <? 0)) with (@nil Z)).
  - unfold MAXFILE. lia.
  - constructor.
  - intros b Hb%not_elem_of_nil. contradiction.
  - intros k Hk. unfold NDIRECT in Hk. apply nth_lookup_Some. cbn [i_addrs empty_file]. apply lookup_replicate. lia.
  - unfold dinode_ok, dinode_of. cbn -[Z.pow]. unfold T_FILE. split_and!; try lia; try reflexivity. repeat (constructor; [lia|]). constructor.
  - apply not_elem_of_nil.
Qed.
Lemma grow_frees : frees grow_img demo_sb = [51; 52] ++ [53; 54; 55; 56; 57; 58; 59].
Proof. vm_compute. reflexivity. Qed.

Example writei_grows_witness : exists t' i', writei 0 600 (replicate 1000 9) (mk_fs (started grow_img) demo_sb grow_ic) =
  Ret 1000 (mk_fs t' demo_sb (set_inode grow_ic 0 i')) /\ i_size i' = 1600.
Proof.
  destruct (writei_grows (start_frame grow_img) demo_sb (started grow_img) grow_img ∅ grow_ic 0 demo_file {[32; 40; 50; 51; 52]} 2 600
    (replicate 1000 9) [51; 52] [53; 54; 55; 56; 57; 58; 59] eq_refl grow_file grow_tx_is) as (t' & f' & L' & i' & E & _ & _ & _ & Hap).
  - split; [vm_compute; lia | vm_compute; lia |]. intros b ->%grow_map. set_solver.
  - set_solver.
  - vm_compute. reflexivity.
  - cbn. lia.
  - rewrite length_replicate. unfold MAXFILE, BSIZE. lia.
  - exact grow_frees.
  - rewrite length_replicate. reflexivity.
  - split; [set_solver | | intros Hx; unfold NDIRECT in Hx; lia]. intros bn Hbn _. unfold BSIZE in Hbn.
    assert (bn = 1) as -> by (change (600 / 512) with 1 in Hbn; lia). vm_compute. reflexivity.
  - exists t', i'. rewrite length_replicate in E. split; [exact E|]. destruct (ap_inode _ _ _ _ _ _ _ _ _ _ _ Hap) as [a ->].
    reflexivity.
Defined.
End Witnesses.
