(* ===== verification/FsTrunc.v ===== *)
(** * Files that are truncated

    itrunc() of [Fs.v]: bfree() of every block a file owns, the direct ones,
    those of the indirect block and that block; what the map and the inode on
    the disk are afterwards. *)
From S2P Require Import Prelude.
From S2P Require Import Sleeplock.
From S2P Require Import Layout.
From S2P Require Import Bio.
From S2P Require Import Lru.
From S2P Require Import BioCache.
From S2P Require Import Cache.
From S2P Require Import Log.
From S2P Require Import LogProofs.
From S2P Require Import Tx.
From S2P Require Import Fs.
From S2P Require Import FsProofs.
From S2P Require Import FsGrow.

Section Trunc.
Context `{Ctx} {T : Type} `{TxLaws T} `{Devsw (fstate T)}.
Variables (g : frame) (sb : superblock).
Implicit Types (t : T) (f : Z -> block) (L W : gset Z) (h : gmap nat Z) (ic : icache).

(** [f'] is [f] after the blocks [l] were freed. *)
Record released f (l : list Z) f' : Prop := {
  re_ok : alloc_ok g f' sb;
  re_used : forall c, 0 <= c < sb_size sb -> used f' sb c = used f sb c && negb (bool_decide (c ∈ l));
  re_same : forall n, ~ map_block sb n -> f' n = f n }.
Lemma released_nil f : alloc_ok g f sb -> released f [] f.
Proof.
  intros Ha. split; [exact Ha | | reflexivity]. intros c _. rewrite bool_decide_false by apply not_elem_of_nil.
  rewrite andb_true_r. reflexivity.
Qed.
Lemma released_data f l f' c : released f l f' -> data_block g sb f c -> c ∉ l -> data_block g sb f' c.
Proof.
  intros Hr [D1 D2 D3 D4 D5] Hc. split; try assumption. rewrite (re_used _ _ _ Hr), D3, bool_decide_false by assumption. reflexivity.
Qed.

Lemma bfree_step t f l f1 L h ic W b : released f l f1 -> tx_is t g f1 L h -> hands g sb f1 h -> budget g sb W -> L ⊆ W ->
  data_block g sb f b -> b ∉ l ->
  exists t' f' L', bfree ROOTDEV b (mk_fs t sb ic) = Ret tt (mk_fs t' sb ic) /\ tx_is t' g f' L' h /\ L ⊆ L' /\ L' ⊆ W /\
    released f (l ++ [b]) f'.
Proof.
  intros Hr Ht Hh HW HL Hb Hbl. pose proof (released_data f l f1 b Hr Hb Hbl) as Hb1. destruct Hr as [Ha Hused Hsame].
  pose proof (al_map _ _ _ Ha) as Hbm. destruct (budget_size g sb W L h HW HL (proj1 Hh)) as [Hs1 Hs2].
  pose proof (db_range _ _ _ _ Hb) as Hbr. pose proof (db_used _ _ _ _ Hb1) as Hu1.
  destruct (bfree_eq g f1 sb Hbm t L h ic b Ht Hbr (proj1 (hands_free g sb f1 h Ha Hh b Hbr)) ltac:(lia) ltac:(lia) Hu1) as (t' & E & Ht').
  assert (forall c, 0 <= c < sb_size sb -> used (upd_content f1 (BBLOCK b sb) (set_bit f1 sb b Z.ldiff)) sb c = if c =? b then false else used f1 sb c) as Hu.
  { pose proof (bm_size _ _ _ Hbm). pose proof (bm_small _ _ _ Hbm). pose proof (bm_start _ _ _ Hbm).
    intros c Hc. apply used_set_bit; [lia | lia | lia | | intros; apply ldiff_bit; assumption].
    eapply tx_length; [exact Ht | apply (bm_map _ _ _ Hbm), Hbr]. }
  assert (map_block sb (BBLOCK b sb)) as Hm by (exists b; auto).
  eexists t', _, _. split; [exact E|]. split; [exact Ht'|]. split; [clear; set_solver|]. split.
  { pose proof (bu_map _ _ _ HW _ Hm) as HmW. clear -HmW HL. set_solver. }
  set (f' := upd_content _ _ _) in *.
  assert (forall n, ~ map_block sb n -> f' n = f1 n) as Hsame1.
  { intros n Hn. unfold f', upd_content. rewrite (proj2 (Z.eqb_neq n _)); [reflexivity|]. intros ->. contradiction. }
  split.
  - destruct Ha as [[B1 B2 B3 B4 B5 B6] Hpos Hz]. split; [|exact Hpos|].
    + split; try assumption; intros *.
      * intros Hr Uf. rewrite Hu in Uf by exact Hr. destruct (Z.eqb_spec b0 b) as [->|]; [apply Hb1 | auto].
      * intros Hr Hc Uf. rewrite Hu in Uf by exact Hr. destruct (Z.eqb_spec b0 b) as [->|]; [|auto].
        intros ->. apply (db_map _ _ _ _ Hb1). exists c. auto.
    + rewrite Hu by lia. destruct (Z.eqb_spec 0 b) as [<-|]; [|exact Hz]. destruct (db_zero _ _ _ _ Hb eq_refl).
  - intros c Hc. rewrite Hu, Hused by exact Hc. destruct (Z.eqb_spec c b) as [->|Hne].
    + rewrite bool_decide_true by set_solver. rewrite andb_false_r. reflexivity.
    + do 2 f_equal. apply bool_decide_ext. set_solver.
  - intros n Hn. rewrite Hsame1, Hsame by exact Hn. reflexivity.
Qed.

(** ** The loops *)

(** The first [j] blocks; the inode after [j] rounds of the first loop. *)
Definition gone f (i : inode) (nb j : Z) : list Z := map (block_of f i) (seqZ 0 (Z.min nb j)).
Definition cleared (i : inode) (j : nat) : inode := i <| i_addrs := replicate j 0 ++ drop j (i_addrs i) |>.

Lemma gone_in f i nb j : 0 <= j < nb -> gone f i nb (j + 1) = gone f i nb j ++ [block_of f i j].
Proof.
  intros Hj. unfold gone. rewrite !Z.min_r by lia. change (map (block_of f i)) with (fmap (M := list) (block_of f i)).
  rewrite seqZ_app, fmap_app, Z.add_0_l by lia. rewrite (seqZ_cons j 1) by lia. reflexivity.
Qed.
Lemma gone_out f i nb j : nb <= j -> gone f i nb (j + 1) = gone f i nb j.
Proof. intros Hj. unfold gone. rewrite !Z.min_l by lia. reflexivity. Qed.
Lemma gone_fresh f i nb hi j : inode_blocks g sb f i nb hi -> 0 <= j < nb -> block_of f i j ∉ gone f i nb j.
Proof.
  intros Hb Hj Hin. unfold gone in Hin. change (map (block_of f i)) with (fmap (M := list) (block_of f i)) in Hin.
  apply list_elem_of_fmap in Hin as (k & E & Hk%elem_of_seqZ). apply (block_inj g sb f i nb hi) in E; [lia | exact Hb | lia | lia].
Qed.
Lemma gone_ind f i nb j : inode_blocks g sb f i nb true -> indirect i ∉ gone f i nb j.
Proof.
  intros Hb Hin. unfold gone in Hin. change (map (block_of f i)) with (fmap (M := list) (block_of f i)) in Hin.
  apply list_elem_of_fmap in Hin as (k & E & Hk%elem_of_seqZ). symmetry in E. revert E. apply (block_ind g sb f i nb k Hb). lia.
Qed.
Lemma cleared_step i j : (j < length (i_addrs i))%nat -> with_addr (cleared i j) j 0 = cleared i (S j).
Proof.
  intros Hj. assert (<[j := 0]> (replicate j 0 ++ drop j (i_addrs i)) = replicate (S j) 0 ++ drop (S j) (i_addrs i)) as E.
  { destruct (lookup_lt_is_Some_2 (i_addrs i) j Hj) as [a Ea]. rewrite replicate_S_end, <- app_assoc, (drop_S _ _ _ Ea).
    rewrite insert_app_r_alt by (rewrite length_replicate; lia). rewrite length_replicate, Nat.sub_diag. reflexivity. }
  unfold cleared. rewrite <- E. destruct i. reflexivity.
Qed.
Lemma cleared_skip i j : i_addrs i !! j = Some 0 -> cleared i j = cleared i (S j).
Proof.
  intros Ea. unfold cleared. rewrite (drop_S _ _ _ Ea), replicate_S_end, <- app_assoc. reflexivity.
Qed.
Lemma cleared_lookup i j k : (j <= k)%nat -> i_addrs (cleared i j) !! k = i_addrs i !! k.
Proof.
  intros Hk. unfold cleared. destruct i. cbn. rewrite lookup_app_r by (rewrite length_replicate; lia).
  rewrite length_replicate, lookup_drop. f_equal. lia.
Qed.

Section Loops.
Variables (ip : nat) (i : inode) (nb : Z) (hi : bool) (f : Z -> block) (ic : icache) (W : gset Z).
Hypotheses (Hip : ic_inode ic !! ip = Some i) (Hb : inode_blocks g sb f i nb hi) (Ha : alloc_ok g f sb) (HW : budget g sb W).

Lemma trunc_addr_eq t f1 L j a : (j < 13)%nat -> i_addrs i !! j = Some a -> tx_is t g f1 L ∅ -> L ⊆ W ->
  forall l, released f l f1 -> (a <> 0 -> data_block g sb f a /\ a ∉ l) ->
  exists t' f' L', trunc_addr ip j (mk_fs t sb (set_inode ic ip (cleared i j))) = Ret tt (mk_fs t' sb (set_inode ic ip (cleared i (S j)))) /\
    tx_is t' g f' L' ∅ /\ L ⊆ L' /\ L' ⊆ W /\ released f (if a =? 0 then l else l ++ [a]) f'.
Proof.
  intros Hj Ea Ht HL l Hr Hd. pose proof (set_inode_lookup ic ip i (cleared i j) Hip) as Hip1.
  unfold trunc_addr. rewrite (bind_eq _ _ _ _ _ (inode_get_eq t sb _ ip _ Hip1)).
  rewrite cleared_lookup, Ea by lia. rewrite (bind_eq (deref (Some a)) _ _ a _ eq_refl). destruct (Z.eqb_spec a 0) as [->|Hne].
  - exists t, f1, L. rewrite <- cleared_skip by exact Ea. auto.
  - destruct (Hd Hne) as [Hda Hal]. destruct (bfree_step t f l f1 L ∅ (set_inode ic ip (cleared i j)) W a Hr Ht) as (t' & f' & L' & E & Ht' & HL1 & HW1 & Hr'); try assumption.
    { apply hands_empty; [apply unheld_empty | rewrite map_size_empty; lia]. }
    exists t', f', L'. split; [|auto]. assert (i_dev (cleared i j) = ROOTDEV) as -> by (destruct i; apply Hb).
    rewrite (bind_eq _ _ _ _ _ E). rewrite (set_addr_eq sb t' _ ip (cleared i j)) by
      (try exact Hip1; unfold cleared; destruct i; cbn; rewrite length_app, length_replicate, length_drop; pose proof (ob_addrs _ _ _ _ _ _ Hb) as E'; cbn in E'; lia).
    rewrite set_inode_twice, cleared_step by (rewrite (ob_addrs _ _ _ _ _ _ Hb); exact Hj). reflexivity.
Qed.

Lemma trunc_direct m : forall j t f1 L, (j + m = 12)%nat -> released f (gone f i nb (Z.of_nat j)) f1 -> tx_is t g f1 L ∅ -> L ⊆ W ->
  exists t' f' L', for_all (seq j m) (trunc_addr ip) (mk_fs t sb (set_inode ic ip (cleared i j))) =
      Ret tt (mk_fs t' sb (set_inode ic ip (cleared i 12))) /\
    tx_is t' g f' L' ∅ /\ L ⊆ L' /\ L' ⊆ W /\ released f (gone f i nb 12) f'.
Proof.
  induction m as [|m IH]; intros j t f1 L Hj Hr Ht HL.
  - assert (j = 12%nat) as -> by lia. exists t, f1, L. auto.
  - assert (i_addrs i !! j = Some (nth j (i_addrs i) 0)) as Ea by (apply addr_lookup; [apply Hb | lia]).
    assert (block_of f i (Z.of_nat j) = nth j (i_addrs i) 0) as Eb.
    { unfold block_of. rewrite (proj2 (Z.ltb_lt _ _)) by (unfold NDIRECT; lia). rewrite Nat2Z.id. reflexivity. }
    assert (nth j (i_addrs i) 0 <> 0 -> Z.of_nat j < nb) as Hin.
    { intros Hne. destruct (Z.lt_ge_cases (Z.of_nat j) nb) as [|Hge]; [assumption|]. exfalso. apply Hne.
      pose proof (ob_direct _ _ _ _ _ _ Hb (Z.of_nat j) ltac:(unfold NDIRECT; lia)) as E. rewrite Nat2Z.id in E. exact E. }
    destruct (trunc_addr_eq t f1 L j _ ltac:(lia) Ea Ht HL _ Hr) as (t2 & f2 & L2 & E2 & Ht2 & HL2 & HW2 & Hr2).
    { intros Hne. rewrite <- Eb. specialize (Hin Hne). split; [apply (ob_good _ _ _ _ _ _ Hb), own_block; lia|].
      apply (gone_fresh f i nb hi); [exact Hb | lia]. }
    assert ((if nth j (i_addrs i) 0 =? 0 then gone f i nb (Z.of_nat j) else gone f i nb (Z.of_nat j) ++ [nth j (i_addrs i) 0]) =
      gone f i nb (Z.of_nat (S j))) as Eg.
    { rewrite Nat2Z.inj_succ. unfold Z.succ. destruct (Z.eqb_spec (nth j (i_addrs i) 0) 0) as [Ez|Hne].
      - symmetry. apply gone_out. destruct (Z.lt_ge_cases (Z.of_nat j) nb) as [Hlt|]; [|lia]. exfalso.
        apply (db_zero _ _ _ _ (ob_good _ _ _ _ _ _ Hb _ (own_block f i nb hi (Z.of_nat j) ltac:(lia)))). congruence.
      - rewrite gone_in, Eb by (specialize (Hin Hne); lia). reflexivity. }
    rewrite Eg in Hr2. destruct (IH (S j) t2 f2 L2 ltac:(lia) Hr2 Ht2 HW2) as (t3 & f3 & L3 & E3 & Ht3 & HL3 & HW3 & Hr3).
    exists t3, f3, L3. split; [|split; [exact Ht3|split; [clear -HL2 HL3; set_solver|auto]]].
    cbn [seq for_all]. rewrite (bind_eq _ _ _ _ _ E2). exact E3.
Qed.

(** The loop over the indirect block, which buffer [bp] holds. *)
Lemma trunc_entries m : forall j t f1 L h bp ic', (j + m = 128)%nat -> hi = true -> released f (gone f i nb (NDIRECT + Z.of_nat j)) f1 ->
  tx_is t g f1 L h -> h !! bp = Some (indirect i) -> (size h <= 1)%nat -> (forall b, ~ unheld h b -> b = indirect i) -> L ⊆ W ->
  exists t' f' L', for_all (seq j m) (trunc_entry ROOTDEV bp) (mk_fs t sb ic') = Ret tt (mk_fs t' sb ic') /\
    tx_is t' g f' L' h /\ L ⊆ L' /\ L' ⊆ W /\ released f (gone f i nb MAXFILE) f'.
Proof.
  induction m as [|m IH]; intros j t f1 L h bp ic' Hj Hhi Hr Ht Hbp Hsz Hh HL.
  - assert (j = 128%nat) as -> by lia. exists t, f1, L. auto.
  - subst hi. pose proof (ob_good _ _ _ _ _ _ Hb _ (indirect_own f i nb)) as Hind.
    set (k := NDIRECT + Z.of_nat j) in *. assert (0 <= k < MAXFILE /\ NDIRECT <= k) as [Hk Hk12] by (unfold k, NDIRECT, MAXFILE; lia).
    assert (get_u32 (4 * j) (f1 (indirect i)) = block_of f i k) as Eg.
    { rewrite (re_same _ _ _ Hr) by apply Hind. unfold block_of. rewrite (proj2 (Z.ltb_ge k NDIRECT)) by exact Hk12.
      do 2 f_equal. unfold k. lia. }
    assert (exists t2 f2 L2, trunc_entry ROOTDEV bp j (mk_fs t sb ic') = Ret tt (mk_fs t2 sb ic') /\ tx_is t2 g f2 L2 h /\ L ⊆ L2 /\ L2 ⊆ W /\
      released f (gone f i nb (k + 1)) f2) as (t2 & f2 & L2 & E2 & Ht2 & HL2 & HW2 & Hr2).
    { unfold trunc_entry. rewrite (bind_eq _ _ _ _ _ (in_tx_ret _ _ sb ic' _ _ (tx_data t g f1 L h bp _ Ht Hbp))), Eg.
      destruct (Z.lt_ge_cases k nb) as [Hlt|Hge].
      - pose proof (ob_good _ _ _ _ _ _ Hb _ (own_block f i nb true k ltac:(lia))) as Hd.
        rewrite (proj2 (Z.eqb_neq (block_of f i k) 0)) by apply Hd. rewrite gone_in by lia.
        apply (bfree_step t f _ f1 L h ic' W); try assumption; [|apply (gone_fresh f i nb true); [exact Hb | lia]].
        split; [exact Hsz|]. intros b Hub. rewrite (Hh b Hub). apply (released_data f _ f1 _ Hr Hind), gone_ind, Hb.
      - rewrite (ob_entries _ _ _ _ _ _ Hb eq_refl k) by lia. exists t, f1, L. rewrite gone_out by exact Hge. auto. }
    replace (k + 1) with (NDIRECT + Z.of_nat (S j)) in Hr2 by (unfold k; lia).
    destruct (IH (S j) t2 f2 L2 h bp ic' ltac:(lia) eq_refl Hr2 Ht2 Hbp Hsz Hh HW2) as (t3 & f3 & L3 & E3 & Ht3 & HL3 & HW3 & Hr3).
    exists t3, f3, L3. split; [|split; [exact Ht3|split; [clear -HL2 HL3; set_solver|auto]]].
    cbn [seq for_all]. rewrite (bind_eq _ _ _ _ _ E2). exact E3.
Qed.

Lemma trunc_indirect_eq t f1 L : hi = (NDIRECT <? nb) -> released f (gone f i nb 12) f1 -> tx_is t g f1 L ∅ -> L ⊆ W ->
  exists t' f' L', trunc_indirect ip (mk_fs t sb (set_inode ic ip (cleared i 12))) = Ret tt (mk_fs t' sb (set_inode ic ip (cleared i 13))) /\
    tx_is t' g f' L' ∅ /\ L ⊆ L' /\ L' ⊆ W /\ released f (own f i nb hi) f'.
Proof.
  intros Hhi Hr Ht HL. pose proof (set_inode_lookup ic ip i (cleared i 12) Hip) as Hip1.
  assert (i_addrs i !! 12%nat = Some (indirect i)) as Ea by (apply addr_lookup; [apply Hb | lia]).
  assert (i_dev (cleared i 12) = ROOTDEV) as Edev by (destruct i; apply Hb).
  unfold trunc_indirect. rewrite (bind_eq _ _ _ _ _ (inode_get_eq t sb _ ip _ Hip1)), Edev.
  change (Z.to_nat NDIRECT) with 12%nat. rewrite cleared_lookup, Ea by lia. rewrite (bind_eq (deref (Some (indirect i))) _ _ (indirect i) _ eq_refl).
  pose proof Hb as Hb'. destruct (sumbool_of_bool hi) as [Eh|Eh]; rewrite Eh in Hb' |- *; rewrite Eh in Hhi; symmetry in Hhi; unfold own.
  - apply Z.ltb_lt in Hhi. pose proof (ob_good _ _ _ _ _ _ Hb' _ (indirect_own f i nb)) as Hind.
    rewrite (proj2 (Z.eqb_neq (indirect i) 0)) by apply Hind.
    pose proof (re_ok _ _ _ Hr) as Ha1. pose proof (bm_size _ _ _ (al_map _ _ _ Ha1)) as Hsize. pose proof (db_range _ _ _ _ Hind) as Hir.
    destruct (budget_size g sb W L ∅ HW HL ltac:(rewrite map_size_empty; lia)) as [Hs1 _].
    destruct (tx_bread t g f1 L ∅ (indirect i) Ht ltac:(lia) (unheld_empty _) ltac:(lia)) as (bp & t2 & E2 & _ & Ht2).
    assert (indirect i ∈ L \/ f1 (indirect i) = fr_base g (indirect i)) as Hclean.
    { destruct (decide (indirect i ∈ L)) as [|Hn]; [auto | right; exact (tx_clean t g f1 L ∅ _ Ht Hn (unheld_empty _))]. }
    pose proof (lookup_insert_eq (M := gmap nat) ∅ bp (indirect i)) as Hbp.
    destruct (trunc_entries 128 0 t2 f1 L _ bp (set_inode ic ip (cleared i 12)) eq_refl Eh Hr Ht2 Hbp) as (t3 & f3 & L3 & E3 & Ht3 & HL3 & HW3 & Hr3).
    { rewrite map_size_insert, lookup_empty, map_size_empty. reflexivity. }
    { intros b Hub. destruct (decide (b = indirect i)) as [|Hne]; [assumption|]. exfalso. apply Hub.
      apply unheld_insert; [apply unheld_empty | congruence]. }
    { exact HL. }
    destruct (tx_brelse t3 g f3 L3 _ bp _ Ht3 Hbp) as (t4 & E4 & Ht4).
    { rewrite (re_same _ _ _ Hr3), <- (re_same _ _ _ Hr) by apply Hind. destruct Hclean as [Hin|]; [left; clear -Hin HL3; set_solver | auto]. }
    rewrite delete_insert_id in Ht4 by apply lookup_empty.
    destruct (bfree_step t4 f _ f3 L3 ∅ (set_inode ic ip (cleared i 12)) W (indirect i) Hr3 Ht4) as (t5 & f5 & L5 & E5 & Ht5 & HL5 & HW5 & Hr5); try assumption.
    { apply hands_empty; [apply unheld_empty | rewrite map_size_empty; lia]. }
    { apply gone_ind, Hb'. }
    exists t5, f5, L5. split.
    2: { split; [exact Ht5|]. split; [clear -HL3 HL5; set_solver|]. split; [exact HW5|]. unfold gone in Hr5.
      rewrite Z.min_l in Hr5 by apply Hb. exact Hr5. }
    rewrite (bind_eq _ _ _ _ _ (in_tx_ret _ _ sb _ _ _ E2)), (bind_eq _ _ _ _ _ E3), (bind_eq _ _ _ _ _ (in_tx_ret _ _ sb _ _ _ E4)), (bind_eq _ _ _ _ _ E5).
    rewrite (set_addr_eq sb t5 _ ip (cleared i 12)) by
      (try exact Hip1; unfold cleared; destruct i; cbn; rewrite length_drop; pose proof (ob_addrs _ _ _ _ _ _ Hb) as E'; cbn in E'; lia).
    rewrite set_inode_twice, cleared_step by (rewrite (ob_addrs _ _ _ _ _ _ Hb); lia). reflexivity.
  - apply Z.ltb_ge in Hhi. rewrite (ob_noind _ _ _ _ _ _ Hb' eq_refl) in Ea |- *. exists t, f1, L. rewrite <- (cleared_skip i 12) by exact Ea.
    split_and!; try assumption; try reflexivity. rewrite app_nil_r. unfold gone in Hr. rewrite Z.min_l in Hr by exact Hhi. exact Hr.
Qed.
End Loops.

(** ** itrunc() *)

Definition emptied (i : inode) : inode := (i <| i_addrs := replicate 13 0 |>) <| i_size := 0 |>.
Lemma cleared_all i : length (i_addrs i) = 13%nat -> (cleared i 13) <| i_size := 0 |> = emptied i.
Proof. intros Hl. unfold cleared, emptied. rewrite drop_ge, app_nil_r by lia. destruct i. reflexivity. Qed.

(** The inode has no blocks, on the disk either; its blocks are free, the
    other blocks that were in use still are; no content changed but that of
    the map and of the inode. *)
Record truncated f (i : inode) (nb : Z) f' : Prop := {
  tr_file : file_at g sb f' (emptied i) 0;
  tr_used : forall c, 0 <= c < sb_size sb ->
    used f' sb c = used f sb c && negb (bool_decide (c ∈ own f i nb (NDIRECT <? nb)));
  tr_same : forall c, ~ map_block sb c -> c <> home_of sb i -> f' c = f c;
  tr_slots : forall j, (j < 8)%nat -> j <> slot_of i -> get_dinode j (f' (home_of sb i)) = get_dinode j (f (home_of sb i)) }.

Lemma emptied_blocks f i nb hi f' : inode_blocks g sb f i nb hi -> inode_blocks g sb f' (emptied i) 0 false.
Proof.
  intros Hb. pose proof (ob_dev _ _ _ _ _ _ Hb). pose proof (ob_type _ _ _ _ _ _ Hb). clear Hb.
  assert (own f' (emptied i) 0 false = []) as E by reflexivity.
  split; rewrite ?E; [destruct i; assumption | destruct i; assumption | destruct i; reflexivity | unfold MAXFILE; lia |
    unfold NDIRECT; lia | constructor | intros b Hin%not_elem_of_nil; contradiction | | destruct i; reflexivity | discriminate].
  intros k Hk. assert (i_addrs (emptied i) = replicate 13 0) as -> by (destruct i; reflexivity).
  apply nth_lookup_Some, lookup_replicate. unfold NDIRECT in Hk. lia.
Qed.
Lemma released_truncated f i nb f1 x : file_at g sb f i nb -> released f (own f i nb (NDIRECT <? nb)) f1 ->
  length (f1 (home_of sb i)) = 512%nat -> x = put_dinode (slot_of i) (dinode_of (emptied i)) (f1 (home_of sb i)) ->
  dinode_ok (dinode_of (emptied i)) /\ data_block g sb f1 (home_of sb i) /\
  truncated f i nb (upd_content f1 (home_of sb i) x).
Proof.
  intros [F1 F2 F3 F4 F5 F6 F7] Hr Hlen Hx. pose proof (released_data f _ f1 _ Hr F5 F6) as F5'.
  assert (dinode_ok (dinode_of (emptied i))) as Hd.
  { destruct F4 as (Y1 & Y2 & Y3 & Y4 & _). destruct i. unfold dinode_ok. cbn in *. split_and!; try assumption; try lia; try reflexivity.
    repeat constructor; lia. }
  pose proof (emptied_blocks f i nb _ f1 F1) as Hb1. assert (home_of sb (emptied i) = home_of sb i /\ slot_of (emptied i) = slot_of i) as [Eh Es] by (destruct i; split; reflexivity).
  pose proof (outside_grown g sb f1 (emptied i) 0 false (home_of sb i) x (re_ok _ _ _ Hr) Hb1) as G. cbv zeta in G.
  set (f2 := upd_content f1 (home_of sb i) x) in *.
  destruct G as (G1 & G2 & G3 & _ & G5 & _); [apply not_elem_of_nil | apply F5'|].
  assert (f2 (home_of sb i) = x) as Ex by (unfold f2, upd_content; rewrite Z.eqb_refl; reflexivity).
  split; [exact Hd|]. split; [exact F5'|]. split.
  - split; try assumption; rewrite ?Eh.
    + destruct i. cbn. lia.
    + apply G5, F5'.
    + apply not_elem_of_nil.
    + rewrite Ex, Es, Hx. destruct (get_put_dinode (f1 (home_of sb i)) (slot_of i) (slot_of i) _ Hlen (slot_lt i) (slot_lt i) Hd) as [_ E].
      rewrite decide_True in E by reflexivity. exact E.
  - intros c Hc. rewrite <- (re_used _ _ _ Hr c Hc). apply used_agree; [|exact Hc]. intros b Hb. unfold f2, upd_content.
    rewrite (proj2 (Z.eqb_neq b _)); [reflexivity|]. intros ->. exact (db_map _ _ _ _ F5 Hb).
  - intros c Hm Hne. unfold f2, upd_content. rewrite (proj2 (Z.eqb_neq c _)) by exact Hne. apply (re_same _ _ _ Hr), Hm.
  - intros j Hj Hne. rewrite Ex, Hx. destruct (get_put_dinode (f1 (home_of sb i)) (slot_of i) j _ Hlen (slot_lt i) Hj Hd) as [_ E].
    rewrite decide_False in E by exact Hne. rewrite E, (re_same _ _ _ Hr) by apply F5. reflexivity.
Qed.

Lemma itrunc_eq t f L ic ip i W nb : ic_inode ic !! ip = Some i -> file_at g sb f i nb -> tx_is t g f L ∅ -> budget g sb W -> L ⊆ W ->
  home_of sb i ∈ W ->
  exists t' f' L', itrunc ip (mk_fs t sb ic) = Ret tt (mk_fs t' sb (set_inode ic ip (emptied i))) /\
    tx_is t' g f' L' ∅ /\ L' ⊆ W /\ truncated f i nb f'.
Proof.
  intros Hip Hf Ht HW HL HhW. pose proof (fa_blocks _ _ _ _ _ Hf) as Hb. pose proof (ob_addrs _ _ _ _ _ _ Hb) as Hl.
  assert (cleared i 0 = i) as E0 by (destruct i; reflexivity).
  assert (released f (gone f i nb (Z.of_nat 0)) f) as Hr0.
  { unfold gone. rewrite Z.min_r by apply Hb. apply released_nil, Hf. }
  destruct (trunc_direct ip i nb _ f ic W Hip Hb HW 12 0 t f L eq_refl Hr0 Ht HL) as (t1 & f1 & L1 & E1 & Ht1 & HL1 & HW1 & Hr1).
  destruct (trunc_indirect_eq ip i nb _ f ic W Hip Hb HW t1 f1 L1 eq_refl Hr1 Ht1 HW1) as (t2 & f2 & L2 & E2 & Ht2 & HL2 & HW2 & Hr2).
  pose proof (db_range _ _ _ _ (fa_home _ _ _ _ _ Hf)) as Hr. pose proof (bm_size _ _ _ (al_map _ _ _ (re_ok _ _ _ Hr2))) as Hsz.
  assert (length (f2 (home_of sb i)) = 512%nat) as Hlen by (eapply tx_length; [exact Ht2 | lia]).
  destruct (released_truncated f i nb f2 _ Hf Hr2 Hlen eq_refl) as (Hd & Hh & Htr).
  assert (home_of sb (emptied i) = home_of sb i /\ slot_of (emptied i) = slot_of i) as [Eh Es] by (destruct i; split; reflexivity).
  destruct (iupdate_eq g sb t2 f2 L2 (set_inode ic ip (emptied i)) ip (emptied i) W 0) as (t3 & E3 & Ht3); try assumption; rewrite ?Eh; try assumption.
  { eapply set_inode_lookup, Hip. }
  { eapply emptied_blocks, Hb. }
  { apply Hr2. }
  { apply not_elem_of_nil. }
  rewrite Eh, Es in Ht3. eexists t3, _, _. split; [|split; [exact Ht3|split; [clear -HW2 HhW; set_solver | exact Htr]]].
  assert (ic = set_inode ic ip (cleared i 0)) as Eic by (rewrite E0; unfold set_inode; rewrite list_insert_id by exact Hip; destruct ic; reflexivity).
  rewrite Eic at 1. unfold itrunc. change (Z.to_nat NDIRECT) with 12%nat at 1. rewrite (bind_eq _ _ _ _ _ E1).
  rewrite (bind_eq _ _ _ _ _ E2), (bind_eq _ _ _ _ _ (on_inode_modify t2 sb _ ip _ _ (set_inode_lookup ic ip i _ Hip))).
  rewrite set_inode_twice, cleared_all by exact Hl. exact E3.
Qed.
End Trunc.

(** C7. itrunc() frees the blocks of a file, those of its indirect block and
    that block itself, and no other one; the inode has size 0 and no blocks
    then, in the cache and on the disk, where the other inodes of its block
    are as before; every block but the map and that one keeps its content. *)
Theorem itrunc_frees `{Ctx} {T} `{TxLaws T} `{Devsw (fstate T)} g sb t f L ic ip i W nb
    (Hip : ic_inode ic !! ip = Some i) (Hf : file_at g sb f i nb) (Ht : tx_is t g f L ∅) (HW : budget g sb W) (HL : L ⊆ W)
    (Hhome : home_of sb i ∈ W) :
  exists t' f' L', itrunc ip (mk_fs t sb ic) = Ret tt (mk_fs t' sb (set_inode ic ip (emptied i))) /\
    tx_is t' g f' L' ∅ /\ L' ⊆ W /\ truncated g sb f i nb f'.
Proof. eapply itrunc_eq; eassumption. Qed.

Section Witnesses.
#[local] Instance trunc_ctx : Ctx := {| cpu_id := 0; cur_pid := 1 |}.
#[local] Instance trunc_devices {S} : Devsw S := {| dev_read _ := None; dev_write _ := None |}.

Example itrunc_frees_witness : exists t' f', itrunc 0 (mk_fs (started grow_img) demo_sb grow_ic) =
  Ret tt (mk_fs t' demo_sb (set_inode grow_ic 0 (emptied demo_file))) /\ used f' demo_sb 50 = false /\ used f' demo_sb 48 = true.
Proof.
  destruct (itrunc_frees (start_frame grow_img) demo_sb (started grow_img) grow_img ∅ grow_ic 0 demo_file {[32; 40]} 2
    eq_refl grow_file grow_tx_is) as (t' & f' & L' & E & _ & _ & Htr).
  - split; [vm_compute; lia | vm_compute; lia |]. intros b ->%grow_map. set_solver.
  - set_solver.
  - vm_compute. reflexivity.
  - exists t', f'. split; [exact E|]. rewrite !(tr_used _ _ _ _ _ _ Htr) by (cbn; lia). vm_compute. auto.
Defined.
End Witnesses.
