(* ===== verification/Ide.v ===== *)
(** * The disk driver

    [src/homeworks/xv6-public/ide.c]: the queue of requests, idestart(), the
    interrupt handler and iderw().  The controller behind the ports is a
    parameter (class [Controller]); [IdeProofs.v] says what the driver relies
    on, and shows that this driver does for the buffer cache what the memory
    disk of [Bio.v] does. *)
From S2P Require Import Prelude.
From S2P Require Import Sleeplock.
From S2P Require Import Bio.

Definition SECTOR_SIZE : Z := 512.
Definition IDE_BSY : Z := 0x80.
Definition IDE_DRDY : Z := 0x40.
Definition IDE_DF : Z := 0x20.
Definition IDE_ERR : Z := 0x01.
Definition IDE_CMD_READ : Z := 0x20.
Definition IDE_CMD_WRITE : Z := 0x30.
Definition IDE_CMD_RDMUL : Z := 0xc4.
Definition IDE_CMD_WRMUL : Z := 0xc5.
Definition FSSIZE : Z := 1000.

(** Port input and output, one byte or [cnt] words of 4 bytes. *)
Class Controller : Type := {
  ctl : Type;
  ctl_in : Z -> ctl -> Z * ctl;
  ctl_out : Z -> Z -> ctl -> ctl;
  ctl_ins : Z -> Z -> ctl -> list Z * ctl;
  ctl_outs : Z -> list Z -> ctl -> ctl }.

Record ide `{Controller} := mk_ide {
  idelock : spinlock; idequeue : option nat; havedisk1 : bool; ide_buf : list buf; ide_ctl : ctl }.
#[export] Instance eta_ide `{Controller} : Eta ide :=
  fun s => mk_ide _ (idelock s) (idequeue s) (havedisk1 s) (ide_buf s) (ide_ctl s).

Section Code.
Context `{Ctx} `{Controller}.

Definition inb (port : Z) : M ide Z := fun s =>
  let '(r, c) := ctl_in port (ide_ctl s) in Ret r (s <| ide_ctl := c |>).
Definition outb (port data : Z) : M ide unit := modify (fun s => s <| ide_ctl ::= ctl_out port data |>).
Definition insl (port cnt : Z) : M ide (list Z) := fun s =>
  let '(r, c) := ctl_ins port cnt (ide_ctl s) in Ret r (s <| ide_ctl := c |>).
Definition outsl (port : Z) (data : list Z) : M ide unit := modify (fun s => s <| ide_ctl ::= ctl_outs port data |>).
Definition at_buf {A} (i : nat) (m : M buf A) : M ide A := zoom ide_buf (elt i m).

(** [while(((r = inb(0x1f7)) & (IDE_BSY|IDE_DRDY)) != IDE_DRDY);] *)
Fixpoint wait_ready (fuel : nat) : M ide Z :=
  match fuel with
  | O => halt NoFuel
  | S fuel' =>
      let! r := inb 0x1f7 in
      if Z.land r (Z.lor IDE_BSY IDE_DRDY) =? IDE_DRDY then ret r else wait_ready fuel'
  end.
Definition idewait (fuel : nat) (checkerr : bool) : M ide Z :=
  let! r := wait_ready fuel in
  if checkerr && bitset r (Z.lor IDE_DF IDE_ERR) then ret (-1) else ret 0.

(** [for(i=0; i<1000; i++) if(inb(0x1f7) != 0) { havedisk1 = 1; break; }] *)
Fixpoint probe (n : nat) : M ide unit :=
  match n with
  | O => ret tt
  | S n' =>
      let! r := inb 0x1f7 in
      if negb (r =? 0) then modify (fun s => s <| havedisk1 := true |>) else probe n'
  end.
Definition ideinit (fuel : nat) : M ide unit :=
  modify (fun s => s <| idelock := None |>) ;!
  idewait fuel false ;!
  outb 0x1f6 (Z.lor 0xe0 (Z.shiftl 1 4)) ;!
  probe 1000 ;!
  outb 0x1f6 (Z.lor 0xe0 (Z.shiftl 0 4)).

Definition sector_per_block : Z := BSIZE / SECTOR_SIZE.
Definition read_cmd : Z := if sector_per_block =? 1 then IDE_CMD_READ else IDE_CMD_RDMUL.
Definition write_cmd : Z := if sector_per_block =? 1 then IDE_CMD_WRITE else IDE_CMD_WRMUL.
Definition idestart (fuel : nat) (b : option nat) : M ide unit :=
  match b with
  | None => panic "idestart"
  | Some i =>
      let! b := at_buf i (get id) in
      panic_if (FSSIZE <=? b_blockno b) "incorrect blockno" ;!
      let sector := b_blockno b * sector_per_block in
      panic_if (7 <? sector_per_block) "idestart" ;!
      idewait fuel false ;!
      outb 0x3f6 0 ;!
      outb 0x1f2 sector_per_block ;!
      outb 0x1f3 (Z.land sector 0xff) ;!
      outb 0x1f4 (Z.land (Z.shiftr sector 8) 0xff) ;!
      outb 0x1f5 (Z.land (Z.shiftr sector 16) 0xff) ;!
      outb 0x1f6 (Z.lor 0xe0 (Z.lor (Z.shiftl (Z.land (b_dev b) 1) 4) (Z.land (Z.shiftr sector 24) 0x0f))) ;!
      if bitset (b_flags b) B_DIRTY then
        outb 0x1f7 write_cmd ;!
        outsl 0x1f0 (b_data b)
      else outb 0x1f7 read_cmd
  end.

Definition ideintr (fuel : nat) : M ide unit :=
  zoom idelock acquire ;!
  let! q := get idequeue in
  match q with
  | None => zoom idelock release
  | Some i =>
      let! b := at_buf i (get id) in
      modify (fun s => s <| idequeue := b_qnext b |>) ;!
      (* read data if needed *)
      (if negb (bitset (b_flags b) B_DIRTY) then
         let! r := idewait fuel true in
         if 0 <=? r then
           let! data := insl 0x1f0 (BSIZE / 4) in
           at_buf i (modify (fun b => b <| b_data := data |>))
         else ret tt
       else ret tt) ;!
      (* wake process waiting for this buf *)
      at_buf i (modify (fun b => b <| b_flags ::= Z.lor B_VALID |>)) ;!
      at_buf i (modify (fun b => b <| b_flags ::= fun f => Z.land f (Z.lnot B_DIRTY) |>)) ;!
      wakeup "buf" ;!
      (* start disk on next buf in queue *)
      let! q := get idequeue in
      (match q with Some _ => idestart fuel q | None => ret tt end) ;!
      zoom idelock release
  end.

(** [for(pp=&idequeue; *pp; pp=&( *pp)->qnext); *pp = b;] from the buffer [i] on. *)
Fixpoint append_from (n : nat) (i b : nat) : M ide unit :=
  match n with
  | O => halt NoFuel
  | S n' =>
      let! next := at_buf i (get b_qnext) in
      match next with
      | Some j => append_from n' j b
      | None => at_buf i (modify (fun x => x <| b_qnext := Some b |>))
      end
  end.
Definition append_queue (n b : nat) : M ide unit :=
  let! q := get idequeue in
  match q with
  | Some i => append_from n i b
  | None => modify (fun s => s <| idequeue := Some b |>)
  end.

(** [while((b->flags & (B_VALID|B_DIRTY)) != B_VALID) sleep(b, &idelock);] *)
Fixpoint wait_done (n : nat) (i : nat) (env : list (ide -> ide)) : M ide unit :=
  match n with
  | O => halt NoFuel
  | S n' =>
      let! f := at_buf i (get b_flags) in
      if Z.land f (Z.lor B_VALID B_DIRTY) =? B_VALID then ret tt
      else sleep_on "buf" idelock env (wait_done n' i)
  end.

(** The part of iderw() before the loop, with the lock held at its end. *)
Definition iderw_start (fuel : nat) (i : nat) : M ide unit :=
  let! held := at_buf i (zoom b_lock holdingsleep) in
  panic_if (negb held) "iderw: buf not locked" ;!
  let! b := at_buf i (get id) in
  panic_if (Z.land (b_flags b) (Z.lor B_VALID B_DIRTY) =? B_VALID) "iderw: nothing to do" ;!
  let! have := get havedisk1 in
  panic_if (negb (b_dev b =? 0) && negb have) "iderw: ide disk 1 not present" ;!
  zoom idelock acquire ;!
  at_buf i (modify (fun b => b <| b_qnext := None |>)) ;!
  append_queue fuel i ;!
  let! q := get idequeue in
  if decide (q = Some i) then idestart fuel (Some i) else ret tt.
Definition ide_iderw (fuel : nat) (i : nat) (env : list (ide -> ide)) : M ide unit :=
  iderw_start fuel i ;!
  wait_done (S (length env)) i env ;!
  zoom idelock release.
End Code.
