(* ===== verification/IdeProofs.v ===== *)
(** * The disk driver: correctness

    What the driver relies on of the controller; the abstract queue of
    requests, served one at a time in the order of arrival; that the driver
    implements it; and that each request ends as the memory disk of [Bio.v]
    would serve it. *)
From S2P Require Import Prelude.
From S2P Require Import Sleeplock.
From S2P Require Import Bio.
From S2P Require Import Lru.
From S2P Require Import BioCache.
From S2P Require Import Ide.

(** The registers for the sector [n] of drive [d], as idestart() writes them. *)
Definition select `{Controller} (d n : Z) (c : ctl) : ctl :=
  ctl_out 0x1f6 (Z.lor 0xe0 (Z.lor (Z.shiftl (Z.land d 1) 4) (Z.land (Z.shiftr n 24) 0x0f)))
    (ctl_out 0x1f5 (Z.land (Z.shiftr n 16) 0xff)
       (ctl_out 0x1f4 (Z.land (Z.shiftr n 8) 0xff)
          (ctl_out 0x1f3 (Z.land n 0xff) (ctl_out 0x1f2 1 (ctl_out 0x3f6 0 c))))).
Definition is_ready (r : Z) : Prop := Z.land r (Z.lor IDE_BSY IDE_DRDY) = IDE_DRDY.
Definition img_upd (f : Z -> Z -> list Z) (d n : Z) (data : list Z) : Z -> Z -> list Z :=
  fun d' n' => if (d' =? d) && (n' =? n) then data else f d' n'.
Definition img_eq (f g : Z -> Z -> list Z) : Prop := forall d n, f d n = g d n.

Lemma img_upd_eq f g d n x : img_eq f g -> img_eq (img_upd f d n x) (img_upd g d n x).
Proof. intros Hfg d' n'. unfold img_upd. destruct (_ && _); [reflexivity | apply Hfg]. Qed.

(** A controller that works: what is on the drives, and when it is idle, has
    read a sector, or has been given the sector to write (an interrupt is due
    in the last two states).  A command takes effect on an idle controller
    only; reading the sector or the status makes it idle again. *)
Class ControllerOk `{Controller} : Type := {
  img : ctl -> Z -> Z -> list Z;
  idle : ctl -> Prop;
  has_read : ctl -> Z -> Z -> Prop;
  has_written : ctl -> Prop;
  status_idle c : idle c \/ has_written c ->
    is_ready (ctl_in 0x1f7 c).1 /\ idle (ctl_in 0x1f7 c).2 /\ img_eq (img (ctl_in 0x1f7 c).2) (img c);
  status_read c d n : has_read c d n -> let c1 := (ctl_in 0x1f7 c).2 in
    is_ready (ctl_in 0x1f7 c).1 /\ bitset (ctl_in 0x1f7 c).1 (Z.lor IDE_DF IDE_ERR) = false /\
    (ctl_ins 0x1f0 128 c1).1 = img c d n /\ idle (ctl_ins 0x1f0 128 c1).2 /\ img_eq (img (ctl_ins 0x1f0 128 c1).2) (img c);
  start_read c d n : idle c -> 0 <= d <= 1 -> 0 <= n < 2 ^ 28 ->
    has_read (ctl_out 0x1f7 IDE_CMD_READ (select d n c)) d n /\ img_eq (img (ctl_out 0x1f7 IDE_CMD_READ (select d n c))) (img c);
  start_write c d n data : idle c -> 0 <= d <= 1 -> 0 <= n < 2 ^ 28 -> length data = 512%nat ->
    let c' := ctl_outs 0x1f0 data (ctl_out 0x1f7 IDE_CMD_WRITE (select d n c)) in
    has_written c' /\ img_eq (img c') (img_upd (img c) d n data) }.

(** ** The abstract queue *)

(** The buffers without their links, the disks, and the requests. *)
Record disk_state := mk_ds { ds_buf : list buf; ds_img : Z -> Z -> list Z; ds_queue : list nat }.
Definition unlink (b : buf) : buf := b <| b_qnext := None |>.

(** Serving a buffer, as iderw() of the memory disk does. *)
Definition serve_buf (img : Z -> Z -> list Z) (b : buf) : buf :=
  if bitset (b_flags b) B_DIRTY then b <| b_flags := Z.lor B_VALID (Z.land (b_flags b) (Z.lnot B_DIRTY)) |>
  else b <| b_data := img (b_dev b) (b_blockno b) |> <| b_flags := Z.lor B_VALID (b_flags b) |>.
Definition serve_img (img : Z -> Z -> list Z) (b : buf) : Z -> Z -> list Z :=
  if bitset (b_flags b) B_DIRTY then img_upd img (b_dev b) (b_blockno b) (b_data b) else img.

Definition submit (i : nat) (a : disk_state) : disk_state := mk_ds (ds_buf a) (ds_img a) (ds_queue a ++ [i]).
Definition interrupt (a : disk_state) : disk_state :=
  match ds_queue a with
  | [] => a
  | i :: q =>
      match ds_buf a !! i with
      | None => a
      | Some b => mk_ds (<[i := serve_buf (ds_img a) b]> (ds_buf a)) (serve_img (ds_img a) b) q
      end
  end.

(** A request that iderw() accepts. *)
Definition request (b : buf) : Prop :=
  Z.land (b_flags b) (Z.lor B_VALID B_DIRTY) <> B_VALID /\ 0 <= b_flags b /\ 0 <= b_blockno b < FSSIZE /\
  0 <= b_dev b <= 1 /\ length (b_data b) = 512%nat.

Section Proofs.
Context `{ControllerOk}.

(** The links of the queue. *)
Fixpoint chained (bufs : list buf) (q : list nat) : Prop :=
  match q with
  | [] => True
  | i :: q' => (exists b, bufs !! i = Some b /\ b_qnext b = head q' /\ request b) /\ chained bufs q'
  end.
(** The controller works on the first request. *)
Definition working (bufs : list buf) (f : Z -> Z -> list Z) (q : list nat) (c : ctl) : Prop :=
  match q with
  | [] => (idle c \/ has_written c) /\ img_eq (img c) f
  | i :: _ => exists b, bufs !! i = Some b /\
      if bitset (b_flags b) B_DIRTY then has_written c /\ img_eq (img c) (img_upd f (b_dev b) (b_blockno b) (b_data b))
      else has_read c (b_dev b) (b_blockno b) /\ img_eq (img c) f
  end.
Record rel (s : ide) (a : disk_state) : Prop := {
  r_lock : idelock s = None;
  r_queue : idequeue s = head (ds_queue a);
  r_buf : ds_buf a = map unlink (ide_buf s);
  r_nodup : NoDup (ds_queue a);
  r_chained : chained (ide_buf s) (ds_queue a);
  r_work : working (ide_buf s) (ds_img a) (ds_queue a) (ide_ctl s) }.

(** *** Steps of the driver *)

Context `{Ctx}.

Lemma at_buf_get {A} (g : buf -> A) i s b : ide_buf s !! i = Some b -> at_buf i (get g) s = Ret (g b) s.
Proof.
  intros E. unfold at_buf, zoom, elt, get. rewrite E. rewrite list_insert_id by exact E. destruct s. reflexivity.
Qed.
Lemma at_buf_modify f i s b : ide_buf s !! i = Some b ->
  at_buf i (modify f) s = Ret tt (s <| ide_buf := <[i := f b]> (ide_buf s) |>).
Proof. intros E. unfold at_buf, zoom, elt, modify. rewrite E. reflexivity. Qed.

Lemma inb_eq port s : inb port s = Ret (ctl_in port (ide_ctl s)).1 (s <| ide_ctl := (ctl_in port (ide_ctl s)).2 |>).
Proof. unfold inb. destruct (ctl_in port (ide_ctl s)); reflexivity. Qed.
Lemma wait_ready_eq fuel s : (0 < fuel)%nat -> is_ready (ctl_in 0x1f7 (ide_ctl s)).1 ->
  wait_ready fuel s = Ret (ctl_in 0x1f7 (ide_ctl s)).1 (s <| ide_ctl := (ctl_in 0x1f7 (ide_ctl s)).2 |>).
Proof.
  intros Hf Hr. destruct fuel as [|fuel]; [lia|]. cbn [wait_ready]. rewrite (bind_eq _ _ _ _ _ (inb_eq _ _)).
  unfold is_ready in Hr. rewrite Hr, Z.eqb_refl. reflexivity.
Qed.

(** idestart() on an idle controller (or one that has just written). *)
Lemma idestart_ok fuel i s b : (0 < fuel)%nat -> ide_buf s !! i = Some b -> request b ->
  idle (ide_ctl s) \/ has_written (ide_ctl s) ->
  exists c, idestart fuel (Some i) s = Ret tt (s <| ide_ctl := c |>) /\
    if bitset (b_flags b) B_DIRTY then has_written c /\ img_eq (img c) (img_upd (img (ide_ctl s)) (b_dev b) (b_blockno b) (b_data b))
    else has_read c (b_dev b) (b_blockno b) /\ img_eq (img c) (img (ide_ctl s)).
Proof.
  intros Hf Eb (_ & _ & Hn & Hd & Hl) Hc. destruct (status_idle _ Hc) as (Hr & Hi & Him).
  unfold idestart. rewrite (bind_eq _ _ _ _ _ (at_buf_get id i s b Eb)). unfold id.
  destruct (Z.leb_spec FSSIZE (b_blockno b)); [lia|]. cbn [panic_if]. change sector_per_block with 1. cbn [Z.ltb Z.compare Pos.compare Pos.compare_cont].
  rewrite Z.mul_1_r. step by (reflexivity). step by (reflexivity). unfold idewait. rewrite bind_assoc.
  rewrite (bind_eq _ _ _ _ _ (wait_ready_eq fuel s Hf Hr)). cbn [andb].
  set (c1 := (ctl_in 503 (ide_ctl s)).2) in *.
  destruct (bitset (b_flags b) B_DIRTY).
  - destruct (start_write c1 (b_dev b) (b_blockno b) (b_data b) Hi Hd ltac:(unfold FSSIZE in Hn; lia) Hl) as [Hw Hi2].
    eexists. split; [reflexivity|]. split; [exact Hw|]. intros d n. rewrite Hi2. apply img_upd_eq. exact Him.
  - destruct (start_read c1 (b_dev b) (b_blockno b) Hi Hd ltac:(unfold FSSIZE in Hn; lia)) as [Hw Hi2].
    eexists. split; [reflexivity|]. split; [exact Hw|]. intros d n. rewrite Hi2. auto.
Qed.

(** *** Flags and links *)

Lemma valid_dirty_bits n : Z.testbit B_VALID n && Z.testbit B_DIRTY n = false.
Proof. rewrite <- Z.land_spec. change (Z.land B_VALID B_DIRTY) with 0. apply Z.bits_0. Qed.
Lemma flags_written f : Z.land (Z.lor B_VALID f) (Z.lnot B_DIRTY) = Z.lor B_VALID (Z.land f (Z.lnot B_DIRTY)).
Proof.
  apply Z.bits_inj'. intros n Hn. pose proof (valid_dirty_bits n).
  rewrite !Z.land_spec, !Z.lor_spec, !Z.land_spec, Z.lnot_spec by lia.
  destruct (Z.testbit B_VALID n), (Z.testbit f n), (Z.testbit B_DIRTY n); cbn in *; congruence.
Qed.
Lemma flags_clean f : bitset f B_DIRTY = false -> Z.land (Z.lor B_VALID f) (Z.lnot B_DIRTY) = Z.lor B_VALID f.
Proof.
  intros Hf. unfold bitset in Hf. apply negb_false_iff, Z.eqb_eq in Hf.
  apply Z.bits_inj'. intros n Hn. pose proof (valid_dirty_bits n). assert (Hb : Z.testbit (Z.land f B_DIRTY) n = false) by (rewrite Hf; apply Z.bits_0).
  rewrite Z.land_spec in Hb. rewrite !Z.land_spec, !Z.lor_spec, Z.lnot_spec by lia.
  destruct (Z.testbit B_VALID n), (Z.testbit f n), (Z.testbit B_DIRTY n); cbn in *; congruence.
Qed.
Lemma flags_served img b : Z.land (b_flags (serve_buf img b)) (Z.lor B_VALID B_DIRTY) = B_VALID.
Proof.
  unfold serve_buf. destruct (bitset (b_flags b) B_DIRTY) eqn:E; cbn; [rewrite <- flags_written | rewrite <- (flags_clean _ E)];
    apply Z.bits_inj'; intros n Hn; pose proof (valid_dirty_bits n);
    rewrite !Z.land_spec, !Z.lor_spec, Z.lnot_spec by lia;
    destruct (Z.testbit B_VALID n), (Z.testbit (b_flags b) n), (Z.testbit B_DIRTY n); cbn in *; congruence.
Qed.

Lemma chained_insert bufs q i x : i ∉ q -> chained bufs q -> chained (<[i := x]> bufs) q.
Proof.
  induction q as [|j q IH]; cbn; [auto|]. intros [Hij Hiq]%not_elem_of_cons ((b & E & Hb) & Hc).
  split; [|auto]. exists b. rewrite list_lookup_insert_ne by congruence. auto.
Qed.
Lemma map_unlink_insert i x bufs : map unlink (<[i := x]> bufs) = <[i := unlink x]> (map unlink bufs).
Proof. exact (list_fmap_insert unlink bufs i x). Qed.
Lemma lookup_unlink bufs i b : bufs !! i = Some b -> map unlink bufs !! i = Some (unlink b).
Proof. intros E. change (map unlink bufs) with (unlink <$> bufs). rewrite list_lookup_fmap, E. reflexivity. Qed.

(** *** The interrupt *)

Lemma acquire_ide (s : ide) : idelock s = None -> zoom idelock acquire s = Ret tt (s <| idelock := Some cpu_id |>).
Proof. intros E. unfold zoom. rewrite E. reflexivity. Qed.
Lemma release_ide (s : ide) : idelock s = Some cpu_id -> zoom idelock release s = Ret tt (s <| idelock := None |>).
Proof. intros E. unfold zoom. rewrite E, release_mine. reflexivity. Qed.

(** Reading the sector, when the first request is a read. *)
Definition fetch (fuel : nat) (i : nat) (b : buf) : M ide unit :=
  if negb (bitset (b_flags b) B_DIRTY) then
    let! r := idewait fuel true in
    if 0 <=? r then
      let! data := insl 0x1f0 (BSIZE / 4) in
      at_buf i (modify (fun b => b <| b_data := data |>))
    else ret tt
  else ret tt.
Lemma fetch_ok fuel i b q f s : (0 < fuel)%nat -> ide_buf s !! i = Some b -> working (ide_buf s) f (i :: q) (ide_ctl s) ->
  exists c x, fetch fuel i b s = Ret tt (s <| ide_ctl := c |> <| ide_buf := <[i := x]> (ide_buf s) |>) /\
    (idle c \/ has_written c) /\ img_eq (img c) (serve_img f b) /\ b_qnext x = b_qnext b /\ b_flags x = b_flags b /\
    unlink (x <| b_flags := b_flags (serve_buf f b) |>) = serve_buf f (unlink b).
Proof.
  intros Hf Eb (b' & Eb' & Hw). rewrite Eb in Eb'. injection Eb' as <-. unfold fetch, serve_img, serve_buf.
  change (b_flags (unlink b)) with (b_flags b). destruct (bitset (b_flags b) B_DIRTY); cbn [negb].
  - destruct Hw as [Hw Hi]. exists (ide_ctl s), b. rewrite list_insert_id by exact Eb.
    split; [destruct s; reflexivity|]. split; [auto|]. split; [exact Hi|]. auto.
  - destruct Hw as [Hw Hi]. destruct (status_read _ _ _ Hw) as (Hr & He & Hdata & Hidle & Him).
    unfold idewait. rewrite bind_assoc, (bind_eq _ _ _ _ _ (wait_ready_eq fuel s Hf Hr)), He. cbn [andb].
    set (c1 := (ctl_in 503 (ide_ctl s)).2) in *. exists (ctl_ins 496 128 c1).2, (b <| b_data := (ctl_ins 496 128 c1).1 |>).
    split.
    { step by (reflexivity). cbn [Z.leb Z.compare]. change (BSIZE / 4) with 128.
      erewrite bind_eq by (unfold insl; cbn [ide_ctl set_field]; rewrite (surjective_pairing (ctl_ins 496 128 c1)); reflexivity).
      cbn beta. rewrite (at_buf_modify _ i _ b) by exact Eb. reflexivity. }
    split; [auto|]. split; [intros d n; rewrite Him; apply Hi|]. split; [reflexivity|]. split; [reflexivity|].
    rewrite Hdata, (Hi (b_dev b) (b_blockno b)). reflexivity.
Qed.

Lemma ideintr_ok fuel s a : (0 < fuel)%nat -> rel s a -> 
  exists s', ideintr fuel s = Ret tt s' /\ rel s' (interrupt a) /\ havedisk1 s' = havedisk1 s.
Proof.
  intros Hf [Hlk Hq Hb Hnd Hch Hw]. unfold ideintr, interrupt. step by (apply acquire_ide; exact Hlk).
  destruct a as [bufs f q]. cbn [ds_queue ds_buf ds_img] in *. rewrite bind_get. cbn [idequeue set_field]. rewrite Hq.
  destruct q as [|i q]; cbn [head].
  { rewrite release_ide by reflexivity. eexists. split; [reflexivity|]. split; [|reflexivity]. split; auto. }
  destruct Hch as [(b & Eb & Hbq & Hreq) Hch]. rewrite Hb, (lookup_unlink _ _ _ Eb). apply NoDup_cons in Hnd as [Hiq Hnd].
  set (s1 := s <| idelock := Some cpu_id |>). change (ide_buf s) with (ide_buf s1) in *. change (ide_ctl s) with (ide_ctl s1) in Hw.
  rewrite (bind_eq _ _ _ _ _ (at_buf_get id i s1 b Eb)). unfold id. rewrite bind_modify, Hbq.
  set (s2 := s1 <| idequeue := head q |>). change (ide_buf s1) with (ide_buf s2) in *. change (ide_ctl s1) with (ide_ctl s2) in Hw.
  destruct (fetch_ok fuel i b q f s2 Hf Eb Hw) as (c & x & E & Hc & Him & Hxq & Hxf & Hx).
  fold (fetch fuel i b). rewrite (bind_eq _ _ _ _ _ E). clear E.
  assert (Hlt : (i < length (ide_buf s2))%nat) by (apply lookup_lt_Some in Eb; exact Eb).
  set (s3 := s2 <| ide_ctl := c |> <| ide_buf := <[i := x]> (ide_buf s2) |>).
  assert (E3 : ide_buf s3 !! i = Some x) by (apply list_lookup_insert_eq; exact Hlt).
  rewrite (bind_eq _ _ _ _ _ (at_buf_modify _ i s3 x E3)).
  set (x1 := x <| b_flags ::= Z.lor B_VALID |>). set (s4 := s3 <| ide_buf := <[i := x1]> (ide_buf s3) |>).
  assert (E4 : ide_buf s4 !! i = Some x1).
  { apply list_lookup_insert_eq. change (ide_buf s3) with (<[i := x]> (ide_buf s2)). rewrite length_insert. exact Hlt. }
  rewrite (bind_eq _ _ _ _ _ (at_buf_modify _ i s4 x1 E4)).
  set (x2 := x1 <| b_flags ::= fun f => Z.land f (Z.lnot B_DIRTY) |>). set (s5 := s4 <| ide_buf := <[i := x2]> (ide_buf s4) |>).
  assert (E5 : ide_buf s5 = <[i := x2]> (ide_buf s2)).
  { change (ide_buf s5) with (<[i := x2]> (<[i := x1]> (<[i := x]> (ide_buf s2)))). rewrite !list_insert_insert_eq. reflexivity. }
  assert (Ex2 : unlink x2 = serve_buf f (unlink b)).
  { rewrite <- Hx. unfold x2, x1, unlink, serve_buf. 
    assert (Ef : Z.land (Z.lor B_VALID (b_flags x)) (Z.lnot B_DIRTY) = b_flags (serve_buf f b)).
    { rewrite Hxf. unfold serve_buf. destruct (bitset (b_flags b) B_DIRTY) eqn:Ed; [apply flags_written | apply flags_clean; exact Ed]. }
    unfold serve_buf in Ef. unfold set_field. cbn. rewrite Ef. reflexivity. }
  cbn [wakeup]. unfold wakeup. step by (reflexivity). rewrite bind_get. change (idequeue s5) with (head q).
  destruct q as [|j q]; cbn [head].
  - step by (reflexivity). rewrite release_ide by reflexivity. eexists. split; [reflexivity|]. split; [|reflexivity].
    split; [reflexivity | reflexivity | | exact Hnd | exact I | split; [exact Hc | exact Him]].
    cbn [ds_buf]. change (ide_buf (s5 <| idelock := None |>)) with (ide_buf s5). rewrite E5, map_unlink_insert, Ex2. reflexivity.
  - pose proof Hch as [(bj & Ej & _ & Hrj) _].
    assert (Hji : i <> j) by (intros ->; apply Hiq; left).
    assert (Ej5 : ide_buf s5 !! j = Some bj) by (rewrite E5, list_lookup_insert_ne by exact Hji; exact Ej).
    destruct (idestart_ok fuel j s5 bj Hf Ej5 Hrj Hc) as (c' & E & Hw').
    rewrite (bind_eq _ _ _ _ _ E). rewrite release_ide by reflexivity. eexists. split; [reflexivity|]. split; [|reflexivity].
    assert (Hbuf : ide_buf (s5 <| ide_ctl := c' |> <| idelock := None |>) = <[i := x2]> (ide_buf s2)) by exact E5.
    split; [reflexivity | reflexivity | | exact Hnd | |]; cbn [ds_queue ds_buf ds_img].
    + rewrite Hbuf, map_unlink_insert, Ex2. reflexivity.
    + rewrite Hbuf. apply chained_insert; [exact Hiq | exact Hch].
    + rewrite Hbuf, <- E5. exists bj. split; [exact Ej5|].
      change (ide_ctl (s5 <| ide_ctl := c' |> <| idelock := None |>)) with c'. change (ide_ctl s5) with c in Hw'.
      destruct (bitset (b_flags bj) B_DIRTY); destruct Hw' as [H2 H3]; (split; [exact H2|]); intros d n; rewrite H3; [apply img_upd_eq|]; apply Him.
Qed.

(** *** A new request *)

Lemma working_unlink bufs bufs' f i q q' c : map unlink bufs' = map unlink bufs ->
  working bufs f (i :: q) c -> working bufs' f (i :: q') c.
Proof.
  intros Eu (b & Eb & Hw). pose proof (lookup_unlink _ _ _ Eb) as E. rewrite <- Eu in E.
  change (map unlink bufs') with (unlink <$> bufs') in E. apply list_lookup_fmap_Some in E as (b' & Ex & Eb').
  exists b'. split; [exact Eb'|].
  assert (E1 : b_flags b' = b_flags b) by exact (eq_sym (f_equal b_flags Ex)).
  assert (E2 : b_dev b' = b_dev b) by exact (eq_sym (f_equal b_dev Ex)).
  assert (E3 : b_blockno b' = b_blockno b) by exact (eq_sym (f_equal b_blockno Ex)).
  assert (E4 : b_data b' = b_data b) by exact (eq_sym (f_equal b_data Ex)).
  rewrite E1, E2, E3, E4. exact Hw.
Qed.
Lemma unlink_same bufs i b x : bufs !! i = Some b -> unlink x = unlink b -> map unlink (<[i := x]> bufs) = map unlink bufs.
Proof. intros Eb Ex. rewrite map_unlink_insert, Ex. apply list_insert_id. apply lookup_unlink. exact Eb. Qed.

Lemma append_from_ok b : forall q n i s, chained (ide_buf s) (i :: q) -> b ∉ i :: q -> NoDup (i :: q) -> (length q < n)%nat ->
  exists bufs', append_from n i b s = Ret tt (s <| ide_buf := bufs' |>) /\ map unlink bufs' = map unlink (ide_buf s) /\
    (forall k, k ∉ i :: q -> bufs' !! k = ide_buf s !! k) /\
    forall x, ide_buf s !! b = Some x -> b_qnext x = None -> request x -> chained bufs' (i :: q ++ [b]).
Proof.
  induction q as [|j q IH]; intros n i s [(bi & Ei & Hqi & Hri) Hch] Hb Hnd Hn; (destruct n as [|n]; [cbn in Hn; lia|]);
    cbn [append_from]; rewrite (bind_eq _ _ _ _ _ (at_buf_get b_qnext i s bi Ei)), Hqi; cbn [head].
  - exists (<[i := bi <| b_qnext := Some b |>]> (ide_buf s)). rewrite (at_buf_modify _ i s bi Ei). split; [reflexivity|].
    split; [apply (unlink_same _ _ _ _ Ei); reflexivity|].
    apply not_elem_of_cons in Hb as [Hbi _]. split.
    { intros k [Hk _]%not_elem_of_cons. apply list_lookup_insert_ne. congruence. }
    intros x Ex Hx Hr. cbn [app chained head]. split; [|split; [|exact I]].
    + exists (bi <| b_qnext := Some b |>). split; [|auto]. apply list_lookup_insert_eq. apply lookup_lt_Some in Ei. exact Ei.
    + exists x. rewrite list_lookup_insert_ne by congruence. auto.
  - apply not_elem_of_cons in Hb as [Hbi Hb]. apply NoDup_cons in Hnd as [Hi Hnd].
    destruct (IH n j s Hch Hb Hnd ltac:(cbn in Hn; lia)) as (bufs' & E & Hu & Hsame & Hc). exists bufs'.
    split; [exact E|]. split; [exact Hu|]. split.
    { intros k [_ Hk]%not_elem_of_cons. auto. }
    intros x Ex Hx Hr. specialize (Hc x Ex Hx Hr). cbn [app]. split; [|exact Hc].
    exists bi. rewrite Hsame by exact Hi. auto.
Qed.

Lemma at_buf_mine i s b : ide_buf s !! i = Some b -> mine b -> at_buf i (zoom b_lock holdingsleep) s = Ret true s.
Proof.
  intros Eb (Hk1 & Hk2 & Hk3). unfold at_buf, zoom, elt. rewrite Eb, holdingsleep_eq by exact Hk1.
  rewrite Hk2, Hk3, Z.eqb_refl. cbn.
  assert (E : b <| b_lock := b_lock b |> = b) by (destruct b; reflexivity). rewrite E, list_insert_id by exact Eb.
  destruct s. reflexivity.
Qed.

Lemma iderw_start_ok fuel i s a b : rel s a -> i ∉ ds_queue a -> ide_buf s !! i = Some b -> request b -> mine b ->
  (b_dev b = 0 \/ havedisk1 s = true) -> (length (ds_queue a) < fuel)%nat ->
  exists s', iderw_start fuel i s = Ret tt s' /\ idelock s' = Some cpu_id /\ rel (s' <| idelock := None |>) (submit i a) /\
    havedisk1 s' = havedisk1 s.
Proof.
  intros [Hlk Hq Hb Hnd Hch Hw] Hi Eb Hr Hm Hdev Hf. unfold iderw_start.
  rewrite (bind_eq _ _ _ _ _ (at_buf_mine i s b Eb Hm)). cbn [negb panic_if]. step by (reflexivity).
  rewrite (bind_eq _ _ _ _ _ (at_buf_get id i s b Eb)). unfold id. pose proof Hr as (Hfl & _).
  apply Z.eqb_neq in Hfl. rewrite Hfl. step by (reflexivity). rewrite bind_get.
  assert (Hd : negb (b_dev b =? 0) && negb (havedisk1 s) = false).
  { destruct Hdev as [->| ->]; [reflexivity | rewrite andb_comm; reflexivity]. }
  rewrite Hd. step by (reflexivity). step by (apply acquire_ide; exact Hlk).
  set (s1 := s <| idelock := Some cpu_id |>). change (ide_buf s) with (ide_buf s1) in *. change (ide_ctl s) with (ide_ctl s1) in *.
  rewrite (bind_eq _ _ _ _ _ (at_buf_modify _ i s1 b Eb)).
  set (s2 := s1 <| ide_buf := <[i := unlink b]> (ide_buf s1) |>). change (b <| b_qnext := None |>) with (unlink b). fold s2.
  assert (Hu : map unlink (ide_buf s2) = map unlink (ide_buf s1)) by (apply (unlink_same _ _ _ _ Eb); reflexivity).
  assert (E2 : ide_buf s2 !! i = Some (unlink b)) by (apply list_lookup_insert_eq; apply lookup_lt_Some in Eb; exact Eb).
  assert (Hch2 : chained (ide_buf s2) (ds_queue a)) by (apply chained_insert; auto).
  assert (Hreq : request (unlink b)) by exact Hr.
  unfold append_queue. rewrite bind_assoc, bind_get. change (idequeue s2) with (idequeue s). rewrite Hq.
  destruct a as [bufs f [|j q]]; cbn [ds_queue ds_buf ds_img head] in *.
  - rewrite bind_modify, bind_get. cbn [idequeue set_field]. rewrite decide_True by reflexivity.
    set (s3 := s2 <| idequeue := Some i |>). change (ide_buf s2) with (ide_buf s3) in *. change (ide_ctl s1) with (ide_ctl s3) in Hw.
    destruct (idestart_ok fuel i s3 (unlink b) ltac:(lia) E2 Hreq (proj1 Hw)) as (c & E & Hc).
    eexists. split; [exact E|]. split; [reflexivity|]. split; [|reflexivity].
    split; cbn [ds_queue ds_buf ds_img submit app]; auto.
    + rewrite Hb, <- Hu. reflexivity.
    + apply NoDup_singleton.
    + split; [exists (unlink b); auto | exact I].
    + exists (unlink b). split; [exact E2|]. destruct Hw as [_ Hw].
      change (ide_ctl (s3 <| ide_ctl := c |> <| idelock := None |>)) with c.
      destruct (bitset (b_flags (unlink b)) B_DIRTY); destruct Hc as [H3 H4]; (split; [exact H3|]); intros d n; rewrite H4; [apply img_upd_eq|]; apply Hw.
  - destruct (append_from_ok i q fuel j s2 Hch2 Hi Hnd ltac:(cbn in Hf; lia)) as (bufs' & E & Hu' & Hsame & Hc).
    rewrite (bind_eq _ _ _ _ _ E), bind_get. change (idequeue (s2 <| ide_buf := bufs' |>)) with (idequeue s). rewrite Hq.
    apply not_elem_of_cons in Hi as Hij. rewrite decide_False by (intros [= ->]; destruct Hij; congruence).
    eexists. split; [reflexivity|]. split; [reflexivity|]. split; [|reflexivity].
    split; cbn [ds_queue ds_buf ds_img submit app]; auto.
    + exact (eq_trans Hb (eq_sym (eq_trans Hu' Hu))).
    + change (NoDup ((j :: q) ++ [i])). apply NoDup_app. split; [exact Hnd|]. split; [|apply NoDup_singleton].
      intros x Hx ->%list_elem_of_singleton. exact (Hi Hx).
    + exact (Hc _ E2 eq_refl Hreq).
    + apply (working_unlink (ide_buf s1) bufs' f j q); [congruence | exact Hw].
Qed.

(** *** A request to its end *)

(** The interrupt handler, on the state while the process sleeps. *)
Definition irq (fuel : nat) (s : ide) : ide := match ideintr fuel s with Ret _ s' => s' | Stop _ s' => s' end.
Definition pending (b : buf) : Prop := Z.land (b_flags b) (Z.lor B_VALID B_DIRTY) <> B_VALID.

Lemma rel_buf s a i b : rel s a -> ds_buf a !! i = Some b -> exists x, ide_buf s !! i = Some x /\ b = unlink x.
Proof.
  intros Hr E. rewrite (r_buf _ _ Hr) in E. change (map unlink (ide_buf s)) with (unlink <$> ide_buf s) in E.
  apply list_lookup_fmap_Some in E as (x & -> & E). eauto.
Qed.
Lemma interrupt_buf a i j q : ds_queue a = j :: q -> i <> j -> ds_buf (interrupt a) !! i = ds_buf a !! i.
Proof.
  intros E Hij. unfold interrupt. rewrite E. destruct (ds_buf a !! j); [|reflexivity]. apply list_lookup_insert_ne. congruence.
Qed.
Lemma interrupt_queue s a j q : rel s a -> ds_queue a = j :: q -> ds_queue (interrupt a) = q.
Proof.
  intros Hr E. pose proof (r_chained _ _ Hr) as Hc. rewrite E in Hc. destruct Hc as [(b & Eb & _) _].
  unfold interrupt. rewrite E, (r_buf _ _ Hr), (lookup_unlink _ _ _ Eb). reflexivity.
Qed.

Lemma wait_done_ok fuel i b : (0 < fuel)%nat -> forall q s a, idelock s = Some cpu_id -> rel (s <| idelock := None |>) a ->
  ds_queue a = q ++ [i] -> ds_buf a !! i = Some b -> pending b ->
  exists s', wait_done (S (S (length q))) i (repeat (irq fuel) (S (length q))) s = Ret tt s' /\ idelock s' = Some cpu_id /\
    rel (s' <| idelock := None |>) (Nat.iter (S (length q)) interrupt a).
Proof.
  intros Hf. induction q as [|j q IH]; intros s a Hlk Hr Hq Eb Hp; destruct (rel_buf _ _ _ _ Hr Eb) as (x & Ex & ->);
    cbn [wait_done repeat length]; cbn [ide_buf set_field] in Ex;
    rewrite (bind_eq _ _ _ _ _ (at_buf_get b_flags i s x Ex)); pose proof Hp as Hne; apply Z.eqb_neq in Hne; cbn in Hne; rewrite Hne;
    unfold sleep_on; (step by (apply release_ide; exact Hlk)); rewrite bind_modify;
    destruct (ideintr_ok fuel _ a Hf Hr) as (s1 & E1 & Hr1 & _); 
    (assert (Ei : irq fuel (s <| idelock := None |>) = s1) by (unfold irq; rewrite E1; reflexivity)); rewrite Ei;
    (step by (apply acquire_ide; exact (r_lock _ _ Hr1))); set (s2 := s1 <| idelock := Some cpu_id |>);
    assert (Hr2 : rel (s2 <| idelock := None |>) (interrupt a)) by (destruct Hr1; split; auto).
  - exists s2. split; [|split; [reflexivity | exact Hr2]].
    assert (Es : ds_buf (interrupt a) !! i = Some (serve_buf (ds_img a) (unlink x))).
    { unfold interrupt. rewrite Hq. cbn [app]. rewrite Eb. apply list_lookup_insert_eq. apply lookup_lt_Some in Eb. exact Eb. }
    destruct (rel_buf _ _ _ _ Hr1 Es) as (y & Ey & Hy). change (ide_buf s1) with (ide_buf s2) in Ey.
    rewrite (bind_eq _ _ _ _ _ (at_buf_get b_flags i s2 y Ey)).
    replace (b_flags y) with (b_flags (serve_buf (ds_img a) (unlink x))) by (rewrite Hy; reflexivity).
    rewrite flags_served, Z.eqb_refl. reflexivity.
  - pose proof (r_nodup _ _ Hr) as Hnd. rewrite Hq in Hnd. cbn [app] in Hnd. apply NoDup_cons in Hnd as [Hj _].
    assert (Hij : i <> j) by (intros ->; apply Hj, elem_of_app; right; left).
    pose proof (interrupt_queue _ _ _ _ Hr Hq) as Hq1.
    destruct (IH s2 (interrupt a) eq_refl Hr2 Hq1) as (s' & E & Hl & Hr').
    + rewrite (interrupt_buf _ _ _ _ Hq Hij). exact Eb.
    + exact Hp.
    + exists s'. split; [exact E|]. split; [exact Hl|].
      replace (Nat.iter (S (S (length q))) interrupt a) with (Nat.iter (S (length q)) interrupt (interrupt a)); [exact Hr'|].
      symmetry. apply Nat.iter_succ_r.
Qed.

(** *** Served like by the memory disk *)

Lemma interrupt_submit s a i : rel s a -> ds_queue a <> [] -> interrupt (submit i a) = submit i (interrupt a).
Proof.
  intros Hr Hq. pose proof (r_chained _ _ Hr) as Hc. unfold interrupt, submit. cbn [ds_queue ds_buf ds_img].
  destruct (ds_queue a) as [|j q] eqn:E; [congruence|]. destruct Hc as [(b & Eb & _) _].
  cbn [app]. rewrite (r_buf _ _ Hr), (lookup_unlink _ _ _ Eb). reflexivity.
Qed.
(** The requests in front of a new one, served. *)
Lemma iter_submit fuel i : (0 < fuel)%nat -> forall q s a, rel s a -> ds_queue a = q ->
  Nat.iter (length q) interrupt (submit i a) = submit i (Nat.iter (length q) interrupt a) /\
  ds_queue (Nat.iter (length q) interrupt a) = [] /\
  (forall k, k ∉ q -> ds_buf (Nat.iter (length q) interrupt a) !! k = ds_buf a !! k).
Proof.
  intros Hf. induction q as [|j q IH]; intros s a Hr Hq; [auto|]. cbn [length].
  destruct (ideintr_ok fuel s a Hf Hr) as (s1 & _ & Hr1 & _).
  destruct (IH s1 (interrupt a) Hr1 (interrupt_queue _ _ _ _ Hr Hq)) as (H2 & H3 & H4).
  rewrite !Nat.iter_succ_r, (interrupt_submit s) by (auto; congruence). split; [exact H2|]. split; [exact H3|].
  intros k [Hkj Hk]%not_elem_of_cons. rewrite H4 by exact Hk. exact (interrupt_buf _ _ _ _ Hq Hkj).
Qed.

Lemma ide_iderw_ok fuel i s a b : rel s a -> i ∉ ds_queue a -> ide_buf s !! i = Some b -> request b -> mine b ->
  (b_dev b = 0 \/ havedisk1 s = true) -> (length (ds_queue a) < fuel)%nat ->
  let a1 := Nat.iter (length (ds_queue a)) interrupt a in
  exists s', ide_iderw fuel i (repeat (irq fuel) (S (length (ds_queue a)))) s = Ret tt s' /\
    rel s' (mk_ds (<[i := serve_buf (ds_img a1) (unlink b)]> (ds_buf a1)) (serve_img (ds_img a1) (unlink b)) []) /\
    ds_buf a1 !! i = Some (unlink b).
Proof.
  intros Hr Hi Eb Hreq Hm Hd Hf a1. unfold ide_iderw.
  destruct (iderw_start_ok fuel i s a b Hr Hi Eb Hreq Hm Hd Hf) as (s1 & E1 & Hl1 & Hr1 & _).
  assert (Ea : ds_buf a !! i = Some (unlink b)) by (rewrite (r_buf _ _ Hr); apply lookup_unlink; exact Eb).
  destruct (iter_submit fuel i ltac:(lia) (ds_queue a) s a Hr eq_refl) as (E2 & E3 & E4). fold a1 in E2, E3, E4.
  destruct (wait_done_ok fuel i (unlink b) ltac:(lia) (ds_queue a) s1 (submit i a) Hl1 Hr1 eq_refl Ea (proj1 Hreq))
    as (s2 & E & Hl2 & Hr2).
  rewrite (bind_eq _ _ _ _ _ E1). rewrite repeat_length. rewrite (bind_eq _ _ _ _ _ E).
  exists (s2 <| idelock := None |>). split; [apply release_ide; exact Hl2|].
  assert (Eb1 : ds_buf a1 !! i = Some (unlink b)) by (rewrite E4 by exact Hi; exact Ea). split; [|exact Eb1].
  replace (mk_ds _ _ []) with (Nat.iter (S (length (ds_queue a))) interrupt (submit i a)); [exact Hr2|].
  rewrite Nat.iter_succ, E2. unfold interrupt, submit. cbn [ds_queue ds_buf ds_img]. rewrite E3. cbn [app]. rewrite Eb1. reflexivity.
Qed.

(** iderw() of the memory disk, on buffers without links. *)
Lemma memide_ok i bufs f size w b : bufs !! i = Some b -> request b -> mine b -> b_dev b = 1 -> b_blockno b < size ->
  exists sb, Bio.iderw i (mk_bio None bufs (mk_disk size f w)) = Ret tt sb /\
    bc_buf sb = <[i := serve_buf (fun _ => f) b]> bufs /\
    forall n, d_img (bc_disk sb) n = serve_img (fun _ => f) b 1 n.
Proof.
  intros Eb Hr Hm Hd Hn. set (s0 := mk_bio None bufs (mk_disk size f w)). unfold Bio.iderw.
  rewrite (bind_eq _ _ _ _ _ (on_buf_mine i s0 b Eb Hm)). cbn [negb panic_if]. step by (reflexivity).
  rewrite (bind_eq _ _ _ _ _ (on_buf_get id i s0 b Eb)). unfold id. pose proof Hr as (Hfl & _).
  apply Z.eqb_neq in Hfl. rewrite Hfl. step by (reflexivity). rewrite Hd. cbn [Z.eqb Pos.eqb negb panic_if]. step by (reflexivity).
  rewrite bind_get. cbn [bc_disk d_size s0]. destruct (Z.leb_spec size (b_blockno b)); [lia|]. step by (reflexivity).
  assert (Hlt : (i < length bufs)%nat) by (apply lookup_lt_Some in Eb; exact Eb).
  unfold serve_buf, serve_img. destruct (bitset (b_flags b) B_DIRTY).
  - rewrite bind_assoc, (bind_eq _ _ _ _ _ (on_buf_upd i _ s0 b Eb)), bind_modify.
    rewrite on_buf_modify by (unfold upd; cbn; rewrite length_alter; exact Hlt). eexists. split; [reflexivity|]. split.
    + change (alter (fun b => b <| b_flags ::= Z.lor B_VALID |>) i (alter (fun b => b <| b_flags ::= fun f => Z.land f (Z.lnot B_DIRTY) |>) i bufs) =
        <[i := b <| b_flags := Z.lor B_VALID (Z.land (b_flags b) (Z.lnot B_DIRTY)) |>]> bufs).
      rewrite list_alter_alter_eq. apply list_eq. intros k. rewrite list_lookup_alter. destruct (decide (i = k)) as [<-|Hk].
      * rewrite Eb, list_lookup_insert_eq by exact Hlt. destruct b. reflexivity.
      * rewrite list_lookup_insert_ne by exact Hk. reflexivity.
    + intros n. unfold img_upd. rewrite Hd. reflexivity.
  - rewrite bind_assoc, bind_get, (bind_eq _ _ _ _ _ (on_buf_upd i _ s0 b Eb)).
    rewrite on_buf_modify by (unfold upd; cbn; rewrite length_alter; exact Hlt). eexists. split; [reflexivity|]. split; [|reflexivity].
    change (alter (fun b => b <| b_flags ::= Z.lor B_VALID |>) i (alter (fun x => x <| b_data := f (b_blockno b) |>) i bufs) =
      <[i := b <| b_data := f (b_blockno b) |> <| b_flags := Z.lor B_VALID (b_flags b) |>]> bufs).
    rewrite list_alter_alter_eq. apply list_eq. intros k. rewrite list_lookup_alter. destruct (decide (i = k)) as [<-|Hk].
    * rewrite Eb, list_lookup_insert_eq by exact Hlt. destruct b. reflexivity.
    * rewrite list_lookup_insert_ne by exact Hk. reflexivity.
Qed.
End Proofs.

(** ** The theorems *)

Section Theorems.
Context `{ControllerOk}.

(** What reaches the driver: a process [pid] on a CPU submits the buffer [i]
    (and sleeps), or the disk interrupts a CPU. *)
Inductive event : Type := Submit (cpu : nat) (pid : Z) (i : nat) | Interrupt (cpu : nat).

Definition do_event (fuel : nat) (e : event) : M ide unit :=
  match e with
  | Submit cpu pid i => let c := {| cpu_id := cpu; cur_pid := pid |} in (iderw_start fuel i ;! zoom idelock release)
  | Interrupt cpu => let c := {| cpu_id := cpu; cur_pid := 0 |} in ideintr fuel
  end.
Definition run_events (fuel : nat) (evs : list event) : M ide unit := for_all evs (do_event fuel).

(** The same on the abstract queue, and when a process may submit. *)
Definition spec_event (a : disk_state) (e : event) : disk_state :=
  match e with Submit _ _ i => submit i a | Interrupt _ => interrupt a end.
Definition allowed (fuel : nat) (have : bool) (a : disk_state) (e : event) : Prop :=
  match e with
  | Interrupt _ => True
  | Submit cpu pid i =>
      let c := {| cpu_id := cpu; cur_pid := pid |} in
      (length (ds_queue a) < fuel)%nat /\ i ∉ ds_queue a /\
      exists b, ds_buf a !! i = Some b /\ request b /\ mine b /\ (b_dev b = 0 \/ have = true)
  end.
Fixpoint all_allowed (fuel : nat) (have : bool) (a : disk_state) (evs : list event) : Prop :=
  match evs with [] => True | e :: evs' => allowed fuel have a e /\ all_allowed fuel have (spec_event a e) evs' end.

Lemma event_ok fuel e s a : (0 < fuel)%nat -> rel s a -> allowed fuel (havedisk1 s) a e ->
  exists s', do_event fuel e s = Ret tt s' /\ rel s' (spec_event a e) /\ havedisk1 s' = havedisk1 s.
Proof.
  intros Hf Hr Ha. destruct e as [cpu pid i|cpu]; cbn in *; [|apply ideintr_ok; assumption].
  set (c := {| cpu_id := cpu; cur_pid := pid |}) in *. destruct Ha as (Hlen & Hi & b & Eb & Hreq & Hm & Hd).
  destruct (rel_buf _ _ _ _ Hr Eb) as (x & Ex & ->).
  destruct (iderw_start_ok fuel i s a x Hr Hi Ex Hreq Hm Hd Hlen) as (s1 & E1 & Hl1 & Hr1 & Hh).
  exists (s1 <| idelock := None |>). split; [|split; [exact Hr1 | exact Hh]].
  rewrite (bind_eq _ _ _ _ _ E1). apply release_ide. exact Hl1.
Qed.
Lemma events_ok fuel : (0 < fuel)%nat -> forall evs s a, rel s a -> all_allowed fuel (havedisk1 s) a evs ->
  exists s', run_events fuel evs s = Ret tt s' /\ rel s' (foldl spec_event a evs) /\ havedisk1 s' = havedisk1 s.
Proof.
  intros Hf. induction evs as [|e evs IH]; intros s a Hr Ha; [exists s; auto|]. destruct Ha as [He Ha].
  destruct (event_ok fuel e s a Hf Hr He) as (s1 & E1 & Hr1 & Hh1). rewrite <- Hh1 in Ha.
  destruct (IH s1 (spec_event a e) Hr1 Ha) as (s2 & E2 & Hr2 & Hh2). exists s2.
  unfold run_events. cbn [for_all]. rewrite (bind_eq _ _ _ _ _ E1). split; [exact E2|]. split; [exact Hr2 | congruence].
Qed.

(** C19. The driver refines a queue of requests served one at a time in the
    order of arrival: for every sequence of requests of any processes on any
    CPUs and of interrupts, each request on a buffer its process holds and
    that is not queued, no step panics, blocks or spins; the links, the head
    of the queue and the controller agree with the abstract queue; and an
    interrupt serves exactly the oldest request. *)
Theorem ide_refines_queue fuel evs s a : (0 < fuel)%nat -> rel s a -> all_allowed fuel (havedisk1 s) a evs ->
  exists s', run_events fuel evs s = Ret tt s' /\ rel s' (foldl spec_event a evs).
Proof. intros Hf Hr Ha. destruct (events_ok fuel Hf evs s a Hr Ha) as (s' & E & Hr' & _). eauto. Qed.

(** A call of iderw() ends after one interrupt for each request in front
    of it and one for its own, and does what iderw() of the memory disk does
    on the disk left by those requests: the same flags and data in the buffer,
    the same contents of the disk, and no other buffer changed. *)
Theorem ide_as_memide `{Ctx} fuel i s a b size w : rel s a -> i ∉ ds_queue a -> ide_buf s !! i = Some b -> request b -> mine b ->
  havedisk1 s = true -> b_dev b = 1 -> b_blockno b < size -> (length (ds_queue a) < fuel)%nat ->
  let a1 := Nat.iter (length (ds_queue a)) interrupt a in
  exists s' sb f, ide_iderw fuel i (repeat (irq fuel) (S (length (ds_queue a)))) s = Ret tt s' /\
    Bio.iderw i (mk_bio None (ds_buf a1) (mk_disk size (ds_img a1 1) w)) = Ret tt sb /\
    rel s' (mk_ds (bc_buf sb) f []) /\ (forall n, f 1 n = d_img (bc_disk sb) n) /\
    exists b', bc_buf sb !! i = Some b' /\ Z.land (b_flags b') (Z.lor B_VALID B_DIRTY) = B_VALID.
Proof.
  intros Hr Hi Eb Hreq Hm Hh Hd Hn Hf a1.
  destruct (ide_iderw_ok fuel i s a b Hr Hi Eb Hreq Hm (or_intror Hh) Hf) as (s' & E & Hr' & Eb1). fold a1 in Hr', Eb1.
  destruct (memide_ok i (ds_buf a1) (ds_img a1 1) size w (unlink b) Eb1 Hreq Hm Hd Hn) as (sb & E2 & Hb2 & Hi2).
  exists s', sb, (serve_img (ds_img a1) (unlink b)). split; [exact E|]. split; [exact E2|]. rewrite Hb2.
  assert (Es : serve_buf (fun _ => ds_img a1 1) (unlink b) = serve_buf (ds_img a1) (unlink b)).
  { unfold serve_buf. destruct (bitset _ _); [reflexivity|]. change (b_dev (unlink b)) with (b_dev b). rewrite Hd. reflexivity. }
  rewrite Es. split; [exact Hr'|]. split.
  - intros n. rewrite Hi2. unfold serve_img. destruct (bitset _ _); [|reflexivity].
    unfold img_upd. destruct (_ && _); reflexivity.
  - exists (serve_buf (ds_img a1) (unlink b)). split; [|apply flags_served].
    apply list_lookup_insert_eq. apply lookup_lt_Some in Eb1. exact Eb1.
Qed.
End Theorems.

(** A read error: idewait() reports it, and the handler leaves the data of the
    buffer alone but marks the buffer valid all the same. *)
Lemma read_error_valid `{Controller} `{Ctx} fuel i s b : (0 < fuel)%nat -> idelock s = None -> idequeue s = Some i ->
  ide_buf s !! i = Some b -> b_qnext b = None -> bitset (b_flags b) B_DIRTY = false ->
  is_ready (ctl_in 0x1f7 (ide_ctl s)).1 -> bitset (ctl_in 0x1f7 (ide_ctl s)).1 (Z.lor IDE_DF IDE_ERR) = true ->
  exists s' b', ideintr fuel s = Ret tt s' /\ ide_buf s' !! i = Some b' /\ b_data b' = b_data b /\
    Z.land (b_flags b') (Z.lor B_VALID B_DIRTY) = B_VALID.
Proof.
  intros Hf Hlk Hq Eb Hn Hd Hr He. unfold ideintr. step by (apply acquire_ide; exact Hlk).
  rewrite bind_get. cbn [idequeue set_field]. rewrite Hq. set (s1 := s <| idelock := Some cpu_id |>).
  change (ide_buf s) with (ide_buf s1) in Eb. change (ide_ctl s) with (ide_ctl s1) in Hr, He.
  rewrite (bind_eq _ _ _ _ _ (at_buf_get id i s1 b Eb)). unfold id. rewrite bind_modify, Hn, Hd. cbn [negb].
  set (s2 := s1 <| idequeue := None |>). change (ide_buf s1) with (ide_buf s2) in Eb. change (ide_ctl s1) with (ide_ctl s2) in Hr, He.
  unfold idewait. rewrite !bind_assoc, (bind_eq _ _ _ _ _ (wait_ready_eq fuel s2 Hf Hr)), He. cbn [andb].
  set (s3 := s2 <| ide_ctl := _ |>). step by (reflexivity). cbn [Z.leb Z.compare]. step by (reflexivity).
  change (ide_buf s2) with (ide_buf s3) in Eb.
  rewrite (bind_eq _ _ _ _ _ (at_buf_modify _ i s3 b Eb)).
  assert (Hlt : (i < length (ide_buf s3))%nat) by (apply lookup_lt_Some in Eb; exact Eb).
  set (b1 := b <| b_flags ::= Z.lor B_VALID |>). set (s4 := s3 <| ide_buf := <[i := b1]> (ide_buf s3) |>).
  assert (E4 : ide_buf s4 !! i = Some b1) by (apply list_lookup_insert_eq; exact Hlt).
  rewrite (bind_eq _ _ _ _ _ (at_buf_modify _ i s4 b1 E4)). unfold wakeup. step by (reflexivity). rewrite bind_get.
  cbn [idequeue set_field]. step by (reflexivity). rewrite release_ide by reflexivity.
  eexists _, (b1 <| b_flags ::= fun f => Z.land f (Z.lnot B_DIRTY) |>). split; [reflexivity|]. split; [|split; [reflexivity|]].
  - apply list_lookup_insert_eq. change (ide_buf s4) with (<[i := b1]> (ide_buf s3)). rewrite length_insert. exact Hlt.
  - pose proof (flags_served (fun _ _ => []) b) as Hs. unfold serve_buf in Hs. rewrite Hd in Hs.
    change (Z.land (Z.land (Z.lor B_VALID (b_flags b)) (Z.lnot B_DIRTY)) (Z.lor B_VALID B_DIRTY) = B_VALID).
    rewrite flags_clean by exact Hd. exact Hs.
Qed.

(** ** A controller *)

(** Registers, contents, and the command that is under way. *)
Module Drive.
Record drive := mk_drive { dr_reg : Z -> Z; dr_img : Z -> Z -> list Z; dr_cmd : option (Z * Z * Z) }.
(** The drive and the sector the registers select. *)
Definition sel_dev (r : Z -> Z) : Z := Z.land (Z.shiftr (r 0x1f6) 4) 1.
Definition sel_sector (r : Z -> Z) : Z :=
  r 0x1f3 + 2 ^ 8 * r 0x1f4 + 2 ^ 16 * r 0x1f5 + 2 ^ 24 * Z.land (r 0x1f6) 0x0f.
#[local] Instance drive_ctl : Controller := {
  ctl := drive;
  ctl_in := fun port c => (IDE_DRDY, mk_drive (dr_reg c) (dr_img c)
    (match dr_cmd c with Some (cmd, d, n) => if cmd =? IDE_CMD_READ then dr_cmd c else None | None => None end));
  ctl_out := fun port v c =>
    if port =? 0x1f7 then mk_drive (dr_reg c) (dr_img c) (Some (v, sel_dev (dr_reg c), sel_sector (dr_reg c)))
    else mk_drive (fun p => if p =? port then v else dr_reg c p) (dr_img c) (dr_cmd c);
  ctl_ins := fun port cnt c => match dr_cmd c with
    | Some (_, d, n) => (dr_img c d n, mk_drive (dr_reg c) (dr_img c) None) | None => ([], c) end;
  ctl_outs := fun port data c => match dr_cmd c with
    | Some (_, d, n) => mk_drive (dr_reg c) (img_upd (dr_img c) d n data) (dr_cmd c) | None => c end }.

Lemma dev_selected d x : 0 <= d <= 1 -> 0 <= x < 16 -> Z.land (Z.shiftr (Z.lor 0xe0 (Z.lor (Z.shiftl (Z.land d 1) 4) x)) 4) 1 = d.
Proof.
  intros Hd Hx. assert (d = 0 \/ d = 1) as [->| ->] by lia;
    assert (x ∈ map Z.of_nat (seq 0 16)) as Hin by (apply list_elem_of_fmap; exists (Z.to_nat x); split; [lia | apply elem_of_seq; lia]);
    cbn in Hin; repeat (apply elem_of_cons in Hin as [->|Hin]; [reflexivity|]); inversion Hin.
Qed.
Lemma sector_low d x : 0 <= d <= 1 -> 0 <= x < 16 -> Z.land (Z.lor 0xe0 (Z.lor (Z.shiftl (Z.land d 1) 4) x)) 0x0f = x.
Proof.
  intros Hd Hx. assert (d = 0 \/ d = 1) as [->| ->] by lia;
    assert (x ∈ map Z.of_nat (seq 0 16)) as Hin by (apply list_elem_of_fmap; exists (Z.to_nat x); split; [lia | apply elem_of_seq; lia]);
    cbn in Hin; repeat (apply elem_of_cons in Hin as [->|Hin]; [reflexivity|]); inversion Hin.
Qed.
Lemma land_ff x : Z.land x 0xff = x mod 2 ^ 8.
Proof. change 0xff with (Z.ones 8). apply Z.land_ones. lia. Qed.
Lemma land_f x : Z.land x 0x0f = x mod 2 ^ 4.
Proof. change 0x0f with (Z.ones 4). apply Z.land_ones. lia. Qed.
Lemma selected d n c : 0 <= d <= 1 -> 0 <= n < 2 ^ 28 ->
  sel_dev (dr_reg (select d n c)) = d /\ sel_sector (dr_reg (select d n c)) = n /\ dr_img (select d n c) = dr_img c.
Proof.
  intros Hd Hn. assert (Hh : 0 <= Z.land (Z.shiftr n 24) 0x0f < 16) by (rewrite land_f; apply Z.mod_pos_bound; lia).
  split; [|split; [|reflexivity]]; unfold sel_dev, sel_sector, select; cbn [dr_reg ctl_out drive_ctl Z.eqb Pos.eqb].
  - apply dev_selected; assumption.
  - rewrite sector_low by assumption. rewrite !land_ff, land_f, !Z.shiftr_div_pow2 by lia. clear -Hn. dlia.
Qed.

#[local] Instance drive_ok : ControllerOk.
Proof.
  refine {| img := dr_img; idle := fun c => dr_cmd c = None;
    has_read := fun c d n => dr_cmd c = Some (IDE_CMD_READ, d, n);
    has_written := fun c => exists d n, dr_cmd c = Some (IDE_CMD_WRITE, d, n) |}.
  - intros c Hc. split; [reflexivity|]. split; [|intros d n; reflexivity]. cbn. destruct Hc as [->|(d & n & ->)]; reflexivity.
  - intros c d n Hc. cbn. rewrite Hc. cbn. repeat split; reflexivity.
  - intros c d n Hc Hd Hn. destruct (selected d n c Hd Hn) as (H1 & H2 & H3).
    cbn [ctl_out drive_ctl Z.eqb Pos.eqb dr_cmd dr_img]. rewrite H1, H2. split; [reflexivity|]. intros d' n'. rewrite H3. reflexivity.
  - intros c d n data Hc Hd Hn Hl. destruct (selected d n c Hd Hn) as (H1 & H2 & H3).
    cbn [ctl_out ctl_outs drive_ctl Z.eqb Pos.eqb dr_cmd dr_img]. rewrite H1, H2. split; [eauto | intros d' n'; reflexivity].
Defined.

(** Two buffers held by process 7: one to read block 3, one to write block 5. *)
Definition held (flags n : Z) (data : list Z) : buf :=
  mk_buf flags 1 n (mk_sleeplock 1 None 7) 1 0 0 None data.
Definition zeros : list Z := repeat 0 512.
Definition bufs : list buf := [held 0 3 zeros; held B_DIRTY 5 (repeat 9 512)].
Definition image (d n : Z) : list Z := repeat (n + 1) 512.
Definition ready : ide := mk_ide _ None None true bufs (mk_drive (fun _ => 0) image None).
Lemma ready_rel : rel ready (mk_ds bufs image []).
Proof.
  split; [reflexivity | reflexivity | reflexivity | constructor | exact I |].
  split; [left; reflexivity | intros d n; reflexivity].
Qed.
Lemma held_request flags n data : 0 <= flags -> Z.land flags 6 <> 2 -> 0 <= n < FSSIZE -> length data = 512%nat ->
  request (held flags n data).
Proof. intros H1 H2 H3 H4. unfold request. cbn. repeat split; auto; lia. Qed.
End Drive.
Import Drive.
#[local] Existing Instances drive_ctl drive_ok.

Lemma ide_refines_queue_witness :
  exists s', run_events 3 [Submit 0 7 0; Submit 1 7 1; Interrupt 0; Interrupt 1] ready = Ret tt s' /\
    rel s' (foldl spec_event (mk_ds bufs image []) [Submit 0 7 0; Submit 1 7 1; Interrupt 0; Interrupt 1]).
Proof.
  apply (ide_refines_queue 3 [Submit 0 7 0; Submit 1 7 1; Interrupt 0; Interrupt 1] ready (mk_ds bufs image []));
    [lia | exact ready_rel |].
  split; [|split; [|split; [exact I | split; exact I]]].
  - split; [cbn; lia|]. split; [apply not_elem_of_nil|]. exists (held 0 3 zeros). split; [reflexivity|].
    split; [apply held_request; [lia | discriminate | unfold FSSIZE; lia | reflexivity]|]. split; [repeat split | auto].
  - split; [cbn; lia|]. split; [intros [E|E]%elem_of_cons; [discriminate E | inversion E]|].
    exists (held B_DIRTY 5 (repeat 9 512)). split; [reflexivity|].
    split; [apply held_request; [unfold B_DIRTY; lia | discriminate | unfold FSSIZE; lia | reflexivity]|]. split; [repeat split | auto].
Defined.
Lemma ide_as_memide_witness : let c := {| cpu_id := 0; cur_pid := 7 |} in
  exists s' sb, ide_iderw 3 1 [irq 3] ready = Ret tt s' /\
    Bio.iderw 1 (mk_bio None bufs (mk_disk 1000 (image 1) [])) = Ret tt sb /\ d_img (bc_disk sb) 5 = repeat 9 512.
Proof.
  intros c. destruct (ide_as_memide 3 1 ready (mk_ds bufs image []) (held B_DIRTY 5 (repeat 9 512)) 1000 [] ready_rel)
    as (s' & sb & f & E1 & E2 & _);
    [apply not_elem_of_nil | reflexivity | | repeat split | reflexivity | reflexivity | cbn; lia | cbn; lia |].
  - apply held_request; [unfold B_DIRTY; lia | discriminate | unfold FSSIZE; lia | reflexivity].
  - exists s', sb. split; [exact E1|]. split; [exact E2|].
    change (Nat.iter _ interrupt _) with (mk_ds bufs image []) in E2.
    assert (E3 : match Bio.iderw 1 (mk_bio None (ds_buf (mk_ds bufs image [])) (mk_disk 1000 (ds_img (mk_ds bufs image []) 1) [])) with
      | Ret _ x => d_img (bc_disk x) 5 | Stop _ _ => [] end = repeat 9 512) by (vm_compute; reflexivity).
    rewrite E2 in E3. exact E3.
Defined.
