(* ===== verification/Kalloc.v ===== *)
(** * The physical page allocator

    [src/homeworks/xv6-public/kalloc.c].  The free list lives in the free
    pages themselves: the first word of a free page is the address of the
    next one.  Addresses are kernel virtual addresses; [kernel_end] is the
    symbol [end] of the linker script, a parameter of the code. *)
From S2P Require Import Prelude.
From S2P Require Import CString.

Definition PGSIZE : Z := 4096.
Definition KERNBASE : Z := 0x80000000.
Definition EXTMEM : Z := 0x100000.
Definition PHYSTOP : Z := 0xE000000.
Definition DEVSPACE : Z := 0xFE000000.
Definition KERNLINK : Z := KERNBASE + EXTMEM.

Definition V2P (a : Z) : Z := u32 (a - KERNBASE).
Definition P2V (a : Z) : Z := u32 (a + KERNBASE).
Definition PGROUNDUP (sz : Z) : Z := Z.land (u32 (sz + PGSIZE - 1)) (u32 (Z.lnot (PGSIZE - 1))).
Definition PGROUNDDOWN (a : Z) : Z := Z.land (u32 a) (u32 (Z.lnot (PGSIZE - 1))).

(** The addresses the linker gives the kernel: [data] and [end]. *)
Class Linked : Type := { kernel_data : Z; kernel_end : Z }.

(** struct kmem, and the memory of the machine. *)
Record kmem := mk_kmem { km_lock : spinlock; km_use_lock : Z; km_freelist : Z; km_mem : mem }.
#[export] Instance eta_kmem : Eta kmem := fun k =>
  mk_kmem (km_lock k) (km_use_lock k) (km_freelist k) (km_mem k).

Section Code.
Context `{Ctx} `{Linked}.

Definition lock_kmem : M kmem unit :=
  let! use := get km_use_lock in
  if use =? 0 then ret tt else zoom km_lock acquire.
Definition unlock_kmem : M kmem unit :=
  let! use := get km_use_lock in
  if use =? 0 then ret tt else zoom km_lock release.

(** Access to memory through a pointer. *)
Definition on_mem (f : mem -> mem) : M kmem unit := modify (fun k => k <| km_mem ::= f |>).
Definition load (a : Z) : M kmem Z := get (fun k => load32 (km_mem k) a).

Definition kfree (v : Z) : M kmem unit :=
  panic_if (negb (v mod PGSIZE =? 0) || (v <? kernel_end) || (PHYSTOP <=? V2P v)) "kfree" ;!
  (* Fill with junk to catch dangling refs. *)
  on_mem (fun m => memset m v 1 PGSIZE) ;!
  lock_kmem ;!
  let r := v in
  let! freelist := get km_freelist in
  on_mem (fun m => store32 m r freelist) ;!
  modify (fun k => k <| km_freelist := r |>) ;!
  unlock_kmem.

Definition kalloc : M kmem Z :=
  lock_kmem ;!
  let! r := get km_freelist in
  (if r =? 0 then ret tt
   else
     let! next := load r in
     modify (fun k => k <| km_freelist := next |>)) ;!
  unlock_kmem ;!
  ret r.

(** [for(; p + PGSIZE <= vend; p += PGSIZE) kfree(p);] with at most [fuel]
    rounds. *)
Fixpoint freerange_loop (fuel : nat) (p vend : Z) : M kmem unit :=
  if p + PGSIZE <=? vend then
    match fuel with
    | O => halt NoFuel
    | S fuel' => kfree p ;! freerange_loop fuel' (p + PGSIZE) vend
    end
  else ret tt.

Definition freerange (fuel : nat) (vstart vend : Z) : M kmem unit :=
  freerange_loop fuel (PGROUNDUP vstart) vend.

Definition kinit1 (fuel : nat) (vstart vend : Z) : M kmem unit :=
  modify (fun k => k <| km_lock := None |>) ;!
  modify (fun k => k <| km_use_lock := 0 |>) ;!
  freerange fuel vstart vend.

Definition kinit2 (fuel : nat) (vstart vend : Z) : M kmem unit :=
  freerange fuel vstart vend ;!
  modify (fun k => k <| km_use_lock := 1 |>).
End Code.

(** ** The free list *)

Section Proofs.
Context `{Ctx} `{Linked}.
Implicit Types (k : kmem) (m : mem).

(** A page the allocator accepts. *)
Definition page_ok (v : Z) : Prop :=
  v mod PGSIZE = 0 /\ kernel_end <= v /\ KERNBASE < v /\ v + PGSIZE <= KERNBASE + PHYSTOP.

Fixpoint chain m (p : Z) (l : list Z) : Prop :=
  match l with
  | [] => p = 0
  | x :: l' => p = x /\ chain m (load32 m x) l'
  end.

Record kmem_ok k (l : list Z) : Prop := {
  k_lock : km_lock k = None;
  k_chain : chain (km_mem k) (km_freelist k) l;
  k_pages : Forall page_ok l;
  k_nodup : NoDup l;
  k_bytes : bytes_ok (km_mem k) }.

(** Addresses [x] outside page [v]. *)
Definition off_page (v x : Z) : Prop := x < v \/ v + PGSIZE <= x.

Lemma pages_apart v w : page_ok v -> page_ok w -> v <> w -> v + PGSIZE <= w \/ w + PGSIZE <= v.
Proof.
  intros (Hv & _) (Hw & _) Hne. unfold PGSIZE in *.
  apply Z.mod_divide in Hv, Hw; try lia. destruct Hv as [a ->], Hw as [b ->]. lia.
Qed.

Lemma chain_ext m m' l : forall p, (forall x, x ∈ l -> load32 m' x = load32 m x) ->
  chain m p l -> chain m' p l.
Proof.
  induction l as [|x l IH]; intros p He; cbn; [auto|].
  intros [-> Hc]. split; [reflexivity|]. rewrite He by left. apply IH; [|exact Hc].
  intros y Hy. apply He. right. exact Hy.
Qed.

Lemma lock_kmem_eq k : km_lock k = None ->
  lock_kmem k = Ret tt (k <| km_lock := if km_use_lock k =? 0 then None else Some cpu_id |>).
Proof.
  destruct k as [lk u f m]. cbn [km_lock]. intros ->. unfold lock_kmem. run.
  destruct (u =? 0); run; reflexivity.
Qed.
Lemma unlock_kmem_eq lk u f m : lk = (if u =? 0 then None else Some cpu_id) ->
  unlock_kmem (mk_kmem lk u f m) = Ret tt (mk_kmem None u f m).
Proof. intros ->. unfold unlock_kmem. run. destruct (u =? 0); run; reflexivity. Qed.

Lemma page_guard v : page_ok v ->
  negb (v mod PGSIZE =? 0) || (v <? kernel_end) || (PHYSTOP <=? V2P v) = false.
Proof.
  intros (Hv & He & Hk & Hp). rewrite Hv. cbn. apply orb_false_iff.
  unfold V2P, u32, KERNBASE, PHYSTOP, PGSIZE in *. rewrite Z.mod_small by lia. lia.
Qed.

Lemma kfree_eq k v : km_lock k = None -> page_ok v ->
  kfree v k = Ret tt (mk_kmem None (km_use_lock k) v
    (store32 (memset (km_mem k) v 1 PGSIZE) v (km_freelist k))).
Proof.
  intros Hlk Hv. destruct k as [lk u f m]. cbn [km_lock km_use_lock km_freelist km_mem] in *. subst lk.
  unfold kfree. step by (apply panic_if_false, page_guard; exact Hv). step by reflexivity.
  step by (apply lock_kmem_eq; reflexivity). do 3 (step by reflexivity).
  unfold set_field. cbn. apply unlock_kmem_eq. reflexivity.
Qed.

(** The memory of other pages is not touched. *)
Lemma kfree_mem m v f x : off_page v x -> store32 (memset m v 1 PGSIZE) v f x = m x.
Proof.
  intros Hx. unfold off_page, PGSIZE in Hx. rewrite store32_other by lia.
  rewrite memset_lookup by (unfold PGSIZE; lia). unfold PGSIZE.
  destruct (Z.leb_spec v x), (Z.ltb_spec x (v + 4096)); try reflexivity; lia.
Qed.

Lemma memset_ok m dst c n : bytes_ok m -> 0 <= n -> bytes_ok (memset m dst c n).
Proof.
  intros Hm Hn x. rewrite memset_lookup by exact Hn. destruct (_ && _); [|apply Hm].
  unfold u8. apply Z.mod_pos_bound. lia.
Qed.

Lemma chain_range m p l : chain m p l -> Forall page_ok l -> 0 <= p < 2 ^ 32.
Proof.
  destruct l as [|x l]; cbn; [lia|]. intros [-> _] Hp. apply Forall_cons in Hp as [(_ & _ & H1 & H2) _].
  unfold KERNBASE, PHYSTOP, PGSIZE in *. lia.
Qed.

Lemma load32_off_page m m' v w : (forall x, off_page v x -> m' x = m x) ->
  v + PGSIZE <= w \/ w + PGSIZE <= v -> forall a, w <= a -> a + 4 <= w + PGSIZE ->
  load32 m' a = load32 m a.
Proof.
  intros He Hw a H1 H2. apply load32_ext. intros x Hx. apply He. unfold off_page, PGSIZE in *. lia.
Qed.

Lemma kfree_ok k l v : kmem_ok k l -> page_ok v -> v ∉ l ->
  exists k', kfree v k = Ret tt k' /\ kmem_ok k' (v :: l) /\ km_use_lock k' = km_use_lock k /\
    (forall x, off_page v x -> km_mem k' x = km_mem k x) /\
    (forall x, v + 4 <= x < v + PGSIZE -> km_mem k' x = 1).
Proof.
  intros [Hlk Hc Hp Hnd Hb] Hv Hnl. eexists. split; [apply kfree_eq; assumption|].
  split; [|split; [reflexivity|split]]; cbn -[memset store32].
  - constructor; cbn -[memset store32]; auto.
    + split; [reflexivity|]. rewrite load32_store32. unfold u32.
      rewrite Z.mod_small by (eapply chain_range; eassumption).
      eapply chain_ext; [|exact Hc]. intros x Hx. rewrite Forall_forall in Hp.
      apply (load32_off_page _ _ v x); try (unfold PGSIZE; lia).
      * intros y Hy. apply kfree_mem. exact Hy.
      * apply pages_apart; auto. intros ->. contradiction.
    + constructor; assumption.
    + apply store32_ok, memset_ok; [exact Hb | unfold PGSIZE; lia].
  - intros x Hx. apply kfree_mem. exact Hx.
  - intros x Hx. unfold PGSIZE in Hx. rewrite store32_other by lia.
    rewrite memset_lookup by (unfold PGSIZE; lia). unfold PGSIZE.
    rewrite (proj2 (Z.leb_le v x)), (proj2 (Z.ltb_lt x _)) by lia. reflexivity.
Qed.

Lemma kalloc_eq k l : kmem_ok k l ->
  match l with
  | [] => kalloc k = Ret 0 k
  | v :: l' => exists k', kalloc k = Ret v k' /\ kmem_ok k' l' /\ km_use_lock k' = km_use_lock k /\
      km_mem k' = km_mem k
  end.
Proof.
  intros [Hlk Hc Hp Hnd Hb]. destruct k as [lk u f m].
  cbn [km_lock km_use_lock km_freelist km_mem] in *. subst lk. unfold kalloc.
  destruct l as [|v l].
  - cbn in Hc. subst f. step by (apply lock_kmem_eq; reflexivity). step by reflexivity.
    cbn [km_freelist set_field]. change (0 =? 0) with true. cbn iota. step by reflexivity.
    step by (apply unlock_kmem_eq; reflexivity). reflexivity.
  - destruct Hc as [-> Hc]. apply Forall_cons in Hp as [Hv Hp]. apply NoDup_cons in Hnd as [Hnv Hnd].
    exists (mk_kmem None u (load32 m v) m). split.
    + step by (apply lock_kmem_eq; reflexivity). step by reflexivity. unfold set_field.
      cbn [km_freelist km_lock km_use_lock km_mem].
      rewrite (proj2 (Z.eqb_neq v 0)).
      2: { destruct Hv as (_ & _ & Hk & _). unfold KERNBASE in Hk. lia. }
      rewrite bind_assoc. step by reflexivity. step by reflexivity.
      step by (apply unlock_kmem_eq; reflexivity). reflexivity.
    + split; [constructor; auto | auto].
Qed.

(** *** Whole ranges *)

Definition pages (p : Z) (n : nat) : list Z := map (fun i => p + PGSIZE * Z.of_nat i) (seq 0 n).

Lemma pages_S p n : pages p (S n) = p :: pages (p + PGSIZE) n.
Proof.
  unfold pages. cbn [seq map]. f_equal; [lia|]. rewrite <- seq_shift, map_map.
  apply map_ext. intros i. lia.
Qed.
Lemma elem_of_pages p n v : v ∈ pages p n <-> exists i, (i < n)%nat /\ v = p + PGSIZE * Z.of_nat i.
Proof.
  unfold pages. rewrite list_elem_of_fmap. split.
  - intros (i & -> & Hi). apply elem_of_seq in Hi. exists i. split; [lia | reflexivity].
  - intros (i & Hi & ->). exists i. split; [reflexivity | apply elem_of_seq; lia].
Qed.

Lemma freerange_loop_ok n : forall fuel p vend k l, kmem_ok k l ->
  (n <= fuel)%nat -> p + PGSIZE * Z.of_nat n <= vend < p + PGSIZE * Z.of_nat n + PGSIZE ->
  Forall page_ok (pages p n) -> (forall v, v ∈ pages p n -> v ∉ l) ->
  exists k', freerange_loop fuel p vend k = Ret tt k' /\ kmem_ok k' (rev (pages p n) ++ l) /\
    km_use_lock k' = km_use_lock k.
Proof.
  induction n as [|n IH]; intros fuel p vend k l Hk Hf Hv Hp Hd.
  - exists k. unfold PGSIZE in *. split; [|auto]. destruct fuel; cbn [freerange_loop];
      rewrite (proj2 (Z.leb_gt _ _)) by (unfold PGSIZE; lia); reflexivity.
  - destruct fuel as [|fuel]; [lia|]. rewrite pages_S in *. apply Forall_cons in Hp as [Hp1 Hp].
    destruct (kfree_ok k l p Hk Hp1) as (k1 & E1 & K1 & U1 & _); [apply Hd; left|].
    destruct (IH fuel (p + PGSIZE) vend k1 (p :: l) K1) as (k2 & E2 & K2 & U2); auto.
    + lia.
    + unfold PGSIZE in *. lia.
    + intros v Hin. rewrite not_elem_of_cons. split; [|apply Hd; right; exact Hin].
      apply elem_of_pages in Hin as (i & _ & ->). unfold PGSIZE. lia.
    + exists k2. cbn [freerange_loop]. rewrite (proj2 (Z.leb_le _ _)) by (unfold PGSIZE in *; lia).
      split; [step by (exact E1); exact E2|]. split; [|congruence].
      cbn [rev]. rewrite <- app_assoc. exact K2.
Qed.

Lemma land_page_mask x : 0 <= x < 2 ^ 32 -> Z.land x (u32 (Z.lnot (PGSIZE - 1))) = x / PGSIZE * PGSIZE.
Proof.
  intros Hx. change (u32 (Z.lnot (PGSIZE - 1))) with (Z.ldiff (Z.ones 32) (Z.ones 12)).
  replace (Z.land x (Z.ldiff (Z.ones 32) (Z.ones 12))) with (Z.ldiff (Z.land x (Z.ones 32)) (Z.ones 12)).
  2: { apply Z.bits_inj'. intros i Hi. rewrite !Z.ldiff_spec, !Z.land_spec, Z.ldiff_spec.
       apply eq_sym, andb_assoc. }
  rewrite Z.land_ones, Z.mod_small by lia. rewrite Z.ldiff_ones_r, Z.shiftr_div_pow2, Z.shiftl_mul_pow2 by lia.
  reflexivity.
Qed.
Lemma PGROUNDUP_eq sz : 0 <= sz -> sz + PGSIZE <= 2 ^ 32 ->
  PGROUNDUP sz = (sz + PGSIZE - 1) / PGSIZE * PGSIZE.
Proof.
  intros H1 H2. unfold PGROUNDUP, u32 at 1. unfold PGSIZE in *. rewrite Z.mod_small by lia.
  apply land_page_mask. lia.
Qed.
Lemma PGROUNDDOWN_eq a : 0 <= a < 2 ^ 32 -> PGROUNDDOWN a = a / PGSIZE * PGSIZE.
Proof.
  intros Ha. unfold PGROUNDDOWN, u32 at 1. rewrite Z.mod_small by lia. apply land_page_mask. exact Ha.
Qed.

(** The number of whole pages between two addresses. *)
Definition npages (vstart vend : Z) : nat := Z.to_nat ((vend - PGROUNDUP vstart) / PGSIZE).

(** kinit1() puts exactly the whole pages between the two addresses on
    the free list, each once, whatever the memory held before; enough fuel
    for its loop is the number of pages. *)
Theorem kinit1_ok (fuel : nat) (vstart vend : Z) (k : kmem)
    (Hlist : km_freelist k = 0) (Hb : bytes_ok (km_mem k))
    (Hs : kernel_end <= vstart) (Hk : KERNBASE < vstart) (Hv : vstart + PGSIZE <= vend)
    (He : vend <= KERNBASE + PHYSTOP) (Hf : (npages vstart vend <= fuel)%nat) :
  exists k', kinit1 fuel vstart vend k = Ret tt k' /\ km_use_lock k' = 0 /\
    kmem_ok k' (rev (pages (PGROUNDUP vstart) (npages vstart vend))) /\
    forall v, v mod PGSIZE = 0 -> vstart <= v -> v + PGSIZE <= vend ->
      v ∈ pages (PGROUNDUP vstart) (npages vstart vend).
Proof.
  assert (PGROUNDUP vstart = (vstart + PGSIZE - 1) / PGSIZE * PGSIZE) as Ep
    by (apply PGROUNDUP_eq; unfold KERNBASE, PHYSTOP, PGSIZE in *; lia).
  set (p := PGROUNDUP vstart) in *. unfold npages in *. fold p in Hf |- *.
  set (n := Z.to_nat ((vend - p) / PGSIZE)) in *.
  assert (vstart <= p < vstart + PGSIZE) as Hp
    by (rewrite Ep; unfold PGSIZE; Z.div_mod_to_equations; lia).
  assert (p mod PGSIZE = 0) as Hpm by (rewrite Ep; apply Z_mod_mult).
  assert (p + PGSIZE * Z.of_nat n <= vend < p + PGSIZE * Z.of_nat n + PGSIZE) as Hn
    by (unfold n; rewrite Z2Nat.id; unfold PGSIZE in *; Z.div_mod_to_equations; lia).
  destruct k as [lk u f m]. cbn [km_freelist km_mem] in Hlist, Hb. subst f.
  destruct (freerange_loop_ok n fuel p vend (mk_kmem None 0 0 m) []) as (k' & E & K & U); auto.
  - constructor; cbn; auto; constructor.
  - apply Forall_forall. intros v (i & Hi & ->)%elem_of_pages. unfold page_ok.
    split; [|unfold PGSIZE in *; lia]. rewrite Z.mul_comm, Z_mod_plus_full. exact Hpm.
  - set_solver.
  - rewrite app_nil_r in K. exists k'. split; [|split; [exact U | split; [exact K|]]].
    + unfold kinit1. step by reflexivity. step by reflexivity. exact E.
    + intros v Hvm Hv1 Hv2. apply elem_of_pages. exists (Z.to_nat ((v - p) / PGSIZE)).
      unfold PGSIZE in *. apply Z.mod_divide in Hpm, Hvm; try lia.
      destruct Hpm as [a Ha], Hvm as [b Hb']. rewrite Ha, Hb' in *.
      replace (b * 4096 - a * 4096) with ((b - a) * 4096) by lia. rewrite Z.div_mul by lia.
      split; lia.
Qed.

(** The allocator hands out every free page once: kalloc() takes the
    first free page, which is free no more, or returns 0 when there is none;
    kfree() of an allocated page fills it with junk and makes it free again
    without touching any other byte; kfree() of anything that is not a page
    of free memory panics. *)
Theorem kalloc_kfree (k : kmem) (l : list Z) (Hk : kmem_ok k l) :
  match l with
  | [] => kalloc k = Ret 0 k
  | v :: l' => exists k', kalloc k = Ret v k' /\ kmem_ok k' l' /\ v ∉ l' /\ page_ok v /\
      km_mem k' = km_mem k
  end /\
  (forall v, page_ok v -> v ∉ l -> exists k', kfree v k = Ret tt k' /\ kmem_ok k' (v :: l) /\
     (forall x, off_page v x -> km_mem k' x = km_mem k x) /\
     (forall x, v + 4 <= x < v + PGSIZE -> km_mem k' x = 1)) /\
  (forall v, v mod PGSIZE <> 0 \/ v < kernel_end \/ PHYSTOP <= V2P v ->
     kfree v k = Stop (Panicked "kfree") k).
Proof.
  split; [|split].
  - pose proof (kalloc_eq k l Hk) as Ha. destruct l as [|v l]; [exact Ha|].
    destruct Ha as (k' & E & K & _ & Hm). exists k'. destruct Hk as [_ _ Hp Hnd _].
    apply Forall_cons in Hp as [Hv _]. apply NoDup_cons in Hnd as [Hn _]. auto.
  - intros v Hv Hn. destruct (kfree_ok k l v Hk Hv Hn) as (k' & E & K & _ & Ho & Hj). eauto.
  - intros v Hv. unfold kfree.
    replace (negb (v mod PGSIZE =? 0) || (v <? kernel_end) || (PHYSTOP <=? V2P v)) with true;
      [reflexivity|]. symmetry. rewrite !orb_true_iff, negb_true_iff, Z.eqb_neq. lia.
Qed.
End Proofs.

Section Witnesses.
#[local] Instance one_cpu : Ctx := {| cpu_id := 0; cur_pid := 1 |}.
#[local] Instance linked : Linked := {| kernel_data := 0x80108000; kernel_end := 0x80115000 |}.

Example kinit1_ok_witness :
  exists k', kinit1 5 0x80115004 0x80119004 (mk_kmem None 1 0 (fun _ => 7)) = Ret tt k' /\
    kmem_ok k' [0x80118000; 0x80117000; 0x80116000].
Proof.
  destruct (kinit1_ok 5 0x80115004 0x80119004 (mk_kmem None 1 0 (fun _ => 7)))
    as (k' & E & _ & K & _).
  - reflexivity.
  - intros x. cbn. lia.
  - cbn. lia.
  - reflexivity.
  - unfold PGSIZE. lia.
  - unfold KERNBASE, PHYSTOP. lia.
  - vm_compute. lia.
  - exists k'. split; [exact E | exact K].
Defined.

Example kalloc_kfree_witness : let k := mk_kmem None 0 0x80116000 (fun _ => 0) in
  kmem_ok k [0x80116000] /\ exists k', kalloc k = Ret 0x80116000 k' /\ kmem_ok k' [].
Proof.
  assert (kmem_ok (mk_kmem None 0 0x80116000 (fun _ => 0)) [0x80116000]) as Hk.
  { constructor; cbn; auto.
    - constructor; [|constructor]. split; [reflexivity|]. unfold KERNBASE, PHYSTOP, PGSIZE. cbn [kernel_end linked]. lia.
    - apply NoDup_singleton.
    - intros x. lia. }
  split; [exact Hk|]. destruct (kalloc_kfree _ _ Hk) as ((k' & E & K & _) & _).
  exists k'. split; [exact E | exact K].
Defined.
End Witnesses.
