(* ===== verification/Mp.v ===== *)
(** * The tables of the multiprocessor specification

    [src/homeworks/xv6-public/mp.c]: mpinit() finds the processors in tables
    that the BIOS has left in memory.  Addresses are those of the kernel
    (P2V); what the port 0x23 reads is a parameter. *)
From S2P Require Import Prelude.
From S2P Require Import CString.

(** ** mp.h, the fields that are used *)

Definition KERNBASE : Z := 0x80000000.
Definition P2V (a : Z) : Z := u32 (a + KERNBASE).
Definition NCPU : Z := 8.
Definition MPPROC : Z := 0x00.
Definition MPBUS : Z := 0x01.
Definition MPIOAPIC : Z := 0x02.
Definition MPIOINTR : Z := 0x03.
Definition MPLINTR : Z := 0x04.
(** sizeof of struct mp, mpconf, mpproc and mpioapic *)
Definition MP_SIZE : Z := 16.
Definition MPCONF_SIZE : Z := 44.
Definition MPPROC_SIZE : Z := 20.
Definition MPIOAPIC_SIZE : Z := 8.

Definition load16 (m : mem) (a : Z) : Z := m a + 2 ^ 8 * m (a + 1).
Definition mp_physaddr (m : mem) (p : Z) : Z := load32 m (p + 4).
Definition mp_imcrp (m : mem) (p : Z) : Z := m (p + 12).
Definition conf_length (m : mem) (c : Z) : Z := load16 m (c + 4).
Definition conf_version (m : mem) (c : Z) : Z := m (c + 6).
Definition conf_lapicaddr (m : mem) (c : Z) : Z := load32 m (c + 36).

(** Memory, the variables of mp.c and lapic, the bytes written to ports. *)
Record mps := mk_mps { mp_mem : mem; cpus : list Z (* apicid *); ncpu : Z; ioapicid : Z; lapic : Z; mp_out : list (Z * Z) }.
#[export] Instance eta_mps : Eta mps := fun s => mk_mps (mp_mem s) (cpus s) (ncpu s) (ioapicid s) (lapic s) (mp_out s).

(** ** Searching *)

Fixpoint sum_bytes (m : mem) (addr : Z) (len : nat) : Z :=
  match len with
  | O => 0
  | S len' => m addr + sum_bytes m (addr + 1) len'
  end.
Definition sum (m : mem) (addr len : Z) : Z := u8 (sum_bytes m addr (Z.to_nat len)).
(** memcmp() with the letters of a signature *)
Definition signature (m : mem) (p : Z) (s : list Z) : bool := bool_decide (map (fun i => m (p + i)) (seqZ 0 4) = s).

(** [for(p = addr; p < e; p += sizeof(struct mp))] *)
Fixpoint mpsearch_from (n : nat) (m : mem) (p : Z) : Z :=
  match n with
  | O => 0
  | S n' => if signature m p (str "_MP_") && (sum m p MP_SIZE =? 0) then p else mpsearch_from n' m (p + MP_SIZE)
  end.
Definition mpsearch1 (m : mem) (a len : Z) : Z := mpsearch_from (Z.to_nat ((len + MP_SIZE - 1) / MP_SIZE)) m (P2V a).
Definition mpsearch (m : mem) : Z :=
  let bda := P2V 0x400 in
  let p := Z.shiftl (Z.lor (Z.shiftl (m (bda + 0x0F)) 8) (m (bda + 0x0E))) 4 in
  let mp :=
    if negb (p =? 0) then mpsearch1 m p 1024
    else
      let p := Z.lor (Z.shiftl (m (bda + 0x14)) 8) (m (bda + 0x13)) * 1024 in
      mpsearch1 m (u32 (p - 1024)) 1024 in
  if negb (mp =? 0) then mp else mpsearch1 m 0xF0000 0x10000.

(** The floating pointer and the configuration table. *)
Definition mpconfig (m : mem) : option (Z * Z) :=
  let mp := mpsearch m in
  if (mp =? 0) || (mp_physaddr m mp =? 0) then None else
  let conf := P2V (mp_physaddr m mp) in
  if negb (signature m conf (str "PCMP")) then None
  else if negb (conf_version m conf =? 1) && negb (conf_version m conf =? 4) then None
  else if negb (sum m conf (conf_length m conf) =? 0) then None
  else Some (mp, conf).

(** ** mpinit() *)

(** The loop over the entries; the result is [ismp].  The break of an unknown
    type leaves the switch, not the loop. *)
Fixpoint mp_entries (fuel : nat) (p e : Z) (ismp : bool) : M mps bool :=
  if negb (p <? e) then ret ismp else
  match fuel with
  | O => halt NoFuel
  | S fuel' =>
      let! m := get mp_mem in
      let t := m p in
      if t =? MPPROC then
        let! n := get ncpu in
        (if n <? NCPU then modify (fun s => s <| cpus ::= <[Z.to_nat n := m (p + 1)]> |> <| ncpu := n + 1 |>) else ret tt) ;!
        mp_entries fuel' (p + MPPROC_SIZE) e ismp
      else if t =? MPIOAPIC then
        modify (fun s => s <| ioapicid := m (p + 1) |>) ;!
        mp_entries fuel' (p + MPIOAPIC_SIZE) e ismp
      else if (t =? MPBUS) || (t =? MPIOINTR) || (t =? MPLINTR) then mp_entries fuel' (p + 8) e ismp
      else mp_entries fuel' p e false
  end.
Definition outb (port data : Z) : M mps unit := modify (fun s => s <| mp_out ::= fun l => l ++ [(port, u8 data)] |>).
Definition mpinit (fuel : nat) (port23 : Z) : M mps unit :=
  let! m := get mp_mem in
  match mpconfig m with
  | None => panic "Expect to run on an SMP"
  | Some (mp, conf) =>
      modify (fun s => s <| lapic := conf_lapicaddr m conf |>) ;!
      let! ismp := mp_entries fuel (conf + MPCONF_SIZE) (conf + conf_length m conf) true in
      panic_if (negb ismp) "Didn't find a suitable machine" ;!
      if negb (mp_imcrp m mp =? 0) then
        outb 0x22 0x70 ;!  (* Select IMCR *)
        outb 0x23 (Z.lor port23 1)  (* Mask external interrupts. *)
      else ret tt
  end.

(** ** What a table says *)

Inductive entry : Type := Processor (apicid : Z) | IoApic (apicno : Z) | Other (type : Z).
Definition entry_size (x : entry) : Z := match x with Processor _ => MPPROC_SIZE | _ => 8 end.
(** The bytes at [p] are those of the entry. *)
Definition entry_at (m : mem) (p : Z) (x : entry) : Prop :=
  match x with
  | Processor id => m p = MPPROC /\ m (p + 1) = id
  | IoApic id => m p = MPIOAPIC /\ m (p + 1) = id
  | Other t => m p = t /\ (t = MPBUS \/ t = MPIOINTR \/ t = MPLINTR)
  end.
Fixpoint entries_at (m : mem) (p : Z) (l : list entry) : Prop :=
  match l with
  | [] => True
  | x :: l => entry_at m p x /\ entries_at m (p + entry_size x) l
  end.
Definition entries_size (l : list entry) : Z := foldr (fun x n => entry_size x + n) 0 l.
Definition processors (l : list entry) : list Z := omap (fun x => match x with Processor id => Some id | _ => None end) l.
Definition ioapics (l : list entry) : list Z := omap (fun x => match x with IoApic id => Some id | _ => None end) l.

(** ** Proofs *)

Lemma entries_size_cons x l : entries_size (x :: l) = entry_size x + entries_size l.
Proof. reflexivity. Qed.
Lemma entry_size_pos x : 0 < entry_size x.
Proof. destruct x; reflexivity. Qed.
Lemma entries_size_nonneg l : 0 <= entries_size l.
Proof. induction l as [|x l IH]; [reflexivity|]. rewrite entries_size_cons. pose proof (entry_size_pos x). lia. Qed.

(** What an entry makes of the variables; the processors behind the eighth
    are left out. *)
Definition see (s : mps) (x : entry) : mps :=
  match x with
  | Processor id => if ncpu s <? NCPU then s <| cpus ::= <[Z.to_nat (ncpu s) := id]> |> <| ncpu := ncpu s + 1 |> else s
  | IoApic id => s <| ioapicid := id |>
  | Other _ => s
  end.
Lemma see_mem s x : mp_mem (see s x) = mp_mem s.
Proof. destruct x; cbn [see]; [destruct (ncpu s <? NCPU)|..]; reflexivity. Qed.

Lemma mp_entries_run l : forall fuel p s, entries_at (mp_mem s) p l -> (length l <= fuel)%nat -> mp_entries fuel p (p + entries_size l) true s = Ret true (fold_left see l s).
Proof.
  induction l as [|x l IH]; intros fuel p s Hl Hfuel.
  - change (entries_size []) with 0. rewrite Z.add_0_r. destruct fuel; cbn [mp_entries]; rewrite Z.ltb_irrefl; reflexivity.
  - destruct fuel as [|fuel]; [cbn in Hfuel; lia|]. cbn [length] in Hfuel. destruct Hl as [Hx Hl]. rewrite entries_size_cons in *.
    pose proof (entry_size_pos x) as Hpos. pose proof (entries_size_nonneg l) as Hn. cbn [mp_entries fold_left]. rewrite (proj2 (Z.ltb_lt p _)) by lia. cbn [negb].
    specialize (IH fuel (p + entry_size x) (see s x)). rewrite see_mem in IH. specialize (IH Hl ltac:(lia)). replace (p + (entry_size x + entries_size l)) with (p + entry_size x + entries_size l) by lia.
    destruct x as [id|id|t]; cbn [entry_at entry_size see] in *; step by reflexivity.
    + destruct Hx as [-> <-]. change (MPPROC =? MPPROC) with true. cbv iota. step by reflexivity.
      destruct (ncpu s <? NCPU); (step by reflexivity); exact IH.
    + destruct Hx as [-> <-]. change (MPIOAPIC =? MPPROC) with false. change (MPIOAPIC =? MPIOAPIC) with true. cbv iota. step by reflexivity. exact IH.
    + destruct Hx as [-> Ht]. assert ((t =? MPPROC) = false /\ (t =? MPIOAPIC) = false /\ (t =? MPBUS) || (t =? MPIOINTR) || (t =? MPLINTR) = true) as (-> & -> & ->)
        by (destruct Ht as [->|[->| ->]]; split_and!; reflexivity). exact IH.
Qed.

Lemma fold_see l : forall s, 0 <= ncpu s <= NCPU -> length (cpus s) = 8%nat -> let s' := fold_left see l s in
  ncpu s' = Z.min NCPU (ncpu s + Z.of_nat (length (processors l))) /\
  take (Z.to_nat (ncpu s')) (cpus s') = take (Z.to_nat (ncpu s)) (cpus s) ++ take (Z.to_nat (NCPU - ncpu s)) (processors l) /\
  ioapicid s' = default (ioapicid s) (last (ioapics l)) /\ mp_mem s' = mp_mem s /\ lapic s' = lapic s /\ mp_out s' = mp_out s.
Proof.
  induction l as [|x l IH]; intros s Hn Hlen; cbn [fold_left].
  - cbv zeta. change (processors []) with (@nil Z). cbn [length]. rewrite take_nil, app_nil_r. split_and!; try reflexivity. lia.
  - destruct x as [id|id|t]; cbn [see].
    + change (processors (Processor id :: l)) with (id :: processors l). change (ioapics (Processor id :: l)) with (ioapics l). cbn [length].
      destruct (Z.ltb_spec (ncpu s) NCPU) as [Hlt|Hge].
      * set (s1 := _ <| ncpu := _ |>). assert (ncpu s1 = ncpu s + 1 /\ cpus s1 = <[Z.to_nat (ncpu s) := id]> (cpus s)) as [En Ec] by (split; reflexivity).
        destruct (IH s1) as (H1 & H2 & H3 & H4); [rewrite En; unfold NCPU in *; lia | rewrite Ec, length_insert; exact Hlen|]. rewrite En in H1, H2. rewrite Ec in H2.
        split; [rewrite H1; lia|]. split; [|split; [exact H3 | exact H4]]. rewrite H2.
        replace (Z.to_nat (ncpu s + 1)) with (S (Z.to_nat (ncpu s))) by lia. rewrite (take_S_r _ _ id) by (apply list_lookup_insert_eq; unfold NCPU in *; lia).
        rewrite take_insert, decide_False by lia. replace (Z.to_nat (NCPU - ncpu s)) with (S (Z.to_nat (NCPU - (ncpu s + 1)))) by lia. cbn [take]. rewrite <- app_assoc. reflexivity.
      * destruct (IH s Hn Hlen) as (H1 & H2 & H3). split; [rewrite H1; lia|]. split; [|exact H3]. rewrite H2. replace (Z.to_nat (NCPU - ncpu s)) with 0%nat by lia. reflexivity.
    + change (processors (IoApic id :: l)) with (processors l). change (ioapics (IoApic id :: l)) with (id :: ioapics l).
      set (s1 := s <| ioapicid := id |>). assert (ncpu s1 = ncpu s /\ cpus s1 = cpus s) as [En Ec] by (split; reflexivity). destruct (IH s1) as (H1 & H2 & H3 & H4); [rewrite En; exact Hn | rewrite Ec; exact Hlen|].
      rewrite En in H1, H2. rewrite Ec in H2. split; [exact H1|]. split; [exact H2|]. split; [|exact H4]. rewrite H3.
      destruct (ioapics l) as [|y l2]; [reflexivity|]. rewrite last_cons_cons. destruct (last (y :: l2)) eqn:E; [reflexivity|]. apply last_None in E. discriminate.
    + exact (IH s Hn Hlen).
Qed.

(** An entry of an unknown type: the loop stands still for ever. *)
Lemma unknown_entry_hangs p e s : p < e -> MPLINTR < mp_mem s p -> forall fuel ismp, mp_entries fuel p e ismp s = Stop NoFuel s.
Proof.
  intros Hp Ht. induction fuel as [|fuel IH]; intros ismp; cbn [mp_entries]; rewrite (proj2 (Z.ltb_lt p e) Hp); cbn [negb]; [reflexivity|].
  step by reflexivity. unfold MPPROC, MPIOAPIC, MPBUS, MPIOINTR, MPLINTR in *. repeat rewrite (proj2 (Z.eqb_neq (mp_mem s p) _)) by lia. apply IH.
Qed.

(** The search ends at the first structure with the signature and a sum of 0. *)
Definition is_mp (m : mem) (p : Z) : bool := signature m p (str "_MP_") && (sum m p MP_SIZE =? 0).
Lemma mpsearch_first n m : forall p, 0 < p -> let r := mpsearch_from n m p in
  (r = 0 /\ forall k, 0 <= k < Z.of_nat n -> is_mp m (p + MP_SIZE * k) = false) \/
  exists k, 0 <= k < Z.of_nat n /\ r = p + MP_SIZE * k /\ is_mp m r = true /\ forall j, 0 <= j < k -> is_mp m (p + MP_SIZE * j) = false.
Proof.
  induction n as [|n IH]; intros p Hp; cbn [mpsearch_from]; [left; split; [reflexivity | lia]|]. fold (is_mp m p). destruct (is_mp m p) eqn:E.
  - right. exists 0. split; [lia|]. split; [unfold MP_SIZE; lia|]. split; [exact E | lia].
  - destruct (IH (p + MP_SIZE)) as [[-> Hno]|(k & Hk & Er & Ek & Hno)]; [unfold MP_SIZE; lia | left | right].
    + split; [reflexivity|]. intros k Hk. destruct (decide (k = 0)) as [->|Hne]; [rewrite Z.mul_0_r, Z.add_0_r; exact E|].
      specialize (Hno (k - 1) ltac:(lia)). rewrite <- Hno. f_equal. unfold MP_SIZE. lia.
    + exists (k + 1). split; [lia|]. split; [rewrite Er; unfold MP_SIZE; lia|]. split; [exact Ek|]. intros j Hj.
      destruct (decide (j = 0)) as [->|Hne]; [rewrite Z.mul_0_r, Z.add_0_r; exact E|]. specialize (Hno (j - 1) ltac:(lia)). rewrite <- Hno. f_equal. unfold MP_SIZE. lia.
Qed.

(** mpinit() finds what the tables say.  For a configuration table whose
    entries are [l] and fill its length, it ends well after one round for
    each entry: cpus[] begins with the APIC numbers of the first eight
    processors, ncpu is their number, ioapicid is that of the last I/O APIC,
    lapic the address in the table, and the interrupt mode register is written
    if there is one. *)
Theorem mpinit_finds s mp conf l port23 fuel (Hconf : mpconfig (mp_mem s) = Some (mp, conf)) (Hl : entries_at (mp_mem s) (conf + MPCONF_SIZE) l)
    (Hlen : conf_length (mp_mem s) conf = MPCONF_SIZE + entries_size l) (Hn : ncpu s = 0) (Hcpus : length (cpus s) = 8%nat) (Hfuel : (length l <= fuel)%nat) :
  exists s', mpinit fuel port23 s = Ret tt s' /\ ncpu s' = Z.min NCPU (Z.of_nat (length (processors l))) /\
    take (Z.to_nat (ncpu s')) (cpus s') = take (Z.to_nat NCPU) (processors l) /\ ioapicid s' = default (ioapicid s) (last (ioapics l)) /\
    lapic s' = conf_lapicaddr (mp_mem s) conf /\ mp_mem s' = mp_mem s /\
    mp_out s' = mp_out s ++ (if mp_imcrp (mp_mem s) mp =? 0 then [] else [(0x22, 0x70); (0x23, u8 (Z.lor port23 1))]).
Proof.
  set (s1 := s <| lapic := conf_lapicaddr (mp_mem s) conf |>).
  destruct (fold_see l s1) as (H1 & H2 & H3 & H4 & H5 & H6); [change (ncpu s1) with (ncpu s); rewrite Hn; unfold NCPU; lia | exact Hcpus|].
  change (ncpu s1) with (ncpu s) in *. rewrite Hn in H1, H2. cbn [take Z.to_nat app] in H2. rewrite Z.add_0_l in H1. rewrite Z.sub_0_r in H2.
  set (s2 := fold_left see l s1) in *. assert (mpinit fuel port23 s = (if negb (mp_imcrp (mp_mem s) mp =? 0) then outb 0x22 0x70 ;! outb 0x23 (Z.lor port23 1) else ret tt) s2) as ->.
  { unfold mpinit. step by reflexivity. rewrite Hconf. step by reflexivity. fold s1.
    step by (rewrite Hlen, Z.add_assoc; apply (mp_entries_run l fuel (conf + MPCONF_SIZE) s1); assumption). fold s2. step by reflexivity. reflexivity. }
  destruct (mp_imcrp (mp_mem s) mp =? 0); cbn [negb].
  - exists s2. rewrite app_nil_r. split_and!; try assumption. reflexivity.
  - eexists. split; [step by reflexivity; reflexivity|]. split_and!; try assumption. change (mp_out (set_field _ (set_field _ s2))) with ((mp_out s2 ++ [(0x22, 0x70)]) ++ [(0x23, u8 (Z.lor port23 1))]).
    rewrite H6, <- app_assoc. reflexivity.
Qed.

(** A floating pointer in the extended BIOS data area, two processors, a bus
    and an I/O APIC. *)
Definition demo_table : list Z :=
  str "_MP_" ++ [0x10; 0xfc; 0x09; 0] ++ [1; 4; 0x0b; 0; 0x80; 0; 0; 0] ++
  str "PCMP" ++ [100; 0; 4; 0x80] ++ replicate 28 0 ++ [0; 0; 0xe0; 0xfe] ++ replicate 4 0 ++
  (MPPROC :: 0 :: replicate 18 0) ++ [MPBUS; 0; 0; 0; 0; 0; 0; 0] ++ (MPPROC :: 5 :: replicate 18 0) ++ [MPIOAPIC; 2; 0; 0; 0; 0; 0; 0].
Definition demo_mem : mem := fun a =>
  if a =? P2V 0x40f then 0x9f else if a =? P2V 0x40e then 0xc0
  else let d := a - P2V 0x9fc00 in if (0 <=? d) && (d <? 116) then nth (Z.to_nat d) demo_table 0 else 0.
Definition demo_start : mps := mk_mps demo_mem (replicate 8 0) 0 0 0 [].

Lemma mpinit_finds_witness : exists s', mpinit 4 0 demo_start = Ret tt s' /\ ncpu s' = 2 /\ take (Z.to_nat (ncpu s')) (cpus s') = [0; 5] /\ ioapicid s' = 2 /\
  lapic s' = 0xfee00000 /\ mp_out s' = [(0x22, 0x70); (0x23, 1)].
Proof.
  destruct (mpinit_finds demo_start (P2V 0x9fc00) (P2V 0x9fc10) [Processor 0; Other MPBUS; Processor 5; IoApic 2] 0 4)
    as (s' & Hrun & H1 & H2 & H3 & H4 & _ & H6); [vm_compute; reflexivity | vm_compute; tauto | reflexivity | reflexivity | reflexivity | cbn; lia|].
  exists s'. split_and!; assumption.
Defined.
