(* ===== verification/Boot.v ===== *)
(** * The boot loaders

    [src/homeworks/xv6-public/bootmain.c] and [jos/boot/main.c]: the C half
    of the boot block reads an ELF file from the disk, sector by sector and
    with no driver, into physical memory and jumps to its entry point.  The
    controller behind the ports is the parameter of [Ide.v]; here it may be
    busy for a while. *)
From S2P Require Import Prelude.
From S2P Require Import CString.
From S2P Require Import Bio.
From S2P Require Import Ide.
From S2P Require Import Mp.

Definition SECTSIZE : Z := 512.
Definition ELF_MAGIC : Z := 0x464C457F.
(** The scratch space at the address [elf]. *)
Definition SCRATCH : Z := 0x10000.
Definition PROGHDR_SIZE : Z := 32.

Definition elf_magic (m : mem) (e : Z) : Z := load32 m e.
Definition elf_entry (m : mem) (e : Z) : Z := load32 m (e + 24).
Definition elf_phoff (m : mem) (e : Z) : Z := load32 m (e + 28).
Definition elf_phnum (m : mem) (e : Z) : Z := load16 m (e + 44).
Definition ph_off (m : mem) (p : Z) : Z := load32 m (p + 4).
Definition ph_paddr (m : mem) (p : Z) : Z := load32 m (p + 12).
Definition ph_filesz (m : mem) (p : Z) : Z := load32 m (p + 16).
Definition ph_memsz (m : mem) (p : Z) : Z := load32 m (p + 20).

(** Physical memory and the controller. *)
Record loader `{Controller} := mk_loader { l_mem : mem; l_ctl : ctl }.
#[export] Instance eta_loader `{Controller} : Eta loader := fun s => mk_loader _ (l_mem s) (l_ctl s).

Section Code.
Context `{Controller}.

Definition inb (port : Z) : M loader Z := fun s =>
  let '(r, c) := ctl_in port (l_ctl s) in Ret r (s <| l_ctl := c |>).
Definition outb (port data : Z) : M loader unit := modify (fun s => s <| l_ctl ::= ctl_out port (u8 data) |>).
Fixpoint put (m : mem) (a : Z) (l : list Z) : mem :=
  match l with
  | [] => m
  | b :: l => put (store8 m a b) (a + 1) l
  end.
(** [cnt] words from the port to memory *)
Definition insl (port dst cnt : Z) : M loader unit := fun s =>
  let '(l, c) := ctl_ins port cnt (l_ctl s) in Ret tt (mk_loader _ (put (l_mem s) dst l) c).

(** ** xv6: bootmain.c *)

Fixpoint waitdisk (fuel : nat) : M loader unit :=
  match fuel with
  | O => halt NoFuel
  | S fuel' =>
      let! r := inb 0x1F7 in
      if Z.land r 0xC0 =? 0x40 then ret tt else waitdisk fuel'
  end.
Definition readsect (fuel : nat) (dst offset : Z) : M loader unit :=
  waitdisk fuel ;!
  outb 0x1F2 1 ;!
  outb 0x1F3 offset ;!
  outb 0x1F4 (Z.shiftr offset 8) ;!
  outb 0x1F5 (Z.shiftr offset 16) ;!
  outb 0x1F6 (Z.lor (Z.shiftr offset 24) 0xE0) ;!
  outb 0x1F7 0x20 ;!
  waitdisk fuel ;!
  insl 0x1F0 dst (SECTSIZE / 4).
(** [for(; pa < epa; pa += SECTSIZE, offset++) readsect(pa, offset);] *)
Fixpoint read_sectors (n fuel : nat) (pa epa offset : Z) : M loader unit :=
  if negb (pa <? epa) then ret tt else
  match n with
  | O => halt NoFuel
  | S n' => readsect fuel pa offset ;! read_sectors n' fuel (u32 (pa + SECTSIZE)) epa (u32 (offset + 1))
  end.
Definition readseg (fuel : nat) (pa count offset : Z) : M loader unit :=
  let epa := u32 (pa + count) in
  let pa := u32 (pa - offset mod SECTSIZE) in
  let offset := offset / SECTSIZE + 1 in
  read_sectors fuel fuel pa epa offset.

(** [for(; ph < eph; ph++)] *)
Fixpoint for_headers (n : nat) (body : Z -> M loader unit) (ph eph : Z) : M loader unit :=
  if negb (ph <? eph) then ret tt else
  match n with
  | O => halt NoFuel
  | S n' => body ph ;! for_headers n' body (u32 (ph + PROGHDR_SIZE)) eph
  end.
Definition load_segment (fuel : nat) (ph : Z) : M loader unit :=
  let! m := get l_mem in
  let pa := ph_paddr m ph in
  readseg fuel pa (ph_filesz m ph) (ph_off m ph) ;!
  let! m := get l_mem in
  if ph_filesz m ph <? ph_memsz m ph
  then modify (fun s => s <| l_mem := stosb (l_mem s) (u32 (pa + ph_filesz m ph)) 0 (Z.to_nat (ph_memsz m ph - ph_filesz m ph)) |>)
  else ret tt.
(** The address it jumps to, or [None] when it returns to bootasm.S. *)
Definition bootmain (fuel : nat) : M loader (option Z) :=
  let elf := SCRATCH in
  readseg fuel elf 4096 0 ;!
  let! m := get l_mem in
  if negb (elf_magic m elf =? ELF_MAGIC) then ret None else
  let ph := u32 (elf + elf_phoff m elf) in
  let eph := u32 (ph + PROGHDR_SIZE * elf_phnum m elf) in
  for_headers fuel (load_segment fuel) ph eph ;!
  let! m := get l_mem in
  ret (Some (elf_entry m elf)).

(** ** JOS: boot/main.c, where waitdisk() and readsect() are the same *)

Definition jos_readseg (fuel : nat) (pa count offset : Z) : M loader unit :=
  let end_pa := u32 (pa + count) in
  let pa := Z.land pa (u32 (Z.lnot (SECTSIZE - 1))) in
  let offset := offset / SECTSIZE + 1 in
  read_sectors fuel fuel pa end_pa offset.
Definition jos_load_segment (fuel : nat) (ph : Z) : M loader unit :=
  let! m := get l_mem in
  jos_readseg fuel (ph_paddr m ph) (ph_memsz m ph) (ph_off m ph).
(** The address it jumps to; [None] stands for the endless loop at [bad]. *)
Definition jos_bootmain (fuel : nat) : M loader (option Z) :=
  jos_readseg fuel SCRATCH (SECTSIZE * 8) 0 ;!
  let! m := get l_mem in
  if negb (elf_magic m SCRATCH =? ELF_MAGIC) then
    (* bad: outw *)
    modify (fun s => s <| l_ctl ::= ctl_out 0x8A00 0x8A00 |>) ;!
    modify (fun s => s <| l_ctl ::= ctl_out 0x8A00 0x8E00 |>) ;!
    ret None
  else
  let ph := u32 (SCRATCH + elf_phoff m SCRATCH) in
  let eph := u32 (ph + PROGHDR_SIZE * elf_phnum m SCRATCH) in
  for_headers fuel (jos_load_segment fuel) ph eph ;!
  let! m := get l_mem in
  ret (Some (elf_entry m SCRATCH)).
End Code.

(** ** What the loaders rely on of the controller *)

(** The registers as readsect() writes them for the sector [n]. *)
Definition select_read `{Controller} (n : Z) (c : ctl) : ctl :=
  ctl_out 0x1F7 0x20
    (ctl_out 0x1F6 (u8 (Z.lor (Z.shiftr n 24) 0xE0))
       (ctl_out 0x1F5 (u8 (Z.shiftr n 16)) (ctl_out 0x1F4 (u8 (Z.shiftr n 8)) (ctl_out 0x1F3 (u8 n) (ctl_out 0x1F2 1 c))))).

(** A drive in LBA mode.  After a command and after a transfer it reports
    that it is busy for at most [patience] times. *)
Class BootDisk `{Controller} : Type := {
  sectors : ctl -> Z -> list Z;
  idle : ctl -> Prop;
  reading : ctl -> Z -> Prop;
  busy : ctl -> nat;
  patience : nat;
  sector_bytes c n : length (sectors c n) = 512%nat /\ Forall (fun b => 0 <= b < 256) (sectors c n);
  busy_patience c : (busy c <= patience)%nat;
  status c : let '(r, c') := ctl_in 0x1F7 c in
    (Z.land r 0xC0 =? 0x40) = bool_decide (busy c = 0%nat) /\ busy c' = pred (busy c) /\ sectors c' = sectors c /\
    (idle c -> idle c') /\ (forall n, reading c n -> reading c' n);
  start c n : idle c -> busy c = 0%nat -> 0 <= n < 2 ^ 28 -> reading (select_read n c) n /\ sectors (select_read n c) = sectors c;
  transfer c n : reading c n -> busy c = 0%nat ->
    (ctl_ins 0x1F0 128 c).1 = sectors c n /\ idle (ctl_ins 0x1F0 128 c).2 /\ sectors (ctl_ins 0x1F0 128 c).2 = sectors c }.

(** The bytes of the file, which begins at sector 1. *)
Definition file (d : Z -> list Z) : mem := fun i => nth (Z.to_nat (i mod SECTSIZE)) (d (i / SECTSIZE + 1)) 0.

(** ** Loading as a list of ranges of memory to fill *)

(** The addresses from [sp_base] to [sp_top] get the values [sp_val]; those
    up to [sp_keep] are meant, the rest is what the last sector has more. *)
Record span : Type := mk_span { sp_base : Z; sp_keep : Z; sp_top : Z; sp_val : mem }.
Definition fill (x : span) (m : mem) : mem := fun a => if (sp_base x <=? a) && (a <? sp_top x) then sp_val x a else m a.
Definition fill_all (l : list span) (m : mem) : mem := fold_left (fun m x => fill x m) l m.
(** What is meant of a range lies before the ranges that follow it. *)
Fixpoint in_order (l : list span) : Prop :=
  match l with
  | [] => True
  | x :: l => (forall y, y ∈ l -> sp_keep x <= sp_base y) /\ in_order l
  end.

Lemma fill_ext x m m' a : (forall a, m a = m' a) -> fill x m a = fill x m' a.
Proof. intros E. unfold fill. rewrite E. reflexivity. Qed.
Lemma fill_in x m a : sp_base x <= a < sp_top x -> fill x m a = sp_val x a.
Proof. intros Ha. unfold fill. rewrite (proj2 (Z.leb_le _ _)), (proj2 (Z.ltb_lt _ _)) by lia. reflexivity. Qed.
Lemma fill_out x m a : ~ sp_base x <= a < sp_top x -> fill x m a = m a.
Proof. intros Ha. unfold fill. destruct (Z.leb_spec (sp_base x) a), (Z.ltb_spec a (sp_top x)); try reflexivity. lia. Qed.
Lemma fill_all_ext l : forall m m' a, (forall a, m a = m' a) -> fill_all l m a = fill_all l m' a.
Proof. induction l as [|x l IH]; intros m m' a E; [apply E|]. apply (IH (fill x m) (fill x m')). intros b. apply fill_ext, E. Qed.
Lemma fill_all_out l : forall m a, (forall x, x ∈ l -> ~ sp_base x <= a < sp_top x) -> fill_all l m a = m a.
Proof.
  induction l as [|x l IH]; intros m a Hout; [reflexivity|]. change (fill_all (x :: l) m) with (fill_all l (fill x m)).
  rewrite IH by (intros y Hy; apply Hout; right; exact Hy). apply fill_out, Hout. left.
Qed.
Lemma fill_all_keep l : forall m x a, in_order l -> x ∈ l -> sp_base x <= a < sp_keep x -> sp_keep x <= sp_top x -> fill_all l m a = sp_val x a.
Proof.
  induction l as [|y l IH]; intros m x a Ho Hx Ha Hk; [inversion Hx|]. destruct Ho as [Hy Ho]. change (fill_all (y :: l) m) with (fill_all l (fill y m)).
  apply elem_of_cons in Hx as [->|Hx]; [|apply IH; assumption]. rewrite fill_all_out by (intros z Hz; specialize (Hy z Hz); lia). apply fill_in. lia.
Qed.

(** *** Reading numbers from equal bytes *)

Lemma load32_same m m' a b : (forall i, 0 <= i < 4 -> m (a + i) = m' (b + i)) -> load32 m a = load32 m' b.
Proof.
  intros E. unfold load32. pose proof (E 0 ltac:(lia)) as E0. rewrite !Z.add_0_r in E0. rewrite E0, (E 1), (E 2), (E 3) by lia. reflexivity.
Qed.
Lemma load16_same m m' a b : (forall i, 0 <= i < 2 -> m (a + i) = m' (b + i)) -> load16 m a = load16 m' b.
Proof. intros E. unfold load16. pose proof (E 0 ltac:(lia)) as E0. rewrite !Z.add_0_r in E0. rewrite E0, (E 1) by lia. reflexivity. Qed.
Lemma load32_bound m a : (forall x, 0 <= m x < 256) -> 0 <= load32 m a < 2 ^ 32.
Proof. intros Hm. unfold load32. pose proof (Hm a). pose proof (Hm (a + 1)). pose proof (Hm (a + 2)). pose proof (Hm (a + 3)). lia. Qed.
Lemma load16_bound m a : (forall x, 0 <= m x < 256) -> 0 <= load16 m a < 2 ^ 16.
Proof. intros Hm. unfold load16. pose proof (Hm a). pose proof (Hm (a + 1)). lia. Qed.

Section Reading.
Context `{BootDisk}.

Lemma file_byte c i : 0 <= file (sectors c) i < 256.
Proof.
  unfold file. destruct (sector_bytes c (i / SECTSIZE + 1)) as [Hl Hb]. pose proof (Z.mod_pos_bound i SECTSIZE ltac:(reflexivity)) as Hm.
  apply (proj1 (List.Forall_forall _ _) Hb). apply nth_In. unfold SECTSIZE in *. lia.
Qed.

Lemma put_eq l : forall m a x, put m a l x = if (a <=? x) && (x <? a + Z.of_nat (length l)) then u8 (nth (Z.to_nat (x - a)) l 0) else m x.
Proof.
  induction l as [|b l IH]; intros m a x; cbn [put length].
  - destruct (Z.leb_spec a x), (Z.ltb_spec x (a + Z.of_nat 0)); cbn [andb]; try reflexivity. lia.
  - rewrite IH. unfold store8. destruct (Z.leb_spec (a + 1) x), (Z.ltb_spec x (a + 1 + Z.of_nat (length l))), (Z.leb_spec a x), (Z.ltb_spec x (a + Z.of_nat (Datatypes.S (length l)))); cbn [andb]; try lia.
    + replace (Z.to_nat (x - a)) with (Datatypes.S (Z.to_nat (x - (a + 1)))) by lia. reflexivity.
    + rewrite (proj2 (Z.eqb_neq x a)) by lia. reflexivity.
    + assert (x = a) as -> by lia. rewrite Z.eqb_refl, Z.sub_diag. reflexivity.
    + rewrite (proj2 (Z.eqb_neq x a)) by lia. reflexivity.
Qed.

Lemma waitdisk_ok fuel : forall s, (busy (l_ctl s) < fuel)%nat -> exists c, waitdisk fuel s = Ret tt (mk_loader _ (l_mem s) c) /\ busy c = 0%nat /\
  sectors c = sectors (l_ctl s) /\ (idle (l_ctl s) -> idle c) /\ (forall n, reading (l_ctl s) n -> reading c n).
Proof.
  induction fuel as [|fuel IH]; intros s Hb; [lia|]. cbn [waitdisk]. pose proof (status (l_ctl s)) as Hs. destruct (ctl_in 0x1F7 (l_ctl s)) as [r c1] eqn:E.
  destruct Hs as (Hr & Hb1 & Hs1 & Hi1 & Hr1). step by (unfold inb; rewrite E; reflexivity). rewrite Hr.
  destruct (decide (busy (l_ctl s) = 0%nat)) as [Hz|Hz].
  - rewrite bool_decide_true by exact Hz. exists c1. split; [reflexivity|]. split; [rewrite Hb1, Hz; reflexivity|]. auto.
  - rewrite bool_decide_false by exact Hz. destruct (IH (mk_loader _ (l_mem s) c1)) as (c & Ec & Hc1 & Hc2 & Hc3 & Hc4); [cbn [l_ctl]; lia|]. cbn [l_ctl l_mem] in *.
    exists c. split; [exact Ec|]. split; [exact Hc1|]. split; [rewrite Hc2; exact Hs1|]. auto.
Qed.

(** From an idle drive to an idle drive with the same sectors; memory is that
    of [s] with a range filled. *)
Definition fills (x : span) (s s' : loader) : Prop :=
  idle (l_ctl s') /\ sectors (l_ctl s') = sectors (l_ctl s) /\ forall a, l_mem s' a = fill x (l_mem s) a.

Lemma readsect_ok fuel dst n s : (patience < fuel)%nat -> idle (l_ctl s) -> 1 <= n < 2 ^ 28 ->
  exists s', readsect fuel dst n s = Ret tt s' /\ fills (mk_span dst (dst + SECTSIZE) (dst + SECTSIZE) (fun a => file (sectors (l_ctl s)) (SECTSIZE * (n - 1) + a - dst))) s s'.
Proof.
  intros Hf Hi Hn. unfold readsect. pose proof (busy_patience (l_ctl s)) as Hb. destruct (waitdisk_ok fuel s) as (c1 & E1 & Hb1 & Hs1 & Hi1 & _); [lia|].
  rewrite (bind_eq _ _ _ _ _ E1). cbv beta. do 6 (step by reflexivity). unfold set_field. cbn [l_mem l_ctl].
  destruct (start c1 n) as [Hr2 Hs2]; [auto | exact Hb1 | lia|]. change (u8 1) with 1. change (u8 0x20) with 0x20. fold (select_read n c1). set (c2 := select_read n c1) in *.
  pose proof (busy_patience c2) as Hb2. destruct (waitdisk_ok fuel (mk_loader _ (l_mem s) c2)) as (c3 & E3 & Hb3 & Hs3 & _ & Hr3); [cbn [l_ctl]; lia|]. cbn [l_ctl l_mem] in *.
  rewrite (bind_eq _ _ _ _ _ E3). cbv beta. change (SECTSIZE / 4) with 128. destruct (transfer c3 n (Hr3 n Hr2) Hb3) as (Ht1 & Ht2 & Ht3).
  unfold insl. cbn [l_ctl l_mem]. destruct (ctl_ins 0x1F0 128 c3) as [l c4]. cbn [fst snd] in *. eexists. split; [reflexivity|]. unfold fills. cbn [l_ctl l_mem].
  assert (Es : sectors c3 = sectors (l_ctl s)) by (rewrite Hs3, Hs2; exact Hs1). split; [exact Ht2|]. split; [rewrite Ht3; exact Es|].
  intros a. rewrite put_eq, Ht1. destruct (sector_bytes c3 n) as [Hl Hbs]. rewrite Hl. unfold fill. cbn [sp_base sp_top sp_val]. change (Z.of_nat 512) with SECTSIZE.
  destruct (Z.leb_spec dst a), (Z.ltb_spec a (dst + SECTSIZE)); cbn [andb]; try reflexivity. unfold file. replace (SECTSIZE * (n - 1) + a - dst) with ((a - dst) + (n - 1) * SECTSIZE) by lia.
  rewrite Z.mod_add, Z.div_add, (Z.mod_small (a - dst)), (Z.div_small (a - dst)) by (unfold SECTSIZE in *; lia). replace (0 + (n - 1) + 1) with n by lia. rewrite Es in *.
  unfold u8. apply Z.mod_small. change (2 ^ 8) with 256. apply (proj1 (List.Forall_forall _ _) Hbs). apply nth_In. unfold SECTSIZE in *. lia.
Qed.

Lemma fills_ext x y s s' : (forall m a, fill x m a = fill y m a) -> fills x s s' -> fills y s s'.
Proof. intros E (H1 & H2 & H3). split; [exact H1|]. split; [exact H2|]. intros a. rewrite <- E. apply H3. Qed.
Lemma fills_nothing x s : idle (l_ctl s) -> sp_top x <= sp_base x -> fills x s s.
Proof. intros Hi Hx. split; [exact Hi|]. split; [reflexivity|]. intros a. symmetry. apply fill_out. lia. Qed.
(** Two ranges, one behind the other. *)
Lemma fills_join b t t' k g s s1 s2 : b <= t -> t <= t' -> fills (mk_span b k t g) s s1 -> fills (mk_span t k t' g) s1 s2 -> fills (mk_span b k t' g) s s2.
Proof.
  intros Hbt Htt (_ & S1 & M1) (I2 & S2 & M2). split; [exact I2|]. split; [rewrite S2; exact S1|]. intros a. rewrite M2. unfold fill. rewrite M1. unfold fill.
  cbn [sp_base sp_top sp_val]. destruct (Z.leb_spec b a), (Z.leb_spec t a), (Z.ltb_spec a t), (Z.ltb_spec a t'); cbn [andb]; try reflexivity; lia.
Qed.

(** Sectors from [pa] until [epa] is reached. *)
Lemma read_sectors_ok fuel n : forall pa epa sec s, (patience < fuel)%nat -> idle (l_ctl s) -> 0 <= pa -> epa + SECTSIZE <= 2 ^ 32 -> 1 <= sec ->
  sec + (epa - pa + 511) / SECTSIZE < 2 ^ 28 -> epa - pa <= SECTSIZE * Z.of_nat n ->
  exists s', read_sectors n fuel pa epa sec s = Ret tt s' /\
    fills (mk_span pa epa (pa + SECTSIZE * ((epa - pa + 511) / SECTSIZE)) (fun a => file (sectors (l_ctl s)) (SECTSIZE * (sec - 1) + a - pa))) s s'.
Proof.
  induction n as [|n IH]; intros pa epa sec s Hf Hi Hpa Hepa Hsec Hlim Hn; cbn [read_sectors].
  - rewrite (proj2 (Z.ltb_ge pa epa)) by lia. exists s. split; [reflexivity|]. apply fills_nothing; [exact Hi|]. cbn [sp_top sp_base]. unfold SECTSIZE in *. dlia.
  - destruct (Z.ltb_spec pa epa) as [Hlt|Hge]; cbn [negb].
    2: { exists s. split; [reflexivity|]. apply fills_nothing; [exact Hi|]. cbn [sp_top sp_base]. unfold SECTSIZE in *. dlia. }
    assert (Ek : (epa - pa + 511) / SECTSIZE = (epa - (pa + SECTSIZE) + 511) / SECTSIZE + 1) by (unfold SECTSIZE in *; dlia).
    assert (Hk : 0 <= (epa - (pa + SECTSIZE) + 511) / SECTSIZE) by (unfold SECTSIZE in *; dlia).
    destruct (readsect_ok fuel pa sec s Hf Hi ltac:(lia)) as (s1 & E1 & F1). rewrite (bind_eq _ _ _ _ _ E1). cbv beta.
    rewrite !u32_small by (unfold SECTSIZE in *; lia). destruct F1 as (I1 & S1 & M1).
    destruct (IH (pa + SECTSIZE) epa (sec + 1) s1) as (s2 & E2 & F2); [exact Hf | exact I1 | unfold SECTSIZE; lia | exact Hepa | lia | lia | unfold SECTSIZE in *; lia|].
    exists s2. split; [exact E2|]. rewrite Ek. rewrite S1 in F2. revert F2.
    replace (pa + SECTSIZE + SECTSIZE * ((epa - (pa + SECTSIZE) + 511) / SECTSIZE)) with (pa + SECTSIZE * ((epa - (pa + SECTSIZE) + 511) / SECTSIZE + 1)) by lia. intros F2.
    apply (fills_join pa (pa + SECTSIZE) _ epa _ s s1 s2); [unfold SECTSIZE; lia | unfold SECTSIZE in *; lia | split; [exact I1|]; split; [exact S1|]; exact M1|].
    revert F2. apply fills_ext. intros m a. unfold fill. cbn [sp_base sp_top sp_val].
    replace (SECTSIZE * (sec + 1 - 1) + a - (pa + SECTSIZE)) with (SECTSIZE * (sec - 1) + a - pa) by lia. reflexivity.
Qed.

(** readseg() puts the bytes of the file from [off] on at [pa], and what else
    is in their sectors around them. *)
Definition seg_top (pa count off : Z) : Z := pa - off mod SECTSIZE + SECTSIZE * ((count + off mod SECTSIZE + 511) / SECTSIZE).
Definition seg_span (d : Z -> list Z) (pa count off : Z) : span := mk_span (pa - off mod SECTSIZE) (pa + count) (seg_top pa count off) (fun a => file d (a - pa + off)).
Definition seg_reads (fuel : nat) (pa count off : Z) : Prop :=
  (patience < fuel)%nat /\ off mod SECTSIZE <= pa /\ 0 <= count /\ 0 <= off < 2 ^ 32 /\ pa + count + SECTSIZE <= 2 ^ 32 /\ count + SECTSIZE <= SECTSIZE * Z.of_nat fuel.

Lemma seg_sectors pa count off : 0 <= pa -> 0 <= count -> 0 <= off < 2 ^ 32 -> pa + count + SECTSIZE <= 2 ^ 32 ->
  off / SECTSIZE + 1 + (count + off mod SECTSIZE + 511) / SECTSIZE < 2 ^ 28.
Proof. unfold SECTSIZE. intros. dlia. Qed.
Lemma readseg_ok fuel pa count off s : idle (l_ctl s) -> seg_reads fuel pa count off ->
  exists s', readseg fuel pa count off s = Ret tt s' /\ fills (seg_span (sectors (l_ctl s)) pa count off) s s'.
Proof.
  intros Hi (Hf & Hq & Hc & Ho & Hend & Hn). unfold readseg. pose proof (Z.mod_pos_bound off SECTSIZE ltac:(reflexivity)) as Hm.
  rewrite !u32_small by (unfold SECTSIZE in *; lia). pose proof (seg_sectors pa count off ltac:(lia) Hc Ho Hend) as Hlim.
  assert (Ed : pa + count - (pa - off mod SECTSIZE) + 511 = count + off mod SECTSIZE + 511) by lia.
  destruct (read_sectors_ok fuel fuel (pa - off mod SECTSIZE) (pa + count) (off / SECTSIZE + 1) s) as (s' & E & F);
    [exact Hf | exact Hi | lia | exact Hend | unfold SECTSIZE in *; dlia | rewrite Ed; exact Hlim | lia|].
  exists s'. split; [exact E|]. revert F. apply fills_ext. intros m a. unfold fill, seg_span, seg_top. cbn [sp_base sp_top sp_val]. rewrite Ed.
  replace (SECTSIZE * (off / SECTSIZE + 1 - 1) + a - (pa - off mod SECTSIZE)) with (a - pa + off) by (pose proof (Z.div_mod off SECTSIZE ltac:(discriminate)); lia). reflexivity.
Qed.
(** In JOS the address is rounded, not moved by the offset: the same when
    address and offset are congruent. *)
Lemma jos_readseg_eq fuel pa count off s : 0 <= pa < 2 ^ 32 -> pa mod SECTSIZE = off mod SECTSIZE -> jos_readseg fuel pa count off s = readseg fuel pa count off s.
Proof.
  intros Hpa Em. unfold jos_readseg, readseg. rewrite <- Em. replace (Z.land pa (u32 (Z.lnot (SECTSIZE - 1)))) with (u32 (pa - pa mod SECTSIZE)); [reflexivity|].
  pose proof (Z.mod_pos_bound pa SECTSIZE ltac:(reflexivity)) as Hm. pose proof (Z.mod_le pa SECTSIZE ltac:(lia) ltac:(reflexivity)) as Hle. rewrite u32_small by lia.
  replace (u32 (Z.lnot (SECTSIZE - 1))) with (Z.shiftl (Z.ones 23) 9) by reflexivity.
  apply Z.bits_inj'. intros i Hi. rewrite Z.land_spec. replace (pa - pa mod SECTSIZE) with (Z.shiftl (Z.shiftr pa 9) 9)
    by (rewrite Z.shiftr_div_pow2, Z.shiftl_mul_pow2 by lia; unfold SECTSIZE; change (2 ^ 9) with 512; pose proof (Z.div_mod pa 512 ltac:(lia)); lia).
  rewrite !Z.shiftl_spec by lia. destruct (decide (i < 9)) as [Hlt|Hge].
  - rewrite (Z.testbit_neg_r (Z.ones 23)), (Z.testbit_neg_r (Z.shiftr pa 9)) by lia. rewrite andb_false_r. reflexivity.
  - rewrite Z.shiftr_spec by lia. replace (i - 9 + 9) with i by lia. destruct (decide (i < 32)) as [H32|H32].
    + rewrite Z.ones_spec_low by lia. rewrite andb_true_r. reflexivity.
    + rewrite Z.ones_spec_high by lia. rewrite andb_false_r. destruct (decide (pa = 0)) as [->|Hne]; [apply Z.bits_0|].
      apply Z.bits_above_log2; [lia|]. apply Z.log2_lt_pow2; [lia|]. apply (Z.lt_le_trans _ (2 ^ 32)); [lia|]. apply Z.pow_le_mono_r; lia.
Qed.

(** ** The file and what it says *)

Record segment : Type := mk_seg { sg_paddr : Z; sg_off : Z; sg_filesz : Z; sg_memsz : Z }.
Definition seg_at (f : mem) (k : Z) : segment :=
  let p := elf_phoff f 0 + PROGHDR_SIZE * k in mk_seg (ph_paddr f p) (ph_off f p) (ph_filesz f p) (ph_memsz f p).
Definition segments (f : mem) : list segment := map (seg_at f) (seqZ 0 (elf_phnum f 0)).
(** The range that xv6 fills for a segment, and the one of JOS. *)
Definition seg_fill (d : Z -> list Z) (x : segment) : span :=
  mk_span (sg_paddr x - sg_off x mod SECTSIZE) (sg_paddr x + Z.max (sg_filesz x) (sg_memsz x))
    (Z.max (seg_top (sg_paddr x) (sg_filesz x) (sg_off x)) (sg_paddr x + sg_memsz x))
    (fun a => if (sg_paddr x + sg_filesz x <=? a) && (a <? sg_paddr x + sg_memsz x) then 0 else file d (a - sg_paddr x + sg_off x)).
Definition jos_fill (d : Z -> list Z) (x : segment) : span := seg_span d (sg_paddr x) (sg_memsz x) (sg_off x).
Definition misses_scratch (x : span) : Prop := sp_top x <= SCRATCH \/ SCRATCH + 4096 <= sp_base x.
Definition scratch_has (f m : mem) : Prop := forall i, 0 <= i < 4096 -> m (SCRATCH + i) = f i.

Lemma scratch32 f m i : scratch_has f m -> 0 <= i -> i + 4 <= 4096 -> load32 m (SCRATCH + i) = load32 f i.
Proof. intros Hm Hi Hi4. apply load32_same. intros j Hj. rewrite <- Z.add_assoc. apply Hm. lia. Qed.
Lemma scratch_seg f m k : scratch_has f m -> 0 <= elf_phoff f 0 + PROGHDR_SIZE * k -> elf_phoff f 0 + PROGHDR_SIZE * (k + 1) <= 4096 ->
  let p := SCRATCH + (elf_phoff f 0 + PROGHDR_SIZE * k) in mk_seg (ph_paddr m p) (ph_off m p) (ph_filesz m p) (ph_memsz m p) = seg_at f k.
Proof.
  intros Hm H0' H1. unfold seg_at. cbv zeta. unfold ph_paddr, ph_off, ph_filesz, ph_memsz. rewrite <- !(Z.add_assoc SCRATCH). unfold PROGHDR_SIZE in *.
  rewrite !(scratch32 f m) by (assumption || lia). reflexivity.
Qed.
Lemma fills_scratch f x s s' : scratch_has f (l_mem s) -> misses_scratch x -> fills x s s' -> scratch_has f (l_mem s').
Proof. intros Hm Hx (_ & _ & E) i Hi. rewrite E, fill_out; [apply Hm; exact Hi|]. destruct Hx; lia. Qed.

(** The loop over the program headers, for any body that fills a range for
    each of them. *)
Lemma for_headers_ok (body : Z -> M loader unit) (g : (Z -> list Z) -> segment -> span) d N : let f := file d in
  0 <= elf_phoff f 0 -> elf_phoff f 0 + PROGHDR_SIZE * N <= 4096 ->
  (forall k s, 0 <= k < N -> idle (l_ctl s) -> sectors (l_ctl s) = d -> scratch_has f (l_mem s) ->
    exists s', body (SCRATCH + (elf_phoff f 0 + PROGHDR_SIZE * k)) s = Ret tt s' /\ fills (g d (seg_at f k)) s s') ->
  (forall k, 0 <= k < N -> misses_scratch (g d (seg_at f k))) ->
  forall j n k s, 0 <= k -> k + Z.of_nat j = N -> (j <= n)%nat -> idle (l_ctl s) -> sectors (l_ctl s) = d -> scratch_has f (l_mem s) ->
  exists s', for_headers n body (SCRATCH + (elf_phoff f 0 + PROGHDR_SIZE * k)) (SCRATCH + (elf_phoff f 0 + PROGHDR_SIZE * N)) s = Ret tt s' /\
    idle (l_ctl s') /\ sectors (l_ctl s') = d /\ scratch_has f (l_mem s') /\
    forall a, l_mem s' a = fill_all (map (fun k => g d (seg_at f k)) (seqZ k (Z.of_nat j))) (l_mem s) a.
Proof.
  intros f Hp0 Hp Hbody Hmiss. induction j as [|j IH]; intros n k s Hk HN Hn Hi Hs Hm.
  - assert (k = N) as -> by lia. exists s. split; [destruct n; cbn [for_headers]; rewrite Z.ltb_irrefl; reflexivity|]. split_and!; try assumption. reflexivity.
  - destruct n as [|n]; [lia|]. cbn [for_headers]. rewrite (proj2 (Z.ltb_lt _ _)) by (unfold PROGHDR_SIZE; lia). cbn [negb].
    destruct (Hbody k s ltac:(lia) Hi Hs Hm) as (s1 & E1 & F1). rewrite (bind_eq _ _ _ _ _ E1). cbv beta.
    pose proof (fills_scratch f _ s s1 Hm (Hmiss k ltac:(lia)) F1) as Hm1. destruct F1 as (I1 & S1 & M1).
    rewrite u32_small by (unfold SCRATCH, PROGHDR_SIZE in *; lia). replace (SCRATCH + (elf_phoff f 0 + PROGHDR_SIZE * k) + PROGHDR_SIZE) with (SCRATCH + (elf_phoff f 0 + PROGHDR_SIZE * (k + 1))) by lia.
    destruct (IH n (k + 1) s1) as (s2 & E2 & I2 & S2 & H2 & M2); [lia | lia | lia | exact I1 | rewrite S1; exact Hs | exact Hm1|].
    exists s2. split; [exact E2|]. split; [exact I2|]. split; [exact S2|]. split; [exact H2|]. intros a. rewrite M2.
    replace (Z.of_nat (Datatypes.S j)) with (Z.succ (Z.of_nat j)) by lia. rewrite (seqZ_cons k (Z.succ (Z.of_nat j)) ltac:(lia)). rewrite Z.pred_succ. cbn [map]. replace (Z.succ k) with (k + 1) by lia.
    apply (fill_all_ext _ (l_mem s1) (fill (g d (seg_at f k)) (l_mem s))). exact M1.
Qed.

(** A file that a loader can load: magic and program headers are in the first
    page, each segment fits and misses the scratch space, and a segment (with
    the sector it begins in) lies behind those before it. *)
Record bootable (fuel : nat) (d : Z -> list Z) (fits : segment -> Prop) (g : segment -> span) : Prop := {
  bt_fuel : (patience < fuel)%nat /\ (9 <= fuel)%nat;
  bt_magic : elf_magic (file d) 0 = ELF_MAGIC;
  bt_headers : elf_phoff (file d) 0 + PROGHDR_SIZE * elf_phnum (file d) 0 <= 4096;
  bt_count : elf_phnum (file d) 0 <= Z.of_nat fuel;
  bt_fits : forall x, x ∈ segments (file d) -> fits x;
  bt_scratch : forall x, x ∈ segments (file d) -> misses_scratch (g x);
  bt_order : in_order (map g (segments (file d))) }.
Definition seg_fits (fuel : nat) (x : segment) : Prop :=
  seg_reads fuel (sg_paddr x) (sg_filesz x) (sg_off x) /\ 0 <= sg_memsz x /\ sg_paddr x + sg_memsz x <= 2 ^ 32.
Definition jos_fits (fuel : nat) (x : segment) : Prop :=
  seg_reads fuel (sg_paddr x) (sg_memsz x) (sg_off x) /\ sg_paddr x mod SECTSIZE = sg_off x mod SECTSIZE.

Lemma seg_at_in f k : 0 <= k < elf_phnum f 0 -> seg_at f k ∈ segments f.
Proof. intros Hk. apply list_elem_of_fmap. exists k. split; [reflexivity|]. apply elem_of_seqZ. lia. Qed.

Lemma seg_top_end pa count off : 0 <= count -> pa + count <= seg_top pa count off.
Proof. unfold seg_top, SECTSIZE. intros. dlia. Qed.
(** The bytes of the file, then zeros. *)
Lemma fill_bss d x m a : 0 <= sg_filesz x -> let bss := sg_paddr x + sg_filesz x in
  fill (seg_fill d x) m a =
    if (bss <=? a) && (a <? sg_paddr x + sg_memsz x) then 0 else fill (seg_span d (sg_paddr x) (sg_filesz x) (sg_off x)) m a.
Proof.
  intros Hf bss. pose proof (seg_top_end (sg_paddr x) (sg_filesz x) (sg_off x) Hf) as Ht. pose proof (Z.mod_pos_bound (sg_off x) SECTSIZE ltac:(reflexivity)) as Hm.
  unfold fill, seg_fill, seg_span, bss. cbn [sp_base sp_top sp_val].
  destruct (Z.leb_spec (sg_paddr x + sg_filesz x) a), (Z.ltb_spec a (sg_paddr x + sg_memsz x)); cbn [andb];
    destruct (Z.leb_spec (sg_paddr x - sg_off x mod SECTSIZE) a), (Z.ltb_spec a (Z.max (seg_top (sg_paddr x) (sg_filesz x) (sg_off x)) (sg_paddr x + sg_memsz x))),
      (Z.ltb_spec a (seg_top (sg_paddr x) (sg_filesz x) (sg_off x))); cbn [andb]; try reflexivity; lia.
Qed.

Lemma load_segment_ok fuel d k s : let f := file d in let x := seg_at f k in
  0 <= elf_phoff f 0 + PROGHDR_SIZE * k -> elf_phoff f 0 + PROGHDR_SIZE * (k + 1) <= 4096 -> seg_fits fuel x -> misses_scratch (seg_fill d x) ->
  idle (l_ctl s) -> sectors (l_ctl s) = d -> scratch_has f (l_mem s) ->
  exists s', load_segment fuel (SCRATCH + (elf_phoff f 0 + PROGHDR_SIZE * k)) s = Ret tt s' /\ fills (seg_fill d x) s s'.
Proof.
  intros f x Hp0 Hp1 (Hr & Hm0 & Hmem) Hmiss Hi Hs Hsc. set (p := SCRATCH + _). unfold load_segment. step by reflexivity.
  pose proof (scratch_seg f (l_mem s) k Hsc Hp0 Hp1) as Ex. cbv zeta in Ex. fold p x in Ex. assert (ph_paddr (l_mem s) p = sg_paddr x /\ ph_off (l_mem s) p = sg_off x /\ ph_filesz (l_mem s) p = sg_filesz x) as (-> & -> & ->)
    by (rewrite <- Ex; split_and!; reflexivity).
  destruct (readseg_ok fuel _ _ _ s Hi Hr) as (s1 & E1 & F1). rewrite Hs in F1. rewrite (bind_eq _ _ _ _ _ E1). cbv beta. step by reflexivity.
  destruct Hr as (_ & Hq & Hf0 & _ & Hend & _).
  assert (Hsc1 : scratch_has f (l_mem s1)).
  { apply (fills_scratch f _ s s1 Hsc) with (2 := F1). destruct Hmiss as [Hl|Hl]; [left | right; exact Hl]. cbn [seg_span seg_fill sp_top] in *. lia. }
  pose proof (scratch_seg f (l_mem s1) k Hsc1 Hp0 Hp1) as Ex1. cbv zeta in Ex1. fold p x in Ex1. assert (ph_filesz (l_mem s1) p = sg_filesz x /\ ph_memsz (l_mem s1) p = sg_memsz x) as (-> & ->)
    by (rewrite <- Ex1; split; reflexivity).
  destruct F1 as (I1 & S1 & M1). destruct (Z.ltb_spec (sg_filesz x) (sg_memsz x)) as [Hlt|Hge].
  - eexists. split; [reflexivity|]. split; [exact I1|]. split; [exact S1|]. intros a. rewrite fill_bss by exact Hf0.
    pose proof (Z.mod_pos_bound (sg_off x) SECTSIZE ltac:(reflexivity)) as Hm. rewrite u32_small by (unfold SECTSIZE in *; lia).
    cbn [set_field l_mem]. unfold set_field. cbn [l_mem]. rewrite stosb_lookup, <- M1. replace (sg_paddr x + sg_filesz x + Z.of_nat (Z.to_nat (sg_memsz x - sg_filesz x))) with (sg_paddr x + sg_memsz x) by lia. reflexivity.
  - exists s1. split; [reflexivity|]. split; [exact I1|]. split; [exact S1|]. intros a. rewrite fill_bss by exact Hf0. rewrite <- M1.
    destruct (Z.leb_spec (sg_paddr x + sg_filesz x) a), (Z.ltb_spec a (sg_paddr x + sg_memsz x)); cbn [andb]; try reflexivity. lia.
Qed.
Lemma jos_load_segment_ok fuel d k s : let f := file d in let x := seg_at f k in
  0 <= elf_phoff f 0 + PROGHDR_SIZE * k -> elf_phoff f 0 + PROGHDR_SIZE * (k + 1) <= 4096 -> jos_fits fuel x ->
  idle (l_ctl s) -> sectors (l_ctl s) = d -> scratch_has f (l_mem s) ->
  exists s', jos_load_segment fuel (SCRATCH + (elf_phoff f 0 + PROGHDR_SIZE * k)) s = Ret tt s' /\ fills (jos_fill d x) s s'.
Proof.
  intros f x Hp0 Hp1 (Hr & Hcong) Hi Hs Hsc. set (p := SCRATCH + _). unfold jos_load_segment. step by reflexivity.
  pose proof (scratch_seg f (l_mem s) k Hsc Hp0 Hp1) as Ex. cbv zeta in Ex. fold p x in Ex. assert (ph_paddr (l_mem s) p = sg_paddr x /\ ph_off (l_mem s) p = sg_off x /\ ph_memsz (l_mem s) p = sg_memsz x) as (-> & -> & ->)
    by (rewrite <- Ex; split_and!; reflexivity).
  pose proof Hr as (_ & Hq & Hc & Ho & Hend & _). pose proof (Z.mod_pos_bound (sg_off x) SECTSIZE ltac:(reflexivity)) as Hm.
  rewrite jos_readseg_eq by (assumption || (unfold SECTSIZE in *; lia)). destruct (readseg_ok fuel _ _ _ s Hi Hr) as (s1 & E1 & F1). rewrite Hs in F1. exists s1. split; [exact E1 | exact F1].
Qed.

(** The whole of a loader: the first page, the magic, the segments. *)
Lemma headers_ok fuel d fits g (body : Z -> M loader unit) s : let f := file d in bootable fuel d fits (g d) ->
  idle (l_ctl s) -> sectors (l_ctl s) = d ->
  (forall k s, 0 <= k < elf_phnum f 0 -> fits (seg_at f k) -> misses_scratch (g d (seg_at f k)) -> idle (l_ctl s) -> sectors (l_ctl s) = d -> scratch_has f (l_mem s) ->
    exists s', body (SCRATCH + (elf_phoff f 0 + PROGHDR_SIZE * k)) s = Ret tt s' /\ fills (g d (seg_at f k)) s s') ->
  exists s1 s', readseg fuel SCRATCH 4096 0 s = Ret tt s1 /\ elf_magic (l_mem s1) SCRATCH = ELF_MAGIC /\
    for_headers fuel body (u32 (SCRATCH + elf_phoff (l_mem s1) SCRATCH)) (u32 (u32 (SCRATCH + elf_phoff (l_mem s1) SCRATCH) + PROGHDR_SIZE * elf_phnum (l_mem s1) SCRATCH)) s1 = Ret tt s' /\
    elf_entry (l_mem s') SCRATCH = elf_entry f 0 /\
    (forall a, ~ SCRATCH <= a < SCRATCH + 4096 -> l_mem s1 a = l_mem s a) /\
    forall a, l_mem s' a = fill_all (map (g d) (segments f)) (l_mem s1) a.
Proof.
  intros f [[Hfu Hfu9] Hmagic Hph Hcount Hfits Hscr Hord] Hi Hs Hbody.
  destruct (readseg_ok fuel SCRATCH 4096 0 s Hi) as (s1 & E1 & I1 & S1 & M1); [unfold seg_reads, SCRATCH, SECTSIZE; change (0 mod 512) with 0; split_and!; (assumption || lia)|].
  rewrite Hs in M1. exists s1.
  assert (Hb : forall i, 0 <= f i < 256) by (intros i; unfold f; rewrite <- Hs; apply file_byte). pose proof (load32_bound f (0 + 28) Hb) as Hoff. pose proof (load16_bound f (0 + 44) Hb) as Hnum.
  fold (elf_phoff f 0) in Hoff. fold (elf_phnum f 0) in Hnum. fold f in Hmagic, Hph, Hcount, Hfits, Hscr, Hord.
  assert (Hsc : scratch_has f (l_mem s1)).
  { intros i Hir. rewrite M1, fill_in; [unfold f; cbn [seg_span sp_val]; f_equal; lia|]. unfold seg_span, seg_top. cbn [sp_base sp_top]. change (0 mod SECTSIZE) with 0. change ((4096 + 0 + 511) / SECTSIZE) with 8. unfold SECTSIZE. lia. }
  assert (elf_phoff (l_mem s1) SCRATCH = elf_phoff f 0) as -> by (unfold elf_phoff; apply (scratch32 f); [exact Hsc | lia | lia]).
  assert (elf_phnum (l_mem s1) SCRATCH = elf_phnum f 0) as ->.
  { unfold elf_phnum. apply load16_same. intros i Hir. rewrite <- Z.add_assoc. apply Hsc. lia. }
  rewrite (u32_small (SCRATCH + elf_phoff f 0)) by (unfold SCRATCH, PROGHDR_SIZE in *; lia). rewrite u32_small by (unfold SCRATCH, PROGHDR_SIZE in *; lia).
  destruct (for_headers_ok body g d (elf_phnum f 0) ltac:(fold f; lia) Hph) with (j := Z.to_nat (elf_phnum f 0)) (n := fuel) (k := 0) (s := s1)
    as (s' & E' & I' & S' & H' & M'); [| | lia | lia | lia | exact I1 | rewrite S1; exact Hs | exact Hsc|].
  - intros k s2 Hk Hi2 Hs2 Hsc2. apply Hbody; try assumption; [apply Hfits | apply Hscr]; apply seg_at_in; exact Hk.
  - intros k Hk. apply Hscr, seg_at_in. exact Hk.
  - exists s'. split; [exact E1|]. split; [unfold elf_magic in *; rewrite <- Hmagic; rewrite <- (Z.add_0_r SCRATCH) at 1; apply (scratch32 f); [exact Hsc | lia | lia]|].
    fold f in E'. rewrite Z.mul_0_r, Z.add_0_r, Z.add_assoc in E'. split; [exact E'|]. split; [unfold elf_entry; apply (scratch32 f); [exact H' | lia | lia]|]. split.
    + intros a Ha. rewrite M1. apply fill_out. intros Hin. apply Ha. unfold seg_span, seg_top in Hin. cbn [sp_base sp_top] in Hin. change (0 mod SECTSIZE) with 0 in Hin. change ((4096 + 0 + 511) / SECTSIZE) with 8 in Hin. unfold SECTSIZE in Hin. lia.
    + intros a. rewrite M'. unfold segments. rewrite Z2Nat.id by lia. rewrite map_map. reflexivity.
Qed.

(** bootmain() of xv6 loads the kernel.  From an idle drive and a file that
    it can load, it ends with a jump to the entry point of the ELF header;
    then memory holds the bytes of the file in every segment and zeros in the
    rest of the segment, and outside of the scratch space and of the sectors
    of the segments it is what it was. *)
Theorem bootmain_loads fuel s (Hi : idle (l_ctl s)) (Hb : bootable fuel (sectors (l_ctl s)) (seg_fits fuel) (seg_fill (sectors (l_ctl s)))) :
  let f := file (sectors (l_ctl s)) in exists s', bootmain fuel s = Ret (Some (elf_entry f 0)) s' /\
    (forall x, x ∈ segments f ->
      (forall i, 0 <= i < sg_filesz x -> l_mem s' (sg_paddr x + i) = f (sg_off x + i)) /\
      (forall i, sg_filesz x <= i < sg_memsz x -> l_mem s' (sg_paddr x + i) = 0)) /\
    forall a, ~ SCRATCH <= a < SCRATCH + 4096 -> (forall x, x ∈ segments f -> ~ sp_base (seg_fill (sectors (l_ctl s)) x) <= a < sp_top (seg_fill (sectors (l_ctl s)) x)) ->
      l_mem s' a = l_mem s a.
Proof.
  intros f. set (d := sectors (l_ctl s)) in *.
  destruct (headers_ok fuel d _ seg_fill (load_segment fuel) s Hb Hi eq_refl) as (s1 & s' & E1 & Hmagic & E2 & Hentry & Hout & Hmem).
  - destruct Hb. fold f in bt_headers0. intros k s2 Hk Hfit Hmiss Hi2 Hs2 Hsc. apply load_segment_ok; try assumption; fold f; fold f in Hk;
      pose proof (load32_bound f (0 + 28) (file_byte (l_ctl s))) as Hoff; fold (elf_phoff f 0) in Hoff; unfold PROGHDR_SIZE in *; clear -Hk Hoff bt_headers0; lia.
  - exists s'. split; [|split].
    + unfold bootmain. rewrite (bind_eq _ _ _ _ _ E1). cbv beta. step by reflexivity. rewrite Hmagic, Z.eqb_refl. cbn [negb]. rewrite (bind_eq _ _ _ _ _ E2). cbv beta.
      step by reflexivity. rewrite Hentry. reflexivity.
    + intros x Hx. destruct Hb. fold f in bt_fits0, bt_order0. pose proof (bt_fits0 x Hx) as ((_ & Hq & Hc & _) & Hm0 & _). pose proof (seg_top_end (sg_paddr x) (sg_filesz x) (sg_off x) Hc) as Ht.
      assert (Hk : forall i, 0 <= i < Z.max (sg_filesz x) (sg_memsz x) -> l_mem s' (sg_paddr x + i) = sp_val (seg_fill d x) (sg_paddr x + i)).
      { intros i Hir. rewrite Hmem. pose proof (Z.mod_pos_bound (sg_off x) SECTSIZE ltac:(reflexivity)). apply (fill_all_keep _ _ (seg_fill d x)); [exact bt_order0 | apply list_elem_of_fmap; eauto | cbn [seg_fill sp_base sp_keep]; lia | cbn [seg_fill sp_top sp_keep]; lia]. }
      split; intros i Hir; rewrite Hk by lia; cbn [seg_fill sp_val].
      * rewrite (proj2 (Z.leb_gt _ _)) by lia. cbn [andb]. unfold f. f_equal. lia.
      * rewrite (proj2 (Z.leb_le _ _)), (proj2 (Z.ltb_lt _ _)) by lia. reflexivity.
    + intros a Ha Hno. rewrite Hmem, fill_all_out; [apply Hout, Ha|]. intros y (x & -> & Hx)%list_elem_of_fmap. apply Hno. exact Hx.
Qed.

(** The same for JOS, whose loader reads the bytes of the file also for the
    part of a segment that is not in the file, and needs address and offset of
    a segment to be congruent. *)
Theorem jos_bootmain_loads fuel s (Hi : idle (l_ctl s)) (Hb : bootable fuel (sectors (l_ctl s)) (jos_fits fuel) (jos_fill (sectors (l_ctl s)))) :
  let f := file (sectors (l_ctl s)) in exists s', jos_bootmain fuel s = Ret (Some (elf_entry f 0)) s' /\
    forall x, x ∈ segments f -> forall i, 0 <= i < sg_memsz x -> l_mem s' (sg_paddr x + i) = f (sg_off x + i).
Proof.
  intros f. set (d := sectors (l_ctl s)) in *.
  destruct (headers_ok fuel d _ jos_fill (jos_load_segment fuel) s Hb Hi eq_refl) as (s1 & s' & E1 & Hmagic & E2 & Hentry & _ & Hmem).
  - destruct Hb. fold f in bt_headers0. intros k s2 Hk Hfit Hmiss Hi2 Hs2 Hsc. apply jos_load_segment_ok; try assumption; fold f; fold f in Hk;
      pose proof (load32_bound f (0 + 28) (file_byte (l_ctl s))) as Hoff; fold (elf_phoff f 0) in Hoff; unfold PROGHDR_SIZE in *; clear -Hk Hoff bt_headers0; lia.
  - exists s'. split.
    + unfold jos_bootmain. assert (E1' : jos_readseg fuel SCRATCH (SECTSIZE * 8) 0 s = Ret tt s1) by (rewrite jos_readseg_eq by (reflexivity || (unfold SCRATCH; lia)); exact E1).
      rewrite (bind_eq _ _ _ _ _ E1'). cbv beta. step by reflexivity.
      rewrite Hmagic, Z.eqb_refl. cbn [negb]. rewrite (bind_eq _ _ _ _ _ E2). cbv beta. step by reflexivity. rewrite Hentry. reflexivity.
    + intros x Hx i Hir. destruct Hb. fold f in bt_fits0, bt_order0. pose proof (bt_fits0 x Hx) as ((_ & Hq & Hc & _) & _). pose proof (seg_top_end (sg_paddr x) (sg_memsz x) (sg_off x) Hc) as Ht.
      pose proof (Z.mod_pos_bound (sg_off x) SECTSIZE ltac:(reflexivity)). rewrite Hmem.
      rewrite (fill_all_keep _ _ (jos_fill d x)); [|exact bt_order0 | apply list_elem_of_fmap; eauto | cbn [jos_fill seg_span sp_base sp_keep]; lia | cbn [jos_fill seg_span sp_top sp_keep]; lia].
      cbn [jos_fill seg_span sp_val]. unfold f. f_equal. lia.
Qed.

(** A file of another kind: bootmain() returns. *)
Lemma bootmain_not_elf fuel s : (patience < fuel)%nat -> (9 <= fuel)%nat -> idle (l_ctl s) -> elf_magic (file (sectors (l_ctl s))) 0 <> ELF_MAGIC ->
  exists s', bootmain fuel s = Ret None s'.
Proof.
  intros Hfu H9 Hi Hne. destruct (readseg_ok fuel SCRATCH 4096 0 s Hi) as (s1 & E1 & I1 & S1 & M1); [unfold seg_reads, SCRATCH, SECTSIZE; change (0 mod 512) with 0; split_and!; (assumption || lia)|].
  exists s1. unfold bootmain. rewrite (bind_eq _ _ _ _ _ E1). cbv beta. step by reflexivity. rewrite (proj2 (Z.eqb_neq _ _)); [reflexivity|]. intros E. apply Hne. rewrite <- E.
  unfold elf_magic. apply load32_same. intros i Hir. rewrite M1, fill_in.
  - cbn [seg_span sp_val]. f_equal. lia.
  - unfold seg_span, seg_top. cbn [sp_base sp_top]. change (0 mod SECTSIZE) with 0. change ((4096 + 0 + 511) / SECTSIZE) with 8. unfold SECTSIZE. lia.
Qed.
End Reading.

(** ** A drive and a file *)

Module BootDemo.
(** The two segments of the file begin at the offsets 4096 and 5720. *)
Definition le32 (v : Z) : list Z := [u8 v; u8 (Z.shiftr v 8); u8 (Z.shiftr v 16); u8 (Z.shiftr v 24)].
Definition phdr (off paddr filesz memsz : Z) : list Z :=
  le32 1 ++ le32 off ++ le32 (paddr + 0x80000000) ++ le32 paddr ++ le32 filesz ++ le32 memsz ++ le32 7 ++ le32 4096.
Definition header : list Z :=
  le32 ELF_MAGIC ++ replicate 20 0 ++ le32 0x10000c ++ le32 52 ++ replicate 12 0 ++ [2; 0] ++ replicate 6 0 ++
  phdr 4096 0x100000 600 1000 ++ phdr 5720 0x102058 3 3.
Definition disk (n : Z) : list Z := if n =? 1 then header ++ replicate 396 0 else map (fun i => u8 (n + i)) (seqZ 0 512).

Record drive := mk_drive { dr_reg : Z -> Z; dr_cmd : option Z; dr_busy : bool }.
Definition sel_sector (r : Z -> Z) : Z := r 0x1F3 + 2 ^ 8 * r 0x1F4 + 2 ^ 16 * r 0x1F5 + 2 ^ 24 * Z.land (r 0x1F6) 0x0f.
#[local] Instance drive_ctl : Controller := {
  ctl := drive;
  ctl_in := fun port c => (if dr_busy c then 0x80 else 0x40, mk_drive (dr_reg c) (dr_cmd c) false);
  ctl_out := fun port v c =>
    if port =? 0x1F7 then mk_drive (dr_reg c) (Some (sel_sector (dr_reg c))) true else mk_drive (fun p => if p =? port then v else dr_reg c p) (dr_cmd c) (dr_busy c);
  ctl_ins := fun port cnt c => match dr_cmd c with Some n => (disk n, mk_drive (dr_reg c) None false) | None => ([], c) end;
  ctl_outs := fun port data c => c }.

Lemma sector_selected n c : 0 <= n < 2 ^ 28 -> dr_cmd (select_read n c) = Some n.
Proof.
  intros Hn. unfold select_read. cbn [ctl_out drive_ctl Z.eqb Pos.eqb dr_cmd dr_reg]. f_equal. unfold sel_sector. cbn [Z.eqb Pos.eqb].
  assert (Eh : Z.land (u8 (Z.lor (Z.shiftr n 24) 0xE0)) 0x0f = Z.shiftr n 24).
  { assert (Hh : 0 <= Z.shiftr n 24 < 16) by (rewrite Z.shiftr_div_pow2 by lia; clear -Hn; dlia). remember (Z.shiftr n 24) as h. clear -Hh.
    assert (h ∈ seqZ 0 16) as Hin by (apply elem_of_seqZ; lia). revert Hin. apply (proj1 (Forall_forall (fun h => Z.land (u8 (Z.lor h 0xE0)) 0x0f = h) (seqZ 0 16))). vm_compute. repeat constructor. }
  rewrite Eh. unfold u8. rewrite !Z.shiftr_div_pow2 by lia. clear -Hn. dlia.
Qed.
#[local] Instance drive_ok : BootDisk.
Proof.
  refine {| sectors := fun _ => disk; idle := fun c => dr_cmd c = None; reading := fun c n => dr_cmd c = Some n;
    busy := fun c => if dr_busy c then 1%nat else 0%nat; patience := 1 |}.
  - intros c n. unfold disk. destruct (n =? 1); [split; [reflexivity | apply (bool_decide_unpack (Forall (fun b => 0 <= b < 256) (header ++ replicate 396 0))); vm_compute; exact I]|]. split; [rewrite length_map, length_seqZ; reflexivity|].
    apply Forall_map, Forall_forall. intros i _. unfold compose. apply Z.mod_pos_bound. reflexivity.
  - intros c. destruct (dr_busy c); lia.
  - intros c. cbn. destruct (dr_busy c); cbn; auto.
  - intros c n _ _ Hn. split; [apply sector_selected; exact Hn | reflexivity].
  - intros c n Hc _. cbn. rewrite Hc. auto.
Defined.

Definition power_on : loader := mk_loader _ (fun _ => 0xAA) (mk_drive (fun _ => 0) None true).
End BootDemo.
Import BootDemo.
#[local] Existing Instances drive_ctl drive_ok.

Lemma bootmain_loads_witness : exists s', bootmain 9 power_on = Ret (Some 0x10000c) s' /\ l_mem s' 0x100000 = 9 /\ l_mem s' (0x100000 + 513) = 11 /\
  l_mem s' (0x100000 + 600) = 0 /\ l_mem s' 0x200000 = 0xAA.
Proof.
  assert (Eseg : segments (file disk) = [mk_seg 0x100000 4096 600 1000; mk_seg 0x102058 5720 3 3]) by (vm_compute; reflexivity).
  destruct (bootmain_loads 9 power_on) as (s' & E & Hin & Hout).
  - reflexivity.
  - change (sectors (l_ctl power_on)) with disk. split; rewrite ?Eseg.
    + split; [cbn [patience drive_ok]; lia | lia].
    + vm_compute. reflexivity.
    + vm_compute. discriminate.
    + vm_compute. discriminate.
    + intros x [->|[->|Hx%elem_of_nil]%elem_of_cons]%elem_of_cons; [..|destruct Hx]; unfold seg_fits, seg_reads; cbn [sg_paddr sg_off sg_filesz sg_memsz patience drive_ok]; unfold SECTSIZE;
        [change (4096 mod 512) with 0 | change (5720 mod 512) with 88]; split_and!; lia.
    + intros x [->|[->|Hx%elem_of_nil]%elem_of_cons]%elem_of_cons; [..|destruct Hx]; right; vm_compute; discriminate.
    + cbn [map in_order]. split; [|split; [|exact I]]; [|intros y Hy%elem_of_nil; destruct Hy]. intros y [->|Hy%elem_of_nil]%elem_of_cons; [vm_compute; discriminate | destruct Hy].
  - exists s'. change (sectors (l_ctl power_on)) with disk in *. rewrite Eseg in Hin, Hout.
    destruct (Hin (mk_seg 0x100000 4096 600 1000) ltac:(left)) as [H1 H2]. cbn [sg_paddr sg_off sg_filesz sg_memsz] in H1, H2.
    split; [exact E|]. split; [rewrite <- (Z.add_0_r 0x100000), (H1 0) by lia; vm_compute; reflexivity|]. split; [rewrite (H1 513) by lia; vm_compute; reflexivity|].
    split; [apply H2; lia|]. rewrite Hout; [reflexivity | unfold SCRATCH; lia|].
    intros x [->|[->|Hx%elem_of_nil]%elem_of_cons]%elem_of_cons; [..|destruct Hx]; vm_compute; intros [Ha Hb]; discriminate.
Defined.
