(* ===== verification/Apic.v ===== *)
(** * Interrupt controllers and the clock

    [src/homeworks/xv6-public/lapic.c], [ioapic.c], [picirq.c], and of JOS
    [kern/kclock.c] with the part of [kern/pmap.c] that asks it for the size
    of the memory.  The devices behind memory-mapped registers and ports are a
    parameter (class [Bus]); classes state what each theorem relies on. *)
From S2P Require Import Prelude.
From S2P Require Import CString.
From S2P Require Import Mp.

(** Reads and writes of registers in memory, by address, and of ports. *)
Class Bus : Type := {
  dev : Type;
  rd : Z -> dev -> Z * dev;
  wr : Z -> Z -> dev -> dev;
  pin : Z -> dev -> Z * dev;
  pout : Z -> Z -> dev -> dev }.

(** The pointer [lapic], [ioapicid], memory, the devices, the lines that
    cprintf() has printed. *)
Record hw `{Bus} := mk_hw { hw_lapic : Z; hw_ioapicid : Z; hw_mem : mem; hw_dev : dev; hw_log : list string }.
#[export] Instance eta_hw `{Bus} : Eta hw := fun s => mk_hw _ (hw_lapic s) (hw_ioapicid s) (hw_mem s) (hw_dev s) (hw_log s).

Definition T_IRQ0 : Z := 32.
Definition IRQ_TIMER : Z := 0.
Definition IRQ_ERROR : Z := 19.
Definition IRQ_SPURIOUS : Z := 31.

(** Local APIC registers, divided by 4 *)
Definition ID : Z := 0x0020 / 4.
Definition VER : Z := 0x0030 / 4.
Definition TPR : Z := 0x0080 / 4.
Definition EOI : Z := 0x00B0 / 4.
Definition SVR : Z := 0x00F0 / 4.
Definition ENABLE : Z := 0x00000100.
Definition ESR : Z := 0x0280 / 4.
Definition ICRLO : Z := 0x0300 / 4.
Definition INIT : Z := 0x00000500.
Definition STARTUP : Z := 0x00000600.
Definition DELIVS : Z := 0x00001000.
Definition ASSERT : Z := 0x00004000.
Definition LEVEL : Z := 0x00008000.
Definition BCAST : Z := 0x00080000.
Definition ICRHI : Z := 0x0310 / 4.
Definition TIMER : Z := 0x0320 / 4.
Definition X1 : Z := 0x0000000B.
Definition PERIODIC : Z := 0x00020000.
Definition PCINT : Z := 0x0340 / 4.
Definition LINT0 : Z := 0x0350 / 4.
Definition LINT1 : Z := 0x0360 / 4.
Definition ERROR : Z := 0x0370 / 4.
Definition MASKED : Z := 0x00010000.
Definition TICR : Z := 0x0380 / 4.
Definition TDCR : Z := 0x03E0 / 4.

Definition CMOS_PORT : Z := 0x70.
Definition CMOS_RETURN : Z := 0x71.
Definition CMOS_STATA : Z := 0x0a.
Definition CMOS_STATB : Z := 0x0b.
Definition CMOS_UIP : Z := Z.shiftl 1 7.
Definition SECS : Z := 0x00.
Definition MINS : Z := 0x02.
Definition HOURS : Z := 0x04.
Definition DAY : Z := 0x07.
Definition MONTH : Z := 0x08.
Definition YEAR : Z := 0x09.

Definition IOAPIC : Z := 0xFEC00000.
Definition REG_ID : Z := 0x00.
Definition REG_VER : Z := 0x01.
Definition REG_TABLE : Z := 0x10.
Definition INT_DISABLED : Z := 0x00010000.

Definition IO_PIC1 : Z := 0x20.
Definition IO_PIC2 : Z := 0xA0.

Record rtcdate := mk_rtcdate { second : Z; minute : Z; hour : Z; day : Z; month : Z; year : Z }.
#[export] Instance rtcdate_eq_dec : EqDecision rtcdate.
Proof. solve_decision. Defined.

Section Code.
Context `{Bus}.

Definition load (a : Z) : M hw Z := fun s => let '(v, d) := rd a (hw_dev s) in Ret v (s <| hw_dev := d |>).
Definition store (a v : Z) : M hw unit := modify (fun s => s <| hw_dev ::= wr a (u32 v) |>).
Definition inb (port : Z) : M hw Z := fun s => let '(v, d) := pin port (hw_dev s) in Ret v (s <| hw_dev := d |>).
Definition outb (port data : Z) : M hw unit := modify (fun s => s <| hw_dev ::= pout port (u8 data) |>).
Definition cprintf (msg : string) : M hw unit := modify (fun s => s <| hw_log ::= fun l => l ++ [msg] |>).

(** ** lapic.c *)

Definition lapic_read (index : Z) : M hw Z := let! lapic := get hw_lapic in load (lapic + 4 * index).
Definition lapicw (index value : Z) : M hw unit :=
  let! lapic := get hw_lapic in
  store (lapic + 4 * index) value ;!
  lapic_read ID ;! ret tt.  (* wait for write to finish, by reading *)

(** [while(lapic[ICRLO] & DELIVS);] *)
Fixpoint wait_delivery (fuel : nat) : M hw unit :=
  match fuel with
  | O => halt NoFuel
  | S fuel' => let! r := lapic_read ICRLO in if bitset r DELIVS then wait_delivery fuel' else ret tt
  end.
Definition lapicinit (fuel : nat) : M hw unit :=
  let! lapic := get hw_lapic in
  if lapic =? 0 then ret tt else
  lapicw SVR (Z.lor ENABLE (T_IRQ0 + IRQ_SPURIOUS)) ;!
  lapicw TDCR X1 ;!
  lapicw TIMER (Z.lor PERIODIC (T_IRQ0 + IRQ_TIMER)) ;!
  lapicw TICR 10000000 ;!
  lapicw LINT0 MASKED ;!
  lapicw LINT1 MASKED ;!
  let! v := lapic_read VER in
  (if 4 <=? Z.land (Z.shiftr v 16) 0xFF then lapicw PCINT MASKED else ret tt) ;!
  lapicw ERROR (T_IRQ0 + IRQ_ERROR) ;!
  lapicw ESR 0 ;!
  lapicw ESR 0 ;!
  lapicw EOI 0 ;!
  lapicw ICRHI 0 ;!
  lapicw ICRLO (Z.lor BCAST (Z.lor INIT LEVEL)) ;!
  wait_delivery fuel ;!
  lapicw TPR 0.
Definition lapicid : M hw Z :=
  let! lapic := get hw_lapic in
  if lapic =? 0 then ret 0 else let! r := lapic_read ID in ret (Z.shiftr r 24).
Definition lapiceoi : M hw unit :=
  let! lapic := get hw_lapic in
  if lapic =? 0 then ret tt else lapicw EOI 0.
Definition store16 (m : mem) (a v : Z) : mem := store8 (store8 m a v) (a + 1) (Z.shiftr v 8).
(** microdelay() does nothing. *)
Definition startup (apicid addr : Z) : M hw unit :=
  lapicw ICRHI (Z.shiftl apicid 24) ;!
  lapicw ICRLO (Z.lor STARTUP (Z.shiftr addr 12)).
Definition lapicstartap (apicid addr : Z) : M hw unit :=
  outb CMOS_PORT 0xF ;!
  outb (CMOS_PORT + 1) 0x0A ;!
  let wrv := P2V (Z.lor (Z.shiftl 0x40 4) 0x67) in
  modify (fun s => s <| hw_mem ::= fun m => store16 m wrv 0 |>) ;!
  modify (fun s => s <| hw_mem ::= fun m => store16 m (wrv + 2) (Z.shiftr addr 4) |>) ;!
  lapicw ICRHI (Z.shiftl apicid 24) ;!
  lapicw ICRLO (Z.lor INIT (Z.lor LEVEL ASSERT)) ;!
  lapicw ICRLO (Z.lor INIT LEVEL) ;!
  startup apicid addr ;!
  startup apicid addr.

Definition cmos_read (reg : Z) : M hw Z := outb CMOS_PORT reg ;! inb CMOS_RETURN.
Definition fill_rtcdate : M hw rtcdate :=
  let! s := cmos_read SECS in
  let! mi := cmos_read MINS in
  let! h := cmos_read HOURS in
  let! d := cmos_read DAY in
  let! mo := cmos_read MONTH in
  let! y := cmos_read YEAR in
  ret (mk_rtcdate s mi h d mo y).
(** The loop, until two readings agree. *)
Fixpoint read_twice (fuel : nat) : M hw rtcdate :=
  match fuel with
  | O => halt NoFuel
  | S fuel' =>
      let! t1 := fill_rtcdate in
      let! a := cmos_read CMOS_STATA in
      if bitset a CMOS_UIP then read_twice fuel' else
      let! t2 := fill_rtcdate in
      if decide (t1 = t2) then ret t1 else read_twice fuel'
  end.
Definition CONV (x : Z) : Z := u32 (Z.shiftr x 4 * 10 + Z.land x 0xf).
Definition conv_date (t : rtcdate) : rtcdate :=
  mk_rtcdate (CONV (second t)) (CONV (minute t)) (CONV (hour t)) (CONV (day t)) (CONV (month t)) (CONV (year t)).
Definition cmostime (fuel : nat) : M hw rtcdate :=
  let! sb := cmos_read CMOS_STATB in
  let bcd := Z.land sb (Z.shiftl 1 2) =? 0 in
  let! t1 := read_twice fuel in
  let t := if bcd then conv_date t1 else t1 in
  ret (mk_rtcdate (second t) (minute t) (hour t) (day t) (month t) (u32 (year t + 2000))).

(** ** ioapic.c: write reg, then read or write data *)

Definition ioapicread (reg : Z) : M hw Z := store IOAPIC reg ;! load (IOAPIC + 16).
Definition ioapicwrite (reg data : Z) : M hw unit := store IOAPIC reg ;! store (IOAPIC + 16) data.
Definition mask_irq (i : Z) : M hw unit :=
  ioapicwrite (REG_TABLE + 2 * i) (Z.lor INT_DISABLED (T_IRQ0 + i)) ;!
  ioapicwrite (REG_TABLE + 2 * i + 1) 0.
Definition ioapicinit : M hw unit :=
  let! v := ioapicread REG_VER in
  let maxintr := Z.land (Z.shiftr v 16) 0xFF in
  let! r := ioapicread REG_ID in
  let id := Z.shiftr r 24 in
  let! ioapicid := get hw_ioapicid in
  (if negb (id =? ioapicid) then cprintf "ioapicinit: id isn't equal to ioapicid; not a MP" else ret tt) ;!
  for_all (seqZ 0 (maxintr + 1)) mask_irq.
Definition ioapicenable (irq cpunum : Z) : M hw unit :=
  ioapicwrite (REG_TABLE + 2 * irq) (T_IRQ0 + irq) ;!
  ioapicwrite (REG_TABLE + 2 * irq + 1) (Z.shiftl cpunum 24).

(** ** picirq.c *)

Definition picinit : M hw unit :=
  outb (IO_PIC1 + 1) 0xFF ;!
  outb (IO_PIC2 + 1) 0xFF.

(** ** JOS: kclock.c, and the memory in pmap.c *)

Definition mc146818_read (reg : Z) : M hw Z := outb 0x070 reg ;! inb (0x070 + 1).
Definition mc146818_write (reg datum : Z) : M hw unit := outb 0x070 reg ;! outb (0x070 + 1) datum.
Definition NVRAM_BASELO : Z := 0xe + 7.
Definition NVRAM_EXTLO : Z := 0xe + 9.
Definition NVRAM_EXT16LO : Z := 0xe + 38.
Definition nvram_read (r : Z) : M hw Z :=
  let! lo := mc146818_read r in
  let! hi := mc146818_read (r + 1) in
  ret (Z.lor lo (Z.shiftl hi 8)).
(** [npages] and [npages_basemem]; the line that it prints is left out. *)
Definition i386_detect_memory : M hw (Z * Z) :=
  let! basemem := nvram_read NVRAM_BASELO in
  let! extmem := nvram_read NVRAM_EXTLO in
  let! ext16 := nvram_read NVRAM_EXT16LO in
  let ext16mem := u32 (ext16 * 64) in
  let totalmem := if negb (ext16mem =? 0) then u32 (16 * 1024 + ext16mem) else if negb (extmem =? 0) then 1 * 1024 + extmem else basemem in
  ret (totalmem / 4, basemem / 4).
End Code.

(** ** The clock

    Time is counted in reads of the data port; [clk n r] is what register [r]
    shows at the time [n]. *)
Class Rtc `{Bus} (clk : nat -> Z -> Z) : Type := {
  t_now : dev -> nat;
  t_sel : dev -> Z;
  rtc_select r d : t_sel (pout 0x70 r d) = r /\ t_now (pout 0x70 r d) = t_now d;
  rtc_read d : (pin 0x71 d).1 = clk (t_now d) (t_sel d) /\ t_now (pin 0x71 d).2 = S (t_now d) }.

Section Clock.
Context `{Rtc}.

Definition now (s : hw) : nat := t_now (hw_dev s).

Lemma cmos_read_ok r s : 0 <= r < 256 -> exists s', cmos_read r s = Ret (clk (now s) r) s' /\ now s' = S (now s).
Proof.
  intros Hr. unfold cmos_read. step by reflexivity. unfold u8. rewrite (Z.mod_small r) by (change (2 ^ 8) with 256; lia). unfold inb, set_field. cbn [hw_dev].
  change CMOS_PORT with 0x70. destruct (rtc_select r (hw_dev s)) as [Hs Hn]. destruct (rtc_read (pout 0x70 r (hw_dev s))) as [Hv Ht].
  change CMOS_RETURN with 0x71. destruct (pin 0x71 _) as [v d]. cbn [fst snd] in *. rewrite Hs, Hn in Hv. rewrite Hn in Ht. eexists. rewrite Hv. split; [reflexivity | exact Ht].
Qed.

(** The six registers one after the other, from the time [n] on. *)
Definition reading (n : nat) : rtcdate :=
  mk_rtcdate (clk n SECS) (clk (n + 1) MINS) (clk (n + 2) HOURS) (clk (n + 3) DAY) (clk (n + 4) MONTH) (clk (n + 5) YEAR).

Lemma fill_rtcdate_ok s : exists s', fill_rtcdate s = Ret (reading (now s)) s' /\ now s' = (now s + 6)%nat.
Proof.
  unfold fill_rtcdate, reading.
  destruct (cmos_read_ok SECS s) as (s1 & E1 & N1); [unfold SECS; lia|]. rewrite (bind_eq _ _ _ _ _ E1). destruct (cmos_read_ok MINS s1) as (s2 & E2 & N2); [unfold MINS; lia|].
  rewrite (bind_eq _ _ _ _ _ E2). destruct (cmos_read_ok HOURS s2) as (s3 & E3 & N3); [unfold HOURS; lia|]. rewrite (bind_eq _ _ _ _ _ E3).
  destruct (cmos_read_ok DAY s3) as (s4 & E4 & N4); [unfold DAY; lia|]. rewrite (bind_eq _ _ _ _ _ E4). destruct (cmos_read_ok MONTH s4) as (s5 & E5 & N5); [unfold MONTH; lia|].
  rewrite (bind_eq _ _ _ _ _ E5). destruct (cmos_read_ok YEAR s5) as (s6 & E6 & N6); [unfold YEAR; lia|]. rewrite (bind_eq _ _ _ _ _ E6).
  exists s6. split; [|lia]. unfold ret. rewrite N5, N4, N3, N2, N1. rewrite !Nat.add_succ_r, Nat.add_0_r. reflexivity.
Qed.

(** What a clock shows: a date, in binary or with the decimal digits of each
    number in four bits each (BCD). *)
Definition bcd_of (x : Z) : Z := x / 10 * 16 + x mod 10.
Definition shown (bcd : bool) (x : Z) : Z := if bcd then bcd_of x else x.
Definition two_digits (t : rtcdate) : Prop :=
  0 <= second t < 100 /\ 0 <= minute t < 100 /\ 0 <= hour t < 100 /\ 0 <= day t < 100 /\ 0 <= month t < 100 /\ 0 <= year t < 100.
Definition shows (bcd : bool) (t : rtcdate) (r : Z -> Z) : Prop :=
  r SECS = shown bcd (second t) /\ r MINS = shown bcd (minute t) /\ r HOURS = shown bcd (hour t) /\
  r DAY = shown bcd (day t) /\ r MONTH = shown bcd (month t) /\ r YEAR = shown bcd (year t).
Definition show (bcd : bool) (t : rtcdate) : rtcdate :=
  mk_rtcdate (shown bcd (second t)) (shown bcd (minute t)) (shown bcd (hour t)) (shown bcd (day t)) (shown bcd (month t)) (shown bcd (year t)).

(** A clock in service.  It shows the dates [cal]; the seconds change at each
    of its steps, and there is at most one step while fourteen registers are
    read. *)
Record ticking (bcd : bool) (cal : nat -> rtcdate) : Prop := {
  tk_mode : forall n, (Z.land (clk n CMOS_STATB) (Z.shiftl 1 2) =? 0) = bcd;
  tk_shows : forall n, shows bcd (cal n) (clk n);
  tk_range : forall n, two_digits (cal n);
  tk_step : forall n, exists j A B, second A <> second B /\ forall k, (n <= k < n + 14)%nat -> cal k = if (k <? j)%nat then A else B }.
(** Long enough without a step: every reading of twice six registers that
    begins before [n + 13] succeeds. *)
Definition quiet (cal : nat -> rtcdate) (n : nat) : Prop :=
  forall k, (n <= k < n + 26)%nat -> cal k = cal n /\ bitset (clk k CMOS_STATA) CMOS_UIP = false.

Lemma CONV_bcd x : 0 <= x < 100 -> CONV (bcd_of x) = x.
Proof.
  intros Hx. unfold CONV, bcd_of. rewrite Z.shiftr_div_pow2 by lia. change 0xf with (Z.ones 4). rewrite Z.land_ones by lia. change (2 ^ 4) with 16.
  rewrite u32_small; clear -Hx; dlia.
Qed.
Lemma shown_inj bcd x y : 0 <= x < 100 -> 0 <= y < 100 -> shown bcd x = shown bcd y -> x = y.
Proof. intros Hx Hy. destruct bcd; cbn [shown]; [|auto]. intros E. rewrite <- (CONV_bcd x Hx), <- (CONV_bcd y Hy), E. reflexivity. Qed.

Lemma reading_same bcd cal n t : (forall k, shows bcd (cal k) (clk k)) -> (forall k, (n <= k < n + 6)%nat -> cal k = t) -> reading n = show bcd t.
Proof.
  intros Hs Ht. unfold reading, show. destruct (Hs n) as (-> & _). destruct (Hs (n + 1)%nat) as (_ & -> & _). destruct (Hs (n + 2)%nat) as (_ & _ & -> & _).
  destruct (Hs (n + 3)%nat) as (_ & _ & _ & -> & _). destruct (Hs (n + 4)%nat) as (_ & _ & _ & _ & -> & _). destruct (Hs (n + 5)%nat) as (_ & _ & _ & _ & _ & ->).
  rewrite !Ht by lia. reflexivity.
Qed.
(** Two equal readings are readings of one date. *)
Lemma equal_readings bcd cal n : ticking bcd cal -> reading n = reading (n + 7) -> reading n = show bcd (cal n).
Proof.
  intros [_ Hs Hr Ht] E. destruct (Ht n) as (j & A & B & Hne & Hcal). injection E as Esec _ _ _ _ _.
  destruct (Hs n) as (E0 & _). destruct (Hs (n + 7)%nat) as (E7 & _). rewrite E0, E7 in Esec.
  destruct (Hr n) as [R0 _]. destruct (Hr (n + 7)%nat) as [R7 _]. apply (shown_inj bcd _ _ R0 R7) in Esec.
  rewrite !Hcal in Esec by lia. apply (reading_same bcd cal); [exact Hs|]. intros k Hk. rewrite !Hcal by lia.
  destruct (Nat.ltb_spec n j), (Nat.ltb_spec (n + 7) j), (Nat.ltb_spec k j); try reflexivity; try lia; exfalso; apply Hne; congruence.
Qed.

Lemma read_twice_ok bcd cal q : ticking bcd cal -> quiet cal q -> forall fuel s, (now s < q + 13)%nat -> (q + 13 - now s <= fuel)%nat ->
  exists s' k, read_twice fuel s = Ret (show bcd (cal k)) s' /\ (now s <= k < now s')%nat.
Proof.
  intros Ht Hq. induction fuel as [|fuel IH]; intros s Hs Hf; [lia|]. cbn [read_twice]. destruct (fill_rtcdate_ok s) as (s1 & E1 & N1). rewrite (bind_eq _ _ _ _ _ E1).
  destruct (cmos_read_ok CMOS_STATA s1) as (s2 & E2 & N2); [unfold CMOS_STATA; lia|]. rewrite (bind_eq _ _ _ _ _ E2).
  destruct (fill_rtcdate_ok s2) as (s3 & E3 & N3). assert (En : now s2 = (now s + 7)%nat) by lia.
  destruct (decide (now s < q)%nat) as [Hlt|Hge].
  - destruct (bitset _ CMOS_UIP).
    + destruct (IH s2) as (s' & k & E & Hk); [lia | lia|]. exists s', k. split; [exact E | lia].
    + rewrite (bind_eq _ _ _ _ _ E3). destruct (decide (reading (now s) = reading (now s2))) as [Eq|Hne].
      * exists s3, (now s). split; [|lia]. rewrite En in Eq. rewrite (equal_readings bcd cal _ Ht Eq). reflexivity.
      * destruct (IH s3) as (s' & k & E & Hk); [lia | lia|]. exists s', k. split; [exact E | lia].
  - destruct Ht as [_ Hsh _ _]. rewrite (proj2 (Hq (now s1) ltac:(lia))). rewrite (bind_eq _ _ _ _ _ E3).
    assert (Es : forall n, (n + 6 <= q + 26)%nat -> (q <= n)%nat -> reading n = show bcd (cal q)) by (intros n H1 H2; apply (reading_same bcd cal); [exact Hsh|]; intros k Hk; apply Hq; lia).
    rewrite (Es (now s)), (Es (now s2)) by lia. rewrite decide_True by reflexivity. exists s3, (now s). split; [|lia]. rewrite (proj1 (Hq (now s) ltac:(lia))). reflexivity.
Qed.

Lemma conv_show t : two_digits t -> conv_date (show true t) = t.
Proof. intros (H1 & H2 & H3 & H4 & H5 & H6). unfold conv_date, show. cbn [second minute hour day month year shown]. rewrite !CONV_bcd by assumption. destruct t; reflexivity. Qed.

(** cmostime() returns a date that the clock has shown during the call,
    with the century: no mixture of two dates, although the registers are read
    one by one while the clock goes on, and in binary whatever the clock's
    encoding is.  It ends when the clock stands still long enough once. *)
Theorem cmostime_snapshot bcd cal q fuel s (Ht : ticking bcd cal) (Hq : quiet cal q) (Hs : (now s < q)%nat) (Hf : (q + 13 - now s <= fuel)%nat) :
  exists s' k, cmostime fuel s = Ret (mk_rtcdate (second (cal k)) (minute (cal k)) (hour (cal k)) (day (cal k)) (month (cal k)) (year (cal k) + 2000)) s' /\
    (now s <= k < now s')%nat.
Proof.
  unfold cmostime. destruct (cmos_read_ok CMOS_STATB s) as (s1 & E1 & N1); [unfold CMOS_STATB; lia|]. rewrite (bind_eq _ _ _ _ _ E1).
  destruct (read_twice_ok bcd cal q Ht Hq fuel s1) as (s2 & k & E2 & Hk); [lia | lia|]. rewrite (bind_eq _ _ _ _ _ E2). exists s2, k. split; [|lia].
  destruct Ht as [Hm _ Hr _]. rewrite Hm. assert ((if bcd then conv_date (show bcd (cal k)) else show bcd (cal k)) = cal k) as ->.
  { destruct bcd; [apply conv_show, Hr | destruct (cal k); reflexivity]. }
  unfold ret. rewrite u32_small; [reflexivity|]. destruct (Hr k) as (_ & _ & _ & _ & _ & Hy). lia.
Qed.
End Clock.

(** A clock that makes a step at every fortieth read. *)
Module ClockDemo.
Definition cal (n : nat) : rtcdate := mk_rtcdate (Z.of_nat n / 40 mod 60) 59 23 31 12 24.
Definition clk (n : nat) (r : Z) : Z :=
  if r =? SECS then bcd_of (second (cal n)) else if r =? MINS then 0x59 else if r =? HOURS then 0x23 else if r =? DAY then 0x31
  else if r =? MONTH then 0x12 else if r =? YEAR then 0x24 else if r =? CMOS_STATB then 2
  else if 38 <=? Z.of_nat n mod 40 then CMOS_UIP else 0.
#[local] Instance rtc_bus : Bus := {
  dev := Z * nat;
  rd := fun a d => (0, d);
  wr := fun a v d => d;
  pin := fun port d => (clk d.2 d.1, (d.1, S d.2));
  pout := fun port v d => if port =? 0x70 then (v, d.2) else d }.
#[local] Instance rtc_ok : Rtc clk.
Proof. refine {| t_now := snd; t_sel := fst |}; intros; split; reflexivity. Defined.
Definition machine : hw := mk_hw _ 0 0 (fun _ => 0) (0, 31%nat) [].

Lemma demo_ticking : ticking (clk := clk) true cal.
Proof.
  split.
  - intros n. reflexivity.
  - intros n. repeat split.
  - intros n. pose proof (Z.mod_pos_bound (Z.of_nat n / 40) 60 ltac:(lia)). unfold two_digits. cbn. lia.
  - intros n. exists (40 * (n / 40) + 40)%nat, (cal (40 * (n / 40))), (cal (40 * (n / 40) + 40)). pose proof (Nat.div_mod_eq n 40) as En. pose proof (Nat.mod_upper_bound n 40 ltac:(lia)) as Hn.
    remember (n / 40)%nat as q. clear Heqq. split; [cbn [cal second]; clear; dlia|]. intros k Hk.
    unfold cal. destruct (Nat.ltb_spec k (40 * q + 40)) as [Hlt|Hge]; f_equal; f_equal; clear -En Hn Hk Hlt + clear -En Hn Hk Hge; dlia.
Qed.
Lemma demo_quiet : quiet (clk := clk) cal 40.
Proof.
  intros k Hk. assert (E : Z.of_nat k / 40 = 1) by dlia. split; [unfold cal; rewrite E; reflexivity|].
  unfold clk. cbn [Z.eqb CMOS_STATA SECS MINS HOURS DAY MONTH YEAR CMOS_STATB Pos.eqb]. destruct (Z.leb_spec 38 (Z.of_nat k mod 40)); [dlia | reflexivity].
Qed.
End ClockDemo.

(** The step of the clock at the read 40 is in the middle of the first pair
    of readings. *)
Lemma cmostime_snapshot_witness : exists s' k, @cmostime ClockDemo.rtc_bus 22 ClockDemo.machine = Ret (mk_rtcdate (second (ClockDemo.cal k)) 59 23 31 12 2024) s' /\ (31 <= k)%nat.
Proof.
  destruct (@cmostime_snapshot ClockDemo.rtc_bus ClockDemo.clk ClockDemo.rtc_ok true ClockDemo.cal 40 22 ClockDemo.machine) as (s' & k & E & Hk);
    [exact ClockDemo.demo_ticking | exact ClockDemo.demo_quiet | cbn; lia | cbn; lia|].
  exists s', k. split; [exact E | exact (proj1 Hk)].
Defined.

(** ** The I/O APIC *)

(** A register file behind the index and the data register. *)
Class IoApicOk `{Bus} : Type := {
  io_reg : dev -> Z -> Z;
  io_sel : dev -> Z;
  io_select r d : io_reg (wr IOAPIC r d) = io_reg d /\ io_sel (wr IOAPIC r d) = r;
  io_write v d : forall r, io_reg (wr (IOAPIC + 16) v d) r = if r =? io_sel d then v else io_reg d r;
  io_read d : (rd (IOAPIC + 16) d).1 = io_reg d (io_sel d) /\ io_reg (rd (IOAPIC + 16) d).2 = io_reg d }.

Section IoApic.
Context `{IoApicOk}.

Definition reg (s : hw) : Z -> Z := io_reg (hw_dev s).
(** Nothing but the devices has changed. *)
Definition only_dev (s s' : hw) : Prop := hw_lapic s' = hw_lapic s /\ hw_ioapicid s' = hw_ioapicid s /\ hw_mem s' = hw_mem s /\ hw_log s' = hw_log s.

Lemma ioapicread_ok r s : 0 <= r < 2 ^ 32 -> exists s', ioapicread r s = Ret (reg s r) s' /\ reg s' = reg s /\ only_dev s s'.
Proof.
  intros Hr. unfold ioapicread. step by reflexivity. rewrite u32_small by exact Hr. unfold load, set_field. cbn [hw_dev].
  destruct (io_select r (hw_dev s)) as [H1 H2]. destruct (io_read (wr IOAPIC r (hw_dev s))) as [H3 H4]. destruct (rd (IOAPIC + 16) _) as [v d]. cbn [fst snd] in *.
  rewrite H2, H1 in H3. eexists. unfold reg. rewrite H3. split; [reflexivity|]. split; [cbn [hw_dev]; rewrite H4; exact H1 | repeat split].
Qed.
Lemma ioapicwrite_ok r v s : 0 <= r < 2 ^ 32 -> 0 <= v < 2 ^ 32 -> exists s', ioapicwrite r v s = Ret tt s' /\
  (forall x, reg s' x = if x =? r then v else reg s x) /\ only_dev s s'.
Proof.
  intros Hr Hv. unfold ioapicwrite. step by reflexivity. eexists. split; [reflexivity|]. split; [|repeat split]. intros x. unfold reg, set_field. cbn [hw_dev].
  rewrite !u32_small by assumption. rewrite io_write. destruct (io_select r (hw_dev s)) as [-> ->]. reflexivity.
Qed.

(** The two registers of interrupt [i]. *)
Definition entry_of (s : hw) (i : Z) : Z * Z := (reg s (REG_TABLE + 2 * i), reg s (REG_TABLE + 2 * i + 1)).
Lemma write_entry i lo hi s : 0 <= i < 256 -> 0 <= lo < 2 ^ 32 -> 0 <= hi < 2 ^ 32 ->
  exists s', (ioapicwrite (REG_TABLE + 2 * i) lo ;! ioapicwrite (REG_TABLE + 2 * i + 1) hi) s = Ret tt s' /\
    (forall j, entry_of s' j = if j =? i then (lo, hi) else entry_of s j) /\ (forall r, r < REG_TABLE -> reg s' r = reg s r) /\ only_dev s s'.
Proof.
  intros Hi Hlo Hhi. destruct (ioapicwrite_ok (REG_TABLE + 2 * i) lo s) as (s1 & E1 & W1 & O1); [unfold REG_TABLE; lia | exact Hlo|]. rewrite (bind_eq _ _ _ _ _ E1).
  destruct (ioapicwrite_ok (REG_TABLE + 2 * i + 1) hi s1) as (s2 & E2 & W2 & O2); [unfold REG_TABLE; lia | exact Hhi|]. exists s2. split; [exact E2|].
  split; [|split; [|unfold only_dev in *; intuition congruence]].
  - intros j. unfold entry_of. rewrite !W2, !W1. destruct (Z.eqb_spec j i) as [->|Hne].
    + rewrite !Z.eqb_refl. rewrite (proj2 (Z.eqb_neq (REG_TABLE + 2 * i) (REG_TABLE + 2 * i + 1))) by lia. reflexivity.
    + repeat rewrite (proj2 (Z.eqb_neq _ _)) by lia. reflexivity.
  - intros r Hr. rewrite W2, W1. repeat rewrite (proj2 (Z.eqb_neq _ _)) by lia. reflexivity.
Qed.

Definition masked_entry (i : Z) : Z * Z := (INT_DISABLED + T_IRQ0 + i, 0).
Lemma disabled_vector i : 0 <= i < 256 -> Z.lor INT_DISABLED (T_IRQ0 + i) = INT_DISABLED + T_IRQ0 + i.
Proof.
  intros Hi. assert (Hf : Forall (fun i => Z.lor INT_DISABLED (T_IRQ0 + i) = INT_DISABLED + T_IRQ0 + i) (seqZ 0 256)) by (apply (bool_decide_unpack _); vm_compute; exact I).
  rewrite Forall_forall in Hf. apply Hf. apply elem_of_seqZ. lia.
Qed.
Lemma mask_all l : forall s, (forall i, i ∈ l -> 0 <= i < 256) ->
  exists s', for_all l mask_irq s = Ret tt s' /\ (forall j, entry_of s' j = if bool_decide (j ∈ l) then masked_entry j else entry_of s j) /\
    (forall r, r < REG_TABLE -> reg s' r = reg s r) /\ only_dev s s'.
Proof.
  induction l as [|i l IH]; intros s Hl; cbn [for_all].
  - exists s. split; [reflexivity|]. split; [|repeat split]. intros j. rewrite bool_decide_false by apply not_elem_of_nil. reflexivity.
  - pose proof (Hl i ltac:(left)) as Hi. destruct (write_entry i (Z.lor INT_DISABLED (T_IRQ0 + i)) 0 s Hi) as (s1 & E1 & W1 & R1 & O1); [rewrite disabled_vector by exact Hi; unfold INT_DISABLED, T_IRQ0; lia | lia|].
    unfold mask_irq at 1. rewrite (bind_eq _ _ _ _ _ E1). destruct (IH s1) as (s2 & E2 & W2 & R2 & O2); [intros j Hj; apply Hl; right; exact Hj|]. exists s2. split; [exact E2|].
    split; [|split; [intros r Hr; rewrite R2 by exact Hr; apply R1; exact Hr | unfold only_dev in *; intuition congruence]].
    intros j. rewrite W2, W1. rewrite disabled_vector by exact Hi. destruct (Z.eqb_spec j i) as [->|Hne].
    + rewrite (bool_decide_true (i ∈ i :: l)) by left. destruct (bool_decide _); reflexivity.
    + assert (bool_decide (j ∈ i :: l) = bool_decide (j ∈ l)) as -> by (apply bool_decide_ext; rewrite elem_of_cons; intuition congruence). reflexivity.
Qed.

(** After ioapicinit() every interrupt line that the controller has is
    disabled, edge-triggered, active high and goes to no processor; the other
    registers are as before, and it complains exactly about another id than
    the one in the tables. *)
Theorem ioapicinit_masks s : let maxintr := Z.land (Z.shiftr (reg s REG_VER) 16) 0xFF in
  exists s', ioapicinit s = Ret tt s' /\ (forall i, entry_of s' i = if (0 <=? i) && (i <=? maxintr) then masked_entry i else entry_of s i) /\
    hw_log s' = hw_log s ++ (if Z.shiftr (reg s REG_ID) 24 =? hw_ioapicid s then [] else ["ioapicinit: id isn't equal to ioapicid; not a MP"%string]).
Proof.
  intros maxintr. assert (Hm : 0 <= maxintr < 256) by (unfold maxintr; change 0xFF with (Z.ones 8); rewrite Z.land_ones by lia; apply Z.mod_pos_bound; lia).
  unfold ioapicinit. destruct (ioapicread_ok REG_VER s) as (s1 & E1 & R1 & O1); [unfold REG_VER; lia|]. rewrite (bind_eq _ _ _ _ _ E1). fold maxintr.
  destruct (ioapicread_ok REG_ID s1) as (s2 & E2 & R2 & O2); [unfold REG_ID; lia|]. rewrite (bind_eq _ _ _ _ _ E2). step by reflexivity.
  destruct O1 as (_ & Ei1 & _ & El1). destruct O2 as (_ & Ei2 & _ & El2). rewrite R1, Ei2, Ei1.
  set (msg := if _ =? hw_ioapicid s then _ else _).
  assert (exists s3, (if negb (Z.shiftr (reg s REG_ID) 24 =? hw_ioapicid s) then cprintf "ioapicinit: id isn't equal to ioapicid; not a MP" else ret tt) s2 = Ret tt s3 /\
    reg s3 = reg s /\ hw_log s3 = hw_log s ++ msg) as (s3 & E3 & R3 & El3).
  { unfold msg. destruct (_ =? hw_ioapicid s); cbn [negb]; eexists; (split; [reflexivity|]).
    - rewrite app_nil_r. split; [rewrite R2; exact R1 | rewrite El2; exact El1].
    - split; [rewrite <- R1, <- R2; reflexivity|]. unfold set_field. cbn [hw_log]. rewrite El2, El1. reflexivity. }
  rewrite (bind_eq _ _ _ _ _ E3). destruct (mask_all (seqZ 0 (maxintr + 1)) s3) as (s4 & E4 & W4 & _ & O4); [intros i Hi%elem_of_seqZ; lia|].
  exists s4. split; [exact E4|]. split; [|destruct O4 as (_ & _ & _ & ->); exact El3]. intros i. rewrite W4. unfold entry_of. rewrite R3.
  destruct (Z.leb_spec 0 i), (Z.leb_spec i maxintr); cbn [andb]; [rewrite bool_decide_true by (apply elem_of_seqZ; lia); reflexivity|..];
    rewrite bool_decide_false by (rewrite elem_of_seqZ; lia); reflexivity.
Qed.
(** ioapicenable() routes one line, enabled, to one processor, and leaves the
    others alone. *)
Theorem ioapicenable_routes irq cpunum s (Hirq : 0 <= irq < 256) (Hcpu : 0 <= cpunum < 256) :
  exists s', ioapicenable irq cpunum s = Ret tt s' /\ forall i, entry_of s' i = if i =? irq then (T_IRQ0 + irq, cpunum * 2 ^ 24) else entry_of s i.
Proof.
  unfold ioapicenable. rewrite Z.shiftl_mul_pow2 by lia. destruct (write_entry irq (T_IRQ0 + irq) (cpunum * 2 ^ 24) s Hirq) as (s' & E & W & _); [unfold T_IRQ0; lia | lia|].
  exists s'. split; [exact E | exact W].
Qed.
End IoApic.

(** ** The local APIC *)

Definition plain (i : Z) : bool := bool_decide (i ∈ [VER; SVR; TDCR; TIMER; TICR; LINT0; LINT1; PCINT; ERROR; TPR]).
(** Configuration registers hold what is written; a command is on its way for
    at most [l_patience] reads. *)
Class LapicOk `{Bus} (base : Z) : Type := {
  l_reg : dev -> Z -> Z;
  l_wait : dev -> nat;
  l_patience : nat;
  l_bounded d : (l_wait d <= l_patience)%nat;
  l_write i v d j : plain j = true -> l_reg (wr (base + 4 * i) v d) j = if j =? i then v else l_reg d j;
  l_read i d : plain i = true -> (rd (base + 4 * i) d).1 = l_reg d i;
  l_keep i d j : l_reg (rd (base + 4 * i) d).2 j = l_reg d j;
  l_status d : bitset (rd (base + 4 * ICRLO) d).1 DELIVS = negb (bool_decide (l_wait d = 0%nat)) /\ l_wait (rd (base + 4 * ICRLO) d).2 = pred (l_wait d) }.

Section Lapic.
Context `{LapicOk}.

Definition lreg (s : hw) : Z -> Z := l_reg (hw_dev s).
(** The registers of [s'] are those of [s] but for one. *)
Definition sets (i v : Z) (s s' : hw) : Prop :=
  hw_lapic s' = hw_lapic s /\ forall j, plain j = true -> lreg s' j = if j =? i then v else lreg s j.

Lemma lapicw_ok i v s : hw_lapic s = base -> 0 <= v < 2 ^ 32 -> exists s', lapicw i v s = Ret tt s' /\ sets i v s s'.
Proof.
  intros Hb Hv. unfold lapicw. step by reflexivity. step by reflexivity. unfold lapic_read. rewrite bind_assoc. step by reflexivity. rewrite Hb. unfold set_field. cbn [hw_lapic].
  rewrite Hb. unfold load, bind. cbn [hw_dev]. rewrite u32_small by exact Hv. pose proof (l_keep ID (wr (base + 4 * i) v (hw_dev s))) as Hk.
  destruct (rd (base + 4 * ID) _) as [x d]. cbn [snd] in Hk. eexists. split; [reflexivity|]. split; [exact (eq_sym Hb)|]. intros j Hj. unfold lreg, set_field. cbn [hw_dev]. rewrite Hk. apply l_write. exact Hj.
Qed.
Lemma lapicw_then {A} (k : unit -> M hw A) i v s (Q : res hw A -> Prop) : hw_lapic s = base -> 0 <= v < 2 ^ 32 ->
  (forall s', hw_lapic s' = base -> (forall j, plain j = true -> lreg s' j = if j =? i then v else lreg s j) -> Q (k tt s')) -> Q (bind (lapicw i v) k s).
Proof. intros Hb Hv HQ. destruct (lapicw_ok i v s Hb Hv) as (s' & E & Hb' & W). rewrite (bind_eq _ _ _ _ _ E). apply HQ; [rewrite Hb'; exact Hb | exact W]. Qed.
Lemma lapic_read_ok i s : hw_lapic s = base -> plain i = true -> exists s', lapic_read i s = Ret (lreg s i) s' /\ hw_lapic s' = base /\ forall j, lreg s' j = lreg s j.
Proof.
  intros Hb Hi. unfold lapic_read. step by reflexivity. rewrite Hb. unfold load. pose proof (l_read i (hw_dev s) Hi) as Hr. pose proof (l_keep i (hw_dev s)) as Hk.
  destruct (rd _ _) as [v d]. cbn [fst snd] in *. eexists. unfold lreg. rewrite Hr. split; [reflexivity|]. split; [exact Hb | exact Hk].
Qed.
Lemma wait_delivery_ok fuel : forall s, hw_lapic s = base -> (l_wait (hw_dev s) < fuel)%nat ->
  exists s', wait_delivery fuel s = Ret tt s' /\ hw_lapic s' = base /\ forall j, lreg s' j = lreg s j.
Proof.
  induction fuel as [|fuel IH]; intros s Hb Hf; [lia|]. cbn [wait_delivery]. unfold lapic_read. rewrite bind_assoc. step by reflexivity. rewrite Hb.
  destruct (l_status (hw_dev s)) as [Hs Hw]. pose proof (l_keep ICRLO (hw_dev s)) as Hk. unfold load, bind. destruct (rd _ _) as [v d]. cbn [fst snd] in *. rewrite Hs.
  set (s1 := s <| hw_dev := d |>). assert (hw_lapic s1 = base /\ (forall j, lreg s1 j = lreg s j)) as [Hb1 Hr1] by (split; [exact Hb | exact Hk]).
  destruct (decide (l_wait (hw_dev s) = 0%nat)) as [Hz|Hz].
  - rewrite bool_decide_true by exact Hz. exists s1. split; [reflexivity|]. split; assumption.
  - rewrite bool_decide_false by exact Hz. destruct (IH s1 Hb1) as (s2 & E2 & Hb2 & Hr2); [change (hw_dev s1) with d; lia|]. exists s2. split; [exact E2|]. split; [exact Hb2|].
    intros j. rewrite Hr2. apply Hr1.
Qed.

(** What lapicinit() leaves in the configuration registers. *)
Definition configured (version : Z) (old : Z -> Z) (i : Z) : Z :=
  if i =? SVR then 0x13f else if i =? TDCR then 0xb else if i =? TIMER then 0x20020 else if i =? TICR then 10000000
  else if (i =? LINT0) || (i =? LINT1) then 0x10000 else if i =? ERROR then 51 else if i =? TPR then 0
  else if (i =? PCINT) && (4 <=? Z.land (Z.shiftr version 16) 0xFF) then 0x10000 else old i.

Ltac plain_cases Hi := unfold plain in Hi; apply bool_decide_eq_true_1 in Hi; repeat (apply elem_of_cons in Hi as [->|Hi]; [|]); [..|apply elem_of_nil in Hi; destruct Hi].

(** Past one write of a constant. *)
Ltac next_write s B W :=
  apply lapicw_then; [assumption | vm_compute; split; [discriminate | reflexivity]|]; intros s B W.

(** lapicinit() ends with the unit enabled, the timer periodic on vector 32,
    the two lines masked and the performance counter masked exactly where the
    chip has one. *)
Theorem lapicinit_configures fuel s (Hb : hw_lapic s = base) (Hne : base <> 0) (Hf : (l_patience < fuel)%nat) :
  exists s', lapicinit fuel s = Ret tt s' /\ forall i, plain i = true -> lreg s' i = configured (lreg s VER) (lreg s) i.
Proof.
  set (Q := fun r : res hw unit => exists s', r = Ret tt s' /\ forall i, plain i = true -> lreg s' i = configured (lreg s VER) (lreg s) i). change (Q (lapicinit fuel s)).
  unfold lapicinit. rewrite bind_get, Hb. rewrite (proj2 (Z.eqb_neq _ _) Hne).
  next_write s1 B1 W1.
  next_write s2 B2 W2.
  next_write s3 B3 W3.
  next_write s4 B4 W4.
  next_write s5 B5 W5.
  next_write s6 B6 W6.
  destruct (lapic_read_ok VER s6 B6 eq_refl) as (s7 & E7 & B7 & R7). rewrite (bind_eq _ _ _ _ _ E7).
  assert (Ev : lreg s6 VER = lreg s VER) by (rewrite W6, W5, W4, W3, W2, W1 by reflexivity; reflexivity). rewrite Ev. set (has := 4 <=? _).
  assert (exists s8, (if has then lapicw PCINT MASKED else ret tt) s7 = Ret tt s8 /\ hw_lapic s8 = base /\ forall j, plain j = true -> lreg s8 j = if has && (j =? PCINT) then MASKED else lreg s7 j) as (s8 & E8 & B8 & W8).
  { destruct has; [|exists s7; auto]. destruct (lapicw_ok PCINT MASKED s7 B7) as (s8 & E8 & B8 & W8); [vm_compute; split; [discriminate | reflexivity]|]. exists s8. split; [exact E8|]. split; [rewrite B8; exact B7 | exact W8]. }
  rewrite (bind_eq _ _ _ _ _ E8).
  next_write s9 B9 W9.
  next_write s10 B10 W10.
  next_write s11 B11 W11.
  next_write s12 B12 W12.
  next_write s13 B13 W13.
  next_write s14 B14 W14.
  destruct (wait_delivery_ok fuel s14 B14) as (s15 & E15 & B15 & R15); [pose proof (l_bounded (hw_dev s14)); lia|]. rewrite (bind_eq _ _ _ _ _ E15).
  destruct (lapicw_ok TPR 0 s15 B15) as (s16 & E16 & _ & W16); [lia|]. exists s16. split; [exact E16|].
  intros i Hi. rewrite W16, R15, W14, W13, W12, W11, W10, W9, W8, R7, W6, W5, W4, W3, W2, W1 by exact Hi. unfold configured. fold has.
  plain_cases Hi; try reflexivity; destruct has; reflexivity.
Qed.
End Lapic.

(** ** The memory of JOS *)

(** The size in kilobytes of two registers of the NVRAM. *)
Definition nv_word (nv : Z -> Z) (r : Z) : Z := nv r + 2 ^ 8 * nv (r + 1).
Lemma low_high lo hi : 0 <= lo < 256 -> 0 <= hi < 256 -> Z.land lo (Z.shiftl hi 8) = 0.
Proof.
  intros Hlo Hhi. apply Z.bits_inj'. intros i Hi. rewrite Z.land_spec, Z.bits_0. destruct (decide (i < 8)) as [Hlt|Hge].
  - rewrite Z.shiftl_spec_low by exact Hlt. apply andb_false_r.
  - rewrite <- (Z.mod_small lo (2 ^ 8)) by (change (2 ^ 8) with 256; lia). rewrite Z.mod_pow2_bits_high by lia. reflexivity.
Qed.
Section Detect.
Context `{R : Rtc}.
Variable nv : Z -> Z.
Hypothesis Hnv : forall n r, clk n r = nv r.
Hypothesis Hbyte : forall r, 0 <= nv r < 256.

Lemma nvram_read_ok r s : 0 <= r < 255 -> exists s', nvram_read r s = Ret (nv_word nv r) s'.
Proof.
  intros Hr. unfold nvram_read. destruct (cmos_read_ok r s) as (s1 & E1 & _); [lia|]. destruct (cmos_read_ok (r + 1) s1) as (s2 & E2 & _); [lia|].
  change (mc146818_read r) with (cmos_read r). change (mc146818_read (r + 1)) with (cmos_read (r + 1)). rewrite (bind_eq _ _ _ _ _ E1), (bind_eq _ _ _ _ _ E2). exists s2. unfold ret. f_equal.
  rewrite !Hnv. unfold nv_word. rewrite Z.mul_comm, <- Z.shiftl_mul_pow2 by lia. rewrite <- Z.lxor_lor, <- Z.add_nocarry_lxor; [reflexivity|..]; apply low_high; apply Hbyte.
Qed.

(** i386_detect_memory() counts the pages of the memory that the registers
    report: above 16MB if there is any, else above 1MB if there is any. *)
Theorem detect_memory_counts s : let base := nv_word nv NVRAM_BASELO in let ext := nv_word nv NVRAM_EXTLO in let ext16 := nv_word nv NVRAM_EXT16LO in
  exists s', i386_detect_memory s = Ret ((if negb (ext16 =? 0) then 16384 + 64 * ext16 else if negb (ext =? 0) then 1024 + ext else base) / 4, base / 4) s'.
Proof.
  intros base ext ext16. unfold i386_detect_memory. destruct (nvram_read_ok NVRAM_BASELO s) as (s1 & E1); [unfold NVRAM_BASELO; lia|]. rewrite (bind_eq _ _ _ _ _ E1).
  destruct (nvram_read_ok NVRAM_EXTLO s1) as (s2 & E2); [unfold NVRAM_EXTLO; lia|]. rewrite (bind_eq _ _ _ _ _ E2).
  destruct (nvram_read_ok NVRAM_EXT16LO s2) as (s3 & E3); [unfold NVRAM_EXT16LO; lia|]. rewrite (bind_eq _ _ _ _ _ E3). exists s3. fold base ext ext16. unfold ret. f_equal. f_equal. f_equal.
  assert (Hr : 0 <= ext16 < 2 ^ 16) by (unfold ext16, nv_word; pose proof (Hbyte NVRAM_EXT16LO); pose proof (Hbyte (NVRAM_EXT16LO + 1)); lia).
  rewrite !(u32_small (ext16 * 64)) by lia. rewrite u32_small by lia. destruct (Z.eqb_spec ext16 0) as [->|Hne]; [reflexivity|]. rewrite (proj2 (Z.eqb_neq _ _)) by lia. cbn [negb]. lia.
Qed.
End Detect.
