(* ===== verification/Vm.v ===== *)
(** * Page tables

    [src/homeworks/xv6-public/vm.c]: two-level page tables in the memory of
    [Kalloc.v].  Pointers are kernel virtual addresses, 0 is the null
    pointer; following a null pointer is [Faulted].  The proofs are in
    [VmProofs.v]. *)
From S2P Require Import Prelude.
From S2P Require Import CString.
From S2P Require Import Kalloc.

Definition NPDENTRIES : Z := 1024.
Definition PTE_P : Z := 1.
Definition PTE_W : Z := 2.
Definition PTE_U : Z := 4.

Definition PDX (va : Z) : Z := Z.land (Z.shiftr (u32 va) 22) 0x3FF.
Definition PTX (va : Z) : Z := Z.land (Z.shiftr (u32 va) 12) 0x3FF.
Definition PGADDR (d t o : Z) : Z := u32 (Z.lor (Z.lor (Z.shiftl d 22) (Z.shiftl t 12)) o).
Definition PTE_ADDR (pte : Z) : Z := Z.land (u32 pte) (u32 (Z.lnot 0xFFF)).
Definition PTE_FLAGS (pte : Z) : Z := Z.land (u32 pte) 0xFFF.

Section Code.
Context `{Ctx} `{Linked}.

(** [*p] and [*p = v] for a pointer that may be null. *)
Definition load_ptr (p : Z) : M kmem Z := if p =? 0 then halt Faulted else load p.
Definition store_ptr (p v : Z) : M kmem unit :=
  if p =? 0 then halt Faulted else on_mem (fun m => store32 m p v).
(** memset() and memmove() through a pointer that may be null. *)
Definition mem_set (p c n : Z) : M kmem unit :=
  if p =? 0 then halt Faulted else on_mem (fun m => memset m p c n).
Definition mem_move (dst src n : Z) : M kmem unit :=
  if dst =? 0 then halt Faulted else on_mem (fun m => memmove m dst src n).

Definition walkpgdir (pgdir va : Z) (alloc : bool) : M kmem Z :=
  let pde := pgdir + 4 * PDX va in
  let! e := load pde in
  if bitset e PTE_P then ret (P2V (PTE_ADDR e) + 4 * PTX va)
  else if negb alloc then ret 0 else
    let! pgtab := kalloc in
    if pgtab =? 0 then ret 0 else
      (* Make sure all those PTE_P bits are zero. *)
      mem_set pgtab 0 PGSIZE ;!
      store_ptr pde (Z.lor (Z.lor (Z.lor (V2P pgtab) PTE_P) PTE_W) PTE_U) ;!
      ret (pgtab + 4 * PTX va).

(** The loop of mappages(); [fuel] is the number of pages left. *)
Fixpoint mappages_loop (fuel : nat) (pgdir a last pa perm : Z) : M kmem Z :=
  match fuel with
  | O => halt NoFuel
  | S fuel' =>
      let! pte := walkpgdir pgdir a true in
      if pte =? 0 then ret (-1) else
      let! e := load_ptr pte in
      panic_if (bitset e PTE_P) "remap" ;!
      store_ptr pte (Z.lor (Z.lor pa perm) PTE_P) ;!
      if a =? last then ret 0
      else mappages_loop fuel' pgdir (u32 (a + PGSIZE)) last (u32 (pa + PGSIZE)) perm
  end.
Definition mappages (pgdir va size pa perm : Z) : M kmem Z :=
  let a := PGROUNDDOWN va in
  let last := PGROUNDDOWN (u32 (va + size - 1)) in
  mappages_loop (Z.to_nat (u32 (last - a) / PGSIZE + 1)) pgdir a last pa perm.

(** [static struct kmap kmap[]]: virt, phys_start, phys_end, perm. *)
Definition kmap : list (Z * Z * Z * Z) :=
  [ (KERNBASE, 0, EXTMEM, PTE_W);
    (KERNLINK, V2P KERNLINK, V2P kernel_data, 0);
    (kernel_data, V2P kernel_data, PHYSTOP, PTE_W);
    (DEVSPACE, DEVSPACE, 0, PTE_W) ].

(** [for(; a < oldsz; a += PGSIZE)] of deallocuvm(). *)
Fixpoint deallocuvm_loop (fuel : nat) (pgdir a oldsz : Z) : M kmem unit :=
  if a <? oldsz then
    match fuel with
    | O => halt NoFuel
    | S fuel' =>
        let! pte := walkpgdir pgdir a false in
        if pte =? 0 then
          deallocuvm_loop fuel' pgdir (u32 (u32 (PGADDR (PDX a + 1) 0 0 - PGSIZE) + PGSIZE)) oldsz
        else
          let! e := load_ptr pte in
          (if bitset e PTE_P then
             let pa := PTE_ADDR e in
             panic_if (pa =? 0) "kfree" ;!
             kfree (P2V pa) ;!
             store_ptr pte 0
           else ret tt) ;!
          deallocuvm_loop fuel' pgdir (u32 (a + PGSIZE)) oldsz
    end
  else ret tt.
Definition deallocuvm (pgdir oldsz newsz : Z) : M kmem Z :=
  if oldsz <=? newsz then ret oldsz else
  let a := PGROUNDUP newsz in
  deallocuvm_loop (Z.to_nat ((oldsz - a) / PGSIZE + 1)) pgdir a oldsz ;!
  ret newsz.

Definition freevm (pgdir : Z) : M kmem unit :=
  panic_if (pgdir =? 0) "freevm: no pgdir" ;!
  let! _ := deallocuvm pgdir KERNBASE 0 in
  for_all (seqZ 0 NPDENTRIES) (fun i =>
    let! e := load (pgdir + 4 * i) in
    if bitset e PTE_P then kfree (P2V (PTE_ADDR e)) else ret tt) ;!
  kfree pgdir.

Definition setupkvm : M kmem Z :=
  let! pgdir := kalloc in
  if pgdir =? 0 then ret 0 else
  mem_set pgdir 0 PGSIZE ;!
  panic_if (DEVSPACE <? P2V PHYSTOP) "PHYSTOP too high" ;!
  let! failed := for_each kmap (fun k =>
    let '(virt, phys_start, phys_end, perm) := k in
    let! r := mappages pgdir virt (u32 (phys_end - phys_start)) phys_start perm in
    if r <? 0 then freevm pgdir ;! ret (Some tt) else ret None) in
  match failed with
  | Some _ => ret 0
  | None => ret pgdir
  end.

(** sz must be less than a page; [init] is the address of the code. *)
Definition inituvm (pgdir init sz : Z) : M kmem unit :=
  panic_if (PGSIZE <=? sz) "inituvm: more than a page" ;!
  let! m := kalloc in
  mem_set m 0 PGSIZE ;!
  let! _ := mappages pgdir 0 PGSIZE (V2P m) (Z.lor PTE_W PTE_U) in
  mem_move m init sz.

(** The loop of loaduvm(): it also reads the file system, which [S] holds
    beside the memory; [readi] reads [n] bytes of the file at [off] to an
    address. *)
Fixpoint loaduvm_loop {S} (in_mem : forall A, M kmem A -> M S A) (readi : Z -> Z -> Z -> M S Z) (fuel : nat)
    (pgdir addr offset sz i : Z) : M S Z :=
  if i <? sz then
    match fuel with
    | O => halt NoFuel
    | Datatypes.S fuel' =>
        let! pte := in_mem _ (walkpgdir pgdir (u32 (addr + i)) false) in
        panic_if (pte =? 0) "loaduvm: address should exist" ;!
        let! e := in_mem _ (load_ptr pte) in
        let pa := PTE_ADDR e in
        let n := if sz - i <? PGSIZE then sz - i else PGSIZE in
        let! r := readi (P2V pa) (u32 (offset + i)) n in
        if negb (u32 r =? n) then ret (-1)
        else loaduvm_loop in_mem readi fuel' pgdir addr offset sz (u32 (i + PGSIZE))
    end
  else ret 0.
Definition loaduvm {S} (in_mem : forall A, M kmem A -> M S A) (readi : Z -> Z -> Z -> M S Z)
    (pgdir addr offset sz : Z) : M S Z :=
  panic_if (negb (u32 addr mod PGSIZE =? 0)) "loaduvm: addr must be page aligned" ;!
  loaduvm_loop in_mem readi (Z.to_nat (sz / PGSIZE + 1)) pgdir addr offset sz 0.

Fixpoint allocuvm_loop (fuel : nat) (pgdir a oldsz newsz : Z) : M kmem Z :=
  if a <? newsz then
    match fuel with
    | O => halt NoFuel
    | S fuel' =>
        let! m := kalloc in
        if m =? 0 then
          let! _ := deallocuvm pgdir newsz oldsz in
          ret 0
        else
          mem_set m 0 PGSIZE ;!
          let! r := mappages pgdir a PGSIZE (V2P m) (Z.lor PTE_W PTE_U) in
          if r <? 0 then
            let! _ := deallocuvm pgdir newsz oldsz in
            kfree m ;!
            ret 0
          else allocuvm_loop fuel' pgdir (u32 (a + PGSIZE)) oldsz newsz
    end
  else ret newsz.
Definition allocuvm (pgdir oldsz newsz : Z) : M kmem Z :=
  if KERNBASE <=? newsz then ret 0
  else if newsz <? oldsz then ret oldsz
  else
    let a := PGROUNDUP oldsz in
    allocuvm_loop (Z.to_nat ((newsz - a) / PGSIZE + 1)) pgdir a oldsz newsz.

Definition clearpteu (pgdir uva : Z) : M kmem unit :=
  let! pte := walkpgdir pgdir uva false in
  panic_if (pte =? 0) "clearpteu" ;!
  let! e := load_ptr pte in
  store_ptr pte (Z.land e (u32 (Z.lnot PTE_U))).

(** The loop of copyuvm(); false is [goto bad]. *)
Fixpoint copyuvm_loop (fuel : nat) (pgdir d i sz : Z) : M kmem bool :=
  if i <? sz then
    match fuel with
    | O => halt NoFuel
    | S fuel' =>
        let! pte := walkpgdir pgdir i false in
        panic_if (pte =? 0) "copyuvm: pte should exist" ;!
        let! e := load_ptr pte in
        panic_if (negb (bitset e PTE_P)) "copyuvm: page not present" ;!
        let pa := PTE_ADDR e in
        let flags := PTE_FLAGS e in
        let! m := kalloc in
        if m =? 0 then ret false else
        mem_move m (P2V pa) PGSIZE ;!
        let! r := mappages d i PGSIZE (V2P m) flags in
        if r <? 0 then kfree m ;! ret false
        else copyuvm_loop fuel' pgdir d (u32 (i + PGSIZE)) sz
    end
  else ret true.
Definition copyuvm (pgdir sz : Z) : M kmem Z :=
  let! d := setupkvm in
  if d =? 0 then ret 0 else
  let! ok := copyuvm_loop (Z.to_nat (sz / PGSIZE + 1)) pgdir d 0 sz in
  if ok : bool then ret d else freevm d ;! ret 0.

Definition uva2ka (pgdir uva : Z) : M kmem Z :=
  let! pte := walkpgdir pgdir uva false in
  let! e := load_ptr pte in
  if negb (bitset e PTE_P) then ret 0
  else if negb (bitset e PTE_U) then ret 0
  else ret (P2V (PTE_ADDR e)).

(** copyout(); [p] is the address of the bytes to copy. *)
Fixpoint copyout_loop (fuel : nat) (pgdir va buf len : Z) : M kmem Z :=
  if 0 <? len then
    match fuel with
    | O => halt NoFuel
    | S fuel' =>
        let va0 := PGROUNDDOWN va in
        let! pa0 := uva2ka pgdir va0 in
        if pa0 =? 0 then ret (-1) else
        let n := PGSIZE - (va - va0) in
        let n := if len <? n then len else n in
        mem_move (pa0 + (va - va0)) buf n ;!
        copyout_loop fuel' pgdir (u32 (va0 + PGSIZE)) (buf + n) (len - n)
    end
  else ret 0.
Definition copyout (pgdir va p len : Z) : M kmem Z :=
  copyout_loop (Z.to_nat (len / PGSIZE + 2)) pgdir va p len.
End Code.
