(* ===== verification/VmProofs.v ===== *)
(** * Page tables: correctness of the walk and of mappages()

    A page directory in memory denotes a partial map from virtual addresses
    to page table entries.  walkpgdir() does not change it, and mappages()
    adds exactly the requested pages. *)
From S2P Require Import Prelude.
From S2P Require Import CString.
From S2P Require Import Kalloc.
From S2P Require Import Vm.

(** ** Page table entries as numbers *)

Lemma lor_add a f k : 0 <= k -> a mod 2 ^ k = 0 -> 0 <= f < 2 ^ k -> Z.lor a f = a + f.
Proof.
  intros Hk Ha Hf. rewrite <- Z.lxor_lor, <- Z.add_nocarry_lxor; [reflexivity| |].
  all: apply Z.bits_inj'; intros i Hi; rewrite Z.land_spec, Z.bits_0;
    destruct (Z.ltb_spec i k) as [H|H].
  1,3: replace (Z.testbit a i) with false; [reflexivity|];
    symmetry; rewrite <- (Z.mod_pow2_bits_low a k i) by lia; rewrite Ha; apply Z.bits_0.
  all: replace (Z.testbit f i) with false; [apply andb_false_r|];
    symmetry; rewrite <- (Z.mod_small f (2 ^ k)) by lia; apply Z.mod_pow2_bits_high; lia.
Qed.

Lemma PTE_ADDR_eq e : 0 <= e < 2 ^ 32 -> PTE_ADDR e = e / PGSIZE * PGSIZE.
Proof.
  intros He. unfold PTE_ADDR, u32 at 1. rewrite Z.mod_small by lia.
  exact (land_page_mask e He).
Qed.
Lemma bitset_P e : 0 <= e -> bitset e PTE_P = negb (e mod 2 =? 0).
Proof.
  intros He. unfold bitset, PTE_P. change 1 with (Z.ones 1). rewrite Z.land_ones by lia. reflexivity.
Qed.

(** An entry made of an aligned address and flags. *)
Lemma PTE_ADDR_make a f : a mod PGSIZE = 0 -> 0 <= a < 2 ^ 32 -> 0 <= f < PGSIZE ->
  PTE_ADDR (a + f) = a.
Proof.
  intros Ha Hr Hf. unfold PGSIZE in *.
  rewrite PTE_ADDR_eq; unfold PGSIZE; Z.div_mod_to_equations; lia.
Qed.

Lemma PDX_eq va : 0 <= va < 2 ^ 32 -> PDX va = va / 2 ^ 22.
Proof.
  intros H. unfold PDX, u32. rewrite Z.mod_small by lia. change 0x3FF with (Z.ones 10).
  rewrite Z.land_ones, Z.shiftr_div_pow2 by lia. apply Z.mod_small.
  split; [apply Z.div_pos; lia | apply Z.div_lt_upper_bound; lia].
Qed.
Lemma PTX_eq va : 0 <= va < 2 ^ 32 -> PTX va = va / 2 ^ 12 mod 2 ^ 10.
Proof.
  intros H. unfold PTX, u32. rewrite Z.mod_small by lia. change 0x3FF with (Z.ones 10).
  rewrite Z.land_ones, Z.shiftr_div_pow2 by lia. reflexivity.
Qed.
Lemma PDX_range va : 0 <= PDX va < 1024.
Proof.
  unfold PDX. change 0x3FF with (Z.ones 10). rewrite Z.land_ones by lia.
  change 1024 with (2 ^ 10). apply Z.mod_pos_bound. lia.
Qed.
Lemma PTX_range va : 0 <= PTX va < 1024.
Proof.
  unfold PTX. change 0x3FF with (Z.ones 10). rewrite Z.land_ones by lia.
  change 1024 with (2 ^ 10). apply Z.mod_pos_bound. lia.
Qed.
Lemma same_page va vb : 0 <= va < 2 ^ 32 -> 0 <= vb < 2 ^ 32 ->
  (PDX va = PDX vb /\ PTX va = PTX vb) <-> va / PGSIZE = vb / PGSIZE.
Proof.
  intros Ha Hb. rewrite !PDX_eq, !PTX_eq by assumption. unfold PGSIZE.
  change (2 ^ 22) with 4194304. change (2 ^ 12) with 4096. change (2 ^ 10) with 1024.
  split; intros; Z.div_mod_to_equations; lia.
Qed.

(** ** What a page directory denotes *)

(** Page table number [i] of the directory. *)
Definition table_at (m : mem) (pgdir i : Z) : option Z :=
  let e := load32 m (pgdir + 4 * i) in
  if bitset e PTE_P then Some (P2V (PTE_ADDR e)) else None.

(** The present entry for an address. *)
Definition maps (m : mem) (pgdir va : Z) : option Z :=
  t ← table_at m pgdir (PDX va);
  let e := load32 m (t + 4 * PTX va) in
  if bitset e PTE_P then Some e else None.

(** The page tables of a directory. *)
Definition dir_index : list Z := seqZ 0 NPDENTRIES.
Definition tables (m : mem) (pgdir : Z) : list Z := omap (table_at m pgdir) dir_index.

Lemma elem_of_dir i : i ∈ dir_index <-> 0 <= i < 1024.
Proof. unfold dir_index. rewrite elem_of_seqZ. reflexivity. Qed.
Lemma NoDup_dir : NoDup dir_index.
Proof. apply NoDup_seqZ. Qed.
#[global] Opaque dir_index.

Lemma tables_ext m m' pgdir :
  (forall i, 0 <= i < 1024 -> table_at m' pgdir i = table_at m pgdir i) -> tables m' pgdir = tables m pgdir.
Proof. intros He. apply omap_ext_in. intros i Hi%elem_of_dir. apply He. exact Hi. Qed.
Lemma tables_add m m' pgdir i v : 0 <= i < 1024 -> table_at m pgdir i = None ->
  table_at m' pgdir i = Some v ->
  (forall j, 0 <= j < 1024 -> j <> i -> table_at m' pgdir j = table_at m pgdir j) ->
  tables m' pgdir ≡ₚ v :: tables m pgdir.
Proof.
  intros Hi Hn Hv He. apply omap_perm_cons with (x := i); auto using NoDup_dir.
  - apply elem_of_dir. exact Hi.
  - intros j Hj%elem_of_dir. apply He. exact Hj.
Qed.
Lemma elem_of_tables m pgdir t :
  t ∈ tables m pgdir <-> exists i, 0 <= i < 1024 /\ table_at m pgdir i = Some t.
Proof.
  unfold tables. rewrite list_elem_of_omap. split; intros (i & Hi & E); exists i; (split; [|exact E]);
    apply elem_of_dir; exact Hi.
Qed.

Section Proofs.
Context `{Ctx} `{Linked}.
Implicit Types (k : kmem) (m : mem) (l : list Z).

(** The directory and its tables are pages of their own. *)
Record vm_ok k (pgdir : Z) l : Prop := {
  v_kmem : kmem_ok k l;
  v_dir : page_ok pgdir /\ pgdir ∉ l;
  v_tab : forall i t, 0 <= i < 1024 -> table_at (km_mem k) pgdir i = Some t ->
    page_ok t /\ t <> pgdir /\ t ∉ l;
  v_inj : forall i j t, 0 <= i < 1024 -> 0 <= j < 1024 ->
    table_at (km_mem k) pgdir i = Some t -> table_at (km_mem k) pgdir j = Some t -> i = j }.

Lemma P2V_V2P v : page_ok v -> V2P v mod PGSIZE = 0 /\ 0 <= V2P v < 2 ^ 32 /\ P2V (V2P v) = v.
Proof.
  intros (Hv & _ & Hk & Hp). unfold V2P, P2V, u32, KERNBASE, PHYSTOP, PGSIZE in *.
  rewrite (Z.mod_small (v - _)) by lia. split; [|split; [lia|]].
  - Z.div_mod_to_equations. lia.
  - rewrite Z.mod_small; lia.
Qed.

(** The entry walkpgdir() makes for a new table. *)
Lemma new_pde v : page_ok v ->
  let e := Z.lor (Z.lor (Z.lor (V2P v) PTE_P) PTE_W) PTE_U in
  u32 e = e /\ bitset e PTE_P = true /\ P2V (PTE_ADDR e) = v.
Proof.
  intros Hv. destruct (P2V_V2P v Hv) as (Ha & Hr & Ev). cbv zeta.
  rewrite <- !Z.lor_assoc. change (Z.lor PTE_P (Z.lor PTE_W PTE_U)) with 7.
  rewrite (lor_add (V2P v) 7 12) by (try exact Ha; lia). unfold PGSIZE in *.
  assert (V2P v + 7 < 2 ^ 32) as Hlt by (Z.div_mod_to_equations; lia).
  split; [unfold u32; apply Z.mod_small; lia|]. split.
  - rewrite bitset_P by lia. apply negb_true_iff, Z.eqb_neq. Z.div_mod_to_equations. lia.
  - rewrite PTE_ADDR_make; unfold PGSIZE; auto; lia.
Qed.

(** Words of two different pages do not overlap. *)
Lemma word_apart v w i j : page_ok v -> page_ok w -> v <> w -> 0 <= i < 1024 -> 0 <= j < 1024 ->
  v + 4 * i + 4 <= w + 4 * j \/ w + 4 * j + 4 <= v + 4 * i.
Proof. intros Hv Hw Hne Hi Hj. destruct (pages_apart v w Hv Hw Hne); unfold PGSIZE in *; lia. Qed.
Lemma word_in v i : 0 <= i < 1024 -> v <= v + 4 * i /\ v + 4 * i + 4 <= v + PGSIZE.
Proof. unfold PGSIZE. lia. Qed.

(** A change outside the directory and its tables keeps what it denotes. *)
Lemma maps_ext m m' pgdir :
  (forall i, 0 <= i < 1024 -> table_at m' pgdir i = table_at m pgdir i) ->
  (forall i t j, 0 <= i < 1024 -> 0 <= j < 1024 -> table_at m pgdir i = Some t ->
     load32 m' (t + 4 * j) = load32 m (t + 4 * j)) ->
  forall va, maps m' pgdir va = maps m pgdir va.
Proof.
  intros Ht Hl va. unfold maps. rewrite Ht by apply PDX_range.
  destruct (table_at m pgdir (PDX va)) as [t|] eqn:E; cbn; [|reflexivity].
  rewrite (Hl _ _ _ (PDX_range va) (PTX_range va) E). reflexivity.
Qed.

(** *** walkpgdir() *)

Lemma walk_noalloc k pgdir va :
  walkpgdir pgdir va false k =
    Ret (match table_at (km_mem k) pgdir (PDX va) with Some t => t + 4 * PTX va | None => 0 end) k.
Proof.
  unfold walkpgdir, table_at. step by reflexivity. destruct (bitset _ PTE_P); reflexivity.
Qed.

Lemma walk_present k pgdir va t : table_at (km_mem k) pgdir (PDX va) = Some t ->
  walkpgdir pgdir va true k = Ret (t + 4 * PTX va) k.
Proof.
  intros Ht. unfold walkpgdir, table_at in *. step by reflexivity.
  destruct (bitset _ PTE_P); [|discriminate]. injection Ht as <-. reflexivity.
Qed.

(** The state after a new table has been hung into the directory. *)
Definition with_table k (pgdir va v : Z) : mem :=
  store32 (memset (km_mem k) v 0 PGSIZE) (pgdir + 4 * PDX va)
    (Z.lor (Z.lor (Z.lor (V2P v) PTE_P) PTE_W) PTE_U).

Lemma walk_new k pgdir va v l : vm_ok k pgdir (v :: l) ->
  table_at (km_mem k) pgdir (PDX va) = None ->
  exists k', walkpgdir pgdir va true k = Ret (v + 4 * PTX va) k' /\
    km_mem k' = with_table k pgdir va v /\ km_lock k' = None /\ chain (km_mem k) (km_freelist k') l.
Proof.
  intros [Hk [Hd _] _ _] Ht. pose proof (kalloc_eq k (v :: l) Hk) as (k1 & E1 & K1 & _ & M1).
  assert (page_ok v) as Hv by (destruct Hk as [_ _ Hp _ _]; apply Forall_cons in Hp; apply Hp).
  assert (0 < v /\ 0 < pgdir) as [Hv0 Hd0] by (unfold page_ok, KERNBASE in *; lia).
  pose proof (PDX_range va) as Hx.
  eexists. split; [|split; [|split]].
  - unfold walkpgdir, table_at in *. step by reflexivity. destruct (bitset _ PTE_P); [discriminate|].
    cbn [negb]. step by (exact E1). rewrite (proj2 (Z.eqb_neq v 0)) by lia.
    unfold mem_set. rewrite (proj2 (Z.eqb_neq v 0)) by lia. step by reflexivity.
    unfold store_ptr. rewrite (proj2 (Z.eqb_neq (pgdir + 4 * PDX va) 0)) by lia.
    step by reflexivity. reflexivity.
  - unfold with_table, set_field. cbn [km_mem]. rewrite M1. reflexivity.
  - unfold set_field. cbn [km_lock]. apply K1.
  - unfold set_field. cbn [km_freelist]. rewrite <- M1. apply K1.
Qed.

Section WithTable.
Context (k : kmem) (pgdir va v : Z) (l : list Z).
Context (Hok : vm_ok k pgdir (v :: l)) (Hnone : table_at (km_mem k) pgdir (PDX va) = None).

Lemma new_page : page_ok v /\ page_ok pgdir /\ v <> pgdir /\ v ∉ l.
Proof.
  destruct Hok as [[_ _ Hp Hnd _] [Hd Hn] _ _]. apply Forall_cons in Hp as [Hv _].
  apply NoDup_cons in Hnd as [Hvl _]. split_and!; auto. set_solver.
Qed.

Lemma with_table_off x : (forall y, x = y -> off_page pgdir y) -> off_page v x ->
  with_table k pgdir va v x = km_mem k x.
Proof.
  intros Hd Hv. specialize (Hd x eq_refl). pose proof (PDX_range va). unfold with_table, off_page, PGSIZE in *.
  rewrite store32_other by lia. rewrite memset_lookup by lia.
  destruct (Z.leb_spec v x), (Z.ltb_spec x (v + 4096)); try reflexivity; lia.
Qed.

(** Words of the directory. *)
Lemma with_table_dir j : 0 <= j < 1024 ->
  load32 (with_table k pgdir va v) (pgdir + 4 * j) =
    if decide (j = PDX va) then Z.lor (Z.lor (Z.lor (V2P v) PTE_P) PTE_W) PTE_U
    else load32 (km_mem k) (pgdir + 4 * j).
Proof.
  intros Hj. destruct new_page as (Hv & Hd & Hne & _). unfold with_table.
  destruct (decide (j = PDX va)) as [->|Hj'].
  - rewrite load32_store32. apply (new_pde v Hv).
  - rewrite load32_store32_ne by lia. apply load32_ext. intros x Hx.
    rewrite memset_lookup by (unfold PGSIZE; lia).
    destruct (pages_apart v pgdir Hv Hd Hne); unfold PGSIZE in *;
      destruct (Z.leb_spec v x), (Z.ltb_spec x (v + 4096)); try reflexivity; lia.
Qed.

Lemma with_table_at j : 0 <= j < 1024 ->
  table_at (with_table k pgdir va v) pgdir j =
    if decide (j = PDX va) then Some v else table_at (km_mem k) pgdir j.
Proof.
  intros Hj. unfold table_at. rewrite with_table_dir by exact Hj.
  destruct (decide _); [|reflexivity]. destruct new_page as (Hv & _).
  destruct (new_pde v Hv) as (_ & -> & ->). reflexivity.
Qed.

(** Words of a page other than the directory and the new table. *)
Lemma with_table_page w j : page_ok w -> w <> pgdir -> w <> v -> 0 <= j < 1024 ->
  load32 (with_table k pgdir va v) (w + 4 * j) = load32 (km_mem k) (w + 4 * j).
Proof.
  intros Hw H1 H2 Hj. destruct new_page as (Hv & Hd & _). pose proof (word_in w j Hj).
  apply load32_ext. intros x Hx. apply with_table_off.
  - intros y <-. destruct (pages_apart pgdir w Hd Hw ltac:(congruence)); unfold off_page; lia.
  - destruct (pages_apart v w Hv Hw ltac:(congruence)); unfold off_page; lia.
Qed.

Lemma with_table_new j : 0 <= j < 1024 -> load32 (with_table k pgdir va v) (v + 4 * j) = 0.
Proof.
  intros Hj. destruct new_page as (Hv & Hd & Hne & _). unfold with_table.
  rewrite load32_store32_ne
    by (destruct (word_apart v pgdir j (PDX va) Hv Hd Hne Hj (PDX_range va)); lia).
  pose proof (word_in v j Hj) as [W1 W2]. unfold PGSIZE in W2.
  unfold load32. rewrite !memset_lookup by (unfold PGSIZE; lia). unfold PGSIZE.
  rewrite !(proj2 (Z.leb_le v _)), !(proj2 (Z.ltb_lt _ (v + 4096))) by lia. reflexivity.
Qed.

Lemma with_table_maps va' : maps (with_table k pgdir va v) pgdir va' = maps (km_mem k) pgdir va'.
Proof.
  unfold maps. rewrite with_table_at by apply PDX_range. destruct (decide (PDX va' = PDX va)) as [->|Hne].
  - rewrite Hnone. cbn. rewrite with_table_new by apply PTX_range. reflexivity.
  - destruct (table_at (km_mem k) pgdir (PDX va')) as [t|] eqn:Et; cbn; [|reflexivity].
    destruct Hok as [_ _ Htab _]. destruct (Htab _ _ (PDX_range va') Et) as (T1 & T2 & T3).
    rewrite with_table_page; auto using PTX_range. set_solver.
Qed.

Lemma with_table_ok k' : km_mem k' = with_table k pgdir va v -> km_lock k' = None ->
  chain (km_mem k) (km_freelist k') l -> vm_ok k' pgdir l.
Proof.
  intros Em El Hc. destruct new_page as (Hv & Hd & Hne & Hvl).
  destruct Hok as [[_ _ Hp Hnd Hb] [_ Hdl] Htab Hinj].
  apply Forall_cons in Hp as [_ Hp]. apply NoDup_cons in Hnd as [_ Hnd].
  split; rewrite ?Em.
  - constructor; rewrite ?Em; auto.
    + eapply chain_ext; [|exact Hc]. intros x Hx. rewrite Forall_forall in Hp.
      pose proof (with_table_page x 0 (Hp x Hx)) as Hw. rewrite Z.mul_0_r, Z.add_0_r in Hw.
      apply Hw; [| |lia]; intros ->; set_solver.
    + apply store32_ok, memset_ok; [exact Hb | unfold PGSIZE; lia].
  - split; [exact Hd | set_solver].
  - intros i t Hi. rewrite with_table_at by exact Hi. destruct (decide _).
    + intros [= <-]. auto.
    + intros Ht. destruct (Htab i t Hi Ht) as (T1 & T2 & T3). split_and!; auto. set_solver.
  - intros i j t Hi Hj. rewrite !with_table_at by assumption.
    destruct (decide (i = PDX va)) as [->|Hi'], (decide (j = PDX va)) as [->|Hj']; auto.
    + intros [= <-] Ht. destruct (Htab j v Hj Ht) as (_ & _ & T). set_solver.
    + intros Ht [= <-]. destruct (Htab i v Hi Ht) as (_ & _ & T). set_solver.
    + apply Hinj; assumption.
Qed.

Lemma with_table_tables : tables (with_table k pgdir va v) pgdir ≡ₚ v :: tables (km_mem k) pgdir.
Proof.
  apply (tables_add _ _ _ (PDX va) v (PDX_range va) Hnone).
  - rewrite with_table_at, decide_True by auto using PDX_range. reflexivity.
  - intros j Hj Hne. rewrite with_table_at, decide_False by auto. reflexivity.
Qed.
End WithTable.

(** Pages that belong neither to the page table nor to the free list. *)
Definition foreign k pgdir l (w : Z) : Prop :=
  page_ok w /\ w <> pgdir /\ w ∉ l /\ forall i, 0 <= i < 1024 -> table_at (km_mem k) pgdir i <> Some w.
Definition same_page_mem (w : Z) m m' : Prop := forall x, w <= x < w + PGSIZE -> m' x = m x.

(** Growing a page table: foreign pages stay as they are, and every page
    taken from the free list is a new table. *)
Record extends pgdir k l k' l' : Prop := {
  x_pages : forall w, foreign k pgdir l w ->
    foreign k' pgdir l' w /\ same_page_mem w (km_mem k) (km_mem k');
  x_tables : tables (km_mem k') pgdir ++ l' ≡ₚ tables (km_mem k) pgdir ++ l }.

Lemma extends_refl pgdir k l : extends pgdir k l k l.
Proof. split; [|reflexivity]. intros w Hw. split; [exact Hw | intros x _; reflexivity]. Qed.
Lemma extends_trans pgdir k1 l1 k2 l2 k3 l3 :
  extends pgdir k1 l1 k2 l2 -> extends pgdir k2 l2 k3 l3 -> extends pgdir k1 l1 k3 l3.
Proof.
  intros [P12 T12] [P23 T23]. split; [|rewrite T23; exact T12].
  intros w Hw. destruct (P12 w Hw) as [W2 S2]. destruct (P23 w W2) as [W3 S3].
  split; [exact W3|]. intros x Hx. rewrite S3, S2 by exact Hx. reflexivity.
Qed.

(** walkpgdir() with alloc: an entry for the address, or no memory. *)
Lemma walk_alloc k pgdir va l : vm_ok k pgdir l ->
  exists r k' l', walkpgdir pgdir va true k = Ret r k' /\ vm_ok k' pgdir l' /\
    (forall va', maps (km_mem k') pgdir va' = maps (km_mem k) pgdir va') /\
    extends pgdir k l k' l' /\
    ((r = 0 /\ l' = []) \/
     exists t, table_at (km_mem k') pgdir (PDX va) = Some t /\ r = t + 4 * PTX va).
Proof.
  intros Hok. destruct (table_at (km_mem k) pgdir (PDX va)) as [t|] eqn:Et.
  - exists (t + 4 * PTX va), k, l. split; [apply walk_present; exact Et|].
    split; [exact Hok|]. split; [reflexivity|]. split; [apply extends_refl | eauto].
  - destruct l as [|v l].
    + exists 0, k, []. split.
      { destruct Hok as [Hk _ _ _]. pose proof (kalloc_eq k [] Hk) as Ek.
        unfold walkpgdir, table_at in *. step by reflexivity. destruct (bitset _ PTE_P); [discriminate|].
        cbn [negb]. step by (exact Ek). reflexivity. }
      split; [exact Hok|]. split; [reflexivity|]. split; [apply extends_refl | auto].
    + destruct (walk_new k pgdir va v l Hok Et) as (k' & E & Em & El & Hc).
      exists (v + 4 * PTX va), k', l. split; [exact E|].
      split; [eapply with_table_ok; eassumption|].
      split; [intros va'; rewrite Em; eapply with_table_maps; eassumption|].
      destruct (new_page k pgdir va v l Hok Et) as (Hv & Hd & Hne & Hvl).
      split; [split|].
      * intros w (W1 & W2 & W3 & W4). split.
        -- unfold foreign. rewrite Em. split_and!; auto; [set_solver|]. intros i Hi.
           rewrite (with_table_at k pgdir va v l Hok Et i Hi). destruct (decide _); [set_solver | auto].
        -- intros x Hx. rewrite Em. apply with_table_off.
           ++ intros y <-. destruct (pages_apart pgdir w Hd W1 ltac:(congruence)); unfold off_page, PGSIZE in *; lia.
           ++ destruct (pages_apart v w Hv W1 ltac:(set_solver)); unfold off_page, PGSIZE in *; lia.
      * rewrite Em, (with_table_tables k pgdir va v l Hok Et), <- app_comm_cons. apply Permutation_middle.
      * right. exists v. split; [|reflexivity]. rewrite Em.
        rewrite (with_table_at k pgdir va v l Hok Et) by apply PDX_range.
        rewrite decide_True; reflexivity.
Qed.

(** *** mappages() *)

Lemma lor_bound a b n : 0 <= n -> 0 <= a < 2 ^ n -> 0 <= b < 2 ^ n -> 0 <= Z.lor a b < 2 ^ n.
Proof.
  intros Hn Ha Hb. replace (Z.lor a b) with (Z.land (Z.lor a b) (Z.ones n)).
  - rewrite Z.land_ones by exact Hn. apply Z.mod_pos_bound. lia.
  - rewrite Z.land_lor_distr_l, !Z.land_ones, !Z.mod_small by lia. reflexivity.
Qed.

(** The entry for physical page [pa]. *)
Definition entry (pa perm : Z) : Z := Z.lor (Z.lor pa perm) PTE_P.

Lemma entry_eq pa perm : pa mod PGSIZE = 0 -> 0 <= pa < 2 ^ 32 -> 0 <= perm < PGSIZE ->
  u32 (entry pa perm) = entry pa perm /\ bitset (entry pa perm) PTE_P = true /\
  PTE_ADDR (entry pa perm) = pa.
Proof.
  intros Ha Hr Hp. unfold entry. rewrite <- Z.lor_assoc.
  pose proof (lor_bound perm PTE_P 12 ltac:(lia) ltac:(exact Hp) ltac:(unfold PTE_P; lia)) as Hf.
  set (f := Z.lor perm PTE_P) in *. rewrite (lor_add pa f 12) by (try exact Ha; lia).
  assert (f mod 2 = 1) as Hodd.
  { rewrite <- Z.bit0_mod. unfold f. rewrite Z.lor_spec. change (Z.testbit PTE_P 0) with true.
    rewrite orb_true_r. reflexivity. }
  unfold PGSIZE in *. change (2 ^ 12) with 4096 in Hf.
  assert (pa + f < 2 ^ 32) by (Z.div_mod_to_equations; lia).
  split; [unfold u32; apply Z.mod_small; lia|]. split.
  - rewrite bitset_P by lia. apply negb_true_iff, Z.eqb_neq. Z.div_mod_to_equations. lia.
  - apply PTE_ADDR_make; unfold PGSIZE; auto.
Qed.

Section MapOne.
Context (k : kmem) (pgdir va t e : Z) (l : list Z).
Context (Hok : vm_ok k pgdir l) (Ht : table_at (km_mem k) pgdir (PDX va) = Some t).
Context (He : u32 e = e).

Definition mapped : kmem := k <| km_mem := store32 (km_mem k) (t + 4 * PTX va) e |>.

Lemma table_page : page_ok t /\ t <> pgdir /\ t ∉ l /\ page_ok pgdir.
Proof. destruct Hok as [_ [Hd _] Htab _]. destruct (Htab _ _ (PDX_range va) Ht) as (? & ? & ?). auto. Qed.

Lemma mapped_word w j : page_ok w -> 0 <= j < 1024 ->
  load32 (km_mem mapped) (w + 4 * j) =
    if decide (w = t /\ j = PTX va) then e else load32 (km_mem k) (w + 4 * j).
Proof.
  intros Hw Hj. destruct table_page as (Hp & _). unfold mapped, set_field. cbn [km_mem].
  pose proof (PTX_range va) as Hx. destruct (decide (w = t /\ j = PTX va)) as [[-> ->]|Hne].
  - rewrite load32_store32. exact He.
  - apply load32_store32_ne. destruct (decide (w = t)) as [->|Hwt].
    + assert (j <> PTX va) by tauto. lia.
    + destruct (word_apart w t j (PTX va) Hw Hp Hwt Hj Hx); lia.
Qed.

Lemma mapped_table i : 0 <= i < 1024 -> table_at (km_mem mapped) pgdir i = table_at (km_mem k) pgdir i.
Proof.
  intros Hi. destruct table_page as (_ & Hne & _ & Hd). unfold table_at.
  rewrite mapped_word by assumption. rewrite decide_False by (intros [E _]; congruence). reflexivity.
Qed.

Lemma mapped_maps va' : maps (km_mem mapped) pgdir va' =
  if decide (PDX va' = PDX va /\ PTX va' = PTX va)
  then (if bitset e PTE_P then Some e else None) else maps (km_mem k) pgdir va'.
Proof.
  unfold maps. rewrite mapped_table by apply PDX_range.
  destruct (table_at (km_mem k) pgdir (PDX va')) as [t'|] eqn:Et'; cbn.
  - pose proof Hok as [_ _ Htab Hinj]. destruct (Htab _ _ (PDX_range va') Et') as (T1 & _).
    rewrite mapped_word by (auto using PTX_range).
    destruct (decide (PDX va' = PDX va /\ PTX va' = PTX va)) as [[E1 E2]|Hne].
    + rewrite decide_True; [reflexivity|]. rewrite E1 in Et'. split; congruence.
    + rewrite decide_False; [reflexivity|]. intros [-> E2]. apply Hne. split; [|exact E2].
      apply (Hinj _ _ t (PDX_range va') (PDX_range va) Et' Ht).
  - rewrite decide_False; [reflexivity|]. intros [E1 _]. rewrite E1 in Et'. congruence.
Qed.

Lemma mapped_ok : vm_ok mapped pgdir l.
Proof.
  pose proof Hok as [[Hlk Hc Hp Hnd Hb] [Hd Hdl] Htab Hinj]. destruct table_page as (T1 & T2 & T3 & _).
  split.
  - constructor; auto.
    + eapply chain_ext; [|exact Hc]. intros x Hx. rewrite Forall_forall in Hp.
      pose proof (mapped_word x 0 (Hp x Hx) ltac:(lia)) as Hw. rewrite Z.mul_0_r, Z.add_0_r in Hw.
      rewrite Hw, decide_False; [reflexivity|]. intros [-> _]. contradiction.
    + apply store32_ok. exact Hb.
  - auto.
  - intros i x Hi. rewrite mapped_table by exact Hi. apply Htab. exact Hi.
  - intros i j x Hi Hj. rewrite !mapped_table by assumption. apply Hinj; assumption.
Qed.

Lemma mapped_extends : extends pgdir k l mapped l.
Proof.
  split; [|rewrite (tables_ext _ _ _ mapped_table); reflexivity].
  intros w (W1 & W2 & W3 & W4). destruct table_page as (T1 & _). split.
  - unfold foreign. split_and!; auto. intros i Hi. rewrite mapped_table by exact Hi. auto.
  - intros x Hx. unfold mapped, set_field. cbn [km_mem]. apply store32_other.
    assert (t <> w) as Hne by (intros <-; exact (W4 _ (PDX_range va) Ht)).
    pose proof (word_in t (PTX va) (PTX_range va)). destruct (pages_apart t w T1 W1 Hne); lia.
Qed.
End MapOne.

Lemma page_of a va : a mod PGSIZE = 0 -> 0 <= a < 2 ^ 32 -> 0 <= va < 2 ^ 32 ->
  (PDX va = PDX a /\ PTX va = PTX a) <-> a <= va < a + PGSIZE.
Proof.
  intros Ha Hr Hv. rewrite (same_page va a Hv Hr). unfold PGSIZE in *.
  split; intros; Z.div_mod_to_equations; lia.
Qed.

(** One round of the loop of mappages(). *)
Lemma map_one k pgdir a pa perm l : vm_ok k pgdir l -> a mod PGSIZE = 0 -> 0 <= a < 2 ^ 32 ->
  pa mod PGSIZE = 0 -> 0 <= pa < 2 ^ 32 -> 0 <= perm < PGSIZE -> maps (km_mem k) pgdir a = None ->
  exists pte k1 l1, walkpgdir pgdir a true k = Ret pte k1 /\
    ((pte = 0 /\ vm_ok k1 pgdir [] /\ l1 = [] /\ extends pgdir k l k1 [] /\
        forall va, maps (km_mem k1) pgdir va = maps (km_mem k) pgdir va) \/
     (pte <> 0 /\ exists k2, (let! e := load_ptr pte in
          panic_if (bitset e PTE_P) "remap" ;! store_ptr pte (Z.lor (Z.lor pa perm) PTE_P)) k1 = Ret tt k2 /\
        vm_ok k2 pgdir l1 /\ extends pgdir k l k2 l1 /\
        forall va, 0 <= va < 2 ^ 32 -> maps (km_mem k2) pgdir va =
          if decide (a <= va < a + PGSIZE) then Some (entry pa perm) else maps (km_mem k) pgdir va)).
Proof.
  intros Hok Ha Hr Hp Hpr Hperm Hun. destruct (entry_eq pa perm Hp Hpr Hperm) as (Ee & EP & _).
  destruct (walk_alloc k pgdir a l Hok) as (pte & k1 & l1 & E1 & K1 & M1 & F1 & Hcase).
  exists pte, k1, l1. split; [exact E1|]. destruct Hcase as [[-> ->]|(t & Ht & ->)].
  - left. auto.
  - destruct (table_page k1 pgdir a t l1 K1 Ht) as (Tp & _).
    assert (t + 4 * PTX a <> 0) as Hnz
      by (pose proof (PTX_range a); unfold page_ok, KERNBASE in Tp; lia).
    assert (bitset (load32 (km_mem k1) (t + 4 * PTX a)) PTE_P = false) as Hfree.
    { pose proof (M1 a) as M. rewrite Hun in M. unfold maps in M. rewrite Ht in M.
      cbn [mbind option_bind] in M. cbv zeta in M.
      apply not_true_is_false. intros E. rewrite E in M. discriminate M. }
    assert ((let! e := load_ptr (t + 4 * PTX a) in
      panic_if (bitset e PTE_P) "remap" ;! store_ptr (t + 4 * PTX a) (Z.lor (Z.lor pa perm) PTE_P)) k1
      = Ret tt (mapped k1 a t (entry pa perm))) as E2.
    { unfold load_ptr, store_ptr. rewrite (proj2 (Z.eqb_neq _ _) Hnz). step by reflexivity.
      step by (apply panic_if_false; exact Hfree).
      reflexivity. }
    right. split; [exact Hnz|]. eexists. split; [exact E2|]. split; [eapply mapped_ok; eassumption|].
    split; [eapply extends_trans; [exact F1 | eapply mapped_extends; eassumption]|].
    intros va Hva. rewrite (mapped_maps k1 pgdir a t (entry pa perm) l1) by assumption.
    rewrite M1, EP. pose proof (page_of a va Ha Hr Hva). repeat destruct (decide _); tauto.
Qed.

(** [j] pages from [a] are mapped to consecutive frames from [pa]; other
    translations are as before. *)
Definition mapped_pages m m' (pgdir a pa perm : Z) (j : nat) : Prop :=
  forall va, 0 <= va < 2 ^ 32 -> maps m' pgdir va =
    if decide (a <= va < a + PGSIZE * Z.of_nat j)
    then Some (entry (pa + (va / PGSIZE * PGSIZE - a)) perm) else maps m pgdir va.

Lemma mappages_loop_ok perm n : forall fuel k pgdir a pa l, vm_ok k pgdir l -> (n < fuel)%nat ->
  a mod PGSIZE = 0 -> 0 <= a -> a + PGSIZE * Z.of_nat n + PGSIZE <= 2 ^ 32 ->
  pa mod PGSIZE = 0 -> 0 <= pa -> pa + PGSIZE * Z.of_nat n + PGSIZE <= 2 ^ 32 -> 0 <= perm < PGSIZE ->
  (forall i, (i <= n)%nat -> maps (km_mem k) pgdir (a + PGSIZE * Z.of_nat i) = None) ->
  exists r k' l', mappages_loop fuel pgdir a (a + PGSIZE * Z.of_nat n) pa perm k = Ret r k' /\
    vm_ok k' pgdir l' /\ extends pgdir k l k' l' /\
    exists j, ((r = -1 /\ l' = [] /\ (j <= n)%nat) \/ (r = 0 /\ j = S n)) /\
      mapped_pages (km_mem k) (km_mem k') pgdir a pa perm j.
Proof.
  induction n as [|n IH]; intros fuel k pgdir a pa l Hok Hf Ha Ha0 Ham Hp Hp0 Hpm Hperm Hun;
    destruct fuel as [|fuel]; try lia; cbn [mappages_loop];
    pose proof (Hun O ltac:(lia)) as Hun0; rewrite Z.mul_0_r, Z.add_0_r in Hun0;
    destruct (map_one k pgdir a pa perm l Hok Ha ltac:(unfold PGSIZE in *; lia) Hp
      ltac:(unfold PGSIZE in *; lia) Hperm Hun0) as (pte & k1 & l1 & E1 & Hcase).
  all: destruct Hcase as [(-> & K1 & -> & F & M1)|(Hnz & k2 & E2 & K2 & F & M2)];
    [exists (-1), k1, []; split; [step by (exact E1); reflexivity|]; split; [exact K1|];
     split; [exact F|]; exists O; split; [left; split_and!; auto; lia |];
     intros va Hva; rewrite M1, decide_False by lia; reflexivity|].
  - exists 0, k2, l1. split.
    { step by (exact E1). rewrite (proj2 (Z.eqb_neq pte 0) Hnz).
      rewrite <- bind_assoc3. step by (exact E2).
      rewrite Z.mul_0_r, Z.add_0_r, Z.eqb_refl. reflexivity. }
    split; [exact K2|]. split; [exact F|]. exists 1%nat. split; [auto|].
    intros va Hva. rewrite (M2 va Hva). change (PGSIZE * Z.of_nat 1) with PGSIZE.
    destruct (decide _) as [Hin|]; [|reflexivity]. do 2 f_equal. unfold PGSIZE in *.
    Z.div_mod_to_equations. lia.
  - destruct (IH fuel k2 pgdir (a + PGSIZE) (pa + PGSIZE) l1 K2) as (r & k3 & l3 & E3 & K3 & F3 & C3);
      try (unfold PGSIZE in *; lia).
    { unfold PGSIZE in *. Z.div_mod_to_equations. lia. }
    { unfold PGSIZE in *. Z.div_mod_to_equations. lia. }
    { intros i Hi. rewrite M2 by (unfold PGSIZE in *; lia).
      rewrite decide_False by (unfold PGSIZE in *; lia).
      specialize (Hun (S i) ltac:(lia)). rewrite <- Hun. f_equal. unfold PGSIZE. lia. }
    replace (a + PGSIZE + PGSIZE * Z.of_nat n) with (a + PGSIZE * Z.of_nat (S n)) in * by (unfold PGSIZE; lia).
    exists r, k3, l3. split; [|split; [exact K3|split]].
    + step by (exact E1). rewrite (proj2 (Z.eqb_neq pte 0) Hnz).
      rewrite <- bind_assoc3. step by (exact E2).
      rewrite (proj2 (Z.eqb_neq a _)) by (unfold PGSIZE; lia).
      unfold u32. rewrite !Z.mod_small by (unfold PGSIZE in *; lia). exact E3.
    + exact (extends_trans _ _ _ _ _ _ _ F F3).
    + destruct C3 as (j & Hj & M3). exists (S j). split.
      { destruct Hj as [(-> & -> & Hj)|[-> ->]]; [left; split_and!; auto; lia | right; auto]. }
      intros va Hva. rewrite (M3 va Hva), (M2 va Hva).
      repeat destruct (decide _); unfold PGSIZE in *; try lia; try reflexivity;
        f_equal; f_equal; Z.div_mod_to_equations; lia.
Qed.

(** mappages() maps exactly the requested pages: when no page of the
    range is mapped yet it either returns 0 with every address of the range
    translated to the physical page it asks for with its permissions, and all
    other translations as before; or it runs out of memory for page tables
    (-1) with a part of the range, from its start, mapped.  Pages that are
    not part of the page table keep their contents, and every page taken
    from the free list is now a page table. *)
Theorem mappages_ok (k : kmem) (pgdir va size pa perm : Z) (l : list Z)
    (Hok : vm_ok k pgdir l) (Hva : 0 <= va) (Hsz : 0 < size) (Hend : va + size + PGSIZE <= 2 ^ 32)
    (Hpa : pa mod PGSIZE = 0) (Hpa0 : 0 <= pa) (Hpe : pa + size + 2 * PGSIZE <= 2 ^ 32)
    (Hperm : 0 <= perm < PGSIZE)
    (Hun : forall a, PGROUNDDOWN va <= a < va + size -> maps (km_mem k) pgdir a = None) :
  exists r k' l', mappages pgdir va size pa perm k = Ret r k' /\ vm_ok k' pgdir l' /\
    extends pgdir k l k' l' /\
    exists upto, ((r = -1 /\ l' = [] /\ upto < PGROUNDUP (va + size)) \/ (r = 0 /\ upto = PGROUNDUP (va + size))) /\
      forall a, 0 <= a < 2 ^ 32 -> maps (km_mem k') pgdir a =
        if decide (PGROUNDDOWN va <= a < upto)
        then Some (entry (pa + (PGROUNDDOWN a - PGROUNDDOWN va)) perm)
        else maps (km_mem k) pgdir a.
Proof.
  assert (PGROUNDDOWN va = va / PGSIZE * PGSIZE) as Ea by (apply PGROUNDDOWN_eq; unfold PGSIZE in *; lia).
  assert (u32 (va + size - 1) = va + size - 1) as Eu by (apply Z.mod_small; unfold PGSIZE in *; lia).
  assert (PGROUNDDOWN (va + size - 1) = (va + size - 1) / PGSIZE * PGSIZE) as El
    by (apply PGROUNDDOWN_eq; unfold PGSIZE in *; lia).
  assert (PGROUNDUP (va + size) = (va + size + PGSIZE - 1) / PGSIZE * PGSIZE) as Er
    by (apply PGROUNDUP_eq; unfold PGSIZE in *; lia).
  set (a := PGROUNDDOWN va) in *. set (last := PGROUNDDOWN (va + size - 1)) in *.
  set (n := Z.to_nat ((last - a) / PGSIZE)).
  assert (last = a + PGSIZE * Z.of_nat n) as Elast.
  { unfold n. rewrite Z2Nat.id; unfold PGSIZE in *; Z.div_mod_to_equations; lia. }
  destruct (mappages_loop_ok perm n (Z.to_nat (u32 (last - a) / PGSIZE + 1)) k pgdir a pa l Hok)
    as (r & k' & l' & E & K & F & C).
  - assert (0 <= last - a < 2 ^ 32) as Hd by (unfold PGSIZE in *; Z.div_mod_to_equations; lia).
    unfold u32. rewrite Z.mod_small by exact Hd. unfold n.
    rewrite Z2Nat.inj_add by (try lia; apply Z.div_pos; unfold PGSIZE; lia). lia.
  - rewrite Ea. apply Z_mod_mult.
  - unfold PGSIZE in *. Z.div_mod_to_equations. lia.
  - rewrite <- Elast. unfold PGSIZE in *. Z.div_mod_to_equations. lia.
  - exact Hpa.
  - exact Hpa0.
  - unfold PGSIZE in *. Z.div_mod_to_equations. lia.
  - exact Hperm.
  - intros i Hi. apply Hun. unfold PGSIZE in *. Z.div_mod_to_equations. lia.
  - exists r, k', l'. split; [unfold mappages; rewrite Eu; fold a last; rewrite Elast at 2; exact E|].
    split; [exact K|]. split; [exact F|].
    destruct C as (j & Hj & M). exists (a + PGSIZE * Z.of_nat j). split.
    { rewrite Er. destruct Hj as [(-> & -> & Hj)|[-> ->]]; [left; split_and!; auto|right; split; [reflexivity|]];
        unfold PGSIZE in *; Z.div_mod_to_equations; lia. }
    intros b Hb. rewrite (M b Hb), (PGROUNDDOWN_eq b Hb). reflexivity.
Qed.

(** copyout() (and whatever else uses uva2ka()) dereferences a null
    pointer when the page table for the address does not exist, instead of
    failing with -1 as it does for a page that is not present. *)
Theorem copyout_no_table (k : kmem) (pgdir va p len : Z) (Hlen : 0 < len)
    (Hnone : table_at (km_mem k) pgdir (PDX (PGROUNDDOWN va)) = None) :
  copyout pgdir va p len k = Stop Faulted k.
Proof.
  unfold copyout. destruct (Z.to_nat (len / PGSIZE + 2)) as [|fuel] eqn:Ef.
  { exfalso. assert (0 <= len / PGSIZE) by (apply Z.div_pos; unfold PGSIZE; lia). lia. }
  cbn [copyout_loop]. rewrite (proj2 (Z.ltb_lt 0 len) Hlen). unfold uva2ka, bind.
  rewrite walk_noalloc, Hnone. reflexivity.
Qed.
End Proofs.

Section Witnesses.
#[local] Instance one_cpu : Ctx := {| cpu_id := 0; cur_pid := 1 |}.
#[local] Instance linked : Linked := {| kernel_data := 0x80108000; kernel_end := 0x80115000 |}.

(** An empty page directory and one free page. *)
Definition demo_kmem : kmem := mk_kmem None 0 0x80300000 (fun _ => 0).

Lemma demo_page v : v mod PGSIZE = 0 -> 0x80115000 <= v < 0x8D000000 -> page_ok v.
Proof. intros H1 H2. split; [exact H1|]. cbn. unfold KERNBASE, PHYSTOP, PGSIZE. lia. Qed.

Lemma demo_vm_ok : vm_ok demo_kmem 0x80200000 [0x80300000].
Proof.
  split.
  - constructor; cbn; auto.
    + constructor; [apply demo_page; [reflexivity | lia] | constructor].
    + apply NoDup_singleton.
    + intros x. cbn. lia.
  - split; [apply demo_page; [reflexivity | lia] | set_solver].
  - intros i t Hi. discriminate.
  - intros i j t Hi Hj. discriminate.
Qed.

Example mappages_ok_witness : exists r k' l',
  mappages 0x80200000 0x3000 0x1800 0x400000 PTE_W demo_kmem = Ret r k' /\ vm_ok k' 0x80200000 l' /\
  (r = 0 -> maps (km_mem k') 0x80200000 0x4123 = Some (entry 0x401000 PTE_W)).
Proof.
  destruct (mappages_ok demo_kmem 0x80200000 0x3000 0x1800 0x400000 PTE_W _ demo_vm_ok)
    as (r & k' & l' & E & K & _ & C); try (unfold PGSIZE, PTE_W; lia); try reflexivity.
  exists r, k', l'. split; [exact E|]. split; [exact K|]. intros ->.
  destruct C as (upto & [(Hr & _)|[_ ->]] & M); [discriminate|]. rewrite (M 0x4123) by lia. reflexivity.
Defined.

Example copyout_no_table_witness :
  copyout 0x80200000 0x3000 0x80115000 4 demo_kmem = Stop Faulted demo_kmem.
Proof. apply copyout_no_table; [lia | reflexivity]. Defined.
End Witnesses.
