(* ===== verification/VmFree.v ===== *)
(** * Page tables: giving an address space back

    [deallocuvm()] and [freevm()] of [vm.c].  A user address space owns its
    page directory, the page tables and the frames its user pages are mapped
    to; deallocuvm() puts frames on the free list, freevm() all of it, each
    page exactly once. *)
From S2P Require Import Prelude.
From S2P Require Import CString.
From S2P Require Import Kalloc.
From S2P Require Import Vm.
From S2P Require Import VmProofs.

(** The kernel address of the frame an entry points to. *)
Definition frame (e : Z) : Z := P2V (PTE_ADDR e).
Definition upage (a : Z) : Prop := 0 <= a < KERNBASE /\ a mod PGSIZE = 0.
(** The frames of [n] pages from [a]. *)
Definition frames (m : mem) (pgdir a : Z) (n : nat) : list Z :=
  omap (fun va => frame <$> maps m pgdir va) (pages a n).
(** The frames below the kernel. *)
Definition user_pages : nat := Z.to_nat (KERNBASE / PGSIZE).
Lemma user_pages_eq : PGSIZE * Z.of_nat user_pages = KERNBASE.
Proof. unfold user_pages. rewrite Z2Nat.id by (vm_compute; discriminate). reflexivity. Qed.
#[global] Opaque user_pages.
Definition user_frames (m : mem) (pgdir : Z) : list Z := frames m pgdir 0 user_pages.

Section Proofs.
Context `{Ctx} `{Linked}.
Implicit Types (k : kmem) (m : mem) (l : list Z).

Record user_ok k pgdir l : Prop := {
  u_vm : vm_ok k pgdir l;
  u_page : forall a e, upage a -> maps (km_mem k) pgdir a = Some e -> foreign k pgdir l (frame e);
  u_inj : forall a b e f, upage a -> upage b -> maps (km_mem k) pgdir a = Some e ->
    maps (km_mem k) pgdir b = Some f -> frame e = frame f -> a = b }.

Lemma maps_table m pgdir va e : maps m pgdir va = Some e ->
  exists t, table_at m pgdir (PDX va) = Some t /\ load32 m (t + 4 * PTX va) = e /\ bitset e PTE_P = true.
Proof.
  unfold maps. destruct (table_at m pgdir (PDX va)) as [t|]; cbn; [|discriminate].
  destruct (bitset _ PTE_P) eqn:E; [|discriminate]. intros [= <-]. eauto.
Qed.

(** A word of a page that kept its contents. *)
Lemma same_page_word w m m' j : same_page_mem w m m' -> 0 <= j < 1024 ->
  load32 m' (w + 4 * j) = load32 m (w + 4 * j).
Proof. intros Hs Hj. apply load32_ext. intros x Hx. apply Hs. unfold PGSIZE. lia. Qed.

(** kfree() of a page the page table does not use. *)
Lemma kfree_foreign k pgdir l v : vm_ok k pgdir l -> foreign k pgdir l v ->
  exists k', kfree v k = Ret tt k' /\ vm_ok k' pgdir (v :: l) /\
    (forall i, 0 <= i < 1024 -> table_at (km_mem k') pgdir i = table_at (km_mem k) pgdir i) /\
    (forall va, maps (km_mem k') pgdir va = maps (km_mem k) pgdir va) /\
    (forall w, page_ok w -> w <> v -> same_page_mem w (km_mem k) (km_mem k')).
Proof.
  intros [Hk [Hd Hdl] Ht Hi] (Hv & Hvd & Hvl & Hvt).
  destruct (kfree_ok k l v Hk Hv Hvl) as (k' & E & K & _ & Ho & _).
  assert (forall w, page_ok w -> w <> v -> same_page_mem w (km_mem k) (km_mem k')) as Hs.
  { intros w Hw Hne x Hx. apply Ho. destruct (pages_apart v w Hv Hw ltac:(congruence));
      unfold off_page, PGSIZE in *; lia. }
  assert (forall i, 0 <= i < 1024 -> table_at (km_mem k') pgdir i = table_at (km_mem k) pgdir i) as Et.
  { intros i Hr. unfold table_at. rewrite (same_page_word pgdir (km_mem k)) by auto. reflexivity. }
  exists k'. split; [exact E|]. split; [split|split; [exact Et|split; [|exact Hs]]].
  - exact K.
  - split; [exact Hd|]. set_solver.
  - intros i t Hr. rewrite Et by exact Hr. intros E1. destruct (Ht i t Hr E1) as (T1 & T2 & T3).
    split_and!; auto. specialize (Hvt i Hr). set_solver.
  - intros i j t Hr Hr'. rewrite !Et by assumption. apply Hi; assumption.
  - apply maps_ext; [exact Et|]. intros i t j Hr Hj E1. destruct (Ht i t Hr E1) as (T1 & _).
    apply same_page_word; [|exact Hj]. apply Hs; [exact T1|]. intros ->. exact (Hvt i Hr E1).
Qed.

(** What deallocuvm() does to the state: frames of the page table go to the
    free list, other pages stay as they are. *)
Record shrinks pgdir k k' l' : Prop := {
  s_user : user_ok k' pgdir l';
  s_tables : forall i, 0 <= i < 1024 -> table_at (km_mem k') pgdir i = table_at (km_mem k) pgdir i;
  s_pages : forall w, foreign k pgdir l' w -> same_page_mem w (km_mem k) (km_mem k') }.

(** One round of deallocuvm(). *)
Lemma dealloc_one k pgdir l a e t : user_ok k pgdir l -> upage a ->
  maps (km_mem k) pgdir a = Some e -> table_at (km_mem k) pgdir (PDX a) = Some t ->
  exists k', (kfree (frame e) ;! store_ptr (t + 4 * PTX a) 0) k = Ret tt k' /\
    shrinks pgdir k k' (frame e :: l) /\
    forall va, 0 <= va < 2 ^ 32 -> maps (km_mem k') pgdir va =
      if decide (a <= va < a + PGSIZE) then None else maps (km_mem k) pgdir va.
Proof.
  intros [Hok Hpg Hinj] Ha He Ht. pose proof (Hpg a e Ha He) as Hf.
  destruct (kfree_foreign k pgdir l (frame e) Hok Hf) as (k1 & E1 & K1 & T1 & M1 & S1).
  pose proof Ht as Ht1. rewrite <- T1 in Ht1 by apply PDX_range.
  set (k2 := mapped k1 a t 0).
  assert (0 <= a < 2 ^ 32 /\ a mod PGSIZE = 0) as [Har Ham] by (unfold upage, KERNBASE in Ha; lia).
  assert (forall va, 0 <= va < 2 ^ 32 -> maps (km_mem k2) pgdir va =
      if decide (a <= va < a + PGSIZE) then None else maps (km_mem k) pgdir va) as M2.
  { intros va Hva. unfold k2. rewrite (mapped_maps k1 pgdir a t 0 (frame e :: l)) by auto.
    rewrite M1. pose proof (page_of a va Ham Har Hva). repeat destruct (decide _); tauto. }
  assert (vm_ok k2 pgdir (frame e :: l)) as K2 by (apply (mapped_ok k1 pgdir a t 0); auto).
  assert (forall i, 0 <= i < 1024 -> table_at (km_mem k2) pgdir i = table_at (km_mem k) pgdir i) as T2.
  { intros i Hi. rewrite <- T1 by exact Hi. apply (mapped_table k1 pgdir a t 0 (frame e :: l)); auto. }
  destruct (table_page k1 pgdir a t (frame e :: l) K1 Ht1) as (Tp & _).
  exists k2. split; [|split; [split|exact M2]].
  - step by (exact E1). unfold store_ptr. rewrite (proj2 (Z.eqb_neq (t + 4 * PTX a) 0)); [reflexivity|].
    pose proof (PTX_range a). unfold page_ok, KERNBASE in Tp. lia.
  - split; [exact K2| |].
    + intros b f Hb. pose proof Hb as [Hbr Hbm]. rewrite M2 by (unfold KERNBASE in *; lia).
      destruct (decide _) as [|Hout]; [discriminate|]. intros Hf1.
      destruct (Hpg b f Hb Hf1) as (F1 & F2 & F3 & F4). unfold foreign. split_and!; auto.
      * intros [E|E]%elem_of_cons; [|contradiction]. apply Hout. unfold PGSIZE.
        rewrite (Hinj b a f e Hb Ha Hf1 He E). lia.
      * intros i Hi. rewrite T2 by exact Hi. auto.
    + intros b c f g Hb Hc. pose proof Hb as [Hbr _]. pose proof Hc as [Hcr _].
      rewrite !M2 by (unfold KERNBASE in *; lia).
      do 2 (destruct (decide _); [discriminate|]). apply Hinj; assumption.
  - exact T2.
  - intros w (W1 & W2 & W3 & W4) x Hx.
    assert (foreign k1 pgdir (frame e :: l) w) as Hw.
    { unfold foreign. split_and!; auto. intros i Hi. rewrite T1 by exact Hi. auto. }
    destruct (mapped_extends k1 pgdir a t 0 (frame e :: l) K1 Ht1 eq_refl) as [P _].
    destruct (P w Hw) as [_ S2]. unfold k2. rewrite S2 by exact Hx.
    exact (S1 w W1 ltac:(set_solver) x Hx).
Qed.

Lemma shrinks_trans pgdir k1 k2 l2 k3 l3 : (forall w, w ∈ l2 -> w ∈ l3) ->
  shrinks pgdir k1 k2 l2 -> shrinks pgdir k2 k3 l3 -> shrinks pgdir k1 k3 l3.
Proof.
  intros Hl [U12 T12 P12] [U23 T23 P23]. split; [exact U23| |].
  - intros i Hi. rewrite T23, T12 by exact Hi. reflexivity.
  - intros w (W1 & W2 & W3 & W4) x Hx. rewrite (P23 w), (P12 w); [reflexivity| |exact Hx| |exact Hx].
    + unfold foreign. split_and!; auto.
    + unfold foreign. split_and!; auto. intros i Hi. rewrite T12 by exact Hi. auto.
Qed.

Lemma shrinks_refl pgdir k l : user_ok k pgdir l -> shrinks pgdir k k l.
Proof. intros Hu. split; [exact Hu | reflexivity | intros w Hw x _; reflexivity]. Qed.

(** *** The frames of a range *)

Lemma frames_S m pgdir a n : frames m pgdir a (S n) =
  match maps m pgdir a with Some e => [frame e] | None => [] end ++ frames m pgdir (a + PGSIZE) n.
Proof. unfold frames. rewrite pages_S. cbn. destruct (maps m pgdir a); reflexivity. Qed.

Lemma frames_ext m m' pgdir a n :
  (forall i, (i < n)%nat -> maps m' pgdir (a + PGSIZE * Z.of_nat i) = maps m pgdir (a + PGSIZE * Z.of_nat i)) ->
  frames m' pgdir a n = frames m pgdir a n.
Proof.
  intros He. apply omap_ext_in. intros y Hy%elem_of_pages. destruct Hy as (i & Hi & ->).
  rewrite He by exact Hi. reflexivity.
Qed.

(** Pages without a mapping are skipped. *)
Lemma frames_skip m pgdir j : forall a n, (j <= n)%nat ->
  (forall i, (i < j)%nat -> maps m pgdir (a + PGSIZE * Z.of_nat i) = None) ->
  frames m pgdir a n = frames m pgdir (a + PGSIZE * Z.of_nat j) (n - j).
Proof.
  induction j as [|j IH]; intros a n Hj Hn.
  - rewrite Z.mul_0_r, Z.add_0_r, Nat.sub_0_r. reflexivity.
  - destruct n as [|n]; [lia|]. rewrite frames_S. pose proof (Hn O ltac:(lia)) as Hn0.
    rewrite Z.mul_0_r, Z.add_0_r in Hn0. rewrite Hn0. cbn [app].
    rewrite (IH (a + PGSIZE) n) by (try lia; intros i Hi; rewrite <- (Hn (S i)) by lia; f_equal; lia).
    f_equal; unfold PGSIZE; lia.
Qed.

(** *** deallocuvm() *)

Lemma next_table a : 0 <= a < KERNBASE ->
  u32 (u32 (PGADDR (PDX a + 1) 0 0 - PGSIZE) + PGSIZE) = (a / 2 ^ 22 + 1) * 2 ^ 22.
Proof.
  intros Ha. unfold KERNBASE in Ha. unfold PGADDR. rewrite PDX_eq by lia.
  rewrite !Z.shiftl_0_l, !Z.lor_0_r, Z.shiftl_mul_pow2 by lia.
  unfold u32, PGSIZE. change (2 ^ 22) with 4194304. change (2 ^ 32) with 4294967296.
  rewrite !(Z.mod_small _ 4294967296); Z.div_mod_to_equations; lia.
Qed.

Lemma no_table_none m pgdir a va : table_at m pgdir (PDX a) = None -> 0 <= a < KERNBASE ->
  a <= va < (a / 2 ^ 22 + 1) * 2 ^ 22 -> maps m pgdir va = None.
Proof.
  intros Ht Ha Hva. unfold KERNBASE in Ha. unfold maps.
  replace (PDX va) with (PDX a); [rewrite Ht; reflexivity|].
  change (2 ^ 22) with 4194304 in Hva.
  rewrite !PDX_eq by (Z.div_mod_to_equations; lia). change (2 ^ 22) with 4194304.
  Z.div_mod_to_equations. lia.
Qed.

(** The outcome of deallocuvm() on [n] pages from [a]. *)
Definition deallocated k pgdir l (a : Z) (n : nat) (r : res kmem unit) : Prop :=
  exists k' l', r = Ret tt k' /\ shrinks pgdir k k' l' /\ l' ≡ₚ frames (km_mem k) pgdir a n ++ l /\
    forall va, 0 <= va < 2 ^ 32 -> maps (km_mem k') pgdir va =
      if decide (a <= va < a + PGSIZE * Z.of_nat n) then None else maps (km_mem k) pgdir va.

Lemma deallocated_0 k pgdir l a : user_ok k pgdir l -> deallocated k pgdir l a O (Ret tt k).
Proof.
  intros Hu. exists k, l. split_and!; [reflexivity | apply shrinks_refl; exact Hu | reflexivity |].
  intros va _. rewrite decide_False by lia. reflexivity.
Qed.

Lemma deallocated_skip k pgdir l a n j r : (j <= n)%nat ->
  (forall va, a <= va < a + PGSIZE * Z.of_nat j -> maps (km_mem k) pgdir va = None) ->
  deallocated k pgdir l (a + PGSIZE * Z.of_nat j) (n - j) r -> deallocated k pgdir l a n r.
Proof.
  intros Hj Hn (k' & l' & -> & S & L & M). exists k', l'. split_and!; [reflexivity | exact S | |].
  - rewrite (frames_skip _ _ j) by (try exact Hj; intros i Hi; apply Hn; unfold PGSIZE; lia). exact L.
  - intros va Hva. rewrite M by exact Hva.
    repeat destruct (decide _); unfold PGSIZE in *; try reflexivity; try lia. apply Hn. lia.
Qed.

Lemma deallocated_step k pgdir l a n e k1 r : maps (km_mem k) pgdir a = Some e -> 0 <= a ->
  a + PGSIZE * Z.of_nat (S n) <= KERNBASE -> shrinks pgdir k k1 (frame e :: l) ->
  (forall va, 0 <= va < 2 ^ 32 -> maps (km_mem k1) pgdir va =
      if decide (a <= va < a + PGSIZE) then None else maps (km_mem k) pgdir va) ->
  deallocated k1 pgdir (frame e :: l) (a + PGSIZE) n r -> deallocated k pgdir l a (S n) r.
Proof.
  intros Em Ha Hend S1 M1 (k2 & l2 & -> & S2 & L2 & M2). exists k2, l2. split_and!; [reflexivity | | |].
  - eapply shrinks_trans; [|exact S1|exact S2]. intros w Hw. rewrite L2. set_solver.
  - rewrite L2, frames_S, Em. cbn [app].
    rewrite (frames_ext (km_mem k) (km_mem k1)); [symmetry; apply Permutation_middle|].
    intros i Hi. rewrite M1 by (unfold PGSIZE, KERNBASE in *; lia).
    rewrite decide_False by (unfold PGSIZE in *; lia). reflexivity.
  - intros va Hva. rewrite M2, M1 by exact Hva.
    repeat destruct (decide _); unfold PGSIZE in *; try reflexivity; lia.
Qed.

(** No table: on to the part of the next directory entry. *)
Lemma dealloc_jump k pgdir l a n fuel oldsz : user_ok k pgdir l -> upage a -> (n <= fuel)%nat ->
  a + PGSIZE * Z.of_nat (S n) <= KERNBASE -> oldsz <= a + PGSIZE * Z.of_nat (S n) ->
  a + PGSIZE * (Z.of_nat (S n) - 1) < oldsz -> table_at (km_mem k) pgdir (PDX a) = None ->
  (forall n' a', (n' < S n)%nat -> (n' <= fuel)%nat -> a' mod PGSIZE = 0 -> 0 <= a' ->
    a' + PGSIZE * Z.of_nat n' <= KERNBASE -> oldsz <= a' + PGSIZE * Z.of_nat n' ->
    a' + PGSIZE * (Z.of_nat n' - 1) < oldsz \/ n' = O ->
    deallocated k pgdir l a' n' (deallocuvm_loop fuel pgdir a' oldsz k)) ->
  deallocated k pgdir l a (S n) (deallocuvm_loop fuel pgdir ((a / 2 ^ 22 + 1) * 2 ^ 22) oldsz k).
Proof.
  intros Hu [Har Ham] Hf Hend Hold Hlast Et IH.
  set (a' := (a / 2 ^ 22 + 1) * 2 ^ 22).
  assert (a < a' <= KERNBASE /\ a' mod PGSIZE = 0) as [Ha' Ham'].
  { unfold a', KERNBASE, PGSIZE in *. change (2 ^ 22) with 4194304. Z.div_mod_to_equations. lia. }
  set (j := Nat.min (S n) (Z.to_nat ((a' - a) / PGSIZE))).
  assert (0 < (a' - a) / PGSIZE /\ a' = a + PGSIZE * ((a' - a) / PGSIZE)) as [Hq Ea']
    by (unfold PGSIZE in *; Z.div_mod_to_equations; lia).
  apply (deallocated_skip _ _ _ _ _ j); [lia| |].
  { intros va Hva. apply (no_table_none _ _ a); [exact Et | exact Har|]. fold a'. unfold PGSIZE in *. lia. }
  destruct (decide (j = S n)) as [Ej|Hj].
  - replace (S n - j)%nat with O by lia.
    replace (deallocuvm_loop fuel pgdir a' oldsz k) with (Ret tt k); [apply deallocated_0; exact Hu|].
    destruct fuel; cbn [deallocuvm_loop]; rewrite (proj2 (Z.ltb_ge a' oldsz)); auto; unfold PGSIZE in *; lia.
  - replace (a + PGSIZE * Z.of_nat j) with a' by (unfold PGSIZE in *; lia).
    apply IH; unfold PGSIZE in *; lia.
Qed.

Lemma dealloc_loop_ok n : forall fuel k pgdir a oldsz l, user_ok k pgdir l -> (n <= fuel)%nat ->
  a mod PGSIZE = 0 -> 0 <= a -> a + PGSIZE * Z.of_nat n <= KERNBASE -> oldsz <= a + PGSIZE * Z.of_nat n ->
  a + PGSIZE * (Z.of_nat n - 1) < oldsz \/ n = O ->
  deallocated k pgdir l a n (deallocuvm_loop fuel pgdir a oldsz k).
Proof.
  induction n as [n IH] using lt_wf_ind. intros fuel k pgdir a oldsz l Hu Hf Ham Ha Hend Hold Hlast.
  destruct (Z.ltb_spec a oldsz) as [Hlt|Hge].
  2: { assert (n = O) as -> by (unfold PGSIZE in *; lia).
    replace (deallocuvm_loop fuel pgdir a oldsz k) with (Ret tt k); [apply deallocated_0; exact Hu|].
    destruct fuel; cbn [deallocuvm_loop]; rewrite (proj2 (Z.ltb_ge a oldsz)) by exact Hge; reflexivity. }
  destruct n as [|n]; [lia|]. destruct fuel as [|fuel]; [lia|].
  assert (upage a) as Hua by (split; [unfold PGSIZE, KERNBASE in *; lia | exact Ham]).
  cbn [deallocuvm_loop]. rewrite (proj2 (Z.ltb_lt a oldsz) Hlt).
  rewrite (bind_eq _ _ _ _ _ (walk_noalloc k pgdir a)).
  destruct (table_at (km_mem k) pgdir (PDX a)) as [t|] eqn:Et.
  - destruct (v_tab _ _ _ (u_vm _ _ _ Hu) _ _ (PDX_range a) Et) as (Tp & _).
    assert (t + 4 * PTX a <> 0) as Hnz by (pose proof (PTX_range a); unfold page_ok, KERNBASE in Tp; lia).
    rewrite (proj2 (Z.eqb_neq _ _) Hnz). unfold load_ptr at 1. rewrite (proj2 (Z.eqb_neq _ _) Hnz).
    step by reflexivity. rewrite (u32_small (a + PGSIZE)) by (unfold PGSIZE, KERNBASE in *; lia).
    assert ((a + PGSIZE) mod PGSIZE = 0) as Ham' by (unfold PGSIZE in *; Z.div_mod_to_equations; lia).
    destruct (bitset (load32 (km_mem k) (t + 4 * PTX a)) PTE_P) eqn:EP.
    + set (e := load32 (km_mem k) (t + 4 * PTX a)) in *.
      assert (maps (km_mem k) pgdir a = Some e) as Em.
      { unfold maps. rewrite Et. cbn [mbind option_bind]. fold e. rewrite EP. reflexivity. }
      destruct (dealloc_one k pgdir l a e t Hu Hua Em Et) as (k1 & E1 & S1 & M1).
      destruct (u_page _ _ _ Hu a e Hua Em) as ((_ & _ & Hk & _) & _).
      assert (PTE_ADDR e <> 0) as Hz
        by (intros E; unfold frame in Hk; rewrite E in Hk; vm_compute in Hk; discriminate Hk).
      cbv zeta. rewrite bind_assoc. step by (apply panic_if_false, Z.eqb_neq; exact Hz).
      fold (frame e). step by (exact E1).
      eapply deallocated_step; [exact Em | exact Ha | exact Hend | exact S1 | exact M1 |].
      apply IH; auto; try exact (s_user _ _ _ _ S1); unfold PGSIZE in *; lia.
    + step by reflexivity. apply (deallocated_skip _ _ _ _ _ 1); [lia| |].
      * intros va Hva. destruct (proj2 (page_of a va Ham ltac:(unfold PGSIZE, KERNBASE in *; lia)
          ltac:(unfold PGSIZE, KERNBASE in *; lia)) ltac:(lia)) as [Ed Ex].
        unfold maps. rewrite Ed, Et. cbn [mbind option_bind]. rewrite Ex, EP. reflexivity.
      * apply IH; auto; unfold PGSIZE in *; lia.
  - rewrite Z.eqb_refl, next_table by (destruct Hua; assumption).
    apply (dealloc_jump k pgdir l a n fuel oldsz); try assumption; try lia.
    intros n' a' Hn' Hf' ? ? ? ? ?. apply IH; assumption.
Qed.

(** deallocuvm() shrinks an address space: the frames of the pages
    between the two sizes go to the free list, each once, their translations
    are gone, all other translations are as before, and no page outside these
    frames changes, except the page tables.  The walk ends, also where it
    steps over directory entries without a table. *)
Lemma deallocuvm_ok (k : kmem) (pgdir oldsz newsz : Z) (n : nat) (l : list Z) (Hu : user_ok k pgdir l)
    (Hnew : 0 <= newsz < oldsz) (Hold : oldsz <= KERNBASE)
    (Er : PGROUNDUP oldsz = PGROUNDUP newsz + PGSIZE * Z.of_nat n) :
  exists k' l', deallocuvm pgdir oldsz newsz k = Ret newsz k' /\ shrinks pgdir k k' l' /\
    l' ≡ₚ frames (km_mem k) pgdir (PGROUNDUP newsz) n ++ l /\
    forall va, 0 <= va < 2 ^ 32 -> maps (km_mem k') pgdir va =
      if decide (PGROUNDUP newsz <= va < PGROUNDUP oldsz) then None else maps (km_mem k) pgdir va.
Proof.
  assert (PGROUNDUP newsz = (newsz + PGSIZE - 1) / PGSIZE * PGSIZE) as En
    by (apply PGROUNDUP_eq; unfold PGSIZE, KERNBASE in *; lia).
  assert (PGROUNDUP oldsz = (oldsz + PGSIZE - 1) / PGSIZE * PGSIZE) as Eo
    by (apply PGROUNDUP_eq; unfold PGSIZE, KERNBASE in *; lia).
  destruct (dealloc_loop_ok n (Z.to_nat ((oldsz - PGROUNDUP newsz) / PGSIZE + 1)) k pgdir
    (PGROUNDUP newsz) oldsz l Hu) as (k' & l' & E & S & L & M).
  1-6: unfold PGSIZE, KERNBASE in *; Z.div_mod_to_equations; lia.
  exists k', l'. rewrite Er. split_and!; auto.
  unfold deallocuvm. rewrite (proj2 (Z.leb_gt oldsz newsz)) by lia. step by (exact E). reflexivity.
Qed.

(** *** freevm() *)

(** Freeing the page tables: the directory is read while they go. *)
Lemma free_tables k pgdir m js : forall l, kmem_ok k l -> page_ok pgdir -> pgdir ∉ l ->
  same_page_mem pgdir m (km_mem k) -> NoDup js -> (forall i, i ∈ js -> 0 <= i < 1024) ->
  (forall i t, i ∈ js -> table_at m pgdir i = Some t -> page_ok t /\ t <> pgdir /\ t ∉ l) ->
  (forall i j t, i ∈ js -> j ∈ js -> table_at m pgdir i = Some t -> table_at m pgdir j = Some t -> i = j) ->
  exists k' l', for_all js (fun i => let! e := load (pgdir + 4 * i) in
      if bitset e PTE_P then kfree (P2V (PTE_ADDR e)) else ret tt) k = Ret tt k' /\
    kmem_ok k' l' /\ pgdir ∉ l' /\ l' ≡ₚ omap (table_at m pgdir) js ++ l /\
    (forall w, page_ok w -> w ∉ l' -> same_page_mem w (km_mem k) (km_mem k')).
Proof.
  revert k. induction js as [|i js IH]; intros k l Hk Hd Hdl Hs Hnd Hr Ht Hinj.
  { exists k, l. split_and!; auto. intros w _ _ x _. reflexivity. }
  apply NoDup_cons in Hnd as [Hi Hnd]. cbn [for_all omap list_omap].
  change (list_omap Z Z (table_at m pgdir) js) with (omap (table_at m pgdir) js).
  pose proof (same_page_word pgdir m (km_mem k) i Hs (Hr i ltac:(left))) as Ew.
  destruct (table_at m pgdir i) as [t|] eqn:Et.
  - destruct (Ht i t ltac:(left) Et) as (T1 & T2 & T3).
    destruct (kfree_ok k l t Hk T1 T3) as (k1 & E1 & K1 & _ & O1 & _).
    assert (forall w, page_ok w -> w <> t -> same_page_mem w (km_mem k) (km_mem k1)) as S1.
    { intros w Hw Hne x Hx. apply O1. destruct (pages_apart t w T1 Hw ltac:(congruence));
        unfold off_page, PGSIZE in *; lia. }
    destruct (IH k1 (t :: l) K1 Hd) as (k2 & l2 & E2 & K2 & N2 & L2 & S2); auto.
    + apply not_elem_of_cons. auto.
    + intros x Hx. rewrite (S1 pgdir) by auto. apply Hs. exact Hx.
    + intros j Hj. apply Hr. right. exact Hj.
    + intros j t' Hj Ej. destruct (Ht j t' ltac:(right; exact Hj) Ej) as (U1 & U2 & U3).
      split_and!; auto. intros [->|]%elem_of_cons; [|contradiction].
      assert (i = j) as -> by (apply (Hinj i j t); auto; [left|right; exact Hj]). contradiction.
    + intros j j' t' Hj Hj'. apply Hinj; right; assumption.
    + exists k2, l2. split_and!; auto.
      * unfold table_at in Et. rewrite <- Ew in Et. rewrite bind_assoc. step by reflexivity.
        destruct (bitset _ PTE_P); [|discriminate]. injection Et as ->. step by (exact E1). exact E2.
      * rewrite L2. cbn [app]. symmetry. apply Permutation_middle.
      * intros w Hw Hn x Hx. rewrite (S2 w Hw Hn x Hx). apply (S1 w Hw); [|exact Hx].
        intros ->. apply Hn. rewrite L2. apply elem_of_app. right. left.
  - destruct (IH k l Hk Hd Hdl Hs Hnd) as (k2 & l2 & E2 & K2 & N2 & L2 & S2).
    { intros j Hj. apply Hr. right. exact Hj. } { intros j t' Hj. apply Ht. right. exact Hj. }
    { intros j j' t' Hj Hj'. apply Hinj; right; assumption. }
    exists k2, l2. split_and!; auto. unfold table_at in Et. rewrite <- Ew in Et.
    rewrite bind_assoc. step by reflexivity. destruct (bitset _ PTE_P); [discriminate|].
    step by reflexivity. exact E2.
Qed.
(** freevm() gives back the frames, the tables and the directory. *)
Lemma freevm_ok k pgdir l : user_ok k pgdir l ->
  exists k' l', freevm pgdir k = Ret tt k' /\ kmem_ok k' l' /\
    l' ≡ₚ pgdir :: tables (km_mem k) pgdir ++ user_frames (km_mem k) pgdir ++ l /\
    forall w, page_ok w -> w ∉ l' -> same_page_mem w (km_mem k) (km_mem k').
Proof.
  intros Hu. destruct (deallocuvm_ok k pgdir KERNBASE 0 user_pages l Hu) as (k1 & l1 & E1 & [U1 T1 P1] & L1 & _);
    [unfold KERNBASE; lia | lia | rewrite user_pages_eq; reflexivity |].
  replace (PGROUNDUP 0) with 0 in L1 by reflexivity. fold (user_frames (km_mem k) pgdir) in L1.
  destruct U1 as [[K1 [D1 DL1] Htab Hinj] _ _].
  destruct (free_tables k1 pgdir (km_mem k1) dir_index l1 K1 D1 DL1)
    as (k2 & l2 & E2 & K2 & N2 & L2 & S2).
  { intros x _. reflexivity. }
  { apply NoDup_dir. }
  { intros i Hi%elem_of_dir. exact Hi. }
  { intros i t Hi%elem_of_dir. apply Htab. exact Hi. }
  { intros i j t Hi%elem_of_dir Hj%elem_of_dir. apply Hinj; assumption. }
  destruct (kfree_ok k2 l2 pgdir K2 D1 N2) as (k3 & E3 & K3 & _ & O3 & _).
  fold (tables (km_mem k1) pgdir) in L2. rewrite (tables_ext _ _ _ T1) in L2. exists k3, (pgdir :: l2). split_and!; [|exact K3|rewrite L2, L1; reflexivity|].
  - unfold freevm. step by (apply panic_if_false, Z.eqb_neq; unfold page_ok, KERNBASE in D1; lia).
    step by (exact E1). step by (exact E2). exact E3.
  - intros w Hw [Hwd Hwl]%not_elem_of_cons x Hx. rewrite O3.
    + rewrite (S2 w Hw Hwl x Hx). apply (P1 w); [|exact Hx]. unfold foreign. rewrite L2 in Hwl.
      apply not_elem_of_app in Hwl as [Hwt Hwl]. split_and!; auto. intros i Hi Ei. apply Hwt.
      apply elem_of_tables. eauto.
    + destruct (pages_apart pgdir w D1 Hw ltac:(congruence)); unfold off_page, PGSIZE in *; lia.
Qed.
End Proofs.
