(* ===== verification/VmGrow.v ===== *)
(** * Page tables: growing an address space

    [allocuvm()] of [vm.c], with the invariant its loop shares with that of
    copyuvm(): pages are taken from the free list, filled, and mapped one
    after the other; when memory runs out all of them go back.  The account
    of an address space is the multiset of its page tables, its frames and
    the free list: no operation changes it. *)
From S2P Require Import Prelude.
From S2P Require Import CString.
From S2P Require Import Kalloc.
From S2P Require Import Vm.
From S2P Require Import VmProofs.
From S2P Require Import VmFree.

Section Proofs.
Context `{Ctx} `{Linked}.
Implicit Types (k : kmem) (m : mem) (l : list Z).

(** mappages() on a range of whole pages. *)
Lemma mappages_aligned k pgdir a n size pa perm l : vm_ok k pgdir l -> size = PGSIZE * Z.of_nat (S n) ->
  a mod PGSIZE = 0 -> 0 <= a -> a + size <= 2 ^ 32 -> pa mod PGSIZE = 0 -> 0 <= pa -> pa + size <= 2 ^ 32 ->
  0 <= perm < PGSIZE -> (forall i, (i <= n)%nat -> maps (km_mem k) pgdir (a + PGSIZE * Z.of_nat i) = None) ->
  exists r k' l', mappages pgdir a size pa perm k = Ret r k' /\ vm_ok k' pgdir l' /\ extends pgdir k l k' l' /\
    exists j, ((r = -1 /\ l' = [] /\ (j <= n)%nat) \/ (r = 0 /\ j = S n)) /\
      mapped_pages (km_mem k) (km_mem k') pgdir a pa perm j.
Proof.
  intros Hok Hs Ha Ha0 Ham Hp Hp0 Hpm Hperm Hun.
  assert (size = PGSIZE * Z.of_nat n + PGSIZE) as Es by (unfold PGSIZE in *; lia).
  destruct (mappages_loop_ok perm n (Z.to_nat (u32 (PGSIZE * Z.of_nat n) / PGSIZE + 1)) k pgdir a pa l Hok)
    as (r & k' & l' & E & K & X & C); auto.
  - rewrite u32_small by (unfold PGSIZE in *; lia). unfold PGSIZE. Z.div_mod_to_equations. lia.
  - lia.
  - lia.
  - exists r, k', l'. split; [|split; [exact K|split; [exact X|]]].
    + unfold mappages. rewrite (PGROUNDDOWN_eq a), (u32_small (a + size - 1)), (PGROUNDDOWN_eq (a + size - 1))
        by (unfold PGSIZE in *; lia).
      replace (a / PGSIZE * PGSIZE) with a by (unfold PGSIZE in *; Z.div_mod_to_equations; lia).
      replace ((a + size - 1) / PGSIZE * PGSIZE) with (a + PGSIZE * Z.of_nat n)
        by (unfold PGSIZE in *; Z.div_mod_to_equations; lia).
      replace (a + PGSIZE * Z.of_nat n - a) with (PGSIZE * Z.of_nat n) by lia. exact E.
    + exact C.
Qed.

(** ** The frames of an address space *)

Lemma upage_index a : upage a -> exists i, (i < user_pages)%nat /\ a = 0 + PGSIZE * Z.of_nat i.
Proof.
  intros [Hr Hm]. exists (Z.to_nat (a / PGSIZE)). pose proof user_pages_eq as Eu.
  assert (0 <= a / PGSIZE) by (apply Z.div_pos; unfold PGSIZE; lia).
  assert (a = PGSIZE * (a / PGSIZE)) by (apply Z_div_exact_full_2; [unfold PGSIZE; lia | exact Hm]).
  unfold PGSIZE, KERNBASE in *. split; lia.
Qed.
Lemma index_upage i : (i < user_pages)%nat -> upage (0 + PGSIZE * Z.of_nat i).
Proof.
  intros Hi. pose proof user_pages_eq as Eu. unfold upage, PGSIZE, KERNBASE in *.
  split; [lia|]. rewrite Z.add_0_l, Z.mul_comm. apply Z_mod_mult.
Qed.
Lemma elem_of_user m pgdir w :
  w ∈ user_frames m pgdir <-> exists a e, upage a /\ maps m pgdir a = Some e /\ frame e = w.
Proof.
  unfold user_frames, frames. rewrite list_elem_of_omap. split.
  - intros (a & Ha & E). apply elem_of_pages in Ha as (i & Hi & ->).
    destruct (maps _ _ _) as [e|] eqn:Em; [|discriminate]. injection E as <-.
    exists (0 + PGSIZE * Z.of_nat i), e. auto using index_upage.
  - intros (a & e & Ha & Em & <-). exists a. rewrite Em. split; [|reflexivity].
    apply elem_of_pages, upage_index. exact Ha.
Qed.
Lemma NoDup_pages p n : NoDup (pages p n).
Proof.
  apply NoDup_ListNoDup, Finite.Injective_map_NoDup; [|apply seq_NoDup].
  intros i j Hij. unfold PGSIZE in Hij. lia.
Qed.

Lemma user_frames_add m m' pgdir a e : upage a -> maps m pgdir a = None -> maps m' pgdir a = Some e ->
  (forall b, upage b -> b <> a -> maps m' pgdir b = maps m pgdir b) ->
  user_frames m' pgdir ≡ₚ frame e :: user_frames m pgdir.
Proof.
  intros Ha Hn Hs He. apply omap_perm_cons with (x := a); [apply NoDup_pages | | | |].
  - apply elem_of_pages, upage_index. exact Ha.
  - rewrite Hn. reflexivity.
  - rewrite Hs. reflexivity.
  - intros b Hb%elem_of_pages Hne. destruct Hb as (i & Hi & ->). rewrite He; auto using index_upage.
Qed.
Lemma user_frames_ext m m' pgdir : (forall b, upage b -> maps m' pgdir b = maps m pgdir b) ->
  user_frames m' pgdir = user_frames m pgdir.
Proof. intros He. apply frames_ext. intros i Hi. apply He, index_upage. exact Hi. Qed.
(** The frames of a range that is taken away. *)
Lemma frames_app m pgdir n2 n1 : forall a,
  frames m pgdir a (n1 + n2) = frames m pgdir a n1 ++ frames m pgdir (a + PGSIZE * Z.of_nat n1) n2.
Proof.
  induction n1 as [|n1 IH]; intros a.
  - rewrite Z.mul_0_r, Z.add_0_r. reflexivity.
  - cbn [Nat.add]. rewrite !frames_S, IH, <- app_assoc. do 3 f_equal. unfold PGSIZE. lia.
Qed.
Lemma elem_of_frames m pgdir a n w : 0 <= a -> a mod PGSIZE = 0 ->
  a + PGSIZE * Z.of_nat n <= KERNBASE -> w ∈ frames m pgdir a n ->
  exists b e, upage b /\ a <= b < a + PGSIZE * Z.of_nat n /\ maps m pgdir b = Some e /\ frame e = w.
Proof.
  intros Hr Hm Hend Hw. apply list_elem_of_omap in Hw as (b & Hb & Eb).
  apply elem_of_pages in Hb as (i & Hi & ->). destruct (maps _ _ _) as [e|] eqn:Ee; [|discriminate].
  injection Eb as <-. exists (a + PGSIZE * Z.of_nat i), e.
  split_and!; auto; [split|..]; unfold PGSIZE in *; try lia. Z.div_mod_to_equations. lia.
Qed.
Lemma user_frames_cut m m' pgdir n1 n : PGSIZE * Z.of_nat n1 + PGSIZE * Z.of_nat n <= KERNBASE ->
  (forall va, 0 <= va < 2 ^ 32 -> maps m' pgdir va =
     if decide (PGSIZE * Z.of_nat n1 <= va < PGSIZE * Z.of_nat n1 + PGSIZE * Z.of_nat n)
     then None else maps m pgdir va) ->
  user_frames m pgdir ≡ₚ frames m pgdir (PGSIZE * Z.of_nat n1) n ++ user_frames m' pgdir.
Proof.
  intros Hend M. pose proof user_pages_eq as Eu. unfold user_frames.
  assert (exists n3, user_pages = (n1 + (n + n3))%nat) as [n3 En]
    by (exists (user_pages - n1 - n)%nat; unfold PGSIZE in *; lia).
  rewrite En in Eu |- *. rewrite !frames_app, !Z.add_0_l. set (a := PGSIZE * Z.of_nat n1) in *.
  assert (frames m' pgdir a n = []) as ->.
  { rewrite (frames_skip _ _ n) by (try lia; intros i Hi; rewrite M, decide_True by
      (unfold PGSIZE, KERNBASE in *; lia); reflexivity).
    rewrite Nat.sub_diag. reflexivity. }
  rewrite (frames_ext m m' pgdir 0 n1), (frames_ext m m' pgdir (a + PGSIZE * Z.of_nat n) n3).
  - apply Permutation_app_swap_app.
  - intros i Hi. rewrite M, decide_False; [reflexivity|..]; unfold PGSIZE, KERNBASE in *; lia.
  - intros i Hi. rewrite M, decide_False; [reflexivity|..]; unfold PGSIZE, KERNBASE in *; lia.
Qed.

(** Mapping a page that is not in use yet. *)
Lemma map_user k pgdir l a w flags : user_ok k pgdir l -> foreign k pgdir l w ->
  w ∉ user_frames (km_mem k) pgdir -> upage a -> maps (km_mem k) pgdir a = None -> 0 <= flags < PGSIZE ->
  exists r k' l', mappages pgdir a PGSIZE (V2P w) flags k = Ret r k' /\ user_ok k' pgdir l' /\
    extends pgdir k l k' l' /\
    ((r = -1 /\ l' = [] /\ forall va, 0 <= va < 2 ^ 32 -> maps (km_mem k') pgdir va = maps (km_mem k) pgdir va) \/
     (r = 0 /\ forall va, 0 <= va < 2 ^ 32 -> maps (km_mem k') pgdir va =
        if decide (a <= va < a + PGSIZE) then Some (entry (V2P w) flags) else maps (km_mem k) pgdir va)).
Proof.
  intros [Hok Hpg Hinj] Hw Hwu Ha Hn Hfl. pose proof Ha as [Har Ham]. pose proof Hw as (W1 & _).
  destruct (P2V_V2P w W1) as (Va & Vr & Vw). destruct (entry_eq (V2P w) flags Va Vr Hfl) as (_ & _ & Ea).
  destruct (mappages_aligned k pgdir a 0 PGSIZE (V2P w) flags l Hok) as (r & k' & l' & E & K & X & C);
    try assumption; try reflexivity; try (unfold PGSIZE, KERNBASE in *; lia).
  { unfold PGSIZE in *. Z.div_mod_to_equations. lia. }
  { intros i Hi. assert (i = O) as -> by lia. rewrite Z.mul_0_r, Z.add_0_r. exact Hn. }
  exists r, k', l'. split; [exact E|]. split; [|split; [exact X|]].
  2: { destruct C as (j & Hj & M). destruct Hj as [(-> & -> & Hj)|[-> ->]]; [left|right]; split_and!; auto;
      intros va Hva; rewrite (M va Hva).
    - assert (j = O) as -> by lia. rewrite decide_False by lia. reflexivity.
    - change (PGSIZE * Z.of_nat 1) with PGSIZE. destruct (decide _) as [Hin|]; [|reflexivity].
      do 2 f_equal. unfold PGSIZE in *. Z.div_mod_to_equations. lia. }
  pose proof (x_pages _ _ _ _ _ X) as Xp. clear X E.
  assert (user_ok k' pgdir l') as Hu'; [|exact Hu'].
  (* translations of the new state below the kernel *)
  assert (forall b e, upage b -> maps (km_mem k') pgdir b = Some e ->
    (b = a /\ frame e = w) \/ (b <> a /\ maps (km_mem k) pgdir b = Some e)) as Hmaps.
  { destruct C as (j & Hj & M). intros b e [Hb Hbm]. rewrite M by (unfold KERNBASE in *; lia).
    assert (j = O \/ j = 1%nat) as [-> | ->] by lia.
    - rewrite decide_False by lia. intros Eb. right. split; [congruence | exact Eb].
    - change (PGSIZE * Z.of_nat 1) with PGSIZE. destruct (decide _) as [Hin|Hout].
      + assert (b = a) as -> by (unfold PGSIZE in *; Z.div_mod_to_equations; lia).
        intros [= <-]. left. split; [reflexivity|].
        replace (a / PGSIZE * PGSIZE) with a by (unfold PGSIZE in *; Z.div_mod_to_equations; lia).
        rewrite Z.sub_diag, Z.add_0_r. unfold frame. rewrite Ea. exact Vw.
      + intros Eb. right. split; [unfold PGSIZE in *; lia | exact Eb]. }
  split; [exact K| |].
  - intros b e Hb Eb. destruct (Hmaps b e Hb Eb) as [[_ ->]|[_ Eb']]; [apply Xp; exact Hw|].
    apply Xp, (Hpg b e Hb Eb').
  - intros b c e f Hb Hc Eb Ec Ef.
    destruct (Hmaps b e Hb Eb) as [[-> Fe]|[Hb' Eb']], (Hmaps c f Hc Ec) as [[-> Ff]|[Hc' Ec']]; auto.
    + exfalso. apply Hwu, elem_of_user. exists c, f. split_and!; auto. congruence.
    + exfalso. apply Hwu, elem_of_user. exists b, e. split_and!; auto. congruence.
    + exact (Hinj b c e f Hb Hc Eb' Ec' Ef).
Qed.

(** ** The account of an address space *)

Definition account pgdir k l : list Z :=
  tables (km_mem k) pgdir ++ user_frames (km_mem k) pgdir ++ l.

Lemma account_move (w : Z) (T U l : list Z) : [w] ++ T ++ U ++ l ≡ₚ [] ++ T ++ U ++ w :: l.
Proof. cbn [app]. rewrite !app_assoc. apply Permutation_middle. Qed.

Lemma account_tables (held T U l T' U' l' : list Z) : T' ++ l' ≡ₚ T ++ l -> U' ≡ₚ U ->
  held ++ T' ++ U' ++ l' ≡ₚ held ++ T ++ U ++ l.
Proof.
  intros HT HU. apply Permutation_app_head. rewrite HU, !(Permutation_app_comm U), !app_assoc, HT. reflexivity.
Qed.
Lemma account_cut (held T F U l : list Z) : held ++ T ++ U ++ F ++ l ≡ₚ held ++ T ++ (F ++ U) ++ l.
Proof.
  do 2 apply Permutation_app_head. rewrite <- app_assoc. apply Permutation_app_swap_app.
Qed.
Lemma account_map (w : Z) (T U l T' U' l' : list Z) : T' ++ l' ≡ₚ T ++ l -> U' ≡ₚ w :: U ->
  [] ++ T' ++ U' ++ l' ≡ₚ [w] ++ T ++ U ++ l.
Proof.
  intros HT HU. cbn [app]. rewrite HU, (Permutation_app_comm (w :: U) l'), (Permutation_app_comm U l), !app_assoc, HT.
  symmetry. apply Permutation_middle.
Qed.

(** The head of the free list belongs to nobody. *)
Lemma free_foreign k pgdir l w : vm_ok k pgdir (w :: l) -> foreign k pgdir l w.
Proof.
  intros [[_ _ Hp Hnd _] [_ Hd] Ht _]. apply Forall_cons in Hp as [Hw _]. apply NoDup_cons in Hnd as [Hn _].
  unfold foreign. split_and!; auto; [set_solver|]. intros i Hi Ei.
  destruct (Ht i w Hi Ei) as (_ & _ & T). set_solver.
Qed.

(** kalloc() takes it. *)
Lemma kalloc_user k pgdir w l : user_ok k pgdir (w :: l) ->
  exists k', kalloc k = Ret w k' /\ km_mem k' = km_mem k /\ user_ok k' pgdir l /\
    foreign k' pgdir l w /\ w ∉ user_frames (km_mem k) pgdir.
Proof.
  intros [Hok Hpg Hinj]. pose proof (free_foreign k pgdir l w Hok) as Hw.
  destruct Hok as [Hk [Hd Hdl] Ht Hi]. destruct (kalloc_eq k (w :: l) Hk) as (k' & E & K & _ & Em).
  exists k'. split; [exact E|]. split; [exact Em|]. split; [split; [split|..]|split]; unfold foreign in *; rewrite ?Em.
  - exact K.
  - split; [exact Hd | set_solver].
  - intros i t Hir Et. destruct (Ht i t Hir Et) as (T1 & T2 & T3). split_and!; auto. set_solver.
  - exact Hi.
  - intros a e Ha Ee. destruct (Hpg a e Ha Ee) as (F1 & F2 & F3 & F4). split_and!; auto. set_solver.
  - exact Hinj.
  - exact Hw.
  - rewrite elem_of_user. intros (a & e & Ha & Ee & <-). destruct (Hpg a e Ha Ee) as (_ & _ & F3 & _).
    set_solver.
Qed.

(** Writing to a page of no table and not on the free list. *)
Lemma write_user k k' pgdir l w : user_ok k pgdir l -> foreign k pgdir l w ->
  km_lock k' = km_lock k -> km_freelist k' = km_freelist k -> bytes_ok (km_mem k') ->
  (forall x, off_page w x -> km_mem k' x = km_mem k x) ->
  user_ok k' pgdir l /\ (forall v, foreign k pgdir l v -> foreign k' pgdir l v) /\
  (forall va, maps (km_mem k') pgdir va = maps (km_mem k) pgdir va) /\
  (forall i, 0 <= i < 1024 -> table_at (km_mem k') pgdir i = table_at (km_mem k) pgdir i).
Proof.
  intros [[[Hlk Hc Hp Hnd Hb] [Hd Hdl] Htab Hti] Hpg Hinj] (W1 & W2 & W3 & W4) El Ef Hb' Ho.
  assert (forall v, page_ok v -> v <> w -> same_page_mem v (km_mem k) (km_mem k')) as Hs.
  { intros v Hv Hne x Hx. apply Ho. destruct (pages_apart w v W1 Hv ltac:(congruence));
      unfold off_page, PGSIZE in *; lia. }
  assert (forall i, 0 <= i < 1024 -> table_at (km_mem k') pgdir i = table_at (km_mem k) pgdir i) as Et.
  { intros i Hi. unfold table_at. rewrite (same_page_word pgdir (km_mem k)); auto. }
  assert (forall va, maps (km_mem k') pgdir va = maps (km_mem k) pgdir va) as Em.
  { apply maps_ext; [exact Et|]. intros i t j Hi Hj Ei. destruct (Htab i t Hi Ei) as (T1 & _).
    apply same_page_word; [|exact Hj]. apply Hs; [exact T1|]. intros ->. exact (W4 i Hi Ei). }
  assert (forall v, foreign k pgdir l v -> foreign k' pgdir l v) as Hf.
  { intros v (F1 & F2 & F3 & F4). unfold foreign. split_and!; auto. intros i Hi. rewrite Et by exact Hi. auto. }
  split_and!; auto. split; [split; [constructor| |..]|..]; auto.
  - congruence.
  - rewrite Ef. eapply chain_ext; [|exact Hc]. intros x Hx. rewrite Forall_forall in Hp.
    pose proof (same_page_word x (km_mem k) (km_mem k') 0) as Hw. rewrite Z.mul_0_r, Z.add_0_r in Hw.
    apply Hw; [|lia]. apply Hs; [apply Hp; exact Hx|]. intros ->. contradiction.
  - intros i t Hi. rewrite Et by exact Hi. apply Htab. exact Hi.
  - intros i j t Hi Hj. rewrite !Et by assumption. apply Hti; assumption.
  - intros a e Ha. rewrite Em. intros Ee. apply Hf, (Hpg a e Ha Ee).
  - intros a b e f. rewrite !Em. apply Hinj.
Qed.

Lemma frame_entry w flags : page_ok w -> 0 <= flags < PGSIZE -> frame (entry (V2P w) flags) = w.
Proof.
  intros Hw Hf. destruct (P2V_V2P w Hw) as (Va & Vr & Vw).
  destruct (entry_eq (V2P w) flags Va Vr Hf) as (_ & _ & Ea). unfold frame. rewrite Ea. exact Vw.
Qed.

(** ** The loops that grow an address space

    From a state [k0] with free list [l0], the loop has mapped new pages for
    the addresses from [lo] to [hi], with flags [E] and contents [C]; [held]
    are pages taken from the free list and not mapped yet. *)
Section Grown.
Context (d : Z) (k0 : kmem) (l0 : list Z) (lo : Z) (E : Z -> Z) (C : Z -> Z -> Z).
Context (HE : forall a, 0 <= E a < PGSIZE).

Definition new_pages k (hi : Z) : Prop := forall a, upage a -> lo <= a < hi ->
  exists w, page_ok w /\ ~ foreign k0 d l0 w /\ maps (km_mem k) d a = Some (entry (V2P w) (E a)) /\
    forall x, 0 <= x < PGSIZE -> km_mem k (w + x) = C a x.

Record grown (hi : Z) (held : list Z) k l : Prop := {
  g_user : user_ok k d l;
  g_account : held ++ account d k l ≡ₚ account d k0 l0;
  g_held : Forall (fun w => foreign k d l w /\ w ∉ user_frames (km_mem k) d) held;
  g_foreign : forall w, foreign k0 d l0 w ->
    foreign k d l w /\ w ∉ held /\ same_page_mem w (km_mem k0) (km_mem k);
  g_new : new_pages k hi;
  g_old : forall va, 0 <= va < 2 ^ 32 -> ~ lo <= va < hi -> maps (km_mem k) d va = maps (km_mem k0) d va }.

Lemma new_pages_keep k k' hi : new_pages k hi ->
  (forall va, 0 <= va < 2 ^ 32 -> lo <= va < hi -> maps (km_mem k') d va = maps (km_mem k) d va) ->
  (forall w, w ∈ user_frames (km_mem k) d -> same_page_mem w (km_mem k) (km_mem k')) -> new_pages k' hi.
Proof.
  intros Hn Hm Hs a Ha Hr. destruct (Hn a Ha Hr) as (w & W1 & Wf & W2 & W3). exists w.
  pose proof Ha as [Har _]. split; [exact W1|]. split; [exact Wf|]. split.
  - rewrite Hm by (unfold KERNBASE in *; lia). exact W2.
  - intros x Hx. rewrite (Hs w); [apply W3; exact Hx | | lia]. apply elem_of_user.
    exists a, (entry (V2P w) (E a)). auto using frame_entry.
Qed.

Lemma grown_0 : user_ok k0 d l0 -> grown lo [] k0 l0.
Proof.
  intros Hu. split; [exact Hu | reflexivity | constructor | | | auto].
  - intros w Hw. split_and!; auto; [set_solver | intros x _; reflexivity].
  - intros a _ Hr. lia.
Qed.

(** kalloc(). *)
Lemma grown_kalloc hi k w l : grown hi [] k (w :: l) ->
  exists k', kalloc k = Ret w k' /\ km_mem k' = km_mem k /\ grown hi [w] k' l.
Proof.
  intros [Hu Hacc _ Hfor Hnew Hold].
  destruct (kalloc_user k d w l Hu) as (k' & Ek & Em & Hu' & Hw & Hwu).
  exists k'. split; [exact Ek|]. split; [exact Em|]. split.
  - exact Hu'.
  - rewrite <- Hacc. unfold account. rewrite Em. apply account_move.
  - constructor; [|constructor]. rewrite Em. auto.
  - intros v Hv. destruct (Hfor v Hv) as ((F1 & F2 & F3 & F4) & _ & Hs).
    apply not_elem_of_cons in F3 as [F3 F3']. unfold foreign. rewrite Em.
    split_and!; auto. apply not_elem_of_cons. split; [exact F3 | apply not_elem_of_nil].
  - apply (new_pages_keep k); [exact Hnew | rewrite Em; reflexivity | intros v _ x _; rewrite Em; reflexivity].
  - rewrite Em. exact Hold.
Qed.

(** Filling the page that is held. *)
Lemma grown_write hi k k' w l : grown hi [w] k l -> km_lock k' = km_lock k ->
  km_freelist k' = km_freelist k -> bytes_ok (km_mem k') ->
  (forall x, off_page w x -> km_mem k' x = km_mem k x) -> grown hi [w] k' l.
Proof.
  intros [Hu Hacc Hheld Hfor Hnew Hold] El Ef Hb Ho. apply Forall_cons in Hheld as [[Hw Hwu] _].
  destruct (write_user k k' d l w Hu Hw El Ef Hb Ho) as (Hu' & Hf & Em & Et).
  assert (user_frames (km_mem k') d = user_frames (km_mem k) d) as Euf
    by (apply user_frames_ext; intros b _; apply Em).
  assert (forall v, page_ok v -> v <> w -> same_page_mem v (km_mem k) (km_mem k')) as Hs.
  { destruct Hw as (W1 & _). intros v Hv Hne x Hx. apply Ho.
    destruct (pages_apart w v W1 Hv ltac:(congruence)); unfold off_page, PGSIZE in *; lia. }
  split.
  - exact Hu'.
  - rewrite <- Hacc. unfold account. rewrite Euf, (tables_ext _ _ _ Et). reflexivity.
  - rewrite Euf. constructor; auto.
  - intros v Hv. destruct (Hfor v Hv) as (F & Fh & Fs). split_and!; auto. intros x Hx.
    rewrite (Hs v); [apply Fs; exact Hx | apply F | apply not_elem_of_cons in Fh; apply Fh | exact Hx].
  - apply (new_pages_keep k); [exact Hnew | intros va _ _; apply Em |]. intros v Hv. apply Hs; [|congruence].
    apply elem_of_user in Hv as (a & e & Ha & Ee & <-). apply (u_page _ _ _ Hu a e Ha Ee).
  - intros va Hva Hr. rewrite Em. auto.
Qed.

(** kfree() of the page that is held. *)
Lemma grown_kfree hi k w l : grown hi [w] k l ->
  exists k', kfree w k = Ret tt k' /\ grown hi [] k' (w :: l).
Proof.
  intros [Hu Hacc Hheld Hfor Hnew Hold]. apply Forall_cons in Hheld as [[Hw Hwu] _].
  destruct Hu as [Hok Hpg Hinj].
  destruct (kfree_foreign k d l w Hok Hw) as (k' & Ek & Hok' & Et & Em & Hs).
  assert (user_frames (km_mem k') d = user_frames (km_mem k) d) as Euf
    by (apply user_frames_ext; intros b _; apply Em).
  assert (forall v, foreign k d l v -> v <> w -> foreign k' d (w :: l) v) as Hf.
  { intros v (F1 & F2 & F3 & F4) Hne. unfold foreign. split_and!; auto; [apply not_elem_of_cons; auto|].
    intros i Hi. rewrite Et by exact Hi. auto. }
  exists k'. split; [exact Ek|]. split.
  - split; [exact Hok'| |].
    + intros a e Ha. rewrite Em. intros Ee. apply Hf; [apply (Hpg a e Ha Ee)|].
      intros Ew. apply Hwu, elem_of_user. eauto.
    + intros a b e f. rewrite !Em. apply Hinj.
  - rewrite <- Hacc. unfold account. rewrite Euf, (tables_ext _ _ _ Et).
    symmetry. apply account_move.
  - constructor.
  - intros v Hv. destruct (Hfor v Hv) as (F & Fh & Fs). pose proof Fh as [Hne _]%not_elem_of_cons.
    split_and!; [auto | apply not_elem_of_nil |]. intros x Hx.
    rewrite (Hs v); [apply Fs; exact Hx | apply F | exact Hne | exact Hx].
  - apply (new_pages_keep k); [exact Hnew | intros va _ _; apply Em |]. intros v Hv. apply Hs; [|congruence].
    apply elem_of_user in Hv as (a & e & Ha & Ee & <-). apply (Hpg a e Ha Ee).
  - intros va Hva Hr. rewrite Em. auto.
Qed.

(** mappages() of the page that is held; without memory for a table it
    stays held. *)
Lemma grown_map hi k w l : grown hi [w] k l -> upage hi -> lo <= hi -> maps (km_mem k0) d hi = None ->
  (forall x, 0 <= x < PGSIZE -> km_mem k (w + x) = C hi x) ->
  exists r k' l', mappages d hi PGSIZE (V2P w) (E hi) k = Ret r k' /\
    ((r = -1 /\ l' = [] /\ grown hi [w] k' l') \/ (r = 0 /\ grown (hi + PGSIZE) [] k' l')).
Proof.
  intros [Hu Hacc Hheld Hfor Hnew Hold] Hhi Hlo Hn Hc. apply Forall_cons in Hheld as [[Hw Hwu] _].
  pose proof Hhi as [Hhr Hhm]. pose proof Hw as (W1 & _).
  assert (maps (km_mem k) d hi = None) as Hn' by (rewrite Hold by (unfold KERNBASE in *; lia); exact Hn).
  destruct (map_user k d l hi w (E hi) Hu Hw Hwu Hhi Hn' (HE hi)) as (r & k' & l' & Ek & Hu' & [Xp Xt] & Hcase).
  assert (forall v, v ∈ user_frames (km_mem k) d -> same_page_mem v (km_mem k) (km_mem k')) as Hsu.
  { intros v Hv. apply Xp. apply elem_of_user in Hv as (a & e & Ha & Ee & <-). apply (u_page _ _ _ Hu a e Ha Ee). }
  assert (forall v, foreign k0 d l0 v -> foreign k' d l' v /\ v <> w /\ same_page_mem v (km_mem k0) (km_mem k')) as Hf.
  { intros v Hv. destruct (Hfor v Hv) as (F & Fh & Fs). destruct (Xp v F) as [F' Fs'].
    apply not_elem_of_cons in Fh as [Fh _]. split_and!; auto. intros x Hx. rewrite Fs', Fs by exact Hx. reflexivity. }
  exists r, k', l'. split; [exact Ek|]. destruct Hcase as [(-> & -> & M)|[-> M]]; [left|right]; (split; [reflexivity|]).
  - split; [reflexivity|]. assert (user_frames (km_mem k') d = user_frames (km_mem k) d) as Euf.
    { apply user_frames_ext. intros b [Hb _]. apply M. unfold KERNBASE in *. lia. }
    split; [exact Hu'| | | | |].
    + rewrite <- Hacc. apply account_tables; [exact Xt|]. rewrite Euf. reflexivity.
    + constructor; [|constructor]. rewrite Euf. split; [apply (Xp w Hw) | exact Hwu].
    + intros v Hv. destruct (Hf v Hv) as (F1 & F2 & F3). split_and!; auto.
      apply not_elem_of_cons. split; [exact F2 | apply not_elem_of_nil].
    + apply (new_pages_keep k); [exact Hnew | auto | exact Hsu].
    + intros va Hva Hr. rewrite M by exact Hva. auto.
  - assert (user_frames (km_mem k') d ≡ₚ w :: user_frames (km_mem k) d) as Euf.
    { rewrite <- (frame_entry w (E hi) W1 (HE hi)). apply user_frames_add with (a := hi); auto.
      - rewrite M, decide_True by (unfold PGSIZE, KERNBASE in *; lia). reflexivity.
      - intros b [Hb Hbm] Hne. rewrite M by (unfold KERNBASE in *; lia). apply decide_False.
        unfold PGSIZE in *. Z.div_mod_to_equations. lia. }
    split; [exact Hu'| | | | |].
    + rewrite <- Hacc. apply account_map; [exact Xt | exact Euf].
    + constructor.
    + intros v Hv. destruct (Hf v Hv) as (F1 & F2 & F3). split_and!; auto. apply not_elem_of_nil.
    + intros a Ha Hr. destruct (decide (a = hi)) as [->|Hne].
      * exists w. split; [exact W1|].
        split; [intros Hwf; destruct (Hf w Hwf) as (_ & Hww & _); congruence|]. rewrite M, decide_True by (unfold PGSIZE, KERNBASE in *; lia).
        split; [reflexivity|]. intros x Hx. destruct (Xp w Hw) as [_ Hs]. rewrite Hs by lia. apply Hc. exact Hx.
      * assert (a < hi) by (destruct Ha; unfold PGSIZE in *; Z.div_mod_to_equations; lia).
        apply (new_pages_keep k k' hi Hnew); [|exact Hsu | exact Ha | lia].
        intros va Hva Hvr. rewrite M, decide_False by (unfold PGSIZE in *; lia). reflexivity.
    + intros va Hva Hr. rewrite M, decide_False by (unfold PGSIZE in *; lia). apply Hold; [exact Hva|].
      unfold PGSIZE in *; lia.
Qed.

(** deallocuvm() takes everything back that the loop has mapped. *)
Lemma grown_dealloc hi held k l oldsz newsz : grown hi held k l -> lo = PGROUNDUP oldsz -> 0 <= oldsz < newsz ->
  newsz <= KERNBASE -> (forall va, lo <= va < PGROUNDUP newsz -> maps (km_mem k0) d va = None) ->
  lo <= hi <= PGROUNDUP newsz ->
  exists k' l', deallocuvm d newsz oldsz k = Ret oldsz k' /\ grown lo held k' l'.
Proof.
  intros [Hu Hacc Hheld Hfor Hnew Hold] Elo Hsz Hk Hn Hhi.
  assert (PGROUNDUP oldsz = (oldsz + PGSIZE - 1) / PGSIZE * PGSIZE) as Eo
    by (apply PGROUNDUP_eq; unfold PGSIZE, KERNBASE in *; lia).
  assert (PGROUNDUP newsz = (newsz + PGSIZE - 1) / PGSIZE * PGSIZE) as En
    by (apply PGROUNDUP_eq; unfold PGSIZE, KERNBASE in *; lia).
  set (n := Z.to_nat ((PGROUNDUP newsz - PGROUNDUP oldsz) / PGSIZE)).
  set (n1 := Z.to_nat (PGROUNDUP oldsz / PGSIZE)).
  assert (PGROUNDUP newsz = lo + PGSIZE * Z.of_nat n /\ lo = PGSIZE * Z.of_nat n1 /\
          PGROUNDUP newsz <= KERNBASE) as (Er & El & Ekb).
  { unfold n, n1. unfold PGSIZE, KERNBASE in *. Z.div_mod_to_equations. lia. }
  destruct (deallocuvm_ok k d newsz oldsz n l Hu Hsz Hk ltac:(lia)) as (k' & l' & Ek & [Hu' Et Hs] & L & M).
  rewrite <- Elo in L, M. rewrite Er in Hhi, Hn, Ekb, M. exists k', l'. split; [exact Ek|].
  assert (user_frames (km_mem k) d ≡ₚ frames (km_mem k) d lo n ++ user_frames (km_mem k') d) as Ecut.
  { rewrite El in M, Ekb |- *. apply user_frames_cut; [exact Ekb | exact M]. }
  assert (0 <= lo /\ lo mod PGSIZE = 0) as [Hlo Hlom].
  { split; [unfold PGSIZE in *; lia|]. rewrite El, Z.mul_comm. apply Z_mod_mult. }
  assert (forall v, foreign k d l v -> v ∉ frames (km_mem k) d lo n ->
    foreign k' d l' v /\ same_page_mem v (km_mem k) (km_mem k')) as Hkeep.
  { intros v (F1 & F2 & F3 & F4) Hv. assert (foreign k d l' v) as Hfv.
    { unfold foreign. split_and!; auto. rewrite L. apply not_elem_of_app. auto. }
    split; [|apply Hs; exact Hfv]. destruct Hfv as (G1 & G2 & G3 & G4).
    unfold foreign. split_and!; auto. intros i Hi. rewrite Et by exact Hi. auto. }
  split.
  - exact Hu'.
  - rewrite <- Hacc. unfold account. rewrite (tables_ext _ _ _ Et), L, Ecut. apply account_cut.
  - eapply Forall_impl; [exact Hheld|]. intros v [Hv Hvu]. rewrite Ecut in Hvu.
    apply not_elem_of_app in Hvu as [Hvu Hvu']. split; [apply Hkeep; assumption | exact Hvu'].
  - intros v Hv. destruct (Hfor v Hv) as (F & Fh & Fs). destruct (Hkeep v F) as [F' Fs'].
    + intros Hin. apply elem_of_frames in Hin as (b & e & Hb & Hbr & Eb & Ev); [|exact Hlo | exact Hlom | exact Ekb].
      destruct (Z.lt_ge_cases b hi) as [Hlt|Hge].
      * destruct (Hnew b Hb ltac:(lia)) as (w & W1 & Wf & W2 & _). apply Wf.
        rewrite W2 in Eb. injection Eb as <-. rewrite frame_entry in Ev by auto. congruence.
      * destruct Hb as [Hb _]. rewrite Hold, Hn in Eb by (unfold KERNBASE in *; lia). discriminate.
    + split_and!; auto. intros x Hx. rewrite Fs', Fs by exact Hx. reflexivity.
  - intros a Ha Hr. lia.
  - intros va Hva Hr. rewrite M by exact Hva. destruct (decide _) as [Hin|Hout].
    + rewrite Hn by exact Hin. reflexivity.
    + apply Hold; [exact Hva | lia].
Qed.
End Grown.

(** ** allocuvm() *)

Lemma mem_set_eq k p c n : p <> 0 -> exists k', mem_set p c n k = Ret tt k' /\
  km_mem k' = memset (km_mem k) p c n /\ km_lock k' = km_lock k /\ km_freelist k' = km_freelist k.
Proof.
  intros Hp. unfold mem_set. rewrite (proj2 (Z.eqb_neq p 0) Hp). eexists. split; [reflexivity|]. auto.
Qed.

Lemma round_up sz : 0 <= sz <= KERNBASE ->
  sz <= PGROUNDUP sz < sz + PGSIZE /\ PGROUNDUP sz mod PGSIZE = 0.
Proof.
  intros Hs. rewrite PGROUNDUP_eq by (unfold PGSIZE, KERNBASE in *; lia).
  split; [unfold PGSIZE; Z.div_mod_to_equations; lia | apply Z_mod_mult].
Qed.
Lemma round_up_kernel sz : 0 <= sz <= KERNBASE -> PGROUNDUP sz <= KERNBASE.
Proof.
  intros Hs. destruct (round_up sz Hs) as [H1 H2]. unfold PGSIZE, KERNBASE in *. Z.div_mod_to_equations. lia.
Qed.

Section Alloc.
Context (d : Z) (k0 : kmem) (l0 : list Z) (oldsz newsz : Z).
Context (Hold : 0 <= oldsz <= newsz) (Hnew : newsz < KERNBASE).
Context (Hun : forall va, PGROUNDUP oldsz <= va < PGROUNDUP newsz -> maps (km_mem k0) d va = None).

(** Zeroed pages the user may write. *)
Definition alloc_state := grown d k0 l0 (PGROUNDUP oldsz) (fun _ => Z.lor PTE_W PTE_U) (fun _ _ => 0).

Lemma alloc_flags : forall a : Z, 0 <= Z.lor PTE_W PTE_U < PGSIZE.
Proof. intros _. vm_compute. split; [discriminate | reflexivity]. Qed.

(** One page: kalloc(), memset(), mappages(). *)
Lemma alloc_page hi k l : alloc_state hi [] k l -> upage hi -> PGROUNDUP oldsz <= hi < PGROUNDUP newsz ->
  match l with
  | [] => kalloc k = Ret 0 k
  | w :: l1 => w <> 0 /\ exists k1 k2 r k3 l3, kalloc k = Ret w k1 /\ mem_set w 0 PGSIZE k1 = Ret tt k2 /\
      mappages d hi PGSIZE (V2P w) (Z.lor PTE_W PTE_U) k2 = Ret r k3 /\
      ((r = -1 /\ l3 = [] /\ alloc_state hi [w] k3 l3) \/ (r = 0 /\ alloc_state (hi + PGSIZE) [] k3 l3))
  end.
Proof.
  intros G Hhi Hr. destruct l as [|w l1].
  { exact (kalloc_eq k [] (v_kmem _ _ _ (u_vm _ _ _ (g_user _ _ _ _ _ _ _ _ _ _ G)))). }
  destruct (grown_kalloc _ _ _ _ _ _ alloc_flags hi k w l1 G) as (k1 & E1 & M1 & G1).
  pose proof (g_held _ _ _ _ _ _ _ _ _ _ G1) as Hh. apply Forall_cons in Hh as [[(Hw & _) _] _].
  assert (w <> 0) as Hnz by (unfold page_ok, KERNBASE in Hw; lia).
  pose proof (k_bytes _ _ (v_kmem _ _ _ (u_vm _ _ _ (g_user _ _ _ _ _ _ _ _ _ _ G1)))) as Hb.
  destruct (mem_set_eq k1 w 0 PGSIZE Hnz) as (k2 & E2 & M2 & L2 & F2).
  assert (forall x, km_mem k2 x = if (w <=? x) && (x <? w + PGSIZE) then 0 else km_mem k1 x) as Ms.
  { intros x. rewrite M2. apply memset_lookup. unfold PGSIZE. lia. }
  assert (alloc_state hi [w] k2 l1) as G2.
  { apply (grown_write _ _ _ _ _ _ alloc_flags hi k1); auto.
    - rewrite M2. apply memset_ok; [exact Hb | unfold PGSIZE; lia].
    - intros x Hx. rewrite Ms. unfold off_page in Hx.
      destruct (Z.leb_spec w x), (Z.ltb_spec x (w + PGSIZE)); try reflexivity; lia. }
  destruct (grown_map _ _ _ _ _ _ alloc_flags hi k2 w l1 G2 Hhi ltac:(lia) (Hun hi Hr)) as (r & k3 & l3 & E3 & Hc).
  { intros x Hx. rewrite Ms, (proj2 (Z.leb_le w (w + x))), (proj2 (Z.ltb_lt (w + x) (w + PGSIZE))) by lia. reflexivity. }
  split; [exact Hnz|]. exists k1, k2, r, k3, l3. auto.
Qed.

(** Out of memory: all pages are tables and frames, but one at most. *)
Definition out_of_memory : Prop := exists hi held k, alloc_state hi held k [] /\ PGROUNDUP oldsz <= hi <= PGROUNDUP newsz /\ (length held <= 1)%nat.

Lemma alloc_loop n : forall fuel hi k l, alloc_state hi [] k l -> hi mod PGSIZE = 0 ->
  PGROUNDUP oldsz <= hi -> hi + PGSIZE * Z.of_nat n = PGROUNDUP newsz -> (n <= fuel)%nat ->
  exists r k' l', allocuvm_loop fuel d hi oldsz newsz k = Ret r k' /\
    ((r = 0 /\ alloc_state (PGROUNDUP oldsz) [] k' l' /\ out_of_memory) \/ (r = newsz /\ alloc_state (PGROUNDUP newsz) [] k' l')).
Proof.
  pose proof (round_up oldsz ltac:(lia)) as [Ro _]. pose proof (round_up newsz ltac:(lia)) as [Rn Rm].
  induction n as [|n IH]; intros fuel hi k l G Hm Hlo Hend Hf.
  - exists newsz, k, l. rewrite Z.mul_0_r, Z.add_0_r in Hend. subst hi. split; [|right; auto].
    destruct fuel; cbn [allocuvm_loop]; rewrite (proj2 (Z.ltb_ge (PGROUNDUP newsz) newsz)) by lia; reflexivity.
  - destruct fuel as [|fuel]; [lia|]. cbn [allocuvm_loop].
    rewrite (proj2 (Z.ltb_lt hi newsz)) by (unfold PGSIZE in *; lia).
    assert (forall held k l, alloc_state hi held k l -> exists k' l', deallocuvm d newsz oldsz k = Ret oldsz k' /\
      alloc_state (PGROUNDUP oldsz) held k' l') as Hback.
    { intros held k1 l1 G1. apply (grown_dealloc _ _ _ _ _ _ alloc_flags hi held k1 l1 oldsz newsz G1); auto;
        unfold PGSIZE in *; lia. }
    pose proof (alloc_page hi k l G ltac:(split; [unfold PGSIZE in *; lia | exact Hm])
      ltac:(unfold PGSIZE in *; lia)) as Hpage. destruct l as [|w l].
    + destruct (Hback [] k [] G) as (k1 & l1 & E1 & G1). exists 0, k1, l1.
      split; [|left; split; [reflexivity|]; split; [exact G1 | exists hi, [], k; split; [exact G|]; unfold PGSIZE in *; cbn; lia]].
      step by (exact Hpage). change (0 =? 0) with true. cbn iota. step by (exact E1). reflexivity.
    + destruct Hpage as (Hnz & k1 & k2 & r & k3 & l3 & E1 & E2 & E3 & [(-> & -> & G3)|[-> G3]]).
      * destruct (Hback [w] k3 [] G3) as (k4 & l4 & E4 & G4).
        destruct (grown_kfree _ _ _ _ _ _ alloc_flags _ k4 w l4 G4) as (k5 & E5 & G5).
        exists 0, k5, (w :: l4).
        split; [|left; split; [reflexivity|]; split; [exact G5 | exists hi, [w], k3; split; [exact G3|]; unfold PGSIZE in *; cbn; lia]].
        step by (exact E1).
        rewrite (proj2 (Z.eqb_neq w 0) Hnz). step by (exact E2). step by (exact E3).
        change (-1 <? 0) with true. cbn iota. step by (exact E4). step by (exact E5). reflexivity.
      * destruct (IH fuel (hi + PGSIZE) k3 l3 G3) as (r & k4 & l4 & E4 & Hc).
        { unfold PGSIZE in *. Z.div_mod_to_equations. lia. } { unfold PGSIZE in *. lia. }
        { unfold PGSIZE in *. lia. } { lia. }
        exists r, k4, l4. split; [|exact Hc]. step by (exact E1).
        rewrite (proj2 (Z.eqb_neq w 0) Hnz). step by (exact E2). step by (exact E3).
        change (0 <? 0) with false. cbn iota. rewrite u32_small by (unfold PGSIZE, KERNBASE in *; lia). exact E4.
Qed.

Lemma allocuvm_grown : user_ok k0 d l0 -> exists r k' l', allocuvm d oldsz newsz k0 = Ret r k' /\
  ((r = 0 /\ alloc_state (PGROUNDUP oldsz) [] k' l' /\ out_of_memory) \/ (r = newsz /\ alloc_state (PGROUNDUP newsz) [] k' l')).
Proof.
  intros Hu. destruct (round_up oldsz ltac:(lia)) as [Ro Rm]. destruct (round_up newsz ltac:(lia)) as [Rn Rm'].
  unfold allocuvm. rewrite (proj2 (Z.leb_gt KERNBASE newsz)), (proj2 (Z.ltb_ge newsz oldsz)) by lia.
  apply (alloc_loop (Z.to_nat ((PGROUNDUP newsz - PGROUNDUP oldsz) / PGSIZE)) _ _ _ l0).
  - apply grown_0; [exact alloc_flags | exact Hu].
  - exact Rm.
  - lia.
  - unfold PGSIZE in *. Z.div_mod_to_equations. lia.
  - unfold PGSIZE in *. Z.div_mod_to_equations. lia.
Qed.
End Alloc.

(** C27. allocuvm() grows an address space by zeroed pages or not at all: when
    the pages between the two sizes are not mapped, it returns the new size
    with each of them mapped to a zeroed page of its own, writable by the
    user, or 0 with every translation as before.  In both cases no page is
    lost or used twice: tables, frames and free list hold the pages they held
    before; and pages that were neither free nor part of the page table are
    left alone. *)
Theorem allocuvm_ok (k : kmem) (pgdir oldsz newsz : Z) (l : list Z) (Hu : user_ok k pgdir l)
    (Hsz : 0 <= oldsz <= newsz) (Hnew : newsz < KERNBASE)
    (Hun : forall va, PGROUNDUP oldsz <= va < PGROUNDUP newsz -> maps (km_mem k) pgdir va = None) :
  exists r k' l', allocuvm pgdir oldsz newsz k = Ret r k' /\ user_ok k' pgdir l' /\
    account pgdir k' l' ≡ₚ account pgdir k l /\
    (forall w, foreign k pgdir l w -> foreign k' pgdir l' w /\ same_page_mem w (km_mem k) (km_mem k')) /\
    ((r = 0 /\ forall va, 0 <= va < 2 ^ 32 -> maps (km_mem k') pgdir va = maps (km_mem k) pgdir va) \/
     (r = newsz /\
      (forall a, upage a -> PGROUNDUP oldsz <= a < newsz -> exists w, page_ok w /\
         maps (km_mem k') pgdir a = Some (entry (V2P w) (Z.lor PTE_W PTE_U)) /\
         forall x, w <= x < w + PGSIZE -> km_mem k' x = 0) /\
      forall va, 0 <= va < 2 ^ 32 -> ~ PGROUNDUP oldsz <= va < PGROUNDUP newsz ->
        maps (km_mem k') pgdir va = maps (km_mem k) pgdir va)).
Proof.
  destruct (allocuvm_grown pgdir k l oldsz newsz Hsz Hnew Hun Hu) as (r & k' & l' & E & Hc).
  exists r, k', l'. split; [exact E|].
  assert (exists hi, alloc_state pgdir k l oldsz hi [] k' l') as [hi [Gu Ga _ Gf _ _]]
    by (destruct Hc as [(_ & G & _)|[_ G]]; eauto).
  split; [exact Gu|]. rewrite app_nil_l in Ga. split; [exact Ga|]. split; [intros w Hw; split; apply (Gf w Hw)|].
  destruct Hc as [(-> & [_ _ _ _ _ Go] & _)|[-> [_ _ _ _ Gn Go]]]; [left|right]; (split; [reflexivity|]).
  - intros va Hva. apply Go; [exact Hva | lia].
  - split; [|exact Go]. intros a Ha Hr. pose proof (round_up newsz ltac:(lia)).
    destruct (Gn a Ha ltac:(lia)) as (w & W1 & _ & W2 & W3). exists w. split_and!; auto.
    intros x Hx. replace x with (w + (x - w)) by lia. apply W3. lia.
Qed.
End Proofs.

Section Witnesses.
#[local] Instance one_cpu : Ctx := {| cpu_id := 0; cur_pid := 1 |}.
#[local] Instance linked : Linked := {| kernel_data := 0x80108000; kernel_end := 0x80115000 |}.

(** An empty directory is an address space without pages. *)
Lemma demo_user_ok : user_ok demo_kmem 0x80200000 [0x80300000].
Proof.
  split; [apply demo_vm_ok|..].
  - intros a e _. discriminate.
  - intros a b e f _ _. discriminate.
Qed.

(** One free page is not enough for a page and its table. *)
Example allocuvm_ok_witness : exists r k' l', allocuvm 0x80200000 0 5000 demo_kmem = Ret r k' /\
  user_ok k' 0x80200000 l' /\ account 0x80200000 k' l' ≡ₚ account 0x80200000 demo_kmem [0x80300000].
Proof.
  destruct (allocuvm_ok demo_kmem 0x80200000 0 5000 [0x80300000] demo_user_ok) as (r & k' & l' & E & U & A & _);
    [lia | unfold KERNBASE; lia | reflexivity |].
  exists r, k', l'. auto.
Defined.
End Witnesses.
