(* ===== verification/VmFork.v ===== *)
(** * Page tables: making and copying address spaces

    [setupkvm()] and [copyuvm()] of [vm.c], and the round trip of a page
    table: what setupkvm() and allocuvm() take, freevm() gives back. *)
From S2P Require Import Prelude.
From S2P Require Import CString.
From S2P Require Import Kalloc.
From S2P Require Import Vm.
From S2P Require Import VmProofs.
From S2P Require Import VmFree.
From S2P Require Import VmGrow.

(** What [kernel.ld] promises: the data segment starts on a page boundary
    after the text, inside the physical memory. *)
Definition layout_ok `{Linked} : Prop :=
  kernel_data mod PGSIZE = 0 /\ KERNLINK < kernel_data < KERNBASE + PHYSTOP.

Section Proofs.
Context `{Ctx} `{Linked}.
Implicit Types (k : kmem) (m : mem) (l : list Z).

(** Only kernel addresses below [hi] are mapped. *)
Definition kernel_only m (pgdir hi : Z) : Prop :=
  forall va, 0 <= va < 2 ^ 32 -> ~ KERNBASE <= va < hi -> maps m pgdir va = None.

Lemma kernel_only_user k d l hi : vm_ok k d l -> kernel_only (km_mem k) d hi ->
  user_ok k d l /\ user_frames (km_mem k) d = [].
Proof.
  intros Hok Hn. assert (forall a, upage a -> maps (km_mem k) d a = None) as Hu.
  { intros a [Ha _]. apply Hn; unfold KERNBASE in *; lia. }
  split; [split; [exact Hok| |]|].
  - intros a e Ha. rewrite Hu by exact Ha. discriminate.
  - intros a b e f Ha. rewrite Hu by exact Ha. discriminate.
  - destruct (user_frames (km_mem k) d) as [|w ws] eqn:E; [reflexivity|].
    assert (w ∈ user_frames (km_mem k) d) as Hw by (rewrite E; left).
    apply elem_of_user in Hw as (a & e & Ha & Ee & _). rewrite Hu in Ee by exact Ha. discriminate.
Qed.

(** A line of kmap[] above [hi]: a range of whole pages. *)
Definition line_ok (hi : Z) (ln : Z * Z * Z * Z) : Prop :=
  let '(virt, phys_start, phys_end, perm) := ln in
  let size := u32 (phys_end - phys_start) in
  KERNBASE <= virt /\ hi <= virt /\ (exists n, size = PGSIZE * Z.of_nat (S n)) /\ virt mod PGSIZE = 0 /\
  virt + size <= 2 ^ 32 /\ phys_start mod PGSIZE = 0 /\ 0 <= phys_start /\ phys_start + size <= 2 ^ 32 /\
  0 <= perm < PGSIZE.
Definition line_end (ln : Z * Z * Z * Z) : Z :=
  let '(virt, phys_start, phys_end, perm) := ln in virt + u32 (phys_end - phys_start).
Fixpoint lines_ok (hi : Z) (lns : list (Z * Z * Z * Z)) : Prop :=
  match lns with [] => True | ln :: lns' => line_ok hi ln /\ lines_ok (line_end ln) lns' end.
(** Its addresses are translated as it says. *)
Definition translated m (pgdir : Z) (ln : Z * Z * Z * Z) : Prop :=
  let '(virt, phys_start, phys_end, perm) := ln in
  forall va, virt <= va < virt + u32 (phys_end - phys_start) ->
    maps m pgdir va = Some (entry (phys_start + (PGROUNDDOWN va - virt)) perm).

(** No translation is for the user. *)
Definition no_user m (pgdir : Z) : Prop := forall va e, 0 <= va < 2 ^ 32 -> maps m pgdir va = Some e -> bitset e PTE_U = false.
Lemma entry_user pa perm : pa mod PGSIZE = 0 -> bitset (entry pa perm) PTE_U = bitset perm PTE_U.
Proof.
  intros Hp. unfold bitset, entry. rewrite !Z.land_lor_distr_l. change (Z.land PTE_P PTE_U) with 0. rewrite Z.lor_0_r.
  assert (Z.land pa PTE_U = 0) as ->; [|reflexivity]. apply Z.mod_divide in Hp as [q ->]; [|discriminate].
  apply Z.bits_inj'. intros i Hi. rewrite Z.land_spec, Z.bits_0. change PGSIZE with (2 ^ 12). rewrite <- Z.shiftl_mul_pow2 by lia.
  destruct (decide (i < 12)) as [Hlt|Hge]; [rewrite Z.shiftl_spec_low by exact Hlt; reflexivity|].
  change PTE_U with (Z.shiftl 1 2). rewrite (Z.shiftl_spec 1 2) by exact Hi. rewrite (Z.bits_above_log2 1) by (cbn; lia). apply andb_false_r.
Qed.
Lemma tables_length m d : (length (tables m d) <= 1024)%nat.
Proof.
  transitivity (length dir_index); [|exact (eq_ind_r (fun n => (n <= 1024)%nat) (le_n _) (length_seqZ 0 NPDENTRIES))].
  unfold tables. induction dir_index as [|i js IH]; [reflexivity|]. cbn. destruct (table_at m d i); cbn; lia.
Qed.

Lemma kmap_step k d l hi virt ps pe perm : vm_ok k d l -> kernel_only (km_mem k) d hi ->
  line_ok hi (virt, ps, pe, perm) ->
  exists r k' l', mappages d virt (u32 (pe - ps)) ps perm k = Ret r k' /\ vm_ok k' d l' /\ extends d k l k' l' /\
    kernel_only (km_mem k') d (line_end (virt, ps, pe, perm)) /\
    (bitset perm PTE_U = false -> no_user (km_mem k) d -> no_user (km_mem k') d) /\
    (r = -1 /\ l' = [] \/ r = 0 /\ translated (km_mem k') d (virt, ps, pe, perm) /\
       forall va, 0 <= va < virt -> maps (km_mem k') d va = maps (km_mem k) d va).
Proof.
  intros Hok Hn (Hv & Hhi & (n & Hs) & Hvm & Hve & Hp & Hp0 & Hpe & Hperm). cbn [line_end translated].
  set (size := u32 (pe - ps)) in *.
  destruct (mappages_aligned k d virt n size ps perm l Hok Hs Hvm) as (r & k' & l' & E & K & X & j & Hj & M); auto.
  - unfold KERNBASE in Hv. lia.
  - intros i Hi. apply Hn; unfold PGSIZE, KERNBASE in *; lia.
  - exists r, k', l'. split_and!; auto.
    + intros va Hva Hout. rewrite M by exact Hva.
      rewrite decide_False by (unfold PGSIZE in *; lia). apply Hn; [exact Hva|]. unfold PGSIZE in *. lia.
    + intros Hpu Hnu va e Hva. rewrite M by exact Hva. destruct (decide _) as [Hin|_]; [|apply Hnu; exact Hva].
      intros [= <-]. rewrite entry_user; [exact Hpu|]. unfold PGSIZE in *. Z.div_mod_to_equations. lia.
    + destruct Hj as [(-> & -> & _)|[-> ->]]; [left; auto | right]. unfold mapped_pages in M.
      rewrite <- Hs in M. split_and!; auto.
      * intros va Hva. rewrite M, decide_True by (unfold KERNBASE in *; lia).
        rewrite PGROUNDDOWN_eq by (unfold KERNBASE in *; lia). reflexivity.
      * intros va Hva. rewrite M, decide_False by (unfold PGSIZE in *; lia). reflexivity.
Qed.

(** The loop of setupkvm(): all lines are mapped, or the whole table is
    given back. *)
Lemma kmap_loop d lns : forall k l hi, vm_ok k d l -> kernel_only (km_mem k) d hi -> lines_ok hi lns ->
  exists o k' l', for_each lns (fun ln =>
      let '(virt, phys_start, phys_end, perm) := ln in
      let! r := mappages d virt (u32 (phys_end - phys_start)) phys_start perm in
      if r <? 0 then freevm d ;! ret (Some tt) else ret None) k = Ret o k' /\
    ((o = Some tt /\ kmem_ok k' l' /\ l' ≡ₚ d :: tables (km_mem k) d ++ l /\ (length (tables (km_mem k) d ++ l) <= 1024)%nat /\
      (forall w, foreign k d l w -> same_page_mem w (km_mem k) (km_mem k'))) \/
     (o = None /\ vm_ok k' d l' /\ extends d k l k' l' /\ kernel_only (km_mem k') d (2 ^ 32) /\
      (forall ln, ln ∈ lns -> translated (km_mem k') d ln) /\
      ((forall ln, ln ∈ lns -> bitset ln.2 PTE_U = false) -> no_user (km_mem k) d -> no_user (km_mem k') d) /\
      forall va, 0 <= va < hi -> maps (km_mem k') d va = maps (km_mem k) d va)).
Proof.
  induction lns as [|[[[virt ps] pe] perm] lns IH]; intros k l hi Hok Hn Hl.
  - exists None, k, l. split; [reflexivity|]. right. split_and!; auto using extends_refl.
    + intros va Hva Hout. apply Hn; [exact Hva | lia].
    + intros ln Hln. apply elem_of_nil in Hln. contradiction.
  - cbn [for_each lines_ok] in *. destruct Hl as [Hl Hls].
    destruct (kmap_step k d l hi virt ps pe perm Hok Hn Hl) as (r & k1 & l1 & E1 & K1 & X1 & N1 & U1 & Hc).
    pose proof Hl as (Hv & Hhi & (n & Hs) & _).
    destruct Hc as [[-> ->]|(-> & T1 & M1)].
    + destruct (kernel_only_user k1 d [] _ K1 N1) as [U1' F1].
      destruct (freevm_ok k1 d [] U1') as (k2 & l2 & E2 & K2 & L2 & S2).
      rewrite F1 in L2. cbn [app] in L2. rewrite (x_tables _ _ _ _ _ X1) in L2.
      exists (Some tt), k2, l2. split; [|left; split_and!; auto].
      * rewrite bind_assoc. step by (exact E1). change (-1 <? 0) with true. cbn iota.
        rewrite bind_assoc. step by (exact E2). step by reflexivity. reflexivity.
      * rewrite <- (x_tables _ _ _ _ _ X1), app_nil_r. apply tables_length.
      * intros w Hw x Hx. destruct (x_pages _ _ _ _ _ X1 w Hw) as [(W1 & W2 & W3 & W4) Sw].
        rewrite (S2 w W1); [apply Sw; exact Hx | | exact Hx].
        rewrite L2, <- (x_tables _ _ _ _ _ X1). apply not_elem_of_cons. split; [exact W2|].
        apply not_elem_of_app. split; [|exact W3]. rewrite elem_of_tables. intros (i & Hi & Ei). exact (W4 i Hi Ei).
    + destruct (IH k1 l1 _ K1 N1 Hls) as (o & k2 & l2 & E2 & Hc2). exists o, k2, l2. split.
      { rewrite bind_assoc. step by (exact E1). change (0 <? 0) with false. cbn iota.
        step by reflexivity. exact E2. }
      destruct Hc2 as [(-> & K2 & L2 & B2 & S2)|(-> & K2 & X2 & N2 & T2 & U2 & M2)]; [left|right]; split_and!; auto.
      * rewrite L2, (x_tables _ _ _ _ _ X1). reflexivity.
      * rewrite <- (x_tables _ _ _ _ _ X1). exact B2.
      * intros w Hw x Hx. destruct (x_pages _ _ _ _ _ X1 w Hw) as [W1 Sw]. rewrite (S2 w W1), Sw by exact Hx.
        reflexivity.
      * exact (extends_trans _ _ _ _ _ _ _ X1 X2).
      * intros ln [->|Hln]%elem_of_cons; [|apply T2; exact Hln]. intros va Hva.
        rewrite M2 by (cbn [line_end]; unfold KERNBASE in *; lia). apply T1. exact Hva.
      * intros Hls' Hnu. apply U2; [intros ln Hln; apply Hls'; right; exact Hln|]. apply U1; [exact (Hls' _ ltac:(left)) | exact Hnu].
      * intros va Hva. rewrite M2 by (cbn [line_end]; unfold PGSIZE in *; lia). apply M1. lia.
Qed.

(** The directory setupkvm() starts with: a zeroed page. *)
Lemma empty_dir k k' pgdir l : kmem_ok k l -> page_ok pgdir -> pgdir ∉ l ->
  km_mem k' = memset (km_mem k) pgdir 0 PGSIZE -> km_lock k' = km_lock k -> km_freelist k' = km_freelist k ->
  vm_ok k' pgdir l /\ kernel_only (km_mem k') pgdir 0 /\ tables (km_mem k') pgdir = [] /\
  forall w, page_ok w -> w <> pgdir -> w ∉ l ->
    foreign k' pgdir l w /\ same_page_mem w (km_mem k) (km_mem k').
Proof.
  intros [Hlk Hc Hp Hnd Hb] Hd Hdl Em El Ef.
  assert (forall x, km_mem k' x = if (pgdir <=? x) && (x <? pgdir + PGSIZE) then 0 else km_mem k x) as Ms.
  { intros x. rewrite Em. apply memset_lookup. unfold PGSIZE. lia. }
  assert (forall i, 0 <= i < 1024 -> table_at (km_mem k') pgdir i = None) as Et.
  { intros i Hi. pose proof (word_in pgdir i Hi) as [W1 W2]. unfold table_at, load32. rewrite !Ms.
    rewrite !(proj2 (Z.leb_le pgdir _)), !(proj2 (Z.ltb_lt _ (pgdir + PGSIZE))) by lia. reflexivity. }
  assert (forall w, page_ok w -> w <> pgdir -> same_page_mem w (km_mem k) (km_mem k')) as Hs.
  { intros w Hw Hne x Hx. rewrite Ms. destruct (pages_apart pgdir w Hd Hw ltac:(congruence));
      destruct (Z.leb_spec pgdir x), (Z.ltb_spec x (pgdir + PGSIZE)); try reflexivity; lia. }
  assert (vm_ok k' pgdir l) as Hok.
  { split; [constructor|..]; auto.
    - congruence.
    - rewrite Ef. eapply chain_ext; [|exact Hc]. intros x Hx. rewrite Forall_forall in Hp.
      pose proof (same_page_word x (km_mem k) (km_mem k') 0) as Hw. rewrite Z.mul_0_r, Z.add_0_r in Hw.
      apply Hw; [|lia]. apply Hs; [apply Hp; exact Hx | congruence].
    - rewrite Em. apply memset_ok; [exact Hb | unfold PGSIZE; lia].
    - intros i t Hi. rewrite Et by exact Hi. discriminate.
    - intros i j t Hi Hj. rewrite Et by exact Hi. discriminate. }
  split; [exact Hok|]. split; [|split].
  - intros va _ _. unfold maps. rewrite Et by apply PDX_range. reflexivity.
  - destruct (tables (km_mem k') pgdir) as [|t ts] eqn:E; [reflexivity|].
    assert (t ∈ tables (km_mem k') pgdir) as Ht by (rewrite E; left).
    apply elem_of_tables in Ht as (i & Hi & Ei). rewrite Et in Ei by exact Hi. discriminate.
  - intros w Hw Hne Hwl. split; [|apply Hs; assumption]. unfold foreign. split_and!; auto.
    intros i Hi. rewrite Et by exact Hi. discriminate.
Qed.

Lemma line_ok_intro hi virt ps pe perm size : u32 (pe - ps) = size -> KERNBASE <= virt -> hi <= virt ->
  0 < size -> size mod PGSIZE = 0 -> virt mod PGSIZE = 0 -> virt + size <= 2 ^ 32 -> ps mod PGSIZE = 0 -> 0 <= ps ->
  ps + size <= 2 ^ 32 -> 0 <= perm < PGSIZE -> line_ok hi (virt, ps, pe, perm).
Proof.
  intros Es ? ? Hpos Hm ? ? ? ? ? ?. unfold line_ok. rewrite Es. split_and!; auto; try lia.
  exists (Z.to_nat (size / PGSIZE - 1)). unfold PGSIZE in *. Z.div_mod_to_equations. lia.
Qed.

Lemma kmap_ok : layout_ok -> lines_ok 0 kmap.
Proof.
  intros [Hm Hr]. unfold KERNLINK, KERNBASE, EXTMEM, PHYSTOP in Hr.
  assert (V2P kernel_data = kernel_data - KERNBASE) as Ev
    by (unfold V2P; apply u32_small; unfold KERNBASE; lia).
  assert (u32 (V2P kernel_data - V2P KERNLINK) = kernel_data - KERNLINK) as E2.
  { rewrite Ev. change (V2P KERNLINK) with EXTMEM. rewrite u32_small; unfold KERNLINK, KERNBASE, EXTMEM; lia. }
  assert (u32 (PHYSTOP - V2P kernel_data) = KERNBASE + PHYSTOP - kernel_data) as E3.
  { rewrite Ev. rewrite u32_small; unfold KERNBASE, PHYSTOP; lia. }
  assert (PTE_W = 2) as EW by reflexivity.
  cbn [lines_ok kmap line_end]. split; [|split; [|split; [|split; [|exact I]]]].
  - apply (line_ok_intro _ _ _ _ _ EXTMEM); try reflexivity; unfold KERNBASE, EXTMEM, PTE_W, PGSIZE; lia.
  - apply (line_ok_intro _ _ _ _ _ _ E2); try reflexivity; change (V2P KERNLINK) with EXTMEM;
      change (u32 (EXTMEM - 0)) with EXTMEM; unfold KERNLINK, KERNBASE, EXTMEM, PGSIZE in *;
      try lia; Z.div_mod_to_equations; lia.
  - apply (line_ok_intro _ _ _ _ _ _ E3); rewrite ?E2, ?Ev; unfold KERNLINK, KERNBASE, EXTMEM, PHYSTOP, PTE_W, PGSIZE in *;
      try lia; Z.div_mod_to_equations; lia.
  - apply (line_ok_intro _ _ _ _ _ 0x2000000); rewrite ?E3; try reflexivity;
      unfold DEVSPACE, KERNBASE, PHYSTOP, PTE_W, PGSIZE; lia.
Qed.

(** setupkvm(): a directory with the kernel part only, or everything back. *)
Lemma setupkvm_eq k l : layout_ok -> kmem_ok k l ->
  exists r k' l', setupkvm k = Ret r k' /\ kmem_ok k' l' /\
    (forall w, page_ok w -> w ∉ l -> same_page_mem w (km_mem k) (km_mem k')) /\
    ((r = 0 /\ l' ≡ₚ l /\ (length l <= 1025)%nat) \/
     (page_ok r /\ r ∈ l /\ user_ok k' r l' /\ r :: account r k' l' ≡ₚ l /\ kernel_only (km_mem k') r (2 ^ 32) /\
      (forall ln, ln ∈ kmap -> translated (km_mem k') r ln) /\ no_user (km_mem k') r /\
      forall w, page_ok w -> w ∉ l -> foreign k' r l' w)).
Proof.
  intros Hlay Hk. pose proof (kalloc_eq k l Hk) as Ha. destruct l as [|d l].
  { exists 0, k, []. split; [unfold setupkvm; step by (exact Ha); reflexivity|].
    split_and!; auto; [intros w _ _ x _; reflexivity | left; cbn; split_and!; auto; lia]. }
  destruct Ha as (k1 & E1 & K1 & _ & M1). destruct Hk as [_ _ Hp Hnd _].
  apply Forall_cons in Hp as [Hd _]. apply NoDup_cons in Hnd as [Hdl _].
  assert (d <> 0) as Hnz by (unfold page_ok, KERNBASE in Hd; lia).
  destruct (mem_set_eq k1 d 0 PGSIZE Hnz) as (k2 & E2 & M2 & L2 & F2).
  destruct (empty_dir k1 k2 d l K1 Hd Hdl M2 L2 F2) as (V2 & N2 & T2 & W2).
  destruct (kmap_loop d kmap k2 l 0 V2 N2 (kmap_ok Hlay)) as (o & k3 & l3 & E3 & Hc).
  assert (exists r, setupkvm k = Ret r k3 /\ r = match o with Some _ => 0 | None => d end) as (r & E & Er).
  { eexists. split; [|reflexivity]. unfold setupkvm. step by (exact E1).
    rewrite (proj2 (Z.eqb_neq d 0) Hnz). step by (exact E2).
    step by (apply panic_if_false; reflexivity). step by (exact E3). destruct o; reflexivity. }
  exists r, k3, l3. split; [exact E|]. subst r.
  destruct Hc as [(-> & K3 & P3 & B3 & S3)|(-> & V3 & X3 & N3 & T3 & NU3 & _)].
  - rewrite T2 in P3, B3. cbn [app] in P3, B3. split; [exact K3|]. split; [|left; split_and!; auto; cbn [length]; lia].
    intros w Hw [Hwd Hwl]%not_elem_of_cons x Hx. destruct (W2 w Hw Hwd Hwl) as [Wf Ws].
    rewrite (S3 w Wf), Ws, M1 by exact Hx. reflexivity.
  - destruct (kernel_only_user k3 d l3 _ V3 N3) as [U3 F3]. split; [apply V3|].
    assert (forall w, page_ok w -> w ∉ d :: l -> foreign k3 d l3 w /\ same_page_mem w (km_mem k) (km_mem k3)) as Hw.
    { intros w Hw [Hwd Hwl]%not_elem_of_cons. destruct (W2 w Hw Hwd Hwl) as [Wf Ws].
      destruct (x_pages _ _ _ _ _ X3 w Wf) as [Wf' Ws']. split; [exact Wf'|]. intros x Hx.
      rewrite Ws', Ws, M1 by exact Hx. reflexivity. }
    split; [intros w H1 H2; apply Hw; assumption|]. right. split_and!; try assumption; [left | | |].
    + apply perm_skip. unfold account. rewrite F3. cbn [app]. pose proof (x_tables _ _ _ _ _ X3) as Xt.
      rewrite T2 in Xt. exact Xt.
    + apply NU3; [|intros va e Hva Em; rewrite N2 in Em by lia; discriminate].
      intros ln Hln. repeat (apply elem_of_cons in Hln as [->|Hln]; [reflexivity|]). apply elem_of_nil in Hln. destruct Hln.
    + intros w H1 H2. apply Hw; assumption.
Qed.

(** ** copyuvm() *)

(** A page table all of whose pages kept their contents denotes the same. *)
Lemma user_kept k p l m : user_ok k p l ->
  (forall w, page_ok w -> w ∉ l -> same_page_mem w (km_mem k) m) ->
  (forall i, 0 <= i < 1024 -> table_at m p i = table_at (km_mem k) p i) /\
  (forall va, maps m p va = maps (km_mem k) p va) /\
  forall a e, upage a -> maps (km_mem k) p a = Some e -> same_page_mem (frame e) (km_mem k) m.
Proof.
  intros [[_ [Hd Hdl] Ht _] Hpg _] Hs.
  assert (forall i, 0 <= i < 1024 -> table_at m p i = table_at (km_mem k) p i) as Et.
  { intros i Hi. unfold table_at. rewrite (same_page_word p (km_mem k)) by auto. reflexivity. }
  split; [exact Et|]. split.
  - apply maps_ext; [exact Et|]. intros i t j Hi Hj Ei. destruct (Ht i t Hi Ei) as (T1 & _ & T3).
    apply same_page_word; [|exact Hj]. apply Hs; assumption.
  - intros a e Ha Ee. destruct (Hpg a e Ha Ee) as (F1 & _ & F3 & _). apply Hs; assumption.
Qed.

Lemma PTE_FLAGS_eq e : 0 <= e < 2 ^ 32 -> PTE_FLAGS e = e mod PGSIZE.
Proof. intros He. unfold PTE_FLAGS. rewrite u32_small by exact He. exact (Z.land_ones e 12 ltac:(lia)). Qed.
Lemma PTE_FLAGS_range e : 0 <= PTE_FLAGS e < PGSIZE.
Proof.
  unfold PTE_FLAGS. change 0xFFF with (Z.ones 12). rewrite Z.land_ones by lia. apply Z.mod_pos_bound. reflexivity.
Qed.
Lemma lor_odd x : 0 <= x -> x mod 2 <> 0 -> Z.lor x 1 = x.
Proof.
  intros Hx Ho. assert (x = Z.lor (x - 1) 1) as E.
  { rewrite (lor_add (x - 1) 1 1) by (try lia; Z.div_mod_to_equations; lia). lia. }
  rewrite E at 1. rewrite <- Z.lor_assoc, Z.lor_diag. symmetry. exact E.
Qed.
(** The flags of a copied entry are those of the original. *)
Lemma entry_flags w e : page_ok w -> 0 <= e < 2 ^ 32 -> bitset e PTE_P = true ->
  PTE_FLAGS (entry (V2P w) (PTE_FLAGS e)) = PTE_FLAGS e.
Proof.
  intros Hw He HP. destruct (P2V_V2P w Hw) as (Va & Vr & _). pose proof (PTE_FLAGS_range e) as Hf.
  assert (Z.lor (PTE_FLAGS e) PTE_P = PTE_FLAGS e) as Elor.
  { rewrite bitset_P in HP by lia. apply negb_true_iff, Z.eqb_neq in HP. rewrite PTE_FLAGS_eq by exact He.
    apply lor_odd; unfold PGSIZE; Z.div_mod_to_equations; lia. }
  unfold entry. rewrite <- Z.lor_assoc, Elor, (lor_add _ _ 12) by (try exact Va; unfold PGSIZE in *; lia).
  rewrite (PTE_FLAGS_eq (V2P w + _)) by (unfold PGSIZE in *; Z.div_mod_to_equations; lia).
  unfold PGSIZE in *. Z.div_mod_to_equations. lia.
Qed.

Lemma mem_move_eq k dst src n : dst <> 0 -> exists k', mem_move dst src n k = Ret tt k' /\
  km_mem k' = memmove (km_mem k) dst src n /\ km_lock k' = km_lock k /\ km_freelist k' = km_freelist k.
Proof.
  intros Hp. unfold mem_move. rewrite (proj2 (Z.eqb_neq dst 0) Hp). eexists. split; [reflexivity|]. auto.
Qed.
Lemma memmove_ok m dst src n : bytes_ok m -> 0 <= n -> bytes_ok (memmove m dst src n).
Proof. intros Hb Hn x. rewrite memmove_lookup by assumption. destruct (_ && _); apply Hb. Qed.

Section Copy.
(** The parent's table [p] before the call, and the state after setupkvm(). *)
Context (k : kmem) (p : Z) (l : list Z) (d : Z) (k0 : kmem) (l0 : list Z).
Context (Hp : user_ok k p l).
Context (Hk0 : forall w, page_ok w -> w ∉ l -> foreign k0 d l0 w /\ same_page_mem w (km_mem k) (km_mem k0)).
Context (Hkern : kernel_only (km_mem k0) d (2 ^ 32)).

Definition parent (a : Z) : Z := default 0 (maps (km_mem k) p a).
(** The child has copies of the parent's pages below [hi]. *)
Definition copy_state : Z -> list Z -> kmem -> list Z -> Prop :=
  grown d k0 l0 0 (fun a => PTE_FLAGS (parent a)) (fun a x => km_mem k (frame (parent a) + x)).

Lemma copy_flags a : 0 <= PTE_FLAGS (parent a) < PGSIZE.
Proof. apply PTE_FLAGS_range. Qed.

Lemma copy_kept hi held k1 l1 w : copy_state hi held k1 l1 -> page_ok w -> w ∉ l ->
  same_page_mem w (km_mem k) (km_mem k1).
Proof.
  intros G Hw Hwl x Hx. destruct (Hk0 w Hw Hwl) as [F S].
  destruct (g_foreign _ _ _ _ _ _ _ _ _ _ G w F) as (_ & _ & S1). rewrite S1, S by exact Hx. reflexivity.
Qed.

(** One page: the copy is made and mapped, or memory runs out. *)
Lemma copy_page hi k1 l1 e fuel sz : copy_state hi [] k1 l1 -> upage hi -> hi < sz ->
  maps (km_mem k) p hi = Some e ->
  (exists k2 l2, copyuvm_loop (S fuel) p d hi sz k1 = Ret false k2 /\ copy_state hi [] k2 l2) \/
  (exists k2 l2, copyuvm_loop (S fuel) p d hi sz k1 = copyuvm_loop fuel p d (hi + PGSIZE) sz k2 /\
     copy_state (hi + PGSIZE) [] k2 l2).
Proof.
  intros G Hhi Hlt Ee. pose proof Hhi as [Hhr Hhm].
  destruct (user_kept k p l (km_mem k1) Hp (fun w => copy_kept hi [] k1 l1 w G)) as (Etab & Em & Hs).
  pose proof (Em hi) as Ee1. rewrite Ee in Ee1. destruct (maps_table _ _ _ _ Ee1) as (t & Et & El & EP).
  assert (parent hi = e) as Epar by (unfold parent; rewrite Ee; reflexivity).
  cbn [copyuvm_loop]. rewrite (proj2 (Z.ltb_lt hi sz) Hlt), (bind_eq _ _ _ _ _ (walk_noalloc k1 p hi)), Et.
  assert (t + 4 * PTX hi <> 0) as Hnz.
  { rewrite Etab in Et by apply PDX_range. pose proof (PTX_range hi).
    destruct (v_tab _ _ _ (u_vm _ _ _ Hp) _ _ (PDX_range hi) Et) as (Tp & _). unfold page_ok, KERNBASE in Tp. lia. }
  step by (apply panic_if_false, Z.eqb_neq; exact Hnz).
  assert (load_ptr (t + 4 * PTX hi) k1 = Ret e k1) as Eld.
  { unfold load_ptr. rewrite (proj2 (Z.eqb_neq _ _) Hnz), <- El. reflexivity. }
  step by (exact Eld).
  step by (apply panic_if_false; rewrite EP; reflexivity). cbv zeta. fold (frame e).
  pose proof (kalloc_eq k1 l1 (v_kmem _ _ _ (u_vm _ _ _ (g_user _ _ _ _ _ _ _ _ _ _ G)))) as Ek.
  destruct l1 as [|w l1].
  { left. exists k1, []. split; [|exact G]. step by (exact Ek). reflexivity. }
  destruct (grown_kalloc _ _ _ _ _ _ copy_flags hi k1 w l1 G) as (k2 & E2 & M2 & G2).
  pose proof (g_held _ _ _ _ _ _ _ _ _ _ G2) as Hh. apply Forall_cons in Hh as [[(Hw & _) _] _].
  assert (w <> 0) as Hwz by (unfold page_ok, KERNBASE in Hw; lia).
  destruct (mem_move_eq k2 w (frame e) PGSIZE Hwz) as (k3 & E3 & M3 & L3 & F3).
  pose proof (k_bytes _ _ (v_kmem _ _ _ (u_vm _ _ _ (g_user _ _ _ _ _ _ _ _ _ _ G2)))) as Hb.
  assert (forall x, km_mem k3 x = if (w <=? x) && (x <? w + PGSIZE) then km_mem k2 (frame e + (x - w)) else km_mem k2 x)
    as Ms by (intros x; rewrite M3; apply memmove_lookup; [exact Hb | unfold PGSIZE; lia]).
  assert (copy_state hi [w] k3 l1) as G3.
  { apply (grown_write _ _ _ _ _ _ copy_flags hi k2); auto.
    - rewrite M3. apply memmove_ok; [exact Hb | unfold PGSIZE; lia].
    - intros x Hx. rewrite Ms. unfold off_page in Hx.
      destruct (Z.leb_spec w x), (Z.ltb_spec x (w + PGSIZE)); try reflexivity; lia. }
  destruct (grown_map _ _ _ _ _ _ copy_flags hi k3 w l1 G3 Hhi ltac:(lia)) as (r & k4 & l4 & E4 & Hc).
  { apply Hkern; unfold KERNBASE in *; lia. }
  { intros x Hx. cbv beta. rewrite Ms, (proj2 (Z.leb_le w (w + x))), (proj2 (Z.ltb_lt (w + x) (w + PGSIZE))) by lia.
    cbn [andb]. rewrite Epar, M2. replace (w + x - w) with x by lia. apply (Hs hi e Hhi Ee). lia. }
  rewrite Epar in E4. destruct Hc as [(-> & -> & G4)|[-> G4]].
  - left. destruct (grown_kfree _ _ _ _ _ _ copy_flags hi k4 w [] G4) as (k5 & E5 & G5). exists k5, [w].
    split; [|exact G5]. step by (exact E2). rewrite (proj2 (Z.eqb_neq w 0) Hwz). step by (exact E3).
    step by (exact E4). change (-1 <? 0) with true. cbn iota. step by (exact E5). reflexivity.
  - right. exists k4, l4. split; [|exact G4]. step by (exact E2). rewrite (proj2 (Z.eqb_neq w 0) Hwz).
    step by (exact E3). step by (exact E4). change (0 <? 0) with false. cbn iota.
    rewrite u32_small by (unfold PGSIZE, KERNBASE in *; lia). reflexivity.
Qed.

(** All pages from [hi] to [upto]. *)
Lemma copy_loop n : forall fuel hi k1 l1 sz, copy_state hi [] k1 l1 -> 0 <= hi -> hi mod PGSIZE = 0 ->
  hi + PGSIZE * Z.of_nat n <= KERNBASE -> hi + PGSIZE * (Z.of_nat n - 1) < sz ->
  (forall a, upage a -> hi <= a < hi + PGSIZE * Z.of_nat n -> maps (km_mem k) p a <> None) ->
  (exists hi' k2 l2, copyuvm_loop (n + fuel) p d hi sz k1 = Ret false k2 /\ copy_state hi' [] k2 l2) \/
  (exists k2 l2, copyuvm_loop (n + fuel) p d hi sz k1 = copyuvm_loop fuel p d (hi + PGSIZE * Z.of_nat n) sz k2 /\
     copy_state (hi + PGSIZE * Z.of_nat n) [] k2 l2).
Proof.
  induction n as [|n IH]; intros fuel hi k1 l1 sz G Hhi Hm Hend Hlast Hmap.
  - right. exists k1, l1. rewrite Z.mul_0_r, Z.add_0_r. auto.
  - assert (upage hi) as Hu by (split; [unfold PGSIZE in *; lia | exact Hm]).
    destruct (maps (km_mem k) p hi) as [e|] eqn:Ee; [|exfalso; apply (Hmap hi Hu); [unfold PGSIZE; lia | exact Ee]].
    destruct (copy_page hi k1 l1 e (n + fuel) sz G Hu ltac:(unfold PGSIZE in *; lia) Ee)
      as [(k2 & l2 & E2 & G2)|(k2 & l2 & E2 & G2)]; [left; eauto 10|].
    destruct (IH fuel (hi + PGSIZE) k2 l2 sz G2) as [(h & k3 & l3 & E3 & G3)|(k3 & l3 & E3 & G3)];
      try (unfold PGSIZE in *; lia).
    + unfold PGSIZE in *. Z.div_mod_to_equations. lia.
    + intros a Ha Hr. apply Hmap; [exact Ha | unfold PGSIZE in *; lia].
    + left. exists h, k3, l3. cbn [Nat.add]. rewrite E2. auto.
    + right. exists k3, l3. cbn [Nat.add]. rewrite E2, E3.
      replace (hi + PGSIZE * Z.of_nat (S n)) with (hi + PGSIZE + PGSIZE * Z.of_nat n) by (unfold PGSIZE; lia). auto.
Qed.
End Copy.

(** The lines of kmap[] concern kernel addresses only. *)
Lemma translated_old m m0 pgdir ln : layout_ok -> ln ∈ kmap -> translated m0 pgdir ln ->
  (forall va, KERNBASE <= va < 2 ^ 32 -> maps m pgdir va = maps m0 pgdir va) -> translated m pgdir ln.
Proof.
  intros Hlay Hln Ht He. assert (exists hi, line_ok hi ln) as [hi Hok].
  { pose proof (kmap_ok Hlay) as Hl. revert Hln Hl. generalize 0 as h, kmap as lns. intros h lns. revert h.
    induction lns as [|ln' lns IH]; intros h Hin Hl; [apply elem_of_nil in Hin; contradiction|].
    destruct Hl as [H1 H2]. apply elem_of_cons in Hin as [->|Hin]; eauto. }
  destruct ln as [[[virt ps] pe] perm]. destruct Hok as (Hv & _ & _ & _ & Hve & _). intros va Hva.
  rewrite He by lia. apply Ht. exact Hva.
Qed.

(** Without memory for the whole copy, all of it is given back. *)
Lemma copy_back k p l d k0 l0 hi k1 l1 : user_ok k p l -> d :: account d k0 l0 ≡ₚ l ->
  (forall w, page_ok w -> w ∉ l -> foreign k0 d l0 w /\ same_page_mem w (km_mem k) (km_mem k0)) ->
  copy_state k p d k0 l0 hi [] k1 l1 ->
  exists k2 l2, freevm d k1 = Ret tt k2 /\ kmem_ok k2 l2 /\ l2 ≡ₚ l /\
    forall w, page_ok w -> w ∉ l -> same_page_mem w (km_mem k) (km_mem k2).
Proof.
  intros Hp Hacc Hk0 G. destruct (freevm_ok k1 d l1 (g_user _ _ _ _ _ _ _ _ _ _ G)) as (k2 & l2 & E2 & K2 & L2 & S2).
  assert (l2 ≡ₚ l) as Hl.
  { rewrite L2, <- Hacc. apply perm_skip. pose proof (g_account _ _ _ _ _ _ _ _ _ _ G) as Ga.
    rewrite app_nil_l in Ga. exact Ga. }
  exists k2, l2. split_and!; auto. intros w Hw Hwl x Hx. rewrite (S2 w Hw) by (rewrite ?Hl; auto).
  exact (copy_kept k p l d k0 l0 Hk0 hi [] k1 l1 w G Hw Hwl x Hx).
Qed.

(** C26. copyuvm() makes an independent copy of an address space, or leaves
    everything as it was: when all pages below [sz] are mapped, it returns
    either 0 with the free list as before, or a new page table with a copy of
    each page below [sz], with the same flags, and no other user page; every
    page of the child was free before, each has one use only, the kernel part
    is mapped as kmap[] says, and every page that was not free, those of the
    parent among them, keeps its contents. *)
Theorem copyuvm_ok (k : kmem) (p sz : Z) (l : list Z) (Hlay : layout_ok) (Hp : user_ok k p l)
    (Hsz : 0 <= sz <= KERNBASE) (Hmap : forall a, upage a -> a < sz -> maps (km_mem k) p a <> None) :
  exists r k' l', copyuvm p sz k = Ret r k' /\ kmem_ok k' l' /\
    (forall w, page_ok w -> w ∉ l -> same_page_mem w (km_mem k) (km_mem k')) /\
    ((r = 0 /\ l' ≡ₚ l) \/
     (r <> 0 /\ user_ok k' r l' /\ r :: account r k' l' ≡ₚ l /\
      (forall ln, ln ∈ kmap -> translated (km_mem k') r ln) /\
      forall a, upage a ->
        if a <? sz then exists e e', maps (km_mem k) p a = Some e /\ maps (km_mem k') r a = Some e' /\
            PTE_FLAGS e' = PTE_FLAGS e /\
            forall x, 0 <= x < PGSIZE -> km_mem k' (frame e' + x) = km_mem k (frame e + x)
        else maps (km_mem k') r a = None)).
Proof.
  destruct (setupkvm_eq k l Hlay (v_kmem _ _ _ (u_vm _ _ _ Hp))) as (d & k0 & l0 & E0 & K0 & S0 & Hc).
  destruct Hc as [(-> & L0 & _)|(Hd & Hdl & U0 & A0 & N0 & T0 & _ & F0)].
  { exists 0, k0, l0. split; [unfold copyuvm; step by (exact E0); reflexivity|]. auto. }
  assert (d <> 0) as Hnz by (unfold page_ok, KERNBASE in Hd; lia).
  assert (forall w, page_ok w -> w ∉ l -> foreign k0 d l0 w /\ same_page_mem w (km_mem k) (km_mem k0)) as Hk0 by auto.
  destruct (round_up sz Hsz) as [Rs Rm].
  set (n := Z.to_nat (PGROUNDUP sz / PGSIZE)). set (fuel := (Z.to_nat (sz / PGSIZE + 1) - n)%nat).
  assert (PGSIZE * Z.of_nat n = PGROUNDUP sz /\ Z.to_nat (sz / PGSIZE + 1) = (n + fuel)%nat) as [En Ef].
  { unfold fuel, n. unfold PGSIZE in *. Z.div_mod_to_equations. lia. }
  assert (copy_state k p d k0 l0 0 [] k0 l0) as G0 by (apply grown_0; [apply copy_flags | exact U0]).
  destruct (copy_loop k p l d k0 l0 Hp Hk0 N0 n fuel 0 k0 l0 sz G0) as
    [(hi & k1 & l1 & E1 & G1)|(k1 & l1 & E1 & G1)]; try (unfold PGSIZE, KERNBASE in *; lia).
  { unfold PGSIZE, KERNBASE in *. Z.div_mod_to_equations. lia. }
  { intros a Ha Hr. apply Hmap; [exact Ha|]. destruct Ha. unfold PGSIZE in *. Z.div_mod_to_equations. lia. }
  - destruct (copy_back k p l d k0 l0 hi k1 l1 Hp A0 Hk0 G1) as (k2 & l2 & E2 & K2 & L2 & S2).
    exists 0, k2, l2. split; [|auto]. unfold copyuvm. step by (exact E0). rewrite (proj2 (Z.eqb_neq d 0) Hnz), Ef.
    step by (exact E1). step by (exact E2). reflexivity.
  - rewrite Z.add_0_l, En in E1, G1. exists d, k1, l1. split; [|split; [|split; [|right; split_and!; auto]]].
    + unfold copyuvm. step by (exact E0). rewrite (proj2 (Z.eqb_neq d 0) Hnz), Ef. step by (rewrite E1;
        destruct fuel; cbn [copyuvm_loop]; rewrite (proj2 (Z.ltb_ge (PGROUNDUP sz) sz)) by lia; reflexivity).
      reflexivity.
    + apply G1.
    + intros w Hw Hwl. exact (copy_kept k p l d k0 l0 Hk0 _ _ _ _ w G1 Hw Hwl).
    + apply G1.
    + rewrite <- A0. apply perm_skip. pose proof (g_account _ _ _ _ _ _ _ _ _ _ G1) as Ga.
      rewrite app_nil_l in Ga. exact Ga.
    + intros ln Hln. apply (translated_old _ (km_mem k0)); [exact Hlay | exact Hln | apply T0; exact Hln |].
      intros va Hva. apply G1; unfold PGSIZE, KERNBASE in *; [lia|]. Z.div_mod_to_equations. lia.
    + intros a Ha. destruct (Z.ltb_spec a sz) as [Hlt|Hge].
      * destruct (g_new _ _ _ _ _ _ _ _ _ _ G1 a Ha ltac:(destruct Ha; lia)) as (w & W1 & _ & W2 & W3).
        destruct (maps (km_mem k) p a) as [e|] eqn:Ee; [|exfalso; exact (Hmap a Ha Hlt Ee)].
        assert (parent k p a = e) as Epar by (unfold parent; rewrite Ee; reflexivity). rewrite Epar in W2, W3.
        destruct (maps_table _ _ _ _ Ee) as (t & _ & El & EP).
        exists e, (entry (V2P w) (PTE_FLAGS e)). split_and!; auto.
        -- apply entry_flags; auto. rewrite <- El. apply load32_range, (v_kmem _ _ _ (u_vm _ _ _ Hp)).
        -- rewrite frame_entry by auto using PTE_FLAGS_range. exact W3.
      * assert (PGROUNDUP sz <= a) as Hra by (destruct Ha; unfold PGSIZE in *; Z.div_mod_to_equations; lia).
        destruct Ha as [Har _]. rewrite (g_old _ _ _ _ _ _ _ _ _ _ G1) by (unfold KERNBASE in *; lia).
        apply N0; unfold KERNBASE in *; lia.
Qed.

(** copyuvm() of an address space with a hole.  sys_sbrk() only moves the
    size of the process and maps nothing, but copyuvm() expects every page
    below the size to exist: fork() after sbrk() panics the kernel, unless
    memory runs out first. *)
Lemma copyuvm_hole (k : kmem) (p sz a : Z) (l : list Z) (Hlay : layout_ok) (Hp : user_ok k p l)
    (Hsz : 0 <= sz <= KERNBASE) (Ha : upage a) (Has : a < sz) (Hhole : maps (km_mem k) p a = None)
    (Hmap : forall b, upage b -> b < a -> maps (km_mem k) p b <> None) :
  (exists k' l', copyuvm p sz k = Ret 0 k' /\ kmem_ok k' l' /\ l' ≡ₚ l) \/
  (exists msg k', copyuvm p sz k = Stop (Panicked msg) k').
Proof.
  destruct (setupkvm_eq k l Hlay (v_kmem _ _ _ (u_vm _ _ _ Hp))) as (d & k0 & l0 & E0 & K0 & S0 & Hc).
  destruct Hc as [(-> & L0 & _)|(Hd & Hdl & U0 & A0 & N0 & T0 & _ & F0)].
  { left. exists k0, l0. split; [unfold copyuvm; step by (exact E0); reflexivity | auto]. }
  assert (d <> 0) as Hnz by (unfold page_ok, KERNBASE in Hd; lia).
  assert (forall w, page_ok w -> w ∉ l -> foreign k0 d l0 w /\ same_page_mem w (km_mem k) (km_mem k0)) as Hk0 by auto.
  pose proof Ha as [Har Ham]. set (n := Z.to_nat (a / PGSIZE)).
  assert (exists fuel, Z.to_nat (sz / PGSIZE + 1) = (n + S fuel)%nat) as [fuel Ef].
  { exists (Z.to_nat (sz / PGSIZE + 1) - n - 1)%nat. unfold n, PGSIZE in *. Z.div_mod_to_equations. lia. }
  assert (PGSIZE * Z.of_nat n = a) as En by (unfold n, PGSIZE in *; Z.div_mod_to_equations; lia).
  assert (copy_state k p d k0 l0 0 [] k0 l0) as G0 by (apply grown_0; [apply copy_flags | exact U0]).
  destruct (copy_loop k p l d k0 l0 Hp Hk0 N0 n (S fuel) 0 k0 l0 sz G0) as
    [(hi & k1 & l1 & E1 & G1)|(k1 & l1 & E1 & G1)]; try (unfold PGSIZE, KERNBASE in *; lia); try reflexivity.
  { intros b Hb Hr. apply Hmap; [exact Hb | lia]. }
  - left. destruct (copy_back k p l d k0 l0 hi k1 l1 Hp A0 Hk0 G1) as (k2 & l2 & E2 & K2 & L2 & S2).
    exists k2, l2. split; [|auto]. unfold copyuvm. step by (exact E0). rewrite (proj2 (Z.eqb_neq d 0) Hnz), Ef.
    step by (exact E1). step by (exact E2). reflexivity.
  - right. rewrite Z.add_0_l, En in E1, G1.
    destruct (user_kept k p l (km_mem k1) Hp (fun w => copy_kept k p l d k0 l0 Hk0 a [] k1 l1 w G1)) as (_ & Em & _).
    specialize (Em a). rewrite Hhole in Em. unfold maps in Em.
    assert (exists msg, copyuvm_loop (S fuel) p d a sz k1 = Stop (Panicked msg) k1) as [msg Ep].
    { cbn [copyuvm_loop]. rewrite (proj2 (Z.ltb_lt a sz) Has), (bind_eq _ _ _ _ _ (walk_noalloc k1 p a)).
      destruct (table_at (km_mem k1) p (PDX a)) as [t|]; [|eexists; reflexivity].
      cbn [mbind option_bind] in Em. destruct (t + 4 * PTX a =? 0) eqn:Ez; [eexists; reflexivity|].
      step by reflexivity. unfold load_ptr at 1. rewrite Ez. step by reflexivity.
      destruct (bitset (load32 (km_mem k1) (t + 4 * PTX a)) PTE_P); [discriminate | eexists; reflexivity]. }
    exists msg, k1. unfold copyuvm. step by (exact E0). rewrite (proj2 (Z.eqb_neq d 0) Hnz), Ef.
    apply bind_stop. rewrite E1. exact Ep.
Qed.

(** C28. What a new address space takes it gives back: as exec() does when it
    fails, setupkvm(), then allocuvm() of any size, then freevm(), at any
    point of which memory may run out, end with the free list of the start
    and no page outside it changed. *)
Theorem space_roundtrip (k : kmem) (sz : Z) (l : list Z) (Hlay : layout_ok) (Hk : kmem_ok k l)
    (Hsz : 0 <= sz < KERNBASE) :
  exists k' l', (let! d := setupkvm in
                 if d =? 0 then ret tt else let! _ := allocuvm d 0 sz in freevm d) k = Ret tt k' /\
    kmem_ok k' l' /\ l' ≡ₚ l /\ forall w, page_ok w -> w ∉ l -> same_page_mem w (km_mem k) (km_mem k').
Proof.
  destruct (setupkvm_eq k l Hlay Hk) as (d & k0 & l0 & E0 & K0 & S0 & Hc).
  destruct Hc as [(-> & L0 & _)|(Hd & Hdl & U0 & A0 & N0 & T0 & _ & F0)].
  { exists k0, l0. split; [step by (exact E0); reflexivity | auto]. }
  assert (d <> 0) as Hnz by (unfold page_ok, KERNBASE in Hd; lia).
  destruct (allocuvm_grown d k0 l0 0 sz ltac:(lia) ltac:(lia)) as (r & k1 & l1 & E1 & Hc); [|exact U0|].
  { intros va Hva. change (PGROUNDUP 0) with 0 in Hva. pose proof (round_up_kernel sz ltac:(lia)).
    apply N0; unfold KERNBASE in *; lia. }
  assert (exists hi, alloc_state d k0 l0 0 hi [] k1 l1) as [hi G1] by (destruct Hc as [(_ & G & _)|[_ G]]; eauto).
  destruct (freevm_ok k1 d l1 (g_user _ _ _ _ _ _ _ _ _ _ G1)) as (k2 & l2 & E2 & K2 & L2 & S2).
  assert (l2 ≡ₚ l) as Hl.
  { rewrite L2, <- A0. apply perm_skip. pose proof (g_account _ _ _ _ _ _ _ _ _ _ G1) as Ga.
    rewrite app_nil_l in Ga. exact Ga. }
  exists k2, l2. split_and!; auto.
  - step by (exact E0). rewrite (proj2 (Z.eqb_neq d 0) Hnz). step by (exact E1). exact E2.
  - intros w Hw Hwl x Hx. rewrite (S2 w Hw) by (rewrite ?Hl; auto).
    destruct (g_foreign _ _ _ _ _ _ _ _ _ _ G1 w (F0 w Hw Hwl)) as (_ & _ & S1). rewrite (S1 x Hx).
    exact (S0 w Hw Hwl x Hx).
Qed.
End Proofs.

Section Witnesses.
#[local] Instance one_cpu : Ctx := {| cpu_id := 0; cur_pid := 1 |}.
#[local] Instance linked : Linked := {| kernel_data := 0x80108000; kernel_end := 0x80115000 |}.

Lemma demo_layout : layout_ok.
Proof. split; [reflexivity | cbn; unfold KERNLINK, KERNBASE, EXTMEM, PHYSTOP; lia]. Qed.

(** A process with one page at address 0, and one free page. *)
Definition demo_mem : mem := store32 (store32 (fun _ => 0) 0x80200000 0x201007) 0x80201000 0x202007.
Definition demo_parent : kmem := mk_kmem None 0 0x80300000 demo_mem.

Lemma demo_tables i : 0 <= i < 1024 ->
  table_at demo_mem 0x80200000 i = if decide (i = 0) then Some 0x80201000 else None.
Proof.
  intros Hi. destruct (decide _) as [->|Hne]; [reflexivity|]. unfold table_at, demo_mem.
  rewrite !load32_store32_ne by lia. reflexivity.
Qed.
Lemma demo_maps va e : 0 <= va < 2 ^ 32 -> maps demo_mem 0x80200000 va = Some e ->
  0 <= va < PGSIZE /\ e = 0x202007.
Proof.
  intros Hva. unfold maps. rewrite demo_tables by apply PDX_range.
  destruct (decide (PDX va = 0)) as [Ed|]; [|discriminate]. cbn [mbind option_bind].
  pose proof (PTX_range va) as Hx. destruct (decide (PTX va = 0)) as [Et|Hne].
  - rewrite Et. intros [= <-]. split; [|reflexivity].
    apply (page_of 0 va); [reflexivity | lia | exact Hva | auto].
  - unfold demo_mem. rewrite !load32_store32_ne by lia. discriminate.
Qed.

Lemma demo_mapped : maps demo_mem 0x80200000 0 = Some 0x202007.
Proof. vm_compute. reflexivity. Qed.
Lemma demo_frame : page_ok 0x80202000.
Proof. apply demo_page; [reflexivity | lia]. Qed.

Lemma demo_not_free : 0x80202000 ∉ [0x80300000].
Proof. apply not_elem_of_cons. split; [lia | apply not_elem_of_nil]. Qed.

Lemma demo_parent_ok : user_ok demo_parent 0x80200000 [0x80300000].
Proof.
  assert (page_ok 0x80201000 /\ page_ok 0x80202000) as [P1 P2] by (split; apply demo_page; (reflexivity || lia)).
  split; [split; [constructor|..]|..]; cbn [km_mem km_lock km_freelist demo_parent].
  - reflexivity.
  - split; reflexivity.
  - constructor; [apply demo_page; [reflexivity | lia] | constructor].
  - apply NoDup_singleton.
  - apply store32_ok, store32_ok. intros x. lia.
  - split; [apply demo_page; [reflexivity | lia] | set_solver].
  - intros i t Hi. rewrite demo_tables by exact Hi. destruct (decide _); intros [= <-]. set_solver.
  - intros i j t Hi Hj. rewrite !demo_tables by assumption. do 2 destruct (decide _); congruence.
  - intros a e [Ha _] Ee. apply demo_maps in Ee as [_ ->]; [|unfold KERNBASE in *; lia].
    change (frame 0x202007) with 0x80202000. unfold foreign. split_and!; [exact P2 | lia | set_solver |].
    intros i Hi. cbn [km_mem demo_parent]. rewrite demo_tables by exact Hi. destruct (decide _); congruence.
  - intros a b e f [Ha Ham] [Hb Hbm] Ee Ef _. apply demo_maps in Ee as [Ha' _]; [|unfold KERNBASE in *; lia].
    apply demo_maps in Ef as [Hb' _]; [|unfold KERNBASE in *; lia]. rewrite Z.mod_small in Ham, Hbm by assumption. lia.
Qed.

Example copyuvm_ok_witness : exists r k' l', copyuvm 0x80200000 100 demo_parent = Ret r k' /\ kmem_ok k' l' /\
  same_page_mem 0x80202000 (km_mem demo_parent) (km_mem k').
Proof.
  destruct (copyuvm_ok demo_parent 0x80200000 100 [0x80300000] demo_layout demo_parent_ok)
    as (r & k' & l' & E & K & S & _); [unfold KERNBASE; lia | |].
  - intros a [Ha Ham] Hlt. assert (a = 0) as -> by (rewrite Z.mod_small in Ham; unfold PGSIZE in *; lia).
    cbn [km_mem demo_parent]. rewrite demo_mapped. discriminate.
  - exists r, k', l'. split; [exact E|]. split; [exact K|]. exact (S 0x80202000 demo_frame demo_not_free).
Defined.

Example space_roundtrip_witness : exists k' l', (let! d := setupkvm in
    if d =? 0 then ret tt else let! _ := allocuvm d 0 100000 in freevm d) demo_kmem = Ret tt k' /\
  kmem_ok k' l' /\ l' ≡ₚ [0x80300000].
Proof.
  destruct (space_roundtrip demo_kmem 100000 [0x80300000] demo_layout (v_kmem _ _ _ demo_vm_ok))
    as (k' & l' & E & K & L & _); [unfold KERNBASE; lia|]. exists k', l'. auto.
Defined.
End Witnesses.
