(* ===== verification/Pipe.v ===== *)
(** * Pipes

    [src/homeworks/xv6-public/pipe.c]: the ring buffer with its free-running
    32-bit counters.  A call that sleeps continues with what the other
    processes have done to the pipe meanwhile ([env], see [sleep_on]). *)
From S2P Require Import Prelude.

Definition PIPESIZE : Z := 512.

Record pipe := mk_pipe {
  p_lock : spinlock; p_data : list Z; p_nread : Z; p_nwrite : Z; p_readopen : Z; p_writeopen : Z }.
#[export] Instance eta_pipe : Eta pipe := fun p =>
  mk_pipe (p_lock p) (p_data p) (p_nread p) (p_nwrite p) (p_readopen p) (p_writeopen p).

(** The pipe and the [killed] flag of the current process. *)
Record pctx := mk_pctx { pc_pipe : pipe; pc_killed : Z }.
#[export] Instance eta_pctx : Eta pctx := fun s => mk_pctx (pc_pipe s) (pc_killed s).

Section Code.
Context `{Ctx}.

Definition on_pipe {A} (m : M pipe A) : M pctx A := zoom pc_pipe m.
Definition lock_pipe : M pctx unit := on_pipe (zoom p_lock acquire).
Definition unlock_pipe : M pctx unit := on_pipe (zoom p_lock release).

(** The part of pipealloc() that sets up the page of the pipe. *)
Definition pipe_init : M pipe unit :=
  modify (fun p => p <| p_readopen := 1 |>) ;!
  modify (fun p => p <| p_writeopen := 1 |>) ;!
  modify (fun p => p <| p_nwrite := 0 |>) ;!
  modify (fun p => p <| p_nread := 0 |>) ;!
  modify (fun p => p <| p_lock := None |>).

(** True when both ends are closed and the page is freed. *)
Definition pipeclose (writable : bool) : M pipe bool :=
  zoom p_lock acquire ;!
  (if writable then modify (fun p => p <| p_writeopen := 0 |>) ;! wakeup "nread"
   else modify (fun p => p <| p_readopen := 0 |>) ;! wakeup "nwrite") ;!
  let! p := get id in
  zoom p_lock release ;!
  ret ((p_readopen p =? 0) && (p_writeopen p =? 0)).

(** [while(p->nwrite == p->nread + PIPESIZE)]: room for a byte, and the rest
    of [env]; [None] when the call fails. *)
Fixpoint wait_room (env : list (pctx -> pctx)) : M pctx (option (list (pctx -> pctx))) :=
  let! s := get id in
  let p := pc_pipe s in
  if p_nwrite p =? u32 (p_nread p + PIPESIZE) then
    if (p_readopen p =? 0) || negb (pc_killed s =? 0) then
      unlock_pipe ;! ret None
    else
      wakeup "nread" ;!
      unlock_pipe ;!
      match env with
      | [] => halt (Asleep "nwrite")
      | e :: env' => modify e ;! lock_pipe ;! wait_room env'
      end
  else ret (Some env).

(** [p->data[p->nwrite++ % PIPESIZE] = c] *)
Definition put_byte (c : Z) : M pipe unit :=
  let! i := get p_nwrite in
  modify (fun p => p <| p_nwrite := u32 (i + 1) |>) ;!
  zoom p_data (elt (Z.to_nat (i mod PIPESIZE)) (modify (fun _ => u8 c))).

Fixpoint write_bytes (env : list (pctx -> pctx)) (addr : list Z) : M pctx bool :=
  match addr with
  | [] => ret true
  | c :: addr' =>
      let! room := wait_room env in
      match room with
      | None => ret false
      | Some env' => on_pipe (put_byte c) ;! write_bytes env' addr'
      end
  end.

(** pipewrite(p, addr, n): [addr] lists the [n] bytes. *)
Definition pipewrite (env : list (pctx -> pctx)) (addr : list Z) : M pctx Z :=
  lock_pipe ;!
  let! ok := write_bytes env addr in
  if ok : bool then
    wakeup "nread" ;!
    unlock_pipe ;!
    ret (Z.of_nat (length addr))
  else ret (-1).

(** [while(p->nread == p->nwrite && p->writeopen)]; false when killed. *)
Fixpoint wait_data (env : list (pctx -> pctx)) : M pctx bool :=
  let! s := get id in
  let p := pc_pipe s in
  if (p_nread p =? p_nwrite p) && negb (p_writeopen p =? 0) then
    if negb (pc_killed s =? 0) then unlock_pipe ;! ret false
    else
      unlock_pipe ;!
      match env with
      | [] => halt (Asleep "nread")
      | e :: env' => modify e ;! lock_pipe ;! wait_data env'
      end
  else ret true.

(** [for(i = 0; i < n; i++)] of piperead(); [n] rounds are left. *)
Fixpoint read_bytes (n : nat) : M pipe (list Z) :=
  match n with
  | O => ret []
  | S n' =>
      let! p := get id in
      if p_nread p =? p_nwrite p then ret []
      else
        modify (fun p => p <| p_nread ::= fun r => u32 (r + 1) |>) ;!
        let! c := deref (p_data p !! Z.to_nat (p_nread p mod PIPESIZE)) in
        let! rest := read_bytes n' in
        ret (c :: rest)
  end.

(** piperead(p, addr, n): the result and the bytes stored at [addr]. *)
Definition piperead (env : list (pctx -> pctx)) (n : Z) : M pctx (Z * list Z) :=
  lock_pipe ;!
  let! ok := wait_data env in
  if ok : bool then
    let! bytes := on_pipe (read_bytes (Z.to_nat n)) in
    wakeup "nwrite" ;!
    unlock_pipe ;!
    ret (Z.of_nat (length bytes), bytes)
  else ret (-1, []).
End Code.

(** ** The pipe as a queue of bytes *)

Section Proofs.
Context `{Ctx}.

(** Number of bytes in the buffer. *)
Definition count (p : pipe) : nat := Z.to_nat (u32 (p_nwrite p - p_nread p)).

(** The bytes not read yet, oldest first. *)
Definition queue (p : pipe) : list Z :=
  map (fun i => default 0 (p_data p !! Z.to_nat (u32 (p_nread p + Z.of_nat i) mod PIPESIZE)))
    (seq 0 (count p)).

Record pipe_ok (p : pipe) : Prop := {
  ok_len : length (p_data p) = 512%nat;
  ok_nread : 0 <= p_nread p < 2 ^ 32;
  ok_nwrite : 0 <= p_nwrite p < 2 ^ 32;
  ok_count : (count p <= 512)%nat }.

Lemma u32_mod a : u32 a mod PIPESIZE = a mod PIPESIZE.
Proof. unfold u32, PIPESIZE. change (2 ^ 32) with 4294967296. Z.div_mod_to_equations. lia. Qed.

Lemma slot_range a : (Z.to_nat (a mod PIPESIZE) < 512)%nat.
Proof. pose proof (Z.mod_pos_bound a PIPESIZE). unfold PIPESIZE in *. lia. Qed.

Lemma queue_lookup p i : (i < count p)%nat ->
  queue p !! i = Some (default 0 (p_data p !! Z.to_nat ((p_nread p + Z.of_nat i) mod PIPESIZE))).
Proof.
  intros Hi. unfold queue. rewrite list_lookup_fmap, lookup_seq_lt by exact Hi. cbn.
  rewrite u32_mod. reflexivity.
Qed.
Lemma length_queue p : length (queue p) = count p.
Proof. unfold queue. rewrite length_map, length_seq. reflexivity. Qed.

(** The buffer is full, or empty, exactly when the code says so. *)
Lemma full_iff p : pipe_ok p -> (p_nwrite p =? u32 (p_nread p + PIPESIZE)) = true <-> count p = 512%nat.
Proof.
  intros [_ Hr Hw Hc]. rewrite Z.eqb_eq. unfold count, u32, PIPESIZE in *.
  change (2 ^ 32) with 4294967296 in *. split; intros; Z.div_mod_to_equations; lia.
Qed.
Lemma empty_iff p : pipe_ok p -> (p_nread p =? p_nwrite p) = true <-> count p = O.
Proof.
  intros [_ Hr Hw Hc]. rewrite Z.eqb_eq. unfold count, u32 in *.
  change (2 ^ 32) with 4294967296 in *. split; intros; Z.div_mod_to_equations; lia.
Qed.

(** *** One byte in, one byte out *)

Definition put (c : Z) (p : pipe) : pipe :=
  p <| p_nwrite := u32 (p_nwrite p + 1) |>
    <| p_data ::= <[Z.to_nat (p_nwrite p mod PIPESIZE) := u8 c]> |>.

Lemma put_byte_eq c p : pipe_ok p -> put_byte c p = Ret tt (put c p).
Proof.
  intros [Hl _ _ _]. unfold put_byte, put, bind, get, modify, zoom, elt, set_field. cbn.
  destruct (lookup_lt_is_Some_2 (p_data p) (Z.to_nat (p_nwrite p mod PIPESIZE))) as [x ->].
  - rewrite Hl. apply slot_range.
  - reflexivity.
Qed.

Lemma put_count c p : pipe_ok p -> count p <> 512%nat -> count (put c p) = S (count p).
Proof.
  intros [_ Hr Hw Hc] Hn. unfold count, put, set_field in *. cbn. unfold u32 in *.
  change (2 ^ 32) with 4294967296 in *. Z.div_mod_to_equations. lia.
Qed.

Lemma put_ok c p : pipe_ok p -> count p <> 512%nat ->
  pipe_ok (put c p) /\ queue (put c p) = queue p ++ [u8 c].
Proof.
  intros Hp Hn. pose proof (put_count c p Hp Hn) as Hc. pose proof Hp as [Hl Hr Hw Hcn]. split.
  - split.
    + unfold put, set_field. cbn. rewrite length_insert. exact Hl.
    + exact Hr.
    + unfold put, set_field, u32. cbn. apply Z.mod_pos_bound. lia.
    + lia.
  - assert (p_nwrite p mod PIPESIZE = (p_nread p + Z.of_nat (count p)) mod PIPESIZE) as Hnw.
    { unfold count, u32, PIPESIZE. change (2 ^ 32) with 4294967296 in *. Z.div_mod_to_equations. lia. }
    apply list_eq. intros i. destruct (decide (i < S (count p))%nat) as [Hi|Hi].
    + rewrite queue_lookup by lia. unfold put, set_field. cbn [p_data p_nread].
      destruct (decide (i = count p)) as [->|Hne].
      * rewrite lookup_app_r, length_queue, Nat.sub_diag by (rewrite length_queue; lia). cbn.
        rewrite <- Hnw, list_lookup_insert_eq by (rewrite Hl; apply slot_range). reflexivity.
      * rewrite lookup_app_l, queue_lookup by (rewrite ?length_queue; lia).
        rewrite list_lookup_insert_ne; [reflexivity|]. rewrite Hnw. unfold PIPESIZE.
        Z.div_mod_to_equations. lia.
    + rewrite !(proj2 (lookup_ge_None _ _)); [reflexivity| |];
        rewrite ?length_app, ?length_queue; cbn; lia.
Qed.

Definition next (p : pipe) : pipe := p <| p_nread := u32 (p_nread p + 1) |>.

Lemma next_ok p : pipe_ok p -> count p <> O ->
  pipe_ok (next p) /\
  queue p = default 0 (p_data p !! Z.to_nat (p_nread p mod PIPESIZE)) :: queue (next p).
Proof.
  intros [Hl Hr Hw Hc] Hn.
  assert (count p = S (count (next p))) as Hs.
  { unfold count, next, set_field in *. cbn. unfold u32 in *.
    change (2 ^ 32) with 4294967296 in *. Z.div_mod_to_equations. lia. }
  assert (0 <= u32 (p_nread p + 1) < 2 ^ 32) as Hr' by (unfold u32; apply Z.mod_pos_bound; lia).
  split; [split; auto; lia|].
  apply list_eq. intros [|i].
  - rewrite queue_lookup by lia. rewrite Z.add_0_r. reflexivity.
  - cbn [lookup list_lookup]. destruct (decide (i < count (next p))%nat) as [Hi|Hi].
    + rewrite !queue_lookup by lia. unfold next, set_field. cbn [p_data p_nread].
      replace ((u32 (p_nread p + 1) + Z.of_nat i) mod PIPESIZE)
        with ((p_nread p + Z.of_nat (S i)) mod PIPESIZE); [reflexivity|].
      rewrite (Z.add_mod (u32 _)), u32_mod, <- Z.add_mod by (unfold PIPESIZE; lia). f_equal. lia.
    + rewrite (proj2 (lookup_ge_None (queue p) _)), (proj2 (lookup_ge_None (queue (next p)) _))
        by (rewrite length_queue; lia). reflexivity.
Qed.

Lemma read_bytes_eq n : forall p, pipe_ok p ->
  exists p', read_bytes n p = Ret (take n (queue p)) p' /\ pipe_ok p' /\
    queue p' = drop n (queue p) /\ p_lock p' = p_lock p /\
    p_readopen p' = p_readopen p /\ p_writeopen p' = p_writeopen p.
Proof.
  induction n as [|n IH]; intros p Hp; [exists p; auto 10|].
  cbn [read_bytes]. unfold bind at 1, get at 1. cbn [id].
  pose proof (empty_iff p Hp) as He. destruct (p_nread p =? p_nwrite p) eqn:E.
  - exists p. pose proof (length_queue p) as Hl. rewrite (proj1 He eq_refl) in Hl.
    apply nil_length_inv in Hl. rewrite Hl. auto 10.
  - assert (count p <> O) as Hn by (intros Hc; apply He in Hc; discriminate).
    destruct (next_ok p Hp Hn) as [Hp' Hq]. destruct (IH (next p) Hp') as (p' & E' & O' & Q' & L').
    exists p'. split; [|split; [exact O' | split; [rewrite Hq; exact Q' | exact L']]].
    step by reflexivity. destruct (lookup_lt_is_Some_2 (p_data p) (Z.to_nat (p_nread p mod PIPESIZE))) as [c Hc].
    { rewrite (ok_len p Hp). apply slot_range. }
    step by (rewrite Hc; reflexivity).
    change (p <| p_nread ::= fun r => u32 (r + 1) |>) with (next p). step by (exact E').
    rewrite Hq, Hc. reflexivity.
Qed.

(** *** Whole calls *)

Definition idle (s : pctx) : Prop := p_lock (pc_pipe s) = None /\ pipe_ok (pc_pipe s).
Abbreviation squeue s := (queue (pc_pipe s)).

(** The writer has nobody to write for, or is killed. *)
Definition gone (s : pctx) : bool := (p_readopen (pc_pipe s) =? 0) || negb (pc_killed s =? 0).

(** What the others do while a writer sleeps: they read [t_takes] bytes, and
    may close the read end or kill the writer. *)
Record turn := mk_turn { t_takes : nat; t_ends : bool }.
Definition plays (e : pctx -> pctx) (t : turn) : Prop := forall s, idle s ->
  idle (e s) /\ squeue (e s) = drop (t_takes t) (squeue s) /\ gone (e s) = gone s || t_ends t.

(** *** The bounded queue that pipewrite() implements

    [g] says that the readers are gone, [q] are the bytes in the pipe. *)
Inductive room : Type :=
| Room (turns : list turn) (g : bool) (q : list Z)
| NoReader (q : list Z)
| NoTurn (q : list Z).
(** The full queue waits for turns, until there is room. *)
Fixpoint spec_room (turns : list turn) (g : bool) (q : list Z) : room :=
  if bool_decide (length q = 512%nat) then
    if g then NoReader q
    else match turns with
         | [] => NoTurn q
         | t :: turns => spec_room turns (g || t_ends t) (drop (t_takes t) q)
         end
  else Room turns g q.
Inductive outcome : Type := Written (q : list Z) | Refused (q : list Z) | Sleeps (q : list Z).
Fixpoint spec_write (turns : list turn) (g : bool) (q bytes : list Z) : outcome :=
  match bytes with
  | [] => Written q
  | c :: bytes =>
      match spec_room turns g q with
      | Room turns g q => spec_write turns g (q ++ [c]) bytes
      | NoReader q => Refused q
      | NoTurn q => Sleeps q
      end
  end.

(** The queue loses nothing: what is taken out in the turns and what is left
    are the old bytes and the new ones, in order. *)
Lemma spec_room_conserves turns : forall g q, Forall (fun t => (t_takes t <= 512)%nat) turns ->
  match spec_room turns g q with
  | Room turns' _ q' => exists used, turns = used ++ turns' /\ q' = drop (sum_list_with t_takes used) q /\ (sum_list_with t_takes used <= length q)%nat
  | NoReader q' | NoTurn q' => exists used rest, turns = used ++ rest /\ q' = drop (sum_list_with t_takes used) q /\ (sum_list_with t_takes used <= length q)%nat
  end.
Proof.
  induction turns as [|t turns IH]; intros g q Ht; cbn [spec_room]; destruct (bool_decide_reflect (length q = 512%nat)) as [Hl|Hl].
  - destruct g; exists [], []; cbn; auto with lia.
  - exists []. cbn. auto with lia.
  - destruct g; [exists [], (t :: turns); cbn; auto with lia|]. apply Forall_cons in Ht as [H1 Ht]. specialize (IH (false || t_ends t) (drop (t_takes t) q) Ht).
    rewrite length_drop in IH. destruct (spec_room turns _ _) as [turns' g' q'|q'|q'].
    + destruct IH as (u & -> & -> & Hle). exists (t :: u). cbn [sum_list_with app]. rewrite drop_drop. split_and!; try reflexivity. lia.
    + destruct IH as (u & r & -> & -> & Hle). exists (t :: u), r. cbn [sum_list_with app]. rewrite drop_drop. split_and!; try reflexivity. lia.
    + destruct IH as (u & r & -> & -> & Hle). exists (t :: u), r. cbn [sum_list_with app]. rewrite drop_drop. split_and!; try reflexivity. lia.
  - exists []. cbn. auto with lia.
Qed.
Lemma spec_write_conserves bytes : forall turns g q, Forall (fun t => (t_takes t <= 512)%nat) turns -> match spec_write turns g q bytes with
  | Written q' => exists used rest, turns = used ++ rest /\ q' = drop (sum_list_with t_takes used) (q ++ bytes)
  | _ => True
  end.
Proof.
  induction bytes as [|c bytes IH]; intros turns g q Ht; cbn [spec_write].
  - exists [], turns. rewrite app_nil_r. auto.
  - pose proof (spec_room_conserves turns g q Ht) as Hr. destruct (spec_room turns g q) as [turns' g' q'|q'|q']; [|exact I..].
    destruct Hr as (u & -> & -> & Hle). apply Forall_app in Ht as [_ Ht]. specialize (IH turns' g' (drop (sum_list_with t_takes u) q ++ [c]) Ht).
    destruct (spec_write _ _ _ _) as [q'| |]; [|exact I..]. destruct IH as (u' & r & -> & ->). exists (u ++ u'), r. rewrite <- app_assoc. split; [reflexivity|].
    rewrite sum_list_with_app, <- drop_drop, (drop_app_le q) by lia. rewrite <- app_assoc. reflexivity.
Qed.

(** A write that fits needs no turn. *)
Lemma spec_write_fits bytes : forall turns g q, (length q + length bytes <= 512)%nat -> spec_write turns g q bytes = Written (q ++ bytes).
Proof.
  induction bytes as [|c bytes IH]; intros turns g q Hl; cbn [spec_write length] in *; [rewrite app_nil_r; reflexivity|].
  assert (spec_room turns g q = Room turns g q) as -> by (destruct turns; cbn [spec_room]; rewrite bool_decide_false by lia; reflexivity).
  rewrite IH by (rewrite length_app; cbn; lia). rewrite <- app_assoc. reflexivity.
Qed.

Lemma lock_pipe_eq s : p_lock (pc_pipe s) = None ->
  lock_pipe s = Ret tt (s <| pc_pipe ::= fun p => p <| p_lock := Some cpu_id |> |>).
Proof.
  destruct s as [[lk da nr nw ro wo] ki]. cbn. intros ->. reflexivity.
Qed.
Lemma unlock_pipe_eq s : p_lock (pc_pipe s) = Some cpu_id ->
  unlock_pipe s = Ret tt (s <| pc_pipe ::= fun p => p <| p_lock := None |> |>).
Proof.
  destruct s as [[lk da nr nw ro wo] ki]. cbn. intros ->. unfold unlock_pipe, on_pipe. run. reflexivity.
Qed.

Definition held (s : pctx) : Prop := p_lock (pc_pipe s) = Some cpu_id /\ pipe_ok (pc_pipe s).

Lemma lock_held s : idle s -> exists s', lock_pipe s = Ret tt s' /\ held s' /\ squeue s' = squeue s /\ gone s' = gone s.
Proof.
  intros [Hl [H1 H2 H3 H4]]. eexists. split; [apply lock_pipe_eq; exact Hl|].
  split; [split; [reflexivity | split; auto]|]. split; reflexivity.
Qed.
Lemma unlock_idle s : held s -> exists s', unlock_pipe s = Ret tt s' /\ idle s' /\ squeue s' = squeue s /\ gone s' = gone s.
Proof.
  intros [Hl [H1 H2 H3 H4]]. eexists. split; [apply unlock_pipe_eq; exact Hl|].
  split; [split; [reflexivity | split; auto] | split; reflexivity].
Qed.

(** The code waits for room as the queue does. *)
Lemma wait_room_ok env : forall turns s, Forall2 plays env turns -> held s ->
  match spec_room turns (gone s) (squeue s) with
  | Room turns' g q => exists env' s', wait_room env s = Ret (Some env') s' /\ Forall2 plays env' turns' /\
      held s' /\ gone s' = g /\ squeue s' = q /\ count (pc_pipe s') <> 512%nat
  | NoReader q => exists s', wait_room env s = Ret None s' /\ idle s' /\ squeue s' = q
  | NoTurn q => exists s', wait_room env s = Stop (Asleep "nwrite") s' /\ idle s' /\ squeue s' = q
  end.
Proof.
  induction env as [|e env IH]; intros turns s Hr Hs; inversion Hr as [|? t ? turns' He Hr']; subst;
    pose proof (full_iff _ (proj2 Hs)) as Hf; pose proof (length_queue (pc_pipe s)) as Hq;
    cbn [wait_room spec_room]; rewrite bind_self; cbv zeta; fold (gone s).
  all: destruct (p_nwrite (pc_pipe s) =? _) eqn:E;
    [rewrite bool_decide_true by (rewrite Hq; apply Hf; reflexivity) |
     rewrite bool_decide_false by (rewrite Hq; intros Hc; apply Hf in Hc; discriminate);
     eexists; exists s; split_and!; try reflexivity; try assumption; intros Hc; apply Hf in Hc; discriminate];
    destruct (unlock_idle s Hs) as (s1 & E1 & I1 & Q1 & G1); destruct (gone s) eqn:Eg.
  1,3: exists s1; split; [step by (exact E1); reflexivity | auto].
  - exists s1. split; [unfold wakeup; step by reflexivity; step by (exact E1); reflexivity | auto].
  - destruct (He s1 I1) as (I2 & Q2 & G2). destruct (lock_held (e s1) I2) as (s3 & E3 & I3 & Q3 & G3).
    assert (forall {A} (k : M pctx A), (wakeup "nread" ;! unlock_pipe ;! modify e ;! lock_pipe ;! k) s = k s3) as Erun
      by (intros A k; unfold wakeup; step by reflexivity; step by (exact E1); step by reflexivity; step by (exact E3); reflexivity).
    specialize (IH turns' s3 Hr' I3). rewrite G3, G2, G1, Q3, Q2, Q1 in IH. rewrite Erun. exact IH.
Qed.

Lemma put_held c s : held s -> count (pc_pipe s) <> 512%nat ->
  exists s', on_pipe (put_byte c) s = Ret tt s' /\ held s' /\ squeue s' = squeue s ++ [u8 c] /\ gone s' = gone s.
Proof.
  intros [Hl Hp] Hc. destruct (put_ok c _ Hp Hc) as [Hp' Hq].
  exists (s <| pc_pipe := put c (pc_pipe s) |>). split; [|split; [split; [exact Hl | exact Hp'] | split; [exact Hq | reflexivity]]].
  unfold on_pipe, zoom. rewrite (put_byte_eq c _ Hp). reflexivity.
Qed.

Lemma write_bytes_ok addr : forall env turns s, Forall2 plays env turns -> held s ->
  match spec_write turns (gone s) (squeue s) (map u8 addr) with
  | Written q => exists s', write_bytes env addr s = Ret true s' /\ held s' /\ squeue s' = q
  | Refused q => exists s', write_bytes env addr s = Ret false s' /\ idle s' /\ squeue s' = q
  | Sleeps q => exists s', write_bytes env addr s = Stop (Asleep "nwrite") s' /\ idle s' /\ squeue s' = q
  end.
Proof.
  induction addr as [|c addr IH]; intros env turns s Hr Hs; cbn [write_bytes map spec_write].
  - exists s. auto.
  - pose proof (wait_room_ok env turns s Hr Hs) as Hw. destruct (spec_room turns (gone s) (squeue s)) as [turns' g q|q|q].
    + destruct Hw as (env' & s1 & E1 & R1 & H1 & <- & <- & C1). destruct (put_held c s1 H1 C1) as (s2 & E2 & H2 & Q2 & G2).
      specialize (IH env' turns' s2 R1 H2). rewrite G2, Q2 in IH.
      assert (bind (wait_room env) (fun room => match room with None => ret false | Some env' => on_pipe (put_byte c) ;! write_bytes env' addr end) s = write_bytes env' addr s2) as ->
        by (step by (exact E1); step by (exact E2); reflexivity). exact IH.
    + destruct Hw as (s1 & E1 & H1 & Q1). exists s1. split; [step by (exact E1); reflexivity | auto].
    + destruct Hw as (s1 & E1 & H1 & Q1). exists s1. split; [apply bind_stop; exact E1 | auto].
Qed.


Lemma piperead_cases (s : pctx) (n : Z) (Hs : idle s) :
  if decide (squeue s = [] /\ p_writeopen (pc_pipe s) <> 0) then
    if decide (pc_killed s = 0) then 
      exists s', piperead [] n s = Stop (Asleep "nread") s' /\ idle s' /\ squeue s' = [] /\ gone s' = gone s
    else exists s', piperead [] n s = Ret (-1, []) s' /\ idle s' /\ squeue s' = [] /\ gone s' = gone s
  else
    exists s', piperead [] n s = Ret (Z.of_nat (min (Z.to_nat n) (length (squeue s))),
                                      take (Z.to_nat n) (squeue s)) s' /\
      idle s' /\ squeue s' = drop (Z.to_nat n) (squeue s) /\ gone s' = gone s.
Proof.
  destruct s as [p ki]. destruct Hs as [Hl Hp]. cbn [pc_pipe pc_killed] in *.
  pose proof (empty_iff p Hp) as He. pose proof (length_queue p) as Hlen.
  set (p1 := p <| p_lock := Some cpu_id |>).
  assert (pipe_ok p1) as Hp1 by (destruct Hp; split; auto).
  assert (queue p1 = queue p) as Q1 by reflexivity.
  assert (lock_pipe (mk_pctx p ki) = Ret tt (mk_pctx p1 ki)) as E1 by (apply lock_pipe_eq; exact Hl).
  assert (forall q, p_lock q = Some cpu_id ->
    unlock_pipe (mk_pctx q ki) = Ret tt (mk_pctx (q <| p_lock := None |>) ki)) as E2
    by (intros q Hq; apply unlock_pipe_eq; exact Hq).
  assert (queue p = [] <-> (p_nread p =? p_nwrite p) = true) as Hq.
  { rewrite He, <- Hlen. split; [intros ->; reflexivity | apply nil_length_inv]. }
  destruct (decide (queue p = [] /\ p_writeopen p <> 0)) as [[H1 H2]|Hne].
  - apply Hq in H1 as H1'. destruct (decide (ki = 0)) as [->|Hk].
    + exists (mk_pctx (p1 <| p_lock := None |>) 0).
      split; [|split; [split; [reflexivity | destruct Hp; split; auto] | split; [exact H1 | reflexivity]]].
      unfold piperead. step by (exact E1). cbn [wait_data]. rewrite bind_assoc. step by reflexivity.
      cbn [pc_pipe id pc_killed].
      change (p_nread p1 =? p_nwrite p1) with (p_nread p =? p_nwrite p). rewrite H1'.
      change (p_writeopen p1) with (p_writeopen p). rewrite (proj2 (Z.eqb_neq _ _) H2).
      change (negb (0 =? 0)) with false. cbn [negb andb].
      rewrite bind_assoc. step by (apply E2; reflexivity). reflexivity.
    + exists (mk_pctx (p1 <| p_lock := None |>) ki).
      split; [|split; [split; [reflexivity | destruct Hp; split; auto] | split; [exact H1 | reflexivity]]].
      unfold piperead. step by (exact E1). cbn [wait_data]. rewrite bind_assoc. step by reflexivity.
      cbn [pc_pipe id pc_killed]. change (p_nread p1 =? p_nwrite p1) with (p_nread p =? p_nwrite p).
      change (p_writeopen p1) with (p_writeopen p).
      rewrite H1', (proj2 (Z.eqb_neq _ _) H2), (proj2 (Z.eqb_neq _ _) Hk). cbn [negb andb].
      rewrite bind_assoc. step by (apply E2; reflexivity). reflexivity.
  - destruct (read_bytes_eq (Z.to_nat n) p1 Hp1) as (p2 & E3 & O2 & Q2 & L2 & R2 & _). rewrite Q1 in *.
    exists (mk_pctx (p2 <| p_lock := None |>) ki).
    split; [|split; [split; [reflexivity | destruct O2; split; auto] | split; [exact Q2 | unfold gone; cbn; rewrite R2; reflexivity]]].
    unfold piperead. step by (exact E1). step by (cbn [wait_data]; unfold bind at 1, get at 1; cbn [id pc_pipe];
      change (p_nread p1 =? p_nwrite p1) with (p_nread p =? p_nwrite p);
      change (p_writeopen p1) with (p_writeopen p);
      destruct (p_nread p =? p_nwrite p) eqn:E; [|reflexivity];
      destruct (Z.eqb_spec (p_writeopen p) 0) as [W|W]; [reflexivity|];
      exfalso; apply Hne; split; [apply Hq; reflexivity | exact W]).
    step by (unfold on_pipe, zoom; cbn [pc_pipe]; rewrite E3; reflexivity).
    unfold wakeup. step by reflexivity. step by (apply E2; cbn; rewrite L2; reflexivity).
    unfold ret. rewrite length_take. reflexivity.
Qed.

(** piperead() takes the oldest bytes: it returns the first n bytes of
    the pipe, or all of them when there are fewer, and leaves the others in
    order; on an empty pipe it returns 0 when the write end is closed, -1
    when the process is killed, and sleeps otherwise. *)
Theorem piperead_fifo (s : pctx) (n : Z) (Hs : idle s) :
  if decide (squeue s = [] /\ p_writeopen (pc_pipe s) <> 0) then
    if decide (pc_killed s = 0) then 
      exists s', piperead [] n s = Stop (Asleep "nread") s' /\ idle s' /\ squeue s' = [] /\ gone s' = gone s
    else exists s', piperead [] n s = Ret (-1, []) s' /\ idle s' /\ squeue s' = [] /\ gone s' = gone s
  else
    exists s', piperead [] n s = Ret (Z.of_nat (min (Z.to_nat n) (length (squeue s))),
                                      take (Z.to_nat n) (squeue s)) s' /\
      idle s' /\ squeue s' = drop (Z.to_nat n) (squeue s) /\ gone s' = gone s.
Proof. apply piperead_cases. exact Hs. Qed.
End Proofs.

Section Witnesses.
#[local] Instance one_cpu : Ctx := {| cpu_id := 0; cur_pid := 1 |}.

#[local] Abbreviation squeue s := (queue (pc_pipe s)).

(** A pipe about to wrap its counters, holding 510 bytes. *)
Definition demo_pipe : pctx :=
  mk_pctx (mk_pipe None (repeat 7 512) (2 ^ 32 - 509) 1 1 1) 0.
(** A reader that takes three bytes. *)
Definition demo_reader (s : pctx) : pctx :=
  match piperead [] 3 s with Ret _ s' => s' | Stop _ s' => s' end.

Lemma demo_pipe_idle : idle demo_pipe.
Proof. split; [reflexivity|]. split; vm_compute; repeat split; discriminate || lia. Qed.

Lemma demo_reader_ok : Forall2 plays [demo_reader] [mk_turn 3 false].
Proof.
  constructor; [|constructor]. intros s Hs. unfold demo_reader. pose proof (piperead_cases s 3 Hs) as Hc. cbn [t_takes t_ends]. rewrite orb_false_r.
  destruct (decide _) as [[E _]|_]; [destruct (decide _)|]; destruct Hc as (s' & E' & I' & Q' & G'); rewrite E'; cbn [fst snd]; (split; [exact I'|]); (split; [|exact G']).
  1,2: rewrite Q', E; reflexivity.
  exact Q'.
Qed.


Example piperead_fifo_witness : exists s',
  piperead [] 2 (mk_pctx (mk_pipe None (repeat 7 512) (2 ^ 32 - 1) 2 1 1) 0) = Ret (2, [7; 7]) s' /\
  squeue s' = [7].
Proof.
  assert (idle (mk_pctx (mk_pipe None (repeat 7 512) (2 ^ 32 - 1) 2 1 1) 0)) as Hs
    by (split; [reflexivity|]; split; vm_compute; repeat split; discriminate || lia).
  pose proof (piperead_fifo _ 2 Hs) as Hr. rewrite decide_False in Hr by (vm_compute; intuition discriminate).
  destruct Hr as (s' & E & _ & Q & _). exists s'. split; [exact E | exact Q].
Defined.
End Witnesses.
