(* ===== verification/Proc.v ===== *)
(** * Processes

    [src/homeworks/xv6-public/proc.c]: the process table, fork(), exit(),
    wait(), kill(), sleep and wakeup, and the scheduler.  Pointers to
    processes are indices into the table.  Files and inodes are reached
    through an interface ([FileOps]); memory is that of [Kalloc.v] and
    [Vm.v].  The proofs are in [ProcProofs.v]. *)
From S2P Require Import Prelude.
From S2P Require Import CString.
From S2P Require Import Kalloc.
From S2P Require Import Vm.

Definition NPROC : nat := 64.
Definition NOFILE : nat := 16.
Definition KSTACKSIZE : Z := 4096.
Definition FL_IF : Z := 0x200.
Definition SEG_UCODE : Z := 3.
Definition SEG_UDATA : Z := 4.
Definition DPL_USER : Z := 3.

Inductive procstate : Type := UNUSED | EMBRYO | SLEEPING | RUNNABLE | RUNNING | ZOMBIE.
#[export] Instance procstate_eq_dec : EqDecision procstate.
Proof. solve_decision. Defined.

(** What a process sleeps on: the address of a process (wait()) or of
    something else. *)
Inductive chan : Type := ChanProc (p : nat) | ChanOther (a : Z).
#[export] Instance chan_eq_dec : EqDecision chan.
Proof. solve_decision. Defined.

(** The fields of struct trapframe that C code touches. *)
Record trapframe := mk_tf {
  tf_eax : Z; tf_eip : Z; tf_esp : Z; tf_eflags : Z; tf_cs : Z; tf_ds : Z; tf_es : Z; tf_ss : Z }.
#[export] Instance eta_tf : Eta trapframe := fun t =>
  mk_tf (tf_eax t) (tf_eip t) (tf_esp t) (tf_eflags t) (tf_cs t) (tf_ds t) (tf_es t) (tf_ss t).

(** struct proc; the trap frame and the context are kept in the record. *)
Record proc := mk_proc {
  p_sz : Z; p_pgdir : Z; p_kstack : Z; p_state : procstate; p_pid : Z; p_parent : option nat;
  p_tf : trapframe; p_context_eip : Z; p_chan : option chan; p_killed : Z;
  p_ofile : list (option nat); p_cwd : option nat; p_name : list Z }.
#[export] Instance eta_proc : Eta proc := fun p =>
  mk_proc (p_sz p) (p_pgdir p) (p_kstack p) (p_state p) (p_pid p) (p_parent p)
    (p_tf p) (p_context_eip p) (p_chan p) (p_killed p) (p_ofile p) (p_cwd p) (p_name p).

(** ptable, initproc, nextpid; [pt_cpu] is [cpu->proc] of every CPU. *)
Record ptable := mk_ptable {
  pt_lock : spinlock; pt_proc : list proc; pt_initproc : option nat; pt_nextpid : Z;
  pt_cpu : list (option nat) }.
#[export] Instance eta_ptable : Eta ptable := fun t =>
  mk_ptable (pt_lock t) (pt_proc t) (pt_initproc t) (pt_nextpid t) (pt_cpu t).

(** tickslock and ticks of [trap.c]. *)
Record clock := mk_clock { ck_lock : spinlock; ck_ticks : Z }.
#[export] Instance eta_clock : Eta clock := fun c => mk_clock (ck_lock c) (ck_ticks c).

(** The state of the kernel; [F] is that of the file system. *)
Record kstate (F : Type) := mk_ks { ks_pt : ptable; ks_mem : kmem; ks_clock : clock; ks_fs : F }.
Arguments mk_ks {F} _ _ _ _.
Arguments ks_pt {F} _.
Arguments ks_mem {F} _.
Arguments ks_clock {F} _.
Arguments ks_fs {F} _.
#[export] Instance eta_kstate {F} : Eta (kstate F) := fun s =>
  mk_ks (ks_pt s) (ks_mem s) (ks_clock s) (ks_fs s).

(** The file system as proc.c uses it. *)
Class FileOps (F : Type) : Type := {
  f_filedup : nat -> M (kstate F) nat;
  f_fileclose : nat -> M (kstate F) unit;
  f_idup : nat -> M (kstate F) nat;
  f_iput : nat -> M (kstate F) unit;
  f_namei : list Z -> M (kstate F) (option nat);
  f_begin_op : M (kstate F) unit;
  f_end_op : M (kstate F) unit }.

(** Addresses of assembly routines and of the first user program. *)
Class Asm : Type := { forkret_addr : Z; trapret_addr : Z; initcode_start : Z; initcode_size : Z }.

Section Table.
Context `{Ctx}.

Definition on_proc {A} (i : nat) (m : M proc A) : M ptable A := zoom pt_proc (elt i m).
Definition set_state (i : nat) (x : procstate) : M ptable unit :=
  on_proc i (modify (fun p => p <| p_state := x |>)).

(** [cpus[cpuid()].proc] *)
Definition myproc : M ptable (option nat) :=
  get (fun t => default None (pt_cpu t !! cpu_id)).
(** myproc() where the code relies on it not being null. *)
Definition curproc : M ptable nat :=
  let! p := myproc in deref p.

Definition pinit : M ptable unit := modify (fun t => t <| pt_lock := None |>).

(** [safestrcpy(name, s, sizeof(name))] on the 16 bytes of [p->name]. *)
Fixpoint c_string (n : nat) (s : list Z) : list Z :=
  match n, s with
  | S n', x :: s' => if x =? 0 then [] else x :: c_string n' s'
  | _, _ => []
  end.
Definition copy_name (s name : list Z) : list Z :=
  let t := c_string 15 s ++ [0] in t ++ drop (length t) name.

(** [np->parent = curproc] *)
Definition set_parent (me np : nat) : M ptable unit :=
  on_proc np (modify (fun p => p <| p_parent := Some me |>)).

(** The first slot with a property. *)
Definition find_proc (f : proc -> bool) : M ptable (option nat) :=
  get (fun t => fst <$> list_find (fun p => f p = true) (pt_proc t)).

(** allocproc() up to the release of the table. *)
Definition alloc_slot : M ptable (option nat) :=
  zoom pt_lock acquire ;!
  let! found := find_proc (fun p => bool_decide (p_state p = UNUSED)) in
  match found with
  | None => zoom pt_lock release ;! ret None
  | Some i =>
      set_state i EMBRYO ;!
      let! pid := get pt_nextpid in
      on_proc i (modify (fun p => p <| p_pid := pid |>)) ;!
      modify (fun t => t <| pt_nextpid ::= fun n => s32 (n + 1) |>) ;!
      zoom pt_lock release ;!
      ret (Some i)
  end.

(** [acquire(&ptable.lock); p->state = RUNNABLE; release(&ptable.lock);] *)
Definition make_runnable (i : nat) : M ptable unit :=
  zoom pt_lock acquire ;! set_state i RUNNABLE ;! zoom pt_lock release.

Definition wake (c : chan) (p : proc) : proc :=
  if bool_decide (p_state p = SLEEPING) && bool_decide (p_chan p = Some c)
  then p <| p_state := RUNNABLE |> else p.
Definition wakeup1 (c : chan) : M ptable unit :=
  modify (fun t => t <| pt_proc ::= map (wake c) |>).

Definition wakeup (c : chan) : M ptable unit :=
  zoom pt_lock acquire ;! wakeup1 c ;! zoom pt_lock release.

Definition kill (pid : Z) : M ptable Z :=
  zoom pt_lock acquire ;!
  let! found := find_proc (fun p => p_pid p =? pid) in
  match found with
  | Some i =>
      on_proc i (modify (fun p => p <| p_killed := 1 |>)) ;!
      (* Wake process from sleep if necessary. *)
      let! p := on_proc i (get id) in
      (if bool_decide (p_state p = SLEEPING) then set_state i RUNNABLE else ret tt) ;!
      zoom pt_lock release ;!
      ret 0
  | None => zoom pt_lock release ;! ret (-1)
  end.

(** The checks of sched() before the switch.  Those of the nesting depth
    and of the interrupt flag concern the CPU state of [Spinlock.v]. *)
Definition sched_check : M ptable unit :=
  let! p := curproc in
  let! lk := get pt_lock in
  panic_if (negb (bool_decide (lk = Some cpu_id))) "sched ptable.lock" ;!
  let! x := on_proc p (get p_state) in
  panic_if (bool_decide (x = RUNNING)) "sched running".

(** Back in scheduler() after the switch, up to the end of the round. *)
Definition to_scheduler : M ptable unit :=
  modify (fun t => t <| pt_cpu ::= <[cpu_id := None]> |>) ;!
  zoom pt_lock release.

(** yield() until another process is switched to. *)
Definition yield : M ptable unit :=
  zoom pt_lock acquire ;!
  let! p := curproc in
  set_state p RUNNABLE ;!
  sched_check ;!
  to_scheduler.

(** One round of scheduler() that runs process [i]; the switch passes the
    lock to the process, which releases it. *)
Definition scheduler_run (i : nat) : M ptable unit :=
  zoom pt_lock acquire ;!
  let! x := on_proc i (get p_state) in
  if bool_decide (x = RUNNABLE) then
    modify (fun t => t <| pt_cpu ::= <[cpu_id := Some i]> |>) ;!
    set_state i RUNNING ;!
    zoom pt_lock release
  else zoom pt_lock release.

(** sleep(chan, lk) with [lk] released already or equal to the table lock,
    until another process is switched to. *)
Definition sleep_switch (c : chan) : M ptable unit :=
  let! p := curproc in
  on_proc p (modify (fun p => p <| p_chan := Some c |>)) ;!
  set_state p SLEEPING ;!
  sched_check ;!
  to_scheduler.

(** The end of sleep(), when the process runs again. *)
Definition sleep_tidy : M ptable unit :=
  let! p := curproc in
  on_proc p (modify (fun p => p <| p_chan := None |>)).

(** sleep(chan, lk) for another lock than the table lock: the part before
    the switch; the caller releases [lk] after the table lock is taken. *)
Definition sleep (c : chan) : M ptable unit :=
  let! p := myproc in
  match p with
  | None => panic "sleep"
  | Some _ => zoom pt_lock acquire ;! sleep_switch c
  end.

(** exit() from the acquire on. *)
Definition exit_table : M ptable unit :=
  let! me := curproc in
  zoom pt_lock acquire ;!
  (* Parent might be sleeping in wait(). *)
  let! parent := on_proc me (get p_parent) in
  (match parent with Some q => wakeup1 (ChanProc q) | None => ret tt end) ;!
  (* Pass abandoned children to init. *)
  let! initproc := get pt_initproc in
  for_all (seq 0 NPROC) (fun i =>
    let! p := on_proc i (get id) in
    if bool_decide (p_parent p = Some me) then
      on_proc i (modify (fun p => p <| p_parent := initproc |>)) ;!
      if bool_decide (p_state p = ZOMBIE)
      then match initproc with Some q => wakeup1 (ChanProc q) | None => ret tt end
      else ret tt
    else ret tt) ;!
  set_state me ZOMBIE ;!
  sched_check ;!
  to_scheduler.

(** One scan of wait() for children of [me]: a zombie, or whether there are
    any children. *)
Fixpoint wait_scan (me : nat) (l : list proc) (i : nat) (havekids : bool) : option nat * bool :=
  match l with
  | [] => (None, havekids)
  | p :: l' =>
      if bool_decide (p_parent p = Some me) then
        if bool_decide (p_state p = ZOMBIE) then (Some i, true) else wait_scan me l' (S i) true
      else wait_scan me l' (S i) havekids
  end.

(** What wait() does to the slot of the child it found, once the memory of
    the child is freed. *)
Definition reap (p : proc) : proc :=
  mk_proc (p_sz p) (p_pgdir p) (p_kstack p)
    UNUSED (* p->state *) 0 (* p->pid *) None (* p->parent *)
    (p_tf p) (p_context_eip p) (p_chan p)
    0 (* p->killed *) (p_ofile p) (p_cwd p)
    (match p_name p with [] => [] | _ :: n' => 0 :: n' end).
Definition reap_slot (i : nat) : M ptable unit :=
  on_proc i (modify reap) ;! zoom pt_lock release.

Inductive wait_result : Type := Zombie (child : nat) | NoChildren | MustSleep.

(** One scan of wait() with the table locked.  On [Zombie] the table is
    still locked, on [MustSleep] the process is asleep and it is not. *)
Definition wait_round : M ptable wait_result :=
  let! me := curproc in
  let! procs := get pt_proc in
  let '(zombie, havekids) := wait_scan me procs O false in
  match zombie with
  | Some i =>
      ret (Zombie i)
  | None =>
      let! p := on_proc me (get id) in
      (* No point waiting if we don't have any children. *)
      if negb havekids || negb (p_killed p =? 0) then
        zoom pt_lock release ;! ret NoChildren
      else
        (* Wait for children to exit. *)
        sleep_switch (ChanProc me) ;! ret MustSleep
  end.
End Table.

(** ** Whole system calls *)
Section Calls.
Context `{Ctx} `{Linked} `{Asm} {F : Type} `{FileOps F}.

Definition in_pt {A} (m : M ptable A) : M (kstate F) A := zoom ks_pt m.
Definition in_mem {A} (m : M kmem A) : M (kstate F) A := zoom ks_mem m.

Definition allocproc : M (kstate F) (option nat) :=
  let! slot := in_pt alloc_slot in
  match slot with
  | None => ret None
  | Some i =>
      (* Allocate kernel stack. *)
      let! kstack := in_mem kalloc in
      in_pt (on_proc i (modify (fun p => p <| p_kstack := kstack |>))) ;!
      if kstack =? 0 then
        in_pt (set_state i UNUSED) ;!
        ret None
      else
        (* sizeof *p->tf is 76; the return address, then the context *)
        in_mem (store_ptr (kstack + KSTACKSIZE - 76 - 4) trapret_addr) ;!
        in_mem (mem_set (kstack + KSTACKSIZE - 76 - 4 - 20) 0 20) ;!
        in_pt (on_proc i (modify (fun p => p <| p_context_eip := forkret_addr |>))) ;!
        ret (Some i)
  end.

Definition userinit : M (kstate F) unit :=
  let! p := allocproc in
  in_pt (modify (fun t => t <| pt_initproc := p |>)) ;!
  let! i := deref p in
  let! pgdir := in_mem setupkvm in
  in_pt (on_proc i (modify (fun p => p <| p_pgdir := pgdir |>))) ;!
  panic_if (pgdir =? 0) "userinit: out of memory?" ;!
  in_mem (inituvm pgdir initcode_start initcode_size) ;!
  let udata := Z.lor (Z.shiftl SEG_UDATA 3) DPL_USER in
  in_pt (on_proc i (modify (fun p => p
    <| p_sz := PGSIZE |>
    <| p_tf := mk_tf 0 0 PGSIZE FL_IF (Z.lor (Z.shiftl SEG_UCODE 3) DPL_USER) udata udata udata |>
    <| p_name ::= copy_name (str "initcode" ++ [0]) |>))) ;!
  let! cwd := f_namei (str "/") in
  in_pt (on_proc i (modify (fun p => p <| p_cwd := cwd |>))) ;!
  in_pt (make_runnable i).

Definition growproc (n : Z) : M (kstate F) Z :=
  let! me := in_pt curproc in
  let! p := in_pt (on_proc me (get id)) in
  let sz := p_sz p in
  let! sz' :=
    (if 0 <? n then in_mem (allocuvm (p_pgdir p) sz (u32 (sz + n)))
     else if n <? 0 then in_mem (deallocuvm (p_pgdir p) sz (u32 (sz + n)))
     else ret sz) in
  if negb (n =? 0) && (sz' =? 0) then ret (-1) else
  in_pt (on_proc me (modify (fun p => p <| p_sz := sz' |>))) ;!
  ret 0.

(** [for(i = 0; i < NOFILE; i++) if(curproc->ofile[i]) np->ofile[i] = ...] *)
Definition dup_files (from to : nat) : M (kstate F) unit :=
  for_all (seq 0 NOFILE) (fun fd =>
    let! src := in_pt (on_proc from (get p_ofile)) in
    match default None (src !! fd) with
    | None => ret tt
    | Some f =>
        let! f' := f_filedup f in
        in_pt (on_proc to (modify (fun p => p <| p_ofile ::= <[fd := Some f']> |>)))
    end).

Definition fork : M (kstate F) Z :=
  let! me := in_pt curproc in
  (* Allocate process. *)
  let! slot := allocproc in
  match slot with
  | None => ret (-1)
  | Some np =>
      (* Copy process state from proc. *)
      let! cur := in_pt (on_proc me (get id)) in
      let! pgdir := in_mem (copyuvm (p_pgdir cur) (p_sz cur)) in
      in_pt (on_proc np (modify (fun p => p <| p_pgdir := pgdir |>))) ;!
      if pgdir =? 0 then
        let! kstack := in_pt (on_proc np (get p_kstack)) in
        in_mem (kfree kstack) ;!
        in_pt (on_proc np (modify (fun p => p <| p_kstack := 0 |>))) ;!
        in_pt (set_state np UNUSED) ;!
        ret (-1)
      else
        in_pt (on_proc np (modify (fun p => p <| p_sz := p_sz cur |>))) ;!
        in_pt (set_parent me np) ;!
        (* Clear %eax so that fork returns 0 in the child. *)
        let tf := set_field (getter := tf_eax) (fun _ => 0) (p_tf cur) in
        in_pt (on_proc np (modify (fun p => p <| p_tf := tf |>))) ;!
        dup_files me np ;!
        let! dir := deref (p_cwd cur) in
        let! cwd := f_idup dir in
        in_pt (on_proc np (modify (fun p => p <| p_cwd := Some cwd |>))) ;!
        in_pt (on_proc np (modify (fun p => p <| p_name ::= copy_name (p_name cur) |>))) ;!
        let! pid := in_pt (on_proc np (get p_pid)) in
        in_pt (make_runnable np) ;!
        ret pid
  end.

(** Close all open files. *)
Definition close_files (me : nat) : M (kstate F) unit :=
  for_all (seq 0 NOFILE) (fun fd =>
    let! files := in_pt (on_proc me (get p_ofile)) in
    match default None (files !! fd) with
    | None => ret tt
    | Some f =>
        f_fileclose f ;!
        in_pt (on_proc me (modify (fun p => p <| p_ofile ::= <[fd := None]> |>)))
    end).

(** exit(); it returns to the scheduler, never to its caller. *)
Definition exit : M (kstate F) unit :=
  let! me := in_pt curproc in
  let! initproc := in_pt (get pt_initproc) in
  panic_if (bool_decide (initproc = Some me)) "init exiting" ;!
  close_files me ;!
  let! cur := in_pt (on_proc me (get id)) in
  f_begin_op ;!
  let! cwd := deref (p_cwd cur) in
  f_iput cwd ;!
  f_end_op ;!
  in_pt (on_proc me (modify (fun p => p <| p_cwd := None |>))) ;!
  in_pt exit_table.

(** The loop of wait(), the table is locked; between two rounds the rest of
    the system does [e], after which this process runs with the lock held. *)
Fixpoint wait_loop (env : list (kstate F -> kstate F)) : M (kstate F) Z :=
  let! r := in_pt wait_round in
  match r with
  | Zombie i =>
      (* Found one. *)
      let! p := in_pt (on_proc i (get id)) in
      in_mem (kfree (p_kstack p)) ;!
      in_pt (on_proc i (modify (fun p => p <| p_kstack := 0 |>))) ;!
      in_mem (freevm (p_pgdir p)) ;!
      in_pt (reap_slot i) ;!
      ret (p_pid p)
  | NoChildren => ret (-1)
  | MustSleep =>
      match env with
      | [] => halt (Asleep "wait")
      | e :: env' => modify e ;! in_pt sleep_tidy ;! wait_loop env'
      end
  end.
Definition wait (env : list (kstate F -> kstate F)) : M (kstate F) Z :=
  in_pt (zoom pt_lock acquire) ;!
  wait_loop env.
End Calls.
