(* ===== verification/ProcProofs.v ===== *)
(** * The process table: proofs

    The critical sections of [Proc.v] that change the table, run by any CPU
    in any order ([tstep]); the invariant of the reachable tables and what
    follows from it for the scheduler, the pids and wait(). *)
From S2P Require Import Prelude.
From S2P Require Import CString.
From S2P Require Import Kalloc.
From S2P Require Import Vm.
From S2P Require Import Proc.

(** ** The steps of the system *)

Inductive op : Type :=
| OAlloc            (* allocproc() *)
| OParent (np : nat) (* fork(): np->parent = curproc *)
| OReady (np : nat) (* fork(): the child becomes runnable *)
| OFail (np : nat)  (* allocproc(), fork(): out of memory *)
| OWakeup (c : chan)
| OKill (pid : Z)
| ORun (i : nat)    (* scheduler() *)
| OYield
| OSleep (a : Z)    (* sleep() on something other than a process *)
| OTidy             (* the end of sleep() *)
| OWait             (* one round of wait() *)
| OExit.

Definition on_cpu (c : nat) : Ctx := {| cpu_id := c; cur_pid := 0 |}.

(** wait() from the acquire to the release or to the switch. *)
Definition wait_once `{Ctx} : M ptable unit :=
  zoom pt_lock acquire ;!
  let! r := wait_round in
  match r with
  | Zombie i => on_proc i (modify (fun p => p <| p_kstack := 0 |>)) ;! reap_slot i
  | _ => ret tt
  end.

Definition exec (c : nat) (o : op) : M ptable unit :=
  let ctx := on_cpu c in
  match o with
  | OAlloc => let! _ := alloc_slot in ret tt
  | OParent np => let! me := curproc in set_parent me np
  | OReady np => make_runnable np
  | OFail np => set_state np UNUSED
  | OWakeup ch => Proc.wakeup ch
  | OKill pid => let! _ := kill pid in ret tt
  | ORun i => scheduler_run i
  | OYield => yield
  | OSleep a => sleep (ChanOther a)
  | OTidy => sleep_tidy
  | OWait => wait_once
  | OExit => exit_table
  end.

(** When the code performs a step: scheduler() runs on an idle CPU, all the
    others in a process.  Only the process that allocated a slot touches it
    before it is runnable; fork() fails before it sets the parent; exit()
    has checked that the process is not the initial one. *)
Definition enabled (c : nat) (o : op) (t : ptable) : Prop :=
  match o with
  | ORun i => pt_cpu t !! c = Some None /\ (i < NPROC)%nat
  | _ =>
      exists me, pt_cpu t !! c = Some (Some me) /\
      match o with
      | OParent np | OReady np =>
          exists p, pt_proc t !! np = Some p /\ p_state p = EMBRYO
      | OFail np => exists p, pt_proc t !! np = Some p /\ p_state p = EMBRYO /\ p_parent p = None
      | OExit => pt_initproc t <> Some me
      | _ => True
      end
  end.

Inductive tstep (t t' : ptable) : Prop :=
| TStep c o (He : enabled c o t) (Hx : exec c o t = Ret tt t').

(** [n] steps from [t]. *)
Inductive reach (t : ptable) : nat -> ptable -> Prop :=
| ReachRefl : reach t O t
| ReachStep n t1 t2 (Hr : reach t n t1) (Hs : tstep t1 t2) : reach t (S n) t2.

(** After main() has called userinit(): [i] is the initial process. *)
Definition blank : proc :=
  mk_proc 0 0 0 UNUSED 0 None (mk_tf 0 0 0 0 0 0 0 0) 0 None 0 (replicate NOFILE None) None (replicate 16 0).
Definition booted (ncpu : nat) : ptable :=
  mk_ptable None (blank <| p_state := RUNNABLE |> <| p_pid := 1 |> :: replicate (NPROC - 1) blank)
    (Some O) 2 (replicate ncpu None).

(** ** The invariant *)

Record cpu_inv (l : list proc) (cpus : list (option nat)) : Prop := {
  ci_running : forall c i, cpus !! c = Some (Some i) ->
    exists p, l !! i = Some p /\ p_state p = RUNNING;
  ci_unique : forall c c' i, cpus !! c = Some (Some i) -> cpus !! c' = Some (Some i) -> c = c';
  ci_some : forall i p, l !! i = Some p -> p_state p = RUNNING -> exists c, cpus !! c = Some (Some i) }.

Record pid_inv (n : Z) (l : list proc) (next : Z) : Prop := {
  pi_next : 1 <= next <= n + 2;
  pi_range : forall i p, l !! i = Some p -> p_state p <> UNUSED -> 1 <= p_pid p < next;
  pi_inj : forall i j p q, l !! i = Some p -> l !! j = Some q -> p_state p <> UNUSED ->
    p_state q <> UNUSED -> p_pid p = p_pid q -> i = j }.

Definition in_wait (i : nat) (p : proc) : Prop :=
  p_state p = SLEEPING /\ p_chan p = Some (ChanProc i).

Record tree_inv (l : list proc) (i0 : nat) : Prop := {
  ti_self : forall i p, l !! i = Some p -> p_parent p <> Some i;
  ti_unused : forall i p, l !! i = Some p -> p_state p = UNUSED -> p_parent p = None;
  ti_init : exists p, l !! i0 = Some p /\ p_parent p = None /\
    p_state p <> UNUSED /\ p_state p <> EMBRYO /\ p_state p <> ZOMBIE;
  ti_wait : forall i p j q, l !! i = Some p -> in_wait i p ->
    l !! j = Some q -> p_parent q = Some i -> p_state q <> ZOMBIE }.

Record pt_inv (n : Z) (t : ptable) : Prop := {
  inv_lock : pt_lock t = None;
  inv_len : length (pt_proc t) = NPROC;
  inv_initproc : exists i0, pt_initproc t = Some i0 /\ tree_inv (pt_proc t) i0;
  inv_cpu : cpu_inv (pt_proc t) (pt_cpu t);
  inv_pid : pid_inv n (pt_proc t) (pt_nextpid t) }.

(** *** How steps change the slots *)

(** [l'] is [l] with each slot changed by [R]. *)
Definition slots (R : nat -> proc -> proc -> Prop) (l l' : list proc) : Prop :=
  length l' = length l /\
  forall j p p', l !! j = Some p -> l' !! j = Some p' -> R j p p'.

Lemma slots_back R l l' j p' : slots R l l' -> l' !! j = Some p' ->
  exists p, l !! j = Some p /\ R j p p'.
Proof.
  intros [Hlen HR] Hj. destruct (lookup_lt_is_Some_2 l j) as [p Hp].
  { apply lookup_lt_Some in Hj. rewrite <- Hlen. exact Hj. }
  exists p. split; [exact Hp | exact (HR j p p' Hp Hj)].
Qed.
Lemma slots_forth R l l' j p : slots R l l' -> l !! j = Some p ->
  exists p', l' !! j = Some p' /\ R j p p'.
Proof.
  intros [Hlen HR] Hj. destruct (lookup_lt_is_Some_2 l' j) as [p' Hp'].
  { apply lookup_lt_Some in Hj. rewrite Hlen. exact Hj. }
  exists p'. split; [exact Hp' | exact (HR j p p' Hj Hp')].
Qed.
Lemma slots_weaken (R R' : nat -> proc -> proc -> Prop) l l' :
  (forall j p p', l !! j = Some p -> l' !! j = Some p' -> R j p p' -> R' j p p') ->
  slots R l l' -> slots R' l l'.
Proof. intros HRR [Hlen HR]. split; [exact Hlen|]. eauto. Qed.
Lemma slots_refl (R : nat -> proc -> proc -> Prop) l : (forall j p, R j p p) -> slots R l l.
Proof. intros HR. split; [reflexivity|]. intros j p p' E E'. rewrite E in E'. injection E' as <-. apply HR. Qed.
Lemma slots_insert (R : nat -> proc -> proc -> Prop) l i p0 p1 : l !! i = Some p0 -> R i p0 p1 ->
  (forall j p, j <> i -> l !! j = Some p -> R j p p) -> slots R l (<[i := p1]> l).
Proof.
  intros Hi H1 HR. split; [apply length_insert|]. intros j p p' E E'.
  destruct (decide (j = i)) as [->|Hne].
  - rewrite list_lookup_insert_eq in E' by (eapply lookup_lt_Some; exact Hi). congruence.
  - rewrite list_lookup_insert_ne in E' by congruence. assert (p' = p) as -> by congruence. auto.
Qed.
Lemma slots_map (R : nat -> proc -> proc -> Prop) f l : (forall j p, l !! j = Some p -> R j p (f p)) -> slots R l (map f l).
Proof.
  intros HR. split; [apply length_map|]. intros j p p' E E'.
  change (map f l) with (f <$> l) in E'. rewrite list_lookup_fmap, E in E'. injection E' as <-. auto.
Qed.

(** *** Preservation, one part of the invariant at a time *)

(** Every step but allocproc() keeps the pids of the used slots. *)
Definition keeps_pid (_ : nat) (p p' : proc) : Prop :=
  p_state p' <> UNUSED -> p_state p <> UNUSED /\ p_pid p' = p_pid p.

Lemma pid_keeps n l l' next : slots keeps_pid l l' -> pid_inv n l next -> pid_inv (n + 1) l' next.
Proof.
  intros HS [Hn Hr Hi]. split; [lia| |].
  - intros i p' Hp' Hu. destruct (slots_back _ _ _ _ _ HS Hp') as (p & Hp & HK).
    destruct (HK Hu) as [Hu' ->]. eauto.
  - intros i j p' q' Hp' Hq' Hu Hv E.
    destruct (slots_back _ _ _ _ _ HS Hp') as (p & Hp & HK), (slots_back _ _ _ _ _ HS Hq') as (q & Hq & HL).
    destruct (HK Hu) as [Hu' Ep], (HL Hv) as [Hv' Eq]. apply (Hi i j p q); congruence.
Qed.

(** No slot starts or stops running. *)
Definition keeps_running (_ : nat) (p p' : proc) : Prop :=
  p_state p' = RUNNING <-> p_state p = RUNNING.

Lemma cpu_keeps l l' cpus : slots keeps_running l l' -> cpu_inv l cpus -> cpu_inv l' cpus.
Proof.
  intros HS [Hr Hu Hs]. split; [|exact Hu|].
  - intros c i E. destruct (Hr c i E) as (p & Hp & Ep).
    destruct (slots_forth _ _ _ _ _ HS Hp) as (p' & Hp' & HK). exists p'. unfold keeps_running in HK. tauto.
  - intros i p' Hp' Ep'. destruct (slots_back _ _ _ _ _ HS Hp') as (p & Hp & HK).
    apply (Hs i p Hp). apply HK, Ep'.
Qed.

(** The process [me] leaves its CPU. *)
Definition leaves (me j : nat) (p p' : proc) : Prop :=
  p_state p' = RUNNING <-> p_state p = RUNNING /\ j <> me.

Lemma cpu_leaves l l' cpus c me : slots (leaves me) l l' -> cpus !! c = Some (Some me) ->
  cpu_inv l cpus -> cpu_inv l' (<[c := None]> cpus).
Proof.
  intros HS Hc [Hr Hu Hs].
  assert (Hback : forall c' i, <[c := None]> cpus !! c' = Some (Some i) -> cpus !! c' = Some (Some i) /\ c' <> c).
  { intros c' i E. destruct (decide (c' = c)) as [->|Hne].
    - rewrite list_lookup_insert_eq in E by (eapply lookup_lt_Some; exact Hc). discriminate E.
    - rewrite list_lookup_insert_ne in E by congruence. auto. }
  split.
  - intros c' i E. destruct (Hback c' i E) as [E' Hne]. destruct (Hr c' i E') as (p & Hp & Ep).
    destruct (slots_forth _ _ _ _ _ HS Hp) as (p' & Hp' & HK). exists p'. split; [exact Hp'|].
    apply HK. split; [exact Ep|]. intros ->. apply Hne. eauto.
  - intros c1 c2 i E1 E2. apply Hback in E1, E2. destruct E1, E2. eauto.
  - intros i p' Hp' Ep'. destruct (slots_back _ _ _ _ _ HS Hp') as (p & Hp & HK).
    destruct (proj1 HK Ep') as [Ep Hne]. destruct (Hs i p Hp Ep) as [c' E]. exists c'.
    rewrite list_lookup_insert_ne; [exact E|]. intros <-. congruence.
Qed.

(** The idle CPU [c] starts to run process [i]. *)
Lemma cpu_runs l cpus c i p : l !! i = Some p -> p_state p = RUNNABLE -> cpus !! c = Some None ->
  cpu_inv l cpus -> cpu_inv (<[i := p <| p_state := RUNNING |>]> l) (<[c := Some i]> cpus).
Proof.
  intros Hi Ep Hc [Hr Hu Hs].
  pose proof (lookup_lt_Some _ _ _ Hc) as Hcl. pose proof (lookup_lt_Some _ _ _ Hi) as Hil.
  assert (Hback : forall c' j, <[c := Some i]> cpus !! c' = Some (Some j) ->
    c' = c /\ j = i \/ c' <> c /\ j <> i /\ cpus !! c' = Some (Some j)).
  { intros c' j E. destruct (decide (c' = c)) as [->|Hne].
    - rewrite list_lookup_insert_eq in E by exact Hcl. left. split; congruence.
    - rewrite list_lookup_insert_ne in E by congruence. right. repeat split; [exact Hne| |exact E].
      intros ->. destruct (Hr c' i E) as (q & Hq & Eq). congruence. }
  split.
  - intros c' j E. destruct (Hback c' j E) as [[-> ->]|(Hne & Hj & E')].
    + eexists. split; [apply list_lookup_insert_eq; exact Hil | reflexivity].
    + rewrite list_lookup_insert_ne by congruence. eauto.
  - intros c1 c2 j E1 E2. destruct (Hback _ _ E1) as [[-> ->]|(? & ? & ?)],
      (Hback _ _ E2) as [[-> ?]|(? & ? & ?)]; eauto; congruence.
  - intros j q Hq Eq. destruct (decide (j = i)) as [->|Hne].
    + exists c. apply list_lookup_insert_eq, Hcl.
    + rewrite list_lookup_insert_ne in Hq by congruence. destruct (Hs j q Hq Eq) as [c' E].
      exists c'. rewrite list_lookup_insert_ne; [exact E|]. intros <-. congruence.
Qed.

(** No new sleeper of wait(), zombie, unused slot or child. *)
Definition keeps_tree (i0 j : nat) (p p' : proc) : Prop :=
  (p_parent p' = p_parent p \/ p_parent p' = None) /\ (in_wait j p' -> in_wait j p) /\
  (p_state p' = ZOMBIE -> p_state p = ZOMBIE) /\
  (p_state p' = UNUSED -> p_parent p' = None) /\
  (j = i0 -> p_state p' <> UNUSED /\ p_state p' <> EMBRYO).

Lemma tree_keeps l l' i0 : slots (keeps_tree i0) l l' -> tree_inv l i0 -> tree_inv l' i0.
Proof.
  intros HS [Hs Hu Hi Hw]. split.
  - intros i p' Hp'. destruct (slots_back _ _ _ _ _ HS Hp') as (p & Hp & HK).
    destruct HK as [[->| ->] _]; [eauto | discriminate].
  - intros i p' Hp' E. destruct (slots_back _ _ _ _ _ HS Hp') as (p & Hp & _ & _ & _ & HK & _). auto.
  - destruct Hi as (p & Hp & E1 & E2 & E3 & E4).
    destruct (slots_forth _ _ _ _ _ HS Hp) as (p' & Hp' & HK1 & _ & HK2 & _ & HK3).
    exists p'. split; [exact Hp'|]. split; [destruct HK1; congruence|]. destruct (HK3 eq_refl). tauto.
  - intros i p' j q' Hp' Hin Hq' Epar.
    destruct (slots_back _ _ _ _ _ HS Hp') as (p & Hp & HK), (slots_back _ _ _ _ _ HS Hq') as (q & Hq & HL).
    intros Hz. destruct HK as (_ & HK & _), HL as (HL1 & _ & HL2 & _).
    apply (Hw i p j q Hp (HK Hin) Hq); [destruct HL1; congruence | auto].
Qed.

(** ** Running the code *)

Section Exec.
Variable c : nat.
Let ctx : Ctx := on_cpu c.
#[local] Existing Instance ctx.
Implicit Types (l : list proc) (cpus : list (option nat)) (lk : spinlock).

Lemma lock_run l i0 next cpus :
  zoom pt_lock acquire (mk_ptable None l i0 next cpus) = Ret tt (mk_ptable (Some c) l i0 next cpus).
Proof. reflexivity. Qed.
Lemma unlock_run l i0 next cpus :
  zoom pt_lock release (mk_ptable (Some c) l i0 next cpus) = Ret tt (mk_ptable None l i0 next cpus).
Proof. unfold zoom. cbn [pt_lock]. change c with (@cpu_id ctx). rewrite release_mine. reflexivity. Qed.
Lemma curproc_run lk l i0 next cpus me : cpus !! c = Some (Some me) ->
  curproc (mk_ptable lk l i0 next cpus) = Ret me (mk_ptable lk l i0 next cpus).
Proof. intros E. unfold curproc, myproc, bind, get. cbn. rewrite E. reflexivity. Qed.
Lemma myproc_run lk l i0 next cpus me : cpus !! c = Some (Some me) ->
  myproc (mk_ptable lk l i0 next cpus) = Ret (Some me) (mk_ptable lk l i0 next cpus).
Proof. intros E. unfold myproc, get. cbn. rewrite E. reflexivity. Qed.
Lemma slot_get {A} (f : proc -> A) lk l i0 next cpus i p : l !! i = Some p ->
  on_proc i (get f) (mk_ptable lk l i0 next cpus) = Ret (f p) (mk_ptable lk l i0 next cpus).
Proof.
  intros E. unfold on_proc, zoom, elt, get. cbn. rewrite E. cbn.
  unfold set_field. cbn. rewrite list_insert_id by exact E. reflexivity.
Qed.
Lemma slot_set (f : proc -> proc) lk l i0 next cpus i p : l !! i = Some p ->
  on_proc i (modify f) (mk_ptable lk l i0 next cpus) =
  Ret tt (mk_ptable lk (<[i := f p]> l) i0 next cpus).
Proof. intros E. unfold on_proc, zoom, elt, modify. cbn. rewrite E. reflexivity. Qed.
Lemma state_set x lk l i0 next cpus i p : l !! i = Some p ->
  set_state i x (mk_ptable lk l i0 next cpus) =
  Ret tt (mk_ptable lk (<[i := p <| p_state := x |>]> l) i0 next cpus).
Proof. apply slot_set. Qed.
Lemma wakeup1_run ch lk l i0 next cpus : wakeup1 ch (mk_ptable lk l i0 next cpus) =
  Ret tt (mk_ptable lk (map (wake ch) l) i0 next cpus).
Proof. reflexivity. Qed.
(** sched() gives the CPU back, the table unlocked. *)
Lemma sched_run l i0 next cpus me p : cpus !! c = Some (Some me) -> l !! me = Some p ->
  p_state p <> RUNNING ->
  (sched_check ;! to_scheduler) (mk_ptable (Some c) l i0 next cpus) =
  Ret tt (mk_ptable None l i0 next (<[c := None]> cpus)).
Proof.
  intros Hc Hp Hx. unfold sched_check. rewrite bind_assoc. step by (apply curproc_run, Hc).
  rewrite bind_assoc. step by reflexivity. rewrite bind_assoc. step by (apply panic_if_false, negb_false_iff, bool_decide_eq_true_2, eq_refl).
  rewrite bind_assoc. step by (apply slot_get, Hp). step by (apply panic_if_false, bool_decide_eq_false_2, Hx).
  unfold to_scheduler. step by reflexivity. apply unlock_run.
Qed.
Lemma find_run f lk l i0 next cpus : find_proc f (mk_ptable lk l i0 next cpus) =
  Ret (fst <$> list_find (fun p => f p = true) l) (mk_ptable lk l i0 next cpus).
Proof. reflexivity. Qed.
End Exec.

(** ** Every step preserves the invariant *)

Definition post (n : Z) (c : nat) (o : op) (t : ptable) : Prop :=
  exists t', exec c o t = Ret tt t' /\ pt_inv (n + 1) t'.

Lemma inv_intro n l i0 next cpus : length l = NPROC -> tree_inv l i0 -> cpu_inv l cpus ->
  pid_inv n l next -> pt_inv n (mk_ptable None l (Some i0) next cpus).
Proof. intros. split; cbn; eauto. Qed.
Lemma keep_refl l i0 j p : tree_inv l i0 -> l !! j = Some p -> keeps_tree i0 j p p.
Proof.
  intros [_ Hu (q & Hq & E) _] Hp. unfold keeps_tree. repeat (split; [solve [eauto]|]).
  intros ->. assert (q = p) as <- by congruence. tauto.
Qed.
Lemma pid_refl n l next : pid_inv n l next -> pid_inv (n + 1) l next.
Proof. intros [? ? ?]. split; [lia | assumption | assumption]. Qed.

(** A step that changes slot [i] only, and does not start or stop a process. *)
Lemma inv_insert n l i0 next cpus i p p' :
  pt_inv n (mk_ptable None l (Some i0) next cpus) -> l !! i = Some p ->
  keeps_pid i p p' -> keeps_running i p p' -> keeps_tree i0 i p p' ->
  pt_inv (n + 1) (mk_ptable None (<[i := p']> l) (Some i0) next cpus).
Proof.
  intros [_ Hlen (i0' & [= <-] & Htree) Hcpu Hpid] Hi H1 H2 H3. cbn in *.
  apply inv_intro; [rewrite length_insert; exact Hlen | | |].
  - eapply tree_keeps; [|exact Htree]. apply slots_insert with p; [exact Hi | exact H3|].
    intros. eapply keep_refl; eassumption.
  - eapply cpu_keeps; [|exact Hcpu]. apply slots_insert with p; [exact Hi | exact H2|]. split; auto.
  - eapply pid_keeps; [|exact Hpid]. apply slots_insert with p; [exact Hi | exact H1|]. split; auto.
Qed.

(** A step in which the process [me] of CPU [c] changes its slot and leaves. *)
Lemma inv_leave n l i0 next cpus c me p p' :
  pt_inv n (mk_ptable None l (Some i0) next cpus) -> cpus !! c = Some (Some me) -> l !! me = Some p ->
  p_state p' <> RUNNING -> keeps_pid me p p' -> tree_inv (<[me := p']> l) i0 ->
  pt_inv (n + 1) (mk_ptable None (<[me := p']> l) (Some i0) next (<[c := None]> cpus)).
Proof.
  intros [_ Hlen (i0' & [= <-] & Htree) Hcpu Hpid] Hc Hi Hx H1 H3. cbn in *.
  apply inv_intro; [rewrite length_insert; exact Hlen | exact H3 | |].
  - eapply cpu_leaves; [|exact Hc | exact Hcpu]. apply slots_insert with p; [exact Hi | |].
    + unfold leaves. split; [congruence|]. intros [_ Hne]. congruence.
    + unfold leaves. tauto.
  - eapply pid_keeps; [|exact Hpid]. apply slots_insert with p; [exact Hi | exact H1|]. split; auto.
Qed.
Lemma tree_insert l i0 i p p' : tree_inv l i0 -> l !! i = Some p -> keeps_tree i0 i p p' ->
  tree_inv (<[i := p']> l) i0.
Proof.
  intros Htree Hi H3. eapply tree_keeps; [|exact Htree].
  apply slots_insert with p; [exact Hi | exact H3|]. intros. eapply keep_refl; eassumption.
Qed.

(** The conditions on one slot. *)
Ltac keeps :=
  unfold keeps_pid, keeps_running, keeps_tree, in_wait, set_field in *; cbn in *; intuition congruence.

Section Steps.
Variables (n : Z) (c : nat) (l : list proc) (i0 : nat) (next : Z) (cpus : list (option nat)).
#[local] Abbreviation t := (mk_ptable None l (Some i0) next cpus).
Hypothesis Hinv : pt_inv n t.
Let ctx : Ctx := on_cpu c.
#[local] Existing Instance ctx.

Lemma inv_tree : tree_inv l i0.
Proof. destruct Hinv as [_ _ (i0' & [= <-] & Htree) _ _]. exact Htree. Qed.
Lemma init_slot : exists p, l !! i0 = Some p /\ p_parent p = None /\
  p_state p <> UNUSED /\ p_state p <> EMBRYO /\ p_state p <> ZOMBIE.
Proof. apply inv_tree. Qed.
Lemma me_running me : cpus !! c = Some (Some me) -> exists p, l !! me = Some p /\ p_state p = RUNNING.
Proof. intros E. eapply ci_running; [apply Hinv | exact E]. Qed.

(** The initial process is not in the state [x]. *)
Lemma not_init i p x : l !! i = Some p -> p_state p = x -> x = UNUSED \/ x = EMBRYO \/ x = ZOMBIE -> i <> i0.
Proof. intros Hp Ex Hx ->. destruct init_slot as (q & Hq & _ & E). assert (p = q) by congruence. subst. intuition congruence. Qed.

Lemma ready_post i p : l !! i = Some p -> p_state p = EMBRYO -> post n c (OReady i) t.
Proof.
  intros Hi E. eexists. split.
  - cbn [exec]. unfold make_runnable. step by apply lock_run. step by (apply state_set, Hi). apply unlock_run.
  - pose proof (not_init i p EMBRYO Hi E) as Hne.
    eapply inv_insert; [exact Hinv | exact Hi | | |]; keeps.
Qed.
Lemma fail_post i p : l !! i = Some p -> p_state p = EMBRYO -> p_parent p = None -> post n c (OFail i) t.
Proof.
  intros Hi E Ep. eexists. split.
  - cbn [exec]. apply state_set, Hi.
  - pose proof (not_init i p EMBRYO Hi E) as Hne.
    eapply inv_insert; [exact Hinv | exact Hi | | |]; keeps.
Qed.

Lemma wakeup_post ch : post n c (OWakeup ch) t.
Proof.
  eexists. split.
  - cbn [exec]. unfold Proc.wakeup. step by apply lock_run. step by apply wakeup1_run. apply unlock_run.
  - pose proof Hinv as [_ Hlen _ Hcpu Hpid]. cbn in Hlen, Hcpu, Hpid.
    assert (HW : forall p, wake ch p = p \/ p_state p = SLEEPING /\ wake ch p = p <| p_state := RUNNABLE |>).
    { intros p. unfold wake. destruct (bool_decide _) eqn:E; [|auto]. apply bool_decide_eq_true in E.
      destruct (bool_decide _); auto. }
    apply inv_intro; [rewrite length_map; exact Hlen | | |].
    + eapply tree_keeps; [|apply inv_tree]. apply slots_map. intros j p Hp.
      destruct (HW p) as [->|[E ->]]; [eapply keep_refl; [apply inv_tree | exact Hp] | keeps].
    + eapply cpu_keeps; [|exact Hcpu]. apply slots_map. intros j p _. destruct (HW p) as [->|[E ->]]; keeps.
    + eapply pid_keeps; [|exact Hpid]. apply slots_map. intros j p _. destruct (HW p) as [->|[E ->]]; keeps.
Qed.

Lemma find_some f i p : list_find (fun p => f p = true) l = Some (i, p) -> l !! i = Some p /\ f p = true.
Proof. intros E. apply list_find_Some in E. tauto. Qed.
Lemma inv_same next' : next' = next -> pt_inv (n + 1) (mk_ptable None l (Some i0) next' cpus).
Proof.
  intros ->. pose proof Hinv as [_ Hlen _ Hcpu Hpid].
  apply inv_intro; [exact Hlen | apply inv_tree | exact Hcpu | apply pid_refl, Hpid].
Qed.

(** kill() on a slot. *)
Definition kill_slot (p : proc) : proc :=
  if bool_decide (p_state p = SLEEPING) then p <| p_killed := 1 |> <| p_state := RUNNABLE |>
  else p <| p_killed := 1 |>.
Lemma kill_run pid : kill pid t =
  match list_find (fun p => (p_pid p =? pid) = true) l with
  | Some (i, p) => Ret 0 (mk_ptable None (<[i := kill_slot p]> l) (Some i0) next cpus)
  | None => Ret (-1) t
  end.
Proof.
  unfold kill. step by apply lock_run. step by apply find_run.
  destruct (list_find _ l) as [[i p]|] eqn:E; cbn [fmap option_fmap option_map fst].
  - apply find_some in E as [Hi _]. pose proof (lookup_lt_Some _ _ _ Hi) as Hl.
    step by (apply slot_set, Hi). step by (apply slot_get, list_lookup_insert_eq, Hl).
    unfold kill_slot. cbn [id].
    change (p_state (p <| p_killed := 1 |>)) with (p_state p).
    destruct (bool_decide _).
    + step by (apply state_set, list_lookup_insert_eq, Hl). step by apply unlock_run.
      rewrite list_insert_insert_eq. reflexivity.
    + step by reflexivity. step by apply unlock_run. reflexivity.
  - step by apply unlock_run. reflexivity.
Qed.
Lemma kill_post pid : post n c (OKill pid) t.
Proof.
  unfold post. cbn [exec]. unfold bind. fold ctx. rewrite kill_run.
  destruct (list_find _ l) as [[i p]|] eqn:E.
  - apply find_some in E as [Hi _]. eexists. split; [reflexivity|].
    eapply inv_insert; [exact Hinv | exact Hi | | |]; unfold kill_slot;
      pose proof (keep_refl _ _ _ _ inv_tree Hi); destruct (bool_decide_reflect (p_state p = SLEEPING)); keeps.
  - eexists. split; [reflexivity|]. apply inv_same. reflexivity.
Qed.

Lemma run_post i : cpus !! c = Some None -> (i < NPROC)%nat -> post n c (ORun i) t.
Proof.
  intros Hc Hi. pose proof Hinv as [_ Hlen _ Hcpu Hpid]. cbn in Hlen, Hcpu, Hpid.
  destruct (lookup_lt_is_Some_2 l i ltac:(lia)) as [p Hp].
  destruct (decide (p_state p = RUNNABLE)) as [E|E].
  - eexists. split.
    + cbn [exec]. unfold scheduler_run. step by apply lock_run. step by (apply slot_get, Hp).
      rewrite bool_decide_eq_true_2 by exact E.
      step by reflexivity. step by (apply state_set, Hp). apply unlock_run.
    + apply inv_intro; [rewrite length_insert; exact Hlen | | |].
      * eapply tree_insert; [apply inv_tree | exact Hp |]. pose proof (keep_refl _ _ _ _ inv_tree Hp). keeps.
      * apply cpu_runs; assumption.
      * eapply pid_keeps; [|exact Hpid]. apply slots_insert with p; [exact Hp | | split; auto]. keeps.
  - eexists. split; [|apply inv_same; reflexivity].
    cbn [exec]. unfold scheduler_run. step by apply lock_run. step by (apply slot_get, Hp).
    rewrite bool_decide_eq_false_2 by exact E. apply unlock_run.
Qed.

Section Running.
Variables (me : nat) (p : proc).
Hypothesis (Hc : cpus !! c = Some (Some me)) (Hp : l !! me = Some p) (Hx : p_state p = RUNNING).

Lemma me_lt : (me < length l)%nat.
Proof. eapply lookup_lt_Some, Hp. Qed.

Lemma yield_post : post n c OYield t.
Proof.
  eexists. split.
  - cbn [exec]. unfold yield. step by apply lock_run. step by (apply curproc_run, Hc). step by (apply state_set, Hp).
    eapply sched_run; [exact Hc | apply list_lookup_insert_eq, me_lt | discriminate].
  - pose proof (keep_refl _ _ _ _ inv_tree Hp).
    eapply inv_leave; [exact Hinv | exact Hc | exact Hp | discriminate | keeps |].
    eapply tree_insert; [apply inv_tree | exact Hp | keeps].
Qed.

Lemma sleep_run ch : sleep_switch ch (mk_ptable (Some c) l (Some i0) next cpus) =
  Ret tt (mk_ptable None (<[me := p <| p_chan := Some ch |> <| p_state := SLEEPING |>]> l)
    (Some i0) next (<[c := None]> cpus)).
Proof.
  unfold sleep_switch. step by (apply curproc_run, Hc). step by (apply slot_set, Hp).
  step by (apply state_set, list_lookup_insert_eq, me_lt). rewrite list_insert_insert_eq.
  eapply sched_run; [exact Hc | apply list_lookup_insert_eq, me_lt | discriminate].
Qed.
Lemma sleep_post a : post n c (OSleep a) t.
Proof.
  eexists. split.
  - cbn [exec]. unfold sleep. step by (apply myproc_run, Hc). step by apply lock_run. apply sleep_run.
  - pose proof (keep_refl _ _ _ _ inv_tree Hp).
    eapply inv_leave; [exact Hinv | exact Hc | exact Hp | discriminate | keeps |].
    eapply tree_insert; [apply inv_tree | exact Hp | keeps].
Qed.
Lemma tidy_post : post n c OTidy t.
Proof.
  eexists. split.
  - cbn [exec]. unfold sleep_tidy. step by (apply curproc_run, Hc). apply slot_set, Hp.
  - pose proof (keep_refl _ _ _ _ inv_tree Hp). eapply inv_insert; [exact Hinv | exact Hp | | |]; keeps.
Qed.

Lemma parent_post np q : l !! np = Some q -> p_state q = EMBRYO -> post n c (OParent np) t.
Proof.
  intros Hq E. pose proof Hinv as [_ Hlen _ Hcpu Hpid]. cbn in Hlen, Hcpu, Hpid. eexists. split.
  - cbn [exec]. step by (apply curproc_run, Hc). apply slot_set, Hq.
  - apply inv_intro; [rewrite length_insert; exact Hlen | | |].
    2: { eapply cpu_keeps; [|exact Hcpu]. apply slots_insert with q; [exact Hq | | split; auto]. keeps. }
    2: { eapply pid_keeps; [|exact Hpid]. apply slots_insert with q; [exact Hq | | split; auto]. keeps. }
    pose proof (not_init np q EMBRYO Hq E ltac:(auto)) as Hne. pose proof inv_tree as [Hs Hu Hi Hw].
    assert (Hget : forall j r, <[np := q <| p_parent := Some me |>]> l !! j = Some r ->
      j = np /\ r = q <| p_parent := Some me |> \/ j <> np /\ l !! j = Some r).
    { intros j r Hr. destruct (decide (j = np)) as [->|Hj].
      - rewrite list_lookup_insert_eq in Hr by (eapply lookup_lt_Some; exact Hq). left. split; congruence.
      - rewrite list_lookup_insert_ne in Hr by congruence. auto. }
    split.
    + intros j r Hr. destruct (Hget j r Hr) as [[-> ->]|[_ Hr']]; [|eauto].
      cbn. intros [= ->]. congruence.
    + intros j r Hr Er. destruct (Hget j r Hr) as [[-> ->]|[_ Hr']]; [|eauto].
      change (p_state q = UNUSED) in Er. congruence.
    + destruct Hi as (r & Hr & Hi). exists r. rewrite list_lookup_insert_ne by congruence. auto.
    + intros i r j s Hr Hin Hs' Epar Ez.
      destruct (Hget j s Hs') as [[-> ->]|[_ Hs'']]; [change (p_state q = ZOMBIE) in Ez; congruence|].
      destruct (Hget i r Hr) as [[-> ->]|[_ Hr']]; [|exact (Hw i r j s Hr' Hin Hs'' Epar Ez)].
      destruct Hin as [Hin _]. change (p_state q = SLEEPING) in Hin. congruence.
Qed.

Lemma alloc_run : alloc_slot t =
  match list_find (fun p => bool_decide (p_state p = UNUSED) = true) l with
  | Some (i, q) => Ret (Some i) (mk_ptable None (<[i := q <| p_state := EMBRYO |> <| p_pid := next |>]> l)
      (Some i0) (s32 (next + 1)) cpus)
  | None => Ret None t
  end.
Proof.
  unfold alloc_slot. step by apply lock_run. step by apply find_run.
  destruct (list_find _ l) as [[i q]|] eqn:E; cbn [fmap option_fmap option_map fst].
  - apply find_some in E as [Hi _]. pose proof (lookup_lt_Some _ _ _ Hi) as Hl.
    step by (apply state_set, Hi). step by reflexivity.
    step by (apply slot_set, list_lookup_insert_eq, Hl). rewrite list_insert_insert_eq.
    step by reflexivity. step by apply unlock_run. reflexivity.
  - step by apply unlock_run. reflexivity.
Qed.
Lemma alloc_post : n < 2 ^ 31 - 3 -> post n c OAlloc t.
Proof.
  intros Hn. pose proof Hinv as [_ Hlen _ Hcpu [Hnext Hr Hi]]. cbn in Hlen, Hcpu, Hnext, Hr, Hi.
  unfold post. cbn [exec]. unfold bind. fold ctx. rewrite alloc_run.
  destruct (list_find _ l) as [[i q]|] eqn:E.
  2: { eexists. split; [reflexivity|]. apply inv_same. reflexivity. }
  apply find_some in E as [Hq Eq]. apply bool_decide_eq_true in Eq.
  pose proof (not_init i q UNUSED Hq Eq ltac:(auto)) as Hne.
  eexists. split; [reflexivity|].
  assert (En : s32 (next + 1) = next + 1) by (unfold s32; rewrite Z.mod_small; lia). rewrite En.
  apply inv_intro; [rewrite length_insert; exact Hlen | | |].
  - eapply tree_insert; [apply inv_tree | exact Hq |]. keeps.
  - eapply cpu_keeps; [|exact Hcpu]. apply slots_insert with q; [exact Hq | | split; auto]. keeps.
  - assert (Hget : forall j r, <[i := q <| p_state := EMBRYO |> <| p_pid := next |>]> l !! j = Some r ->
      j = i /\ p_pid r = next \/ j <> i /\ l !! j = Some r).
    { intros j r Hj. destruct (decide (j = i)) as [->|Hji].
      - rewrite list_lookup_insert_eq in Hj by (eapply lookup_lt_Some; exact Hq). injection Hj as <-. auto.
      - rewrite list_lookup_insert_ne in Hj by congruence. auto. }
    split; [lia| |].
    + intros j r Hj Hx'. destruct (Hget j r Hj) as [[-> ->]|[_ Hj']]; [clear -Hnext; lia|].
      specialize (Hr j r Hj' Hx'). lia.
    + intros j k r s Hj Hk Hx1 Hx2 Epid.
      destruct (Hget j r Hj) as [[-> E1]|[_ Hj']], (Hget k s Hk) as [[-> E2]|[_ Hk']]; [reflexivity | | |eauto].
      * specialize (Hr k s Hk' Hx2). lia.
      * specialize (Hr j r Hj' Hx1). lia.
Qed.

Lemma wait_scan_spec l1 k havekids z h : wait_scan me l1 k havekids = (z, h) ->
  match z with
  | Some m => exists i q, m = (k + i)%nat /\ l1 !! i = Some q /\ p_parent q = Some me /\ p_state q = ZOMBIE
  | None => forall i q, l1 !! i = Some q -> p_parent q = Some me -> p_state q <> ZOMBIE
  end.
Proof.
  revert k havekids. induction l1 as [|q l1 IH]; intros k havekids E; cbn in E.
  { injection E as <- _. intros i q Hq. rewrite lookup_nil in Hq. discriminate Hq. }
  assert (Hnext : forall b, (p_parent q = Some me -> p_state q <> ZOMBIE) -> wait_scan me l1 (S k) b = (z, h) ->
    match z with
    | Some m => exists i r, m = (k + i)%nat /\ (q :: l1) !! i = Some r /\ p_parent r = Some me /\ p_state r = ZOMBIE
    | None => forall i r, (q :: l1) !! i = Some r -> p_parent r = Some me -> p_state r <> ZOMBIE
    end).
  { intros b Hq E1. specialize (IH _ _ E1). destruct z as [m|].
    - destruct IH as (i & r & -> & Hr). exists (S i), r. split; [lia | exact Hr].
    - intros [|i] r Hr; [injection Hr as <-; exact Hq | exact (IH i r Hr)]. }
  destruct (bool_decide_reflect (p_parent q = Some me)) as [Ep|Ep]; [|eapply Hnext; [tauto | exact E]].
  destruct (bool_decide_reflect (p_state q = ZOMBIE)) as [Ez|Ez]; [|eapply Hnext; [tauto | exact E]].
  injection E as <- _. exists O, q. split; [lia|]. auto.
Qed.

(** A sleeper of wait() is awake as soon as a child is a zombie. *)
Lemma wait_sleep_tree : (forall i q, l !! i = Some q -> p_parent q = Some me -> p_state q <> ZOMBIE) ->
  tree_inv (<[me := p <| p_chan := Some (ChanProc me) |> <| p_state := SLEEPING |>]> l) i0.
Proof.
  intros Hnone. set (p' := p <| p_chan := _ |> <| p_state := SLEEPING |>).
  pose proof inv_tree as [Hs Hu Hi Hw].
  assert (Hget : forall j r, <[me := p']> l !! j = Some r -> exists r0, l !! j = Some r0 /\
    p_parent r = p_parent r0 /\ (p_state r = ZOMBIE -> p_state r0 = ZOMBIE) /\ (j <> me -> r = r0) /\
    (j = me -> p_state r = SLEEPING)).
  { intros j r Hr. destruct (decide (j = me)) as [->|Hj].
    - rewrite list_lookup_insert_eq in Hr by apply me_lt. injection Hr as <-. exists p.
      split; [exact Hp|]. split; [reflexivity|]. split; [discriminate|]. split; [congruence|]. reflexivity.
    - rewrite list_lookup_insert_ne in Hr by congruence. exists r. tauto. }
  split.
  - intros j r Hr. destruct (Hget j r Hr) as (r0 & Hr0 & -> & _). eauto.
  - intros j r Hr E. destruct (Hget j r Hr) as (r0 & Hr0 & -> & _ & Hne & Heq).
    destruct (decide (j = me)) as [->|Hj]; [rewrite Heq in E by reflexivity; discriminate E|].
    apply (Hu j r0 Hr0). rewrite <- Hne by exact Hj. exact E.
  - destruct Hi as (r & Hr & E). destruct (decide (i0 = me)) as [Ei|Hj].
    + exists p'. subst i0. rewrite list_lookup_insert_eq by apply me_lt.
      split; [reflexivity|]. assert (r = p) as -> by congruence.
      split; [apply E | split; [discriminate | split; discriminate]].
    + exists r. rewrite list_lookup_insert_ne by congruence. auto.
  - intros i r j s Hr Hin Hs' Epar Ez.
    destruct (Hget j s Hs') as (s0 & Hs0 & Ep & HZ & _). rewrite Ep in Epar.
    destruct (decide (i = me)) as [->|Hj]; [exact (Hnone j s0 Hs0 Epar (HZ Ez))|].
    destruct (Hget i r Hr) as (r0 & Hr0 & _ & _ & Hne & _). rewrite (Hne Hj) in Hin.
    exact (Hw i r0 j s0 Hr0 Hin Hs0 Epar (HZ Ez)).
Qed.

Lemma wait_run : wait_once t =
  let '(z, havekids) := wait_scan me l 0 false in
  match z with
  | Some i => match l !! i with
    | Some q => Ret tt (mk_ptable None (<[i := reap (q <| p_kstack := 0 |>)]> l) (Some i0) next cpus)
    | None => Stop Faulted (mk_ptable (Some c) l (Some i0) next cpus)
    end
  | None => if negb havekids || negb (p_killed p =? 0) then Ret tt t
            else Ret tt (mk_ptable None (<[me := p <| p_chan := Some (ChanProc me) |> <| p_state := SLEEPING |>]> l)
                  (Some i0) next (<[c := None]> cpus))
  end.
Proof.
  unfold wait_once, wait_round. step by apply lock_run. rewrite bind_assoc. step by (apply curproc_run, Hc).
  rewrite bind_assoc. step by reflexivity. cbn [pt_proc].
  destruct (wait_scan me l 0 false) as [[i|] h].
  - step by reflexivity. unfold on_proc at 1. destruct (l !! i) as [q|] eqn:Hq.
    + step by (apply slot_set, Hq). unfold reap_slot.
      step by (apply slot_set, list_lookup_insert_eq; eapply lookup_lt_Some, Hq).
      rewrite list_insert_insert_eq. apply unlock_run.
    + apply bind_stop. unfold zoom, elt. cbn. rewrite Hq. reflexivity.
  - rewrite bind_assoc. step by (apply slot_get, Hp). cbn [id].
    destruct (negb h || negb (p_killed p =? 0)).
    + rewrite bind_assoc. step by apply unlock_run. reflexivity.
    + rewrite bind_assoc. step by apply sleep_run. reflexivity.
Qed.
Lemma wait_post : post n c OWait t.
Proof.
  unfold post. cbn [exec]. fold ctx. rewrite wait_run.
  destruct (wait_scan me l 0 false) as [z h] eqn:E. apply wait_scan_spec in E. destruct z as [i|].
  - destruct E as (j & q & -> & Hq & Ep & Ez). cbn [Nat.add]. rewrite Hq. eexists. split; [reflexivity|].
    pose proof (not_init j q ZOMBIE Hq Ez ltac:(auto)) as Hne.
    eapply inv_insert; [exact Hinv | exact Hq | | |]; unfold reap; keeps.
  - destruct (negb h || _).
    + eexists. split; [reflexivity|]. apply inv_same. reflexivity.
    + eexists. split; [reflexivity|].
      eapply inv_leave; [exact Hinv | exact Hc | exact Hp | discriminate | keeps | apply wait_sleep_tree, E].
Qed.

(** *** exit() *)

(** exit() after [k] rounds of its loop, from the slots [l1]. *)
Definition exit_slot (k j : nat) (p p' : proc) : Prop :=
  p_pid p' = p_pid p /\ p_chan p' = p_chan p /\
  (p_state p' = p_state p \/ p_state p = SLEEPING /\ p_state p' = RUNNABLE) /\
  p_parent p' = if decide ((j < k)%nat /\ p_parent p = Some me) then Some i0 else p_parent p.
(** The initial process is awake if one of the first [k] slots is a zombie
    child of [me]. *)
Definition init_awake (k : nat) (l1 l2 : list proc) : Prop :=
  forall j q p0, (j < k)%nat -> l1 !! j = Some q -> p_parent q = Some me -> p_state q = ZOMBIE ->
    l2 !! i0 = Some p0 -> ~ in_wait i0 p0.

Lemma wake_slot ch q : exists x, wake ch q = q <| p_state := x |> /\
  (x = p_state q \/ p_state q = SLEEPING /\ x = RUNNABLE).
Proof.
  unfold wake. destruct (bool_decide _) eqn:E; [|exists (p_state q); split; [destruct q; reflexivity | auto]].
  apply bool_decide_eq_true in E. destruct (bool_decide _).
  - exists RUNNABLE. auto.
  - exists (p_state q). split; [destruct q; reflexivity | auto].
Qed.
Lemma wake_awake i q : ~ in_wait i (wake (ChanProc i) q).
Proof.
  unfold wake, in_wait. destruct (bool_decide_reflect (p_state q = SLEEPING)) as [E|E]; cbn [andb].
  - destruct (bool_decide_reflect (p_chan q = Some (ChanProc i))) as [E'|E']; [|tauto].
    intros [H _]. discriminate H.
  - tauto.
Qed.
Lemma exit_slot_wake ch k l1 l2 : slots (exit_slot k) l1 l2 -> slots (exit_slot k) l1 (wake ch <$> l2).
Proof.
  intros [Hlen HS]. split; [rewrite length_fmap; exact Hlen|].
  intros j p1 p' E E'. rewrite list_lookup_fmap in E'. destruct (l2 !! j) as [p2|] eqn:E2; [|discriminate E'].
  injection E' as <-. destruct (HS j p1 p2 E E2) as (H1 & H2 & H3 & H4).
  destruct (wake_slot ch p2) as (x & -> & Hx'). unfold exit_slot, set_field in *. cbn [p_pid p_chan p_state p_parent].
  intuition congruence.
Qed.
Lemma init_awake_wake k l1 l2 : init_awake k l1 (wake (ChanProc i0) <$> l2).
Proof.
  intros j q p0 _ _ _ _ E. rewrite list_lookup_fmap in E. destruct (l2 !! i0); [|discriminate E].
  injection E as <-. apply wake_awake.
Qed.

(** Slot [k] gets the parent the loop gives it. *)
Lemma exit_slot_next k l1 l2 p2 p3 : slots (exit_slot k) l1 l2 -> l2 !! k = Some p2 ->
  p3 = p2 <| p_parent := (if decide (p_parent p2 = Some me) then Some i0 else p_parent p2) |> ->
  slots (exit_slot (S k)) l1 (<[k := p3]> l2).
Proof.
  intros [Hlen HS] Hp2 ->. split; [rewrite length_insert; exact Hlen|]. intros j r r' E E'.
  pose proof (lookup_lt_Some _ _ _ Hp2) as Hk. destruct (decide (j = k)) as [->|Hjk].
  - rewrite list_lookup_insert_eq in E' by exact Hk. injection E' as <-.
    destruct (HS k r p2 E Hp2) as (H1 & H2 & H3 & H4). rewrite decide_False in H4 by lia.
    unfold exit_slot, set_field. cbn [p_pid p_chan p_state p_parent]. rewrite H4.
    repeat (split; [assumption|]). assert (k < S k)%nat by lia.
    destruct (decide _), (decide _); try reflexivity; tauto.
  - rewrite list_lookup_insert_ne in E' by congruence.
    destruct (HS j r r' E E') as (H1 & H2 & H3 & H4). repeat (split; [assumption|]).
    rewrite H4. assert (j < S k <-> j < k)%nat by lia.
    destruct (decide _), (decide _); try reflexivity; tauto.
Qed.
Lemma init_awake_next k l1 l2 p2 p3 : init_awake k l1 l2 -> l2 !! k = Some p2 ->
  (in_wait i0 p3 -> in_wait i0 p2) ->
  (forall q, l1 !! k = Some q -> p_parent q = Some me -> p_state q = ZOMBIE -> False) ->
  init_awake (S k) l1 (<[k := p3]> l2).
Proof.
  intros HW Hp2 H3 Hno j q p0 Hj Hq Ep Ez E0.
  destruct (decide (j = k)) as [->|Hjk]; [destruct (Hno q Hq Ep Ez)|].
  assert (Hj' : (j < k)%nat) by lia. destruct (decide (i0 = k)) as [Ek|Hk].
  - rewrite <- Ek in *. rewrite list_lookup_insert_eq in E0 by (eapply lookup_lt_Some; exact Hp2).
    injection E0 as <-. intros Hin. exact (HW j q p2 Hj' Hq Ep Ez Hp2 (H3 Hin)).
  - rewrite list_lookup_insert_ne in E0 by congruence. exact (HW j q p0 Hj' Hq Ep Ez E0).
Qed.

Definition exit_body (initproc : option nat) (i : nat) : M ptable unit :=
  let! p := on_proc i (get id) in
  if bool_decide (p_parent p = Some me) then
    on_proc i (modify (fun p => p <| p_parent := initproc |>)) ;!
    if bool_decide (p_state p = ZOMBIE)
    then match initproc with Some q => wakeup1 (ChanProc q) | None => ret tt end
    else ret tt
  else ret tt.

Lemma exit_step k l1 l2 : slots (exit_slot k) l1 l2 -> init_awake k l1 l2 -> (k < length l1)%nat ->
  exists l3, exit_body (Some i0) k (mk_ptable (Some c) l2 (Some i0) next cpus) =
    Ret tt (mk_ptable (Some c) l3 (Some i0) next cpus) /\
    slots (exit_slot (S k)) l1 l3 /\ init_awake (S k) l1 l3.
Proof.
  intros HS HW Hk. destruct (lookup_lt_is_Some_2 l2 k) as [p2 Hp2]; [rewrite (proj1 HS); exact Hk|].
  destruct (slots_back _ _ _ _ _ HS Hp2) as (p1 & Hp1 & _ & _ & Hst & Hpar).
  rewrite decide_False in Hpar by lia. pose proof (fun p3 => exit_slot_next k l1 l2 p2 p3 HS Hp2) as Hnext.
  assert (Hback : forall q, l1 !! k = Some q -> p_parent q = Some me -> p_state q = ZOMBIE ->
    p_parent p2 = Some me /\ p_state p2 = ZOMBIE) by (intros q Hq; assert (q = p1) as -> by congruence;
    intros; split; [congruence|]; destruct Hst as [->|[E _]]; congruence).
  unfold exit_body. destruct (decide (p_parent p2 = Some me)) as [Ep|Ep].
  - specialize (Hnext _ eq_refl). destruct (decide (p_state p2 = ZOMBIE)) as [Ez|Ez]; eexists; split.
    + step by (apply slot_get, Hp2). cbn [id]. rewrite bool_decide_eq_true_2 by exact Ep.
      step by (apply slot_set, Hp2). rewrite bool_decide_eq_true_2 by exact Ez. apply wakeup1_run.
    + split; [apply exit_slot_wake, Hnext | apply init_awake_wake].
    + step by (apply slot_get, Hp2). cbn [id]. rewrite bool_decide_eq_true_2 by exact Ep.
      step by (apply slot_set, Hp2). rewrite bool_decide_eq_false_2 by exact Ez. reflexivity.
    + split; [exact Hnext|]. apply init_awake_next with p2; [exact HW | exact Hp2 | tauto |].
      intros q Hq E1 E2. apply Ez, (Hback q Hq E1 E2).
  - exists l2. split; [|split].
    + step by (apply slot_get, Hp2). cbn [id]. rewrite bool_decide_eq_false_2 by exact Ep. reflexivity.
    + rewrite <- (list_insert_id l2 k p2 Hp2). apply Hnext. destruct p2; reflexivity.
    + rewrite <- (list_insert_id l2 k p2 Hp2). apply init_awake_next with p2; [exact HW | exact Hp2 | tauto |].
      intros q Hq E1 E2. apply Ep, (Hback q Hq E1 E2).
Qed.

Lemma exit_loop m l1 : forall k l2, slots (exit_slot k) l1 l2 -> init_awake k l1 l2 ->
  (k + m = length l1)%nat -> exists l3,
  for_all (seq k m) (exit_body (Some i0)) (mk_ptable (Some c) l2 (Some i0) next cpus) =
    Ret tt (mk_ptable (Some c) l3 (Some i0) next cpus) /\
  slots (exit_slot (length l1)) l1 l3 /\ init_awake (length l1) l1 l3.
Proof.
  induction m as [|m IH]; intros k l2 HS HW Hk.
  - replace (length l1) with k by lia. exists l2. auto.
  - destruct (exit_step k l1 l2 HS HW ltac:(lia)) as (l3 & E & HS' & HW').
    destruct (IH (S k) l3 HS' HW' ltac:(lia)) as (l4 & E' & H4). exists l4. split; [|exact H4].
    cbn [seq for_all]. step by exact E. exact E'.
Qed.

(** [wakeup1(curproc->parent)] *)
Definition parent_woken : list proc :=
  match p_parent p with Some q => wake (ChanProc q) <$> l | None => l end.
Lemma parent_woken_slots : slots (exit_slot 0) l parent_woken.
Proof.
  assert (HR : slots (exit_slot 0) l l).
  { apply slots_refl. intros j r. unfold exit_slot. rewrite decide_False by lia. auto. }
  unfold parent_woken. destruct (p_parent p); [apply exit_slot_wake|]; exact HR.
Qed.

Lemma parent_wake_run :
  match p_parent p with Some q => wakeup1 (ChanProc q) | None => ret tt end
    (mk_ptable (Some c) l (Some i0) next cpus) = Ret tt (mk_ptable (Some c) parent_woken (Some i0) next cpus).
Proof. unfold parent_woken. destruct (p_parent p); reflexivity. Qed.

(** The table when exit() has passed its children on. *)
Record exited (l3 : list proc) : Prop := {
  ex_slots : slots (exit_slot NPROC) l l3;
  ex_init : init_awake NPROC l l3;
  ex_parent : forall q r, p_parent p = Some q -> l3 !! q = Some r -> ~ in_wait q r }.

Lemma exit_run : exists l3 p3, exited l3 /\ l3 !! me = Some p3 /\ p_state p3 = RUNNING /\
  exit_table t = Ret tt (mk_ptable None (<[me := p3 <| p_state := ZOMBIE |>]> l3)
    (Some i0) next (<[c := None]> cpus)).
Proof.
  pose proof Hinv as [_ Hlen _ _ _]. cbn in Hlen.
  pose proof parent_woken_slots as HP. set (l1 := parent_woken) in *.
  assert (HP1 : slots (exit_slot 0) l1 l1).
  { apply slots_refl. intros j r. unfold exit_slot. rewrite decide_False by lia. auto. }
  assert (Hl1 : length l1 = NPROC) by (rewrite (proj1 HP); exact Hlen).
  destruct (exit_loop NPROC l1 0 l1 HP1) as (l3 & E & HS & HW); [intros j q r; lia | rewrite Hl1; reflexivity |].
  rewrite Hl1 in HS, HW.
  assert (HS' : slots (exit_slot NPROC) l l3).
  { split; [rewrite (proj1 HS); exact (proj1 HP)|]. intros j r r3 Hr Hr3.
    destruct (slots_forth _ _ _ _ _ HP Hr) as (r1 & Hr1 & A1 & A2 & A3 & A4).
    destruct (proj2 HS j r1 r3 Hr1 Hr3) as (B1 & B2 & B3 & B4). rewrite decide_False in A4 by lia.
    rewrite A4 in B4. unfold exit_slot. rewrite B4. intuition congruence. }
  destruct (slots_forth _ _ _ _ _ HS' Hp) as (p3 & Hp3 & _ & _ & Hst & _).
  exists l3, p3. split; [split; [exact HS' | |] | split; [exact Hp3 | split]].
  - intros j q r Hj Hq Ep Ez Hr. destruct (slots_forth _ _ _ _ _ HP Hq) as (q1 & Hq1 & _ & _ & A3 & A4).
    rewrite decide_False in A4 by lia. apply (HW j q1 r Hj Hq1); [congruence | | exact Hr].
    destruct A3 as [->|[A3 _]]; congruence.
  - intros q r Ep Hr [H1 H2]. destruct (slots_back _ _ _ _ _ HS Hr) as (r1 & Hr1 & _ & B2 & B3 & _).
    subst l1. unfold parent_woken in Hr1. rewrite Ep, list_lookup_fmap in Hr1.
    destruct (l !! q) as [r0|]; [|discriminate Hr1]. injection Hr1 as <-.
    apply (wake_awake q r0). split; [destruct B3 as [<-|[_ B3]] | rewrite <- B2]; congruence.
  - destruct Hst as [->|[Hst _]]; congruence.
  - unfold exit_table. step by (apply curproc_run, Hc). step by apply lock_run.
    step by (apply slot_get, Hp). step by apply parent_wake_run.
    step by reflexivity. cbn [pt_initproc].
    step by exact E.
    step by (apply state_set, Hp3).
    eapply sched_run; [exact Hc | apply list_lookup_insert_eq; eapply lookup_lt_Some, Hp3 | discriminate].
Qed.

Lemma exited_tree l3 p3 : exited l3 -> l3 !! me = Some p3 -> me <> i0 ->
  tree_inv (<[me := p3 <| p_state := ZOMBIE |>]> l3) i0.
Proof.
  intros [HS Hinit Hpar] Hp3 Hne. set (z := p3 <| p_state := ZOMBIE |>).
  pose proof inv_tree as [Hs Hu (r0 & Hr0 & Hpar0 & Hi) Hw]. pose proof Hinv as [_ Hlen _ _ _]. cbn in Hlen.
  assert (Hget : forall j r, <[me := z]> l3 !! j = Some r -> exists q, l !! j = Some q /\
    (j = me -> p_state r = ZOMBIE) /\ (j <> me -> l3 !! j = Some r) /\ exists r3, l3 !! j = Some r3 /\
    p_parent r = p_parent r3 /\ exit_slot NPROC j q r3).
  { intros j r Hr. destruct (decide (j = me)) as [->|Hj].
    - rewrite list_lookup_insert_eq in Hr by (eapply lookup_lt_Some; exact Hp3). injection Hr as <-.
      destruct (slots_back _ _ _ _ _ HS Hp3) as (q & Hq & HR). exists q. split; [exact Hq|].
      split; [reflexivity|]. split; [congruence|]. exists p3. auto.
    - rewrite list_lookup_insert_ne in Hr by congruence.
      destruct (slots_back _ _ _ _ _ HS Hr) as (q & Hq & HR). exists q. split; [exact Hq|].
      split; [congruence|]. split; [auto|]. exists r. auto. }
  assert (Hlt : forall j q, l !! j = Some q -> (j < NPROC)%nat) by (intros j q Hj; apply lookup_lt_Some in Hj; congruence).
  split.
  - intros j r Hr. destruct (Hget j r Hr) as (q & Hq & _ & _ & r3 & _ & -> & _ & _ & _ & ->).
    destruct (decide _) as [[_ Eq]|_]; [|eauto]. intros [= <-]. congruence.
  - intros j r Hr E. destruct (Hget j r Hr) as (q & Hq & Hz & Hk & r3 & Hr3 & -> & _ & _ & Hst & ->).
    destruct (decide (j = me)) as [->|Hj]; [rewrite Hz in E by reflexivity; discriminate E|].
    assert (r3 = r) as -> by (specialize (Hk Hj); congruence).
    assert (Eq : p_state q = UNUSED) by (destruct Hst as [<-|[_ Hst]]; congruence).
    pose proof (Hu j q Hq Eq) as Enone. destruct (decide _) as [[_ Eq']|_]; congruence.
  - destruct (slots_forth _ _ _ _ _ HS Hr0) as (r & Hr & _ & _ & Hst & Hp'). exists r.
    rewrite list_lookup_insert_ne by congruence. split; [exact Hr|]. split.
    + rewrite Hp'. destruct (decide _) as [[_ E]|_]; congruence.
    + destruct Hst as [->|[_ ->]]; [apply Hi|]. repeat split; discriminate.
  - intros i r j s Hr Hin Hs' Epar Ez.
    destruct (Hget i r Hr) as (q & Hq & Hzi & Hki & _).
    destruct (decide (i = me)) as [->|Hi']; [destruct Hin as [Hin _]; rewrite Hzi in Hin by reflexivity; discriminate Hin|].
    specialize (Hki Hi'). destruct (slots_back _ _ _ _ _ HS Hki) as (q' & Hq' & _ & Hch & Hst & _).
    assert (q' = q) as -> by congruence.
    assert (Hinq : in_wait i q).
    { destruct Hin as [H1 H2]. split; [destruct Hst as [<-|[Hst _]]; assumption | congruence]. }
    destruct (Hget j s Hs') as (u & Hu' & Hzj & Hkj & s3 & Hs3 & E3 & _ & _ & Hstj & Hparj).
    rewrite E3, Hparj in Epar. destruct (decide (j = me)) as [->|Hj].
    + assert (u = p) as -> by congruence. destruct (decide _) as [[_ E]|_]; [destruct (Hs me p Hp E)|].
      exact (Hpar i r Epar Hki Hin).
    + assert (s3 = s) as -> by (specialize (Hkj Hj); congruence).
      assert (Eu : p_state u = ZOMBIE) by (destruct Hstj as [<-|[_ Hstj]]; congruence).
      destruct (decide _) as [[_ E]|_]; [|exact (Hw i q j u Hq Hinq Hu' Epar Eu)].
      injection Epar as <-. exact (Hinit j u r (Hlt j u Hu') Hu' E Eu Hki Hin).
Qed.
Lemma exit_post : me <> i0 -> post n c OExit t.
Proof.
  intros Hne. destruct exit_run as (l3 & p3 & HE & Hp3 & Hx3 & Erun). eexists. split; [exact Erun|].
  pose proof Hinv as [_ Hlen _ Hcpu Hpid]. cbn in Hlen, Hcpu, Hpid. pose proof (ex_slots _ HE) as HS.
  assert (Hins : forall R : nat -> proc -> proc -> Prop,
    (forall j r r3, exit_slot NPROC j r r3 -> j <> me -> R j r r3) ->
    R me p (p3 <| p_state := ZOMBIE |>) -> slots R l (<[me := p3 <| p_state := ZOMBIE |>]> l3)).
  { intros R H1 H2. split; [rewrite length_insert; exact (proj1 HS)|]. intros j r r' Hr Hr'.
    destruct (decide (j = me)) as [->|Hj].
    - rewrite list_lookup_insert_eq in Hr' by (eapply lookup_lt_Some; exact Hp3). congruence.
    - rewrite list_lookup_insert_ne in Hr' by congruence. apply H1; [exact (proj2 HS j r r' Hr Hr') | exact Hj]. }
  apply inv_intro; [rewrite length_insert, (proj1 HS); exact Hlen | apply exited_tree; assumption | |].
  - eapply cpu_leaves; [|exact Hc | exact Hcpu]. apply Hins.
    + intros j r r3 (_ & _ & Hst & _) Hj. unfold leaves. destruct Hst as [->|[-> ->]]; intuition congruence.
    + unfold leaves. split; [intros E; discriminate E | tauto].
  - eapply pid_keeps; [|exact Hpid]. apply Hins.
    + intros j r r3 (Hpid' & _ & Hst & _) _. unfold keeps_pid. destruct Hst as [->|[-> ->]]; intuition congruence.
    + intros _. split; [congruence|]. destruct (proj2 HS me p p3 Hp Hp3) as (E & _). exact E.
Qed.
End Running.
End Steps.

(** ** Reachable tables *)

Lemma step_post n c o t : pt_inv n t -> n < 2 ^ 31 - 3 -> enabled c o t -> post n c o t.
Proof.
  intros Hinv Hn He. destruct t as [lk l init next cpus].
  pose proof Hinv as [E _ (i0 & E' & _) _ _]. cbn in E, E'. subst lk init.
  destruct o; cbn [enabled pt_cpu pt_proc pt_initproc] in He.
  7: { destruct He as [Hc Hi]. apply run_post; assumption. }
  all: destruct He as (me & Hc & He); destruct (me_running _ _ _ _ _ _ Hinv me Hc) as (p & Hp & Hx).
  - eapply alloc_post; eassumption.
  - destruct He as (q & Hq & Eq). eapply parent_post; eassumption.
  - destruct He as (q & Hq & Eq). eapply ready_post; eassumption.
  - destruct He as (q & Hq & Eq & Eq'). eapply fail_post; eassumption.
  - apply wakeup_post, Hinv.
  - apply kill_post, Hinv.
  - eapply yield_post; eassumption.
  - eapply sleep_post; eassumption.
  - eapply tidy_post; eassumption.
  - eapply wait_post; eassumption.
  - eapply exit_post; try eassumption. congruence.
Qed.

Lemma booted_get ncpu i p : pt_proc (booted ncpu) !! i = Some p ->
  i = O /\ p = blank <| p_state := RUNNABLE |> <| p_pid := 1 |> \/ p = blank.
Proof.
  destruct i as [|i]; cbn -[NPROC blank set_field]; intros E; [injection E as <-; auto|].
  apply lookup_replicate in E as [-> _]. auto.
Qed.
Lemma booted_idle ncpu c i : pt_cpu (booted ncpu) !! c = Some (Some i) -> False.
Proof. cbn. intros E. apply lookup_replicate in E as [E _]. discriminate E. Qed.
Lemma booted_inv ncpu : pt_inv 0 (booted ncpu).
Proof.
  split; [reflexivity | reflexivity | | |].
  - exists O. split; [reflexivity|]. split.
    + intros i p Hp. destruct (booted_get ncpu i p Hp) as [[_ ->]| ->]; discriminate.
    + intros i p Hp _. destruct (booted_get ncpu i p Hp) as [[_ ->]| ->]; reflexivity.
    + eexists. split; [reflexivity|]. repeat split; discriminate.
    + intros i p j q Hp [E _]. destruct (booted_get ncpu i p Hp) as [[_ ->]| ->]; discriminate E.
  - split.
    + intros c i E. destruct (booted_idle _ _ _ E).
    + intros c c' i E. destruct (booted_idle _ _ _ E).
    + intros i p Hp E. destruct (booted_get ncpu i p Hp) as [[_ ->]| ->]; discriminate E.
  - split; [cbn; lia| |].
    + intros i p Hp E. destruct (booted_get ncpu i p Hp) as [[_ ->]| ->]; [cbn; lia | destruct E; reflexivity].
    + intros i j p q Hp Hq E1 E2 _.
      destruct (booted_get ncpu i p Hp) as [[-> ->]| ->]; [|destruct E1; reflexivity].
      destruct (booted_get ncpu j q Hq) as [[-> ->]| ->]; [reflexivity | destruct E2; reflexivity].
Qed.

Lemma reach_inv ncpu n t : reach (booted ncpu) n t -> Z.of_nat n < 2 ^ 31 - 3 -> pt_inv (Z.of_nat n) t.
Proof.
  induction 1 as [|n t1 t2 Hr IH [c o He Hx]]; intros Hn; [apply booted_inv|].
  destruct (step_post (Z.of_nat n) c o t1) as (t' & E & Hinv); [apply IH; lia | lia | exact He |].
  replace (Z.of_nat (S n)) with (Z.of_nat n + 1) by lia. congruence.
Qed.

(** C10. In every table reachable within 2^31 - 4 steps of any number of
    CPUs a process is RUNNING exactly when some CPU runs it, no two CPUs run
    the same process, and the pids of the slots in use are distinct. *)
Theorem one_cpu_per_process (ncpu n : nat) (t : ptable) (Hr : reach (booted ncpu) n t)
    (Hn : Z.of_nat n < 2 ^ 31 - 3) :
  (forall i p, pt_proc t !! i = Some p ->
    (p_state p = RUNNING <-> exists c, pt_cpu t !! c = Some (Some i))) /\
  (forall c c' i, pt_cpu t !! c = Some (Some i) -> pt_cpu t !! c' = Some (Some i) -> c = c') /\
  (forall i j p q, pt_proc t !! i = Some p -> pt_proc t !! j = Some q -> p_state p <> UNUSED ->
    p_state q <> UNUSED -> i <> j -> p_pid p <> p_pid q).
Proof.
  destruct (reach_inv _ _ _ Hr Hn) as [_ _ _ [Hru Hun Hso] [_ _ Hinj]]. split; [|split].
  - intros i p Hp. split; [eauto|]. intros [c E]. destruct (Hru c i E) as (q & Hq & Eq). congruence.
  - exact Hun.
  - intros i j p q Hp Hq Ep Eq Hne E. apply Hne, (Hinj i j p q Hp Hq Ep Eq E).
Qed.

(** C11. No wakeup of wait() is lost: in every reachable table a process that
    sleeps in wait() has no zombie child. *)
Theorem wait_not_lost (ncpu n : nat) (t : ptable) (Hr : reach (booted ncpu) n t)
    (Hn : Z.of_nat n < 2 ^ 31 - 3) (i j : nat) (p q : proc)
    (Hp : pt_proc t !! i = Some p) (Hq : pt_proc t !! j = Some q) (Hchild : p_parent q = Some i)
    (Hsleep : p_state p = SLEEPING) (Hchan : p_chan p = Some (ChanProc i)) :
  p_state q <> ZOMBIE.
Proof.
  destruct (reach_inv _ _ _ Hr Hn) as [_ _ (i0 & _ & Htree) _ _].
  exact (ti_wait _ _ Htree i p j q Hp (conj Hsleep Hchan) Hq Hchild).
Qed.


(** exit() makes the process a zombie off its CPU, hands exactly its
    children to the initial process, and leaves neither its parent nor, if
    there is a zombie among the children, the initial process asleep in
    wait(). *)
Theorem exit_spec (n : Z) (t : ptable) (Hinv : pt_inv n t) (c me i0 : nat) (p : proc)
    (Hc : pt_cpu t !! c = Some (Some me)) (Hp : pt_proc t !! me = Some p)
    (Hi0 : pt_initproc t = Some i0) (Hne : me <> i0) :
  exists t', exec c OExit t = Ret tt t' /\ pt_cpu t' !! c = Some None /\
    (exists p', pt_proc t' !! me = Some p' /\ p_state p' = ZOMBIE) /\
    (forall j q, pt_proc t !! j = Some q -> exists q', pt_proc t' !! j = Some q' /\
      p_parent q' = if decide (p_parent q = Some me) then Some i0 else p_parent q) /\
    (forall i r, p_parent p = Some i -> i <> me -> pt_proc t' !! i = Some r -> ~ in_wait i r) /\
    (forall j q r, pt_proc t !! j = Some q -> p_parent q = Some me -> p_state q = ZOMBIE ->
      pt_proc t' !! i0 = Some r -> ~ in_wait i0 r).
Proof.
  destruct t as [lk l init next cpus]. pose proof Hinv as [E Hlen _ _ _]. cbn in *. subst lk init.
  destruct (me_running _ _ _ _ _ _ Hinv me Hc) as (p' & Hp' & Hx). assert (p' = p) as -> by congruence.
  destruct (exit_run n c l i0 next cpus Hinv me p Hc Hp Hx) as (l3 & p3 & [HS Hinit Hpar] & Hp3 & _ & Erun).
  eexists. split; [exact Erun|]. cbn [pt_cpu pt_proc].
  pose proof (lookup_lt_Some _ _ _ Hp3) as Hme. split; [apply list_lookup_insert_eq; eapply lookup_lt_Some, Hc|].
  split; [eexists; split; [apply list_lookup_insert_eq, Hme | reflexivity]|]. split; [|split].
  - intros j q Hq. destruct (slots_forth _ _ _ _ _ HS Hq) as (q' & Hq' & _ & _ & _ & Epar).
    apply lookup_lt_Some in Hq. rewrite Hlen in Hq.
    assert (Epar' : p_parent q' = if decide (p_parent q = Some me) then Some i0 else p_parent q).
    { rewrite Epar. destruct (decide (_ /\ _)), (decide _); tauto. }
    destruct (decide (j = me)) as [->|Hj].
    + eexists. split; [apply list_lookup_insert_eq, Hme|]. assert (q' = p3) as -> by congruence. exact Epar'.
    + exists q'. rewrite list_lookup_insert_ne by congruence. auto.
  - intros i r Ei Hi Hr. rewrite list_lookup_insert_ne in Hr by congruence. eauto.
  - intros j q r Hq Eq Ez Hr. rewrite list_lookup_insert_ne in Hr by congruence.
    apply (Hinit j q r); try assumption. apply lookup_lt_Some in Hq. congruence.
Qed.

(** kill() does not look at the state of a slot: a pid that is left in
    the first unused slot (0, after wait() or at boot) is found, kill()
    reports success, and the next process allocated there starts killed. *)
Theorem kill_unused (n : Z) (t : ptable) (Hinv : pt_inv n t) (c i : nat) (p : proc) (pid : Z)
    (Hpid : list_find (fun q => (p_pid q =? pid) = true) (pt_proc t) = Some (i, p))
    (Hfree : list_find (fun q => bool_decide (p_state q = UNUSED) = true) (pt_proc t) = Some (i, p)) :
  exists t' t'' q, @kill (on_cpu c) pid t = Ret 0 t' /\ @alloc_slot (on_cpu c) t' = Ret (Some i) t'' /\
    pt_proc t'' !! i = Some q /\ p_state q = EMBRYO /\ p_killed q = 1.
Proof.
  destruct t as [lk l init next cpus]. pose proof Hinv as [E _ (i0 & Ei & _) _ _]. cbn in *. subst lk init.
  pose proof (kill_run c l i0 next cpus pid) as Ekill. rewrite Hpid in Ekill.
  pose proof Hfree as Hfree'. apply list_find_Some in Hfree' as (Hi & Hx & Hbefore).
  apply bool_decide_eq_true in Hx.
  assert (Ek : kill_slot p = p <| p_killed := 1 |>).
  { unfold kill_slot. rewrite bool_decide_eq_false_2 by congruence. reflexivity. }
  rewrite Ek in Ekill. pose proof (lookup_lt_Some _ _ _ Hi) as Hlt.
  assert (Hinv' : pt_inv (n + 1) (mk_ptable None (<[i := p <| p_killed := 1 |>]> l) (Some i0) next cpus)).
  { destruct (kill_post n c l i0 next cpus Hinv pid) as (t' & E1 & E2). cbn [exec] in E1.
    unfold bind, ret in E1. rewrite Ekill in E1. congruence. }
  pose proof (alloc_run c (<[i := p <| p_killed := 1 |>]> l) i0 next cpus) as Ealloc.
  assert (Hfind : list_find (fun q => bool_decide (p_state q = UNUSED) = true)
    (<[i := p <| p_killed := 1 |>]> l) = Some (i, p <| p_killed := 1 |>)).
  { apply list_find_Some. split; [apply list_lookup_insert_eq, Hlt|].
    split; [apply bool_decide_eq_true_2, Hx|]. intros j q Hq Hj.
    rewrite list_lookup_insert_ne in Hq by lia. exact (Hbefore j q Hq Hj). }
  rewrite Hfind in Ealloc. do 3 eexists. split; [exact Ekill|]. split; [exact Ealloc|].
  split; [apply list_lookup_insert_eq; rewrite length_insert; exact Hlt|]. split; reflexivity.
Qed.

Section Witnesses.
(** The initial process runs on CPU 0 and forks a child, which exits. *)
Definition t0 : ptable := booted 2.
Definition after (c : nat) (o : op) (t : ptable) : ptable :=
  match exec c o t with Ret _ t' | Stop _ t' => t' end.
Definition t4 : ptable := after 0 (OReady 1) (after 0 (OParent 1) (after 0 OAlloc (after 0 (ORun 0) t0))).

Lemma reach_after t n t1 c o : reach t n t1 -> enabled c o t1 ->
  (if exec c o t1 is Ret _ _ then True else False) -> reach t (S n) (after c o t1).
Proof.
  intros Hr He Hx. eapply ReachStep; [exact Hr|]. econstructor; [exact He|].
  unfold after. destruct (exec c o t1) as [[] t2|]; [reflexivity | destruct Hx].
Qed.
Lemma t4_reach : reach (booted 2) 4 t4.
Proof.
  unfold t4. repeat (apply reach_after; [| |vm_compute; exact I]); [apply ReachRefl | | | |].
  - split; [reflexivity | unfold NPROC; lia].
  - exists O. split; [vm_compute; reflexivity | exact I].
  - exists O. split; [vm_compute; reflexivity|]. eexists. split; [vm_compute; reflexivity | reflexivity].
  - exists O. split; [vm_compute; reflexivity|]. eexists. split; [vm_compute; reflexivity | reflexivity].
Qed.
(** The parent waits on CPU 0. *)
Definition t5 : ptable := after 0 OWait t4.
Lemma t5_reach : reach (booted 2) 5 t5.
Proof.
  apply reach_after; [apply t4_reach | | vm_compute; exact I].
  exists O. split; [vm_compute; reflexivity | exact I].
Qed.
Definition slot_of (t : ptable) (i : nat) : proc := default blank (pt_proc t !! i).
(** The child runs on CPU 1. *)
Definition t6 : ptable := after 1 (ORun 1) t5.
Lemma t6_inv : pt_inv 6 t6.
Proof.
  apply (reach_inv 2 6); [|reflexivity]. apply reach_after; [apply t5_reach | | vm_compute; exact I].
  split; [vm_compute; reflexivity | unfold NPROC; lia].
Qed.

Example one_cpu_per_process_witness : exists p q, pt_proc t4 !! 0%nat = Some p /\ p_state p = RUNNING /\
  pt_proc t4 !! 1%nat = Some q /\ p_pid p <> p_pid q.
Proof.
  eexists _, _. split; [vm_compute; reflexivity|]. split; [reflexivity|]. split; [vm_compute; reflexivity|].
  apply (proj2 (proj2 (one_cpu_per_process 2 4 t4 t4_reach ltac:(vm_compute; reflexivity))) 0%nat 1%nat);
    first [vm_compute; reflexivity | discriminate].
Defined.

Example wait_not_lost_witness : exists p q, pt_proc t5 !! 0%nat = Some p /\ pt_proc t5 !! 1%nat = Some q /\
  p_state p = SLEEPING /\ p_state q <> ZOMBIE.
Proof.
  eexists _, _. split; [vm_compute; reflexivity|]. split; [vm_compute; reflexivity|]. split; [reflexivity|].
  apply (wait_not_lost 2 5 t5 t5_reach ltac:(vm_compute; reflexivity) 0%nat 1%nat
    _ _ ltac:(vm_compute; reflexivity) ltac:(vm_compute; reflexivity) eq_refl eq_refl eq_refl).
Defined.


Example exit_spec_witness : exists t', exec 1 OExit t6 = Ret tt t' /\
  exists r, pt_proc t' !! 0%nat = Some r /\ ~ in_wait 0 r.
Proof.
  destruct (exit_spec 6 t6 t6_inv 1%nat 1%nat 0%nat (slot_of t6 1)
    ltac:(vm_compute; reflexivity) ltac:(vm_compute; reflexivity) ltac:(vm_compute; reflexivity) ltac:(lia))
    as (t' & E & _ & _ & Hkids & Hpar & _).
  exists t'. split; [exact E|].
  destruct (Hkids 0%nat (slot_of t6 0) ltac:(vm_compute; reflexivity)) as (r & Hr & _).
  exists r. split; [exact Hr|]. apply (Hpar 0%nat r ltac:(vm_compute; reflexivity) ltac:(lia) Hr).
Defined.

Example kill_unused_witness : exists t' t'' q, @kill (on_cpu 0) 0 t4 = Ret 0 t' /\
  @alloc_slot (on_cpu 0) t' = Ret (Some 2%nat) t'' /\ pt_proc t'' !! 2%nat = Some q /\
  p_state q = EMBRYO /\ p_killed q = 1.
Proof.
  apply (kill_unused 4 t4 (reach_inv 2 4 t4 t4_reach ltac:(vm_compute; reflexivity)) 0%nat 2%nat blank 0);
    vm_compute; reflexivity.
Defined.
End Witnesses.
