(* ===== verification/Ulib.v ===== *)
(** * The user library

    [src/homeworks/xv6-public/ulib.c] and [printf.c].  A C string is the
    list of its bytes without the final NUL; the words on the stack that
    printf() takes as its arguments are a function of their index, and
    [cstr] gives the string at an address. *)
From S2P Require Import Prelude.

(** ** ulib.c *)

(** The bytes before the first NUL of an array. *)
Fixpoint until_nul (s : list Z) : list Z :=
  match s with
  | [] => []
  | c :: s' => if c =? 0 then [] else c :: until_nul s'
  end.

(** strcpy(s, t) into an array: the bytes of [t], a NUL, the old rest. *)
Definition strcpy (s t : list Z) : list Z := t ++ [0] ++ drop (length t + 1) s.

Fixpoint strcmp (p q : list Z) : Z :=
  match p, q with
  | x :: p', y :: q' => if x =? y then strcmp p' q' else u8 x - u8 y
  | x :: _, [] => u8 x
  | [], y :: _ => - u8 y
  | [], [] => 0
  end.

Fixpoint strlen (s : list Z) : Z :=
  match s with
  | [] => 0
  | _ :: s' => 1 + strlen s'
  end.

(** memset() and memmove() on an array; memmove() copies upwards. *)
Definition memset (dst : list Z) (c : Z) (n : nat) : list Z := replicate n (u8 c) ++ drop n dst.
Fixpoint memmove_up (n : nat) (a : list Z) (dst src : nat) : list Z :=
  match n with
  | O => a
  | S n' => memmove_up n' (<[dst := nth src a 0]> a) (S dst) (S src)
  end.
(** memmove() inside one array. *)
Definition memmove (a : list Z) (dst src : nat) (n : Z) : list Z := memmove_up (Z.to_nat n) a dst src.

(** The string from the first [c] on. *)
Fixpoint strchr (s : list Z) (c : Z) : option (list Z) :=
  match s with
  | [] => None
  | x :: s' => if x =? c then Some s else strchr s' c
  end.

(** gets(buf, max): each read() takes one byte of the input; the bytes
    stored before the NUL and the rest of the input. *)
Fixpoint gets_loop (room : nat) (input : list Z) : list Z * list Z :=
  match room with
  | O => ([], input)
  | S room' =>
      match input with
      | [] => ([], [])
      | c :: input' =>
          if (c =? 10) || (c =? 13) then ([c], input')
          else let '(buf, rest) := gets_loop room' input' in (c :: buf, rest)
      end
  end.
Definition gets (max : Z) (input : list Z) : list Z * list Z := gets_loop (Z.to_nat (max - 1)) input.

(** [n = n*10 + *s++ - '0'] *)
Fixpoint atoi_loop (s : list Z) (n : Z) : Z :=
  match s with
  | c :: s' => if (48 <=? c) && (c <=? 57) then atoi_loop s' (s32 (n * 10 + c - 48)) else n
  | [] => n
  end.
Definition atoi (s : list Z) : Z := atoi_loop s 0.

(** stat(): the system calls are parameters. *)
Definition stat {S B} (open : list Z -> M S Z) (fstat : Z -> M S (Z * B)) (close : Z -> M S Z)
    (n : list Z) (st : B) : M S (Z * B) :=
  let! fd := open n in
  if fd <? 0 then ret (-1, st) else
  let! r := fstat fd in
  let! _ := close fd in
  ret r.

(** ** printf.c *)

Definition digits : list Z := str "0123456789ABCDEF".
Definition digit (d : Z) : Z := nth (Z.to_nat d) digits 0.

(** [do{ buf[i++] = digits[x % base]; }while((x /= base) != 0);] *)
Fixpoint print_digits (fuel : nat) (x base : Z) : list Z :=
  match fuel with
  | O => []
  | S fuel' => digit (x mod base) :: (if x / base =? 0 then [] else print_digits fuel' (x / base) base)
  end.

(** The bytes written for [xx] (an int); a 32-bit number has at most 32
    digits. *)
Definition printint (xx base : Z) (sgn : bool) : list Z :=
  let neg := sgn && (xx <? 0) in
  let x := if neg then u32 (- xx) else u32 xx in
  let buf := print_digits 32 x base ++ (if neg then [45] else []) in
  rev buf.

Inductive pstate : Type := Plain | Percent.

(** One byte of the format: what is written, the new state and argument. *)
Definition printf_step (cstr : Z -> list Z) (ap : nat -> Z) (c : Z) (state : pstate) (k : nat)
    : list Z * pstate * nat :=
  match state with
  | Plain => if c =? 37 then ([], Percent, k) else ([c], Plain, k)
  | Percent =>
      if c =? 100 then (printint (s32 (ap k)) 10 true, Plain, S k)
      else if (c =? 120) || (c =? 112) then (printint (s32 (ap k)) 16 false, Plain, S k)
      else if c =? 115 then
        let s := ap k in (if s =? 0 then str "(null)" else cstr s, Plain, S k)
      else if c =? 99 then ([u8 (ap k)], Plain, S k)
      else if c =? 37 then ([c], Plain, k)
      else
        (* Unknown % sequence.  Print it to draw attention. *)
        ([37; c], Plain, k)
  end.
Fixpoint printf_loop (cstr : Z -> list Z) (ap : nat -> Z) (fmt : list Z) (state : pstate) (k : nat) : list Z :=
  match fmt with
  | [] => []
  | c :: fmt' =>
      let '(out, state', k') := printf_step cstr ap c state k in
      out ++ printf_loop cstr ap fmt' state' k'
  end.
(** The bytes that printf(fd, fmt, ...) writes to [fd]. *)
Definition printf (cstr : Z -> list Z) (fmt : list Z) (ap : nat -> Z) : list Z :=
  printf_loop cstr ap fmt Plain 0.

(** ** Proofs *)

(** The value of the digits, most significant first. *)
Definition digits_value (base : Z) (l : list Z) : Z := fold_left (fun n d => n * base + d) l 0.
(** What a digit stands for. *)
Definition digit_value (c : Z) : Z := if c <=? 57 then c - 48 else c - 55.

Lemma digit_ok d : 0 <= d < 16 -> digit_value (digit d) = d /\ (d < 10 -> 48 <= digit d <= 57).
Proof.
  intros Hd.
  assert (Hall : forallb (fun k => let d := Z.of_nat k in
    (digit_value (digit d) =? d) && ((10 <=? d) || (48 <=? digit d) && (digit d <=? 57))) (seq 0 16) = true)
    by reflexivity.
  rewrite forallb_forall in Hall. specialize (Hall (Z.to_nat d) ltac:(apply in_seq; lia)).
  cbv beta zeta in Hall. rewrite Z2Nat.id in Hall by lia. lia.
Qed.

Lemma digits_value_app base l d : digits_value base (l ++ [d]) = digits_value base l * base + d.
Proof. unfold digits_value. rewrite fold_left_app. reflexivity. Qed.

(** print_digits() writes the number, least significant digit first. *)
Lemma print_digits_value base : 2 <= base <= 16 -> forall fuel x, 0 <= x < 2 ^ Z.of_nat fuel ->
  (0 < fuel)%nat -> digits_value base (map digit_value (rev (print_digits fuel x base))) = x.
Proof.
  intros Hb. induction fuel as [|fuel IH]; intros x Hx Hf; [lia|]. cbn [print_digits rev].
  rewrite map_app. cbn [map]. rewrite digits_value_app.
  pose proof (Z.mod_pos_bound x base ltac:(lia)) as Hm.
  rewrite (proj1 (digit_ok (x mod base) ltac:(lia))). pose proof (Z.div_mod x base ltac:(lia)) as Hdm.
  destruct (Z.eqb_spec (x / base) 0) as [E|E]; [cbn; lia|].
  assert (Hq : 0 <= x / base < 2 ^ Z.of_nat fuel).
  { split; [apply Z.div_pos; lia|]. apply Z.div_lt_upper_bound; [lia|].
    rewrite Nat2Z.inj_succ, Z.pow_succ_r in Hx by lia. nia. }
  destruct fuel as [|fuel']; [cbn in Hq; lia|]. rewrite IH by lia. lia.
Qed.
Lemma print_digits_chars fuel x : 0 <= x -> Forall (fun c => 48 <= c <= 57) (print_digits fuel x 10).
Proof.
  revert x. induction fuel as [|fuel IH]; intros x Hx; cbn [print_digits]; constructor.
  - pose proof (Z.mod_pos_bound x 10 ltac:(lia)). apply (digit_ok (x mod 10)); lia.
  - destruct (_ =? 0); [constructor | apply IH, Z.div_pos; lia].
Qed.
(** At most [k] digits below [base ^ k]. *)
Lemma print_digits_length base fuel : 2 <= base -> forall k x, 0 <= x < base ^ Z.of_nat k -> (0 < k)%nat ->
  (length (print_digits fuel x base) <= k)%nat.
Proof.
  intros Hb. induction fuel as [|fuel IH]; intros k x Hx Hk; cbn [print_digits length]; [lia|].
  destruct (Z.eqb_spec (x / base) 0) as [E|E]; cbn [length]; [lia|].
  destruct k as [|k]; [lia|]. rewrite Nat2Z.inj_succ, Z.pow_succ_r in Hx by lia.
  assert (Hq : 0 <= x / base < base ^ Z.of_nat k).
  { split; [apply Z.div_pos; lia | apply Z.div_lt_upper_bound; lia]. }
  destruct k as [|k]; [cbn in Hq; lia|]. specialize (IH (S k) (x / base) Hq ltac:(lia)). lia.
Qed.

(** atoi() of decimal digits. *)
Lemma atoi_loop_digits l : Forall (fun c => 48 <= c <= 57) l -> forall n, 0 <= n ->
  fold_left (fun n d => n * 10 + d) (map digit_value l) n < 2 ^ 31 ->
  atoi_loop l n = fold_left (fun n d => n * 10 + d) (map digit_value l) n.
Proof.
  induction 1 as [|c l Hc Hl IH]; intros n Hn Hmax; [reflexivity|]. cbn [atoi_loop map fold_left] in *.
  rewrite (proj2 (Z.leb_le 48 c)), (proj2 (Z.leb_le c 57)) by lia. cbn [andb].
  assert (Ev : digit_value c = c - 48) by (unfold digit_value; rewrite (proj2 (Z.leb_le c 57)) by lia; reflexivity).
  rewrite Ev in *.
  assert (Hmono : forall l n, Forall (fun c => 48 <= c <= 57) l -> 0 <= n ->
    n <= fold_left (fun n d => n * 10 + d) (map digit_value l) n).
  { clear. intros l. induction l as [|c l IH]; intros n Hl Hn; cbn; [lia|]. apply Forall_cons in Hl as [Hc Hl].
    assert (digit_value c = c - 48) as -> by (unfold digit_value; rewrite (proj2 (Z.leb_le c 57)) by lia; reflexivity).
    specialize (IH (n * 10 + (c - 48)) Hl ltac:(lia)). lia. }
  pose proof (Hmono l (n * 10 + (c - 48)) Hl ltac:(lia)).
  unfold s32. rewrite Z.mod_small by lia. replace (n * 10 + c - 48 + 2 ^ 31 - 2 ^ 31) with (n * 10 + (c - 48)) by lia.
  apply IH; lia.
Qed.

(** What printf() prints for %d reads back: the digits after the sign are
    the decimal digits of the number, also for the smallest int, atoi()
    gives back a number that is not negative, and the text fits the 16 bytes
    of the buffer. *)
Theorem printint_roundtrip (xx : Z) (Hxx : - 2 ^ 31 <= xx < 2 ^ 31) :
  let out := printint xx 10 true in
  (length out <= 11)%nat /\
  (if xx <? 0 then exists l, out = 45 :: l /\ Forall (fun c => 48 <= c <= 57) l /\
     digits_value 10 (map digit_value l) = - xx
   else atoi out = xx).
Proof.
  cbv zeta. unfold printint. cbn [andb]. destruct (Z.ltb_spec xx 0) as [Hneg|Hpos].
  - unfold u32. rewrite Z.mod_small by lia. rewrite rev_app_distr, length_app, !length_rev. cbn [rev app length].
    split.
    + pose proof (print_digits_length 10 32 ltac:(lia) 10 (- xx) ltac:(change (10 ^ Z.of_nat 10) with 10000000000; lia) ltac:(lia)). lia.
    + eexists. split; [reflexivity|]. split; [|apply print_digits_value; change (2 ^ Z.of_nat 32) with (2 ^ 32); lia].
      apply Forall_rev, print_digits_chars. lia.
  - unfold u32. rewrite Z.mod_small by lia. rewrite app_nil_r. split.
    + rewrite length_rev. pose proof (print_digits_length 10 32 ltac:(lia) 10 xx ltac:(change (10 ^ Z.of_nat 10) with 10000000000; lia) ltac:(lia)). lia.
    + pose proof (print_digits_value 10 ltac:(lia) 32 xx ltac:(change (2 ^ Z.of_nat 32) with (2 ^ 32); lia) ltac:(lia)) as Hv. unfold digits_value in Hv.
      unfold atoi. rewrite atoi_loop_digits; [exact Hv | apply Forall_rev, print_digits_chars; lia | lia | lia].
Qed.

Example printint_roundtrip_witness : exists l, printint (- 2 ^ 31) 10 true = 45 :: l /\
  digits_value 10 (map digit_value l) = 2 ^ 31.
Proof.
  destruct (printint_roundtrip (- 2 ^ 31) ltac:(lia)) as [_ (l & E & _ & Ev)].
  exists l. split; [exact E | exact Ev].
Defined.

Example printf_example : printf (fun _ => str "abc") (str "%d %x %s%c%%") (fun k => nth k [42; 255; 7; 33] 0) = str "42 FF abc!%".
Proof. reflexivity. Qed.
