(* ===== verification/Grep.v ===== *)
(** * grep and wc

    [src/homeworks/xv6-public/grep.c]: the matcher of Kernighan and Pike and
    the loop over a file, and the counting loop of [wc.c].  A C string is
    the list of its bytes without the final NUL. *)
From S2P Require Import Prelude.
From S2P Require Import Ulib.

(** ** The matcher *)

Definition STAR : Z := 42.
Definition DOT : Z := 46.
Definition CARET : Z := 94.
Definition DOLLAR : Z := 36.
Definition NL : Z := 10.

(** matchstar(c, re, text); [here] is matchhere(re, .). *)
Fixpoint matchstar (c : Z) (here : list Z -> bool) (text : list Z) : bool :=
  here text ||
  match text with
  | t :: text' => ((t =? c) || (c =? DOT)) && matchstar c here text'
  | [] => false
  end.

(** matchhere: search for re at beginning of text *)
Fixpoint matchhere (re text : list Z) : bool :=
  match re with
  | [] => true
  | c :: re1 =>
      match re1 with
      | s :: re2 =>
          if s =? STAR then matchstar c (matchhere re2) text
          else
            match text with
            | t :: text' => ((c =? DOT) || (c =? t)) && matchhere re1 text'
            | [] => false
            end
      | [] =>
          if c =? DOLLAR then match text with [] => true | _ => false end
          else
            match text with
            | t :: text' => ((c =? DOT) || (c =? t)) && matchhere re1 text'
            | [] => false
            end
      end
  end.

(** The loop of match(): it must look at the empty string. *)
Fixpoint match_loop (re text : list Z) : bool :=
  matchhere re text ||
  match text with
  | _ :: text' => match_loop re text'
  | [] => false
  end.
Definition match_ (re text : list Z) : bool :=
  match re with
  | c :: re' => if c =? CARET then matchhere re' text else match_loop re text
  | [] => match_loop re text
  end.

(** ** grep() *)

Definition BUFSZ : Z := 1024.

(** The line before the first newline of a string, and what follows it. *)
Fixpoint split_line (s : list Z) : option (list Z * list Z) :=
  match s with
  | [] => None
  | c :: s' =>
      if c =? NL then Some ([], s')
      else match split_line s' with
           | Some (line, rest) => Some (c :: line, rest)
           | None => None
           end
  end.

(** [while((q = strchr(p, '\n')) != 0)]: what is written to the output, and
    the bytes from [p] on; [buf] are the bytes up to [buf[m]], strchr() stops
    at the first NUL. *)
Fixpoint grep_lines (fuel : nat) (pattern buf : list Z) : list Z * list Z :=
  match fuel with
  | O => ([], buf)
  | S fuel' =>
      match split_line (until_nul buf) with
      | None => ([], buf)
      | Some (line, _) =>
          let rest := drop (length line + 1) buf in
          let '(out, p) := grep_lines fuel' pattern rest in
          (if match_ pattern line then line ++ [NL] ++ out else out, p)
      end
  end.

(** grep(pattern, fd): [reads] are the sizes that read() returns, at most
    the room that is left; the file ends when it is used up. *)
Fixpoint grep_loop (reads : list nat) (pattern file buf : list Z) : list Z :=
  match reads with
  | [] => []
  | k :: reads' =>
      let n := Nat.min (Nat.min k (length file)) (Z.to_nat (BUFSZ - Z.of_nat (length buf) - 1)) in
      if (n =? 0)%nat then [] else
      let buf := buf ++ take n file in
      let '(out, p) := grep_lines (length buf) pattern buf in
      (* if(p == buf) m = 0; *)
      let buf := if bool_decide (length p = length buf) then [] else p in
      out ++ grep_loop reads' pattern (drop n file) buf
  end.
Definition grep (reads : list nat) (pattern file : list Z) : list Z := grep_loop reads pattern file [].

(** ** wc() *)

(** [strchr(" \r\t\n\v", c)] *)
Definition wc_space (c : Z) : bool := bool_decide (c ∈ [32; 13; 9; NL; 11]).

(** lines, words, characters, inword *)
Record wc_state := mk_wc { wc_l : Z; wc_w : Z; wc_c : Z; wc_inword : bool }.
Definition wc_byte (s : wc_state) (b : Z) : wc_state :=
  let l := if b =? NL then s32 (wc_l s + 1) else wc_l s in
  if wc_space b then mk_wc l (wc_w s) (s32 (wc_c s + 1)) false
  else if wc_inword s then mk_wc l (wc_w s) (s32 (wc_c s + 1)) true
  else mk_wc l (s32 (wc_w s + 1)) (s32 (wc_c s + 1)) true.
(** The reads of a file, one after the other. *)
Definition wc (chunks : list (list Z)) : wc_state :=
  fold_left (fun s chunk => fold_left wc_byte chunk s) chunks (mk_wc 0 0 0 false).

(** ** What a pattern means *)

Inductive one : Type := Any | Lit (c : Z).
Inductive item : Type := One (x : one) | Star (x : one) | End_.
Definition one_of (c : Z) : one := if c =? DOT then Any else Lit c.
Definition matches1 (x : one) (c : Z) : Prop := match x with Any => True | Lit d => c = d end.

(** The items of a pattern without its caret. *)
Fixpoint items (re : list Z) : list item :=
  match re with
  | [] => []
  | c :: re1 =>
      match re1 with
      | s :: re2 => if s =? STAR then Star (one_of c) :: items re2 else One (one_of c) :: items re1
      | [] => if c =? DOLLAR then [End_] else [One (one_of c)]
      end
  end.

(** The items match [s] when [rest] follows it. *)
Inductive accepts (rest : list Z) : list item -> list Z -> Prop :=
| A_nil : accepts rest [] []
| A_one x c its s : matches1 x c -> accepts rest its s -> accepts rest (One x :: its) (c :: s)
| A_star x s1 its s2 : Forall (matches1 x) s1 -> accepts rest its s2 -> accepts rest (Star x :: its) (s1 ++ s2)
| A_end : rest = [] -> accepts rest [End_] [].

Lemma one_of_spec c t : ((c =? DOT) || (c =? t)) = true <-> matches1 (one_of c) t.
Proof.
  unfold one_of. destruct (Z.eqb_spec c DOT); cbn [orb matches1]; [tauto|].
  rewrite Z.eqb_eq. split; congruence.
Qed.

(** A prefix of [text] is matched by [its]. *)
Definition prefix_matches (its : list item) (text : list Z) : Prop :=
  exists s rest, text = s ++ rest /\ accepts rest its s.

Lemma prefix_one x its text : prefix_matches (One x :: its) text <->
  exists t text', text = t :: text' /\ matches1 x t /\ prefix_matches its text'.
Proof.
  split.
  - intros (s & rest & -> & Ha). inversion Ha as [|y c its' s' Hc Hs| |]; subst.
    exists c, (s' ++ rest). split; [reflexivity|]. split; [exact Hc|]. exists s', rest. auto.
  - intros (t & text' & -> & Ht & s & rest & -> & Ha). exists (t :: s), rest.
    split; [reflexivity | constructor; assumption].
Qed.
Lemma prefix_star x its text : prefix_matches (Star x :: its) text <->
  prefix_matches its text \/
  exists t text', text = t :: text' /\ matches1 x t /\ prefix_matches (Star x :: its) text'.
Proof.
  split.
  - intros (s & rest & -> & Ha). inversion Ha as [| |y s1 its' s2 H1 H2|]; subst.
    destruct s1 as [|t s1]; [left; exists s2, rest; auto|]. apply Forall_cons in H1 as [Ht H1].
    right. exists t, ((s1 ++ s2) ++ rest). split; [reflexivity|]. split; [exact Ht|].
    exists (s1 ++ s2), rest. split; [reflexivity | constructor; assumption].
  - intros [(s & rest & -> & Ha)|(t & text' & -> & Ht & s & rest & -> & Ha)].
    + exists ([] ++ s), rest. split; [reflexivity | constructor; [constructor | exact Ha]].
    + inversion Ha as [| |y s1 its' s2 H1 H2|]; subst. exists ((t :: s1) ++ s2), rest.
      split; [reflexivity | constructor; [constructor; assumption | assumption]].
Qed.
Lemma prefix_nil text : prefix_matches [] text.
Proof. exists [], text. split; [reflexivity | constructor]. Qed.
Lemma prefix_end text : prefix_matches [End_] text <-> text = [].
Proof.
  split.
  - intros (s & rest & -> & Ha). inversion Ha. subst. reflexivity.
  - intros ->. exists [], []. split; [reflexivity | constructor; reflexivity].
Qed.

Lemma matchstar_spec c here its : (forall text, here text = true <-> prefix_matches its text) ->
  forall text, matchstar c here text = true <-> prefix_matches (Star (one_of c) :: its) text.
Proof.
  intros Hhere. induction text as [|t text IH]; cbn [matchstar]; rewrite prefix_star, <- Hhere.
  - rewrite orb_false_r. split; [auto|]. intros [?|(t & text' & E & _)]; [assumption | discriminate E].
  - rewrite orb_true_iff, andb_true_iff, (Z.eqb_sym t c), orb_comm, one_of_spec, IH.
    split; intros [?|Hr]; auto; right.
    + exists t, text. tauto.
    + destruct Hr as (t' & text' & [= <- <-] & ?). tauto.
Qed.

(** The pattern ends in [c], or goes on with something that is no star. *)
Lemma matchone_spec c its here text : (forall text, here text = true <-> prefix_matches its text) ->
  match text with t :: text' => ((c =? DOT) || (c =? t)) && here text' | [] => false end = true <->
  prefix_matches (One (one_of c) :: its) text.
Proof.
  intros Hhere. rewrite prefix_one. destruct text as [|t text].
  - split; [discriminate|]. intros (t & text' & E & _). discriminate E.
  - rewrite andb_true_iff, one_of_spec, Hhere. split.
    + intros [? ?]. exists t, text. auto.
    + intros (t' & text' & [= <- <-] & ?). assumption.
Qed.

Lemma matchhere_spec n : forall re text, (length re <= n)%nat ->
  matchhere re text = true <-> prefix_matches (items re) text.
Proof.
  induction n as [|n IH]; intros [|c re1] text Hlen; try (cbn in Hlen; lia);
    [cbn; pose proof (prefix_nil text); tauto .. |].
  destruct re1 as [|s re2]; cbn [matchhere items].
  - destruct (c =? DOLLAR); [rewrite prefix_end; destruct text; split; congruence|].
    apply (matchone_spec c [] (matchhere [])). intros text'. cbn. pose proof (prefix_nil text'). tauto.
  - destruct (s =? STAR).
    + apply matchstar_spec. intros text'. apply IH. cbn in Hlen. lia.
    + apply (matchone_spec c (items (s :: re2)) (matchhere (s :: re2))). intros text'. apply IH. cbn in *. lia.
Qed.

Lemma match_loop_spec re text : match_loop re text = true <->
  exists pre post, text = pre ++ post /\ prefix_matches (items re) post.
Proof.
  induction text as [|t text IH]; cbn [match_loop]; rewrite orb_true_iff, (matchhere_spec (length re)) by lia.
  - split; [|intros (pre & post & E & Hp); symmetry in E; apply app_eq_nil in E as [-> ->]; auto].
    intros [Hp|E]; [exists [], []; auto | discriminate E].
  - rewrite IH. split.
    + intros [Hp|(pre & post & -> & Hp)]; [exists [], (t :: text); auto | exists (t :: pre), post; auto].
    + intros ([|t' pre] & post & E & Hp); cbn in E; [left; congruence|].
      injection E as -> ->. right. exists pre, post. auto.
Qed.

(** C21. match() finds exactly what the pattern means: it succeeds when some
    part of the text is matched by the items of the pattern ([c], [.], [c*]
    and a final [$]), at the beginning of the text when the pattern starts
    with a caret. *)
Theorem match_spec (re text : list Z) :
  match_ re text = true <->
  exists pre s post, text = pre ++ s ++ post /\
    match re with
    | c :: re' => if c =? CARET then pre = [] /\ accepts post (items re') s else accepts post (items re) s
    | [] => accepts post (items re) s
    end.
Proof.
  assert (Hloop : match_loop re text = true <->
    exists pre s post, text = pre ++ s ++ post /\ accepts post (items re) s).
  { rewrite match_loop_spec. split.
    - intros (pre & post & -> & s & rest & -> & Ha). exists pre, s, rest. auto.
    - intros (pre & s & post & -> & Ha). exists pre, (s ++ post). split; [reflexivity|]. exists s, post. auto. }
  unfold match_. destruct re as [|c re']; [exact Hloop|].
  destruct (c =? CARET); [|exact Hloop]. rewrite (matchhere_spec (length re')) by lia. split.
  - intros (s & rest & -> & Ha). exists [], s, rest. auto.
  - intros (pre & s & post & -> & -> & Ha). exists s, post. auto.
Qed.

(** *** Lines *)

(** The lines of a file that end in a newline, and what is left. *)
Fixpoint file_lines (fuel : nat) (file : list Z) : list (list Z) :=
  match fuel with
  | O => []
  | S fuel' =>
      match split_line file with
      | Some (line, rest) => line :: file_lines fuel' rest
      | None => []
      end
  end.
(** The lines that match, with their newlines. *)
Definition matching (pattern : list Z) (ls : list (list Z)) : list Z :=
  concat (map (fun l => l ++ [NL]) (filter (fun l => match_ pattern l = true) ls)).

Lemma split_line_eq s line rest : split_line s = Some (line, rest) -> s = line ++ NL :: rest.
Proof.
  revert line. induction s as [|c s IH]; intros line E; cbn in E; [discriminate|].
  destruct (Z.eqb_spec c NL) as [->|Hc]; [injection E as <- <-; reflexivity|].
  destruct (split_line s) as [[l r]|]; [|discriminate]. injection E as <- <-. cbn. f_equal. auto.
Qed.
Lemma until_nul_id s : Forall (fun c => c <> 0) s -> until_nul s = s.
Proof.
  induction 1 as [|c s Hc Hs IH]; cbn; [reflexivity|]. rewrite (proj2 (Z.eqb_neq c 0) Hc), IH. reflexivity.
Qed.

Lemma grep_lines_out pattern fuel : forall buf, Forall (fun c => c <> 0) buf ->
  fst (grep_lines fuel pattern buf) = matching pattern (file_lines fuel buf).
Proof.
  induction fuel as [|fuel IH]; intros buf Hb; [reflexivity|]. cbn [grep_lines file_lines].
  rewrite until_nul_id by exact Hb. destruct (split_line buf) as [[line rest]|] eqn:E; [|reflexivity].
  apply split_line_eq in E. subst buf.
  assert (Ed : drop (length line + 1) (line ++ NL :: rest) = rest).
  { rewrite (cons_middle NL), app_assoc. apply drop_app_length'. rewrite length_app. reflexivity. }
  rewrite Ed. apply Forall_app in Hb as [_ Hb]. apply Forall_cons in Hb as [_ Hb].
  specialize (IH rest Hb). destruct (grep_lines fuel pattern rest) as [out p]. cbn [fst] in IH. subst out.
  unfold matching. rewrite filter_cons. destruct (match_ pattern line) eqn:Em; cbn [fst].
  - rewrite decide_True by reflexivity. cbn [map concat]. rewrite <- app_assoc. reflexivity.
  - rewrite decide_False by discriminate. reflexivity.
Qed.

(** grep() on a file that one read() returns whole writes exactly the
    lines that match, in their order; a last line without a newline is not
    looked at. *)
Theorem grep_spec (pattern file : list Z) (k : nat) (Hk : (length file <= k)%nat)
    (Hfit : Z.of_nat (length file) <= BUFSZ - 1) (Hfile : Forall (fun c => c <> 0) file) :
  grep [k] pattern file = matching pattern (file_lines (length file) file).
Proof.
  unfold grep. cbn [grep_loop length].
  replace (Nat.min (Nat.min k (length file)) (Z.to_nat (BUFSZ - Z.of_nat 0 - 1))) with (length file) by lia.
  destruct (Nat.eqb_spec (length file) 0) as [E|E].
  - apply length_zero_iff_nil in E. subst file. reflexivity.
  - cbn [app]. rewrite take_ge by lia. pose proof (grep_lines_out pattern (length file) file Hfile) as Hout.
    destruct (grep_lines (length file) pattern file) as [out p]. cbn [fst] in Hout. subst out.
    apply app_nil_r.
Qed.

(** When a read() returns part of a line and no newline, as a pipe or the
    console may do, grep() throws the part away: the same bytes give other
    output than in one read(). *)
Theorem grep_short_read (pattern line : list Z) (j : nat) (Hline : Forall (fun c => c <> 0 /\ c <> NL) line)
    (Hj : (0 < j <= length line)%nat) (Hfit : Z.of_nat (length line) < BUFSZ - 1)
    (Hyes : match_ pattern line = true) (Hno : match_ pattern (drop j line) = false) :
  grep [S (length line)] pattern (line ++ [NL]) = line ++ [NL] /\
  grep [j; S (length line)] pattern (line ++ [NL]) = [].
Proof.
  assert (Hnl : forall l rest, Forall (fun c => c <> 0 /\ c <> NL) l -> split_line (l ++ NL :: rest) = Some (l, rest)).
  { induction 1 as [|c l [_ Hc] Hl IH]; [reflexivity|]. cbn. rewrite (proj2 (Z.eqb_neq c NL) Hc), IH. reflexivity. }
  assert (Hnone : forall l, Forall (fun c => c <> 0 /\ c <> NL) l -> split_line l = None).
  { induction 1 as [|c l [_ Hc] Hl IH]; [reflexivity|]. cbn. rewrite (proj2 (Z.eqb_neq c NL) Hc), IH. reflexivity. }
  assert (Hnul : forall l, Forall (fun c => c <> 0 /\ c <> NL) l -> until_nul l = l /\ until_nul (l ++ [NL]) = l ++ [NL]).
  { intros l Hl. assert (Hz : Forall (fun c => c <> 0) l) by (eapply Forall_impl; [exact Hl | tauto]).
    split; apply until_nul_id; [exact Hz|]. apply Forall_app. split; [exact Hz | constructor; [discriminate | constructor]]. }
  assert (Hlast : forall l, Forall (fun c => c <> 0 /\ c <> NL) l ->
    grep_lines (length (l ++ [NL])) pattern (l ++ [NL]) = (if match_ pattern l then l ++ [NL] else [], [])).
  { intros l Hl. rewrite length_app, Nat.add_1_r. cbn [grep_lines].
    rewrite (proj2 (Hnul l Hl)), (Hnl l [] Hl), drop_ge by (rewrite length_app; reflexivity).
    destruct (length l); cbn [grep_lines until_nul split_line]; destruct (match_ pattern l); reflexivity. }
  unfold grep. cbn [grep_loop length]. rewrite length_app. cbn [length]. unfold BUFSZ in *. split.
  - rewrite !Nat.min_l by lia. rewrite (proj2 (Nat.eqb_neq (S (length line)) 0)) by lia.
    cbn [app]. rewrite take_ge by (rewrite length_app; cbn; lia).
    rewrite (Hlast line Hline), Hyes. apply app_nil_r.
  - rewrite !Nat.min_l by lia. rewrite (proj2 (Nat.eqb_neq j 0)) by lia. cbn [app].
    rewrite take_app_le by lia. pose proof (Forall_take _ j line Hline) as Htake.
    assert (E1 : grep_lines (length (take j line)) pattern (take j line) = ([], take j line)).
    { destruct (length (take j line)); [reflexivity|]. cbn [grep_lines].
      rewrite (proj1 (Hnul _ Htake)), (Hnone _ Htake). reflexivity. }
    rewrite E1. rewrite bool_decide_eq_true_2 by reflexivity. cbn [app length].
    rewrite drop_app_le by lia. rewrite length_app, length_drop. cbn [length].
    rewrite (Nat.min_r (S (length line))) by lia. rewrite Nat.min_l by lia.
    rewrite (proj2 (Nat.eqb_neq (length line - j + 1) 0)) by lia. cbn [app].
    rewrite take_ge by (rewrite length_app, length_drop; cbn; lia).
    rewrite (Hlast _ (Forall_drop _ j line Hline)), Hno. reflexivity.
Qed.

Section Witnesses.
Example match_spec_witness : exists pre s post, str "xabbcy" = pre ++ s ++ post /\ accepts post (items (str "ab*c")) s.
Proof. apply (proj1 (match_spec (str "ab*c") (str "xabbcy"))). reflexivity. Defined.

Example grep_spec_witness : grep [100%nat] (str "b") (str "ab" ++ [NL] ++ str "c" ++ [NL] ++ str "b") = str "ab" ++ [NL].
Proof.
  rewrite (grep_spec (str "b") (str "ab" ++ [NL] ++ str "c" ++ [NL] ++ str "b") 100).
  - reflexivity.
  - cbn. lia.
  - cbn. unfold BUFSZ. lia.
  - repeat constructor; discriminate.
Defined.

Example grep_short_read_witness : grep [4%nat] (str "ab") (str "abc" ++ [NL]) = str "abc" ++ [NL] /\
  grep [2%nat; 4%nat] (str "ab") (str "abc" ++ [NL]) = [].
Proof.
  apply (grep_short_read (str "ab") (str "abc") 2).
  - repeat constructor; discriminate.
  - cbn. lia.
  - cbn. unfold BUFSZ. lia.
  - reflexivity.
  - reflexivity.
Defined.
End Witnesses.
