(* ===== verification/Shell.v ===== *)
(** * The shell

    [src/homeworks/xv6-public/sh.c].  The command line is an array of bytes
    [b] followed by NULs; pointers into it are offsets, and [es] is its
    length.  The parser is a state transformer of the current offset.
    Allocation is [malloc()] of a node, which the model takes to succeed.
    The proofs are in [ShellProofs.v]. *)
From S2P Require Import Prelude.
From S2P Require Import Ulib.

Definition MAXARGS : nat := 10.
Definition O_RDONLY : Z := 0x000.
Definition O_WRONLY : Z := 0x001.
Definition O_RDWR : Z := 0x002.
Definition O_CREATE : Z := 0x200.

(** struct cmd and its variants; a string is a [W]. *)
Inductive cmd (W : Type) : Type :=
| EXEC (argv : list W)
| REDIR (c : cmd W) (file : W) (mode fd : Z)
| PIPE (left right : cmd W)
| LIST (left right : cmd W)
| BACK (c : cmd W).
Arguments EXEC {W} _.
Arguments REDIR {W} _ _ _ _.
Arguments PIPE {W} _ _.
Arguments LIST {W} _ _.
Arguments BACK {W} _.

(** A counted string: the pointers [q] and [eq]. *)
Definition span : Type := nat * nat.

(** ** Tokens *)

(** [strchr(whitespace, c)] and [strchr(symbols, c)] *)
Definition whitespace (c : Z) : bool := bool_decide (c ∈ str " " ++ [9; 13; 10; 11]).
Definition symbols (c : Z) : bool := bool_decide (c ∈ str "<|>&;()").

Inductive tok : Type := TEnd | TSym (c : Z) | TApp (* '+' for >> *) | TWord.

Section Parse.
Variable b : list Z.
#[local] Abbreviation es := (length b).

(** [*s] *)
Definition at_ (s : nat) : Z := nth s b 0.

(** [while(s < es && p( *s)) s++] *)
Fixpoint skip_while (n : nat) (p : Z -> bool) (s : nat) : nat :=
  match n with
  | O => s
  | S n' => if p (at_ s) then skip_while n' p (S s) else s
  end.
Definition skip (p : Z -> bool) (s : nat) : nat := skip_while (es - s) p s.

(** The token at [s], and the offset behind it. *)
Definition scan (s : nat) : tok * nat :=
  let c := at_ s in
  if c =? 0 then (TEnd, s)
  else if bool_decide (c ∈ str "|();&<") then (TSym c, S s)
  else if bool_decide (c ∈ str ">") then
    if bool_decide (at_ (S s) ∈ str ">") then (TApp, S (S s)) else (TSym c, S s)
  else (TWord, skip (fun c => negb (whitespace c) && negb (symbols c)) s).

(** gettoken(): the token and its string. *)
Definition gettoken : M nat (tok * span) :=
  let! s := get id in
  let q := skip whitespace s in
  let '(t, eq) := scan q in
  modify (fun _ => skip whitespace eq) ;!
  ret (t, (q, eq)).

(** [*s && strchr(toks, *s)] behind the white space *)
Definition peek (toks : list Z) : M nat bool :=
  modify (skip whitespace) ;!
  let! s := get id in
  ret (negb (at_ s =? 0) && bool_decide (at_ s ∈ toks)).

(** ** The parser *)

Fixpoint parseredirs (fuel : nat) (c : cmd span) : M nat (cmd span) :=
  let! more := peek (str "<>") in
  if more : bool then
    match fuel with
    | O => halt NoFuel
    | S fuel' =>
        let! t := gettoken in
        let! w := gettoken in
        match fst w with
        | TWord =>
            let c' := match fst t with
                      | TSym x => if bool_decide (x ∈ str "<") then REDIR c (snd w) O_RDONLY 0
                                  else if bool_decide (x ∈ str ">") then REDIR c (snd w) (Z.lor O_WRONLY O_CREATE) 1
                                  else c
                      | TApp => REDIR c (snd w) (Z.lor O_WRONLY O_CREATE) 1
                      | _ => c
                      end in
            parseredirs fuel' c'
        | _ => panic "missing file for redirection"
        end
    end
  else ret c.

(** [argv] is stored into the EXEC node, which redirections may enclose. *)
Fixpoint set_argv (c : cmd span) (argv : list span) : cmd span :=
  match c with
  | EXEC _ => EXEC argv
  | REDIR c' f mode fd => REDIR (set_argv c' argv) f mode fd
  | _ => c
  end.

(** The loop of parseexec(). *)
Fixpoint parseargs (fuel : nat) (argv : list span) (r : cmd span) : M nat (cmd span) :=
  let! stop := peek (str "|)&;") in
  if stop : bool then ret (set_argv r argv) else
  match fuel with
  | O => halt NoFuel
  | S fuel' =>
      let! t := gettoken in
      match fst t with
      | TEnd => ret (set_argv r argv)
      | TWord =>
          let argv := argv ++ [snd t] in
          panic_if (MAXARGS <=? length argv)%nat "too many args" ;!
          let! r := parseredirs fuel' r in
          parseargs fuel' argv r
      | _ => panic "syntax"
      end
  end.

(** [while(peek(ps, es, "&"))] of parseline() *)
Fixpoint parsebacks (fuel : nat) (c : cmd span) : M nat (cmd span) :=
  let! more := peek (str "&") in
  if more : bool then
    match fuel with
    | O => halt NoFuel
    | S fuel' => let! _ := gettoken in parsebacks fuel' (BACK c)
    end
  else ret c.

Fixpoint parseline (fuel : nat) : M nat (cmd span) :=
  match fuel with
  | O => halt NoFuel
  | S fuel' =>
      let! c := parsepipe fuel' in
      let! c := parsebacks fuel' c in
      let! more := peek (str ";") in
      if more : bool then
        let! _ := gettoken in
        let! r := parseline fuel' in
        ret (LIST c r)
      else ret c
  end
with parsepipe (fuel : nat) : M nat (cmd span) :=
  match fuel with
  | O => halt NoFuel
  | S fuel' =>
      let! c := parseexec fuel' in
      let! more := peek (str "|") in
      if more : bool then
        let! _ := gettoken in
        let! r := parsepipe fuel' in
        ret (PIPE c r)
      else ret c
  end
with parseexec (fuel : nat) : M nat (cmd span) :=
  match fuel with
  | O => halt NoFuel
  | S fuel' =>
      let! block := peek (str "(") in
      if block : bool then parseblock fuel'
      else
        let! r := parseredirs fuel' (EXEC []) in
        parseargs fuel' [] r
  end
with parseblock (fuel : nat) : M nat (cmd span) :=
  match fuel with
  | O => halt NoFuel
  | S fuel' =>
      let! open := peek (str "(") in
      panic_if (negb open) "parseblock" ;!
      let! _ := gettoken in
      let! c := parseline fuel' in
      let! close := peek (str ")") in
      panic_if (negb close) "syntax - missing )" ;!
      let! _ := gettoken in
      parseredirs fuel' c
  end.

(** The depth of the recursion is at most four calls for each byte. *)
Definition parse_fuel : nat := 4 * es + 4.

Definition parse_line : M nat (cmd span) :=
  let! c := parseline parse_fuel in
  let! _ := peek [] in
  let! s := get id in
  panic_if (negb (s =? es)%nat) "syntax" ;!
  ret c.
End Parse.

(** [*eq = 0] for every counted string. *)
Fixpoint nulterminate (c : cmd span) (b : list Z) : list Z :=
  match c with
  | EXEC argv => fold_left (fun b w => <[snd w := 0]> b) argv b
  | REDIR c' f _ _ => <[snd f := 0]> (nulterminate c' b)
  | PIPE l r | LIST l r => nulterminate r (nulterminate l b)
  | BACK c' => nulterminate c' b
  end.

(** The C string at an offset. *)
Definition c_str (b : list Z) (s : nat) : list Z := until_nul (drop s b).
Fixpoint strings (b : list Z) (c : cmd span) : cmd (list Z) :=
  match c with
  | EXEC argv => EXEC (map (fun w => c_str b (fst w)) argv)
  | REDIR c' f mode fd => REDIR (strings b c') (c_str b (fst f)) mode fd
  | PIPE l r => PIPE (strings b l) (strings b r)
  | LIST l r => LIST (strings b l) (strings b r)
  | BACK c' => BACK (strings b c')
  end.

(** parsecmd(): the command with the strings its pointers stand for. *)
Definition parsecmd (b : list Z) : res nat (cmd (list Z)) :=
  match parse_line b O with
  | Ret c s => Ret (strings (nulterminate c b) c) s
  | Stop w s => Stop w s
  end.

(** ** Running commands *)

(** The system calls of a process, with what it does next. *)
Inductive prog : Type :=
| Exit
| Close (fd : Z) (k : prog)
| Open (file : list Z) (mode : Z) (k : Z -> prog)
| Dup (fd : Z) (k : prog)
| Dup2 (fd new : Z) (k : prog)          (* not of xv6: the shell of homework 2 *)
| Pipe (k : Z -> Z -> Z -> prog)        (* the result, p[0], p[1] *)
| Fork (k : Z -> prog)
| Wait (k : prog)
| Exec (argv : list (list Z)) (k : prog) (* returns only when it fails *)
| Chdir (dir : list Z) (k : Z -> prog)
| Print (fd : Z) (msg : list Z) (k : prog).

Definition sh_panic (msg : string) : prog := Print 2 (str msg ++ [10]) Exit.
Definition fork1 (k : Z -> prog) : prog := Fork (fun pid => if pid =? -1 then sh_panic "fork" else k pid).

Fixpoint runcmd (c : cmd (list Z)) : prog :=
  match c with
  | EXEC [] => Exit
  | EXEC (a :: argv) => Exec (a :: argv) (Print 2 (str "exec " ++ a ++ str " failed" ++ [10]) Exit)
  | REDIR c' file mode fd =>
      Close fd (Open file mode (fun r =>
        if r <? 0 then Print 2 (str "open " ++ file ++ str " failed" ++ [10]) Exit else runcmd c'))
  | LIST l r => fork1 (fun pid => if pid =? 0 then runcmd l else Wait (runcmd r))
  | PIPE l r =>
      Pipe (fun e p0 p1 =>
        if e <? 0 then sh_panic "pipe" else
        fork1 (fun pid =>
          if pid =? 0 then Close 1 (Dup p1 (Close p0 (Close p1 (runcmd l)))) else
          fork1 (fun pid =>
            if pid =? 0 then Close 0 (Dup p0 (Close p0 (Close p1 (runcmd r)))) else
            Close p0 (Close p1 (Wait (Wait Exit))))))
  | BACK c' => fork1 (fun pid => if pid =? 0 then runcmd c' else Exit)
  end.

(** getcmd(): the line, none at the end of the input. *)
Definition getcmd (nbuf : Z) (input : list Z) : option (list Z) * list Z :=
  let '(buf, rest) := gets nbuf input in
  match until_nul buf with
  | [] => (None, rest)
  | line => (Some line, rest)
  end.

(** [runcmd(parsecmd(buf))] in the child; the text behind a complete
    command that parsecmd() prints before its panic() is left out. *)
Definition child (line : list Z) : prog :=
  match parsecmd line with
  | Ret c _ => runcmd c
  | Stop (Panicked msg) _ => sh_panic msg
  | Stop _ _ => Exit
  end.

(** [buf[0] == 'c' && buf[1] == 'd' && buf[2] == ' '] *)
Definition is_cd (line : list Z) : bool :=
  match line with
  | c :: d :: s :: _ => (c =? 99) && (d =? 100) && (s =? 32)
  | _ => false
  end.
Definition main_line (line : list Z) (next : prog) : prog :=
  if is_cd line then
    let dir := drop 3 (take (length line - 1) line) in  (* chop \n *)
    Chdir dir (fun r => if r <? 0 then Print 2 (str "cannot cd " ++ dir ++ [10]) next else next)
  else fork1 (fun pid => if pid =? 0 then child line else Wait next).
Fixpoint main_loop (fuel : nat) (input : list Z) : prog :=
  match fuel with
  | O => Exit
  | S fuel' =>
      Print 2 (str "$ ")
        (match getcmd 100 input with
         | (None, _) => Exit
         | (Some line, rest) => main_line line (main_loop fuel' rest)
         end)
  end.
(** Three file descriptors are opened; open() returns the lowest free one,
    so it is called at most four times. *)
Fixpoint open_console (fuel : nat) (next : prog) : prog :=
  match fuel with
  | O => next
  | S fuel' => Open (str "console") O_RDWR (fun fd =>
      if 0 <=? fd then if 3 <=? fd then Close fd next else open_console fuel' next else next)
  end.
(** The shell on an input; every line takes at least one byte. *)
Definition main (input : list Z) : prog := open_console 4 (main_loop (S (length input)) input).
