(* ===== verification/ShellProofs.v ===== *)
(** * The shell's parser is total, and inverts a printer of commands *)
From S2P Require Import Prelude.
From S2P Require Import Ulib.
From S2P Require Import Shell.

#[local] Open Scope nat_scope.

Section Total.
Variable b : list Z.
#[local] Abbreviation es := (length b).

(** ** Termination *)

(** The ways the parser gives up. *)
Definition syntax_error (w : stop) : Prop :=
  w ∈ [Panicked "missing file for redirection"; Panicked "too many args"; Panicked "syntax";
       Panicked "parseblock"; Panicked "syntax - missing )"].

(** From [s], the parser ends in a state satisfying [Q], or gives up. *)
Definition safe {A} (m : M nat A) (Q : A -> nat -> Prop) (s : nat) : Prop :=
  match m s with Ret a s' => Q a s' | Stop w _ => syntax_error w end.

Lemma safe_bind {A B} (m : M nat A) (k : A -> M nat B) P Q s :
  safe m P s -> (forall a s', P a s' -> safe (k a) Q s') -> safe (bind m k) Q s.
Proof. unfold safe, bind. destruct (m s) as [a s'|w s']; [|auto]. intros H1 H2. apply H2, H1. Qed.
Lemma safe_panic_if {B} bad msg (k : M nat B) Q s : syntax_error (Panicked msg) ->
  (bad = false -> safe k Q s) -> safe (panic_if bad msg ;! k) Q s.
Proof. intros H H'. destruct bad; [exact H | apply H'; reflexivity]. Qed.

Lemma skip_while_bound p : forall n s, s <= skip_while b n p s <= s + n.
Proof. induction n as [|n IH]; intros s; cbn; [lia|]. destruct (p _); [specialize (IH (S s))|]; lia. Qed.
Lemma skip_bound p s : s <= es -> s <= skip b p s <= es.
Proof. intros H. unfold skip. pose proof (skip_while_bound p (es - s) s). lia. Qed.
Lemma skip_while_stops p : forall n s, skip_while b n p s = s + n \/ p (at_ b (skip_while b n p s)) = false.
Proof.
  induction n as [|n IH]; intros s; cbn; [left; lia|]. destruct (p (at_ b s)) eqn:E; [|auto].
  destruct (IH (S s)); [left; lia | auto].
Qed.
Lemma at_end s : es <= s -> at_ b s = 0%Z.
Proof. intros H. unfold at_. apply nth_overflow. exact H. Qed.
Lemma at_inside s : at_ b s <> 0%Z -> s < es.
Proof. intros H. destruct (decide (s < es)); [auto|]. destruct H. apply at_end. lia. Qed.
Lemma skip_stops s : s <= es -> whitespace (at_ b (skip b whitespace s)) = false.
Proof.
  intros H. unfold skip. destruct (skip_while_stops whitespace (es - s) s) as [E|E]; [|exact E].
  rewrite E, at_end by lia. reflexivity.
Qed.
Lemma skip_advances p s : s < es -> p (at_ b s) = true -> s < skip b p s.
Proof.
  intros H E. unfold skip. destruct (es - s) as [|n] eqn:En; [lia|]. cbn. rewrite E.
  pose proof (skip_while_bound p n (S s)). lia.
Qed.

Lemma symbols_of c : c ∉ str "|();&<" -> c ∉ str ">" -> symbols c = false.
Proof. intros H1 H2. apply bool_decide_eq_false. clear -H1 H2. cbn in *. set_solver. Qed.

(** Every token but the last one takes at least one byte. *)
Lemma scan_bound s : s <= es -> whitespace (at_ b s) = false ->
  let '(t, e) := scan b s in s <= e <= es /\ (t <> TEnd -> s < e).
Proof.
  intros H W. unfold scan. destruct (Z.eqb_spec (at_ b s) 0) as [E|E]; [split; [lia|congruence]|].
  pose proof (at_inside s E) as Hs.
  case_bool_decide as E1; [lia|]. case_bool_decide as E2.
  - case_bool_decide as E3; [|lia].
    assert (S s < es); [|lia]. apply at_inside. intros E0. rewrite E0 in E3. clear -E3. cbn in E3. set_solver.
  - set (p := fun c => _). pose proof (skip_bound p s H). split; [lia|]. intros _.
    apply skip_advances; [exact Hs|]. unfold p. rewrite W, symbols_of by assumption. reflexivity.
Qed.

Lemma gettoken_safe s : s <= es ->
  safe (gettoken b) (fun t s' => s <= s' <= es /\ (fst t <> TEnd -> s < s')) s.
Proof.
  intros H. unfold safe, gettoken, get, modify, ret, bind, id. 
  pose proof (skip_bound whitespace s H) as Hq. pose proof (skip_stops s H) as W.
  pose proof (scan_bound _ (proj2 Hq) W) as Hs. destruct (scan b _) as [t e]. destruct Hs as [He Ht].
  pose proof (skip_bound whitespace e (proj2 He)). cbn. split; [lia|]. intros Hn. specialize (Ht Hn). lia.
Qed.

(** A token announced by peek() is there for gettoken() to take. *)
Lemma peek_gettoken toks s : s <= es ->
  safe (peek b toks) (fun more s' => s <= s' <= es /\
    (more = true -> safe (gettoken b) (fun _ s2 => s < s2 <= es) s')) s.
Proof.
  intros H. unfold safe at 1, peek, get, modify, ret, bind, id.
  pose proof (skip_bound whitespace s H) as Hq. pose proof (skip_stops s H) as W.
  set (q := skip b whitespace s) in *. split; [lia|]. intros [Hc _]%andb_true_iff.
  pose proof (gettoken_safe q (proj2 Hq)) as Hg. unfold safe in *.
  assert (Ht : forall t s2, gettoken b q = Ret t s2 -> fst t <> TEnd).
  { unfold gettoken, get, modify, ret, bind, id. intros t s2.
    replace (skip b whitespace q) with q.
    - unfold scan. destruct (at_ b q =? 0)%Z; [discriminate|].
      repeat case_bool_decide; intros [= <- <-]; discriminate.
    - unfold skip. destruct (es - q) as [|n]; cbn; [reflexivity|]. rewrite W. reflexivity. }
  destruct (gettoken b q) as [t s2|w s2] eqn:E; [|exact Hg]. specialize (Ht t s2 eq_refl).
  destruct Hg as [Hg Hg']. specialize (Hg' Ht). lia.
Qed.

Ltac safe_peek :=
  eapply safe_bind; [apply peek_gettoken; lia | let more := fresh "more" in intros more s1 [Hs1 Hmore]; destruct more].
Ltac safe_take :=
  match goal with H : true = true -> _ |- _ =>
    eapply safe_bind; [exact (H eq_refl) | intros t s2 Hs2; cbn beta in Hs2]
  end.

Lemma parseredirs_safe : forall fuel c s, s <= es -> es - s <= fuel ->
  safe (parseredirs b fuel c) (fun _ s' => s <= s' <= es) s.
Proof.
  induction fuel as [|fuel IH]; intros c s H Hf; cbn [parseredirs]; safe_peek; try exact Hs1.
  - specialize (Hmore eq_refl). replace s with es in * by lia. unfold safe, gettoken, bind, get, modify, id, ret in Hmore.
    destruct (scan b _). lia.
  - safe_take. eapply safe_bind; [apply gettoken_safe; lia|]. intros w s3 [Hs3 _].
    destruct (fst w); try (unfold safe, panic, halt, syntax_error; clear; set_solver).
    pose proof (IH (match fst t with
                      | TSym x => if bool_decide (x ∈ str "<") then REDIR c (snd w) O_RDONLY 0
                                  else if bool_decide (x ∈ str ">") then REDIR c (snd w) (Z.lor O_WRONLY O_CREATE) 1
                                  else c
                      | TApp => REDIR c (snd w) (Z.lor O_WRONLY O_CREATE) 1
                      | _ => c
                      end) s3 ltac:(lia) ltac:(lia)) as HI.
    unfold safe in *. destruct (parseredirs b fuel _ s3); [lia | exact HI].
Qed.

Lemma safe_weaken {A} (m : M nat A) (P Q : A -> nat -> Prop) s :
  safe m P s -> (forall a s', P a s' -> Q a s') -> safe m Q s.
Proof. unfold safe. destruct (m s); auto. Qed.

Lemma parseargs_safe : forall fuel argv r s, s <= es -> es - s < fuel ->
  safe (parseargs b fuel argv r) (fun _ s' => s <= s' <= es) s.
Proof.
  induction fuel as [|fuel IH]; intros argv r s H Hf; [lia|]. cbn [parseargs]. safe_peek; [exact Hs1|].
  eapply safe_bind; [apply gettoken_safe; lia|]. intros t s2 [Hs2 Ht].
  destruct (fst t) eqn:Et; try (unfold safe, panic, halt, syntax_error; clear; set_solver).
  - unfold safe, ret. lia.
  - specialize (Ht ltac:(discriminate)).
    apply safe_panic_if; [unfold syntax_error; clear; set_solver|]. intros _.
    eapply safe_bind; [apply parseredirs_safe; lia|]. intros r' s3 Hs3. cbn beta in Hs3.
    eapply safe_weaken; [apply IH; lia|]. cbn. intros. lia.
Qed.
Lemma parsebacks_safe : forall fuel c s, s <= es -> es - s <= fuel ->
  safe (parsebacks b fuel c) (fun _ s' => s <= s' <= es) s.
Proof.
  induction fuel as [|fuel IH]; intros c s H Hf; cbn [parsebacks]; safe_peek; try exact Hs1.
  - specialize (Hmore eq_refl). replace s with es in * by lia. unfold safe, gettoken, bind, get, modify, id, ret in Hmore.
    destruct (scan b _). lia.
  - safe_take. eapply safe_weaken; [apply IH; lia|]. cbn. intros. lia.
Qed.

(** The mutual recursion: four calls deep for every byte that is left. *)
Lemma parse_safe : forall fuel s, s <= es ->
  (4 * (es - s) + 4 <= fuel -> safe (parseline b fuel) (fun _ s' => s <= s' <= es) s) /\
  (4 * (es - s) + 3 <= fuel -> safe (parsepipe b fuel) (fun _ s' => s <= s' <= es) s) /\
  (4 * (es - s) + 2 <= fuel -> safe (parseexec b fuel) (fun _ s' => s <= s' <= es) s) /\
  (4 * (es - s) + 1 <= fuel -> safe (parseblock b fuel) (fun _ s' => s <= s' <= es) s).
Proof.
  induction fuel as [|fuel IH]; intros s H; [lia|].
  repeat split; intros Hf; cbn [parseline parsepipe parseexec parseblock].
  - eapply safe_bind; [apply IH; lia|]. intros c s0 Hs0. cbn beta in Hs0.
    eapply safe_bind; [apply parsebacks_safe; lia|]. intros c1 s3 Hs3. cbn beta in Hs3.
    safe_peek; [|unfold safe, ret; lia]. safe_take.
    eapply safe_bind; [apply (IH s2); lia|]. intros r s4 Hs4. cbn beta in Hs4. unfold safe, ret. lia.
  - eapply safe_bind; [apply IH; lia|]. intros c s0 Hs0. cbn beta in Hs0.
    safe_peek; [|unfold safe, ret; lia]. safe_take.
    eapply safe_bind; [apply (IH s2); lia|]. intros r s4 Hs4. cbn beta in Hs4. unfold safe, ret. lia.
  - safe_peek; [eapply safe_weaken; [apply (IH s1); lia|]; cbn; intros; lia|].
    eapply safe_bind; [apply parseredirs_safe; lia|]. intros r s2 Hs2. cbn beta in Hs2.
    eapply safe_weaken; [apply parseargs_safe; lia|]. cbn. intros. lia.
  - safe_peek; (apply safe_panic_if; [unfold syntax_error; clear; set_solver | intros Ho; try discriminate]).
    safe_take. eapply safe_bind; [apply (IH s2); lia|]. intros c s3 Hs3. cbn beta in Hs3.
    eapply safe_bind; [apply peek_gettoken; lia|]. intros close s4 [Hs4 Hclose].
    apply safe_panic_if; [unfold syntax_error; clear; set_solver|]. intros Hc.
    destruct close; [|discriminate].
    eapply safe_bind; [apply Hclose; reflexivity|]. intros t' s5 Hs5. cbn beta in Hs5.
    eapply safe_weaken; [apply parseredirs_safe; lia|]. cbn. intros. lia.
Qed.

Lemma parse_line_safe : safe (parse_line b) (fun _ s' => s' = es) 0.
Proof.
  unfold parse_line. eapply safe_bind; [apply parse_safe; unfold parse_fuel; lia|].
  intros c s Hs. cbn beta in Hs. eapply safe_bind; [apply peek_gettoken; lia|]. intros _ s1 [Hs1 _].
  unfold bind at 1, get, id. apply safe_panic_if; [unfold syntax_error; clear; set_solver|].
  intros E%negb_false_iff%Nat.eqb_eq. exact E.
Qed.
End Total.

(** The recursive-descent parser of the shell terminates on every line,
    whatever its bytes: parseline() either consumes the line to its end or
    calls panic() with one of its five messages.  No other behaviour (an
    endless loop at a token that is not consumed, an access outside the
    line) is possible, and the recursion is at most four calls deep for
    every byte. *)
Theorem parse_line_total (b : list Z) :
  match parse_line b 0 with
  | Ret _ s => s = length b
  | Stop w _ => w ∈ [Panicked "missing file for redirection"; Panicked "too many args"; Panicked "syntax";
                     Panicked "parseblock"; Panicked "syntax - missing )"]
  end.
Proof. exact (parse_line_safe b). Qed.

(** ** A printer of commands *)

(** A word: no white space, no symbol, no NUL. *)
Definition word_char (c : Z) : Prop := c <> 0%Z /\ whitespace c = false /\ symbols c = false.
Definition word (w : list Z) : Prop := w <> [] /\ Forall word_char w.

(** The commands the grammar can express. *)
Fixpoint wf (c : cmd (list Z)) : Prop :=
  match c with
  | EXEC argv => Forall word argv /\ length argv < MAXARGS
  | REDIR c' f mode fd =>
      wf c' /\ word f /\ ((mode, fd) = (O_RDONLY, 0%Z) \/ (mode, fd) = (Z.lor O_WRONLY O_CREATE, 1%Z))
  | PIPE l r | LIST l r => wf l /\ wf r
  | BACK c' => wf c'
  end.

Definition pr_word (w : list Z) : list Z := w ++ [32%Z].
Definition paren (p : bool) (x : list Z) : list Z := if p then str "(" ++ x ++ str ") " else x.
(** The text of a command where a line (0), a command before "&" (1), a
    pipe line (2) or a simple command (3) is expected. *)
Fixpoint pr (lv : nat) (c : cmd (list Z)) : list Z :=
  match c with
  | EXEC argv => concat (map pr_word argv)
  | REDIR c' f _ fd => pr 3 c' ++ (if (fd =? 0)%Z then str "< " else str "> ") ++ pr_word f
  | LIST l r => paren (0 <? lv) (pr 1 l ++ str "; " ++ pr 0 r)
  | BACK c' => paren (1 <? lv) (pr 1 c' ++ str "& ")
  | PIPE l r => paren (2 <? lv) (pr 3 l ++ str "| " ++ pr 2 r)
  end.

(** What the pointers of a parsed command stand for: every string is
    followed by a blank, where nulterminate() puts the NUL. *)
Section Denotes.
Variable b : list Z.
Definition spells (w : span) (x : list Z) : Prop :=
  snd w = fst w + length x /\ exists v, drop (fst w) b = x ++ 32%Z :: v.
Fixpoint denotes (c : cmd span) (d : cmd (list Z)) : Prop :=
  match c, d with
  | EXEC argv, EXEC argv' => Forall2 spells argv argv'
  | REDIR c f m fd, REDIR d x m' fd' => denotes c d /\ spells f x /\ m = m' /\ fd = fd'
  | PIPE l r, PIPE l' r' | LIST l r, LIST l' r' => denotes l l' /\ denotes r r'
  | BACK c, BACK d => denotes c d
  | _, _ => False
  end.
End Denotes.

Section RoundTrip.
Variable b : list Z.
#[local] Abbreviation es := (length b).

(** ** Tokens of a printed line *)

(** What follows is not a blank. *)
Definition solid (v : list Z) : Prop := whitespace (hd 0%Z v) = false.
(** ... but the end, or one of the symbols [toks]. *)
Definition ends (toks : string) (v : list Z) : Prop :=
  v = [] \/ (hd 0%Z v <> 0%Z /\ bool_decide (hd 0%Z v ∈ str toks) = true).

Lemma at_hd s v : drop s b = v -> at_ b s = hd 0%Z v.
Proof.
  intros <-. unfold at_. revert s. induction b as [|x l IH]; intros [|s]; try reflexivity. apply IH.
Qed.
Lemma drop_past s u v : drop s b = u ++ v -> drop (s + length u) b = v.
Proof. intros E. rewrite <- drop_drop, E. apply drop_app_length. Qed.
Lemma left_length s v : drop s b = v -> es - s = length v.
Proof. intros <-. rewrite length_drop. reflexivity. Qed.

Lemma skip_over p u v : Forall (fun c => p c = true) u -> (v = [] \/ p (hd 0%Z v) = false) ->
  forall s, drop s b = u ++ v -> skip b p s = s + length u.
Proof.
  intros Hu Hv. unfold skip. induction Hu as [|c u Hc Hu IH]; intros s E.
  - cbn [app] in E. rewrite (left_length s v E). destruct Hv as [->|Hv]; cbn [length skip_while]; [lia|].
    destruct v; cbn [length skip_while]; [lia|]. rewrite (at_hd _ _ E), Hv. cbn. lia.
  - rewrite (left_length s _ E). cbn [app length skip_while]. rewrite (at_hd _ _ E). cbn [hd app]. rewrite Hc.
    assert (E1 : drop (S s) b = u ++ v).
    { replace (S s) with (s + length [c]) by (cbn; lia). apply drop_past. exact E. }
    specialize (IH _ E1). rewrite (left_length _ _ E1) in IH. rewrite IH. cbn. lia.
Qed.
Lemma skip_solid s v : drop s b = v -> solid v -> skip b whitespace s = s.
Proof. intros E H. rewrite (skip_over whitespace [] v); [cbn; lia | constructor | auto | exact E]. Qed.

Lemma peek_at (toks : list Z) s v : drop s b = v -> solid v ->
  peek b toks s = Ret (negb (hd 0%Z v =? 0)%Z && bool_decide (hd 0%Z v ∈ toks)) s.
Proof.
  intros E H. unfold peek, modify, get, bind, ret, id. rewrite (skip_solid s v E H), (at_hd s v E). reflexivity.
Qed.

(** A symbol and the blank behind it. *)
Lemma gettoken_symbol x s v : bool_decide (x ∈ str "|();&<>") = true ->
  drop s b = x :: 32%Z :: v -> solid v ->
  exists w, gettoken b s = Ret (TSym x, w) (s + 2).
Proof.
  intros Hx E Hv. assert (Hs : solid (x :: 32%Z :: v)).
  { apply bool_decide_eq_true in Hx. unfold solid. cbn in *.
    repeat (apply elem_of_cons in Hx as [->|Hx]; [reflexivity|]). apply elem_of_nil in Hx. destruct Hx. }
  unfold gettoken, modify, get, bind, ret, id. rewrite (skip_solid s _ E Hs).
  assert (E1 : drop (S s) b = 32%Z :: v) by (replace (S s) with (s + length [x]) by (cbn; lia); apply drop_past, E).
  assert (Es : scan b s = (TSym x, S s)).
  { unfold scan. rewrite (at_hd s _ E), (at_hd (S s) _ E1). cbn [hd].
    apply bool_decide_eq_true in Hx. cbn in Hx.
    repeat (apply elem_of_cons in Hx as [->|Hx]; [reflexivity|]). apply elem_of_nil in Hx. destruct Hx. }
  rewrite Es. exists (s, S s). f_equal.
  rewrite (skip_over whitespace [32%Z] v); [cbn; lia | repeat constructor | right; exact Hv | exact E1].
Qed.
(** The opening parenthesis has no blank behind it. *)
Lemma gettoken_open s v : drop s b = 40%Z :: v -> solid v -> exists w, gettoken b s = Ret (TSym 40, w) (s + 1).
Proof.
  intros E Hv. unfold gettoken, modify, get, bind, ret, id. rewrite (skip_solid s _ E) by reflexivity.
  assert (E1 : drop (S s) b = v) by (replace (S s) with (s + length [40%Z]) by (cbn; lia); apply drop_past, E).
  assert (Es : scan b s = (TSym 40, S s)) by (unfold scan; rewrite (at_hd s _ E); reflexivity).
  rewrite Es, (skip_solid _ v E1 Hv). exists (s, S s). f_equal. lia.
Qed.

Lemma word_solid w v : word w -> solid (w ++ v).
Proof. intros [Hn Hw]. destruct w; [congruence|]. inversion Hw as [|? ? (_ & H & _)]. exact H. Qed.
Lemma word_other w v (toks : list Z) : word w -> (forall c, c ∈ toks -> symbols c = true) ->
  bool_decide (hd 0%Z (w ++ v) ∈ toks) = false.
Proof.
  intros [Hn Hw] Ht. destruct w as [|c w]; [congruence|]. inversion Hw as [|? ? (_ & _ & H)]. cbn.
  apply bool_decide_eq_false. intros Hc. apply Ht in Hc. congruence.
Qed.
Lemma symbols_sub (l : list Z) : forallb symbols l = true -> forall c, c ∈ l -> symbols c = true.
Proof. intros H c Hc. eapply forallb_forall; [exact H|]. apply list_elem_of_In. exact Hc. Qed.

Lemma gettoken_word x s v : word x -> drop s b = pr_word x ++ v -> solid v ->
  gettoken b s = Ret (TWord, (s, s + length x)) (s + length (pr_word x)).
Proof.
  intros Hx E Hv. unfold pr_word in *. rewrite <- app_assoc in E.
  unfold gettoken, modify, get, bind, ret, id. rewrite (skip_solid s _ E) by (apply word_solid; exact Hx).
  assert (Es : scan b s = (TWord, s + length x)).
  { unfold scan. rewrite (at_hd s _ E).
    rewrite 2(word_other x) by (auto; apply symbols_sub; reflexivity).
    assert (hd 0%Z (x ++ [32%Z] ++ v) <> 0%Z) as ->%Z.eqb_neq.
    { destruct Hx as [Hn Hw]. destruct x; [congruence|]. inversion Hw as [|? ? (H & _)]. exact H. }
    rewrite (skip_over (fun c => negb (whitespace c) && negb (symbols c)) x ([32%Z] ++ v)); [reflexivity| |right; reflexivity|exact E].
    eapply Forall_impl; [exact (proj2 Hx)|]. intros c (_ & -> & ->). reflexivity. }
  rewrite Es. f_equal. apply drop_past in E.
  rewrite (skip_over whitespace [32%Z] v); [rewrite length_app; cbn; lia | repeat constructor | right; exact Hv | exact E].
Qed.

(** ** What peek() sees *)

Lemma ends_weaken T T' v : forallb (fun c => bool_decide (c ∈ str T')) (str T) = true -> ends T v -> ends T' v.
Proof.
  intros H [->|[Hz Hv]]; [left; reflexivity|]. right. split; [exact Hz|].
  rewrite forallb_forall in H. apply H, list_elem_of_In. apply bool_decide_eq_true in Hv. exact Hv.
Qed.
Lemma ends_solid T v : forallb (fun c => negb (whitespace c)) (str T) = true -> ends T v -> solid v.
Proof.
  intros H [->|[Hz Hv]]; [reflexivity|]. apply bool_decide_eq_true, list_elem_of_In in Hv.
  rewrite forallb_forall in H. apply H in Hv. unfold solid. destruct (whitespace _); [discriminate | reflexivity].
Qed.
Lemma peek_ends T toks s v : forallb (fun c => negb (whitespace c || bool_decide (c ∈ str toks))) (str T) = true ->
  drop s b = v -> ends T v -> peek b (str toks) s = Ret false s.
Proof.
  intros H E Hv. rewrite forallb_forall in H. assert (solid v) as Hs.
  { apply (ends_solid T); [|exact Hv]. apply forallb_forall. intros c Hc. apply H in Hc.
    destruct (whitespace c); [discriminate | reflexivity]. }
  rewrite (peek_at _ _ v E Hs). f_equal. destruct Hv as [->|[Hz Hv]]; [reflexivity|].
  apply bool_decide_eq_true, list_elem_of_In, H in Hv.
  destruct (bool_decide (_ ∈ str toks)); [rewrite orb_true_r in Hv; discriminate | apply andb_false_r].
Qed.
Lemma peek_word toks s x v : forallb symbols toks = true -> word x -> drop s b = x ++ v ->
  peek b toks s = Ret false s.
Proof.
  intros H Hx E. rewrite (peek_at _ _ _ E) by (apply word_solid; exact Hx).
  rewrite (word_other x v) by (auto; apply symbols_sub; exact H). rewrite andb_false_r. reflexivity.
Qed.
Lemma peek_symbol toks s c v : negb (c =? 0)%Z && negb (whitespace c) && bool_decide (c ∈ str toks) = true ->
  drop s b = c :: v -> peek b (str toks) s = Ret true s.
Proof.
  intros [[Hz Hw]%andb_true_iff Hc]%andb_true_iff E.
  rewrite (peek_at _ _ _ E); cbn [hd]; [rewrite Hz, Hc; reflexivity|].
  unfold solid. cbn. destruct (whitespace c); [discriminate | reflexivity].
Qed.
Lemma gettoken_end s : drop s b = [] -> gettoken b s = Ret (TEnd, (s, s)) s.
Proof.
  intros E. unfold gettoken, modify, get, bind, ret, id. rewrite (skip_solid s _ E) by reflexivity.
  assert (scan b s = (TEnd, s)) as -> by (unfold scan; rewrite (at_hd s _ E); reflexivity).
  rewrite (skip_solid s _ E) by reflexivity. reflexivity.
Qed.

Lemma words_solid ws v : Forall word ws -> solid v -> solid (concat (map pr_word ws) ++ v).
Proof.
  destruct ws as [|w ws]; [auto|]. intros H _. inversion H as [|? ? Hw]. subst. cbn.
  unfold pr_word. rewrite <- !app_assoc. apply word_solid. exact Hw.
Qed.
Lemma pr_solid c : wf c -> forall lv v, solid v -> solid (pr lv c ++ v).
Proof.
  induction c as [argv|c IH f m fd|l IHl r _|l IHl r _|c IH]; cbn [pr wf]; intros Hw lv v Hv.
  - apply words_solid; tauto.
  - rewrite <- app_assoc. apply IH; [tauto|]. destruct (fd =? 0)%Z; reflexivity.
  - destruct (2 <? lv); [reflexivity|]. cbn [paren]. rewrite <- app_assoc. apply IHl; [tauto | reflexivity].
  - destruct (0 <? lv); [reflexivity|]. cbn [paren]. rewrite <- app_assoc. apply IHl; [tauto | reflexivity].
  - destruct (1 <? lv); [reflexivity|]. cbn [paren]. rewrite <- app_assoc. apply IH; [tauto | reflexivity].
Qed.

(** ** The parser on a printed command *)

Definition line_ok (c : cmd (list Z)) : Prop := forall s v fuel,
  drop s b = pr 0 c ++ v -> ends ")" v -> 4 * (es - s) + 4 <= fuel ->
  exists c', parseline b fuel s = Ret c' (s + length (pr 0 c)) /\ denotes b c' c.
Definition pipe_ok (c : cmd (list Z)) : Prop := forall s v fuel,
  drop s b = pr 2 c ++ v -> ends ")&;" v -> 4 * (es - s) + 3 <= fuel ->
  exists c', parsepipe b fuel s = Ret c' (s + length (pr 2 c)) /\ denotes b c' c.
(** Up to the next '&', which belongs to a larger command or to this one. *)
Definition back_ok (c : cmd (list Z)) : Prop := forall s v fuel k,
  drop s b = pr 1 c ++ v -> ends ")&;" v -> 4 * (es - s) + 3 <= fuel -> es - s <= k ->
  exists c' k', (let! c := parsepipe b fuel in parsebacks b k c) s = parsebacks b k' c' (s + length (pr 1 c)) /\
    es - (s + length (pr 1 c)) <= k' /\ denotes b c' c.
(** Up to a redirection: what is left to do is [G], which ends with [fix]. *)
Definition exec_ok (c : cmd (list Z)) : Prop := forall s v fuel,
  drop s b = pr 3 c ++ v -> ends "<>|)&;" v -> 4 * (es - s) + 2 <= fuel ->
  exists c' f (G : cmd span -> M nat (cmd span)) (fx : cmd span -> cmd span),
    parseexec b fuel s = (let! r := parseredirs b f c' in G r) (s + length (pr 3 c)) /\
    es - (s + length (pr 3 c)) < f /\ denotes b (fx c') c /\
    (forall r w m fd, fx (REDIR r w m fd) = REDIR (fx r) w m fd) /\
    (forall r s' v', drop s' b = v' -> ends "|)&;" v' -> G r s' = Ret (fx r) s').

Lemma parseredirs_done f c s v T : forallb (fun c => negb (whitespace c || bool_decide (c ∈ str "<>"))) (str T) = true ->
  drop s b = v -> ends T v -> parseredirs b f c s = Ret c s.
Proof. intros H E Hv. destruct f; cbn [parseredirs]; step by (apply (peek_ends T _ _ v H E Hv)); reflexivity. Qed.
Lemma parseargs_done f argv r s v : drop s b = v -> ends "|)&;" v -> parseargs b (S f) argv r s = Ret (set_argv r argv) s.
Proof.
  intros E Hv. cbn [parseargs]. destruct Hv as [Hv|[Hz Hv]].
  - step by (apply (peek_ends "" _ _ v); [reflexivity | exact E | left; exact Hv]).
    subst v. step by (apply gettoken_end; exact Hv). reflexivity.
  - destruct v as [|c v]; [cbn in Hz; lia|].
    assert (negb (c =? 0)%Z && negb (whitespace c) && bool_decide (c ∈ str "|)&;") = true) as Hp.
    { cbn [hd] in *. apply bool_decide_eq_true in Hv. cbn in Hv.
      repeat (apply elem_of_cons in Hv as [->|Hv]; [reflexivity|]). apply elem_of_nil in Hv. destruct Hv. }
    step by (exact (peek_symbol _ _ c v Hp E)). reflexivity.
Qed.

Lemma spells_word x s v : drop s b = pr_word x ++ v -> spells b (s, s + length x) x.
Proof. intros E. split; [reflexivity|]. exists v. cbn [fst]. rewrite E. unfold pr_word. rewrite <- app_assoc. reflexivity. Qed.

Lemma peek_pr_word toks s x v : forallb symbols toks = true -> word x -> drop s b = pr_word x ++ v ->
  peek b toks s = Ret false s.
Proof. intros H Hx E. unfold pr_word in E. rewrite <- app_assoc in E. exact (peek_word _ _ _ _ H Hx E). Qed.
Lemma parseredirs_word f c s x v : word x -> drop s b = pr_word x ++ v -> parseredirs b f c s = Ret c s.
Proof. intros Hx E. destruct f; cbn [parseredirs]; step by (apply (peek_pr_word _ _ x v); [reflexivity | exact Hx | exact E]); reflexivity. Qed.

Lemma parseargs_words : forall ws argv r s v fuel, Forall word ws -> ws <> [] ->
  length argv + length ws < MAXARGS ->
  drop s b = concat (map pr_word ws) ++ v -> solid v -> es - s < fuel ->
  exists spans f, Forall2 (spells b) spans ws /\ es - (s + length (concat (map pr_word ws))) < f /\
    parseargs b fuel argv r s =
    (let! r := parseredirs b f r in parseargs b f (argv ++ spans) r) (s + length (concat (map pr_word ws))).
Proof.
  induction ws as [|x ws IH]; intros argv r s v fuel Hw Hn Hl E Hv Hf; [congruence|].
  inversion Hw as [|? ? Hx Hws]; subst. cbn [map concat] in *. rewrite <- app_assoc in E.
  destruct fuel as [|fuel]; [lia|]. cbn [parseargs].
  pose proof (words_solid ws v Hws Hv) as Hv'.
  assert (Hxl : 2 <= length (pr_word x)).
  { unfold pr_word. rewrite length_app. destruct Hx as [Hx _]. destruct x; [congruence|]. cbn. lia. }
  step by (eapply (peek_pr_word _ _ x); [reflexivity | exact Hx | exact E]).
  step by (apply (gettoken_word x _ _ Hx E Hv')). cbn [fst snd].
  cbn [length] in Hl. step by (apply panic_if_false, Nat.leb_gt; rewrite length_app; cbn [length]; lia).
  pose proof (drop_past _ _ _ E) as E1. pose proof (left_length _ _ E) as L. rewrite length_app in L.
  pose proof (left_length _ _ E1) as L1.
  destruct ws as [|y ws].
  - exists [(s, s + length x)], fuel. cbn [map concat]. rewrite app_nil_r. repeat split.
    + repeat constructor. apply (spells_word _ _ _ E).
    + lia.
  - inversion Hws as [|? ? Hy Hws']; subst.
    step by (eapply (parseredirs_word _ _ _ y _ Hy); rewrite E1; cbn [map concat]; rewrite <- app_assoc; reflexivity).
    destruct (IH (argv ++ [(s, s + length x)]) r (s + length (pr_word x)) v fuel Hws ltac:(discriminate)
      ltac:(rewrite length_app; cbn [length] in *; lia) E1 Hv ltac:(lia)) as (spans & f & Hs & Hf' & IHeq).
    exists ((s, s + length x) :: spans), f. rewrite length_app, Nat.add_assoc.
    repeat split; [constructor; [apply (spells_word _ _ _ E) | exact Hs] | exact Hf'|].
    rewrite <- app_assoc in IHeq. exact IHeq.
Qed.

(** ** From one level to the next *)

Ltac weaken := match goal with H : ends _ ?v |- ends _ ?v => eapply ends_weaken; [|exact H]; reflexivity end.

Lemma exec_argv argv : wf (EXEC argv) -> exec_ok (EXEC argv).
Proof.
  intros [Hw Hl] s v fuel E Hv Hf. cbn [pr] in *. pose proof (ends_solid "<>|)&;" v eq_refl Hv) as Hs.
  pose proof (left_length _ _ E) as L. rewrite length_app in L. pose proof (left_length _ _ (drop_past _ _ _ E)) as L1.
  destruct fuel as [|fuel]; [lia|]. cbn [parseexec]. destruct argv as [|x argv].
  - exists (EXEC []), fuel, (parseargs b fuel []), (fun r => set_argv r []).
    cbn [map concat length app] in *. rewrite Nat.add_0_r in *. repeat split; [| lia | constructor |].
    + step by (apply (peek_ends "<>|)&;" _ _ v); [reflexivity | exact E | exact Hv]). reflexivity.
    + intros r s' v' E' Hv'. destruct fuel; [lia|]. apply (parseargs_done _ _ _ _ v' E' Hv').
  - inversion Hw as [|? ? Hx Hws]; subst.
    destruct (parseargs_words (x :: argv) [] (EXEC []) s v fuel Hw ltac:(discriminate) Hl E Hs ltac:(lia))
      as (spans & f & Hsp & Hff & Eq).
    assert (E0 : drop s b = pr_word x ++ (concat (map pr_word argv) ++ v)) by (rewrite E; cbn; rewrite <- app_assoc; reflexivity).
    exists (EXEC []), f, (parseargs b f ([] ++ spans)), (fun r => set_argv r spans).
    repeat split; [| exact Hff | exact Hsp |].
    + step by (apply (peek_pr_word (str "(") _ x _ eq_refl Hx E0)).
      step by (apply (parseredirs_word _ _ _ x _ Hx E0)). exact Eq.
    + intros r s' v' E' Hv'. destruct f; [lia|]. apply (parseargs_done _ _ _ _ v' E' Hv').
Qed.

Lemma exec_redir c f m fd : wf (REDIR c f m fd) -> exec_ok c -> exec_ok (REDIR c f m fd).
Proof.
  intros (_ & Hw & Hm) IH s v fuel E Hv Hf. cbn [pr] in *.
  set (op := if (fd =? 0)%Z then 60%Z else 62%Z).
  assert (Hop : (if (fd =? 0)%Z then str "< " else str "> ") = [op; 32%Z]) by (unfold op; destruct (fd =? 0)%Z; reflexivity).
  rewrite Hop in *. rewrite <- !app_assoc in E.
  assert (Ho : ends "<>|)&;" ([op; 32%Z] ++ pr_word f ++ v)).
  { right. cbn [hd app]. unfold op. destruct (fd =? 0)%Z; split; (lia || reflexivity). }
  destruct (IH s _ fuel E Ho Hf) as (c' & n & G & fx & Eq & Hn & Hd & Hfx & HG).
  pose proof (drop_past _ _ _ E) as E1. set (s1 := s + length (pr 3 c)) in *.
  pose proof (drop_past _ _ _ E1) as E2. pose proof (ends_solid "<>|)&;" v eq_refl Hv) as Hsv.
  pose proof (left_length _ _ E1) as L1. pose proof (left_length _ _ (drop_past _ _ _ E2)) as L2.
  rewrite !length_app in L1.
  destruct (gettoken_symbol op s1 (pr_word f ++ v)) as [t0 Ht]; [unfold op; destruct (fd =? 0)%Z; reflexivity | exact E1 | |].
  { unfold pr_word. rewrite <- app_assoc. apply word_solid. exact Hw. }
  destruct n as [|n]; [lia|].
  exists (REDIR c' (s1 + 2, s1 + 2 + length f) m fd), n, G, fx. rewrite !length_app.
  replace (s + (length (pr 3 c) + (length [op; 32%Z] + length (pr_word f)))) with (s1 + 2 + length (pr_word f)) by (cbn [length]; lia).
  change (length [op; 32%Z]) with 2 in *.
  repeat split; [| lia | rewrite Hfx; cbn [denotes]; repeat split; [exact Hd | eexists; cbn [fst]; rewrite E2; unfold pr_word; rewrite <- app_assoc; reflexivity] | exact Hfx | exact HG].
  rewrite Eq. cbn [parseredirs]. rewrite bind_assoc.
  step by (apply (peek_symbol _ _ op (32%Z :: pr_word f ++ v)); [unfold op; destruct (fd =? 0)%Z; reflexivity | exact E1]).
  rewrite bind_assoc. step by (exact Ht). rewrite bind_assoc. step by (apply (gettoken_word f _ v Hw E2 Hsv)).
  cbn [fst snd]. unfold op. destruct Hm as [[= -> ->]|[= -> ->]]; reflexivity.
Qed.

Lemma exec_block c : wf c -> line_ok c -> pr 3 c = str "(" ++ pr 0 c ++ str ") " -> exec_ok c.
Proof.
  intros Hwf IH Hp s v fuel E Hv Hf. rewrite Hp in *. rewrite <- !app_assoc in E.
  pose proof (ends_solid "<>|)&;" v eq_refl Hv) as Hsv.
  pose proof (left_length _ _ E) as L. rewrite !length_app in L.
  pose proof (drop_past _ _ _ E) as E1. pose proof (drop_past _ _ _ E1) as E2. pose proof (drop_past _ _ _ E2) as E3.
  pose proof (left_length _ _ E1) as L1. rewrite !length_app in L1. pose proof (left_length _ _ E3) as L3.
  rewrite !length_app.
  change (length (str "(")) with 1 in *. change (length (str ") ")) with 2 in *.
  replace (s + (1 + (length (pr 0 c) + 2))) with (s + 1 + length (pr 0 c) + 2) by lia.
  assert (Ho : ends ")" (str ") " ++ v)) by (right; split; [cbv; discriminate | reflexivity]).
  destruct fuel as [|[|fuel]]; [lia|lia|].
  destruct (IH (s + 1) _ fuel E1 Ho ltac:(lia)) as (c' & Eq & Hd).
  destruct (gettoken_open s (pr 0 c ++ str ") " ++ v) E) as [t Ht]; [apply pr_solid; [exact Hwf | reflexivity]|].
  destruct (gettoken_symbol 41 (s + 1 + length (pr 0 c)) v eq_refl E2 Hsv) as [t2 Ht2].
  exists c', fuel, ret, (fun r => r). repeat split; [| lia | exact Hd].
  assert (Hpk : peek b (str "(") s = Ret true s) by (eapply (peek_symbol _ _ 40); [reflexivity | exact E]).
  cbn [parseexec parseblock]. step by (exact Hpk). step by (exact Hpk).
  step by (apply panic_if_false; reflexivity). step by (exact Ht). step by (exact Eq).
  step by (eapply (peek_symbol _ _ 41); [reflexivity | exact E2]).
  step by (apply panic_if_false; reflexivity). step by (exact Ht2).
  unfold bind, ret. destruct (parseredirs b fuel c' _); reflexivity.
Qed.

Lemma exec_pipe c : exec_ok c -> pr 2 c = pr 3 c -> pipe_ok c.
Proof.
  intros IH Hp s v fuel E Hv Hf. rewrite Hp in *. destruct fuel as [|fuel]; [lia|].
  destruct (IH s v fuel E ltac:(weaken) ltac:(lia)) as (c' & f & G & fx & Eq & _ & Hd & _ & HG).
  pose proof (drop_past _ _ _ E) as E1. exists (fx c'). split; [|exact Hd]. cbn [parsepipe].
  step by (rewrite Eq; step by (apply (parseredirs_done _ _ _ v ")&;" eq_refl E1 Hv));
           apply (HG _ _ v E1); weaken).
  step by (apply (peek_ends ")&;" "|" _ v eq_refl E1 Hv)). reflexivity.
Qed.
Lemma pipe_back c : pipe_ok c -> pr 1 c = pr 2 c -> back_ok c.
Proof.
  intros IH Hp s v fuel k E Hv Hf Hk. rewrite Hp in *.
  destruct (IH s v fuel E Hv Hf) as (c' & Eq & Hd). exists c', k. repeat split; [|lia | exact Hd].
  step by (exact Eq). reflexivity.
Qed.
Lemma parsebacks_done k c s v : drop s b = v -> ends ");" v -> parsebacks b k c s = Ret c s.
Proof. intros E Hv. destruct k; cbn [parsebacks]; step by (apply (peek_ends ");" "&" _ v eq_refl E Hv)); reflexivity. Qed.
Lemma back_line c : back_ok c -> pr 0 c = pr 1 c -> line_ok c.
Proof.
  intros IH Hp s v fuel E Hv Hf. rewrite Hp in *. destruct fuel as [|fuel]; [lia|].
  destruct (IH s v fuel fuel E ltac:(weaken) ltac:(lia) ltac:(lia)) as (c' & k & Eq & _ & Hd).
  pose proof (drop_past _ _ _ E) as E1. exists c'. split; [|exact Hd]. cbn [parseline].
  rewrite (parsebacks_done _ _ _ v E1 ltac:(weaken)) in Eq.
  apply bind_inv in Eq as (a & s1 & Ea & Eb). step by (exact Ea). step by (exact Eb).
  step by (apply (peek_ends ")" ";" _ v eq_refl E1 Hv)). reflexivity.
Qed.

(** ** Every command *)

Definition parses (c : cmd (list Z)) : Prop := exec_ok c /\ pipe_ok c /\ back_ok c /\ line_ok c.

Lemma line_parses c : wf c -> line_ok c -> pr 3 c = str "(" ++ pr 0 c ++ str ") " -> exec_ok c.
Proof. apply exec_block. Qed.

Lemma pipe_parses l r : wf (PIPE l r) -> parses l -> parses r -> pipe_ok (PIPE l r).
Proof.
  intros Hwf (IHl & _) (_ & IHr & _) s v fuel E Hv Hf. cbn [pr] in *. change (2 <? 2) with false in *. cbn [paren] in *.
  rewrite <- !app_assoc in E. destruct fuel as [|fuel]; [lia|].
  assert (Ho : ends "|" (str "| " ++ pr 2 r ++ v)) by (right; split; [cbv; discriminate | reflexivity]).
  destruct (IHl s _ fuel E ltac:(weaken) ltac:(lia)) as (c1 & f & G & fx & Eq & _ & Hd1 & _ & HG).
  pose proof (left_length _ _ E) as L. rewrite !length_app in L.
  pose proof (drop_past _ _ _ E) as E1. pose proof (drop_past _ _ _ E1) as E2. pose proof (left_length _ _ E2) as L2.
  rewrite !length_app in L2. change (length (str "| ")) with 2 in *.
  destruct (IHr _ v fuel E2 Hv ltac:(lia)) as (c2 & Eq2 & Hd2).
  destruct (gettoken_symbol 124 _ (pr 2 r ++ v) eq_refl E1) as [t Ht].
  { apply pr_solid; [apply Hwf | exact (ends_solid ")&;" v eq_refl Hv)]. }
  exists (PIPE (fx c1) c2). split; [|split; assumption]. cbn [parsepipe].
  step by (rewrite Eq; step by (apply (parseredirs_done _ _ _ _ "|" eq_refl E1 Ho)); apply (HG _ _ _ E1); weaken).
  step by (eapply (peek_symbol "|" _ 124); [reflexivity | exact E1]).
  step by (exact Ht). step by (exact Eq2). rewrite !length_app. change (length (str "| ")) with 2.
  unfold ret. f_equal. lia.
Qed.
Lemma back_parses c : wf c -> back_ok c -> back_ok (BACK c).
Proof.
  intros Hwf IH s v fuel k E Hv Hf Hk. cbn [pr] in *. change (1 <? 1) with false in *. cbn [paren] in *.
  rewrite <- !app_assoc in E.
  assert (Ho : ends "&" (str "& " ++ v)) by (right; split; [cbv; discriminate | reflexivity]).
  destruct (IH s _ fuel k E ltac:(weaken) Hf Hk) as (c1 & k1 & Eq & Hk1 & Hd1).
  pose proof (drop_past _ _ _ E) as E1. pose proof (left_length _ _ E1) as L1. rewrite length_app in L1.
  pose proof (left_length _ _ (drop_past _ _ _ E1)) as L2. change (length (str "& ")) with 2 in *.
  destruct (gettoken_symbol 38 _ v eq_refl E1 (ends_solid ")&;" v eq_refl Hv)) as [t Ht].
  destruct k1 as [|k1]; [lia|]. exists (BACK c1), k1. rewrite length_app. change (length (str "& ")) with 2.
  rewrite Nat.add_assoc. repeat split; [| lia | exact Hd1]. rewrite Eq. cbn [parsebacks].
  step by (eapply (peek_symbol "&" _ 38); [reflexivity | exact E1]). step by (exact Ht). reflexivity.
Qed.
Lemma list_parses l r : wf (LIST l r) -> back_ok l -> line_ok r -> line_ok (LIST l r).
Proof.
  intros Hwf IHl IHr s v fuel E Hv Hf. cbn [pr] in *. change (0 <? 0) with false in *. cbn [paren] in *.
  rewrite <- !app_assoc in E. destruct fuel as [|fuel]; [lia|].
  assert (Ho : ends ";" (str "; " ++ pr 0 r ++ v)) by (right; split; [cbv; discriminate | reflexivity]).
  destruct (IHl s _ fuel fuel E ltac:(weaken) ltac:(lia) ltac:(lia)) as (c1 & k & Eq & _ & Hd1).
  pose proof (left_length _ _ E) as L. rewrite !length_app in L.
  pose proof (drop_past _ _ _ E) as E1. pose proof (drop_past _ _ _ E1) as E2. pose proof (left_length _ _ E2) as L2.
  rewrite !length_app in L2. change (length (str "; ")) with 2 in *.
  destruct (IHr _ v fuel E2 Hv ltac:(lia)) as (c2 & Eq2 & Hd2).
  destruct (gettoken_symbol 59 _ (pr 0 r ++ v) eq_refl E1) as [t Ht].
  { apply pr_solid; [apply Hwf | exact (ends_solid ")" v eq_refl Hv)]. }
  exists (LIST c1 c2). split; [|split; assumption]. cbn [parseline].
  rewrite (parsebacks_done _ _ _ _ E1 ltac:(weaken)) in Eq.
  apply bind_inv in Eq as (a & s1 & Ea & Eb). step by (exact Ea). step by (exact Eb).
  step by (eapply (peek_symbol ";" _ 59); [reflexivity | exact E1]).
  step by (exact Ht). step by (exact Eq2). rewrite !length_app. change (length (str "; ")) with 2.
  unfold ret. f_equal. lia.
Qed.

Lemma wf_parses c : wf c -> parses c.
Proof.
  induction c as [argv|c IH f m fd|l IHl r IHr|l IHl r IHr|c IH]; intros Hwf; unfold parses.
  - pose proof (exec_argv argv Hwf) as H3. pose proof (exec_pipe _ H3 eq_refl) as H2.
    pose proof (pipe_back _ H2 eq_refl) as H1. pose proof (back_line _ H1 eq_refl). auto.
  - pose proof (exec_redir _ _ _ _ Hwf (proj1 (IH (proj1 Hwf)))) as H3. pose proof (exec_pipe _ H3 eq_refl) as H2.
    pose proof (pipe_back _ H2 eq_refl) as H1. pose proof (back_line _ H1 eq_refl). auto.
  - pose proof (pipe_parses l r Hwf (IHl (proj1 Hwf)) (IHr (proj2 Hwf))) as H2.
    pose proof (pipe_back _ H2 eq_refl) as H1. pose proof (back_line _ H1 eq_refl) as H0.
    pose proof (exec_block _ Hwf H0 eq_refl). auto.
  - pose proof (list_parses l r Hwf (proj1 (proj2 (proj2 (IHl (proj1 Hwf))))) (proj2 (proj2 (proj2 (IHr (proj2 Hwf)))))) as H0.
    pose proof (exec_block _ Hwf H0 eq_refl) as H3. pose proof (exec_pipe _ H3 eq_refl) as H2.
    pose proof (pipe_back _ H2 eq_refl) as H1. auto.
  - pose proof (back_parses c Hwf (proj1 (proj2 (proj2 (IH Hwf))))) as H1. pose proof (back_line _ H1 eq_refl) as H0.
    pose proof (exec_block _ Hwf H0 eq_refl) as H3. pose proof (exec_pipe _ H3 eq_refl) as H2. auto.
Qed.

(** ** nulterminate() *)

(** The ends of the strings of a command. *)
Fixpoint string_ends (c : cmd span) : list nat :=
  match c with
  | EXEC argv => map snd argv
  | REDIR c' f _ _ => string_ends c' ++ [snd f]
  | PIPE l r | LIST l r => string_ends l ++ string_ends r
  | BACK c' => string_ends c'
  end.

Lemma nulterminate_lookup c : forall (l : list Z) i,
  nulterminate c l !! i = if decide (i ∈ string_ends c) then (fun _ => 0%Z) <$> l !! i else l !! i.
Proof.
  assert (H1 : forall (l : list Z) i j, (<[j := 0%Z]> l) !! i = if decide (i = j) then (fun _ => 0%Z) <$> l !! i else l !! i).
  { intros l i j. destruct (decide (i = j)) as [->|Hn]; [|apply list_lookup_insert_ne; congruence].
    destruct (l !! j) eqn:E; [apply list_lookup_insert_eq; apply lookup_lt_Some in E; exact E|].
    rewrite list_insert_ge; [exact E | apply lookup_ge_None; exact E]. }
  assert (Hs : forall (f g : list Z -> list Z) (P Q : list nat),
    (forall l i, f l !! i = if decide (i ∈ P) then (fun _ => 0%Z) <$> l !! i else l !! i) ->
    (forall l i, g l !! i = if decide (i ∈ Q) then (fun _ => 0%Z) <$> l !! i else l !! i) ->
    forall l i, g (f l) !! i = if decide (i ∈ P ++ Q) then (fun _ => 0%Z) <$> l !! i else l !! i).
  { intros f g P Q Hf Hg l i. rewrite Hg, Hf. destruct (l !! i);
      destruct (decide (i ∈ P)), (decide (i ∈ Q)), (decide (i ∈ P ++ Q)) as [Ha|Ha]; try reflexivity;
      rewrite elem_of_app in Ha; tauto. }
  induction c as [argv|c IH f m fd|l IHl r IHr|l IHl r IHr|c IH]; cbn [nulterminate string_ends]; [| |apply Hs; auto|apply Hs; auto|exact IH].
  - induction argv as [|w argv IH]; intros l i; cbn [fold_left map]; [destruct (decide (i ∈ [])) as [H|H]; [apply elem_of_nil in H; destruct H | reflexivity]|].
    rewrite IH, H1. destruct (l !! i); destruct (decide (i = snd w)), (decide (i ∈ map snd argv)), (decide (i ∈ snd w :: map snd argv)) as [Ha|Ha];
      try reflexivity; rewrite elem_of_cons in Ha; tauto.
  - apply (Hs (nulterminate c) (fun l => <[snd f := 0%Z]> l) _ [snd f] IH). intros l i. rewrite H1.
    destruct (decide (i = snd f)), (decide (i ∈ [snd f])) as [Ha|Ha]; try reflexivity; rewrite elem_of_cons in Ha;
      rewrite elem_of_nil in Ha; tauto.
Qed.

(** All the ends are blanks of the line. *)
Lemma ends_blank c d : denotes b c d -> forall i, i ∈ string_ends c -> b !! i = Some 32%Z.
Proof.
  assert (Hw : forall w x, spells b w x -> b !! (snd w) = Some 32%Z).
  { intros w x [-> (v & E)]. rewrite <- lookup_drop, E, lookup_app_r, Nat.sub_diag; [reflexivity | lia]. }
  revert d. induction c as [argv|c IH f m fd|l IHl r IHr|l IHl r IHr|c IH]; intros [argv'|d x m' fd'|l' r'|l' r'|d] H;
    cbn [denotes string_ends] in *; try contradiction; intros i Hi.
  - induction H as [|w x argv argv' H _ IH]; [apply elem_of_nil in Hi; destruct Hi|].
    apply elem_of_cons in Hi as [->|Hi]; eauto.
  - apply elem_of_app in Hi as [Hi|Hi]; [eapply IH; [apply H | exact Hi]|].
    apply elem_of_cons in Hi as [->|Hi]; [eapply Hw, H | apply elem_of_nil in Hi; destruct Hi].
  - apply elem_of_app in Hi as [Hi|Hi]; [eapply IHl | eapply IHr]; (apply H || exact Hi).
  - apply elem_of_app in Hi as [Hi|Hi]; [eapply IHl | eapply IHr]; (apply H || exact Hi).
  - eapply IH; eassumption.
Qed.

Lemma until_nul_app x v : Forall (fun c => c <> 0%Z) x -> until_nul (x ++ 0%Z :: v) = x.
Proof.
  induction 1 as [|c x Hc _ IH]; [reflexivity|]. cbn [app until_nul].
  apply Z.eqb_neq in Hc. rewrite Hc, IH. reflexivity.
Qed.

(** After nulterminate() every pointer is the C string that was parsed. *)
Lemma c_str_word l w x : word x -> spells b w x ->
  (forall i, b !! i <> Some 32%Z -> l !! i = b !! i) -> l !! (snd w) = Some 0%Z -> c_str l (fst w) = x.
Proof.
  intros [_ Hx] [Hw (v & E)] Hsame H0. unfold c_str. rewrite Hw in H0.
  assert (drop (fst w) l = x ++ 0%Z :: drop (S (fst w + length x)) l) as ->.
  { apply list_eq. intros i. rewrite lookup_drop. destruct (decide (i < length x)) as [Hi|Hi].
    - rewrite lookup_app_l by exact Hi. assert (b !! (fst w + i) = x !! i) as Hb.
      { rewrite <- lookup_drop, E, lookup_app_l by exact Hi. reflexivity. }
      rewrite Hsame; rewrite Hb; [reflexivity|]. intros Hc.
      destruct (Forall_lookup_1 _ _ _ _ Hx Hc) as (_ & H & _). discriminate H.
    - rewrite lookup_app_r by lia. destruct (i - length x) as [|j] eqn:Ej.
      + replace i with (length x) by lia. exact H0.
      + transitivity (drop (S (fst w + length x)) l !! j); [rewrite lookup_drop; f_equal; lia | reflexivity]. }
  apply until_nul_app. eapply Forall_impl; [exact Hx|]. intros c [H _]. exact H.
Qed.
Lemma strings_denotes l : (forall i, b !! i <> Some 32%Z -> l !! i = b !! i) ->
  forall c d, denotes b c d -> wf d -> (forall i, i ∈ string_ends c -> l !! i = Some 0%Z) -> strings l c = d.
Proof.
  intros Hl. induction c as [argv|c IH f m fd|p IHl r IHr|p IHl r IHr|c IH]; intros [argv'|d x m' fd'|p' r'|p' r'|d] H Hwf He;
    cbn [denotes string_ends strings wf] in *; try contradiction; f_equal.
  - destruct Hwf as [Hwf _]. induction H as [|w x argv argv' H _ IH]; [reflexivity|]. inversion Hwf as [|? ? Hx Hws]; subst.
    cbn [map] in *. f_equal; [apply c_str_word; auto; apply He; left | apply IH; [exact Hws|]; intros i Hi; apply He; right; exact Hi].
  - apply IH; try tauto. intros i Hi. apply He, elem_of_app. auto.
  - apply c_str_word; try tauto. apply He, elem_of_app. right. left.
  - tauto.
  - tauto.
  - apply IHl; try tauto. intros i Hi. apply He, elem_of_app. auto.
  - apply IHr; try tauto. intros i Hi. apply He, elem_of_app. auto.
  - apply IHl; try tauto. intros i Hi. apply He, elem_of_app. auto.
  - apply IHr; try tauto. intros i Hi. apply He, elem_of_app. auto.
  - apply IH; auto.
Qed.
Lemma nulterminate_strings c d : denotes b c d -> wf d -> strings (nulterminate c b) c = d.
Proof.
  intros H Hwf. pose proof (ends_blank c d H) as Hb. apply strings_denotes; try assumption.
  - intros i Hi. rewrite nulterminate_lookup. destruct (decide _) as [He|He]; [apply Hb in He; congruence | reflexivity].
  - intros i Hi. rewrite nulterminate_lookup, decide_True, (Hb i Hi) by exact Hi. reflexivity.
Qed.
End RoundTrip.

Lemma parse_line_pr c : wf c -> exists c', parse_line (pr 0 c) 0 = Ret c' (length (pr 0 c)) /\ denotes (pr 0 c) c' c.
Proof.
  intros Hwf. set (b := pr 0 c). destruct (wf_parses b c Hwf) as (_ & _ & _ & H).
  destruct (H 0 [] (parse_fuel b)) as (c' & E & Hd).
  { rewrite app_nil_r. reflexivity. }
  { left. reflexivity. }
  { unfold parse_fuel. lia. }
  fold b in E. cbn [Nat.add] in E.
  assert (Hall : drop (length b) b = []) by apply drop_all. exists c'. split; [|exact Hd].
  unfold parse_line. step by (exact E). step by (apply (peek_at b [] _ [] Hall); reflexivity).
  unfold bind at 1, get, id. rewrite Nat.eqb_refl. reflexivity.
Qed.
Lemma parsecmd_pr_eq c : wf c -> parsecmd (pr 0 c) = Ret c (length (pr 0 c)).
Proof.
  intros Hwf. destruct (parse_line_pr c Hwf) as (c' & E & Hd). unfold parsecmd. rewrite E.
  f_equal. apply (nulterminate_strings (pr 0 c) c' c Hd Hwf).
Qed.

(** C14. The parser reads back every command that has a text: a command made
    of words, redirections, pipes, lists and background commands, printed
    with parentheses where its structure needs them, is what parsecmd()
    returns for the printed line: the same tree, and after nulterminate()
    every argument and file name is the C string of its word. *)
Theorem parsecmd_pr (c : cmd (list Z)) : wf c -> parsecmd (pr 0 c) = Ret c (length (pr 0 c)).
Proof. apply parsecmd_pr_eq. Qed.

Example parsecmd_pr_witness :
  let c := LIST (REDIR (PIPE (BACK (EXEC [str "cat"; str "f"])) (LIST (EXEC [str "wc"]) (EXEC []))) (str "out") 0x201 1)
                (PIPE (EXEC [str "ls"]) (EXEC [str "wc"])) in
  pr 0 c = str "((cat f & ) | (wc ; ) ) > out ; ls | wc " /\
  parsecmd (pr 0 c) = Ret c 40.
Proof.
  intros c. split; [vm_compute; reflexivity|].
  apply (parsecmd_pr c). unfold c. cbn [wf].
  repeat split; (repeat constructor) || idtac; try discriminate; try (right; reflexivity); vm_compute; try lia; intros; discriminate.
Defined.
