(* ===== verification/ShellRun.v ===== *)
(** * What the shell's processes do

    The system calls that runcmd() of [Shell.v] makes, run on tables of file
    descriptors: close(), open(), dup() and pipe() take the lowest free
    descriptor, fork() copies the table, exec() ends what the shell does in
    this process.  The theorem is about the tables with which programs
    start. *)
From S2P Require Import Prelude.
From S2P Require Import Ulib.
From S2P Require Import Shell.
From S2P Require Import ShellProofs.

(** What a descriptor is open on: a file the shell got, a file opened by
    name, an end of a pipe. *)
Inductive fobj : Type := Given (k : nat) | FileAt (path : list Z) (mode : Z) | PipeRead (id : nat) | PipeWrite (id : nat).
Abbreviation fdt := (gmap Z fobj).
Definition NOFILE : Z := 16.
Definition lowest (t : fdt) : option Z := snd <$> list_find (fun fd => t !! fd = None) (seqZ 0 NOFILE).

(** A program that was started: its arguments, its descriptors. *)
Abbreviation start := (list (list Z) * fdt)%type.

(** [runs p t n evs n' ok]: the process [p] with the table [t] and its
    children start the programs [evs]; [n] and [n'] count the pipes; [ok]
    when no call failed.  A child is run before the rest of its parent: the
    tables are separate, so the order of the steps does not matter. *)
Inductive runs : prog -> fdt -> nat -> list start -> nat -> bool -> Prop :=
| runs_exit t n : runs Exit t n [] n true
| runs_close fd k t n evs n' ok : runs k (delete fd t) n evs n' ok -> runs (Close fd k) t n evs n' ok
| runs_open file mode k t n fd evs n' ok : lowest t = Some fd -> runs (k fd) (<[fd := FileAt file mode]> t) n evs n' ok ->
    runs (Open file mode k) t n evs n' ok
| runs_open_fail file mode k t n evs n' ok : runs (k (-1)) t n evs n' ok -> runs (Open file mode k) t n evs n' false
| runs_dup fd k t n o new evs n' ok : t !! fd = Some o -> lowest t = Some new -> runs k (<[new := o]> t) n evs n' ok ->
    runs (Dup fd k) t n evs n' ok
| runs_dup_fail fd k t n evs n' ok : t !! fd = None \/ lowest t = None -> runs k t n evs n' ok -> runs (Dup fd k) t n evs n' false
| runs_dup2 fd new k t n o evs n' ok : t !! fd = Some o -> runs k (<[new := o]> t) n evs n' ok -> runs (Dup2 fd new k) t n evs n' ok
| runs_dup2_fail fd new k t n evs n' ok : t !! fd = None -> runs k t n evs n' ok -> runs (Dup2 fd new k) t n evs n' false
| runs_pipe k t n r w evs n' ok : lowest t = Some r -> lowest (<[r := PipeRead n]> t) = Some w ->
    runs (k 0 r w) (<[w := PipeWrite n]> (<[r := PipeRead n]> t)) (S n) evs n' ok -> runs (Pipe k) t n evs n' ok
| runs_pipe_fail k t n r w evs n' ok : runs (k (-1) r w) t n evs n' ok -> runs (Pipe k) t n evs n' false
| runs_fork k t n pid evs1 n1 ok1 evs2 n2 ok2 : 0 < pid -> runs (k 0) t n evs1 n1 ok1 -> runs (k pid) t n1 evs2 n2 ok2 ->
    runs (Fork k) t n (evs1 ++ evs2) n2 (ok1 && ok2)
| runs_fork_fail k t n evs n' ok : runs (k (-1)) t n evs n' ok -> runs (Fork k) t n evs n' false
| runs_wait k t n evs n' ok : runs k t n evs n' ok -> runs (Wait k) t n evs n' ok
| runs_exec argv k t n : runs (Exec argv k) t n [(argv, t)] n true
| runs_exec_fail argv k t n evs n' ok : runs k t n evs n' ok -> runs (Exec argv k) t n evs n' false
| runs_chdir dir k t n r evs n' ok : runs (k r) t n evs n' ok -> runs (Chdir dir k) t n evs n' ok
| runs_print fd msg k t n evs n' ok : runs k t n evs n' ok -> runs (Print fd msg k) t n evs n' ok.

(** ** What a command means *)

Definition std (i o e : fobj) : fdt := <[0 := i]> (<[1 := o]> (<[2 := e]> ∅)).
(** The programs of a command, each with its three descriptors: those of the
    command but for redirections and pipes.  The pipes are numbered from [n]. *)
Fixpoint wires (c : cmd (list Z)) (i o e : fobj) (n : nat) : list start * nat :=
  match c with
  | EXEC [] => ([], n)
  | EXEC argv => ([(argv, std i o e)], n)
  | REDIR c file mode fd => if fd =? 0 then wires c (FileAt file mode) o e n else wires c i (FileAt file mode) e n
  | LIST l r =>
      let '(a, n1) := wires l i o e n in
      let '(b, n2) := wires r i o e n1 in (a ++ b, n2)
  | PIPE l r =>
      let '(a, n1) := wires l i (PipeWrite n) e (S n) in
      let '(b, n2) := wires r (PipeRead n) o e n1 in (a ++ b, n2)
  | BACK c => wires c i o e n
  end.
(** Redirections of the standard input or output, as the parser makes them. *)
Fixpoint redirs_ok (c : cmd (list Z)) : Prop :=
  match c with
  | EXEC _ => True
  | REDIR c _ _ fd => (fd = 0 \/ fd = 1) /\ redirs_ok c
  | LIST l r | PIPE l r => redirs_ok l /\ redirs_ok r
  | BACK c => redirs_ok c
  end.

(** ** Tables *)

Lemma lowest_std i o e : lowest (std i o e) = Some 3.
Proof. reflexivity. Qed.
Lemma lowest_3 i o e x : lowest (<[3 := x]> (std i o e)) = Some 4.
Proof. reflexivity. Qed.
Lemma close_in i o e x : lowest (delete 0 (std i o e)) = Some 0 /\ <[0 := x]> (delete 0 (std i o e)) = std x o e.
Proof. split; reflexivity. Qed.
Lemma close_out i o e x : lowest (delete 1 (std i o e)) = Some 1 /\ <[1 := x]> (delete 1 (std i o e)) = std i x e.
Proof. split; reflexivity. Qed.
(** The table behind pipe(). *)
Definition piped (i o e : fobj) (n : nat) : fdt := <[4 := PipeWrite n]> (<[3 := PipeRead n]> (std i o e)).
Lemma piped_left i o e n : lowest (delete 1 (piped i o e n)) = Some 1 /\ delete 1 (piped i o e n) !! 4 = Some (PipeWrite n) /\
  delete 4 (delete 3 (<[1 := PipeWrite n]> (delete 1 (piped i o e n)))) = std i (PipeWrite n) e.
Proof. repeat split; reflexivity. Qed.
Lemma piped_right i o e n : lowest (delete 0 (piped i o e n)) = Some 0 /\ delete 0 (piped i o e n) !! 3 = Some (PipeRead n) /\
  delete 4 (delete 3 (<[0 := PipeRead n]> (delete 0 (piped i o e n)))) = std (PipeRead n) o e.
Proof. repeat split; reflexivity. Qed.

(** ** runcmd() *)

(** Only the three standard descriptors are open. *)
Definition tidy (ev : start) : Prop := exists i o e, snd ev = std i o e.
(** All programs started are tidy; without failures they are those of [spec]. *)
Definition good (spec : list start * nat) (evs : list start) (n' : nat) (ok : bool) : Prop :=
  Forall tidy evs /\ (ok = true -> (evs, n') = spec).

Ltac run_inv H := inversion H; clear H; subst.
(** The calls with one outcome. *)
Ltac run_calls := repeat match goal with
  | H : runs Exit _ _ _ _ _ |- _ => run_inv H
  | H : runs (Close _ _) _ _ _ _ _ |- _ => run_inv H
  | H : runs (Print _ _ _) _ _ _ _ _ |- _ => run_inv H
  | H : runs (Wait _) _ _ _ _ _ |- _ => run_inv H
  end.
Lemma good_app a k (W : nat -> list start * nat) evs1 m1 ok1 evs2 m2 ok2 : good (a, k) evs1 m1 ok1 -> good (W m1) evs2 m2 ok2 ->
  good (let '(b, n2) := W k in (a ++ b, n2)) (evs1 ++ evs2) m2 (ok1 && ok2).
Proof.
  intros [T1 E1] [T2 E2]. split; [apply Forall_app; auto|]. intros [H1 H2]%andb_true_iff.
  specialize (E1 H1) as [= -> ->]. rewrite <- (E2 H2). reflexivity.
Qed.
Lemma good_fail spec evs n : Forall tidy evs -> good spec evs n false.
Proof. split; [assumption | discriminate]. Qed.
Lemma runs_panic msg t n evs n' ok : runs (sh_panic msg) t n evs n' ok -> evs = [] /\ n' = n /\ ok = true.
Proof. intros H. unfold sh_panic in H. run_calls. auto. Qed.

(** fork1() in a process with table [t]. *)
Lemma runs_fork1 k t n evs n' ok : runs (fork1 k) t n evs n' ok ->
  (exists pid evs1 n1 ok1 evs2 ok2, 0 < pid /\ runs (k 0) t n evs1 n1 ok1 /\ runs (k pid) t n1 evs2 n' ok2 /\ evs = evs1 ++ evs2 /\ ok = ok1 && ok2) \/
  (evs = [] /\ ok = false).
Proof.
  intros H. run_inv H.
  - left. change (0 =? -1) with false in *. cbv iota in *. rewrite (proj2 (Z.eqb_neq pid (-1))) in * by lia. eauto 12.
  - right. split; [|reflexivity]. match goal with H : runs _ _ _ _ _ _ |- _ => apply runs_panic in H as (-> & _) end. reflexivity.
Qed.
(** dup() onto the descriptor closed before, then closing the pipe. *)
Lemma runs_child fd from k t n o evs n' ok : lowest (delete fd t) = Some fd -> delete fd t !! from = Some o ->
  runs (Close fd (Dup from (Close 3 (Close 4 k)))) t n evs n' ok ->
  runs k (delete 4 (delete 3 (<[fd := o]> (delete fd t)))) n evs n' ok.
Proof.
  intros Hl Ho H. run_calls. match goal with H : runs (Dup _ _) _ _ _ _ _ |- _ => run_inv H end.
  - rewrite Hl in *. simplify_eq. run_calls. assumption.
  - match goal with H : _ \/ _ |- _ => destruct H; congruence end.
Qed.

Lemma runcmd_good c : redirs_ok c -> forall i o e n evs n' ok, runs (runcmd c) (std i o e) n evs n' ok -> good (wires c i o e n) evs n' ok.
Proof.
  induction c as [argv|c IH file mode fd|l IHl r IHr|l IHl r IHr|c IH]; intros Hok i o e n evs n' ok H.
  - destruct argv as [|a argv]; cbn [runcmd] in H; [run_calls; split; [constructor | auto]|]. run_inv H.
    + split; [|reflexivity]. repeat constructor. exists i, o, e. reflexivity.
    + run_calls. apply good_fail. constructor.
  - destruct Hok as [Hfd Hok]. cbn [runcmd] in H. run_calls.
    match goal with H : runs (Open _ _ _) _ _ _ _ _ |- _ => run_inv H end.
    + assert (fd0 = fd) as -> by (destruct Hfd as [-> | ->]; [destruct (close_in i o e e) | destruct (close_out i o e e)]; congruence).
      rewrite (proj2 (Z.ltb_ge fd 0)) in * by lia. cbn [wires]. destruct Hfd as [-> | ->]; cbn [Z.eqb];
        [rewrite (proj2 (close_in i o e _)) in * | rewrite (proj2 (close_out i o e _)) in *]; apply IH; assumption.
    + apply good_fail. change (-1 <? 0) with true in *. cbv iota in *. run_calls. constructor.
  - destruct Hok as [Hl Hr]. cbn [runcmd] in H. run_inv H.
    2: { change (-1 <? 0) with true in *. cbv iota in *. match goal with H : runs _ _ _ _ _ _ |- _ => apply runs_panic in H as (-> & _) end. apply good_fail. constructor. }
    change (0 <? 0) with false in *. cbv iota in *. rewrite lowest_std in *. simplify_eq. rewrite lowest_3 in *. simplify_eq. fold (piped i o e n) in *.
    match goal with H : runs (fork1 _) _ _ _ _ _ |- _ => apply runs_fork1 in H as [(pid & evs1 & n1 & ok1 & evs2 & ok2 & Hpid & H1 & H2 & -> & ->)|[-> ->]] end;
      [|apply good_fail; constructor].
    change (0 =? 0) with true in H1. rewrite (proj2 (Z.eqb_neq pid 0)) in H2 by lia. cbv iota in *.
    destruct (piped_left i o e n) as (L1 & L2 & L3). apply (runs_child 1 4 _ _ _ _ _ _ _ L1 L2) in H1. rewrite L3 in H1. apply (IHl Hl) in H1.
    cbn [wires]. destruct (wires l i (PipeWrite n) e (S n)) as [a m1]. eapply (good_app a m1 (wires r (PipeRead n) o e)); [exact H1|].
    apply runs_fork1 in H2 as [(pid' & evs3 & n3 & ok3 & evs4 & ok4 & Hpid' & H3 & H4 & -> & ->)|[-> ->]]; [|apply good_fail; constructor].
    change (0 =? 0) with true in H3. rewrite (proj2 (Z.eqb_neq pid' 0)) in H4 by lia. cbv iota in *.
    destruct (piped_right i o e n) as (R1 & R2 & R3). apply (runs_child 0 3 _ _ _ _ _ _ _ R1 R2) in H3. rewrite R3 in H3. apply (IHr Hr) in H3.
    run_calls. rewrite app_nil_r, andb_true_r. exact H3.
  - destruct Hok as [Hl Hr]. cbn [runcmd] in H. apply runs_fork1 in H as [(pid & evs1 & n1 & ok1 & evs2 & ok2 & Hpid & H1 & H2 & -> & ->)|[-> ->]];
      [|apply good_fail; constructor].
    change (0 =? 0) with true in H1. rewrite (proj2 (Z.eqb_neq pid 0)) in H2 by lia. cbv iota in *. run_calls.
    cbn [wires]. destruct (wires l i o e n) as [a m1] eqn:Ea. apply (good_app a m1 (wires r i o e) evs1 n1 ok1 evs2 n' ok2); [rewrite <- Ea; apply (IHl Hl), H1 | apply (IHr Hr); assumption].
  - cbn [runcmd] in H. apply runs_fork1 in H as [(pid & evs1 & n1 & ok1 & evs2 & ok2 & Hpid & H1 & H2 & -> & ->)|[-> ->]]; [|apply good_fail; constructor].
    change (0 =? 0) with true in H1. rewrite (proj2 (Z.eqb_neq pid 0)) in H2 by lia. cbv iota in *. run_calls.
    rewrite app_nil_r, andb_true_r. apply (IH Hok). assumption.
Qed.

(** A run without failures exists. *)
Lemma fork1_runs k t n evs1 n1 evs2 n2 : runs (k 0) t n evs1 n1 true -> runs (k 1) t n1 evs2 n2 true -> runs (fork1 k) t n (evs1 ++ evs2) n2 true.
Proof. intros H1 H2. apply (runs_fork _ t n 1 evs1 n1 true evs2 n2 true); [lia | exact H1 | exact H2]. Qed.
Lemma child_runs fd from k t n o evs n' : lowest (delete fd t) = Some fd -> delete fd t !! from = Some o ->
  runs k (delete 4 (delete 3 (<[fd := o]> (delete fd t)))) n evs n' true ->
  runs (Close fd (Dup from (Close 3 (Close 4 k)))) t n evs n' true.
Proof. intros Hl Ho H. apply runs_close. eapply runs_dup; [exact Ho | exact Hl|]. apply runs_close, runs_close, H. Qed.
Lemma runcmd_runs c : redirs_ok c -> forall i o e n, runs (runcmd c) (std i o e) n (fst (wires c i o e n)) (snd (wires c i o e n)) true.
Proof.
  induction c as [argv|c IH file mode fd|l IHl r IHr|l IHl r IHr|c IH]; intros Hok i o e n; cbn [runcmd wires].
  - destruct argv; [apply runs_exit | apply runs_exec].
  - destruct Hok as [[-> | ->] Hok]; apply runs_close.
    + eapply (runs_open _ _ _ _ _ 0); [exact (proj1 (close_in i o e e))|]. cbn [Z.ltb Z.compare Z.eqb]. rewrite (proj2 (close_in i o e _)). apply IH, Hok.
    + eapply (runs_open _ _ _ _ _ 1); [exact (proj1 (close_out i o e e))|]. cbn [Z.ltb Z.compare Z.eqb]. rewrite (proj2 (close_out i o e _)). apply IH, Hok.
  - destruct Hok as [Hl Hr]. specialize (IHl Hl i (PipeWrite n) e (S n)). destruct (wires l i (PipeWrite n) e (S n)) as [a n1].
    specialize (IHr Hr (PipeRead n) o e n1). destruct (wires r (PipeRead n) o e n1) as [b n2]. cbn [fst snd] in *.
    eapply runs_pipe; [apply lowest_std | apply lowest_3|]. cbn [Z.ltb Z.compare]. fold (piped i o e n).
    destruct (piped_left i o e n) as (L1 & L2 & L3), (piped_right i o e n) as (R1 & R2 & R3).
    apply fork1_runs with n1; cbn [Z.eqb].
    + apply (child_runs 1 4 _ _ _ _ _ _ L1 L2). rewrite L3. exact IHl.
    + rewrite <- (app_nil_r b). apply fork1_runs with n2; cbn [Z.eqb].
      * apply (child_runs 0 3 _ _ _ _ _ _ R1 R2). rewrite R3. exact IHr.
      * repeat constructor.
  - destruct Hok as [Hl Hr]. specialize (IHl Hl i o e n). destruct (wires l i o e n) as [a n1].
    specialize (IHr Hr i o e n1). destruct (wires r i o e n1) as [b n2]. cbn [fst snd] in *.
    apply fork1_runs with n1; cbn [Z.eqb]; [exact IHl | apply runs_wait, IHr].
  - rewrite <- (app_nil_r (fst _)). eapply fork1_runs; cbn [Z.eqb]; [apply IH, Hok | apply runs_exit].
Qed.

(** The commands that can be typed have redirections of 0 and 1 only. *)
Lemma wf_redirs c : wf c -> redirs_ok c.
Proof.
  induction c; cbn; try tauto. intros (Hc & _ & [E|E]); injection E as -> ->; auto.
Qed.

