(* ===== verification/Hw2Shell.v ===== *)
(** * The shell of homework 2

    [src/homeworks/hw02-shell/sh.c], a shell for Linux: redirections and
    pipes, without lists, background commands and parentheses.  The parser
    is the one of [Shell.v] without these, and copies its strings; runcmd()
    uses dup2() and goes on when fork() fails.  The line is an array of
    bytes without NULs, pointers into it are offsets; malloc() succeeds;
    the messages leave out the text of errno. *)
From S2P Require Import Prelude.
From S2P Require Import Ulib.
From S2P Require Import Shell.

(** The flags of open() on Linux. *)
Definition RDONLY : Z := 0.
Definition WRITE_NEW : Z := 577. (* O_WRONLY | O_CREAT | O_TRUNC *)

(** struct execcmd, redircmd and pipecmd *)
Inductive cmd2 : Type :=
| Exec2 (argv : list (list Z))
| Redir2 (type : Z) (c : cmd2) (file : list Z) (flags fd : Z)
| Pipe2 (left right : cmd2).

Definition LT : Z := 60.
Definition GT : Z := 62.
Definition execcmd : cmd2 := Exec2 [].
Definition redircmd (c : cmd2) (file : list Z) (type : Z) : cmd2 :=
  Redir2 type c file (if type =? LT then RDONLY else WRITE_NEW) (if type =? LT then 0 else 1).
Definition pipecmd (l r : cmd2) : cmd2 := Pipe2 l r.

(** ** Tokens *)

(** [strchr(whitespace, c)] and [strchr(symbols, c)]: strchr() finds the NUL
    at the end, too. *)
Definition white (c : Z) : bool := bool_decide (c ∈ str " " ++ [9; 13; 10; 11; 0]).
Definition syms (c : Z) : bool := bool_decide (c ∈ str "<|>" ++ [0]).

Section Parse.
Variable b : list Z.

(** The token at [s], and the offset behind it. *)
Definition scan2 (s : nat) : tok * nat :=
  let c := at_ b s in
  if c =? 0 then (TEnd, s)
  else if bool_decide (c ∈ str "|<") then (TSym c, S s)
  else if bool_decide (c ∈ str ">") then (TSym c, S s)
  else (TWord, skip b (fun c => negb (white c) && negb (syms c)) s).
Definition gettoken2 : M nat (tok * span) :=
  let! s := get id in
  let q := skip b white s in
  let '(t, eq) := scan2 q in
  modify (fun _ => skip b white eq) ;!
  ret (t, (q, eq)).
(** [*s && strchr(toks, *s)] behind the white space *)
Definition peek2 (toks : list Z) : M nat bool :=
  modify (skip b white) ;!
  let! s := get id in
  ret (negb (at_ b s =? 0) && bool_decide (at_ b s ∈ toks ++ [0])).

(** The copy of the characters from [q] to [eq], as a C string. *)
Definition mkcopy (w : span) : list Z := until_nul (take (snd w - fst w) (drop (fst w) b)).

(** ** The parser *)

Fixpoint parseredirs2 (fuel : nat) (c : cmd2) : M nat cmd2 :=
  let! more := peek2 (str "<>") in
  if more : bool then
    match fuel with
    | O => halt NoFuel
    | S fuel' =>
        let! t := gettoken2 in
        let! w := gettoken2 in
        match fst w with
        | TWord =>
            let c' := match fst t with
                      | TSym x => if x =? LT then redircmd c (mkcopy (snd w)) LT
                                  else if x =? GT then redircmd c (mkcopy (snd w)) GT else c
                      | _ => c
                      end in
            parseredirs2 fuel' c'
        | _ => panic "missing file for redirection"
        end
    end
  else ret c.

(** [cmd->argv], of the node that redirections may enclose *)
Fixpoint set_argv2 (c : cmd2) (argv : list (list Z)) : cmd2 :=
  match c with
  | Exec2 _ => Exec2 argv
  | Redir2 ty c' f m fd => Redir2 ty (set_argv2 c' argv) f m fd
  | _ => c
  end.
Fixpoint parseargs2 (fuel : nat) (argv : list (list Z)) (r : cmd2) : M nat cmd2 :=
  let! stop := peek2 (str "|") in
  if stop : bool then ret (set_argv2 r argv) else
  match fuel with
  | O => halt NoFuel
  | S fuel' =>
      let! t := gettoken2 in
      match fst t with
      | TEnd => ret (set_argv2 r argv)
      | TWord =>
          let argv := argv ++ [mkcopy (snd t)] in
          panic_if (MAXARGS <=? length argv)%nat "too many args" ;!
          let! r := parseredirs2 fuel' r in
          parseargs2 fuel' argv r
      | _ => panic "syntax error"
      end
  end.
Definition parseexec2 (fuel : nat) : M nat cmd2 :=
  match fuel with
  | O => halt NoFuel
  | S fuel' =>
      let! r := parseredirs2 fuel' execcmd in
      parseargs2 fuel' [] r
  end.
Fixpoint parsepipe2 (fuel : nat) : M nat cmd2 :=
  match fuel with
  | O => halt NoFuel
  | S fuel' =>
      let! c := parseexec2 fuel' in
      let! more := peek2 (str "|") in
      if more : bool then
        let! _ := gettoken2 in
        let! r := parsepipe2 fuel' in
        ret (pipecmd c r)
      else ret c
  end.
(** A pipe symbol takes a byte, a word or a redirection too. *)
Definition parseline2 : M nat cmd2 := parsepipe2 (4 * length b + 3).
Definition parsecmd2 : M nat cmd2 :=
  let! c := parseline2 in
  let! _ := peek2 [] in
  let! s := get id in
  panic_if (negb (s =? length b)%nat) "leftovers" ;!
  ret c.
End Parse.

(** ** Running commands *)

(** The message is followed by errno and its text. *)
Definition failed (msg : string) : prog := Print 2 (str msg) Exit.
Definition fork1 (k : Z -> prog) : prog := Fork (fun pid => if pid =? -1 then Print 2 (str "fork") (k pid) else k pid).

Fixpoint runcmd2 (c : cmd2) : prog :=
  match c with
  | Exec2 [] => Exit
  | Exec2 (a :: argv) => Exec (a :: argv) (failed "execv failed")
  | Redir2 _ c' file flags fd =>
      Close fd (Open file flags (fun r => if r =? -1 then failed "open failed" else runcmd2 c'))
  | Pipe2 l r =>
      Pipe (fun e p0 p1 =>
        if e =? -1 then failed "pipe failed" else
        fork1 (fun pid =>
          if pid =? 0 then Close 1 (Dup2 p1 1 (Close p0 (Close p1 (runcmd2 l)))) else
          fork1 (fun pid =>
            if pid =? 0 then Close 0 (Dup2 p0 0 (Close p0 (Close p1 (runcmd2 r)))) else
            Close p0 (Close p1 (Wait (Wait Exit))))))
  end.

(** fgets(): at most [n - 1] bytes, up to a newline; none at the end. *)
Fixpoint fgets_loop (room : nat) (input : list Z) : list Z * list Z :=
  match room, input with
  | S room', c :: input' =>
      if c =? 10 then ([c], input')
      else let '(buf, rest) := fgets_loop room' input' in (c :: buf, rest)
  | _, _ => ([], input)
  end.
Definition fgets (n : nat) (input : list Z) : option (list Z * list Z) :=
  match input with [] => None | _ => Some (fgets_loop (n - 1) input) end.

(** getcmd(): the prompt is for a terminal. *)
Definition getcmd2 (tty : bool) (nbuf : nat) (input : list Z) (k : option (list Z * list Z) -> prog) : prog :=
  let r := match fgets nbuf input with
           | Some (buf, rest) => Some (until_nul buf, rest)
           | None => None
           end in
  if tty then Print 1 (str "6.828$ ") (k r) else k r.

(** [runcmd(parsecmd(buf))] in the child *)
Definition child2 (line : list Z) : prog :=
  match parsecmd2 line O with
  | Ret c _ => runcmd2 c
  | Stop (Panicked msg) s =>
      if bool_decide (msg = "leftovers"%string) then Print 2 (str "leftovers: " ++ drop s line ++ [10]) Exit
      else Print 2 (str msg ++ [10]) Exit
  | Stop _ _ => Exit
  end.
Definition main_line2 (line : list Z) (next : prog) : prog :=
  if is_cd line then
    let dir := drop 3 (take (length line - 1) line) in  (* chop \n *)
    Chdir dir (fun r => if r <? 0 then Print 2 (str "cannot cd " ++ dir ++ [10]) next else next)
  else fork1 (fun pid => if pid =? 0 then child2 line else Wait next).
Fixpoint main_loop2 (fuel : nat) (tty : bool) (input : list Z) : prog :=
  match fuel with
  | O => Exit
  | S fuel' => getcmd2 tty 100 input (fun r =>
      match r with
      | None => Exit
      | Some (line, rest) => main_line2 line (main_loop2 fuel' tty rest)
      end)
  end.
(** Every line takes at least one byte. *)
Definition main2 (tty : bool) (input : list Z) : prog := main_loop2 (S (length input)) tty input.
