(* ===== verification/Hw2Proofs.v ===== *)
(** * The shell of homework 2 parses and wires like the shell of xv6

    On lines without the symbols it does not know the parser of [Hw2Shell.v]
    gives the commands that the one of [Shell.v] gives, and runcmd() starts
    the programs that the meaning of commands in [ShellRun.v] says. *)
From S2P Require Import Prelude.
From S2P Require Import Ulib.
From S2P Require Import Shell.
From S2P Require Import ShellProofs.
From S2P Require Import ShellRun.
From S2P Require Import Hw2Shell.

(** A line of this shell: no NUL, none of the other symbols, no ">>". *)
Definition plain (b : list Z) : Prop :=
  Forall (fun c => c <> 0 /\ c ∉ str "&;()") b /\ forall s, at_ b s = GT -> at_ b (S s) <> GT.

Section Same.
Variable b : list Z.
Hypothesis Hb : plain b.

Lemma plain_at s : at_ b s <> 0 -> at_ b s ∉ str "&;()".
Proof.
  intros Hne. unfold at_ in *. destruct (decide (s < length b)%nat) as [Hlt|Hge]; [|rewrite nth_overflow in Hne by lia; destruct (Hne eq_refl)].
  destruct (lookup_lt_is_Some_2 b s Hlt) as [c E]. rewrite (nth_lookup_Some _ _ _ _ E). destruct Hb as [Hall _].
  rewrite Forall_lookup in Hall. apply (Hall s c E).
Qed.
Lemma inside s : (s < length b)%nat -> at_ b s <> 0.
Proof.
  intros Hlt. destruct (lookup_lt_is_Some_2 b s Hlt) as [c E]. unfold at_. rewrite (nth_lookup_Some _ _ _ _ E).
  destruct Hb as [Hall _]. rewrite Forall_lookup in Hall. apply (Hall s c E).
Qed.
Lemma skip_ext p q s : (forall j, at_ b j <> 0 -> p (at_ b j) = q (at_ b j)) -> skip b p s = skip b q s.
Proof.
  intros Hpq. unfold skip. assert (forall n s, (s + n <= length b)%nat -> skip_while b n p s = skip_while b n q s) as H.
  { induction n as [|n IH]; intros j Hj; [reflexivity|]. cbn. rewrite Hpq by (apply inside; lia).
    destruct (q (at_ b j)); [apply IH; lia | reflexivity]. }
  destruct (decide (s <= length b)%nat) as [Hle|Hgt]; [apply H; lia|]. replace (length b - s)%nat with 0%nat by lia. reflexivity.
Qed.
Lemma white_same c : c <> 0 -> white c = whitespace c.
Proof. intros Hc. apply bool_decide_ext. cbn. set_solver. Qed.
Lemma syms_same c : c <> 0 -> c ∉ str "&;()" -> syms c = symbols c.
Proof. intros Hc Ho. apply bool_decide_ext. cbn in *. set_solver. Qed.
Lemma skip_white s : skip b white s = skip b whitespace s.
Proof. apply skip_ext. intros j Hj. apply white_same, Hj. Qed.

Lemma scan_same s : scan2 b s = scan b s.
Proof.
  unfold scan2, scan. destruct (Z.eqb_spec (at_ b s) 0) as [|Hne]; [reflexivity|]. pose proof (plain_at s Hne) as Ho.
  replace (bool_decide (at_ b s ∈ str "|();&<")) with (bool_decide (at_ b s ∈ str "|<")) by (apply bool_decide_ext; cbn in *; set_solver).
  case_bool_decide; [reflexivity|]. case_bool_decide as Eg.
  - rewrite bool_decide_false; [reflexivity|]. cbn in Eg |- *. intros En%list_elem_of_singleton. apply list_elem_of_singleton in Eg.
    exact (proj2 Hb s Eg En).
  - f_equal. apply skip_ext. intros j Hj. rewrite white_same, syms_same by (try exact Hj; apply plain_at, Hj). reflexivity.
Qed.
Lemma gettoken_same s : gettoken2 b s = gettoken b s.
Proof.
  unfold gettoken2, gettoken, bind, get, modify, ret, id. rewrite skip_white, scan_same.
  destruct (scan b (skip b whitespace s)) as [t eq]. rewrite skip_white. reflexivity.
Qed.
Lemma peek_same toks s : peek2 b toks s = peek b toks s.
Proof.
  unfold peek2, peek, bind, get, modify, ret, id. rewrite skip_white. f_equal.
  destruct (Z.eqb_spec (at_ b (skip b whitespace s)) 0) as [|Hne]; [reflexivity|]. cbn [negb andb]. apply bool_decide_ext.
  rewrite elem_of_app, list_elem_of_singleton. tauto.
Qed.
(** What peek() sees of the symbols that are not there. *)
Lemma peek_none toks s : (forall c, c ∈ toks -> c ∈ str "&;()") -> peek b toks s = Ret false (skip b whitespace s).
Proof.
  intros Hsub. unfold peek, bind, get, modify, ret, id. f_equal.
  destruct (Z.eqb_spec (at_ b (skip b whitespace s)) 0) as [|Hne]; [reflexivity|]. cbn [negb andb].
  apply bool_decide_eq_false. intros Hin. exact (plain_at _ Hne (Hsub _ Hin)).
Qed.
Lemma peek_bar s : peek b (str "|)&;") s = peek b (str "|") s.
Proof.
  unfold peek, bind, get, modify, ret, id. f_equal.
  destruct (Z.eqb_spec (at_ b (skip b whitespace s)) 0) as [|Hne]; [reflexivity|]. cbn [negb andb].
  pose proof (plain_at _ Hne) as Ho. apply bool_decide_ext. cbn in *. set_solver.
Qed.
Lemma skip_twice p s : skip b p (skip b p s) = skip b p s.
Proof.
  unfold skip. assert (forall n s, (n <= length b - s)%nat -> (s + n <= length b \/ n = 0)%nat -> forall m, (m <= length b - skip_while b n p s)%nat ->
    (n = length b - s)%nat -> skip_while b m p (skip_while b n p s) = skip_while b n p s) as H.
  { induction n as [|n IH]; intros j Hn Hle m Hm E; cbn [skip_while] in *.
    - assert (m = 0%nat) as -> by lia. reflexivity.
    - destruct (p (at_ b j)) eqn:Ep; [apply IH; lia|]. destruct m; [reflexivity|]. cbn. rewrite Ep. reflexivity. }
  destruct (decide (s <= length b)%nat) as [Hle|Hgt]; [apply H; lia|].
  replace (length b - s)%nat with 0%nat by lia. cbn [skip_while]. replace (length b - s)%nat with 0%nat by lia. reflexivity.
Qed.
Lemma peek_skip toks s : peek b toks (skip b whitespace s) = peek b toks s.
Proof. unfold peek, bind, get, modify, ret, id. rewrite skip_twice. reflexivity. Qed.

(** ** The two parsers step by step *)

Fixpoint conv (c : cmd span) : cmd2 :=
  match c with
  | EXEC argv => Exec2 (map (mkcopy b) argv)
  | REDIR c f _ fd => redircmd (conv c) (mkcopy b f) (if fd =? 0 then LT else GT)
  | PIPE l r | LIST l r => Pipe2 (conv l) (conv r)
  | BACK c => Pipe2 (conv c) execcmd (* not of these lines *)
  end.
(** The same command and offset, or both give up. *)
Definition alike (w w' : stop) : Prop := match w, w' with Panicked _, Panicked _ => True | _, _ => w = w' end.
Definition same (r : res nat (cmd span)) (r' : res nat cmd2) : Prop :=
  match r, r' with
  | Ret c s, Ret c' s' => c' = conv c /\ s = s'
  | Stop w _, Stop w' _ => alike w w'
  | _, _ => False
  end.
Lemma alike_refl w : alike w w.
Proof. destruct w; cbn; auto. Qed.
Lemma same_bind m m' k k' s : same (m s) (m' s) -> (forall c s', same (k c s') (k' (conv c) s')) -> same (bind m k s) (bind m' k' s).
Proof.
  unfold bind. destruct (m s) as [c s1|w s1], (m' s) as [c' s2|w' s2]; cbn; try tauto. intros [-> ->] Hk. apply Hk.
Qed.
Lemma conv_set_argv c argv : conv (set_argv c argv) = set_argv2 (conv c) (map (mkcopy b) argv).
Proof. induction c; cbn; try reflexivity. unfold redircmd. rewrite IHc. reflexivity. Qed.

Lemma same_peek toks toks' k k' s : (forall s, peek b toks s = peek b toks' s) -> (forall m s', same (k m s') (k' m s')) ->
  same (bind (peek b toks) k s) (bind (peek2 b toks') k' s).
Proof. intros Ht Hk. unfold bind. rewrite peek_same, Ht. destruct (peek b toks' s); [apply Hk | apply alike_refl]. Qed.
Lemma same_token k k' s : (forall t w s', t <> TApp -> same (k (t, w) s') (k' (t, w) s')) -> same (bind (gettoken b) k s) (bind (gettoken2 b) k' s).
Proof.
  intros Hk. unfold bind. rewrite <- gettoken_same. destruct (gettoken2 b s) as [[t w] s1|] eqn:Et; [|apply alike_refl].
  apply Hk. intros ->. unfold gettoken2, bind, get, modify, ret, id in Et.
  destruct (scan2 b (skip b white s)) as [t0 e0] eqn:Es. injection Et as -> _ _. unfold scan2 in Es. repeat case_match; discriminate Es.
Qed.
Lemma same_panic msg msg' s s' : same (panic msg s) (panic msg' s').
Proof. exact I. Qed.
Lemma one_symbol c x : bool_decide (c ∈ [x]) = (c =? x).
Proof.
  destruct (Z.eqb_spec c x) as [->|Hne]; [apply bool_decide_eq_true; left | apply bool_decide_eq_false].
  intros E%list_elem_of_singleton. contradiction.
Qed.

Lemma parseredirs_same fuel : forall c s, same (parseredirs b fuel c s) (parseredirs2 b fuel (conv c) s).
Proof.
  induction fuel as [|fuel IH]; intros c s; cbn [parseredirs parseredirs2]; (apply same_peek; [reflexivity|]); intros [] s1;
    try (cbn; tauto); try (split; reflexivity).
  apply same_token. intros t wt s2 Ht. apply same_token. intros t' wt' s3 _. cbn [fst snd]. destruct t'; try apply same_panic.
  change (str "<") with [LT]. change (str ">") with [GT]. destruct t as [|x| |]; try apply IH; [|contradiction].
  rewrite !one_symbol. destruct (x =? LT); [apply (IH (REDIR c wt' O_RDONLY 0))|].
  destruct (x =? GT); [apply (IH (REDIR c wt' (Z.lor O_WRONLY O_CREATE) 1)) | apply IH].
Qed.
Lemma parseargs_same fuel : forall argv r s, same (parseargs b fuel argv r s) (parseargs2 b fuel (map (mkcopy b) argv) (conv r) s).
Proof.
  assert (forall argv r s, same (Ret (set_argv r argv) s) (Ret (set_argv2 (conv r) (map (mkcopy b) argv)) s)) as Hdone.
  { intros argv r s. cbn. rewrite conv_set_argv. auto. }
  induction fuel as [|fuel IH]; intros argv r s; cbn [parseargs parseargs2]; (apply same_peek; [exact peek_bar|]); intros [] s1;
    try apply Hdone; [cbn; tauto|].
  apply same_token. intros t w s2 _. cbn [fst snd]. destruct t; [apply Hdone | apply same_panic | apply same_panic|].
  rewrite length_app, length_app, length_map. cbn [length]. unfold panic_if.
  destruct (MAXARGS <=? length argv + 1)%nat; [apply same_panic|]. unfold bind at 1 3, ret at 1 2.
  apply same_bind; [apply parseredirs_same|]. intros c s3. specialize (IH (argv ++ [w]) c s3). rewrite map_app in IH. exact IH.
Qed.
Lemma parseredirs_skip fuel c s : parseredirs b fuel c (skip b whitespace s) = parseredirs b fuel c s.
Proof. destruct fuel; cbn [parseredirs]; unfold bind; rewrite peek_skip; reflexivity. Qed.
Lemma parseexec_same fuel s : same (parseexec b fuel s) (parseexec2 b fuel s).
Proof.
  destruct fuel as [|fuel]; [cbn; tauto|]. cbn [parseexec parseexec2]. rewrite (bind_eq _ _ _ _ _ (peek_none (str "(") s ltac:(cbn; set_solver))).
  cbv iota. unfold bind at 1. rewrite parseredirs_skip. change (same (bind (parseredirs b fuel (EXEC [])) (parseargs b fuel []) s)
    (bind (parseredirs2 b fuel (conv (EXEC []))) (parseargs2 b fuel (map (mkcopy b) [])) s)).
  apply same_bind; [apply parseredirs_same | apply parseargs_same].
Qed.
Lemma parsepipe_same fuel : forall s, same (parsepipe b fuel s) (parsepipe2 b fuel s).
Proof.
  induction fuel as [|fuel IH]; intros s; [cbn; tauto|]. cbn [parsepipe parsepipe2]. apply same_bind; [apply parseexec_same|].
  intros c s1. apply same_peek; [reflexivity|]. intros [] s2; [|split; reflexivity]. apply same_token. intros t w s3 _.
  apply same_bind; [apply IH|]. intros c' s4. split; reflexivity.
Qed.
Lemma parsebacks_none fuel c s : parsebacks b fuel c s = Ret c (skip b whitespace s).
Proof.
  destruct fuel; cbn [parsebacks]; rewrite (bind_eq _ _ _ _ _ (peek_none (str "&") s ltac:(cbn; set_solver))); reflexivity.
Qed.
Lemma parse_same s : same (parse_line b s) (parsecmd2 b s).
Proof.
  unfold parse_line, parsecmd2, parseline2, parse_fuel. replace (4 * length b + 4)%nat with (S (4 * length b + 3)) by lia.
  set (fuel := (4 * length b + 3)%nat). cbn [parseline].
  assert (forall k, bind (let! c := parsepipe b fuel in let! c := parsebacks b fuel c in let! more := peek b (str ";") in
    if more : bool then let! _ := gettoken b in let! r := parseline b fuel in ret (LIST c r) else ret c) k s =
    bind (parsepipe b fuel) (fun c s1 => k c (skip b whitespace s1)) s) as ->.
  { intros k. transitivity (match parsepipe b fuel s with Ret c s1 => k c (skip b whitespace s1) | Stop w s1 => Stop w s1 end); [|reflexivity].
    unfold bind at 1 2. destruct (parsepipe b fuel s) as [c s1|]; [|reflexivity]. unfold bind at 1. rewrite parsebacks_none. rewrite (bind_eq _ _ _ _ _ (peek_none (str ";") (skip b whitespace s1) ltac:(cbn; set_solver))).
    cbv iota. unfold ret. rewrite skip_twice. reflexivity. }
  apply same_bind; [apply parsepipe_same|]. intros c s1. unfold bind at 1. rewrite peek_skip.
  change (same (bind (peek b []) (fun _ => let! s := get id in panic_if (negb (s =? length b)%nat) "syntax" ;! ret c) s1)
    (bind (peek2 b []) (fun _ => let! s := get id in panic_if (negb (s =? length b)%nat) "leftovers" ;! ret (conv c)) s1)).
  apply same_peek; [reflexivity|]. intros _ s2. unfold bind, get, panic_if, id. destruct (negb (s2 =? length b)%nat); cbn; auto.
Qed.
End Same.

(** ** runcmd() *)

(** The command for the functions of [Shell.v] and [ShellRun.v]. *)
Fixpoint embed (c : cmd2) : cmd (list Z) :=
  match c with
  | Exec2 argv => EXEC argv
  | Redir2 _ c f flags fd => REDIR (embed c) f flags fd
  | Pipe2 l r => PIPE (embed l) (embed r)
  end.

Lemma runs_fork2 k t n evs n' ok : runs (Hw2Shell.fork1 k) t n evs n' ok ->
  (exists pid evs1 n1 ok1 evs2 ok2, 0 < pid /\ runs (k 0) t n evs1 n1 ok1 /\ runs (k pid) t n1 evs2 n' ok2 /\ evs = evs1 ++ evs2 /\ ok = ok1 && ok2) \/
  (exists ok', runs (k (-1)) t n evs n' ok' /\ ok = false).
Proof.
  intros H. run_inv H.
  - left. change (0 =? -1) with false in *. cbv iota in *. rewrite (proj2 (Z.eqb_neq pid (-1))) in * by lia. eauto 12.
  - right. change (-1 =? -1) with true in *. cbv iota in *. run_calls. eauto.
Qed.
(** dup2() onto the descriptor closed before, then closing the pipe. *)
Lemma runs_child2 fd from k t n o evs n' ok : delete fd t !! from = Some o ->
  runs (Close fd (Dup2 from fd (Close 3 (Close 4 k)))) t n evs n' ok ->
  runs k (delete 4 (delete 3 (<[fd := o]> (delete fd t)))) n evs n' ok.
Proof.
  intros Ho H. run_calls. match goal with H : runs (Dup2 _ _ _) _ _ _ _ _ |- _ => run_inv H end; [|congruence].
  simplify_eq. run_calls. assumption.
Qed.
Lemma good_weaken spec evs n ok : good spec evs n ok -> good spec evs n false.
Proof. intros [Ht _]. apply good_fail, Ht. Qed.

Section Pipeline.
Variables (l r : cmd2) (i o e : fobj) (n : nat).
Hypothesis Hl : forall i o e n evs n' ok, runs (runcmd2 l) (std i o e) n evs n' ok -> good (wires (embed l) i o e n) evs n' ok.
Hypothesis Hr : forall i o e n evs n' ok, runs (runcmd2 r) (std i o e) n evs n' ok -> good (wires (embed r) i o e n) evs n' ok.
(** The parent behind the first fork(). *)
Lemma pipe_right m evs n' ok : runs (Hw2Shell.fork1 (fun pid =>
    if pid =? 0 then Close 0 (Dup2 3 0 (Close 3 (Close 4 (runcmd2 r)))) else Close 3 (Close 4 (Wait (Wait Exit))))) (piped i o e n) m evs n' ok ->
  good (wires (embed r) (PipeRead n) o e m) evs n' ok.
Proof.
  destruct (piped_right i o e n) as (_ & R2 & R3).
  intros [(pid & evs1 & n1 & ok1 & evs2 & ok2 & Hpid & H1 & H2 & -> & ->)|(ok' & H2 & ->)]%runs_fork2.
  - change (0 =? 0) with true in H1. rewrite (proj2 (Z.eqb_neq pid 0)) in H2 by lia. cbv iota in *.
    apply (runs_child2 0 3 _ _ _ _ _ _ _ R2) in H1. rewrite R3 in H1. apply Hr in H1. run_calls. rewrite app_nil_r, andb_true_r. exact H1.
  - change (-1 =? 0) with false in H2. cbv iota in H2. run_calls. apply good_fail. constructor.
Qed.
Lemma pipe_good evs n' ok : runs (runcmd2 (Pipe2 l r)) (std i o e) n evs n' ok -> good (wires (embed (Pipe2 l r)) i o e n) evs n' ok.
Proof.
  intros H. cbn [runcmd2] in H. run_inv H.
  2: { change (-1 =? -1) with true in *. cbv iota in *. unfold failed in *. run_calls. apply good_fail. constructor. }
  change (0 =? -1) with false in *. cbv iota in *. rewrite lowest_std in *. simplify_eq. rewrite lowest_3 in *. simplify_eq. fold (piped i o e n) in *.
  cbn [wires embed]. destruct (wires (embed l) i (PipeWrite n) e (S n)) as [a m1] eqn:Ea.
  match goal with H : runs (Hw2Shell.fork1 _) _ _ _ _ _ |- _ => apply runs_fork2 in H as [(pid & evs1 & n1 & ok1 & evs2 & ok2 & Hpid & H1 & H2 & -> & ->)|(ok' & H2 & ->)] end.
  - change (0 =? 0) with true in H1. rewrite (proj2 (Z.eqb_neq pid 0)) in H2 by lia. cbv iota in *.
    destruct (piped_left i o e n) as (_ & L2 & L3). apply (runs_child2 1 4 _ _ _ _ _ _ _ L2) in H1. rewrite L3 in H1. apply Hl in H1. rewrite Ea in H1.
    apply pipe_right in H2. exact (good_app a m1 (wires (embed r) (PipeRead n) o e) _ _ _ _ _ _ H1 H2).
  - change (-1 =? 0) with false in H2. cbv iota in H2. apply pipe_right in H2. apply good_fail, H2.
Qed.
End Pipeline.

Lemma runcmd2_good c : redirs_ok (embed c) -> forall i o e n evs n' ok, runs (runcmd2 c) (std i o e) n evs n' ok -> good (wires (embed c) i o e n) evs n' ok.
Proof.
  induction c as [argv|ty c IH file mode fd|l IHl r IHr]; intros Hok i o e n evs n' ok H.
  - destruct argv as [|a argv]; cbn [runcmd2] in H; [run_calls; split; [constructor | auto]|]. run_inv H.
    + split; [|reflexivity]. repeat constructor. exists i, o, e. reflexivity.
    + unfold failed in *. run_calls. apply good_fail. constructor.
  - destruct Hok as [Hfd Hok]. cbn [runcmd2] in H. run_calls.
    match goal with H : runs (Open _ _ _) _ _ _ _ _ |- _ => run_inv H end.
    + assert (fd0 = fd) as -> by (destruct Hfd as [-> | ->]; [destruct (close_in i o e e) | destruct (close_out i o e e)]; congruence).
      rewrite (proj2 (Z.eqb_neq fd (-1))) in * by lia. cbn [wires embed]. destruct Hfd as [-> | ->]; cbn [Z.eqb];
        [rewrite (proj2 (close_in i o e _)) in * | rewrite (proj2 (close_out i o e _)) in *]; apply IH; assumption.
    + apply good_fail. change (-1 =? -1) with true in *. cbv iota in *. unfold failed in *. run_calls. constructor.
  - destruct Hok as [Hl Hr]. apply pipe_good; [apply IHl, Hl | apply IHr, Hr | exact H].
Qed.
Lemma fork2_runs k t n evs1 n1 evs2 n2 : runs (k 0) t n evs1 n1 true -> runs (k 1) t n1 evs2 n2 true -> runs (Hw2Shell.fork1 k) t n (evs1 ++ evs2) n2 true.
Proof. intros H1 H2. apply (runs_fork _ t n 1 evs1 n1 true evs2 n2 true); [lia | exact H1 | exact H2]. Qed.
Lemma child2_runs fd from k t n o evs n' : delete fd t !! from = Some o ->
  runs k (delete 4 (delete 3 (<[fd := o]> (delete fd t)))) n evs n' true ->
  runs (Close fd (Dup2 from fd (Close 3 (Close 4 k)))) t n evs n' true.
Proof. intros Ho H. apply runs_close. eapply runs_dup2; [exact Ho|]. apply runs_close, runs_close, H. Qed.
Lemma runcmd2_runs c : redirs_ok (embed c) -> forall i o e n, runs (runcmd2 c) (std i o e) n (fst (wires (embed c) i o e n)) (snd (wires (embed c) i o e n)) true.
Proof.
  induction c as [argv|ty c IH file mode fd|l IHl r IHr]; intros Hok i o e n; cbn [runcmd2 wires embed].
  - destruct argv; [apply runs_exit | apply runs_exec].
  - destruct Hok as [[-> | ->] Hok]; apply runs_close.
    + eapply (runs_open _ _ _ _ _ 0); [exact (proj1 (close_in i o e e))|]. cbn [Z.eqb]. rewrite (proj2 (close_in i o e _)). apply IH, Hok.
    + eapply (runs_open _ _ _ _ _ 1); [exact (proj1 (close_out i o e e))|]. cbn [Z.eqb]. rewrite (proj2 (close_out i o e _)). apply IH, Hok.
  - destruct Hok as [Hl Hr]. specialize (IHl Hl i (PipeWrite n) e (S n)). destruct (wires (embed l) i (PipeWrite n) e (S n)) as [a n1].
    specialize (IHr Hr (PipeRead n) o e n1). destruct (wires (embed r) (PipeRead n) o e n1) as [b n2]. cbn [fst snd] in *.
    eapply runs_pipe; [apply lowest_std | apply lowest_3|]. cbn [Z.eqb]. fold (piped i o e n).
    destruct (piped_left i o e n) as (_ & L2 & L3), (piped_right i o e n) as (_ & R2 & R3).
    apply fork2_runs with n1; cbn [Z.eqb].
    + apply (child2_runs 1 4 _ _ _ _ _ _ L2). rewrite L3. exact IHl.
    + rewrite <- (app_nil_r b). apply fork2_runs with n2; cbn [Z.eqb].
      * apply (child2_runs 0 3 _ _ _ _ _ _ R2). rewrite R3. exact IHr.
      * repeat constructor.
Qed.

(** ** Typed commands *)

(** The meaning of the text: files are opened as this shell does. *)
Fixpoint reopened (c : cmd (list Z)) : cmd (list Z) :=
  match c with
  | REDIR c f _ fd => REDIR (reopened c) f (if fd =? 0 then RDONLY else WRITE_NEW) fd
  | PIPE l r => PIPE (reopened l) (reopened r)
  | c => c
  end.
Fixpoint conv2 (c : cmd (list Z)) : cmd2 :=
  match c with
  | EXEC argv => Exec2 argv
  | REDIR c f _ fd => redircmd (conv2 c) f (if fd =? 0 then LT else GT)
  | PIPE l r | LIST l r => Pipe2 (conv2 l) (conv2 r)
  | BACK c => Pipe2 (conv2 c) execcmd
  end.

Lemma until_nul_all x : Forall (fun c => c <> 0) x -> until_nul x = x.
Proof. induction 1 as [|c x Hc Hx IH]; [reflexivity|]. cbn. rewrite (proj2 (Z.eqb_neq c 0)), IH by exact Hc. reflexivity. Qed.
Lemma mkcopy_word b w x : word x -> spells b w x -> mkcopy b w = x.
Proof.
  intros [_ Hx] (Ee & v & Ed). unfold mkcopy. rewrite Ee, Ed. replace (fst w + length x - fst w)%nat with (length x) by lia.
  rewrite take_app_length. apply until_nul_all. eapply Forall_impl; [exact Hx|]. intros c Hc. apply Hc.
Qed.
Lemma conv_denotes b c : forall d, denotes b c d -> wf d -> conv b c = conv2 d.
Proof.
  induction c as [argv|c IH f mode fd|l IHl r IHr|l IHl r IHr|c IH]; intros [argv'|d f' mode' fd'|l' r'|l' r'|d]; cbn; try tauto.
  - intros Hs [Hw _]. f_equal. revert Hw. induction Hs as [|w x ws xs Hwx _ IH]; intros Hw; [reflexivity|].
    apply Forall_cons in Hw as [Hx Hw]. cbn. rewrite (mkcopy_word b w x Hx Hwx), IH by exact Hw. reflexivity.
  - intros (Hd & Hf & _ & ->) (Hc & Hx & _). rewrite (IH d Hd Hc), (mkcopy_word b f f' Hx Hf). reflexivity.
  - intros [Hl Hr] [Wl Wr]. rewrite (IHl l' Hl Wl), (IHr r' Hr Wr). reflexivity.
  - intros [Hl Hr] [Wl Wr]. rewrite (IHl l' Hl Wl), (IHr r' Hr Wr). reflexivity.
  - intros Hd Hc. rewrite (IH d Hd Hc). reflexivity.
Qed.
(** Lines of this shell have no lists and no background commands. *)
Lemma plain_meaning c : wf c -> forall lv, Forall (fun x => x ∉ str "&;()") (pr lv c) -> embed (conv2 c) = reopened c /\ redirs_ok (reopened c).
Proof.
  induction c as [argv|c IH f mode fd|l IHl r IHr|l IHl r IHr|c IH]; intros Hc lv Hp; cbn [pr] in Hp.
  - split; [reflexivity | exact I].
  - destruct Hc as (Hc & _ & Hm). apply Forall_app in Hp as [Hp _]. destruct (IH Hc 3%nat Hp) as [E Ho].
    destruct Hm as [Em|Em]; injection Em as -> ->; cbn; unfold redircmd; rewrite E; cbn; auto.
  - destruct Hc as [Wl Wr]. assert (Forall (fun x => x ∉ str "&;()") (pr 3 l) /\ Forall (fun x => x ∉ str "&;()") (pr 2 r)) as [Pl Pr].
    { unfold paren in Hp. destruct (2 <? lv)%nat; repeat (apply Forall_app in Hp as [? Hp]); rewrite ?Forall_app in *; tauto. }
    destruct (IHl Wl _ Pl) as [El Ol], (IHr Wr _ Pr) as [Er Or]. cbn. rewrite El, Er. auto.
  - exfalso. assert (59 ∈ paren (0 <? lv)%nat (pr 1 l ++ str "; " ++ pr 0 r)) as Hin.
    { unfold paren. destruct (0 <? lv)%nat; rewrite !elem_of_app; cbn; set_solver. }
    rewrite Forall_forall in Hp. apply (Hp _ Hin). cbn. set_solver.
  - exfalso. assert (38 ∈ paren (1 <? lv)%nat (pr 1 c ++ str "& ")) as Hin.
    { unfold paren. destruct (1 <? lv)%nat; rewrite !elem_of_app; cbn; set_solver. }
    rewrite Forall_forall in Hp. apply (Hp _ Hin). cbn. set_solver.
Qed.
Lemma child2_pr c : wf c -> plain (pr 0 c) -> child2 (pr 0 c) = runcmd2 (conv2 c).
Proof.
  intros Hc Hp. destruct (parse_line_pr c Hc) as (c' & E & Hd). pose proof (parse_same _ Hp 0%nat) as Hs. rewrite E in Hs.
  unfold child2. destruct (parsecmd2 (pr 0 c) O) as [c2 s2|]; [|destruct Hs]. destruct Hs as [-> _]. rewrite (conv_denotes _ c' c Hd Hc). reflexivity.
Qed.

(** C17. On lines without the symbols that only the shell of xv6 knows the
    shell of homework 2 parses as that one does: they give the same command,
    with files opened for writing created or truncated, or both give up with
    a message. *)
Theorem homework_parses_same (b : list Z) (Hb : plain b) : same b (parse_line b O) (parsecmd2 b O) /\
  (forall w s, parsecmd2 b O = Stop w s -> exists msg, w = Panicked msg).
Proof.
  pose proof (parse_same b Hb O) as Hs. split; [exact Hs|]. intros w s E. rewrite E in Hs.
  pose proof (parse_line_safe b) as Ht. unfold safe in Ht. destruct (parse_line b O) as [c s'|w' s']; [destruct Hs|].
  assert (exists msg, w' = Panicked msg) as [msg ->] by (unfold syntax_error in Ht; clear -Ht; rewrite !elem_of_cons in Ht; destruct Ht as [->|[->|[->|[->|[->|[]%elem_of_nil]]]]]; eauto).
  destruct w; eauto; discriminate Hs.
Qed.


(** fork1() "exits on failure" by its comment; it prints and goes on. *)
Lemma fork1_goes_on k t n evs n' ok : runs (k (-1)) t n evs n' ok -> runs (Hw2Shell.fork1 k) t n evs n' false.
Proof. intros H. eapply runs_fork_fail. change (-1 =? -1) with true. cbv iota. apply runs_print, H. Qed.
(** The last byte of a line is taken for its newline, also when the input
    ends without one. *)
Lemma cd_without_newline : main_line2 (str "cd abc") Exit =
  Chdir (str "ab") (fun r => if r <? 0 then Print 2 (str "cannot cd " ++ str "ab" ++ [10]) Exit else Exit).
Proof. reflexivity. Qed.

(** Every line takes a byte of the input, so the bound of main() is enough. *)
Lemma fgets_shorter n input buf rest : (1 < n)%nat -> fgets n input = Some (buf, rest) -> (length rest < length input)%nat.
Proof.
  unfold fgets. destruct input as [|c input]; [discriminate|]. intros Hn [= E].
  assert (forall room l b r, fgets_loop room l = (b, r) -> (length r <= length l)%nat) as Hle.
  { induction room as [|room IH]; intros [|x l] b r; cbn; try (intros [= _ <-]; cbn; lia).
    destruct (x =? 10); [intros [= _ <-]; lia|]. destruct (fgets_loop room l) as [b' r'] eqn:El. intros [= _ <-]. specialize (IH _ _ _ El). lia. }
  destruct (n - 1)%nat as [|room] eqn:Er; [lia|]. cbn in E. destruct (c =? 10); [injection E as _ <-; cbn; lia|].
  destruct (fgets_loop room input) as [b' r'] eqn:El. injection E as _ <-. specialize (Hle _ _ _ _ El). cbn. lia.
Qed.
Lemma main2_fuel tty : forall fuel input, (length input < fuel)%nat -> main_loop2 fuel tty input = main2 tty input.
Proof.
  assert (forall f f' input, (length input < f)%nat -> (length input < f')%nat -> main_loop2 f tty input = main_loop2 f' tty input) as H.
  { induction f as [|f IH]; intros f' input Hf Hf'; [lia|]. destruct f' as [|f']; [lia|]. cbn [main_loop2]. unfold getcmd2.
    destruct (fgets 100 input) as [[buf rest]|] eqn:E; [|reflexivity]. apply fgets_shorter in E; [|lia].
    rewrite (IH f' rest) by lia. reflexivity. }
  intros fuel input Hf. apply H; [exact Hf | lia].
Qed.

Lemma plain_check b : forallb (fun c => negb (bool_decide (c ∈ 0 :: str "&;()"))) b && forallb (fun s => negb ((at_ b s =? GT) && (at_ b (S s) =? GT))) (seq 0 (length b)) = true -> plain b.
Proof.
  intros [H1 H2]%andb_true_iff. rewrite forallb_forall in H1, H2. split.
  - apply Forall_forall. intros c Hc. specialize (H1 c (proj1 (list_elem_of_In _ _) Hc)). apply negb_true_iff, bool_decide_eq_false in H1.
    apply not_elem_of_cons in H1. exact H1.
  - intros s Es En. destruct (decide (s < length b)%nat) as [Hlt|Hge].
    + specialize (H2 s ltac:(apply in_seq; lia)). rewrite Es, En in H2. discriminate H2.
    + unfold at_ in Es. rewrite nth_overflow in Es by lia. discriminate Es.
Qed.
Example homework_parses_same_witness : exists c s, parsecmd2 (str "sort < y | wc > y1") O = Ret c s /\
  c = Pipe2 (Redir2 LT (Exec2 [str "sort"]) (str "y") RDONLY 0) (Redir2 GT (Exec2 [str "wc"]) (str "y1") WRITE_NEW 1).
Proof.
  assert (plain (str "sort < y | wc > y1")) as Hp by (apply plain_check; vm_compute; reflexivity).
  destruct (homework_parses_same _ Hp) as [Hs _]. destruct (parse_line (str "sort < y | wc > y1") O) as [c s|] eqn:E; [|vm_compute in E; discriminate E].
  destruct (parsecmd2 (str "sort < y | wc > y1") O) as [c' s'|]; [|destruct Hs]. destruct Hs as [-> _]. exists (conv (str "sort < y | wc > y1") c), s'.
  split; [reflexivity|]. vm_compute in E. injection E as <- _. vm_compute. reflexivity.
Defined.
