(* ===== verification/File.v ===== *)
(** * Open files

    [src/homeworks/xv6-public/file.c] and the part of [pipe.c] that deals
    with files.  A [struct file*] is an index into [ftable.file]; a pipe is
    the page at an address that kalloc() returned, 0 is the null pointer.
    Bytes that a call takes from or stores at a [char*] are a list. *)
From S2P Require Import Prelude.
From S2P Require Import Kalloc.
From S2P Require Import Layout.
From S2P Require Import Bio.
From S2P Require Import Tx.
From S2P Require Import Fs.
From S2P Require Import Pipe.
From S2P Require Import Proc.

Definition NFILE : nat := 100.

Inductive ftype : Type := FD_NONE | FD_PIPE | FD_INODE.

(** struct file *)
Record file := mk_file {
  f_type : ftype; f_ref : Z; f_readable : Z; f_writable : Z; f_pipe : Z; f_ip : option nat; f_off : Z }.
#[export] Instance eta_file : Eta file := fun f =>
  mk_file (f_type f) (f_ref f) (f_readable f) (f_writable f) (f_pipe f) (f_ip f) (f_off f).

(** ftable *)
Record ftable := mk_ftable { ft_lock : spinlock; ft_file : list file }.
#[export] Instance eta_ftable : Eta ftable := fun t => mk_ftable (ft_lock t) (ft_file t).

(** Open files, the pipes by the address of their page, the file system. *)
Record fsys (T : Type) := mk_fsys { fy_ftable : ftable; fy_pipes : gmap Z pipe; fy_fs : fstate T }.
Arguments mk_fsys {T} _ _ _.
Arguments fy_ftable {T} _.
Arguments fy_pipes {T} _.
Arguments fy_fs {T} _.
#[export] Instance eta_fsys {T} : Eta (fsys T) := fun s =>
  mk_fsys (fy_ftable s) (fy_pipes s) (fy_fs s).

(** begin_op() and end_op() of the log. *)
Class OpOps (T : Type) : Type := { op_begin : M T unit; op_end : M T unit }.

(** What a new page holds before it is made a pipe. *)
Class Pages : Type := { old_page : Z -> pipe }.

(** [((MAXOPBLOCKS-1-1-2) / 2) * 512], the bytes written in a transaction *)
Definition max_write : Z := ((10 - 1 - 1 - 2) / 2) * 512.

Section Table.
Context `{Ctx}.

Definition on_file {A} (f : nat) (m : M file A) : M ftable A := zoom ft_file (elt f m).

Definition fileinit : M ftable unit := modify (fun t => t <| ft_lock := None |>).

(** Allocate a file structure. *)
Definition filealloc : M ftable (option nat) :=
  zoom ft_lock acquire ;!
  let! files := get ft_file in
  match list_find (fun f => f_ref f = 0) files with
  | Some (f, _) =>
      on_file f (modify (fun f => f <| f_ref := 1 |>)) ;!
      zoom ft_lock release ;!
      ret (Some f)
  | None => zoom ft_lock release ;! ret None
  end.

(** Increment ref count for file f. *)
Definition filedup (f : nat) : M ftable nat :=
  zoom ft_lock acquire ;!
  let! x := on_file f (get id) in
  panic_if (f_ref x <? 1) "filedup" ;!
  on_file f (modify (fun f => f <| f_ref ::= fun r => s32 (r + 1) |>)) ;!
  zoom ft_lock release ;!
  ret f.

(** fileclose() with the table locked: the file to be closed, when this was
    the last reference. *)
Definition fileclose_ref (f : nat) : M ftable (option file) :=
  zoom ft_lock acquire ;!
  let! x := on_file f (get id) in
  panic_if (f_ref x <? 1) "fileclose" ;!
  on_file f (modify (fun f => f <| f_ref ::= fun r => s32 (r - 1) |>)) ;!
  let! ff := on_file f (get id) in
  if 0 <? f_ref ff then zoom ft_lock release ;! ret None
  else
    on_file f (modify (fun f => f <| f_ref := 0 |>)) ;!
    on_file f (modify (fun f => f <| f_type := FD_NONE |>)) ;!
    zoom ft_lock release ;!
    ret (Some ff).
End Table.

Section Code.
Context `{Ctx} `{Linked} `{Pages} {T : Type} `{TxOps T} `{OpOps T} `{Devsw (fstate T)}.
#[local] Abbreviation K := (kstate (fsys T)).

Definition in_ft {A} (m : M ftable A) : M K A := zoom ks_fs (zoom fy_ftable m).
Definition in_files {A} (m : M (fstate T) A) : M K A := zoom ks_fs (zoom fy_fs m).
Definition begin_op : M K unit := in_files (in_tx op_begin).
Definition end_op : M K unit := in_files (in_tx op_end).

(** The pipe in a page. *)
Definition put_pipe (page : Z) (p : pipe) : M K unit :=
  zoom ks_fs (modify (fun s => s <| fy_pipes ::= <[page := p]> |>)).
Definition on_page {A} (page : Z) (m : M pipe A) : M K A :=
  let! pipes := get (fun s => fy_pipes (ks_fs s)) in
  let! p := deref (pipes !! page) in
  match m p with
  | Ret a p' => put_pipe page p' ;! ret a
  | Stop w p' => put_pipe page p' ;! halt w
  end.
(** A function of [pipe.c] that looks at [myproc()->killed]. *)
Definition killed : M ptable Z := let! me := curproc in on_proc me (get p_killed).
Definition set_killed (v : Z) : M ptable unit :=
  let! me := curproc in on_proc me (modify (fun p => p <| p_killed := v |>)).
Definition with_pipe {A} (page : Z) (m : M pctx A) : M K A :=
  let! k := in_pt killed in
  let! pipes := get (fun s => fy_pipes (ks_fs s)) in
  let! p := deref (pipes !! page) in
  match m (mk_pctx p k) with
  | Ret a c => put_pipe page (pc_pipe c) ;! in_pt (set_killed (pc_killed c)) ;! ret a
  | Stop w c => put_pipe page (pc_pipe c) ;! halt w
  end.

(** pipeclose(), with the kfree() of the page at its end. *)
Definition close_pipe (page : Z) (writable : bool) : M K unit :=
  let! free := on_page page (pipeclose writable) in
  if free : bool then
    in_mem (kfree page) ;!
    zoom ks_fs (modify (fun s => s <| fy_pipes ::= delete page |>))
  else ret tt.

(** What fileclose() does once the table is unlocked, with the file that is
    closed when the reference was the last one. *)
Definition close_last (last : option file) : M K unit :=
  match last with
  | None => ret tt
  | Some ff =>
      match f_type ff with
      | FD_PIPE => close_pipe (f_pipe ff) (negb (f_writable ff =? 0))
      | FD_INODE =>
          begin_op ;!
          let! ip := deref (f_ip ff) in
          in_files (iput ip) ;!
          end_op
      | FD_NONE => ret tt
      end
  end.
Definition fileclose (f : nat) : M K unit :=
  let! last := in_ft (fileclose_ref f) in
  close_last last.

(** Get metadata about file f. *)
Definition filestat (f : nat) : M K (option stat) :=
  let! x := in_ft (on_file f (get id)) in
  match f_type x with
  | FD_INODE =>
      in_files (ilock (f_ip x)) ;!
      let! ip := deref (f_ip x) in
      let! st := in_files (stati ip) in
      in_files (iunlock (f_ip x)) ;!
      ret (Some st)
  | _ => ret None
  end.

(** [f->off += r] *)
Definition add_off (f : nat) (r : Z) : M K unit :=
  in_ft (on_file f (modify (fun f => f <| f_off ::= fun o => u32 (o + r) |>))).

(** The result and the bytes stored; [env] is what other processes do while
    a pipe is empty. *)
Definition fileread (env : list (pctx -> pctx)) (f : nat) (n : Z) : M K (Z * list Z) :=
  let! x := in_ft (on_file f (get id)) in
  if f_readable x =? 0 then ret (-1, []) else
  match f_type x with
  | FD_PIPE => with_pipe (f_pipe x) (piperead env n)
  | FD_INODE =>
      in_files (ilock (f_ip x)) ;!
      let! ip := deref (f_ip x) in
      let! r := in_files (readi ip (f_off x) n) in
      (if 0 <? fst r then add_off f (fst r) else ret tt) ;!
      in_files (iunlock (f_ip x)) ;!
      ret r
  | FD_NONE => panic "fileread"
  end.

(** The loop of filewrite(); false after an error of writei(). *)
Fixpoint filewrite_loop (fuel : nat) (f : nat) (src : list Z) : M K bool :=
  match src with
  | [] => ret true
  | _ =>
    match fuel with
    | O => halt NoFuel
    | S fuel' =>
        let n1 := Z.min (Z.of_nat (length src)) max_write in
        begin_op ;!
        let! x := in_ft (on_file f (get id)) in
        in_files (ilock (f_ip x)) ;!
        let! ip := deref (f_ip x) in
        let! r := in_files (writei ip (f_off x) (take (Z.to_nat n1) src)) in
        (if 0 <? r then add_off f r else ret tt) ;!
        in_files (iunlock (f_ip x)) ;!
        end_op ;!
        if r <? 0 then ret false else
        panic_if (negb (r =? n1)) "short filewrite" ;!
        filewrite_loop fuel' f (drop (Z.to_nat r) src)
    end
  end.
Definition filewrite (env : list (pctx -> pctx)) (f : nat) (src : list Z) : M K Z :=
  let! x := in_ft (on_file f (get id)) in
  if f_writable x =? 0 then ret (-1) else
  match f_type x with
  | FD_PIPE => with_pipe (f_pipe x) (pipewrite env src)
  | FD_INODE =>
      let! ok := filewrite_loop (length src) f src in
      ret (if ok : bool then Z.of_nat (length src) else -1)
  | FD_NONE => panic "filewrite"
  end.

(** [*f = {FD_PIPE, ref, readable, writable, page}] *)
Definition set_pipe_end (f : nat) (readable writable page : Z) : M K unit :=
  in_ft (on_file f (modify (fun x =>
    mk_file FD_PIPE (f_ref x) readable writable page (f_ip x) (f_off x)))).

(** [if( *f0) fileclose( *f0);] *)
Definition close_if (f : option nat) : M K unit :=
  match f with Some f => fileclose f | None => ret tt end.

(** The two files, or [None] when it returns -1. *)
Definition pipealloc : M K (option (nat * nat)) :=
  let! f0 := in_ft filealloc in
  let! f1 := (match f0 with None => ret None | Some _ => in_ft filealloc end) in
  match f0, f1 with
  | Some r, Some w =>
      let! p := in_mem kalloc in
      if p =? 0 then close_if f0 ;! close_if f1 ;! ret None else
      put_pipe p (old_page p) ;!
      on_page p pipe_init ;!
      set_pipe_end r 1 0 p ;!
      set_pipe_end w 0 1 p ;!
      ret (Some (r, w))
  | _, _ => close_if f0 ;! close_if f1 ;! ret None
  end.

(** The file system, as [Proc.v] uses it. *)
#[export] Instance file_ops : FileOps (fsys T) := {
  f_filedup f := in_ft (filedup f);
  f_fileclose := fileclose;
  f_idup ip := in_files (idup ip);
  f_iput ip := in_files (iput ip);
  f_namei path :=
    let! me := in_pt myproc in
    let! cwd := (match me with Some i => in_pt (on_proc i (get p_cwd)) | None => ret None end) in
    in_files (namei cwd path);
  f_begin_op := begin_op;
  f_end_op := end_op }.
End Code.
