(* ===== verification/FileWrite.v ===== *)
(** * Writes that fit a transaction

    The part of a write that filewrite() of [File.v] hands to writei() in one
    transaction: how many log entries it makes, and that itrunc() undoes it. *)
From S2P Require Import Prelude.
From S2P Require Import Sleeplock.
From S2P Require Import Layout.
From S2P Require Import Bio.
From S2P Require Import Lru.
From S2P Require Import BioCache.
From S2P Require Import Cache.
From S2P Require Import Log.
From S2P Require Import LogProofs.
From S2P Require Import Tx.
From S2P Require Import Fs.
From S2P Require Import FsProofs.
From S2P Require Import FsGrow.
From S2P Require Import FsTrunc.
From S2P Require Import File.

Section Chunk.
Context `{Ctx} {T : Type} `{TxLaws T} `{Devsw (fstate T)}.
Variables (g : frame) (sb : superblock).
Implicit Types (t : T) (f : Z -> block) (L W : gset Z) (ic : icache).

(** The map is one block. *)
Definition one_map (m : Z) : Prop := forall b, map_block sb b -> b = m.

(** The blocks of the file that bytes [off .. off + n) meet. *)
Definition touched f (i : inode) (nb off n : Z) : list Z :=
  map (block_of f i) (seqZ (off / BSIZE) (Z.min nb ((off + n + BSIZE - 1) / BSIZE) - off / BSIZE)).
(** The log entries of a write. *)
Definition entries f (i : inode) (nb off n m : Z) (news : list Z) : list Z :=
  [home_of sb i; m] ++ (if NDIRECT <? nb then [indirect i] else []) ++ touched f i nb off n ++ news.

Lemma entries_covers f i nb off n m news W : 0 <= off -> 0 <= n -> (forall b, b ∈ entries f i nb off n m news -> b ∈ W) -> covers f i nb off n news W.
Proof.
  intros Hoff Hn HW. unfold entries in HW. split.
  - intros b Hb. apply HW. rewrite !elem_of_app. auto.
  - intros bn Hbn Hend. apply HW. rewrite !elem_of_app. right. right. left. unfold touched.
    change (map (block_of f i)) with (fmap (M := list) (block_of f i)). apply list_elem_of_fmap. exists bn. split; [reflexivity|].
    apply elem_of_seqZ. unfold BSIZE in *. clear -Hbn Hend. dlia.
  - intros Hd. apply HW. rewrite !elem_of_app, (proj2 (Z.ltb_lt NDIRECT nb)) by exact Hd. right. left. left.
Qed.
Lemma length_entries f i nb off n m news : 0 <= off <= BSIZE * nb -> 0 <= n <= max_write -> Z.of_nat (length news) = needed nb (blocks_for nb (off + n)) ->
  (length (entries f i nb off n m news) <= 7)%nat.
Proof.
  intros Hoff Hn Hnews. unfold entries, touched. rewrite !length_app, length_map, length_seqZ. unfold needed, blocks_for in Hnews.
  change max_write with 1536 in Hn. unfold BSIZE, NDIRECT in *. set (e := (off + n + 512 - 1) / 512) in *.
  assert (e - off / 512 <= 4 /\ 0 <= off / 512 /\ off / 512 <= nb) as (He & Ho & Hb) by (unfold e; clear -Hn Hoff; split; [dlia|split; dlia]).
  destruct (Z.ltb_spec 12 nb), (Z.leb_spec nb 12), (Z.ltb_spec 12 (Z.max nb e)); cbn [andb length] in *; lia.
Qed.

Lemma chunk_budget f L i nb off n m news : one_map m -> (size L + 8 < fr_cap g)%nat -> (size L + 9 < NBUF)%nat ->
  0 <= off <= BSIZE * nb -> 0 <= n <= max_write -> Z.of_nat (length news) = needed nb (blocks_for nb (off + n)) ->
  exists W, L ⊆ W /\ budget g sb W /\ home_of sb i ∈ W /\ covers f i nb off n news W /\ (size W <= size L + 7)%nat.
Proof.
  intros Hm Hcap Hbuf Hoff Hn Hnews. set (l := entries f i nb off n m news). exists (L ∪ list_to_set l).
  assert (forall b, b ∈ l -> b ∈ L ∪ list_to_set l) as Hin by (intros b Hb; apply elem_of_union; right; apply elem_of_list_to_set, Hb).
  pose proof (length_entries f i nb off n m news Hoff Hn Hnews) as Hl. pose proof (size_list_le l) as Hs. fold l in Hl.
  assert (size (L ∪ list_to_set l) <= size L + 7)%nat as HW.
  { rewrite size_union_alt. pose proof (subseteq_size (list_to_set l ∖ L) (list_to_set l : gset Z) ltac:(set_solver)). lia. }
  split; [set_solver|]. split; [split; [lia | lia | intros b Hb; rewrite (Hm b Hb); apply Hin; right; left]|].
  split; [apply Hin; left|]. split; [|exact HW]. eapply entries_covers; [lia | lia | exact Hin].
Qed.

(** The number of blocks that a write allocates. *)
Definition fresh (nb off : Z) (src : list Z) : nat := Z.to_nat (needed nb (blocks_for nb (off + Z.of_nat (length src)))).
Lemma fresh_length f nb off src : (fresh nb off src <= length (frees f sb))%nat ->
  Z.of_nat (length (take (fresh nb off src) (frees f sb))) = needed nb (blocks_for nb (off + Z.of_nat (length src))).
Proof.
  intros Hn. rewrite length_take, Nat.min_l by exact Hn. apply Z2Nat.id, needed_nonneg. unfold blocks_for. lia.
Qed.

Lemma chunk_run t f L ic ip i nb off src m : ic_inode ic !! ip = Some i -> file_at g sb f i nb -> tx_is t g f L ∅ -> one_map m ->
  (size L + 8 < fr_cap g)%nat -> (size L + 9 < NBUF)%nat -> 0 <= off <= i_size i -> Z.of_nat (length src) <= max_write ->
  off + Z.of_nat (length src) <= MAXFILE * BSIZE -> (fresh nb off src <= length (frees f sb))%nat ->
  let k := fresh nb off src in
  exists t' f' L' i' W, writei ip off src (mk_fs t sb ic) = Ret (Z.of_nat (length src)) (mk_fs t' sb (set_inode ic ip i')) /\
    tx_is t' g f' L' ∅ /\ L' ⊆ W /\ (size W <= size L + 7)%nat /\ budget g sb W /\ home_of sb i ∈ W /\
    appended g sb f i nb f' i' off src (take k (frees f sb)) (drop k (frees f sb)).
Proof.
  intros Hip Hf Ht Hm Hcap Hbuf Hoff Hn Hend Hk k. pose proof (fa_size _ _ _ _ _ Hf) as Hsz.
  pose proof (fresh_length f nb off src Hk) as Hnews.
  destruct (chunk_budget f L i nb off (Z.of_nat (length src)) m (take k (frees f sb)) Hm Hcap Hbuf ltac:(lia) ltac:(lia) Hnews)
    as (W & HL & HW & Hh & Hcov & Hs).
  destruct (writei_append g sb t f L ic ip i W nb off src (take k (frees f sb)) (drop k (frees f sb)))
    as (t' & f' & L' & i' & E & Ht' & HL1 & HW1 & Hap); try assumption; [symmetry; apply take_drop|].
  exists t', f', L', i', W. auto 10.
Qed.

Lemma no_blocks f i : inode_blocks g sb f i 0 (NDIRECT <? 0) -> i_addrs i = replicate 13 0.
Proof.
  intros Hb. apply list_eq_same_length with (n := 13%nat); [reflexivity | apply Hb|]. intros n x y Hn Hx Hy.
  apply lookup_replicate in Hy as [-> _]. apply (nth_lookup_Some _ _ 0) in Hx. subst x. destruct (decide (n = 12%nat)) as [->|Hne].
  - apply (ob_noind _ _ _ _ _ _ Hb). reflexivity.
  - rewrite <- (Nat2Z.id n). apply (ob_direct _ _ _ _ _ _ Hb). unfold NDIRECT. lia.
Qed.
(** After growth and truncation the free blocks are the same. *)
Lemma frees_again f i nb off f1 i1 src k f2 : appended g sb f i nb f1 i1 off src (take k (frees f sb)) (drop k (frees f sb)) ->
  own f i nb (NDIRECT <? nb) = [] -> truncated g sb f1 i1 (blocks_for nb (off + Z.of_nat (length src))) f2 -> frees f2 sb = frees f sb.
Proof.
  intros Hap Hown Htr. apply frees_ext. intros c Hc. rewrite (tr_used _ _ _ _ _ _ Htr) by exact Hc.
  assert (used f1 sb c = false <-> c ∈ drop k (frees f sb)) as Hu1.
  { rewrite <- (ap_frees _ _ _ _ _ _ _ _ _ _ _ Hap), elem_of_frees. tauto. }
  assert (used f sb c = false <-> c ∈ take k (frees f sb) \/ c ∈ drop k (frees f sb)) as Hu.
  { rewrite <- elem_of_app, take_drop, elem_of_frees. tauto. }
  assert (c ∈ own f1 i1 (blocks_for nb (off + Z.of_nat (length src))) (NDIRECT <? blocks_for nb (off + Z.of_nat (length src))) <->
    c ∈ take k (frees f sb)) as Ho.
  { rewrite (ap_own _ _ _ _ _ _ _ _ _ _ _ Hap), Hown. reflexivity. }
  destruct (used f sb c) eqn:E.
  - rewrite bool_decide_false by (rewrite Ho; intros Hin; assert (true = false) as Ex by tauto; discriminate Ex). rewrite andb_true_r.
    destruct (used f1 sb c); [reflexivity|]. symmetry. tauto.
  - destruct (proj1 Hu eq_refl) as [Hin|Hin].
    + rewrite bool_decide_true by tauto. apply andb_false_r.
    + rewrite (proj2 Hu1 Hin). reflexivity.
Qed.
End Chunk.

(** C8. A write of the size that filewrite() gives to writei() in one
    transaction makes at most 7 log entries, fewer than the MAXOPBLOCKS that
    begin_op() reserves, wherever it is in the file: inode, map, indirect
    block and 4 data blocks at most.  When the blocks it needs are free it
    succeeds and the file grows. *)
Theorem write_fits_transaction `{Ctx} {T} `{TxLaws T} `{Devsw (fstate T)} g sb t f L ic ip i nb off src m
    (Hip : ic_inode ic !! ip = Some i) (Hf : file_at g sb f i nb) (Ht : tx_is t g f L ∅) (Hm : one_map sb m)
    (Hcap : (size L + 8 < fr_cap g)%nat) (Hbuf : (size L + 9 < NBUF)%nat) (Hoff : 0 <= off <= i_size i)
    (Hn : Z.of_nat (length src) <= max_write) (Hend : off + Z.of_nat (length src) <= MAXFILE * BSIZE)
    (Hfree : (fresh nb off src <= length (frees f sb))%nat) :
  exists t' f' L' i', writei ip off src (mk_fs t sb ic) = Ret (Z.of_nat (length src)) (mk_fs t' sb (set_inode ic ip i')) /\
    tx_is t' g f' L' ∅ /\ (size L' <= size L + 7)%nat /\ Z.of_nat 7 < MAXOPBLOCKS /\
    file_at g sb f' i' (blocks_for nb (off + Z.of_nat (length src))) /\
    i_size i' = Z.max (i_size i) (off + Z.of_nat (length src)).
Proof.
  destruct (chunk_run g sb t f L ic ip i nb off src m) as (t' & f' & L' & i' & W & E & Ht' & HW & Hs & _ & _ & Hap); try assumption.
  exists t', f', L', i'. apply subseteq_size in HW. destruct (ap_inode _ _ _ _ _ _ _ _ _ _ _ Hap) as [a Ea].
  split_and!; try assumption; [lia | reflexivity | apply Hap | rewrite Ea; reflexivity].
Qed.

(** C9. itrunc() undoes a write: after a write to an empty file and itrunc()
    the cached inode is the one before, its copy on the disk too, every
    block is free that was free and no other one, and all blocks but those
    written and the map's are as they were. *)
Theorem trunc_undoes_write `{Ctx} {T} `{TxLaws T} `{Devsw (fstate T)} g sb t f L ic ip i src m
    (Hip : ic_inode ic !! ip = Some i) (Hf : file_at g sb f i 0) (Ht : tx_is t g f L ∅) (Hm : one_map sb m)
    (Hcap : (size L + 8 < fr_cap g)%nat) (Hbuf : (size L + 9 < NBUF)%nat)
    (Hn : Z.of_nat (length src) <= max_write) (Hfree : (fresh 0 0 src <= length (frees f sb))%nat) :
  exists t' f' L', (writei ip 0 src ;! itrunc ip) (mk_fs t sb ic) = Ret tt (mk_fs t' sb ic) /\
    tx_is t' g f' L' ∅ /\ file_at g sb f' i 0 /\ frees f' sb = frees f sb /\
    (forall j, (j < 8)%nat -> j <> slot_of i -> get_dinode j (f' (home_of sb i)) = get_dinode j (f (home_of sb i))) /\
    (forall b, b ∉ take (fresh 0 0 src) (frees f sb) -> ~ map_block sb b -> b <> home_of sb i -> f' b = f b).
Proof.
  pose proof (fa_size _ _ _ _ _ Hf) as Hsize. change max_write with 1536 in Hn.
  destruct (chunk_run g sb t f L ic ip i 0 0 src m) as (t1 & f1 & L1 & i1 & W & E1 & Ht1 & HW & _ & Hbud & Hh & Hap);
    try assumption; unfold MAXFILE, BSIZE in *; try lia.
  destruct (ap_inode _ _ _ _ _ _ _ _ _ _ _ Hap) as [a Ea]. pose proof (ap_file _ _ _ _ _ _ _ _ _ _ _ Hap) as Hf1.
  assert (home_of sb i1 = home_of sb i /\ slot_of i1 = slot_of i) as [Eh Es] by (rewrite Ea; destruct i; split; reflexivity).
  destruct (itrunc_eq g sb t1 f1 L1 (set_inode ic ip i1) ip i1 W _ (set_inode_lookup ic ip i i1 Hip) Hf1 Ht1 Hbud HW ltac:(rewrite Eh; exact Hh))
    as (t2 & f2 & L2 & E2 & Ht2 & _ & Htr).
  assert (emptied i1 = i) as Ei.
  { assert (i_addrs i = replicate 13 0) as Eaddrs by (apply no_blocks with g sb f, Hf).
    assert (i_size i = 0) as Ez by lia. rewrite Ea. clear -Eaddrs Ez. destruct i. cbn in Eaddrs, Ez. subst. reflexivity. }
  rewrite Ei, set_inode_twice in E2.
  assert (set_inode ic ip i = ic) as Eic by (unfold set_inode; rewrite list_insert_id by exact Hip; destruct ic; reflexivity).
  rewrite Eic in E2. exists t2, f2, L2. split; [rewrite (bind_eq _ _ _ _ _ E1); exact E2|]. split; [exact Ht2|].
  pose proof (tr_file _ _ _ _ _ _ Htr) as Hf2. rewrite Ei in Hf2. split; [exact Hf2|].
  split; [eapply frees_again; [exact Hap | reflexivity | exact Htr]|]. split.
  - intros j Hj Hne. rewrite <- Eh, (tr_slots _ _ _ _ _ _ Htr), Eh by (try exact Hj; rewrite Es; exact Hne). apply (ap_slots _ _ _ _ _ _ _ _ _ _ _ Hap); assumption.
  - intros b Hb Hmap Hne. rewrite (tr_same _ _ _ _ _ _ Htr) by (try exact Hmap; rewrite Eh; exact Hne).
    apply (ap_same _ _ _ _ _ _ _ _ _ _ _ Hap); assumption.
Qed.

Section Witnesses.
#[local] Instance write_ctx : Ctx := {| cpu_id := 0; cur_pid := 1 |}.
#[local] Instance write_devices {S} : Devsw S := {| dev_read _ := None; dev_write _ := None |}.

Example write_fits_transaction_witness : exists t', exists i', writei 0 500 (replicate 1536 1) (mk_fs (started grow_img) demo_sb grow_ic) =
  Ret 1536 (mk_fs t' demo_sb (set_inode grow_ic 0 i')) /\ i_size i' = 2036.
Proof.
  destruct (write_fits_transaction (start_frame grow_img) demo_sb (started grow_img) grow_img ∅ grow_ic 0 demo_file 2 500 (replicate 1536 1) 40
    eq_refl grow_file grow_tx_is grow_map) as (t' & f' & L' & i' & E & _ & _ & _ & _ & Es).
  - vm_compute. lia.
  - vm_compute. lia.
  - cbn. lia.
  - rewrite length_replicate. vm_compute. discriminate.
  - rewrite length_replicate. vm_compute. discriminate.
  - vm_compute. lia.
  - rewrite length_replicate in E, Es. exists t', i'. split; [exact E | exact Es].
Defined.
Example trunc_undoes_write_witness : exists t', (writei 1 0 (replicate 700 1) ;! itrunc 1) (mk_fs (started grow_img) demo_sb grow_ic) =
  Ret tt (mk_fs t' demo_sb grow_ic).
Proof.
  destruct (trunc_undoes_write (start_frame grow_img) demo_sb (started grow_img) grow_img ∅ grow_ic 1 empty_file (replicate 700 1) 40
    eq_refl grow_empty grow_tx_is grow_map) as (t' & f' & L' & E & _);
    [vm_compute; lia | vm_compute; lia | rewrite length_replicate; vm_compute; discriminate | vm_compute; lia |].
  exists t'. exact E.
Defined.
End Witnesses.
