(* ===== verification/FsCrash.v ===== *)
(** * Crash safety of file writes

    filewrite() of [File.v] over writei() of [Fs.v] over the log of [Log.v]
    over any cache: a write of any length is a sequence of transactions, and
    a crash after any number of writes to the disk leaves, once initlog() has
    run, the file with a whole number of its parts written. *)
From S2P Require Import Prelude.
From S2P Require Import Kalloc.
From S2P Require Import Sleeplock.
From S2P Require Import Layout.
From S2P Require Import Bio.
From S2P Require Import Cache.
From S2P Require Import Lru.
From S2P Require Import BioCache.
From S2P Require Import Log.
From S2P Require Import LogProofs.
From S2P Require Import Tx.
From S2P Require Import Fs.
From S2P Require Import FsProofs.
From S2P Require Import FsGrow.
From S2P Require Import FsTrunc.
From S2P Require Import Pipe.
From S2P Require Import Proc.
From S2P Require Import File.
From S2P Require Import FileWrite.

(** ** Frames that differ in the disk only *)
Section Frames.
Variable sb : superblock.
Definition alike_frames (g g' : frame) : Prop :=
  fr_cap g = fr_cap g' /\ fr_size g = fr_size g' /\ forall n, fr_home g n <-> fr_home g' n.

Lemma alloc_frame g g' f : alike_frames g g' -> alloc_ok g f sb -> alloc_ok g' f sb.
Proof.
  intros (_ & E & Hh) [[B1 B2 B3 B4 B5 B6] Hs Hz]. split; [|exact Hs | exact Hz]. split; rewrite <- ?E; try assumption.
  - intros b Hb. rewrite <- Hh. apply B4, Hb.
  - intros b Hb U. apply Hh, B5; assumption.
Qed.
Lemma data_frame g g' f b : alike_frames g g' -> data_block g sb f b -> data_block g' sb f b.
Proof. intros (_ & _ & Hh) [D1 D2 D3 D4 D5]. split; try assumption. apply Hh, D4. Qed.
Lemma file_frame g g' f i nb : alike_frames g g' -> file_at g sb f i nb -> file_at g' sb f i nb.
Proof.
  intros Hg [[O1 O2 O3 O4 O5 O6 O7 O8 O9 O10] A1 A2 A3 A4 A5 A6]. split; try assumption.
  - split; try assumption. intros b Hb. eapply data_frame; eauto.
  - eapply alloc_frame; eassumption.
  - eapply data_frame; eassumption.
Qed.
Lemma appended_frame g g' f i nb f' i' off src news fl : alike_frames g g' ->
  appended g sb f i nb f' i' off src news fl -> appended g' sb f i nb f' i' off src news fl.
Proof. intros Hg [A1 A2 A3 A4 A5 A6 A7]. split; try assumption. eapply file_frame; eassumption. Qed.

(** The lock of the inode plays no part. *)
Definition with_lock (i : inode) (l : sleeplock) : inode := i <| i_lock := l |>.
Lemma file_lock g f i nb l : file_at g sb f i nb -> file_at g sb f (with_lock i l) nb.
Proof.
  intros [[O1 O2 O3 O4 O5 O6 O7 O8 O9 O10] A1 A2 A3 A4 A5 A6]. split; try assumption. split; assumption.
Qed.
Lemma appended_lock g f i nb f' i' off src news fl l l' : appended g sb f (with_lock i l) nb f' i' off src news fl ->
  appended g sb f (with_lock i l') nb f' (with_lock i' l') off src news fl.
Proof.
  intros [A1 [a A2] A3 A4 A5 A6 A7]. split; try assumption.
  - apply file_lock, A1.
  - exists a. rewrite A2. destruct i. reflexivity.
Qed.

(** ** Writes one after the other *)
Variable g : frame.

Lemma blocks_for_nil f i nb off : file_at g sb f i nb -> 0 <= off <= i_size i -> blocks_for nb (off + 0) = nb.
Proof.
  intros Hf Hoff. pose proof (fa_size _ _ _ _ _ Hf). unfold blocks_for, BSIZE in *. rewrite Z.max_l; [reflexivity|]. dlia.
Qed.
Lemma appended_nil f i nb off : file_at g sb f i nb -> 0 <= off <= i_size i -> appended g sb f i nb f i off [] [] (frees f sb).
Proof.
  intros Hf Hoff. pose proof (blocks_for_nil f i nb off Hf Hoff) as Eb. split; cbn [length]; change (Z.of_nat 0) with 0; rewrite ?Eb; try reflexivity.
  - exact Hf.
  - exists (i_addrs i). rewrite Z.max_l by lia. destruct i. reflexivity.
  - rewrite app_nil_r. reflexivity.
  - intros k Hk. destruct (Z.leb_spec off k), (Z.ltb_spec k (off + 0)); try reflexivity. lia.
Qed.
Lemma appended_trans f i nb f1 i1 f2 i2 off src1 src2 news1 news2 fl1 fl2 : 0 <= off ->
  let off1 := off + Z.of_nat (length src1) in
  appended g sb f i nb f1 i1 off src1 news1 fl1 ->
  appended g sb f1 i1 (blocks_for nb off1) f2 i2 off1 src2 news2 fl2 ->
  appended g sb f i nb f2 i2 off (src1 ++ src2) (news1 ++ news2) fl2.
Proof.
  intros Hoff off1 [A1 [a1 A2] A3 A4 A5 A6 A7] [B1 [a2 B2] B3 B4 B5 B6 B7].
  assert (off + Z.of_nat (length (src1 ++ src2)) = off1 + Z.of_nat (length src2)) as El by (unfold off1; rewrite length_app; lia).
  assert (blocks_for (blocks_for nb off1) (off1 + Z.of_nat (length src2)) = blocks_for nb (off1 + Z.of_nat (length src2))) as Eb.
  { unfold blocks_for. rewrite <- Z.max_assoc. f_equal. apply Z.max_r, Z.div_le_mono; unfold BSIZE; lia. }
  cbv zeta in A3, B3. fold off1 in A1, A2, A3, A5. rewrite Eb in *. assert (home_of sb i1 = home_of sb i /\ slot_of i1 = slot_of i) as [Eh Es] by (rewrite A2; split; reflexivity).
  assert (i_size i1 = Z.max (i_size i) off1) as Esz by (rewrite A2; reflexivity). rewrite Esz in *.
  assert (i_size i2 = Z.max (Z.max (i_size i) off1) (off1 + Z.of_nat (length src2))) as Esz2 by (rewrite B2; reflexivity).
  split; rewrite ?El.
  - exact B1.
  - exists a2. rewrite B2, A2. replace (Z.max (i_size i) (off1 + Z.of_nat (length src2))) with (Z.max (Z.max (i_size i) off1) (off1 + Z.of_nat (length src2))) by lia.
    destruct i. reflexivity.
  - cbv zeta. rewrite B3, A3, app_assoc. reflexivity.
  - exact B4.
  - intros k Hk. rewrite B5 by exact Hk. destruct (Z.leb_spec off1 k) as [H1|H1], (Z.ltb_spec k (off1 + Z.of_nat (length src2))) as [H2|H2]; cbn [andb].
    + rewrite (proj2 (Z.leb_le off k)) by lia. rewrite app_nth2 by lia. f_equal. lia.
    + rewrite A5 by lia. destruct (Z.leb_spec off k); [|reflexivity]. rewrite (proj2 (Z.ltb_ge k _)) by lia. reflexivity.
    + rewrite A5 by lia. destruct (Z.leb_spec off k); [|reflexivity]. rewrite (proj2 (Z.ltb_lt k _)) by lia. cbn [andb]. rewrite app_nth1 by lia. reflexivity.
    + lia.
  - intros b Hb Hm Hne. rewrite app_assoc in Hb. rewrite B6; [apply A6 | | exact Hm | rewrite Eh; exact Hne]; try assumption.
    + intros Hin. apply Hb, elem_of_app. left. exact Hin.
    + rewrite A3. exact Hb.
  - intros j Hj Hne. rewrite <- Eh, B7, Eh by (try exact Hj; rewrite Es; exact Hne). apply A7; assumption.
Qed.
End Frames.

(** ** What the contents of the log area are does not matter *)
Section Areas.
Variables (sb : superblock) (g : frame) (area : Z -> bool).
Hypothesis Harea : forall b, fr_home g b -> area b = false.
Definition agree (F f : Z -> block) : Prop := forall b, area b = false -> F b = f b.
Definition outside_of (F f : Z -> block) : Z -> block := fun b => if area b then f b else F b.
Lemma agree_outside F f : agree F (outside_of F f).
Proof. intros b Hb. unfold outside_of. rewrite Hb. reflexivity. Qed.

Lemma map_area F b : alloc_ok g F sb -> map_block sb b -> area b = false.
Proof. intros Ha (c & Hc & ->). apply Harea. apply (bm_map _ _ _ (al_map _ _ _ Ha)), Hc. Qed.
Lemma agree_map F f : alloc_ok g F sb -> agree F f -> forall b, map_block sb b -> f b = F b.
Proof. intros Ha Hf b Hb. symmetry. apply Hf. eapply map_area; eassumption. Qed.
Lemma agree_frees F f : alloc_ok g F sb -> agree F f -> frees f sb = frees F sb.
Proof. intros Ha Hf. apply frees_ext. apply used_agree, agree_map; assumption. Qed.

Lemma agree_block F f i nb hi k : inode_blocks g sb F i nb hi -> agree F f -> k < NDIRECT \/ hi = true -> block_of f i k = block_of F i k.
Proof.
  intros Hb Hf Hk. unfold block_of. destruct (Z.ltb_spec k NDIRECT) as [Hlt|Hge]; [reflexivity|]. destruct Hk as [Hk| ->]; [lia|].
  f_equal. symmetry. apply Hf, Harea. apply (db_home _ _ _ _ (ob_good _ _ _ _ _ _ Hb (indirect i) ltac:(apply elem_of_own; right; auto))).
Qed.
Lemma agree_own F f i nb hi : inode_blocks g sb F i nb hi -> agree F f -> own f i nb hi = own F i nb hi.
Proof.
  intros Hb Hf. unfold own. f_equal. apply map_ext_in. intros k Hk. eapply agree_block; [exact Hb | exact Hf|].
  apply list_elem_of_In, elem_of_seqZ in Hk. destruct (Z.ltb_spec k NDIRECT); [left; assumption | right]. apply (ob_hi _ _ _ _ _ _ Hb). lia.
Qed.
Lemma agree_bytes F f i nb k : file_at g sb F i nb -> agree F f -> 0 <= k < i_size i -> file_byte f i k = file_byte F i k.
Proof.
  intros Hf Ha Hk. pose proof (fa_blocks _ _ _ _ _ Hf) as Hb. pose proof (fa_size _ _ _ _ _ Hf) as Hs.
  assert (0 <= k / BSIZE < nb) as Hn by (unfold BSIZE in *; clear -Hk Hs; dlia).
  assert (block_of f i (k / BSIZE) = block_of F i (k / BSIZE)) as E.
  { eapply agree_block; [exact Hb | exact Ha|]. destruct (Z.ltb_spec (k / BSIZE) NDIRECT); [left; assumption | right; apply Z.ltb_lt; lia]. }
  unfold file_byte. rewrite E. f_equal. symmetry. apply Ha, Harea.
  apply (db_home _ _ _ _ (ob_good _ _ _ _ _ _ Hb _ ltac:(apply elem_of_own; left; exists (k / BSIZE); split; [exact Hn | reflexivity]))).
Qed.
Lemma agree_file F f i nb : file_at g sb F i nb -> agree F f -> file_at g sb f i nb.
Proof.
  intros Hf Ha. pose proof (agree_own F f i nb _ (fa_blocks _ _ _ _ _ Hf) Ha) as Eo. pose proof (agree_map F f (fa_alloc _ _ _ _ _ Hf) Ha) as Em.
  destruct Hf as [Hb A1 A2 A3 A4 A5 A6]. split; rewrite ?Eo; try assumption.
  - pose proof (fun k => agree_block F f i nb _ k Hb Ha) as Ek. destruct Hb as [O1 O2 O3 O4 O5 O6 O7 O8 O9 O10]. split; rewrite ?Eo; try assumption.
    + intros b Hb. eapply data_agree; [exact Em | apply O7, Hb].
    + intros E k Hk1 Hk2. rewrite Ek by (right; exact E). apply O10; assumption.
  - eapply alloc_agree; [exact A1 | exact Em].
  - eapply data_agree; [exact Em | exact A4].
  - rewrite <- (Ha _ (Harea _ (db_home _ _ _ _ A4))). exact A6.
Qed.
Lemma agree_appended F f i nb F' i' off src news fl : file_at g sb F i nb -> agree F f -> 0 <= off <= i_size i ->
  appended g sb F i nb F' i' off src news fl -> appended g sb f i nb (outside_of F' f) i' off src news fl.
Proof.
  intros Hf Ha Hoff [A1 A2 A3 A4 A5 A6 A7]. pose proof (agree_outside F' f) as Ha'.
  pose proof (agree_own F f i nb _ (fa_blocks _ _ _ _ _ Hf) Ha) as Eo. cbv zeta in A3.
  pose proof (agree_own F' _ i' _ _ (fa_blocks _ _ _ _ _ A1) Ha') as Eo'. pose proof A2 as [a Ei].
  assert (home_of sb i' = home_of sb i) as Eh by (rewrite Ei; reflexivity).
  assert (area (home_of sb i) = false) as Hh by exact (Harea _ (db_home _ _ _ _ (fa_home _ _ _ _ _ Hf))). split; cbv zeta; rewrite ?Eo, ?Eo'; try assumption.
  - eapply agree_file; eassumption.
  - rewrite (agree_frees F' _ (fa_alloc _ _ _ _ _ A1) Ha'). exact A4.
  - intros k Hk. rewrite (agree_bytes F' _ _ _ k A1 Ha' Hk), A5 by exact Hk.
    destruct (Z.leb_spec off k) as [H1|H1], (Z.ltb_spec k (off + Z.of_nat (length src))) as [H2|H2]; cbn [andb]; try reflexivity; symmetry;
      apply (agree_bytes F f i nb k Hf Ha); [|lia|lia]. assert (i_size i' = Z.max (i_size i) (off + Z.of_nat (length src))) as Es by (rewrite Ei; reflexivity). lia.
  - intros b Hb Hm Hne. unfold outside_of. destruct (area b) eqn:Eb; [reflexivity|]. rewrite A6 by assumption. apply Ha, Eb.
  - intros j Hj Hne. unfold outside_of. rewrite Hh, A7 by assumption. rewrite (Ha _ Hh). reflexivity.
Qed.
End Areas.

(** ** Transactions on the log *)
Section Ops.
Context `{Ctx} {S : Type} `{CacheLaws S}.
#[local] Abbreviation T := (lstate S).
Implicit Types (t : T) (f h : Z -> block).

(** begin_op() of an operation that does not have to wait. *)
#[export] Instance log_op_ops : OpOps (lstate S) := {|
  op_begin := in_log (Log.begin_op []);
  op_end := Log.end_op |}.

Definition disk_of t : disk := c_disk (ls_cache t).
Definition area_of t (b : Z) : bool := (lg_start (ls_log t) <=? b) && (b <? lg_start (ls_log t) + lg_size (ls_log t)).
Lemma area_false t b : area_of t b = false <-> ~ in_area (ls_log t) b.
Proof.
  unfold area_of, in_area. destruct (Z.leb_spec (lg_start (ls_log t)) b), (Z.ltb_spec b (lg_start (ls_log t) + lg_size (ls_log t))); cbn; split; try discriminate; try tauto; intros; lia.
Qed.

(** No operation runs and all is at home on the disk: the blocks outside of
    the log are [f]. *)
Record idle t f : Prop := {
  id_log : log_inv (ls_log t) (ls_cache t) [];
  id_lock : lg_lock (ls_log t) = None;
  id_ops : lg_outstanding (ls_log t) = 0;
  id_commit : lg_committing (ls_log t) = 0;
  id_hold : c_hold (ls_cache t) = ∅;
  id_content : agree (area_of t) (c_content (ls_cache t)) f }.
Definition frame_of t : frame :=
  mk_frame (Z.to_nat (lg_size (ls_log t) - 1)) (d_size (disk_of t)) (fun b => home (ls_log t) (disk_of t) b /\ b <> 1) (d_img (disk_of t))
    (lg_start (ls_log t), lg_size (ls_log t)) 1 (disk_of t).
Lemma frame_area t b : fr_home (frame_of t) b -> area_of t b = false.
Proof. intros [[_ Hb] _]. apply area_false, Hb. Qed.

Lemma begin_view t f : idle t f -> exists t1, op_begin t = Ret tt t1 /\ tx_is t1 (frame_of t) (c_content (ls_cache t)) ∅ ∅.
Proof.
  intros [[G1 G2 G3 G4 G5 G6 G7 G8 G9] Hl Ho Hc Hh _]. destruct t as [lg s]. cbn [ls_log ls_cache] in *.
  exists (mk_ls (lg <| lg_outstanding ::= Z.add 1 |>) s). split.
  - apply in_log_ret. rewrite begin_op_eq by exact Hl. rewrite Hc, G3, Ho. reflexivity.
  - exists []. split_and!; try reflexivity; try assumption.
    + split; assumption.
    + cbn. rewrite Ho. cbn. lia.
    + cbn. unfold sees. rewrite G8, Hh. auto.
    + intros n [Hn _]. exact Hn.
    + intros n Hn%elem_of_empty. contradiction.
    + cbn. rewrite Ho. reflexivity.
Qed.

(** [t'] is [t] after operations: the log is at its place. *)
Definition same_place t t' : Prop :=
  lg_start (ls_log t') = lg_start (ls_log t) /\ lg_size (ls_log t') = lg_size (ls_log t) /\ d_size (disk_of t') = d_size (disk_of t).
Lemma place_refl t : same_place t t.
Proof. repeat split. Qed.
Lemma place_trans t t1 t2 : same_place t t1 -> same_place t1 t2 -> same_place t t2.
Proof. unfold same_place. intros (-> & -> & ->). auto. Qed.
Lemma durable_ext lg d x h lg' d' x' h' : lg_start lg' = lg_start lg -> lg_size lg' = lg_size lg -> d_size d' = d_size d ->
  (forall n, x' n = x n) -> (forall n, ~ in_area lg n -> h' n = h n) -> durable lg d x h -> durable lg' d' x' h'.
Proof.
  intros E1 E2 E3 Ex Eh (l & Hx & [Hl Hall] & Hm). exists l. rewrite E1, Ex. split; [exact Hx|]. split.
  - split; [rewrite E2; exact Hl|]. eapply Forall_impl; [exact Hall|]. intros b [Hb Hn]. unfold home, in_area in *. rewrite E1, E2, E3. auto.
  - intros m Hn. unfold in_area in *. rewrite E1, E2 in Hn. rewrite (Eh m Hn), <- (Hm m Hn).
    rewrite (home_writes_ext lg x' x l) by (try lia; intros; apply Ex). apply apply_writes_ext, Ex.
Qed.

Lemma end_view t g f L : tx_is t g f L ∅ -> fr_ops g = 1 ->
  exists t' ws m, op_end t = Ret tt t' /\ idle t' f /\ lg_start (ls_log t') = fst (fr_area g) /\ lg_size (ls_log t') = snd (fr_area g) /\
    disk_of t' = disk_writes ws (fr_disk g) /\ (forall p, p ∈ ws -> area_of t' p.1 = true \/ fr_home g p.1) /\
    forall k, durable (ls_log t') (fr_disk g) (d_img (disk_writes (take k ws) (fr_disk g))) (if decide (k <= m)%nat then fr_base g else f).
Proof.
  destruct t as [lg s]. intros (l & Hinv & -> & Hlk & _ & (Hok & Hf & Hd & Hh & _) & _ & _ & _ & Hlog & Hbase & Hcom & Harea & Hops & Hdisk) Hone.
  cbn [ls_log ls_cache] in *. rewrite Hops in Hone.
  set (lg1 := lg <| lg_outstanding := 0 |> <| lg_committing := 1 |>).
  assert (log_inv lg1 s l) as Hinv1 by (destruct Hinv; split; assumption).
  assert (exists s' ws, commit (mk_ls lg1 s) = Ret tt (mk_ls (lg1 <| lg_n := 0 |>) s') /\ log_inv (lg1 <| lg_n := 0 |>) s' [] /\ c_hold s' = ∅ /\
    c_disk s' = disk_writes ws (c_disk s) /\ (forall p, p ∈ ws -> in_area lg1 p.1 \/ p.1 ∈ l) /\ (forall m, ~ in_area lg1 m -> c_content s' m = c_content s m) /\
    forall k, durable lg1 (c_disk s) (apply_writes (take k ws) (d_img (c_disk s))) (if decide (k <= length l)%nat then d_img (c_disk s) else c_content s))
    as (s' & ws & E & Hinv' & Hh' & Hd' & Hws & Hc' & Hk).
  { destruct l as [|b l].
    - exists s, []. pose proof (inv_n _ _ _ Hinv1) as En. split.
      { unfold commit. step by (apply in_log_ret; reflexivity). rewrite En. cbn. f_equal. f_equal. unfold lg1 in *. destruct lg. cbn in *. subst. reflexivity. }
      split; [destruct Hinv1; split; assumption || reflexivity|]. split; [exact Hh|]. split; [reflexivity|]. split; [intros p Hp%elem_of_nil; contradiction|]. split; [reflexivity|].
      intros k. rewrite take_nil. exists []. split; [apply (inv_header _ _ _ Hinv1)|]. split; [apply Hinv1|]. intros m _. cbn.
      destruct (decide _); [reflexivity|]. symmetry. apply law_clean; [exact Hok | rewrite Hd; cbn; set_solver |]. intros [i Hi]. rewrite Hh in Hi. discriminate Hi.
    - destruct (commit_safe lg1 s (b :: l) Hinv1 Hh ltac:(discriminate)) as (s' & ws & E & Hinv' & Hh' & Hd' & Hws & Hm & Hk).
      exists s', ws. split_and!; try assumption. intros m Hn. apply (Hm m Hn). }
  set (lg2 := (lg1 <| lg_n := 0 |>) <| lg_committing := 0 |>).
  exists (mk_ls lg2 s'), ws, (length l). rewrite Harea, Hdisk. split; [|split; [|split; [reflexivity|split; [reflexivity|split; [exact Hd'|split]]]]].
  - cbn [op_end log_op_ops]. unfold Log.end_op. step by (apply in_log_ret; rewrite end_op_start_eq by assumption; rewrite Hone; reflexivity).
    fold lg1. step by (exact E). apply in_log_ret. unfold end_op_finish, wakeup. unfold lg2, lg1. destruct lg. cbn in Hlk |- *. subst. run. reflexivity.
  - split; try assumption; try reflexivity.
    + destruct Hinv'. split; assumption.
    + intros b Hb%area_false. cbn [ls_cache]. rewrite Hc' by exact Hb. apply Hf.
  - intros p [Hp|Hp]%Hws.
    + left. unfold area_of. cbn. unfold in_area in Hp. cbn in Hp. apply andb_true_iff. rewrite Z.leb_le, Z.ltb_lt. exact Hp.
    + right. apply Hlog, elem_of_list_to_set, Hp.
  - intros k. eapply durable_ext; [..|apply (Hk k)]; try reflexivity; intros n; [apply disk_writes_img|]. intros _.
    destruct (decide _); [apply Hbase | symmetry; apply Hf].
Qed.
End Ops.

(** ** One part of a write *)
Section Part.
Context `{Ctx} {S : Type} `{CacheLaws S} `{Devsw (fstate (lstate S))}.
#[local] Abbreviation T := (lstate S).
Implicit Types (t : T) (f h : Z -> block) (ic : icache).
Variables (sb : superblock) (G : frame) (m : Z).
Hypothesis Hmap : one_map sb m.

(** Cached, valid, nobody has it locked. *)
Definition at_rest (i : inode) : Prop := 1 <= i_ref i /\ i_valid i <> 0 /\ i_lock i = mk_sleeplock 0 None 0.

Lemma on_lock_eq t ic ip i {A} (c : M sleeplock A) a l : ic_inode ic !! ip = Some i -> c (i_lock i) = Ret a l ->
  on_inode ip (zoom i_lock c) (mk_fs t sb ic) = Ret a (mk_fs t sb (set_inode ic ip (with_lock i l))).
Proof. intros Hi E. unfold on_inode, in_icache, zoom, elt, set_field. cbn. rewrite Hi, E. reflexivity. Qed.
Lemma ilock_eq t ic ip i : ic_inode ic !! ip = Some i -> at_rest i ->
  ilock (Some ip) (mk_fs t sb ic) = Ret tt (mk_fs t sb (set_inode ic ip (with_lock i (mk_sleeplock 1 None cur_pid)))).
Proof.
  intros Hi (Hr & Hv & Hl). unfold ilock. step by reflexivity. step by (apply inode_get_eq, Hi). rewrite (proj2 (Z.ltb_ge _ _)) by lia.
  step by reflexivity. step by (apply (on_lock_eq _ _ _ _ _ _ (mk_sleeplock 1 None cur_pid) Hi); rewrite Hl, acquiresleep_eq by reflexivity; reflexivity).
  step by (apply inode_get_eq; eapply set_inode_lookup, Hi). cbn [i_valid]. change (i_valid (with_lock i _)) with (i_valid i).
  rewrite (proj2 (Z.eqb_neq _ _) Hv). reflexivity.
Qed.
Lemma iunlock_eq t ic ip i : ic_inode ic !! ip = Some i -> 1 <= i_ref i -> i_lock i = mk_sleeplock 1 None cur_pid ->
  iunlock (Some ip) (mk_fs t sb ic) = Ret tt (mk_fs t sb (set_inode ic ip (with_lock i (mk_sleeplock 0 None 0)))).
Proof.
  intros Hi Hr Hl. unfold iunlock. step by reflexivity.
  assert (with_lock i (mk_sleeplock 1 None cur_pid) = i) as El by (rewrite <- Hl; destruct i; reflexivity).
  assert (set_inode ic ip i = ic) as Ei by (unfold set_inode; rewrite list_insert_id by exact Hi; destruct ic; reflexivity).
  step by (etransitivity; [apply (on_lock_eq _ _ _ _ _ true (mk_sleeplock 1 None cur_pid) Hi); rewrite Hl; unfold holdingsleep; run; rewrite Z.eqb_refl; reflexivity | rewrite El, Ei; reflexivity]).
  step by (apply inode_get_eq, Hi). rewrite (proj2 (Z.ltb_ge _ _)) by lia. step by reflexivity.
  apply (on_lock_eq _ _ _ _ _ _ _ Hi). rewrite Hl. apply releasesleep_eq. reflexivity.
Qed.

(** After any number of the writes to the disk that lead from [t] to [t'],
    none to the superblock, the disk stands for blocks with [P]. *)
Definition crash_safe t t' (P : (Z -> block) -> Prop) : Prop :=
  exists ws, disk_of t' = disk_writes ws (disk_of t) /\ (forall p, p ∈ ws -> area_of t p.1 = true \/ p.1 <> 1) /\
    forall k, exists h, durable (ls_log t) (disk_of t) (d_img (disk_writes (take k ws) (disk_of t))) h /\ P h.

Lemma part_run t f ic ip i nb off part : idle t f -> ic_inode ic !! ip = Some i -> at_rest i -> alike_frames (frame_of t) G -> file_at G sb f i nb ->
  10 <= lg_size (ls_log t) -> 0 <= off <= i_size i -> Z.of_nat (length part) <= max_write -> off + Z.of_nat (length part) <= MAXFILE * BSIZE ->
  (fresh nb off part <= length (frees f sb))%nat ->
  let k := fresh nb off part in
  exists t1 t2 t3 ic1 i1 i' f', op_begin t = Ret tt t1 /\ ilock (Some ip) (mk_fs t1 sb ic) = Ret tt (mk_fs t1 sb ic1) /\
    writei ip off part (mk_fs t1 sb ic1) = Ret (Z.of_nat (length part)) (mk_fs t2 sb (set_inode ic ip i1)) /\
    iunlock (Some ip) (mk_fs t2 sb (set_inode ic ip i1)) = Ret tt (mk_fs t2 sb (set_inode ic ip i')) /\ op_end t2 = Ret tt t3 /\
    idle t3 f' /\ at_rest i' /\ same_place t t3 /\ appended G sb f i nb f' i' off part (take k (frees f sb)) (drop k (frees f sb)) /\
    crash_safe t t3 (fun h => h = f \/ h = f').
Proof.
  intros Hid Hip Hrest Hg Hf Hlog Hoff Hn Hend Hfree k. pose proof Hrest as (Hr & Hv & Hl).
  destruct (begin_view t f Hid) as (t1 & E1 & Ht1). set (g := frame_of t) in *. set (F := c_content (ls_cache t)) in *.
  set (locked := mk_sleeplock 1 None cur_pid). set (i0 := with_lock i locked).
  assert (alike_frames G g) as Hg' by (destruct Hg as (? & ? & Hh); split_and!; try congruence; intros; symmetry; apply Hh).
  assert (agree (area_of t) f F) as HFf by (intros b Hb; symmetry; apply (id_content _ _ Hid), Hb).
  pose proof (file_frame sb _ _ f i nb Hg' Hf) as Hf1. pose proof (agree_file sb g (area_of t) (frame_area t) f F i nb Hf1 HFf) as HfF.
  pose proof (agree_frees sb g (area_of t) (frame_area t) f F (fa_alloc _ _ _ _ _ Hf1) HFf) as Efr.
  destruct (chunk_run g sb t1 F ∅ (set_inode ic ip i0) ip i0 nb off part m) as (t2 & F' & L & i1 & W & E2 & Ht2 & _ & _ & _ & _ & Hap); try assumption.
  { eapply set_inode_lookup, Hip. }
  { apply file_lock, HfF. }
  { cbn [fr_cap g frame_of]. rewrite size_empty. lia. }
  { rewrite size_empty. unfold NBUF. lia. }
  { rewrite Efr. exact Hfree. }
  assert (i_lock i1 = locked /\ i_ref i1 = i_ref i /\ i_valid i1 = i_valid i) as (L1 & R1 & V1).
  { destruct (ap_inode _ _ _ _ _ _ _ _ _ _ _ Hap) as [a ->]. repeat split. }
  fold k in Hap. rewrite Efr in Hap. rewrite set_inode_twice in E2.
  apply (appended_lock sb g F i nb F' i1 off part _ _ locked (mk_sleeplock 0 None 0)) in Hap. rewrite <- Hl in Hap.
  assert (with_lock i (i_lock i) = i) as Ei by (destruct i; reflexivity). rewrite Ei in Hap. rewrite Hl in Hap.
  set (i' := with_lock i1 (mk_sleeplock 0 None 0)) in *. pose proof Hap as [_ [a Ea] _ _ _ _ _].
  destruct (end_view t2 g F' L Ht2 eq_refl) as (t3 & ws & n & E3 & Hid3 & Hst & Hsz & Hd & Hws & Hk).
  apply (agree_appended sb g (area_of t) (frame_area t) F f) in Hap; [| exact HfF | exact (id_content _ _ Hid) | exact Hoff].
  apply (appended_frame sb g G) in Hap; [|exact Hg]. set (f' := outside_of (area_of t) F' f) in *.
  assert (same_place t t3) as Hplace by (split_and!; [exact Hst | exact Hsz | rewrite Hd; apply disk_writes_size]).
  assert (forall b, area_of t3 b = area_of t b) as Earea by (intros b; unfold area_of; destruct Hplace as (-> & -> & _); reflexivity).
  exists t1, t2, t3, (set_inode ic ip i0), i1, i', f'. split_and!; try assumption; try reflexivity.
  - apply ilock_eq; assumption.
  - etransitivity; [apply (iunlock_eq _ _ _ i1) | rewrite set_inode_twice; reflexivity]; [eapply set_inode_lookup, Hip | lia | exact L1].
  - destruct Hid3 as [I1 I2 I3 I4 I5 I6]. split; try assumption. intros b Hb. rewrite I6 by exact Hb. apply agree_outside. rewrite <- Earea. exact Hb.
  - split; [|split; [|reflexivity]]; [change (1 <= i_ref i1); rewrite R1; exact Hr | change (i_valid i1 <> 0); rewrite V1; exact Hv].
  - exists ws. split; [exact Hd|]. split.
    { intros p Hp. destruct (Hws p Hp) as [Ha|[_ Ha]]; [left; rewrite <- Earea; exact Ha | right; exact Ha]. }
    intros j. destruct Hplace as (P1 & P2 & P3).
    exists (if decide (j <= n)%nat then f else f'). split; [|destruct (decide _); auto].
    eapply durable_ext; [..|apply (Hk j)]; try (symmetry; assumption); try reflexivity. intros b Hb.
    rewrite <- area_false in Hb. rewrite Earea in Hb. destruct (decide _).
    + cbn [fr_base g frame_of]. rewrite <- (id_content _ _ Hid b Hb). pose proof (id_log _ _ Hid) as Hinv. apply law_clean; [apply Hinv | |].
      { rewrite (inv_dirty _ _ _ Hinv). apply not_elem_of_empty. }
      { intros [x Hx]. rewrite (id_hold _ _ Hid) in Hx. discriminate Hx. }
    + unfold f', outside_of. rewrite Hb. reflexivity.
Qed.
End Part.

(** ** The loop of filewrite() *)
Section Loop.
Context `{Ctx} `{Linked} `{Pages} {S : Type} `{CacheLaws S} `{Devsw (fstate (lstate S))}.
#[local] Abbreviation T := (lstate S).
#[local] Abbreviation K := (kstate (fsys T)).
Implicit Types (t : T) (f h : Z -> block) (ic : icache) (ft : ftable).
Variables (sb : superblock) (G : frame) (m : Z).
Hypothesis Hmap : one_map sb m.

(** The bytes are written, with the first free blocks. *)
Definition written f (i : inode) (nb off : Z) (src : list Z) h (i' : inode) : Prop :=
  appended G sb f i nb h i' off src (take (fresh nb off src) (frees f sb)) (drop (fresh nb off src) (frees f sb)).
(** After [n] of [len] bytes a part of the write, or all of it, is over. *)
Definition whole_parts (len n : nat) : Prop := exists c, n = Nat.min (c * Z.to_nat max_write) len.

Lemma fresh_app nb off part rest : fresh nb off (part ++ rest) =
  (fresh nb off part + fresh (blocks_for nb (off + Z.of_nat (length part))) (off + Z.of_nat (length part)) rest)%nat.
Proof.
  unfold fresh. rewrite length_app, Nat2Z.inj_add, Z.add_assoc. set (o := off + Z.of_nat (length part)).
  assert (blocks_for (blocks_for nb o) (o + Z.of_nat (length rest)) = blocks_for nb (o + Z.of_nat (length rest))) as E.
  { unfold blocks_for. rewrite <- Z.max_assoc. f_equal. apply Z.max_r, Z.div_le_mono; unfold BSIZE; lia. }
  assert (nb <= blocks_for nb o <= blocks_for nb (o + Z.of_nat (length rest))) as Hle by (rewrite <- E; unfold blocks_for; lia).
  rewrite E, (needed_add nb (blocks_for nb o)) by exact Hle. apply Z2Nat.inj_add; apply needed_nonneg; lia.
Qed.
Lemma written_nil f i nb off : file_at G sb f i nb -> 0 <= off <= i_size i -> written f i nb off [] f i.
Proof.
  intros Hf Hoff. pose proof (appended_nil sb G f i nb off Hf Hoff) as Ha. unfold written.
  assert (fresh nb off [] = 0%nat) as ->; [|exact Ha]. unfold fresh. cbn [length]. change (Z.of_nat 0) with 0. rewrite (blocks_for_nil sb G f i nb off Hf Hoff). unfold needed.
  destruct (Z.leb_spec nb NDIRECT), (Z.ltb_spec NDIRECT nb); cbn [andb]; lia.
Qed.
Lemma written_app f i nb off part f1 i1 rest h i2 : 0 <= off -> written f i nb off part f1 i1 ->
  written f1 i1 (blocks_for nb (off + Z.of_nat (length part))) (off + Z.of_nat (length part)) rest h i2 ->
  written f i nb off (part ++ rest) h i2.
Proof.
  intros Hoff H1' H2'. unfold written in *. rewrite fresh_app, <- drop_drop. rewrite (ap_frees _ _ _ _ _ _ _ _ _ _ _ H1') in H2'.
  pose proof (appended_trans sb G f i nb f1 i1 h i2 off part rest _ _ _ _ Hoff H1' H2') as Ha. rewrite take_take_drop in Ha. exact Ha.
Qed.

Lemma place_frame t t' : same_place t t' -> alike_frames (frame_of t) G -> alike_frames (frame_of t') G.
Proof.
  intros (E1 & E2 & E3) (C & Z & Hh). unfold frame_of in *. cbn [fr_cap fr_size fr_home] in *. rewrite E2, E3. split_and!; try assumption.
  intros n. rewrite <- Hh. unfold home, in_area, disk_of in *. rewrite E1, E2, E3. reflexivity.
Qed.
Lemma crash_refl t f (P : (Z -> block) -> Prop) : idle t f -> P f -> crash_safe t t P.
Proof.
  intros Hid HP. exists []. split; [reflexivity|]. split; [intros p Hp%elem_of_nil; contradiction|]. intros k. exists f. split; [|exact HP]. rewrite take_nil. pose proof (id_log _ _ Hid) as Hinv.
  exists []. split; [apply Hinv|]. split; [apply Hinv|]. intros b Hb. cbn. rewrite <- (id_content _ _ Hid) by (apply area_false, Hb). symmetry. apply law_clean; [apply Hinv | |].
  - rewrite (inv_dirty _ _ _ Hinv). apply not_elem_of_empty.
  - intros [x Hx]. rewrite (id_hold _ _ Hid) in Hx. discriminate Hx.
Qed.
Lemma crash_trans t t1 t2 (P : (Z -> block) -> Prop) : same_place t t1 -> crash_safe t t1 P -> crash_safe t1 t2 P -> crash_safe t t2 P.
Proof.
  intros (E1 & E2 & E3) (ws1 & D1 & W1 & H1') (ws2 & D2 & W2 & H2'). exists (ws1 ++ ws2). split; [rewrite D2, D1, disk_writes_app; reflexivity|].
  split; [intros p [Hp|Hp]%elem_of_app; [apply W1, Hp|]; unfold area_of in *; rewrite <- E1, <- E2; apply W2, Hp|].
  intros k. destruct (decide (k <= length ws1)%nat) as [Hk|Hk].
  - rewrite take_app_le by exact Hk. apply H1'.
  - rewrite take_app_ge by lia. destruct (H2' (k - length ws1)%nat) as (h & Hd & HP). exists h. split; [|exact HP].
    rewrite disk_writes_app, <- D1. eapply durable_ext; [..|exact Hd]; try (symmetry; assumption); reflexivity.
Qed.
Lemma crash_weaken t t' (P Q : (Z -> block) -> Prop) : (forall h, P h -> Q h) -> crash_safe t t' P -> crash_safe t t' Q.
Proof. intros HPQ (ws & D & W & Hk). exists ws. split; [exact D|]. split; [exact W|]. intros k. destruct (Hk k) as (h & Hd & HP). eauto. Qed.

Section State.
Variables (pt : ptable) (mem : kmem) (ck : clock) (pipes : gmap Z pipe).
Definition kst ft (fs : fstate T) : K := mk_ks pt mem ck (mk_fsys ft pipes fs).
Definition set_file ft (fd : nat) (x : file) : ftable := ft <| ft_file := <[fd := x]> (ft_file ft) |>.

Lemma in_files_eq {A} (c : M (fstate T) A) ft fs a fs' : c fs = Ret a fs' -> in_files c (kst ft fs) = Ret a (kst ft fs').
Proof. intros E. unfold in_files, kst, zoom, set_field. cbn. rewrite E. reflexivity. Qed.
Lemma in_tx_eq {A} (c : M T A) t ic a t' : c t = Ret a t' -> in_tx c (mk_fs t sb ic) = Ret a (mk_fs t' sb ic).
Proof. intros E. unfold in_tx, zoom, set_field. cbn. rewrite E. reflexivity. Qed.
Lemma file_get ft fd x fs : ft_file ft !! fd = Some x -> in_ft (on_file fd (get id)) (kst ft fs) = Ret x (kst ft fs).
Proof.
  intros E. unfold in_ft, on_file, kst, zoom, elt, get, set_field. cbn. rewrite E. cbn. rewrite list_insert_id by exact E. destruct ft. reflexivity.
Qed.
Lemma add_off_eq ft fd x fs r : ft_file ft !! fd = Some x -> add_off fd r (kst ft fs) = Ret tt (kst (set_file ft fd (x <| f_off := u32 (f_off x + r) |>)) fs).
Proof. intros E. unfold add_off, in_ft, on_file, kst, zoom, elt, modify, set_field, set_file. cbn. rewrite E. reflexivity. Qed.

(** What a write of [src] at [off] through [fd] makes of the state. *)
Definition write_done t f ic ft fd x ip i nb off src (s' : K) : Prop :=
  exists t' i' f', s' = kst (set_file ft fd (x <| f_off := off + Z.of_nat (length src) |>)) (mk_fs t' sb (set_inode ic ip i')) /\
    idle t' f' /\ at_rest i' /\ same_place t t' /\ written f i nb off src f' i' /\
    crash_safe t t' (fun h => exists n i2, whole_parts (length src) n /\ written f i nb off (take n src) h i2).

Lemma done_nil t f ic ft fd x ip i nb off : idle t f -> ft_file ft !! fd = Some x -> f_off x = off -> ic_inode ic !! ip = Some i ->
  at_rest i -> file_at G sb f i nb -> 0 <= off <= i_size i -> write_done t f ic ft fd x ip i nb off [] (kst ft (mk_fs t sb ic)).
Proof.
  intros Hid Hx Hxoff Hip Hrest Hf Hoff. pose proof (written_nil f i nb off Hf Hoff) as Hw. exists t, i, f. split_and!; try assumption; try reflexivity.
  - assert (x <| f_off := off + Z.of_nat (length (@nil Z)) |> = x) as ->.
    { cbn [length]. change (Z.of_nat 0) with 0. rewrite Z.add_0_r, <- Hxoff. destruct x. reflexivity. }
    unfold set_file, set_inode, kst, set_field. rewrite !list_insert_id by assumption. destruct ft, ic. reflexivity.
  - apply place_refl.
  - apply (crash_refl t f _ Hid). exists 0%nat, i. split; [exists 0%nat; reflexivity | exact Hw].
Qed.
(** A part and the rest. *)
Lemma done_app t1 t f f1 ic ft fd x ip i i1 nb off part rest s' : 0 <= off -> Z.of_nat (length part) = max_write \/ rest = [] ->
  ic_inode ic !! ip = Some i -> same_place t t1 -> file_at G sb f i nb -> off <= i_size i -> written f i nb off part f1 i1 ->
  crash_safe t t1 (fun h => h = f \/ h = f1) ->
  write_done t1 f1 (set_inode ic ip i1) (set_file ft fd (x <| f_off := off + Z.of_nat (length part) |>)) fd
    (x <| f_off := off + Z.of_nat (length part) |>) ip i1 (blocks_for nb (off + Z.of_nat (length part))) (off + Z.of_nat (length part)) rest s' ->
  write_done t f ic ft fd x ip i nb off (part ++ rest) s'.
Proof.
  intros Hoff Hpart Hip Hpl Hf Hle Hw Hc (t' & i' & f' & -> & Hid & Hrest & Hpl' & Hw' & Hc'). exists t', i', f'. split_and!; try assumption.
  - rewrite length_app, Nat2Z.inj_add, Z.add_assoc. unfold set_file, set_inode, kst, set_field. cbn. rewrite !list_insert_insert_eq. reflexivity.
  - eapply place_trans; eassumption.
  - eapply written_app; eassumption.
  - apply (crash_trans t t1 t' _ Hpl).
    + eapply crash_weaken; [|exact Hc]. intros h [-> | ->].
      * exists 0%nat, i. split; [exists 0%nat; reflexivity|]. apply written_nil; [exact Hf | lia].
      * exists (length part), i1. rewrite take_app_length. split; [|exact Hw]. destruct Hpart as [Hp| ->].
        -- exists 1%nat. rewrite length_app. change max_write with 1536 in *. lia.
        -- exists (length part). rewrite app_nil_r. change max_write with 1536. lia.
    + eapply crash_weaken; [|exact Hc']. intros h (n & i2 & [c Hn] & Hw2). exists (length part + n)%nat, i2. split.
      * destruct Hpart as [Hp| ->].
        -- exists (Datatypes.S c). rewrite length_app. change max_write with 1536 in *. cbn [Nat.mul]. lia.
        -- exists (length part). rewrite app_nil_r. cbn [length] in Hn. change max_write with 1536 in *. lia.
      * rewrite take_app_add. eapply written_app; eassumption.
Qed.

Lemma loop_step fuel fd src : src <> [] -> filewrite_loop (T := T) (Datatypes.S fuel) fd src =
  let n1 := Z.min (Z.of_nat (length src)) max_write in
  begin_op ;!
  let! x := in_ft (on_file fd (get id)) in
  in_files (ilock (f_ip x)) ;!
  let! ip := deref (f_ip x) in
  let! r := in_files (writei ip (f_off x) (take (Z.to_nat n1) src)) in
  (if 0 <? r then add_off fd r else ret tt) ;!
  in_files (iunlock (f_ip x)) ;!
  end_op ;!
  if r <? 0 then ret false else
  panic_if (negb (r =? n1)) "short filewrite" ;!
  filewrite_loop fuel fd (drop (Z.to_nat r) src).
Proof. intros Hne. destruct src; [contradiction | reflexivity]. Qed.
Lemma loop_run fuel fd ip : forall src t f ic ft x i nb off, (length src <= fuel)%nat -> idle t f ->
  ft_file ft !! fd = Some x -> f_ip x = Some ip -> f_off x = off -> ic_inode ic !! ip = Some i -> at_rest i ->
  alike_frames (frame_of t) G -> file_at G sb f i nb -> 10 <= lg_size (ls_log t) -> 0 <= off <= i_size i ->
  off + Z.of_nat (length src) <= MAXFILE * BSIZE -> (fresh nb off src <= length (frees f sb))%nat ->
  exists s', filewrite_loop fuel fd src (kst ft (mk_fs t sb ic)) = Ret true s' /\ write_done t f ic ft fd x ip i nb off src s'.
Proof.
  induction fuel as [|fuel IH]; intros src t f ic ft x i nb off Hlen Hid Hx Hxip Hxoff Hip Hrest Hg Hf Hlog Hoff Hend Hfree.
  { destruct src; [|cbn in Hlen; lia]. eexists. split; [reflexivity|]. apply done_nil; assumption. }
  destruct (decide (src = [])) as [->|Hne]; [eexists; split; [reflexivity|]; apply done_nil; assumption|].
  set (n1 := Z.min (Z.of_nat (length src)) max_write). set (part := take (Z.to_nat n1) src). set (rest := drop (Z.to_nat n1) src).
  assert (0 < Z.of_nat (length src)) as Hpos by (destruct src; [contradiction | cbn; lia]).
  assert (0 < n1 <= max_write) as Hn1 by (unfold n1; change max_write with 1536; lia).
  assert (Z.of_nat (length part) = n1) as Hp by (unfold part; rewrite length_take; unfold n1; lia).
  assert (Z.of_nat (length rest) = Z.of_nat (length src) - n1) as Hr by (unfold rest; rewrite length_drop; unfold n1; lia).
  assert (src = part ++ rest) as Es by (symmetry; apply take_drop).
  assert (Z.of_nat (length part) = max_write \/ rest = []) as Hlast.
  { destruct (decide (Z.of_nat (length src) <= max_write)) as [Hle|Hgt]; [right|left; unfold n1 in Hp; lia].
    apply length_zero_iff_nil. unfold n1 in Hr. lia. }
  rewrite Es, fresh_app in Hfree. set (nb1 := blocks_for nb (off + Z.of_nat (length part))) in *.
  destruct (part_run sb G m Hmap t f ic ip i nb off part) as (t1 & t2 & t3 & ic1 & i1 & i' & f' & E1 & E2 & E3 & E4 & E5 & Hid' & Hrest' & Hpl & Hap & Hc);
    try assumption; try lia.
  set (x1 := x <| f_off := off + Z.of_nat (length part) |>).
  destruct (IH rest t3 f' (set_inode ic ip i') (set_file ft fd x1) x1 i' nb1 (off + Z.of_nat (length part))) as (s' & E6 & Hd); try assumption; try reflexivity.
  { lia. }
  { cbn. apply list_lookup_insert_eq. eapply lookup_lt_Some, Hx. }
  { eapply set_inode_lookup, Hip. }
  { eapply place_frame; eassumption. }
  { apply Hap. }
  { destruct Hpl as (_ & -> & _). exact Hlog. }
  { destruct (ap_inode _ _ _ _ _ _ _ _ _ _ _ Hap) as [a ->]. cbn. lia. }
  { lia. }
  { rewrite (ap_frees _ _ _ _ _ _ _ _ _ _ _ Hap), length_drop. lia. }
  exists s'. split; [|rewrite Es; eapply done_app; try eassumption; lia].
  rewrite loop_step by exact Hne. fold n1 part.
  step by (apply in_files_eq, in_tx_eq, E1). step by (apply file_get, Hx). rewrite Hxip. step by (apply in_files_eq, E2). step by reflexivity.
  rewrite Hxoff. step by (apply in_files_eq, E3). rewrite Hp. rewrite (proj2 (Z.ltb_lt 0 n1)) by lia. step by (apply add_off_eq, Hx).
  step by (apply in_files_eq, E4). step by (apply in_files_eq, in_tx_eq, E5). rewrite (proj2 (Z.ltb_ge n1 0)) by lia. rewrite Z.eqb_refl. step by reflexivity.
  rewrite Hxoff. unfold u32. rewrite Z.mod_small by (unfold MAXFILE, BSIZE in *; lia). unfold x1 in E6. rewrite Hp in E6. exact E6.
Qed.
End State.
End Loop.

(** ** After the crash *)
Section Reboot.
Context `{Ctx} {S : Type} `{CacheLaws S}.
#[local] Abbreviation T := (lstate S).
Implicit Types (t : T) (f h : Z -> block).

(** The superblock in block 1 says where the log is. *)
Record super_ok t : Prop := {
  so_start : s32 (sb_logstart (dec_superblock (d_img (disk_of t) 1))) = lg_start (ls_log t);
  so_size : s32 (sb_nlog (dec_superblock (d_img (disk_of t) 1))) = lg_size (ls_log t);
  so_behind : 1 < lg_start (ls_log t) }.
(** A machine that has just been started: log and cache in memory empty. *)
Record booted (lg : log) (s : S) : Prop := {
  bo_ops : lg_outstanding lg = 0; bo_commit : lg_committing lg = 0; bo_block : length (lg_block lg) = 30%nat;
  bo_ok : c_ok s; bo_dirty : c_dirty s = ∅; bo_hold : c_hold s = ∅ }.

Lemma writes_super t ws : (forall p, p ∈ ws -> area_of t p.1 = true \/ p.1 <> 1) -> 1 < lg_start (ls_log t) ->
  forall k, d_img (disk_writes (take k ws) (disk_of t)) 1 = d_img (disk_of t) 1.
Proof.
  intros Hws Hst k. rewrite disk_writes_img. apply apply_writes_other. intros p Hp E. apply (elem_of_submseteq _ ws) in Hp; [|apply submseteq_take].
  destruct (Hws p Hp) as [Ha|Ha]; [|contradiction]. rewrite E in Ha. unfold area_of in Ha. apply andb_true_iff in Ha as [Ha _]. apply Z.leb_le in Ha. lia.
Qed.
Lemma reboot t lg0 s0 f h d : idle t f -> super_ok t -> booted lg0 s0 -> c_disk s0 = d -> d_size d = d_size (disk_of t) ->
  d_img d 1 = d_img (disk_of t) 1 -> durable (ls_log t) (disk_of t) (d_img d) h ->
  exists t1, initlog ROOTDEV (mk_ls lg0 s0) = Ret tt t1 /\ idle t1 h.
Proof.
  intros Hid [S1 S2 S3] [B1 B2 B3 B4 B5 B6] Hd Hsz H1' Hdur. pose proof (inv_geom _ _ _ (id_log _ _ Hid)) as (G1 & G2 & G3 & G4 & G5).
  pose proof (inv_size _ _ _ (id_log _ _ Hid)) as Hsmall. fold (disk_of t) in Hsmall. change (c_disk (ls_cache t)) with (disk_of t) in *.
  set (lg1 := mount lg0 (dec_superblock (d_img (c_disk s0) 1))).
  assert (lg_start lg1 = lg_start (ls_log t) /\ lg_size lg1 = lg_size (ls_log t)) as [E1 E2] by (unfold lg1; cbn; rewrite Hd, H1'; auto).
  destruct (recovery_run lg0 s0 h B4 B5 B6) as (blk & s' & ws & E & Hinv & Hh & _ & Hm & _).
  - rewrite Hd, Hsz. lia.
  - fold lg1. unfold geom. rewrite E1, E2, Hd, Hsz. split_and!; try reflexivity; try lia. exact B3.
  - fold lg1. eapply durable_ext; [exact E1 | exact E2 | rewrite Hd; exact Hsz | rewrite Hd; reflexivity | reflexivity | exact Hdur].
  - fold lg1 in E, Hinv, Hm. exists (mk_ls (with_head lg1 0 blk) s'). split; [exact E|]. split; try assumption; try reflexivity.
    intros b Hb%area_false. apply (Hm b Hb).
Qed.
End Reboot.

(** C3. A write is safe under crashes from the system call to the disk.
    filewrite() of any number of bytes at an offset within a file returns
    their number when enough blocks are free: the bytes are in the file, in
    the first free blocks, its inode is on the disk and the log is empty.  A
    crash after any number of the writes to the disk that this takes loses
    nothing: initlog() after the restart ends with a file system in which
    the file has the first bytes of the write up to a multiple of 1536 or all
    of them, with the blocks they need and no others, and all other files,
    inodes and blocks are as they were. *)
Theorem write_crash_safe `{Ctx} `{Linked} `{Pages} {S} `{CacheLaws S} `{Devsw (fstate (lstate S))} env sb m t f ic ft fd x ip i nb src pt mem ck pipes
    (Hid : idle t f) (Hsuper : super_ok t) (Hlog : 10 <= lg_size (ls_log t)) (Hmap : one_map sb m)
    (Hx : ft_file ft !! fd = Some x) (Htype : f_type x = FD_INODE) (Hwr : f_writable x <> 0) (Hxip : f_ip x = Some ip)
    (Hip : ic_inode ic !! ip = Some i) (Hrest : at_rest i) (Hf : file_at (frame_of t) sb f i nb)
    (Hoff : 0 <= f_off x <= i_size i) (Hend : f_off x + Z.of_nat (length src) <= MAXFILE * BSIZE)
    (Hfree : (fresh nb (f_off x) src <= length (frees f sb))%nat) :
  exists t' i' f' ws, filewrite env fd src (kst pt mem ck pipes ft (mk_fs t sb ic)) =
      Ret (Z.of_nat (length src)) (kst pt mem ck pipes (set_file ft fd (x <| f_off := f_off x + Z.of_nat (length src) |>)) (mk_fs t' sb (set_inode ic ip i'))) /\
    idle t' f' /\ at_rest i' /\ written sb (frame_of t) f i nb (f_off x) src f' i' /\ disk_of t' = disk_writes ws (disk_of t) /\
    forall k lg0 s0, booted lg0 s0 -> c_disk s0 = disk_writes (take k ws) (disk_of t) ->
      exists t1 h n i2, initlog ROOTDEV (mk_ls lg0 s0) = Ret tt t1 /\ idle t1 h /\ whole_parts (length src) n /\
        written sb (frame_of t) f i nb (f_off x) (take n src) h i2.
Proof.
  destruct (loop_run sb (frame_of t) m Hmap pt mem ck pipes (length src) fd ip src t f ic ft x i nb (f_off x))
    as (s' & E & t' & i' & f' & -> & Hid' & Hrest' & Hpl & Hw & ws & Hd & Hws & Hk); try assumption; try reflexivity; [split_and!; reflexivity|].
  exists t', i', f', ws. split_and!; try assumption.
  - unfold filewrite. step by (apply file_get, Hx). rewrite (proj2 (Z.eqb_neq _ _) Hwr), Htype. rewrite (bind_eq _ _ _ _ _ E). reflexivity.
  - intros k lg0 s0 Hb Hs0. destruct (Hk k) as (h & Hdur & n & i2 & Hn & Hw2).
    destruct (reboot t lg0 s0 f h _ Hid Hsuper Hb Hs0) as (t1 & E1 & Hid1); [apply disk_writes_size | apply writes_super; [exact Hws | apply Hsuper] | exact Hdur|].
    exists t1, h, n, i2. auto.
Qed.

Section Witnesses.
#[local] Instance crash_ctx : Ctx := {| cpu_id := 0; cur_pid := 1 |}.
#[local] Instance crash_devices {S} : Devsw S := {| dev_read _ := None; dev_write _ := None |}.
#[local] Instance crash_linked : Linked := {| kernel_data := 0x80108000; kernel_end := 0x80110000 |}.
#[local] Instance crash_pages : Pages := {| old_page _ := mk_pipe None [] 0 0 0 0 |}.

(** The disk of [FsGrow.v] with a superblock that places the log at 2. *)
Definition crash_super : block := put_u32 12 30 (put_u32 16 2 (replicate 512 0)).
Definition crash_img (n : Z) : block := if n =? 1 then crash_super else grow_img n.
Definition crash_log : log := mk_log None 2 30 0 0 ROOTDEV 0 (repeat 0 30).
Definition crash_bio (d : disk) : bio := mk_bio None booted_bufs d.
Definition crash_disk : disk := mk_disk 100 crash_img [].
Definition crash_t : lstate bio := mk_ls crash_log (crash_bio crash_disk).
Lemma fresh_bio d : disk_ok d -> c_ok (crash_bio d) /\ c_dirty (crash_bio d) = ∅ /\ c_hold (crash_bio d) = ∅ /\ forall n, c_content (crash_bio d) n = d_img d n.
Proof.
  intros Hd. destruct (fresh_ok booted_bufs d lru_at_boot booted_cores booted_order Hd) as (Hok & Hp & Hc).
  destruct (fresh_sees (crash_bio d) _ Hok Hp Hc) as (_ & _ & Hdirty & Hhold & _). auto.
Qed.
Lemma crash_disk_ok : disk_ok crash_disk.
Proof. intros n _. cbn. unfold crash_img, grow_img. repeat destruct (_ =? _); reflexivity. Qed.
Lemma crash_idle : idle crash_t crash_img.
Proof.
  destruct (fresh_bio _ crash_disk_ok) as (Hok & Hd & Hh & Hc). split; try reflexivity; try assumption; [|intros b _; apply Hc].
  constructor; auto; try discriminate.
  - unfold geom, LOGSIZE. cbn. split_and!; auto; lia.
  - cbn. lia.
  - split; [cbn; lia | constructor].
  - constructor.
  - split; [vm_compute; reflexivity | discriminate].
Qed.
Lemma crash_agree : agree (fun b => b =? 1) grow_img crash_img.
Proof. intros b Hb. unfold crash_img. rewrite Hb. reflexivity. Qed.
Lemma crash_file : file_at (frame_of crash_t) demo_sb crash_img demo_file 2.
Proof.
  assert (forall b, fr_home (frame_of crash_t) b -> (b =? 1) = false) as Harea by (intros b [_ Hb]; apply Z.eqb_neq, Hb).
  assert (forall b, fr_home (start_frame grow_img) b -> b <> 1 -> fr_home (frame_of crash_t) b) as Hhome by (intros b Hb Hne; split; assumption).
  apply (agree_file demo_sb (frame_of crash_t) _ Harea grow_img crash_img); [|exact crash_agree].
  assert (forall b, data_block (start_frame grow_img) demo_sb grow_img b -> b <> 1 -> data_block (frame_of crash_t) demo_sb grow_img b) as Hdata.
  { intros b [D1 D2 D3 D4 D5] Hne. split; try assumption. apply Hhome; assumption. }
  destruct grow_file as [[O1 O2 O3 O4 O5 O6 O7 O8 O9 O10] [[B1 B2 B3 B4 B5 B6] A1 A2] F1 F2 F3 F4 F5]. split; try assumption.
  - split; try assumption. intros b Hb. apply Hdata; [apply O7, Hb|]. change (own grow_img demo_file 2 (NDIRECT <? 2)) with [49; 50] in Hb.
    intros ->. rewrite !elem_of_cons in Hb. destruct Hb as [Hb|[Hb|Hb%elem_of_nil]]; [discriminate Hb | discriminate Hb | exact Hb].
  - split; [|exact A1 | exact A2]. split; try assumption.
    + intros b Hb. destruct (B4 b Hb) as [Hr Hh]. split; [exact Hr|]. apply Hhome; [exact Hh|]. rewrite demo_map_block by exact Hb. discriminate.
    + intros b Hb Hu. apply Hhome; [apply B5; assumption|]. intros ->. vm_compute in Hu. discriminate Hu.
  - apply Hdata; [exact F3 | discriminate].
Qed.

Example write_crash_safe_witness :
  let x := mk_file FD_INODE 1 1 1 0 (Some 0%nat) 600 in let ft := mk_ftable None [x] in
  let ks := kst (mk_ptable None [] None 1 []) (mk_kmem None 0 0 (fun _ => 0)) (mk_clock None 0) ∅ in
  exists ws t' i', filewrite [] 0 (replicate 2000 9) (ks ft (mk_fs crash_t demo_sb grow_ic)) =
      Ret 2000 (ks (set_file ft 0 (x <| f_off := 2600 |>)) (mk_fs t' demo_sb (set_inode grow_ic 0 i'))) /\
    i_size i' = 2600 /\ disk_of t' = disk_writes ws crash_disk /\
    exists t1 h n i2, initlog ROOTDEV (mk_ls crash_log (crash_bio (disk_writes (take 0 ws) crash_disk))) = Ret tt t1 /\ idle t1 h /\
      whole_parts 2000 n /\ written demo_sb (frame_of crash_t) crash_img demo_file 2 600 (take n (replicate 2000 9)) h i2.
Proof.
  intros x ft ks.
  destruct (write_crash_safe [] demo_sb 40 crash_t crash_img grow_ic ft 0 x 0 demo_file 2 (replicate 2000 9)
    (mk_ptable None [] None 1 []) (mk_kmem None 0 0 (fun _ => 0)) (mk_clock None 0) ∅ crash_idle)
    as (t' & i' & f' & ws & E & _ & _ & Hw & Hd & Hk).
  - split; [vm_compute; reflexivity | vm_compute; reflexivity | reflexivity].
  - discriminate.
  - exact grow_map.
  - reflexivity.
  - reflexivity.
  - discriminate.
  - reflexivity.
  - reflexivity.
  - split_and!; [cbn; lia | discriminate | reflexivity].
  - exact crash_file.
  - cbn. lia.
  - rewrite length_replicate. vm_compute. discriminate.
  - vm_compute. lia.
  - rewrite length_replicate in E, Hk. exists ws, t', i'. split; [exact E|]. split.
    { destruct (ap_inode _ _ _ _ _ _ _ _ _ _ _ Hw) as [a ->]. rewrite length_replicate. reflexivity. }
    split; [exact Hd|]. destruct (fresh_bio crash_disk crash_disk_ok) as (Hok & Hdirty & Hhold & _).
    apply (Hk 0%nat crash_log (crash_bio crash_disk)); [split; try reflexivity; assumption | reflexivity].
Defined.
End Witnesses.
