(* ===== verification/FsDir.v ===== *)
(** * Directories as maps

    A directory of [Fs.v] holds a finite map from names of 14 bytes to inode
    numbers.  dirlookup() looks a name up in it, dirlink() inserts one, the
    write of an empty entry by sys_unlink() deletes one. *)
From S2P Require Import Prelude.
From S2P Require Import Sleeplock.
From S2P Require Import Layout.
From S2P Require Import Bio.
From S2P Require Import Lru.
From S2P Require Import BioCache.
From S2P Require Import Cache.
From S2P Require Import Log.
From S2P Require Import LogProofs.
From S2P Require Import Tx.
From S2P Require Import Fs.
From S2P Require Import FsProofs.
From S2P Require Import FsGrow.
From S2P Require Import FsTrunc.
From S2P Require Import File.
From S2P Require Import FileWrite.

(** ** The map of a list of entries *)

Definition de_key (e : dirent) : list Z := strncpy_bytes DIRSIZ (de_name e).
Fixpoint dir_map (l : list dirent) : gmap (list Z) Z :=
  match l with
  | [] => ∅
  | e :: l => if de_inum e =? 0 then dir_map l else <[de_key e := de_inum e]> (dir_map l)
  end.
(** No name twice. *)
Definition dir_keys (l : list dirent) : list (list Z) := de_key <$> filter (fun e => de_inum e <> 0) l.
Definition dir_unique (l : list dirent) : Prop := NoDup (dir_keys l).

(** The first free slot, the end if there is none; entry [e] in slot [k]. *)
Fixpoint dir_slot (l : list dirent) : nat :=
  match l with
  | [] => O
  | e :: l => if de_inum e =? 0 then O else S (dir_slot l)
  end.
Definition dir_put (l : list dirent) (k : nat) (e : dirent) : list dirent :=
  if (k <? length l)%nat then <[k := e]> l else l ++ [e].
Definition no_dirent : dirent := mk_dirent 0 (replicate DIRSIZ 0).

Lemma entry_is_spec name e : entry_is name e = true <-> de_inum e <> 0 /\ strncpy_bytes DIRSIZ name = de_key e.
Proof.
  unfold entry_is, de_key. rewrite andb_true_iff, negb_true_iff, Z.eqb_neq, bool_decide_eq_true. tauto.
Qed.
Lemma dir_put_cons x l k e : dir_put (x :: l) (S k) e = x :: dir_put l k e.
Proof. unfold dir_put. cbn [length]. change (S k <? S (length l))%nat with (k <? length l)%nat. destruct (k <? length l)%nat; reflexivity. Qed.
Lemma dir_map_absent key l : dir_map l !! key = None <-> key ∉ dir_keys l.
Proof.
  unfold dir_keys. induction l as [|x l IH]; [cbn; rewrite lookup_empty; split; [intros _; apply not_elem_of_nil | reflexivity]|].
  cbn [dir_map]. rewrite filter_cons. destruct (Z.eqb_spec (de_inum x) 0) as [Ez|Hne].
  - rewrite decide_False by tauto. exact IH.
  - rewrite decide_True by exact Hne. cbn [fmap list_fmap]. rewrite not_elem_of_cons, lookup_insert_None, IH. intuition congruence.
Qed.
Lemma dir_keys_in key l : key ∈ dir_keys l <-> exists e, e ∈ l /\ de_inum e <> 0 /\ de_key e = key.
Proof.
  unfold dir_keys. rewrite list_elem_of_fmap. setoid_rewrite list_elem_of_filter. firstorder congruence.
Qed.
(** The first entry for a name is that of the map. *)
Lemma dir_map_first name l : forall k e, l !! k = Some e -> entry_is name e = true ->
  (forall j x, (j < k)%nat -> l !! j = Some x -> entry_is name x = false) ->
  dir_map l !! strncpy_bytes DIRSIZ name = Some (de_inum e).
Proof.
  induction l as [|x l IH]; intros k e Hk He Hno; [discriminate|]. destruct k as [|k]; cbn [dir_map].
  - injection Hk as ->. apply entry_is_spec in He as [Hne ->]. rewrite (proj2 (Z.eqb_neq _ 0)) by exact Hne. apply lookup_insert_eq.
  - specialize (Hno 0%nat x ltac:(lia) eq_refl) as Hx. pose proof (IH k e Hk He (fun j y Hj => Hno (S j) y ltac:(lia))) as E.
    destruct (Z.eqb_spec (de_inum x) 0) as [Ez|Hne]; [exact E|]. rewrite lookup_insert_ne; [exact E|].
    intros Ek. symmetry in Ek. assert (entry_is name x = true) as Ht by (apply entry_is_spec; auto). congruence.
Qed.
Lemma dir_map_none name l : dir_map l !! strncpy_bytes DIRSIZ name = None <-> forall k e, l !! k = Some e -> entry_is name e = false.
Proof.
  rewrite dir_map_absent, dir_keys_in. split.
  - intros Hno k e Hk. destruct (entry_is name e) eqn:E; [|reflexivity]. apply entry_is_spec in E as [Hne E]. destruct Hno.
    exists e. split; [eapply list_elem_of_lookup_2, Hk | auto].
  - intros Hno (e & Hin & Hne & E). apply list_elem_of_lookup in Hin as [k Hk]. specialize (Hno k e Hk).
    assert (entry_is name e = true) as Ht by (apply entry_is_spec; auto). congruence.
Qed.
Lemma dir_map_insert l e : dir_map l !! de_key e = None -> de_inum e <> 0 ->
  dir_map (dir_put l (dir_slot l) e) = <[de_key e := de_inum e]> (dir_map l).
Proof.
  intros Hno Hne. induction l as [|x l IH]; cbn [dir_slot].
  - cbn. rewrite (proj2 (Z.eqb_neq _ 0)) by exact Hne. reflexivity.
  - cbn [dir_map] in *. destruct (Z.eqb_spec (de_inum x) 0) as [Ez|Hx].
    + unfold dir_put. cbn. rewrite (proj2 (Z.eqb_neq _ 0)) by exact Hne. reflexivity.
    + apply lookup_insert_None in Hno as [Hno Hk]. rewrite dir_put_cons. cbn [dir_map]. rewrite (proj2 (Z.eqb_neq _ 0)), IH by assumption.
      apply insert_insert_ne. exact Hk.
Qed.
Lemma dir_keys_insert l e : de_inum e <> 0 -> dir_keys (dir_put l (dir_slot l) e) ≡ₚ de_key e :: dir_keys l.
Proof.
  intros Hne. unfold dir_keys. induction l as [|x l IH]; cbn [dir_slot].
  - change (dir_put [] 0 e) with [e]. rewrite filter_cons, decide_True by exact Hne. reflexivity.
  - rewrite (filter_cons _ x). destruct (Z.eqb_spec (de_inum x) 0) as [Ez|Hx].
    + rewrite decide_False by tauto. change (dir_put (x :: l) 0 e) with (e :: l). rewrite filter_cons, decide_True by exact Hne. reflexivity.
    + rewrite dir_put_cons, filter_cons, !decide_True by exact Hx. cbn [fmap list_fmap]. rewrite IH. apply Permutation_swap.
Qed.
Lemma dir_map_delete l : forall k e, l !! k = Some e -> de_inum e <> 0 -> dir_unique l ->
  dir_map (<[k := no_dirent]> l) = delete (de_key e) (dir_map l) /\ dir_unique (<[k := no_dirent]> l).
Proof.
  unfold dir_unique, dir_keys. induction l as [|x l IH]; intros k e Hk Hne Hu; [discriminate|]. rewrite filter_cons in Hu. destruct k as [|k].
  - injection Hk as ->. rewrite decide_True in Hu by exact Hne. cbn [fmap list_fmap] in Hu. apply NoDup_cons in Hu as [Hno Hu].
    cbn [list_insert insert dir_map]. rewrite filter_cons. cbn. rewrite (proj2 (Z.eqb_neq _ 0)) by exact Hne. split; [|exact Hu].
    rewrite delete_insert_eq, delete_id; [reflexivity|]. apply dir_map_absent, Hno.
  - assert (NoDup (de_key <$> filter (fun e => de_inum e <> 0) l)) as Hu'.
    { destruct (decide (de_inum x <> 0)); [cbn [fmap list_fmap] in Hu; apply NoDup_cons in Hu as [_ Hu]|]; exact Hu. }
    destruct (IH k e Hk Hne Hu') as [E1 E2]. change (<[S k := no_dirent]> (x :: l)) with (x :: <[k := no_dirent]> l).
    cbn [dir_map]. rewrite filter_cons. destruct (Z.eqb_spec (de_inum x) 0) as [Ez|Hx].
    + rewrite decide_False by tauto. auto.
    + rewrite decide_True in Hu |- * by exact Hx. cbn [fmap list_fmap] in *. apply NoDup_cons in Hu as [Hno Hu].
      assert (de_key x <> de_key e) as Hke.
      { intros E. apply Hno. rewrite E. apply dir_keys_in. exists e. split; [eapply list_elem_of_lookup_2, Hk | auto]. }
      rewrite E1, delete_insert_ne by congruence. split; [reflexivity|]. apply NoDup_cons. split; [|exact E2].
      intros Hin. apply Hno. apply dir_keys_in in Hin as (y & Hy & Hy0 & Ey). apply dir_keys_in. exists y. split; [|auto].
      apply list_elem_of_lookup in Hy as [j Hj]. apply list_lookup_insert_Some in Hj as [(-> & <- & _)|[_ Hj]]; [destruct (Hy0 eq_refl)|].
      eapply list_elem_of_lookup_2, Hj.
Qed.

(** ** Directories on the disk *)

Section Dir.
Context `{Ctx} {T : Type} `{TxLaws T} `{Devsw (fstate T)}.
Variables (g : frame) (sb : superblock).
Implicit Types (t : T) (f : Z -> block) (L : gset Z) (ic : icache).

Definition dirents f (d : inode) : list dirent := map (entry f d) (seqZ 0 (i_size d / 16)).
Lemma dirents_lookup f d k : (k < Z.to_nat (i_size d / 16))%nat -> dirents f d !! k = Some (entry f d (Z.of_nat k)).
Proof.
  intros Hk. unfold dirents. change (map (entry f d)) with (fmap (M := list) (entry f d)).
  rewrite list_lookup_fmap, lookup_seqZ_lt by lia. rewrite Z.add_0_l. reflexivity.
Qed.
Lemma length_dirents f d : length (dirents f d) = Z.to_nat (i_size d / 16).
Proof. unfold dirents. rewrite length_map, length_seqZ. reflexivity. Qed.

Lemma file_at_ok f d nb : file_at g sb f d nb -> file_ok g f d.
Proof.
  intros [F1 F2 F3 F4 F5 F6 F7]. pose proof (ob_nb _ _ _ _ _ _ F1) as Hnb. pose proof (bm_size _ _ _ (al_map _ _ _ F2)) as Hsz.
  assert (forall b, data_block g sb f b -> b <> 0 /\ 0 <= b < fr_size g) as Hd by (intros b [D1 D2 _ _ _]; split; [exact D1 | lia]).
  split; try apply F1; unfold BSIZE in *.
  - lia.
  - intros bn Hbn Hlt. apply Hd, (ob_good _ _ _ _ _ _ F1), own_block. lia.
  - intros Hlt. unfold NDIRECT in *. rewrite (proj2 (Z.ltb_lt 12 nb)) in F1 by lia. apply Hd, (ob_good _ _ _ _ _ _ F1), indirect_own.
Qed.

(** 16 bytes written at an entry or behind the last one. *)
Lemma dirents_put f d nb f' d' k e news fl : file_at g sb f d nb -> i_size d mod 16 = 0 -> 0 <= k <= i_size d / 16 -> dirent_ok e ->
  appended g sb f d nb f' d' (16 * k) (enc_dirent e) news fl -> dirents f' d' = dir_put (dirents f d) (Z.to_nat k) e /\ i_size d' mod 16 = 0.
Proof.
  intros Hf Hmod Hk He Hap. assert (length (enc_dirent e) = 16%nat) as Hl.
  { unfold enc_dirent. rewrite length_app, length_to_le, (proj2 He). reflexivity. }
  destruct (ap_inode _ _ _ _ _ _ _ _ _ _ _ Hap) as [a Ea]. pose proof (ap_bytes _ _ _ _ _ _ _ _ _ _ _ Hap) as Hbytes. rewrite Hl in *. change (Z.of_nat 16) with 16 in *.
  assert (i_size d' = Z.max (i_size d) (16 * k + 16)) as Esz by (rewrite Ea; reflexivity).
  split; [|rewrite Esz; clear -Hmod; dlia]. pose proof (length_dirents f d) as Hlen. pose proof (fa_size _ _ _ _ _ Hf) as Hs0.
  assert (i_size d' / 16 = Z.max (i_size d / 16) (k + 1)) as Esz' by (rewrite Esz; clear -Hmod Hk Hs0; dlia).
  assert (forall j, 0 <= j < i_size d' / 16 -> entry f' d' j = if j =? k then e else entry f d j) as Hent.
  { intros j Hj. assert (16 * j + 16 <= i_size d') as Hend by (clear -Hj; dlia). unfold entry. transitivity (dec_dirent (if j =? k then enc_dirent e else file_bytes f d (16 * j) 16)).
    2: { destruct (j =? k); [apply dec_enc_dirent, He | reflexivity]. }
    f_equal. unfold file_bytes. change (map (file_byte f' d')) with (fmap (M := list) (file_byte f' d')).
    apply list_eq_same_length with (n := 16%nat); [|rewrite length_fmap, length_seqZ; reflexivity|].
    { destruct (j =? k); [exact Hl | rewrite length_map, length_seqZ; reflexivity]. }
    intros n x y Hn Hx Hy. rewrite list_lookup_fmap, lookup_seqZ_lt in Hx by lia. injection Hx as <-.
    rewrite Hbytes by lia. destruct (Z.eqb_spec j k) as [->|Hne].
    - rewrite (proj2 (Z.leb_le _ _)), (proj2 (Z.ltb_lt _ _)) by lia. cbn [andb].
      replace (16 * k + Z.of_nat n - 16 * k) with (Z.of_nat n) by lia. rewrite Nat2Z.id. apply nth_lookup_Some, Hy.
    - change (map (file_byte f d)) with (fmap (M := list) (file_byte f d)) in Hy.
      rewrite list_lookup_fmap, lookup_seqZ_lt in Hy by lia. injection Hy as <-.
      destruct (Z.leb_spec (16 * k) (16 * j + Z.of_nat n)), (Z.ltb_spec (16 * j + Z.of_nat n) (16 * k + 16)); cbn [andb]; try reflexivity; lia. }
  apply list_eq. intros n. destruct (decide (n < Z.to_nat (i_size d' / 16))%nat) as [Hn|Hn].
  - rewrite dirents_lookup by exact Hn. rewrite Hent by lia. unfold dir_put. rewrite Hlen.
    destruct (Nat.ltb_spec (Z.to_nat k) (Z.to_nat (i_size d / 16))) as [Hlt|Hge]; destruct (Z.eqb_spec (Z.of_nat n) k) as [<-|Hne].
    + rewrite Nat2Z.id, list_lookup_insert_eq by lia. reflexivity.
    + rewrite list_lookup_insert_ne by lia. rewrite dirents_lookup by lia. reflexivity.
    + rewrite lookup_app_r by lia. rewrite Hlen. replace (n - _)%nat with 0%nat by lia. reflexivity.
    + rewrite lookup_app_l by lia. rewrite dirents_lookup by lia. reflexivity.
  - rewrite lookup_ge_None_2 by (rewrite length_dirents; lia). symmetry. apply lookup_ge_None_2. unfold dir_put. rewrite Hlen.
    destruct (Nat.ltb_spec (Z.to_nat k) (Z.to_nat (i_size d / 16))); rewrite ?length_insert, ?length_app, ?Hlen; cbn [length]; lia.
Qed.

(** The scan for an empty slot. *)
Definition slot_scan (dp : nat) (off : Z) : M (fstate T) (option Z) :=
  let! de := read_dirent dp off "dirlink read" in
  if de_inum de =? 0 then ret (Some off) else ret None.
Lemma dir_slot_spec l : (forall j e, (j < dir_slot l)%nat -> l !! j = Some e -> de_inum e <> 0) /\ (dir_slot l <= length l)%nat /\
  (forall e, l !! dir_slot l = Some e -> de_inum e = 0).
Proof.
  induction l as [|x l (IH1 & IH2 & IH3)]; cbn [dir_slot]; [split; [intros j e Hj; lia | split; [reflexivity | discriminate]]|].
  destruct (Z.eqb_spec (de_inum x) 0) as [Ez|Hne].
  - split; [intros j e Hj; lia|]. split; [cbn; lia|]. intros e [= <-]. exact Ez.
  - split; [|split; [cbn; lia | exact IH3]]. intros [|j] e Hj; [intros [= <-]; exact Hne | apply IH1; lia].
Qed.
Lemma find_slot t f L ic dp d : ic_inode ic !! dp = Some d -> file_ok g f d -> i_size d mod 16 = 0 -> tx_is t g f L ∅ -> (size L < NBUF)%nat ->
  exists t', tx_is t' g f L ∅ /\ for_each (dir_offsets (i_size d)) (slot_scan dp) (mk_fs t sb ic) =
    Ret (if (dir_slot (dirents f d) <? length (dirents f d))%nat then Some (16 * Z.of_nat (dir_slot (dirents f d))) else None) (mk_fs t' sb ic).
Proof.
  intros Hdp Hf Hmod Ht Hsz. pose proof (fi_size _ _ _ Hf) as Hs. unfold dir_offsets.
  assert ((i_size d + 15) / 16 = i_size d / 16) as -> by (clear -Hmod; dlia). change (map (Z.mul 16)) with (fmap (M := list) (Z.mul 16)).
  pose proof (length_dirents f d) as Hlen. destruct (dir_slot_spec (dirents f d)) as (Hused & Hle & Hfree). set (k := dir_slot (dirents f d)) in *.
  assert (size L + size (∅ : gmap nat Z) < NBUF)%nat as Hsz' by (rewrite map_size_empty; lia).
  assert (forall l, exists t', for_each ((Z.mul 16 <$> seqZ 0 (Z.of_nat k)) ++ l) (slot_scan dp) (mk_fs t sb ic) = for_each l (slot_scan dp) (mk_fs t' sb ic) /\
    tx_is t' g f L ∅) as Hskip.
  { intros l. destruct (for_each_skip (fun s => exists t', s = mk_fs t' sb ic /\ tx_is t' g f L ∅) (slot_scan dp)
      (Z.mul 16 <$> seqZ 0 (Z.of_nat k)) l (mk_fs t sb ic)) as (s' & E & t' & -> & Ht'); [exists t; auto | | exists t'; auto].
    intros off s1 Hin (t1 & -> & Ht1). apply list_elem_of_fmap in Hin as (j & -> & Hj%elem_of_seqZ).
    destruct (read_dirent_eq g f sb t1 L ∅ ic dp d j "dirlink read" Hdp Hf Ht1 Hsz' unheld_empty ltac:(lia)) as (t2 & E2 & Ht2).
    { clear -Hj Hle Hlen Hmod Hs. dlia. }
    exists (mk_fs t2 sb ic). split; [|exists t2; auto]. unfold slot_scan. step by exact E2.
    rewrite (proj2 (Z.eqb_neq _ 0)); [reflexivity|]. apply (Hused (Z.to_nat j)); [lia|]. rewrite dirents_lookup by lia. do 2 f_equal. lia. }
  destruct (Nat.ltb_spec k (length (dirents f d))) as [Hlt|Hge].
  - assert (seqZ 0 (i_size d / 16) = seqZ 0 (Z.of_nat k) ++ Z.of_nat k :: seqZ (Z.of_nat k + 1) (i_size d / 16 - Z.of_nat k - 1)) as ->.
    { replace (i_size d / 16) with (Z.of_nat k + (i_size d / 16 - Z.of_nat k)) at 1 by lia.
      rewrite seqZ_app, (seqZ_cons (0 + Z.of_nat k)) by lia. unfold Z.succ, Z.pred. rewrite Z.add_0_l. do 2 f_equal. }
    rewrite fmap_app, fmap_cons. destruct (Hskip (16 * Z.of_nat k :: (Z.mul 16 <$> seqZ (Z.of_nat k + 1) (i_size d / 16 - Z.of_nat k - 1)))) as (t1 & E1 & Ht1).
    destruct (read_dirent_eq g f sb t1 L ∅ ic dp d (Z.of_nat k) "dirlink read" Hdp Hf Ht1 Hsz' unheld_empty ltac:(lia)) as (t2 & E2 & Ht2).
    { clear -Hlt Hlen Hmod Hs. dlia. }
    exists t2. split; [exact Ht2|]. rewrite E1. cbn [for_each]. unfold slot_scan at 1. unfold bind at 1. rewrite (bind_eq _ _ _ _ _ E2).
    rewrite (Hfree (entry f d (Z.of_nat k))) by (apply dirents_lookup; lia). reflexivity.
  - destruct (Hskip []) as (t1 & E1 & Ht1). rewrite app_nil_r in E1. exists t1. split; [exact Ht1|].
    replace (i_size d / 16) with (Z.of_nat k) by (clear -Hge Hle Hlen Hs; dlia). exact E1.
Qed.

(** A directory: its size is that of its entries, no name is there twice. *)
Record dir_at f (d : inode) (nb : Z) : Prop := {
  da_file : file_at g sb f d nb;
  da_type : i_type d = T_DIR;
  da_size : i_size d mod 16 = 0;
  da_unique : dir_unique (dirents f d) }.

Lemma length_strncpy n : forall s, length (strncpy_bytes n s) = n.
Proof.
  induction n as [|n IH]; intros [|x s]; cbn [strncpy_bytes]; try reflexivity; [rewrite length_replicate; reflexivity|].
  destruct (x =? 0); [apply length_replicate | cbn; rewrite IH; reflexivity].
Qed.
Lemma strncpy_zeros n : forall k, strncpy_bytes n (replicate k 0) = replicate n 0.
Proof. destruct n as [|n]; intros [|k]; reflexivity. Qed.
Lemma strncpy_twice n : forall s, strncpy_bytes n (strncpy_bytes n s) = strncpy_bytes n s.
Proof.
  induction n as [|n IH]; intros [|x s]; cbn [strncpy_bytes]; try reflexivity.
  destruct (x =? 0) eqn:E; [reflexivity|]. rewrite E, IH. reflexivity.
Qed.

(** dirlookup() is the lookup of the map. *)
Lemma dirlookup_map t f L ic dp d nb name : ic_inode ic !! dp = Some d -> dir_at f d nb -> tx_is t g f L ∅ -> (size L < NBUF)%nat ->
  exists t', tx_is t' g f L ∅ /\
    match dir_map (dirents f d) !! strncpy_bytes DIRSIZ name with
    | Some n => exists k e, dirents f d !! k = Some e /\ entry_is name e = true /\ dirlookup dp name (mk_fs t sb ic) =
        (let! ip := iget (i_dev d) n in ret (Some (ip, 16 * Z.of_nat k))) (mk_fs t' sb ic)
    | None => dirlookup dp name (mk_fs t sb ic) = Ret None (mk_fs t' sb ic)
    end.
Proof.
  intros Hdp [Hf Hty Hmod _] Ht Hsz. pose proof (file_at_ok f d nb Hf) as Hok. pose proof (length_dirents f d) as Hlen.
  pose proof (fa_size _ _ _ _ _ Hf) as Hs0. assert (0 <= i_size d / 16) as Hn by (clear -Hs0; dlia).
  destruct (dirlookup_eq g f sb t L ∅ ic dp d name Hdp Hok Hty Hmod Ht ltac:(rewrite map_size_empty; lia) unheld_empty) as [Hyes Hno].
  destruct (list_find (fun e => entry_is name e = true) (dirents f d)) as [[k e]|] eqn:Ef.
  - apply list_find_Some in Ef as (Hk & He & Hfirst). pose proof (lookup_lt_Some _ _ _ Hk) as Hlt.
    assert (forall j, 0 <= j < Z.of_nat k -> entry_is name (entry f d j) = false) as Hb.
    { intros j Hj. destruct (entry_is name (entry f d j)) eqn:Ej; [|reflexivity]. exfalso. apply (Hfirst (Z.to_nat j) (entry f d j)); [|lia|exact Ej].
      rewrite dirents_lookup by lia. do 2 f_equal. lia. }
    assert (entry f d (Z.of_nat k) = e) as Ee by (rewrite dirents_lookup in Hk by lia; injection Hk as E; exact E).
    rewrite (dir_map_first name _ k e Hk He).
    + rewrite <- Ee in He at 1. destruct (Hyes (Z.of_nat k) ltac:(lia) He Hb) as (t' & Ht' & E). exists t'. split; [exact Ht'|].
      exists k, e. rewrite E, Ee. rewrite Ee in He. auto.
    + intros j x Hj Hx. destruct (entry_is name x) eqn:E; [|reflexivity]. destruct (Hfirst j x Hx Hj E).
  - apply list_find_None in Ef. rewrite Forall_lookup in Ef.
    assert (forall k e, dirents f d !! k = Some e -> entry_is name e = false) as Hb.
    { intros k e Hk. specialize (Ef k e Hk). destruct (entry_is name e); [destruct (Ef eq_refl) | reflexivity]. }
    rewrite (proj2 (dir_map_none name _) Hb). apply Hno. intros j Hj. apply (Hb (Z.to_nat j)). rewrite dirents_lookup by lia. do 2 f_equal. lia.
Qed.

(** 16 bytes at slot [k] of the directory, the end included. *)
Lemma dir_write t f L ic dp d nb m k e : ic_inode ic !! dp = Some d -> dir_at f d nb -> tx_is t g f L ∅ -> one_map sb m ->
  (size L + 8 < fr_cap g)%nat -> (size L + 9 < NBUF)%nat -> (k <= length (dirents f d))%nat -> dirent_ok e ->
  16 * Z.of_nat k + 16 <= MAXFILE * BSIZE -> (2 <= length (frees f sb))%nat ->
  exists t' f' L' d' nb', writei dp (16 * Z.of_nat k) (enc_dirent e) (mk_fs t sb ic) = Ret 16 (mk_fs t' sb (set_inode ic dp d')) /\
    tx_is t' g f' L' ∅ /\ (size L' <= size L + 7)%nat /\ file_at g sb f' d' nb' /\ i_type d' = T_DIR /\ i_size d' mod 16 = 0 /\
    dirents f' d' = dir_put (dirents f d) k e.
Proof.
  intros Hdp [Hf Hty Hmod Hu] Ht Hm Hcap Hbuf Hk He Hend Hfree. rewrite length_dirents in Hk. pose proof (fa_size _ _ _ _ _ Hf) as Hs0.
  assert (length (enc_dirent e) = 16%nat) as Hl by (unfold enc_dirent; rewrite length_app, length_to_le, (proj2 He); reflexivity).
  assert (0 <= 16 * Z.of_nat k <= i_size d /\ 0 <= Z.of_nat k <= i_size d / 16) as [Hoff Hk'] by (clear -Hk Hs0; split; dlia).
  assert (fresh nb (16 * Z.of_nat k) (enc_dirent e) <= 2)%nat as Hfr.
  { unfold fresh, needed, blocks_for. rewrite Hl. unfold BSIZE in *.
    assert ((16 * Z.of_nat k + 16 + 512 - 1) / 512 <= nb + 1) by (clear -Hoff Hs0; dlia).
    change (Z.of_nat 16) with 16. destruct (Z.leb_spec nb NDIRECT), (Z.ltb_spec NDIRECT (Z.max nb ((16 * Z.of_nat k + 16 + 512 - 1) / 512))); cbn [andb]; lia. }
  destruct (chunk_run g sb t f L ic dp d nb (16 * Z.of_nat k) (enc_dirent e) m) as (t' & f' & L' & d' & W & E & Ht' & HW & HsW & _ & _ & Hap);
    try assumption; rewrite ?Hl; change max_write with 1536; try lia.
  destruct (dirents_put f d nb f' d' _ e _ _ Hf Hmod Hk' He Hap) as [Ed Emod]. rewrite Nat2Z.id in Ed.
  apply subseteq_size in HW. exists t', f', L', d', (blocks_for nb (16 * Z.of_nat k + Z.of_nat (length (enc_dirent e)))).
  destruct (ap_inode _ _ _ _ _ _ _ _ _ _ _ Hap) as [a Ea]. rewrite Hl in E at 1.
  split_and!; try assumption; [lia | apply Hap | rewrite Ea; destruct d; exact Hty].
Qed.

Lemma dirlink_run t f L ic dp d nb m name inum : ic_inode ic !! dp = Some d -> dir_at f d nb -> tx_is t g f L ∅ -> one_map sb m ->
  (size L + 8 < fr_cap g)%nat -> (size L + 9 < NBUF)%nat -> 0 < inum < 2 ^ 16 -> i_size d + 16 <= MAXFILE * BSIZE -> (2 <= length (frees f sb))%nat ->
  dir_map (dirents f d) !! strncpy_bytes DIRSIZ name = None ->
  exists t' f' L' d' nb', dirlink dp name inum (mk_fs t sb ic) = Ret 0 (mk_fs t' sb (set_inode ic dp d')) /\
    tx_is t' g f' L' ∅ /\ (size L' <= size L + 7)%nat /\ dir_at f' d' nb' /\
    dir_map (dirents f' d') = <[strncpy_bytes DIRSIZ name := inum]> (dir_map (dirents f d)).
Proof.
  intros Hdp Hd Ht Hm Hcap Hbuf Hinum Hsize Hfree Habs. destruct (dirlookup_map t f L ic dp d nb name Hdp Hd Ht ltac:(lia)) as (t1 & Ht1 & E1).
  rewrite Habs in E1. pose proof Hd as [Hf Hty Hmod Hu]. pose proof (file_at_ok f d nb Hf) as Hok. pose proof (fa_size _ _ _ _ _ Hf) as Hs0.
  destruct (find_slot t1 f L ic dp d Hdp Hok Hmod Ht1 ltac:(lia)) as (t2 & Ht2 & E2).
  destruct (dir_slot_spec (dirents f d)) as (_ & Hle & _). set (k := dir_slot (dirents f d)) in *. pose proof (length_dirents f d) as Hlen.
  set (e := mk_dirent (u16 inum) (strncpy_bytes DIRSIZ name)).
  assert (u16 inum = inum) as Einum by (unfold u16; apply Z.mod_small; lia).
  assert (dirent_ok e) as He by (split; [cbn; rewrite Einum; lia | apply length_strncpy]).
  destruct (dir_write t2 f L ic dp d nb m k e Hdp Hd Ht2 Hm Hcap Hbuf Hle He) as (t3 & f3 & L3 & d3 & nb3 & E3 & Ht3 & HL3 & Hf3 & Hty3 & Hmod3 & Ed3).
  { assert (16 * (i_size d / 16) <= i_size d) by (clear; dlia). lia. }
  { exact Hfree. }
  assert (de_inum e <> 0 /\ de_key e = strncpy_bytes DIRSIZ name) as [Hne Ekey] by (split; [cbn; lia | apply strncpy_twice]).
  exists t3, f3, L3, d3, nb3. split_and!; try assumption.
  - unfold dirlink. rewrite (bind_eq _ _ _ _ _ E1), (bind_eq _ _ _ _ _ (inode_get_eq t1 sb ic dp d Hdp)). unfold bind at 1.
    change (fun off => let! de := read_dirent dp off "dirlink read" in if de_inum de =? 0 then ret (Some off) else ret None) with (slot_scan dp).
    rewrite E2. fold e.
    assert ((match (if (k <? length (dirents f d))%nat then Some (16 * Z.of_nat k) else None) with
      Some off => off | None => 16 * ((i_size d + 15) / 16) end) = 16 * Z.of_nat k) as ->.
    { destruct (Nat.ltb_spec k (length (dirents f d))) as [|Hge]; [reflexivity|]. clear -Hge Hle Hlen Hmod Hs0. dlia. }
    rewrite (bind_eq _ _ _ _ _ E3). reflexivity.
  - split; try assumption. rewrite Ed3. unfold dir_unique, k. rewrite dir_keys_insert by exact Hne. apply NoDup_cons. split; [|exact Hu].
    rewrite Ekey. apply dir_map_absent, Habs.
  - rewrite Ed3. unfold k. rewrite dir_map_insert; [|rewrite Ekey; exact Habs | exact Hne]. rewrite Ekey. cbn. rewrite Einum. reflexivity.
Qed.

Lemma unlink_run t f L ic dp d nb m k e : ic_inode ic !! dp = Some d -> dir_at f d nb -> tx_is t g f L ∅ -> one_map sb m ->
  (size L + 8 < fr_cap g)%nat -> (size L + 9 < NBUF)%nat -> (2 <= length (frees f sb))%nat -> dirents f d !! k = Some e -> de_inum e <> 0 ->
  exists t' f' L' d' nb', writei dp (16 * Z.of_nat k) (replicate 16 0) (mk_fs t sb ic) = Ret 16 (mk_fs t' sb (set_inode ic dp d')) /\
    tx_is t' g f' L' ∅ /\ (size L' <= size L + 7)%nat /\ dir_at f' d' nb' /\
    dir_map (dirents f' d') = delete (de_key e) (dir_map (dirents f d)).
Proof.
  intros Hdp Hd Ht Hm Hcap Hbuf Hfree Hk Hne. pose proof Hd as [Hf Hty Hmod Hu]. pose proof (lookup_lt_Some _ _ _ Hk) as Hlt.
  pose proof (length_dirents f d) as Hlen. pose proof (fa_size _ _ _ _ _ Hf) as Hs0. pose proof (ob_nb _ _ _ _ _ _ (fa_blocks _ _ _ _ _ Hf)) as Hnb.
  change (replicate 16 0) with (enc_dirent no_dirent).
  destruct (dir_write t f L ic dp d nb m k no_dirent Hdp Hd Ht Hm Hcap Hbuf ltac:(lia)) as (t' & f' & L' & d' & nb' & E & Ht' & HL' & Hf' & Hty' & Hmod' & Ed).
  - split; [cbn; lia | reflexivity].
  - rewrite Hlen in Hlt. unfold BSIZE in *. clear -Hlt Hs0 Hnb. dlia.
  - exact Hfree.
  - unfold dir_put in Ed. rewrite (proj2 (Nat.ltb_lt _ _)) in Ed by exact Hlt. destruct (dir_map_delete _ k e Hk Hne Hu) as [Em Eu].
    exists t', f', L', d', nb'. split_and!; try assumption; [split; try assumption; rewrite Ed; exact Eu | rewrite Ed; exact Em].
Qed.
End Dir.

(** C6. dirlink() inserts a name into the map that a directory holds: of a
    new name the entry is there afterwards, every other name has the inode
    it had, no name is there twice, and at most 7 blocks are logged; of a
    name that is there nothing is written, the inode that dirlookup() got is
    put again and the result is -1. *)
Theorem dirlink_inserts `{Ctx} {T} `{TxLaws T} `{Devsw (fstate T)} g sb t f L ic dp d nb m name inum
    (Hdp : ic_inode ic !! dp = Some d) (Hd : dir_at g sb f d nb) (Ht : tx_is t g f L ∅) (Hm : one_map sb m)
    (Hcap : (size L + 8 < fr_cap g)%nat) (Hbuf : (size L + 9 < NBUF)%nat) (Hinum : 0 < inum < 2 ^ 16)
    (Hsize : i_size d + 16 <= MAXFILE * BSIZE) (Hfree : (2 <= length (frees f sb))%nat) :
  match dir_map (dirents f d) !! strncpy_bytes DIRSIZ name with
  | None => exists t' f' L' d' nb', dirlink dp name inum (mk_fs t sb ic) = Ret 0 (mk_fs t' sb (set_inode ic dp d')) /\
      tx_is t' g f' L' ∅ /\ (size L' <= size L + 7)%nat /\ dir_at g sb f' d' nb' /\
      dir_map (dirents f' d') = <[strncpy_bytes DIRSIZ name := inum]> (dir_map (dirents f d))
  | Some n => exists t', tx_is t' g f L ∅ /\
      dirlink dp name inum (mk_fs t sb ic) = (let! ip := iget (i_dev d) n in iput ip ;! ret (-1)) (mk_fs t' sb ic)
  end.
Proof.
  destruct (dir_map (dirents f d) !! strncpy_bytes DIRSIZ name) as [n|] eqn:E; [|eapply dirlink_run; eassumption].
  destruct (dirlookup_map g sb t f L ic dp d nb name Hdp Hd Ht ltac:(lia)) as (t' & Ht' & Hlook). rewrite E in Hlook.
  destruct Hlook as (k & e & _ & _ & El). exists t'. split; [exact Ht'|]. unfold dirlink. unfold bind at 1. rewrite El. unfold bind.
  destruct (iget (i_dev d) n (mk_fs t' sb ic)); reflexivity.
Qed.

(** What sys_unlink() does to a directory deletes a name from its map:
    dirlookup() returns the offset of the entry, and 16 zeros written there
    remove this name and no other. *)
Theorem unlink_deletes `{Ctx} {T} `{TxLaws T} `{Devsw (fstate T)} g sb t f L ic dp d nb m name n
    (Hdp : ic_inode ic !! dp = Some d) (Hd : dir_at g sb f d nb) (Ht : tx_is t g f L ∅) (Hm : one_map sb m)
    (Hcap : (size L + 8 < fr_cap g)%nat) (Hbuf : (size L + 9 < NBUF)%nat) (Hfree : (2 <= length (frees f sb))%nat)
    (Hname : dir_map (dirents f d) !! strncpy_bytes DIRSIZ name = Some n) :
  exists off t1, dirlookup dp name (mk_fs t sb ic) = (let! ip := iget (i_dev d) n in ret (Some (ip, off))) (mk_fs t1 sb ic) /\
    exists t' f' L' d' nb', writei dp off (replicate 16 0) (mk_fs t1 sb ic) = Ret 16 (mk_fs t' sb (set_inode ic dp d')) /\
      tx_is t' g f' L' ∅ /\ (size L' <= size L + 7)%nat /\ dir_at g sb f' d' nb' /\
      dir_map (dirents f' d') = delete (strncpy_bytes DIRSIZ name) (dir_map (dirents f d)).
Proof.
  destruct (dirlookup_map g sb t f L ic dp d nb name Hdp Hd Ht ltac:(lia)) as (t1 & Ht1 & Hlook). rewrite Hname in Hlook.
  destruct Hlook as (k & e & Hk & He & El). apply entry_is_spec in He as [Hne ->]. exists (16 * Z.of_nat k), t1. split; [exact El|].
  eapply unlink_run; eassumption.
Qed.

Section Witnesses.
#[local] Instance dir_ctx : Ctx := {| cpu_id := 0; cur_pid := 1 |}.
#[local] Instance dir_devices {S} : Devsw S := {| dev_read _ := None; dev_write _ := None |}.

(** The disk of [demo_dir_inode] with its block 51 in use. *)
Definition dir_img (n : Z) : block :=
  if n =? 40 then replicate 6 255 ++ [15] ++ replicate 505 0 else if n =? 51 then demo_dir
  else if n =? 32 then put_dinode 1 (dinode_of demo_dir_inode) (replicate 512 0) else replicate 512 0.
Definition dir_ic : icache := mk_icache None (demo_dir_inode :: replicate 49 free_inode).
Lemma dir_tx_is : tx_is (started dir_img) (start_frame dir_img) dir_img ∅ ∅.
Proof. apply started_tx_is; [|reflexivity]. intros n. unfold dir_img. repeat destruct (_ =? _); reflexivity. Qed.
Lemma dir_data b : 32 <= b < 52 -> b <> 40 -> data_block (start_frame dir_img) demo_sb dir_img b.
Proof.
  intros Hb Hne. split; [lia | cbn; lia | apply (used_all _ _ 52); [vm_compute; reflexivity | lia] | |].
  - cbn. unfold home, in_area. cbn. lia.
  - intros Hm%grow_map. contradiction.
Qed.
Lemma dir_demo : dir_at (start_frame dir_img) demo_sb dir_img demo_dir_inode 1.
Proof.
  split; [|reflexivity | reflexivity | apply (bool_decide_unpack _); vm_compute; exact I].
  split; [split | | cbn; unfold BSIZE; lia | | apply (dir_data 32); lia | | vm_compute; reflexivity];
    try reflexivity; try discriminate; try (change (own dir_img demo_dir_inode 1 (NDIRECT <? 1)) with [51]).
  - unfold MAXFILE. lia.
  - apply NoDup_singleton.
  - intros b ->%list_elem_of_singleton. apply dir_data; lia.
  - intros k Hk. unfold NDIRECT in Hk. apply nth_lookup_Some. cbn [i_addrs demo_dir_inode].
    rewrite lookup_app_r by (cbn [length]; lia). apply lookup_replicate. cbn [length]. lia.
  - split; [apply started_bitmap; vm_compute; reflexivity | reflexivity | vm_compute; reflexivity].
  - unfold dinode_ok, dinode_of. cbn -[Z.pow]. unfold T_DIR. split_and!; try lia; try reflexivity. repeat (constructor; [lia|]). constructor.
  - intros E%list_elem_of_singleton. discriminate E.
Qed.

Example dirlink_inserts_witness : exists t' d', dirlink 0 (str "new") 9 (mk_fs (started dir_img) demo_sb dir_ic) =
  Ret 0 (mk_fs t' demo_sb (set_inode dir_ic 0 d')).
Proof.
  pose proof (dirlink_inserts (start_frame dir_img) demo_sb (started dir_img) dir_img ∅ dir_ic 0 demo_dir_inode 1 40 (str "new") 9
    eq_refl dir_demo dir_tx_is grow_map ltac:(vm_compute; lia) ltac:(vm_compute; lia) ltac:(lia) ltac:(vm_compute; discriminate) ltac:(vm_compute; lia)) as Hl.
  assert (dir_map (dirents dir_img demo_dir_inode) !! strncpy_bytes DIRSIZ (str "new") = None) as E by (vm_compute; reflexivity).
  rewrite E in Hl. destruct Hl as (t' & f' & L' & d' & nb' & Er & _). exists t', d'. exact Er.
Defined.
Example unlink_deletes_witness : exists t' d', exists off, exists t1, writei 0 off (replicate 16 0) (mk_fs t1 demo_sb dir_ic) =
  Ret 16 (mk_fs t' demo_sb (set_inode dir_ic 0 d')).
Proof.
  destruct (unlink_deletes (start_frame dir_img) demo_sb (started dir_img) dir_img ∅ dir_ic 0 demo_dir_inode 1 40 (str "ab") 7
    eq_refl dir_demo dir_tx_is grow_map ltac:(vm_compute; lia) ltac:(vm_compute; lia) ltac:(vm_compute; lia) ltac:(vm_compute; reflexivity))
    as (off & t1 & _ & t' & f' & L' & d' & nb' & E & _).
  exists t', d', off, t1. exact E.
Defined.
End Witnesses.
