(* ===== verification/Mkfs.v ===== *)
(** * The builder of the first file system

    [src/homeworks/xv6-public/mkfs.c], a program of the host: the image is
    the list of blocks written so far, its [open], [lseek], [read] and [write]
    succeed but for a read behind the end; an input file is the list of what
    read() returns, at most a block each.  A failed assert() and exit(1) stop
    the program ([Panicked]).  The proofs are in [MkfsProofs.v]. *)
From S2P Require Import Prelude.
From S2P Require Import Layout.
From S2P Require Import Bio.
From S2P Require Import Log.
From S2P Require Import Fs.

(** ** Constants and variables *)

Definition FSSIZE : Z := 1000.
Definition NINODES : Z := 200.
Definition nbitmap : Z := FSSIZE / (BSIZE * 8) + 1.
Definition ninodeblocks : Z := NINODES / IPB + 1.
Definition nlog : Z := LOGSIZE.
Definition nmeta : Z := 2 + nlog + ninodeblocks + nbitmap.
Definition nblocks : Z := FSSIZE - nmeta.

(** To intel byte order and read back as the integer of an intel host. *)
Definition xshort (x : Z) : Z := from_le [u8 x; u8 (Z.shiftr x 8)].
Definition xint (x : Z) : Z := from_le [u8 x; u8 (Z.shiftr x 8); u8 (Z.shiftr x 16); u8 (Z.shiftr x 24)].

(** sb, as main() fills it. *)
Definition sb : superblock := mk_superblock (xint FSSIZE) (xint nblocks) (xint NINODES) (xint nlog)
  (xint 2) (xint (2 + nlog)) (xint (2 + nlog + ninodeblocks)).
(** The bytes of a struct superblock. *)
Definition enc_superblock (s : superblock) : list Z :=
  to_le 4 (sb_size s) ++ to_le 4 (sb_nblocks s) ++ to_le 4 (sb_ninodes s) ++ to_le 4 (sb_nlog s) ++
  to_le 4 (sb_logstart s) ++ to_le 4 (sb_inodestart s) ++ to_le 4 (sb_bmapstart s).

(** fsfd, freeinode and freeblock *)
Record host := mk_host { h_img : list block; h_freeinode : Z; h_freeblock : Z }.
#[export] Instance eta_host : Eta host := fun h => mk_host (h_img h) (h_freeinode h) (h_freeblock h).

Definition zeroes : block := replicate (Z.to_nat BSIZE) 0.
Definition assert_ (ok : bool) : M host unit := panic_if (negb ok) "assert".

(** ** Sectors *)

(** A write behind the end leaves a hole of zeros. *)
Definition wsect (sec : Z) (buf : block) : M host unit :=
  let n := Z.to_nat sec in
  modify (fun h => h <| h_img ::= fun l => if (n <? length l)%nat then <[n := buf]> l else l ++ replicate (n - length l) zeroes ++ [buf] |>).
Definition rsect (sec : Z) : M host block :=
  let! l := get h_img in
  match l !! Z.to_nat sec with
  | Some buf => ret buf
  | None => panic "read"
  end.

(** ** Inodes *)

Definition winode (inum : Z) (ip : dinode) : M host unit :=
  let bn := IBLOCK inum sb in
  let! buf := rsect bn in
  wsect bn (put_dinode (Z.to_nat (inum mod IPB)) ip buf).
Definition rinode (inum : Z) : M host dinode :=
  let bn := IBLOCK inum sb in
  let! buf := rsect bn in
  ret (get_dinode (Z.to_nat (inum mod IPB)) buf).
Definition ialloc (type : Z) : M host Z :=
  let! inum := get h_freeinode in
  modify (fun h => h <| h_freeinode ::= fun n => u32 (n + 1) |>) ;!
  let din := mk_dinode (xshort type) 0 0 (xshort 1) (xint 0) (replicate 13 0) in
  winode inum din ;!
  ret inum.

(** The bit map of the first [used] blocks. *)
Fixpoint mark (n : nat) (buf : block) : block :=
  match n with
  | O => buf
  | S n' => let buf := mark n' buf in let i := Z.of_nat n' in
      <[Z.to_nat (i / 8) := Z.lor (bit_byte buf i) (Z.shiftl 1 (i mod 8))]> buf
  end.
Definition balloc (used : Z) : M host unit :=
  assert_ (used <? BSIZE * 8) ;!
  wsect (sb_bmapstart sb) (mark (Z.to_nat used) zeroes).

(** [freeblock++] *)
Definition new_block : M host Z :=
  let! b := get h_freeblock in
  modify (fun h => h <| h_freeblock := u32 (b + 1) |>) ;!
  ret (xint b).

(** ** Appending to a file *)

Definition set_din (d : dinode) (n : nat) (a : Z) : dinode :=
  mk_dinode (di_type d) (di_major d) (di_minor d) (di_nlink d) (di_size d) (<[n := a]> (di_addrs d)).
Definition din_addr (d : dinode) (n : Z) : Z := nth (Z.to_nat n) (di_addrs d) 0.
(** [din.addrs[n]], allocated when it is 0. *)
Definition addr_for (din : dinode) (n : Z) : M host dinode :=
  if xint (din_addr din n) =? 0 then
    let! b := new_block in
    ret (set_din din (Z.to_nat n) b)
  else ret din.
(** The entry of the indirect block, allocated when it is 0. *)
Definition entry_for (din : dinode) (fbn : Z) : M host Z :=
  let! indirect := rsect (xint (din_addr din NDIRECT)) in
  let off := (4 * Z.to_nat (fbn - NDIRECT))%nat in
  let! indirect := (if get_u32 off indirect =? 0 then
      let! b := new_block in
      let indirect := put_u32 off b indirect in
      wsect (xint (din_addr din NDIRECT)) indirect ;!
      ret indirect
    else ret indirect) in
  ret (xint (get_u32 off indirect)).
(** The block of file block [fbn], and the inode with it. *)
Definition block_for (din : dinode) (fbn : Z) : M host (Z * dinode) :=
  if fbn <? NDIRECT then
    let! din := addr_for din fbn in
    ret (xint (din_addr din fbn), din)
  else
    let! din := addr_for din NDIRECT in
    let! x := entry_for din fbn in
    ret (x, din).
(** [while(n > 0)]: every round takes a byte at least. *)
Fixpoint iappend_loop (fuel : nat) (din : dinode) (off : Z) (p : list Z) : M host (dinode * Z) :=
  match p with
  | [] => ret (din, off)
  | _ =>
    match fuel with
    | O => halt NoFuel
    | S fuel' =>
        let fbn := off / BSIZE in
        assert_ (fbn <? MAXFILE) ;!
        let! r := block_for din fbn in
        let '(x, din) := r in
        let n1 := Z.min (Z.of_nat (length p)) ((fbn + 1) * BSIZE - off) in
        let! buf := rsect x in
        wsect x (store (Z.to_nat (off - fbn * BSIZE)) (take (Z.to_nat n1) p) buf) ;!
        iappend_loop fuel' din (u32 (off + n1)) (drop (Z.to_nat n1) p)
    end
  end.
Definition set_size (d : dinode) (n : Z) : dinode :=
  mk_dinode (di_type d) (di_major d) (di_minor d) (di_nlink d) n (di_addrs d).
Definition iappend (inum : Z) (p : list Z) : M host unit :=
  let! din := rinode inum in
  let! r := iappend_loop (length p) din (xint (di_size din)) p in
  let '(din, off) := r in
  winode inum (set_size din (xint off)).

(** ** main() *)

(** The entry of a name in the root directory. *)
Definition add_entry (rootino inum : Z) (name : list Z) : M host unit :=
  iappend rootino (enc_dirent (mk_dirent (xshort inum) (strncpy_bytes DIRSIZ name))).
(** The leading _ is skipped. *)
Definition image_name (arg : list Z) : list Z :=
  match arg with
  | c :: name => if c =? 95 then name else arg
  | [] => []
  end.
(** An argument, with what read() returns of the file. *)
Definition add_file (rootino : Z) (arg : list Z * list (list Z)) : M host unit :=
  let '(name, reads) := arg in
  assert_ (negb (existsb (fun c => c =? 47) name)) ;!
  let! inum := ialloc T_FILE in
  add_entry rootino inum (image_name name) ;!
  for_all reads (iappend inum).
Definition main (args : list (list Z * list (list Z))) : M host unit :=
  modify (fun h => h <| h_freeblock := nmeta |>) ;!
  for_all (seqZ 0 FSSIZE) (fun i => wsect i zeroes) ;!
  wsect 1 (store 0 (enc_superblock sb) zeroes) ;!
  let! rootino := ialloc T_DIR in
  assert_ (rootino =? ROOTINO) ;!
  add_entry rootino rootino (str ".") ;!
  add_entry rootino rootino (str "..") ;!
  for_all args (add_file rootino) ;!
  (* fix size of root inode dir *)
  let! din := rinode rootino in
  let off := xint (di_size din) in
  let off := u32 ((off / BSIZE + 1) * BSIZE) in
  winode rootino (set_size din (xint off)) ;!
  let! used := get h_freeblock in
  balloc (s32 used).
(** The program starts with an empty image. *)
Definition start : host := mk_host [] 1 0.
