(* ===== verification/MkfsProofs.v ===== *)
(** * The image that mkfs builds is a file system of the kernel

    The blocks that [Mkfs.v] writes, with the bit map it writes at the end put
    in its place, are at every moment a file system as [FsGrow.v] and
    [FsDir.v] describe it: iappend() does what writei() at the end of a file
    does, and the last block of every file ends in zeros. *)
From S2P Require Import Prelude.
From S2P Require Import Sleeplock.
From S2P Require Import Layout.
From S2P Require Import Bio.
From S2P Require Import Cache.
From S2P Require Import Log.
From S2P Require Import LogProofs.
From S2P Require Import Tx.
From S2P Require Import Fs.
From S2P Require Import FsProofs.
From S2P Require Import FsGrow.
From S2P Require Import FsTrunc.
From S2P Require Import FsDir.
From S2P Require Import FsCrash.
From S2P Require Import Mkfs.

(** ** Bytes and bits *)

Lemma xint_id x : 0 <= x < 2 ^ 32 -> xint x = x.
Proof.
  intros Hx. transitivity (from_le (to_le 4 x)).
  - unfold xint, u8. rewrite !Z.shiftr_div_pow2 by lia. cbn [to_le]. rewrite !Z.div_div by lia. reflexivity.
  - rewrite from_to_le. apply Z.mod_small. exact Hx.
Qed.
Lemma xshort_id x : 0 <= x < 2 ^ 16 -> xshort x = x.
Proof.
  intros Hx. transitivity (from_le (to_le 2 x)).
  - unfold xshort, u8. rewrite !Z.shiftr_div_pow2 by lia. reflexivity.
  - rewrite from_to_le. apply Z.mod_small. exact Hx.
Qed.

Lemma length_mark n : length (mark n zeroes) = 512%nat.
Proof. induction n as [|n IH]; [apply length_replicate|]. cbn [mark]. rewrite length_insert. exact IH. Qed.
Lemma nth_zeroes k : nth k zeroes 0 = 0.
Proof.
  destruct (decide (k < 512)%nat) as [Hk|Hk]; [apply nth_lookup_Some, lookup_replicate; auto | apply nth_overflow; unfold zeroes; rewrite length_replicate; exact (not_lt _ _ Hk)].
Qed.
Lemma mark_bit b : 0 <= b < 4096 -> forall n, (n <= 4096)%nat -> Z.testbit (bit_byte (mark n zeroes) b) (b mod 8) = (b <? Z.of_nat n).
Proof.
  intros Hb. induction n as [|n IH]; intros Hn.
  - cbn [mark]. unfold bit_byte. rewrite nth_zeroes, Z.bits_0. symmetry. apply Z.ltb_ge. lia.
  - cbn [mark]. set (i := Z.of_nat n). rewrite bit_byte_insert by (try apply length_mark; lia).
    destruct (Z.eqb_spec (b / 8) (i / 8)) as [E|E].
    + assert (bit_byte (mark n zeroes) i = bit_byte (mark n zeroes) b) as -> by (unfold bit_byte; rewrite E; reflexivity).
      rewrite Z.lor_spec, IH by lia. rewrite Z.shiftl_1_l, Z.pow2_bits_eqb by dlia.
      destruct (Z.eqb_spec (i mod 8) (b mod 8)) as [E'|E'].
      * assert (b = i) as -> by dlia. rewrite orb_true_r. symmetry. apply Z.ltb_lt. lia.
      * rewrite orb_false_r. assert (b <> i) as Hne by congruence. apply eq_iff_eq_true. rewrite !Z.ltb_lt. lia.
    + rewrite IH by lia. assert (b <> i) as Hne by congruence. apply eq_iff_eq_true. rewrite !Z.ltb_lt. lia.
Qed.

(** ** The blocks on the disk *)

(** The frame of the kernel's operations on this file system. *)
Definition disk_frame : frame :=
  mk_frame 29 1000 (fun b => (0 <= b < 1000 /\ ~ 2 <= b < 2 + 30) /\ b <> 1) (fun _ => zeroes) (2, 30) 1 (mk_disk 1000 (fun _ => zeroes) []).
#[local] Abbreviation G := disk_frame.

Lemma map_block_58 b : map_block sb b <-> b = 58.
Proof.
  unfold map_block. change (sb_size sb) with 1000. assert (forall c, 0 <= c < 1000 -> BBLOCK c sb = 58) as E.
  { intros c Hc. unfold BBLOCK. change (sb_bmapstart sb) with 58. unfold BPB. rewrite Z.div_small by lia. reflexivity. }
  split; [intros (c & Hc & ->); apply E, Hc | intros ->; exists 0; split; [lia | symmetry; apply E; lia]].
Qed.
Lemma used_map f b : 0 <= b < 1000 -> used f sb b = Z.testbit (bit_byte (f 58) b) (b mod 8).
Proof.
  intros Hb. unfold used. replace (BBLOCK b sb) with 58 by (symmetry; apply map_block_58; exists b; split; [exact Hb | reflexivity]).
  unfold BPB. rewrite Z.mod_small by lia. reflexivity.
Qed.

(** The image shows the blocks [f], once balloc() has written the map. *)
Record shows (h : host) f : Prop := {
  sh_len : length (h_img h) = 1000%nat;
  sh_img : forall n, 0 <= n < 1000 -> n <> 58 -> h_img h !! Z.to_nat n = Some (f n);
  sh_blk : forall n, 0 <= n < 1000 -> length (f n) = 512%nat;
  sh_map : f 58 = mark (Z.to_nat (h_freeblock h)) zeroes;
  sh_fb : 59 <= h_freeblock h <= 1000;
  sh_zero : forall n, h_freeblock h <= n < 1000 -> f n = zeroes }.

Lemma shows_used h f b : shows h f -> 0 <= b < 1000 -> used f sb b = (b <? h_freeblock h).
Proof.
  intros Hs Hb. pose proof (sh_fb _ _ Hs). rewrite used_map, (sh_map _ _ Hs), mark_bit by lia. rewrite Z2Nat.id by lia. reflexivity.
Qed.
Lemma shows_alloc h f : shows h f -> alloc_ok G f sb.
Proof.
  intros Hs. pose proof (shows_used h f) as Hu. pose proof (sh_fb _ _ Hs) as Hfb. split; [split|reflexivity|]; change (sb_size sb) with 1000; change (fr_size G) with 1000; try lia.
  - change (sb_bmapstart sb) with 58. lia.
  - intros b Hb. assert (BBLOCK b sb = 58) as -> by (apply map_block_58; exists b; auto). cbn. lia.
  - intros b Hb E. rewrite Hu in E by assumption. apply Z.ltb_ge in E. cbn. lia.
  - intros b c Hb Hc E. rewrite Hu in E by assumption. apply Z.ltb_ge in E. assert (BBLOCK c sb = 58) as -> by (apply map_block_58; exists c; auto). lia.
  - rewrite Hu by (assumption || lia). apply Z.ltb_lt. lia.
Qed.
Lemma filter_split {A} (P : A -> Prop) `{!forall x, Decision (P x)} l1 l2 : (forall x, x ∈ l1 -> ~ P x) -> (forall x, x ∈ l2 -> P x) -> filter P (l1 ++ l2) = l2.
Proof.
  intros H1 H2. induction l1 as [|x l1 IH]; cbn [app].
  - induction l2 as [|y l2 IH]; [reflexivity|]. rewrite filter_cons, decide_True by (apply H2; left). f_equal. apply IH. intros z Hz. apply H2. right. exact Hz.
  - rewrite filter_cons, decide_False by (apply H1; left). apply IH. intros y Hy. apply H1. right. exact Hy.
Qed.
Lemma shows_frees h f : shows h f -> frees f sb = seqZ (h_freeblock h) (1000 - h_freeblock h).
Proof.
  intros Hs. pose proof (sh_fb _ _ Hs) as Hfb. pose proof (fun b => shows_used h f b Hs) as Hu. unfold frees. change (sb_size sb) with 1000.
  assert (seqZ 0 1000 = seqZ 0 (h_freeblock h) ++ seqZ (h_freeblock h) (1000 - h_freeblock h)) as ->.
  { replace 1000 with (h_freeblock h + (1000 - h_freeblock h)) at 1 by lia. rewrite seqZ_app by lia. reflexivity. }
  apply filter_split; intros b Hb%elem_of_seqZ; rewrite Hu by lia; [rewrite (proj2 (Z.ltb_lt b _)) by lia; discriminate | apply Z.ltb_ge; lia].
Qed.

(** ** Sectors and new blocks *)

Lemma rsect_eq h f n : shows h f -> 0 <= n < 1000 -> n <> 58 -> rsect n h = Ret (f n) h.
Proof. intros Hs Hn Hne. unfold rsect, bind, get. rewrite (sh_img _ _ Hs n Hn Hne). reflexivity. Qed.
Lemma wsect_eq h f n x : shows h f -> 0 <= n < h_freeblock h -> n <> 58 -> length x = 512%nat ->
  exists h', wsect n x h = Ret tt h' /\ shows h' (upd_content f n x) /\ h_freeblock h' = h_freeblock h /\ h_freeinode h' = h_freeinode h.
Proof.
  intros Hs Hn Hne Hx. pose proof Hs as [S1 S2 S3 S4 S5 S6]. unfold wsect, modify. eexists. split; [reflexivity|].
  set (h' := set_field _ h). assert (h_img h' = <[Z.to_nat n := x]> (h_img h)) as Ei.
  { change (h_img h') with (if (Z.to_nat n <? length (h_img h))%nat then <[Z.to_nat n := x]> (h_img h) else h_img h ++ replicate (Z.to_nat n - length (h_img h)) zeroes ++ [x]).
    rewrite (proj2 (Nat.ltb_lt _ _)) by lia. reflexivity. }
  assert (h_freeblock h' = h_freeblock h) as Eb by reflexivity. split; [|auto].
  unfold upd_content. split; rewrite ?Eb, ?Ei; try assumption.
  - rewrite length_insert. exact S1.
  - intros m Hm Hm58. destruct (Z.eqb_spec m n) as [->|Hmn].
    + apply list_lookup_insert_eq. lia.
    + rewrite list_lookup_insert_ne by lia. apply S2; assumption.
  - intros m Hm. destruct (Z.eqb_spec m n); [exact Hx | apply S3, Hm].
  - rewrite (proj2 (Z.eqb_neq 58 n)) by lia. exact S4.
  - intros m Hm. rewrite (proj2 (Z.eqb_neq m n)) by lia. apply S6, Hm.
Qed.
(** The next block, as the kernel's balloc() allocates it. *)
Lemma new_block_eq h f : shows h f -> h_freeblock h < 1000 ->
  exists h' f', new_block h = Ret (h_freeblock h) h' /\ shows h' f' /\ allocates disk_frame sb f (h_freeblock h) f' /\
    h_freeblock h' = h_freeblock h + 1 /\ h_freeinode h' = h_freeinode h.
Proof.
  intros Hs Hlt. pose proof Hs as [S1 S2 S3 S4 S5 S6]. set (b := h_freeblock h) in *.
  set (f' := upd_content f 58 (mark (Z.to_nat (b + 1)) zeroes)).
  exists (h <| h_freeblock := b + 1 |>), f'.
  assert (forall n, n <> 58 -> f' n = f n) as Hf' by (intros n Hn; unfold f', upd_content; rewrite (proj2 (Z.eqb_neq n 58)) by exact Hn; reflexivity).
  assert (shows (h <| h_freeblock := b + 1 |>) f') as Hs'.
  { split; try assumption.
    - intros n Hn Hn58. rewrite Hf' by exact Hn58. apply S2; assumption.
    - intros n Hn. unfold f', upd_content. destruct (n =? 58); [apply length_mark | apply S3, Hn].
    - unfold f', upd_content. reflexivity.
    - cbn. lia.
    - cbn. intros n Hn. rewrite Hf' by lia. apply S6. lia. }
  split; [|split; [exact Hs'|split; [|auto]]].
  - unfold new_block, bind, get, modify, ret. fold b. unfold u32. rewrite Z.mod_small by lia. rewrite xint_id by lia. reflexivity.
  - assert (forall c, 0 <= c < 1000 -> used f' sb c = (c =? b) || used f sb c) as Hu.
    { intros c Hc. rewrite (shows_used _ _ c Hs' Hc), (shows_used _ _ c Hs Hc). cbn. fold b. apply eq_iff_eq_true. rewrite orb_true_iff, Z.eqb_eq, !Z.ltb_lt. lia. }
    split.
    + apply (shows_alloc _ _ Hs').
    + rewrite (shows_frees _ _ Hs'), (shows_frees _ _ Hs). cbn. fold b. rewrite (seqZ_cons b) by lia. f_equal. f_equal; lia.
    + exact Hu.
    + split; change (sb_size sb) with 1000; try lia; [rewrite Hu, Z.eqb_refl by lia; reflexivity | cbn; lia | rewrite map_block_58; lia].
    + rewrite Hf' by lia. apply S6. lia.
    + intros n Hn Hm. apply Hf'. rewrite map_block_58 in Hm. exact Hm.
Qed.

(** ** The block behind the last one *)

Lemma data_range f b : data_block disk_frame sb f b -> 0 < b < 1000 /\ b <> 58.
Proof. intros [D1 D2 _ _ D5]. change (sb_size sb) with 1000 in D2. rewrite map_block_58 in D5. lia. Qed.
Lemma data_used h f b : shows h f -> data_block disk_frame sb f b -> b < h_freeblock h.
Proof. intros Hs [_ D2 D3 _ _]. rewrite (shows_used _ _ _ Hs) in D3 by exact D2. apply Z.ltb_lt, D3. Qed.
Lemma din_addr_of i n : din_addr (dinode_of i) n = nth (Z.to_nat n) (i_addrs i) 0.
Proof. reflexivity. Qed.

Lemma addr_old h f i n : shows h f -> data_block disk_frame sb f (nth (Z.to_nat n) (i_addrs i) 0) ->
  addr_for (dinode_of i) n h = Ret (dinode_of i) h.
Proof.
  intros Hs Hd. apply data_range in Hd. unfold addr_for. rewrite din_addr_of, xint_id by lia. rewrite (proj2 (Z.eqb_neq _ 0)) by lia. reflexivity.
Qed.
Lemma addr_new h f i n : shows h f -> h_freeblock h < 1000 -> nth (Z.to_nat n) (i_addrs i) 0 = 0 ->
  exists h1 f1, addr_for (dinode_of i) n h = Ret (dinode_of (with_addr i (Z.to_nat n) (h_freeblock h))) h1 /\ shows h1 f1 /\
    allocates disk_frame sb f (h_freeblock h) f1 /\ h_freeblock h1 = h_freeblock h + 1 /\ h_freeinode h1 = h_freeinode h.
Proof.
  intros Hs Hlt E. destruct (new_block_eq h f Hs Hlt) as (h1 & f1 & E1 & Hs1 & Ha & Hb & Hi). exists h1, f1. split; [|auto].
  unfold addr_for. rewrite din_addr_of, E. change (xint 0 =? 0) with true. cbv iota. step by exact E1. reflexivity.
Qed.
Lemma entry_old h f i nb bn : shows h f -> inode_blocks disk_frame sb f i nb true -> NDIRECT <= bn < nb ->
  entry_for (dinode_of i) bn h = Ret (block_of f i bn) h.
Proof.
  intros Hs Hb Hn. pose proof (data_range _ _ (ob_good _ _ _ _ _ _ Hb _ (indirect_own f i nb))) as Hr. unfold indirect in Hr.
  pose proof (data_range _ _ (ob_good _ _ _ _ _ _ Hb _ (own_block f i nb true bn ltac:(unfold NDIRECT in *; lia)))) as Hr2. unfold block_of in Hr2 |- *.
  rewrite (proj2 (Z.ltb_ge bn NDIRECT)) in * by lia.
  unfold entry_for. rewrite din_addr_of. change (Z.to_nat NDIRECT) with 12%nat. rewrite xint_id by lia.
  step by (apply (rsect_eq _ f); [exact Hs | lia | lia]). rewrite (proj2 (Z.eqb_neq _ 0)) by lia. step by reflexivity. rewrite xint_id by lia. reflexivity.
Qed.
Lemma entry_new h f i nb : shows h f -> h_freeblock h < 1000 -> inode_blocks disk_frame sb f i nb true -> NDIRECT <= nb < MAXFILE ->
  exists h1 f1, entry_for (dinode_of i) nb h = Ret (h_freeblock h) h1 /\ shows h1 f1 /\ h_freeblock h1 = h_freeblock h + 1 /\
    h_freeinode h1 = h_freeinode h /\ grown disk_frame sb f i nb true f1 i (nb + 1) true [h_freeblock h] (frees f1 sb) /\ keeps f i nb f1 /\
    block_of f1 i nb = h_freeblock h /\ f1 (h_freeblock h) = replicate 512 0.
Proof.
  intros Hs Hlt Hb Hn. set (b := h_freeblock h) in *. pose proof (ob_good _ _ _ _ _ _ Hb _ (indirect_own f i nb)) as Hind.
  pose proof (data_range _ _ Hind) as Hr. pose proof (data_used _ _ _ Hs Hind) as Hu.
  destruct (new_block_eq h f Hs Hlt) as (h1 & fa & E1 & Hs1 & Hal & Hfb & Hfi). fold b in E1, Hal, Hfb.
  assert (fa (indirect i) = f (indirect i)) as Efa by (apply (as_same _ _ _ _ _ Hal); [unfold b; lia | rewrite map_block_58; lia]).
  assert (length (fa (indirect i)) = 512%nat) as Hlen by (rewrite Efa; apply (sh_blk _ _ Hs); lia).
  set (x := put_u32 (4 * Z.to_nat (nb - NDIRECT)) b (f (indirect i))).
  destruct (wsect_eq h1 fa (indirect i) x Hs1) as (h2 & E2 & Hs2 & Hfb2 & Hfi2); [lia | lia | unfold x, put_u32; rewrite length_store, <- Efa; exact Hlen|].
  assert (upd_content fa (indirect i) x = put_entry fa i nb b) as Ep by (unfold put_entry, x; rewrite Efa; reflexivity). rewrite Ep in Hs2.
  destruct (entry_grown disk_frame sb f i nb b fa (shows_alloc _ _ Hs) Hal Hb Hn Hlen) as (Hg & Hk & Hbl & Hz).
  assert (get_u32 (4 * Z.to_nat (nb - NDIRECT)) (f (indirect i)) = 0) as E0.
  { rewrite <- (ob_entries _ _ _ _ _ _ Hb eq_refl nb) by lia. unfold block_of. rewrite (proj2 (Z.ltb_ge nb NDIRECT)) by lia. reflexivity. }
  assert (get_u32 (4 * Z.to_nat (nb - NDIRECT)) x = b) as Eb.
  { unfold x. rewrite get_put_u32 by (rewrite <- Efa, Hlen; unfold NDIRECT, MAXFILE in *; lia). unfold u32. apply Z.mod_small. unfold b. lia. }
  exists h2, (put_entry fa i nb b). split; [|split; [exact Hs2|]].
  - unfold entry_for. rewrite din_addr_of. change (nth (Z.to_nat NDIRECT) (i_addrs i) 0) with (indirect i). rewrite xint_id by lia.
    step by (apply (rsect_eq _ f); [exact Hs | lia | lia]). rewrite E0. change (0 =? 0) with true. cbv iota.
    step by (step by exact E1; fold x; step by exact E2; reflexivity). rewrite Eb, xint_id by (unfold b; lia). reflexivity.
  - split; [lia|]. split; [congruence|]. split; [|auto].
    assert (frees (put_entry fa i nb b) sb = frees fa sb) as ->; [|exact Hg]. rewrite (shows_frees _ _ Hs2), (shows_frees _ _ Hs1), Hfb2. reflexivity.
Qed.

(** The block of an offset inside or at the end of a file, as bmap() of the
    kernel finds it or makes it. *)
Lemma block_old h f i nb bn : shows h f -> inode_blocks disk_frame sb f i nb (NDIRECT <? nb) -> 0 <= bn < nb ->
  block_for (dinode_of i) bn h = Ret (block_of f i bn, dinode_of i) h.
Proof.
  intros Hs Hb Hn. pose proof (ob_good _ _ _ _ _ _ Hb _ (own_block f i nb _ bn Hn)) as Hd. unfold block_for.
  destruct (Z.ltb_spec bn NDIRECT) as [Hlt|Hge].
  - unfold block_of in Hd |- *. rewrite (proj2 (Z.ltb_lt bn NDIRECT)) in Hd |- * by lia. step by (apply (addr_old _ f); assumption).
    rewrite din_addr_of. pose proof (data_range _ _ Hd). rewrite xint_id by lia. reflexivity.
  - rewrite (proj2 (Z.ltb_lt NDIRECT nb)) in Hb by lia.
    step by (apply (addr_old _ f); [exact Hs | apply (ob_good _ _ _ _ _ _ Hb _ (indirect_own f i nb))]). step by (apply (entry_old h f i nb); [exact Hs | exact Hb | lia]). reflexivity.
Qed.
Lemma seqZ_1 n : seqZ n 1 = [n].
Proof. rewrite seqZ_cons by lia. reflexivity. Qed.
Lemma block_new h f i nb : shows h f -> inode_blocks disk_frame sb f i nb (NDIRECT <? nb) -> 0 <= nb < MAXFILE ->
  h_freeblock h + needed nb (nb + 1) <= 1000 ->
  exists h1 f1 i1, block_for (dinode_of i) nb h = Ret (block_of f1 i1 nb, dinode_of i1) h1 /\ shows h1 f1 /\
    h_freeblock h1 = h_freeblock h + needed nb (nb + 1) /\ h_freeinode h1 = h_freeinode h /\
    grown disk_frame sb f i nb (NDIRECT <? nb) f1 i1 (nb + 1) (NDIRECT <? nb + 1) (seqZ (h_freeblock h) (needed nb (nb + 1))) (frees f1 sb) /\
    keeps f i nb f1 /\ f1 (block_of f1 i1 nb) = replicate 512 0.
Proof.
  intros Hs Hb Hn Hroom. unfold needed in *. unfold block_for. pose proof (shows_alloc _ _ Hs) as Ha. pose proof (ob_addrs _ _ _ _ _ _ Hb) as Haddrs.
  destruct (Z.ltb_spec nb NDIRECT) as [Hd|Hd].
  - rewrite (proj2 (Z.ltb_ge NDIRECT nb)), (proj2 (Z.ltb_ge NDIRECT (nb + 1))) in * by lia. rewrite andb_false_r in *. replace (nb + 1 - nb + 0) with 1 in * by lia.
    destruct (addr_new h f i nb Hs ltac:(lia) (ob_direct _ _ _ _ _ _ Hb nb ltac:(lia))) as (h1 & f1 & E1 & Hs1 & Hal & Hfb & Hfi).
    pose proof (as_frees _ _ _ _ _ Hal) as Hfl. destruct (direct_grown disk_frame sb f i nb _ _ f1 Ha Hfl Hal Hb ltac:(lia)) as (Hg & Hk & Hnew).
    exists h1, f1, (with_addr i (Z.to_nat nb) (h_freeblock h)). rewrite Hnew, seqZ_1. pose proof (sh_fb _ _ Hs). split_and!; try assumption; [|apply (as_zero _ _ _ _ _ Hal)].
    step by exact E1. rewrite din_addr_of. unfold with_addr. cbn [i_addrs]. change (i_addrs (set_field _ i)) with (<[Z.to_nat nb := h_freeblock h]> (i_addrs i)).
    rewrite (nth_lookup_Some _ _ 0 (h_freeblock h)) by (apply list_lookup_insert_eq; unfold NDIRECT in *; lia). rewrite xint_id by lia. reflexivity.
  - rewrite (proj2 (Z.ltb_lt NDIRECT (nb + 1))) in * by lia. rewrite andb_true_r in *. destruct (Z.leb_spec nb NDIRECT) as [He|He].
    + assert (nb = NDIRECT) as -> by lia. rewrite Z.ltb_irrefl in *. replace (NDIRECT + 1 - NDIRECT + 1) with 2 in * by lia.
      destruct (addr_new h f i NDIRECT Hs ltac:(lia)) as (h1 & f1 & E1 & Hs1 & Hal & Hfb & Hfi); [apply (ob_noind _ _ _ _ _ _ Hb eq_refl)|].
      change (Z.to_nat NDIRECT) with 12%nat in E1. set (i1 := with_addr i 12 (h_freeblock h)) in *.
      pose proof (as_frees _ _ _ _ _ Hal) as Hfl. destruct (indirect_grown disk_frame sb f i _ _ f1 Ha Hfl Hal Hb) as (Hg & Hk & Hnew). fold i1 in Hg, Hnew.
      destruct (entry_new h1 f1 i1 NDIRECT Hs1 ltac:(lia) (gr_blocks _ _ _ _ _ _ _ _ _ _ _ _ Hg) ltac:(unfold NDIRECT, MAXFILE; lia))
        as (h2 & f2 & E2 & Hs2 & Hfb2 & Hfi2 & Hg2 & Hk2 & Hb2 & Hz2).
      exists h2, f2, i1. rewrite Hb2. split_and!; try assumption; try lia; try congruence.
      * step by exact E1. step by exact E2. reflexivity.
      * rewrite (seqZ_cons (h_freeblock h)) by lia. change (Z.pred 2) with 1. rewrite seqZ_1. replace (Z.succ (h_freeblock h)) with (h_freeblock h1) by lia.
        apply (grown_trans _ _ _ _ _ _ _ _ _ _ [h_freeblock h] _ _ _ _ _ [h_freeblock h1] _ ltac:(reflexivity) Hg Hg2).
      * intros k Hk3. rewrite <- (Hk k Hk3), <- (gr_old _ _ _ _ _ _ _ _ _ _ _ _ Hg k Hk3). apply Hk2, Hk3.
    + rewrite (proj2 (Z.ltb_lt NDIRECT nb)) in * by lia. replace (nb + 1 - nb + 0) with 1 in * by lia.
      destruct (entry_new h f i nb Hs ltac:(lia) Hb ltac:(lia)) as (h2 & f2 & E2 & Hs2 & Hfb2 & Hfi2 & Hg2 & Hk2 & Hb2 & Hz2).
      exists h2, f2, i. rewrite Hb2, seqZ_1. split_and!; try assumption.
      step by (apply (addr_old _ f); [exact Hs | apply (ob_good _ _ _ _ _ _ Hb _ (indirect_own f i nb))]). step by exact E2. reflexivity.
Qed.
Lemma needed_self nb : needed nb nb = 0.
Proof. unfold needed. destruct (Z.leb_spec nb NDIRECT), (Z.ltb_spec NDIRECT nb); cbn [andb]; lia. Qed.
Lemma block_for_eq h f i nb bn : shows h f -> inode_blocks disk_frame sb f i nb (NDIRECT <? nb) -> 0 <= bn <= nb -> bn < MAXFILE ->
  let nb1 := Z.max nb (bn + 1) in h_freeblock h + needed nb nb1 <= 1000 ->
  exists h1 f1 i1, block_for (dinode_of i) bn h = Ret (block_of f1 i1 bn, dinode_of i1) h1 /\ shows h1 f1 /\
    h_freeblock h1 = h_freeblock h + needed nb nb1 /\ h_freeinode h1 = h_freeinode h /\
    grown disk_frame sb f i nb (NDIRECT <? nb) f1 i1 nb1 (NDIRECT <? nb1) (seqZ (h_freeblock h) (needed nb nb1)) (frees f1 sb) /\
    forall k, 0 <= k -> content f1 i1 nb1 k = content f i nb k.
Proof.
  intros Hs Hb Hbn Hmax nb1 Hroom. destruct (decide (bn < nb)) as [Hlt|Hge].
  - assert (nb1 = nb) as E by lia. rewrite E, needed_self in *. exists h, f, i. split_and!; try assumption; try reflexivity; try lia.
    + apply block_old with nb; [exact Hs | exact Hb | lia].
    + rewrite seqZ_nil by lia. apply grown_refl; [exact Hb | apply (shows_alloc _ _ Hs)].
  - assert (bn = nb /\ nb1 = nb + 1) as [-> E] by lia. rewrite E in *.
    destruct (block_new h f i nb Hs Hb ltac:(lia) Hroom) as (h1 & f1 & i1 & E1 & Hs1 & Hfb & Hfi & Hg & Hk & Hz).
    exists h1, f1, i1. split_and!; try assumption. intros k Hk0. unfold content.
    destruct (Z.ltb_spec k nb) as [H1'|H1']; [|destruct (Z.ltb_spec k (nb + 1)) as [H2'|H2']; [|reflexivity]].
    + rewrite (proj2 (Z.ltb_lt k (nb + 1))) by lia. rewrite (gr_old _ _ _ _ _ _ _ _ _ _ _ _ Hg) by lia. apply Hk. lia.
    + assert (k = nb) as -> by lia. exact Hz.
Qed.

(** ** iappend() *)

Lemma append_loop fuel : forall h f i nb off p, shows h f -> inode_blocks disk_frame sb f i nb (NDIRECT <? nb) -> (length p <= fuel)%nat ->
  0 <= off <= BSIZE * nb -> off + Z.of_nat (length p) <= MAXFILE * BSIZE ->
  let k := needed nb (blocks_for nb (off + Z.of_nat (length p))) in h_freeblock h + k <= 1000 ->
  exists h' f' i', iappend_loop fuel (dinode_of i) off p h = Ret (dinode_of i', off + Z.of_nat (length p)) h' /\ shows h' f' /\
    h_freeblock h' = h_freeblock h + k /\ h_freeinode h' = h_freeinode h /\
    wrote disk_frame sb f i nb f' i' off p (seqZ (h_freeblock h) k) (frees f' sb).
Proof.
  assert (forall h f i nb off, shows h f -> inode_blocks disk_frame sb f i nb (NDIRECT <? nb) -> 0 <= off <= BSIZE * nb ->
    blocks_for nb (off + 0) = nb /\ wrote disk_frame sb f i nb f i off [] [] (frees f sb)) as Hnil.
  { intros h f i nb off Hs Hb Hoff. split; [unfold blocks_for, BSIZE in *; clear -Hoff; dlia|].
    apply wrote_nil; [exact Hb | apply (shows_alloc _ _ Hs) | exact Hoff | reflexivity]. }
  induction fuel as [|fuel IH]; intros h f i nb off p Hs Hb Hfuel Hoff Hend k Hroom; unfold k in *; clear k.
  { destruct p; [|cbn in Hfuel; lia]. destruct (Hnil h f i nb off Hs Hb Hoff) as [E Hw]. cbn [length] in *. change (Z.of_nat 0) with 0 in *.
    rewrite E, needed_self in *. exists h, f, i. rewrite seqZ_nil by lia. split_and!; auto; try lia. cbn. rewrite Z.add_0_r. reflexivity. }
  destruct (decide (p = [])) as [->|Hp].
  { destruct (Hnil h f i nb off Hs Hb Hoff) as [E Hw]. cbn [length] in *. change (Z.of_nat 0) with 0 in *.
    rewrite E, needed_self in *. exists h, f, i. rewrite seqZ_nil by lia. split_and!; auto; try lia. cbn. rewrite Z.add_0_r. reflexivity. }
  assert (0 < Z.of_nat (length p)) as Hpos by (destruct p; [contradiction | cbn; lia]).
  pose proof (Z.mod_pos_bound off BSIZE ltac:(reflexivity)) as Hmod.
  set (bn := off / BSIZE). set (m := Z.min (Z.of_nat (length p)) ((bn + 1) * BSIZE - off)). set (nb1 := Z.max nb (bn + 1)).
  assert (off - bn * BSIZE = off mod BSIZE) as Emod by (unfold bn, BSIZE; clear; dlia).
  assert (0 <= bn <= nb /\ bn < MAXFILE) as (Hbn & Hbmax).
  { unfold bn, MAXFILE, BSIZE in *. clear -Hoff Hend Hpos. split; dlia. }
  assert (0 < m <= Z.of_nat (length p) /\ off mod BSIZE + m <= BSIZE) as [Hm Hfit] by lia.
  set (N := off + Z.of_nat (length p)) in *.
  assert (nb <= nb1 <= blocks_for nb N /\ blocks_for nb1 N = blocks_for nb N) as [Hn1 Hn2].
  { unfold nb1, bn, N, blocks_for, BSIZE. clear -Hpos Hoff. split; [split|]; dlia. }
  assert (off + m <= BSIZE * nb1 /\ 0 <= off + m) as [Hoff1 Hoff2].
  { unfold nb1, bn, BSIZE in *. clear -Hfit Hoff Hm. split; dlia. }
  rewrite (needed_add nb nb1) in * by exact Hn1. pose proof (needed_nonneg nb nb1 (proj1 Hn1)) as Hp1. pose proof (needed_nonneg nb1 _ (proj2 Hn1)) as Hp2.
  destruct (block_for_eq h f i nb bn Hs Hb Hbn Hbmax ltac:(fold nb1; lia)) as (h1 & f1 & i1 & E1 & Hs1 & Hfb1 & Hfi1 & Hg1 & Hc1). fold nb1 in Hfb1, Hg1, Hc1.
  pose proof (gr_blocks _ _ _ _ _ _ _ _ _ _ _ _ Hg1) as Hib1. assert (bn < nb1) as Hbn1 by lia.
  pose proof (ob_good _ _ _ _ _ _ Hib1 _ (own_block f1 i1 nb1 _ bn (conj (proj1 Hbn) Hbn1))) as Hd1.
  pose proof (data_range _ _ Hd1) as Hr1. pose proof (data_used _ _ _ Hs1 Hd1) as Hu1.
  assert (length (f1 (block_of f1 i1 bn)) = 512%nat) as Hblk by (apply (sh_blk _ _ Hs1); lia).
  destruct (wsect_eq h1 f1 (block_of f1 i1 bn) (store (Z.to_nat (off mod BSIZE)) (take (Z.to_nat m) p) (f1 (block_of f1 i1 bn))) Hs1)
    as (h2 & E2 & Hs2 & Hfb2 & Hfi2); [lia | lia | rewrite length_store; exact Hblk|].
  pose proof (rewritten_grown disk_frame sb f1 i1 nb1 _ bn (store (Z.to_nat (off mod BSIZE)) (take (Z.to_nat m) p) (f1 (block_of f1 i1 bn)))
    (shows_alloc _ _ Hs1) Hib1 (conj (proj1 Hbn) Hbn1)) as Hg2. set (f2 := upd_content f1 _ _) in *.
  assert (off + m + Z.of_nat (length (drop (Z.to_nat m) p)) = N) as Eend by (rewrite length_drop; unfold N; lia).
  destruct (IH h2 f2 i1 nb1 (off + m) (drop (Z.to_nat m) p) Hs2 (gr_blocks _ _ _ _ _ _ _ _ _ _ _ _ Hg2)) as (h3 & f3 & i3 & E3 & Hs3 & Hfb3 & Hfi3 & Hw3);
    rewrite ?Eend, ?Hn2; try lia.
  rewrite Eend, Hn2 in *. exists h3, f3, i3. split_and!; try assumption; try lia; try congruence.
  - destruct p as [|c p']; [contradiction|]. cbn [iappend_loop]. fold bn.
    step by (unfold assert_; rewrite (proj2 (Z.ltb_lt bn MAXFILE)) by exact Hbmax; reflexivity). step by exact E1. fold m.
    step by (apply (rsect_eq _ f1); [exact Hs1 | lia | lia]). rewrite Emod. step by exact E2. unfold u32. rewrite Z.mod_small by (unfold MAXFILE, BSIZE in *; lia). exact E3.
  - assert (seqZ (h_freeblock h) (needed nb nb1 + needed nb1 (blocks_for nb N)) = seqZ (h_freeblock h) (needed nb nb1) ++ seqZ (h_freeblock h2) (needed nb1 (blocks_for nb N))) as ->.
    { rewrite seqZ_app by lia. do 2 f_equal. lia. }
    assert (frees f1 sb = seqZ (h_freeblock h2) (needed nb1 (blocks_for nb N)) ++ frees f3 sb) as Efr.
    { rewrite (shows_frees _ _ Hs1), (shows_frees _ _ Hs3). pose proof (sh_fb _ _ Hs3).
      replace (1000 - h_freeblock h1) with (needed nb1 (blocks_for nb N) + (1000 - h_freeblock h3)) by lia. rewrite seqZ_app by lia. f_equal; f_equal; lia. }
    eapply wrote_step with (m := m); try eassumption; try reflexivity.
    + rewrite <- Efr. exact Hg1.
    + rewrite <- Efr. exact Hg2.
Qed.

(** A file with the content [c]; its last block ends in zeros. *)
Definition nblk (c : list Z) : Z := (Z.of_nat (length c) + BSIZE - 1) / BSIZE.
Definition owned f (i : inode) (c : list Z) : list Z := own f i (nblk c) (NDIRECT <? nblk c).
Record mkfile f (i : inode) (c : list Z) : Prop := {
  mf_at : file_at disk_frame sb f i (nblk c);
  mf_size : i_size i = Z.of_nat (length c);
  mf_bytes : forall k, 0 <= k -> byte_at f i (nblk c) k = nth (Z.to_nat k) c 0;
  mf_home : 32 <= home_of sb i < 58;
  mf_own : forall b, b ∈ owned f i c -> 59 <= b }.
Lemma nblk_app c p : blocks_for (nblk c) (Z.of_nat (length c) + Z.of_nat (length p)) = nblk (c ++ p).
Proof.
  unfold blocks_for, nblk. rewrite length_app, Nat2Z.inj_add. apply Z.max_r. apply Z.div_le_mono; unfold BSIZE; lia.
Qed.
Lemma nblk_le c p : nblk c <= nblk (c ++ p).
Proof. rewrite <- nblk_app. unfold blocks_for. lia. Qed.

Lemma rinode_eq h f i c : shows h f -> mkfile f i c -> rinode (i_inum i) h = Ret (dinode_of i) h.
Proof.
  intros Hs Hf. pose proof (mf_home _ _ _ Hf). unfold rinode. fold (home_of sb i) (slot_of i).
  step by (apply (rsect_eq _ f); [exact Hs | lia | lia]). rewrite (fa_disk _ _ _ _ _ (mf_at _ _ _ Hf)). reflexivity.
Qed.
Lemma winode_eq h f i d : shows h f -> 32 <= home_of sb i < 58 -> dinode_ok d ->
  exists h', winode (i_inum i) d h = Ret tt h' /\ shows h' (upd_content f (home_of sb i) (put_dinode (slot_of i) d (f (home_of sb i)))) /\
    h_freeblock h' = h_freeblock h /\ h_freeinode h' = h_freeinode h.
Proof.
  intros Hs Hh Hd. pose proof (sh_fb _ _ Hs).
  destruct (get_put_dinode (f (home_of sb i)) (slot_of i) (slot_of i) d (sh_blk _ _ Hs (home_of sb i) ltac:(lia)) (slot_lt i) (slot_lt i) Hd) as [Hl _].
  destruct (wsect_eq h f (home_of sb i) (put_dinode (slot_of i) d (f (home_of sb i))) Hs) as (h' & E & Hs'); [lia | lia | exact Hl|].
  exists h'. split; [|exact Hs']. unfold winode. fold (home_of sb i) (slot_of i). step by (apply (rsect_eq _ f); [exact Hs | lia | lia]). exact E.
Qed.
(** A write to the block of an inode leaves the bytes of its file. *)
Lemma byte_outside f i nb b x k : alloc_ok disk_frame f sb -> inode_blocks disk_frame sb f i nb (NDIRECT <? nb) -> b ∉ own f i nb (NDIRECT <? nb) -> b <> 58 ->
  0 <= k -> byte_at (upd_content f b x) i nb k = byte_at f i nb k.
Proof.
  intros Ha Hb Ho Hne Hk. destruct (outside_grown disk_frame sb f i nb _ b x Ha Hb Ho ltac:(rewrite map_block_58; exact Hne)) as (_ & _ & _ & _ & _ & E).
  unfold byte_at, content. destruct (Z.ltb_spec (k / BSIZE) nb) as [Hlt|]; [|reflexivity]. rewrite E; [reflexivity|]. split; [apply Z.div_pos; [exact Hk | reflexivity] | exact Hlt].
Qed.

Lemma iappend_eq h f i c p : shows h f -> mkfile f i c -> p <> [] -> Z.of_nat (length c) + Z.of_nat (length p) <= MAXFILE * BSIZE ->
  let k := needed (nblk c) (nblk (c ++ p)) in h_freeblock h + k <= 1000 ->
  exists h' f' i', iappend (i_inum i) p h = Ret tt h' /\ shows h' f' /\ h_freeblock h' = h_freeblock h + k /\ h_freeinode h' = h_freeinode h /\
    mkfile f' i' (c ++ p) /\ appended disk_frame sb f i (nblk c) f' i' (Z.of_nat (length c)) p (seqZ (h_freeblock h) k) (frees f' sb).
Proof.
  intros Hs Hf Hp Hmax k Hroom. pose proof Hf as [Fa Fs Fb Fh Fo]. pose proof (fa_size _ _ _ _ _ Fa) as Hsz. rewrite Fs in Hsz.
  set (off := Z.of_nat (length c)) in *. pose proof (nblk_app c p) as En. fold off in En.
  destruct (append_loop (length p) h f i (nblk c) off p Hs (fa_blocks _ _ _ _ _ Fa) ltac:(lia) Hsz Hmax) as (h1 & f1 & i1 & E1 & Hs1 & Hfb1 & Hfi1 & Hw);
    [rewrite En; exact Hroom|]. rewrite En in Hfb1, Hw. fold k in Hfb1, Hw.
  pose proof (sh_fb _ _ Hs1) as Hr1. pose proof (sh_blk _ _ Hs1 (home_of sb i) ltac:(lia)) as Hl1.
  assert (0 < Z.of_nat (length p)) as Hpos by (destruct p; [contradiction | cbn; lia]).
  assert (frees f sb = seqZ (h_freeblock h) k ++ frees f1 sb) as Hfr.
  { rewrite (shows_frees _ _ Hs), (shows_frees _ _ Hs1), <- Hfb1 || rewrite (shows_frees _ _ Hs), (shows_frees _ _ Hs1).
    replace (1000 - h_freeblock h) with (k + (1000 - h_freeblock h1)) by lia.
    rewrite seqZ_app; [f_equal; f_equal; lia | pose proof (needed_nonneg _ _ (nblk_le c p)); lia | lia]. }
  set (N := off + Z.of_nat (length p)) in *. set (i2 := i1 <| i_size := N |>).
  destruct (appended_behind disk_frame sb f i (nblk c) f1 i1 off p _ _ _ Fa Hfr ltac:(lia) ltac:(lia) Hmax Hw eq_refl Hl1) as (Hd & Hdh & Hno & Hib & Hap).
  fold N i2 in Hd, Hno, Hib, Hap. rewrite En in Hno, Hib.
  destruct (winode_eq h1 f1 i (dinode_of i2) Hs1 Fh Hd) as (h2 & E2 & Hs2 & Hfb2 & Hfi2). set (f2 := upd_content f1 _ _) in *.
  exists h2, f2, i2. assert (frees f2 sb = frees f1 sb) as Efr by (rewrite (shows_frees _ _ Hs2), (shows_frees _ _ Hs1), Hfb2; reflexivity).
  destruct (ap_inode _ _ _ _ _ _ _ _ _ _ _ Hap) as [a Ea]. assert (i_size i2 = N) as EN by reflexivity.
  split_and!; try assumption; try lia; try congruence.
  - unfold iappend. step by (apply (rinode_eq h f i c); assumption). cbn [di_size dinode_of]. rewrite Fs. fold off.
    rewrite xint_id by (unfold MAXFILE, BSIZE in *; lia). step by exact E1. fold N. rewrite xint_id by (unfold N, MAXFILE, BSIZE in *; lia). exact E2.
  - pose proof (ap_file _ _ _ _ _ _ _ _ _ _ _ Hap) as Hf2. fold N in Hf2. rewrite En in Hf2. split.
    + exact Hf2.
    + rewrite EN. unfold N, off. rewrite length_app. lia.
    + intros q Hq. change f2 with (upd_content f1 (home_of sb i) (put_dinode (slot_of i) (dinode_of i2) (f1 (home_of sb i)))).
      rewrite byte_outside; [|apply (shows_alloc _ _ Hs1) | exact Hib | exact Hno | lia | exact Hq].
      change (byte_at f1 i2 (nblk (c ++ p)) q) with (byte_at f1 i1 (nblk (c ++ p)) q). pose proof (wr_bytes _ _ _ _ _ _ _ _ _ _ _ Hw q Hq) as Hq2.
      fold N in Hq2. rewrite En in Hq2. rewrite Hq2, Fb by exact Hq.
      destruct (Z.leb_spec off q) as [H1|H1]; cbn [andb].
      * rewrite app_nth2 by lia. destruct (Z.ltb_spec q N); [f_equal; lia|]. rewrite !nth_overflow by lia. reflexivity.
      * rewrite app_nth1 by lia. reflexivity.
    + rewrite Ea. exact Fh.
    + intros b Hb. unfold owned in Hb. pose proof (ap_own _ _ _ _ _ _ _ _ _ _ _ Hap) as Ho. cbv zeta in Ho. fold N in Ho. rewrite En in Ho. rewrite Ho in Hb.
      apply elem_of_app in Hb as [Hb|Hb%elem_of_seqZ]; [apply Fo, Hb|]. pose proof (sh_fb _ _ Hs). lia.
Qed.

(** ** All files *)

(** A file that other writes do not touch. *)
Lemma mkfile_other f f' i c : mkfile f i c -> alloc_ok disk_frame f' sb -> (forall b, data_block disk_frame sb f b -> data_block disk_frame sb f' b) ->
  (forall b, b ∈ owned f i c -> f' b = f b) -> get_dinode (slot_of i) (f' (home_of sb i)) = get_dinode (slot_of i) (f (home_of sb i)) ->
  mkfile f' i c /\ owned f' i c = owned f i c.
Proof.
  intros [[B1 B2 B3 B4 B5 B6 B7] Fs Fb Fh Fo] Ha Hd Hown Hslot. unfold owned in *.
  destruct (blocks_ext disk_frame sb f f' i (nblk c) (NDIRECT <? nblk c) B1) as [B1' Eo]; [intros Ei; apply Hown; rewrite Ei; apply indirect_own | exact Hd|].
  split; [|exact Eo]. split; try assumption.
  - split; rewrite ?Eo; try assumption; [apply Hd, B5 | rewrite Hslot; exact B7].
  - intros k Hk. rewrite <- Fb by exact Hk. unfold byte_at, content. destruct (Z.ltb_spec (k / BSIZE) (nblk c)) as [Hlt|]; [|reflexivity].
    assert (0 <= k / BSIZE) as H0 by (apply Z.div_pos; [exact Hk | reflexivity]).
    assert (block_of f' i (k / BSIZE) = block_of f i (k / BSIZE)) as ->.
    { unfold block_of. destruct (Z.ltb_spec (k / BSIZE) NDIRECT); [reflexivity|]. fold (indirect i). rewrite (proj2 (Z.ltb_lt NDIRECT (nblk c))) in Hown by lia.
      rewrite Hown by apply indirect_own. reflexivity. }
    rewrite Hown; [reflexivity|]. apply own_block. lia.
  - unfold owned. rewrite Eo. exact Fo.
Qed.

(** Files with inodes 1, 2, ...: the first is the root directory; the inode
    of each as mkfs makes it and as the kernel has it in memory after ilock()
    and iunlock(). *)
Definition kind (j : nat) : Z := match j with O => T_DIR | _ => T_FILE end.
Definition new_inode (j : nat) : inode :=
  mk_inode ROOTDEV (1 + Z.of_nat j) 1 (mk_sleeplock 0 None 0) 1 (kind j) 0 0 1 0 (replicate 13 0).
Definition same_meta (i i' : inode) : Prop := exists a n, i' = (i <| i_addrs := a |>) <| i_size := n |>.
Lemma meta_trans i i' i2 : same_meta i i' -> same_meta i' i2 -> same_meta i i2.
Proof. intros (a & n & ->) (a2 & n2 & ->). exists a2, n2. reflexivity. Qed.

(** The blocks of files with these contents. *)
Definition blocks_used (c : list Z) : Z := needed 0 (nblk c).
Definition total (C : list (list Z)) : Z := foldr (fun c s => blocks_used c + s) 0 C.
Lemma total_app C C' : total (C ++ C') = total C + total C'.
Proof. induction C as [|c C IH]; [reflexivity|]. cbn [app total foldr] in *. unfold total in IH. rewrite IH. apply Z.add_assoc. Qed.
Lemma total_insert C : forall j c c', C !! j = Some c -> total (<[j := c']> C) = total C + blocks_used c' - blocks_used c.
Proof.
  induction C as [|x C IH]; intros [|j] c c' Hj; try discriminate; change (total (?a :: ?l)) with (blocks_used a + total l).
  - injection Hj as ->. change (<[0%nat := c']> (c :: C)) with (c' :: C). change (total (c' :: C)) with (blocks_used c' + total C). lia.
  - change (<[S j := c']> (x :: C)) with (x :: <[j := c']> C). change (total (x :: <[j := c']> C)) with (blocks_used x + total (<[j := c']> C)). rewrite (IH j c c' Hj). lia.
Qed.
Lemma nblk_nonneg c : 0 <= nblk c.
Proof. apply Z.div_pos; unfold BSIZE; lia. Qed.
Lemma blocks_used_app c p : blocks_used (c ++ p) = blocks_used c + needed (nblk c) (nblk (c ++ p)).
Proof. apply needed_add. split; [apply nblk_nonneg | apply nblk_le]. Qed.

(** The superblock and the empty log. *)
Definition low (b : Z) : block := if b =? 1 then store 0 (enc_superblock sb) zeroes else zeroes.

(** The image holds the files [fs]. *)
Record built (h : host) f (fs : list (inode * list Z)) : Prop := {
  bt_shows : shows h f;
  bt_next : h_freeinode h = 1 + Z.of_nat (length fs);
  bt_file : forall j i c, fs !! j = Some (i, c) -> same_meta (new_inode j) i /\ mkfile f i c;
  bt_apart : forall j j' i c i' c', fs !! j = Some (i, c) -> fs !! j' = Some (i', c') -> j <> j' -> forall b, b ∈ owned f i c -> b ∉ owned f i' c';
  bt_count : h_freeblock h = nmeta + total fs.*2;
  bt_low : forall b, 0 <= b < 32 -> f b = low b }.
Lemma meta_inum j i : same_meta (new_inode j) i -> i_inum i = 1 + Z.of_nat j.
Proof. intros (a & n & ->). reflexivity. Qed.
Lemma home_inum i n : i_inum i = n -> 0 <= n < 208 -> home_of sb i = 32 + n / 8 /\ slot_of i = Z.to_nat (n mod 8).
Proof.
  intros <- Hn. unfold home_of, IBLOCK, slot_of, IPB. change (sb_inodestart sb) with 32. split; [|reflexivity]. unfold u32. rewrite Z.mod_small by dlia. lia.
Qed.
Lemma slot_apart i i' : i_inum i <> i_inum i' -> 0 <= i_inum i < 208 -> 0 <= i_inum i' < 208 -> home_of sb i = home_of sb i' -> slot_of i <> slot_of i'.
Proof.
  intros Hne H1 H2 Eh. destruct (home_inum i _ eq_refl H1) as [E1 ->], (home_inum i' _ eq_refl H2) as [E2 ->]. dlia.
Qed.

Lemma data_low h f b : shows h f -> 32 <= b < 58 -> data_block disk_frame sb f b.
Proof.
  intros Hs Hb. pose proof (sh_fb _ _ Hs). split; change (sb_size sb) with 1000; try lia; [rewrite (shows_used _ _ _ Hs) by lia; apply Z.ltb_lt; lia | cbn; lia | rewrite map_block_58; lia].
Qed.
Lemma data_more h h' f f' b : shows h f -> shows h' f' -> h_freeblock h <= h_freeblock h' -> data_block disk_frame sb f b -> data_block disk_frame sb f' b.
Proof.
  intros Hs Hs' Hle Hd. pose proof (data_used _ _ _ Hs Hd) as Hu. destruct Hd as [D1 D2 D3 D4 D5]. split; try assumption. change (sb_size sb) with 1000 in D2.
  rewrite (shows_used _ _ _ Hs') by exact D2. apply Z.ltb_lt. lia.
Qed.

Lemma lookup_replaced {A} (l : list A) j x k y : <[j := x]> l !! k = Some y -> (k = j /\ y = x /\ (j < length l)%nat) \/ (k <> j /\ l !! k = Some y).
Proof. intros Hk. apply list_lookup_insert_Some in Hk as [(-> & -> & Hj)|[Hne Hk]]; [left; auto | right; auto]. Qed.

Lemma built_append h f fs j i c p : built h f fs -> fs !! j = Some (i, c) -> (length fs <= 207)%nat -> p <> [] -> Z.of_nat (length c) + Z.of_nat (length p) <= MAXFILE * BSIZE ->
  let k := needed (nblk c) (nblk (c ++ p)) in h_freeblock h + k <= 1000 ->
  exists h' f' i', iappend (1 + Z.of_nat j) p h = Ret tt h' /\ built h' f' (<[j := (i', c ++ p)]> fs).
Proof.
  intros [Hs Hnext Hfiles Hapart Hcount Hlow0] Hj Hlen Hp Hmax k Hroom. destruct (Hfiles j i c Hj) as [Hmeta Hf]. pose proof (meta_inum _ _ Hmeta) as Hinum.
  destruct (iappend_eq h f i c p Hs Hf Hp Hmax Hroom) as (h' & f' & i' & E & Hs' & Hfb & Hfi & Hf' & Hap). fold k in Hfb, Hap.
  pose proof (needed_nonneg _ _ (nblk_le c p)) as Hk. fold k in Hk. pose proof (sh_fb _ _ Hs) as Hfb0. destruct (ap_inode _ _ _ _ _ _ _ _ _ _ _ Hap) as [a Ea].
  pose proof (ap_own _ _ _ _ _ _ _ _ _ _ _ Hap) as Hown. cbv zeta in Hown. rewrite nblk_app in Hown. change (owned f' i' (c ++ p) ≡ₚ owned f i c ++ seqZ (h_freeblock h) k) in Hown.
  pose proof (mf_home _ _ _ Hf) as Hh.
  assert (forall b, b ∉ owned f i c -> b < h_freeblock h -> b <> 58 -> b <> home_of sb i -> f' b = f b) as Hsame.
  { intros b Hb Hlt H58 Hne. apply (ap_same _ _ _ _ _ _ _ _ _ _ _ Hap); [|rewrite map_block_58; exact H58 | exact Hne].
    intros [Hin|Hin%elem_of_seqZ]%elem_of_app; [exact (Hb Hin) | lia]. }
  assert (forall b, b < 59 -> b ∉ owned f i c) as Hlow by (intros b Hb Hin; apply (mf_own _ _ _ Hf) in Hin; lia).
  assert (forall j2 i2 c2, fs !! j2 = Some (i2, c2) -> j2 <> j -> mkfile f' i2 c2 /\ owned f' i2 c2 = owned f i2 c2) as Hothers.
  { intros j2 i2 c2 Hj2 Hne. destruct (Hfiles j2 i2 c2 Hj2) as [Hinum2%meta_inum Hf2]. pose proof (mf_home _ _ _ Hf2) as Hh2.
    apply lookup_lt_Some in Hj as Hlt1. apply lookup_lt_Some in Hj2 as Hlt2. apply (mkfile_other f); [exact Hf2 | apply (shows_alloc _ _ Hs') | | |].
    - intros b. apply (data_more h h'); [exact Hs | exact Hs' | lia].
    - intros b Hb. pose proof (mf_own _ _ _ Hf2 b Hb) as Hb59. apply Hsame; [eapply Hapart; eassumption | | lia | lia].
      apply (data_used _ f); [exact Hs | apply (ob_good _ _ _ _ _ _ (fa_blocks _ _ _ _ _ (mf_at _ _ _ Hf2)) _ Hb)].
    - destruct (decide (home_of sb i2 = home_of sb i)) as [Eh|Hneh].
      + rewrite Eh. apply (ap_slots _ _ _ _ _ _ _ _ _ _ _ Hap); [apply slot_lt|]. apply slot_apart; [lia | lia | lia | exact Eh].
      + rewrite Hsame by (try apply Hlow; lia). reflexivity. }
  exists h', f', i'. split; [rewrite <- Hinum; exact E|].
  - split; [exact Hs' | rewrite length_insert; congruence | | | |].
    + intros j2 i2 c2 [(-> & [= -> ->] & _)|[Hne Hj2]]%lookup_replaced; [split; [apply (meta_trans _ i); [exact Hmeta | eexists _, _; exact Ea] | exact Hf']|].
      split; [apply (Hfiles j2 i2 c2 Hj2) | apply (Hothers j2 i2 c2 Hj2 Hne)].
    + assert (forall j2 i2 c2 b, fs !! j2 = Some (i2, c2) -> j2 <> j -> b ∈ owned f i2 c2 -> b ∉ owned f' i' (c ++ p)) as Hnew.
      { intros j2 i2 c2 b Hj2 Hne Hb Hin. rewrite Hown in Hin. apply elem_of_app in Hin as [Hin|Hin%elem_of_seqZ]; [exact (Hapart j2 j i2 c2 i c Hj2 Hj Hne b Hb Hin)|].
        assert (b < h_freeblock h); [|lia]. apply (data_used _ f); [exact Hs | apply (ob_good _ _ _ _ _ _ (fa_blocks _ _ _ _ _ (mf_at _ _ _ (proj2 (Hfiles j2 i2 c2 Hj2)))) _ Hb)]. }
      intros j1 j2 i1 c1 i2 c2 [(-> & [= -> ->] & _)|[Hne1 Hj1]]%lookup_replaced [(-> & [= -> ->] & _)|[Hne2 Hj2]]%lookup_replaced Hne b.
      * contradiction.
      * rewrite (proj2 (Hothers j2 i2 c2 Hj2 Hne2)). intros Hb Hb2. exact (Hnew j2 i2 c2 b Hj2 Hne2 Hb2 Hb).
      * rewrite (proj2 (Hothers j1 i1 c1 Hj1 Hne1)). intros Hb. exact (Hnew j1 i1 c1 b Hj1 Hne1 Hb).
      * rewrite (proj2 (Hothers j1 i1 c1 Hj1 Hne1)), (proj2 (Hothers j2 i2 c2 Hj2 Hne2)). eapply Hapart; eassumption.
    + rewrite list_fmap_insert, (total_insert _ j c) by (rewrite list_lookup_fmap, Hj; reflexivity). cbn [snd]. rewrite Hfb, Hcount, blocks_used_app. unfold k. lia.
    + intros b Hb. rewrite <- Hlow0 by exact Hb. apply Hsame; [apply Hlow; lia | lia | lia | lia].
Qed.

Lemma nth_zero k : forall q, nth q (replicate k 0) 0 = 0.
Proof. induction k as [|k IH]; intros [|q]; try reflexivity. apply IH. Qed.
(** A write to the slot of another inode. *)
Lemma mkfile_slot h h' f i d i2 c2 : let f' := upd_content f (home_of sb i) (put_dinode (slot_of i) d (f (home_of sb i))) in
  shows h f -> shows h' f' -> h_freeblock h' = h_freeblock h -> dinode_ok d -> 0 <= i_inum i < 208 -> 0 <= i_inum i2 < 208 -> i_inum i2 <> i_inum i ->
  mkfile f i2 c2 -> mkfile f' i2 c2 /\ owned f' i2 c2 = owned f i2 c2.
Proof.
  intros f' Hs Hs' Hfb Hd H1 H2 Hne Hf. destruct (home_inum i _ eq_refl H1) as [Eh _]. pose proof (mf_home _ _ _ Hf) as Hh2.
  assert (32 <= home_of sb i < 58) as Hh by (rewrite Eh; dlia).
  assert (forall b, b <> home_of sb i -> f' b = f b) as Hsame by (intros b Hb; unfold f', upd_content; rewrite (proj2 (Z.eqb_neq _ _) Hb); reflexivity).
  apply (mkfile_other f); [exact Hf | apply (shows_alloc _ _ Hs') | | |].
  - intros b. apply (data_more h h'); [exact Hs | exact Hs' | lia].
  - intros b Hb%(mf_own _ _ _ Hf). apply Hsame. lia.
  - destruct (decide (home_of sb i2 = home_of sb i)) as [E|E]; [|rewrite Hsame by exact E; reflexivity].
    rewrite E. unfold f', upd_content. rewrite Z.eqb_refl.
    destruct (get_put_dinode (f (home_of sb i)) (slot_of i) (slot_of i2) d (sh_blk _ _ Hs (home_of sb i) ltac:(lia)) (slot_lt i) (slot_lt i2) Hd) as [_ ->].
    rewrite decide_False; [reflexivity|]. apply slot_apart; [exact Hne | exact H2 | exact H1 | exact E].
Qed.

(** A new file of no blocks. *)
Lemma own_nil f i : own f i 0 (NDIRECT <? 0) = [].
Proof. reflexivity. Qed.
Lemma new_blocks f j : alloc_ok disk_frame f sb -> inode_blocks disk_frame sb f (new_inode j) 0 (NDIRECT <? 0).
Proof.
  intros Ha. split; try reflexivity; try discriminate.
  - destruct j; discriminate.
  - unfold MAXFILE. lia.
  - apply NoDup_nil_2.
  - intros b Hb. rewrite own_nil in Hb. apply not_elem_of_nil in Hb. contradiction.
  - intros k Hk. apply nth_lookup_Some, lookup_replicate. unfold NDIRECT in Hk. split; [reflexivity | lia].
Qed.
Lemma new_dinode j : dinode_ok (dinode_of (new_inode j)).
Proof.
  unfold dinode_ok, dinode_of, new_inode, kind. cbn -[Z.pow replicate]. split_and!; try lia; try (destruct j; unfold T_DIR, T_FILE; lia); [apply length_replicate|].
  apply Forall_replicate. lia.
Qed.
Lemma built_ialloc h f fs : built h f fs -> (length fs < 199)%nat ->
  exists h' f', ialloc (kind (length fs)) h = Ret (1 + Z.of_nat (length fs)) h' /\ built h' f' (fs ++ [(new_inode (length fs), [])]).
Proof.
  intros [Hs Hnext Hfiles Hapart Hcount Hlow] Hlen. set (i := new_inode (length fs)). set (n := 1 + Z.of_nat (length fs)) in *.
  destruct (home_inum i n eq_refl ltac:(lia)) as [Eh Esl]. assert (32 <= home_of sb i < 58) as Hh by (rewrite Eh; dlia).
  set (h1 := h <| h_freeinode ::= fun n => u32 (n + 1) |>). assert (shows h1 f) as Hs1 by (destruct Hs; split; assumption).
  assert (h_freeinode h1 = n + 1) as Hn1 by (change (u32 (h_freeinode h + 1) = n + 1); rewrite Hnext; unfold u32; apply Z.mod_small; lia).
  destruct (winode_eq h1 f i (dinode_of i) Hs1 Hh (new_dinode _)) as (h' & E & Hs' & Hfb & Hfi). set (f' := upd_content f _ _) in *.
  assert (forall j2 i2 c2, fs !! j2 = Some (i2, c2) -> mkfile f' i2 c2 /\ owned f' i2 c2 = owned f i2 c2) as Hothers.
  { intros j2 i2 c2 Hj2. destruct (Hfiles j2 i2 c2 Hj2) as [Hm%meta_inum Hf]. apply lookup_lt_Some in Hj2. apply (mkfile_slot h1 h'); try assumption; try apply new_dinode; change (i_inum i) with n; lia. }
  assert (forall j2 i2 c2, (fs ++ [(i, [])]) !! j2 = Some (i2, c2) -> fs !! j2 = Some (i2, c2) \/ (j2 = length fs /\ i2 = i /\ c2 = [])) as Hsplit.
  { intros j2 i2 c2 [Hj|[Hj1 Hj2]]%lookup_app_Some; [left; exact Hj | right]. destruct (j2 - length fs)%nat as [|k] eqn:Ek; [|discriminate]. injection Hj2 as <- <-. split; [lia | auto]. }
  exists h', f'. split.
  - unfold ialloc. step by reflexivity. step by reflexivity. fold h1. rewrite Hnext. fold n. step by (rewrite <- E; destruct fs; reflexivity). reflexivity.
  - split; [exact Hs' | rewrite length_app; cbn [length]; lia | | | |].
    + intros j2 i2 c2 [Hj|(-> & -> & ->)]%Hsplit; [split; [apply (Hfiles _ _ _ Hj) | apply (Hothers _ _ _ Hj)]|].
      split; [exists (replicate 13 0), 0; reflexivity|]. pose proof (new_blocks f' (length fs) (shows_alloc _ _ Hs')) as Hb. split.
      * split; [exact Hb | apply (shows_alloc _ _ Hs') | change (0 <= 0 <= BSIZE * 0); lia | apply new_dinode | apply (data_low h'); assumption | apply not_elem_of_nil|].
        unfold f', upd_content. fold i. rewrite Z.eqb_refl.
        destruct (get_put_dinode (f (home_of sb i)) (slot_of i) (slot_of i) (dinode_of i) (sh_blk _ _ Hs (home_of sb i) ltac:(lia)) (slot_lt i) (slot_lt i) (new_dinode _)) as [_ ->].
        rewrite decide_True by reflexivity. reflexivity.
      * reflexivity.
      * intros k Hk. change (nblk []) with 0. unfold byte_at, content. assert (0 <= k / BSIZE) by (apply Z.div_pos; [exact Hk | reflexivity]).
        rewrite (proj2 (Z.ltb_ge _ 0)) by assumption. rewrite (nth_overflow []) by apply Nat.le_0_l. apply nth_zeroes.
      * exact Hh.
      * intros b Hb2. apply not_elem_of_nil in Hb2. contradiction.
    + intros j1 j2 i1 c1 i2 c2 [Hj1|(-> & -> & ->)]%Hsplit [Hj2|(-> & -> & ->)]%Hsplit Hne b.
      * rewrite (proj2 (Hothers _ _ _ Hj1)), (proj2 (Hothers _ _ _ Hj2)). eapply Hapart; eassumption.
      * intros _. apply not_elem_of_nil.
      * intros Hb2. apply not_elem_of_nil in Hb2. contradiction.
      * contradiction.
    + rewrite fmap_app, total_app. cbn [fmap list_fmap snd]. change (total [[]]) with 0. rewrite Hfb. change (h_freeblock h1) with (h_freeblock h). lia.
    + intros b Hb. rewrite <- Hlow by exact Hb. unfold f', upd_content. rewrite (proj2 (Z.eqb_neq b _)) by lia. reflexivity.
Qed.

(** The size of the root directory as a whole number of blocks: its last
    block ends in zeros. *)
Lemma built_resize h f fs i c k : built h f fs -> fs !! 0%nat = Some (i, c) -> (length fs <= 199)%nat -> nblk (c ++ replicate k 0) = nblk c ->
  exists h' f', winode 1 (set_size (dinode_of i) (Z.of_nat (length (c ++ replicate k 0)))) h = Ret tt h' /\
    built h' f' (<[0%nat := (i <| i_size := Z.of_nat (length (c ++ replicate k 0)) |>, c ++ replicate k 0)]> fs).
Proof.
  intros [Hs Hnext Hfiles Hapart Hcount Hlow] Hj Hlen En. set (n := Z.of_nat (length (c ++ replicate k 0))). set (i' := i <| i_size := n |>).
  destruct (Hfiles _ _ _ Hj) as [Hmeta Hf]. pose proof (meta_inum _ _ Hmeta) as Hinum. pose proof Hf as [Hat Hsz Hbytes Hh Hown].
  assert (0 <= n) as Hn0 by apply Nat2Z.is_nonneg. assert (n <= BSIZE * nblk c) as Hn by (rewrite <- En; unfold nblk, n, BSIZE; clear; dlia).
  pose proof (ob_nb _ _ _ _ _ _ (fa_blocks _ _ _ _ _ Hat)) as Hnb.
  assert (dinode_ok (dinode_of i')) as Hd.
  { destruct (fa_dinode _ _ _ _ _ Hat) as (D1 & D2 & D3 & D4 & D5 & D6 & D7). do 4 (split; [assumption|]). split; [change (0 <= n < 2 ^ 32); unfold MAXFILE, BSIZE in *; lia | split; assumption]. }
  destruct (winode_eq h f i (dinode_of i') Hs Hh Hd) as (h' & E & Hs' & Hfb & Hfi). set (f' := upd_content f _ _) in *.
  assert (forall j2 i2 c2, fs !! j2 = Some (i2, c2) -> j2 <> 0%nat -> mkfile f' i2 c2 /\ owned f' i2 c2 = owned f i2 c2) as Hothers.
  { intros j2 i2 c2 Hj2 Hne. destruct (Hfiles j2 i2 c2 Hj2) as [Hm%meta_inum Hf2]. apply lookup_lt_Some in Hj2. apply (mkfile_slot h h'); try assumption; lia. }
  destruct (outside_grown disk_frame sb f i (nblk c) _ (home_of sb i) (put_dinode (slot_of i) (dinode_of i') (f (home_of sb i))) (shows_alloc _ _ Hs) (fa_blocks _ _ _ _ _ Hat)
    (fa_own _ _ _ _ _ Hat) ltac:(rewrite map_block_58; lia)) as (Hb' & Ha' & _ & Ho' & _). fold f' in Hb', Ha', Ho'.
  assert (owned f' i' (c ++ replicate k 0) = owned f i c) as Eo by (unfold owned; rewrite En; exact Ho').
  exists h', f'. split; [rewrite <- Hinum at 1; exact E|]. split; [exact Hs' | rewrite length_insert; congruence | | | |].
  - intros j2 i2 c2 [(-> & [= -> ->] & _)|[Hne Hj2]]%lookup_replaced; [|split; [apply (Hfiles _ _ _ Hj2) | apply (Hothers _ _ _ Hj2 Hne)]].
    split; [apply (meta_trans _ i); [exact Hmeta | exists (i_addrs i), n; destruct i; reflexivity]|]. split; rewrite ?En.
    + split.
      * apply (blocks_size disk_frame sb), Hb'.
      * apply (shows_alloc _ _ Hs').
      * change (i_size i') with n. lia.
      * exact Hd.
      * apply (data_low h'); [exact Hs' | exact Hh].
      * change (own f' i' (nblk c) (NDIRECT <? nblk c)) with (own f' i (nblk c) (NDIRECT <? nblk c)). rewrite Ho'. apply (fa_own _ _ _ _ _ Hat).
      * change (home_of sb i') with (home_of sb i). change (slot_of i') with (slot_of i). unfold f', upd_content. rewrite Z.eqb_refl.
        destruct (get_put_dinode (f (home_of sb i)) (slot_of i) (slot_of i) (dinode_of i') (sh_blk _ _ Hs (home_of sb i) ltac:(lia)) (slot_lt i) (slot_lt i) Hd) as [_ ->].
        rewrite decide_True by reflexivity. reflexivity.
    + reflexivity.
    + intros q Hq. change (byte_at f' i' (nblk c) q) with (byte_at f' i (nblk c) q). unfold f'.
      rewrite byte_outside; [|apply (shows_alloc _ _ Hs) | apply Hat | apply Hat | lia | exact Hq]. rewrite Hbytes by exact Hq.
      destruct (decide (Z.to_nat q < length c)%nat) as [Hlt|Hge]; [rewrite app_nth1 by exact Hlt; reflexivity|].
      rewrite app_nth2 by lia. rewrite nth_overflow by lia. symmetry. apply nth_zero.
    + exact Hh.
    + intros b Hb. rewrite Eo in Hb. apply Hown, Hb.
  - intros j1 j2 i1 c1 i2 c2 [(-> & [= -> ->] & _)|[Hne1 Hj1]]%lookup_replaced [(-> & [= -> ->] & _)|[Hne2 Hj2]]%lookup_replaced Hne b; rewrite ?Eo.
    + contradiction.
    + rewrite (proj2 (Hothers _ _ _ Hj2 Hne2)). eapply Hapart; eassumption.
    + rewrite (proj2 (Hothers _ _ _ Hj1 Hne1)). eapply Hapart; eassumption.
    + rewrite (proj2 (Hothers _ _ _ Hj1 Hne1)), (proj2 (Hothers _ _ _ Hj2 Hne2)). eapply Hapart; eassumption.
  - rewrite list_fmap_insert, (total_insert _ 0 c) by (rewrite list_lookup_fmap, Hj; reflexivity). cbn [snd]. unfold blocks_used. rewrite En. lia.
  - intros b Hb. rewrite <- Hlow by exact Hb. unfold f', upd_content. rewrite (proj2 (Z.eqb_neq b _)) by lia. reflexivity.
Qed.
