(* ===== verification/MkfsImage.v ===== *)
(** * The image of mkfs

    main() of [mkfs.c] as a whole: the files that the image holds at every
    step, and the file system that the kernel finds when it boots from the
    image. *)
From S2P Require Import Prelude.
From S2P Require Import Sleeplock.
From S2P Require Import Layout.
From S2P Require Import Bio.
From S2P Require Import BioCache.
From S2P Require Import Cache.
From S2P Require Import Log.
From S2P Require Import LogProofs.
From S2P Require Import Tx.
From S2P Require Import Fs.
From S2P Require Import FsProofs.
From S2P Require Import FsGrow.
From S2P Require Import FsTrunc.
From S2P Require Import FsDir.
From S2P Require Import FsCrash.
From S2P Require Import Mkfs.
From S2P Require Import MkfsProofs.

(** ** What the image is to hold *)

#[local] Abbreviation argument := (list Z * list (list Z))%type.

(** The entries of the root directory: ".", ".." and the files. *)
Definition new_dirent (inum : Z) (name : list Z) : dirent := mk_dirent inum (strncpy_bytes DIRSIZ name).
Fixpoint file_entries (inum : Z) (args : list argument) : list dirent :=
  match args with
  | [] => []
  | a :: args => new_dirent inum (image_name a.1) :: file_entries (inum + 1) args
  end.
Definition root_entries (args : list argument) : list dirent :=
  new_dirent 1 (str ".") :: new_dirent 1 (str "..") :: file_entries 2 args.
Definition dir_bytes (es : list dirent) : list Z := concat (enc_dirent <$> es).
Definition arg_bytes (a : argument) : list Z := concat a.2.
Definition contents (args : list argument) : list (list Z) := dir_bytes (root_entries args) :: (arg_bytes <$> args).

(** The arguments that mkfs can put into an image; no name is there twice
    and the last block of the root directory has a free entry. *)
Record loads (args : list argument) : Prop := {
  ft_name : forall a, a ∈ args -> 47 ∉ a.1;
  ft_count : (length args <= 198)%nat;
  ft_reads : forall a, a ∈ args -> Forall (fun r => r <> []) a.2;
  ft_size : forall a, a ∈ args -> Z.of_nat (length (arg_bytes a)) <= MAXFILE * BSIZE;
  ft_room : nmeta + total (contents args) <= FSSIZE }.
Record fits (args : list argument) : Prop := {
  ft_loads : loads args;
  ft_unique : dir_unique (root_entries args);
  ft_tail : Z.of_nat (2 + length args) mod 32 <> 0 }.

(** ** The files after every step *)

Definition holds (h : host) (C : list (list Z)) : Prop := exists f fs, built h f fs /\ fs.*2 = C.

Lemma blocks_used_nonneg c : 0 <= blocks_used c.
Proof. apply needed_nonneg, nblk_nonneg. Qed.
Lemma blocks_used_le c p : blocks_used c <= blocks_used (c ++ p).
Proof. rewrite blocks_used_app. pose proof (needed_nonneg _ _ (nblk_le c p)). lia. Qed.
Lemma total_cons c C : total (c :: C) = blocks_used c + total C.
Proof. reflexivity. Qed.
Lemma total_nonneg C : 0 <= total C.
Proof. induction C as [|c C IH]; [reflexivity|]. rewrite total_cons. pose proof (blocks_used_nonneg c). lia. Qed.

Lemma holds_append h C j c p : holds h C -> C !! j = Some c -> (length C <= 199)%nat -> p <> [] -> Z.of_nat (length (c ++ p)) <= MAXFILE * BSIZE ->
  nmeta + total (<[j := c ++ p]> C) <= FSSIZE ->
  exists h', iappend (1 + Z.of_nat j) p h = Ret tt h' /\ holds h' (<[j := c ++ p]> C).
Proof.
  intros (f & fs & Hb & <-) Hj Hlen Hp Hmax Hroom. rewrite (total_insert _ _ c) in Hroom by exact Hj.
  rewrite list_lookup_fmap in Hj. destruct (fs !! j) as [[i c']|] eqn:Ej; [injection Hj as ->|discriminate]. rewrite length_fmap in Hlen. rewrite length_app in Hmax.
  pose proof (bt_count _ _ _ Hb) as Hcount. rewrite blocks_used_app in Hroom.
  destruct (built_append h f fs j i c p Hb Ej) as (h' & f' & i' & E & Hb'); [lia | exact Hp | lia | change FSSIZE with 1000 in Hroom; lia|].
  exists h'. split; [exact E|]. exists f', (<[j := (i', c ++ p)]> fs). split; [exact Hb'|]. apply (list_fmap_insert snd fs j (i', c ++ p)).
Qed.
Lemma holds_ialloc h C : holds h C -> (length C < 199)%nat ->
  exists h', ialloc (kind (length C)) h = Ret (1 + Z.of_nat (length C)) h' /\ holds h' (C ++ [[]]).
Proof.
  intros (f & fs & Hb & <-) Hlen. rewrite length_fmap in *. destruct (built_ialloc h f fs Hb Hlen) as (h' & f' & E & Hb').
  exists h'. split; [exact E|]. eexists f', _. split; [exact Hb'|]. apply (fmap_app snd fs [(new_inode (length fs), [])]).
Qed.

(** The blocks of a file that is read until it ends. *)
Lemma reads_run reads : forall h C j c, holds h C -> C !! j = Some c -> (length C <= 199)%nat -> Forall (fun r => r <> []) reads ->
  Z.of_nat (length (c ++ concat reads)) <= MAXFILE * BSIZE -> nmeta + total (<[j := c ++ concat reads]> C) <= FSSIZE ->
  exists h', for_all reads (iappend (1 + Z.of_nat j)) h = Ret tt h' /\ holds h' (<[j := c ++ concat reads]> C).
Proof.
  induction reads as [|r reads IH]; intros h C j c Hh Hj Hlen Hne Hmax Hroom; cbn [concat for_all] in *.
  - exists h. rewrite app_nil_r, list_insert_id by exact Hj. auto.
  - inversion_clear Hne as [|? ? Hr Hrs]. rewrite app_assoc in Hmax, Hroom |- *. rewrite (total_insert _ _ c) in Hroom by exact Hj.
    pose proof (blocks_used_le (c ++ r) (concat reads)) as Hle.
    destruct (holds_append h C j c r Hh Hj Hlen Hr) as (h1 & E1 & Hh1); [rewrite length_app in Hmax; lia | rewrite (total_insert _ _ c) by exact Hj; lia|].
    apply lookup_lt_Some in Hj as Hlt. assert (<[j := c ++ r]> C !! j = Some (c ++ r)) as Hj1 by (apply list_lookup_insert_eq; exact Hlt).
    destruct (IH h1 (<[j := c ++ r]> C) j (c ++ r) Hh1 Hj1) as (h2 & E2 & Hh2); [rewrite length_insert; exact Hlen | exact Hrs | exact Hmax | |].
    + rewrite list_insert_insert_eq, (total_insert _ _ c) by exact Hj. exact Hroom.
    + rewrite list_insert_insert_eq in Hh2. exists h2. split; [step by exact E1; exact E2 | exact Hh2].
Qed.

Lemma length_entry inum name : length (enc_dirent (new_dirent inum name)) = 16%nat.
Proof. unfold enc_dirent. rewrite length_app, length_to_le. cbn [new_dirent de_name]. rewrite length_strncpy. reflexivity. Qed.
Lemma entry_nonempty inum name : enc_dirent (new_dirent inum name) <> [].
Proof. intros E. pose proof (length_entry inum name) as Hl. rewrite E in Hl. discriminate. Qed.
Lemma entry_run h r rest inum name : holds h (r :: rest) -> (length (r :: rest) <= 199)%nat -> 0 <= inum < 2 ^ 16 ->
  let r' := r ++ enc_dirent (new_dirent inum name) in Z.of_nat (length r') <= MAXFILE * BSIZE -> nmeta + total (r' :: rest) <= FSSIZE ->
  exists h', add_entry 1 inum name h = Ret tt h' /\ holds h' (r' :: rest).
Proof.
  intros Hh Hlen Hin r' Hmax Hroom. unfold add_entry. rewrite xshort_id by exact Hin. fold (new_dirent inum name).
  apply (holds_append h (r :: rest) 0 r (enc_dirent (new_dirent inum name))); [exact Hh | reflexivity | exact Hlen | apply entry_nonempty | exact Hmax | exact Hroom].
Qed.

Lemma name_ok name h : 47 ∉ name -> assert_ (negb (existsb (fun c => c =? 47) name)) h = Ret tt h.
Proof.
  intros Hn. unfold assert_. destruct (existsb (fun c => c =? 47) name) eqn:E; [|reflexivity].
  apply existsb_exists in E as (x & Hx & ->%Z.eqb_eq). destruct Hn. apply list_elem_of_In. exact Hx.
Qed.
Lemma total_snoc C c : total (C ++ [c]) = total C + blocks_used c.
Proof. rewrite total_app, total_cons. change (total []) with 0. lia. Qed.

Lemma insert_last {A} (l : list A) x y : <[length l := y]> (l ++ [x]) = l ++ [y].
Proof. rewrite insert_app_r_alt, Nat.sub_diag by lia. reflexivity. Qed.

Lemma add_file_run h r rest a : let n := length (r :: rest) in let e := enc_dirent (new_dirent (1 + Z.of_nat n) (image_name a.1)) in
  holds h (r :: rest) -> (n < 199)%nat -> 47 ∉ a.1 -> Forall (fun p => p <> []) a.2 -> Z.of_nat (length (arg_bytes a)) <= MAXFILE * BSIZE ->
  Z.of_nat (length (r ++ e)) <= MAXFILE * BSIZE -> nmeta + total ((r ++ e) :: rest ++ [arg_bytes a]) <= FSSIZE ->
  exists h', add_file 1 a h = Ret tt h' /\ holds h' ((r ++ e) :: rest ++ [arg_bytes a]).
Proof.
  intros n e Hh Hn Hname Hreads Hmax Hmaxr Hroom. destruct a as [name reads]. cbn [fst snd] in *.
  rewrite total_cons, total_snoc in Hroom. pose proof (blocks_used_nonneg (arg_bytes (name, reads))) as Hpos.
  destruct (holds_ialloc h (r :: rest) Hh Hn) as (h1 & E1 & Hh1). change ((r :: rest) ++ [[]]) with (r :: (rest ++ [[]])) in Hh1.
  destruct (entry_run h1 r (rest ++ [[]]) (1 + Z.of_nat n) (image_name name) Hh1) as (h2 & E2 & Hh2).
  { cbn [length] in *. rewrite length_app. cbn [length]. lia. }
  { lia. }
  { exact Hmaxr. }
  { rewrite total_cons, total_snoc. change (blocks_used []) with 0. fold e. lia. }
  fold e in Hh2. assert (forall c, (r ++ e) :: rest ++ [c] = (((r ++ e) :: rest) ++ [c])) as Eapp by reflexivity.
  assert (length ((r ++ e) :: rest) = n) as En by reflexivity. rewrite Eapp in Hh2.
  destruct (reads_run reads h2 (((r ++ e) :: rest) ++ [[]]) n [] Hh2) as (h3 & E3 & Hh3).
  - rewrite <- En. apply list_lookup_middle. reflexivity.
  - rewrite length_app, En. cbn [length]. lia.
  - exact Hreads.
  - exact Hmax.
  - rewrite <- En, insert_last, <- Eapp, total_cons, total_snoc. change ([] ++ concat reads) with (arg_bytes (name, reads)). lia.
  - rewrite <- En, insert_last in Hh3. exists h3. split; [|exact Hh3].
    unfold add_file. step by (apply name_ok, Hname). step by exact E1. step by exact E2. exact E3.
Qed.

Lemma dir_bytes_cons e es : dir_bytes (e :: es) = enc_dirent e ++ dir_bytes es.
Proof. reflexivity. Qed.
Lemma args_run args : forall h r rest, let n := length (r :: rest) in
  let r' := r ++ dir_bytes (file_entries (1 + Z.of_nat n) args) in
  holds h (r :: rest) -> (n + length args <= 199)%nat -> (forall a, a ∈ args -> 47 ∉ a.1) ->
  (forall a, a ∈ args -> Forall (fun p => p <> []) a.2) -> (forall a, a ∈ args -> Z.of_nat (length (arg_bytes a)) <= MAXFILE * BSIZE) ->
  Z.of_nat (length r') <= MAXFILE * BSIZE -> nmeta + total (r' :: rest ++ (arg_bytes <$> args)) <= FSSIZE ->
  exists h', for_all args (add_file 1) h = Ret tt h' /\ holds h' (r' :: rest ++ (arg_bytes <$> args)).
Proof.
  induction args as [|a args IH]; intros h r rest n r' Hh Hn Hname Hreads Hmax Hmaxr Hroom; unfold r' in *; clear r'; cbn [file_entries fmap list_fmap] in *.
  - change (dir_bytes []) with (@nil Z) in *. rewrite !app_nil_r in *. exists h. auto.
  - set (e := new_dirent (1 + Z.of_nat n) (image_name a.1)) in *. rewrite dir_bytes_cons, app_assoc in *. set (es := dir_bytes (file_entries _ args)) in *.
    pose proof (blocks_used_le (r ++ enc_dirent e) es) as Hle. rewrite total_cons, total_app, total_cons in Hroom. pose proof (total_nonneg (arg_bytes <$> args)) as Hpos.
    rewrite length_app in Hmaxr. cbn [length] in Hn.
    destruct (add_file_run h r rest a Hh) as (h1 & E1 & Hh1); fold n; fold e; try (apply Hname || apply Hreads || apply Hmax; left); try lia.
    { rewrite total_cons, total_snoc. lia. }
    fold n e in Hh1. assert (1 + Z.of_nat n + 1 = 1 + Z.of_nat (length ((r ++ enc_dirent e) :: rest ++ [arg_bytes a]))) as En.
    { unfold n. cbn [length]. rewrite length_app. cbn [length]. lia. }
    unfold es in *. rewrite En in *. destruct (IH h1 _ _ Hh1) as (h2 & E2 & Hh2).
    + unfold n in Hn. cbn [length] in *. rewrite length_app. cbn [length]. lia.
    + intros b Hb. apply Hname. right. exact Hb.
    + intros b Hb. apply Hreads. right. exact Hb.
    + intros b Hb. apply Hmax. right. exact Hb.
    + rewrite length_app. lia.
    + rewrite total_cons, total_app, total_snoc. lia.
    + rewrite <- (app_assoc rest) in Hh2. exists h2. split; [|exact Hh2]. cbn [for_all]. step by exact E1. exact E2.
Qed.

(** ** The start: blocks of zeros and the superblock *)

Lemma zero_blocks m : forall k a b, for_all (seqZ (Z.of_nat k) (Z.of_nat m)) (fun i => wsect i zeroes) (mk_host (replicate k zeroes) a b) =
  Ret tt (mk_host (replicate (k + m) zeroes) a b).
Proof.
  induction m as [|m IH]; intros k a b; [rewrite Nat.add_0_r; reflexivity|]. rewrite seqZ_cons by lia. cbn [for_all].
  step by (unfold wsect, modify; reflexivity). replace (Z.succ (Z.of_nat k)) with (Z.of_nat (S k)) by lia. replace (Z.pred (Z.of_nat (S m))) with (Z.of_nat m) by lia.
  replace (k + S m)%nat with (S k + m)%nat by lia. rewrite <- IH. f_equal. unfold set_field. cbn [h_img h_freeinode h_freeblock eta_host].
  rewrite length_replicate, Nat2Z.id, Nat.ltb_irrefl, Nat.sub_diag. cbn [replicate app]. f_equal. rewrite replicate_cons_app. reflexivity.
Qed.

Definition start_img : list block := <[1%nat := low 1]> (replicate 1000 zeroes).
Definition start_blocks (n : Z) : block := if n =? 58 then mark 59 zeroes else if n =? 1 then low 1 else zeroes.
Lemma length_low b : length (low b) = 512%nat.
Proof. unfold low. destruct (b =? 1); rewrite ?length_store; apply length_replicate. Qed.
Lemma start_built : built (mk_host start_img 1 59) start_blocks [].
Proof.
  split; try reflexivity; try discriminate.
  - split; cbn [h_img h_freeblock].
    + unfold start_img. rewrite length_insert. apply length_replicate.
    + intros n Hn H58. unfold start_img, start_blocks. rewrite (proj2 (Z.eqb_neq n 58)) by exact H58. destruct (Z.eqb_spec n 1) as [->|Hne].
      * apply list_lookup_insert_eq. rewrite length_replicate. lia.
      * rewrite list_lookup_insert_ne by lia. apply lookup_replicate. split; [reflexivity | lia].
    + intros n Hn. unfold start_blocks. destruct (n =? 58); [apply length_mark|]. destruct (n =? 1); [apply length_low | apply length_replicate].
    + reflexivity.
    + lia.
    + intros n Hn. unfold start_blocks. rewrite (proj2 (Z.eqb_neq n 58)), (proj2 (Z.eqb_neq n 1)) by lia. reflexivity.
  - intros b Hb. unfold start_blocks, low. rewrite (proj2 (Z.eqb_neq b 58)) by lia. destruct (b =? 1); reflexivity.
Qed.

(** ** The end: the size of the root directory and the bit map *)

(** The entries that fill the last block of the root directory. *)
Definition spare (args : list argument) : nat := (32 * ((2 + length args) / 32 + 1) - (2 + length args))%nat.
Definition final_entries (args : list argument) : list dirent := root_entries args ++ replicate (spare args) no_dirent.
Definition final_contents (args : list argument) : list (list Z) := dir_bytes (final_entries args) :: (arg_bytes <$> args).

Lemma dir_bytes_app es es' : dir_bytes (es ++ es') = dir_bytes es ++ dir_bytes es'.
Proof. unfold dir_bytes. rewrite fmap_app. apply concat_app. Qed.
Lemma dir_bytes_spare q : dir_bytes (replicate q no_dirent) = replicate (16 * q) 0.
Proof.
  induction q as [|q IH]; [reflexivity|]. replace (16 * S q)%nat with (16 + 16 * q)%nat by lia. rewrite replicate_add. change (replicate (S q) no_dirent) with (no_dirent :: replicate q no_dirent).
  rewrite dir_bytes_cons, IH. reflexivity.
Qed.
Lemma length_dir_bytes es : Forall dirent_ok es -> length (dir_bytes es) = (16 * length es)%nat.
Proof.
  induction 1 as [|e es [_ Hl] _ IH]; [reflexivity|]. rewrite dir_bytes_cons, length_app, IH. unfold enc_dirent. rewrite length_app, length_to_le, Hl. cbn [length]. unfold DIRSIZ. lia.
Qed.
Lemma file_entries_ok args : forall n, 0 <= n -> n + Z.of_nat (length args) < 2 ^ 16 -> Forall dirent_ok (file_entries n args).
Proof.
  induction args as [|a args IH]; intros n Hn Hlt; cbn [file_entries length] in *; constructor.
  - split; [cbn [new_dirent de_inum]; lia | apply length_strncpy].
  - apply IH; lia.
Qed.
Lemma length_file_entries args : forall n, length (file_entries n args) = length args.
Proof. induction args as [|a args IH]; intros n; [reflexivity|]. cbn [file_entries length]. rewrite IH. reflexivity. Qed.
Lemma root_entries_ok args : (length args <= 198)%nat -> Forall dirent_ok (root_entries args).
Proof.
  intros Hn. assert (forall name, dirent_ok (new_dirent 1 name)) as H1 by (intros name; split; [cbn [new_dirent de_inum]; lia | apply length_strncpy]).
  apply Forall_cons. split; [apply H1|]. apply Forall_cons. split; [apply H1|]. apply file_entries_ok; lia.
Qed.
Lemma length_root_entries args : length (root_entries args) = (2 + length args)%nat.
Proof. unfold root_entries. cbn [length]. rewrite length_file_entries. reflexivity. Qed.
Lemma final_entries_ok args : (length args <= 198)%nat -> Forall dirent_ok (final_entries args).
Proof. intros Hn. apply Forall_app. split; [apply root_entries_ok, Hn|]. apply Forall_replicate. split; [cbn; lia | reflexivity]. Qed.

(** The blocks [f] are those of the image. *)
Definition image_is (h : host) f : Prop := length (h_img h) = 1000%nat /\ forall n, 0 <= n < 1000 -> h_img h !! Z.to_nat n = Some (f n).

Lemma balloc_run h f : shows h f -> exists h', balloc (s32 (h_freeblock h)) h = Ret tt h' /\ image_is h' f /\ h_freeblock h' = h_freeblock h.
Proof.
  intros [S1 S2 S3 S4 S5 S6]. assert (s32 (h_freeblock h) = h_freeblock h) as -> by (unfold s32; rewrite Z.mod_small; lia).
  eexists. split; [|split].
  - unfold balloc. step by (unfold assert_; rewrite (proj2 (Z.ltb_lt (h_freeblock h) _)) by (unfold BSIZE; lia); reflexivity). unfold wsect, modify. reflexivity.
  - set (h' := set_field _ h). assert (h_img h' = <[58%nat := f 58]> (h_img h)) as Ei.
    { change (h_img h') with (if (58 <? length (h_img h))%nat then <[58%nat := mark (Z.to_nat (h_freeblock h)) zeroes]> (h_img h)
        else h_img h ++ replicate (58 - length (h_img h)) zeroes ++ [mark (Z.to_nat (h_freeblock h)) zeroes]).
      rewrite (proj2 (Nat.ltb_lt _ _)) by lia. rewrite S4. reflexivity. }
    unfold image_is. rewrite Ei, length_insert. split; [exact S1|]. intros n Hn. destruct (decide (n = 58)) as [->|Hne].
    + apply list_lookup_insert_eq. lia.
    + rewrite list_lookup_insert_ne by lia. apply S2; assumption.
  - reflexivity.
Qed.

Lemma nblk_round (c : list Z) k : let n := Z.of_nat (length c) in n mod 512 <> 0 -> n + Z.of_nat k = (n / 512 + 1) * 512 -> nblk (c ++ replicate k 0) = nblk c.
Proof. intros n Hn Hk. unfold nblk, BSIZE. rewrite length_app, length_replicate, Nat2Z.inj_add. fold n. clearbody n. dlia. Qed.

Lemma root_run : exists h, holds h [[]] /\ forall k : Z -> M host unit, (modify (fun h => h <| h_freeblock := nmeta |>) ;! for_all (seqZ 0 FSSIZE) (fun i => wsect i zeroes) ;!
  wsect 1 (store 0 (enc_superblock sb) zeroes) ;! let! rootino := ialloc T_DIR in k rootino) start = k 1 h.
Proof.
  destruct (holds_ialloc (mk_host start_img 1 59) []) as (h & E & Hh); [exists start_blocks, []; split; [apply start_built | reflexivity] | cbn; lia|].
  exists h. split; [exact Hh|]. intros k. step by reflexivity. change FSSIZE with (Z.of_nat 1000). step by (apply (zero_blocks 1000 0 1 59)).
  step by (unfold wsect, modify, set_field; cbn [h_img h_freeinode h_freeblock eta_host]; rewrite length_replicate; reflexivity). step by exact E. reflexivity.
Qed.

Lemma final_total args : (length args <= 198)%nat -> Z.of_nat (2 + length args) mod 32 <> 0 ->
  let c := dir_bytes (root_entries args) in let k := (16 * spare args)%nat in
  Z.of_nat (length c) mod 512 <> 0 /\ Z.of_nat (length c) + Z.of_nat k = (Z.of_nat (length c) / 512 + 1) * 512 /\ dir_bytes (final_entries args) = c ++ replicate k 0.
Proof.
  intros Hn Hmod c k. assert (length c = (16 * (2 + length args))%nat) as Ec by (unfold c; rewrite length_dir_bytes, length_root_entries by (apply root_entries_ok, Hn); reflexivity).
  unfold final_entries. rewrite dir_bytes_app, dir_bytes_spare. fold c k. rewrite Ec. unfold k, spare. clear -Hmod. split; [dlia|]. split; [|reflexivity].
  set (m := (2 + length args)%nat). pose proof (Nat.div_mod_eq m 32) as Ed. pose proof (Nat.mod_upper_bound m 32 ltac:(lia)) as Eb.
  set (q := (m / 32)%nat) in *. set (r := (m mod 32)%nat) in *. clearbody m q r. dlia.
Qed.

(** What main() does at the end. *)
Definition finish : M host unit :=
  let! din := rinode 1 in
  let off := xint (di_size din) in
  let off := u32 ((off / BSIZE + 1) * BSIZE) in
  winode 1 (set_size din (xint off)) ;!
  let! used := get h_freeblock in
  balloc (s32 used).
Lemma length_root args : (length args <= 198)%nat -> length (dir_bytes (root_entries args)) = (16 * (2 + length args))%nat.
Proof. intros Hn. rewrite length_dir_bytes, length_root_entries by (apply root_entries_ok, Hn). reflexivity. Qed.
Lemma load_run args : loads args -> exists h, holds h (contents args) /\ main args start = finish h.
Proof.
  intros [Hname Hcount Hreads Hsize Hroom]. pose proof (length_root args Hcount) as Hlen.
  destruct root_run as (h1 & Hh1 & E1). set (e1 := enc_dirent (new_dirent 1 (str "."))). set (e2 := enc_dirent (new_dirent 1 (str ".."))).
  assert (dir_bytes (root_entries args) = (e1 ++ e2) ++ dir_bytes (file_entries 2 args)) as Eroot by (rewrite <- app_assoc; reflexivity).
  set (C := contents args) in *. assert (C = ((e1 ++ e2) ++ dir_bytes (file_entries 2 args)) :: (arg_bytes <$> args)) as EC by (unfold C, contents; rewrite Eroot; reflexivity).
  rewrite EC, total_cons in Hroom. pose proof (total_nonneg (arg_bytes <$> args)) as Hpos.
  pose proof (blocks_used_le (e1 ++ e2) (dir_bytes (file_entries 2 args))) as Hle2. pose proof (blocks_used_le e1 e2) as Hle1.
  assert (length e1 = 16%nat /\ length e2 = 16%nat) as [El1 El2] by (split; apply length_entry).
  destruct (entry_run h1 [] [] 1 (str ".") Hh1) as (h2 & E2 & Hh2); [cbn; lia | lia | fold e1; cbn [app]; unfold MAXFILE, BSIZE; lia | fold e1; rewrite total_cons; cbn [app]; change (total []) with 0; lia|].
  fold e1 in Hh2. cbn [app] in Hh2.
  destruct (entry_run h2 e1 [] 1 (str "..") Hh2) as (h3 & E3 & Hh3); [cbn; lia | lia | fold e2; rewrite length_app; unfold MAXFILE, BSIZE; lia | fold e2; rewrite total_cons; change (total []) with 0; lia|].
  fold e2 in Hh3. destruct (args_run args h3 (e1 ++ e2) [] Hh3) as (h4 & E4 & Hh4); try assumption; cbn [length]; change (1 + Z.of_nat 1) with 2.
  { lia. }
  { rewrite <- Eroot, Hlen. unfold MAXFILE, BSIZE. lia. }
  cbn [length app] in Hh4. change (1 + Z.of_nat 1) with 2 in Hh4. rewrite <- EC in Hh4. exists h4. split; [exact Hh4|].
  unfold main. rewrite E1. step by reflexivity. step by exact E2. step by exact E3. step by exact E4. reflexivity.
Qed.
(** The root directory then. *)
Lemma loaded_root args h : (length args <= 198)%nat -> holds h (contents args) -> exists f fs i, let c := dir_bytes (root_entries args) in
  built h f fs /\ fs.*2 = contents args /\ fs !! 0%nat = Some (i, c) /\ i_inum i = 1 /\ mkfile f i c /\ length fs = Datatypes.S (length args) /\
  forall h', winode 1 (set_size (dinode_of i) ((Z.of_nat (length c) / 512 + 1) * 512)) h = Ret tt h' -> finish h = balloc (s32 (h_freeblock h')) h'.
Proof.
  intros Hcount (f & fs & Hb & EfsC). set (c := dir_bytes (root_entries args)). assert (fs.*2 !! 0%nat = Some c) as Hj by (rewrite EfsC; reflexivity). rewrite list_lookup_fmap in Hj.
  destruct (fs !! 0%nat) as [[i c']|] eqn:Ej; [injection Hj as ->|discriminate]. destruct (bt_file _ _ _ Hb _ _ _ Ej) as [Hmeta Hf].
  pose proof (meta_inum _ _ Hmeta) as Hinum. change (1 + Z.of_nat 0) with 1 in Hinum. pose proof (length_root args Hcount) as Hlen. fold c in Hlen.
  exists f, fs, i. cbv zeta. do 5 (split; [assumption || reflexivity|]).
  split; [rewrite <- (length_fmap snd), EfsC; unfold contents; cbn [length]; rewrite length_fmap; reflexivity|]. intros h' E.
  assert (0 <= (Z.of_nat (length c) / 512 + 1) * 512 < 2 ^ 32) as Hr by (rewrite Hlen; clear -Hcount; change (2 ^ 32) with 4294967296; dlia).
  unfold finish. step by (rewrite <- Hinum; apply (rinode_eq h f i c (bt_shows _ _ _ Hb) Hf)). cbn [di_size dinode_of]. rewrite (mf_size _ _ _ Hf), (xint_id (Z.of_nat (length c))) by (rewrite Hlen; lia).
  unfold u32. unfold BSIZE at 1 2. rewrite Z.mod_small by exact Hr. rewrite xint_id by exact Hr. step by exact E. step by reflexivity. reflexivity.
Qed.

Lemma main_run args : fits args -> exists h f fs h0, main args start = Ret tt h /\ image_is h f /\ built h0 f fs /\ fs.*2 = final_contents args /\
  h_freeblock h0 = nmeta + total (contents args) /\ h_freeblock h = h_freeblock h0.
Proof.
  intros [Hloads _ Htail]. pose proof (ft_count _ Hloads) as Hcount. destruct (load_run args Hloads) as (h4 & Hh4 & E).
  pose proof (final_total args Hcount Htail) as Hfin. cbv zeta in Hfin. destruct Hfin as (Hmod & Hround & Hbytes).
  destruct (loaded_root args h4 Hcount Hh4) as (f & fs & i & Hl). cbv zeta in Hl. destruct Hl as (Hb & EfsC & Ej & Hinum & Hf & Hfs & Hfin).
  set (c := dir_bytes (root_entries args)) in *. set (k := (16 * spare args)%nat) in *.
  destruct (built_resize h4 f fs i c k Hb Ej ltac:(lia) (nblk_round c k Hmod Hround)) as (h5 & f' & E5 & Hb').
  rewrite length_app, length_replicate, Nat2Z.inj_add, Hround in E5, Hb'. destruct (balloc_run h5 f' (bt_shows _ _ _ Hb')) as (h6 & E6 & Himg & Hfb).
  exists h6, f', (<[0%nat := (i <| i_size := (Z.of_nat (length c) / 512 + 1) * 512 |>, c ++ replicate k 0)]> fs), h5.
  assert ((<[0%nat := (i <| i_size := (Z.of_nat (length c) / 512 + 1) * 512 |>, c ++ replicate k 0)]> fs).*2 = final_contents args) as Efin.
  { etransitivity; [apply (list_fmap_insert snd)|]. rewrite EfsC. unfold contents, final_contents. rewrite Hbytes. reflexivity. }
  split; [rewrite E, (Hfin h5 E5); exact E6|]. do 3 (split; [assumption|]). split; [|exact Hfb].
  rewrite (bt_count _ _ _ Hb'), Efin. unfold final_contents, contents. rewrite !total_cons, Hbytes. unfold blocks_used. fold c. rewrite (nblk_round c k Hmod Hround). reflexivity.
Qed.

(** With 30 files, or 62, the entries fill the blocks of the root directory,
    and main() makes its size that of one block more than it has. *)
Lemma root_size_behind args : loads args -> Z.of_nat (2 + length args) mod 32 = 0 -> exists h b, main args start = Ret tt h /\ h_img h !! 32%nat = Some b /\
  let d := get_dinode 1 b in let n := Z.of_nat (2 + length args) / 32 in di_size d = BSIZE * (n + 1) /\ n < NDIRECT /\ din_addr d n = 0.
Proof.
  intros Hloads Hmod. pose proof (ft_count _ Hloads) as Hcount. destruct (load_run args Hloads) as (h4 & Hh4 & E).
  destruct (loaded_root args h4 Hcount Hh4) as (f & fs & i & Hl). cbv zeta in Hl. destruct Hl as (Hb & EfsC & Ej & Hinum & Hf & Hfs & Hfin).
  set (c := dir_bytes (root_entries args)) in *. assert (length c = (16 * (2 + length args))%nat) as Hlen by apply (length_root args Hcount).
  set (n := Z.of_nat (2 + length args) / 32). assert ((Z.of_nat (length c) / 512 + 1) * 512 = BSIZE * (n + 1)) as En by (unfold n, BSIZE; rewrite Hlen; clear -Hmod; dlia).
  assert (nblk c = n) as Enb by (unfold n, nblk, BSIZE; rewrite Hlen; clear -Hmod; dlia). assert (0 <= n < NDIRECT) as Hn by (unfold n, NDIRECT; clear -Hcount; dlia). rewrite En in Hfin.
  assert (dinode_ok (dinode_of (i <| i_size := BSIZE * (n + 1) |>))) as Hd.
  { destruct (fa_dinode _ _ _ _ _ (mf_at _ _ _ Hf)) as (D1 & D2 & D3 & D4 & D5 & D6 & D7). do 4 (split; [assumption|]). split; [change (0 <= BSIZE * (n + 1) < 2 ^ 32); unfold BSIZE, NDIRECT in *; lia | split; assumption]. }
  pose proof (mf_home _ _ _ Hf) as Hh. destruct (home_inum i 1 Hinum ltac:(lia)) as [Eh Es]. change (32 + 1 / 8) with 32 in Eh. change (Z.to_nat (1 mod 8)) with 1%nat in Es.
  destruct (winode_eq h4 f i _ (bt_shows _ _ _ Hb) Hh Hd) as (h5 & E5 & Hs5 & Hfb5 & _). rewrite Hinum in E5.
  destruct (balloc_run h5 _ Hs5) as (h6 & E6 & [_ Himg] & _). exists h6. eexists. split; [rewrite E, (Hfin h5 E5); exact E6|]. split; [apply (Himg 32); lia|].
  cbv zeta. unfold upd_content. rewrite Eh, Es. change (32 =? 32) with true. cbv iota.
  destruct (get_put_dinode (f 32) 1 1 (dinode_of (i <| i_size := BSIZE * (n + 1) |>)) (sh_blk _ _ (bt_shows _ _ _ Hb) 32 ltac:(lia)) ltac:(lia) ltac:(lia) Hd) as [_ ->].
  rewrite decide_True by reflexivity. split; [reflexivity|]. split; [apply Hn|]. apply (ob_direct _ _ _ _ _ _ (fa_blocks _ _ _ _ _ (mf_at _ _ _ Hf)) n). lia.
Qed.

(** ** Reading the files back *)

Lemma bytes_of f i c off n : mkfile f i c -> 0 <= off -> 0 <= n -> off + n <= Z.of_nat (length c) -> file_bytes f i off n = take (Z.to_nat n) (drop (Z.to_nat off) c).
Proof.
  intros [Hat Hsz Hb _ _] Hoff Hn Hend. pose proof (fa_size _ _ _ _ _ Hat) as Hs. rewrite Hsz in Hs. unfold file_bytes. apply list_eq. intros k. change (map (file_byte f i)) with (fmap (M := list) (file_byte f i)).
  rewrite list_lookup_fmap. destruct (decide (k < Z.to_nat n)%nat) as [Hk|Hk].
  - rewrite lookup_seqZ_lt, lookup_take_lt, lookup_drop by lia. cbn [fmap option_fmap option_map]. rewrite <- (byte_at_file f i (nblk c)) by lia. rewrite Hb by lia.
    replace (Z.to_nat (off + Z.of_nat k)) with (Z.to_nat off + k)%nat by lia. 
    destruct (lookup_lt_is_Some_2 c (Z.to_nat off + k)%nat) as [x Ex]; [lia|]. rewrite Ex. f_equal. apply nth_lookup_Some, Ex.
  - rewrite lookup_seqZ_ge, lookup_take_ge by lia. reflexivity.
Qed.
Lemma dirents_of f i es : mkfile f i (dir_bytes es) -> Forall dirent_ok es -> dirents f i = es.
Proof.
  intros Hf Hok. pose proof (length_dir_bytes es Hok) as Hlen. pose proof (mf_size _ _ _ Hf) as Hsz. rewrite Hlen in Hsz.
  assert (Z.to_nat (i_size i / 16) = length es) as En by (rewrite Hsz; dlia). apply list_eq. intros k. destruct (decide (k < length es)%nat) as [Hk|Hk].
  - rewrite dirents_lookup by lia. unfold entry. rewrite (bytes_of f i (dir_bytes es)) by (try exact Hf; lia). destruct (lookup_lt_is_Some_2 es k Hk) as [e Ee]. rewrite Ee. f_equal.
    assert (es = take k es ++ e :: drop (Datatypes.S k) es) as Es by (symmetry; apply take_drop_middle, Ee).
    pose proof Hok as Hok2. rewrite Es in Hok2. apply Forall_app in Hok2 as [Hpre Htl]. apply Forall_cons in Htl as [He _].
    rewrite Es at 1. rewrite dir_bytes_app, dir_bytes_cons. rewrite drop_app_ge by (rewrite length_dir_bytes, length_take by exact Hpre; lia).
    rewrite length_dir_bytes, length_take by exact Hpre. replace (_ - _)%nat with 0%nat by lia. assert (length (enc_dirent e) = 16%nat) as Hl by (unfold enc_dirent; rewrite length_app, length_to_le, (proj2 He); reflexivity).
    rewrite drop_0, take_app_le, take_ge by (rewrite Hl; reflexivity). apply dec_enc_dirent, He.
  - rewrite !lookup_ge_None_2 by (rewrite ?length_dirents; lia). reflexivity.
Qed.

Lemma dir_map_in l e : dir_unique l -> e ∈ l -> de_inum e <> 0 -> dir_map l !! de_key e = Some (de_inum e).
Proof.
  unfold dir_unique, dir_keys. induction l as [|x l IH]; intros Hu Hin Hne; [apply not_elem_of_nil in Hin; contradiction|]. rewrite filter_cons in Hu. cbn [dir_map].
  apply elem_of_cons in Hin as [<-|Hin].
  - rewrite (proj2 (Z.eqb_neq _ 0)) by exact Hne. apply lookup_insert_eq.
  - destruct (Z.eqb_spec (de_inum x) 0) as [Ez|Hx]; [rewrite decide_False in Hu by tauto; apply IH; assumption|].
    rewrite decide_True in Hu by exact Hx. cbn [fmap list_fmap] in Hu. apply NoDup_cons in Hu as [Hno Hu]. rewrite lookup_insert_ne; [apply IH; assumption|].
    intros E. apply Hno. rewrite E. apply list_elem_of_fmap. exists e. split; [reflexivity|]. apply list_elem_of_filter. auto.
Qed.
Lemma spare_keys l q : dir_keys (l ++ replicate q no_dirent) = dir_keys l.
Proof.
  unfold dir_keys. rewrite filter_app. assert (filter (fun e => de_inum e <> 0) (replicate q no_dirent) = []) as ->; [|rewrite app_nil_r; reflexivity].
  induction q as [|q IH]; [reflexivity|]. cbn [replicate]. rewrite filter_cons, decide_False by (intros Hx; apply Hx; reflexivity). exact IH.
Qed.
Lemma file_entries_lookup args : forall n k a, args !! k = Some a -> file_entries n args !! k = Some (new_dirent (n + Z.of_nat k) (image_name a.1)).
Proof.
  induction args as [|x args IH]; intros n [|k] a Hk; try discriminate; cbn [file_entries].
  - injection Hk as ->. cbn. rewrite Z.add_0_r. reflexivity.
  - etransitivity; [apply (IH (n + 1) k a Hk)|]. do 2 f_equal. lia.
Qed.

(** ** The file system *)

(** The blocks [f] hold the root directory and the files. *)
Record mounted (g : frame) f (args : list argument) (fs : list inode) : Prop := {
  mo_inodes : forall j i, fs !! j = Some i -> i_inum i = 1 + Z.of_nat j /\ i_type i = kind j /\ i_nlink i = 1 /\ at_rest i;
  mo_root : exists i, fs !! 0%nat = Some i /\ dir_at g sb f i (nblk (dir_bytes (final_entries args))) /\ dirents f i = final_entries args /\
    forall k a, args !! k = Some a -> dir_map (dirents f i) !! strncpy_bytes DIRSIZ (image_name a.1) = Some (2 + Z.of_nat k);
  mo_file : forall k a, args !! k = Some a -> exists i, fs !! Datatypes.S k = Some i /\ file_at g sb f i (nblk (arg_bytes a)) /\
    i_size i = Z.of_nat (length (arg_bytes a)) /\ file_bytes f i 0 (i_size i) = arg_bytes a;
  mo_apart : forall j j' i i' c c', fs !! j = Some i -> fs !! j' = Some i' -> final_contents args !! j = Some c -> final_contents args !! j' = Some c' -> j <> j' ->
    forall b, b ∈ owned f i c -> b ∉ owned f i' c';
  mo_used : forall b, 0 <= b < FSSIZE -> used f sb b = (b <? nmeta + total (contents args)) }.

Lemma built_mounted g h f fs args : alike_frames disk_frame g -> fits args -> built h f fs -> fs.*2 = final_contents args ->
  h_freeblock h = nmeta + total (contents args) -> mounted g f args fs.*1.
Proof.
  intros Hg [[_ Hcount _ _ _] Hunique _] Hb Efs Hfb. pose proof (final_entries_ok args Hcount) as Hok.
  assert (forall j c, final_contents args !! j = Some c -> exists i, fs !! j = Some (i, c)) as Hfs.
  { intros j c Hj. rewrite <- Efs, list_lookup_fmap in Hj. destruct (fs !! j) as [[i c']|]; [injection Hj as ->; exists i; reflexivity | discriminate]. }
  assert (forall j i, fs.*1 !! j = Some i -> exists c, fs !! j = Some (i, c)) as Hfs1.
  { intros j i Hj. rewrite list_lookup_fmap in Hj. destruct (fs !! j) as [[i' c]|]; [injection Hj as ->; exists c; reflexivity | discriminate]. }
  assert (forall j i c, fs !! j = Some (i, c) -> fs.*1 !! j = Some i) as Hfs2 by (intros j i c Hj; rewrite list_lookup_fmap, Hj; reflexivity).
  split.
  - intros j i [c Hj]%Hfs1. destruct (bt_file _ _ _ Hb _ _ _ Hj) as [(a & n & ->) _]. split_and!; try reflexivity. split_and!; [reflexivity | discriminate | reflexivity].
  - destruct (Hfs 0%nat _ eq_refl) as [i Hi]. destruct (bt_file _ _ _ Hb _ _ _ Hi) as [Hmeta Hf]. exists i. pose proof (dirents_of f i _ Hf Hok) as Ed.
    assert (dir_unique (final_entries args)) as Hu by (unfold dir_unique, final_entries; rewrite spare_keys; exact Hunique).
    split; [eapply Hfs2, Hi|]. split; [|split; [exact Ed|]]; rewrite ?Ed.
    + split; [eapply file_frame; [exact Hg | apply Hf] | destruct Hmeta as (a & n & ->); reflexivity | rewrite (mf_size _ _ _ Hf), length_dir_bytes by exact Hok; dlia | rewrite Ed; exact Hu].
    + intros k a Hk. pose proof (file_entries_lookup args 2 k a Hk) as He. set (e := new_dirent (2 + Z.of_nat k) (image_name a.1)) in *.
      pose proof (dir_map_in (final_entries args) e Hu) as Hin. unfold de_key in Hin. cbn [e new_dirent de_name de_inum] in Hin. rewrite strncpy_twice in Hin. apply Hin; [|lia].
      apply elem_of_app. left. right. right. eapply list_elem_of_lookup_2, He.
  - intros k a Hk. destruct (Hfs (Datatypes.S k) (arg_bytes a)) as [i Hi]; [change ((arg_bytes <$> args) !! k = Some (arg_bytes a)); rewrite list_lookup_fmap, Hk; reflexivity|]. destruct (bt_file _ _ _ Hb _ _ _ Hi) as [Hmeta Hf].
    exists i. split; [eapply Hfs2, Hi|]. split; [eapply file_frame; [exact Hg | apply Hf]|]. split; [apply (mf_size _ _ _ Hf)|].
    rewrite (mf_size _ _ _ Hf), (bytes_of f i (arg_bytes a)) by (try exact Hf; lia). rewrite Nat2Z.id. apply take_ge. lia.
  - intros j j' i i' c c' Hi Hi' Hc Hc'. destruct (Hfs _ _ Hc) as [i1 H1], (Hfs _ _ Hc') as [i2 H2].
    rewrite (Hfs2 _ _ _ H1) in Hi. rewrite (Hfs2 _ _ _ H2) in Hi'. injection Hi as <-. injection Hi' as <-. apply (bt_apart _ _ _ Hb _ _ _ _ _ _ H1 H2).
  - intros b Hbr. rewrite (shows_used _ _ _ (bt_shows _ _ _ Hb)) by exact Hbr. rewrite Hfb. reflexivity.
Qed.

(** ** Booting from the image *)

Lemma built_ext h f f' fs : (forall n, 0 <= n < 1000 -> f' n = f n) -> (length fs <= 199)%nat -> built h f fs -> built h f' fs.
Proof.
  intros E Hlen [Hs Hnext Hfiles Hapart Hcount Hlow].
  assert (shows h f') as Hs'.
  { destruct Hs as [S1 S2 S3 S4 S5 S6]. split; try assumption; try (rewrite E by lia; exact S4); intros n Hn; [|rewrite E by lia..]; [intros Hne; rewrite E by exact Hn; apply S2; assumption | apply S3, Hn | apply S6, Hn]. }
  assert (forall j i c, fs !! j = Some (i, c) -> mkfile f' i c /\ owned f' i c = owned f i c) as Hsame.
  { intros j i c Hj. destruct (Hfiles j i c Hj) as [_ Hf]. apply (mkfile_other f); [exact Hf | apply (shows_alloc _ _ Hs') | | |].
    - intros b. apply (data_more h h); [exact Hs | exact Hs' | reflexivity].
    - intros b Hb. apply E. pose proof (data_range _ _ (ob_good _ _ _ _ _ _ (fa_blocks _ _ _ _ _ (mf_at _ _ _ Hf)) _ Hb)). lia.
    - rewrite E; [reflexivity|]. pose proof (mf_home _ _ _ Hf). lia. }
  split; try assumption.
  - intros j i c Hj. split; [apply (Hfiles _ _ _ Hj) | apply (Hsame _ _ _ Hj)].
  - intros j j' i c i' c' Hj Hj' Hne b. rewrite (proj2 (Hsame _ _ _ Hj)), (proj2 (Hsame _ _ _ Hj')). eapply Hapart; eassumption.
  - intros b Hb. rewrite E by lia. apply Hlow, Hb.
Qed.

(** The disk with the image. *)
Definition img_disk (h : host) : disk := mk_disk FSSIZE (fun n => nth (Z.to_nat n) (h_img h) zeroes) [].
Lemma img_blocks h f n : image_is h f -> 0 <= n < 1000 -> d_img (img_disk h) n = f n.
Proof. intros [_ Hi] Hn. apply nth_lookup_Some, Hi, Hn. Qed.
Lemma low_super : dec_superblock (low 1) = sb.
Proof. vm_compute. reflexivity. Qed.

Section Boot.
Context `{Ctx} {S : Type} `{CacheLaws S}.

Lemma boot_run h f fs lg0 (s0 : S) h0 : image_is h f -> built h0 f fs -> booted lg0 s0 -> c_disk s0 = img_disk h ->
  exists t, initlog ROOTDEV (mk_ls lg0 s0) = Ret tt t /\ idle t (d_img (img_disk h)) /\ super_ok t /\ lg_size (ls_log t) = LOGSIZE /\
    dec_superblock (d_img (disk_of t) 1) = sb /\ alike_frames disk_frame (frame_of t).
Proof.
  intros Hi Hb [B1 B2 B3 B4 B5 B6] Hd. set (d := img_disk h) in *.
  assert (d_img d 1 = low 1) as E1 by (unfold d; rewrite (img_blocks h f) by (assumption || lia); apply (bt_low _ _ _ Hb); lia).
  assert (d_img d 2 = zeroes) as E2 by (unfold d; rewrite (img_blocks h f) by (assumption || lia); apply (bt_low _ _ _ Hb 2); lia).
  pose proof (recovery_run lg0 s0 (d_img d) B4 B5 B6) as Hrun. rewrite Hd in Hrun. cbv zeta in Hrun. rewrite E1, low_super in Hrun.
  set (lg := mount lg0 sb) in *. destruct Hrun as (blk & s' & ws & E & Hinv & Hh & Hdisk & Hm & _).
  - cbn. unfold FSSIZE. lia.
  - assert (lg_start lg = 2 /\ lg_size lg = 30 /\ d_size d = 1000) as (El & Es & Ez) by (split_and!; reflexivity). unfold geom, LOGSIZE. rewrite El, Es, Ez.
    split; [reflexivity|]. split; [lia|]. split; [lia|]. split; [lia | exact B3].
  - exists []. change (lg_start lg) with 2. rewrite E2. split; [split; [reflexivity | discriminate]|]. split; [split; [vm_compute; discriminate | constructor]|]. reflexivity.
  - set (t := mk_ls (with_head lg 0 blk) s'). assert (d_img (disk_of t) 1 = low 1) as E3.
    { rewrite <- E1. apply (Hm 1). unfold in_area. change (lg_start lg) with 2. lia. }
    assert (d_size (disk_of t) = 1000) as E4 by (unfold disk_of; cbn [t ls_cache]; rewrite Hdisk, disk_writes_size; reflexivity).
    exists t. split; [exact E|]. split; [|split; [|split; [reflexivity|split; [rewrite E3; apply low_super|]]]].
    + split; try assumption; try reflexivity. intros b Hb'%area_false. apply (Hm b Hb').
    + split; rewrite ?E3, ?low_super; reflexivity.
    + split; [reflexivity|]. split; [symmetry; exact E4|]. intros n. cbn [frame_of fr_home disk_frame]. unfold home. rewrite E4. reflexivity.
Qed.
End Boot.

(** C4. mkfs builds a file system that the kernel boots.  For arguments that
    fit main() ends well; after a start of the kernel on a disk with the image
    initlog() finds an empty log, the superblock of mkfs.c and blocks in which
    the root directory, inode 1, has ".", ".." and the names of the arguments
    for inodes 2, 3, ..., each with the bytes that were read of the argument;
    no two of the files share a block, the bit map has exactly the used blocks
    marked, and all invariants of the file system hold that writei(),
    dirlink(), itrunc() and filewrite() rest on. *)
Theorem mkfs_builds `{Ctx} {S} `{CacheLaws S} args (Hfits : fits args) :
  exists h, main args start = Ret tt h /\ disk_ok (img_disk h) /\
    forall lg0 (s0 : S), booted lg0 s0 -> c_disk s0 = img_disk h ->
    exists t f fs, initlog ROOTDEV (mk_ls lg0 s0) = Ret tt t /\ idle t f /\ super_ok t /\ lg_size (ls_log t) = LOGSIZE /\
      dec_superblock (d_img (disk_of t) 1) = sb /\ length fs = Datatypes.S (length args) /\ mounted (frame_of t) f args fs.
Proof.
  destruct (main_run args Hfits) as (h & f & fs & h0 & E & Himg & Hb & Efs & Hfb & _). exists h. split; [exact E|].
  split; [intros n Hn; rewrite (img_blocks h f) by assumption; apply (sh_blk _ _ (bt_shows _ _ _ Hb)), Hn|]. intros lg0 s0 Hboot Hd.
  destruct (boot_run h f fs lg0 s0 h0 Himg Hb Hboot Hd) as (t & Et & Hid & Hsup & Hlg & Hsb & Hal).
  assert (length fs = Datatypes.S (length args)) as Hlen by (rewrite <- (length_fmap snd), Efs; cbn [final_contents length]; rewrite length_fmap; reflexivity).
  exists t, (d_img (img_disk h)), fs.*1. do 5 (split; [assumption|]). split; [rewrite length_fmap; exact Hlen|].
  apply (built_mounted _ h0); [exact Hal | exact Hfits | | exact Efs | exact Hfb].
  apply (built_ext h0 f); [intros n Hn; apply (img_blocks h f); assumption | pose proof (ft_count _ (ft_loads _ Hfits)); lia | exact Hb].
Qed.

Section Witnesses.
#[local] Instance image_ctx : Ctx := {| cpu_id := 0; cur_pid := 1 |}.

Definition demo_args : list argument := [(str "_cat", [[1; 2; 3]; [4]]); (str "README", [])].
Lemma demo_arg a : a ∈ demo_args -> a = (str "_cat", [[1; 2; 3]; [4]]) \/ a = (str "README", []).
Proof. unfold demo_args. rewrite !elem_of_cons. intros [->|[->|Ha%not_elem_of_nil]]; [left; reflexivity | right; reflexivity | contradiction]. Qed.
Lemma demo_fits : fits demo_args.
Proof.
  split; [split | |].
  - intros a [-> | ->]%demo_arg; apply (bool_decide_unpack _); vm_compute; exact I.
  - cbn. lia.
  - intros a [-> | ->]%demo_arg; repeat constructor; discriminate.
  - intros a [-> | ->]%demo_arg; vm_compute; discriminate.
  - vm_compute. discriminate.
  - apply (bool_decide_unpack _). vm_compute. exact I.
  - discriminate.
Qed.
Example mkfs_builds_witness : exists h t, main demo_args start = Ret tt h /\
  initlog ROOTDEV (mk_ls crash_log (crash_bio (img_disk h))) = Ret tt t /\ lg_size (ls_log t) = 30.
Proof.
  destruct (mkfs_builds (S := bio) demo_args demo_fits) as (h & E & Hok & Hboot). destruct (fresh_bio _ Hok) as (F1 & F2 & F3 & F4).
  destruct (Hboot crash_log (crash_bio (img_disk h))) as (t & f & fs & Et & _ & _ & Hl & _); [split; try reflexivity; assumption | reflexivity|].
  exists h, t. split; [exact E|]. split; [exact Et | exact Hl].
Defined.
End Witnesses.
