(* ===== verification/Progs.v ===== *)
(** * The small user programs

    [cat.c], [echo.c], [init.c], [kill.c], [ln.c], [ls.c], [mkdir.c], [rm.c],
    [zombie.c] and [date.c] of [src/homeworks/xv6-public/] as interaction
    trees whose events are the system calls.  [argv[1]], [argv[2]], ... are
    the list [args]; strings are without their NUL.  The proofs are in
    [ProgsProofs.v]. *)
From S2P Require Import Prelude.
From S2P Require Import Ulib.
From S2P Require Import Layout.
From S2P Require Import Fs.
From ITree Require Import ITree.

(** Sequencing of trees: the library's notation and stdpp's [<$>] take the same level. *)
Declare Scope prog_scope.
Delimit Scope prog_scope with prog.
Notation "'let*' x ':=' m 'in' k" := (ITree.bind m (fun x => k)) (at level 10, x pattern, m at level 200, k at level 200) : prog_scope.
Notation "m ;* k" := (ITree.bind m (fun _ => k)) (at level 199, right associativity) : prog_scope.
#[local] Open Scope prog_scope.

(** ** System calls *)

Record rtcdate := mk_rtcdate { r_second : Z; r_minute : Z; r_hour : Z; r_day : Z; r_month : Z; r_year : Z }.

(** A read gives the bytes it has put into the buffer. *)
Inductive sysE : Type -> Type :=
| Open (path : list Z) (mode : Z) : sysE Z
| Close (fd : Z) : sysE Z
| Read (fd n : Z) : sysE (Z * list Z)
| Write (fd : Z) (bytes : list Z) : sysE Z
| Fstat (fd : Z) : sysE (Z * Fs.stat)
| Link (old new : list Z) : sysE Z
| Unlink (path : list Z) : sysE Z
| Mkdir (path : list Z) : sysE Z
| Mknod (path : list Z) (major minor : Z) : sysE Z
| Dup (fd : Z) : sysE Z
| Fork : sysE Z
| Exec (path : list Z) (argv : list (list Z)) : sysE Z
| Wait : sysE Z
| Kill (pid : Z) : sysE Z
| Sleep (n : Z) : sysE Z
| Date : sysE (Z * rtcdate)
| Exit : sysE void
| Fault : sysE void.  (* a store outside of an array *)

#[local] Abbreviation prog := (itree sysE).
Definition stop {A} (e : sysE void) : prog A := let* v := ITree.trigger e in match v : void with end.
Definition exit {A} : prog A := stop Exit.

(** printf() writes byte by byte. *)
Fixpoint puts (fd : Z) (l : list Z) : prog unit :=
  match l with
  | [] => Ret tt
  | c :: l => ITree.trigger (Write fd [c]) ;* puts fd l
  end.
(** The arguments behind the format: a string or an int. *)
Inductive arg : Type := AStr (s : list Z) | AInt (z : Z).
Definition cstr_of (l : list arg) (p : Z) : list Z := match nth (Z.to_nat (p - 1)) l (AInt 0) with AStr s => s | AInt _ => [] end.
Definition ap_of (l : list arg) (k : nat) : Z := match nth k l (AInt 0) with AStr _ => Z.of_nat k + 1 | AInt z => z end.
Definition format (fmt : list Z) (l : list arg) : list Z := Ulib.printf (cstr_of l) fmt (ap_of l).
Definition printf (fd : Z) (fmt : list Z) (l : list arg) : prog unit := puts fd (format fmt l).
Definition NL : list Z := [10].

(** [for(i = 1; i < argc; i++)] *)
Fixpoint for_args (args : list (list Z)) (body : list Z -> prog unit) : prog unit :=
  match args with
  | [] => Ret tt
  | a :: args => body a ;* for_args args body
  end.

(** ** cat.c *)

Definition cat (fd : Z) : prog unit :=
  ITree.iter (fun _ : unit =>
    let* r := ITree.trigger (Read fd 512) in
    let '(n, buf) := r in
    if 0 <? n then
      let* w := ITree.trigger (Write 1 (take (Z.to_nat n) buf)) in
      if w =? n then Ret (inl tt)
      else printf 1 (str "cat: write error" ++ NL) [] ;* exit
    else if n <? 0 then printf 1 (str "cat: read error" ++ NL) [] ;* exit
    else Ret (inr tt)) tt.
Definition cat_file (a : list Z) : prog unit :=
  let* fd := ITree.trigger (Open a 0) in
  if fd <? 0 then printf 1 (str "cat: cannot open %s" ++ NL) [AStr a] ;* exit
  else cat fd ;* ITree.trigger (Close fd) ;* Ret tt.
Definition cat_main (args : list (list Z)) : prog unit :=
  match args with
  | [] => cat 0 ;* exit
  | _ => for_args args cat_file ;* exit
  end.

(** ** echo.c, kill.c, ln.c, mkdir.c, rm.c *)

Fixpoint echo_loop (args : list (list Z)) : prog unit :=
  match args with
  | [] => Ret tt
  | a :: args => printf 1 (str "%s%s") [AStr a; AStr (match args with [] => NL | _ => str " " end)] ;* echo_loop args
  end.
Definition echo_main (args : list (list Z)) : prog unit := echo_loop args ;* exit.

Definition kill_main (args : list (list Z)) : prog unit :=
  match args with
  | [] => printf 2 (str "usage: kill pid..." ++ NL) [] ;* exit
  | _ => for_args args (fun a => ITree.trigger (Kill (atoi a)) ;* Ret tt) ;* exit
  end.

Definition ln_main (args : list (list Z)) : prog unit :=
  match args with
  | [old; new] =>
      let* r := ITree.trigger (Link old new) in
      (if r <? 0 then printf 2 (str "link %s %s: failed" ++ NL) [AStr old; AStr new] else Ret tt) ;*
      exit
  | _ => printf 2 (str "Usage: ln old new" ++ NL) [] ;* exit
  end.

(** The loop ends at the first failure. *)
Fixpoint until_fails (call : list Z -> sysE Z) (msg : list Z) (args : list (list Z)) : prog unit :=
  match args with
  | [] => Ret tt
  | a :: args =>
      let* r := ITree.trigger (call a) in
      if r <? 0 then printf 2 msg [AStr a] else until_fails call msg args
  end.
Definition mkdir_main (args : list (list Z)) : prog unit :=
  match args with
  | [] => printf 2 (str "Usage: mkdir files..." ++ NL) [] ;* exit
  | _ => until_fails Mkdir (str "mkdir: %s failed to create" ++ NL) args ;* exit
  end.
Definition rm_main (args : list (list Z)) : prog unit :=
  match args with
  | [] => printf 2 (str "Usage: rm files..." ++ NL) [] ;* exit
  | _ => until_fails Unlink (str "rm: %s failed to delete" ++ NL) args ;* exit
  end.

(** ** ls.c *)

(** The position behind the last slash, searched from [p] down. *)
Fixpoint last_slash (p : nat) (path : list Z) : nat :=
  if nth p path 0 =? 47 then S p else match p with O => O | S p' => last_slash p' path end.
(** fmtname() with its static [buf]. *)
Definition fmtname (buf path : list Z) : list Z * list Z :=
  let p := drop (last_slash (length path) path) path in
  if (DIRSIZ <=? length p)%nat then (p, buf) else
  let buf := store 0 p buf in
  let buf := store (length p) (replicate (DIRSIZ - length p) 32) buf in
  (until_nul buf, buf).

(** A store into the array [buf] of ls(). *)
Definition poke (off : nat) (bytes buf : list Z) : prog (list Z) :=
  if (off + length bytes <=? length buf)%nat then Ret (store off bytes buf) else stop Fault.

(** stat() of ulib.c *)
Definition stat (path : list Z) (st : Fs.stat) : prog (Z * Fs.stat) :=
  let* fd := ITree.trigger (Open path 0) in
  if fd <? 0 then Ret (-1, st) else
  let* r := ITree.trigger (Fstat fd) in
  ITree.trigger (Close fd) ;*
  Ret r.
Definition ls_line (name : list Z) (st : Fs.stat) : prog unit :=
  printf 1 (str "%s %d %d %d" ++ NL) [AStr name; AInt (st_type st); AInt (st_ino st); AInt (st_size st)].

(** The entries of a directory: [p] is where their names go in [buf], [sbuf]
    is the static array of fmtname(). *)
Definition ls_entry (fd : Z) (p : nat) (s : list Z * list Z * Fs.stat) : prog (list Z * list Z * Fs.stat + list Z) :=
  let '(buf, sbuf, st) := s in
  let* r := ITree.trigger (Read fd 16) in
  let '(n, bytes) := r in
  if n =? 16 then
    let de := dec_dirent bytes in
    if de_inum de =? 0 then Ret (inl (buf, sbuf, st)) else
    let* buf := poke p (de_name de) buf in
    let* buf := poke (p + DIRSIZ) [0] buf in
    let* r := stat (until_nul buf) st in
    let '(e, st) := r in
    if e <? 0 then
      printf 1 (str "ls: cannot stat %s" ++ NL) [AStr (until_nul buf)] ;*
      Ret (inl (buf, sbuf, st))
    else
      let '(name, sbuf) := fmtname sbuf (until_nul buf) in
      ls_line name st ;*
      Ret (inl (buf, sbuf, st))
  else Ret (inr sbuf).
Definition ls_entries (fd : Z) (p : nat) (buf sbuf : list Z) (st : Fs.stat) : prog (list Z) := ITree.iter (ls_entry fd p) (buf, sbuf, st).
(** The switch of ls(); [buf0]: what is on the stack where [buf] lies. *)
Definition ls_switch (buf0 sbuf path : list Z) (fd : Z) (st : Fs.stat) : prog (list Z) :=
  if st_type st =? T_FILE then
    let '(name, sbuf) := fmtname sbuf path in
    ls_line name st ;*
    Ret sbuf
  else if st_type st =? T_DIR then
    if Z.of_nat (length buf0) <? strlen path + 1 + Z.of_nat DIRSIZ + 1 then
      printf 1 (str "ls: path too long" ++ NL) [] ;*
      Ret sbuf
    else
      let* buf := poke 0 (path ++ [0]) buf0 in
      let p := length (until_nul buf) in
      let* buf := poke p [47] buf in
      ls_entries fd (S p) buf sbuf st
  else Ret sbuf.
Definition ls (buf0 sbuf path : list Z) : prog (list Z) :=
  let* fd := ITree.trigger (Open path 0) in
  if fd <? 0 then printf 2 (str "ls: cannot open %s" ++ NL) [AStr path] ;* Ret sbuf else
  let* r := ITree.trigger (Fstat fd) in
  let '(e, st) := r in
  if e <? 0 then
    printf 2 (str "ls: cannot stat %s" ++ NL) [AStr path] ;*
    ITree.trigger (Close fd) ;*
    Ret sbuf
  else
    let* sbuf := ls_switch buf0 sbuf path fd st in
    ITree.trigger (Close fd) ;*
    Ret sbuf.
Fixpoint ls_all (buf0 sbuf : list Z) (args : list (list Z)) : prog unit :=
  match args with
  | [] => Ret tt
  | a :: args => let* sbuf := ls buf0 sbuf a in ls_all buf0 sbuf args
  end.
Definition ls_main (buf0 : list Z) (args : list (list Z)) : prog unit :=
  ls_all buf0 (replicate (DIRSIZ + 1) 0) (match args with [] => [str "."] | _ => args end) ;* exit.

(** ** init.c, zombie.c, date.c *)

Definition wait_for (pid : Z) : prog unit :=
  ITree.iter (fun _ : unit =>
    let* wpid := ITree.trigger Wait in
    if (0 <=? wpid) && negb (wpid =? pid) then printf 1 (str "zombie!" ++ NL) [] ;* Ret (inl tt)
    else Ret (inr tt)) tt.
Definition init_round : prog unit :=
  printf 1 (str "init: starting sh" ++ NL) [] ;*
  let* pid := ITree.trigger Fork in
  if pid <? 0 then printf 1 (str "init: fork failed" ++ NL) [] ;* exit else
  if pid =? 0 then
    ITree.trigger (Exec (str "sh") [str "sh"]) ;*
    printf 1 (str "init: exec sh failed" ++ NL) [] ;*
    exit
  else wait_for pid.
Definition init : prog void :=
  let* fd := ITree.trigger (Open (str "console") 2) in
  (if fd <? 0 then
     ITree.trigger (Mknod (str "console") 1 1) ;*
     ITree.trigger (Open (str "console") 2) ;*
     Ret tt
   else Ret tt) ;*
  ITree.trigger (Dup 0) ;*  (* stdout *)
  ITree.trigger (Dup 0) ;*  (* stderr *)
  ITree.iter (fun _ : unit => init_round ;* Ret (inl tt)) tt.

Definition zombie : prog unit :=
  let* pid := ITree.trigger Fork in
  (if 0 <? pid then ITree.trigger (Sleep 5) ;* Ret tt else Ret tt) ;*
  exit.

Definition date_main : prog unit :=
  let* r := ITree.trigger Date in
  let '(e, r) := r in
  if negb (e =? 0) then printf 2 (str "date failed" ++ NL) [] ;* exit else
  printf 1 (str "%d-%d-%d %d:%d:%d" ++ NL) [AInt (r_year r); AInt (r_month r); AInt (r_day r); AInt (r_hour r); AInt (r_minute r); AInt (r_second r)] ;*
  exit.
