(* ===== verification/ProgsProofs.v ===== *)
(** * cat, ls and init

    The trees of [Progs.v] run on the files that a single process sees
    ([world]): what cat and ls write; init against all answers of the kernel,
    by coinduction. *)
From S2P Require Import Prelude.
From S2P Require Import Ulib.
From S2P Require Import Layout.
From S2P Require Import Fs.
From S2P Require Import Progs.
From ITree Require Import ITree ITreeFacts Events.State Events.StateFacts.
From Paco Require Import paco.
#[local] Open Scope prog_scope.
#[local] Abbreviation cat := Progs.cat.

(** ** The world of a process *)

(** An open file: the answer of fstat(), and what its reads will return, one
    after the other, until they return 0. *)
Record ofile := mk_ofile { of_stat : Z * Fs.stat; of_reads : list (Z * list Z) }.
(** The files by name, the open files behind the descriptors 0 to 2, what has
    been written to descriptors 1 and 2, and the number of bytes that
    descriptor 1 still takes. *)
Record world := mk_world { w_files : gmap (list Z) ofile; w_fds : gmap Z ofile; w_out : list Z; w_err : list Z; w_room : Z }.

(** The end of a run. *)
Inductive haltE : Type -> Type :=
| Exited (w : world) : haltE void
| Faults (w : world) : haltE void.
Definition halted {A} (e : haltE void) : itree haltE A := Vis e (fun v => match v : void with end).

Definition no_stat : Fs.stat := mk_stat 0 0 0 0 0.
(** The lowest free descriptor. *)
Definition lowest_fd (fds : gmap Z ofile) : option Z := snd <$> list_find (fun fd => fds !! fd = None) (seqZ 3 13).
Definition do_open (path : list Z) (w : world) : world * Z :=
  match w_files w !! path, lowest_fd (w_fds w) with
  | Some o, Some fd => (mk_world (w_files w) (<[fd := o]> (w_fds w)) (w_out w) (w_err w) (w_room w), fd)
  | _, _ => (w, -1)
  end.
Definition do_read (fd : Z) (w : world) : world * (Z * list Z) :=
  match w_fds w !! fd with
  | Some (mk_ofile st (r :: rs)) => (mk_world (w_files w) (<[fd := mk_ofile st rs]> (w_fds w)) (w_out w) (w_err w) (w_room w), r)
  | Some (mk_ofile _ []) => (w, (0, []))
  | None => (w, (-1, []))
  end.
Definition do_write (fd : Z) (l : list Z) (w : world) : world * Z :=
  let n := Z.of_nat (length l) in
  if fd =? 1 then
    if n <=? w_room w then (mk_world (w_files w) (w_fds w) (w_out w ++ l) (w_err w) (w_room w - n), n) else (w, -1)
  else if fd =? 2 then (mk_world (w_files w) (w_fds w) (w_out w) (w_err w ++ l) (w_room w), n)
  else (w, -1).
Definition do_close (fd : Z) (w : world) : world * Z :=
  match w_fds w !! fd with
  | Some _ => (mk_world (w_files w) (delete fd (w_fds w)) (w_out w) (w_err w) (w_room w), 0)
  | None => (w, -1)
  end.
Definition do_fstat (fd : Z) (w : world) : world * (Z * Fs.stat) :=
  match w_fds w !! fd with Some o => (w, of_stat o) | None => (w, (-1, no_stat)) end.

(** Calls that change names or processes fail. *)
Definition calls : sysE ~> Monads.stateT world (itree haltE) := fun A e w =>
  match e in sysE A return itree haltE (world * A) with
  | Open path _ => Ret (do_open path w)
  | Close fd => Ret (do_close fd w)
  | Read fd _ => Ret (do_read fd w)
  | Write fd l => Ret (do_write fd l w)
  | Fstat fd => Ret (do_fstat fd w)
  | Exit => halted (Exited w)
  | Fault => halted (Faults w)
  | Date => Ret (w, (-1, mk_rtcdate 0 0 0 0 0 0))
  | Link _ _ | Unlink _ | Mkdir _ | Mknod _ _ _ | Dup _ | Fork | Exec _ _ | Wait | Kill _ | Sleep _ => Ret (w, -1)
  end.
Definition run {A} (t : itree sysE A) (w : world) : itree haltE (world * A) := interp_state calls t w.

Lemma run_bind {A B} (t : itree sysE A) (k : A -> itree sysE B) w : run (ITree.bind t k) w ≅ ITree.bind (run t w) (fun p => run (k (snd p)) (fst p)).
Proof. apply interp_state_bind. Qed.
Lemma run_call {A B} (e : sysE A) (k : A -> itree sysE B) w w' a : calls A e w = Ret (w', a) -> run (ITree.bind (ITree.trigger e) k) w ≈ run (k a) w'.
Proof. intros E. rewrite run_bind. unfold run at 1. rewrite interp_state_trigger, E, bind_ret_l. reflexivity. Qed.
Lemma run_ret {A B} (t : itree sysE A) (k : A -> itree sysE B) w w' a : run t w ≈ Ret (w', a) -> run (ITree.bind t k) w ≈ run (k a) w'.
Proof. intros E. rewrite run_bind, E, bind_ret_l. reflexivity. Qed.
Lemma run_halt {A B} (t : itree sysE A) (k : A -> itree sysE B) w e : run t w ≈ halted e -> run (ITree.bind t k) w ≈ halted e.
Proof.
  intros E. rewrite run_bind, E. unfold halted. rewrite bind_vis. apply eqit_Vis. intros [].
Qed.
Lemma run_exit {A} w : run (exit (A := A)) w ≈ halted (Exited w).
Proof.
  unfold exit, stop. rewrite run_bind. unfold run at 1. rewrite interp_state_trigger. cbn [calls]. unfold halted. rewrite bind_vis. apply eqit_Vis. intros [].
Qed.
Lemma run_pure {A} (a : A) w : run (Ret a) w ≈ Ret (w, a).
Proof. unfold run. rewrite interp_state_ret. reflexivity. Qed.
Lemma run_iter {I A} (f : I -> itree sysE (I + A)) i w : run (ITree.iter f i) w ≈ run (ITree.bind (f i) (fun r => match r with inl i' => ITree.iter f i' | inr a => Ret a end)) w.
Proof.
  unfold run. rewrite unfold_iter. rewrite !interp_state_bind. apply eutt_eq_bind. intros [w' [i'|a]]; cbn [fst snd]; [|reflexivity].
  rewrite interp_state_tau. apply tau_eutt.
Qed.

(** ** Writing *)

(** [l] written to descriptor 1, or 2. *)
Definition wrote (l : list Z) (w : world) : world := mk_world (w_files w) (w_fds w) (w_out w ++ l) (w_err w) (w_room w - Z.of_nat (length l)).
Definition told (l : list Z) (w : world) : world := mk_world (w_files w) (w_fds w) (w_out w) (w_err w ++ l) (w_room w).
Lemma wrote_app l l' w : wrote l' (wrote l w) = wrote (l ++ l') w.
Proof. unfold wrote. cbn. rewrite <- app_assoc, length_app. f_equal. lia. Qed.
Lemma wrote_none w : wrote [] w = w.
Proof. destruct w. unfold wrote. cbn. rewrite app_nil_r. f_equal. lia. Qed.
Lemma told_app l l' w : told l' (told l w) = told (l ++ l') w.
Proof. unfold told. cbn. rewrite <- app_assoc. reflexivity. Qed.

Lemma write_eq l w : Z.of_nat (length l) <= w_room w -> do_write 1 l w = (wrote l w, Z.of_nat (length l)).
Proof. intros Hl. unfold do_write. rewrite (proj2 (Z.leb_le _ _) Hl). reflexivity. Qed.
Lemma puts_run l : forall w, Z.of_nat (length l) <= w_room w -> run (puts 1 l) w ≈ Ret (wrote l w, tt).
Proof.
  induction l as [|c l IH]; intros w Hl; cbn [puts length] in *.
  - rewrite wrote_none. unfold run. rewrite interp_state_ret. reflexivity.
  - rewrite (run_call _ _ _ (wrote [c] w) 1) by (cbn [calls]; rewrite write_eq by (cbn; lia); reflexivity).
    rewrite IH by (cbn; lia). rewrite wrote_app. reflexivity.
Qed.
Lemma tells_run l : forall w, run (puts 2 l) w ≈ Ret (told l w, tt).
Proof.
  induction l as [|c l IH]; intros w; cbn [puts].
  - unfold run. rewrite interp_state_ret. destruct w. unfold told. cbn. rewrite app_nil_r. reflexivity.
  - rewrite (run_call _ _ _ (told [c] w) 1) by reflexivity. rewrite IH, told_app. reflexivity.
Qed.
Lemma printf_run fmt l s w : format fmt l = s -> Z.of_nat (length s) <= w_room w -> run (printf 1 fmt l) w ≈ Ret (wrote s w, tt).
Proof. intros <-. apply puts_run. Qed.

Lemma run_say {B} s fmt l (k : itree sysE B) w : format fmt l = s -> Z.of_nat (length s) <= w_room w -> run (printf 1 fmt l ;* k) w ≈ run k (wrote s w).
Proof. intros E Hl. exact (run_ret _ (fun _ => k) _ _ _ (printf_run fmt l s w E Hl)). Qed.
Lemma run_tell {B} s fmt l (k : itree sysE B) w : format fmt l = s -> run (printf 2 fmt l ;* k) w ≈ run k (told s w).
Proof. intros <-. exact (run_ret _ (fun _ => k) _ _ _ (tells_run (format fmt l) w)). Qed.

Lemma lowest_fd_3 fds : fds !! 3 = None -> lowest_fd fds = Some 3.
Proof. intros E. unfold lowest_fd. change (seqZ 3 13) with (3 :: seqZ 4 12). cbn [list_find]. rewrite decide_True by exact E. reflexivity. Qed.
Lemma lowest_fd_4 fds o : fds !! 3 = Some o -> fds !! 4 = None -> lowest_fd fds = Some 4.
Proof.
  intros E3 E4. unfold lowest_fd. change (seqZ 3 13) with (3 :: 4 :: seqZ 5 11). cbn [list_find].
  rewrite decide_False by congruence. rewrite decide_True by exact E4. reflexivity.
Qed.

(** ** cat *)

(** Reads that all succeed, and the bytes. *)
Definition reads_ok (rs : list (Z * list Z)) : Prop := Forall (fun r => 0 < r.1 /\ r.1 = Z.of_nat (length r.2)) rs.
Definition read_bytes (rs : list (Z * list Z)) : list Z := concat rs.*2.
Definition with_fd (fd : Z) (o : ofile) (w : world) : world := mk_world (w_files w) (<[fd := o]> (w_fds w)) (w_out w) (w_err w) (w_room w).

Lemma with_with fd o o' w : with_fd fd o' (with_fd fd o w) = with_fd fd o' w.
Proof. unfold with_fd. cbn [w_files w_fds w_out w_err w_room]. rewrite insert_insert_eq. reflexivity. Qed.
Lemma with_wrote fd o o' l l' w : wrote l' (with_fd fd o' (wrote l (with_fd fd o w))) = wrote (l ++ l') (with_fd fd o' w).
Proof. unfold wrote, with_fd. cbn [w_files w_fds w_out w_err w_room]. rewrite insert_insert_eq, <- app_assoc, length_app, Nat2Z.inj_add, Z.sub_add_distr. reflexivity. Qed.

Lemma cat_run fd st rs end_ : reads_ok rs -> forall w, w_fds w !! fd = Some (mk_ofile st (rs ++ end_)) -> Z.of_nat (length (read_bytes rs)) <= w_room w ->
  run (cat fd) w ≈ run (cat fd) (wrote (read_bytes rs) (with_fd fd (mk_ofile st end_) w)).
Proof.
  induction 1 as [|[n bytes] rs [Hpos Hn] Hrs IH]; intros w Hfd Hroom; cbn [fst snd] in *.
  - cbn [app] in Hfd. change (read_bytes []) with (@nil Z). rewrite wrote_none. unfold with_fd. rewrite insert_id by exact Hfd. destruct w. reflexivity.
  - change (read_bytes ((n, bytes) :: rs)) with (bytes ++ read_bytes rs) in *. rewrite length_app in Hroom. cbn [app] in Hfd. set (w1 := with_fd fd (mk_ofile st (rs ++ end_)) w).
    unfold cat at 1. rewrite run_iter, run_bind. rewrite (run_call _ _ _ w1 (n, bytes)) by (cbn [calls]; unfold do_read; rewrite Hfd; reflexivity).
    cbn beta iota. rewrite (proj2 (Z.ltb_lt 0 n)) by exact Hpos. rewrite take_ge by lia.
    rewrite (run_call _ _ _ (wrote bytes w1) n) by (cbn [calls]; rewrite write_eq by (cbn; lia); rewrite Hn; reflexivity).
    rewrite Z.eqb_refl. unfold run at 1. rewrite interp_state_ret, bind_ret_l. cbn [fst snd]. fold (cat fd). rewrite IH.
    + unfold w1. rewrite with_wrote. reflexivity.
    + apply lookup_insert_eq.
    + cbn. lia.
Qed.
Lemma cat_end fd st w : w_fds w !! fd = Some (mk_ofile st []) -> run (cat fd) w ≈ Ret (w, tt).
Proof.
  intros Hfd. unfold cat. rewrite run_iter, run_bind. rewrite (run_call _ _ _ w (0, [])) by (cbn [calls]; unfold do_read; rewrite Hfd; reflexivity).
  cbn beta iota. change (0 <? 0) with false. cbv iota. rewrite run_pure, bind_ret_l. apply run_pure.
Qed.
(** A read that fails. *)
Lemma cat_error fd st n bytes rest w : n < 0 -> w_fds w !! fd = Some (mk_ofile st ((n, bytes) :: rest)) -> 16 <= w_room w ->
  exists w', run (cat fd) w ≈ halted (Exited w') /\ w_out w' = w_out w ++ str "cat: read error" ++ NL /\ w_err w' = w_err w.
Proof.
  intros Hn Hfd Hroom. set (w1 := with_fd fd (mk_ofile st rest) w). exists (wrote (str "cat: read error" ++ NL) w1). split; [|split; reflexivity].
  unfold cat. rewrite run_iter, run_bind. rewrite (run_call _ _ _ w1 (n, bytes)) by (cbn [calls]; unfold do_read; rewrite Hfd; reflexivity).
  cbn beta iota. rewrite (proj2 (Z.ltb_ge 0 n)), (proj2 (Z.ltb_lt n 0)) by lia. 
  rewrite (run_say (str "cat: read error" ++ NL)), run_exit by (reflexivity || exact Hroom). unfold halted. rewrite bind_vis. apply eqit_Vis. intros [].
Qed.

(** What cat writes for the files named by its arguments: their bytes, up to
    the first that it cannot open or read. *)
Inductive cat_shows (files : gmap (list Z) ofile) : list (list Z) -> list Z -> Prop :=
| shows_end : cat_shows files [] []
| shows_file a o args out : files !! a = Some o -> reads_ok (of_reads o) -> cat_shows files args out ->
    cat_shows files (a :: args) (read_bytes (of_reads o) ++ out)
| shows_missing a args : files !! a = None -> cat_shows files (a :: args) (str "cat: cannot open " ++ a ++ NL)
| shows_broken a o args rs n x rest : files !! a = Some o -> of_reads o = rs ++ (n, x) :: rest -> reads_ok rs -> n < 0 ->
    cat_shows files (a :: args) (read_bytes rs ++ str "cat: read error" ++ NL).

Lemma open_run {A} name o (k : Z -> itree sysE A) w : w_fds w !! 3 = None -> w_files w !! name = Some o ->
  run (let* fd := ITree.trigger (Open name 0) in k fd) w ≈ run (k 3) (with_fd 3 o w).
Proof. intros H3 Ho. apply run_call. cbn [calls]. unfold do_open. rewrite Ho, lowest_fd_3 by exact H3. reflexivity. Qed.
Lemma close_run {A} fd o (k : itree sysE A) w : w_fds w !! fd = None -> run (ITree.trigger (Close fd) ;* k) (with_fd fd o w) ≈ run k w.
Proof.
  intros Hfd. apply (run_call _ (fun _ => k) _ _ 0). cbn [calls]. unfold do_close. cbn [w_fds with_fd]. rewrite lookup_insert_eq.
  do 2 f_equal. cbn. rewrite delete_insert_id by exact Hfd. destruct w. reflexivity.
Qed.
Lemma cat_file_run name o w : w_fds w !! 3 = None -> w_files w !! name = Some o -> reads_ok (of_reads o) -> Z.of_nat (length (read_bytes (of_reads o))) <= w_room w ->
  run (cat_file name) w ≈ Ret (wrote (read_bytes (of_reads o)) w, tt).
Proof.
  intros H3 Ho Hrs Hroom. destruct o as [st rs]. cbn [of_reads] in *. unfold cat_file. rewrite (open_run _ _ _ _ H3 Ho).
  change (3 <? 0) with false. cbv iota. rewrite (run_ret _ _ _ (with_fd 3 (mk_ofile st []) (wrote (read_bytes rs) w)) tt).
  - rewrite close_run by exact H3. apply run_pure.
  - rewrite (cat_run 3 st rs [] Hrs); [|cbn; rewrite app_nil_r; apply lookup_insert_eq | exact Hroom].
    rewrite with_with. apply (cat_end 3 st). apply lookup_insert_eq.
Qed.
Lemma cat_file_stops name out w : (exists rest, cat_shows (w_files w) (name :: rest) out) -> Z.of_nat (length out) <= w_room w -> w_fds w !! 3 = None ->
  (exists o, w_files w !! name = Some o /\ reads_ok (of_reads o)) \/
  exists w', run (cat_file name) w ≈ halted (Exited w') /\ w_out w' = w_out w ++ out /\ w_err w' = w_err w.
Proof.
  intros [args Hs] Hroom H3. inversion Hs as [|a o args' out' Ho Hrs|a args' Ho|a o args' rs n x rest Ho Er Hrs Hn]; subst; clear Hs.
  - left. eauto.
  - right. exists (wrote (str "cat: cannot open " ++ name ++ NL) w). split; [|split; reflexivity]. unfold cat_file.
    rewrite (run_call _ _ _ w (-1)) by (cbn [calls]; unfold do_open; rewrite Ho; reflexivity). change (-1 <? 0) with true. cbv iota.
    rewrite (run_say (str "cat: cannot open " ++ name ++ NL)), run_exit by (reflexivity || exact Hroom). reflexivity.
  - right. destruct o as [st rs0]. cbn [of_reads] in Er. subst rs0. rewrite length_app in Hroom. set (w1 := wrote (read_bytes rs) (with_fd 3 (mk_ofile st ((n, x) :: rest)) w)).
    destruct (cat_error 3 st n x rest w1 Hn) as (w' & E & Eo & Ee); [apply lookup_insert_eq | cbn in *; lia|].
    exists w'. split; [|split; [rewrite Eo; cbn; rewrite <- app_assoc; reflexivity | rewrite Ee; reflexivity]]. unfold cat_file. rewrite (open_run _ _ _ _ H3 Ho).
    change (3 <? 0) with false. cbv iota. apply run_halt. rewrite (cat_run 3 st rs ((n, x) :: rest) Hrs) by (try apply lookup_insert_eq; cbn; lia). rewrite with_with. exact E.
Qed.
Lemma cat_args files args out : cat_shows files args out -> forall w, w_files w = files -> w_fds w !! 3 = None -> Z.of_nat (length out) <= w_room w ->
  exists w', run (for_args args cat_file ;* exit (A := unit)) w ≈ halted (Exited w') /\ w_out w' = w_out w ++ out /\ w_err w' = w_err w.
Proof.
  induction 1 as [|a o args out Ho Hrs Hs IH|a args Ho|a o args rs n x rest Ho Er Hrs Hn]; intros w Hw H3 Hroom.
  - exists w. rewrite app_nil_r. split; [|auto]. cbn [for_args]. rewrite run_bind, run_pure, bind_ret_l. apply run_exit.
  - rewrite length_app in Hroom. destruct (IH (wrote (read_bytes (of_reads o)) w) Hw H3) as (w' & E & Eo & Ee); [cbn; lia|].
    exists w'. split; [|split; [rewrite Eo; cbn; rewrite <- app_assoc; reflexivity | exact Ee]]. cbn [for_args].
    rewrite <- E, !run_bind. rewrite (cat_file_run a o w H3) by (try rewrite Hw; try assumption; lia). rewrite bind_ret_l. cbn [fst snd]. reflexivity.
  - assert (cat_shows (w_files w) (a :: args) (str "cat: cannot open " ++ a ++ NL)) as Hs by (constructor; rewrite Hw; exact Ho).
    destruct (cat_file_stops a _ w (ex_intro _ args Hs) Hroom H3) as [(o & Ho' & _)|(w' & E & Eo & Ee)]; [congruence|].
    exists w'. split; [|auto]. cbn [for_args]. apply run_halt, run_halt, E.
  - assert (cat_shows (w_files w) (a :: args) (read_bytes rs ++ str "cat: read error" ++ NL)) as Hs by (econstructor; [rewrite Hw; exact Ho | exact Er | exact Hrs | exact Hn]).
    destruct (cat_file_stops a _ w (ex_intro _ args Hs) Hroom H3) as [(o' & Ho' & Hr)|(w' & E & Eo & Ee)].
    + rewrite Hw, Ho in Ho'. injection Ho' as <-. unfold reads_ok in Hr. rewrite Er in Hr. apply Forall_app in Hr as [_ Hr]. apply Forall_cons in Hr as [[Hp _] _]. cbn in Hp. lia.
    + exists w'. split; [|auto]. cbn [for_args]. apply run_halt, run_halt, E.
Qed.

(** cat writes the bytes of the files that its arguments name, in order
    and all of them whatever the sizes of the reads, to its output and nothing
    else; at the first file that it cannot open or cannot read any further it
    says so behind the bytes it has written, and ends. *)
Theorem cat_copies w args out (Hargs : args <> []) (Hs : cat_shows (w_files w) args out) (H3 : w_fds w !! 3 = None) (Hroom : Z.of_nat (length out) <= w_room w) :
  exists w', run (cat_main args) w ≈ halted (Exited w') /\ w_out w' = w_out w ++ out /\ w_err w' = w_err w.
Proof. destruct args as [|a args]; [contradiction|]. apply (cat_args (w_files w)); auto. Qed.

(** ** ls *)

(** The last component of a path, filled up with blanks to 14 bytes. *)
Definition base (path : list Z) : list Z := drop (last_slash (length path) path) path.
Definition pad (name : list Z) : list Z := name ++ replicate (DIRSIZ - length name) 32.
Definition line_of (name : list Z) (st : Fs.stat) : list Z :=
  pad name ++ [32] ++ printint (s32 (st_type st)) 10 true ++ [32] ++ printint (s32 (st_ino st)) 10 true ++ [32] ++ printint (s32 (st_size st)) 10 true ++ NL.
Definition static_ok (sbuf : list Z) : Prop := length sbuf = 15%nat /\ nth 14 sbuf 0 = 0.

Lemma until_nul_full s rest : 0 ∉ s -> until_nul (s ++ 0 :: rest) = s.
Proof.
  induction s as [|c s IH]; intros Hs; [reflexivity|]. apply not_elem_of_cons in Hs as [Hc Hs]. cbn. rewrite (proj2 (Z.eqb_neq c 0)) by congruence. rewrite IH by exact Hs. reflexivity.
Qed.
Lemma last_slash_here p path : nth p path 0 = 47 -> last_slash p path = S p.
Proof. intros E. destruct p; cbn [last_slash]; rewrite E; reflexivity. Qed.
Lemma last_slash_down p path : nth (S p) path 0 <> 47 -> last_slash (S p) path = last_slash p path.
Proof. intros E. cbn [last_slash]. rewrite (proj2 (Z.eqb_neq _ _) E). reflexivity. Qed.
(** The base of directory/name. *)
Lemma base_join dir name : 47 ∉ name -> base (dir ++ 47 :: name) = name.
Proof.
  intros Hn. unfold base. assert (last_slash (length (dir ++ 47 :: name)) (dir ++ 47 :: name) = S (length dir)) as ->.
  - set (path := dir ++ 47 :: name). assert (forall k, (k <= S (length name))%nat -> last_slash (length dir + k) path = S (length dir)) as H.
    { induction k as [|k IH]; intros Hk.
      - rewrite Nat.add_0_r. apply last_slash_here. unfold path. rewrite app_nth2, Nat.sub_diag by lia. reflexivity.
      - rewrite Nat.add_succ_r, last_slash_down; [apply IH; lia|]. unfold path. rewrite app_nth2 by lia. replace (S (length dir + k) - length dir)%nat with (S k) by lia. cbn [nth].
        destruct (decide (k < length name)%nat) as [Hlt|Hge]; [|rewrite nth_overflow by lia; discriminate].
        intros E. apply Hn. rewrite <- E. apply list_elem_of_In, nth_In. exact Hlt. }
    unfold path at 1. rewrite length_app. apply H. reflexivity.
  - replace (S (length dir)) with (length dir + 1)%nat by lia. rewrite <- drop_drop, drop_app_length. reflexivity.
Qed.

Lemma store_exact off new b : (off + length new <= length b)%nat -> store off new b = take off b ++ new ++ drop (off + length new) b.
Proof.
  revert off. induction new as [|x new IH]; intros off Hl; cbn [length app] in *.
  - rewrite Nat.add_0_r, take_drop. reflexivity.
  - change (store off (x :: new) b) with (<[off := x]> (store (S off) new b)). rewrite insert_take_drop by (rewrite length_store; lia). rewrite IH by lia.
    rewrite take_app_le, take_take, Nat.min_l by (rewrite ?length_take; lia). rewrite drop_app_length' by (rewrite length_take; lia).
    replace (S off + length new)%nat with (off + S (length new))%nat by lia. reflexivity.
Qed.

Lemma fmtname_eq sbuf path : static_ok sbuf -> 0 ∉ path -> exists sbuf', fmtname sbuf path = (pad (base path), sbuf') /\ static_ok sbuf'.
Proof.
  intros [Hl Hz] Hp. unfold fmtname. fold (base path). set (b := base path).
  assert (0 ∉ b) as Hb by (intros H; apply Hp; unfold b, base in H; eapply elem_of_submseteq; [exact H | apply submseteq_drop]).
  unfold DIRSIZ. destruct (Nat.leb_spec 14 (length b)) as [Hge|Hlt].
  - exists sbuf. split; [|split; assumption]. unfold pad, DIRSIZ. replace (14 - length b)%nat with 0%nat by lia. rewrite app_nil_r. reflexivity.
  - assert (exists x, sbuf = take 14 sbuf ++ [x] /\ x = 0) as (x & Es & ->).
    { destruct (lookup_lt_is_Some_2 sbuf 14) as [x Ex]; [lia|]. exists x. split; [rewrite <- (take_S_r _ _ _ Ex), take_ge by lia; reflexivity|]. rewrite <- Hz. symmetry. apply nth_lookup_Some, Ex. }
    set (s1 := store 0 b sbuf). assert (length s1 = 15%nat) as Hl1 by (unfold s1; rewrite length_store; exact Hl).
    assert (store (length b) (replicate (14 - length b) 32) s1 = pad b ++ [0]) as E2.
    { rewrite store_exact by (rewrite length_replicate; lia). assert (s1 = b ++ drop (length b) sbuf) as -> by (unfold s1; rewrite store_exact by lia; reflexivity). rewrite take_app_length, length_replicate.
      replace (length b + (14 - length b))%nat with 14%nat by lia. unfold pad, DIRSIZ. rewrite <- app_assoc. do 2 f_equal. rewrite drop_app_ge, drop_drop by lia.
      replace (length b + (14 - length b))%nat with 14%nat by lia. rewrite Es, drop_app_length' by (rewrite length_take; lia). reflexivity. }
    exists (pad b ++ [0]). rewrite E2. split; [rewrite until_nul_full; [reflexivity|]|].
    + intros [H|H%elem_of_replicate]%elem_of_app; [exact (Hb H) | destruct H as [H _]; discriminate].
    + split; [rewrite length_app; unfold pad; rewrite length_app, length_replicate; unfold DIRSIZ; cbn; lia|].
      rewrite app_nth2 by (unfold pad; rewrite length_app, length_replicate; unfold DIRSIZ; lia).
      unfold pad. rewrite length_app, length_replicate. unfold DIRSIZ. replace (14 - _)%nat with 0%nat by lia. reflexivity.
Qed.

Lemma until_nul_pre a b : 0 ∉ a -> until_nul (a ++ b) = a ++ until_nul b.
Proof.
  induction a as [|c a IH]; intros Ha; [reflexivity|]. apply not_elem_of_cons in Ha as [Hc Ha]. cbn. rewrite (proj2 (Z.eqb_neq c 0)), IH by (congruence || exact Ha). reflexivity.
Qed.
Lemma until_nul_end a rest : until_nul (a ++ 0 :: rest) = until_nul a.
Proof. induction a as [|c a IH]; [reflexivity|]. cbn. rewrite IH. reflexivity. Qed.
Lemma until_nul_no s : 0 ∉ until_nul s.
Proof.
  induction s as [|c s IH]; [apply not_elem_of_nil|]. cbn. destruct (Z.eqb_spec c 0) as [->|Hc]; [apply not_elem_of_nil|]. apply not_elem_of_cons. split; [congruence | exact IH].
Qed.
Lemma until_nul_in c s : c ∈ until_nul s -> c ∈ s.
Proof.
  induction s as [|x s IH]; [auto|]. cbn. destruct (x =? 0); [intros H; apply not_elem_of_nil in H; contradiction|].
  intros [->|H]%elem_of_cons; [left | right; apply IH, H].
Qed.

(** The path of an entry, and what ls writes for it. *)
Definition entry_path (dir : list Z) (e : dirent) : list Z := dir ++ 47 :: until_nul (de_name e).
Definition no_stat_text (path : list Z) : list Z := str "ls: cannot stat " ++ path ++ NL.
Definition entry_text (files : gmap (list Z) ofile) (dir : list Z) (e : dirent) : list Z :=
  match files !! entry_path dir e with
  | Some o => if (of_stat o).1 <? 0 then no_stat_text (entry_path dir e) else line_of (until_nul (de_name e)) (of_stat o).2
  | None => no_stat_text (entry_path dir e)
  end.
Definition dir_text (files : gmap (list Z) ofile) (dir : list Z) (es : list dirent) : list Z :=
  concat (entry_text files dir <$> filter (fun e => de_inum e <> 0) es).
(** An entry as the kernel writes it: no slash in the name. *)
Definition entry_good (e : dirent) : Prop := dirent_ok e /\ 47 ∉ until_nul (de_name e).

Lemma stat_run full st0 w o3 : w_fds w !! 3 = Some o3 -> w_fds w !! 4 = None ->
  run (stat full st0) w ≈ Ret (w, match w_files w !! full with Some o => of_stat o | None => (-1, st0) end).
Proof.
  intros H3 H4. unfold stat. destruct (w_files w !! full) as [o|] eqn:Eo.
  - rewrite (run_call _ _ _ (with_fd 4 o w) 4) by (cbn [calls]; unfold do_open; rewrite Eo, (lowest_fd_4 _ _ H3 H4); reflexivity).
    change (4 <? 0) with false. cbv iota.
    rewrite (run_call _ _ _ (with_fd 4 o w) (of_stat o)) by (cbn [calls]; unfold do_fstat; cbn [w_fds with_fd]; rewrite lookup_insert_eq; reflexivity).
    rewrite close_run by exact H4. apply run_pure.
  - rewrite (run_call _ _ _ w (-1)) by (cbn [calls]; unfold do_open; rewrite Eo; reflexivity). change (-1 <? 0) with true. cbv iota. apply run_pure.
Qed.
Lemma poke_run {A} off bytes buf (k : list Z -> itree sysE A) w : (off + length bytes <= length buf)%nat -> run (let* b := poke off bytes buf in k b) w ≈ run (k (store off bytes buf)) w.
Proof.
  intros Hl. unfold poke. rewrite (proj2 (Nat.leb_le _ _) Hl). apply run_ret, run_pure.
Qed.
Lemma line_run {A} buf path st (k : list Z -> itree sysE A) w : static_ok buf -> 0 ∉ path -> Z.of_nat (length (line_of (base path) st)) <= w_room w ->
  exists buf', static_ok buf' /\ run (let '(name, sbuf) := fmtname buf path in ls_line name st ;* k sbuf) w ≈ run (k buf') (wrote (line_of (base path) st) w).
Proof.
  intros Hb Hp Hroom. destruct (fmtname_eq buf path Hb Hp) as (buf' & E & Hb'). exists buf'. split; [exact Hb'|]. rewrite E. apply run_say; [reflexivity | exact Hroom].
Qed.

(** The array after the name of [e] has been put behind the slash. *)
Lemma name_stored dir x e : length (de_name e) = DIRSIZ -> hd 0 x = 47 -> 0 ∉ dir ->
  let b := store (S (length dir) + DIRSIZ) [0] (store (S (length dir)) (de_name e) (dir ++ x)) in
  (length dir + 16 <= length (dir ++ x))%nat -> exists x', b = dir ++ 47 :: x' /\ length b = length (dir ++ x) /\ until_nul b = entry_path dir e.
Proof.
  intros Hn Hx Hdir b Hl. destruct x as [|y x]; [discriminate|]. cbn in Hx. subst y. rewrite length_app in Hl. cbn [length] in Hl. unfold DIRSIZ in *.
  assert (store (S (length dir)) (de_name e) (dir ++ 47 :: x) = (dir ++ 47 :: de_name e) ++ drop 14 x) as E1.
  { rewrite store_exact by (rewrite length_app; cbn; lia). rewrite Hn. replace (dir ++ 47 :: x) with ((dir ++ [47]) ++ x) by (rewrite <- app_assoc; reflexivity).
    rewrite take_app_length', drop_app_ge by (rewrite length_app; cbn; lia). rewrite length_app. cbn [length]. replace (S (length dir) + 14 - (length dir + 1))%nat with 14%nat by lia. rewrite <- !app_assoc. reflexivity. }
  assert (b = (dir ++ 47 :: de_name e) ++ 0 :: drop 15 x) as E2.
  { unfold b. rewrite E1. rewrite store_exact by (rewrite !length_app, length_drop; cbn; lia). rewrite take_app_length' by (rewrite length_app; cbn; lia).
    rewrite drop_app_ge by (rewrite length_app; cbn; lia). rewrite drop_drop, length_app. cbn [length app]. do 3 f_equal. lia. }
  exists (de_name e ++ 0 :: drop 15 x). split; [rewrite E2, <- app_assoc; reflexivity|]. split; [unfold b; rewrite !length_store; reflexivity|].
  rewrite E2, until_nul_end. unfold entry_path. rewrite until_nul_pre by exact Hdir. reflexivity.
Qed.

Definition entry_reads (es : list dirent) : list (Z * list Z) := (fun e => (16, enc_dirent e)) <$> es.
Lemma ls_entry_run dir st e es w x sbuf st0 : let w1 := with_fd 3 (mk_ofile st (entry_reads es)) w in
  0 ∉ dir -> entry_good e -> de_inum e <> 0 -> static_ok sbuf -> hd 0 x = 47 -> (length dir + 16 <= length (dir ++ x))%nat ->
  w_fds w !! 3 = Some (mk_ofile st (entry_reads (e :: es))) -> w_fds w !! 4 = None -> Z.of_nat (length (entry_text (w_files w) dir e)) <= w_room w ->
  exists sbuf' st' x', static_ok sbuf' /\ hd 0 x' = 47 /\ length (dir ++ x') = length (dir ++ x) /\
    run (ls_entry 3 (S (length dir)) (dir ++ x, sbuf, st0)) w ≈ Ret (wrote (entry_text (w_files w) dir e) w1, inl (dir ++ x', sbuf', st')).
Proof.
  intros w1 Hdir [[Hin Hn] Hslash] Hne Hsb Hx Hl H3 H4 Hroom. destruct (name_stored dir x e Hn Hx Hdir Hl) as (x' & Eb & Elen & Eu). set (b := store _ [0] _) in *.
  assert (w_fds w1 !! 3 = Some (mk_ofile st (entry_reads es))) as H31 by apply lookup_insert_eq.
  assert (w_fds w1 !! 4 = None) as H41 by (cbn; rewrite lookup_insert_ne by discriminate; exact H4).
  assert (0 ∉ entry_path dir e) as Hpath by (rewrite <- Eu; apply until_nul_no).
  assert (base (entry_path dir e) = until_nul (de_name e)) as Ebase by (apply base_join, Hslash).
  assert (forall sbuf' st' out, static_ok sbuf' -> run (ls_entry 3 (S (length dir)) (dir ++ x, sbuf, st0)) w ≈ run (Ret (inl (b, sbuf', st'))) (wrote out w1) ->
    out = entry_text (w_files w) dir e -> exists sbuf' st' x', static_ok sbuf' /\ hd 0 x' = 47 /\ length (dir ++ x') = length (dir ++ x) /\
    run (ls_entry 3 (S (length dir)) (dir ++ x, sbuf, st0)) w ≈ Ret (wrote (entry_text (w_files w) dir e) w1, inl (dir ++ x', sbuf', st'))) as Hend.
  { intros sbuf' st' out Hs' E <-. exists sbuf', st', (47 :: x'). split; [exact Hs'|]. split; [reflexivity|]. rewrite <- Eb. split; [exact Elen|]. rewrite E, run_pure. reflexivity. }
  assert (run (ls_entry 3 (S (length dir)) (dir ++ x, sbuf, st0)) w ≈
    run (let '(e, st) := match w_files w !! entry_path dir e with Some o => of_stat o | None => (-1, st0) end in
      if e <? 0 then printf 1 (str "ls: cannot stat %s" ++ NL) [AStr (until_nul b)] ;* Ret (inl (b, sbuf, st))
      else let '(name, sbuf) := fmtname sbuf (until_nul b) in ls_line name st ;* Ret (inl (b, sbuf, st))) w1) as E.
  { unfold ls_entry. rewrite (run_call _ _ _ w1 (16, enc_dirent e)) by (cbn [calls]; unfold do_read; rewrite H3; reflexivity).
    change (16 =? 16) with true. cbv iota. rewrite dec_enc_dirent by (split; assumption). rewrite (proj2 (Z.eqb_neq _ 0) Hne).
    rewrite poke_run by (rewrite Hn; unfold DIRSIZ; lia). rewrite poke_run by (rewrite length_store; unfold DIRSIZ; cbn; lia). fold b.
    rewrite (run_ret _ _ _ _ _ (stat_run (until_nul b) st0 w1 _ H31 H41)). rewrite Eu. reflexivity. }
  unfold entry_text in *. rewrite Eu in E. destruct (w_files w !! entry_path dir e) as [[[er st1] rs]|] eqn:Eo; cbn [of_stat fst snd] in *.
  - destruct (er <? 0) eqn:Eer.
    + rewrite run_say in E by (reflexivity || exact Hroom). apply (Hend sbuf st1 _ Hsb E). reflexivity.
    + rewrite <- Ebase in Hroom. destruct (line_run sbuf (entry_path dir e) st1 (fun sb => Ret (inl (b, sb, st1) : list Z * list Z * Fs.stat + list Z)) w1 Hsb Hpath Hroom) as (sbuf' & Hs' & El).
      rewrite El in E. apply (Hend sbuf' st1 _ Hs' E). rewrite Ebase. reflexivity.
  - change (-1 <? 0) with true in E. cbv iota in E. rewrite run_say in E by (reflexivity || exact Hroom). apply (Hend sbuf st0 _ Hsb E). reflexivity.
Qed.
Lemma entries_step p s w : run (ITree.iter (ls_entry 3 p) s) w ≈ ITree.bind (run (ls_entry 3 p s) w) (fun q => match snd q with inl s' => run (ITree.iter (ls_entry 3 p) s') (fst q) | inr a => run (Ret a) (fst q) end).
Proof. rewrite run_iter, run_bind. apply eutt_eq_bind. intros [w' [s'|a]]; reflexivity. Qed.
Lemma entries_run dir st es : 0 ∉ dir -> Forall entry_good es -> forall w x sbuf st0, static_ok sbuf -> hd 0 x = 47 -> (length dir + 16 <= length (dir ++ x))%nat ->
  w_fds w !! 3 = Some (mk_ofile st (entry_reads es)) -> w_fds w !! 4 = None -> Z.of_nat (length (dir_text (w_files w) dir es)) <= w_room w ->
  exists sbuf', static_ok sbuf' /\ run (ls_entries 3 (S (length dir)) (dir ++ x) sbuf st0) w ≈ Ret (wrote (dir_text (w_files w) dir es) (with_fd 3 (mk_ofile st []) w), sbuf').
Proof.
  intros Hdir. induction 1 as [|e es He Hes IH]; intros w x sbuf st0 Hsb Hx Hl H3 H4 Hroom; unfold ls_entries in *.
  - exists sbuf. split; [exact Hsb|]. change (dir_text (w_files w) dir []) with (@nil Z). rewrite wrote_none. unfold with_fd. rewrite insert_id by exact H3.
    rewrite entries_step. unfold ls_entry at 1. rewrite (run_call _ _ _ w (0, [])) by (cbn [calls]; unfold do_read; rewrite H3; reflexivity).
    change (0 =? 16) with false. cbv iota. rewrite run_pure, bind_ret_l. cbn [fst snd]. rewrite run_pure. destruct w. reflexivity.
  - set (w1 := with_fd 3 (mk_ofile st (entry_reads es)) w). unfold dir_text in Hroom |- *. rewrite filter_cons in Hroom |- *.
    assert (forall sbuf' st1 x' out, static_ok sbuf' -> hd 0 x' = 47 -> length (dir ++ x') = length (dir ++ x) -> Z.of_nat (length out) + Z.of_nat (length (dir_text (w_files w) dir es)) <= w_room w ->
      run (ls_entry 3 (S (length dir)) (dir ++ x, sbuf, st0)) w ≈ Ret (wrote out w1, inl (dir ++ x', sbuf', st1)) ->
      exists sbuf2, static_ok sbuf2 /\ run (ITree.iter (ls_entry 3 (S (length dir))) (dir ++ x, sbuf, st0)) w ≈ Ret (wrote (out ++ dir_text (w_files w) dir es) (with_fd 3 (mk_ofile st []) w), sbuf2)) as Hrest.
    { intros sbuf' st1 x' out Hs' Hx' Hl' Hr' E. destruct (IH (wrote out w1) x' sbuf' st1 Hs' Hx') as (sbuf2 & Hs2 & E2).
      - rewrite Hl'. exact Hl.
      - apply lookup_insert_eq.
      - cbn. rewrite lookup_insert_ne by discriminate. exact H4.
      - cbn. lia.
      - exists sbuf2. split; [exact Hs2|]. rewrite entries_step, E, bind_ret_l. cbn [fst snd]. rewrite E2. cbn [w_files wrote w1 with_fd]. unfold w1. rewrite with_wrote. reflexivity. }
    destruct (decide (de_inum e <> 0)) as [Hne|Hz].
    + cbn [fmap list_fmap concat] in Hroom |- *. rewrite length_app in Hroom. fold (dir_text (w_files w) dir es) in Hroom |- *.
      destruct (ls_entry_run dir st e es w x sbuf st0 Hdir He Hne Hsb Hx Hl H3 H4 ltac:(lia)) as (sbuf' & st' & x' & Hs' & Hx' & Hl' & E).
      apply (Hrest sbuf' st' x' (entry_text (w_files w) dir e) Hs' Hx' Hl'); [lia | exact E].
    + fold (dir_text (w_files w) dir es) in Hroom |- *. apply (Hrest sbuf st0 x [] Hsb Hx eq_refl ltac:(cbn; lia)). rewrite wrote_none.
      unfold ls_entry. rewrite (run_call _ _ _ w1 (16, enc_dirent e)) by (cbn [calls]; unfold do_read; rewrite H3; reflexivity).
      change (16 =? 16) with true. cbv iota. rewrite dec_enc_dirent by apply He. rewrite (proj2 (Z.eqb_eq _ 0)) by (destruct (decide (de_inum e = 0)); [assumption | contradiction]). apply run_pure.
Qed.

(** What ls writes for one of its arguments, to its output and to its error
    output. *)
Inductive lists (files : gmap (list Z) ofile) (a : list Z) : list Z -> list Z -> Prop :=
| lists_missing : files !! a = None -> lists files a [] (str "ls: cannot open " ++ a ++ NL)
| lists_no_stat o : files !! a = Some o -> (of_stat o).1 < 0 -> lists files a [] (no_stat_text a)
| lists_file o : files !! a = Some o -> 0 <= (of_stat o).1 -> st_type (of_stat o).2 = T_FILE -> 0 ∉ a -> lists files a (line_of (base a) (of_stat o).2) []
| lists_dir o es : files !! a = Some o -> 0 <= (of_stat o).1 -> st_type (of_stat o).2 = T_DIR -> 0 ∉ a -> (length a + 16 <= 512)%nat ->
    of_reads o = entry_reads es -> Forall entry_good es -> lists files a (dir_text files a es) []
| lists_long o : files !! a = Some o -> 0 <= (of_stat o).1 -> st_type (of_stat o).2 = T_DIR -> (512 < length a + 16)%nat ->
    lists files a (str "ls: path too long" ++ NL) []
| lists_device o : files !! a = Some o -> 0 <= (of_stat o).1 -> st_type (of_stat o).2 <> T_FILE -> st_type (of_stat o).2 <> T_DIR -> lists files a [] [].

Lemma strlen_len s : strlen s = Z.of_nat (length s).
Proof. induction s as [|c s IH]; [reflexivity|]. cbn [strlen length]. rewrite IH. lia. Qed.
Lemma told_nil w : told [] w = w.
Proof. destruct w. unfold told. cbn. rewrite app_nil_r. reflexivity. Qed.

Lemma switch_run buf0 sbuf a o out err w : lists (w_files w) a out err -> w_files w !! a = Some o -> 0 <= (of_stat o).1 -> length buf0 = 512%nat -> static_ok sbuf ->
  w_fds w !! 4 = None -> Z.of_nat (length out) <= w_room w ->
  err = [] /\ exists sbuf' rs, static_ok sbuf' /\ run (ls_switch buf0 sbuf a 3 (of_stat o).2) (with_fd 3 o w) ≈ Ret (wrote out (with_fd 3 (mk_ofile (of_stat o) rs) w), sbuf').
Proof.
  intros Hl Ho Hst Hbuf Hs H4 Hroom. destruct o as [[e st] rs0]. cbn [of_stat of_reads fst snd] in *. unfold ls_switch.
  destruct Hl as [Ho'|o' Ho' Hn|o' Ho' _ Ht Ha|o' es Ho' _ Ht Ha Hlen Hr Hes|o' Ho' _ Ht Hlen|o' Ho' _ Ht1 Ht2]; try (rewrite Ho in Ho'; first [discriminate | injection Ho' as <-]); cbn [of_stat of_reads fst snd] in *.
  - lia.
  - split; [reflexivity|]. rewrite Ht. change (T_FILE =? T_FILE) with true. cbv iota.
    destruct (line_run sbuf a st (fun b => Ret b) (with_fd 3 (mk_ofile (e, st) rs0) w) Hs Ha Hroom) as (sbuf' & Hs' & E). exists sbuf', rs0. split; [exact Hs'|]. rewrite E. apply run_pure.
  - split; [reflexivity|]. rewrite Ht. change (T_DIR =? T_FILE) with false. change (T_DIR =? T_DIR) with true. cbv iota. rewrite strlen_len, Hbuf. unfold DIRSIZ. rewrite (proj2 (Z.ltb_ge _ _)) by lia.
    set (x := drop (length a + 1) buf0). assert (store 0 (a ++ [0]) buf0 = a ++ 0 :: x) as E0.
    { rewrite store_exact by (rewrite length_app; cbn; lia). rewrite length_app. cbn [take app]. rewrite <- app_assoc. reflexivity. }
    assert (store (length a) [47] (a ++ 0 :: x) = a ++ 47 :: x) as E47.
    { rewrite store_exact by (rewrite length_app; cbn; lia). rewrite take_app_length. cbn [length app]. f_equal. f_equal. rewrite <- drop_drop, drop_app_length. reflexivity. }
    subst rs0. set (w1 := with_fd 3 (mk_ofile (e, st) (entry_reads es)) w).
    destruct (entries_run a (e, st) es Ha Hes w1 (47 :: x) sbuf st Hs eq_refl) as (sbuf' & Hs' & E).
    + rewrite length_app. cbn [length]. unfold x. rewrite length_drop. lia.
    + apply lookup_insert_eq.
    + cbn. rewrite lookup_insert_ne by discriminate. exact H4.
    + exact Hroom.
    + exists sbuf', []. split; [exact Hs'|]. rewrite poke_run by (rewrite length_app; cbn; lia). cbv zeta. rewrite E0, (until_nul_full a x Ha).
      rewrite poke_run by (rewrite length_app; cbn [length]; unfold x; rewrite length_drop; lia). rewrite E47, E. unfold w1. rewrite with_with. reflexivity.
  - split; [reflexivity|]. exists sbuf, rs0. split; [exact Hs|]. rewrite Ht. change (T_DIR =? T_FILE) with false. change (T_DIR =? T_DIR) with true. cbv iota. rewrite strlen_len, Hbuf. unfold DIRSIZ.
    rewrite (proj2 (Z.ltb_lt _ _)) by lia. rewrite run_say by (reflexivity || exact Hroom). apply run_pure.
  - split; [reflexivity|]. exists sbuf, rs0. split; [exact Hs|]. rewrite (proj2 (Z.eqb_neq _ _) Ht1), (proj2 (Z.eqb_neq _ _) Ht2). rewrite wrote_none. apply run_pure.
Qed.
Lemma ls_run buf0 sbuf a out err w : lists (w_files w) a out err -> length buf0 = 512%nat -> static_ok sbuf -> w_fds w !! 3 = None -> w_fds w !! 4 = None ->
  Z.of_nat (length out) <= w_room w -> exists sbuf', static_ok sbuf' /\ run (ls buf0 sbuf a) w ≈ Ret (told err (wrote out w), sbuf').
Proof.
  intros Hl Hbuf Hs H3 H4 Hroom. unfold ls. destruct (w_files w !! a) as [o|] eqn:Ho.
  - setoid_rewrite (open_run a o _ w H3 Ho). change (3 <? 0) with false. cbv iota.
    assert (calls _ (Fstat 3) (with_fd 3 o w) = Ret (with_fd 3 o w, of_stat o)) as Ef by (cbn [calls]; unfold do_fstat; cbn [w_fds with_fd]; rewrite lookup_insert_eq; reflexivity).
    setoid_rewrite (run_call _ _ _ _ _ Ef). rewrite (surjective_pairing (of_stat o)). destruct (Z.ltb_spec (of_stat o).1 0) as [Hn|Hn].
    + destruct Hl as [Ho'|o' Ho' _|o' Ho' Hp|o' es Ho' Hp|o' Ho' Hp|o' Ho' Hp]; rewrite Ho in Ho'; try discriminate; injection Ho' as <-; try lia.
      exists sbuf. split; [exact Hs|]. rewrite run_tell by reflexivity. rewrite wrote_none. change (told ?l (with_fd 3 o w)) with (with_fd 3 o (told l w)). rewrite close_run by exact H3. apply run_pure.
    + destruct (switch_run buf0 sbuf a o out err w Hl Ho Hn Hbuf Hs H4 Hroom) as (-> & sbuf' & rs & Hs' & E). exists sbuf'. split; [exact Hs'|].
      rewrite (run_ret _ _ _ _ _ E). change (wrote out (with_fd 3 ?x w)) with (with_fd 3 x (wrote out w)). rewrite close_run by exact H3. rewrite told_nil. apply run_pure.
  - destruct Hl as [_|o' Ho' _|o' Ho' Hp|o' es Ho' Hp|o' Ho' Hp|o' Ho' Hp]; try (rewrite Ho in Ho'; discriminate).
    exists sbuf. split; [exact Hs|]. assert (calls _ (Open a 0) w = Ret (w, -1)) as Eo by (cbn [calls]; unfold do_open; rewrite Ho; reflexivity).
    rewrite (run_call _ _ _ _ _ Eo). change (-1 <? 0) with true. cbv iota. rewrite run_tell by reflexivity. rewrite wrote_none. apply run_pure.
Qed.

(** The arguments one after the other. *)
Inductive lists_all (files : gmap (list Z) ofile) : list (list Z) -> list Z -> list Z -> Prop :=
| lists_nil : lists_all files [] [] []
| lists_cons a args out err outs errs : lists files a out err -> lists_all files args outs errs -> lists_all files (a :: args) (out ++ outs) (err ++ errs).
Lemma ls_all_run buf0 files args outs errs : lists_all files args outs errs -> length buf0 = 512%nat -> forall sbuf w, w_files w = files -> static_ok sbuf -> w_fds w !! 3 = None -> w_fds w !! 4 = None ->
  Z.of_nat (length outs) <= w_room w -> run (ls_all buf0 sbuf args) w ≈ Ret (told errs (wrote outs w), tt).
Proof.
  intros Hl Hbuf. induction Hl as [|a args out err outs errs Ha Hl IH]; intros sbuf w Hw Hs H3 H4 Hroom; cbn [ls_all].
  - rewrite wrote_none, told_nil. apply run_pure.
  - rewrite length_app in Hroom. rewrite <- Hw in Ha. destruct (ls_run buf0 sbuf a out err w Ha Hbuf Hs H3 H4 ltac:(lia)) as (sbuf' & Hs' & E).
    rewrite (run_ret _ _ _ _ _ E), IH; try assumption; [|cbn; lia]. change (wrote outs (told err (wrote out w))) with (told err (wrote outs (wrote out w))). rewrite wrote_app, told_app. reflexivity.
Qed.

(** C39. ls lists its arguments, or the current directory without one: for a
    directory the name of every entry in use, filled up with blanks, with
    the type, number and size of its inode, in the order of the entries; for a
    file its line; nothing for a device; a message for what it cannot open or
    stat and for a path that does not fit its array.  No store leaves an
    array. *)
Theorem ls_lists buf0 args w out err (Hbuf : length buf0 = 512%nat) (Hl : lists_all (w_files w) (match args with [] => [str "."] | _ => args end) out err)
    (H3 : w_fds w !! 3 = None) (H4 : w_fds w !! 4 = None) (Hroom : Z.of_nat (length out) <= w_room w) :
  run (ls_main buf0 args) w ≈ halted (Exited (told err (wrote out w))).
Proof.
  unfold ls_main. assert (static_ok (replicate (DIRSIZ + 1) 0)) as Hs by (split; reflexivity).
  pose proof (ls_all_run buf0 _ _ out err Hl Hbuf _ w eq_refl Hs H3 H4 Hroom) as E. rewrite (run_ret _ (fun _ => exit) _ _ _ E). apply run_exit.
Qed.

(** ** init *)

Section Init.
#[local] Abbreviation tree := (itree sysE void).

(** Steps that are no event of interest, whatever the kernel answers. *)
Definition quiet {A} (e : sysE A) : bool :=
  match e with Open _ _ | Mknod _ _ _ | Dup _ | Write _ _ => true | _ => false end.
(** After finitely many quiet steps the tree is one of [P]. *)
Inductive soon (P : itree' sysE void -> Prop) (t : tree) : Prop :=
| soon_now : P (observe t) -> soon P t
| soon_tau u : observe t = TauF u -> soon P u -> soon P t
| soon_quiet A (e : sysE A) k : observe t = VisF e k -> quiet e = true -> (forall a, soon P (k a)) -> soon P t.

(** The child runs the shell; it ends when exec() returns. *)
Definition ends (o : itree' sysE void) : Prop :=
  match o with VisF e _ => match e with Exit => True | _ => False end | _ => False end.
Definition execs (path : list Z) (argv : list (list Z)) (o : itree' sysE void) : Prop :=
  match o with
  | VisF e k => match e in sysE A return (A -> tree) -> Prop with Exec p l => fun k => p = path /\ l = argv /\ forall a, soon ends (k a) | _ => fun _ => False end k
  | _ => False
  end.
(** The loop of a parent that keeps one shell: without one it forks, and ends
    only when fork() fails; with the shell [pid] it waits, until wait()
    returns [pid] or fails. *)
Definition forks (r : option Z -> tree -> Prop) (o : itree' sysE void) : Prop :=
  match o with
  | VisF e k => match e in sysE A return (A -> tree) -> Prop with
                | Fork => fun k => forall pid, (pid < 0 -> soon ends (k pid)) /\ (pid = 0 -> soon (execs (str "sh") [str "sh"]) (k pid)) /\ (0 < pid -> r (Some pid) (k pid))
                | _ => fun _ => False
                end k
  | _ => False
  end.
Definition waits (pid : Z) (r : option Z -> tree -> Prop) (o : itree' sysE void) : Prop :=
  match o with
  | VisF e k => match e in sysE A return (A -> tree) -> Prop with
                | Wait => fun k => forall w, r (if (w =? pid) || (w <? 0) then None else Some pid) (k w)
                | _ => fun _ => False
                end k
  | _ => False
  end.
Definition keeps_gen (r : option Z -> tree -> Prop) (sh : option Z) (t : tree) : Prop :=
  match sh with None => soon (forks r) t | Some pid => soon (waits pid r) t end.

Lemma soon_mono (P Q : itree' sysE void -> Prop) t : (forall o, P o -> Q o) -> soon P t -> soon Q t.
Proof. intros HPQ. induction 1; [apply soon_now; auto | eapply soon_tau; eassumption | eapply soon_quiet; eassumption]. Qed.
Lemma keeps_mon : monotone2 keeps_gen.
Proof.
  intros sh t r r' Hr Hle. unfold keeps_gen in *. destruct sh as [pid|]; eapply soon_mono; try exact Hr; intros o Ho.
  - destruct o as [|u|A e k]; try exact Ho. destruct e; try exact Ho. intros w. apply Hle, Ho.
  - destruct o as [|u|A e k]; try exact Ho. destruct e; try exact Ho. intros pid. destruct (Ho pid) as (H1 & H2 & H3). split; [exact H1|]. split; [exact H2|]. intros Hp. apply Hle, H3, Hp.
Qed.
#[local] Hint Resolve keeps_mon : paco.
Definition keeps_shell : option Z -> tree -> Prop := paco2 keeps_gen bot2.

Lemma soon_obs P t u : observe t = observe u -> soon P u -> soon P t.
Proof.
  intros E Hs. destruct Hs as [Hp|v Ev Hv|A e k Ek Hq Hk]; [apply soon_now; rewrite E; exact Hp | apply (soon_tau _ _ v); [rewrite E; exact Ev | exact Hv] | eapply soon_quiet; [rewrite E; exact Ek | exact Hq | exact Hk]].
Qed.
Lemma soon_trans P t u : soon (eq (observe u)) t -> soon P u -> soon P t.
Proof. intros Hs Hp. induction Hs as [t E|t v Ev Hv IH|t A e k Ek Hq Hk IH]; [apply (soon_obs _ _ u); auto | eapply soon_tau; eassumption | eapply soon_quiet; eassumption]. Qed.
Lemma soon_here (t : tree) : soon (eq (observe t)) t.
Proof. apply soon_now. reflexivity. Qed.
(** What follows a part of the program: its first steps are those of the part. *)
Record context {A} (K : itree sysE A -> tree) : Prop := {
  cx_obs : forall t u, observe t = observe u -> observe (K t) = observe (K u);
  cx_vis : forall B (e : sysE B) k, observe (K (Vis e k)) = VisF e (fun b => K (k b)) }.
Lemma context_id : context (fun t => t).
Proof. split; auto. Qed.
Lemma bind_obs {A B} (f : A -> itree sysE B) t u : observe t = observe u -> observe (ITree.bind t f) = observe (ITree.bind u f).
Proof. intros E. unfold observe. cbn. rewrite E. reflexivity. Qed.
Lemma context_bind {A B} (K : itree sysE B -> tree) (f : A -> itree sysE B) : context K -> context (fun t => K (ITree.bind t f)).
Proof.
  intros [C1 C2]. split; [intros t u E; apply C1, bind_obs, E|]. intros X e k. rewrite <- C2. apply C1. reflexivity.
Qed.
Lemma context_call {A B} (K : itree sysE A -> tree) (e : sysE B) (k : B -> itree sysE A) : context K ->
  exists g, observe (K (ITree.bind (ITree.trigger e) k)) = VisF e g /\ forall b, observe (g b) = observe (K (k b)).
Proof.
  intros HK. exists (fun b => K (ITree.bind (Ret b) k)). split; [|intros b; apply (cx_obs _ HK); reflexivity].
  rewrite <- (cx_vis _ HK _ e (fun b => ITree.bind (Ret b) k)). apply (cx_obs _ HK). reflexivity.
Qed.
Lemma soon_event {A B} (P : itree' sysE void -> Prop) (K : itree sysE A -> tree) (e : sysE B) (k : B -> itree sysE A) : context K ->
  (forall g, (forall b, observe (g b) = observe (K (k b))) -> P (VisF e g)) -> soon P (K (ITree.bind (ITree.trigger e) k)).
Proof. intros HK Hp. destruct (context_call K e k HK) as (g & E & Hg). apply soon_now. rewrite E. apply Hp, Hg. Qed.
(** Quiet calls and messages are passed over. *)
Lemma soon_call {A B} P (K : itree sysE A -> tree) (e : sysE B) (k : B -> itree sysE A) : context K -> quiet e = true -> (forall b, soon P (K (k b))) -> soon P (K (ITree.bind (ITree.trigger e) k)).
Proof.
  intros HK Hq Hk. destruct (context_call K e k HK) as (g & E & Hg). apply (soon_quiet P _ B e g E Hq). intros b. apply (soon_obs _ _ (K (k b))); [apply Hg | apply Hk].
Qed.
Lemma soon_puts {A} P (K : itree sysE A -> tree) fd l k : context K -> soon P (K k) -> soon P (K (puts fd l ;* k)).
Proof.
  intros HK Hk. induction l as [|c l IH]; [apply (soon_obs _ _ (K k)); [apply (cx_obs _ HK); reflexivity | exact Hk]|]. cbn [puts].
  apply (soon_call P (fun t => K (ITree.bind t (fun _ => k)))); [apply context_bind, HK | reflexivity|]. intros _. exact IH.
Qed.
Lemma soon_exit {A} (K : itree sysE A -> tree) : context K -> soon ends (K exit).
Proof.
  intros HK. destruct (context_call K Exit (fun v => match v : void with end) HK) as (g & E & _). apply soon_now. unfold exit, stop. rewrite E. exact I.
Qed.

(** The loop of init, and the tree that waits for the shell [pid]. *)
Definition init_loop : tree := ITree.iter (fun _ : unit => init_round ;* Ret (inl tt)) tt.
Definition next (lr : unit + void) : tree := match lr with inl u => Tau (ITree.iter (fun _ : unit => init_round ;* Ret (inl tt)) u) | inr v => Ret v end.
Definition round_end (t : itree sysE unit) : tree := ITree.bind (t ;* Ret (inl tt)) next.
Lemma round_context : context round_end.
Proof. unfold round_end. apply (context_bind (fun t => ITree.bind t next)), (context_bind (fun t => t)), context_id. Qed.
Definition waiting (pid : Z) : tree := round_end (wait_for pid).

Section Step.
Variable r : option Z -> tree -> Prop.
Hypothesis r_none : forall t, soon (eq (observe init_loop)) t -> r None t.
Hypothesis r_some : forall pid t, 0 < pid -> soon (eq (observe (waiting pid))) t -> r (Some pid) t.

Lemma loop_forks : soon (forks r) init_loop.
Proof.
  apply (soon_obs _ _ (round_end init_round)); [reflexivity|]. unfold init_round, printf. apply soon_puts; [apply round_context|].
  apply (soon_event _ round_end); [apply round_context|]. intros g Hg. cbn [forks]. intros pid.
  split; [|split]; intros Hp; specialize (Hg pid); cbv beta in Hg.
  - rewrite (proj2 (Z.ltb_lt pid 0) Hp) in Hg. apply (soon_obs _ _ _ Hg). unfold printf. apply soon_puts; [apply round_context|]. apply soon_exit, round_context.
  - subst pid. apply (soon_obs _ _ _ Hg). change (0 <? 0) with false. change (0 =? 0) with true. cbv iota.
    apply (soon_event _ round_end); [apply round_context|]. intros g2 Hg2. cbn [execs]. split; [reflexivity|]. split; [reflexivity|]. intros a. apply (soon_obs _ _ _ (Hg2 a)). unfold printf. apply soon_puts; [apply round_context|]. apply soon_exit, round_context.
  - rewrite (proj2 (Z.ltb_ge pid 0)), (proj2 (Z.eqb_neq pid 0)) in Hg by lia. apply r_some; [exact Hp|]. apply (soon_obs _ _ (waiting pid) Hg), soon_here.
Qed.
Lemma waiting_waits pid : 0 < pid -> soon (waits pid r) (waiting pid).
Proof.
  intros Hp. set (wbody := fun _ : unit => let* wpid := ITree.trigger Wait in if (0 <=? wpid) && negb (wpid =? pid) then printf 1 (str "zombie!" ++ NL) [] ;* Ret (inl tt) else Ret (inr tt) : itree sysE (unit + unit)).
  set (again := fun lr : unit + unit => match lr with inl u => Tau (ITree.iter wbody u) | inr a => Ret a end).
  set (K := fun t : itree sysE (unit + unit) => round_end (ITree.bind t again)). assert (context K) as HK by (apply (context_bind round_end), round_context).
  apply (soon_obs _ _ (K (wbody tt))); [reflexivity|]. apply (soon_event _ K); [exact HK|]. intros g Hg. cbn [waits]. intros w.
  specialize (Hg w). cbv beta in Hg. destruct (Z.leb_spec 0 w) as [H0|H0], (Z.eqb_spec w pid) as [Hw|Hw]; cbn [andb negb] in Hg; rewrite ?(proj2 (Z.ltb_ge w 0)), ?(proj2 (Z.ltb_lt w 0)) by lia; cbn [orb].
  - apply r_none. apply (soon_obs _ _ _ Hg). apply (soon_tau _ _ init_loop); [reflexivity|]. apply soon_here.
  - apply r_some; [exact Hp|]. apply (soon_obs _ _ _ Hg). unfold printf. apply soon_puts; [exact HK|]. apply (soon_tau _ _ (waiting pid)); [reflexivity|]. apply soon_here.
  - lia.
  - apply r_none. apply (soon_obs _ _ _ Hg). apply (soon_tau _ _ init_loop); [reflexivity|]. apply soon_here.
Qed.
End Step.

(** C40. init keeps a shell running whatever the kernel answers: it sets up its
    descriptors and forks; the child runs sh and nothing else; the parent
    waits until wait() has returned this child or fails, without forking
    another, and then forks again, for ever: it ends only when fork() fails. *)
Theorem init_keeps_shell : keeps_shell None init.
Proof.
  assert (forall sh t, match sh with None => soon (eq (observe init_loop)) t | Some pid => 0 < pid /\ soon (eq (observe (waiting pid))) t end -> keeps_shell sh t) as H.
  { pcofix CIH. intros sh t Ht. pfold. destruct sh as [pid|].
    - destruct Ht as [Hp Ht]. apply (soon_trans _ _ (waiting pid) Ht), waiting_waits; [| |exact Hp].
      + intros u Hu. right. apply CIH, Hu.
      + intros q u Hq Hu. right. apply CIH. split; assumption.
    - apply (soon_trans _ _ init_loop Ht), loop_forks. intros q u Hq Hu. right. apply CIH. split; assumption. }
  apply H. pose proof context_id as Hid. unfold init. apply (soon_call _ (fun t => t)); [exact Hid | reflexivity|]. intros fd.
  assert (soon (eq (observe init_loop)) (ITree.trigger (Dup 0) ;* ITree.trigger (Dup 0) ;* init_loop)) as Hdup.
  { apply (soon_call _ (fun t => t)); [exact Hid | reflexivity|]. intros _. apply (soon_call _ (fun t => t)); [exact Hid | reflexivity|]. intros _. apply soon_here. }
  set (rest := fun _ : unit => ITree.trigger (Dup 0) ;* ITree.trigger (Dup 0) ;* init_loop) in *. assert (context (fun t => ITree.bind t rest)) as HK by (apply (context_bind (fun t => t)), Hid).
  change (soon (eq (observe init_loop)) (ITree.bind (if fd <? 0 then ITree.trigger (Mknod (str "console") 1 1) ;* ITree.trigger (Open (str "console") 2) ;* Ret tt else Ret tt) rest)).
  destruct (fd <? 0); [|apply (soon_obs _ _ (rest tt)); [reflexivity | exact Hdup]].
  apply (soon_call _ (fun t => ITree.bind t rest)); [exact HK | reflexivity|]. intros _. apply (soon_call _ (fun t => ITree.bind t rest)); [exact HK | reflexivity|]. intros _.
  apply (soon_obs _ _ (rest tt)); [reflexivity | exact Hdup].
Qed.
End Init.

Section Witnesses.

(** A file with two reads, and a directory with two entries in use. *)
Definition demo_stat (type ino size : Z) : Z * Fs.stat := (0, mk_stat 1 ino type 1 size).
Definition demo_entries : list dirent := [mk_dirent 2 (strncpy_bytes DIRSIZ (str "f")); mk_dirent 0 (replicate 14 0); mk_dirent 3 (strncpy_bytes DIRSIZ (str "lost"))].
Definition demo_files : gmap (list Z) ofile :=
  <[str "f" := mk_ofile (demo_stat T_FILE 2 3) [(2, [7; 8]); (1, [9])]]>
  (<[str "./f" := mk_ofile (demo_stat T_FILE 2 3) [(2, [7; 8]); (1, [9])]]>
  (<[str "." := mk_ofile (demo_stat T_DIR 1 48) (entry_reads demo_entries)]> ∅)).
Definition demo_world : world := mk_world demo_files ∅ [] [] 1000.

Example cat_copies_witness : exists w', run (cat_main [str "f"; str "g"]) demo_world ≈ halted (Exited w') /\ w_out w' = [7; 8; 9] ++ str "cat: cannot open g" ++ NL.
Proof.
  assert (cat_shows demo_files [str "f"; str "g"] ([7; 8; 9] ++ str "cat: cannot open g" ++ NL)) as Hs.
  { apply (shows_file demo_files (str "f") (mk_ofile (demo_stat T_FILE 2 3) [(2, [7; 8]); (1, [9])])).
    - apply lookup_insert_eq.
    - repeat constructor.
    - apply (shows_missing demo_files (str "g")). vm_compute. reflexivity. }
  destruct (cat_copies demo_world [str "f"; str "g"] _ ltac:(discriminate) Hs eq_refl ltac:(vm_compute; discriminate)) as (w' & E & Eo & _).
  exists w'. split; [exact E | exact Eo].
Defined.
Example ls_lists_witness : run (ls_main (replicate 512 7) []) demo_world ≈
  halted (Exited (wrote (str "f              2 2 3" ++ NL ++ str "ls: cannot stat ./lost" ++ NL) demo_world)).
Proof.
  assert (lists_all demo_files [str "."] (str "f              2 2 3" ++ NL ++ str "ls: cannot stat ./lost" ++ NL) []) as Hl.
  { apply (lists_cons demo_files (str ".") [] (str "f              2 2 3" ++ NL ++ str "ls: cannot stat ./lost" ++ NL) [] [] []); [|constructor].
    assert (dir_text demo_files (str ".") demo_entries = str "f              2 2 3" ++ NL ++ str "ls: cannot stat ./lost" ++ NL) as <- by (vm_compute; reflexivity).
    apply (lists_dir demo_files (str ".") (mk_ofile (demo_stat T_DIR 1 48) (entry_reads demo_entries))).
    - vm_compute. reflexivity.
    - cbn. lia.
    - reflexivity.
    - apply (bool_decide_unpack _). vm_compute. exact I.
    - cbn. lia.
    - reflexivity.
    - repeat (apply Forall_cons; split); try apply Forall_nil_2; (split; [split; [cbn; lia | reflexivity] | apply (bool_decide_unpack _); vm_compute; exact I]). }
  exact (ls_lists (replicate 512 7) [] demo_world _ _ (length_replicate 512 7) Hl eq_refl eq_refl ltac:(vm_compute; discriminate)).
Defined.
End Witnesses.
