(* ===== verification/Syscall.v ===== *)
(** * System calls: arguments and dispatch

    [src/homeworks/xv6-public/syscall.c].  The kernel runs on the page
    directory of the current process: a user address is followed through
    its page table, and an address that is not mapped is a page fault in the
    kernel ([Faulted]). *)
From S2P Require Import Prelude.
From S2P Require Import CString.
From S2P Require Import Kalloc.
From S2P Require Import Vm.
From S2P Require Import VmProofs.
From S2P Require Import Proc.

Section Code.
Context `{Ctx} `{Linked} {F : Type}.
#[local] Abbreviation K := (kstate F).

(** [myproc()] and its fields *)
Definition my {A} (f : proc -> A) : M K A := in_pt (let! me := curproc in on_proc me (get f)).
Definition set_my (f : proc -> proc) : M K unit := in_pt (let! me := curproc in on_proc me (modify f)).

(** *** Memory of the process *)

(** The kernel address of a user address. *)
Definition translate (va : Z) : M K Z :=
  let! pgdir := my p_pgdir in
  let! pte := in_mem (walkpgdir pgdir va false) in
  let! e := in_mem (load_ptr pte) in
  if bitset e PTE_P then ret (P2V (PTE_ADDR e) + va mod PGSIZE) else halt Faulted.
Definition load_byte (va : Z) : M K Z :=
  let! a := translate va in in_mem (get (fun k => km_mem k a)).
Definition store_byte (va v : Z) : M K unit :=
  let! a := translate va in in_mem (on_mem (fun m => store8 m a v)).
Definition load_int (va : Z) : M K Z :=
  let! b0 := load_byte va in
  let! b1 := load_byte (u32 (va + 1)) in
  let! b2 := load_byte (u32 (va + 2)) in
  let! b3 := load_byte (u32 (va + 3)) in
  ret (s32 (b0 + 2 ^ 8 * b1 + 2 ^ 16 * b2 + 2 ^ 24 * b3)).
Fixpoint load_bytes (n : nat) (va : Z) : M K (list Z) :=
  match n with
  | O => ret []
  | S n' =>
      let! b := load_byte va in
      let! rest := load_bytes n' (u32 (va + 1)) in
      ret (b :: rest)
  end.
Fixpoint store_bytes (va : Z) (l : list Z) : M K unit :=
  match l with
  | [] => ret tt
  | b :: l' => store_byte va b ;! store_bytes (u32 (va + 1)) l'
  end.

(** *** Arguments; [None] is the result -1 *)

Definition fetchint (addr : Z) : M K (option Z) :=
  let! sz := my p_sz in
  if (sz <=? addr) || (sz <? u32 (addr + 4)) then ret None
  else let! v := load_int addr in ret (Some v).

(** [for(s = *pp; s < ep; s++)]: the bytes before the NUL. *)
Fixpoint fetchstr_loop (fuel : nat) (s ep : Z) : M K (option (list Z)) :=
  if s <? ep then
    match fuel with
    | O => halt NoFuel
    | S fuel' =>
        let! c := load_byte s in
        if c =? 0 then ret (Some [])
        else
          let! rest := fetchstr_loop fuel' (s + 1) ep in
          ret (cons c <$> rest)
    end
  else ret None.
(** The string at [addr]; the C function returns its length and sets the
    pointer to [addr]. *)
Definition fetchstr (addr : Z) : M K (option (list Z)) :=
  let! sz := my p_sz in
  if sz <=? addr then ret None
  else fetchstr_loop (Z.to_nat (sz - addr)) addr sz.

Definition argint (n : Z) : M K (option Z) :=
  let! tf := my p_tf in
  fetchint (u32 (tf_esp tf + 4 + 4 * n)).

(** The pointer, when [size] bytes from it on belong to the process. *)
Definition argptr (n size : Z) : M K (option Z) :=
  let! i := argint n in
  match i with
  | None => ret None
  | Some i =>
      let! sz := my p_sz in
      if (size <? 0) || (sz <=? u32 i) || (sz <? u32 (u32 i + u32 size)) then ret None
      else ret (Some (u32 i))
  end.
Definition argstr (n : Z) : M K (option (list Z)) :=
  let! addr := argint n in
  match addr with
  | None => ret None
  | Some addr => fetchstr (u32 addr)
  end.

(** *** Dispatch *)

(** What becomes of the process in a system call. *)
Inductive sysret : Type :=
| Value (v : Z)   (* back to user mode with this value in %eax *)
| Gone.           (* exit(): it never runs again *)

Definition set_eax (v : Z) : M K unit :=
  set_my (fun p => p <| p_tf ::= fun tf => tf <| tf_eax := v |> |>).

(** syscalls[]: the entries of the table; the message about an unknown call
    is left out. *)
Definition syscall (syscalls : Z -> option (M K sysret)) : M K sysret :=
  let! tf := my p_tf in
  let num := s32 (tf_eax tf) in
  match (if 0 <? num then syscalls num else None) with
  | Some sys =>
      let! r := sys in
      match r with
      | Value v => set_eax (u32 v) ;! ret r
      | Gone => ret Gone
      end
  | None => set_eax (u32 (-1)) ;! ret (Value (-1))
  end.
End Code.
