(* ===== verification/Trap.v ===== *)
(** * Process system calls and traps

    [src/homeworks/xv6-public/sysproc.c] and [trap.c].  The interrupt
    handlers of the devices are a parameter; the messages that trap()
    prints are left out. *)
From S2P Require Import Prelude.
From S2P Require Import Kalloc.
From S2P Require Import Vm.
From S2P Require Import Proc.
From S2P Require Import Syscall.

(** ** sysproc.c *)
Section Sysproc.
Context `{Ctx} `{Linked} `{Asm} {F : Type} `{FileOps F}.
#[local] Abbreviation K := (kstate F).

Definition in_clock {A} (m : M clock A) : M K A := zoom ks_clock m.
Definition lock_ticks : M K unit := in_clock (zoom ck_lock acquire).
Definition unlock_ticks : M K unit := in_clock (zoom ck_lock release).

Definition sys_fork : M K sysret := let! pid := fork in ret (Value pid).
Definition sys_exit : M K sysret := exit ;! ret Gone.
Definition sys_wait (env : list (K -> K)) : M K sysret := let! pid := wait env in ret (Value pid).
Definition sys_kill : M K sysret :=
  let! pid := argint 0 in
  match pid with
  | None => ret (Value (-1))
  | Some pid => let! r := in_pt (kill pid) in ret (Value r)
  end.
Definition sys_getpid : M K sysret := let! pid := my p_pid in ret (Value pid).

(** The allocation is delayed: only the size changes. *)
Definition sys_sbrk : M K sysret :=
  let! n := argint 0 in
  match n with
  | None => ret (Value (-1))
  | Some n =>
      let! sz := my p_sz in
      let addr := s32 sz in
      set_my (fun p => p <| p_sz ::= fun sz => u32 (sz + n) |>) ;!
      ret (Value addr)
  end.

(** [while(ticks - ticks0 < n)]; [env] lists what the rest of the system
    does between two wakeups of this process. *)
Fixpoint sleep_loop (env : list (K -> K)) (ticks0 n : Z) : M K sysret :=
  let! ticks := in_clock (get ck_ticks) in
  if u32 (ticks - ticks0) <? u32 n then
    let! k := my p_killed in
    if negb (k =? 0) then unlock_ticks ;! ret (Value (-1))
    else
      unlock_ticks ;!
      match env with
      | [] => halt (Asleep "ticks")
      | e :: env' => modify e ;! lock_ticks ;! sleep_loop env' ticks0 n
      end
  else unlock_ticks ;! ret (Value 0).
Definition sys_sleep (env : list (K -> K)) : M K sysret :=
  let! n := argint 0 in
  match n with
  | None => ret (Value (-1))
  | Some n =>
      lock_ticks ;!
      let! ticks0 := in_clock (get ck_ticks) in
      sleep_loop env ticks0 n
  end.
Definition sys_uptime : M K sysret :=
  lock_ticks ;!
  let! xticks := in_clock (get ck_ticks) in
  unlock_ticks ;!
  ret (Value (s32 xticks)).

(** struct rtcdate is six unsigned ints. *)
Definition sys_date (cmostime : M K (list Z)) : M K sysret :=
  let! r := argptr 0 24 in
  match r with
  | None => ret (Value (-1))
  | Some r =>
      let! date := cmostime in
      store_bytes r (concat (map (fun v => [u8 v; u8 (Z.shiftr v 8); u8 (Z.shiftr v 16); u8 (Z.shiftr v 24)]) date)) ;!
      ret (Value 0)
  end.
End Sysproc.

(** ** trap.c *)

Definition T_PGFLT : Z := 14.
Definition T_SYSCALL : Z := 64.
Definition T_IRQ0 : Z := 32.
Definition IRQ_TIMER : Z := 0.
Definition IRQ_KBD : Z := 1.
Definition IRQ_COM1 : Z := 4.
Definition IRQ_IDE : Z := 14.
Definition IRQ_SPURIOUS : Z := 31.

Definition SEG_KCODE : Z := 1.
Definition STS_IG32 : Z := 0xE.
Definition STS_TG32 : Z := 0xF.

(** struct gatedesc *)
Record gatedesc := mk_gate {
  g_off_15_0 : Z; g_cs : Z; g_args : Z; g_rsv1 : Z; g_type : Z; g_s : Z; g_dpl : Z; g_p : Z; g_off_31_16 : Z }.
Definition SETGATE (istrap : bool) (sel off d : Z) : gatedesc :=
  mk_gate (Z.land off 0xffff) sel 0 0 (if istrap then STS_TG32 else STS_IG32) 0 d 1 (Z.shiftr off 16).
(** The table that tvinit() builds from the entry points [vectors]. *)
Definition tvinit (vectors : Z -> Z) : list gatedesc :=
  let idt := map (fun i => SETGATE false (Z.shiftl SEG_KCODE 3) (vectors i) 0) (seqZ 0 256) in
  <[Z.to_nat T_SYSCALL := SETGATE true (Z.shiftl SEG_KCODE 3) (vectors T_SYSCALL) DPL_USER]> idt.

(** The interrupt handlers of the devices. *)
Class Devices (F : Type) : Type := {
  ideintr : M (kstate F) unit;
  kbdintr : M (kstate F) unit;
  uartintr : M (kstate F) unit;
  lapiceoi : M (kstate F) unit }.

Section Trap.
Context `{Ctx} `{Linked} `{Asm} {F : Type} `{FileOps F} `{Devices F}.
#[local] Abbreviation K := (kstate F).

(** [if(myproc() && myproc()->killed && (tf->cs&3) == DPL_USER) exit();]:
    true when the process has exited. *)
Definition exit_if_killed (tf : trapframe) : M K bool :=
  let! me := in_pt myproc in
  match me with
  | None => ret false
  | Some _ =>
      let! k := my p_killed in
      if negb (k =? 0) && (Z.land (tf_cs tf) 3 =? DPL_USER) then exit ;! ret true else ret false
  end.

(** The switch on the trap number. *)
Definition dispatch (tf : trapframe) (trapno : Z) : M K unit :=
  if trapno =? T_IRQ0 + IRQ_TIMER then
    (if (cpu_id =? 0)%nat then
       lock_ticks ;!
       in_clock (modify (fun c => c <| ck_ticks ::= fun t => u32 (t + 1) |>)) ;!
       in_pt (Proc.wakeup (ChanOther 0)) ;!  (* &ticks *)
       unlock_ticks
     else ret tt) ;!
    lapiceoi
  else if trapno =? T_IRQ0 + IRQ_IDE then ideintr ;! lapiceoi
  else if trapno =? T_IRQ0 + IRQ_IDE + 1 then ret tt  (* Bochs generates spurious IDE1 interrupts. *)
  else if trapno =? T_IRQ0 + IRQ_KBD then kbdintr ;! lapiceoi
  else if trapno =? T_IRQ0 + IRQ_COM1 then uartintr ;! lapiceoi
  else if (trapno =? T_IRQ0 + 7) || (trapno =? T_IRQ0 + IRQ_SPURIOUS) then lapiceoi
  else
    let! me := in_pt myproc in
    (* In kernel, it must be our mistake. *)
    panic_if (bool_decide (me = None) || (Z.land (tf_cs tf) 3 =? 0)) "trap" ;!
    (* In user space, assume process misbehaved. *)
    set_my (fun p => p <| p_killed := 1 |>).

(** trap(tf); [resume] is what happens between yield() and the return from
    it.  True when the process has exited. *)
Definition trap (syscalls : Z -> option (M K sysret)) (resume : K -> K) (tf : trapframe) (trapno : Z) : M K bool :=
  if trapno =? T_SYSCALL then
    let! k := my p_killed in
    if negb (k =? 0) then exit ;! ret true else
    set_my (fun p => p <| p_tf := tf |>) ;!
    let! r := syscall syscalls in
    match r with
    | Gone => ret true
    | Value _ =>
        let! k := my p_killed in
        if negb (k =? 0) then exit ;! ret true else ret false
    end
  else
    dispatch tf trapno ;!
    (* Force process exit if it has been killed and is in user space. *)
    let! gone := exit_if_killed tf in
    if gone : bool then ret true else
    (* Force process to give up CPU on clock tick. *)
    let! me := in_pt myproc in
    (match me with
     | None => ret tt
     | Some i =>
         let! st := in_pt (on_proc i (get p_state)) in
         if bool_decide (st = RUNNING) && (trapno =? T_IRQ0 + IRQ_TIMER)
         then in_pt yield ;! modify resume else ret tt
     end) ;!
    (* Check if the process has been killed since we yielded *)
    exit_if_killed tf.
End Trap.
