(* ===== verification/Sysfile.v ===== *)
(** * The system calls on files

    [src/homeworks/xv6-public/sysfile.c]: argument checks and calls into
    [File.v] and [Fs.v]; the result of every call is the C int.  [goto bad]
    is a call of the code at the label. *)
From S2P Require Import Prelude.
From S2P Require Import Kalloc.
From S2P Require Import Layout.
From S2P Require Import Bio.
From S2P Require Import Tx.
From S2P Require Import Fs.
From S2P Require Import Pipe.
From S2P Require Import Proc.
From S2P Require Import File.
From S2P Require Import Syscall.
From S2P Require Import Shell.

Definition MAXARG : nat := 32.

Section Code.
Context `{Ctx} `{Linked} `{Pages} {T : Type} `{TxOps T} `{OpOps T} `{Devsw (fstate T)}.
#[local] Abbreviation K := (kstate (fsys T)).

(** The descriptor and the file of argument [n]. *)
Definition argfd (n : Z) : M K (option (Z * nat)) :=
  let! fd := argint n in
  match fd with
  | None => ret None
  | Some fd =>
      if (fd <? 0) || (Z.of_nat NOFILE <=? fd) then ret None else
      let! ofile := my p_ofile in
      match default None (ofile !! Z.to_nat fd) with
      | None => ret None
      | Some f => ret (Some (fd, f))
      end
  end.

(** Allocate a file descriptor for the given file: the lowest free one. *)
Definition set_ofile (fd : nat) (f : option nat) : M K unit :=
  set_my (fun p => p <| p_ofile ::= <[fd := f]> |>).
Definition fdalloc (f : nat) : M K Z :=
  let! ofile := my p_ofile in
  match list_find (fun x => x = None) (take NOFILE ofile) with
  | Some (fd, _) => set_ofile fd (Some f) ;! ret (Z.of_nat fd)
  | None => ret (-1)
  end.

Definition sys_dup : M K Z :=
  let! a := argfd 0 in
  match a with
  | None => ret (-1)
  | Some (_, f) =>
      let! fd := fdalloc f in
      if fd <? 0 then ret (-1) else
      let! _ := in_ft (filedup f) in
      ret fd
  end.

(** A descriptor, a pointer and a byte count. *)
Definition argbuf : M K (option (nat * Z * Z)) :=
  let! a := argfd 0 in
  match a with
  | None => ret None
  | Some (_, f) =>
      let! n := argint 2 in
      match n with
      | None => ret None
      | Some n =>
          let! p := argptr 1 n in
          match p with
          | None => ret None
          | Some p => ret (Some (f, p, n))
          end
      end
  end.
Definition sys_read (env : list (pctx -> pctx)) : M K Z :=
  let! a := argbuf in
  match a with
  | None => ret (-1)
  | Some (f, p, n) =>
      let! r := fileread env f n in
      store_bytes p (snd r) ;!
      ret (fst r)
  end.
Definition sys_write (env : list (pctx -> pctx)) : M K Z :=
  let! a := argbuf in
  match a with
  | None => ret (-1)
  | Some (f, p, n) =>
      (* filewrite() reads the bytes after it has looked at the file *)
      let! x := in_ft (on_file f (get id)) in
      let! src := if f_writable x =? 0 then ret [] else load_bytes (Z.to_nat n) p in
      filewrite env f src
  end.

Definition sys_close : M K Z :=
  let! a := argfd 0 in
  match a with
  | None => ret (-1)
  | Some (fd, f) =>
      set_ofile (Z.to_nat fd) None ;!
      fileclose f ;!
      ret 0
  end.

(** What stati() stores into struct stat at [p]; the bytes between the fields
    stay as they are. *)
Definition store_stat (p : Z) (st : stat) : M K unit :=
  let le2 v := [u8 v; u8 (Z.shiftr v 8)] in
  let le4 v := le2 v ++ le2 (Z.shiftr v 16) in
  store_bytes (u32 (p + 4)) (le4 (st_dev st)) ;!
  store_bytes (u32 (p + 8)) (le4 (st_ino st)) ;!
  store_bytes p (le2 (st_type st)) ;!
  store_bytes (u32 (p + 12)) (le2 (st_nlink st)) ;!
  store_bytes (u32 (p + 16)) (le4 (st_size st)).
Definition sys_fstat : M K Z :=
  let! a := argfd 0 in
  match a with
  | None => ret (-1)
  | Some (_, f) =>
      let! p := argptr 1 20 in
      match p with
      | None => ret (-1)
      | Some p =>
          let! st := filestat f in
          match st with
          | None => ret (-1)
          | Some st => store_stat p st ;! ret 0
          end
      end
  end.

(** *** Names *)

Definition cwd : M K (option nat) := my p_cwd.
Definition k_namei (path : list Z) : M K (option nat) :=
  let! d := cwd in in_files (namei d path).
(** The buffer [char name[DIRSIZ]] on the stack starts with zeros here. *)
Definition k_nameiparent (path : list Z) : M K (option (nat * list Z)) :=
  let! d := cwd in
  let! r := in_files (nameiparent d path (replicate DIRSIZ 0)) in
  ret (match fst r with Some dp => Some (dp, snd r) | None => None end).
Definition inode_of (ip : nat) : M K inode := in_files (inode_get ip).
(** [ip->nlink += d; iupdate(ip);] *)
Definition add_link (ip : nat) (d : Z) : M K unit :=
  in_files (on_inode ip (modify (fun i => i <| i_nlink ::= fun n => s16 (n + d) |>))) ;!
  in_files (iupdate ip).

Definition link_bad (ip : nat) : M K Z :=
  in_files (ilock (Some ip)) ;!
  add_link ip (-1) ;!
  in_files (iunlockput ip) ;!
  end_op ;!
  ret (-1).
(** Create the path new as a link to the same inode as old. *)
Definition sys_link : M K Z :=
  let! old := argstr 0 in
  let! new := (match old with None => ret None | Some _ => argstr 1 end) in
  match old, new with
  | Some old, Some new =>
      begin_op ;!
      let! ip := k_namei old in
      match ip with
      | None => end_op ;! ret (-1)
      | Some ip =>
          in_files (ilock (Some ip)) ;!
          let! i := inode_of ip in
          if i_type i =? T_DIR then in_files (iunlockput ip) ;! end_op ;! ret (-1) else
          add_link ip 1 ;!
          in_files (iunlock (Some ip)) ;!
          let! d := k_nameiparent new in
          match d with
          | None => link_bad ip
          | Some (dp, name) =>
              in_files (ilock (Some dp)) ;!
              let! d := inode_of dp in
              let! i := inode_of ip in
              let! linked := (if negb (i_dev d =? i_dev i) then ret (-1)
                              else in_files (dirlink dp name (i_inum i))) in
              if linked <? 0 then in_files (iunlockput dp) ;! link_bad ip
              else
                in_files (iunlockput dp) ;!
                in_files (iput ip) ;!
                end_op ;!
                ret 0
          end
      end
  | _, _ => ret (-1)
  end.

(** Is the directory dp empty except for "." and ".." ? *)
Definition isdirempty (dp : nat) : M K bool :=
  let! d := inode_of dp in
  let! used := in_files (for_each (drop 2 (dir_offsets (i_size d))) (fun off =>
    let! de := read_dirent dp off "isdirempty: readi" in
    if negb (de_inum de =? 0) then ret (Some tt) else ret None)) in
  ret (match used with Some _ => false | None => true end).

Definition unlink_bad (dp : nat) : M K Z :=
  in_files (iunlockput dp) ;!
  end_op ;!
  ret (-1).
Definition sys_unlink : M K Z :=
  let! path := argstr 0 in
  match path with
  | None => ret (-1)
  | Some path =>
      begin_op ;!
      let! d := k_nameiparent path in
      match d with
      | None => end_op ;! ret (-1)
      | Some (dp, name) =>
          in_files (ilock (Some dp)) ;!
          (* Cannot unlink "." or "..". *)
          if (namecmp name (str ".") =? 0) || (namecmp name (str "..") =? 0) then unlink_bad dp else
          let! found := in_files (dirlookup dp name) in
          match found with
          | None => unlink_bad dp
          | Some (ip, off) =>
              in_files (ilock (Some ip)) ;!
              let! i := inode_of ip in
              panic_if (i_nlink i <? 1) "unlink: nlink < 1" ;!
              let! empty := (if i_type i =? T_DIR then isdirempty ip else ret true) in
              if negb empty then in_files (iunlockput ip) ;! unlink_bad dp else
              let! n := in_files (writei dp off (replicate 16 0)) in
              panic_if (negb (n =? 16)) "unlink: writei" ;!
              (if i_type i =? T_DIR then add_link dp (-1) else ret tt) ;!
              in_files (iunlockput dp) ;!
              add_link ip (-1) ;!
              in_files (iunlockput ip) ;!
              end_op ;!
              ret 0
          end
      end
  end.

(** The inode, locked. *)
Definition create (path : list Z) (type major minor : Z) : M K (option nat) :=
  let! d := k_nameiparent path in
  match d with
  | None => ret None
  | Some (dp, name) =>
      in_files (ilock (Some dp)) ;!
      let! found := in_files (dirlookup dp name) in
      match found with
      | Some (ip, _) =>
          in_files (iunlockput dp) ;!
          in_files (ilock (Some ip)) ;!
          let! i := inode_of ip in
          if (type =? T_FILE) && (i_type i =? T_FILE) then ret (Some ip)
          else in_files (iunlockput ip) ;! ret None
      | None =>
          let! d := inode_of dp in
          let! ip := in_files (ialloc (i_dev d) type) in
          in_files (ilock (Some ip)) ;!
          in_files (on_inode ip (modify (fun i =>
            mk_inode (i_dev i) (i_inum i) (i_ref i) (i_lock i) (i_valid i) (i_type i)
              (s16 major) (s16 minor) 1 (i_size i) (i_addrs i)))) ;!
          in_files (iupdate ip) ;!
          let! i := inode_of ip in
          (if type =? T_DIR then  (* Create . and .. entries. *)
             add_link dp 1 ;!
             (* No ip->nlink++ for ".": avoid cyclic ref count. *)
             let! r1 := in_files (dirlink ip (str ".") (i_inum i)) in
             let! r2 := (if r1 <? 0 then ret r1 else in_files (dirlink ip (str "..") (i_inum d))) in
             panic_if (r2 <? 0) "create dots"
           else ret tt) ;!
          let! r := in_files (dirlink dp name (i_inum i)) in
          panic_if (r <? 0) "create: dirlink" ;!
          in_files (iunlockput dp) ;!
          ret (Some ip)
      end
  end.

(** *** open() and the rest *)

(** The inode that open() finds or creates, locked. *)
Definition open_inode (path : list Z) (omode : Z) : M K (option nat) :=
  if bitset omode O_CREATE then create path T_FILE 0 0
  else
    let! ip := k_namei path in
    match ip with
    | None => ret None
    | Some ip =>
        in_files (ilock (Some ip)) ;!
        let! i := inode_of ip in
        if (i_type i =? T_DIR) && negb (omode =? O_RDONLY)
        then in_files (iunlockput ip) ;! ret None
        else ret (Some ip)
    end.
(** [f->type = FD_INODE; ...] *)
Definition open_file (f ip : nat) (omode : Z) : M K unit :=
  in_ft (on_file f (modify (fun x =>
    mk_file FD_INODE (f_ref x) (if bitset omode O_WRONLY then 0 else 1)
      (if bitset omode O_WRONLY || bitset omode O_RDWR then 1 else 0) (f_pipe x) (Some ip) 0))).
Definition sys_open : M K Z :=
  let! path := argstr 0 in
  let! omode := (match path with None => ret None | Some _ => argint 1 end) in
  match path, omode with
  | Some path, Some omode =>
      begin_op ;!
      let! ip := open_inode path omode in
      match ip with
      | None => end_op ;! ret (-1)
      | Some ip =>
          let! f := in_ft filealloc in
          let! fd := (match f with None => ret (-1) | Some f => fdalloc f end) in
          match f with
          | None =>
              in_files (iunlockput ip) ;! end_op ;! ret (-1)
          | Some f =>
              if fd <? 0 then fileclose f ;! in_files (iunlockput ip) ;! end_op ;! ret (-1)
              else
                in_files (iunlock (Some ip)) ;!
                end_op ;!
                open_file f ip omode ;!
                ret fd
          end
      end
  | _, _ => ret (-1)
  end.

(** The end of mkdir() and mknod(). *)
Definition create_and_put (path : list Z) (type major minor : Z) : M K Z :=
  let! ip := create path type major minor in
  match ip with
  | None => end_op ;! ret (-1)
  | Some ip => in_files (iunlockput ip) ;! end_op ;! ret 0
  end.
Definition sys_mkdir : M K Z :=
  begin_op ;!
  let! path := argstr 0 in
  match path with
  | None => end_op ;! ret (-1)
  | Some path => create_and_put path T_DIR 0 0
  end.
Definition sys_mknod : M K Z :=
  begin_op ;!
  let! path := argstr 0 in
  match path with
  | None => end_op ;! ret (-1)
  | Some path =>
      let! major := argint 1 in
      match major with
      | None => end_op ;! ret (-1)
      | Some major =>
          let! minor := argint 2 in
          match minor with
          | None => end_op ;! ret (-1)
          | Some minor => create_and_put path T_DEV (s16 major) (s16 minor)
          end
      end
  end.

Definition sys_chdir : M K Z :=
  begin_op ;!
  let! path := argstr 0 in
  let! ip := (match path with None => ret None | Some path => k_namei path end) in
  match ip with
  | None => end_op ;! ret (-1)
  | Some ip =>
      in_files (ilock (Some ip)) ;!
      let! i := inode_of ip in
      if negb (i_type i =? T_DIR) then in_files (iunlockput ip) ;! end_op ;! ret (-1)
      else
        in_files (iunlock (Some ip)) ;!
        let! d := cwd in
        let! old := deref d in
        in_files (iput old) ;!
        end_op ;!
        set_my (fun p => p <| p_cwd := Some ip |>) ;!
        ret 0
  end.

(** The loop of sys_exec(): [argv] so far; [None] for -1. *)
Fixpoint exec_args (fuel : nat) (uargv : Z) (argv : list (list Z)) : M K (option (list (list Z))) :=
  if (MAXARG <=? length argv)%nat then ret None else
  match fuel with
  | O => halt NoFuel
  | S fuel' =>
      let! uarg := fetchint (u32 (uargv + 4 * Z.of_nat (length argv))) in
      match uarg with
      | None => ret None
      | Some uarg =>
          if uarg =? 0 then ret (Some argv) else
          let! s := fetchstr (u32 uarg) in
          match s with
          | None => ret None
          | Some s => exec_args fuel' uargv (argv ++ [s])
          end
      end
  end.
Definition sys_exec (exec : list Z -> list (list Z) -> M K Z) : M K Z :=
  let! path := argstr 0 in
  let! uargv := (match path with None => ret None | Some _ => argint 1 end) in
  match path, uargv with
  | Some path, Some uargv =>
      let! argv := exec_args MAXARG (u32 uargv) [] in
      match argv with
      | None => ret (-1)
      | Some argv => exec path argv
      end
  | _, _ => ret (-1)
  end.

Definition sys_pipe : M K Z :=
  let! fd := argptr 0 8 in
  match fd with
  | None => ret (-1)
  | Some fd =>
      let! p := pipealloc in
      match p with
      | None => ret (-1)
      | Some (rf, wf) =>
          let! fd0 := fdalloc rf in
          let! fd1 := (if fd0 <? 0 then ret (-1) else fdalloc wf) in
          if (fd0 <? 0) || (fd1 <? 0) then
            (if 0 <=? fd0 then set_ofile (Z.to_nat fd0) None else ret tt) ;!
            fileclose rf ;!
            fileclose wf ;!
            ret (-1)
          else
            store_bytes fd [fd0; 0; 0; 0] ;!
            store_bytes (u32 (fd + 4)) [fd1; 0; 0; 0] ;!
            ret 0
      end
  end.
End Code.
