(* ===== verification/Exec.v ===== *)
(** * exec()

    [src/homeworks/xv6-public/exec.c]: a new address space is built beside
    the old one and takes its place only at the end.  The strings are
    lists; the ELF header and program headers are decoded from the bytes
    that readi() returns. *)
From S2P Require Import Prelude.
From S2P Require Import CString.
From S2P Require Import Kalloc.
From S2P Require Import Vm.
From S2P Require Import Layout.
From S2P Require Import Bio.
From S2P Require Import Tx.
From S2P Require Import Fs.
From S2P Require Import Pipe.
From S2P Require Import Proc.
From S2P Require Import File.
From S2P Require Import Syscall.
From S2P Require Import Sysfile.

Definition ELF_MAGIC : Z := 0x464C457F.
Definition ELF_PROG_LOAD : Z := 1.

(** The fields of struct elfhdr (52 bytes) and struct proghdr (32 bytes)
    that exec() uses. *)
Record elfhdr := mk_elf { elf_magic : Z; elf_entry : Z; elf_phoff : Z; elf_phnum : Z }.
Definition dec_elfhdr (b : list Z) : elfhdr :=
  mk_elf (get_u32 0 b) (get_u32 24 b) (get_u32 28 b) (get_u16 44 b).
Record proghdr := mk_ph { ph_type : Z; ph_off : Z; ph_vaddr : Z; ph_filesz : Z; ph_memsz : Z }.
Definition dec_proghdr (b : list Z) : proghdr :=
  mk_ph (get_u32 0 b) (get_u32 4 b) (get_u32 8 b) (get_u32 16 b) (get_u32 20 b).

Section Code.
Context `{Ctx} `{Linked} `{Pages} {T : Type} `{TxOps T} `{OpOps T} `{Devsw (fstate T)}.
#[local] Abbreviation K := (kstate (fsys T)).

(** The bytes of a list, stored from a kernel address on. *)
Fixpoint put_bytes (m : mem) (a : Z) (l : list Z) : mem :=
  match l with
  | [] => m
  | b :: l' => put_bytes (store8 m a b) (a + 1) l'
  end.

(** [readi(ip, addr, off, n)] to a kernel address. *)
Definition readi_to (ip : nat) (addr off n : Z) : M K Z :=
  let! r := in_files (readi ip off n) in
  in_mem (on_mem (fun m => put_bytes m addr (snd r))) ;!
  ret (fst r).

(** copyout() of bytes that are not in the new address space. *)
Fixpoint copyout_list_loop (fuel : nat) (pgdir va : Z) (buf : list Z) : M kmem Z :=
  match buf with
  | [] => ret 0
  | _ =>
    match fuel with
    | O => halt NoFuel
    | S fuel' =>
        let va0 := PGROUNDDOWN va in
        let! pa0 := uva2ka pgdir va0 in
        if pa0 =? 0 then ret (-1) else
        let len := Z.of_nat (length buf) in
        let n := PGSIZE - (va - va0) in
        let n := if len <? n then len else n in
        on_mem (fun m => put_bytes m (pa0 + (va - va0)) (take (Z.to_nat n) buf)) ;!
        copyout_list_loop fuel' pgdir (u32 (va0 + PGSIZE)) (drop (Z.to_nat n) buf)
    end
  end.
Definition copyout_list (pgdir va : Z) (buf : list Z) : M kmem Z :=
  copyout_list_loop (Z.to_nat (Z.of_nat (length buf) / PGSIZE + 2)) pgdir va buf.

(** The label [bad]. *)
Definition exec_bad (pgdir : Z) (ip : option nat) : M K Z :=
  (if negb (pgdir =? 0) then in_mem (freevm pgdir) else ret tt) ;!
  (match ip with
   | Some ip => in_files (iunlockput ip) ;! end_op
   | None => ret tt
   end) ;!
  ret (-1).

(** The loop over the program headers; [None] is [goto bad]. *)
Fixpoint load_segments (n : nat) (ip : nat) (pgdir off sz : Z) : M K (option Z) :=
  match n with
  | O => ret (Some sz)
  | S n' =>
      let! r := in_files (readi ip (u32 off) 32) in
      if negb (fst r =? 32) then ret None else
      let ph := dec_proghdr (snd r) in
      if negb (ph_type ph =? ELF_PROG_LOAD) then load_segments n' ip pgdir (s32 (off + 32)) sz
      else if ph_memsz ph <? ph_filesz ph then ret None
      else if u32 (ph_vaddr ph + ph_memsz ph) <? ph_vaddr ph then ret None
      else
        let! sz := in_mem (allocuvm pgdir sz (u32 (ph_vaddr ph + ph_memsz ph))) in
        if sz =? 0 then ret None
        else if negb (ph_vaddr ph mod PGSIZE =? 0) then ret None
        else
          let! r := loaduvm (fun A => in_mem) (readi_to ip) pgdir (ph_vaddr ph) (ph_off ph) (ph_filesz ph) in
          if r <? 0 then ret None
          else load_segments n' ip pgdir (s32 (off + 32)) sz
  end.

(** Push argument strings: the stack pointer and the pointers pushed. *)
Fixpoint push_args (pgdir sp : Z) (argv : list (list Z)) (argc : nat) (ustack : list Z) : M K (option (Z * list Z)) :=
  match argv with
  | [] => ret (Some (sp, ustack))
  | a :: argv' =>
      if (MAXARG <=? argc)%nat then ret None else
      let sp := Z.land (u32 (sp - (Z.of_nat (length a) + 1))) (u32 (Z.lnot 3)) in
      let! r := in_mem (copyout_list pgdir sp (a ++ [0])) in
      if r <? 0 then ret None
      else push_args pgdir sp argv' (S argc) (ustack ++ [sp])
  end.

Definition le32 (v : Z) : list Z := [u8 v; u8 (Z.shiftr v 8); u8 (Z.shiftr v 16); u8 (Z.shiftr v 24)].

(** The last component of the path: [if( *s == '/') last = s+1]. *)
Fixpoint last_elem (s last : list Z) : list Z :=
  match s with
  | [] => last
  | c :: s' => last_elem s' (if c =? 47 then s' else last)
  end.

(** The checks of switchuvm(); the rest loads the segment of the task and
    the page directory into the hardware. *)
Definition switchuvm (p : proc) : M K unit :=
  panic_if (p_kstack p =? 0) "switchuvm: no kstack" ;!
  panic_if (p_pgdir p =? 0) "switchuvm: no pgdir".

(** Commit to the user image. *)
Definition exec_commit (path : list Z) (pgdir sz entry sp : Z) : M K Z :=
  (* Save program name for debugging. *)
  set_my (fun p => p <| p_name ::= copy_name (last_elem path path) |>) ;!
  let! oldpgdir := my p_pgdir in
  set_my (fun p => p <| p_pgdir := pgdir |>) ;!
  set_my (fun p => p <| p_sz := sz |>) ;!
  set_my (fun p => p <| p_tf ::= fun tf => tf <| tf_eip := entry |> <| tf_esp := sp |> |>) ;!
  let! p := my id in
  switchuvm p ;!
  in_mem (freevm oldpgdir) ;!
  ret 0.

(** From the stack pages on: the inode is released. *)
Definition exec_stack (path : list Z) (argv : list (list Z)) (entry pgdir sz : Z) : M K Z :=
  (* Allocate two pages at the next page boundary. *)
  let sz := PGROUNDUP sz in
  let! sz := in_mem (allocuvm pgdir sz (u32 (sz + 2 * PGSIZE))) in
  if sz =? 0 then exec_bad pgdir None else
  in_mem (clearpteu pgdir (u32 (sz - 2 * PGSIZE))) ;!
  let! r := push_args pgdir sz argv 0 [] in
  match r with
  | None => exec_bad pgdir None
  | Some (sp, ptrs) =>
      let argc := Z.of_nat (length argv) in
      (* fake return PC, argc, argv pointer, then the pointers and a null *)
      let ustack := [0xffffffff; argc; u32 (sp - (argc + 1) * 4)] ++ ptrs ++ [0] in
      let sp := u32 (sp - (3 + argc + 1) * 4) in
      let! r := in_mem (copyout_list pgdir sp (concat (map le32 ustack))) in
      if r <? 0 then exec_bad pgdir None
      else exec_commit path pgdir sz entry sp
  end.

Definition exec (path : list Z) (argv : list (list Z)) : M K Z :=
  begin_op ;!
  let! ip := k_namei path in
  match ip with
  | None => end_op ;! ret (-1)
  | Some ip =>
      in_files (ilock (Some ip)) ;!
      (* Check ELF header *)
      let! r := in_files (readi ip 0 52) in
      if negb (fst r =? 52) then exec_bad 0 (Some ip) else
      let elf := dec_elfhdr (snd r) in
      if negb (elf_magic elf =? ELF_MAGIC) then exec_bad 0 (Some ip) else
      let! pgdir := in_mem setupkvm in
      if pgdir =? 0 then exec_bad pgdir (Some ip) else
      (* Load program into memory. *)
      let! sz := load_segments (Z.to_nat (elf_phnum elf)) ip pgdir (s32 (elf_phoff elf)) 0 in
      match sz with
      | None => exec_bad pgdir (Some ip)
      | Some sz =>
          in_files (iunlockput ip) ;!
          end_op ;!
          exec_stack path argv (elf_entry elf) pgdir sz
      end
  end.
End Code.
