(* ===== verification/Frame.v ===== *)
(** * What system calls leave alone

    A frame is a reflexive and transitive relation between the state before
    and after a call that returns.  The lemmas of [frames] reduce the frame
    of a function to those of its parts; [frame] applies them along its
    code. *)
From S2P Require Import Prelude.
From S2P Require Import Kalloc.
From S2P Require Import Vm.
From S2P Require Import Layout.
From S2P Require Import Bio.
From S2P Require Import Tx.
From S2P Require Import Fs.
From S2P Require Import Pipe.
From S2P Require Import Proc.
From S2P Require Import File.
From S2P Require Import Syscall.
From S2P Require Import Sysfile.
From S2P Require Import Exec.

(** [m] changes the state only along [R]. *)
Definition keeps {S A} (R : S -> S -> Prop) (m : M S A) : Prop := forall s a s', m s = Ret a s' -> R s s'.

Create HintDb frames discriminated.

Section Rules.
Context {S : Type} (R : S -> S -> Prop) `{!Reflexive R} `{!Transitive R}.

Lemma keeps_ret {A} (a : A) : keeps R (ret a).
Proof. intros s b s' [= _ <-]. reflexivity. Qed.
Lemma keeps_get {A} (f : S -> A) : keeps R (get f).
Proof. intros s b s' [= _ <-]. reflexivity. Qed.
Lemma keeps_halt {A} w : keeps R (halt (A := A) w).
Proof. intros s b s' [=]. Qed.
Lemma keeps_panic {A} msg : keeps R (panic (A := A) msg).
Proof. intros s b s' [=]. Qed.
Lemma keeps_panic_if bad msg : keeps R (panic_if bad msg).
Proof. destruct bad; [apply keeps_panic | apply keeps_ret]. Qed.
Lemma keeps_deref {A} (o : option A) : keeps R (deref o).
Proof. destruct o; [apply keeps_ret | apply keeps_halt]. Qed.
Lemma keeps_bind {A B} (m : M S A) (k : A -> M S B) :
  keeps R m -> (forall a, keeps R (k a)) -> keeps R (bind m k).
Proof. intros Hm Hk s b s' (a & s1 & E1 & E2)%bind_inv. etransitivity; [exact (Hm _ _ _ E1) | exact (Hk _ _ _ _ E2)]. Qed.
Lemma keeps_for_each {A X} (l : list A) (body : A -> M S (option X)) :
  (forall x, keeps R (body x)) -> keeps R (for_each l body).
Proof.
  intros Hb. induction l as [|x l IH]; cbn [for_each]; [apply keeps_ret|].
  apply keeps_bind; [apply Hb|]. intros [y|]; [apply keeps_ret | exact IH].
Qed.
End Rules.

Ltac frame_step :=
  match goal with
  | |- keeps _ (bind _ _) => apply keeps_bind; [typeclasses eauto | |intros]
  | |- keeps _ (let _ := _ in _) => cbv zeta
  | |- keeps _ (match ?x with _ => _ end) => destruct x
  | |- keeps _ (if ?x then _ else _) => destruct x
  | |- keeps _ (ret _) => apply keeps_ret
  | |- keeps _ (get _) => apply keeps_get
  | |- keeps _ (halt _) => apply keeps_halt
  | |- keeps _ (panic _) => apply keeps_panic
  | |- keeps _ (panic_if _ _) => apply keeps_panic_if
  | |- keeps _ (deref _) => apply keeps_deref
  | |- keeps _ (for_each _ _) => apply keeps_for_each; [try typeclasses eauto ..| intros]
  | |- keeps _ _ => solve [eauto 2 with frames nocore]
  end.
Ltac frame := repeat frame_step; try typeclasses eauto.

Section Frames.
Context `{Ctx} `{Linked} `{Pages} {T : Type} `{TxOps T} `{OpOps T} `{Devsw (fstate T)}.
#[local] Abbreviation K := (kstate (fsys T)).

(** The process table is the same. *)
Definition same_procs (s s' : K) : Prop := ks_pt s' = ks_pt s.
(** The process table and the table of open files are the same. *)
Definition same_fds (s s' : K) : Prop := ks_pt s' = ks_pt s /\ fy_ftable (ks_fs s') = fy_ftable (ks_fs s).

#[export] Instance same_procs_refl : Reflexive same_procs.
Proof. intros s. reflexivity. Qed.
#[export] Instance same_procs_trans : Transitive same_procs.
Proof. intros s s1 s2 Ha Hb. exact (eq_trans Hb Ha). Qed.
#[export] Instance same_fds_refl : Reflexive same_fds.
Proof. intros s. split; reflexivity. Qed.
#[export] Instance same_fds_trans : Transitive same_fds.
Proof. intros s s1 s2 [A1 B1] [A2 B2]. split; [exact (eq_trans A2 A1) | exact (eq_trans B2 B1)]. Qed.

(** A frame of the parts of the state that the calls of this file reach. *)
Class SysFrame (R : K -> K -> Prop) : Prop := {
  sf_refl :: Reflexive R;
  sf_trans :: Transitive R;
  sf_mem s x : R s (mk_ks (ks_pt s) x (ks_clock s) (ks_fs s));
  sf_files s x : R s (mk_ks (ks_pt s) (ks_mem s) (ks_clock s)
    (mk_fsys (fy_ftable (ks_fs s)) (fy_pipes (ks_fs s)) x));
  sf_pipes s x : R s (mk_ks (ks_pt s) (ks_mem s) (ks_clock s)
    (mk_fsys (fy_ftable (ks_fs s)) x (fy_fs (ks_fs s)))) }.
#[export] Instance same_procs_frame : SysFrame same_procs.
Proof. split; try typeclasses eauto; reflexivity. Qed.
#[export] Instance same_fds_frame : SysFrame same_fds.
Proof. split; try typeclasses eauto; split; reflexivity. Qed.

Section Any.
Context (R : K -> K -> Prop) `{!SysFrame R}.

Lemma keeps_in_mem {A} (m : M kmem A) : keeps R (in_mem m).
Proof. intros s a s' E. unfold in_mem, zoom in E. destruct (m (ks_mem s)); inversion E. apply sf_mem. Qed.
Lemma keeps_in_files {A} (m : M (fstate T) A) : keeps R (in_files m).
Proof.
  intros s a s' E. unfold in_files, zoom in E. destruct (m (fy_fs (ks_fs s))); inversion E. apply sf_files.
Qed.
(** Looking at the current process. *)
Lemma my_get {A} (f : proc -> A) (s : K) a s' : my f s = Ret a s' -> s' = s.
Proof.
  unfold my, in_pt, zoom, curproc, myproc, on_proc, zoom, elt, bind, get, deref, halt, ret.
  destruct (default None (pt_cpu (ks_pt s) !! cpu_id)) as [me|]; [|discriminate].
  destruct (pt_proc (ks_pt s) !! me) as [p|] eqn:Ep; [|discriminate]. intros [= _ <-].
  unfold set_field. cbn. rewrite list_insert_id by exact Ep. destruct s as [[] m c y]. reflexivity.
Qed.
Lemma keeps_my {A} (f : proc -> A) : keeps R (my f).
Proof. intros s a s' E. apply my_get in E. subst. reflexivity. Qed.
Lemma keeps_put_pipe page p : keeps R (put_pipe page p).
Proof. intros s a s' E. injection E as _ <-. apply sf_pipes. Qed.
End Any.
End Frames.
#[export] Hint Resolve keeps_in_mem keeps_in_files keeps_my keeps_put_pipe : frames.
#[export] Hint Extern 1 (SysFrame _) => typeclasses eauto : frames.

Section Derived.
Context `{Ctx} `{Linked} `{Pages} {T : Type} `{TxOps T} `{OpOps T} `{Devsw (fstate T)}.
#[local] Abbreviation K := (kstate (fsys T)).
Context (R : K -> K -> Prop) `{!SysFrame R}.

(** *** Memory and arguments *)
Lemma keeps_translate va : keeps R (translate va).
Proof. unfold translate. frame. Qed.
#[local] Hint Resolve keeps_translate : frames.
Lemma keeps_load_byte va : keeps R (load_byte va).
Proof. unfold load_byte. frame. Qed.
Lemma keeps_store_byte va v : keeps R (store_byte va v).
Proof. unfold store_byte. frame. Qed.
#[local] Hint Resolve keeps_load_byte keeps_store_byte : frames.
Lemma keeps_load_int va : keeps R (load_int va).
Proof. unfold load_int. frame. Qed.
Lemma keeps_load_bytes n : forall va, keeps R (load_bytes n va).
Proof. induction n; intros va; cbn [load_bytes]; frame. Qed.
Lemma keeps_store_bytes l : forall va, keeps R (store_bytes va l).
Proof. induction l; intros va; cbn [store_bytes]; frame. Qed.
#[local] Hint Resolve keeps_load_int keeps_load_bytes keeps_store_bytes : frames.
Lemma keeps_fetchint a : keeps R (fetchint a).
Proof. unfold fetchint. frame. Qed.
Lemma keeps_fetchstr_loop fuel : forall s ep, keeps R (fetchstr_loop fuel s ep).
Proof. induction fuel; intros s ep; cbn [fetchstr_loop]; frame. Qed.
#[local] Hint Resolve keeps_fetchint keeps_fetchstr_loop : frames.
Lemma keeps_fetchstr a : keeps R (fetchstr a).
Proof. unfold fetchstr. frame. Qed.
Lemma keeps_argint n : keeps R (argint n).
Proof. unfold argint. frame. Qed.
#[local] Hint Resolve keeps_fetchstr keeps_argint : frames.
Lemma keeps_argptr n size : keeps R (argptr n size).
Proof. unfold argptr. frame. Qed.
Lemma keeps_argstr n : keeps R (argstr n).
Proof. unfold argstr. frame. Qed.
Lemma keeps_argfd n : keeps R (argfd n).
Proof. unfold argfd. frame. Qed.
#[local] Hint Resolve keeps_argptr keeps_argstr keeps_argfd : frames.

(** *** The file system below the table of open files *)
Lemma keeps_begin_op : keeps R begin_op.
Proof. unfold begin_op. frame. Qed.
Lemma keeps_end_op : keeps R end_op.
Proof. unfold end_op. frame. Qed.
Lemma keeps_namei path : keeps R (k_namei path).
Proof. unfold k_namei, cwd. frame. Qed.
Lemma keeps_nameiparent path : keeps R (k_nameiparent path).
Proof. unfold k_nameiparent, cwd. frame. Qed.
Lemma keeps_inode_of ip : keeps R (inode_of ip).
Proof. unfold inode_of. frame. Qed.
Lemma keeps_add_link ip d : keeps R (add_link ip d).
Proof. unfold add_link. frame. Qed.
#[local] Hint Resolve keeps_begin_op keeps_end_op keeps_namei keeps_nameiparent keeps_inode_of keeps_add_link : frames.
Lemma keeps_create path type major minor : keeps R (create path type major minor).
Proof. unfold create. frame. Qed.
#[local] Hint Resolve keeps_create : frames.
Lemma keeps_open_inode path omode : keeps R (open_inode path omode).
Proof. unfold open_inode. frame. Qed.
Lemma keeps_on_page {A} page (m : M pipe A) : keeps R (on_page page m).
Proof. unfold on_page. frame. Qed.
#[local] Hint Resolve keeps_open_inode @keeps_on_page : frames.

Lemma keeps_forget page : keeps R (zoom ks_fs (modify (fun s => s <| fy_pipes ::= delete page |>))).
Proof. intros s a s' E. injection E as _ <-. apply sf_pipes. Qed.
#[local] Hint Resolve keeps_forget : frames.
Lemma keeps_close_pipe page w : keeps R (close_pipe page w).
Proof. unfold close_pipe. frame. Qed.
#[local] Hint Resolve keeps_close_pipe : frames.

Lemma keeps_close_last last : keeps R (close_last last).
Proof. unfold close_last. frame. Qed.

(** *** exec() up to its commit *)
Lemma keeps_readi_to ip addr off n : keeps R (readi_to ip addr off n).
Proof. unfold readi_to. frame. Qed.
#[local] Hint Resolve keeps_readi_to : frames.
Lemma keeps_loaduvm ip pgdir addr offset sz :
  keeps R (loaduvm (fun A => in_mem) (readi_to ip) pgdir addr offset sz).
Proof.
  unfold loaduvm. frame. generalize (Z.to_nat (sz / PGSIZE + 1)) as fuel. generalize 0 as i.
  intros i fuel. revert i. induction fuel; intros i; cbn [loaduvm_loop]; frame.
Qed.
#[local] Hint Resolve keeps_loaduvm : frames.
Lemma keeps_exec_bad pgdir ip : keeps R (exec_bad pgdir ip).
Proof. unfold exec_bad. frame. Qed.
Lemma keeps_load_segments n ip pgdir : forall off sz, keeps R (load_segments n ip pgdir off sz).
Proof. induction n; intros off sz; cbn [load_segments]; frame. Qed.
Lemma keeps_push_args pgdir argv : forall sp argc u, keeps R (push_args pgdir sp argv argc u).
Proof. induction argv; intros sp argc u; cbn [push_args]; frame. Qed.
End Derived.
#[export] Hint Resolve keeps_translate keeps_load_byte keeps_store_byte keeps_load_int keeps_load_bytes
  keeps_store_bytes keeps_fetchint keeps_fetchstr_loop keeps_fetchstr keeps_argint keeps_argptr keeps_argstr
  keeps_argfd keeps_begin_op keeps_end_op keeps_namei keeps_nameiparent keeps_inode_of keeps_add_link
  keeps_create keeps_open_inode keeps_on_page keeps_close_pipe keeps_close_last keeps_readi_to keeps_loaduvm
  keeps_exec_bad keeps_load_segments keeps_push_args : frames.
