(* ===== verification/FdProofs.v ===== *)
(** * Reference counts of open files

    The [ref] field of a file is the number of descriptors, in all
    processes, that hold it: every system call of [Sysfile.v] keeps the
    count exact, on its error paths too.  Inside a call the two differ for
    the files it has in hand; [books d] says that they differ by [d]. *)
From S2P Require Import Prelude.
From S2P Require Import Kalloc.
From S2P Require Import Vm.
From S2P Require Import Sleeplock.
From S2P Require Import Layout.
From S2P Require Import Bio.
From S2P Require Import Tx.
From S2P Require Import Fs.
From S2P Require Import Pipe.
From S2P Require Import Proc.
From S2P Require Import File.
From S2P Require Import Syscall.
From S2P Require Import Shell.
From S2P Require Import Sysfile.
From S2P Require Import Exec.
From S2P Require Import Frame.

(** How often a file occurs among the descriptors of a process. *)
Definition held (f : nat) (l : list (option nat)) : nat := length (filter (fun x => x = Some f) l).
Definition holders (ls : list (list (option nat))) (f : nat) : nat := list_sum (map (held f) ls).

Definition one (f g : nat) : Z := if decide (f = g) then 1 else 0.

Lemma held_insert f l : forall fd old new, l !! fd = Some old ->
  Z.of_nat (held f (<[fd := new]> l)) = Z.of_nat (held f l)
    - (if decide (old = Some f) then 1 else 0) + (if decide (new = Some f) then 1 else 0).
Proof.
  unfold held. induction l as [|x l IH]; intros [|fd] old new E; cbn in E; try discriminate.
  - injection E as ->. change (<[0%nat := new]> (old :: l)) with (new :: l). rewrite !filter_cons.
    repeat case_decide; cbn [length]; lia.
  - change (<[S fd := new]> (x :: l)) with (x :: <[fd := new]> l). rewrite !filter_cons.
    specialize (IH fd old new E). repeat case_decide; cbn [length]; lia.
Qed.
Lemma held_bound f l : (held f l <= length l)%nat.
Proof. apply length_filter. Qed.
Lemma holders_cons l ls f : holders (l :: ls) f = (held f l + holders ls f)%nat.
Proof. reflexivity. Qed.
Lemma holders_insert f ls i l l' : ls !! i = Some l ->
  Z.of_nat (holders (<[i := l']> ls) f) = Z.of_nat (holders ls f) - Z.of_nat (held f l) + Z.of_nat (held f l').
Proof.
  revert i. induction ls as [|x ls IH]; intros [|i] E; cbn in E; try discriminate.
  - injection E as ->. change (<[0%nat := l']> (l :: ls)) with (l' :: ls). rewrite !holders_cons. lia.
  - change (<[S i := l']> (x :: ls)) with (x :: <[i := l']> ls). specialize (IH i E). rewrite !holders_cons. lia.
Qed.
Lemma holders_bound ls f n : Forall (fun l => length l = n) ls -> (holders ls f <= length ls * n)%nat.
Proof.
  induction 1 as [|l ls Hl _ IH]; [cbn; lia|]. rewrite holders_cons. cbn [length]. pose proof (held_bound f l). lia.
Qed.

Section Fd.
Context `{Ctx} `{Linked} `{Pages} {T : Type} `{TxOps T} `{OpOps T} `{Devsw (fstate T)}.
#[local] Abbreviation K := (kstate (fsys T)).

Definition ofiles (s : K) : list (list (option nat)) := map p_ofile (pt_proc (ks_pt s)).
Definition refs (s : K) : list Z := map f_ref (ft_file (fy_ftable (ks_fs s))).

Record books (d : nat -> Z) (s : K) : Prop := {
  b_procs : length (ofiles s) = NPROC;
  b_fds : Forall (fun l => length l = NOFILE) (ofiles s);
  b_refs : forall f r, refs s !! f = Some r -> r = Z.of_nat (holders (ofiles s) f) + d f }.

(** Every count is exact. *)
Definition refs_ok : K -> Prop := books (fun _ => 0).

(** Descriptors and counts are the same. *)
Definition same_refs (s s' : K) : Prop := ofiles s' = ofiles s /\ refs s' = refs s.
#[export] Instance same_refs_frame : SysFrame same_refs.
Proof.
  split; try (intros; split; reflexivity).
  intros s s1 s2 [A1 B1] [A2 B2]. split; etransitivity; eassumption.
Qed.
Lemma books_same d s s' : same_refs s s' -> books d s -> books d s'.
Proof. intros [Ho Hr] [B1 B2 B3]. split; rewrite ?Ho, ?Hr; assumption. Qed.
Lemma books_ext d d' s : (forall f, d f = d' f) -> books d s -> books d' s.
Proof. intros E [B1 B2 B3]. split; auto. intros f r Hr. rewrite <- E. auto. Qed.
Lemma books_bound d s f r : books d s -> refs s !! f = Some r -> d f <= r <= 1024 + d f.
Proof.
  intros [B1 B2 B3] E. pose proof (holders_bound _ f _ B2) as Hb. rewrite B1 in Hb.
  change (NPROC * NOFILE)%nat with 1024%nat in Hb. specialize (B3 f r E). lia.
Qed.

(** *** The parts of the calls *)

(** Triples: from balance [d], [m] returns with balance [d' a]. *)
Definition moves {A} (d : nat -> Z) (m : M K A) (d' : A -> nat -> Z) : Prop :=
  forall s a s', m s = Ret a s' -> books d s -> books (d' a) s'.

Lemma moves_frame {A} d (m : M K A) : keeps same_refs m -> moves d m (fun _ => d).
Proof. intros Hk s a s' E B. exact (books_same d s s' (Hk s a s' E) B). Qed.
Lemma moves_bind {A B} d d1 d2 (m : M K A) (k : A -> M K B) :
  moves d m d1 -> (forall a, moves (d1 a) (k a) d2) -> moves d (bind m k) d2.
Proof. intros Hm Hk s b s' (a & s1 & E1 & E2)%bind_inv B0. eapply Hk; [exact E2|]. eapply Hm; eassumption. Qed.
(** A part that keeps the balance. *)
Lemma moves_skip {A B} d d2 (m : M K A) (k : A -> M K B) :
  keeps same_refs m -> (forall a, moves d (k a) d2) -> moves d (bind m k) d2.
Proof. intros Hm Hk. eapply moves_bind; [apply moves_frame; exact Hm | exact Hk]. Qed.
Lemma moves_ext {A} d d1 d2 (m : M K A) : moves d m d1 -> (forall a f, d1 a f = d2 a f) -> moves d m d2.
Proof. intros Hm E s a s' Es B. eapply books_ext; [apply E|]. eapply Hm; eassumption. Qed.
Lemma moves_ret {A} d (a : A) d' : (forall f, d f = d' a f) -> moves d (ret a) d'.
Proof. intros E s b s' [= <- <-]. apply books_ext. exact E. Qed.

(** [set_my] and accesses to a file, as equations. *)
Lemma set_my_inv g (s : K) a s' : set_my g s = Ret a s' ->
  exists me p, pt_cpu (ks_pt s) !! cpu_id = Some (Some me) /\ pt_proc (ks_pt s) !! me = Some p /\
    pt_proc (ks_pt s') = <[me := g p]> (pt_proc (ks_pt s)) /\ pt_cpu (ks_pt s') = pt_cpu (ks_pt s) /\
    ks_fs s' = ks_fs s.
Proof.
  unfold set_my, in_pt, zoom, curproc, myproc, on_proc, zoom, elt, bind, get, deref, halt, ret, modify.
  destruct (pt_cpu (ks_pt s) !! cpu_id) as [[me|]|] eqn:Ec; cbn [default id from_option]; [|discriminate..].
  destruct (pt_proc (ks_pt s) !! me) as [p|] eqn:Ep; [|discriminate]. intros [= _ <-].
  exists me, p. repeat split. exact Ep.
Qed.
Lemma my_eq {A} (f : proc -> A) (s : K) a s' : my f s = Ret a s' -> s' = s /\
  exists me p, pt_cpu (ks_pt s) !! cpu_id = Some (Some me) /\ pt_proc (ks_pt s) !! me = Some p /\ a = f p.
Proof.
  intros E. split; [eapply my_get; exact E|]. revert E.
  unfold my, in_pt, zoom, curproc, myproc, on_proc, zoom, elt, bind, get, deref, halt, ret.
  destruct (pt_cpu (ks_pt s) !! cpu_id) as [[me|]|] eqn:Ec; cbn [default id from_option]; [|discriminate..].
  destruct (pt_proc (ks_pt s) !! me) as [p|] eqn:Ep; [|discriminate]. intros [= <- _].
  exists me, p. auto.
Qed.
Lemma on_file_inv {A} f (m : M file A) (t : ftable) a t' : on_file f m t = Ret a t' ->
  exists x y, ft_file t !! f = Some x /\ m x = Ret a y /\ ft_file t' = <[f := y]> (ft_file t) /\ ft_lock t' = ft_lock t.
Proof.
  unfold on_file, zoom, elt. destruct (ft_file t !! f) as [x|]; [|discriminate].
  destruct (m x) as [b y|] eqn:E; [|discriminate]. intros [= <- <-]. exists x, y. auto.
Qed.
Lemma in_ft_inv {A} (m : M ftable A) (s : K) a s' : in_ft m s = Ret a s' ->
  ks_pt s' = ks_pt s /\ m (fy_ftable (ks_fs s)) = Ret a (fy_ftable (ks_fs s')).
Proof.
  unfold in_ft, zoom. destruct (m (fy_ftable (ks_fs s))) as [b t|] eqn:E; [|discriminate]. intros [= <- <-]. auto.
Qed.

(** Updates that concern neither descriptors nor counts. *)
Lemma keeps_set_my g : (forall p, p_ofile (g p) = p_ofile p) -> keeps same_refs (set_my g).
Proof.
  intros Hg s a s' (me & p & _ & Ep & E & _ & Ef)%set_my_inv. split; unfold ofiles, refs; [|rewrite Ef; reflexivity].
  rewrite E. rewrite <- (list_insert_id (map p_ofile (pt_proc (ks_pt s))) me (p_ofile p)) by
    (rewrite list_lookup_fmap, Ep; reflexivity).
  rewrite <- Hg. apply list_fmap_insert.
Qed.
Lemma keeps_on_file f g : (forall x, f_ref (g x) = f_ref x) -> keeps same_refs (in_ft (on_file f (modify g))).
Proof.
  intros Hg s a s' [Ep E]%in_ft_inv. apply on_file_inv in E as (x & y & Ex & [= _ <-] & E & _).
  split; unfold ofiles, refs; [rewrite Ep; reflexivity|]. rewrite E.
  rewrite <- (list_insert_id (map f_ref (ft_file (fy_ftable (ks_fs s)))) f (f_ref x)) by
    (rewrite list_lookup_fmap, Ex; reflexivity).
  rewrite <- Hg. apply list_fmap_insert.
Qed.
Lemma keeps_get_file f : keeps same_refs (in_ft (on_file f (get id))).
Proof.
  intros s a s' [Ep E]%in_ft_inv. apply on_file_inv in E as (x & y & Ex & [= _ <-] & E & _).
  split; unfold ofiles, refs; [rewrite Ep; reflexivity|]. rewrite E. rewrite list_insert_id by exact Ex. reflexivity.
Qed.

Definition plus (d : nat -> Z) (f : nat) (n : Z) : nat -> Z := fun g => d g + n * one f g.

Lemma refs_insert (files : list file) f x y (d : nat -> Z) n (P : nat -> Z) :
  files !! f = Some x -> f_ref y = f_ref x + n ->
  (forall g r, map f_ref files !! g = Some r -> r = P g + d g) ->
  forall g r, map f_ref (<[f := y]> files) !! g = Some r -> r = P g + plus d f n g.
Proof.
  intros Ex Hy Hb g r E. unfold plus, one. rewrite list_lookup_fmap in E. destruct (decide (f = g)) as [->|Hn].
  - rewrite list_lookup_insert_eq in E by (eapply lookup_lt_Some; exact Ex). injection E as <-.
    rewrite Hy, (Hb g (f_ref x)) by (rewrite list_lookup_fmap, Ex; reflexivity). lia.
  - rewrite list_lookup_insert_ne in E by exact Hn. rewrite (Hb g r) by (rewrite list_lookup_fmap; exact E). lia.
Qed.

Lemma in_ft_books {A} d d' (m : M ftable A) (s : K) a s' : in_ft m s = Ret a s' -> books d s ->
  (forall P, (forall g r, refs s !! g = Some r -> r = P g + d g) ->
     forall g r, refs s' !! g = Some r -> r = P g + d' g) -> books d' s'.
Proof.
  intros [Ep _]%in_ft_inv [B1 B2 B3] Hr. split; unfold ofiles; rewrite ?Ep; [exact B1 | exact B2 |].
  intros g r E. exact (Hr (fun g => Z.of_nat (holders (ofiles s) g)) B3 g r E).
Qed.

Lemma locked_files (t t1 : ftable) u : zoom ft_lock acquire t = Ret u t1 -> ft_file t1 = ft_file t.
Proof.
  unfold zoom, acquire. destruct (ft_lock t); [destruct (decide _); discriminate|]. intros [= _ <-]. reflexivity.
Qed.
Lemma unlocked_files (t t1 : ftable) u : zoom ft_lock release t = Ret u t1 -> ft_file t1 = ft_file t.
Proof. unfold zoom, release. destruct (decide _); [|discriminate]. intros [= _ <-]. reflexivity. Qed.
(** An update of one file. *)
Lemma on_file_modify f g (t t1 : ftable) u : on_file f (modify g) t = Ret u t1 ->
  exists x, ft_file t !! f = Some x /\ ft_file t1 = <[f := g x]> (ft_file t).
Proof. intros (x & y & Ex & [= _ <-] & E & _)%on_file_inv. exists x. auto. Qed.
Lemma on_file_get f (t : ftable) x t1 : on_file f (get id) t = Ret x t1 -> ft_file t !! f = Some x /\ ft_file t1 = ft_file t.
Proof.
  intros (x' & y & Ex & [= <- <-] & E & _)%on_file_inv. split; [exact Ex|]. rewrite E. apply list_insert_id. exact Ex.
Qed.

Lemma filealloc_inv (t t' : ftable) r : filealloc t = Ret r t' ->
  match r with
  | Some f => exists x y, ft_file t !! f = Some x /\ f_ref x = 0 /\ f_ref y = 1 /\ ft_file t' = <[f := y]> (ft_file t)
  | None => ft_file t' = ft_file t
  end.
Proof.
  unfold filealloc. intros (u & t1 & E1%locked_files & E)%bind_inv.
  unfold bind at 1, get at 1 in E. rewrite E1 in E.
  destruct (list_find _ (ft_file t)) as [[f x]|] eqn:Ef.
  - apply list_find_Some in Ef as (Ex & Hx & _).
    apply bind_inv in E as (v & t2 & (x' & Ex' & E2)%on_file_modify & E).
    apply bind_inv in E as (w & t3 & E3%unlocked_files & [= <- <-]).
    rewrite E1, Ex in Ex'. injection Ex' as <-. rewrite E1 in E2. rewrite E2 in E3.
    exists x. eexists. repeat split; [exact Ex | exact Hx | | exact E3]. reflexivity.
  - apply bind_inv in E as (w & t3 & E3%unlocked_files & [= <- <-]). rewrite E3. exact E1.
Qed.
Lemma filedup_inv (t t' : ftable) f r : filedup f t = Ret r t' ->
  exists x y, ft_file t !! f = Some x /\ 1 <= f_ref x /\ f_ref y = s32 (f_ref x + 1) /\ ft_file t' = <[f := y]> (ft_file t).
Proof.
  unfold filedup. intros (u & t1 & E1%locked_files & E)%bind_inv.
  apply bind_inv in E as (x & t2 & (Ex & E2)%on_file_get & E).
  apply bind_inv in E as (v & t3 & (Hr & ->)%panic_if_inv & E).
  apply bind_inv in E as (w & t4 & (x' & Ex' & E4)%on_file_modify & E).
  apply bind_inv in E as (w' & t5 & E5%unlocked_files & [= <- <-]).
  rewrite E2, E1 in *. rewrite Ex in Ex'. injection Ex' as <-. apply Z.ltb_ge in Hr.
  exists x. eexists. repeat split; [exact Ex | exact Hr | | rewrite E5; exact E4]. reflexivity.
Qed.
Lemma fileclose_ref_inv (t t' : ftable) f r : fileclose_ref f t = Ret r t' ->
  exists x y, ft_file t !! f = Some x /\ 1 <= f_ref x /\
    f_ref y = Z.max 0 (s32 (f_ref x - 1)) /\ ft_file t' = <[f := y]> (ft_file t).
Proof.
  unfold fileclose_ref. intros (u & t1 & E1%locked_files & E)%bind_inv.
  apply bind_inv in E as (x & t2 & (Ex & E2)%on_file_get & E).
  apply bind_inv in E as (v & t3 & (Hr & ->)%panic_if_inv & E).
  apply bind_inv in E as (w & t4 & (x' & Ex' & E4)%on_file_modify & E).
  apply bind_inv in E as (ff & t5 & (Ef & E5)%on_file_get & E).
  rewrite E2, E1 in *. rewrite Ex in Ex'. injection Ex' as <-. apply Z.ltb_ge in Hr.
  assert (Hlt := lookup_lt_Some _ _ _ Ex).
  rewrite E4, list_lookup_insert_eq in Ef by exact Hlt. injection Ef as <-. cbn [f_ref] in E.
  destruct (0 <? _) eqn:Hp; apply bind_inv in E as (w2 & t6 & E6 & E).
  - injection E as _ <-. apply unlocked_files in E6. apply Z.ltb_lt in Hp.
    exists x. eexists. repeat split; [exact Ex | exact Hr | | rewrite E6, E5; exact E4]. cbn in *. lia.
  - apply on_file_modify in E6 as (x6 & Ex6 & E6). apply bind_inv in E as (w3 & t7 & (x7 & Ex7 & E7)%on_file_modify & E).
    apply bind_inv in E as (w4 & t8 & E8%unlocked_files & [= _ <-]). apply Z.ltb_ge in Hp.
    rewrite E8, E7, E6, E5, E4, !list_insert_insert_eq. exists x. eexists.
    repeat split; [exact Ex | exact Hr | ]. rewrite E6, list_lookup_insert_eq in Ex7 by (rewrite E5, E4, length_insert; exact Hlt).
    injection Ex7 as <-. cbn in *. lia.
Qed.

(** A change of one count by [n]. *)
Lemma one_ref_books {A} d f n (m : M ftable A) (s : K) a s' x y :
  in_ft m s = Ret a s' -> books d s ->
  ft_file (fy_ftable (ks_fs s)) !! f = Some x -> f_ref y = f_ref x + n ->
  ft_file (fy_ftable (ks_fs s')) = <[f := y]> (ft_file (fy_ftable (ks_fs s))) -> books (plus d f n) s'.
Proof.
  intros E B Ex Hy Ey. eapply in_ft_books; [exact E | exact B|]. intros P HP g r.
  unfold refs. rewrite Ey. exact (refs_insert _ f x y d n P Ex Hy HP g r).
Qed.

Lemma filealloc_moves d : moves d (in_ft filealloc)
  (fun r => match r with Some f => plus d f 1 | None => d end).
Proof.
  intros s a s' E B. pose proof (in_ft_inv _ _ _ _ E) as [_ Ea]. apply filealloc_inv in Ea. destruct a as [f|].
  - destruct Ea as (x & y & Ex & Hx & Hy & Ey). exact (one_ref_books d f 1 _ _ _ _ x y E B Ex ltac:(lia) Ey).
  - eapply in_ft_books; [exact E | exact B|]. intros P HP. unfold refs. rewrite Ea. exact HP.
Qed.
Lemma ref_small d s f x : books d s -> ft_file (fy_ftable (ks_fs s)) !! f = Some x -> d f <= 2 -> f_ref x <= 1026.
Proof.
  intros B Ex Hd. pose proof (books_bound d s f (f_ref x) B) as Hb. unfold refs in Hb.
  rewrite list_lookup_fmap, Ex in Hb. specialize (Hb eq_refl). lia.
Qed.
Lemma filedup_moves d f : d f <= 2 -> moves d (in_ft (filedup f)) (fun _ => plus d f 1).
Proof.
  intros Hd s a s' E B. pose proof (in_ft_inv _ _ _ _ E) as [_ Ea].
  apply filedup_inv in Ea as (x & y & Ex & Hx & Hy & Ey). pose proof (ref_small d s f x B Ex Hd) as Hs.
  apply (one_ref_books d f 1 _ _ _ _ x y E B Ex); [|exact Ey]. rewrite Hy. unfold s32. clear -Hx Hs. dlia.
Qed.
Lemma fileclose_ref_moves d f : d f <= 2 -> moves d (in_ft (fileclose_ref f)) (fun _ => plus d f (-1)).
Proof.
  intros Hd s a s' E B. pose proof (in_ft_inv _ _ _ _ E) as [_ Ea].
  apply fileclose_ref_inv in Ea as (x & y & Ex & Hx & Hy & Ey). pose proof (ref_small d s f x B Ex Hd) as Hs.
  apply (one_ref_books d f (-1) _ _ _ _ x y E B Ex); [|exact Ey]. rewrite Hy. unfold s32. clear -Hx Hs. dlia.
Qed.
Lemma fileclose_moves d f : d f <= 2 -> moves d (fileclose f) (fun _ => plus d f (-1)).
Proof.
  intros Hd. unfold fileclose. eapply moves_bind; [apply fileclose_ref_moves; exact Hd|]. intros last.
  apply moves_frame. apply keeps_close_last. typeclasses eauto.
Qed.

(** A descriptor changes from [old] to [new]. *)
Definition fd_delta (old new : option nat) (g : nat) : Z :=
  (if decide (old = Some g) then 1 else 0) - (if decide (new = Some g) then 1 else 0).
Lemma ofile_books d i p fd new old (s s' : K) : books d s ->
  pt_proc (ks_pt s) !! i = Some p -> p_ofile p !! fd = Some old ->
  pt_proc (ks_pt s') = <[i := p <| p_ofile ::= <[fd := new]> |>]> (pt_proc (ks_pt s)) -> ks_fs s' = ks_fs s ->
  books (fun g => d g + fd_delta old new g) s'.
Proof.
  intros [B1 B2 B3] Ep Eo E Ef.
  assert (Em : ofiles s !! i = Some (p_ofile p)) by (unfold ofiles; rewrite list_lookup_fmap, Ep; reflexivity).
  assert (Eo' : ofiles s' = <[i := <[fd := new]> (p_ofile p)]> (ofiles s)).
  { unfold ofiles. rewrite E. change (<[fd := new]> (p_ofile p)) with (p_ofile (p <| p_ofile ::= <[fd := new]> |>)).
    apply list_fmap_insert. }
  assert (Hl : length (p_ofile p) = NOFILE) by exact (Forall_lookup_1 _ _ _ _ B2 Em).
  split.
  - rewrite Eo', length_insert. exact B1.
  - rewrite Eo'. apply Forall_insert; [exact B2|]. rewrite length_insert. exact Hl.
  - intros f r Hr. unfold refs in Hr. rewrite Ef in Hr. specialize (B3 f r Hr).
    rewrite Eo', (holders_insert f _ _ _ _ Em). pose proof (held_insert f _ fd old new Eo) as Hh.
    unfold fd_delta. repeat case_decide; lia.
Qed.
Lemma set_ofile_books d fd new old me p (s : K) a s' :
  set_ofile fd new s = Ret a s' -> books d s ->
  pt_cpu (ks_pt s) !! cpu_id = Some (Some me) -> pt_proc (ks_pt s) !! me = Some p -> p_ofile p !! fd = Some old ->
  books (fun g => d g + fd_delta old new g) s'.
Proof.
  unfold set_ofile. intros (me' & p' & Ec & Ep & E & _ & Ef)%set_my_inv B Ec' Ep' Eo.
  rewrite Ec in Ec'. injection Ec' as <-. rewrite Ep in Ep'. injection Ep' as <-.
  exact (ofile_books d me' p' fd new old s s' B Ep Eo E Ef).
Qed.

Lemma fdalloc_moves d f : moves d (fdalloc f) (fun fd => if fd <? 0 then d else plus d f (-1)).
Proof.
  intros s a s' E B. unfold fdalloc in E. apply bind_inv in E as (ofile & s1 & E1 & E).
  apply my_eq in E1 as (-> & me & p & Ec & Ep & ->).
  destruct (list_find _ _) as [[fd x]|] eqn:Ef.
  - apply list_find_Some in Ef as (Ex & -> & _). apply lookup_take_Some in Ex as [Ex _].
    apply bind_inv in E as (u & s2 & E2 & [= <- <-]).
    assert ((Z.of_nat fd <? 0) = false) as -> by (apply Z.ltb_ge; lia).
    eapply books_ext; [|exact (set_ofile_books d fd (Some f) None me p s u s2 E2 B Ec Ep Ex)].
    intros g. unfold fd_delta, plus, one. destruct (decide (f = g)) as [->|Hn].
    + rewrite decide_False, decide_True by congruence. lia.
    + rewrite decide_False, decide_False by congruence. lia.
  - injection E as <- <-. exact B.
Qed.

(** *** The calls *)

Lemma argfd_inv n (s : K) fd f s' : argfd n s = Ret (Some (fd, f)) s' ->
  same_refs s s' /\ 0 <= fd < Z.of_nat NOFILE /\
  exists me p, pt_cpu (ks_pt s') !! cpu_id = Some (Some me) /\ pt_proc (ks_pt s') !! me = Some p /\
    p_ofile p !! Z.to_nat fd = Some (Some f).
Proof.
  intros E. split; [exact (keeps_argfd same_refs n s _ s' E)|]. revert E. unfold argfd.
  intros (fd' & s1 & E1 & E)%bind_inv. destruct fd' as [fd'|]; [|discriminate].
  destruct ((fd' <? 0) || _) eqn:Eb; [discriminate|]. apply orb_false_iff in Eb as [Hl%Z.ltb_ge Hh%Z.leb_gt].
  apply bind_inv in E as (ofile & s2 & E2 & E). apply my_eq in E2 as (-> & me & p & Ec & Ep & ->).
  destruct (p_ofile p !! Z.to_nat fd') as [[f'|]|] eqn:Eo; cbn [default id from_option] in E; [|discriminate..].
  injection E as -> -> ->. split; [lia|]. exists me, p. auto.
Qed.

(** The descriptor passed to a file and back: the balance of a call. *)
Ltac balance := intros ?; unfold plus, one; repeat case_decide; subst; try congruence; lia.

Definition settled {A} (m : M K A) : Prop := moves (fun _ => 0) m (fun _ _ => 0).

Lemma settled_frame {A} (m : M K A) : keeps same_refs m -> settled m.
Proof. apply moves_frame. Qed.

Lemma sys_dup_settled : settled sys_dup.
Proof.
  unfold settled, sys_dup. apply moves_skip; [frame|]. intros [[fd f]|]; [|apply moves_ret; reflexivity].
  eapply moves_bind; [apply fdalloc_moves|]. intros fd'. cbv beta. destruct (fd' <? 0); [apply moves_ret; reflexivity|].
  eapply moves_bind; [apply filedup_moves; unfold plus, one; case_decide; lia|]. intros ?. apply moves_ret. balance.
Qed.
Lemma sys_close_settled : settled sys_close.
Proof.
  intros s v s' E B. unfold sys_close in E. apply bind_inv in E as (a & s1 & E1 & E). destruct a as [[fd f]|].
  - apply argfd_inv in E1 as (Hs & _ & me & p & Ec & Ep & Eo). apply (books_same _ _ _ Hs) in B.
    apply bind_inv in E as (u & s2 & E2 & E). apply (set_ofile_books _ _ _ _ _ _ _ _ _ E2 B Ec Ep) in Eo.
    apply bind_inv in E as (u2 & s3 & E3 & [= _ <-]).
    eapply books_ext; [|eapply (fileclose_moves _ f); [|exact E3 | exact Eo]]; cbv beta; unfold fd_delta.
    + intros g. unfold plus, one. destruct (decide (Some f = Some g)) as [[= ->]|]; rewrite ?decide_True by reflexivity;
        repeat case_decide; try congruence; lia.
    + repeat case_decide; lia.
  - injection E as _ <-. apply (books_same _ _ _ (keeps_argfd same_refs 0 s None s1 E1) B).
Qed.

(** The calls that hand out or drop no descriptor. *)
#[local] Hint Resolve keeps_get_file : frames.
Lemma keeps_killed : keeps same_refs (in_pt killed).
Proof. change (in_pt killed) with (my p_killed : M K Z). frame. Qed.
Lemma keeps_set_killed v : keeps same_refs (in_pt (set_killed v)).
Proof. change (in_pt (set_killed v)) with (set_my (fun p => p <| p_killed := v |>) : M K unit). apply keeps_set_my. reflexivity. Qed.
#[local] Hint Resolve keeps_killed keeps_set_killed : frames.
Lemma keeps_with_pipe {A} page (m : M pctx A) : keeps same_refs (with_pipe page m).
Proof. unfold with_pipe. frame. Qed.
Lemma keeps_add_off f r : keeps same_refs (add_off f r).
Proof. unfold add_off. apply keeps_on_file. reflexivity. Qed.
#[local] Hint Resolve @keeps_with_pipe keeps_add_off : frames.
Lemma keeps_fileread env f n : keeps same_refs (fileread env f n).
Proof. unfold fileread. frame. Qed.
Lemma keeps_filewrite env f src : keeps same_refs (filewrite env f src).
Proof.
  unfold filewrite. frame. generalize (length src) as fuel. intros fuel. revert src.
  induction fuel; intros src; destruct src; cbn [filewrite_loop]; frame.
Qed.
Lemma keeps_filestat f : keeps same_refs (filestat f).
Proof. unfold filestat. frame. Qed.
Lemma keeps_argbuf : keeps same_refs argbuf.
Proof. unfold argbuf. frame. Qed.
#[local] Hint Resolve keeps_fileread keeps_filewrite keeps_filestat keeps_argbuf : frames.
Lemma keeps_set_pipe_end f r w page : keeps same_refs (set_pipe_end f r w page).
Proof. apply keeps_on_file. reflexivity. Qed.
Lemma keeps_open_file f ip omode : keeps same_refs (open_file f ip omode).
Proof. apply keeps_on_file. reflexivity. Qed.
#[local] Hint Resolve keeps_set_pipe_end keeps_open_file : frames.
Lemma keeps_link_bad ip : keeps same_refs (link_bad ip).
Proof. unfold link_bad. frame. Qed.
Lemma keeps_isdirempty dp : keeps same_refs (isdirempty dp).
Proof. unfold isdirempty. frame. Qed.
Lemma keeps_unlink_bad dp : keeps same_refs (unlink_bad dp).
Proof. unfold unlink_bad. frame. Qed.
Lemma keeps_create_and_put path ty ma mi : keeps same_refs (create_and_put path ty ma mi).
Proof. unfold create_and_put. frame. Qed.
#[local] Hint Resolve keeps_link_bad keeps_isdirempty keeps_unlink_bad keeps_create_and_put : frames.

Lemma keeps_sys_read env : keeps same_refs (sys_read env).
Proof. unfold sys_read. frame. Qed.
Lemma keeps_sys_write env : keeps same_refs (sys_write env).
Proof. unfold sys_write. frame. Qed.
Lemma keeps_sys_fstat : keeps same_refs sys_fstat.
Proof. unfold sys_fstat, store_stat. frame. Qed.
Lemma keeps_sys_link : keeps same_refs sys_link.
Proof. unfold sys_link. frame. Qed.
Lemma keeps_sys_unlink : keeps same_refs sys_unlink.
Proof. unfold sys_unlink. frame. Qed.
Lemma keeps_sys_mkdir : keeps same_refs sys_mkdir.
Proof. unfold sys_mkdir. frame. Qed.
Lemma keeps_sys_mknod : keeps same_refs sys_mknod.
Proof. unfold sys_mknod. frame. Qed.
Lemma keeps_sys_chdir : keeps same_refs sys_chdir.
Proof.
  unfold sys_chdir, cwd. frame. apply keeps_set_my. reflexivity.
Qed.
Lemma keeps_exec_args fuel uargv : forall argv, keeps same_refs (exec_args fuel uargv argv).
Proof. induction fuel; intros argv; cbn [exec_args]; frame. Qed.
Lemma keeps_exec path argv : keeps same_refs (exec path argv).
Proof.
  assert (Hc : forall path pgdir sz entry sp, keeps same_refs (exec_commit path pgdir sz entry sp)).
  { intros. unfold exec_commit, switchuvm. frame; apply keeps_set_my; reflexivity. }
  assert (Hs : forall path argv entry pgdir sz, keeps same_refs (exec_stack path argv entry pgdir sz)).
  { intros. unfold exec_stack. frame. }
  unfold exec. frame.
Qed.
#[local] Hint Resolve keeps_exec_args keeps_exec : frames.
Lemma keeps_sys_exec : keeps same_refs (sys_exec exec).
Proof. unfold sys_exec. frame. Qed.

Lemma moves_use {A} d d' (m : M K A) s a s' : m s = Ret a s' -> books d s -> moves d m d' -> books (d' a) s'.
Proof. intros E B Hm. exact (Hm s a s' E B). Qed.
Lemma moves_now {A B} d d' (a : A) (k : A -> M K B) : moves d (k a) d' -> moves d (bind (ret a) k) d'.
Proof. exact (fun H => H). Qed.
(** What fdalloc() leaves in the descriptor it returns. *)
Lemma fdalloc_slot f (s : K) fd s' : fdalloc f s = Ret fd s' -> 0 <= fd ->
  exists me p, pt_cpu (ks_pt s') !! cpu_id = Some (Some me) /\ pt_proc (ks_pt s') !! me = Some p /\
    p_ofile p !! Z.to_nat fd = Some (Some f).
Proof.
  unfold fdalloc. intros (ofile & s1 & E1 & E)%bind_inv Hfd. apply my_eq in E1 as (-> & me & p & Ec & Ep & ->).
  destruct (list_find _ _) as [[k x]|] eqn:Ef; [|injection E as <- <-; lia].
  apply list_find_Some in Ef as (Ex & -> & _). apply lookup_take_Some in Ex as [Ex _].
  apply bind_inv in E as (u & s2 & E2 & [= <- <-]). unfold set_ofile in E2.
  apply set_my_inv in E2 as (me' & p' & Ec' & Ep' & E2 & Ec2 & _). rewrite Ec in Ec'. injection Ec' as <-.
  rewrite Ep in Ep'. injection Ep' as <-. exists me. eexists. rewrite E2, Ec2. split; [exact Ec|].
  split; [apply list_lookup_insert_eq; eapply lookup_lt_Some; exact Ep|].
  rewrite Nat2Z.id. apply (list_lookup_insert_eq (p_ofile p)). eapply lookup_lt_Some. exact Ex.
Qed.
Lemma fdalloc_full f (s : K) fd s' : fdalloc f s = Ret fd s' -> fd < 0 -> s' = s.
Proof.
  unfold fdalloc. intros (ofile & s1 & E1 & E)%bind_inv Hfd. apply my_eq in E1 as (-> & _).
  destruct (list_find _ _) as [[k x]|]; [|injection E; auto].
  apply bind_inv in E as (u & s2 & E2 & [= <- <-]). lia.
Qed.

(** open() and pipe(). *)
Lemma sys_open_settled : settled sys_open.
Proof.
  unfold settled, sys_open. apply moves_skip; [frame|]. intros path. apply moves_skip; [frame|]. intros omode.
  destruct path as [path|]; [|apply moves_ret; reflexivity]. destruct omode as [omode|]; [|apply moves_ret; reflexivity].
  apply moves_skip; [frame|]. intros _. apply moves_skip; [frame|]. intros [ip|]; [|apply moves_frame; frame].
  eapply moves_bind; [apply filealloc_moves|]. intros [f|]; cbv beta iota.
  - eapply moves_bind; [apply fdalloc_moves|]. intros fd. cbv beta. destruct (fd <? 0).
    + eapply moves_bind; [apply fileclose_moves; unfold plus, one; case_decide; lia|]. intros ?.
      eapply moves_ext; [apply moves_frame; frame|]. intros ?. balance.
    + eapply moves_ext; [apply moves_frame; frame|]. intros ?. balance.
  - apply moves_skip; [frame|]. intros _. apply moves_frame. frame.
Qed.

Lemma close_if_moves d f : (forall x, f = Some x -> d x <= 2) ->
  moves d (close_if f) (fun _ => match f with Some x => plus d x (-1) | None => d end).
Proof.
  intros Hd. unfold close_if. destruct f as [x|]; [apply fileclose_moves; auto | apply moves_ret; reflexivity].
Qed.
Lemma pipealloc_moves : moves (fun _ => 0) pipealloc
  (fun r => match r with Some (r, w) => plus (plus (fun _ => 0) r 1) w 1 | None => fun _ => 0 end).
Proof.
  unfold pipealloc. eapply moves_bind; [apply filealloc_moves|]. intros [f0|]; cbv beta iota.
  - eapply moves_bind; [apply filealloc_moves|]. intros [f1|]; cbv beta iota.
    + apply moves_skip; [frame|]. intros p. destruct (p =? 0).
      * eapply moves_bind; [apply (close_if_moves _ (Some f0)); intros x _; unfold plus, one; repeat case_decide; lia|]. intros ?.
        eapply moves_bind; [apply (close_if_moves _ (Some f1)); intros x _; unfold plus, one; repeat case_decide; lia|]. intros ?.
        apply moves_ret. balance.
      * apply moves_skip; [frame|]. intros ?. apply moves_skip; [frame|]. intros ?. apply moves_skip; [frame|]. intros ?.
        apply moves_skip; [frame|]. intros ?. apply moves_ret. reflexivity.
    + eapply moves_bind; [apply (close_if_moves _ (Some f0)); intros x _; unfold plus, one; repeat case_decide; lia|]. intros ?.
      eapply moves_bind; [apply (close_if_moves _ None); discriminate|]. intros ?. apply moves_ret. balance.
  - apply moves_now. cbn [close_if]. apply moves_now. apply moves_now. apply moves_ret. reflexivity.
Qed.
Lemma sys_pipe_settled : settled sys_pipe.
Proof.
  unfold settled, sys_pipe. apply moves_skip; [frame|]. intros [fd|]; [|apply moves_ret; reflexivity].
  eapply moves_bind; [apply pipealloc_moves|]. intros [[rf wf]|]; cbv beta iota; [|apply moves_ret; reflexivity].
  intros s v s' E B. apply bind_inv in E as (fd0 & s1 & E1 & E). apply bind_inv in E as (fd1 & s2 & E2 & E).
  pose proof (fdalloc_slot _ _ _ _ E1) as Hslot. pose proof (fdalloc_moves _ _ _ _ _ E1 B) as B1. cbv beta in B1.
  destruct (Z.ltb_spec fd0 0) as [Hf0|Hf0].
  - injection E2 as <- <-. cbn [orb] in E. assert ((0 <=? fd0) = false) as Eb by (apply Z.leb_gt; lia).
    rewrite Eb in E. apply (moves_use _ (fun _ _ => 0) _ _ _ _ E B1).
    apply moves_now. eapply moves_bind; [apply fileclose_moves; unfold plus, one; repeat case_decide; lia|]. intros ?.
    eapply moves_bind; [apply fileclose_moves; unfold plus, one; repeat case_decide; lia|]. intros ?.
    apply moves_ret. balance.
  - pose proof (fdalloc_moves _ _ _ _ _ E2 B1) as B2. cbv beta in B2.
    destruct (Z.ltb_spec fd1 0) as [Hf1|Hf1]; cbn [orb] in E.
    + assert ((0 <=? fd0) = true) as Eb by (apply Z.leb_le; lia). rewrite Eb in E.
      apply bind_inv in E as (u & s3 & E3 & E).
      assert (s2 = s1) as -> by (eapply fdalloc_full; [exact E2 | exact Hf1]).
      destruct (Hslot Hf0) as (me & p & Ec & Ep & Eo).
      pose proof (set_ofile_books _ _ None _ _ _ _ _ _ E3 B2 Ec Ep Eo) as B3.
      apply (moves_use _ (fun _ _ => 0) _ _ _ _ E B3).
      eapply moves_bind; [apply fileclose_moves; unfold plus, one, fd_delta; repeat case_decide; lia|]. intros ?.
      eapply moves_bind; [apply fileclose_moves; unfold plus, one, fd_delta; repeat case_decide; lia|]. intros ?.
      apply moves_ret. unfold fd_delta. balance.
    + apply (moves_use _ (fun _ _ => 0) _ _ _ _ E B2).
      eapply moves_ext; [apply moves_frame; frame|]. intros ?. balance.
Qed.

(** *** fork() and exit() *)

Lemma in_pt_on_proc i (g : proc -> proc) (s : K) a s' : in_pt (on_proc i (modify g)) s = Ret a s' ->
  exists p, pt_proc (ks_pt s) !! i = Some p /\ pt_proc (ks_pt s') = <[i := g p]> (pt_proc (ks_pt s)) /\ ks_fs s' = ks_fs s.
Proof.
  unfold in_pt, on_proc, zoom, elt, modify. destruct (pt_proc (ks_pt s) !! i) as [p|] eqn:Ep; [|discriminate].
  intros [= _ <-]. exists p. repeat split.
Qed.
Lemma in_pt_get {A} i (f : proc -> A) (s : K) a s' : in_pt (on_proc i (get f)) s = Ret a s' ->
  s' = s /\ exists p, pt_proc (ks_pt s) !! i = Some p /\ a = f p.
Proof.
  unfold in_pt, on_proc, zoom, elt, get. destruct (pt_proc (ks_pt s) !! i) as [p|] eqn:Ep; [|discriminate].
  intros [= <- <-]. split; [|eauto]. unfold set_field. cbn. rewrite list_insert_id by exact Ep.
  destruct s as [[] m c y]. reflexivity.
Qed.
Lemma keeps_procs_in_ft {A} (m : M ftable A) : keeps same_procs (in_ft m : M K A).
Proof. intros s a s' [E _]%in_ft_inv. exact E. Qed.
#[local] Hint Resolve @keeps_procs_in_ft : frames.
Lemma keeps_procs_fileclose f : keeps same_procs (fileclose f : M K unit).
Proof. unfold fileclose. frame. Qed.

Lemma delta_in d f g : plus d f 1 g + fd_delta None (Some f) g = d g.
Proof. unfold plus, fd_delta, one. repeat case_decide; try congruence; lia. Qed.
Lemma delta_out d f g : plus d f (-1) g + fd_delta (Some f) None g = d g.
Proof. unfold plus, fd_delta, one. repeat case_decide; try congruence; lia. Qed.

(** The child has the files of the parent below [fd], and none from there on. *)
Definition shared (from to fd : nat) (s : K) : Prop :=
  exists p c, pt_proc (ks_pt s) !! from = Some p /\ pt_proc (ks_pt s) !! to = Some c /\
    length (p_ofile p) = NOFILE /\ p_ofile c = take fd (p_ofile p) ++ replicate (NOFILE - fd) None.

Lemma dup_files_books from to : from <> to -> forall n fd s a s', (fd + n = NOFILE)%nat ->
  for_all (seq fd n) (fun fd =>
    let! src := in_pt (on_proc from (get p_ofile)) in
    match default None (src !! fd) with
    | None => ret tt
    | Some f =>
        let! f' := f_filedup f in
        in_pt (on_proc to (modify (fun p => p <| p_ofile ::= <[fd := Some f']> |>)))
    end) s = Ret a s' ->
  shared from to fd s -> refs_ok s -> shared from to NOFILE s' /\ refs_ok s'.
Proof.
  intros Hne. induction n as [|n IH]; intros fd s a s' Hn E Hs B.
  - injection E as _ <-. replace fd with NOFILE in Hs by lia. auto.
  - cbn [seq for_all] in E. apply bind_inv in E as (u & s1 & E1 & E2).
    assert (Hsl : shared from to (S fd) s1 /\ refs_ok s1); [|destruct Hsl; eapply (IH (S fd)); eauto; lia].
    destruct Hs as (p & c & Ep & Ec & Hl & Eo). apply bind_inv in E1 as (src & s2 & E3 & E1).
    apply in_pt_get in E3 as (-> & p' & Ep' & ->). rewrite Ep in Ep'. injection Ep' as <-.
    destruct (lookup_lt_is_Some_2 (p_ofile p) fd) as [o Ho]; [lia|]. rewrite Ho in E1. cbn [default id from_option] in E1.
    assert (Et : take (S fd) (p_ofile p) = take fd (p_ofile p) ++ [o]) by (apply take_S_r; exact Ho).
    assert (Er : replicate (NOFILE - fd) (@None nat) = None :: replicate (NOFILE - S fd) None).
    { replace (NOFILE - fd)%nat with (S (NOFILE - S fd))%nat by lia. reflexivity. }
    destruct o as [f|].
    + apply bind_inv in E1 as (f' & s3 & E3 & E4). cbn [f_filedup file_ops] in E3.
      pose proof (in_ft_inv _ _ _ _ E3) as [Eps Ed]. apply filedup_inv in Ed as Hd.
      assert (f' = f) as ->.
      { revert Ed. unfold filedup. intros (? & ? & _ & Ed)%bind_inv. repeat (apply bind_inv in Ed as (? & ? & _ & Ed)).
        injection Ed. auto. }
      pose proof (filedup_moves (fun _ => 0) f ltac:(cbn; lia) s f s3 E3 B) as B3.
      apply in_pt_on_proc in E4 as (c' & Ec' & E4 & Ef4). rewrite Eps in *. rewrite Ec in Ec'. injection Ec' as <-.
      assert (Hc : p_ofile c !! fd = Some None).
      { rewrite Eo, lookup_app_r by (rewrite length_take; lia). rewrite length_take, Er.
        replace (fd - fd `min` length (p_ofile p))%nat with O by lia. reflexivity. }
      split.
      * exists p. eexists. rewrite E4. split; [rewrite list_lookup_insert_ne by congruence; exact Ep|].
        split; [apply list_lookup_insert_eq; eapply lookup_lt_Some; exact Ec|]. split; [exact Hl|].
        change (p_ofile (c <| p_ofile ::= <[fd := Some f]> |>)) with (<[fd := Some f]> (p_ofile c)).
        rewrite Eo, Et, Er. rewrite insert_app_r_alt by (rewrite length_take; lia). rewrite length_take, <- app_assoc.
        replace (fd - fd `min` length (p_ofile p))%nat with O by lia. reflexivity.
      * eapply books_ext; [|eapply (ofile_books _ to c fd (Some f) None s3 s1 B3); rewrite ?Eps; eauto].
        apply delta_in.
    + injection E1 as _ <-. split; [|exact B]. exists p, c. repeat split; auto. rewrite Eo, Et, Er, <- app_assoc. reflexivity.
Qed.

Lemma close_files_books me : forall fds s a s',
  for_all fds (fun fd =>
    let! files := in_pt (on_proc me (get p_ofile)) in
    match default None (files !! fd) with
    | None => ret tt
    | Some f =>
        f_fileclose f ;!
        in_pt (on_proc me (modify (fun p => p <| p_ofile ::= <[fd := None]> |>)))
    end) s = Ret a s' ->
  refs_ok s -> refs_ok s' /\ (forall p', pt_proc (ks_pt s') !! me = Some p' -> exists p, pt_proc (ks_pt s) !! me = Some p /\
    forall fd, p_ofile p' !! fd = (if decide (fd ∈ fds) then (fun _ => None) <$> p_ofile p !! fd else p_ofile p !! fd)).
Proof.
  induction fds as [|fd fds IH]; intros s a s' E B.
  - injection E as _ <-. split; [exact B|]. intros p Ep. exists p. split; [exact Ep|]. intros fd.
    rewrite decide_False; [reflexivity | apply not_elem_of_nil].
  - cbn [for_all] in E. apply bind_inv in E as (u & s1 & E1 & E2).
    apply bind_inv in E1 as (files & s2 & E3 & E1). apply in_pt_get in E3 as (-> & p & Ep & ->).
    assert (Hs1 : refs_ok s1 /\ exists p1, pt_proc (ks_pt s1) !! me = Some p1 /\
      forall k, p_ofile p1 !! k = if decide (k = fd) then (fun _ => None) <$> p_ofile p !! k else p_ofile p !! k).
    { destruct (p_ofile p !! fd) as [[f|]|] eqn:Eo; cbn [default id from_option] in E1.
      - apply bind_inv in E1 as (u2 & s3 & E3 & E4). cbn [f_fileclose file_ops] in E3.
        pose proof (keeps_procs_fileclose f s u2 s3 E3) as Eps. unfold same_procs in Eps.
        pose proof (fileclose_moves (fun _ => 0) f ltac:(cbn; lia) s u2 s3 E3 B) as B3.
        apply in_pt_on_proc in E4 as (p' & Ep' & E4 & Ef4). rewrite Eps in *. rewrite Ep in Ep'. injection Ep' as <-.
        split.
        + eapply books_ext; [|eapply (ofile_books _ me p fd None (Some f) s3 s1 B3); rewrite ?Eps; eauto].
          apply delta_out.
        + eexists. rewrite E4. split; [apply list_lookup_insert_eq; eapply lookup_lt_Some; exact Ep|]. intros k.
          change (p_ofile (p <| p_ofile ::= <[fd := None]> |>)) with (<[fd := None]> (p_ofile p)).
          destruct (decide (k = fd)) as [->|Hk]; [|apply list_lookup_insert_ne; congruence].
          rewrite Eo. apply list_lookup_insert_eq. eapply lookup_lt_Some. exact Eo.
      - injection E1 as _ <-. split; [exact B|]. exists p. split; [exact Ep|]. intros k.
        destruct (decide (k = fd)) as [->|]; [rewrite Eo|]; reflexivity.
      - injection E1 as _ <-. split; [exact B|]. exists p. split; [exact Ep|]. intros k.
        destruct (decide (k = fd)) as [->|]; [rewrite Eo|]; reflexivity. }
    destruct Hs1 as (B1 & p1 & Ep1 & Ho). destruct (IH s1 a s' E2 B1) as [B' Hp']. split; [exact B'|].
    intros p' Ep'. destruct (Hp' p' Ep') as (p2 & Ep2 & Hf). rewrite Ep1 in Ep2. injection Ep2 as <-.
    exists p. split; [exact Ep|]. intros k. rewrite Hf, Ho.
    destruct (decide (k ∈ fds)), (decide (k = fd)), (decide (k ∈ fd :: fds)) as [Hk|Hk]; try reflexivity;
      try (rewrite elem_of_cons in Hk; tauto); destruct (p_ofile p !! k); reflexivity.
Qed.

(** The system calls of [sysfile.c]; [env] is what other processes do to a
    pipe while the call waits for it. *)
Inductive file_call : M K Z -> Prop :=
| call_dup : file_call sys_dup
| call_read env : file_call (sys_read env)
| call_write env : file_call (sys_write env)
| call_close : file_call sys_close
| call_fstat : file_call sys_fstat
| call_link : file_call sys_link
| call_unlink : file_call sys_unlink
| call_open : file_call sys_open
| call_mkdir : file_call sys_mkdir
| call_mknod : file_call sys_mknod
| call_chdir : file_call sys_chdir
| call_exec : file_call (sys_exec exec)
| call_pipe : file_call sys_pipe.

Lemma file_call_settled m : file_call m -> settled m.
Proof.
  destruct 1; auto using sys_dup_settled, sys_close_settled, sys_open_settled, sys_pipe_settled, settled_frame,
    keeps_sys_read, keeps_sys_write, keeps_sys_fstat, keeps_sys_link, keeps_sys_unlink, keeps_sys_mkdir,
    keeps_sys_mknod, keeps_sys_chdir, keeps_sys_exec.
Qed.

(** C12. The reference count of every open file is the number of descriptors
    that refer to it, over all processes: each of the thirteen file system
    calls keeps this, on its error paths (no free descriptor, no free file,
    no page for a pipe, a bad argument) as well as when it succeeds.  So no
    file is closed while a descriptor refers to it, and no file that is out
    of descriptors stays allocated. *)
Theorem refs_exact (m : M K Z) (s : K) (v : Z) (s' : K) :
  file_call m -> refs_ok s -> m s = Ret v s' -> refs_ok s'.
Proof. intros Hm B E. exact (file_call_settled m Hm s v s' E B). Qed.

(** fork() gives the child the descriptors of its parent and counts each
    of them once more; exit() closes every descriptor of the process.  Both
    keep all the reference counts exact. *)
Theorem fork_exit_refs (s s' : K) (from to : nat) :
  refs_ok s ->
  (from <> to -> dup_files from to s = Ret tt s' -> shared from to 0 s -> shared from to NOFILE s' /\ refs_ok s') /\
  (close_files from s = Ret tt s' -> refs_ok s' /\
     forall p, pt_proc (ks_pt s') !! from = Some p -> Forall (fun o => o = None) (p_ofile p)).
Proof.
  intros B. split; [intros Hne E Hs; exact (dup_files_books from to Hne NOFILE 0 s tt s' eq_refl E Hs B)|].
  intros E. destruct (close_files_books from (seq 0 NOFILE) s tt s' E B) as [B' Hp]. split; [exact B'|].
  intros p Ep. destruct (Hp p Ep) as (p0 & Ep0 & Hf). apply Forall_lookup_2. intros fd o Eo.
  assert (fd < NOFILE)%nat as Hlt.
  { assert (Hl : length (p_ofile p) = NOFILE).
    { apply (Forall_lookup_1 (fun l => length l = NOFILE) (ofiles s') from); [exact (b_fds _ _ B')|].
      unfold ofiles. rewrite list_lookup_fmap, Ep. reflexivity. }
    rewrite <- Hl. eapply lookup_lt_Some. exact Eo. }
  rewrite Hf, decide_True in Eo by (apply elem_of_seq; lia).
  destruct (p_ofile p0 !! fd); [injection Eo as <-; reflexivity | discriminate].
Qed.
End Fd.

(** ** A machine with one process *)
Module Demo.
#[export] Instance ctx : Ctx := { cpu_id := 0; cur_pid := 1 }.
#[export] Instance linked : Linked := { kernel_data := 0x80108000; kernel_end := 0x80115000 }.
#[export] Instance pages : Pages := { old_page := fun _ => mk_pipe None (replicate 512 1) 1 1 1 1 }.
#[export] Instance tx : TxOps unit := {
  t_bread _ _ := halt Faulted; t_data _ := halt Faulted; t_set_data _ _ := halt Faulted;
  t_log_write _ := halt Faulted; t_brelse _ := halt Faulted }.
#[export] Instance op : OpOps unit := { op_begin := ret tt; op_end := ret tt }.
#[export] Instance devsw : Devsw (fstate unit) := { dev_read _ := None; dev_write _ := None }.

(** The page directory at 0x1000, a page table at 0x2000 and one user page at
    0x3000; [word] and [word1] are the first arguments on the user stack. *)
Definition memory (word word1 : Z) : CString.mem := fun a =>
  if a =? 0x80001000 then 7 else if a =? 0x80001001 then 0x20
  else if a =? 0x80002000 then 7 else if a =? 0x80002001 then 0x30
  else if a =? 0x80003004 then word mod 2 ^ 8 else if a =? 0x80003005 then word / 2 ^ 8 mod 2 ^ 8
  else if a =? 0x80003006 then word / 2 ^ 16 mod 2 ^ 8 else if a =? 0x80003007 then word / 2 ^ 24
  else if a =? 0x80003008 then word1 mod 2 ^ 8 else if a =? 0x80003009 then word1 / 2 ^ 8 mod 2 ^ 8
  else if a =? 0x8000300a then word1 / 2 ^ 16 mod 2 ^ 8 else if a =? 0x8000300b then word1 / 2 ^ 24
  else 0.
Definition frame0 : trapframe := mk_tf 0 0 0 FL_IF 27 35 35 35.
Definition process (ofile : list (option nat)) : proc :=
  mk_proc 4096 0x80001000 0x80004000 RUNNING 1 None frame0 0 None 0 ofile (Some O) (replicate 16 0).
Definition unused : proc :=
  mk_proc 0 0 0 UNUSED 0 None frame0 0 None 0 (replicate 16 None) None (replicate 16 0).
(** Descriptor 0 is file 0. *)
Definition machine (word word1 : Z) : kstate (fsys unit) :=
  mk_ks (mk_ptable None (process (Some O :: replicate 15 None) :: replicate 63 unused) (Some O) 2 [Some O])
    (mk_kmem None 1 0 (memory word word1)) (mk_clock None 0)
    (mk_fsys (mk_ftable None [mk_file FD_INODE 1 1 0 0 (Some O) 0; mk_file FD_NONE 0 0 0 0 None 0]) ∅
      (mk_fs tt (mk_superblock 0 0 0 0 0 0 0)
        (mk_icache None [mk_inode 1 1 1 (mk_sleeplock 0 None 0) 1 T_FILE 0 0 1 0 (replicate 13 0)]))).

Lemma machine_refs w w1 : refs_ok (machine w w1).
Proof.
  split; [reflexivity | apply (Forall_forall _ _); intros l Hl | intros f r Hr].
  - change (ofiles (machine w w1)) with ((Some O :: replicate 15 None) :: replicate 63 (replicate 16 (@None nat))) in Hl.
    apply elem_of_cons in Hl as [->|Hl]; [reflexivity|]. apply elem_of_replicate in Hl as [-> _]. reflexivity.
  - destruct f as [|[|f]]; [| |discriminate Hr]; injection Hr as <-; vm_compute; reflexivity.
Qed.
End Demo.
Import Demo.

(** dup(0) returns 1, and file 0 has two descriptors. *)
Example refs_exact_witness : exists s', sys_dup (Demo.machine 0 0) = Ret 1 s' /\ refs s' = [2; 0] /\ refs_ok s'.
Proof.
  eexists. split; [vm_compute; reflexivity|]. split; [reflexivity|].
  apply (refs_exact sys_dup (Demo.machine 0 0) 1); [apply call_dup | apply Demo.machine_refs | vm_compute; reflexivity].
Defined.

(** The child in slot 1 gets descriptor 0. *)
Example fork_exit_refs_witness : exists s', dup_files 0 1 (Demo.machine 0 0) = Ret tt s' /\ refs s' = [2; 0] /\ refs_ok s'.
Proof.
  eexists. split; [vm_compute; reflexivity|]. split; [reflexivity|].
  refine (proj2 (proj1 (fork_exit_refs (Demo.machine 0 0) _ 0 1 (Demo.machine_refs 0 0)) _ _ _));
    [discriminate | vm_compute; reflexivity |].
  exists (Demo.process (Some O :: replicate 15 None)), Demo.unused. repeat split.
Defined.
