(* ===== verification/SyscallProofs.v ===== *)
(** * What the kernel accepts from a process

    The checks on the arguments of system calls, and what becomes of them
    when sbrk() delays the allocation of memory. *)
From S2P Require Import Prelude.
From S2P Require Import Kalloc.
From S2P Require Import Vm.
From S2P Require Import Layout.
From S2P Require Import Bio.
From S2P Require Import Tx.
From S2P Require Import Fs.
From S2P Require Import Pipe.
From S2P Require Import Proc.
From S2P Require Import Ulib.
From S2P Require Import File.
From S2P Require Import Syscall.
From S2P Require Import Trap.
From S2P Require Import Sysfile.
From S2P Require Import Exec.
From S2P Require Import Frame.
From S2P Require Import FdProofs.

Section Args.
Context `{Ctx} `{Linked} {F : Type}.
#[local] Abbreviation K := (kstate F).

(** The current process is [p], in slot [me]. *)
Definition current (s : K) (me : nat) (p : proc) : Prop :=
  pt_cpu (ks_pt s) !! cpu_id = Some (Some me) /\ pt_proc (ks_pt s) !! me = Some p.

Lemma my_current {A} (f : proc -> A) s me p : current s me p -> my f s = Ret (f p) s.
Proof.
  intros [Ec Ep]. unfold my, in_pt, zoom, curproc, myproc, on_proc, zoom, elt, bind, get, deref, halt, ret.
  rewrite Ec. cbn [default id from_option]. rewrite Ep. unfold set_field. cbn. rewrite list_insert_id by exact Ep.
  destruct s as [[] m c y]. reflexivity.
Qed.
Lemma set_my_current g s me p : current s me p ->
  set_my g s = Ret tt (mk_ks (mk_ptable (pt_lock (ks_pt s)) (<[me := g p]> (pt_proc (ks_pt s))) (pt_initproc (ks_pt s))
    (pt_nextpid (ks_pt s)) (pt_cpu (ks_pt s))) (ks_mem s) (ks_clock s) (ks_fs s)).
Proof.
  intros [Ec Ep]. unfold set_my, in_pt, zoom, curproc, myproc, on_proc, zoom, elt, bind, get, deref, halt, ret, modify.
  rewrite Ec. cbn [default id from_option]. rewrite Ep. reflexivity.
Qed.

Lemma current_set s me p q : current s me p ->
  current (mk_ks (mk_ptable (pt_lock (ks_pt s)) (<[me := q]> (pt_proc (ks_pt s))) (pt_initproc (ks_pt s))
    (pt_nextpid (ks_pt s)) (pt_cpu (ks_pt s))) (ks_mem s) (ks_clock s) (ks_fs s)) me q.
Proof. intros [Ec Ep]. split; [exact Ec|]. apply list_lookup_insert_eq. eapply lookup_lt_Some. exact Ep. Qed.

(** *** Pointers *)

Lemma argptr_eq s me p n size i : current s me p -> p_sz p <= KERNBASE -> 0 <= p_sz p ->
  - 2 ^ 31 <= size < 2 ^ 31 -> argint n s = Ret (Some i) s ->
  argptr n size s = Ret (if (0 <=? size) && (u32 i <? p_sz p) && (u32 i + size <=? p_sz p) then Some (u32 i) else None) s.
Proof.
  intros Hp Hsz Hsz0 Hsize Ei. unfold argptr. step by (exact Ei). step by (apply (my_current p_sz _ _ _ Hp)).
  unfold KERNBASE in *. assert (Hi : 0 <= u32 i < 2 ^ 32) by (apply Z.mod_pos_bound; lia).
  destruct (Z.ltb_spec size 0) as [Hs|Hs]; [replace (0 <=? size) with false by lia; reflexivity|].
  replace (0 <=? size) with true by lia. cbn [orb andb].
  destruct (Z.leb_spec (p_sz p) (u32 i)) as [Hl|Hl]; [replace (u32 i <? p_sz p) with false by lia; reflexivity|].
  replace (u32 i <? p_sz p) with true by lia. cbn [orb andb].
  assert (u32 (u32 i + u32 size) = u32 i + size) as ->.
  { assert (u32 size = size) as -> by (unfold u32; apply Z.mod_small; lia).
    set (j := u32 i) in *. unfold u32. apply Z.mod_small. lia. }
  destruct (Z.ltb_spec (p_sz p) (u32 i + size)) as [Hb|Hb];
    [replace (u32 i + size <=? p_sz p) with false by lia | replace (u32 i + size <=? p_sz p) with true by lia]; reflexivity.
Qed.

(** *** Strings *)

(** The bytes of the process from [addr] on. *)
Definition readable (s : K) (addr : Z) (bs : list Z) : Prop :=
  forall k b, bs !! k = Some b -> load_byte (addr + Z.of_nat k) s = Ret b s.

Lemma fetchstr_loop_eq s : forall bs fuel addr, readable s addr bs -> (length bs <= fuel)%nat ->
  fetchstr_loop fuel addr (addr + Z.of_nat (length bs)) s =
  Ret (if bool_decide (0 ∈ bs) then Some (until_nul bs) else None) s.
Proof.
  induction bs as [|b bs IH]; intros fuel addr Hr Hf.
  - cbn [length]. rewrite Z.add_0_r. destruct fuel; cbn [fetchstr_loop]; rewrite Z.ltb_irrefl; reflexivity.
  - destruct fuel as [|fuel]; [cbn in Hf; lia|]. cbn [fetchstr_loop length].
    destruct (Z.ltb_spec addr (addr + Z.of_nat (Datatypes.S (length bs)))) as [_|Hl]; [|lia].
    step by (pose proof (Hr O b eq_refl) as E; rewrite Z.add_0_r in E; exact E).
    cbn [until_nul]. destruct (Z.eqb_spec b 0) as [->|Hb].
    + rewrite bool_decide_true by (left). reflexivity.
    + assert (Hr' : readable s (addr + 1) bs).
      { intros k c Ek. replace (addr + 1 + Z.of_nat k) with (addr + Z.of_nat (Datatypes.S k)) by lia. apply Hr. exact Ek. }
      replace (addr + Z.of_nat (Datatypes.S (length bs))) with (addr + 1 + Z.of_nat (length bs)) by lia.
      step by (apply (IH fuel (addr + 1) Hr'); cbn in Hf; lia). unfold ret. f_equal.
      destruct (decide (0 ∈ bs)) as [Hin|Hin].
      * rewrite !bool_decide_true by (try right; exact Hin). reflexivity.
      * rewrite (bool_decide_false (0 ∈ bs)), (bool_decide_false (0 ∈ b :: bs)); [reflexivity | | exact Hin].
        intros [?|?]%elem_of_cons; [congruence | contradiction].
Qed.
Lemma fetchstr_eq s me p addr bs : current s me p -> 0 <= addr ->
  p_sz p = addr + Z.of_nat (length bs) -> readable s addr bs ->
  fetchstr addr s = Ret (if bool_decide (0 ∈ bs) then Some (until_nul bs) else None) s.
Proof.
  intros Hp Ha Hsz Hr. unfold fetchstr. step by (apply (my_current p_sz _ _ _ Hp)).
  destruct (Z.leb_spec (p_sz p) addr) as [Hl|Hl].
  - destruct bs; [|cbn [length] in Hsz; lia]. reflexivity.
  - rewrite Hsz. apply fetchstr_loop_eq; [exact Hr | lia].
Qed.
End Args.

Section Main.
Context `{Ctx} `{Linked} `{Pages} {T : Type} `{TxOps T} `{OpOps T} `{Devsw (fstate T)}.
#[local] Abbreviation K := (kstate (fsys T)).

(** C20. No system call is given memory outside its process.  While the size
    of the process is at most KERNBASE, argptr() accepts a pointer exactly
    when the whole block is below the size, without being misled by
    wrap-around of the 32-bit sum, and argstr()/fetchstr() accepts a string
    exactly when its NUL is inside, and then reads it up to there. *)
Theorem user_memory_checked (s : K) (me : nat) (p : proc) : current s me p -> 0 <= p_sz p <= KERNBASE ->
  (forall n size i, - 2 ^ 31 <= size < 2 ^ 31 -> argint n s = Ret (Some i) s ->
     argptr n size s =
     Ret (if (0 <=? size) && (u32 i <? p_sz p) && (u32 i + size <=? p_sz p) then Some (u32 i) else None) s) /\
  (forall addr bs, 0 <= addr -> p_sz p = addr + Z.of_nat (length bs) -> readable s addr bs ->
     fetchstr addr s = Ret (if bool_decide (0 ∈ bs) then Some (until_nul bs) else None) s).
Proof.
  intros Hp Hsz. split.
  - intros n size i Hsize Ei. apply (argptr_eq s me p); auto; lia.
  - intros addr bs Ha Hb Hr. exact (fetchstr_eq s me p addr bs Hp Ha Hb Hr).
Qed.

(** *** sbrk() without memory *)

Context `{Asm} `{FileOps (fsys T)} `{Devices (fsys T)}.

Lemma sys_sbrk_eq (s : K) me p n : current s me p -> argint 0 s = Ret (Some n) s ->
  exists s', sys_sbrk s = Ret (Value (s32 (p_sz p))) s' /\ ks_mem s' = ks_mem s /\
    current s' me (p <| p_sz ::= fun sz => u32 (sz + n) |>).
Proof.
  intros Hc En. eexists. split; [|split].
  - unfold sys_sbrk. step by (exact En). step by (apply (my_current p_sz _ _ _ Hc)).
    step by (apply (set_my_current _ _ _ _ Hc)). reflexivity.
  - reflexivity.
  - exact (current_set s me p _ Hc).
Qed.

(** Following an address uses the page directory and the memory only. *)
Lemma translate_same (s s' : K) me p q va : current s me p -> current s' me q -> p_pgdir q = p_pgdir p ->
  ks_mem s' = ks_mem s -> (exists s1, translate va s = Stop Faulted s1) -> exists s2, translate va s' = Stop Faulted s2.
Proof.
  intros Hp Hq Ed Em [s1 E]. unfold translate in *.
  rewrite (bind_eq _ _ _ _ _ (my_current p_pgdir _ _ _ Hp)) in E.
  rewrite (bind_eq _ _ _ _ _ (my_current p_pgdir _ _ _ Hq)). cbn beta in *. rewrite Ed.
  unfold bind, in_mem, zoom in *. rewrite Em.
  destruct (walkpgdir (p_pgdir p) va false (ks_mem s)) as [pte m1|w m1]; [|injection E as -> _; eauto].
  change (ks_mem (s' <| ks_mem := m1 |>)) with m1. change (ks_mem (s <| ks_mem := m1 |>)) with m1 in E.
  destruct (load_ptr pte m1) as [e m2|w m2]; [|injection E as -> _; eauto].
  destruct (bitset e PTE_P); [discriminate|]. unfold halt. eauto.
Qed.

(** A page fault in user mode. *)
Lemma trap_pgflt syscalls resume tf (s : K) me p : current s me p -> Z.land (tf_cs tf) 3 = DPL_USER ->
  exists s1, current s1 me (p <| p_killed := 1 |>) /\ ks_mem s1 = ks_mem s /\
    trap syscalls resume tf T_PGFLT s = (exit ;! ret true) s1.
Proof.
  intros Hc Hcs. eexists. split; [exact (current_set s me p (p <| p_killed := 1 |>) Hc)|]. split; [reflexivity|].
  pose proof (current_set s me p (p <| p_killed := 1 |>) Hc) as Hc1. set (s1 := mk_ks _ _ _ _) in *.
  assert (Hme : forall (x : K) q, current x me q -> in_pt myproc x = Ret (Some me) x).
  { intros x q [Ex _]. unfold in_pt, zoom, myproc, get. rewrite Ex. cbn. destruct x as [[] m c y]. reflexivity. }
  assert (Hd : dispatch tf T_PGFLT s = Ret tt s1).
  { change (dispatch tf T_PGFLT) with
      (let! me := in_pt myproc in
       panic_if (bool_decide (me = None) || (Z.land (tf_cs tf) 3 =? 0)) "trap" ;!
       set_my (fun p => p <| p_killed := 1 |>) : M K unit). step by (exact (Hme s p Hc)). step by (apply panic_if_false; rewrite Hcs; reflexivity).
    exact (set_my_current _ _ _ _ Hc). }
  unfold trap. change (T_PGFLT =? T_SYSCALL) with false. cbn iota. step by (exact Hd).
  unfold exit_if_killed at 1. rewrite bind_assoc. step by (exact (Hme s1 _ Hc1)).
  rewrite bind_assoc. step by (apply (my_current p_killed _ _ _ Hc1)).
  change (negb (p_killed (p <| p_killed := 1 |>) =? 0)) with true. rewrite Hcs. cbn [andb]. change (DPL_USER =? DPL_USER) with true. cbn iota.
  rewrite bind_assoc. unfold bind. destruct (exit s1); reflexivity.
Qed.

(** C32. sbrk() promises memory that does not exist.  It returns the old size
    and enlarges the process, but maps nothing: an address that was not
    mapped before still is not, and a page fault there kills the process. *)
Theorem sbrk_delayed (s : K) (me : nat) (p : proc) (n va : Z) syscalls resume (tf : trapframe) :
  current s me p -> argint 0 s = Ret (Some n) s -> (exists s1, translate va s = Stop Faulted s1) ->
  Z.land (tf_cs tf) 3 = DPL_USER ->
  exists s1 q s2, sys_sbrk s = Ret (Value (s32 (p_sz p))) s1 /\ current s1 me q /\ p_sz q = u32 (p_sz p + n) /\
    (exists s3, translate va s1 = Stop Faulted s3) /\
    trap syscalls resume tf T_PGFLT s1 = (exit ;! ret true) s2.
Proof.
  intros Hc En Hva Hcs. destruct (sys_sbrk_eq s me p n Hc En) as (s1 & E1 & Em & Hc1).
  destruct (trap_pgflt syscalls resume tf s1 me _ Hc1 Hcs) as (s2 & _ & _ & E2).
  exists s1. eexists. exists s2. split; [exact E1|]. split; [exact Hc1|]. split; [reflexivity|]. split; [|exact E2].
  exact (translate_same s s1 me p _ va Hc Hc1 eq_refl Em Hva).
Qed.

(** sbrk() does not check the new size, so a process can grow over the
    kernel: after it argptr() accepts pointers above KERNBASE, and read()
    with such a pointer overwrites kernel memory. *)
Theorem sbrk_kernel_pointer (s : K) (me : nat) (p : proc) (n : Z) :
  current s me p -> argint 0 s = Ret (Some n) s -> 0 <= p_sz p + n < 2 ^ 32 ->
  exists s1, sys_sbrk s = Ret (Value (s32 (p_sz p))) s1 /\
    forall i size, argint 1 s1 = Ret (Some i) s1 -> KERNBASE <= u32 i -> 0 < size < 2 ^ 31 -> u32 i + size <= p_sz p + n ->
    argptr 1 size s1 = Ret (Some (u32 i)) s1.
Proof.
  intros Hc En Hsz. destruct (sys_sbrk_eq s me p n Hc En) as (s1 & E1 & _ & Hc1). exists s1. split; [exact E1|].
  intros i size Ei Hk Hs Hb. unfold argptr. step by (exact Ei). step by (apply (my_current p_sz _ _ _ Hc1)).
  change (p_sz (p <| p_sz ::= fun sz => u32 (sz + n) |>)) with (u32 (p_sz p + n)).
  assert (u32 (p_sz p + n) = p_sz p + n) as -> by (unfold u32; apply Z.mod_small; lia).
  assert (u32 size = size) as -> by (unfold u32; apply Z.mod_small; lia).
  assert (u32 (u32 i + size) = u32 i + size) as ->.
  { set (j := u32 i) in *. unfold KERNBASE in Hk. unfold u32. apply Z.mod_small. lia. }
  destruct (Z.ltb_spec size 0); [lia|]. destruct (Z.leb_spec (p_sz p + n) (u32 i)); [lia|].
  destruct (Z.ltb_spec (p_sz p + n) (u32 i + size)); [lia|]. reflexivity.
Qed.
End Main.

Import Demo.
#[local] Instance demo_asm : Asm := { forkret_addr := 0x80103000; trapret_addr := 0x80105000; initcode_start := 0x8010a460; initcode_size := 44 }.
#[local] Instance demo_devices : Devices (fsys unit) := {
  ideintr := ret tt; kbdintr := ret tt; uartintr := ret tt; lapiceoi := ret tt }.

Lemma machine_current w w1 : current (machine w w1) 0 (process (Some O :: replicate 15 None)).
Proof. split; reflexivity. Qed.

Example user_memory_checked_witness :
  argptr 0 4088 (machine 8 0) = Ret (Some 8) (machine 8 0) /\
  fetchstr 4090 (machine 8 0) = Ret (Some []) (machine 8 0).
Proof.
  pose proof (user_memory_checked (machine 8 0) 0 _ (machine_current 8 0) ltac:(vm_compute; split; discriminate)) as [Hp Hs].
  split; [rewrite (Hp 0 4088 8) by (vm_compute; try split; congruence || reflexivity); reflexivity|].
  rewrite (Hs 4090 [0; 0; 0; 0; 0; 0]); [reflexivity | lia | reflexivity|].
  intros k b Ek. do 6 (destruct k as [|k]; [injection Ek as <-; vm_compute; reflexivity|]). discriminate.
Defined.

(** sbrk(4096), then an access to the page it returned. *)
Example sbrk_delayed_witness : exists s1 s2, sys_sbrk (machine 4096 0) = Ret (Value 4096) s1 /\
  trap (fun _ => None) id frame0 T_PGFLT s1 = (exit ;! ret true) s2.
Proof.
  destruct (sbrk_delayed (machine 4096 0) 0 _ 4096 4096 (fun _ => None) id frame0 (machine_current 4096 0)
    ltac:(vm_compute; reflexivity) ltac:(eexists; vm_compute; reflexivity) eq_refl) as (s1 & q & s2 & E1 & _ & _ & _ & E2).
  exists s1, s2. split; [exact E1 | exact E2].
Defined.

(** sbrk(0x7ffff000): the second argument, 0x80000000, becomes acceptable. *)
Example sbrk_kernel_pointer_witness : exists s1,
  sys_sbrk (machine 0x7ffffffc 0x80000000) = Ret (Value 4096) s1 /\
  argptr 1 512 s1 = Ret (Some 0x80000000) s1.
Proof.
  destruct (sbrk_kernel_pointer (machine 0x7ffffffc 0x80000000) 0 _ 0x7ffffffc (machine_current _ _)
    ltac:(vm_compute; reflexivity) ltac:(vm_compute; split; congruence)) as (s1 & E1 & Hk).
  pose proof E1 as E2. vm_compute in E2. injection E2 as E2. exists s1. split; [exact E1|].
  apply (Hk (- 2 ^ 31)); [rewrite <- E2; vm_compute; reflexivity | vm_compute; discriminate | lia | vm_compute; discriminate].
Defined.
