(* ===== verification/ExecVm.v ===== *)
(** * exec() and the page tables

    The address space exec() builds, seen by the program that will run in
    it: a flat memory of a certain size.  Each operation on the page tables
    that exec() uses - setupkvm(), allocuvm(), clearpteu(), copyout(), the
    reads of loaduvm() - is an operation on this memory, and keeps the
    account of the pages. *)
From S2P Require Import Prelude.
From S2P Require Import CString.
From S2P Require Import Kalloc.
From S2P Require Import Vm.
From S2P Require Import VmProofs.
From S2P Require Import VmFree.
From S2P Require Import VmGrow.
From S2P Require Import VmFork.
From S2P Require Import Exec.

(** ** Bytes in a memory *)

Lemma put_bytes_off l : forall m a x, x < a \/ a + Z.of_nat (length l) <= x -> put_bytes m a l x = m x.
Proof.
  induction l as [|b l IH]; intros m a x Hx; cbn [put_bytes length] in *; [reflexivity|].
  rewrite IH by lia. unfold store8. rewrite (proj2 (Z.eqb_neq x a)) by lia. reflexivity.
Qed.
Lemma put_bytes_shift l : forall m m' a b x, m (a + x) = m' (b + x) -> put_bytes m a l (a + x) = put_bytes m' b l (b + x).
Proof.
  induction l as [|c l IH]; intros m m' a b x Hx; cbn [put_bytes]; [exact Hx|].
  replace (a + x) with (a + 1 + (x - 1)) by lia. replace (b + x) with (b + 1 + (x - 1)) by lia. apply IH.
  replace (a + 1 + (x - 1)) with (a + x) by lia. replace (b + 1 + (x - 1)) with (b + x) by lia.
  unfold store8. destruct (Z.eqb_spec (a + x) a), (Z.eqb_spec (b + x) b); try lia; auto.
Qed.
Lemma put_bytes_app l1 l2 : forall m a, put_bytes m a (l1 ++ l2) = put_bytes (put_bytes m a l1) (a + Z.of_nat (length l1)) l2.
Proof.
  induction l1 as [|b l1 IH]; intros m a; cbn [put_bytes app length]; [rewrite Z.add_0_r; reflexivity|].
  rewrite IH. f_equal. lia.
Qed.
Lemma put_bytes_ok l : forall m a, bytes_ok m -> bytes_ok (put_bytes m a l).
Proof. induction l as [|b l IH]; intros m a Hm; cbn [put_bytes]; auto using store8_ok. Qed.
(** What was put is there. *)
Lemma put_bytes_in l : forall m a i b, l !! i = Some b -> put_bytes m a l (a + Z.of_nat i) = u8 b.
Proof.
  induction l as [|c l IH]; intros m a i b Hi; [discriminate|]. cbn [put_bytes]. destruct i as [|i]; cbn in Hi.
  - injection Hi as ->. rewrite Z.add_0_r, put_bytes_off by lia. unfold store8. rewrite Z.eqb_refl. reflexivity.
  - replace (a + Z.of_nat (S i)) with (a + 1 + Z.of_nat i) by lia. apply IH. exact Hi.
Qed.

(** ** The memory of a program *)

Record image : Type := mk_image { im_size : Z; im_mem : mem }.
Definition no_image : image := mk_image 0 (fun _ => 0).
(** It grows by zeroed pages, and never shrinks. *)
Definition grow (sz : Z) (im : image) : image :=
  if sz <? im_size im then im
  else mk_image sz (fun x => if x <? PGROUNDUP (im_size im) then im_mem im x else 0).
Definition write (im : image) (a : Z) (bs : list Z) : image := mk_image (im_size im) (put_bytes (im_mem im) a bs).

Section Proofs.
Context `{Ctx} `{Linked}.
Implicit Types (k : kmem) (m : mem) (l : list Z).

(** The user may write every page but the guard page [g]. *)
Definition flags (g a : Z) : Z := if a =? g then PTE_W else Z.lor PTE_W PTE_U.
(** The page table shows the image to the user, and nothing else. *)
Definition shows m (d g : Z) (im : image) : Prop :=
  (forall a, upage a -> a < im_size im -> exists w, page_ok w /\
     maps m d a = Some (entry (V2P w) (flags g a)) /\ forall x, 0 <= x < PGSIZE -> m (w + x) = im_mem im (a + x)) /\
  (forall a, upage a -> im_size im <= a -> maps m d a = None).
(** Above, it maps the kernel, which the user cannot touch. *)
Definition kernel_half m (d : Z) : Prop :=
  (forall ln, ln ∈ kmap -> translated m d ln) /\
  (forall va e, KERNBASE <= va < 2 ^ 32 -> maps m d va = Some e -> bitset e PTE_U = false).

(** All pages of an address space. *)
Definition space m (d : Z) : list Z := d :: tables m d ++ user_frames m d.

Lemma perm_W : 0 <= PTE_W < PGSIZE.
Proof. split; [discriminate | reflexivity]. Qed.
Lemma perm_WU : 0 <= Z.lor PTE_W PTE_U < PGSIZE.
Proof. split; [discriminate | reflexivity]. Qed.
Lemma flags_range g a : 0 <= flags g a < PGSIZE.
Proof. unfold flags. destruct (a =? g); [exact perm_W | exact perm_WU]. Qed.
Lemma page_base w : page_ok w -> V2P w mod PGSIZE = 0.
Proof. intros Hw. apply (P2V_V2P w Hw). Qed.
Lemma page_pos w : page_ok w -> 0 < w.
Proof. unfold page_ok, KERNBASE. lia. Qed.

Lemma shows_entry m d g im a e : shows m d g im -> upage a -> maps m d a = Some e ->
  a < im_size im /\ page_ok (frame e) /\ e = entry (V2P (frame e)) (flags g a) /\
  forall x, 0 <= x < PGSIZE -> m (frame e + x) = im_mem im (a + x).
Proof.
  intros [Hp Hn] Ha Ee. destruct (Z.lt_ge_cases a (im_size im)) as [Hlt|Hge].
  - destruct (Hp a Ha Hlt) as (w & Hw & Em & Hc). rewrite Em in Ee. injection Ee as <-.
    rewrite frame_entry by auto using flags_range. auto.
  - rewrite Hn in Ee by assumption. discriminate.
Qed.
(** Only the pages other than the guard page are the user's. *)
Lemma shows_user m d g im a e : shows m d g im -> upage a -> maps m d a = Some e -> bitset e PTE_U = true -> a <> g.
Proof.
  intros Hs Ha Ee Hu ->. destruct (shows_entry _ _ _ _ _ _ Hs Ha Ee) as (_ & Hw & E & _).
  rewrite E, entry_user in Hu by (apply page_base; exact Hw). unfold flags in Hu. rewrite Z.eqb_refl in Hu. discriminate.
Qed.

Lemma kernel_half_ext m m' d : layout_ok -> (forall va, KERNBASE <= va < 2 ^ 32 -> maps m' d va = maps m d va) ->
  kernel_half m d -> kernel_half m' d.
Proof.
  intros Hlay Hm [Hk Hu]. split.
  - intros ln Hln. specialize (Hk ln Hln). assert (exists hi, line_ok hi ln) as (hi & Hl).
    { pose proof (kmap_ok Hlay) as Hok. revert Hok Hln. generalize 0 as hi. generalize kmap as lns.
      induction lns as [|x lns IH]; intros hi Hok Hin; [apply elem_of_nil in Hin; contradiction|]. cbn [lines_ok] in Hok.
      apply elem_of_cons in Hin as [->|Hin]; [exists hi; apply Hok | apply (IH (line_end x)); tauto]. }
    destruct ln as [[[virt ps] pe] perm]. destruct Hl as (L1 & _ & _ & _ & L2 & _). cbn [translated] in *.
    intros va Hva. rewrite Hm by lia. apply Hk. exact Hva.
  - intros va e Hva Ee. rewrite Hm in Ee by exact Hva. exact (Hu va e Hva Ee).
Qed.

(** ** An address space among other changes

    Its pages keep their contents and are not on the new free list. *)
Lemma user_move k k' p l l' : user_ok k p l -> kmem_ok k' l' ->
  (forall w, w ∈ space (km_mem k) p -> w ∉ l' /\ same_page_mem w (km_mem k) (km_mem k')) ->
  user_ok k' p l' /\ (forall va, maps (km_mem k') p va = maps (km_mem k) p va) /\
  space (km_mem k') p = space (km_mem k) p.
Proof.
  intros [[_ [Hd _] Ht Hi] Hpg Hinj] Hk' Hs.
  destruct (Hs p ltac:(left)) as [Hpl Hps].
  assert (forall i t, 0 <= i < 1024 -> table_at (km_mem k) p i = Some t ->
    t ∉ l' /\ same_page_mem t (km_mem k) (km_mem k')) as Hst.
  { intros i t Hir Et. apply Hs. right. apply elem_of_app. left. apply elem_of_tables. eauto. }
  assert (forall i, 0 <= i < 1024 -> table_at (km_mem k') p i = table_at (km_mem k) p i) as Et.
  { intros i Hir. unfold table_at. rewrite (same_page_word p (km_mem k)) by auto. reflexivity. }
  assert (forall va, maps (km_mem k') p va = maps (km_mem k) p va) as Em.
  { apply maps_ext; [exact Et|]. intros i t j Hir Hj Ei. apply same_page_word; [|exact Hj]. apply (Hst i t Hir Ei). }
  split; [|split; [exact Em|]].
  - split; [split|..].
    + exact Hk'.
    + auto.
    + intros i t Hir. rewrite Et by exact Hir. intros Ei. destruct (Ht i t Hir Ei) as (T1 & T2 & _).
      split_and!; auto. apply (Hst i t Hir Ei).
    + intros i j t Hir Hj. rewrite !Et by assumption. apply Hi; assumption.
    + intros a e Ha. rewrite Em. intros Ee. destruct (Hpg a e Ha Ee) as (F1 & F2 & _ & F4). unfold foreign.
      split_and!; auto.
      * apply Hs. right. apply elem_of_app. right. apply elem_of_user. eauto.
      * intros i Hir. rewrite Et by exact Hir. auto.
    + intros a b e f. rewrite !Em. apply Hinj.
  - unfold space. rewrite (tables_ext _ _ _ Et), (user_frames_ext (km_mem k)); [reflexivity|]. intros b _. apply Em.
Qed.

Lemma account_space k p l : p :: account p k l = space (km_mem k) p ++ l.
Proof. unfold account, space. cbn [app]. rewrite <- app_assoc. reflexivity. Qed.
(** The pages of an address space are pages, and none is free. *)
Lemma space_pages k p l w : user_ok k p l -> w ∈ space (km_mem k) p -> page_ok w /\ w ∉ l.
Proof.
  intros [[_ Hd Ht _] Hpg _] [->|[Hw|Hw]%elem_of_app]%elem_of_cons; [exact Hd|..].
  - apply elem_of_tables in Hw as (i & Hi & Ei). destruct (Ht i w Hi Ei) as (T1 & _ & T3). auto.
  - apply elem_of_user in Hw as (a & e & Ha & Ee & <-). destruct (Hpg a e Ha Ee) as (F1 & _ & F3 & _). auto.
Qed.

(** ** The address space exec() is building

    [m0] and [l0] are the memory and the free list it started with. *)
Section Building.
Context (m0 : mem) (l0 : list Z) (Hlay : layout_ok).

Record building k l (d g : Z) (im : image) : Prop := {
  b_user : user_ok k d l;
  b_account : d :: account d k l ≡ₚ l0;
  b_kept : forall w, page_ok w -> w ∉ l0 -> foreign k d l w /\ same_page_mem w m0 (km_mem k);
  b_size : g < im_size im /\ 0 <= im_size im <= KERNBASE;
  b_shows : shows (km_mem k) d g im;
  b_kernel : kernel_half (km_mem k) d }.

(** setupkvm(): an empty image, or everything as before. *)
Lemma setupkvm_builds k : kmem_ok k l0 -> km_mem k = m0 -> exists r k' l, setupkvm k = Ret r k' /\
  ((r = 0 /\ kmem_ok k' l /\ l ≡ₚ l0 /\ (length l0 <= 1025)%nat /\
      forall w, page_ok w -> w ∉ l0 -> same_page_mem w m0 (km_mem k')) \/
   (r <> 0 /\ building k' l r (-1) no_image)).
Proof.
  intros Hk Em. destruct (setupkvm_eq k l0 Hlay Hk) as (r & k' & l & E & K & S & Hc). rewrite Em in S.
  exists r, k', l. split; [exact E|].
  destruct Hc as [(-> & Hl & Hn)|(Hr & _ & U & A & N & T & NU & F)]; [left; auto | right].
  split; [pose proof (page_pos r Hr); lia|]. split; auto.
  - cbn. unfold KERNBASE. lia.
  - split; [intros a [Ha _] Hs; cbn in Hs; lia|]. intros a [Ha _] _. apply N; unfold KERNBASE in *; lia.
  - split; [exact T|]. intros va e Hva. apply NU. unfold KERNBASE in *. lia.
Qed.

Section Step.
Context (k : kmem) (l : list Z) (d g : Z) (im : image) (B : building k l d g im).

Lemma building_entry a e : upage a -> maps (km_mem k) d a = Some e ->
  a < im_size im /\ page_ok (frame e) /\ e = entry (V2P (frame e)) (flags g a) /\
  forall x, 0 <= x < PGSIZE -> km_mem k (frame e + x) = im_mem im (a + x).
Proof. apply shows_entry. apply B. Qed.
Lemma building_page a : upage a -> a < im_size im -> exists e, maps (km_mem k) d a = Some e.
Proof. intros Ha Hs. destruct (b_shows _ _ _ _ _ B) as [Hp _]. destruct (Hp a Ha Hs) as (w & _ & Em & _). eauto. Qed.

(** Bytes written to the frame of a page. *)
Lemma building_write a e o bs : upage a -> maps (km_mem k) d a = Some e -> 0 <= o -> o + Z.of_nat (length bs) <= PGSIZE ->
  building (k <| km_mem ::= fun m => put_bytes m (frame e + o) bs |>) l d g (write im (a + o) bs).
Proof.
  intros Ha Ee Ho Hlen. destruct (building_entry a e Ha Ee) as (Has & Hw & _ & Hc).
  destruct B as [Hu Hacc Hkept Hsz Hs Hk]. set (k' := k <| km_mem ::= _ |>).
  assert (km_mem k' = put_bytes (km_mem k) (frame e + o) bs) as Ek by reflexivity.
  pose proof (u_page _ _ _ Hu a e Ha Ee) as Hf.
  assert (forall x, off_page (frame e) x -> km_mem k' x = km_mem k x) as Hoff.
  { intros x Hx. rewrite Ek. apply put_bytes_off. unfold off_page in Hx. lia. }
  destruct (write_user k k' d l (frame e) Hu Hf eq_refl eq_refl) as (Hu' & Hfor & Hm & Ht); [|exact Hoff|].
  { rewrite Ek. apply put_bytes_ok. apply Hu. }
  assert (forall v, page_ok v -> v <> frame e -> same_page_mem v (km_mem k) (km_mem k')) as Hsame.
  { intros v Hv Hne x Hx. apply Hoff. destruct (pages_apart (frame e) v Hw Hv ltac:(congruence));
      unfold off_page, PGSIZE in *; lia. }
  split.
  - exact Hu'.
  - rewrite <- Hacc. unfold account. rewrite (tables_ext _ _ _ Ht).
    rewrite (user_frames_ext (km_mem k)) by (intros b _; apply Hm). reflexivity.
  - intros w Hwp Hwl. destruct (Hkept w Hwp Hwl) as [Hfw Hsw]. split; [apply Hfor; exact Hfw|].
    intros x Hx. rewrite (Hsame w); [apply Hsw; exact Hx | exact Hwp | | exact Hx]. intros ->. apply Hwl. rewrite <- Hacc.
    right. apply elem_of_app. right. apply elem_of_app. left. apply elem_of_user. eauto.
  - exact Hsz.
  - destruct Hs as [Hp Hn]. split; [|intros b Hb Hge; rewrite Hm; apply Hn; assumption].
    intros b Hb Hlt. destruct (Hp b Hb Hlt) as (w & Hwb & Eb & Hcb). exists w. rewrite Hm. split_and!; auto.
    intros x Hx. cbn [im_mem write]. destruct (decide (b = a)) as [->|Hne].
    + rewrite Ee in Eb. injection Eb as ->. rewrite frame_entry in * by auto using flags_range. rewrite Ek.
      replace (w + x) with (w + o + (x - o)) by lia. replace (a + x) with (a + o + (x - o)) by lia.
      apply put_bytes_shift. replace (w + o + (x - o)) with (w + x) by lia. replace (a + o + (x - o)) with (a + x) by lia. auto.
    + rewrite (Hsame w), Hcb by (try lia; auto; intros ->; apply Hne;
        apply (u_inj _ _ _ Hu b a _ _ Hb Ha Eb Ee); rewrite frame_entry by auto using flags_range; reflexivity).
      symmetry. apply put_bytes_off. destruct Ha as [_ Ham], Hb as [_ Hbm]. unfold PGSIZE in *. Z.div_mod_to_equations. lia.
  - apply (kernel_half_ext (km_mem k)); auto.
Qed.
End Step.

(** The state of allocuvm(), seen as an image. *)
Lemma alloc_builds k l d g im n k' l' : building k l d g im -> im_size im <= n < KERNBASE ->
  alloc_state d k l (im_size im) (PGROUNDUP n) [] k' l' ->
  building k' l' d g (mk_image n (fun x => if x <? PGROUNDUP (im_size im) then im_mem im x else 0)).
Proof.
  intros [Hu Hacc Hkept [Hg Hsz] Hs Hk] Hn [Gu Ga _ Gf Gn Go].
  pose proof (round_up (im_size im) ltac:(lia)) as [R1 R1m]. pose proof (round_up n ltac:(lia)) as [R2 R2m].
  pose proof (round_up_kernel n ltac:(lia)) as R3.
  split.
  - exact Gu.
  - rewrite <- Hacc. apply perm_skip. rewrite app_nil_l in Ga. exact Ga.
  - intros w Hw Hwl. destruct (Hkept w Hw Hwl) as [Hf Hsw]. destruct (Gf w Hf) as (Hf' & _ & Hs'). split; [exact Hf'|].
    intros x Hx. rewrite Hs', Hsw by exact Hx. reflexivity.
  - cbn. lia.
  - split; cbn [im_size im_mem].
    + intros a Ha Hlt. pose proof Ha as [Har Ham]. destruct (Z.lt_ge_cases a (im_size im)) as [Hin|Hin].
      * destruct Hs as [Hp _]. destruct (Hp a Ha Hin) as (w & Hw & Em & Hc). exists w. split; [exact Hw|].
        assert (a + PGSIZE <= PGROUNDUP (im_size im)) as Hend
          by (unfold PGSIZE in *; Z.div_mod_to_equations; lia).
        rewrite Go by (unfold PGSIZE, KERNBASE in *; lia). split; [exact Em|]. intros x Hx.
        rewrite (proj2 (Z.ltb_lt _ _)) by lia. rewrite <- Hc by exact Hx.
        destruct (Gf w) as (_ & _ & Hs'); [|apply Hs'; lia].
        pose proof (u_page _ _ _ Hu a _ Ha Em) as Hf. rewrite frame_entry in Hf by auto using flags_range. exact Hf.
      * assert (PGROUNDUP (im_size im) <= a) as Hge by (unfold PGSIZE in *; Z.div_mod_to_equations; lia).
        destruct (Gn a Ha ltac:(lia)) as (w & Hw & _ & Em & Hc). exists w. split; [exact Hw|]. split.
        -- rewrite Em. unfold flags. rewrite (proj2 (Z.eqb_neq a g)) by lia. reflexivity.
        -- intros x Hx. rewrite (proj2 (Z.ltb_ge _ _)) by lia. apply Hc. exact Hx.
    + intros a Ha Hge. pose proof Ha as [Har Ham].
      assert (PGROUNDUP n <= a) as Hup by (unfold PGSIZE in *; Z.div_mod_to_equations; lia).
      rewrite Go by (unfold KERNBASE in *; lia). apply Hs; [exact Ha | lia].
  - apply (kernel_half_ext (km_mem k)); auto. intros va Hva. apply Go; [unfold KERNBASE in *; lia | lia].
Qed.

(** allocuvm() grows the image, or leaves it as it is. *)
Lemma allocuvm_builds k l d g im n : building k l d g im -> 0 <= n -> exists r k' l' im', allocuvm d (im_size im) n k = Ret r k' /\
  building k' l' d g im' /\ (r <> 0 -> im' = grow n im /\ n < KERNBASE /\ r = im_size im') /\
  (r = 0 -> n < KERNBASE -> im_size im <= n -> n = 0 \/ out_of_memory d k l (im_size im) n).
Proof.
  intros B Hn. pose proof (b_size _ _ _ _ _ B) as [_ Hsz].
  destruct (Z.le_gt_cases KERNBASE n) as [Hbig|Hbig].
  { exists 0, k, l, im. unfold allocuvm. rewrite (proj2 (Z.leb_le KERNBASE n)) by exact Hbig.
    split_and!; auto; [congruence | lia]. }
  unfold grow. destruct (Z.ltb_spec n (im_size im)) as [Hlt|Hge].
  { exists (im_size im), k, l, im. unfold allocuvm. rewrite (proj2 (Z.leb_gt KERNBASE n)), (proj2 (Z.ltb_lt n _)) by lia.
    split_and!; auto; lia. }
  destruct (allocuvm_grown d k l (im_size im) n ltac:(lia) Hbig) as (r & k' & l' & E & Hc).
  { intros va Hva. pose proof (round_up (im_size im) ltac:(lia)) as [R1 _].
    pose proof (round_up_kernel n ltac:(lia)) as R3. destruct (b_shows _ _ _ _ _ B) as [_ Hnone].
    rewrite <- (Hnone (va / PGSIZE * PGSIZE)).
    - assert (va / PGSIZE = va / PGSIZE * PGSIZE / PGSIZE) as Ep by (rewrite Z.div_mul; [reflexivity | discriminate]).
      assert (0 <= va / PGSIZE * PGSIZE < 2 ^ 32) as Hr by (unfold PGSIZE, KERNBASE in *; Z.div_mod_to_equations; lia).
      apply same_page in Ep as [E1 E2]; [|unfold KERNBASE in *; lia | exact Hr]. unfold maps. rewrite E1, E2. reflexivity.
    - split; [unfold PGSIZE, KERNBASE in *; Z.div_mod_to_equations; lia | apply Z_mod_mult].
    - pose proof (round_up (im_size im) ltac:(lia)) as [_ Rm]. unfold PGSIZE in *. Z.div_mod_to_equations. lia. }
  { apply B. }
  destruct Hc as [(-> & G & O)|[-> G]].
  - exists 0, k', l'. eexists. split; [exact E|]. split; [apply (alloc_builds k l d g im (im_size im) k' l' B); [lia | exact G]|].
    split; [congruence | auto].
  - exists n, k', l'. eexists. split; [exact E|]. split; [apply (alloc_builds k l d g im n k' l' B); [lia | exact G]|].
    split; [auto | left; lia].
Qed.

(** *** Enough pages *)

Lemma frames_length m d n : forall a, (length (frames m d a n) <= n)%nat.
Proof. induction n as [|n IH]; intros a; [apply le_n|]. rewrite frames_S. specialize (IH (a + PGSIZE)). case_match; cbn; lia. Qed.

(** There are pages for a directory, all its tables and [n] bytes. *)
Definition room l (n : Z) : Prop := n < KERNBASE /\ 1026 + PGROUNDUP n / PGSIZE < Z.of_nat (length l).
Lemma room_less l n n' : room l n -> 0 <= n' <= n -> room l n'.
Proof.
  intros [Hn Hl] Hle. split; [lia|]. pose proof (round_up n ltac:(lia)) as [R1 R2]. pose proof (round_up n' ltac:(lia)) as [R3 R4].
  enough (PGROUNDUP n' / PGSIZE <= PGROUNDUP n / PGSIZE) by lia. unfold PGSIZE in *. Z.div_mod_to_equations. lia.
Qed.

(** The frames below the end of what has been allocated. *)
Lemma frames_bound m d n : 0 <= n < KERNBASE -> (forall a, upage a -> n <= a -> maps m d a = None) ->
  Z.of_nat (length (user_frames m d)) <= PGROUNDUP n / PGSIZE.
Proof.
  intros Hn Hm. pose proof (round_up n ltac:(lia)) as [R1 R2]. pose proof (round_up_kernel n ltac:(lia)) as R3.
  apply Z_div_exact_full_2 in R2; [|discriminate]. set (q := PGROUNDUP n / PGSIZE) in *. rewrite R2 in R1, R3.
  pose proof user_pages_eq as Eu. unfold user_frames.
  assert (user_pages = Z.to_nat q + (user_pages - Z.to_nat q))%nat as -> by (unfold PGSIZE, KERNBASE in *; lia).
  rewrite frames_app, length_app. pose proof (frames_length m d (Z.to_nat q) 0).
  rewrite (frames_skip m d (user_pages - Z.to_nat q) _ (user_pages - Z.to_nat q)), Nat.sub_diag;
    [cbn; unfold PGSIZE in *; lia | lia|].
  intros i Hi. apply Hm; [split|]; [unfold PGSIZE, KERNBASE in *; lia | | unfold PGSIZE in *; lia].
  rewrite Z.add_0_l, <- Z.mul_add_distr_l, Z.mul_comm. apply Z_mod_mult.
Qed.

Lemma enough_memory k l d g im n : building k l d g im -> im_size im <= n -> room l0 n -> ~ out_of_memory d k l (im_size im) n.
Proof.
  intros B Hn [Hk Hr] (hi & held & k' & G & Hhi & Hh). pose proof (b_size _ _ _ _ _ B) as [_ Hsz].
  pose proof (round_up n ltac:(lia)) as [R1 R2]. pose proof (round_up (im_size im) ltac:(lia)) as [R3 R4].
  pose proof (g_account _ _ _ _ _ _ _ _ _ _ G) as A. pose proof (b_account _ _ _ _ _ B) as Hacc.
  apply Permutation_length in A, Hacc. unfold account in A at 1. rewrite !length_app in A. cbn [length] in A, Hacc.
  pose proof (tables_length (km_mem k') d). enough (Z.of_nat (length (user_frames (km_mem k') d)) <= PGROUNDUP n / PGSIZE) by lia.
  apply frames_bound; [lia|]. intros a Ha Han. rewrite (g_old _ _ _ _ _ _ _ _ _ _ G).
  - apply (proj2 (b_shows _ _ _ _ _ B)); [exact Ha | lia].
  - destruct Ha. unfold KERNBASE in *. lia.
  - enough (PGROUNDUP n <= a) by lia. destruct Ha as [_ Ham]. clear - Han Ham R1 R2. unfold PGSIZE in *.
    Z.div_mod_to_equations. lia.
Qed.

(** With enough pages, allocuvm() succeeds. *)
Lemma allocuvm_runs k l d g im n : building k l d g im -> 0 <= n -> 0 < im_size (grow n im) -> room l0 n ->
  exists k' l', allocuvm d (im_size im) n k = Ret (im_size (grow n im)) k' /\ building k' l' d g (grow n im).
Proof.
  intros B Hn Hp Hr. pose proof (proj1 Hr) as Hk. unfold grow in Hp |- *. destruct (Z.ltb_spec n (im_size im)) as [Hlt|Hge].
  { exists k, l. unfold allocuvm. rewrite (proj2 (Z.leb_gt KERNBASE n)), (proj2 (Z.ltb_lt n _)) by lia. auto. }
  cbn [im_size] in *. destruct (allocuvm_builds _ _ _ _ _ n B Hn) as (r & k' & l' & im' & E & B' & Hok & Hno).
  destruct (Z.eqb_spec r 0) as [->|Hnz].
  { exfalso. destruct (Hno eq_refl Hk Hge) as [->|Ho]; [lia|]. exact (enough_memory _ _ _ _ _ _ B Hge Hr Ho). }
  destruct (Hok Hnz) as (-> & _ & ->). exists k', l'. unfold grow in *.
  rewrite (proj2 (Z.ltb_ge n _)) in * by lia. auto.
Qed.

(** *** Reading the page table *)

(** walkpgdir() finds the entry of a page that is mapped. *)
Lemma walk_entry k l d va e : vm_ok k d l -> maps (km_mem k) d va = Some e -> exists t,
  table_at (km_mem k) d (PDX va) = Some t /\ walkpgdir d va false k = Ret (t + 4 * PTX va) k /\ t + 4 * PTX va <> 0 /\
  load32 (km_mem k) (t + 4 * PTX va) = e /\ load_ptr (t + 4 * PTX va) k = Ret e k.
Proof.
  intros Hok Ee. destruct (maps_table _ _ _ _ Ee) as (t & Et & El & _). exists t.
  destruct (v_tab _ _ _ Hok _ _ (PDX_range va) Et) as (Ht & _).
  assert (t + 4 * PTX va <> 0) as Hnz by (pose proof (PTX_range va); pose proof (page_pos t Ht); lia).
  split_and!; auto; [rewrite walk_noalloc, Et; reflexivity|].
  unfold load_ptr. rewrite (proj2 (Z.eqb_neq _ _) Hnz). unfold load, get. rewrite El. reflexivity.
Qed.

Section User.
Context (k : kmem) (l : list Z) (d g : Z) (im : image) (B : building k l d g im).

(** The page [a] is the user's. *)
Definition user_page (im : image) (g a : Z) : Prop := 0 <= a < KERNBASE /\ a < im_size im /\ a <> g.

Lemma uva2ka_builds a : 0 <= a < 2 ^ 32 -> a mod PGSIZE = 0 ->
  (user_page im g a /\ exists e, maps (km_mem k) d a = Some e /\ uva2ka d a k = Ret (frame e) k /\ frame e <> 0) \/
  (~ user_page im g a /\ (uva2ka d a k = Ret 0 k \/ exists w s, uva2ka d a k = Stop w s)).
Proof.
  intros Ha Ham. assert (vm_ok k d l) as Hok by apply B. destruct (maps (km_mem k) d a) as [e|] eqn:Ee.
  - destruct (walk_entry k l d a e Hok Ee) as (t & _ & Ew & _ & _ & El).
    destruct (maps_table _ _ _ _ Ee) as (_ & _ & _ & EP).
    assert (uva2ka d a k = Ret (if bitset e PTE_U then frame e else 0) k) as Eu.
    { unfold uva2ka. step by (exact Ew). step by (exact El). rewrite EP. cbn [negb]. destruct (bitset e PTE_U); reflexivity. }
    destruct (bitset e PTE_U) eqn:EU.
    + destruct (Z.lt_ge_cases a KERNBASE) as [Hlt|Hge].
      * assert (upage a) as Hu by (split; [lia | exact Ham]). left.
        destruct (building_entry k l d g im B a e Hu Ee) as (Hs & Hw & _). pose proof (page_pos _ Hw) as Hpos.
        split; [|exists e; split_and!; auto; lia]. split_and!; auto; [apply Hu..|].
        apply (shows_user _ _ _ _ _ _ (b_shows _ _ _ _ _ B) Hu Ee EU).
      * destruct (b_kernel _ _ _ _ _ B) as [_ Hk]. rewrite (Hk a e) in EU by (try assumption; lia). discriminate.
    + right. split; [|left; exact Eu]. intros (Hr & Hs & Hg).
      assert (upage a) as Hu by (split; assumption).
      destruct (building_entry k l d g im B a e Hu Ee) as (_ & Hw & E & _). revert EU. rewrite E, entry_user by (apply page_base; exact Hw).
      unfold flags. rewrite (proj2 (Z.eqb_neq a g)) by exact Hg. discriminate.
  - right. split.
    + intros (Hr & Hs & _). destruct (building_page k l d g im B a) as [e Ee']; [split; assumption | exact Hs | congruence].
    + unfold uva2ka. rewrite (bind_eq _ _ _ _ _ (walk_noalloc k d a)).
      unfold maps in Ee. destruct (table_at (km_mem k) d (PDX a)) as [t|] eqn:Et.
      * left. destruct (v_tab _ _ _ Hok _ _ (PDX_range a) Et) as (Ht & _). pose proof (PTX_range a). pose proof (page_pos t Ht).
        unfold load_ptr. rewrite (proj2 (Z.eqb_neq _ _)) by lia. step by reflexivity. cbn in Ee.
        destruct (bitset _ PTE_P); [discriminate | reflexivity].
      * right. eexists _, _. reflexivity.
Qed.
End User.

(** Bytes for the user from [va] on. *)
Definition user_range (im : image) (g va n : Z) : Prop := forall x, va <= x < va + n -> user_page im g (PGROUNDDOWN x).

(** copyout() writes the bytes, or meets a page that is not the user's. *)
Lemma copyout_builds fuel : forall k l d g im va buf, building k l d g im -> 0 <= va < 2 ^ 32 ->
  match copyout_list_loop fuel d va buf k with
  | Ret r k' => exists im', building k' l d g im' /\
      ((r = 0 /\ im' = write im va buf /\ user_range im g va (Z.of_nat (length buf))) \/
       (r = -1 /\ ~ user_range im g va (Z.of_nat (length buf))))
  | Stop _ _ => ~ user_range im g va (Z.of_nat (length buf)) \/ PGSIZE * Z.of_nat fuel < va mod PGSIZE + Z.of_nat (length buf)
  end.
Proof.
  induction fuel as [|fuel IH]; intros k l d g im va buf B Hva; destruct buf as [|b buf].
  1, 3: exists im; split; [exact B|]; left; split_and!; [reflexivity | destruct im; reflexivity | intros x Hx; cbn in Hx; lia].
  - right. cbn [length]. pose proof (Z.mod_pos_bound va PGSIZE eq_refl). lia.
  - set (bs := b :: buf). change (copyout_list_loop (S fuel) d va bs) with (
      let va0 := PGROUNDDOWN va in let! pa0 := uva2ka d va0 in
      if pa0 =? 0 then ret (-1) else
      let len := Z.of_nat (length bs) in let n := PGSIZE - (va - va0) in let n := if len <? n then len else n in
      on_mem (fun m => put_bytes m (pa0 + (va - va0)) (take (Z.to_nat n) bs)) ;!
      copyout_list_loop fuel d (u32 (va0 + PGSIZE)) (drop (Z.to_nat n) bs)).
    cbv zeta. set (len := Z.of_nat (length bs)). assert (0 < len) as Hlen by (unfold len, bs; cbn; lia).
    pose proof (PGROUNDDOWN_eq va Hva) as E0. set (va0 := PGROUNDDOWN va) in *.
    assert (va0 mod PGSIZE = 0 /\ va0 <= va < va0 + PGSIZE /\ 0 <= va0) as (Hm & Hv & Hv0)
      by (rewrite E0; split; [apply Z_mod_mult | unfold PGSIZE; Z.div_mod_to_equations; lia]).
    destruct (uva2ka_builds k l d g im B va0 ltac:(lia) Hm) as [[Hup (e & Ee & Eu & Hnz)]|[Hup Hu]].
    2:{ assert (~ user_range im g va len) as Hno by (intros Hr; apply Hup; apply (Hr va); lia).
        destruct Hu as [Eu|(w & s & Es)].
        - rewrite (bind_eq _ _ _ _ _ Eu). cbn. exists im. auto.
        - rewrite (bind_stop _ _ _ _ _ Es). auto. }
    rewrite (bind_eq _ _ _ _ _ Eu), (proj2 (Z.eqb_neq _ _) Hnz).
    set (n := if len <? _ then _ else _).
    assert (n = Z.min len (PGSIZE - (va - va0))) as Hn by (unfold n; destruct (Z.ltb_spec len (PGSIZE - (va - va0))); lia).
    assert (Z.of_nat (length (take (Z.to_nat n) bs)) = n) as Htake by (rewrite length_take; unfold len in *; lia).
    pose proof Hup as (Hup1 & Hup2 & Hup3).
    pose proof (building_write k l d g im B va0 e (va - va0) (take (Z.to_nat n) bs) ltac:(split; assumption) Ee ltac:(lia) ltac:(lia)) as B1.
    unfold on_mem. rewrite bind_modify. set (k1 := k <| km_mem ::= _ |>) in *.
    replace (va0 + (va - va0)) with va in B1 by lia.
    assert (u32 (va0 + PGSIZE) = va0 + PGSIZE) as -> by (apply u32_small; unfold PGSIZE, KERNBASE in *; lia).
    assert (write (write im va (take (Z.to_nat n) bs)) (va0 + PGSIZE) (drop (Z.to_nat n) bs) = write im va bs) as Ew.
    { unfold write. cbn [im_size im_mem]. f_equal. destruct (Z.lt_ge_cases len (PGSIZE - (va - va0))) as [Hl|Hl].
      - rewrite drop_ge, take_ge by (unfold len in *; lia). reflexivity.
      - rewrite <- (take_drop (Z.to_nat n) bs) at 3. rewrite put_bytes_app, Htake. f_equal. lia. }
    specialize (IH k1 l d g _ (va0 + PGSIZE) (drop (Z.to_nat n) bs) B1 ltac:(unfold PGSIZE, KERNBASE in *; lia)).
    rewrite length_drop in IH. fold len.
    assert (Z.of_nat (length bs - Z.to_nat n) = len - n) as El by (unfold len in *; lia). rewrite El in IH.
    assert (user_range (write im va (take (Z.to_nat n) bs)) g (va0 + PGSIZE) (len - n) <-> user_range im g va len) as Hiff.
    { split; intros Hr x Hx.
      - destruct (Z.lt_ge_cases x (va0 + PGSIZE)) as [Hx0|Hx0]; [|apply Hr; lia].
        assert (PGROUNDDOWN x = va0) as ->; [|exact Hup]. rewrite PGROUNDDOWN_eq, E0 by (unfold PGSIZE, KERNBASE in *; lia).
        unfold PGSIZE in *. Z.div_mod_to_equations. lia.
      - apply Hr. lia. }
    destruct (copyout_list_loop fuel d (va0 + PGSIZE) (drop (Z.to_nat n) bs) k1) as [r k'|w s].
    + destruct IH as (im' & B' & Hc). exists im'. split; [exact B'|]. rewrite Ew, Hiff in Hc. exact Hc.
    + destruct IH as [IH|IH]; [left; rewrite <- Hiff; exact IH | right].
      assert ((va0 + PGSIZE) mod PGSIZE = 0) as Em by (rewrite <- Hm; exact (Z_mod_plus_full va0 1 PGSIZE)).
      rewrite Em in IH. clear - IH Hv Hm Hn. assert (va mod PGSIZE = va - va0) as -> by (unfold PGSIZE in *; Z.div_mod_to_equations; lia).
      unfold PGSIZE in *. lia.
Qed.

(** copyout() to pages of the user. *)
Lemma copyout_runs k l d g im va buf : building k l d g im -> 0 <= va < 2 ^ 32 -> user_range im g va (Z.of_nat (length buf)) ->
  exists k', copyout_list d va buf k = Ret 0 k' /\ building k' l d g (write im va buf).
Proof.
  intros B Hva Hr. unfold copyout_list. set (fuel := Z.to_nat _).
  pose proof (copyout_builds fuel _ _ _ _ _ va buf B Hva) as Hc. destruct (copyout_list_loop fuel d va buf k) as [r k'|w k'].
  - destruct Hc as (im' & B' & [(-> & -> & _)|[_ Hx]]); [eauto | contradiction].
  - destruct Hc as [Hx|Hx]; [contradiction | exfalso]. subst fuel. unfold PGSIZE in *. Z.div_mod_to_equations. lia.
Qed.
(** The page at the end is the user's. *)
Lemma stack_range im top va n : im_size im = top -> top mod PGSIZE = 0 -> 2 * PGSIZE <= top <= KERNBASE ->
  top - PGSIZE <= va -> va + n <= top -> user_range im (top - 2 * PGSIZE) va n.
Proof.
  intros Hs Hm Ht Hlo Hhi x Hx. assert (PGROUNDDOWN x = top - PGSIZE) as ->.
  { rewrite PGROUNDDOWN_eq by (unfold PGSIZE, KERNBASE in *; lia). unfold PGSIZE in *. Z.div_mod_to_equations. lia. }
  unfold user_page, PGSIZE in *. lia.
Qed.

(** Without PTE_U, the entry of a page of the user is that of the guard page. *)
(** *** The guard page *)

Lemma clear_user w : page_ok w ->
  Z.land (entry (V2P w) (Z.lor PTE_W PTE_U)) (u32 (Z.lnot PTE_U)) = entry (V2P w) PTE_W.
Proof.
  intros Hw. destruct (P2V_V2P w Hw) as (Ha & Hr & _). unfold entry. rewrite !Z.land_lor_distr_l.
  change (Z.lor (Z.land PTE_W (u32 (Z.lnot PTE_U))) (Z.land PTE_U (u32 (Z.lnot PTE_U)))) with PTE_W.
  change (Z.land PTE_P (u32 (Z.lnot PTE_U))) with PTE_P. do 2 f_equal.
  apply Z.bits_inj'. intros i Hi. rewrite Z.land_spec. unfold u32. rewrite <- Z.land_ones, Z.land_spec, Z.lnot_spec by lia.
  destruct (Z.lt_ge_cases i 32) as [Hlt|Hge].
  - rewrite Z.ones_spec_low, andb_true_r by lia. destruct (decide (i = 2)) as [->|Hne].
    + change (negb (Z.testbit PTE_U 2)) with false. rewrite andb_false_r.
      symmetry. rewrite <- (Z.mod_pow2_bits_low _ 12) by lia. unfold PGSIZE in Ha. change (2 ^ 12) with 4096. rewrite Ha. reflexivity.
    + change PTE_U with (2 ^ 2). rewrite Z.pow2_bits_false by lia. apply andb_true_r.
  - rewrite Z.ones_spec_high, andb_false_r, andb_false_r by lia. symmetry. apply Z.bits_above_log2; [lia|].
    apply Z.lt_le_trans with 32; [|exact Hge]. destruct (decide (V2P w = 0)) as [->|Hnz]; [reflexivity|]. apply Z.log2_lt_pow2; lia.
Qed.

(** Other flags for a page that is mapped. *)
Lemma remap_user k d l a t e e' : user_ok k d l -> upage a -> maps (km_mem k) d a = Some e ->
  table_at (km_mem k) d (PDX a) = Some t -> u32 e' = e' -> bitset e' PTE_P = true -> frame e' = frame e ->
  let k' := mapped k a t e' in
  user_ok k' d l /\ account d k' l = account d k l /\
  (forall va, 0 <= va < 2 ^ 32 -> maps (km_mem k') d va = if decide (a <= va < a + PGSIZE) then Some e' else maps (km_mem k) d va) /\
  (forall b, upage b -> maps (km_mem k') d b = if decide (b = a) then Some e' else maps (km_mem k) d b) /\
  forall w, foreign k d l w -> foreign k' d l w /\ same_page_mem w (km_mem k) (km_mem k').
Proof.
  intros Hu Ha Ee Et Ee' EP Ef k'. pose proof (u_vm _ _ _ Hu) as Hok.
  pose proof (mapped_ok k d a t e' l Hok Et Ee') as Hok'. pose proof (mapped_table k d a t e' l Hok Et Ee') as Htab.
  destruct (mapped_extends k d a t e' l Hok Et Ee') as [Xp _]. fold k' in Hok', Htab, Xp.
  assert (forall va, 0 <= va < 2 ^ 32 -> maps (km_mem k') d va =
    if decide (a <= va < a + PGSIZE) then Some e' else maps (km_mem k) d va) as Hm.
  { intros va Hva. unfold k'. rewrite (mapped_maps k d a t e' l Hok Et Ee'), EP. destruct Ha as [Ha Ham].
    pose proof (page_of a va Ham ltac:(unfold KERNBASE in *; lia) Hva). repeat destruct (decide _); tauto. }
  assert (forall b, upage b -> maps (km_mem k') d b = if decide (b = a) then Some e' else maps (km_mem k) d b) as Hmu.
  { intros b [Hb Hbm]. rewrite Hm by (unfold KERNBASE in *; lia). destruct Ha as [_ Ham].
    destruct (decide (b = a)) as [->|Hne]; [rewrite decide_True; [reflexivity | unfold PGSIZE; lia]|].
    rewrite decide_False; [reflexivity|]. unfold PGSIZE in *. Z.div_mod_to_equations. lia. }
  assert (forall b f, upage b -> maps (km_mem k') d b = Some f ->
    exists f0, maps (km_mem k) d b = Some f0 /\ frame f0 = frame f) as Hold.
  { intros b f Hb. rewrite Hmu by exact Hb. destruct (decide (b = a)) as [->|_]; [intros [= <-]; exists e; auto | eauto]. }
  split_and!; auto.
  - split; [exact Hok'|..].
    + intros b f Hb Ef'. destruct (Hold b f Hb Ef') as (f0 & E0 & <-). apply Xp, (u_page _ _ _ Hu b f0 Hb E0).
    + intros b c f f' Hb Hc Eb Ec Eff. destruct (Hold b f Hb Eb) as (f0 & E0 & F0), (Hold c f' Hc Ec) as (f1 & E1 & F1).
      apply (u_inj _ _ _ Hu b c f0 f1 Hb Hc E0 E1). congruence.
  - unfold account. rewrite (tables_ext _ _ _ Htab). do 2 f_equal.
    apply omap_ext_in. intros b Hb%elem_of_pages. destruct Hb as (i & Hi & ->).
    pose proof (index_upage i Hi) as Hb. rewrite Hmu by exact Hb. destruct (decide _) as [->|_]; [|reflexivity].
    rewrite Ee. cbn. rewrite Ef. reflexivity.
Qed.

Lemma clearpteu_builds k l d im a : building k l d (-1) im -> upage a -> a < im_size im ->
  exists k', clearpteu d a k = Ret tt k' /\ building k' l d a im.
Proof.
  intros B Ha Has. destruct (building_page k l d (-1) im B a Ha Has) as [e Ee].
  destruct (building_entry k l d (-1) im B a e Ha Ee) as (_ & Hw & E & _).
  destruct B as [Hu Hacc Hkept Hsz Hs Hk]. destruct (walk_entry k l d a e (u_vm _ _ _ Hu) Ee) as (t & Et & Ew & Hnz & _ & El).
  set (w := frame e) in *. unfold flags in E. rewrite (proj2 (Z.eqb_neq a (-1))) in E by (destruct Ha; lia).
  set (e' := entry (V2P w) PTE_W).
  destruct (entry_eq (V2P w) PTE_W) as (Ee' & EP & _); [apply (page_base _ Hw) | apply (P2V_V2P w Hw) | exact perm_W |].
  fold e' in Ee', EP. assert (frame e' = frame e) as Ef by (apply frame_entry; [exact Hw | exact perm_W]).
  exists (mapped k a t e'). split.
  { unfold clearpteu. step by (exact Ew). step by (apply panic_if_false, Z.eqb_neq; exact Hnz). step by (exact El).
    unfold store_ptr. rewrite (proj2 (Z.eqb_neq _ _) Hnz), E, clear_user by exact Hw. reflexivity. }
  destruct (remap_user k d l a t e e' Hu Ha Ee Et Ee' EP Ef) as (Hu' & Hacc' & Hm & Hmu & Xp). split.
  - exact Hu'.
  - rewrite Hacc'. exact Hacc.
  - intros v Hv Hvl. destruct (Hkept v Hv Hvl) as [Hf Hsv]. destruct (Xp v Hf) as [Hf' Hs']. split; [exact Hf'|].
    intros x Hx. rewrite Hs', Hsv by exact Hx. reflexivity.
  - lia.
  - destruct Hs as [Hp Hn]. split; intros b Hb Hlt; rewrite Hmu by exact Hb; [|rewrite decide_False by lia; apply Hn; assumption].
    destruct (Hp b Hb Hlt) as (v & Hv & Ev & Hc). exists v. split; [exact Hv|].
    assert (frame (entry (V2P v) (flags (-1) b)) = v) as Fv by (apply frame_entry; [exact Hv | apply flags_range]). split.
    + unfold flags in *. rewrite (proj2 (Z.eqb_neq b (-1))) in Ev, Fv by (destruct Hb; lia).
      destruct (decide (b = a)) as [->|Hne]; [|rewrite (proj2 (Z.eqb_neq b a)) by exact Hne; exact Ev].
      rewrite Z.eqb_refl. rewrite Ee in Ev. injection Ev as Ev. unfold e', w. rewrite Ev, Fv. reflexivity.
    + intros x Hx. rewrite <- Hc by exact Hx. apply (Xp v); [|lia]. rewrite <- Fv. exact (u_page _ _ _ Hu b _ Hb Ev).
  - apply (kernel_half_ext (km_mem k)); auto. destruct Ha as [Ha Ham]. intros va Hva.
    rewrite Hm, decide_False by (unfold PGSIZE, KERNBASE in *; Z.div_mod_to_equations; lia). reflexivity.
Qed.

(** *** Giving up, and taking over *)

(** freevm() of the new address space gives every page back. *)
Lemma free_builds k l d g im : building k l d g im -> exists k' l', freevm d k = Ret tt k' /\ kmem_ok k' l' /\ l' ≡ₚ l0 /\
  forall w, page_ok w -> w ∉ l0 -> same_page_mem w m0 (km_mem k').
Proof.
  intros [Hu Hacc Hkept _ _ _]. destruct (freevm_ok k d l Hu) as (k' & l' & E & K & P & S).
  assert (l' ≡ₚ l0) as Hl by (rewrite P, <- Hacc; reflexivity). exists k', l'. split_and!; auto.
  intros w Hw Hwl x Hx. destruct (Hkept w Hw Hwl) as [_ Hs]. rewrite (S w Hw), Hs by (try exact Hx; rewrite Hl; exact Hwl).
  reflexivity.
Qed.

(** freevm() of the old address space: only its pages change hands. *)
Lemma free_old k0 k l d g im p : user_ok k0 p l0 -> km_mem k0 = m0 -> building k l d g im ->
  exists k' l', freevm p k = Ret tt k' /\ user_ok k' d l' /\ d :: account d k' l' ≡ₚ p :: account p k0 l0 /\
    shows (km_mem k') d g im /\ kernel_half (km_mem k') d /\
    forall w, page_ok w -> w ∉ space m0 p -> w ∉ l0 -> same_page_mem w m0 (km_mem k').
Proof.
  intros Hu0 Em [Hu Hacc Hkept Hsz Hs Hk].
  destruct (user_move k0 k p l0 l Hu0 (v_kmem _ _ _ (u_vm _ _ _ Hu))) as (Hup & _ & Esp).
  { intros w Hw. destruct (space_pages k0 p l0 w Hu0 Hw) as [W1 W2]. destruct (Hkept w W1 W2) as [(_ & _ & F & _) Sw].
    rewrite Em. auto. }
  rewrite Em in Esp. destruct (freevm_ok k p l Hup) as (k' & l' & E & K & P & S).
  assert (l' ≡ₚ space m0 p ++ l) as Pl by (rewrite P, <- Esp, <- account_space; reflexivity).
  assert (forall w, w ∈ space (km_mem k) d -> w ∈ l0) as Hin.
  { intros w Hw. rewrite <- Hacc, account_space. apply elem_of_app. left. exact Hw. }
  destruct (user_move k k' d l l' Hu K) as (Hu' & Hm & Esd).
  { intros w Hw. destruct (space_pages k d l w Hu Hw) as [W1 W2]. assert (w ∉ l') as Wl.
    { rewrite Pl, <- Em. intros [Hwp|Hwl]%elem_of_app; [|contradiction].
      apply (space_pages k0 p l0 w Hu0) in Hwp as [_ Hwp]. auto. }
    split; [exact Wl | apply S; assumption]. }
  exists k', l'. split; [exact E|]. split; [exact Hu'|]. split; [|split; [|split]].
  - rewrite !account_space, Em, <- Hacc, account_space, Esd, Pl. apply Permutation_app_swap_app.
  - destruct Hs as [Hp Hn]. split; [|intros a Ha Hge; rewrite Hm; apply Hn; assumption].
    intros a Ha Hlt. destruct (Hp a Ha Hlt) as (w & Hw & Ew & Hc). exists w. rewrite Hm. split_and!; auto.
    intros x Hx. rewrite <- Hc by exact Hx. pose proof (u_page _ _ _ Hu' a (entry (V2P w) (flags g a)) Ha) as Hf.
    rewrite Hm, frame_entry in Hf by auto using flags_range. destruct (Hf Ew) as (_ & _ & Wl & _).
    apply (S w Hw Wl). lia.
  - apply (kernel_half_ext (km_mem k)); auto.
  - intros w Hw Hwp Hwl x Hx. destruct (Hkept w Hw Hwl) as [(_ & _ & F & _) Sw]. rewrite (S w Hw), Sw; auto.
    rewrite Pl. intros [?|?]%elem_of_app; contradiction.
Qed.

(** *** Sizes *)

(** The size may be rounded up to a whole page. *)
Lemma round_builds k l d g im : building k l d g im -> building k l d g (mk_image (PGROUNDUP (im_size im)) (im_mem im)).
Proof.
  intros [Hu Hacc Hkept Hsz [Hp Hn] Hk]. destruct (round_up (im_size im) ltac:(lia)) as [R1 R2].
  pose proof (round_up_kernel (im_size im) ltac:(lia)) as R3. split; auto; cbn [im_size im_mem]; [lia|].
  split; intros a Ha Hlt; [apply Hp | apply Hn]; try exact Ha; cbn in Hlt; destruct Ha as [_ Ham];
    unfold PGSIZE in *; Z.div_mod_to_equations; lia.
Qed.

(** Where something of [n] bytes is pushed on a stack of one page below
    [top], under which there is the guard page; [r] is for alignment. *)
Lemma push_position im top sp n r : im_size im = top -> top mod PGSIZE = 0 -> 2 * PGSIZE <= top <= KERNBASE ->
  top - PGSIZE <= sp <= top -> 0 < n -> 0 <= r <= 3 -> r <= u32 (sp - n) ->
  user_range im (top - 2 * PGSIZE) (u32 (sp - n) - r) n ->
  u32 (sp - n) = sp - n /\ top - PGSIZE <= sp - n - r.
Proof.
  intros Hs Hm Ht Hsp Hn Hr Hru Hall. set (y := u32 (sp - n)) in *.
  assert (0 <= y < 2 ^ 32) as Hy by (apply Z.mod_pos_bound; reflexivity).
  assert (forall x, y - r <= x < y - r + n -> 0 <= x < 2 ^ 32 -> x < KERNBASE /\ ~ top - 2 * PGSIZE <= x < top - PGSIZE) as Hx.
  { intros x Hx Hxr. destruct (Hall x Hx) as (H1 & H2 & H3). rewrite PGROUNDDOWN_eq in H1, H2, H3 by exact Hxr.
    unfold PGSIZE, KERNBASE in *. Z.div_mod_to_equations. lia. }
  assert (y - r + n <= KERNBASE) as Hend.
  { destruct (Z.le_gt_cases (y - r + n) KERNBASE) as [Hle|Hgt]; [exact Hle | exfalso].
    destruct (Z.lt_ge_cases (y - r) KERNBASE) as [Hk|Hk].
    - destruct (Hx KERNBASE) as [Hlt _]; unfold KERNBASE in *; lia.
    - destruct (Hx (y - r)) as [Hlt _]; lia. }
  assert (y = sp - n) as Ey.
  { destruct (Z.le_gt_cases 0 (sp - n)) as [Hpos|Hneg]; [apply u32_small; unfold KERNBASE in *; lia | exfalso].
    assert (y = sp - n + 2 ^ 32) as Ey.
    { unfold y, u32. symmetry. apply (Z.mod_unique _ _ (-1)); unfold KERNBASE, PGSIZE in *; lia. }
    unfold KERNBASE, PGSIZE in *. lia. }
  split; [exact Ey|]. rewrite Ey in *.
  destruct (Z.lt_ge_cases (sp - n - r) (top - PGSIZE)) as [Hlt|Hge]; [exfalso | exact Hge].
  destruct (Z.lt_ge_cases (sp - n - r) (top - 2 * PGSIZE)) as [Hlo|Hhi].
  - destruct (Hx (top - 2 * PGSIZE)) as [_ Hc]; unfold PGSIZE, KERNBASE in *; lia.
  - destruct (Hx (sp - n - r)) as [_ Hc]; unfold PGSIZE, KERNBASE in *; lia.
Qed.
End Building.
End Proofs.
