(* ===== verification/ExecProofs.v ===== *)
(** * exec(): the new program

    What exec() does, in terms of a flat memory: the program headers and the
    segments are read from the file into a memory without page tables, the
    arguments are pushed on a stack at its end.  exec() builds an address
    space that shows this memory and makes it the one of the process, or it
    fails and leaves the process with the one it had; no page is lost. *)
From S2P Require Import Prelude.
From S2P Require Import CString.
From S2P Require Import Kalloc.
From S2P Require Import Vm.
From S2P Require Import Sleeplock.
From S2P Require Import Layout.
From S2P Require Import Bio.
From S2P Require Import Tx.
From S2P Require Import Fs.
From S2P Require Import Pipe.
From S2P Require Import Proc.
From S2P Require Import File.
From S2P Require Import Syscall.
From S2P Require Import Sysfile.
From S2P Require Import Exec.
From S2P Require Import Frame.
From S2P Require Import SyscallProofs.
From S2P Require Import VmProofs.
From S2P Require Import VmFree.
From S2P Require Import VmGrow.
From S2P Require Import VmFork.
From S2P Require Import ExecVm.

Definition byte (b : Z) : Prop := 0 <= b < 256.

Section Spec.
Context `{Ctx} {T : Type} `{TxOps T} `{OpOps T} `{Devsw (fstate T)}.
#[local] Abbreviation K := (kstate (fsys T)).

(** [left] bytes of the file at [off], read page by page to address [va] of
    the flat memory [f]. *)
Fixpoint flat_copy (fuel : nat) (ip : nat) (va off left : Z) (f : mem) : M (fstate T) (option mem) :=
  if 0 <? left then
    match fuel with
    | O => halt NoFuel
    | S fuel' =>
        let n := Z.min left PGSIZE in
        let! r := readi ip (u32 off) n in
        if u32 (fst r) =? n then flat_copy fuel' ip (va + PGSIZE) (off + PGSIZE) (left - PGSIZE) (put_bytes f va (snd r))
        else ret None
    end
  else ret (Some f).

(** [n] program headers at [off], and their segments. *)
Fixpoint flat_segments (n : nat) (ip : nat) (off : Z) (im : image) : M (fstate T) (option image) :=
  match n with
  | O => ret (Some im)
  | S n' =>
      let! r := readi ip (u32 off) 32 in
      let ph := dec_proghdr (snd r) in
      if negb (fst r =? 32) then ret None
      else if negb (ph_type ph =? ELF_PROG_LOAD) then flat_segments n' ip (s32 (off + 32)) im
      else if (ph_filesz ph <=? ph_memsz ph) && (ph_vaddr ph + ph_memsz ph <? KERNBASE) && (ph_vaddr ph mod PGSIZE =? 0) then
        let im := grow (ph_vaddr ph + ph_memsz ph) im in
        if im_size im =? 0 then ret None else
        let! o := flat_copy (Z.to_nat (ph_filesz ph / PGSIZE + 1)) ip (ph_vaddr ph) (ph_off ph) (ph_filesz ph) (im_mem im) in
        match o with
        | Some f => flat_segments n' ip (s32 (off + 32)) (mk_image (im_size im) f)
        | None => ret None
        end
      else ret None
  end.

(** The entry point and the memory of the program in a file. *)
Definition flat_program (path : list Z) : M K (option (Z * image)) :=
  begin_op ;!
  let! ip := k_namei path in
  match ip with
  | None => end_op ;! ret None
  | Some ip =>
      in_files (ilock (Some ip)) ;!
      let! r := in_files (readi ip 0 52) in
      let elf := dec_elfhdr (snd r) in
      let! o := (if (fst r =? 52) && (elf_magic elf =? ELF_MAGIC)
                 then in_files (flat_segments (Z.to_nat (elf_phnum elf)) ip (s32 (elf_phoff elf)) no_image)
                 else ret None) in
      in_files (iunlockput ip) ;!
      end_op ;!
      ret (match o with Some im => Some (elf_entry elf, im) | None => None end)
  end.

(** The strings, each below the one before and at a multiple of four; the
    stack pointer, the addresses of the strings and the memory. *)
Fixpoint flat_args (sp : Z) (argv : list (list Z)) (f : mem) : Z * list Z * mem :=
  match argv with
  | [] => (sp, [], f)
  | a :: argv' =>
      let at_ := (sp - (Z.of_nat (length a) + 1)) / 4 * 4 in
      let '(sp', ptrs, f') := flat_args at_ argv' (put_bytes f at_ (a ++ [0])) in
      (sp', at_ :: ptrs, f')
  end.
(** The program with two more pages and its arguments on the upper one; the
    stack pointer. *)
Definition flat_stack (im : image) (argv : list (list Z)) : Z * image :=
  let im := grow (PGROUNDUP (im_size im) + 2 * PGSIZE) (mk_image (PGROUNDUP (im_size im)) (im_mem im)) in
  let '(sp, ptrs, f) := flat_args (im_size im) argv (im_mem im) in
  let argc := Z.of_nat (length argv) in
  let words := [0xffffffff; argc; sp - (argc + 1) * 4] ++ ptrs ++ [0] in
  let sp := sp - 4 * Z.of_nat (length words) in
  (sp, mk_image (im_size im) (put_bytes f sp (concat (map le32 words)))).
End Spec.

(** ** What is on the stack

    Every string of [flat_args] can be read at its address, with its NUL,
    and the memory from the stack pointer it started with is untouched. *)
Definition string_at (f : mem) (q : Z) (a : list Z) : Prop := forall i b, (a ++ [0]) !! i = Some b -> f (q + Z.of_nat i) = u8 b.
Lemma flat_args_strings argv : forall sp f sp' ptrs f', flat_args sp argv f = (sp', ptrs, f') ->
  sp' <= sp /\ (forall x, sp <= x -> f' x = f x) /\ Forall2 (fun a q => sp' <= q < sp /\ q mod 4 = 0 /\ string_at f' q a) argv ptrs.
Proof.
  induction argv as [|a argv IH]; intros sp f sp' ptrs f' E; cbn [flat_args] in E.
  { injection E as <- <- <-. split_and!; [lia | auto | constructor]. }
  set (q := (sp - (Z.of_nat (length a) + 1)) / 4 * 4) in *.
  assert (q + Z.of_nat (length (a ++ [0])) <= sp /\ q < sp) as [Hq Hqs] by (rewrite length_app; cbn [length]; unfold q; Z.div_mod_to_equations; lia).
  destruct (flat_args q argv _) as [[sp2 ptrs2] f2] eqn:E2. injection E as <- <- <-.
  destruct (IH _ _ _ _ _ E2) as (Hle & Hoff & Hall). split; [lia|]. split.
  - intros x Hx. rewrite Hoff by lia. apply put_bytes_off. lia.
  - constructor; [split; [lia | split; [apply Z_mod_mult|]]|].
    + intros i b Hi. rewrite Hoff by lia. apply put_bytes_in. exact Hi.
    + eapply Forall2_impl; [exact Hall|]. intros b q' (Hb & Hm & Hs). split_and!; auto; lia.
Qed.

Section Proofs.
Context `{Ctx} `{Linked} `{Pages} {T : Type} `{TxOps T} `{OpOps T} `{Devsw (fstate T)}.
#[local] Abbreviation K := (kstate (fsys T)).

(** Program and arguments fit: there are not too many of them, there are
    pages enough, and what is pushed stays on the page of the stack. *)
Definition fits (im : image) (argv : list (list Z)) (l : list Z) : Prop :=
  (length argv <= MAXARG)%nat /\ room l (PGROUNDUP (im_size im) + 2 * PGSIZE) /\
  let '(sp, fin) := flat_stack im argv in im_size fin - PGSIZE <= sp.

(** The record of the process after a successful exec(). *)
Definition with_image (p : proc) (path : list Z) (pgdir sz entry sp : Z) : proc :=
  mk_proc sz pgdir (p_kstack p) (p_state p) (p_pid p) (p_parent p)
    (mk_tf (tf_eax (p_tf p)) entry sp (tf_eflags (p_tf p)) (tf_cs (p_tf p)) (tf_ds (p_tf p)) (tf_es (p_tf p)) (tf_ss (p_tf p)))
    (p_context_eip p) (p_chan p) (p_killed p) (p_ofile p) (p_cwd p) (copy_name (last_elem path path) (p_name p)).
(** The table with [q] in slot [me]. *)
Definition put_proc (t : ptable) (me : nat) (q : proc) : ptable :=
  mk_ptable (pt_lock t) (<[me := q]> (pt_proc t)) (pt_initproc t) (pt_nextpid t) (pt_cpu t).

(** The two outcomes of exec(), from [s] with the free pages [l] to [s'].  No
    page but the free ones, and those of the address space that is given
    up, changes.  *)
Definition kept (l : list Z) (s s' : K) : Prop :=
  forall w, page_ok w -> w ∉ l -> same_page_mem w (km_mem (ks_mem s)) (km_mem (ks_mem s')).
(** Process [p] keeps its address space. *)
Definition unchanged (s : K) (p : proc) (l : list Z) (s' : K) : Prop :=
  ks_pt s' = ks_pt s /\ exists l', user_ok (ks_mem s') (p_pgdir p) l' /\ l' ≡ₚ l /\ kept l s s'.
(** Process [p] in slot [me] gets the program in [path]. *)
Definition replaced (s : K) (me : nat) (p : proc) (l : list Z) (path : list Z) (argv : list (list Z)) (s' : K) : Prop :=
  exists entry im s1, flat_program path s = Ret (Some (entry, im)) s1 /\ ks_fs s' = ks_fs s1 /\
    let '(sp, fin) := flat_stack im argv in
    exists pgdir l', ks_pt s' = put_proc (ks_pt s) me (with_image p path pgdir (im_size fin) entry sp) /\
      user_ok (ks_mem s') pgdir l' /\
      shows (km_mem (ks_mem s')) pgdir (im_size fin - 2 * PGSIZE) fin /\ kernel_half (km_mem (ks_mem s')) pgdir /\
      im_size fin - PGSIZE <= sp /\
      pgdir :: account pgdir (ks_mem s') l' ≡ₚ p_pgdir p :: account (p_pgdir p) (ks_mem s) l /\
      kept (l ++ space (km_mem (ks_mem s)) (p_pgdir p)) s s'.

(** What exec() relies on below the file system: blocks are made of bytes,
    and a device returns no more bytes than it is asked for. *)
Record storage_ok : Prop := {
  st_block : forall b (t : T) x t', t_data b t = Ret x t' -> Forall byte x;
  st_device : forall major f ip n (s : fstate T) r s', dev_read major = Some f -> f ip n s = Ret r s' ->
    Forall byte (snd r) /\ Z.of_nat (length (snd r)) <= n }.

Section Storage.
Context (Hst : storage_ok).

Lemma readi_loop_bytes fuel : forall ip off left (s : fstate T) l s', 0 <= left ->
  readi_loop fuel ip off left s = Ret l s' -> Forall byte l /\ Z.of_nat (length l) <= left.
Proof.
  induction fuel as [|fuel IH]; intros ip off left s l s' Hl; cbn [readi_loop]; destruct (Z.ltb_spec 0 left) as [Hpos|Hpos];
    intros E; try discriminate; try (injection E as <- _; split; [constructor | exact Hl]).
  apply bind_inv in E as (i & s1 & _ & E). apply bind_inv in E as (bno & s2 & _ & E). apply bind_inv in E as (bp & s3 & _ & E).
  apply bind_inv in E as (x & s4 & Ex & E). apply bind_inv in E as (u & s5 & _ & E). apply bind_inv in E as (rest & s6 & Er & E).
  injection E as <- _. assert (0 <= off mod BSIZE < BSIZE) as Ho by (apply Z.mod_pos_bound; reflexivity).
  set (m := Z.min left (BSIZE - off mod BSIZE)) in *. apply IH in Er as [Hb Hlen]; [|lia].
  unfold in_tx, zoom in Ex. destruct (t_data bp (fs_tx s3)) as [y t|] eqn:Et; [|discriminate]. injection Ex as <- _.
  pose proof (st_block Hst _ _ _ _ Et) as Hy. unfold bytes_at. split.
  - apply Forall_app. split; [|exact Hb]. apply Forall_take, Forall_drop. exact Hy.
  - rewrite length_app, length_take. lia.
Qed.
Lemma readi_bytes ip off n (s : fstate T) r s' : 0 <= off < 2 ^ 32 -> 0 <= n < 2 ^ 31 -> readi ip off n s = Ret r s' ->
  Forall byte (snd r) /\ Z.of_nat (length (snd r)) <= n.
Proof.
  intros Ho Hn E. unfold readi in E. apply bind_inv in E as (i & s1 & _ & E).
  assert (forall v, ret (v, []) s1 = Ret r s' -> Forall byte (snd r) /\ Z.of_nat (length (snd r)) <= n) as Hnil
    by (intros v [= <- _]; split; [constructor | cbn; lia]).
  destruct (i_type i =? T_DEV).
  - destruct (_ || _); [exact (Hnil _ E)|]. destruct (dev_read (i_major i)) as [f|] eqn:Ef; [|exact (Hnil _ E)].
    exact (st_device Hst _ _ _ _ _ _ _ Ef E).
  - destruct (Z.ltb_spec (i_size i) off) as [_|Hsz]; [exact (Hnil _ E)|]. destruct (Z.ltb_spec (u32 (off + n)) off) as [_|Hw]; [exact (Hnil _ E)|].
    cbn [orb] in E. apply bind_inv in E as (l & s2 & El & E). injection E as <- _. cbn [snd].
    assert (u32 (off + n) = off + n) as Eu.
    { destruct (Z.lt_ge_cases (off + n) (2 ^ 32)) as [Hlt|Hge]; [apply u32_small; lia | exfalso].
      assert (u32 (off + n) = off + n - 2 ^ 32) as Eu by (unfold u32; symmetry; apply (Z.mod_unique _ _ 1); lia). lia. }
    rewrite Eu in *. destruct (Z.ltb_spec (i_size i) (off + n)) as [Hlt|Hge].
    + assert (u32 (i_size i - off) = i_size i - off) as Ei by (apply u32_small; lia). rewrite Ei in *.
      apply readi_loop_bytes in El as [Hb Hlen]; [|lia]. split; [exact Hb | lia].
    + apply readi_loop_bytes in El; [exact El | lia].
Qed.

(** ** Parts of the state *)

Definition with_mem (s : K) (k : kmem) : K := mk_ks (ks_pt s) k (ks_clock s) (ks_fs s).
Definition with_files (s : K) (x : fstate T) : K :=
  mk_ks (ks_pt s) (ks_mem s) (ks_clock s) (mk_fsys (fy_ftable (ks_fs s)) (fy_pipes (ks_fs s)) x).

Lemma in_mem_ret {A} (m : M kmem A) (s : K) a k : m (ks_mem s) = Ret a k -> in_mem m s = Ret a (with_mem s k).
Proof. intros E. unfold in_mem, zoom. rewrite E. reflexivity. Qed.
Lemma in_mem_inv {A} (m : M kmem A) (s : K) a s' : in_mem m s = Ret a s' ->
  exists k, m (ks_mem s) = Ret a k /\ s' = with_mem s k.
Proof. intros E. unfold in_mem, zoom in E. destruct (m (ks_mem s)) as [b k|]; [|discriminate]. injection E as <- <-. eauto. Qed.
Lemma in_files_ret {A} (m : M (fstate T) A) (s : K) a x : m (fy_fs (ks_fs s)) = Ret a x -> in_files m s = Ret a (with_files s x).
Proof. intros E. unfold in_files, zoom. rewrite E. reflexivity. Qed.
Lemma in_files_inv {A} (m : M (fstate T) A) (s : K) a s' : in_files m s = Ret a s' ->
  exists x, m (fy_fs (ks_fs s)) = Ret a x /\ s' = with_files s x.
Proof.
  intros E. unfold in_files, zoom in E. destruct (m (fy_fs (ks_fs s))) as [b x|]; [|discriminate]. injection E as <- <-. eauto.
Qed.

(** ** The segments *)

(** Only the memory and the file system below the table of files differ. *)
Definition follows (s s' : K) : Prop := exists k x, s' = with_files (with_mem s k) x.
#[export] Instance follows_refl : Reflexive follows.
Proof. intros s. exists (ks_mem s), (fy_fs (ks_fs s)). destruct s as [? ? ? []]. reflexivity. Qed.
#[export] Instance follows_trans : Transitive follows.
Proof. intros s s1 s2 (k1 & x1 & ->) (k2 & x2 & ->). exists k2, x2. reflexivity. Qed.
Lemma follows_mem s k : follows s (with_mem s k).
Proof. exists k, (fy_fs (ks_fs s)). destruct s as [? ? ? []]. reflexivity. Qed.
Lemma follows_files s x : follows s (with_files s x).
Proof. exists (ks_mem s), x. destruct s. reflexivity. Qed.

Context (m0 : mem) (l0 : list Z) (Hlay : layout_ok).
Abbreviation building := (building m0 l0).

Lemma readi_to_inv ip addr off n (s : K) v s' : 0 <= off < 2 ^ 32 -> 0 <= n < 2 ^ 31 -> readi_to ip addr off n s = Ret v s' ->
  exists bs x, readi ip off n (fy_fs (ks_fs s)) = Ret (v, bs) x /\ Forall byte bs /\ Z.of_nat (length bs) <= n /\
    s' = with_files (with_mem s ((ks_mem s) <| km_mem ::= fun m => put_bytes m addr bs |>)) x.
Proof.
  intros Ho Hn E. unfold readi_to in E. apply bind_inv in E as ([v' bs] & s1 & Er & E). apply in_files_inv in Er as (x & Er & ->).
  destruct (readi_bytes _ _ _ _ _ _ Ho Hn Er) as [Hb Hl]. injection E as <- <-. exists bs, x. auto.
Qed.

Lemma readi_to_ret ip addr off n (s : K) v bs x : readi ip off n (fy_fs (ks_fs s)) = Ret (v, bs) x ->
  readi_to ip addr off n s = Ret v (with_files (with_mem s ((ks_mem s) <| km_mem ::= fun m => put_bytes m addr bs |>)) x).
Proof. intros E. unfold readi_to. rewrite (bind_eq _ _ _ _ _ (in_files_ret _ s _ _ E)). reflexivity. Qed.

(** One round of loaduvm(): the page is there, and is read. *)
Lemma load_page ip fuel (s : K) l d im addr offset sz i : building (ks_mem s) l d (-1) im ->
  0 <= addr -> addr mod PGSIZE = 0 -> 0 <= i < sz -> i mod PGSIZE = 0 -> addr + sz <= im_size im ->
  exists e, upage (addr + i) /\ maps (km_mem (ks_mem s)) d (addr + i) = Some e /\
    loaduvm_loop (fun A => in_mem) (readi_to ip) (S fuel) d addr offset sz i s =
    (let n := Z.min (sz - i) PGSIZE in
     let! r := readi_to ip (frame e) (u32 (offset + i)) n in
     if negb (u32 r =? n) then ret (-1)
     else loaduvm_loop (fun A => in_mem) (readi_to ip) fuel d addr offset sz (i + PGSIZE)) s.
Proof.
  intros B Ha Ham [Hi Hlt] Him Hsz. destruct (b_size _ _ _ _ _ _ _ B) as [_ Hk]. set (a := addr + i) in *.
  assert (upage a) as Hup by (split; unfold a, PGSIZE, KERNBASE in *; [lia | Z.div_mod_to_equations; lia]).
  assert (u32 a = a) as Eu by (apply u32_small; unfold upage, KERNBASE in Hup; lia).
  destruct (building_page _ _ _ _ _ _ _ B a Hup ltac:(unfold a; lia)) as [e Ee]. exists e. split; [exact Hup|]. split; [exact Ee|].
  destruct (walk_entry (ks_mem s) l d a e (u_vm _ _ _ (b_user _ _ _ _ _ _ _ B)) Ee) as (t & _ & Ew & Hnz & _ & El).
  cbn [loaduvm_loop]. rewrite (proj2 (Z.ltb_lt i sz) Hlt). fold a.
  rewrite Eu, (bind_eq _ _ _ _ _ (in_mem_ret _ s _ _ Ew)). rewrite (proj2 (Z.eqb_neq _ _) Hnz).
  change (panic_if false _) with (@ret K unit tt). unfold ret at 1. unfold bind at 1.
  rewrite (bind_eq _ _ _ _ _ (in_mem_ret _ (with_mem s (ks_mem s)) _ _ El)).
  change (with_mem (with_mem s (ks_mem s)) (ks_mem s)) with (with_mem s (ks_mem s)).
  assert (with_mem s (ks_mem s) = s) as -> by (destruct s; reflexivity). cbv zeta. fold (frame e).
  assert ((if sz - i <? PGSIZE then sz - i else PGSIZE) = Z.min (sz - i) PGSIZE) as ->
    by (destruct (Z.ltb_spec (sz - i) PGSIZE); lia).
  rewrite (u32_small (i + PGSIZE)) by (unfold PGSIZE, KERNBASE in *; lia). reflexivity.
Qed.

Lemma loaduvm_flat ip fuel : forall (s : K) l d im addr offset sz i r s', building (ks_mem s) l d (-1) im ->
  0 <= addr -> addr mod PGSIZE = 0 -> 0 <= i -> i mod PGSIZE = 0 -> addr + sz <= im_size im ->
  loaduvm_loop (fun A => in_mem) (readi_to ip) fuel d addr offset sz i s = Ret r s' ->
  exists im', building (ks_mem s') l d (-1) im' /\ im_size im' = im_size im /\ follows s s' /\
    (r = -1 \/ r = 0 /\ flat_copy fuel ip (addr + i) (offset + i) (sz - i) (im_mem im) (fy_fs (ks_fs s)) =
       Ret (Some (im_mem im')) (fy_fs (ks_fs s'))).
Proof.
  induction fuel as [|fuel IH]; intros s l d im addr offset sz i r s' B Ha Ham Hi Him Hsz E; destruct (Z.ltb_spec i sz) as [Hlt|Hge].
  { cbn [loaduvm_loop] in E. rewrite (proj2 (Z.ltb_lt i sz) Hlt) in E. discriminate. }
  2: destruct (load_page ip fuel s l d im addr offset sz i B Ha Ham (conj Hi Hlt) Him Hsz) as (e & Hup & Ee & El).
  1, 3: cbn [loaduvm_loop] in E; rewrite (proj2 (Z.ltb_ge i sz) Hge) in E; injection E as <- <-; exists im; cbn [flat_copy];
    rewrite (proj2 (Z.ltb_ge 0 (sz - i))) by lia; split_and!; auto; reflexivity.
  rewrite El in E. cbv zeta in E. cbn [flat_copy]. rewrite (proj2 (Z.ltb_lt 0 (sz - i))) by lia.
  set (n := Z.min (sz - i) PGSIZE) in *. assert (0 <= n <= PGSIZE) as Hnr by (unfold n, PGSIZE in *; lia).
  apply bind_inv in E as (v & s2 & Er & E).
  apply readi_to_inv in Er as (bs & x & Er & _ & Hlen & ->); [|apply Z.mod_pos_bound; reflexivity | unfold PGSIZE in *; lia].
  rewrite (bind_eq _ _ _ _ _ Er). cbn [fst snd].
  pose proof (building_write _ _ Hlay _ _ _ _ _ B (addr + i) e 0 bs Hup Ee ltac:(lia) ltac:(lia)) as B1. rewrite !Z.add_0_r in B1.
  set (k1 := (ks_mem s) <| km_mem ::= _ |>) in *. clearbody k1.
  destruct (u32 v =? n); cbn [negb] in E.
  2:{ injection E as <- <-. exists (write im (addr + i) bs). split_and!; auto. exists k1, x. reflexivity. }
  apply (IH _ l d (write im (addr + i) bs)) in E as (im' & B' & Hsz' & F & Hc); try assumption; [|unfold PGSIZE in *; lia|].
  2:{ unfold PGSIZE in *. Z.div_mod_to_equations. lia. }
  exists im'. split; [exact B'|]. split; [exact Hsz'|].
  split; [etransitivity; [|exact F]; exists k1, x; reflexivity|].
  destruct Hc as [->|[-> Hc]]; [left; reflexivity | right; split; [reflexivity|]]. rewrite <- Hc. cbn [im_mem write].
  f_equal; lia.
Qed.
Lemma loaduvm_runs ip fuel : forall (s : K) l d im addr offset sz i f x, building (ks_mem s) l d (-1) im ->
  0 <= addr -> addr mod PGSIZE = 0 -> 0 <= i -> i mod PGSIZE = 0 -> addr + sz <= im_size im ->
  flat_copy fuel ip (addr + i) (offset + i) (sz - i) (im_mem im) (fy_fs (ks_fs s)) = Ret (Some f) x ->
  exists s', loaduvm_loop (fun A => in_mem) (readi_to ip) fuel d addr offset sz i s = Ret 0 s'.
Proof.
  induction fuel as [|fuel IH]; intros s l d im addr offset sz i f x B Ha Ham Hi Him Hsz E; destruct (Z.ltb_spec i sz) as [Hlt|Hge].
  { cbn [flat_copy] in E. rewrite (proj2 (Z.ltb_lt 0 (sz - i))) in E by lia. discriminate. }
  1, 3: cbn [loaduvm_loop]; rewrite (proj2 (Z.ltb_ge i sz) Hge); eexists; reflexivity.
  destruct (load_page ip fuel s l d im addr offset sz i B Ha Ham (conj Hi Hlt) Him Hsz) as (e & Hup & Ee & El).
  rewrite El. cbv zeta. cbn [flat_copy] in E. rewrite (proj2 (Z.ltb_lt 0 (sz - i))) in E by lia.
  set (n := Z.min (sz - i) PGSIZE) in *. assert (0 <= n <= PGSIZE) as Hnr by (unfold n, PGSIZE in *; lia).
  apply bind_inv in E as ([v bs] & x1 & Er & E). cbn [fst snd] in E.
  destruct (readi_bytes ip (u32 (offset + i)) n _ _ _ (Z.mod_pos_bound _ (2 ^ 32) eq_refl) ltac:(unfold PGSIZE in *; lia) Er) as [_ Hlen].
  cbn [snd] in Hlen. rewrite (bind_eq _ _ _ _ _ (readi_to_ret ip (frame e) _ _ s _ _ _ Er)).
  pose proof (building_write _ _ Hlay _ _ _ _ _ B (addr + i) e 0 bs Hup Ee ltac:(lia) ltac:(lia)) as B1. rewrite !Z.add_0_r in B1.
  destruct (u32 v =? n); cbn [negb]; [|discriminate].
  refine (IH (with_files (with_mem s _) x1) l d _ addr offset sz (i + PGSIZE) f x B1 Ha Ham _ _ Hsz _); [unfold PGSIZE in *; lia|..].
  { unfold PGSIZE in *. Z.div_mod_to_equations. lia. }
  rewrite <- E. cbn [im_mem write]. f_equal; lia.
Qed.

Lemma from_le_range bs : Forall byte bs -> 0 <= from_le bs < 256 ^ Z.of_nat (length bs).
Proof.
  induction 1 as [|b bs Hb _ IH]; [cbn; lia|]. cbn [from_le length]. unfold byte in Hb.
  rewrite Nat2Z.inj_succ, Z.pow_succ_r by lia. lia.
Qed.
Lemma get_u32_range o bs : Forall byte bs -> 0 <= get_u32 o bs < 2 ^ 32.
Proof.
  intros Hb. unfold get_u32, bytes_at. pose proof (from_le_range (take 4 (drop o bs)) ltac:(apply Forall_take, Forall_drop; exact Hb)) as Hr.
  assert (256 ^ Z.of_nat (length (take 4 (drop o bs))) <= 256 ^ 4); [|lia]. apply Z.pow_le_mono_r; [lia|]. rewrite length_take. lia.
Qed.

(** A part of the loading done from [s] to [s'], as [m] does it. *)
Definition loads (d : Z) (s : K) (r : option Z) (s' : K) (m : M (fstate T) (option image)) : Prop :=
  exists l im, building (ks_mem s') l d (-1) im /\ follows s s' /\
    forall sz, r = Some sz -> sz = im_size im /\ m (fy_fs (ks_fs s)) = Ret (Some im) (fy_fs (ks_fs s')).
Lemma loads_none d (s s1 : K) r s' m l im : follows s s1 -> building (ks_mem s1) l d (-1) im -> ret None s1 = Ret r s' -> loads d s r s' m.
Proof. intros F B [= <- <-]. exists l, im. split_and!; auto. discriminate. Qed.
Lemma loads_from d (s s1 : K) r s' m m1 : follows s s1 -> loads d s1 r s' m1 ->
  m1 (fy_fs (ks_fs s1)) = m (fy_fs (ks_fs s)) -> loads d s r s' m.
Proof.
  intros F (l & im & B & F1 & Hc) Em. exists l, im. split; [exact B|]. split; [etransitivity; eassumption|].
  intros sz Er. rewrite <- Em. apply Hc. exact Er.
Qed.

(** One segment. *)
Lemma load_segment ip ph (s : K) l d im r s' (k : Z -> M K (option Z)) k' : building (ks_mem s) l d (-1) im ->
  0 <= ph_vaddr ph < 2 ^ 32 -> 0 <= ph_memsz ph < 2 ^ 32 -> 0 <= ph_filesz ph ->
  (forall s l im r s', building (ks_mem s) l d (-1) im -> k (im_size im) s = Ret r s' -> loads d s r s' (k' im)) ->
  (if ph_memsz ph <? ph_filesz ph then ret None
   else if u32 (ph_vaddr ph + ph_memsz ph) <? ph_vaddr ph then ret None
   else
     let! sz := in_mem (allocuvm d (im_size im) (u32 (ph_vaddr ph + ph_memsz ph))) in
     if sz =? 0 then ret None
     else if negb (ph_vaddr ph mod PGSIZE =? 0) then ret None
     else
       let! r := loaduvm (fun A => in_mem) (readi_to ip) d (ph_vaddr ph) (ph_off ph) (ph_filesz ph) in
       if r <? 0 then ret None else k sz) s = Ret r s' ->
  loads d s r s'
    (if (ph_filesz ph <=? ph_memsz ph) && (ph_vaddr ph + ph_memsz ph <? KERNBASE) && (ph_vaddr ph mod PGSIZE =? 0) then
       let im := grow (ph_vaddr ph + ph_memsz ph) im in
       if im_size im =? 0 then ret None else
       let! o := flat_copy (Z.to_nat (ph_filesz ph / PGSIZE + 1)) ip (ph_vaddr ph) (ph_off ph) (ph_filesz ph) (im_mem im) in
       match o with Some f => k' (mk_image (im_size im) f) | None => ret None end
     else ret None).
Proof.
  intros B Hv Hm Hf Hk E. destruct (Z.ltb_spec (ph_memsz ph) (ph_filesz ph)) as [_|Hfm].
  { eapply loads_none; [reflexivity | exact B | exact E]. }
  rewrite (proj2 (Z.leb_le _ _) Hfm). cbn [andb].
  destruct (Z.ltb_spec (u32 (ph_vaddr ph + ph_memsz ph)) (ph_vaddr ph)) as [_|Hw].
  { eapply loads_none; [reflexivity | exact B | exact E]. }
  assert (u32 (ph_vaddr ph + ph_memsz ph) = ph_vaddr ph + ph_memsz ph) as Eu.
  { destruct (Z.lt_ge_cases (ph_vaddr ph + ph_memsz ph) (2 ^ 32)) as [Hlt|Hge]; [apply u32_small; lia | exfalso].
    assert (u32 (ph_vaddr ph + ph_memsz ph) = ph_vaddr ph + ph_memsz ph - 2 ^ 32) as Eu
      by (unfold u32; symmetry; apply (Z.mod_unique _ _ 1); lia). lia. }
  rewrite Eu in E. destruct (allocuvm_builds _ _ Hlay _ _ _ _ _ (ph_vaddr ph + ph_memsz ph) B ltac:(lia))
    as (sz & k1 & l1 & im1 & Ea & B1 & Hc & _).
  rewrite (bind_eq _ _ _ _ _ (in_mem_ret _ s _ _ Ea)) in E. pose proof (follows_mem s k1) as F1.
  destruct (Z.eqb_spec sz 0) as [_|Hnz]; [eapply loads_none; [exact F1 | exact B1 | exact E]|].
  destruct (Hc Hnz) as (-> & Hlt & ->). rewrite (proj2 (Z.ltb_lt _ _) Hlt). cbn [andb]. set (im1 := grow _ im) in *. cbv zeta.
  rewrite (proj2 (Z.eqb_neq _ _) Hnz).
  destruct (Z.eqb_spec (ph_vaddr ph mod PGSIZE) 0) as [Hal|_]; cbn [negb] in E;
    [|eapply loads_none; [exact F1 | exact B1 | exact E]].
  apply bind_inv in E as (v & s2 & El & E). unfold loaduvm in El. rewrite u32_small, Hal in El by lia.
  change (panic_if (negb (0 =? 0)) _) with (@ret K unit tt) in El. unfold bind at 1, ret at 1 in El.
  assert (ph_vaddr ph + ph_memsz ph <= im_size im1) as Hsz1
    by (unfold im1, grow; destruct (Z.ltb_spec (ph_vaddr ph + ph_memsz ph) (im_size im)); cbn; lia).
  eapply loaduvm_flat in El as (im2 & B2 & Hsz2 & F2 & Hr); [|exact B1|lia|exact Hal|lia|reflexivity|lia].
  pose proof (transitivity F1 F2) as F.
  destruct Hr as [->|[-> Hr]]; [eapply loads_none; [exact F | exact B2 | exact E]|].
  change (0 <? 0) with false in E. rewrite <- Hsz2 in E. eapply loads_from; [exact F | exact (Hk _ _ _ _ _ B2 E)|].
  rewrite !Z.add_0_r, Z.sub_0_r in Hr. cbn [ks_fs with_mem] in Hr. rewrite (bind_eq _ _ _ _ _ Hr).
  rewrite <- Hsz2. destruct im2. reflexivity.
Qed.

Lemma load_segments_flat ip n : forall (s : K) l d im off r s', building (ks_mem s) l d (-1) im ->
  load_segments n ip d off (im_size im) s = Ret r s' -> loads d s r s' (flat_segments n ip off im).
Proof.
  induction n as [|n IH]; intros s l d im off r s' B E; cbn [load_segments flat_segments] in *.
  { injection E as <- <-. exists l, im. split; [exact B|]. split; [reflexivity|]. intros sz [= ->]. auto. }
  apply bind_inv in E as ([v bs] & s1 & Er & E). apply in_files_inv in Er as (x & Er & ->). pose proof (follows_files s x) as F1.
  assert (0 <= u32 off < 2 ^ 32) as Ho by (apply Z.mod_pos_bound; reflexivity).
  destruct (readi_bytes ip (u32 off) 32 _ _ _ Ho ltac:(lia) Er) as [Hb _]. cbn [fst snd] in *.
  eapply (loads_from d s (with_files s x)); [exact F1 | | rewrite (bind_eq _ _ _ _ _ Er); reflexivity]. cbv beta. cbn [fst snd].
  destruct (negb (v =? 32)); [eapply loads_none; [reflexivity | exact B | exact E]|]. cbv zeta in *.
  destruct (negb (_ =? ELF_PROG_LOAD)); [exact (IH (with_files s x) l d im _ r s' B E)|].
  refine (load_segment ip _ (with_files s x) l d im r s' (fun sz => load_segments n ip d (s32 (off + 32)) sz)
    (fun im => flat_segments n ip (s32 (off + 32)) im) B _ _ _ (fun s l im r s' B' E' => IH s l d im _ r s' B' E') E).
  1, 2: apply get_u32_range; exact Hb. apply (get_u32_range 16 bs Hb).
Qed.

(** *** Loading succeeds *)

Lemma grow_size n im : im_size im <= im_size (grow n im).
Proof. unfold grow. destruct (Z.ltb_spec n (im_size im)); cbn; lia. Qed.
Lemma flat_segments_size ip n : forall off im x im' x', flat_segments n ip off im x = Ret (Some im') x' ->
  im_size im <= im_size im' /\ (im_size im < KERNBASE -> im_size im' < KERNBASE).
Proof.
  induction n as [|n IH]; intros off im x im' x' E; cbn [flat_segments] in E; [injection E as <- _; auto with lia|].
  apply bind_inv in E as (r & x1 & _ & E). destruct (negb (fst r =? 32)); [discriminate|]. cbv zeta in E.
  destruct (negb (_ =? ELF_PROG_LOAD)); [exact (IH _ _ _ _ _ E)|]. destruct (_ && _) eqn:Ec; [|discriminate].
  apply andb_prop in Ec as [Ec _]. apply andb_prop in Ec as [_ Hlt%Z.ltb_lt]. set (top := _ + _) in *.
  pose proof (grow_size top im). assert (im_size im < KERNBASE -> im_size (grow top im) < KERNBASE)
    by (unfold grow; destruct (Z.ltb_spec top (im_size im)); cbn; lia).
  destruct (_ =? 0); [discriminate|]. apply bind_inv in E as ([f|] & x2 & _ & E); [|discriminate].
  apply IH in E as [E1 E2]. cbn [im_size] in E1, E2. split; [lia | auto].
Qed.

Lemma load_segment_runs ip ph (s : K) l d im (k : Z -> M K (option Z)) k' im' x : building (ks_mem s) l d (-1) im ->
  0 <= ph_vaddr ph < 2 ^ 32 -> 0 <= ph_memsz ph < 2 ^ 32 -> 0 <= ph_filesz ph ->
  (forall s l im, building (ks_mem s) l d (-1) im -> k' im (fy_fs (ks_fs s)) = Ret (Some im') x ->
     exists s', k (im_size im) s = Ret (Some (im_size im')) s') ->
  (forall im x0, k' im x0 = Ret (Some im') x -> im_size im <= im_size im') -> room l0 (im_size im') ->
  (if (ph_filesz ph <=? ph_memsz ph) && (ph_vaddr ph + ph_memsz ph <? KERNBASE) && (ph_vaddr ph mod PGSIZE =? 0) then
     let im := grow (ph_vaddr ph + ph_memsz ph) im in
     if im_size im =? 0 then ret None else
     let! o := flat_copy (Z.to_nat (ph_filesz ph / PGSIZE + 1)) ip (ph_vaddr ph) (ph_off ph) (ph_filesz ph) (im_mem im) in
     match o with Some f => k' (mk_image (im_size im) f) | None => ret None end
   else ret None) (fy_fs (ks_fs s)) = Ret (Some im') x ->
  exists s', (if ph_memsz ph <? ph_filesz ph then ret None
   else if u32 (ph_vaddr ph + ph_memsz ph) <? ph_vaddr ph then ret None
   else
     let! sz := in_mem (allocuvm d (im_size im) (u32 (ph_vaddr ph + ph_memsz ph))) in
     if sz =? 0 then ret None
     else if negb (ph_vaddr ph mod PGSIZE =? 0) then ret None
     else
       let! r := loaduvm (fun A => in_mem) (readi_to ip) d (ph_vaddr ph) (ph_off ph) (ph_filesz ph) in
       if r <? 0 then ret None else k sz) s = Ret (Some (im_size im')) s'.
Proof.
  intros B Hv Hm Hf Hk Hmono Hroom E. destruct (_ && _) eqn:Ec; [|discriminate]. apply andb_prop in Ec as [Ec Hal].
  apply andb_prop in Ec as [Hfm Hlt]. apply Z.leb_le in Hfm. apply Z.ltb_lt in Hlt. cbv zeta in E.
  set (top := ph_vaddr ph + ph_memsz ph) in *. assert (u32 top = top) as Eu by (apply u32_small; unfold top, KERNBASE in *; lia).
  destruct (Z.eqb_spec (im_size (grow top im)) 0) as [_|Hnz]; [discriminate|].
  apply bind_inv in E as ([f|] & x1 & Ef & E); [|discriminate]. pose proof (Hmono _ _ E) as Hle. cbn [im_size] in Hle.
  pose proof (b_size _ _ _ _ _ _ _ B) as [_ Hsz]. pose proof (grow_size top im) as Hg.
  rewrite Eu, (proj2 (Z.ltb_ge (ph_memsz ph) _)), (proj2 (Z.ltb_ge top _)) by (unfold top; lia).
  assert (top <= im_size (grow top im)) as Htop by (unfold grow; destruct (Z.ltb_spec top (im_size im)); cbn; lia).
  destruct (allocuvm_runs _ _ Hlay _ _ _ _ _ top B ltac:(unfold top; lia) ltac:(lia)) as (k1 & l1 & Ea & B1).
  { apply (room_less _ _ _ Hroom). unfold top in *. lia. }
  rewrite (bind_eq _ _ _ _ _ (in_mem_ret _ s _ _ Ea)), (proj2 (Z.eqb_neq _ _) Hnz), Hal. cbn [negb].
  apply Z.eqb_eq in Hal. set (im1 := grow top im) in *.
  destruct (loaduvm_runs ip (Z.to_nat (ph_filesz ph / PGSIZE + 1)) (with_mem s k1) l1 d im1 (ph_vaddr ph) (ph_off ph) (ph_filesz ph) 0 f x1
    B1 ltac:(lia) Hal ltac:(lia) eq_refl ltac:(unfold top in Htop; lia)) as [s2 El].
  { rewrite !Z.add_0_r, Z.sub_0_r. exact Ef. }
  pose proof El as El2. eapply loaduvm_flat in El2 as (im2 & B2 & Hs2 & _ & [Hx|[_ Hc]]);
    [discriminate | | exact B1 | lia | exact Hal | lia | reflexivity | unfold top in Htop; lia].
  rewrite !Z.add_0_r, Z.sub_0_r in Hc. cbn [ks_fs with_mem] in Hc. rewrite Ef in Hc. injection Hc as -> ->.
  rewrite (bind_eq _ _ _ 0 s2).
  2:{ unfold loaduvm. rewrite u32_small, Hal by lia. exact El. }
  change (0 <? 0) with false. cbn iota. rewrite <- Hs2. apply (Hk s2 l1 im2 B2). rewrite <- E, <- Hs2. destruct im2. reflexivity.
Qed.

Lemma load_segments_runs ip n : forall (s : K) l d im off im' x, building (ks_mem s) l d (-1) im -> room l0 (im_size im') ->
  flat_segments n ip off im (fy_fs (ks_fs s)) = Ret (Some im') x ->
  exists s', load_segments n ip d off (im_size im) s = Ret (Some (im_size im')) s'.
Proof.
  induction n as [|n IH]; intros s l d im off im' x B Hroom E; cbn [load_segments flat_segments] in *.
  { injection E as <- _. eexists. reflexivity. }
  apply bind_inv in E as ([v bs] & x1 & Er & E). rewrite (bind_eq _ _ _ _ _ (in_files_ret _ s _ _ Er)). cbn [fst snd] in *.
  destruct (readi_bytes ip (u32 off) 32 _ _ _ (Z.mod_pos_bound _ (2 ^ 32) eq_refl) ltac:(lia) Er) as [Hb _]. cbn [snd] in Hb.
  destruct (negb (v =? 32)); [discriminate|]. cbv zeta in *.
  destruct (negb (_ =? ELF_PROG_LOAD)); [exact (IH (with_files s x1) l d im _ im' x B Hroom E)|].
  refine (load_segment_runs ip _ (with_files s x1) l d im (fun sz => load_segments n ip d (s32 (off + 32)) sz)
    (fun im => flat_segments n ip (s32 (off + 32)) im) im' x B _ _ _
    (fun s l im B' E' => IH s l d im _ im' x B' Hroom E') (fun im x0 E => proj1 (flat_segments_size ip n _ im x0 im' x E)) Hroom E).
  1, 2: apply get_u32_range; exact Hb. apply (get_u32_range 16 bs Hb).
Qed.

(** ** The stack *)

Lemma land_word x : 0 <= x < 2 ^ 32 -> Z.land x (u32 (Z.lnot 3)) = x - x mod 4.
Proof.
  intros Hx. change (u32 (Z.lnot 3)) with (Z.ldiff (Z.ones 32) (Z.ones 2)). rewrite Z.ldiff_land, Z.land_assoc.
  rewrite Z.land_ones, Z.mod_small, <- Z.ldiff_land, Z.ldiff_ones_r, Z.shiftl_mul_pow2, Z.shiftr_div_pow2 by lia.
  change (2 ^ 2) with 4. Z.div_mod_to_equations. lia.
Qed.

(** copyout() with the result looked at. *)
Lemma copyout_ret (s : K) l d g im va buf r s' : building (ks_mem s) l d g im -> 0 <= va < 2 ^ 32 ->
  in_mem (copyout_list d va buf) s = Ret r s' -> exists k im', s' = with_mem s k /\ building k l d g im' /\
    (r = -1 \/ r = 0 /\ im' = write im va buf /\ user_range im g va (Z.of_nat (length buf))).
Proof.
  intros B Hva E. apply in_mem_inv in E as (k & E & ->). unfold copyout_list in E.
  pose proof (copyout_builds _ _ Hlay (Z.to_nat (Z.of_nat (length buf) / PGSIZE + 2)) _ _ _ _ _ va buf B Hva) as Hc.
  rewrite E in Hc. destruct Hc as (im' & B' & Hc). exists k, im'. split; [reflexivity|]. split; [exact B'|]. tauto.
Qed.

Section Stack.
Context (top : Z) (Htop : top mod PGSIZE = 0) (Hbig : 2 * PGSIZE <= top <= KERNBASE).

Lemma push_args_flat argv : forall (s : K) l d im sp argc u r s', building (ks_mem s) l d (top - 2 * PGSIZE) im ->
  im_size im = top -> top - PGSIZE <= sp <= top -> push_args d sp argv argc u s = Ret r s' ->
  exists k im', s' = with_mem s k /\ building k l d (top - 2 * PGSIZE) im' /\
    forall sp' ps, r = Some (sp', ps) -> exists ptrs f, flat_args sp argv (im_mem im) = (sp', ptrs, f) /\
      ps = u ++ ptrs /\ length ptrs = length argv /\ im' = mk_image top f /\ top - PGSIZE <= sp' <= top.
Proof.
  induction argv as [|a argv IH]; intros s l d im sp argc u r s' B Hs Hsp E; cbn [push_args flat_args] in *.
  { injection E as <- <-. exists (ks_mem s), im. split; [destruct s; reflexivity|]. split; [exact B|]. intros sp' ps [= <- <-].
    exists [], (im_mem im). rewrite app_nil_r. split_and!; auto; [|lia..]. destruct im. cbn in *. congruence. }
  destruct (MAXARG <=? argc)%nat.
  { injection E as <- <-. exists (ks_mem s), im. split; [destruct s; reflexivity|]. split; [exact B|]. discriminate. }
  set (n := Z.of_nat (length a) + 1) in *. set (y := u32 (sp - n)) in *.
  assert (0 <= y < 2 ^ 32) as Hy by (apply Z.mod_pos_bound; reflexivity). rewrite (land_word y Hy) in E.
  assert (0 <= y mod 4 <= 3 /\ y mod 4 <= y) as [Hm Hmy] by (Z.div_mod_to_equations; lia).
  apply bind_inv in E as (v & s1 & Ec & E).
  eapply copyout_ret in Ec as (k & im1 & -> & B1 & Hc); [|exact B|lia].
  destruct Hc as [->|(-> & -> & Hr)].
  { injection E as <- <-. exists k, im1. split; [reflexivity|]. split; [exact B1|]. discriminate. }
  change (0 <? 0) with false in E. rewrite length_app in Hr. cbn [length] in Hr.
  replace (Z.of_nat (length a + 1)) with n in Hr by (unfold n; lia).
  destruct (push_position im top sp n (y mod 4) Hs Htop Hbig Hsp ltac:(unfold n; lia) Hm Hmy Hr) as [Ey Hlo]. fold y in Ey.
  assert (y - y mod 4 = (sp - n) / 4 * 4) as Eat by (rewrite Ey; Z.div_mod_to_equations; lia).
  rewrite <- Eat. set (at_ := y - y mod 4) in *.
  apply (IH (with_mem s k) l d (write im at_ (a ++ [0]))) in E as (k2 & im2 & -> & B2 & Hc); [|exact B1|exact Hs|lia].
  exists k2, im2. split; [reflexivity|]. split; [exact B2|]. intros sp' ps Er.
  destruct (Hc sp' ps Er) as (ptrs & f & Ef & -> & Hl & -> & Hsp'). cbn [im_mem write] in Ef. rewrite Ef.
  exists (at_ :: ptrs), f. rewrite <- app_assoc. split_and!; auto; [cbn; lia | lia | lia].
Qed.

Lemma push_args_runs argv : forall (s : K) l d im sp argc u sp' ptrs f, building (ks_mem s) l d (top - 2 * PGSIZE) im ->
  im_size im = top -> sp <= top -> flat_args sp argv (im_mem im) = (sp', ptrs, f) -> top - PGSIZE <= sp' ->
  (argc + length argv <= MAXARG)%nat -> exists s', push_args d sp argv argc u s = Ret (Some (sp', u ++ ptrs)) s'.
Proof.
  induction argv as [|a argv IH]; intros s l d im sp argc u sp' ptrs f B Hs Hsp E Hlo Hn; cbn [push_args flat_args] in *.
  { injection E as <- <- _. rewrite app_nil_r. eexists. reflexivity. }
  destruct (MAXARG <=? argc)%nat eqn:Em; [apply Nat.leb_le in Em; cbn [length] in Hn; lia|]. clear Em.
  set (n := Z.of_nat (length a) + 1) in *. set (at_ := (sp - n) / 4 * 4) in *.
  destruct (flat_args at_ argv _) as [[sp2 ptrs2] f2] eqn:E2. injection E as <- <- <-.
  pose proof (proj1 (flat_args_strings _ _ _ _ _ _ E2)) as Hle.
  assert (at_ <= sp - n < at_ + 4) as Hat by (unfold at_; Z.div_mod_to_equations; lia).
  assert (u32 (sp - n) = sp - n) as Eu by (apply u32_small; unfold n, PGSIZE, KERNBASE in *; lia).
  rewrite land_word, Eu by (rewrite Eu; unfold n, PGSIZE, KERNBASE in *; lia).
  replace (sp - n - (sp - n) mod 4) with at_ by (unfold at_; Z.div_mod_to_equations; lia).
  destruct (copyout_runs _ _ Hlay _ _ _ _ _ at_ (a ++ [0]) B) as (k & Ec & B1); [unfold n, PGSIZE, KERNBASE in *; lia|..].
  { apply stack_range; auto; [lia|]. rewrite length_app. cbn [length]. unfold n in *. lia. }
  rewrite (bind_eq _ _ _ _ _ (in_mem_ret _ s _ _ Ec)). change (0 <? 0) with false. cbn iota.
  replace (u ++ at_ :: ptrs2) with ((u ++ [at_]) ++ ptrs2) by (rewrite <- app_assoc; reflexivity).
  apply (IH (with_mem s k) l d (write im at_ (a ++ [0])) at_ (S argc) (u ++ [at_]) sp2 ptrs2 f2 B1 Hs); auto; [unfold n in *; lia|].
  cbn [length] in Hn. lia.
Qed.
End Stack.

(** ** The end of exec() *)

Definition with_proc (s : K) (me : nat) (q : proc) : K := mk_ks (put_proc (ks_pt s) me q) (ks_mem s) (ks_clock s) (ks_fs s).

Lemma with_proc_current (s : K) me p q : current s me p -> current (with_proc s me q) me q.
Proof. apply current_set. Qed.
Lemma set_my_proc g (s : K) me p q : current s me p -> set_my g (with_proc s me q) = Ret tt (with_proc s me (g q)).
Proof.
  intros Hc. rewrite (set_my_current g _ me q (with_proc_current s me p q Hc)). unfold with_proc, put_proc. cbn.
  rewrite list_insert_insert_eq. reflexivity.
Qed.

Lemma exec_commit_eq path pgdir sz entry sp (s : K) me p : current s me p ->
  exec_commit path pgdir sz entry sp s =
  (switchuvm (with_image p path pgdir sz entry sp) ;! in_mem (freevm (p_pgdir p)) ;! ret 0)
    (with_proc s me (with_image p path pgdir sz entry sp)).
Proof.
  intros Hc. unfold exec_commit. rewrite (bind_eq _ _ _ _ _ (set_my_current _ s me p Hc)).
  fold (put_proc (ks_pt s) me (p <| p_name ::= copy_name (last_elem path path) |>)).
  fold (with_proc s me (p <| p_name ::= copy_name (last_elem path path) |>)).
  rewrite (bind_eq _ _ _ _ _ (my_current p_pgdir _ _ _ (with_proc_current s me p _ Hc))).
  do 3 rewrite (bind_eq _ _ _ _ _ (set_my_proc _ s me p _ Hc)).
  rewrite (bind_eq _ _ _ _ _ (my_current id _ _ _ (with_proc_current s me p _ Hc))). reflexivity.
Qed.
Lemma exec_commit_inv path pgdir sz entry sp (s : K) me p v s' : current s me p ->
  exec_commit path pgdir sz entry sp s = Ret v s' -> v = 0 /\ exists k, freevm (p_pgdir p) (ks_mem s) = Ret tt k /\
    s' = with_mem (with_proc s me (with_image p path pgdir sz entry sp)) k.
Proof.
  intros Hc E. rewrite (exec_commit_eq _ _ _ _ _ s me p Hc) in E. apply bind_inv in E as (u & s1 & Es & E).
  unfold switchuvm in Es. apply bind_inv in Es as (u1 & s2 & Es1 & Es). apply panic_if_inv in Es1 as [_ ->].
  apply panic_if_inv in Es as [_ ->]. apply bind_inv in E as ([] & s3 & Ef & E). injection E as <- <-.
  apply in_mem_inv in Ef as (k & Ef & ->). split; [reflexivity|]. exists k. auto.
Qed.

(** Nothing happened to the process table and to the pages. *)
Definition undone (s s' : K) : Prop := ks_pt s' = ks_pt s /\ exists l', kmem_ok (ks_mem s') l' /\ l' ≡ₚ l0 /\
  forall w, page_ok w -> w ∉ l0 -> same_page_mem w m0 (km_mem (ks_mem s')).

Lemma exec_bad_tail (s : K) ip v s' :
  ((match ip with Some ip => in_files (iunlockput ip) ;! end_op | None => ret tt end) ;! ret (-1)) s = Ret v s' ->
  v = -1 /\ ks_pt s' = ks_pt s /\ ks_mem s' = ks_mem s.
Proof.
  intros E. apply bind_inv in E as (u & s1 & E1 & E). injection E as <- <-. split; [reflexivity|].
  destruct ip as [ip|]; [|injection E1 as _ <-; auto]. apply bind_inv in E1 as (u1 & s2 & E1 & E2).
  apply in_files_inv in E1 as (x & _ & ->). apply in_files_inv in E2 as (y & _ & ->). auto.
Qed.
Lemma exec_bad_none (s : K) ip v s' : exec_bad 0 ip s = Ret v s' -> v = -1 /\ ks_pt s' = ks_pt s /\ ks_mem s' = ks_mem s.
Proof. exact (exec_bad_tail s ip v s'). Qed.
Lemma exec_bad_inv (s : K) l d g im ip v s' : building (ks_mem s) l d g im -> exec_bad d ip s = Ret v s' ->
  v = -1 /\ undone s s'.
Proof.
  intros B E. unfold exec_bad in E. destruct (b_user _ _ _ _ _ _ _ B) as [[_ [Hd _] _ _] _ _]. pose proof (page_pos d Hd).
  rewrite (proj2 (Z.eqb_neq d 0)) in E by lia. cbn [negb] in E. apply bind_inv in E as ([] & s1 & Ef & E).
  apply in_mem_inv in Ef as (k & Ef & ->). apply exec_bad_tail in E as (-> & Ep & Em). split; [reflexivity|].
  destruct (free_builds _ _ _ _ _ _ _ B) as (k' & l' & Ef' & K' & P & S). rewrite Ef in Ef'. injection Ef' as <-.
  split; [exact Ep|]. exists l'. rewrite Em. auto.
Qed.
Lemma undone_from (s0 s1 s' : K) : ks_pt s1 = ks_pt s0 -> undone s1 s' -> undone s0 s'.
Proof. intros E [Ep Hl]. split; [congruence | exact Hl]. Qed.


(** From the stack pages on. *)
Section Replace.
Context (k0 : kmem) (p : proc) (Hold : user_ok k0 (p_pgdir p) l0) (Hk0 : km_mem k0 = m0).

Definition installed (s : K) me path entry sp fin s' : Prop :=
  exists pgdir k l', s' = with_mem (with_proc s me (with_image p path pgdir (im_size fin) entry sp)) k /\
    user_ok k pgdir l' /\ shows (km_mem k) pgdir (im_size fin - 2 * PGSIZE) fin /\ kernel_half (km_mem k) pgdir /\
    im_size fin - PGSIZE <= sp /\ pgdir :: account pgdir k l' ≡ₚ p_pgdir p :: account (p_pgdir p) k0 l0 /\
    forall w, page_ok w -> w ∉ space m0 (p_pgdir p) -> w ∉ l0 -> same_page_mem w m0 (km_mem k).

Lemma commit_installs path d entry sp (s : K) l fin me v s' : building (ks_mem s) l d (im_size fin - 2 * PGSIZE) fin ->
  im_size fin - PGSIZE <= sp -> current s me p -> exec_commit path d (im_size fin) entry sp s = Ret v s' ->
  v = 0 /\ installed s me path entry sp fin s'.
Proof.
  intros B Hsp Hc E. destruct (exec_commit_inv _ _ _ _ _ s me p v s' Hc E) as (-> & k & Ef & ->). split; [reflexivity|].
  destruct (free_old _ _ Hlay k0 _ _ _ _ _ _ Hold Hk0 B) as (k' & l' & Ef' & U & A & S & Kh & Kp).
  rewrite Ef in Ef'. injection Ef' as <-. exists d, k, l'. split_and!; auto.
Qed.

Lemma length_words (ws : list Z) : Z.of_nat (length (concat (map le32 ws))) = 4 * Z.of_nat (length ws).
Proof. induction ws as [|w ws IH]; [reflexivity|]. cbn [map concat]. rewrite length_app, Nat2Z.inj_add, IH. cbn [length le32]. lia. Qed.

(** The words below the strings, and the commit. *)
Lemma exec_words_outcome path argc entry d top f sp ptrs (s : K) l me v s' :
  building (ks_mem s) l d (top - 2 * PGSIZE) (mk_image top f) -> top mod PGSIZE = 0 -> 2 * PGSIZE <= top <= KERNBASE ->
  top - PGSIZE <= sp <= top -> Z.of_nat (length ptrs) = argc -> current s me p ->
  (let! r := in_mem (copyout_list d (u32 (sp - (3 + argc + 1) * 4))
               (concat (map le32 ([0xffffffff; argc; u32 (sp - (argc + 1) * 4)] ++ ptrs ++ [0])))) in
   if r <? 0 then exec_bad d None else exec_commit path d top entry (u32 (sp - (3 + argc + 1) * 4))) s = Ret v s' ->
  let words := [0xffffffff; argc; sp - (argc + 1) * 4] ++ ptrs ++ [0] in
  let sp' := sp - 4 * Z.of_nat (length words) in
  (v = -1 /\ undone s s') \/
  (v = 0 /\ installed s me path entry sp' (mk_image top (put_bytes f sp' (concat (map le32 words)))) s').
Proof.
  intros B Ht1 Ht2 Hsp Hlen Hc E words sp'. set (ws := [0xffffffff; argc; u32 (sp - (argc + 1) * 4)] ++ ptrs ++ [0]) in *.
  assert (Z.of_nat (length ws) = 4 + argc /\ Z.of_nat (length words) = 4 + argc) as [Hws Hwords]
    by (unfold ws, words; rewrite !length_app; cbn [length]; lia).
  assert (0 <= u32 (sp - (3 + argc + 1) * 4) < 2 ^ 32) as Hy by (apply Z.mod_pos_bound; reflexivity).
  apply bind_inv in E as (r & s1 & Ec & E). eapply copyout_ret in Ec as (k & im' & -> & B' & Hr); [|exact B|exact Hy].
  destruct Hr as [->|(-> & -> & Hr)]; [left; exact (exec_bad_inv (with_mem s k) _ _ _ _ _ _ _ B' E)|].
  right. change (0 <? 0) with false in E. rewrite length_words, Hws in Hr.
  replace ((3 + argc + 1) * 4) with (4 * (4 + argc)) in * by lia.
  destruct (push_position (mk_image top f) top sp (4 * (4 + argc)) 0 eq_refl Ht1 Ht2 Hsp ltac:(lia) ltac:(lia) ltac:(lia)) as [Ey Hlo];
    [rewrite Z.sub_0_r; exact Hr|]. rewrite Z.sub_0_r in Hlo.
  assert (u32 (sp - (argc + 1) * 4) = sp - (argc + 1) * 4) as Ea by (apply u32_small; unfold PGSIZE, KERNBASE in *; lia).
  assert (ws = words) as Ew by (unfold ws; rewrite Ea; reflexivity). unfold sp'. rewrite Ew, Ey, Hwords in *.
  exact (commit_installs path d entry _ (with_mem s k) l (write (mk_image top f) (sp - 4 * (4 + argc)) (concat (map le32 words)))
    me v s' B' Hlo Hc E).
Qed.

Lemma exec_stack_outcome path argv entry d (s : K) l im me v s' : building (ks_mem s) l d (-1) im -> current s me p ->
  exec_stack path argv entry d (im_size im) s = Ret v s' ->
  (v = -1 /\ undone s s') \/
  (v = 0 /\ let '(sp, fin) := flat_stack im argv in installed s me path entry sp fin s').
Proof.
  intros B Hc E. unfold exec_stack, flat_stack in *. cbv zeta in E. pose proof (b_size _ _ _ _ _ _ _ B) as [_ Hsz].
  pose proof (round_up (im_size im) ltac:(lia)) as [R1 R2]. pose proof (round_up_kernel (im_size im) ltac:(lia)) as R3.
  apply round_builds in B. set (im0 := mk_image (PGROUNDUP (im_size im)) (im_mem im)) in *.
  assert (PGROUNDUP (im_size im) = im_size im0) as E0 by reflexivity. clearbody im0. rewrite E0 in *.
  set (top := im_size im0 + 2 * PGSIZE). assert (u32 top = top) as Eu by (apply u32_small; unfold top, PGSIZE, KERNBASE in *; lia).
  fold top in E. rewrite Eu in E.
  destruct (allocuvm_builds _ _ Hlay _ _ _ _ _ top B ltac:(unfold top, PGSIZE; lia)) as (r & k1 & l1 & im1 & Ea & B1 & Hr & _).
  rewrite (bind_eq _ _ _ _ _ (in_mem_ret _ s _ _ Ea)) in E.
  destruct (Z.eqb_spec r 0) as [_|Hnz]; [left; exact (exec_bad_inv (with_mem s k1) _ _ _ _ _ _ _ B1 E)|].
  destruct (Hr Hnz) as (Eim & Hlt & ->). assert (im_size im1 = top) as Etop.
  { rewrite Eim. unfold grow. destruct (Z.ltb_spec top (im_size im0)) as [Hx|_]; [unfold top, PGSIZE in Hx; lia | reflexivity]. }
  rewrite <- Eim, Etop in *. clear Eim Hr Ea B.
  assert (top mod PGSIZE = 0 /\ 2 * PGSIZE <= top <= KERNBASE) as [Ht1 Ht2].
  { unfold top in *. unfold PGSIZE in *. split; [Z.div_mod_to_equations|]; lia. }
  assert (upage (top - 2 * PGSIZE)) as Hg by (split; unfold PGSIZE in *; [lia | Z.div_mod_to_equations; lia]).
  rewrite (u32_small (top - 2 * PGSIZE)) in E by (unfold PGSIZE, KERNBASE in *; lia).
  destruct (clearpteu_builds _ _ Hlay _ _ _ _ _ B1 Hg ltac:(unfold PGSIZE in *; lia)) as (k2 & Ec & B2).
  rewrite (bind_eq _ _ _ _ _ (in_mem_ret _ (with_mem s k1) _ _ Ec)) in E. apply bind_inv in E as (o & s3 & Ep & E).
  eapply push_args_flat in Ep as (k3 & im3 & -> & B3 & Hps); [|exact Ht1|exact Ht2|exact B2|exact Etop|unfold PGSIZE; lia].
  destruct o as [[sp ptrs]|]; [|left; exact (exec_bad_inv (with_mem s k3) _ _ _ _ _ _ _ B3 E)].
  destruct (Hps sp ptrs eq_refl) as (ptrs' & f & Ef & -> & Hlen & -> & Hsp). cbn [app] in E. rewrite Ef.
  exact (exec_words_outcome path _ entry d top f sp ptrs' (with_mem s k3) l1 me v s' B3 Ht1 Ht2 Hsp (f_equal Z.of_nat Hlen) Hc E).
Qed.

(** ** exec() *)

(** The calls of the file system change it and nothing else. *)
Definition in_fs (s s' : K) : Prop := exists x, s' = with_files s x.
#[local] Instance in_fs_refl : Reflexive in_fs.
Proof. intros s. exists (fy_fs (ks_fs s)). destruct s as [? ? ? []]. reflexivity. Qed.
#[local] Instance in_fs_trans : Transitive in_fs.
Proof. intros s s1 s2 (x1 & ->) (x2 & ->). exists x2. reflexivity. Qed.
Lemma in_fs_files {A} (m : M (fstate T) A) (s : K) a s' : in_files m s = Ret a s' -> in_fs s s'.
Proof. intros (x & _ & ->)%in_files_inv. exists x. reflexivity. Qed.
Lemma in_fs_namei path (s : K) a s' : k_namei path s = Ret a s' -> in_fs s s'.
Proof. intros (d & s1 & E1 & E2)%bind_inv. apply my_get in E1 as ->. exact (in_fs_files _ _ _ _ E2). Qed.

Lemma undone_unchanged (s s' : K) : ks_mem s = k0 -> undone s s' -> unchanged s p l0 s'.
Proof.
  intros Ek (Ep & l' & K' & P & S). split; [exact Ep|]. exists l'. subst k0.
  split; [|split; [exact P | intros w Hw Hwl; rewrite Hk0; apply S; assumption]].
  apply (user_move (ks_mem s) (ks_mem s') _ l0 l' Hold K'). intros w Hw.
  destruct (space_pages _ _ _ w Hold Hw) as [W1 W2]. rewrite Hk0, P. auto.
Qed.
Lemma installed_replaced path argv (s s1 s7 s' : K) me entry im : ks_mem s = k0 -> flat_program path s = Ret (Some (entry, im)) s1 ->
  ks_fs s7 = ks_fs s1 -> ks_pt s7 = ks_pt s ->
  (let '(sp, fin) := flat_stack im argv in installed s7 me path entry sp fin s') -> replaced s me p l0 path argv s'.
Proof.
  intros Ek Ef Efs Ept Hi. exists entry, im, s1. split; [exact Ef|]. destruct (flat_stack im argv) as [sp fin].
  destruct Hi as (pgdir & k & l' & -> & U & S & Kh & Hsp & A & Kp). split; [exact Efs|]. exists pgdir, l'.
  cbn [ks_pt with_proc with_mem ks_mem]. rewrite Ept. subst k0. split_and!; auto.
  intros w Hw [Hwl Hws]%not_elem_of_app. rewrite Hk0 in *. apply Kp; assumption.
Qed.

(** From the program headers on: [s3] is the state after the header has been read. *)
Lemma exec_image_outcome path argv ip elf (s s3 : K) me v s' : ks_mem s = k0 -> in_fs s s3 -> current s me p ->
  (let! pgdir := in_mem setupkvm in
   if pgdir =? 0 then exec_bad pgdir (Some ip) else
   let! sz := load_segments (Z.to_nat (elf_phnum elf)) ip pgdir (s32 (elf_phoff elf)) 0 in
   match sz with
   | None => exec_bad pgdir (Some ip)
   | Some sz => in_files (iunlockput ip) ;! end_op ;! exec_stack path argv (elf_entry elf) pgdir sz
   end) s3 = Ret v s' ->
  (v = -1 /\ undone s s') \/
  (v = 0 /\ exists im s1 s7, ks_fs s7 = ks_fs s1 /\ ks_pt s7 = ks_pt s /\
     (let! o := in_files (flat_segments (Z.to_nat (elf_phnum elf)) ip (s32 (elf_phoff elf)) no_image) in
      in_files (iunlockput ip) ;! end_op ;!
      ret (match o with Some im => Some (elf_entry elf, im) | None => None end)) s3 = Ret (Some (elf_entry elf, im)) s1 /\
     let '(sp, fin) := flat_stack im argv in installed s7 me path (elf_entry elf) sp fin s').
Proof.
  intros Ek (x3 & ->) Hc E. destruct (setupkvm_builds m0 l0 Hlay k0) as (d & k1 & l1 & Ed & Hd);
    [apply (u_vm _ _ _ Hold) | exact Hk0 |].
  rewrite <- Ek in Ed. rewrite (bind_eq _ _ _ _ _ (in_mem_ret _ (with_files s x3) _ _ Ed)) in E.
  destruct Hd as [(-> & K1 & P1 & _ & S1)|(Hnz & B1)].
  { left. change (0 =? 0) with true in E. apply exec_bad_none in E as (-> & Ep & Em). split; [reflexivity|]. split; [exact Ep|].
    exists l1. rewrite Em. auto. }
  rewrite (proj2 (Z.eqb_neq d 0) Hnz) in E. apply bind_inv in E as (o & s5 & El & E).
  destruct (load_segments_flat ip _ (with_mem (with_files s x3) k1) l1 d no_image _ _ _ B1 El) as (l5 & im & B5 & (k5 & x5 & F5) & Hf).
  destruct o as [sz|].
  2:{ left. apply (exec_bad_inv _ _ _ _ _ _ _ _ B5) in E as [-> Hu]. split; [reflexivity|]. subst s5. exact Hu. }
  destruct (Hf sz eq_refl) as [-> Hflat]. clear Hf El. subst s5.
  apply bind_inv in E as (u6 & s6 & E6 & E). apply in_files_inv in E6 as (x6 & E6 & ->).
  apply bind_inv in E as (u7 & s7 & E7 & E). apply in_files_inv in E7 as (x7 & E7 & ->).
  apply (exec_stack_outcome _ _ _ _ _ l5 im me) in E; [|exact B5|exact Hc].
  destruct E as [[-> Hu]|[-> Hi]]; [left; split; [reflexivity | exact Hu] | right; split; [reflexivity|]].
  exists im. eexists. eexists. split; [|split; [|split; [|exact Hi]]]; [| reflexivity |].
  2:{ rewrite (bind_eq _ _ _ _ _ (in_files_ret _ (with_files s x3) _ _ Hflat)).
      rewrite (bind_eq _ _ _ _ _ (in_files_ret _ (with_files (with_files s x3) x5) _ _ E6)). unfold end_op.
      rewrite (bind_eq _ _ _ _ _ (in_files_ret _ (with_files (with_files (with_files s x3) x5) x6) _ _ E7)). reflexivity. }
  reflexivity.
Qed.

Lemma exec_outcome path argv (s : K) me v s' : ks_mem s = k0 -> current s me p -> exec path argv s = Ret v s' ->
  (v = -1 /\ unchanged s p l0 s') \/ (v = 0 /\ replaced s me p l0 path argv s').
Proof.
  intros Ek Hc E. assert (forall s3, in_fs s s3 -> ks_pt s' = ks_pt s3 /\ ks_mem s' = ks_mem s3 -> undone s s') as Hsame.
  { intros s3 (x & ->) [Ep Em]. split; [exact Ep|]. exists l0. rewrite Em. cbn [with_files ks_mem]. rewrite Ek.
    split_and!; [apply Hold | reflexivity | intros w _ _ y _; rewrite Hk0; reflexivity]. }
  assert (forall s3 ip, in_fs s s3 -> exec_bad 0 (Some ip) s3 = Ret v s' -> v = -1 /\ unchanged s p l0 s') as Hbad.
  { intros s3 ip F Eb. apply exec_bad_none in Eb as (-> & Ep & Em). split; [reflexivity|].
    apply undone_unchanged; [exact Ek|]. apply (Hsame s3 F). auto. }
  unfold exec in E. apply bind_inv in E as (u & s1 & E1 & E). pose proof (in_fs_files _ _ _ _ E1) as F1.
  apply bind_inv in E as (o & s2 & E2 & E). pose proof (transitivity F1 (in_fs_namei _ _ _ _ E2)) as F2.
  destruct o as [ip|].
  2:{ apply bind_inv in E as (u3 & s3 & E3 & E). injection E as <- <-. left. split; [reflexivity|].
      apply undone_unchanged; [exact Ek|]. apply (Hsame s3 (transitivity F2 (in_fs_files _ _ _ _ E3))). auto. }
  apply bind_inv in E as (u3 & s3 & E3 & E). pose proof (transitivity F2 (in_fs_files _ _ _ _ E3)) as F3.
  apply bind_inv in E as (r & s4 & E4 & E). pose proof (transitivity F3 (in_fs_files _ _ _ _ E4)) as F4.
  destruct (fst r =? 52) eqn:Er; cbn [negb] in E; [|left; exact (Hbad s4 ip F4 E)]. cbv zeta in E.
  destruct (elf_magic _ =? ELF_MAGIC) eqn:Em; cbn [negb] in E; [|left; exact (Hbad s4 ip F4 E)].
  destruct (exec_image_outcome _ _ _ _ _ _ _ _ _ Ek F4 Hc E) as [[-> Hu]|(-> & im & t1 & s7 & Efs & Ept & Ef & Hi)];
    [left; split; [reflexivity | exact (undone_unchanged s s' Ek Hu)] | right; split; [reflexivity|]].
  refine (installed_replaced path argv s t1 s7 s' me _ im Ek _ Efs Ept Hi). unfold flat_program.
  rewrite (bind_eq _ _ _ _ _ E1), (bind_eq _ _ _ _ _ E2), (bind_eq _ _ _ _ _ E3), (bind_eq _ _ _ _ _ E4).
  rewrite Er, Em. exact Ef.
Qed.

(** *** exec() succeeds *)

Lemma commit_runs path d entry sp (s : K) l fin me : building (ks_mem s) l d (im_size fin - 2 * PGSIZE) fin -> current s me p ->
  p_kstack p <> 0 -> exists s', exec_commit path d (im_size fin) entry sp s = Ret 0 s'.
Proof.
  intros B Hc Hk. rewrite (exec_commit_eq _ _ _ _ _ s me p Hc). unfold switchuvm. cbn [p_kstack p_pgdir with_image].
  destruct (b_user _ _ _ _ _ _ _ B) as [[_ [Hd _] _ _] _ _]. pose proof (page_pos d Hd).
  rewrite (proj2 (Z.eqb_neq _ _) Hk), (proj2 (Z.eqb_neq d 0)) by lia.
  destruct (free_old _ _ Hlay k0 _ _ _ _ _ _ Hold Hk0 B) as (k' & l' & Ef & _).
  eexists. rewrite (bind_eq _ _ _ tt (with_proc s me (with_image p path d (im_size fin) entry sp))) by reflexivity.
  rewrite (bind_eq _ _ _ _ _ (in_mem_ret _ (with_proc s me _) _ _ Ef)). reflexivity.
Qed.

Lemma exec_words_runs path argc entry d top f sp ptrs (s : K) l me :
  building (ks_mem s) l d (top - 2 * PGSIZE) (mk_image top f) -> top mod PGSIZE = 0 -> 2 * PGSIZE <= top <= KERNBASE ->
  sp <= top -> Z.of_nat (length ptrs) = argc -> top - PGSIZE <= sp - 4 * (4 + argc) -> current s me p -> p_kstack p <> 0 -> exists s',
  (let! r := in_mem (copyout_list d (u32 (sp - (3 + argc + 1) * 4))
               (concat (map le32 ([0xffffffff; argc; u32 (sp - (argc + 1) * 4)] ++ ptrs ++ [0])))) in
   if r <? 0 then exec_bad d None else exec_commit path d top entry (u32 (sp - (3 + argc + 1) * 4))) s = Ret 0 s'.
Proof.
  intros B Ht1 Ht2 Hsp Hlen Hlo Hc Hk. set (ws := [0xffffffff; argc; u32 (sp - (argc + 1) * 4)] ++ ptrs ++ [0]) in *.
  assert (Z.of_nat (length ws) = 4 + argc) as Hws by (unfold ws; rewrite !length_app; cbn [length]; lia).
  replace ((3 + argc + 1) * 4) with (4 * (4 + argc)) by lia.
  rewrite (u32_small (sp - _)) by (unfold PGSIZE, KERNBASE in *; lia).
  destruct (copyout_runs _ _ Hlay _ _ _ _ _ (sp - 4 * (4 + argc)) (concat (map le32 ws)) B) as (k & Ec & B1);
    [unfold PGSIZE, KERNBASE in *; lia | apply stack_range; auto; rewrite length_words, Hws; lia|].
  rewrite (bind_eq _ _ _ _ _ (in_mem_ret _ s _ _ Ec)). change (0 <? 0) with false. cbn iota.
  exact (commit_runs path d entry _ (with_mem s k) l (write (mk_image top f) _ _) me B1 Hc Hk).
Qed.

Lemma exec_stack_runs path argv entry d (s : K) l im me : building (ks_mem s) l d (-1) im -> current s me p ->
  p_kstack p <> 0 -> fits im argv l0 -> exists s', exec_stack path argv entry d (im_size im) s = Ret 0 s'.
Proof.
  intros B Hc Hks (Hargs & Hroom & Hpos). unfold exec_stack, flat_stack in *. cbv zeta in *. pose proof (b_size _ _ _ _ _ _ _ B) as [_ Hsz].
  pose proof (round_up (im_size im) ltac:(lia)) as [R1 R2]. apply round_builds in B.
  set (im0 := mk_image (PGROUNDUP (im_size im)) (im_mem im)) in *.
  assert (PGROUNDUP (im_size im) = im_size im0) as E0 by reflexivity. clearbody im0. rewrite E0 in *.
  set (top := im_size im0 + 2 * PGSIZE) in *. pose proof (proj1 Hroom) as Hbig.
  rewrite (u32_small top) by (unfold top, PGSIZE, KERNBASE in *; lia).
  assert (im_size (grow top im0) = top) as Etop.
  { unfold grow. destruct (Z.ltb_spec top (im_size im0)) as [Hx|_]; [unfold top, PGSIZE in Hx; lia | reflexivity]. }
  destruct (allocuvm_runs _ _ Hlay _ _ _ _ _ top B) as (k1 & l1 & Ea & B1); [unfold top, PGSIZE in *; lia..| exact Hroom|].
  set (im1 := grow top im0) in *. rewrite Etop in *. clearbody im1.
  rewrite (bind_eq _ _ _ _ _ (in_mem_ret _ s _ _ Ea)), (proj2 (Z.eqb_neq top 0)) by (unfold top, PGSIZE in *; lia).
  assert (top mod PGSIZE = 0 /\ 2 * PGSIZE <= top <= KERNBASE) as [Ht1 Ht2].
  { unfold top in *. unfold PGSIZE in *. split; [Z.div_mod_to_equations|]; lia. }
  assert (upage (top - 2 * PGSIZE)) as Hg by (split; unfold PGSIZE in *; [lia | Z.div_mod_to_equations; lia]).
  rewrite (u32_small (top - 2 * PGSIZE)) by (unfold PGSIZE, KERNBASE in *; lia).
  destruct (clearpteu_builds _ _ Hlay _ _ _ _ _ B1 Hg ltac:(unfold PGSIZE in *; lia)) as (k2 & Ec & B2).
  rewrite (bind_eq _ _ _ _ _ (in_mem_ret _ (with_mem s k1) _ _ Ec)).
  destruct (flat_args top argv (im_mem im1)) as [[sp ptrs] f] eqn:Ef. cbn [im_size] in Hpos.
  pose proof (proj1 (flat_args_strings _ _ _ _ _ _ Ef)) as Hsp. pose proof (flat_args_strings _ _ _ _ _ _ Ef) as (_ & _ & Hall).
  apply Forall2_length in Hall. rewrite !length_app in Hpos. cbn [length] in Hpos.
  destruct (push_args_runs top Ht1 Ht2 argv (with_mem s k2) l1 d im1 top 0 [] sp ptrs f B2 Etop ltac:(lia) Ef ltac:(lia) Hargs) as [s3 Ep].
  rewrite (bind_eq _ _ _ _ _ Ep). eapply push_args_flat in Ep as (k3 & im3 & -> & B3 & Hps); [|exact Ht1|exact Ht2|exact B2|exact Etop|unfold PGSIZE; lia].
  destruct (Hps sp ([] ++ ptrs) eq_refl) as (ptrs' & f' & Ef' & _ & _ & -> & _). rewrite Ef in Ef'. injection Ef' as <- <-.
  apply (exec_words_runs path _ entry d top f sp ptrs (with_mem s k3) l1 me B3 Ht1 Ht2 Hsp); auto; lia.
Qed.

Lemma exec_runs path argv (s : K) me entry im s1 : ks_mem s = k0 -> current s me p -> p_kstack p <> 0 ->
  flat_program path s = Ret (Some (entry, im)) s1 -> fits im argv l0 -> exists s', exec path argv s = Ret 0 s'.
Proof.
  intros Ek Hc Hks E Hfits. unfold flat_program in E. unfold exec.
  apply bind_inv in E as (u & t1 & E1 & E). pose proof (in_fs_files _ _ _ _ E1) as F1. rewrite (bind_eq _ _ _ _ _ E1).
  apply bind_inv in E as (o & t2 & E2 & E). pose proof (transitivity F1 (in_fs_namei _ _ _ _ E2)) as F2. rewrite (bind_eq _ _ _ _ _ E2).
  destruct o as [ip|]; [|apply bind_inv in E as (? & ? & _ & E); discriminate].
  apply bind_inv in E as (u3 & t3 & E3 & E). pose proof (transitivity F2 (in_fs_files _ _ _ _ E3)) as F3. rewrite (bind_eq _ _ _ _ _ E3).
  apply bind_inv in E as (r & t4 & E4 & E). pose proof (transitivity F3 (in_fs_files _ _ _ _ E4)) as (x4 & ->).
  rewrite (bind_eq _ _ _ _ _ E4). cbv zeta in *. apply bind_inv in E as (o & t5 & E5 & E).
  apply bind_inv in E as (u6 & t6 & E6 & E). apply in_files_inv in E6 as (x6 & E6 & ->).
  apply bind_inv in E as (u7 & t7 & E7 & E). apply in_files_inv in E7 as (x7 & E7 & ->).
  destruct (_ && _) eqn:Em; [|injection E5 as <- _; discriminate]. apply andb_prop in Em as [-> ->]. cbn [negb].
  apply in_files_inv in E5 as (x5 & E5 & ->). destruct o as [im'|]; [|discriminate]. injection E as <- <- <-.
  destruct (setupkvm_builds m0 l0 Hlay k0) as (d & k1 & l1 & Ed & Hd); [apply (u_vm _ _ _ Hold) | exact Hk0 |].
  pose proof Hfits as (_ & Hroom & _).
  pose proof (flat_segments_size _ _ _ _ _ _ _ E5) as [Hs Hs2].
  cbn [im_size no_image] in Hs, Hs2. specialize (Hs2 eq_refl).
  pose proof (proj1 Hroom) as Hbig.
  destruct Hd as [(_ & _ & _ & Hx & _)|(Hnz & B1)].
  { exfalso. destruct Hroom as [_ Hr]. assert (0 <= PGROUNDUP (PGROUNDUP (im_size im') + 2 * PGSIZE) / PGSIZE); [|lia].
    apply Z.div_pos; [apply Z.land_nonneg; right; apply Z.mod_pos_bound; reflexivity | reflexivity]. }
  rewrite <- Ek in Ed. rewrite (bind_eq _ _ _ _ _ (in_mem_ret _ (with_files s x4) _ _ Ed)), (proj2 (Z.eqb_neq d 0) Hnz).
  assert (room l0 (im_size im')) as Hroom'.
  { apply (room_less _ _ _ Hroom). pose proof (round_up (im_size im') ltac:(lia)). unfold PGSIZE in *. lia. }
  destruct (load_segments_runs ip _ (with_mem (with_files s x4) k1) l1 d no_image _ im' x5 B1 Hroom' E5) as [s5 El].
  change (im_size no_image) with 0 in El. rewrite (bind_eq _ _ _ _ _ El).
  apply (load_segments_flat ip _ (with_mem (with_files s x4) k1) l1 d no_image _ _ _ B1) in El
    as (l5 & im5 & B5 & (k5 & x5' & ->) & Hf). destruct (Hf _ eq_refl) as [_ Hflat]. cbn [ks_fs with_files with_mem fy_fs] in Hflat.
  cbn [ks_fs with_files with_mem fy_fs] in E5. rewrite E5 in Hflat. injection Hflat as <- <-.
  set (s5 := with_files (with_mem _ k5) x5) in *. unfold end_op.
  rewrite (bind_eq _ _ _ _ _ (in_files_ret _ s5 _ _ E6)), (bind_eq _ _ _ _ _ (in_files_ret _ (with_files s5 x6) _ _ E7)).
  exact (exec_stack_runs path argv _ d (with_files (with_files s5 x6) x7) l5 im' me B5 Hc Hks Hfits).
Qed.
End Replace.
End Storage.

(** C13. exec() replaces the program of a process or does nothing.

    If it returns -1 - no such file, not an ELF file, a bad segment, no
    memory, too many arguments - the process table is as before, the old
    address space of the process is intact, and exactly the pages that were
    free are free again.  If it returns 0, only the record of the calling
    process has changed, and in it only page directory, size, entry point,
    stack pointer and name: the entry point is that of the ELF file, the
    page table shows the flat memory that reading the segments from the file
    and pushing the arguments give, of exactly the size that is stored, with
    the guard page under the stack out of the user's reach; the stack
    pointer is where the last word was pushed, inside the stack page.  The
    kernel is mapped and out of reach too.  The pages of the new address
    space and the free ones are those of the old address space and those
    that were free: none is lost or in use twice, and no other page
    changes.

    And if the file holds a program, program and arguments fit and there are
    free pages for a directory, its tables and the program, it does return
    0. *)
Theorem exec_all_or_nothing (path : list Z) (argv : list (list Z)) (s : K) (me : nat) (p : proc) (l : list Z) :
  storage_ok -> layout_ok -> current s me p -> user_ok (ks_mem s) (p_pgdir p) l ->
  (forall v s', exec path argv s = Ret v s' -> (v = -1 /\ unchanged s p l s') \/ (v = 0 /\ replaced s me p l path argv s')) /\
  (forall entry im s1, flat_program path s = Ret (Some (entry, im)) s1 -> fits im argv l -> p_kstack p <> 0 ->
     exists s', exec path argv s = Ret 0 s').
Proof.
  intros Hst Hlay Hc Hu. split.
  - intros v s' E. exact (exec_outcome Hst (km_mem (ks_mem s)) l Hlay (ks_mem s) p Hu eq_refl path argv s me v s' eq_refl Hc E).
  - intros entry im s1 E Hf Hk.
    exact (exec_runs Hst (km_mem (ks_mem s)) l Hlay (ks_mem s) p Hu eq_refl path argv s me entry im s1 eq_refl Hc Hk E Hf).
Qed.
End Proofs.

(** ** A file system with one program

    The directory in block 10 holds the file "x", inode 2, whose only block
    11 is an ELF header. *)
Module ExecDemo.
#[export] Instance ctx : Ctx := { cpu_id := 0; cur_pid := 1 }.
#[export] Instance linked : Linked := { kernel_data := 0x80108000; kernel_end := 0x80115000 }.
#[export] Instance pages : Pages := { old_page := fun _ => mk_pipe None (replicate 512 1) 1 1 1 1 }.

Definition padded_to (n : nat) (l : list Z) : list Z := l ++ replicate (n - length l) 0.
Definition inode_block : list Z := padded_to 512 (replicate 128 0 ++ enc_dinode (mk_dinode T_FILE 0 0 1 52 (11 :: replicate 12 0))).
Definition dir_block : list Z := padded_to 512 (enc_dirent (mk_dirent 2 (padded_to DIRSIZ (str "x")))).
Definition elf_block : list Z := padded_to 512 ([0x7F; 0x45; 0x4C; 0x46] ++ replicate 20 0 ++ [0x34; 0x12; 0; 0]).
Definition disk (b : nat) : list Z :=
  match b with 2%nat => inode_block | 10%nat => dir_block | 11%nat => elf_block | _ => [] end.
#[export] Instance tx : TxOps unit := {
  t_bread _ b := ret (Z.to_nat b); t_data b := ret (disk b); t_set_data _ _ := halt Faulted;
  t_log_write _ := halt Faulted; t_brelse _ := ret tt }.
#[export] Instance op : OpOps unit := { op_begin := ret tt; op_end := ret tt }.
#[export] Instance devsw : Devsw (fstate unit) := { dev_read _ := None; dev_write _ := None }.

Definition root : inode := mk_inode 1 1 1 (mk_sleeplock 0 None 0) 1 T_DIR 0 0 1 16 (10 :: replicate 12 0).
Definition free_inode : inode := mk_inode 0 0 0 (mk_sleeplock 0 None 0) 0 0 0 0 0 0 (replicate 13 0).
Definition files : fstate unit := mk_fs tt (mk_superblock 100 90 16 10 20 2 50) (mk_icache None [root; free_inode]).

(** 1100 free pages in a row; the page directory of the process is empty. *)
Definition first_page : Z := 0x80400000.
Definition free_memory : mem := fun x =>
  let p := x / PGSIZE * PGSIZE in
  if (first_page <=? p) && (p <? first_page + PGSIZE * 1099) && (x - p <? 4) then (p + PGSIZE) / 256 ^ (x - p) mod 256 else 0.
Definition demo_pages : list Z := Kalloc.pages first_page 1100.
Definition demo_memory : kmem := mk_kmem None 1 first_page free_memory.
Definition demo_proc : proc :=
  mk_proc 4096 0x80200000 0x80201000 RUNNING 1 None (mk_tf 0 0 0 FL_IF 27 35 35 35) 0 None 0 (replicate 16 None) (Some O) (replicate 16 0).
Definition machine : kstate (fsys unit) :=
  mk_ks (mk_ptable None [demo_proc] (Some O) 2 [Some O]) demo_memory (mk_clock None 0) (mk_fsys (mk_ftable None []) ∅ files).

Lemma demo_storage : storage_ok.
Proof.
  split; [|discriminate]. intros b t x t' [= <- _].
  assert (forall l, forallb (fun c => (0 <=? c) && (c <? 256)) l = true -> Forall byte l) as Hf.
  { intros l Hl. apply Forall_forall. intros c Hc. rewrite forallb_forall in Hl.
    specialize (Hl c (proj1 (list_elem_of_In _ _) Hc)). unfold byte. lia. }
  do 12 (destruct b as [|b]; [apply Hf; vm_compute; reflexivity|]). constructor.
Qed.
Lemma program_layout : layout_ok.
Proof. split; [reflexivity|]. vm_compute. split; reflexivity. Qed.

Lemma free_word i : (i < 1100)%nat -> load32 free_memory (first_page + PGSIZE * Z.of_nat i) =
  if decide (i = 1099%nat) then 0 else first_page + PGSIZE * Z.of_nat (S i).
Proof.
  intros Hi. set (p := first_page + PGSIZE * Z.of_nat i).
  assert (forall o, 0 <= o < 4 -> free_memory (p + o) = if decide (i = 1099%nat) then 0 else (p + PGSIZE) / 256 ^ o mod 256) as Hb.
  { intros o Ho. unfold free_memory. assert ((p + o) / PGSIZE * PGSIZE = p) as ->
      by (unfold p, first_page, PGSIZE; Z.div_mod_to_equations; lia).
    replace (p + o - p) with o by lia. rewrite (proj2 (Z.leb_le first_page p)), (proj2 (Z.ltb_lt o 4)) by (unfold p, PGSIZE; lia).
    destruct (decide _) as [->|Hne]; [reflexivity|]. rewrite (proj2 (Z.ltb_lt p _)) by (unfold p, PGSIZE; lia). reflexivity. }
  unfold load32. replace p with (p + 0) at 1 by lia. rewrite !Hb by lia. destruct (decide _) as [_|Hne]; [reflexivity|].
  replace (first_page + PGSIZE * Z.of_nat (S i)) with (p + PGSIZE) by (unfold p, PGSIZE; lia).
  change (256 ^ 0) with 1. change (256 ^ 1) with 256. change (256 ^ 2) with 65536. change (256 ^ 3) with 16777216.
  change (2 ^ 8) with 256. change (2 ^ 16) with 65536. change (2 ^ 24) with 16777216.
  assert (0 <= p + PGSIZE < 2 ^ 32) as Hr by (unfold p, first_page, PGSIZE; lia). generalize dependent (p + PGSIZE). intros q Hr.
  clear - Hr. Z.div_mod_to_equations. lia.
Qed.
Lemma free_chain n : forall i, (i + n = 1100)%nat ->
  chain free_memory (if decide (n = O) then 0 else first_page + PGSIZE * Z.of_nat i) (Kalloc.pages (first_page + PGSIZE * Z.of_nat i) n).
Proof.
  induction n as [|n IH]; intros i Hi; [reflexivity|]. rewrite pages_S. cbn [chain]. rewrite decide_False by lia. split; [reflexivity|].
  rewrite free_word by lia. replace (first_page + PGSIZE * Z.of_nat i + PGSIZE) with (first_page + PGSIZE * Z.of_nat (S i)) by lia.
  specialize (IH (S i) ltac:(lia)). destruct (decide (i = 1099%nat)) as [->|Hne].
  - rewrite decide_True in IH by lia. exact IH.
  - rewrite decide_False in IH by lia. exact IH.
Qed.
Lemma demo_free v : v ∈ demo_pages -> page_ok v /\ v <> 0x80200000.
Proof.
  intros (i & Hi & ->)%elem_of_pages. unfold page_ok, first_page, KERNBASE, PHYSTOP, PGSIZE. cbn [kernel_end linked].
  split_and!; try lia. rewrite Z.mul_comm, Z_mod_plus_full. reflexivity.
Qed.
Lemma demo_space : user_ok demo_memory 0x80200000 demo_pages.
Proof.
  assert (forall i, 0 <= i < 1024 -> table_at free_memory 0x80200000 i = None) as Ht.
  { intros i Hi. assert (forall x, 0x80200000 <= x < 0x80201000 -> free_memory x = 0) as Hz.
    { intros x Hx. unfold free_memory. rewrite (proj2 (Z.leb_gt _ _)); [reflexivity|].
      unfold first_page, PGSIZE. Z.div_mod_to_equations. lia. }
    unfold table_at, load32. rewrite !Hz by lia. reflexivity. }
  assert (forall a, maps free_memory 0x80200000 a = None) as Hm by (intros a; unfold maps; rewrite Ht by apply PDX_range; reflexivity).
  split; [split|..].
  - split; [reflexivity | | | apply NoDup_pages |].
    + pose proof (free_chain 1100 0 eq_refl) as Hc. rewrite decide_False, Z.mul_0_r, Z.add_0_r in Hc by discriminate. exact Hc.
    + apply Forall_forall. intros v Hv. apply (demo_free v Hv).
    + intros x. cbn [km_mem demo_memory]. unfold free_memory. destruct (_ && _); [apply Z.mod_pos_bound; reflexivity | lia].
  - split; [split; [reflexivity|]; cbn; unfold KERNBASE, PHYSTOP, PGSIZE; lia | intros Hx; apply demo_free in Hx as [_ Hx]; congruence].
  - intros i t Hi Et. cbn [km_mem demo_memory] in Et. rewrite Ht in Et by exact Hi. discriminate.
  - intros i j t Hi _ Et. cbn [km_mem demo_memory] in Et. rewrite Ht in Et by exact Hi. discriminate.
  - intros a e _ Ee. cbn [km_mem demo_memory] in Ee. rewrite Hm in Ee. discriminate.
  - intros a b e f _ _ Ee. cbn [km_mem demo_memory] in Ee. rewrite Hm in Ee. discriminate.
Qed.

(** The steps up to the program headers. *)
Definition after {S A} (m : M S A) (s : S) : S := match m s with Ret _ s' => s' | Stop _ s' => s' end.
Definition found : fstate unit := after (namei (Some O) (str "x")) files.
Definition locked : fstate unit := after (ilock (Some 1%nat)) found.
Definition unlocked : fstate unit := after (iunlockput 1) locked.
Definition header : list Z := take 52 elf_block.

Lemma demo_current : current machine 0 demo_proc.
Proof. split; reflexivity. Qed.
Lemma program_fits : fits no_image [] demo_pages.
Proof.
  split; [apply Nat.le_0_l|]. split; [|vm_compute; discriminate].
  split; [reflexivity|]. unfold demo_pages, Kalloc.pages. rewrite length_map, length_seq. reflexivity.
Qed.
Lemma demo_program : exists s1, flat_program (str "x") machine = Ret (Some (0x1234, no_image)) s1.
Proof.
  exists (with_files machine unlocked). unfold flat_program. rewrite (bind_eq _ _ _ tt machine) by reflexivity.
  rewrite (bind_eq (k_namei _) _ _ (Some 1%nat) (with_files machine found)).
  2:{ unfold k_namei, cwd. rewrite (bind_eq _ _ _ _ _ (my_current p_cwd _ _ _ demo_current)). apply in_files_ret. vm_compute. reflexivity. }
  rewrite (bind_eq (in_files (ilock _)) _ _ tt (with_files machine locked))
    by (apply (in_files_ret _ (with_files machine found)); vm_compute; reflexivity).
  rewrite (bind_eq (in_files (readi _ _ _)) _ _ (52, header) (with_files machine locked))
    by (apply (in_files_ret _ (with_files machine locked)); vm_compute; reflexivity).
  cbv beta zeta. assert ((fst (52, header) =? 52) && (elf_magic (dec_elfhdr (snd (52, header))) =? ELF_MAGIC) = true) as ->
    by (vm_compute; reflexivity).
  rewrite (bind_eq _ _ _ (Some no_image) (with_files machine locked))
    by (apply (in_files_ret _ (with_files machine locked)); vm_compute; reflexivity).
  rewrite (bind_eq _ _ _ tt (with_files machine unlocked))
    by (apply (in_files_ret _ (with_files machine locked)); vm_compute; reflexivity).
  unfold end_op. rewrite (bind_eq _ _ _ tt (with_files machine unlocked))
    by (apply (in_files_ret _ (with_files machine unlocked)); vm_compute; reflexivity).
  assert (elf_entry (dec_elfhdr (snd (52, header))) = 0x1234) as -> by (vm_compute; reflexivity). reflexivity.
Qed.
End ExecDemo.
Import ExecDemo.

(** exec("x") of a program without segments: the new address space has the
    guard page and the stack page, with the four words for no arguments. *)
Example exec_all_or_nothing_witness : exists s' pgdir, exec (str "x") [] ExecDemo.machine = Ret 0 s' /\
  pt_proc (ks_pt s') = [with_image ExecDemo.demo_proc (str "x") pgdir 8192 0x1234 8176] /\
  maps (km_mem (ks_mem s')) pgdir 8192 = None.
Proof.
  destruct ExecDemo.demo_program as [s2 E2].
  destruct (exec_all_or_nothing (str "x") [] ExecDemo.machine 0 ExecDemo.demo_proc ExecDemo.demo_pages ExecDemo.demo_storage
    ExecDemo.program_layout ExecDemo.demo_current ExecDemo.demo_space) as [Hall Hrun].
  destruct (Hrun _ _ _ E2 ExecDemo.program_fits) as [s' E]; [discriminate|].
  destruct (Hall _ _ E) as [[Hx _]|[_ (entry & im & s1 & E1 & _ & pgdir & l' & Ept & _ & Hs & _)]];
    [discriminate|].
  rewrite E2 in E1. injection E1 as <- <- _. exists s', pgdir. split; [exact E|]. split; [rewrite Ept; reflexivity|].
  apply Hs; [split; [split; [discriminate | reflexivity] | reflexivity] | discriminate].
Defined.
