(* ===== verification/Kernel.v ===== *)
(** * The system call table

    [syscalls[]] of [src/homeworks/xv6-public/syscall.c] with the numbers of
    [syscall.h], over the calls of [Trap.v], [Sysfile.v] and [Exec.v]. *)
From S2P Require Import Prelude.
From S2P Require Import Kalloc.
From S2P Require Import Vm.
From S2P Require Import Layout.
From S2P Require Import Bio.
From S2P Require Import Tx.
From S2P Require Import Fs.
From S2P Require Import Pipe.
From S2P Require Import Proc.
From S2P Require Import File.
From S2P Require Import Syscall.
From S2P Require Import Trap.
From S2P Require Import Sysfile.
From S2P Require Import Exec.
From S2P Require Import Frame.
From S2P Require Import FdProofs.
From S2P Require Import SyscallProofs.

Section Code.
Context `{Ctx} `{Linked} `{Asm} `{Pages} {T : Type} `{TxOps T} `{OpOps T} `{Devsw (fstate T)}.
#[local] Abbreviation K := (kstate (fsys T)).

(** What the rest of the system does while a call sleeps, and the clock. *)
Record around := mk_around {
  pipe_env : list (pctx -> pctx); proc_env : list (K -> K); read_clock : M K (list Z) }.

Definition value (m : M K Z) : M K sysret := let! v := m in ret (Value v).

Definition syscalls (e : around) (num : Z) : option (M K sysret) :=
  if num =? 1 then Some sys_fork
  else if num =? 2 then Some sys_exit
  else if num =? 3 then Some (sys_wait (proc_env e))
  else if num =? 4 then Some (value sys_pipe)
  else if num =? 5 then Some (value (sys_read (pipe_env e)))
  else if num =? 6 then Some sys_kill
  else if num =? 7 then Some (value (sys_exec exec))
  else if num =? 8 then Some (value sys_fstat)
  else if num =? 9 then Some (value sys_chdir)
  else if num =? 10 then Some (value sys_dup)
  else if num =? 11 then Some sys_getpid
  else if num =? 12 then Some sys_sbrk
  else if num =? 13 then Some (sys_sleep (proc_env e))
  else if num =? 14 then Some sys_uptime
  else if num =? 15 then Some (value sys_open)
  else if num =? 16 then Some (value (sys_write (pipe_env e)))
  else if num =? 17 then Some (value sys_mknod)
  else if num =? 18 then Some (value sys_unlink)
  else if num =? 19 then Some (value sys_link)
  else if num =? 20 then Some (value sys_mkdir)
  else if num =? 21 then Some (value sys_close)
  else if num =? 22 then Some (sys_date (read_clock e))
  else None.

Lemma syscalls_none e num : syscalls e num = None <-> ~ (1 <= num <= 22).
Proof.
  unfold syscalls.
  repeat match goal with
  | |- context [num =? ?k] => destruct (Z.eqb_spec num k) as [->|?]; [split; [discriminate | intros Hn; exfalso; apply Hn; lia]|]
  end.
  split; [|auto]. intros _ [Hl Hh].
  repeat match goal with
  | Hl : ?a <= num, Hn : num <> ?a |- _ => let b := eval vm_compute in (a + 1) in assert (b <= num) by lia; clear Hl Hn
  end. lia.
Qed.

(** A system call number outside the table, negative ones included, does
    nothing but set %eax of the caller to -1: memory, files, the clock and
    every other process are unchanged. *)
Theorem syscall_unknown (e : around) (s : K) (me : nat) (p : proc) :
  current s me p -> ~ (1 <= s32 (tf_eax (p_tf p)) <= 22) ->
  syscall (syscalls e) s = Ret (Value (-1))
    (mk_ks (mk_ptable (pt_lock (ks_pt s)) (<[me := p <| p_tf ::= fun tf => tf <| tf_eax := 2 ^ 32 - 1 |> |>]> (pt_proc (ks_pt s)))
      (pt_initproc (ks_pt s)) (pt_nextpid (ks_pt s)) (pt_cpu (ks_pt s))) (ks_mem s) (ks_clock s) (ks_fs s)).
Proof.
  intros Hc Hn. unfold syscall. step by (apply (my_current p_tf _ _ _ Hc)).
  assert ((if 0 <? s32 (tf_eax (p_tf p)) then syscalls e (s32 (tf_eax (p_tf p))) else None) = None) as ->.
  { destruct (0 <? _); [apply syscalls_none; exact Hn | reflexivity]. }
  unfold set_eax. step by (apply (set_my_current _ _ _ _ Hc)). reflexivity.
Qed.
End Code.

Import Demo.
#[local] Instance demo_asm : Asm := { forkret_addr := 0x80103000; trapret_addr := 0x80105000; initcode_start := 0x8010a460; initcode_size := 44 }.

(** %eax is 0 in the first process. *)
Example syscall_unknown_witness :
  syscall (syscalls (mk_around [] [] (ret []))) (machine 0 0) = syscall (fun _ => None) (machine 0 0) /\
  exists s', syscall (syscalls (mk_around [] [] (ret []))) (machine 0 0) = Ret (Value (-1)) s' /\ ks_mem s' = ks_mem (machine 0 0).
Proof.
  pose proof (syscall_unknown (mk_around [] [] (ret [])) (machine 0 0) 0 _ (machine_current 0 0)
    ltac:(vm_compute; intros [H _]; apply H; reflexivity)) as E.
  split; [reflexivity|]. eexists. split; [exact E | reflexivity].
Defined.
