(* ===== verification/Console.v ===== *)
(** * The console

    [src/homeworks/xv6-public/console.c], with [kbd.c] and [uart.c]: the line
    editor that fills the input ring, reading from it, and the screen.  The
    port reads of the hardware are arguments. *)
From S2P Require Import Prelude.
From S2P Require Import Ulib.

Definition BACKSPACE : Z := 0x100.
Definition INPUT_BUF : Z := 128.
(** [C(x)] *)
Definition Ctl (x : Z) : Z := x - 64.

(** The CGA text screen: the cursor register and the cells. *)
Record screen := mk_screen { sc_pos : Z; sc_crt : Z -> Z }.

(** cons, input, panicked, the screen and what went to the serial port. *)
Record console := mk_console {
  cn_lock : spinlock; cn_buf : list Z; cn_r : Z; cn_w : Z; cn_e : Z; cn_panicked : Z;
  cn_screen : screen; cn_uart : list Z }.
#[export] Instance eta_console : Eta console := fun c =>
  mk_console (cn_lock c) (cn_buf c) (cn_r c) (cn_w c) (cn_e c) (cn_panicked c) (cn_screen c) (cn_uart c).

(** *** Output *)

(** [memmove(crt, crt+80, ...)] of 23 lines, then clearing from [pos] on. *)
Definition scroll (crt : Z -> Z) (pos : Z) : Z -> Z := fun i =>
  if (pos <=? i) && (i <? 24 * 80) then 0
  else if (0 <=? i) && (i <? 23 * 80) then crt (i + 80) else crt i.
Definition cgaputc (c : Z) : M screen unit := fun s =>
  let pos := sc_pos s in
  let crt := sc_crt s in
  let '(pos, crt) :=
    if c =? 10 then (pos + (80 - pos mod 80), crt)
    else if c =? BACKSPACE then (if 0 <? pos then pos - 1 else pos, crt)
    else (pos + 1, fun i => if i =? pos then Z.lor (Z.land c 0xff) 0x0700 else crt i) in
  if (pos <? 0) || (25 * 80 <? pos) then Stop (Panicked "pos under/overflow") (mk_screen (sc_pos s) crt) else
  let '(pos, crt) :=
    if 24 <=? pos / 80 then (pos - 80, scroll crt (pos - 80)) else (pos, crt) in
  Ret tt (mk_screen pos (fun i => if i =? pos then Z.lor 32 0x0700 else crt i)).

(** uartputc(c) writes the byte when there is a serial port; the wait for the
    transmitter is bounded and has no effect. *)
Definition uartputc (c : Z) : M console unit := modify (fun s => s <| cn_uart ::= fun l => l ++ [u8 c] |>).
Definition consputc (c : Z) : M console unit :=
  let! p := get cn_panicked in
  if negb (p =? 0) then halt Spinning else
  (if c =? BACKSPACE then uartputc 8 ;! uartputc 32 ;! uartputc 8 else uartputc c) ;!
  zoom cn_screen (cgaputc c).

(** printint() and cprintf(): the lower case digits, and "%" at the end of
    the format is dropped. *)
Definition cdigit (d : Z) : Z := nth (Z.to_nat d) (str "0123456789abcdef") 0.
Fixpoint cprint_digits (fuel : nat) (x base : Z) : list Z :=
  match fuel with
  | O => []
  | S fuel' => cdigit (x mod base) :: (if x / base =? 0 then [] else cprint_digits fuel' (x / base) base)
  end.
Definition cprintint (xx base : Z) (sign : bool) : list Z :=
  let neg := sign && (xx <? 0) in
  let x := if neg then u32 (- xx) else u32 xx in
  rev (cprint_digits 32 x base ++ (if neg then [45] else [])).
Definition cputs : list Z -> M console unit := fun l => for_all l consputc.
Fixpoint cprintf_loop (cstr : Z -> list Z) (argp : nat -> Z) (fmt : list Z) (k : nat) : list Z :=
  match fmt with
  | [] => []
  | c :: fmt' =>
      if negb (c =? 37) then c :: cprintf_loop cstr argp fmt' k else
      match fmt' with
      | [] => []
      | d :: fmt'' =>
          if d =? 100 then cprintint (s32 (argp k)) 10 true ++ cprintf_loop cstr argp fmt'' (S k)
          else if (d =? 120) || (d =? 112) then cprintint (s32 (argp k)) 16 false ++ cprintf_loop cstr argp fmt'' (S k)
          else if d =? 115 then
            (if argp k =? 0 then str "(null)" else cstr (argp k)) ++ cprintf_loop cstr argp fmt'' (S k)
          else if d =? 37 then 37 :: cprintf_loop cstr argp fmt'' k
          else 37 :: d :: cprintf_loop cstr argp fmt'' k
      end
  end.

Section Code.
Context `{Ctx}.

Definition lock_cons : M console unit := zoom cn_lock acquire.
Definition unlock_cons : M console unit := zoom cn_lock release.

Definition cprintf (locking : bool) (cstr : Z -> list Z) (fmt : list Z) (argp : nat -> Z) : M console unit :=
  (if locking then lock_cons else ret tt) ;!
  cputs (cprintf_loop cstr argp fmt 0) ;!
  (if locking then unlock_cons else ret tt).

Definition consolewrite (buf : list Z) : M console Z :=
  lock_cons ;!
  for_all buf (fun c => consputc (Z.land c 0xff)) ;!
  unlock_cons ;!
  ret (Z.of_nat (length buf)).

(** *** Input *)

Definition buf_at (i : Z) : M console Z :=
  let! b := get cn_buf in deref (b !! Z.to_nat (i mod INPUT_BUF)).
(** [input.e--; consputc(BACKSPACE);] *)
Definition erase : M console unit :=
  modify (fun s => s <| cn_e ::= fun e => u32 (e - 1) |>) ;! consputc BACKSPACE.
(** [while(input.e != input.w && input.buf[(input.e-1) % INPUT_BUF] != '\n')] *)
Fixpoint kill_line (fuel : nat) : M console unit :=
  let! s := get id in
  if negb (cn_e s =? cn_w s) then
    let! c := buf_at (u32 (cn_e s - 1)) in
    if negb (c =? 10) then
      match fuel with
      | O => halt NoFuel
      | S fuel' => erase ;! kill_line fuel'
      end
    else ret tt
  else ret tt.

(** The default case of the switch. *)
Definition insert_char (c : Z) : M console unit :=
  let! s := get id in
  if negb (c =? 0) && (u32 (cn_e s - cn_r s) <? INPUT_BUF) then
    let c := if c =? 13 then 10 else c in
    modify (fun s => s <| cn_buf ::= <[Z.to_nat (cn_e s mod INPUT_BUF) := u8 c]> |>) ;!
    modify (fun s => s <| cn_e ::= fun e => u32 (e + 1) |>) ;!
    consputc c ;!
    let! s := get id in
    if (c =? 10) || (c =? Ctl 68) || (cn_e s =? u32 (cn_r s + INPUT_BUF)) then
      modify (fun s => s <| cn_w := cn_e s |>) ;!
      wakeup "input"
    else ret tt
  else ret tt.

(** One character; true when a process listing is asked for. *)
Definition handle_char (c : Z) : M console bool :=
  if c =? Ctl 80 then ret true
  else if c =? Ctl 85 then kill_line (Z.to_nat INPUT_BUF) ;! ret false
  else if (c =? Ctl 72) || (c =? 127) then
    let! s := get id in
    (if negb (cn_e s =? cn_w s) then erase else ret tt) ;! ret false
  else insert_char c ;! ret false.
Fixpoint handle_chars (getc : list Z) (doprocdump : bool) : M console bool :=
  match getc with
  | [] => ret doprocdump
  | c :: getc' =>
      if c <? 0 then ret doprocdump else
      let! d := handle_char c in
      handle_chars getc' (doprocdump || d)
  end.
(** [getc] lists the results of getc(); true when procdump() is called. *)
Definition consoleintr (getc : list Z) : M console bool :=
  lock_cons ;!
  let! doprocdump := handle_chars getc false in
  unlock_cons ;!
  ret doprocdump.

(** The console and the [killed] flag of the reader. *)
Record cctx := mk_cctx { cc_cons : console; cc_killed : Z }.
#[local] Instance eta_cctx : Eta cctx := fun s => mk_cctx (cc_cons s) (cc_killed s).
Definition in_cons {A} (m : M console A) : M cctx A := zoom cc_cons m.

(** [while(input.r == input.w)]; [env] is what happens while the reader
    sleeps; [None] when it was killed. *)
Fixpoint wait_input (env : list (cctx -> cctx)) : M cctx (option (list (cctx -> cctx))) :=
  let! s := get id in
  if cn_r (cc_cons s) =? cn_w (cc_cons s) then
    if negb (cc_killed s =? 0) then in_cons unlock_cons ;! ret None
    else
      in_cons unlock_cons ;!
      match env with
      | [] => halt (Asleep "input")
      | e :: env' => modify e ;! in_cons lock_cons ;! wait_input env'
      end
  else ret (Some env).
(** [while(n > 0)]: the bytes read; [got] are there already; false when the
    reader was killed. *)
Fixpoint read_line (n : nat) (got : bool) (env : list (cctx -> cctx)) : M cctx (option (list Z)) :=
  match n with
  | O => ret (Some [])
  | S n' =>
      let! w := wait_input env in
      match w with
      | None => ret None
      | Some env' =>
          let! r := in_cons (get cn_r) in
          let! c := in_cons (buf_at r) in
          in_cons (modify (fun s => s <| cn_r := u32 (r + 1) |>)) ;!
          if c =? Ctl 68 then  (* EOF *)
            (* Save ^D for next time, to make sure caller gets a 0-byte result. *)
            (if got then in_cons (modify (fun s => s <| cn_r := r |>)) else ret tt) ;!
            ret (Some [])
          else if c =? 10 then ret (Some [c])
          else
            let! rest := read_line n' true env' in
            ret (cons c <$> rest)
      end
  end.
(** consoleread() between its iunlock() and ilock() of the inode. *)
Definition consoleread (env : list (cctx -> cctx)) (n : Z) : M cctx (Z * list Z) :=
  in_cons lock_cons ;!
  let! r := read_line (Z.to_nat n) false env in
  match r with
  | None => ret (-1, [])
  | Some bytes => in_cons unlock_cons ;! ret (Z.of_nat (length bytes), bytes)
  end.
End Code.

(** *** The keyboard *)

Definition SHIFT : Z := 1.
Definition CTL : Z := 2.
Definition ALT : Z := 4.
Definition CAPSLOCK : Z := 8.
Definition NUMLOCK : Z := 16.
Definition SCROLLLOCK : Z := 32.
Definition E0ESC : Z := 64.

Definition shiftcode (d : Z) : Z :=
  if (d =? 0x1D) || (d =? 0x9D) then CTL else if (d =? 0x2A) || (d =? 0x36) then SHIFT
  else if (d =? 0x38) || (d =? 0xB8) then ALT else 0.
Definition togglecode (d : Z) : Z :=
  if d =? 0x3A then CAPSLOCK else if d =? 0x45 then NUMLOCK else if d =? 0x46 then SCROLLLOCK else 0.

(** kbdgetc() for the byte [data] of the controller: the new shift state and
    the result; [charcode] are the three maps of [kbd.h]. *)
Definition kbdgetc (charcode : Z -> Z -> Z) (shift data : Z) : Z * Z :=
  if data =? 0xE0 then (Z.lor shift E0ESC, 0)
  else if bitset data 0x80 then
    let data := if bitset shift E0ESC then data else Z.land data 0x7F in
    (Z.land shift (u32 (Z.lnot (Z.lor (shiftcode data) E0ESC))), 0)
  else
    let '(data, shift) := if bitset shift E0ESC then (Z.lor data 0x80, Z.land shift (u32 (Z.lnot E0ESC))) else (data, shift) in
    let shift := Z.lor shift (shiftcode data) in
    let shift := Z.lxor shift (togglecode data) in
    let c := charcode (Z.land shift (Z.lor CTL SHIFT)) data in
    let c := if bitset shift CAPSLOCK then
               if (97 <=? c) && (c <=? 122) then c - 32
               else if (65 <=? c) && (c <=? 90) then c + 32 else c
             else c in
    (shift, c).
