(* ===== verification/ConsoleProofs.v ===== *)
(** * The console is a line editor

    The input ring holds the bytes of committed lines, then those of the
    line being typed.  consoleintr() edits the second list and commits it,
    consoleread() takes from the first. *)
From S2P Require Import Prelude.
From S2P Require Import Ulib.
From S2P Require Import Console.

(** ** The screen *)

(** The cursor is on one of the first 24 lines. *)
Definition on_screen (s : screen) : Prop := 0 <= sc_pos s < 24 * 80.

Lemma cgaputc_ok c s : on_screen s -> exists s', cgaputc c s = Ret tt s' /\ on_screen s' /\
  (forall i, ~ (0 <= i < 25 * 80) -> sc_crt s' i = sc_crt s i).
Proof.
  unfold on_screen, cgaputc. intros Hp.
  assert (Hn : 1 <= 80 - sc_pos s mod 80 <= 80) by dlia.
  assert (Hg : forall pos crt, 0 <= pos <= 24 * 80 -> (forall i, ~ (0 <= i < 25 * 80) -> crt i = sc_crt s i) ->
    exists s', (if (pos <? 0) || (25 * 80 <? pos) then Stop (Panicked "pos under/overflow") (mk_screen (sc_pos s) crt) else
      let '(pos, crt) := if 24 <=? pos / 80 then (pos - 80, scroll crt (pos - 80)) else (pos, crt) in
      Ret tt (mk_screen pos (fun i => if i =? pos then Z.lor 32 0x0700 else crt i))) = Ret tt s' /\
      (0 <= sc_pos s' < 24 * 80) /\ (forall i, ~ (0 <= i < 25 * 80) -> sc_crt s' i = sc_crt s i)).
  { intros pos crt Hpos Hcrt. destruct (Z.ltb_spec pos 0); [lia|]. destruct (Z.ltb_spec (25 * 80) pos); [lia|]. cbn [orb].
    destruct (Z.leb_spec 24 (pos / 80)) as [Hs|Hs]; eexists; (split; [reflexivity|]); cbn [sc_pos sc_crt]; (split; [dlia|]);
      intros i Hi.
    - assert (pos = 1920) by dlia. subst. destruct (Z.eqb_spec i (1920 - 80)); [lia|]. unfold scroll.
      destruct (Z.leb_spec (1920 - 80) i), (Z.ltb_spec i (24 * 80)), (Z.leb_spec 0 i), (Z.ltb_spec i (23 * 80)); cbn [andb]; try lia; auto.
    - destruct (Z.eqb_spec i pos); [lia | auto]. }
  destruct (c =? 10); [apply Hg; [clear -Hp; dlia | auto]|]. destruct (c =? BACKSPACE).
  - apply Hg; [destruct (Z.ltb_spec 0 (sc_pos s)); lia | auto].
  - apply Hg; [lia|]. intros i Hi. destruct (Z.eqb_spec i (sc_pos s)); [lia | reflexivity].
Qed.

(** ** The ring *)

(** [n] bytes of the ring from index [a] on. *)
Definition ring (buf : list Z) (a : Z) (n : nat) : list Z :=
  map (fun i => default 0 (buf !! Z.to_nat ((a + Z.of_nat i) mod INPUT_BUF))) (seq 0 n).

Lemma length_ring buf a n : length (ring buf a n) = n.
Proof. unfold ring. rewrite length_map, length_seq. reflexivity. Qed.
Lemma ring_S buf a n : ring buf a (S n) = default 0 (buf !! Z.to_nat (a mod INPUT_BUF)) :: ring buf (a + 1) n.
Proof.
  unfold ring. cbn [seq map]. rewrite Z.add_0_r. f_equal. rewrite <- seq_shift, map_map. apply map_ext.
  intros i. replace (a + Z.of_nat (S i)) with (a + 1 + Z.of_nat i) by lia. reflexivity.
Qed.
Lemma ring_snoc buf a n : ring buf a (S n) = ring buf a n ++ [default 0 (buf !! Z.to_nat ((a + Z.of_nat n) mod INPUT_BUF))].
Proof. unfold ring. rewrite seq_S, map_app. reflexivity. Qed.
Lemma ring_u32 buf a n : ring buf (u32 a) n = ring buf a n.
Proof.
  unfold ring. apply map_ext. intros i.
  replace ((u32 a + Z.of_nat i) mod INPUT_BUF) with ((a + Z.of_nat i) mod INPUT_BUF); [reflexivity|].
  unfold u32, INPUT_BUF. clear. dlia.
Qed.
(** Writing behind the [n] bytes does not change them. *)
Lemma ring_insert buf a n c : length buf = 128%nat -> (n < 128)%nat ->
  ring (<[Z.to_nat ((a + Z.of_nat n) mod INPUT_BUF) := c]> buf) a (S n) = ring buf a n ++ [c].
Proof.
  intros Hl Hn. rewrite ring_snoc. unfold INPUT_BUF.
  rewrite list_lookup_insert_eq by (rewrite Hl; clear; dlia). cbn [default]. f_equal.
  unfold ring. apply map_ext_in. intros i [_ Hi]%in_seq. unfold INPUT_BUF.
  rewrite list_lookup_insert_ne; [reflexivity|]. clear -Hi Hn. dlia.
Qed.

(** ** What the ring holds *)

(** [comp] are the bytes of the committed lines, [pend] the line being typed. *)
Record holds (s : console) (comp pend : list Z) : Prop := {
  h_len : length (cn_buf s) = 128%nat;
  h_fit : (length comp + length pend <= 128)%nat;
  h_full : pend <> [] -> (length comp + length pend < 128)%nat;
  h_ring : ring (cn_buf s) (cn_r s) (length comp + length pend) = comp ++ pend;
  h_r : 0 <= cn_r s < 2 ^ 32;
  h_w : cn_w s = u32 (cn_r s + Z.of_nat (length comp));
  h_e : cn_e s = u32 (cn_r s + Z.of_nat (length comp + length pend));
  h_line : 10 ∉ pend;
  h_screen : on_screen (cn_screen s);
  h_panicked : cn_panicked s = 0 }.

(** The line editor: what a character does to the two lists. *)
Definition type_char (st : list Z * list Z) (c : Z) : list Z * list Z :=
  let '(comp, pend) := st in
  if c =? Ctl 80 then (comp, pend)                                (* ^P *)
  else if c =? Ctl 85 then (comp, [])                             (* ^U: kill line *)
  else if (c =? Ctl 72) || (c =? 127) then (comp, removelast pend)  (* backspace *)
  else if negb (c =? 0) && (length comp + length pend <? 128)%nat then
    let c := if c =? 13 then 10 else c in
    let pend := pend ++ [c] in
    if (c =? 10) || (c =? Ctl 68) || (length comp + length pend =? 128)%nat
    then (comp ++ pend, []) else (comp, pend)
  else (comp, pend).

Lemma u32_inj_near r a b : 0 <= a <= 128 -> 0 <= b <= 128 -> u32 (r + a) = u32 (r + b) -> a = b.
Proof. unfold u32. intros. dlia. Qed.
Lemma u32_pred r n : u32 (u32 (r + Z.of_nat (S n)) - 1) = u32 (r + Z.of_nat n).
Proof. unfold u32. rewrite Zminus_mod_idemp_l. f_equal. lia. Qed.
Lemma u32_succ a : u32 (u32 a + 1) = u32 (a + 1).
Proof. unfold u32. rewrite Zplus_mod_idemp_l. reflexivity. Qed.

(** consputc() changes the screen and the serial output only. *)
Lemma consputc_ok c s : on_screen (cn_screen s) -> cn_panicked s = 0 ->
  exists sc u, consputc c s = Ret tt (mk_console (cn_lock s) (cn_buf s) (cn_r s) (cn_w s) (cn_e s) (cn_panicked s) sc u) /\
    on_screen sc.
Proof.
  intros Hs Hp. unfold consputc. unfold bind at 1, get at 1. rewrite Hp. cbn [Z.eqb negb].
  assert (Hu : exists u, (if c =? BACKSPACE then uartputc 8 ;! uartputc 32 ;! uartputc 8 else uartputc c) s =
    Ret tt (mk_console (cn_lock s) (cn_buf s) (cn_r s) (cn_w s) (cn_e s) (cn_panicked s) (cn_screen s) u)).
  { destruct (c =? BACKSPACE); eexists; reflexivity. }
  destruct Hu as [u Hu]. destruct (cgaputc_ok c (cn_screen s) Hs) as (sc & E & Ho & _). exists sc, u. split; [|exact Ho].
  rewrite (bind_eq _ _ _ _ _ Hu). unfold zoom. cbn [cn_screen]. rewrite E, Hp. reflexivity.
Qed.

Section Proofs.
Context `{Ctx}.

Lemma holds_out s comp pend sc u : holds s comp pend -> on_screen sc ->
  holds (mk_console (cn_lock s) (cn_buf s) (cn_r s) (cn_w s) (cn_e s) (cn_panicked s) sc u) comp pend.
Proof. intros [] Ho. split; assumption. Qed.

(** The last byte of the line is erased. *)
Lemma erase_ok s comp pend c : holds s comp (pend ++ [c]) ->
  exists s', erase s = Ret tt s' /\ holds s' comp pend /\ cn_lock s' = cn_lock s.
Proof.
  intros Hh. destruct Hh as [Hl Hf Hfu Hr Hrr Hw He Hn Hs Hp].
  assert (Hx : pend ++ [c] <> []) by (destruct pend; discriminate). specialize (Hfu Hx).
  rewrite length_app in *. cbn [length] in *. rewrite Nat.add_1_r, Nat.add_succ_r in *.
  set (s1 := s <| cn_e ::= fun e => u32 (e - 1) |>).
  destruct (consputc_ok BACKSPACE s1 Hs Hp) as (sc & u & E & Ho).
  eexists. split; [exact E|]. split; [|reflexivity]. split; cbn; try assumption; try lia.
  - rewrite ring_snoc, app_assoc in Hr. apply app_inj_tail in Hr as [Hr _]. exact Hr.
  - rewrite He. apply u32_pred.
  - intros Hin. apply Hn, elem_of_app. left. exact Hin.
Qed.

Lemma line_not_empty s comp pend : holds s comp pend -> negb (cn_e s =? cn_w s) = negb (bool_decide (pend = [])).
Proof.
  intros Hh. rewrite (h_e _ _ _ Hh), (h_w _ _ _ Hh). pose proof (h_fit _ _ _ Hh). f_equal.
  destruct pend as [|c pend]; [rewrite Nat.add_0_r, Z.eqb_refl; reflexivity|].
  rewrite bool_decide_false by discriminate. apply Z.eqb_neq. intros E%u32_inj_near; cbn [length] in *; lia.
Qed.
(** The byte in front of the edit index is the last of the line. *)
Lemma last_char s comp pend c : holds s comp (pend ++ [c]) -> buf_at (u32 (cn_e s - 1)) s = Ret c s.
Proof.
  intros [Hl Hf _ Hr Hrr Hw He Hn _ _]. unfold buf_at, bind at 1, get at 1.
  rewrite length_app in *. cbn [length] in *. rewrite Nat.add_1_r, Nat.add_succ_r in *.
  rewrite He, u32_pred. rewrite ring_snoc, app_assoc in Hr. apply app_inj_tail in Hr as [_ Hr].
  assert (Ei : u32 (cn_r s + Z.of_nat (length comp + length pend)) mod INPUT_BUF =
               (cn_r s + Z.of_nat (length comp + length pend)) mod INPUT_BUF) by (unfold u32, INPUT_BUF; clear; dlia).
  rewrite Ei. destruct (lookup_lt_is_Some_2 (cn_buf s) (Z.to_nat ((cn_r s + Z.of_nat (length comp + length pend)) mod INPUT_BUF))) as [x Hx].
  { rewrite Hl. unfold INPUT_BUF. clear. dlia. }
  rewrite Hx in *. cbn [default] in Hr. cbn [deref]. unfold ret. f_equal. exact Hr.
Qed.
Lemma kill_line_ok comp : forall pend fuel s, holds s comp pend -> (length pend <= fuel)%nat ->
  exists s', kill_line fuel s = Ret tt s' /\ holds s' comp [] /\ cn_lock s' = cn_lock s.
Proof.
  intros pend. induction pend as [|c pend IH] using rev_ind; intros fuel s Hh Hf.
  - exists s. destruct fuel; cbn [kill_line]; unfold bind at 1, get at 1, id; rewrite (line_not_empty _ _ _ Hh); auto.
  - assert (Hc : negb (c =? 10) = true).
    { destruct (Z.eqb_spec c 10) as [->|]; [|reflexivity]. exfalso. apply (h_line _ _ _ Hh), elem_of_app. right. left. }
    rewrite length_app in Hf. cbn [length] in Hf. destruct fuel as [|fuel]; [lia|].
    destruct (erase_ok _ _ _ _ Hh) as (s1 & E1 & H1 & L1).
    destruct (IH fuel s1 H1 ltac:(lia)) as (s2 & E2 & H2 & L2). exists s2. split; [|split; [exact H2 | congruence]].
    cbn [kill_line]. unfold bind at 1, get at 1, id. rewrite (line_not_empty _ _ _ Hh), bool_decide_false by (destruct pend; discriminate).
    cbn [negb]. step by (exact (last_char _ _ _ _ Hh)). rewrite Hc. step by (exact E1). exact E2.
Qed.

Lemma room s comp pend : holds s comp pend -> (u32 (cn_e s - cn_r s) <? INPUT_BUF) = (length comp + length pend <? 128)%nat.
Proof.
  intros Hh. rewrite (h_e _ _ _ Hh). pose proof (h_fit _ _ _ Hh) as Hf. pose proof (h_r _ _ _ Hh).
  assert (u32 (u32 (cn_r s + Z.of_nat (length comp + length pend)) - cn_r s) = Z.of_nat (length comp + length pend)) as ->.
  { unfold u32. rewrite Zminus_mod_idemp_l. rewrite Z.mod_small; lia. }
  unfold INPUT_BUF. destruct (Z.ltb_spec (Z.of_nat (length comp + length pend)) 128), (Nat.ltb_spec (length comp + length pend) 128); lia.
Qed.
Lemma insert_char_ok s comp pend c : holds s comp pend -> 0 <= c < 256 ->
  c <> Ctl 80 -> c <> Ctl 85 -> c <> Ctl 72 -> c <> 127 ->
  exists s', insert_char c s = Ret tt s' /\ cn_lock s' = cn_lock s /\
    let st := type_char (comp, pend) c in holds s' (fst st) (snd st).
Proof.
  intros Hh Hc N1 N2 N3 N4. unfold insert_char, type_char. rewrite bind_self. cbv beta.
  rewrite (proj2 (Z.eqb_neq c _) N1), (proj2 (Z.eqb_neq c _) N2), (proj2 (Z.eqb_neq c _) N3), (proj2 (Z.eqb_neq c _) N4). cbn [orb].
  rewrite (room _ _ _ Hh). destruct (negb (c =? 0) && (length comp + length pend <? 128)%nat) eqn:Er; [|exists s; auto].
  apply andb_true_iff in Er as [_ Hroom%Nat.ltb_lt]. set (d := if c =? 13 then 10 else c).
  assert (Hd : 0 <= d < 256) by (unfold d; destruct (c =? 13); lia).
  destruct Hh as [Hl Hf Hfu Hr Hrr Hw He Hn Hs Hp].
  rewrite !bind_modify. cbv beta.
  match goal with |- context [(consputc d ;! ?k) ?x] => set (s1 := x); set (rest := k) end.
  edestruct (consputc_ok d s1 Hs Hp) as (sc & u & E & Ho). rewrite (bind_eq _ _ _ _ _ E).
  assert (Hring : ring (cn_buf s1) (cn_r s1) (length comp + length (pend ++ [d])) = comp ++ pend ++ [d]).
  { change (cn_r s1) with (cn_r s).
    change (cn_buf s1) with (<[Z.to_nat (cn_e s mod INPUT_BUF) := u8 d]> (cn_buf s)).
    rewrite length_app, Nat.add_1_r, Nat.add_succ_r, He, app_assoc, <- Hr.
    assert (u32 (cn_r s + Z.of_nat (length comp + length pend)) mod INPUT_BUF =
            (cn_r s + Z.of_nat (length comp + length pend)) mod INPUT_BUF) as -> by (unfold u32, INPUT_BUF; clear; dlia).
    rewrite (ring_insert _ _ _ _ Hl Hroom). unfold u8. rewrite Z.mod_small by lia. reflexivity. }
  assert (He1 : cn_e s1 = u32 (cn_r s + Z.of_nat (length comp + length (pend ++ [d])))).
  { change (cn_e s1) with (u32 (cn_e s + 1)). rewrite He, u32_succ, length_app. cbn [length]. f_equal. lia. }
  assert (Hl1 : length (cn_buf s1) = 128%nat).
  { change (cn_buf s1) with (<[Z.to_nat (cn_e s mod INPUT_BUF) := u8 d]> (cn_buf s)). rewrite length_insert. exact Hl. }
  assert (Hfull : (cn_e s1 =? u32 (cn_r s + INPUT_BUF)) = (length comp + length (pend ++ [d]) =? 128)%nat).
  { rewrite He1. unfold INPUT_BUF. rewrite length_app in *. cbn [length] in *.
    destruct (Nat.eqb_spec (length comp + (length pend + 1)) 128) as [->|Hne]; [apply Z.eqb_refl|].
    apply Z.eqb_neq. intros Hx%u32_inj_near; lia. }
  unfold rest. rewrite bind_self. cbn [cn_e cn_r]. change (cn_r s1) with (cn_r s) at 1. rewrite Hfull.
  assert (Hle : (length comp + length (pend ++ [d]) <= 128)%nat) by (rewrite length_app; cbn [length]; lia).
  destruct ((d =? 10) || (d =? Ctl 68) || _) eqn:Ec; eexists; (split; [reflexivity|]); (split; [reflexivity|]); cbn [fst snd].
  - assert (Hall : length (comp ++ pend ++ [d]) = (length comp + length (pend ++ [d]))%nat) by apply length_app.
    split; cbn [cn_buf cn_r cn_w cn_e cn_screen cn_panicked length]; rewrite ?Nat.add_0_r, ?Hall; try assumption.
    + congruence.
    + rewrite app_nil_r. exact Hring.
    + apply not_elem_of_nil.
  - apply orb_false_iff in Ec as [[Ec10 _]%orb_false_iff Ecf]. apply Nat.eqb_neq in Ecf.
    split; cbn [cn_buf cn_r cn_w cn_e cn_screen cn_panicked]; try assumption; try lia.
    intros [Hin|Hin]%elem_of_app; [exact (Hn Hin)|]. apply elem_of_cons in Hin as [<-|Hin]; [discriminate Ec10 | apply elem_of_nil in Hin; destruct Hin].
Qed.

Lemma handle_char_ok s comp pend c : holds s comp pend -> 0 <= c < 256 ->
  exists d s', handle_char c s = Ret d s' /\ cn_lock s' = cn_lock s /\
    let st := type_char (comp, pend) c in holds s' (fst st) (snd st).
Proof.
  intros Hh Hc. unfold handle_char. destruct (Z.eqb_spec c (Ctl 80)) as [->|N1]; [exists true, s; auto|].
  destruct (Z.eqb_spec c (Ctl 85)) as [->|N2].
  { destruct (kill_line_ok comp pend (Z.to_nat INPUT_BUF) s Hh) as (s' & E & H' & L).
    { pose proof (h_fit _ _ _ Hh). change (Z.to_nat INPUT_BUF) with 128%nat. lia. }
    exists false, s'. split; [step by (exact E); reflexivity | auto]. }
  destruct ((c =? Ctl 72) || (c =? 127)) eqn:Eb.
  - assert (Et : type_char (comp, pend) c = (comp, removelast pend)).
    { unfold type_char. rewrite (proj2 (Z.eqb_neq c _) N1), (proj2 (Z.eqb_neq c _) N2), Eb. reflexivity. }
    rewrite Et. cbn [fst snd]. rewrite bind_self. rewrite (line_not_empty _ _ _ Hh).
    destruct pend as [|x pend _] using rev_ind; [exists false, s; auto|].
    rewrite bool_decide_false by (destruct pend; discriminate). cbn [negb].
    destruct (erase_ok _ _ _ _ Hh) as (s' & E & H' & L). exists false, s'. rewrite removelast_last.
    split; [step by (exact E); reflexivity | auto].
  - apply orb_false_iff in Eb as [N3%Z.eqb_neq N4%Z.eqb_neq].
    destruct (insert_char_ok s comp pend c Hh Hc N1 N2 N3 N4) as (s' & E & L & H').
    exists false, s'. split; [step by (exact E); reflexivity | auto].
Qed.
Lemma handle_chars_ok : forall getc s comp pend b, holds s comp pend -> Forall (fun c => 0 <= c < 256) getc ->
  exists d s', handle_chars getc b s = Ret d s' /\ cn_lock s' = cn_lock s /\
    let st := fold_left type_char getc (comp, pend) in holds s' (fst st) (snd st).
Proof.
  induction getc as [|c getc IH]; intros s comp pend b Hh Hc; [exists b, s; auto|].
  inversion Hc as [|? ? Hc0 Hcs]; subst. cbn [handle_chars fold_left].
  destruct (Z.ltb_spec c 0); [lia|]. destruct (handle_char_ok s comp pend c Hh Hc0) as (d & s1 & E & L & H1).
  destruct (type_char (comp, pend) c) as [comp1 pend1] eqn:Et. cbn [fst snd] in H1.
  destruct (IH s1 comp1 pend1 (b || d) H1 Hcs) as (d' & s' & E' & L' & H').
  exists d', s'. split; [step by (exact E); exact E' | split; [congruence | exact H']].
Qed.

(** The reader's part: at most [n] bytes of a line, the rest of the input. *)
Fixpoint take_line (n : nat) (got : bool) (comp : list Z) : list Z * list Z :=
  match n, comp with
  | S n', c :: rest =>
      if c =? Ctl 68 then ([], if got then comp else rest)
      else if c =? 10 then ([c], rest)
      else let '(bytes, rest') := take_line n' true rest in (c :: bytes, rest')
  | _, _ => ([], comp)
  end.
(** The reader need not wait. *)
Fixpoint ready (n : nat) (comp : list Z) : bool :=
  match n, comp with
  | O, _ => true
  | S _, [] => false
  | S n', c :: rest => (c =? Ctl 68) || (c =? 10) || ready n' rest
  end.

Lemma pop_ok s c comp pend : holds s (c :: comp) pend ->
  buf_at (cn_r s) s = Ret c s /\ (cn_r s =? cn_w s) = false /\
  holds (mk_console (cn_lock s) (cn_buf s) (u32 (cn_r s + 1)) (cn_w s) (cn_e s) (cn_panicked s) (cn_screen s) (cn_uart s)) comp pend.
Proof.
  intros [Hl Hf Hfu Hr Hrr Hw He Hn Hs Hp]. cbn [length app] in *. rewrite Nat.add_succ_l, ring_S in Hr.
  injection Hr as Hc Hr. split; [|split].
  - unfold buf_at. rewrite bind_get.
    destruct (lookup_lt_is_Some_2 (cn_buf s) (Z.to_nat (cn_r s mod INPUT_BUF))) as [x Hx].
    { rewrite Hl. unfold INPUT_BUF. clear. dlia. }
    rewrite Hx in *. cbn [default id from_option] in Hc. subst. reflexivity.
  - apply Z.eqb_neq. rewrite Hw. intros E. rewrite <- (Z.mod_small (cn_r s) (2 ^ 32) Hrr) in E at 1.
    change (cn_r s mod 2 ^ 32) with (u32 (cn_r s)) in E. rewrite <- (Z.add_0_r (cn_r s)) in E at 1. apply u32_inj_near in E; lia.
  - split; cbn [cn_buf cn_r cn_w cn_e cn_screen cn_panicked]; try assumption; try lia.
    + rewrite ring_u32. exact Hr.
    + apply Z.mod_pos_bound. lia.
    + rewrite Hw. unfold u32. rewrite Zplus_mod_idemp_l. f_equal. lia.
    + rewrite He. unfold u32. rewrite Zplus_mod_idemp_l. f_equal. lia.
Qed.

Lemma read_line_ok env k : forall n got s comp pend, holds s comp pend -> ready n comp = true ->
  exists s', read_line n got env (mk_cctx s k) = Ret (Some (fst (take_line n got comp))) (mk_cctx s' k) /\
    cn_lock s' = cn_lock s /\ holds s' (snd (take_line n got comp)) pend.
Proof.
  induction n as [|n IH]; intros got s comp pend Hh Hr; [exists s; auto|]. destruct comp as [|c comp]; [discriminate Hr|].
  destruct (pop_ok _ _ _ _ Hh) as (Eb & Ew & Hp). set (s1 := mk_console _ _ _ _ _ _ _ _) in Hp.
  assert (Ewait : wait_input env (mk_cctx s k) = Ret (Some env) (mk_cctx s k)).
  { destruct env; cbn [wait_input]; rewrite bind_self; cbn [cc_cons]; rewrite Ew; reflexivity. }
  assert (Er : in_cons (buf_at (cn_r s)) (mk_cctx s k) = Ret c (mk_cctx s k)).
  { unfold in_cons, zoom. cbn [cc_cons]. rewrite Eb. reflexivity. }
  cbn [read_line take_line ready] in *. step by (exact Ewait). step by (reflexivity). cbn [cc_cons].
  step by (exact Er). step by (instantiate (1 := mk_cctx s1 k); reflexivity).
  destruct (Z.eqb_spec c (Ctl 68)) as [->|N1].
  - cbn [fst snd]. destruct got.
    + exists s. split; [|auto]. step by (instantiate (1 := mk_cctx s k); destruct s; reflexivity). reflexivity.
    + exists s1. split; [reflexivity | auto].
  - destruct (Z.eqb_spec c 10) as [->|N2]; [exists s1; auto|]. cbn [orb] in Hr.
    destruct (IH true s1 comp pend Hp Hr) as (s' & E & L & H').
    destruct (take_line n true comp) as [bytes rest]. cbn [fst snd] in *.
    exists s'. split; [step by (exact E); reflexivity | auto].
Qed.
End Proofs.

(** C22. The console is a line editor over a ring of 128 bytes.  Whatever
    characters come in, consoleintr() returns, with the lock free and the
    cursor on the screen, and the ring holds exactly what the editor [type_char] makes
    of them: ^U drops the line, backspace its last byte, carriage return
    counts as newline, newline and ^D commit the line, and so does a full
    ring; nothing typed into a full ring overwrites committed bytes. *)
Theorem console_edits `{Ctx} (s : console) (comp pend getc : list Z) :
  holds s comp pend -> cn_lock s = None -> Forall (fun c => 0 <= c < 256) getc ->
  exists d s', consoleintr getc s = Ret d s' /\ cn_lock s' = None /\
    let st := fold_left type_char getc (comp, pend) in holds s' (fst st) (snd st).
Proof.
  intros Hh Hl Hc. unfold consoleintr.
  set (s1 := s <| cn_lock := Some cpu_id |>).
  assert (El : lock_cons s = Ret tt s1) by (unfold lock_cons, zoom; rewrite Hl; reflexivity).
  assert (H1 : holds s1 comp pend) by (destruct Hh; split; assumption).
  destruct (handle_chars_ok getc s1 comp pend false H1 Hc) as (d & s2 & E & L & H2).
  exists d, (s2 <| cn_lock := None |>). split; [|split; [reflexivity | destruct H2; split; assumption]].
  step by (exact El). step by (exact E).
  step by (unfold unlock_cons, zoom; rewrite L; change (cn_lock s1) with (Some cpu_id); rewrite release_mine; reflexivity).
  reflexivity.
Qed.

(** consoleread() delivers the committed bytes in order, at most one line
    and at most [n] of them: up to and including the newline, or up to ^D,
    which is consumed by the read that returns no bytes, so that it means
    end of file exactly once.  It does not sleep when that much is there. *)
Theorem consoleread_lines `{Ctx} (env : list (cctx -> cctx)) (s : console) (k : Z) (comp pend : list Z) (n : Z) :
  holds s comp pend -> cn_lock s = None -> ready (Z.to_nat n) comp = true ->
  let '(bytes, rest) := take_line (Z.to_nat n) false comp in
  exists s', consoleread env n (mk_cctx s k) = Ret (Z.of_nat (length bytes), bytes) (mk_cctx s' k) /\
    cn_lock s' = None /\ holds s' rest pend.
Proof.
  intros Hh Hl Hr. set (s1 := s <| cn_lock := Some cpu_id |>).
  assert (El : in_cons lock_cons (mk_cctx s k) = Ret tt (mk_cctx s1 k)) by (unfold in_cons, lock_cons, zoom; cbn [cc_cons]; rewrite Hl; reflexivity).
  assert (H1 : holds s1 comp pend) by (destruct Hh; split; assumption).
  destruct (read_line_ok env k _ false s1 comp pend H1 Hr) as (s2 & E & L & H2).
  destruct (take_line (Z.to_nat n) false comp) as [bytes rest]. cbn [fst snd] in *.
  exists (s2 <| cn_lock := None |>). split; [|split; [reflexivity | destruct H2; split; assumption]].
  unfold consoleread. step by (exact El). step by (exact E).
  step by (unfold in_cons, unlock_cons, zoom; cbn [cc_cons]; rewrite L; change (cn_lock s1) with (Some cpu_id); rewrite release_mine; reflexivity).
  reflexivity.
Qed.

(** An empty console, and the typing of "lx", backspace, "s", return. *)
Definition fresh_console : console :=
  mk_console None (replicate 128 0) 0 0 0 0 (mk_screen 0 (fun _ => 0x720)) [].
Lemma fresh_holds : holds fresh_console [] [].
Proof. split; try reflexivity; try (vm_compute; split; congruence); cbn; try lia; try congruence. apply not_elem_of_nil. Qed.
Definition typed : list Z := str "lx" ++ [8] ++ str "s" ++ [13].

Example console_edits_witness : let C : Ctx := {| cpu_id := 0; cur_pid := 1 |} in
  exists d s', consoleintr typed fresh_console = Ret d s' /\ holds s' (str "ls" ++ [10]) [].
Proof.
  intros C. destruct (console_edits fresh_console [] [] typed fresh_holds eq_refl) as (d & s' & E & _ & H').
  - repeat constructor; discriminate.
  - exists d, s'. split; [exact E | exact H'].
Defined.

Example consoleread_lines_witness : let C : Ctx := {| cpu_id := 0; cur_pid := 1 |} in
  exists s s', consoleread [] 100 (mk_cctx s 0) = Ret (3, str "ls" ++ [10]) (mk_cctx s' 0).
Proof.
  intros C. destruct (console_edits fresh_console [] [] typed fresh_holds eq_refl) as (d & s' & _ & L & H').
  { repeat constructor; discriminate. }
  destruct (consoleread_lines [] s' 0 _ _ 100 H' L eq_refl) as (s2 & E & _). exists s', s2. exact E.
Defined.
