(* ===== verification/Stab.v ===== *)
(** * JOS: debugging information

    [src/labs/lab02-mem-management/kern/kdebug.c]: the binary search in a
    table of stabs of several types, and debuginfo_eip() on top of it. *)
From S2P Require Import Prelude.
From S2P Require Import Ulib.

(** struct Stab *)
Record Stab := mk_stab { n_strx : Z; n_type : Z; n_other : Z; n_desc : Z; n_value : Z }.
Definition N_FUN : Z := 0x24.
Definition N_SLINE : Z := 0x44.
Definition N_SO : Z := 0x64.
Definition N_SOL : Z := 0x84.
Definition N_PSYM : Z := 0xa0.
Definition ULIM : Z := 0xef800000.

Section Code.
(** The table, and what memory holds around it: C indexes it with any [int]. *)
Variable stabs : Z -> Stab.

(** [while (m >= l && stabs[m].n_type != type) m--;] *)
Fixpoint scan_down (n : nat) (l m type : Z) : Z :=
  match n with
  | O => m
  | S n' => if (l <=? m) && negb (n_type (stabs m) =? type) then scan_down n' l (m - 1) type else m
  end.

(** The search loop ([int]s that do not overflow: a table has fewer than
    2^30 stabs), from [l], [r], [any_matches], [*region_left],
    [*region_right] and [addr]; [None] when it takes more than [fuel] rounds. *)
Fixpoint search (fuel : nat) (type l r left right addr : Z) (any : bool) : option (Z * Z * bool) :=
  if l <=? r then
    match fuel with
    | O => None
    | S fuel' =>
        let true_m := Z.quot (l + r) 2 in
        (* search for earliest stab with right type *)
        let m := scan_down (Z.to_nat (true_m - l + 1)) l true_m type in
        if m <? l then search fuel' type (true_m + 1) r left right addr any  (* no match in [l, m] *)
        else
          (* actual binary search *)
          let v := n_value (stabs m) in
          if v <? addr then search fuel' type (true_m + 1) r m right addr true
          else if addr <? v then search fuel' type l (m - 1) left (m - 1) addr true
          else
            (* exact match for 'addr', but continue loop to find *region_right *)
            search fuel' type m r m right (u32 (addr + 1)) true
    end
  else Some (left, right, any).

(** [for (l = *region_right; l > *region_left && stabs[l].n_type != type; l--)] *)
Fixpoint scan_left (n : nat) (l left type : Z) : Z :=
  match n with
  | O => l
  | S n' => if (left <? l) && negb (n_type (stabs l) =? type) then scan_left n' (l - 1) left type else l
  end.

Definition stab_binsearch (fuel : nat) (left right type addr : Z) : option (Z * Z) :=
  match search fuel type left right left right addr false with
  | None => None
  | Some (rl, rr, any) =>
      if negb any then Some (rl, rl - 1)
      else (* find rightmost region containing 'addr' *)
        Some (scan_left (Z.to_nat (rr - rl)) rr rl type, rr)
  end.

(** *** debuginfo_eip() *)

(** The string table; a name is an offset into it, [None] is "<unknown>". *)
Record Eipdebuginfo := mk_info {
  eip_file : option Z; eip_line : Z; eip_fn_name : option Z; eip_fn_namelen : Z; eip_fn_addr : Z; eip_fn_narg : Z }.

(** strfind(s, c) - s *)
Fixpoint strfind (s : list Z) (c : Z) : Z :=
  match s with
  | [] => 0
  | x :: s' => if (x =? 0) || (x =? c) then 0 else 1 + strfind s' c
  end.

(** The backward search for the file name. *)
Fixpoint find_file (n : nat) (lline lfile : Z) : Z :=
  match n with
  | O => lline
  | S n' =>
      let s := stabs lline in
      if (lfile <=? lline) && negb (n_type s =? N_SOL) && (negb (n_type s =? N_SO) || (n_value s =? 0))
      then find_file n' (lline - 1) lfile else lline
  end.
(** The parameters that follow the function. *)
Fixpoint count_params (n : nat) (lline rfun : Z) : Z :=
  match n with
  | O => 0
  | S n' => if (lline <? rfun) && (n_type (stabs lline) =? N_PSYM) then 1 + count_params n' (lline + 1) rfun else 0
  end.

(** The size of the table, and the string table. *)
Variables (nstab : Z) (stabstr : list Z).

(** The result (0 or -1) and the information stored; [None] when the search
    runs out of [fuel]. *)
Definition debuginfo_eip (fuel : nat) (addr : Z) : res unit (option (Z * Eipdebuginfo)) :=
  let info := mk_info None 0 None 9 addr 0 in
  if addr <? ULIM then Stop (Panicked "User address") tt else
  (* String table validity checks *)
  if (length stabstr =? 0)%nat || negb (bool_decide (last stabstr = Some 0)) then Ret (Some (-1, info)) tt else
  Ret (
    match stab_binsearch fuel 0 (nstab - 1) N_SO addr with
    | None => None
    | Some (lfile, rfile) =>
        if lfile =? 0 then Some (-1, info) else
        match stab_binsearch fuel lfile rfile N_FUN addr with
        | None => None
        | Some (lfun, rfun) =>
            let found := lfun <=? rfun in
            let fn := stabs lfun in
            let name := if found && (n_strx fn <? Z.of_nat (length stabstr)) then Some (n_strx fn) else None in
            let fn_addr := if found then n_value fn else addr in
            let addr' := if found then u32 (addr - n_value fn) else addr in
            let namelen := match name with
                           | Some x => strfind (drop (Z.to_nat x) stabstr) 58
                           | None => 9
                           end in
            match stab_binsearch fuel (if found then lfun else lfile) (if found then rfun else rfile) N_SLINE addr' with
            | None => None
            | Some (lline, rline) =>
                if lline <=? rline then
                  let k := find_file (Z.to_nat (lline - lfile + 1)) lline lfile in
                  let file := if (lfile <=? k) && (n_strx (stabs k) <? Z.of_nat (length stabstr))
                              then Some (n_strx (stabs k)) else None in
                  let narg := if lfun <? rfun then count_params (Z.to_nat (rfun - lfun)) (lfun + 1) rfun else 0 in
                  Some (0, mk_info file (n_desc (stabs lline)) name namelen fn_addr narg)
                else Some (-1, mk_info None 0 name namelen fn_addr 0)
            end
        end
    end) tt.
End Code.

(** ** The search is right *)

Section Proofs.
Variables (stabs : Z -> Stab) (type : Z).
#[local] Abbreviation val i := (n_value (stabs i)).
#[local] Abbreviation typed i := (n_type (stabs i) = type).

Lemma scan_down_spec l : forall n m, (m - l + 1 <= Z.of_nat n) -> let k := scan_down stabs n l m type in
  k <= m /\ (forall j, k < j <= m -> l <= j -> ~ typed j) /\ (k < l \/ typed k) /\ (l <= m + 1 -> l <= k + 1).
Proof.
  induction n as [|n IH]; intros m Hn; cbn [scan_down].
  - repeat split; lia.
  - destruct (Z.leb_spec l m) as [Hl|Hl]; cbn [andb]; [|repeat split; lia].
    destruct (Z.eqb_spec (n_type (stabs m)) type) as [E|E]; cbn [negb]; [repeat split; try lia; auto|].
    destruct (IH (m - 1) ltac:(lia)) as (H1 & H2 & H3 & H4). repeat split; [lia | | exact H3 | lia].
    intros j Hj Hlj. destruct (decide (j = m)) as [->|]; [exact E | apply H2; lia].
Qed.
Lemma scan_left_spec left : forall n r, (r - left <= Z.of_nat n) -> let k := scan_left stabs n r left type in
  k <= r /\ (forall j, k < j <= r -> ~ typed j) /\ (k <= left \/ typed k) /\ (left <= r -> left <= k).
Proof.
  induction n as [|n IH]; intros r Hn; cbn [scan_left].
  - repeat split; lia.
  - destruct (Z.ltb_spec left r) as [Hl|Hl]; cbn [andb]; [|repeat split; lia].
    destruct (Z.eqb_spec (n_type (stabs r)) type) as [E|E]; cbn [negb]; [repeat split; try lia; auto|].
    destruct (IH (r - 1) ltac:(lia)) as (H1 & H2 & H3 & H4). repeat split; [lia | | exact H3 | lia].
    intros j Hj. destruct (decide (j = r)) as [->|]; [exact E | apply H2; lia].
Qed.

Variables (L R a : Z).
(** Stabs of the type are in increasing order of their addresses. *)
Definition ordered : Prop := forall i j, L <= i <= j -> j <= R -> typed i -> typed j -> val i <= val j.
(** The next address is not the start of a stab when [a] is. *)
Definition apart : Prop := forall i j, L <= i <= R -> L <= j <= R -> typed i -> typed j -> val i = a -> val j <> a + 1.

(** [k] is the last stab of the type in [L, R] that starts at [a] or before. *)
Definition last_start (k : Z) : Prop :=
  L <= k <= R /\ typed k /\ val k <= a /\ forall j, k < j <= R -> typed j -> a < val j.

(** The state of the loop: below [l] all stabs start at [a] or before, above
    [r] all start behind it; [b] is the address that is compared. *)
Record inv (l r left right b : Z) (any : bool) : Prop := {
  i_range : L <= l <= r + 1 /\ r <= R;
  i_right : r = right;
  i_b : b = a \/ (b = a + 1 /\ any = true /\ exists i, L <= i < R + 1 /\ typed i /\ val i = a);
  i_low : forall j, L <= j < l -> typed j -> val j <= a;
  i_high : forall j, r < j <= R -> typed j -> a < val j;
  i_left : (left = L /\ (forall j, L <= j < l -> ~ typed j)) \/
           (L <= left <= l /\ left <= r /\ typed left /\ val left <= a /\ any = true /\ forall j, left < j < l -> ~ typed j);
  i_next : right = R \/ (L <= right + 1 <= R /\ typed (right + 1));
  i_some : any = true -> exists i, L <= i <= R /\ typed i;
  i_any : any = false -> right = R /\ left = L /\ b = a /\ forall j, L <= j < l -> ~ typed j }.

(** Enough rounds: one for each element, and one for the exact match. *)
Definition rounds (l r b : Z) : Z := r - l + 1 + (if b =? a then 1 else 0).

Hypothesis HL : 0 <= L.
Hypothesis Hord : ordered.
Hypothesis Hapart : apart.
Hypothesis Ha : 0 <= a < 2 ^ 32 - 1.

(** One round: nothing of the type at the middle or on its left... *)
Lemma inv_none l r left right b any true_m : inv l r left right b any -> l <= true_m <= r ->
  (forall j, l <= j <= true_m -> ~ typed j) -> inv (true_m + 1) r left right b any.
Proof.
  intros [Hrange Hright Hb Hlow Hhigh Hleft Hnext Hsome Hany] Hm Hno. split; auto; try lia.
  - intros j Hj Tj. destruct (Z_lt_le_dec j l); [apply Hlow; auto; lia | exfalso; apply (Hno j); auto; lia].
  - destruct Hleft as [[-> Hn]|(H1 & H2 & H3 & H4 & H5 & H6)].
    + left. split; [reflexivity|]. intros j Hj. destruct (Z_lt_le_dec j l); [apply Hn; lia | apply Hno; lia].
    + right. repeat split; auto; try lia. intros j Hj. destruct (Z_lt_le_dec j l); [apply H6; lia | apply Hno; lia].
  - intros E. destruct (Hany E) as (E1 & E2 & E3 & E4). repeat split; auto.
    intros j Hj. destruct (Z_lt_le_dec j l); [apply E4; lia | apply Hno; lia].
Qed.
(** ... the stab found at [m] starts before the address... *)
Lemma inv_before l r left right b any true_m m : inv l r left right b any -> l <= m <= true_m -> true_m <= r ->
  typed m -> (forall j, m < j <= true_m -> ~ typed j) -> val m < b -> inv (true_m + 1) r m right b true.
Proof.
  intros [Hrange Hright Hb Hlow Hhigh Hleft Hnext Hsome Hany] Hm Hm2 Tm Hno Hv.
  assert (Hva : val m <= a) by (destruct Hb as [->|[-> _]]; lia). split; auto; try lia.
  - destruct Hb as [->|(E & _ & Hex)]; auto.
  - intros j Hj Tj. destruct (Z_le_gt_dec j m).
    + etransitivity; [apply (Hord j m); auto; lia | exact Hva].
    + exfalso. apply (Hno j); auto; lia.
  - right. repeat split; auto; try lia. intros j Hj. apply Hno. lia.
  - exists m. split; [lia | exact Tm].
Qed.
(** ... or behind it... *)
Lemma inv_behind l r left right b any m : inv l r left right b any -> l <= m <= r ->
  typed m -> b < val m -> inv l (m - 1) left (m - 1) b true.
Proof.
  intros [Hrange Hright Hb Hlow Hhigh Hleft Hnext Hsome Hany] Hm Tm Hv.
  assert (Hva : a < val m) by (destruct Hb as [->|[-> _]]; lia). split; auto; try lia.
  - destruct Hb as [->|(E & _ & Hex)]; auto.
  - intros j Hj Tj. destruct (Z_lt_le_dec r j); [apply Hhigh; auto; lia|].
    eapply Z.lt_le_trans; [exact Hva | apply (Hord m j); auto; lia].
  - destruct Hleft as [?|(H1 & H2 & H3 & H4 & H5 & H6)]; [auto|]. right.
    assert (left <> m) by (intros ->; lia). repeat split; auto; lia.
  - right. replace (m - 1 + 1) with m by lia. split; [lia | exact Tm].
  - exists m. split; [lia | exact Tm].
Qed.
(** ... or at it: the search goes on with the next address. *)
Lemma inv_match l r left right b any m : inv l r left right b any -> l <= m <= r ->
  typed m -> val m = b -> b = a /\ inv m r m right (u32 (b + 1)) true.
Proof.
  intros [Hrange Hright Hb Hlow Hhigh Hleft Hnext Hsome Hany] Hm Tm Hvb.
  assert (Eb : b = a).
  { destruct Hb as [->|(-> & _ & i & Hi & Ti & Vi)]; [reflexivity|]. exfalso. apply (Hapart i m); auto; lia. }
  split; [exact Eb|]. assert (Hva : val m = a) by lia. clear Hvb. subst b.
  assert (Eu : u32 (a + 1) = a + 1) by (unfold u32; apply Z.mod_small; lia). rewrite Eu.
  split; auto; try lia.
  - right. split; [reflexivity|]. split; [reflexivity|]. exists m. split; [lia|]. split; [exact Tm | exact Hva].
  - intros j Hj Tj. rewrite <- Hva. apply (Hord j m); auto; lia.
  - right. repeat split; auto; try lia.
  - exists m. split; [lia | exact Tm].
Qed.

Lemma search_inv : forall fuel l r left right b any, inv l r left right b any -> (rounds l r b <= Z.of_nat fuel) ->
  exists left' right' b' any', search stabs fuel type l r left right b any = Some (left', right', any') /\
    inv (right' + 1) right' left' right' b' any'.
Proof.
  assert (Hstop : forall l r left right b any, inv l r left right b any -> r < l -> inv (right + 1) right left right b any).
  { intros l r left right b any Hi Hl. destruct (i_range _ _ _ _ _ _ Hi), (i_right _ _ _ _ _ _ Hi).
    replace (r + 1) with l by lia. exact Hi. }
  induction fuel as [|fuel IH]; intros l r left right b any Hi Hf; cbn [search];
    (destruct (Z.leb_spec l r) as [Hl|Hl]; [|exists left, right, b, any; split; [reflexivity | eapply Hstop; eauto]]).
  - unfold rounds in Hf. destruct (b =? a); lia.
  - assert (Hq : 0 <= l + r) by (destruct (i_range _ _ _ _ _ _ Hi); lia).
    assert (Hm : l <= Z.quot (l + r) 2 <= r) by (rewrite Z.quot_div_nonneg by lia; clear -Hl; dlia).
    set (true_m := Z.quot (l + r) 2) in *.
    destruct (scan_down_spec l (Z.to_nat (true_m - l + 1)) true_m ltac:(lia)) as (Hk1 & Hk2 & Hk3 & Hk4).
    set (m := scan_down stabs _ l true_m type) in *. unfold rounds in Hf.
    destruct (Z.ltb_spec m l) as [Hml|Hml].
    { apply IH; [|unfold rounds; lia]. apply (inv_none l); auto. intros j Hj. apply Hk2; lia. }
    destruct Hk3 as [Hk3|Tm]; [lia|].
    destruct (Z.ltb_spec (val m) b) as [Hv|Hv].
    { apply IH; [|unfold rounds; lia]. apply (inv_before l r left right b any true_m m Hi); auto; [lia.. |]. intros j Hj. apply Hk2; lia. }
    destruct (Z.ltb_spec b (val m)) as [Hv2|Hv2].
    { apply IH; [|unfold rounds; lia]. apply (inv_behind l r left right b any m Hi); auto; lia. }
    destruct (inv_match l r left right b any m Hi) as [-> Hi']; [lia | exact Tm | lia |].
    apply IH; [exact Hi'|]. rewrite Z.eqb_refl in Hf. unfold rounds.
    assert (E : u32 (a + 1) = a + 1) by (unfold u32; apply Z.mod_small; lia).
    rewrite E. destruct (Z.eqb_spec (a + 1) a); lia.
Qed.

Lemma binsearch_result fuel : L <= R + 1 -> R - L + 2 <= Z.of_nat fuel ->
  exists left' right', stab_binsearch stabs fuel L R type a = Some (left', right') /\
    ((forall j, L <= j <= R -> ~ typed j) -> left' = L /\ right' = L - 1) /\
    (forall k, last_start k ->
       left' = k /\ k <= right' <= R /\ (forall j, k < j <= right' -> ~ typed j) /\ (right' = R \/ typed (right' + 1))) /\
    (forall i, L <= i <= R -> typed i -> (forall j, L <= j <= R -> typed j -> a < val j) ->
       left' <= right' < i).
Proof.
  intros HLR Hf.
  assert (Hi0 : inv L R L R a false).
  { split; auto; try lia; [left; split; [reflexivity | lia] | intros _; repeat split; auto; lia]. }
  destruct (search_inv fuel L R L R a false Hi0) as (left & right & b & any & Es & Hi).
  { unfold rounds. rewrite Z.eqb_refl. lia. }
  destruct Hi as [[Hr1 Hr2] _ _ Hlow Hhigh Hleft Hnext Hsome Hany]. unfold stab_binsearch. rewrite Es.
  destruct any; cbn [negb].
  - destruct (scan_left_spec left (Z.to_nat (right - left)) right ltac:(lia)) as (Hs1 & Hs2 & Hs3 & Hs4).
    set (k' := scan_left _ _ _ _ _) in *. exists k', right. split; [reflexivity|].
    split; [intros Hno; destruct (Hsome eq_refl) as (i & Hi & Ti); destruct (Hno i Hi Ti)|]. split.
    + intros k ((Hk1 & Hk2) & Tk & Vk & Hk3).
      assert (k <= right) by (destruct (Z_le_gt_dec k right); [lia | specialize (Hhigh k ltac:(lia) Tk); lia]).
      destruct Hleft as [[-> Hn]|(H1 & H2 & H3 & H4 & H5 & H6)]; [destruct (Hn k ltac:(lia) Tk)|].
      assert (Tk' : typed k' /\ L <= k') by (destruct Hs3 as [Hs3|Hs3]; [replace k' with left by lia | ]; split; auto; lia).
      destruct Tk' as [Tk' Lk'].
      assert (E : k' = k).
      { apply Z.le_antisymm.
        - apply Z.le_ngt. intros Hlt. specialize (Hk3 k' ltac:(lia) Tk'). specialize (Hlow k' ltac:(lia) Tk'). lia.
        - apply Z.le_ngt. intros Hlt. apply (Hs2 k ltac:(lia) Tk). }
      rewrite <- E. split; [reflexivity|]. split; [lia|]. split; [exact Hs2|]. destruct Hnext as [?|[_ ?]]; auto.
    + intros i Hi Ti Hall. split; [exact Hs1|].
      apply Z.lt_nge. intros Hle. specialize (Hlow i ltac:(lia) Ti). specialize (Hall i Hi Ti). lia.
  - destruct (Hany eq_refl) as (-> & -> & -> & Hno). exists L, (L - 1). split; [reflexivity|].
    split; [auto|]. split.
    + intros k ((Hk1 & Hk2) & Tk & _). destruct (Hno k ltac:(lia) Tk).
    + intros i Hi Ti _. destruct (Hno i ltac:(lia) Ti).
Qed.
End Proofs.

(** [stabs] and [type] sorted for a search of [L, R], as kdebug.c documents:
    in increasing order, and the address after [a] is not the start of a stab
    when [a] is one (see [binsearch_adjacent]). *)
Definition searchable (stabs : Z -> Stab) (type L R a : Z) : Prop :=
  ordered stabs type L R /\ apart stabs type L R a /\ 0 <= L <= R + 1 /\ 0 <= a < 2 ^ 32 - 1.

(** stab_binsearch() terminates within one round more than the range
    has elements and finds the stab that contains the address: when [k] is the
    last stab of the type that starts at the address or before it, the left
    end becomes [k] and the right end lies just before the next stab of the
    type (or is the end of the range); when the range has no stab of the type
    the left end becomes greater than the right one. *)
Theorem stab_binsearch_spec stabs type L R a fuel :
  searchable stabs type L R a -> R - L + 2 <= Z.of_nat fuel ->
  exists left' right', stab_binsearch stabs fuel L R type a = Some (left', right') /\
    ((forall j, L <= j <= R -> n_type (stabs j) <> type) -> right' < left') /\
    (forall k, last_start stabs type L R a k ->
       left' = k /\ k <= right' <= R /\ (forall j, k < j <= right' -> n_type (stabs j) <> type) /\
       (right' = R \/ n_type (stabs (right' + 1)) = type)).
Proof.
  intros (Hord & Hapart & [HL HLR] & Ha) Hf.
  destruct (binsearch_result stabs type L R a HL Hord Hapart Ha fuel HLR Hf) as (l & r & E & H1 & H2 & _).
  exists l, r. split; [exact E|]. split; [|exact H2]. intros Hno. destruct (H1 Hno) as [-> ->]. lia.
Qed.

(** A table of three source files with lines between them. *)
Definition demo_stabs (i : Z) : Stab :=
  nth (Z.to_nat i)
    [mk_stab 1 N_SO 0 0 0xf0100000; mk_stab 0 N_SLINE 0 1 0xf0100004; mk_stab 2 N_SO 0 0 0xf0100040;
     mk_stab 0 N_SLINE 0 2 0; mk_stab 0 N_SLINE 0 3 6; mk_stab 3 N_SO 0 0 0xf0100176] (mk_stab 0 0 0 0 0).
Lemma demo_cases (P : Z -> Prop) i : P 0 -> P 1 -> P 2 -> P 3 -> P 4 -> P 5 -> 0 <= i <= 5 -> P i.
Proof.
  intros. assert (i = 0 \/ i = 1 \/ i = 2 \/ i = 3 \/ i = 4 \/ i = 5) as Hi by lia.
  destruct Hi as [->|[->|[->|[->|[->| ->]]]]]; assumption.
Qed.
Lemma demo_searchable : searchable demo_stabs N_SO 0 5 0xf0100060.
Proof.
  split; [|split; [|lia]].
  - intros i j Hi Hj. assert (0 <= j <= 5) as Hj5 by lia. assert (0 <= i <= 5) as Hi5 by lia.
    revert Hi. pattern i. apply demo_cases; try exact Hi5; pattern j; apply demo_cases; try exact Hj5;
      vm_compute; intuition congruence.
  - intros i j Hi Hj _ _. pattern i. apply demo_cases; try exact Hi; intros E; vm_compute in E; discriminate E.
Qed.
Lemma stab_binsearch_spec_witness :
  exists left' right', stab_binsearch demo_stabs 7 0 5 N_SO 0xf0100060 = Some (left', right') /\ left' = 2 /\ 2 <= right'.
Proof.
  destruct (stab_binsearch_spec demo_stabs N_SO 0 5 0xf0100060 7 demo_searchable ltac:(lia)) as (l & r & E & _ & Hk).
  exists l, r. split; [exact E|]. destruct (Hk 2) as (-> & Hr & _); [|lia].
  split; [lia|]. split; [reflexivity|]. split; [vm_compute; congruence|].
  intros j Hj. assert (j = 3 \/ j = 4 \/ j = 5) as [->|[->| ->]] by lia; vm_compute; congruence.
Defined.

(** The example of the comment above stab_binsearch(). *)
Definition comment_stabs (i : Z) : Stab :=
  match List.find (fun '(k, _) => k =? i)
          [(0, 0xf0100000); (13, 0xf0100040); (117, 0xf0100176); (118, 0xf0100178);
           (555, 0xf0100652); (556, 0xf0100654); (657, 0xf0100849)] with
  | Some (_, v) => mk_stab 0 N_SO 0 0 v
  | None => mk_stab 0 N_SLINE 0 0 0
  end.
Example comment_search : stab_binsearch comment_stabs 700 0 657 N_SO 0xf0100184 = Some (118, 554).
Proof. reflexivity. Qed.

(** After an exact match the address is increased, so a stab that starts one
    byte behind it is taken for a second exact match: the search for the
    address of stab 0 returns stab 1. *)
Lemma binsearch_adjacent :
  let stabs := fun i => mk_stab 0 N_FUN 0 0 (0xf0100000 + i) in
  stab_binsearch stabs 10 0 1 N_FUN 0xf0100000 = Some (1, 1).
Proof. reflexivity. Qed.

(** When the range has stabs of the type but all of them start behind the
    address, the left end does not exceed the right one, as it should when
    no stab contains the address. *)
Lemma binsearch_before_first stabs type L R a fuel i :
  searchable stabs type L R a -> R - L + 2 <= Z.of_nat fuel ->
  L <= i <= R -> n_type (stabs i) = type ->
  (forall j, L <= j <= R -> n_type (stabs j) = type -> a < n_value (stabs j)) ->
  exists left' right', stab_binsearch stabs fuel L R type a = Some (left', right') /\ left' <= right' < i.
Proof.
  intros (Hord & Hapart & [HL HLR] & Ha) Hf Hi Ti Hall.
  destruct (binsearch_result stabs type L R a HL Hord Hapart Ha fuel HLR Hf) as (l & r & E & _ & _ & H3).
  exists l, r. split; [exact E | exact (H3 i Hi Ti Hall)].
Qed.
