(* ===== verification/Printfmt.v ===== *)
(** * JOS: formatted output

    [src/labs/lab02-mem-management/lib/printfmt.c] and [kern/printf.c]: the
    formatter over any [putch], snprintf() into a buffer, and cprintf(). *)
From S2P Require Import Prelude.

(** An argument of the variadic functions: an [int] (or [long]) as its 32
    bits, a [long long] as its 64 bits, a string without its NUL, or null. *)
Inductive va : Type := VInt (x : Z) | VLong (x : Z) | VStr (s : list Z) | VNull.

Definition MAXERROR : Z := 7.
Definition error_string (err : Z) : option (list Z) :=
  match err with
  | 1 => Some (str "unspecified error")
  | 2 => Some (str "bad environment")
  | 3 => Some (str "invalid parameter")
  | 4 => Some (str "out of memory")
  | 5 => Some (str "out of environments")
  | 6 => Some (str "segmentation fault")
  | _ => None
  end.

(** The variables of one %-escape sequence. *)
Record flags := mk_flags { fl_padc : Z; fl_width : Z; fl_precision : Z; fl_lflag : Z; fl_altflag : bool }.
#[export] Instance eta_flags : Eta flags :=
  fun f => mk_flags (fl_padc f) (fl_width f) (fl_precision f) (fl_lflag f) (fl_altflag f).
Definition no_flags : flags := mk_flags 32 (-1) (-1) 0 false.

Definition is_digit (ch : Z) : bool := (48 <=? ch) && (ch <=? 57).
(** [for(precision = 0; ; ++fmt) ...] from the digit [ch] on. *)
Fixpoint field_width (fmt : list Z) (precision ch : Z) : Z * list Z :=
  let precision := s32 (precision * 10 + ch - 48) in
  match fmt with
  | [] => (precision, [])
  | c :: fmt' => if is_digit c then field_width fmt' precision c else (precision, fmt)
  end.
Definition process_precision (f : flags) : flags :=
  if fl_width f <? 0 then f <| fl_width := fl_precision f |> <| fl_precision := -1 |> else f.

Section Putch.
Context {S : Type} (putch : Z -> M S unit).

(** [reswitch:] the flags up to the conversion character (0 at the end of the
    format), with the rest of the format and of the arguments. *)
Fixpoint reswitch (fuel : nat) (f : flags) (fmt : list Z) (ap : list va) : M S (Z * flags * list Z * list va) :=
  match fuel with
  | O => halt NoFuel
  | Datatypes.S fuel' =>
      match fmt with
      | [] => ret (0, f, [], ap)
      | ch :: fmt =>
          if ch =? 45 then reswitch fuel' (f <| fl_padc := 45 |>) fmt ap
          else if ch =? 48 then reswitch fuel' (f <| fl_padc := 48 |>) fmt ap
          else if is_digit ch then
            let '(n, fmt) := field_width fmt 0 ch in
            reswitch fuel' (process_precision (f <| fl_precision := n |>)) fmt ap
          else if ch =? 42 then
            match ap with
            | VInt n :: ap => reswitch fuel' (process_precision (f <| fl_precision := s32 n |>)) fmt ap
            | _ => halt Faulted
            end
          else if ch =? 46 then reswitch fuel' (if fl_width f <? 0 then f <| fl_width := 0 |> else f) fmt ap
          else if ch =? 35 then reswitch fuel' (f <| fl_altflag := true |>) fmt ap
          else if ch =? 108 then reswitch fuel' (f <| fl_lflag := fl_lflag f + 1 |>) fmt ap
          else ret (ch, f, fmt, ap)
      end
  end.

(** [putch(c)] [n] times. *)
Fixpoint pad (n : nat) (c : Z) : M S unit :=
  match n with O => ret tt | Datatypes.S n' => putch c ;! pad n' c end.

Fixpoint printnum (fuel : nat) (num base width padc : Z) : M S unit :=
  match fuel with
  | O => halt NoFuel
  | Datatypes.S fuel' =>
      (if base <=? num then printnum fuel' (num / base) base (width - 1) padc
       else pad (Z.to_nat (width - 1)) padc) ;!
      putch (nth (Z.to_nat (num mod base)) (str "0123456789abcdef") 0)
  end.

Definition getuint (lflag : Z) (ap : list va) : M S (Z * list va) :=
  match ap with
  | VLong x :: ap => if 2 <=? lflag then ret (u64 x, ap) else halt Faulted
  | VInt x :: ap => if 2 <=? lflag then halt Faulted else ret (u32 x, ap)
  | _ => halt Faulted
  end.
Definition getint (lflag : Z) (ap : list va) : M S (Z * list va) :=
  match ap with
  | VLong x :: ap => if 2 <=? lflag then ret (s64 x, ap) else halt Faulted
  | VInt x :: ap => if 2 <=? lflag then halt Faulted else ret (s32 x, ap)
  | _ => halt Faulted
  end.

(** [for(; (ch = *p++) != '\0' && ...; width--) ...]: the width that is left. *)
Fixpoint put_string (p : list Z) (precision width : Z) (altflag : bool) : M S Z :=
  match p with
  | [] => ret width
  | c :: p' =>
      let ch := s8 c in
      if (precision <? 0) || (0 <=? precision - 1) then
        putch (if altflag && ((ch <? 32) || (126 <? ch)) then 63 else ch) ;!
        put_string p' (if precision <? 0 then precision else precision - 1) (width - 1) altflag
      else ret width
  end.
(** strnlen(p, precision), where a negative precision is a huge [size_t]. *)
Definition strnlen (p : list Z) (precision : Z) : Z := Z.min (Z.of_nat (length p)) (u32 precision).
Definition case_s (p : list Z) (f : flags) : M S unit :=
  let w := fl_width f in
  let! w := (if (0 <? w) && negb (fl_padc f =? 45) then
               let w' := w - strnlen p (fl_precision f) in
               pad (Z.to_nat w') (fl_padc f) ;! ret (Z.min w' 0)
             else ret w) in
  let! w := put_string p (fl_precision f) w (fl_altflag f) in
  pad (Z.to_nat w) 32.

Definition number (num base : Z) (f : flags) : M S unit := printnum 64 num base (fl_width f) (fl_padc f).

Fixpoint vprintfmt (fuel : nat) (fmt : list Z) (ap : list va) : M S unit :=
  match fuel with
  | O => halt NoFuel
  | Datatypes.S fuel' =>
      match fmt with
      | [] => ret tt
      | ch :: rest =>
          if negb (ch =? 37) then putch ch ;! vprintfmt fuel' rest ap
          else
            let! (ch, f, fmt, ap) := reswitch (Datatypes.S (length rest)) no_flags rest ap in
            if ch =? 99 then          (* 'c' *)
              match ap with
              | VInt x :: ap => putch (s32 x) ;! vprintfmt fuel' fmt ap
              | _ => halt Faulted
              end
            else if ch =? 101 then    (* 'e' *)
              match ap with
              | VInt x :: ap =>
                  let err := s32 x in
                  let err := if err <? 0 then s32 (- err) else err in
                  if err <? 0 then halt Faulted   (* error_string[INT_MIN] *)
                  else
                    (match (if MAXERROR <=? err then None else error_string err) with
                     | None => vprintfmt fuel' (str "error %d") [VInt err]
                     | Some p => vprintfmt fuel' (str "%s") [VStr p]
                     end) ;!
                    vprintfmt fuel' fmt ap
              | _ => halt Faulted
              end
            else if ch =? 115 then    (* 's' *)
              match ap with
              | VStr p :: ap => case_s p f ;! vprintfmt fuel' fmt ap
              | VNull :: ap => case_s (str "(null)") f ;! vprintfmt fuel' fmt ap
              | _ => halt Faulted
              end
            else if ch =? 100 then    (* 'd' *)
              let! (num, ap) := getint (fl_lflag f) ap in
              (if num <? 0 then putch 45 ;! number (u64 (- num)) 10 f else number num 10 f) ;!
              vprintfmt fuel' fmt ap
            else if (ch =? 117) || (ch =? 111) || (ch =? 120) then   (* 'u', 'o', 'x' *)
              let! (num, ap) := getuint (fl_lflag f) ap in
              number num (if ch =? 117 then 10 else if ch =? 111 then 8 else 16) f ;!
              vprintfmt fuel' fmt ap
            else if ch =? 112 then    (* 'p' *)
              putch 48 ;! putch 120 ;!
              match ap with
              | VInt x :: ap => number (u32 x) 16 f ;! vprintfmt fuel' fmt ap
              | _ => halt Faulted
              end
            else if ch =? 37 then putch ch ;! vprintfmt fuel' fmt ap   (* '%' *)
            else                      (* unrecognized: back to what follows the '%' *)
              putch 37 ;! vprintfmt fuel' rest ap
      end
  end.
End Putch.

(** ** snprintf() *)

(** struct sprintbuf: the positions count from the start of the buffer, and
    [sb_mem] is the memory from there on. *)
Record sprintbuf := mk_sprintbuf { sb_mem : list Z; sb_buf : nat; sb_ebuf : nat; sb_cnt : Z }.
#[export] Instance eta_sprintbuf : Eta sprintbuf :=
  fun b => mk_sprintbuf (sb_mem b) (sb_buf b) (sb_ebuf b) (sb_cnt b).

(** [*b->buf = ch], one byte that must exist. *)
Definition store_byte (ch : Z) : M sprintbuf unit := fun b =>
  if (sb_buf b <? length (sb_mem b))%nat then Ret tt (b <| sb_mem ::= <[sb_buf b := u8 ch]> |>) else Stop Faulted b.
Definition sprintputch (ch : Z) : M sprintbuf unit :=
  modify (fun b => b <| sb_cnt := s32 (sb_cnt b + 1) |>) ;!
  let! b := get id in
  if (sb_buf b <? sb_ebuf b)%nat then
    store_byte ch ;!
    modify (fun b => b <| sb_buf := (sb_buf b + 1)%nat |>)
  else ret tt.
Definition E_INVAL : Z := 3.
Definition vsnprintf (fuel : nat) (n : Z) (fmt : list Z) (ap : list va) : M (list Z) Z := fun mem =>
  if n <? 1 then Ret (- E_INVAL) mem
  else
    match (vprintfmt sprintputch fuel fmt ap ;! store_byte 0) (mk_sprintbuf mem 0 (Z.to_nat (n - 1)) 0) with
    | Ret _ b => Ret (sb_cnt b) (sb_mem b)
    | Stop w b => Stop w (sb_mem b)
    end.

(** ** cprintf() *)

(** The console, and the counter of vcprintf(). *)
Definition cput (ch : Z) : M (list Z * Z) unit :=
  modify (fun '(out, cnt) => (out ++ [ch], cnt)).   (* cputchar(ch); [*cnt++] moves the pointer *)
Definition vcprintf (fuel : nat) (fmt : list Z) (ap : list va) : M (list Z) Z := fun out =>
  match vprintfmt cput fuel fmt ap (out, 0) with
  | Ret _ (out, cnt) => Ret cnt out
  | Stop w (out, _) => Stop w out
  end.

(** ** The formatter and its callback

    Whatever [putch] does, the formatter calls it on the same characters in
    the same order, and ends in the same way. *)

Definition emits {A} (m : forall S, (Z -> M S unit) -> M S A) (l : list Z) (r : A + stop) : Prop :=
  forall S (put : Z -> M S unit) s,
    m S put s = (for_all l put ;! (match r with inl a => ret a | inr w => halt w end)) s.
(** ... and it returns a value with [Q], or uses an argument that is not there. *)
Definition prints {A} (m : forall S, (Z -> M S unit) -> M S A) (Q : A -> Prop) : Prop :=
  exists l r, emits m l r /\ match r with inl a => Q a | inr w => w = Faulted end.

Lemma for_all_app {S A} (l1 l2 : list A) (body : A -> M S unit) s :
  for_all (l1 ++ l2) body s = bind (for_all l1 body) (fun _ => for_all l2 body) s.
Proof.
  revert s. induction l1 as [|x l1 IH]; intros s; cbn [app for_all]; [reflexivity|].
  rewrite bind_assoc. unfold bind at 1 2. destruct (body x s); [apply IH | reflexivity].
Qed.

Lemma prints_ret {A} (a : A) (Q : A -> Prop) : Q a -> prints (fun S put => ret a) Q.
Proof. exists [], (inl a). split; [intros S put s; reflexivity | assumption]. Qed.
Lemma prints_fault {A} (Q : A -> Prop) : prints (fun S put => halt Faulted) Q.
Proof. exists [], (inr Faulted). split; [intros S put s; reflexivity | reflexivity]. Qed.
Lemma prints_put c Q : Q tt -> prints (fun S put => put c) Q.
Proof.
  exists [c], (inl tt). split; [|assumption]. intros S put s. cbn. unfold bind.
  destruct (put c s) as [[] s'|]; reflexivity.
Qed.
Lemma prints_bind {A B} (m : forall S, (Z -> M S unit) -> M S A) (k : A -> forall S, (Z -> M S unit) -> M S B) Q R :
  prints m Q -> (forall a, Q a -> prints (k a) R) -> prints (fun S put => bind (m S put) (fun a => k a S put)) R.
Proof.
  intros (l & r & E & Hr) Hk. destruct r as [a|w].
  - destruct (Hk a Hr) as (l' & r' & E' & Hr'). exists (l ++ l'), r'. split; [|exact Hr'].
    intros S put s. unfold bind at 1. rewrite E. unfold bind at 1 2. rewrite for_all_app.
    unfold bind at 1. destruct (for_all l put s) as [u s1|w s1]; [|reflexivity]. cbn. rewrite E'. reflexivity.
  - exists l, (inr w). split; [|exact Hr]. intros S put s. unfold bind at 1. rewrite E. unfold bind.
    destruct (for_all l put s); reflexivity.
Qed.
Lemma prints_weaken {A} (m : forall S, (Z -> M S unit) -> M S A) (Q R : A -> Prop) :
  prints m Q -> (forall a, Q a -> R a) -> prints m R.
Proof. intros (l & r & E & Hr) H. exists l, r. split; [exact E|]. destruct r; auto. Qed.

Create HintDb printer discriminated.
#[local] Hint Resolve prints_ret prints_fault prints_put : printer.
(** [m; k], where [m] returns a value with [Q]. *)
Ltac and_then Q := apply (prints_bind _ _ Q).

Lemma pad_prints n c : prints (fun S put => pad put n c) (fun _ => True).
Proof. induction n as [|n IH]; cbn [pad]; [auto with printer|]. and_then (fun _ : unit => True); auto with printer. Qed.
Lemma printnum_prints base padc : 2 <= base -> forall fuel num width, 0 <= num < 2 ^ Z.of_nat fuel -> (0 < fuel)%nat ->
  prints (fun S put => printnum put fuel num base width padc) (fun _ => True).
Proof.
  intros Hb. induction fuel as [|fuel IH]; intros num width Hn Hf; [lia|]. cbn [printnum].
  and_then (fun _ : unit => True); [|intros _ _; auto with printer].
  destruct (Z.leb_spec base num); [|apply pad_prints].
  assert (Hd : 0 <= num / base < 2 ^ Z.of_nat fuel).
  { split; [apply Z.div_pos; lia|]. apply Z.div_lt_upper_bound; [lia|].
    rewrite Nat2Z.inj_succ, Z.pow_succ_r in Hn by lia. nia. }
  apply IH; [exact Hd|]. destruct fuel; [|lia]. cbn in Hn. lia.
Qed.
Lemma number_prints num base f : 2 <= base -> 0 <= num < 2 ^ 64 -> prints (fun S put => number put num base f) (fun _ => True).
Proof. intros Hb Hn. apply printnum_prints; [exact Hb | exact Hn | lia]. Qed.

Lemma field_width_length : forall fmt n ch, (length (field_width fmt n ch).2 <= length fmt)%nat.
Proof.
  induction fmt as [|c fmt IH]; intros n ch; cbn; [lia|]. destruct (is_digit c); [etransitivity; [apply IH | lia] | cbn; lia].
Qed.
Lemma reswitch_prints : forall fuel f fmt ap, (length fmt < fuel)%nat ->
  prints (fun S (put : Z -> M S unit) => reswitch fuel f fmt ap) (fun '(_, _, fmt', _) => (length fmt' <= length fmt)%nat).
Proof.
  induction fuel as [|fuel IH]; intros f fmt ap Hf; [lia|]. destruct fmt as [|ch fmt]; cbn [reswitch].
  - apply prints_ret. cbn. lia.
  - cbn in Hf.
    assert (Hw : forall f' fmt' ap', (length fmt' <= length fmt)%nat ->
      prints (fun S (put : Z -> M S unit) => reswitch fuel f' fmt' ap') (fun '(_, _, fmt2, _) => (length fmt2 <= length (ch :: fmt))%nat)).
    { intros f' fmt' ap' H. eapply prints_weaken; [apply IH; lia|]. intros [[[? ?] ?] ?] ?. cbn. lia. }
    destruct (ch =? 45); [apply Hw; lia|]. destruct (ch =? 48); [apply Hw; lia|].
    destruct (is_digit ch).
    { pose proof (field_width_length fmt 0 ch) as Hl. destruct (field_width fmt 0 ch) as [n fmt']. apply Hw. exact Hl. }
    destruct (ch =? 42); [destruct ap as [|[] ap]; auto using prints_fault; apply Hw; lia|].
    destruct (ch =? 46); [apply Hw; lia|]. destruct (ch =? 35); [apply Hw; lia|]. destruct (ch =? 108); [apply Hw; lia|].
    apply prints_ret. cbn. lia.
Qed.
Lemma getuint_prints lflag ap : prints (fun S (put : Z -> M S unit) => getuint lflag ap) (fun '(x, _) => 0 <= x < 2 ^ 64).
Proof.
  destruct ap as [|[] ap]; cbn [getuint]; try destruct (2 <=? lflag); auto using prints_fault; apply prints_ret; unfold u32, u64;
    clear; dlia.
Qed.
Lemma getint_prints lflag ap : prints (fun S (put : Z -> M S unit) => getint lflag ap) (fun '(x, _) => - 2 ^ 63 <= x < 2 ^ 63).
Proof.
  destruct ap as [|[] ap]; cbn [getint]; try destruct (2 <=? lflag); auto using prints_fault; apply prints_ret; unfold s32, s64;
    clear; dlia.
Qed.
Lemma put_string_prints alt : forall p precision width,
  prints (fun S put => put_string put p precision width alt) (fun _ => True).
Proof.
  induction p as [|c p IH]; intros precision width; cbn [put_string]; [auto with printer|].
  destruct (_ || _); [|auto with printer]. and_then (fun _ : unit => True); [auto with printer | intros _ _; apply IH].
Qed.
Lemma case_s_prints p f : prints (fun S put => case_s put p f) (fun _ => True).
Proof.
  unfold case_s. and_then (fun _ : Z => True).
  - destruct (_ && _); [|auto with printer]. and_then (fun _ : unit => True); [apply pad_prints | auto with printer].
  - intros w _. and_then (fun _ : Z => True); [apply put_string_prints | intros w' _; apply pad_prints].
Qed.

Lemma signed_prints num f : - 2 ^ 63 <= num < 2 ^ 63 ->
  prints (fun S put => if num <? 0 then put 45 ;! number put (u64 (- num)) 10 f else number put num 10 f) (fun _ => True).
Proof.
  intros H. destruct (Z.ltb_spec num 0); [|apply number_prints; lia].
  and_then (fun _ : unit => True); [auto with printer|]. intros _ _. apply number_prints; [lia|].
  apply Z.mod_pos_bound. lia.
Qed.
(** The two formats the conversion %e uses. *)
Lemma literal_prints fuel c rest ap : c <> 37 -> prints (fun S put => vprintfmt put fuel rest ap) (fun _ => True) ->
  prints (fun S put => vprintfmt put (Datatypes.S fuel) (c :: rest) ap) (fun _ => True).
Proof.
  intros Hc H. cbn [vprintfmt]. destruct (Z.eqb_spec c 37); [congruence|]. cbn [negb].
  and_then (fun _ : unit => True); auto with printer.
Qed.
Lemma last_prints fuel c a : (c = 100 /\ exists x, a = VInt x) \/ (c = 115 /\ exists p, a = VStr p) ->
  prints (fun S put => vprintfmt put (Datatypes.S (Datatypes.S fuel)) [37; c] [a]) (fun _ => True).
Proof.
  intros H. set (fuel' := Datatypes.S fuel). cbn [vprintfmt]. cbn [Z.eqb Pos.eqb negb].
  assert (Hend : prints (fun S put => vprintfmt put fuel' [] []) (fun _ => True)) by (apply prints_ret; exact I).
  clearbody fuel'. and_then (fun r : Z * flags * list Z * list va => r = (c, no_flags, [], [a])).
  { eexists [], (inl _). split; [|reflexivity]. intros S put s. destruct H as [[-> _]|[-> _]]; reflexivity. }
  intros ? ->. destruct H as [[-> [x ->]]|[-> [p ->]]]; cbn -[number case_s getint].
  - and_then (fun y : Z * list va => - 2 ^ 63 <= y.1 < 2 ^ 63 /\ y.2 = []).
    { eexists [], (inl (s32 x, [])). split; [intros S put s; reflexivity|]. split; [|reflexivity]. unfold s32. cbn [fst].
      pose proof (Z.mod_pos_bound (x + 2 ^ 31) (2 ^ 32) ltac:(lia)). lia. }
    intros [num ap] [Hn E]. cbn in Hn, E. subst ap. and_then (fun _ : unit => True); [apply signed_prints; exact Hn | intros _ _; exact Hend].
  - and_then (fun _ : unit => True); [apply case_s_prints | intros _ _; exact Hend].
Qed.
Lemma error_prints fuel err : (10 < fuel)%nat ->
  prints (fun S put => vprintfmt put fuel (str "error %d") [VInt err]) (fun _ => True).
Proof.
  intros Hf. do 8 (destruct fuel as [|fuel]; [lia|]).
  change (str "error %d") with [101; 114; 114; 111; 114; 32; 37; 100].
  do 6 (apply literal_prints; [discriminate|]). apply last_prints. left. eauto.
Qed.
Lemma percent_s_prints fuel p : (10 < fuel)%nat ->
  prints (fun S put => vprintfmt put fuel (str "%s") [VStr p]) (fun _ => True).
Proof.
  intros Hf. do 2 (destruct fuel as [|fuel]; [lia|]). change (str "%s") with [37; 115]. apply last_prints. right. eauto.
Qed.

Lemma vprintfmt_prints : forall fuel fmt ap, (length fmt + 10 < fuel)%nat ->
  prints (fun S put => vprintfmt put fuel fmt ap) (fun _ => True).
Proof.
  induction fuel as [|fuel IH]; intros fmt ap Hf; [lia|]. destruct fmt as [|ch rest]; cbn [vprintfmt]; [auto with printer|].
  cbn [length] in Hf. destruct (ch =? 37); cbn [negb].
  2:{ and_then (fun _ : unit => True); [auto with printer | intros _ _; apply IH; lia]. }
  and_then (fun '((_, _, fmt', _) : Z * flags * list Z * list va) => (length fmt' <= length rest)%nat); [apply reswitch_prints; lia|].
  intros [[[ch' f] fmt] ap'] Hl. cbn beta iota.
  assert (Hrest : forall ap, prints (fun S put => vprintfmt put fuel fmt ap) (fun _ => True)) by (intros; apply IH; lia).
  destruct (ch' =? 99).
  { destruct ap' as [|[] ap']; auto using prints_fault. and_then (fun _ : unit => True); auto with printer. }
  destruct (ch' =? 101).
  { destruct ap' as [|[] ap']; auto using prints_fault. destruct (_ <? 0); [auto using prints_fault|].
    and_then (fun _ : unit => True); [|intros _ _; apply Hrest].
    destruct (if MAXERROR <=? _ then None else _); [apply percent_s_prints | apply error_prints]; lia. }
  destruct (ch' =? 115).
  { destruct ap' as [|[] ap']; auto using prints_fault; (and_then (fun _ : unit => True); [apply case_s_prints | intros _ _; apply Hrest]). }
  destruct (ch' =? 100).
  { and_then (fun '((x, _) : Z * list va) => - 2 ^ 63 <= x < 2 ^ 63); [apply getint_prints|]. intros [num ap2] H.
    and_then (fun _ : unit => True); [apply signed_prints; exact H | intros _ _; apply Hrest]. }
  destruct (_ || _).
  { and_then (fun '((x, _) : Z * list va) => 0 <= x < 2 ^ 64); [apply getuint_prints|]. intros [num ap2] H.
    and_then (fun _ : unit => True); [|intros _ _; apply Hrest].
    apply number_prints; [destruct (ch' =? 117), (ch' =? 111); lia | exact H]. }
  destruct (ch' =? 112).
  { and_then (fun _ : unit => True); [auto with printer|]. intros _ _.
    and_then (fun _ : unit => True); [auto with printer|]. intros _ _. destruct ap' as [|[] ap']; auto using prints_fault.
    and_then (fun _ : unit => True); [|intros _ _; apply Hrest]. apply number_prints; [lia|].
    pose proof (Z.mod_pos_bound x (2 ^ 32) ltac:(lia)). unfold u32. lia. }
  destruct (ch' =? 37); (and_then (fun _ : unit => True); [auto with printer | intros _ _]); [apply Hrest | apply IH; lia].
Qed.

(** *** What is printed, and snprintf() *)

(** The text of a call, collected in a list. *)
Definition text (fuel : nat) (fmt : list Z) (ap : list va) : res (list Z) unit :=
  vprintfmt (fun c => modify (fun l => l ++ [c])) fuel fmt ap [].

Lemma collect_all (l : list Z) : forall acc : list Z,
  for_all l (fun c => modify (fun l => l ++ [c])) acc = Ret tt (acc ++ l).
Proof.
  induction l as [|c l IH]; intros acc; cbn [for_all]; [rewrite app_nil_r; reflexivity|].
  rewrite bind_modify, IH, <- app_assoc. reflexivity.
Qed.
Lemma s32_s32 x y : s32 (s32 x + y) = s32 (x + y).
Proof.
  unfold s32. replace ((x + 2 ^ 31) mod 2 ^ 32 - 2 ^ 31 + y + 2 ^ 31) with ((x + 2 ^ 31) mod 2 ^ 32 + y) by lia.
  rewrite Zplus_mod_idemp_l. do 2 f_equal. lia.
Qed.
Lemma s32_idem x : s32 (s32 x) = s32 x.
Proof. pose proof (s32_s32 x 0) as H. rewrite !Z.add_0_r in H. exact H. Qed.
Lemma sprint_all : forall l b, (sb_buf b <= sb_ebuf b < length (sb_mem b))%nat -> s32 (sb_cnt b) = sb_cnt b ->
  let k := Nat.min (length l) (sb_ebuf b - sb_buf b) in
  for_all l sprintputch b = Ret tt (mk_sprintbuf
    (take (sb_buf b) (sb_mem b) ++ map u8 (take k l) ++ drop (sb_buf b + k) (sb_mem b)) (sb_buf b + k) (sb_ebuf b)
    (s32 (sb_cnt b + Z.of_nat (length l)))).
Proof.
  induction l as [|c l IH]; intros [mem buf ebuf cnt] Hb Hc; cbn [sb_buf sb_ebuf sb_mem sb_cnt] in *.
  - cbn. rewrite Nat.add_0_r, take_drop. cbn in Hc. rewrite Z.add_0_r, Hc. reflexivity.
  - cbn [for_all]. unfold sprintputch at 1. rewrite bind_assoc, bind_modify, bind_assoc, bind_self. cbn [sb_buf sb_ebuf set_field].
    replace (cnt + Z.of_nat (length (c :: l))) with (cnt + 1 + Z.of_nat (length l)) by (cbn; lia).
    cbn [length take map]. destruct (Nat.ltb_spec buf ebuf) as [Hlt|Hlt].
    + rewrite bind_assoc. unfold store_byte at 1. unfold bind at 1. cbn [sb_buf sb_mem set_field].
      destruct (Nat.ltb_spec buf (length mem)); [|lia]. rewrite bind_modify.
      set (mem1 := <[buf := u8 c]> mem). change (for_all l sprintputch (mk_sprintbuf mem1 (buf + 1) ebuf (s32 (cnt + 1))) = 
        Ret tt (mk_sprintbuf (take buf mem ++ map u8 (take (Nat.min (Datatypes.S (length l)) (ebuf - buf)) (c :: l)) ++ drop (buf + Nat.min (Datatypes.S (length l)) (ebuf - buf)) mem) (buf + Nat.min (Datatypes.S (length l)) (ebuf - buf)) ebuf (s32 (cnt + 1 + Z.of_nat (length l))))).
      assert (Hlen : length mem1 = length mem) by (unfold mem1; apply length_insert).
      rewrite IH; cbn [sb_buf sb_ebuf sb_mem sb_cnt]; [|lia | apply s32_idem].
      rewrite s32_s32. destruct (ebuf - buf)%nat as [|d] eqn:Ed; [lia|]. replace (ebuf - (buf + 1))%nat with d by lia.
      rewrite <- Nat.succ_min_distr. cbn [take map]. set (k := Nat.min (length l) d).
      f_equal. f_equal; [|lia].
      unfold mem1. rewrite Nat.add_1_r, (take_S_r _ buf (u8 c)) by (apply list_lookup_insert_eq; lia).
      rewrite take_insert_ge by lia. rewrite drop_insert_lt by lia.
      rewrite <- app_assoc. cbn. do 3 f_equal. f_equal. lia.
    + replace (ebuf - buf)%nat with 0%nat by lia. rewrite Nat.min_0_r. cbn [take map app].
      change (for_all l sprintputch (mk_sprintbuf mem buf ebuf (s32 (cnt + 1))) =
        Ret tt (mk_sprintbuf (take buf mem ++ drop (buf + 0) mem) (buf + 0) ebuf (s32 (cnt + 1 + Z.of_nat (length l))))).
      rewrite IH; cbn [sb_buf sb_ebuf sb_mem sb_cnt]; [|lia | apply s32_idem].
      rewrite s32_s32. replace (ebuf - buf)%nat with 0%nat by lia. rewrite Nat.min_0_r. reflexivity.
Qed.

Lemma emits_text fuel fmt ap l (r : unit + stop) : emits (fun S put => vprintfmt put fuel fmt ap) l r ->
  text fuel fmt ap = match r with inl _ => Ret tt l | inr w => Stop w l end.
Proof.
  intros E. unfold text. rewrite (E (list Z)). unfold bind. rewrite collect_all. destruct r as [[]|w]; reflexivity.
Qed.

(** The text of a format, piece by piece. *)
Lemma emits_end fuel ap : emits (fun S put => vprintfmt put (Datatypes.S fuel) [] ap) [] (inl tt).
Proof. intros S put s. reflexivity. Qed.
Lemma emits_then {A} c l r (m : forall S, (Z -> M S unit) -> M S A) :
  emits m l r -> emits (fun S put => put c ;! m S put) (c :: l) r.
Proof.
  intros E S put s. cbn [for_all]. rewrite bind_assoc. unfold bind at 1 2. destruct (put c s) as [[] s'|]; [apply (E S put s') | reflexivity].
Qed.
Lemma emits_lit fuel c rest ap l r : c <> 37 -> emits (fun S put => vprintfmt put fuel rest ap) l r ->
  emits (fun S put => vprintfmt put (Datatypes.S fuel) (c :: rest) ap) (c :: l) r.
Proof.
  intros Hc E S put s. cbn [vprintfmt]. destruct (Z.eqb_spec c 37); [congruence|].
  apply (emits_then c l r (fun S put => vprintfmt put fuel rest ap) E).
Qed.
Lemma put_string_emits : forall p w, emits (fun S put => put_string put p (-1) w false) (map s8 p) (inl (w - Z.of_nat (length p))).
Proof.
  induction p as [|c p IH]; intros w S put s; [cbn; rewrite Z.sub_0_r; reflexivity|]. cbn [put_string map length].
  change ((-1 <? 0) || (0 <=? -1 - 1)) with true. cbn iota. change (-1 <? 0) with true. cbn iota. cbn [andb].
  rewrite (emits_then (s8 c) _ _ (fun S put => put_string put p (-1) (w - 1) false) (IH (w - 1)) S put s).
  unfold bind. destruct (for_all _ put s) as [[] s'|]; [|reflexivity]. f_equal. lia.
Qed.
Lemma emits_s fuel rest p ap l r : emits (fun S put => vprintfmt put fuel rest ap) l r ->
  emits (fun S put => vprintfmt put (Datatypes.S fuel) (37 :: 115 :: rest) (VStr p :: ap)) (map s8 p ++ l) r.
Proof.
  intros E S put s. transitivity ((put_string put p (-1) (-1) false ;! vprintfmt put fuel rest ap) s).
  - transitivity ((let! w := put_string put p (-1) (-1) false in pad put (Z.to_nat w) 32 ;! vprintfmt put fuel rest ap) s).
    + transitivity (((let! w := put_string put p (-1) (-1) false in pad put (Z.to_nat w) 32) ;! vprintfmt put fuel rest ap) s); [reflexivity|].
      apply bind_assoc.
    + unfold bind at 1 3. rewrite (put_string_emits p (-1) S put s). unfold bind. destruct (for_all _ put s) as [[] s'|]; [|reflexivity].
      cbn. replace (Z.to_nat (-1 - Z.of_nat (length p))) with O by lia. reflexivity.
  - unfold bind at 1. rewrite (put_string_emits p (-1) S put s). unfold bind. rewrite for_all_app. unfold bind.
    destruct (for_all (map s8 p) put s) as [[] s'|]; [|reflexivity]. exact (E S put s').
Qed.

(** The buffer of snprintf() after the text [l]. *)
Definition buffer (n : Z) (l mem : list Z) : list Z :=
  let k := Nat.min (length l) (Z.to_nat (n - 1)) in map u8 (take k l) ++ [0] ++ drop (k + 1) mem.

(** C23. The formatter ends for every format and every list of arguments: it
    prints a text that does not depend on where the characters go, or reads an
    argument that is missing or of another kind.  snprintf() returns the
    length of the whole text; of its buffer it writes the first n - 1
    characters of the text and a NUL behind them, and no other byte. *)
Theorem vsnprintf_spec fuel n fmt ap mem :
  (length fmt + 10 < fuel)%nat -> 1 <= n <= Z.of_nat (length mem) ->
  exists l, (text fuel fmt ap = Ret tt l /\
      vsnprintf fuel n fmt ap mem = Ret (s32 (Z.of_nat (length l))) (buffer n l mem) /\
      forall out, vcprintf fuel fmt ap out = Ret 0 (out ++ l)) \/
    (text fuel fmt ap = Stop Faulted l /\ exists mem', vsnprintf fuel n fmt ap mem = Stop Faulted mem').
Proof.
  intros Hf Hn. destruct (vprintfmt_prints fuel fmt ap Hf) as (l & r & E & Hr). exists l.
  pose proof (emits_text _ _ _ _ _ E) as Et.
  pose proof (sprint_all l (mk_sprintbuf mem 0 (Z.to_nat (n - 1)) 0) ltac:(cbn; lia) eq_refl) as Es.
  cbn [sb_buf sb_ebuf sb_mem sb_cnt take app] in Es. rewrite !Nat.sub_0_r, !Nat.add_0_l, Z.add_0_l in Es.
  unfold vsnprintf. destruct (Z.ltb_spec n 1); [lia|].
  assert (Eb : vprintfmt sprintputch fuel fmt ap (mk_sprintbuf mem 0 (Z.to_nat (n - 1)) 0) =
    match r with inl a => Ret a (mk_sprintbuf (map u8 (take (Nat.min (length l) (Z.to_nat (n - 1))) l) ++ drop (Nat.min (length l) (Z.to_nat (n - 1))) mem)
        (Nat.min (length l) (Z.to_nat (n - 1))) (Z.to_nat (n - 1)) (s32 (Z.of_nat (length l))))
    | inr w => Stop w (mk_sprintbuf (map u8 (take (Nat.min (length l) (Z.to_nat (n - 1))) l) ++ drop (Nat.min (length l) (Z.to_nat (n - 1))) mem)
        (Nat.min (length l) (Z.to_nat (n - 1))) (Z.to_nat (n - 1)) (s32 (Z.of_nat (length l)))) end).
  { rewrite (E sprintbuf). unfold bind. rewrite Es. destruct r; reflexivity. }
  destruct r as [[]|w]; [left | right].
  - split; [exact Et|]. split.
    + rewrite (bind_eq _ _ _ _ _ Eb). unfold store_byte, buffer. cbn [sb_buf sb_mem].
      set (k := Nat.min (length l) (Z.to_nat (n - 1))).
      assert (Hkm : (k < length mem)%nat) by lia.
      assert (Hk : length (map u8 (take k l)) = k) by (rewrite length_map, length_take; lia).
      destruct (Nat.ltb_spec k (length (map u8 (take k l) ++ drop k mem))) as [_|Hle].
      2:{ rewrite length_app, Hk, length_drop in Hle. lia. }
      cbn. f_equal. rewrite insert_app_r_alt by lia. rewrite Hk, Nat.sub_diag. f_equal.
      rewrite insert_take_drop by (rewrite length_drop; lia). rewrite skipn_skipn. replace (1 + k)%nat with (k + 1)%nat by lia. reflexivity.
    + intros out. unfold vcprintf. rewrite (E (list Z * Z)%type). unfold bind.
      assert (Ec : forall l out, for_all l cput (out, 0) = Ret tt (out ++ l, 0)).
      { clear. induction l as [|c l IH]; intros out; cbn [for_all]; [rewrite app_nil_r; reflexivity|].
        unfold cput at 1. rewrite bind_modify, IH, <- app_assoc. reflexivity. }
      rewrite Ec. reflexivity.
  - cbn in Hr. subst w. split; [exact Et|]. rewrite (bind_stop _ _ _ _ _ Eb). eauto.
Qed.
Lemma vsnprintf_spec_witness :
  vsnprintf 20 6 (str "x=%d") [VInt (-120)] (repeat 255 8) = Ret 6 (str "x=-12" ++ [0; 255; 255]).
Proof.
  destruct (vsnprintf_spec 20 6 (str "x=%d") [VInt (-120)] (repeat 255 8)) as (l & [(Et & E & _)|(Et & _)]);
    [cbn; lia | cbn; lia | | ].
  - rewrite E. vm_compute in Et. injection Et as <-. reflexivity.
  - vm_compute in Et. discriminate Et.
Defined.

(** [%-5d] pads on the left, with the character '-'. *)
Lemma minus_pads_left : text 20 (str "%-5d") [VInt 7] = Ret tt (str "----7").
Proof. reflexivity. Qed.
(** [%e] of INT_MIN looks up error_string[INT_MIN]. *)
Lemma error_int_min : text 20 (str "%e") [VInt (- 2 ^ 31)] = Stop Faulted [].
Proof. reflexivity. Qed.
Example text_examples :
  text 20 (str "%08x %s") [VInt 0xf0100000; VStr (str "ok")] = Ret tt (str "f0100000 ok") /\
  text 20 (str "%.*s|%c%%") [VInt 2; VStr (str "abc"); VInt 33] = Ret tt (str "ab|!%") /\
  text 20 (str "%e %q") [VInt (-4)] = Ret tt (str "out of memory %q").
Proof. repeat split; reflexivity. Qed.
