(* ===== verification/Umalloc.v ===== *)
(** * The allocator of user programs

    [src/homeworks/xv6-public/umalloc.c]: the allocator of Kernighan and
    Ritchie, a ring of free blocks in the order of their addresses that
    starts at the static header [base].  Block sizes are counted in headers
    of 8 bytes; the headers live in the memory they describe, so the model
    keeps a map from addresses to headers, and what a program writes into its
    blocks may change every header but those of the allocator. *)
From S2P Require Import Prelude.

Record header := mk_header { h_ptr : Z; h_size : Z }.
Definition sizeof_header : Z := 8.

(** The memory as the allocator sees it, [freep], and the program break. *)
Record arena := mk_arena { ar_mem : gmap Z header; ar_freep : Z; ar_brk : Z }.
#[export] Instance eta_arena : Eta arena := fun s => mk_arena (ar_mem s) (ar_freep s) (ar_brk s).

Definition hdr (s : arena) (p : Z) : header := default (mk_header 0 0) (ar_mem s !! p).
Definition put (p : Z) (h : header) (s : arena) : arena := s <| ar_mem ::= <[p := h]> |>.
(** [p->s.ptr], [p->s.size] and the assignments to them. *)
Definition ptr_of (p : Z) : M arena Z := get (fun s => h_ptr (hdr s p)).
Definition size_of (p : Z) : M arena Z := get (fun s => h_size (hdr s p)).
Definition set_ptr (p q : Z) : M arena unit := modify (fun s => put p (mk_header q (h_size (hdr s p))) s).
Definition set_size (p n : Z) : M arena unit := modify (fun s => put p (mk_header (h_ptr (hdr s p)) n) s).

Section Code.
(** The static header, and whether the kernel grants [sbrk(n)] at a break. *)
Variables (base : Z) (grant : Z -> Z -> bool).

(** [for(p = freep; !(bp > p && bp < p->s.ptr); p = p->s.ptr) ...] *)
Fixpoint free_find (fuel : nat) (bp p : Z) : M arena Z :=
  match fuel with
  | O => halt NoFuel
  | S fuel' =>
      let! q := ptr_of p in
      if (p <? bp) && (bp <? q) then ret p
      else if (q <=? p) && ((p <? bp) || (bp <? q)) then ret p
      else free_find fuel' bp q
  end.
(** [if(bp + bp->s.size == p->s.ptr) ... else bp->s.ptr = p->s.ptr] *)
Definition join_next (bp p : Z) : M arena unit :=
  let! q := ptr_of p in
  let! n := size_of bp in
  if bp + sizeof_header * n =? q then
    let! m := size_of q in
    let! q' := ptr_of q in
    set_size bp (u32 (n + m)) ;!
    set_ptr bp q'
  else set_ptr bp q.
(** [if(p + p->s.size == bp) ... else p->s.ptr = bp] *)
Definition join_prev (bp p : Z) : M arena unit :=
  let! k := size_of p in
  if p + sizeof_header * k =? bp then
    let! n := size_of bp in
    let! q := ptr_of bp in
    set_size p (u32 (k + n)) ;!
    set_ptr p q
  else set_ptr p bp.
Definition free (fuel : nat) (ap : Z) : M arena unit :=
  let bp := ap - sizeof_header in
  let! freep := get ar_freep in
  let! p := free_find fuel bp freep in
  join_next bp p ;!
  join_prev bp p ;!
  modify (fun s => s <| ar_freep := p |>).

(** [sbrk(n)] returns the old break, or -1. *)
Definition sbrk (n : Z) : M arena Z := fun s =>
  if grant (ar_brk s) n then Ret (ar_brk s) (s <| ar_brk := u32 (ar_brk s + n) |>) else Ret (u32 (-1)) s.

Definition morecore (fuel : nat) (nu : Z) : M arena Z :=
  let nu := if nu <? 4096 then 4096 else nu in
  let! p := sbrk (s32 (u32 (nu * sizeof_header))) in
  if p =? u32 (-1) then ret 0
  else
    set_size p nu ;!
    free fuel (p + sizeof_header) ;!
    get ar_freep.

(** The block [p] is large enough: its tail, or all of it, is handed out. *)
Definition take_block (nunits prevp p : Z) : M arena Z :=
  let! n := size_of p in
  let! r := (if n =? nunits then
               let! q := ptr_of p in
               set_ptr prevp q ;!
               ret p
             else
               set_size p (u32 (n - nunits)) ;!
               let! m := size_of p in
               set_size (p + sizeof_header * m) nunits ;!
               ret (p + sizeof_header * m)) in
  modify (fun s => s <| ar_freep := prevp |>) ;!
  ret (r + sizeof_header).

Fixpoint malloc_loop (fuel : nat) (nunits prevp p : Z) : M arena Z :=
  match fuel with
  | O => halt NoFuel
  | S fuel' =>
      let! n := size_of p in
      if nunits <=? n then take_block nunits prevp p
      else
        let! freep := get ar_freep in
        if p =? freep then
          let! r := morecore fuel' nunits in
          if r =? 0 then ret 0
          else
            let! q := ptr_of r in
            malloc_loop fuel' nunits r q
        else
          let! q := ptr_of p in
          malloc_loop fuel' nunits p q
  end.

Definition nunits_of (nbytes : Z) : Z := u32 (u32 (nbytes + sizeof_header - 1) / sizeof_header + 1).

(** The first call makes the ring of the empty block [base]. *)
Definition init_ring : M arena unit :=
  let! freep := get ar_freep in
  if freep =? 0 then modify (fun s => put base (mk_header base 0) (s <| ar_freep := base |>))
  else ret tt.
Definition malloc (fuel : nat) (nbytes : Z) : M arena Z :=
  init_ring ;!
  let! prevp := get ar_freep in
  let! p := ptr_of prevp in
  malloc_loop fuel (nunits_of nbytes) prevp p.
End Code.

(** ** The free list as a list of blocks *)

(** A block and the list that follows it, joined when they touch. *)
Definition merge (b : Z * Z) (F : list (Z * Z)) : list (Z * Z) :=
  match F with
  | (c, m) :: F' => if b.1 + 8 * b.2 =? c then (b.1, b.2 + m) :: F' else b :: F
  | [] => [b]
  end.
(** What free() does to the list of free blocks in order of addresses. *)
Fixpoint fl_insert (b : Z * Z) (F : list (Z * Z)) : list (Z * Z) :=
  match F with
  | [] => [b]
  | c :: F' => if b.1 <? c.1 then merge b F else merge c (fl_insert b F')
  end.

(** Blocks in increasing order behind [lo] that do not touch each other. *)
Fixpoint sorted (lo : Z) (F : list (Z * Z)) : Prop :=
  match F with
  | [] => True
  | (a, n) :: F' => lo < a /\ 0 < n /\ sorted (a + 8 * n) F'
  end.
(** The last header of the list and the end of its last block. *)
Fixpoint endn (p : Z) (F : list (Z * Z)) : Z := match F with [] => p | (a, _) :: F' => endn a F' end.
Fixpoint endf (lo : Z) (F : list (Z * Z)) : Z := match F with [] => lo | (a, n) :: F' => endf (a + 8 * n) F' end.

(** The headers behind [p] are those of the list. *)
Fixpoint seg (s : arena) (p : Z) (F : list (Z * Z)) : Prop :=
  match F with
  | [] => True
  | (a, n) :: F' => h_ptr (hdr s p) = a /\ h_size (hdr s a) = n /\ seg s a F'
  end.

Lemma endn_app F2 : forall F1 p, endn p (F1 ++ F2) = endn (endn p F1) F2.
Proof. induction F1 as [|[a n] F1 IH]; intros p; cbn; auto. Qed.
Lemma endf_app F2 : forall F1 lo, endf lo (F1 ++ F2) = endf (endf lo F1) F2.
Proof. induction F1 as [|[a n] F1 IH]; intros p; cbn; auto. Qed.
Lemma sorted_app F2 : forall F1 lo, sorted lo (F1 ++ F2) <-> sorted lo F1 /\ sorted (endf lo F1) F2.
Proof. induction F1 as [|[a n] F1 IH]; intros lo; cbn; [tauto|]. rewrite IH. tauto. Qed.
Lemma seg_app s F2 : forall F1 p, seg s p (F1 ++ F2) <-> seg s p F1 /\ seg s (endn p F1) F2.
Proof. induction F1 as [|[a n] F1 IH]; intros p; cbn; [tauto|]. rewrite IH. tauto. Qed.

Lemma sorted_weaken lo lo' F : sorted lo F -> lo' <= lo -> sorted lo' F.
Proof. destruct F as [|[a n] F]; cbn; [auto|]. intros (H1 & H2 & H3) H. repeat split; auto; lia. Qed.
Lemma sorted_endf F lo : sorted lo F -> lo <= endf lo F.
Proof.
  revert lo. induction F as [|[a n] F IH]; cbn; intros lo H; [lia|].
  destruct H as (H1 & H2 & H3). specialize (IH _ H3). lia.
Qed.
Lemma sorted_in x F lo : sorted lo F -> x ∈ F -> lo < x.1 /\ 0 < x.2 /\ x.1 + 8 * x.2 <= endf lo F.
Proof.
  revert lo. induction F as [|[a n] F IH]; intros lo H Hx; [inversion Hx|]. destruct H as (H1 & H2 & H3).
  cbn [endf]. pose proof (sorted_endf _ _ H3). inversion Hx as [|? ? ? Hx']; subst; cbn [fst snd]; [lia|].
  specialize (IH _ H3 Hx'). lia.
Qed.
Lemma sorted_endn F p : sorted (p + 7) F -> p <= endn p F /\ endn p F + 7 <= endf (p + 7) F.
Proof.
  revert p. induction F as [|[a n] F IH]; cbn; intros p H; [lia|]. destruct H as (H1 & H2 & H3).
  destruct (IH a ltac:(eapply sorted_weaken; [exact H3 | lia])) as [H4 H5].
  split; [lia|]. destruct F as [|[b m] F]; cbn in *; lia.
Qed.
Lemma endn_in F p : endn p F ∈ p :: map fst F.
Proof. revert p. induction F as [|[a n] F IH]; intros p; cbn; [left | right; apply IH]. Qed.
Lemma map_fst_in (a : Z) (F : list (Z * Z)) : a ∈ map fst F -> exists n, (a, n) ∈ F.
Proof. intros H. apply list_elem_of_fmap in H as ([b n] & -> & H). eauto. Qed.

(** ** Memory *)

Lemma hdr_put s p h x : hdr (put p h s) x = if decide (x = p) then h else hdr s x.
Proof.
  unfold hdr, put. cbn. destruct (decide (x = p)) as [->|Hx].
  - rewrite lookup_insert_eq. reflexivity.
  - rewrite lookup_insert_ne by congruence. reflexivity.
Qed.
Lemma hdr_freep s p x : hdr (s <| ar_freep := p |>) x = hdr s x.
Proof. reflexivity. Qed.
Lemma hdr_brk s p x : hdr (s <| ar_brk := p |>) x = hdr s x.
Proof. reflexivity. Qed.
Lemma put_freep p h s : ar_freep (put p h s) = ar_freep s.
Proof. reflexivity. Qed.
Lemma put_brk p h s : ar_brk (put p h s) = ar_brk s.
Proof. reflexivity. Qed.

(** A list of headers stays one when the headers keep their sizes, and all
    but the last one their successors. *)
Lemma seg_frame s s' F p : NoDup (p :: map fst F) ->
  (forall x, x ∈ map fst F -> h_size (hdr s' x) = h_size (hdr s x)) ->
  (forall x, x ∈ p :: map fst F -> x <> endn p F -> h_ptr (hdr s' x) = h_ptr (hdr s x)) ->
  seg s p F -> seg s' p F.
Proof.
  revert p. induction F as [|[a n] F IH]; intros p Hnd Hs Hp; cbn; [auto|]. intros (H1 & H2 & H3).
  cbn in *. apply NoDup_cons in Hnd as [Hpn Hnd]. split; [|split].
  - rewrite Hp; [exact H1 | left |]. intros ->. apply Hpn. apply endn_in.
  - rewrite Hs; [exact H2 | left].
  - apply IH; auto. { intros x Hx. apply Hs. right. exact Hx. } intros x Hx Hne. apply Hp; [right; exact Hx | exact Hne].
Qed.
(** The successors of another header with the same pointer. *)
Lemma seg_move s s' p q F : NoDup (map fst F) ->
  (forall x, x ∈ map fst F -> hdr s' x = hdr s x) -> h_ptr (hdr s' q) = h_ptr (hdr s p) ->
  seg s p F -> seg s' q F /\ (F <> [] -> endn q F = endn p F).
Proof.
  intros Hnd Hh Hp. destruct F as [|[a n] F]; cbn; [split; [auto | congruence]|]. intros (H1 & H2 & H3). split; [|auto].
  split; [congruence|]. split; [rewrite Hh; [exact H2 | left]|].
  apply (seg_frame s); [exact Hnd | | | exact H3].
  - intros x Hx. rewrite Hh; [reflexivity | right; exact Hx].
  - intros x Hx _. rewrite Hh; [reflexivity | exact Hx].
Qed.

Lemma sorted_nodup F lo : sorted lo F -> NoDup (map fst F).
Proof.
  revert lo. induction F as [|[a n] F IH]; cbn; intros lo H; [constructor|]. destruct H as (H1 & H2 & H3).
  constructor; [|eapply IH; exact H3]. intros Ha. apply map_fst_in in Ha as [m Hm].
  destruct (sorted_in _ _ _ H3 Hm) as [H _]. cbn in H. lia.
Qed.
Lemma sorted_nodup_base F lo p : sorted lo F -> p <= lo -> NoDup (p :: map fst F).
Proof.
  intros H Hp. constructor; [|eapply sorted_nodup; exact H]. intros Hin. apply map_fst_in in Hin as [m Hm].
  destruct (sorted_in _ _ _ H Hm) as [H' _]. cbn in H'. lia.
Qed.

(** Following the pointers from [x] visits [l]. *)
Fixpoint path (s : arena) (x : Z) (l : list Z) : Prop :=
  match l with [] => True | y :: l' => h_ptr (hdr s x) = y /\ path s y l' end.
Lemma path_app s l2 : forall l1 x, path s x (l1 ++ l2) <-> path s x l1 /\ path s (List.last l1 x) l2.
Proof.
  induction l1 as [|y l1 IH]; intros x; [cbn; tauto|]. cbn [app path]. rewrite IH.
  replace (List.last (y :: l1) x) with (List.last l1 y) by (clear; revert y; induction l1 as [|z l1 IH]; intros y; [reflexivity|];
    cbn [List.last] in *; destruct l1; [reflexivity | apply (IH y)]). tauto.
Qed.
Lemma seg_path s F p q : seg s p F -> h_ptr (hdr s (endn p F)) = q -> path s p (map fst F ++ [q]).
Proof. revert p. induction F as [|[a n] F IH]; cbn; intros p H E; [auto|]. destruct H as (H1 & _ & H3). auto. Qed.

(** ** The ring *)

Section Ring.
Variable base : Z.

Definition ring (s : arena) (F : list (Z * Z)) : Prop :=
  seg s base F /\ h_ptr (hdr s (endn base F)) = base /\ h_size (hdr s base) = 0 /\ sorted (base + 7) F.

Definition next (F : list (Z * Z)) : Z := match F with [] => base | (a, _) :: _ => a end.

Lemma ring_ext s s' F : (forall x, hdr s' x = hdr s x) -> ring s F -> ring s' F.
Proof.
  intros Hh (Hs & He & Hz & Ho). split; [|split; [|split; [|exact Ho]]]; [|rewrite Hh; assumption..].
  apply (seg_frame s); [eapply sorted_nodup_base; [exact Ho | lia] | intros x _; rewrite Hh; reflexivity.. | exact Hs].
Qed.
Lemma ring_next s G1 G2 : ring s (G1 ++ G2) -> h_ptr (hdr s (endn base G1)) = next G2.
Proof.
  intros (Hs & He & _). rewrite endn_app in He. apply seg_app in Hs as [_ Hs].
  destruct G2 as [|[a n] G2]; cbn in *; [exact He | tauto].
Qed.
Lemma ring_split F y : y ∈ base :: map fst F -> exists G1 G2, F = G1 ++ G2 /\ y = endn base G1.
Proof.
  intros Hy. inversion Hy as [|? ? ? Hy']; subst; [exists [], F; auto|].
  apply map_fst_in in Hy' as [n Hn]. apply list_elem_of_split in Hn as (G1 & G2 & ->).
  exists (G1 ++ [(y, n)]), G2. split; [rewrite <- app_assoc; reflexivity|]. rewrite endn_app. reflexivity.
Qed.
(** From each header the ring leads back to it, through all the others. *)
Lemma ring_path s F x : ring s F -> x ∈ base :: map fst F ->
  exists l, path s x (l ++ [x]) /\ x :: l ≡ₚ base :: map fst F.
Proof.
  intros Hr Hx. destruct (ring_split _ _ Hx) as (G1 & G2 & -> & Ex). destruct Hr as (Hs & He & _ & _).
  rewrite endn_app, <- Ex in He. apply seg_app in Hs as [Hs1 Hs2]. rewrite <- Ex in Hs2.
  pose proof (seg_path _ _ _ _ Hs2 He) as P2.
  destruct G1 as [|c G1 _] using rev_ind.
  - cbn in Ex. subst x. exists (map fst G2). split; [exact P2 | reflexivity].
  - rewrite endn_app in Ex. destruct c as [c m]. cbn in Ex. subst x. apply seg_app in Hs1 as [Hs1 Hc].
    cbn in Hc. destruct Hc as (Hc & _ & _). pose proof (seg_path _ _ _ _ Hs1 Hc) as P1.
    exists (map fst G2 ++ base :: map fst G1). split.
    + replace ((map fst G2 ++ base :: map fst G1) ++ [c]) with ((map fst G2 ++ [base]) ++ map fst G1 ++ [c])
        by (rewrite <- !app_assoc; reflexivity).
      apply path_app. split; [exact P2|]. rewrite List.last_last. exact P1.
    + rewrite !map_app. cbn. rewrite <- !app_assoc. cbn.
      rewrite (Permutation_app_comm (map fst G2)). cbn. rewrite Permutation_swap. constructor.
      rewrite <- Permutation_middle. reflexivity.
Qed.

(** *** free() finds the header in front of its block *)

Definition stops (s : arena) (bp y : Z) : bool :=
  let q := h_ptr (hdr s y) in ((y <? bp) && (bp <? q)) || ((q <=? y) && ((y <? bp) || (bp <? q))).
Lemma free_find_path s bp e : stops s bp e = true -> forall l x fuel,
  path s x l -> e ∈ x :: l -> (forall y, y ∈ x :: l -> y <> e -> stops s bp y = false) ->
  (length l < fuel)%nat -> free_find fuel bp x s = Ret e s.
Proof.
  intros He. induction l as [|z l IH]; intros x fuel Hp Hin Hno Hf; (destruct fuel as [|fuel]; [cbn in Hf; lia|]);
    cbn [free_find]; unfold ptr_of; rewrite bind_get;
    (destruct (decide (x = e)) as [->|Hx];
      [unfold stops in He; destruct ((e <? bp) && _); [reflexivity | cbn in He; rewrite He; reflexivity]|]).
  - inversion Hin as [|? ? ? Hin']; subst; [congruence | inversion Hin'].
  - specialize (Hno x ltac:(left) Hx) as Hn. unfold stops in Hn. apply orb_false_iff in Hn as [-> ->].
    destruct Hp as [-> Hp]. apply IH; auto; [|intros y Hy; apply Hno; right; exact Hy | cbn in Hf; lia].
    inversion Hin as [|? ? ? Hin']; subst; [congruence | exact Hin'].
Qed.
Lemma stops_only_at s bp F1 F2 y : ring s (F1 ++ F2) -> base + 8 <= bp -> endf (base + 7) F1 <= bp -> sorted bp F2 ->
  y ∈ base :: map fst (F1 ++ F2) -> stops s bp y = bool_decide (y = endn base F1).
Proof.
  intros Hr Hb H1 H2 Hy. destruct (ring_split _ _ Hy) as (G1 & G2 & E & Ey). pose proof Hr as Hr'. rewrite E in Hr'.
  pose proof (ring_next _ _ _ Hr') as Hn. destruct Hr' as (_ & _ & _ & Hso). apply sorted_app in Hso as [Hs1 Hs2].
  destruct (sorted_endn _ _ Hs1) as [_ Hle]. destruct (sorted_endn G1 base Hs1) as [Hbase _].
  unfold stops. rewrite Ey, Hn. apply app_eq_app in E as (k & [[-> ->]|[-> ->]]).
  - destruct k as [|[a n] k].
    + rewrite app_nil_r, bool_decide_eq_true_2 by reflexivity. rewrite app_nil_r in H1. cbn.
      destruct F2 as [|[c m] F2]; cbn in *; lia.
    + rewrite bool_decide_eq_false_2.
      2:{ rewrite endn_app. cbn. cbn in Hs2. destruct Hs2 as (? & ? & Hk).
          apply sorted_app in Hk as [Hk _]. destruct (sorted_endn k a ltac:(eapply sorted_weaken; [exact Hk | lia])). lia. }
      cbn. cbn in Hs2. destruct Hs2 as (? & ? & Hk). rewrite endf_app in H1. cbn in H1.
      apply sorted_app in Hk as [Hk _]. apply sorted_endf in Hk. lia.
  - destruct k as [|[a n] k].
    + rewrite app_nil_r, bool_decide_eq_true_2 by reflexivity. rewrite app_nil_r in *. cbn in *.
      destruct G2 as [|[c m] G2]; cbn in *; lia.
    + assert (Hgt : bp < endn (endn base F1) ((a, n) :: k)).
      { cbn in H2 |- *. destruct H2 as (? & ? & H2). apply sorted_app in H2 as [H2 _].
        destruct (sorted_endn k a ltac:(eapply sorted_weaken; [exact H2 | lia])). lia. }
      rewrite endn_app in *. rewrite endf_app in *. apply sorted_app in Hs1 as [Hs1 _].
      destruct (sorted_endn _ _ Hs1) as [_ Hle1].
      rewrite bool_decide_eq_false_2 by lia. clear Hn Ey Hr Hy H2.
      set (e := endn _ ((a, n) :: k)) in *. set (f := endf _ ((a, n) :: k)) in *.
      clearbody e f. destruct G2 as [|[c m] G2]; cbn [next]; [|destruct Hs2 as [Hs2 _]]; lia.
Qed.
Lemma free_find_spec s F1 F2 bp fuel : ring s (F1 ++ F2) -> base + 8 <= bp -> endf (base + 7) F1 <= bp -> sorted bp F2 ->
  ar_freep s ∈ base :: map fst (F1 ++ F2) -> (length (F1 ++ F2) + 1 < fuel)%nat ->
  free_find fuel bp (ar_freep s) s = Ret (endn base F1) s.
Proof.
  intros Hr Hb H1 H2 Hfp Hf. destruct (ring_path _ _ _ Hr Hfp) as (l & Hp & Hl).
  assert (He : endn base F1 ∈ base :: map fst (F1 ++ F2)).
  { pose proof (endn_in F1 base) as Hin. rewrite map_app. apply elem_of_cons in Hin as [->|Hin]; [left|].
    right. apply elem_of_app. left. exact Hin. }
  assert (Hin : forall y, y ∈ ar_freep s :: l ++ [ar_freep s] -> y ∈ base :: map fst (F1 ++ F2)).
  { intros y Hy. rewrite <- Hl. change (y ∈ (ar_freep s :: l) ++ [ar_freep s]) in Hy.
    apply elem_of_app in Hy as [Hy|Hy]; [exact Hy|]. inversion Hy as [|? ? ? Hy']; subst; [left | inversion Hy']. }
  apply (free_find_path s bp (endn base F1)) with (l := l ++ [ar_freep s]).
  - rewrite (stops_only_at s bp F1 F2) by assumption. apply bool_decide_eq_true_2. reflexivity.
  - exact Hp.
  - rewrite <- Hl in He. change (endn base F1 ∈ (ar_freep s :: l) ++ [ar_freep s]). apply elem_of_app. left. exact He.
  - intros y Hy Hne. rewrite (stops_only_at s bp F1 F2) by auto. apply bool_decide_eq_false_2. exact Hne.
  - apply Permutation_length in Hl. cbn in Hl. rewrite length_map in Hl. rewrite length_app. cbn. lia.
Qed.

(** *** free() joins the block with its neighbours *)

(** After the first half: the block heads the rest of the list. *)
Record linked (s s1 : arena) (bp n1 : Z) (R : list (Z * Z)) : Prop := {
  li_same : forall x, x <> bp -> hdr s1 x = hdr s x;
  li_freep : ar_freep s1 = ar_freep s;
  li_brk : ar_brk s1 = ar_brk s;
  li_size : h_size (hdr s1 bp) = n1;
  li_pos : 0 < n1;
  li_seg : seg s1 bp R;
  li_last : h_ptr (hdr s1 (endn bp R)) = base;
  li_sorted : sorted (bp + 8 * n1) R }.

Lemma join_next_spec s F1 F2 bp n : ring s (F1 ++ F2) -> base + 8 <= bp -> endf (base + 7) F1 <= bp ->
  h_size (hdr s bp) = n -> 0 < n -> sorted (bp + 8 * n - 1) F2 -> endf (bp + 8 * n) F2 <= 2 ^ 32 -> 0 <= base ->
  exists s1 n1 R, merge (bp, n) F2 = (bp, n1) :: R /\ join_next bp (endn base F1) s = Ret tt s1 /\ linked s s1 bp n1 R.
Proof.
  intros Hr Hb H1 Hn Hn0 H2 Hend Hb0. pose proof (ring_next _ _ _ Hr) as Hnx. destruct Hr as (Hs & He & _ & _).
  apply seg_app in Hs as [_ Hs]. rewrite endn_app in He. unfold join_next, ptr_of, size_of, set_size, set_ptr, sizeof_header.
  rewrite !bind_get, Hnx, Hn. destruct F2 as [|[c m] F2]; cbn [next merge fst snd].
  - destruct (Z.eqb_spec (bp + 8 * n) base) as [E|_]; [lia|]. eexists _, n, []. split; [reflexivity|]. split; [reflexivity|].
    cbn in He. split; cbn; auto; try (rewrite hdr_put, decide_True; auto; fail).
    intros x Hx. rewrite hdr_put, decide_False by exact Hx. reflexivity.
  - destruct Hs as (Hc & Hm & Hs). destruct H2 as (Hbc & Hm0 & H2). cbn [endf] in Hend.
    assert (Hnd : NoDup (map fst F2)) by (eapply sorted_nodup; exact H2).
    assert (Hnb : forall x, x ∈ map fst F2 -> x <> bp).
    { intros x Hx ->. apply map_fst_in in Hx as [k Hk]. destruct (sorted_in _ _ _ H2 Hk) as [Hk' _]. cbn in Hk'. lia. }
    destruct (Z.eqb_spec (bp + 8 * n) c) as [E|E].
    + rewrite !bind_get, bind_modify. eexists _, (n + m), F2. split; [reflexivity|]. split; [reflexivity|].
      assert (Hnm : u32 (n + m) = n + m) by (apply u32_small; pose proof (sorted_endf _ _ H2); lia).
      set (s1 := put bp _ (put bp _ s)).
      assert (Hsame : forall x, x <> bp -> hdr s1 x = hdr s x).
      { intros x Hx. unfold s1. rewrite !hdr_put, !decide_False by exact Hx. reflexivity. }
      assert (Hbp : hdr s1 bp = mk_header (h_ptr (hdr s c)) (n + m)).
      { unfold s1. rewrite hdr_put, decide_True, hdr_put, decide_True by reflexivity. cbn. congruence. }
      destruct (seg_move s s1 c bp F2 Hnd) as [Hseg Hlast]; [intros x Hx; auto | rewrite Hbp; reflexivity | exact Hs |].
      split; auto; [rewrite Hbp; reflexivity | lia | | eapply sorted_weaken; [exact H2 | lia]].
      cbn in He. destruct F2 as [|d F2]; [cbn; rewrite Hbp; exact He|]. rewrite Hlast by discriminate.
      rewrite Hsame; [exact He|]. apply Hnb. destruct d as [d k]. cbn. apply endn_in.
    + eexists _, n, ((c, m) :: F2). split; [reflexivity|]. split; [reflexivity|]. set (s1 := put bp _ s).
      assert (Hsame : forall x, x <> bp -> hdr s1 x = hdr s x).
      { intros x Hx. unfold s1. rewrite hdr_put, decide_False by exact Hx. reflexivity. }
      assert (Hbp : hdr s1 bp = mk_header c n).
      { unfold s1. rewrite hdr_put, decide_True by reflexivity. congruence. }
      assert (Hseg : seg s1 c F2).
      { apply (seg_frame s); auto.
        - constructor; [|exact Hnd]. intros Hx. apply map_fst_in in Hx as [k Hk].
          destruct (sorted_in _ _ _ H2 Hk) as [Hk' _]. cbn in Hk'. lia.
        - intros x Hx. rewrite Hsame; auto.
        - intros x Hx _. rewrite Hsame; [reflexivity|]. apply elem_of_cons in Hx as [->|Hx]; [lia | auto]. }
      split; auto; cbn [seg endn sorted].
      * rewrite Hbp. reflexivity.
      * split; [rewrite Hbp; reflexivity|]. split; [rewrite Hsame by lia; exact Hm | exact Hseg].
      * cbn in He. rewrite Hsame; [exact He|]. pose proof (endn_in F2 c) as Hx.
        apply elem_of_cons in Hx as [->|Hx]; [lia | auto].
      * split; [lia|]. auto.
Qed.

Lemma merge_head b F : exists n F', merge b F = (b.1, n) :: F'.
Proof. destruct b as [a k], F as [|[c m] F]; cbn; [eauto|]. destruct (_ =? _); eauto. Qed.
Lemma fl_insert_nil bp n F : sorted bp F -> fl_insert (bp, n) F = merge (bp, n) F.
Proof.
  destruct F as [|[c m] F]; [reflexivity|]. intros (H & _). cbn [fl_insert fst].
  destruct (Z.ltb_spec bp c); [reflexivity | lia].
Qed.
Lemma fl_insert_snoc bp n e k F : forall G lo, sorted lo (G ++ [(e, k)]) -> endf lo (G ++ [(e, k)]) <= bp -> sorted bp F ->
  fl_insert (bp, n) ((G ++ [(e, k)]) ++ F) = G ++ merge (e, k) (merge (bp, n) F).
Proof.
  induction G as [|[c m] G IH]; intros lo Hs He HF.
  - cbn in *. destruct (Z.ltb_spec bp e); [lia|]. rewrite fl_insert_nil by exact HF. reflexivity.
  - cbn [app] in *. destruct Hs as (H1 & H2 & H3). cbn [endf] in He. cbn [fl_insert fst].
    pose proof (sorted_endf _ _ H3) as Hle. destruct (Z.ltb_spec bp c); [lia|].
    rewrite (IH (c + 8 * m) H3 He HF). destruct (merge_head (e, k) (merge (bp, n) F)) as (n' & F' & ->).
    destruct G as [|[d j] G]; cbn in H3 |- *.
    + destruct (Z.eqb_spec (c + 8 * m) e); [lia | reflexivity].
    + destruct (Z.eqb_spec (c + 8 * m) d); [lia | reflexivity].
Qed.

(** After the second half the ring holds the new list. *)
Definition freed (s1 s2 : arena) (bp e : Z) (F : list (Z * Z)) : Prop :=
  ring s2 F /\ ar_freep s2 = ar_freep s1 /\ ar_brk s2 = ar_brk s1 /\ e ∈ base :: map fst F /\
  forall x, x <> e -> hdr s2 x = hdr s1 x.

(** [base] is the header in front of the block. *)
Lemma join_prev_base s1 bp n1 R : linked s1 s1 bp n1 R -> base + 8 <= bp -> 0 <= base -> h_size (hdr s1 base) = 0 ->
  exists s2, join_prev bp base s1 = Ret tt s2 /\ freed s1 s2 bp base ((bp, n1) :: R).
Proof.
  intros [_ _ _ Hn Hn0 Hs He Hso] Hb Hb0 Hz. unfold join_prev, ptr_of, size_of, set_size, set_ptr, sizeof_header.
  rewrite !bind_get, Hz. destruct (Z.eqb_spec (base + 8 * 0) bp); [lia|]. eexists. split; [reflexivity|].
  set (s2 := put base _ s1).
  assert (Hsame : forall x, x <> base -> hdr s2 x = hdr s1 x).
  { intros x Hx. unfold s2. rewrite hdr_put, decide_False by exact Hx. reflexivity. }
  assert (Hnd : NoDup (bp :: map fst R)) by (eapply sorted_nodup_base; [exact Hso | lia]).
  assert (Hnb : forall x, x ∈ bp :: map fst R -> x <> base).
  { intros x Hx. apply elem_of_cons in Hx as [->|Hx]; [lia|]. apply map_fst_in in Hx as [k Hk].
    destruct (sorted_in _ _ _ Hso Hk) as [Hk' _]. cbn in Hk'. lia. }
  assert (Hbase : hdr s2 base = mk_header bp 0) by (unfold s2; rewrite hdr_put, decide_True by reflexivity; congruence).
  split; [|split; [reflexivity | split; [reflexivity | split; [left | exact Hsame]]]].
  split; [|split; [|split]]; cbn [seg endn sorted].
  - rewrite Hbase. split; [reflexivity|]. split; [rewrite Hsame by lia; exact Hn|].
    apply (seg_frame s1); [exact Hnd | | | exact Hs].
    + intros x Hx. rewrite Hsame; [reflexivity|]. apply Hnb. right. exact Hx.
    + intros x Hx _. rewrite Hsame; auto.
  - rewrite Hsame; [exact He|]. apply Hnb, endn_in.
  - rewrite Hbase. reflexivity.
  - split; [lia|]. auto.
Qed.

(** The last block of [F1] is. *)
Lemma join_prev_block s1 bp n1 R G e k : linked s1 s1 bp n1 R -> base + 8 <= bp -> 0 <= base ->
  seg s1 base (G ++ [(e, k)]) -> sorted (base + 7) (G ++ [(e, k)]) -> h_size (hdr s1 base) = 0 ->
  endf (base + 7) (G ++ [(e, k)]) <= bp -> k + n1 < 2 ^ 32 ->
  exists s2, join_prev bp e s1 = Ret tt s2 /\ freed s1 s2 bp e (G ++ merge (e, k) ((bp, n1) :: R)).
Proof.
  intros [_ _ _ Hn Hn0 Hs He Hso] Hb Hb0 HsG HsoG Hz Hend Hk.
  apply seg_app in HsG as [HG (Hge & Hek & _)]. apply sorted_app in HsoG as [HoG (Hlo & Hk0 & _)].
  rewrite endf_app in Hend. cbn [endf] in Hend. destruct (sorted_endn _ _ HoG) as [Hgb Hg].
  assert (HndG : NoDup (base :: map fst G)) by (eapply sorted_nodup_base; [exact HoG | lia]).
  assert (HneG : forall x, x ∈ base :: map fst G -> x <> e).
  { intros x Hx ->. apply elem_of_cons in Hx as [->|Hx]; [lia|]. apply map_fst_in in Hx as [j Hj].
    destruct (sorted_in _ _ _ HoG Hj) as (_ & Hj1 & Hj2). cbn in Hj1, Hj2. lia. }
  assert (HneR : forall x, x ∈ bp :: map fst R -> x <> e).
  { intros x Hx ->. apply elem_of_cons in Hx as [->|Hx]; [lia|]. apply map_fst_in in Hx as [j Hj].
    destruct (sorted_in _ _ _ Hso Hj) as [Hj1 _]. cbn in Hj1. lia. }
  assert (HndR : NoDup (bp :: map fst R)) by (eapply sorted_nodup_base; [exact Hso | lia]).
  unfold join_prev, ptr_of, size_of, set_size, set_ptr, sizeof_header. rewrite !bind_get, Hek. cbn [merge fst snd].
  assert (Hin : forall n' F', e ∈ base :: map fst (G ++ (e, n') :: F')).
  { intros n' F'. right. rewrite map_app. apply elem_of_app. right. left. }
  destruct (Z.eqb_spec (e + 8 * k) bp) as [E|E].
  - rewrite !bind_get, bind_modify. eexists. split; [reflexivity|]. set (s2 := put e _ (put e _ s1)).
    assert (Hsame : forall x, x <> e -> hdr s2 x = hdr s1 x).
    { intros x Hx. unfold s2. rewrite !hdr_put, !decide_False by exact Hx. reflexivity. }
    assert (Hhe : hdr s2 e = mk_header (h_ptr (hdr s1 bp)) (k + n1)).
    { unfold s2. rewrite hdr_put, decide_True, hdr_put, decide_True by reflexivity. cbn. rewrite Hn, u32_small by lia. reflexivity. }
    destruct (seg_move s1 s2 bp e R) as [HsR HlR]; [inversion HndR; assumption | intros x Hx; apply Hsame, HneR; right; exact Hx | rewrite Hhe; reflexivity | exact Hs |].
    split; [|split; [reflexivity | split; [reflexivity | split; [apply Hin | exact Hsame]]]].
    split; [|split; [|split]].
    + apply seg_app. split; [|split; [|split; [rewrite Hhe; reflexivity | exact HsR]]].
      * apply (seg_frame s1); [exact HndG | | | exact HG]; intros x Hx; [|intros _]; rewrite Hsame; auto. apply HneG. right. exact Hx.
      * rewrite Hsame; [exact Hge | apply HneG, endn_in].
    + rewrite endn_app. cbn [endn]. destruct R as [|[c m] R]; [cbn in *; rewrite Hhe; exact He|].
      rewrite HlR by discriminate. rewrite Hsame; [exact He | apply HneR, endn_in].
    + rewrite Hsame; [exact Hz | apply HneG; left].
    + apply sorted_app. split; [exact HoG|]. split; [exact Hlo|]. split; [lia|]. replace (e + 8 * (k + n1)) with (bp + 8 * n1) by lia. exact Hso.
  - eexists. split; [reflexivity|]. set (s2 := put e _ s1).
    assert (Hsame : forall x, x <> e -> hdr s2 x = hdr s1 x).
    { intros x Hx. unfold s2. rewrite !hdr_put, !decide_False by exact Hx. reflexivity. }
    assert (Hhe : hdr s2 e = mk_header bp k).
    { unfold s2. rewrite hdr_put, decide_True by reflexivity. congruence. }
    split; [|split; [reflexivity | split; [reflexivity | split; [apply Hin | exact Hsame]]]].
    split; [|split; [|split]].
    + apply seg_app. split; [|split; [|split; [rewrite Hhe; reflexivity | split; [rewrite Hhe; reflexivity |split]]]].
      * apply (seg_frame s1); [exact HndG | | | exact HG]; intros x Hx; [|intros _]; rewrite Hsame; auto. apply HneG. right. exact Hx.
      * rewrite Hsame; [exact Hge | apply HneG, endn_in].
      * rewrite Hsame; [exact Hn | apply HneR; left].
      * apply (seg_frame s1); [exact HndR | | | exact Hs]; intros x Hx; [|intros _]; rewrite Hsame; auto. apply HneR. right. exact Hx.
    + rewrite endn_app. cbn [endn]. rewrite Hsame; [exact He | apply HneR, endn_in].
    + rewrite Hsame; [exact Hz | apply HneG; left].
    + apply sorted_app. split; [exact HoG|]. split; [exact Hlo|]. split; [lia|]. split; [lia|]. auto.
Qed.

(** *** free() on the ring *)

Definition disj (x y : Z * Z) : Prop := x.1 + 8 * x.2 <= y.1 \/ y.1 + 8 * y.2 <= x.1.

Lemma split_at bp n F : 0 < n -> (forall x, x ∈ F -> disj x (bp, n)) -> forall lo, lo <= bp -> sorted lo F ->
  exists F1 F2, F = F1 ++ F2 /\ endf lo F1 <= bp /\ sorted (bp + 8 * n - 1) F2.
Proof.
  intros Hn. induction F as [|[a m] F IH]; intros Hd lo Hlo Hs; [exists [], []; cbn; auto|].
  destruct Hs as (H1 & H2 & H3). destruct (Hd (a, m) ltac:(left)) as [H|H]; cbn in H.
  - destruct (IH ltac:(intros x Hx; apply Hd; right; exact Hx) (a + 8 * m) H H3) as (F1 & F2 & -> & Hf & Hs).
    exists ((a, m) :: F1), F2. auto.
  - exists [], ((a, m) :: F). split; [reflexivity|]. split; [exact Hlo|]. cbn. split; [lia|]. auto.
Qed.

Lemma free_ring s F bp n fuel : ring s F -> 0 <= base -> base + 8 <= bp -> h_size (hdr s bp) = n -> 0 < n ->
  (forall x, x ∈ F -> disj x (bp, n)) -> endf (base + 7) F <= 2 ^ 32 -> bp + 8 * n <= 2 ^ 32 ->
  ar_freep s ∈ base :: map fst F -> (length F + 1 < fuel)%nat ->
  exists s', free fuel (bp + 8) s = Ret tt s' /\ ring s' (fl_insert (bp, n) F) /\
    ar_freep s' ∈ base :: map fst (fl_insert (bp, n) F) /\ ar_brk s' = ar_brk s /\
    forall x, x ∉ bp :: base :: map fst F -> hdr s' x = hdr s x.
Proof.
  intros Hr Hb0 Hb Hn Hn0 Hd He1 He2 Hfp Hfuel. pose proof Hr as (Hseg & _ & Hz & Hso).
  destruct (split_at bp n F Hn0 Hd (base + 7) ltac:(lia) Hso) as (F1 & F2 & -> & Hf1 & Hs2).
  assert (Hend : endf (bp + 8 * n) F2 <= 2 ^ 32).
  { rewrite endf_app in He1. destruct F2 as [|[c m] F2]; cbn in *; lia. }
  assert (Hs2' : sorted bp F2) by (eapply sorted_weaken; [exact Hs2 | lia]).
  destruct (join_next_spec s F1 F2 bp n Hr Hb Hf1 Hn Hn0 Hs2 Hend Hb0) as (s1 & n1 & R & Em & Ej & Hl).
  apply sorted_app in Hso as [Hso1 _]. apply seg_app in Hseg as [Hseg _].
  pose proof (li_same _ _ _ _ _ Hl) as Hsame.
  assert (Hl1 : linked s1 s1 bp n1 R) by (destruct Hl; split; auto).
  assert (Hne1 : forall x, x ∈ base :: map fst F1 -> x <> bp).
  { intros x Hx ->. apply elem_of_cons in Hx as [E|Hx]; [lia|]. apply map_fst_in in Hx as [j Hj].
    destruct (sorted_in _ _ _ Hso1 Hj) as (_ & Hj1 & Hj2). cbn in Hj1, Hj2. lia. }
  assert (Hz1 : h_size (hdr s1 base) = 0) by (rewrite Hsame by lia; exact Hz).
  assert (Hp : exists s2, join_prev bp (endn base F1) s1 = Ret tt s2 /\ freed s1 s2 bp (endn base F1) (fl_insert (bp, n) (F1 ++ F2))).
  { destruct F1 as [|[e k] G _] using rev_ind.
    - cbn [app endn]. rewrite fl_insert_nil, Em by exact Hs2'. apply join_prev_base; auto.
    - rewrite (fl_insert_snoc bp n e k F2 G (base + 7)) by auto. rewrite Em, endn_app. cbn [endn].
      apply join_prev_block; auto.
      + apply (seg_frame s); auto.
        * eapply sorted_nodup_base; [exact Hso1 | lia].
        * intros x Hx. rewrite Hsame; [reflexivity|]. apply Hne1. right. exact Hx.
        * intros x Hx _. rewrite Hsame; auto.
      + destruct (sorted_in (e, k) _ _ Hso1) as (H0 & H1 & H2); [apply elem_of_app; right; left|]. cbn in H0, H1, H2.
        assert (bp + 8 * n1 <= 2 ^ 32); [|lia].
        destruct F2 as [|[c m] F2]; cbn in Em; [injection Em as <- <-; lia|].
        destruct Hs2 as (_ & Hm & Hs3). pose proof (sorted_endf _ _ Hs3). cbn [endf] in Hend.
        destruct (Z.eqb_spec (bp + 8 * n) c); injection Em as <- <-; lia. }
  destruct Hp as (s2 & Ep & Hring & Hfp2 & Hbrk2 & Hein & Hsame2).
  exists (s2 <| ar_freep := endn base F1 |>). split; [|split; [eapply ring_ext; [|exact Hring]; reflexivity | split; [exact Hein | split]]].
  - unfold free, sizeof_header. rewrite bind_get. replace (bp + 8 - 8) with bp by lia.
    step by (apply (free_find_spec s F1 F2); auto). step by (exact Ej). step by (exact Ep). reflexivity.
  - cbn. rewrite Hbrk2. exact (li_brk _ _ _ _ _ Hl).
  - intros x Hx. rewrite hdr_freep, Hsame2, Hsame; [reflexivity | |]; intros ->; apply Hx.
    + left.
    + right. pose proof (endn_in F1 base) as Hin. apply elem_of_cons in Hin as [->|Hin]; [left | right].
      rewrite map_app. apply elem_of_app. left. exact Hin.
Qed.

(** *** malloc() takes the first block of the ring that is large enough *)

Variable grant : Z -> Z -> bool.

Lemma malloc_walk s nunits : forall l x fuel, path s x (l ++ [ar_freep s]) -> ar_freep s ∉ l -> (length l < fuel)%nat ->
  (exists prev y, prev ∈ x :: l /\ h_ptr (hdr s prev) = y /\ nunits <= h_size (hdr s y) /\
     malloc_loop grant fuel nunits x (h_ptr (hdr s x)) s = take_block nunits prev y s) \/
  ((forall y, y ∈ l ++ [ar_freep s] -> h_size (hdr s y) < nunits) /\
   exists fuel', (fuel = length l + S fuel')%nat /\ malloc_loop grant fuel nunits x (h_ptr (hdr s x)) s =
     bind (morecore grant fuel' nunits) (fun r => if r =? 0 then ret 0 else
       let! q := ptr_of r in malloc_loop grant fuel' nunits r q) s).
Proof.
  induction l as [|z l IH]; intros x fuel [Hp Hpath] Hni Hf; (destruct fuel as [|fuel]; [cbn in Hf; lia|]); rewrite Hp;
    cbn [malloc_loop]; unfold size_of; rewrite bind_get.
  - destruct (Z.leb_spec nunits (h_size (hdr s (ar_freep s)))) as [Hn|Hn].
    + left. exists x, (ar_freep s). split; [left|]. auto.
    + right. split. { intros y Hy. apply elem_of_cons in Hy as [->|Hy]; [exact Hn | inversion Hy]. }
      exists fuel. split; [reflexivity|]. rewrite bind_get, Z.eqb_refl. reflexivity.
  - apply not_elem_of_cons in Hni as [Hz Hni].
    destruct (Z.leb_spec nunits (h_size (hdr s z))) as [Hn|Hn].
    + left. exists x, z. split; [left|]. auto.
    + rewrite bind_get. destruct (Z.eqb_spec z (ar_freep s)); [congruence|]. unfold ptr_of at 1. rewrite bind_get.
      destruct (IH z fuel Hpath Hni ltac:(cbn in Hf; lia)) as [(prev & y & Hin & H1 & H2 & E)|(Hall & fuel' & -> & E)].
      * left. exists prev, y. split; [right; exact Hin|]. auto.
      * right. split. { intros y Hy. apply elem_of_cons in Hy as [->|Hy]; [exact Hn | auto]. }
        exists fuel'. split; [cbn; lia | exact E].
Qed.

(** What is left of the list when [nunits] are taken from a block. *)
Definition fl_take (F1 : list (Z * Z)) (y m nunits : Z) (F2 : list (Z * Z)) : list (Z * Z) :=
  if m =? nunits then F1 ++ F2 else F1 ++ (y, m - nunits) :: F2.

Record taken (s s' : arena) (prev y r nunits : Z) (F : list (Z * Z)) : Prop := {
  tk_ring : ring s' F;
  tk_freep : ar_freep s' = prev;
  tk_in : prev ∈ base :: map fst F;
  tk_brk : ar_brk s' = ar_brk s;
  tk_size : h_size (hdr s' r) = nunits;
  tk_same : forall x, x <> prev -> x <> y -> x <> r -> hdr s' x = hdr s x }.

(** The order of the headers around a block. *)
Lemma around F1 y m F2 : sorted (base + 7) (F1 ++ (y, m) :: F2) ->
  (forall x, x ∈ base :: map fst F1 -> x < y) /\ (forall x, x ∈ map fst F2 -> y + 8 * m < x) /\ 0 < m /\
  NoDup (base :: map fst F1) /\ NoDup (y :: map fst F2) /\ sorted (base + 7) F1 /\ endf (base + 7) F1 < y /\ sorted (y + 8 * m) F2.
Proof.
  intros Hso. apply sorted_app in Hso as [H1 (H2 & H3 & H4)]. pose proof (sorted_endf _ _ H1).
  split; [|split; [|split; [exact H3|]]].
  - intros x Hx. apply elem_of_cons in Hx as [->|Hx]; [lia|]. apply map_fst_in in Hx as [j Hj].
    destruct (sorted_in _ _ _ H1 Hj) as (_ & Hj1 & Hj2). cbn in Hj1, Hj2. lia.
  - intros x Hx. apply map_fst_in in Hx as [j Hj]. destruct (sorted_in _ _ _ H4 Hj) as (Hj1 & _). exact Hj1.
  - repeat split; auto; eapply sorted_nodup_base; eauto; lia.
Qed.

Lemma take_exact s F1 y m F2 : ring s (F1 ++ (y, m) :: F2) ->
  exists s', take_block m (endn base F1) y s = Ret (y + 8) s' /\
    taken s s' (endn base F1) y y m (F1 ++ F2).
Proof.
  intros Hr. pose proof (ring_next _ _ _ Hr) as Hpy. destruct Hr as (Hs & He & Hz & Hso).
  destruct (around _ _ _ _ Hso) as (HF1 & HF2 & Hm & Hnd1 & Hnd2 & Hs1 & Hlt & Hs2).
  apply seg_app in Hs as [Hsa (_ & Hym & Hsb)]. rewrite endn_app in He. cbn [endn] in He.
  pose proof (endn_in F1 base) as Hpin. pose proof (HF1 _ Hpin) as Hplt. set (prev := endn base F1) in *.
  set (s1 := put prev (mk_header (h_ptr (hdr s y)) (h_size (hdr s prev))) s). exists (s1 <| ar_freep := prev |>).
  split. { unfold take_block, size_of, ptr_of, set_ptr. rewrite bind_get, Hym, Z.eqb_refl. reflexivity. }
  assert (Hsame : forall x, x <> prev -> hdr s1 x = hdr s x).
  { intros x Hx. unfold s1. rewrite hdr_put, decide_False by exact Hx. reflexivity. }
  assert (Hhp : hdr s1 prev = mk_header (h_ptr (hdr s y)) (h_size (hdr s prev))) by (unfold s1; rewrite hdr_put, decide_True; reflexivity).
  assert (Hn2 : forall x, x ∈ map fst F2 -> x <> prev) by (intros x Hx; specialize (HF2 x Hx); lia).
  destruct (seg_move s s1 y prev F2) as [Hsc Hl]; [inversion Hnd2; assumption | intros x Hx; auto | rewrite Hhp; reflexivity | exact Hsb |].
  split; auto; try reflexivity.
  - apply (ring_ext s1); [reflexivity|]. split; [|split; [|split]].
    + apply seg_app. split; [|exact Hsc]. apply (seg_frame s); [exact Hnd1 | | | exact Hsa].
      * intros x Hx. destruct (decide (x = prev)) as [->|]; [rewrite Hhp; reflexivity | rewrite Hsame; auto].
      * intros x Hx Hne. rewrite Hsame; auto.
    + rewrite endn_app. fold prev. destruct F2 as [|[c k] F2]; [cbn in *; rewrite Hhp; exact He|].
      rewrite Hl by discriminate. rewrite Hsame; [exact He|]. apply Hn2. cbn. apply endn_in.
    + destruct (decide (base = prev)) as [E|]; [rewrite E, Hhp, <- E; exact Hz | rewrite Hsame; auto].
    + apply sorted_app. split; [exact Hs1|]. eapply sorted_weaken; [exact Hs2 | lia].
  - rewrite map_app. apply elem_of_cons in Hpin as [->|Hpin]; [left | right]. apply elem_of_app. left. exact Hpin.
  - cbn. change (h_size (hdr s1 y) = m). rewrite Hsame by lia. exact Hym.
  - intros x H1 _ _. rewrite hdr_freep. auto.
Qed.

Lemma take_tail s F1 y m F2 nunits : ring s (F1 ++ (y, m) :: F2) -> 0 < nunits < m -> m < 2 ^ 32 ->
  exists s', take_block nunits (endn base F1) y s = Ret (y + 8 * (m - nunits) + 8) s' /\
    taken s s' (endn base F1) y (y + 8 * (m - nunits)) nunits (F1 ++ (y, m - nunits) :: F2).
Proof.
  intros Hr Hnu Hm32. pose proof (ring_next _ _ _ Hr) as Hpy. destruct Hr as (Hs & He & Hz & Hso).
  destruct (around _ _ _ _ Hso) as (HF1 & HF2 & Hm & Hnd1 & Hnd2 & Hs1 & Hlt & Hs2).
  apply seg_app in Hs as [Hsa (_ & Hym & Hsb)]. rewrite endn_app in He. cbn [endn] in He.
  pose proof (endn_in F1 base) as Hpin. pose proof (HF1 _ Hpin) as Hplt. set (prev := endn base F1) in *.
  set (r := y + 8 * (m - nunits)).
  set (s0 := put y (mk_header (h_ptr (hdr s y)) (m - nunits)) s).
  set (s1 := put r (mk_header (h_ptr (hdr s0 r)) nunits) s0). exists (s1 <| ar_freep := prev |>).
  split.
  { unfold take_block, size_of, set_size, sizeof_header. rewrite bind_get, Hym.
    destruct (Z.eqb_spec m nunits); [lia|]. rewrite bind_assoc, bind_modify, u32_small by lia. fold s0.
    rewrite bind_assoc, bind_get. replace (h_size (hdr s0 y)) with (m - nunits) by (unfold s0; rewrite hdr_put, decide_True; reflexivity).
    reflexivity. }
  assert (Hsame : forall x, x <> y -> x <> r -> hdr s1 x = hdr s x).
  { intros x Hx Hx'. unfold s1, s0. rewrite !hdr_put, !decide_False by assumption. reflexivity. }
  assert (Hhy : hdr s1 y = mk_header (h_ptr (hdr s y)) (m - nunits)).
  { unfold s1, s0. rewrite hdr_put, decide_False by lia. rewrite hdr_put, decide_True; reflexivity. }
  assert (Hn1 : forall x, x ∈ base :: map fst F1 -> hdr s1 x = hdr s x) by (intros x Hx; specialize (HF1 x Hx); apply Hsame; lia).
  assert (Hn2 : forall x, x ∈ map fst F2 -> hdr s1 x = hdr s x) by (intros x Hx; specialize (HF2 x Hx); apply Hsame; lia).
  split; auto; try reflexivity.
  - apply (ring_ext s1); [reflexivity|]. split; [|split; [|split]].
    + apply seg_app. split; [|split; [|split; [rewrite Hhy; reflexivity|]]].
      * apply (seg_frame s); [exact Hnd1 | | | exact Hsa]; intros x Hx; [|intros _]; rewrite Hn1; auto. right. exact Hx.
      * fold prev. rewrite Hn1 by exact Hpin. exact Hpy.
      * apply (seg_frame s); [exact Hnd2 | | | exact Hsb]; intros x Hx; [|intros _].
        -- rewrite Hn2; auto.
        -- apply elem_of_cons in Hx as [->|Hx]; [rewrite Hhy; reflexivity | rewrite Hn2; auto].
    + rewrite endn_app. cbn [endn]. pose proof (endn_in F2 y) as Hx.
      apply elem_of_cons in Hx as [E|Hx]; [rewrite E in *; rewrite Hhy; exact He | rewrite Hn2; auto].
    + rewrite Hn1; [exact Hz | left].
    + apply sorted_app. split; [exact Hs1|]. split; [exact Hlt|]. split; [lia|]. eapply sorted_weaken; [exact Hs2 | lia].
  - rewrite map_app. apply elem_of_cons in Hpin as [->|Hpin]; [left | right]. apply elem_of_app. left. exact Hpin.
  - cbn. change (h_size (hdr s1 r) = nunits). unfold s1. rewrite hdr_put, decide_True by reflexivity. reflexivity.
  - intros x H1 H2 H3. rewrite hdr_freep. auto.
Qed.

Lemma take_spec s F1 y m F2 nunits : ring s (F1 ++ (y, m) :: F2) -> 0 < nunits <= m -> m < 2 ^ 32 ->
  exists s', take_block nunits (endn base F1) y s = Ret (y + 8 * (m - nunits) + 8) s' /\
    taken s s' (endn base F1) y (y + 8 * (m - nunits)) nunits (fl_take F1 y m nunits F2).
Proof.
  intros Hr Hn Hm. unfold fl_take. destruct (Z.eqb_spec m nunits) as [->|].
  - rewrite Z.sub_diag, Z.add_0_r. exact (take_exact s F1 y nunits F2 Hr).
  - apply take_tail; [exact Hr | lia | exact Hm].
Qed.

(** A header reached in the ring with room is that of a block of the list. *)
Lemma fits_in_list s F prev y nunits : ring s F -> prev ∈ base :: map fst F -> h_ptr (hdr s prev) = y ->
  0 < nunits <= h_size (hdr s y) -> exists F1 m F2, F = F1 ++ (y, m) :: F2 /\ prev = endn base F1 /\ nunits <= m.
Proof.
  intros Hr Hin Hp Hn. destruct (ring_split _ _ Hin) as (F1 & F2 & -> & ->).
  pose proof (ring_next _ _ _ Hr) as Hnx. rewrite Hp in Hnx. destruct Hr as (Hs & _ & Hz & _).
  apply seg_app in Hs as [_ Hs]. destruct F2 as [|[a m] F2]; cbn in Hnx; rewrite Hnx in Hn; [lia|].
  exists F1, m, F2. destruct Hs as (E1 & E2 & _). rewrite Hnx. split; [reflexivity|]. split; [reflexivity | lia].
Qed.
End Ring.
