(* ===== verification/UmallocProofs.v ===== *)
(** * The allocator of user programs: correctness

    The state of the allocator against two tables: the list [F] of the free
    blocks in order of addresses, and the map [A] of the live blocks, from the
    address of their headers to their sizes in headers. *)
From S2P Require Import Prelude.
From S2P Require Import Umalloc.

Section Proofs.
Variables (base : Z) (grant : Z -> Z -> bool).

Record heap_ok (s : arena) (F : list (Z * Z)) (A : gmap Z Z) : Prop := {
  hk_ring : ring base s F;
  hk_freep : ar_freep s ∈ base :: map fst F;
  hk_base : 0 < base /\ base + 8 <= ar_brk s;
  hk_brk : ar_brk s <= 2 ^ 32;
  hk_free : forall x, x ∈ F -> x.1 + 8 * x.2 <= ar_brk s;
  hk_live : forall a n, A !! a = Some n -> base + 8 <= a /\ 0 < n /\ a + 8 * n <= ar_brk s /\ h_size (hdr s a) = n;
  hk_apart : forall x a n, x ∈ F -> A !! a = Some n -> disj x (a, n);
  hk_alive : forall a n b m, A !! a = Some n -> A !! b = Some m -> a <> b -> disj (a, n) (b, m) }.

Lemma hk_in s F A x : heap_ok s F A -> x ∈ F -> base + 8 <= x.1 /\ 0 < x.2.
Proof.
  intros H Hx. destruct (hk_ring _ _ _ H) as (_ & _ & _ & Hso).
  destruct (sorted_in _ _ _ Hso Hx) as (H1 & H2 & _). lia.
Qed.
(** The headers of live blocks are not those of the ring. *)
Lemma live_not_in_ring s F A a n : heap_ok s F A -> A !! a = Some n -> a ∉ base :: map fst F.
Proof.
  intros H Ha Hin. destruct (hk_live _ _ _ H _ _ Ha) as (H1 & H2 & _).
  apply elem_of_cons in Hin as [->|Hin]; [lia|]. apply map_fst_in in Hin as [m Hm].
  destruct (hk_in _ _ _ _ H Hm) as [_ H3]. destruct (hk_apart _ _ _ H _ _ _ Hm Ha) as [H4|H4]; cbn in H3, H4; lia.
Qed.

(** The bytes of live blocks, headers included, are the same. *)
Definition untouched (s s' : arena) (A : gmap Z Z) : Prop :=
  forall a n x, A !! a = Some n -> a <= x -> x + 8 <= a + 8 * n -> hdr s' x = hdr s x.
Lemma untouched_trans s s1 s' A : untouched s s1 A -> untouched s1 s' A -> untouched s s' A.
Proof. intros H1 H2 a n x Ha Hx Hx'. rewrite (H2 a n x), (H1 a n x); auto. Qed.
(** No header of the ring lies in a live block. *)
Lemma ring_outside s F A a n x : heap_ok s F A -> A !! a = Some n -> a <= x -> x + 8 <= a + 8 * n ->
  x ∉ base :: map fst F.
Proof.
  intros H Ha Hx Hx' Hin. destruct (hk_live _ _ _ H _ _ Ha) as (H1 & H2 & _).
  apply elem_of_cons in Hin as [->|Hin]; [lia|]. apply map_fst_in in Hin as [m Hm].
  destruct (hk_in _ _ _ _ H Hm) as [_ H3]. destruct (hk_apart _ _ _ H _ _ _ Hm Ha) as [H4|H4]; cbn in H3, H4; lia.
Qed.

(** Nothing but the headers of the allocator matters. *)
Lemma heap_frame s s' F A : heap_ok s F A -> ar_freep s' = ar_freep s -> ar_brk s <= ar_brk s' <= 2 ^ 32 ->
  (forall x, x ∈ base :: map fst F \/ is_Some (A !! x) -> hdr s' x = hdr s x) -> heap_ok s' F A.
Proof.
  intros [Hr Hf Hb Hk HF HA Hd Hdd] Ef Eb Hh. split; auto; try lia.
  - destruct Hr as (H1 & H2 & H3 & H4). split; [|split; [|split; [|exact H4]]].
    + apply (seg_frame s); [eapply sorted_nodup_base; [exact H4 | lia] | | | exact H1].
      * intros x Hx. rewrite Hh; [reflexivity|]. left. right. exact Hx.
      * intros x Hx _. rewrite Hh; auto.
    + rewrite Hh; [exact H2|]. left. apply endn_in.
    + rewrite Hh; [exact H3|]. left. left.
  - rewrite Ef. exact Hf.
  - intros x Hx. specialize (HF x Hx). lia.
  - intros a n Ha. destruct (HA a n Ha) as (H1 & H2 & H3 & H4). rewrite Hh by (right; eauto). repeat split; auto; lia.
Qed.

(** *** The list operations keep what holds of blocks *)

Lemma merge_all (P : Z * Z -> Prop) b F :
  (forall b c m, P b -> P (c, m) -> b.1 + 8 * b.2 = c -> P (b.1, b.2 + m)) ->
  P b -> (forall x, x ∈ F -> P x) -> forall x, x ∈ merge b F -> P x.
Proof.
  intros HP Hb HF x Hx. destruct F as [|[c m] F]; cbn in Hx.
  - apply list_elem_of_singleton in Hx as ->. exact Hb.
  - destruct (Z.eqb_spec (b.1 + 8 * b.2) c) as [E|E]; apply elem_of_cons in Hx as [->|Hx].
    + apply (HP b c m); auto. apply HF. left.
    + apply HF. right. exact Hx.
    + exact Hb.
    + apply HF. exact Hx.
Qed.
Lemma fl_insert_all (P : Z * Z -> Prop) b F :
  (forall b c m, P b -> P (c, m) -> b.1 + 8 * b.2 = c -> P (b.1, b.2 + m)) ->
  P b -> (forall x, x ∈ F -> P x) -> forall x, x ∈ fl_insert b F -> P x.
Proof.
  intros HP Hb. induction F as [|c F IH]; intros HF x Hx; cbn [fl_insert] in Hx.
  - apply list_elem_of_singleton in Hx as ->. exact Hb.
  - destruct (_ <? _).
    + apply (merge_all P b (c :: F)); auto.
    + apply (merge_all P c (fl_insert b F)); auto; [apply HF; left|].
      apply IH. intros y Hy. apply HF. right. exact Hy.
Qed.
Lemma merge_big n b F : (forall x, x ∈ F -> 0 <= x.2) -> (n <= b.2 \/ exists x, x ∈ F /\ n <= x.2) -> 0 <= b.2 ->
  exists x, x ∈ merge b F /\ n <= x.2.
Proof.
  intros HF H Hb. destruct F as [|[c m] F]; cbn.
  - destruct H as [H|(x & Hx & _)]; [|inversion Hx]. exists b. split; [left | exact H].
  - assert (Hm : 0 <= m) by exact (HF (c, m) ltac:(left)). destruct (_ =? _).
    + destruct H as [H|(x & Hx & H)]; [exists (b.1, b.2 + m); split; [left | cbn; lia]|].
      apply elem_of_cons in Hx as [->|Hx]; [exists (b.1, b.2 + m); split; [left | cbn in *; lia]|].
      exists x. split; [right; exact Hx | exact H].
    + destruct H as [H|(x & Hx & H)]; [exists b; split; [left | exact H] | exists x; split; [right; exact Hx | exact H]].
Qed.
Lemma fl_insert_big b F : 0 <= b.2 -> (forall x, x ∈ F -> 0 <= x.2) -> exists x, x ∈ fl_insert b F /\ b.2 <= x.2.
Proof.
  intros Hb. induction F as [|c F IH]; intros HF; cbn [fl_insert]; [exists b; split; [left | lia]|].
  assert (HF' : forall x, x ∈ F -> 0 <= x.2) by (intros x Hx; apply HF; right; exact Hx).
  destruct (_ <? _).
  - apply merge_big; auto. left. lia.
  - apply merge_big; [|right; auto | apply HF; left].
    intros x Hx. apply (fl_insert_all (fun y => 0 <= y.2) b F); auto. cbn. lia.
Qed.
Lemma endf_le M F : (forall x, x ∈ F -> x.1 + 8 * x.2 <= M) -> forall lo, lo <= M -> endf lo F <= M.
Proof.
  induction F as [|[a n] F IH]; intros HF lo Hlo; cbn; [exact Hlo|]. apply IH.
  - intros x Hx. apply HF. right. exact Hx.
  - exact (HF (a, n) ltac:(left)).
Qed.

(** ** free() *)

Lemma free_ok s F A a n fuel : heap_ok s F A -> A !! a = Some n -> (length F + 1 < fuel)%nat ->
  exists s', free fuel (a + 8) s = Ret tt s' /\ heap_ok s' (fl_insert (a, n) F) (delete a A) /\ ar_brk s' = ar_brk s /\
    untouched s s' (delete a A).
Proof.
  intros H Ha Hfuel. pose proof H as [Hr Hf Hb Hk HF HA Hd Hdd]. destruct (HA _ _ Ha) as (H1 & H2 & H3 & H4).
  destruct (free_ring base s F a n fuel) as (s' & E & Hr' & Hf' & Hk' & Hs');
    [exact Hr | lia | exact H1 | exact H4 | exact H2 | intros x Hx; exact (Hd _ _ _ Hx Ha) | | lia | exact Hf | exact Hfuel |].
  { etransitivity; [apply (endf_le (ar_brk s)); [exact HF | lia] | exact Hk]. }
  exists s'. split; [exact E|]. split; [|split; [exact Hk'|]].
  2:{ intros b m x [Hne Hbm]%lookup_delete_Some Hx Hx'. apply Hs'. rewrite not_elem_of_cons. split.
      - intros ->. destruct (Hdd _ _ _ _ Ha Hbm Hne); cbn in *; lia.
      - exact (ring_outside _ _ _ _ _ _ H Hbm Hx Hx'). }
  split; auto; try (rewrite Hk'; auto; fail).
  - rewrite Hk'. apply (fl_insert_all (fun x => x.1 + 8 * x.2 <= ar_brk s)); [cbn; intros; lia | exact H3 | exact HF].
  - intros b m Hbm. apply lookup_delete_Some in Hbm as [Hne Hbm]. destruct (HA _ _ Hbm) as (G1 & G2 & G3 & G4).
    rewrite Hs', Hk'; [auto|]. intros Hin. apply elem_of_cons in Hin as [->|Hin]; [congruence|].
    exact (live_not_in_ring _ _ _ _ _ H Hbm Hin).
  - intros x b m Hx Hbm. apply lookup_delete_Some in Hbm as [Hne Hbm]. destruct (HA _ _ Hbm) as (_ & G2 & _ & _). revert x Hx.
    apply fl_insert_all; [|apply (Hdd a n b m); auto | intros x Hx; apply (Hd x b m); auto].
    unfold disj. cbn. intros. lia.
  - intros b m c k Hb' Hc Hne. apply lookup_delete_Some in Hb' as [_ Hb']. apply lookup_delete_Some in Hc as [_ Hc]. eauto.
Qed.

(** ** malloc() *)

Lemma heap_add s F A a n : heap_ok s F A -> base + 8 <= a -> 0 < n -> a + 8 * n <= ar_brk s -> h_size (hdr s a) = n ->
  (forall x, x ∈ F -> disj x (a, n)) -> (forall b m, A !! b = Some m -> disj (a, n) (b, m)) -> heap_ok s F (<[a := n]> A).
Proof.
  intros [Hr Hf Hb Hk HF HA Hd Hdd] H1 H2 H3 H4 HdF HdA. split; auto.
  - intros b m [[<- <-]|[_ Hbm]]%lookup_insert_Some; auto.
  - intros x b m Hx [[<- <-]|[_ Hbm]]%lookup_insert_Some; [apply HdF; exact Hx | eauto].
  - intros b m c k [[<- <-]|[_ Hb1]]%lookup_insert_Some [[<- <-]|[_ Hc1]]%lookup_insert_Some Hne; eauto; [congruence|].
    specialize (HdA _ _ Hb1). unfold disj in *. cbn in *. lia.
Qed.

(** A block of [F] is handed out in full or in part. *)
Lemma fl_take_in x F1 y m nunits F2 : x ∈ fl_take F1 y m nunits F2 ->
  x ∈ F1 ++ F2 \/ (x = (y, m - nunits) /\ m <> nunits).
Proof.
  unfold fl_take. destruct (Z.eqb_spec m nunits); [auto|]. intros [Hx|Hx]%elem_of_app; [left; apply elem_of_app; auto|].
  apply elem_of_cons in Hx as [->|Hx]; [auto | left; apply elem_of_app; auto].
Qed.
Lemma heap_take s s' F1 y m F2 A nunits : heap_ok s (F1 ++ (y, m) :: F2) A -> 0 < nunits <= m ->
  taken base s s' (endn base F1) y (y + 8 * (m - nunits)) nunits (fl_take F1 y m nunits F2) ->
  heap_ok s' (fl_take F1 y m nunits F2) (<[y + 8 * (m - nunits) := nunits]> A) /\ untouched s s' A /\
  A !! (y + 8 * (m - nunits)) = None.
Proof.
  intros H Hn [Hr' Hf' Hin' Hk' Hs' Hsame]. pose proof H as [Hr Hf Hb Hk HF HA Hd Hdd].
  pose proof Hr as (_ & _ & _ & Hso). destruct (around _ _ _ _ _ Hso) as (HF1 & HF2 & Hm & _).
  assert (Hym : (y, m) ∈ F1 ++ (y, m) :: F2) by (apply elem_of_app; right; left).
  destruct (hk_in _ _ _ _ H Hym) as [Hby _]. pose proof (HF _ Hym) as Hyk. cbn in Hby, Hyk.
  assert (Hold : forall x, x ∈ F1 ++ F2 -> x ∈ F1 ++ (y, m) :: F2).
  { intros x [Hx|Hx]%elem_of_app; apply elem_of_app; [auto | right; right; exact Hx]. }
  assert (Hpin : endn base F1 ∈ base :: map fst (F1 ++ (y, m) :: F2)).
  { pose proof (endn_in F1 base) as [->|Hi]%elem_of_cons; [left|]. right. rewrite map_app. apply elem_of_app. auto. }
  assert (Hyin : y ∈ base :: map fst (F1 ++ (y, m) :: F2)) by (right; rewrite map_app; apply elem_of_app; right; left).
  assert (Hun : untouched s s' A).
  { intros a n x Ha Hx Hx'. pose proof (ring_outside _ _ _ _ _ _ H Ha Hx Hx') as Hout. apply Hsame; try congruence.
    intros ->. pose proof (Hd _ _ _ Hym Ha) as Hdis. unfold disj in Hdis. cbn in Hdis. lia. }
  split; [|split; [exact Hun|]].
  2:{ destruct (A !! _) as [k|] eqn:Ha; [|reflexivity]. pose proof (Hd _ _ _ Hym Ha) as Hdis.
      destruct (HA _ _ Ha) as (_ & G2 & _). unfold disj in Hdis. cbn in Hdis. lia. }
  apply heap_add; [split | lia | lia | rewrite Hk'; lia | exact Hs' | | ].
  - exact Hr'.
  - rewrite Hf'. exact Hin'.
  - rewrite Hk'. exact Hb.
  - rewrite Hk'. exact Hk.
  - intros x [Hx|[-> _]]%fl_take_in; rewrite Hk'; [auto | cbn; lia].
  - intros a n Ha. rewrite Hk'. destruct (HA _ _ Ha) as (G1 & G2 & G3 & G4). rewrite (Hun a n) by (auto; lia). auto.
  - intros x a n [Hx|[-> _]]%fl_take_in Ha; [eauto|]. pose proof (Hd _ _ _ Hym Ha) as Hdis. unfold disj in *. cbn in *. lia.
  - exact Hdd.
  - intros x [Hx|[-> _]]%fl_take_in; [|unfold disj; cbn; lia]. unfold disj. cbn [fst snd].
    apply elem_of_app in Hx as [Hx|Hx].
    + apply sorted_app in Hso as [Hs1 (Hlt & _)]. destruct (sorted_in _ _ _ Hs1 Hx) as (_ & _ & Hend). lia.
    + destruct x as [c k]. assert (Hc : c ∈ map fst F2) by (apply list_elem_of_fmap; exists (c, k); auto).
      specialize (HF2 _ Hc). cbn. lia.
  - intros a n Ha. pose proof (Hd _ _ _ Hym Ha) as Hdis. destruct (HA _ _ Ha) as (_ & G2 & _).
    unfold disj in *. cbn in *. lia.
Qed.

(** The heap after sbrk(): a block of the new memory is as if it were live. *)
Lemma heap_grow s F A n : heap_ok s F A -> 0 < n -> ar_brk s + 8 * n < 2 ^ 32 ->
  A !! ar_brk s = None /\
  heap_ok (put (ar_brk s) (mk_header (h_ptr (hdr s (ar_brk s))) n) (s <| ar_brk := ar_brk s + 8 * n |>)) F
    (<[ar_brk s := n]> A) /\
  untouched s (put (ar_brk s) (mk_header (h_ptr (hdr s (ar_brk s))) n) (s <| ar_brk := ar_brk s + 8 * n |>)) A.
Proof.
  intros H Hn Hk. pose proof H as [Hr Hf Hb _ HF HA _ _].
  assert (HN : A !! ar_brk s = None).
  { destruct (A !! ar_brk s) as [m|] eqn:E; [|reflexivity]. destruct (HA _ _ E). lia. }
  split; [exact HN|]. set (s' := put _ _ _). assert (Ek : ar_brk s' = ar_brk s + 8 * n) by reflexivity.
  split.
  2:{ intros a m x Ha Hx Hx'. unfold s'. rewrite hdr_put, decide_False; [reflexivity|]. destruct (HA _ _ Ha). lia. }
  apply heap_add; [apply (heap_frame s); auto; [lia|] | lia | lia | lia | | | ].
  - intros x Hx. unfold s'. rewrite hdr_put, decide_False; [reflexivity|]. intros ->. destruct Hx as [Hx|[m Hx]]; [|congruence].
    apply elem_of_cons in Hx as [E|Hx]; [lia|]. apply map_fst_in in Hx as [k Hx].
    destruct (hk_in _ _ _ _ H Hx). specialize (HF _ Hx). cbn in *. lia.
  - unfold s'. rewrite hdr_put, decide_True; reflexivity.
  - intros x Hx. left. exact (HF x Hx).
  - intros b m Hbm. right. destruct (HA _ _ Hbm) as (_ & _ & ? & _). exact H0.
Qed.

Definition more (nunits : Z) : Z := if nunits <? 4096 then 4096 else nunits.

Lemma morecore_ok s F A nunits fuel : heap_ok s F A -> 1 <= nunits < 2 ^ 28 -> ar_brk s + 8 * more nunits < 2 ^ 32 ->
  (length F + 1 < fuel)%nat ->
  if grant (ar_brk s) (8 * more nunits) then
    exists s', morecore grant fuel nunits s = Ret (ar_freep s') s' /\
      heap_ok s' (fl_insert (ar_brk s, more nunits) F) A /\ ar_brk s' = ar_brk s + 8 * more nunits /\ untouched s s' A
  else morecore grant fuel nunits s = Ret 0 s.
Proof.
  intros H Hn Hk Hfuel. assert (Hm : 1 <= more nunits < 2 ^ 28) by (unfold more; destruct (Z.ltb_spec nunits 4096); lia).
  unfold morecore. change (if nunits <? 4096 then 4096 else nunits) with (more nunits).
  assert (Es : s32 (u32 (more nunits * sizeof_header)) = 8 * more nunits).
  { unfold sizeof_header. rewrite u32_small by lia. unfold s32. rewrite Z.mod_small by lia. lia. }
  rewrite Es. unfold sbrk. destruct (hk_base _ _ _ H) as [Hb0 Hb1].
  destruct (grant (ar_brk s) (8 * more nunits)) eqn:Eg; step by (cbv beta; rewrite Eg; reflexivity).
  - rewrite (u32_small (ar_brk s + _)) by lia. destruct (Z.eqb_spec (ar_brk s) (u32 (-1))) as [E|_].
    { assert (u32 (-1) = 2 ^ 32 - 1) by reflexivity. lia. }
    unfold set_size. rewrite bind_modify.
    destruct (heap_grow s F A (more nunits) H ltac:(lia) Hk) as (HN & Hg & Hu).
    set (s1 := put (ar_brk s) _ _) in *. change (put (ar_brk s) _ (s <| ar_brk := ar_brk s + 8 * more nunits |>)) with s1.
    destruct (free_ok s1 F _ (ar_brk s) (more nunits) fuel Hg) as (s' & E & Hs' & Ek & Hu'); [apply lookup_insert_eq | exact Hfuel|].
    exists s'. unfold sizeof_header. step by (exact E). split; [reflexivity|]. rewrite delete_insert_id in Hs', Hu' by exact HN.
    split; [exact Hs'|]. split; [rewrite Ek; reflexivity | exact (untouched_trans _ _ _ _ Hu Hu')].
  - reflexivity.
Qed.

Lemma ring_size s F a n : ring base s F -> (a, n) ∈ F -> h_size (hdr s a) = n.
Proof.
  intros (Hs & _). revert Hs. generalize base. induction F as [|[c m] F IH]; intros p Hs Hin; [inversion Hin|].
  destruct Hs as (H1 & H2 & H3). apply elem_of_cons in Hin as [[= -> ->]|Hin]; [exact H2 | eapply IH; eauto].
Qed.

(** [nunits] of the block [(y, m)] are handed out. *)
Definition granted (s s' : arena) (F1 : list (Z * Z)) (y m : Z) (F2 : list (Z * Z)) (A : gmap Z Z) (nunits : Z) : Prop :=
  heap_ok s' (fl_take F1 y m nunits F2) (<[y + 8 * (m - nunits) := nunits]> A) /\ untouched s s' A /\
  A !! (y + 8 * (m - nunits)) = None.

Lemma take_found s F A nunits prev y : heap_ok s F A -> prev ∈ base :: map fst F -> h_ptr (hdr s prev) = y ->
  0 < nunits <= h_size (hdr s y) ->
  exists F1 m F2 s', F = F1 ++ (y, m) :: F2 /\ nunits <= m /\
    take_block nunits prev y s = Ret (y + 8 * (m - nunits) + 8) s' /\ ar_brk s' = ar_brk s /\
    granted s s' F1 y m F2 A nunits.
Proof.
  intros H Hin Hp Hn. pose proof (hk_ring _ _ _ H) as Hr.
  destruct (fits_in_list base s F prev y nunits Hr Hin Hp Hn) as (F1 & m & F2 & -> & -> & Hm).
  assert (Hym : (y, m) ∈ F1 ++ (y, m) :: F2) by (apply elem_of_app; right; left).
  pose proof (hk_free _ _ _ H _ Hym) as Hy. destruct (hk_in _ _ _ _ H Hym) as [Hy1 _].
  pose proof (hk_brk _ _ _ H). pose proof (hk_base _ _ _ H). cbn in Hy, Hy1.
  destruct (take_spec base s F1 y m F2 nunits Hr ltac:(lia) ltac:(lia)) as (s' & E & Ht).
  exists F1, m, F2, s'. split; [reflexivity|]. split; [exact Hm|]. split; [exact E|]. split; [exact (tk_brk _ _ _ _ _ _ _ _ Ht)|].
  apply (heap_take s); auto. lia.
Qed.

Definition no_fit (nunits : Z) (F : list (Z * Z)) : Prop := forall x, x ∈ F -> x.2 < nunits.

(** What malloc() does: the first block of the ring with room, else one from
    the kernel, else null. *)
Inductive malloc_result (s : arena) (F : list (Z * Z)) (A : gmap Z Z) (nunits : Z) : Z -> arena -> Prop :=
| from_list F1 y m F2 s' :
    F = F1 ++ (y, m) :: F2 -> nunits <= m -> ar_brk s' = ar_brk s ->
    granted s s' F1 y m F2 A nunits ->
    malloc_result s F A nunits (y + 8 * (m - nunits) + 8) s'
| from_kernel F1 y m F2 s' :
    no_fit nunits F -> grant (ar_brk s) (8 * more nunits) = true ->
    fl_insert (ar_brk s, more nunits) F = F1 ++ (y, m) :: F2 -> nunits <= m -> ar_brk s' = ar_brk s + 8 * more nunits ->
    granted s s' F1 y m F2 A nunits ->
    malloc_result s F A nunits (y + 8 * (m - nunits) + 8) s'
| refused s' :
    no_fit nunits F -> grant (ar_brk s) (8 * more nunits) = false -> heap_ok s' F A -> ar_brk s' = ar_brk s -> untouched s s' A ->
    malloc_result s F A nunits 0 s'.

(** One walk around the ring. *)
Lemma walk_ok s F A nunits fuel : heap_ok s F A -> 0 < nunits -> (length F < fuel)%nat ->
  (exists F1 y m F2 s', F = F1 ++ (y, m) :: F2 /\ nunits <= m /\ ar_brk s' = ar_brk s /\
     granted s s' F1 y m F2 A nunits /\
     malloc_loop grant fuel nunits (ar_freep s) (h_ptr (hdr s (ar_freep s))) s = Ret (y + 8 * (m - nunits) + 8) s') \/
  (no_fit nunits F /\ exists fuel', (fuel = length F + S fuel')%nat /\
     malloc_loop grant fuel nunits (ar_freep s) (h_ptr (hdr s (ar_freep s))) s =
     bind (morecore grant fuel' nunits) (fun r => if r =? 0 then ret 0 else
       let! q := ptr_of r in malloc_loop grant fuel' nunits r q) s).
Proof.
  intros H Hn Hf. pose proof (hk_ring _ _ _ H) as Hr. pose proof Hr as (_ & _ & _ & Hso).
  destruct (ring_path base s F _ Hr (hk_freep _ _ _ H)) as (l & Hp & Hl).
  assert (Hlen : length l = length F) by (apply Permutation_length in Hl; cbn in Hl; rewrite length_map in Hl; lia).
  assert (Hnd : NoDup (ar_freep s :: l)) by (rewrite Hl; eapply sorted_nodup_base; [exact Hso | lia]).
  apply NoDup_cons in Hnd as [Hni _].
  destruct (malloc_walk grant s nunits l (ar_freep s) fuel Hp Hni ltac:(lia)) as [(prev & y & Hin & H1 & H2 & E)|(Hall & fuel' & Ef & E)].
  - left. rewrite Hl in Hin. destruct (take_found s F A nunits prev y H Hin H1 ltac:(lia)) as (F1 & m & F2 & s' & G1 & G2 & G3 & G4 & G5).
    exists F1, y, m, F2, s'. rewrite E. auto.
  - right. split; [|exists fuel'; split; [lia | exact E]]. intros [a m] Ha. cbn. rewrite <- (ring_size s F a m Hr Ha).
    apply Hall. assert (Hin : a ∈ ar_freep s :: l).
    { rewrite Hl. right. apply list_elem_of_fmap. exists (a, m). auto. }
    apply elem_of_cons in Hin as [->|Hin]; apply elem_of_app; [right; left | left; exact Hin].
Qed.

Lemma loop_ok s F A nunits fuel : heap_ok s F A -> 1 <= nunits < 2 ^ 28 -> ar_brk s + 8 * more nunits < 2 ^ 32 ->
  (2 * length F + 5 < fuel)%nat ->
  exists r s', malloc_loop grant fuel nunits (ar_freep s) (h_ptr (hdr s (ar_freep s))) s = Ret r s' /\
    malloc_result s F A nunits r s'.
Proof.
  intros H Hn Hk Hf. destruct (walk_ok s F A nunits fuel H ltac:(lia) ltac:(lia))
    as [(F1 & y & m & F2 & s' & G1 & G2 & G3 & G4 & E)|(Hno & fuel' & -> & E)].
  - do 2 eexists. split; [exact E|]. eapply from_list; eauto.
  - rewrite E. pose proof (morecore_ok s F A nunits fuel' H Hn Hk ltac:(lia)) as Hm.
    destruct (grant (ar_brk s) (8 * more nunits)) eqn:Eg.
    + destruct Hm as (s1 & E1 & H1 & Ek & Hu1). rewrite (bind_eq _ _ _ _ _ E1).
      assert (Hlen : (length (fl_insert (ar_brk s, more nunits) F) <= S (length F))%nat).
      { clear. generalize (ar_brk s, more nunits). intros b.
        assert (Hmg : forall b F, (length (merge b F) <= S (length F))%nat)
          by (intros c [|[d k] F']; cbn; [lia | destruct (_ =? _); cbn; lia]).
        induction F as [|c F IH]; cbn [fl_insert]; [cbn; lia|]. destruct (_ <? _); [apply Hmg|].
        etransitivity; [apply Hmg | cbn; lia]. }
      assert (Hfp : ar_freep s1 <> 0).
      { pose proof (hk_freep _ _ _ H1) as [->|Hin]%elem_of_cons; [destruct (hk_base _ _ _ H1); lia|].
        apply map_fst_in in Hin as [k Hin]. destruct (hk_in _ _ _ _ H1 Hin), (hk_base _ _ _ H1). cbn in *. lia. }
      destruct (Z.eqb_spec (ar_freep s1) 0); [congruence|]. unfold ptr_of. rewrite bind_get.
      destruct (walk_ok s1 _ A nunits fuel' H1 ltac:(lia) ltac:(lia)) as [(F1 & y & m & F2 & s' & G1 & G2 & G3 & G4 & E2)|(Hno' & _)].
      * do 2 eexists. split; [exact E2|]. eapply from_kernel; eauto; [congruence|].
        destruct G4 as (K1 & K2 & K3). split; [exact K1|]. split; [exact (untouched_trans _ _ _ _ Hu1 K2) | exact K3].
      * exfalso. destruct (fl_insert_big (ar_brk s, more nunits) F) as (x & Hx & Hge).
        -- cbn. unfold more. destruct (_ <? _); lia.
        -- intros x Hx. destruct (hk_in _ _ _ _ H Hx). lia.
        -- specialize (Hno' x Hx). cbn in Hge. unfold more in Hge. destruct (Z.ltb_spec nunits 4096); lia.
    + rewrite (bind_eq _ _ _ _ _ Hm). exists 0, s. split; [reflexivity|]. apply refused; auto. intros a n x; reflexivity.
Qed.

(** *** The first call *)

(** The state before it, and in general. *)
Definition heap_start (s : arena) : Prop := ar_freep s = 0 /\ 0 < base /\ base + 8 <= ar_brk s <= 2 ^ 32.
Definition heap (s : arena) (F : list (Z * Z)) (A : gmap Z Z) : Prop :=
  heap_ok s F A \/ heap_start s /\ F = [] /\ A = ∅.

Lemma init_ok s F A : heap s F A -> exists s', init_ring base s = Ret tt s' /\ heap_ok s' F A /\ ar_brk s' = ar_brk s /\
  untouched s s' A.
Proof.
  intros [H|((Hf & Hb & Hk) & -> & ->)]; unfold init_ring; rewrite bind_get.
  - destruct (Z.eqb_spec (ar_freep s) 0) as [E|_]; [|exists s; split; [reflexivity|]; split; [exact H|]; split; [reflexivity | intros a n x; reflexivity]]. exfalso.
    pose proof (hk_freep _ _ _ H) as Hin. rewrite E in Hin. destruct (hk_base _ _ _ H).
    apply elem_of_cons in Hin as [Hin|Hin]; [lia|]. apply map_fst_in in Hin as [k Hin].
    destruct (hk_in _ _ _ _ H Hin). cbn in *. lia.
  - rewrite Hf. set (s1 := put base (mk_header base 0) (s <| ar_freep := base |>)). exists s1.
    split; [reflexivity|]. split; [|split; [reflexivity | intros a n x Ha; rewrite lookup_empty in Ha; discriminate Ha]].
    assert (Hbase : hdr s1 base = mk_header base 0) by (unfold s1; rewrite hdr_put, decide_True; reflexivity).
    split; try (intros; exfalso; match goal with H : _ ∈ [] |- _ => inversion H | H : ∅ !! _ = _ |- _ => rewrite lookup_empty in H; discriminate H end); [| left | change (ar_brk s1) with (ar_brk s); lia..].
    split; [exact I|]. cbn [endn]. rewrite Hbase. split; [reflexivity|]. split; [reflexivity | exact I].
Qed.
Lemma malloc_ok s F A nbytes fuel : heap s F A -> 0 <= nbytes < 2 ^ 31 - 16 ->
  ar_brk s + 8 * more (nunits_of nbytes) < 2 ^ 32 -> (2 * length F + 5 < fuel)%nat ->
  exists r s', malloc base grant fuel nbytes s = Ret r s' /\ malloc_result s F A (nunits_of nbytes) r s'.
Proof.
  intros H Hn Hk Hf. destruct (init_ok s F A H) as (s0 & E & H0 & Ek & Hu0).
  assert (Hu : 1 <= nunits_of nbytes < 2 ^ 28).
  { unfold nunits_of, sizeof_header. rewrite (u32_small (nbytes + 8 - 1)) by lia.
    assert (0 <= (nbytes + 8 - 1) / 8 < 2 ^ 28 - 1) by (clear -Hn; dlia). rewrite u32_small; lia. }
  destruct (loop_ok s0 F A (nunits_of nbytes) fuel H0 Hu ltac:(rewrite Ek; exact Hk) Hf) as (r & s' & E' & Hm).
  exists r, s'. split.
  - unfold malloc. step by (exact E). rewrite bind_get. unfold ptr_of. rewrite bind_get. exact E'.
  - assert (Hg : forall F1 y m F2 s1, granted s0 s1 F1 y m F2 A (nunits_of nbytes) -> granted s s1 F1 y m F2 A (nunits_of nbytes)).
    { intros F1 y m F2 s1 (K1 & K2 & K3). split; [exact K1|]. split; [exact (untouched_trans _ _ _ _ Hu0 K2) | exact K3]. }
    destruct Hm; rewrite ?Ek in *; [eapply from_list | eapply from_kernel | eapply refused]; eauto; try congruence.
    exact (untouched_trans _ _ _ _ Hu0 ltac:(eassumption)).
Qed.
End Proofs.

(** ** The theorems *)

Fixpoint units (F : list (Z * Z)) : Z := match F with [] => 0 | x :: F' => x.2 + units F' end.
Lemma units_merge b F : units (merge b F) = b.2 + units F.
Proof. destruct F as [|[c m] F]; cbn; [lia|]. destruct (_ =? _); cbn; lia. Qed.
Lemma units_insert b F : units (fl_insert b F) = b.2 + units F.
Proof.
  induction F as [|c F IH]; cbn [fl_insert]; [cbn; lia|]. destruct (_ <? _); [apply units_merge|].
  rewrite units_merge, IH. cbn. lia.
Qed.

Lemma granted_live base s s' F1 y m F2 A nbytes : 0 <= nbytes < 2 ^ 31 - 16 ->
  granted base s s' F1 y m F2 A (nunits_of nbytes) ->
  let p := y + 8 * (m - nunits_of nbytes) + 8 in
  base + 16 <= p /\ p + nbytes <= (p - 8) + 8 * nunits_of nbytes <= ar_brk s'.
Proof.
  intros Hn (H & _ & _). destruct (hk_live _ _ _ _ H _ _ (lookup_insert_eq _ _ _)) as (H1 & H2 & H3 & _). cbn.
  assert (nunits_of nbytes = (nbytes + 7) / 8 + 1).
  { unfold nunits_of, sizeof_header. rewrite (u32_small (nbytes + 8 - 1)) by lia.
    replace (nbytes + 8 - 1) with (nbytes + 7) by lia.
    assert (0 <= (nbytes + 7) / 8 < 2 ^ 28) by (clear -Hn; dlia). apply u32_small. lia. }
  assert (nbytes <= 8 * ((nbytes + 7) / 8)) by (clear; dlia). lia.
Qed.

(** malloc() of a number of bytes below 2^31 - 16, while the break stays
    below 2^32, returns within twice the length of the free list.  Its result
    is the first block of the ring with room; when no block has room, a block
    cut from the memory that sbrk() grants (at least 4096 headers, joined
    with the free list); and null only when no block has room and the kernel
    refuses.  A block handed out lies in the heap, has room for the bytes
    asked for, is apart from all live and free blocks, and no byte of a live
    block is written. *)
Theorem malloc_spec base grant s F A nbytes fuel : heap base s F A -> 0 <= nbytes < 2 ^ 31 - 16 ->
  ar_brk s + 8 * more (nunits_of nbytes) < 2 ^ 32 -> (2 * length F + 5 < fuel)%nat ->
  exists p s', malloc base grant fuel nbytes s = Ret p s' /\
    malloc_result base grant s F A (nunits_of nbytes) p s' /\ untouched s s' A /\
    (p <> 0 -> A !! (p - 8) = None /\ base + 16 <= p /\ p + nbytes <= (p - 8) + 8 * nunits_of nbytes <= ar_brk s' /\
       exists F', heap_ok base s' F' (<[p - 8 := nunits_of nbytes]> A)).
Proof.
  intros H Hn Hk Hf. destruct (malloc_ok base grant s F A nbytes fuel H Hn Hk Hf) as (p & s' & E & Hm).
  exists p, s'. split; [exact E|]. split; [exact Hm|].
  destruct Hm as [F1 y m F2 s1 _ _ _ Hg|F1 y m F2 s1 _ _ _ _ _ Hg|s1 _ _ _ _ Hu]; [| |split; [exact Hu | congruence]];
    (split; [apply Hg|]; intros _; pose proof (granted_live _ _ _ _ _ _ _ _ _ Hn Hg) as [H1 H2];
     destruct Hg as (K1 & _ & K3); rewrite Z.add_simpl_r; split; [exact K3|]; split; [exact H1|]; split; [|eauto];
     rewrite Z.add_simpl_r in H2; exact H2).
Qed.

(** free() of a live block terminates within the length of the free list
    and implements the insertion of the block into the list of free blocks in
    order of addresses, joined with the neighbours it touches, so that no two
    free blocks ever touch; no memory is lost, and no byte of another live
    block is written. *)
Theorem free_spec base s F A p n fuel : heap base s F A -> A !! (p - 8) = Some n -> (length F + 1 < fuel)%nat ->
  exists s', free fuel p s = Ret tt s' /\ heap_ok base s' (fl_insert (p - 8, n) F) (delete (p - 8) A) /\
    untouched s s' (delete (p - 8) A) /\ sorted (base + 7) (fl_insert (p - 8, n) F) /\
    units (fl_insert (p - 8, n) F) = n + units F.
Proof.
  intros [H|(_ & _ & ->)] Ha Hf; [|rewrite lookup_empty in Ha; discriminate Ha].
  destruct (free_ok base s F A (p - 8) n fuel H Ha Hf) as (s' & E & H' & _ & Hu). rewrite Z.sub_simpl_r in E.
  exists s'. split; [exact E|]. split; [exact H'|]. split; [exact Hu|]. split; [apply (hk_ring _ _ _ _ H')|].
  apply units_insert.
Qed.

(** *** Runs of a program *)

Section Runs.
Variables (base : Z) (grant : Z -> Z -> bool).

(** The program calls malloc() and free(), writes to its live blocks, and
    calls sbrk() itself. *)
Inductive step : arena * gmap Z Z -> arena * gmap Z Z -> Prop :=
| step_malloc s A nbytes fuel p s' :
    0 <= nbytes < 2 ^ 31 - 16 -> ar_brk s + 8 * more (nunits_of nbytes) < 2 ^ 32 ->
    malloc base grant fuel nbytes s = Ret p s' ->
    step (s, A) (s', if p =? 0 then A else <[p - 8 := nunits_of nbytes]> A)
| step_free s A p n fuel s' :
    A !! (p - 8) = Some n -> free fuel p s = Ret tt s' -> step (s, A) (s', delete (p - 8) A)
| step_write s A p n s' :
    A !! (p - 8) = Some n -> ar_freep s' = ar_freep s -> ar_brk s' = ar_brk s ->
    (forall x, x + 8 <= p \/ p - 8 + 8 * n <= x -> hdr s' x = hdr s x) -> step (s, A) (s', A)
| step_sbrk s A n :
    0 <= n -> ar_brk s + n <= 2 ^ 32 -> step (s, A) (s <| ar_brk := ar_brk s + n |>, A).

(** More fuel does not change a result. *)
Lemma free_find_more bp : forall fuel k p s r s', free_find fuel bp p s = Ret r s' -> free_find (fuel + k) bp p s = Ret r s'.
Proof.
  induction fuel as [|fuel IH]; intros k p s r s' E; [discriminate E|]. cbn [free_find Nat.add] in *. unfold ptr_of in *.
  rewrite bind_get in *. destruct (_ && _); [exact E|]. destruct (_ && _); [exact E | apply IH; exact E].
Qed.
Lemma free_more fuel k p s u s' : free fuel p s = Ret u s' -> free (fuel + k) p s = Ret u s'.
Proof.
  unfold free. rewrite !bind_get. intros (q & s1 & E & E')%bind_inv. step by (apply free_find_more; exact E). exact E'.
Qed.
Lemma malloc_loop_more n : forall fuel k prev p s r s', malloc_loop grant fuel n prev p s = Ret r s' ->
  malloc_loop grant (fuel + k) n prev p s = Ret r s'.
Proof.
  induction fuel as [|fuel IH]; intros k prev p s r s' E; [discriminate E|]. cbn [malloc_loop Nat.add] in *.
  unfold size_of, ptr_of in *. rewrite bind_get in *. destruct (n <=? _); [exact E|]. rewrite bind_get in *.
  destruct (p =? _); [|rewrite bind_get in *; apply IH; exact E].
  apply bind_inv in E as (q & s1 & E1 & E2). assert (E1' : morecore grant (fuel + k) n s = Ret q s1).
  { revert E1. unfold morecore. intros (q' & s2 & E1 & E3)%bind_inv. rewrite (bind_eq _ _ _ _ _ E1).
    destruct (q' =? _); [exact E3|]. unfold set_size in *. rewrite bind_modify in *.
    apply bind_inv in E3 as (v & s3 & E3 & E4). step by (apply free_more; exact E3). exact E4. }
  rewrite (bind_eq _ _ _ _ _ E1'). destruct (q =? 0); [exact E2|]. rewrite bind_get in *. apply IH. exact E2.
Qed.
Lemma malloc_more fuel k nbytes s r s' : malloc base grant fuel nbytes s = Ret r s' ->
  malloc base grant (fuel + k) nbytes s = Ret r s'.
Proof.
  unfold malloc. intros (v & s1 & E & E')%bind_inv. rewrite (bind_eq _ _ _ _ _ E).
  unfold ptr_of in *. rewrite !bind_get in *. apply malloc_loop_more. exact E'.
Qed.

Definition heap_inv (st : arena * gmap Z Z) : Prop := exists F, heap base st.1 F st.2.

Lemma step_inv st st' : step st st' -> heap_inv st -> heap_inv st'.
Proof.
  intros Hst [F H]. unfold heap_inv. destruct Hst as [s A nbytes fuel p s' Hn Hk E|s A p n fuel s' Ha E|s A p n s' Ha Ef Eb Hh|s A n Hn Hk];
    cbn [fst snd] in *.
  - destruct (malloc_ok base grant s F A nbytes (fuel + S (2 * length F + 5)) H Hn Hk ltac:(lia)) as (p' & s1 & E1 & Hm).
    apply (malloc_more _ (S (2 * length F + 5))) in E. rewrite E in E1. injection E1 as <- <-.
    destruct Hm as [F1 y m F2 s1 _ _ _ Hg|F1 y m F2 s1 _ _ _ _ _ Hg|s1 _ _ Hg _ _];
      [| |exists F; left; exact Hg]; pose proof (granted_live _ _ _ _ _ _ _ _ _ Hn Hg) as [H1 _]; destruct Hg as (K1 & _);
      pose proof (hk_base _ _ _ _ K1); (destruct (Z.eqb_spec (y + 8 * (m - nunits_of nbytes) + 8) 0); [lia|]);
      rewrite Z.add_simpl_r; eexists; left; exact K1.
  - destruct H as [H|(_ & _ & ->)]; [|rewrite lookup_empty in Ha; discriminate Ha].
    destruct (free_ok base s F A (p - 8) n (fuel + S (length F + 1)) H Ha ltac:(lia)) as (s1 & E1 & H1 & _).
    rewrite Z.sub_simpl_r, (free_more _ (S (length F + 1)) _ _ _ _ E) in E1. injection E1 as <-. eexists; left; exact H1.
  - destruct H as [H|(_ & _ & ->)]; [|rewrite lookup_empty in Ha; discriminate Ha]. exists F. left.
    pose proof (hk_brk _ _ _ _ H). pose proof (hk_live _ _ _ _ H _ _ Ha) as (G1 & G2 & _).
    apply (heap_frame base s); auto; [lia|]. intros x Hx. apply Hh. destruct Hx as [Hx|[k Hk]].
    + apply elem_of_cons in Hx as [->|Hx]; [lia|]. apply map_fst_in in Hx as [k Hk].
      destruct (hk_in _ _ _ _ _ H Hk), (hk_apart _ _ _ _ H _ _ _ Hk Ha) as [Hd|Hd]; cbn in *; lia.
    + destruct (hk_live _ _ _ _ H _ _ Hk) as (G3 & G4 & _). destruct (decide (p - 8 = x)) as [<-|Hne]; [lia|].
      destruct (hk_alive _ _ _ _ H _ _ _ _ Ha Hk Hne) as [Hd|Hd]; cbn in Hd; lia.
  - exists F. destruct H as [H|((H1 & H2 & H3) & -> & ->)]; [left|right].
    + apply (heap_frame base s); auto. cbn. lia.
    + split; [|auto]. split; [exact H1|]. split; [exact H2|]. cbn. lia.
Qed.
End Runs.


(** *** A program *)

Definition start : arena := mk_arena ∅ 0 4096.
Definition always (_ _ : Z) : bool := true.
Lemma start_ok : heap_start 8 start.
Proof. repeat split; cbn; lia. Qed.

Lemma malloc_spec_witness : exists p s', malloc 8 always 10 10 start = Ret p s' /\ p = 36848 /\ ar_brk s' = 36864.
Proof.
  destruct (malloc_spec 8 always start [] ∅ 10 10) as (p & s' & E & _); [right; split; [exact start_ok | auto] | lia | vm_compute; reflexivity | cbn; lia |].
  exists p, s'. split; [exact E|]. vm_compute in E. injection E as <- <-. split; reflexivity.
Defined.
(** The state after malloc(10). *)
Definition after : arena := match malloc 8 always 10 10 start with Ret _ s => s | Stop _ s => s end.
Lemma after_ok : heap 8 after [(4096, 4093)] {[ 36840 := 3 ]}.
Proof.
  destruct (malloc_ok 8 always start [] ∅ 10 10) as (p & s' & E & Hm); [right; split; [exact start_ok | auto] | lia | vm_compute; reflexivity | cbn; lia |].
  assert (Ea : s' = after) by (unfold after; rewrite E; reflexivity).
  inversion Hm as [F1 y m F2 s1 HF _ _ _ | F1 y m F2 s1 _ _ HF _ _ Hg | s1 _ Hg _ _ _]; subst p s1.
  - destruct F1; discriminate HF.
  - change (fl_insert _ []) with [(4096, 4096)] in HF. destruct F1 as [|x F1]; [|destruct F1; discriminate HF].
    injection HF as <- <- <-. destruct Hg as (Hg & _). rewrite Ea in Hg. left. exact Hg.
  - discriminate Hg.
Qed.
Lemma free_spec_witness : exists s', free 10 36848 after = Ret tt s' /\ heap_ok 8 s' [(4096, 4096)] ∅.
Proof.
  destruct (free_spec 8 after [(4096, 4093)] {[ 36840 := 3 ]} 36848 3 10 after_ok) as (s' & E & H & _);
    [reflexivity | cbn; lia |].
  exists s'. split; [exact E|]. replace (∅ : gmap Z Z) with (delete (36848 - 8) ({[ 36840 := 3 ]} : gmap Z Z)) by reflexivity. exact H.
Defined.

(** malloc() of almost 2^32 bytes: the number of headers overflows, and the
    block that is returned has no room at all. *)
Lemma malloc_overflow : exists s', malloc 8 always 10 (2 ^ 32 - 1) start = Ret 36864 s' /\ ar_brk s' = 36864.
Proof. eexists. split; [vm_compute; reflexivity | reflexivity]. Qed.
(** malloc() of 2^31 bytes: the request to the kernel becomes negative, and the
    header of the block is written where the break was, above the new one. *)
Lemma malloc_shrinks : nunits_of (2 ^ 31) = 2 ^ 28 + 1 /\ s32 (u32 (nunits_of (2 ^ 31) * sizeof_header)) = - 2 ^ 31 + 8.
Proof. split; reflexivity. Qed.
