(* ===== verification/JosString.v ===== *)
(** * JOS: strings and memory

    [src/labs/lab02-mem-management/lib/string.c] on the flat byte memory of
    [CString.v].  Loops without a bound in the code take a [fuel] argument and
    return [None] when it is used up; any fuel beyond the terminator is
    enough.  The string instructions of the inline assembly are the loops they
    perform; [strtol()] reads a string given as its bytes without the NUL. *)
From S2P Require Import Prelude.
From S2P Require Import CString.
From S2P Require Import Printfmt.

(** *** Strings in memory *)

Fixpoint strlen (fuel : nat) (m : mem) (s : Z) : option Z :=
  match fuel with
  | O => None
  | S fuel' => if m s =? 0 then Some 0 else Z.add 1 <$> strlen fuel' m (s + 1)
  end.
Fixpoint strnlen (m : mem) (s : Z) (size : nat) : Z :=
  match size with
  | O => 0
  | S size' => if m s =? 0 then 0 else 1 + strnlen m (s + 1) size'
  end.
Fixpoint strcpy (fuel : nat) (m : mem) (dst src : Z) : option mem :=
  match fuel with
  | O => None
  | S fuel' =>
      let m' := store8 m dst (m src) in
      if m src =? 0 then Some m' else strcpy fuel' m' (dst + 1) (src + 1)
  end.
Definition strcat (fuel : nat) (m : mem) (dst src : Z) : option mem :=
  len ← strlen fuel m dst;
  strcpy fuel m (dst + len) src.
Fixpoint strncpy (m : mem) (dst src : Z) (size : nat) : mem :=
  match size with
  | O => m
  | S size' =>
      let m' := store8 m dst (m src) in
      (* If strlen(src) < size, null-pad 'dst' out to 'size' chars *)
      strncpy m' (dst + 1) (if negb (m' src =? 0) then src + 1 else src) size'
  end.
(** [while (--size > 0 && *src != '\0') *dst++ = *src++; *dst = '\0';] from
    [size - 1] on: the memory and [dst]. *)
Fixpoint strlcpy_loop (m : mem) (dst src : Z) (size : nat) : mem * Z :=
  match size with
  | O => (store8 m dst 0, dst)
  | S size' =>
      if m src =? 0 then (store8 m dst 0, dst)
      else strlcpy_loop (store8 m dst (m src)) (dst + 1) (src + 1) size'
  end.
Definition strlcpy (m : mem) (dst src size : Z) : mem * Z :=
  if 0 <? size then
    let '(m', d) := strlcpy_loop m dst src (Z.to_nat (size - 1)) in (m', d - dst)
  else (m, 0).
Fixpoint strcmp (fuel : nat) (m : mem) (p q : Z) : option Z :=
  match fuel with
  | O => None
  | S fuel' => if negb (m p =? 0) && (m p =? m q) then strcmp fuel' m (p + 1) (q + 1) else Some (m p - m q)
  end.
Fixpoint strncmp (m : mem) (p q : Z) (n : nat) : Z :=
  match n with
  | O => 0
  | S n' => if negb (m p =? 0) && (m p =? m q) then strncmp m (p + 1) (q + 1) n' else m p - m q
  end.
(** A null pointer is 0. *)
Fixpoint strchr (fuel : nat) (m : mem) (s c : Z) : option Z :=
  match fuel with
  | O => None
  | S fuel' => if m s =? 0 then Some 0 else if m s =? u8 c then Some s else strchr fuel' m (s + 1) c
  end.
Fixpoint strfind (fuel : nat) (m : mem) (s c : Z) : option Z :=
  match fuel with
  | O => None
  | S fuel' => if m s =? 0 then Some s else if m s =? u8 c then Some s else strfind fuel' m (s + 1) c
  end.

(** *** Memory *)

Definition memset (m : mem) (v c n : Z) : mem :=
  if n =? 0 then m
  else if (Z.rem (s32 v) 4 =? 0) && (n mod 4 =? 0) then
    let c := Z.land c 0xFF in
    stosl m v (Z.lor (Z.lor (Z.lor (Z.shiftl c 24) (Z.shiftl c 16)) (Z.shiftl c 8)) c) (Z.to_nat (n / 4))
  else stosb m v c (Z.to_nat n).

(** [rep movsl] with the direction flag clear and set. *)
Fixpoint movsl_up (m : mem) (d s : Z) (n : nat) : mem :=
  match n with
  | O => m
  | S n' => movsl_up (store32 m d (load32 m s)) (d + 4) (s + 4) n'
  end.
Fixpoint movsl_down (m : mem) (d s : Z) (n : nat) : mem :=
  match n with
  | O => m
  | S n' => movsl_down (store32 m d (load32 m s)) (d - 4) (s - 4) n'
  end.
(** [rep movsb] *)
Fixpoint movsb_up (m : mem) (d s : Z) (n : nat) : mem :=
  match n with
  | O => m
  | S n' => movsb_up (store8 m d (m s)) (d + 1) (s + 1) n'
  end.
Fixpoint movsb_down (m : mem) (d s : Z) (n : nat) : mem :=
  match n with
  | O => m
  | S n' => movsb_down (store8 m d (m s)) (d - 1) (s - 1) n'
  end.
Definition memmove (m : mem) (dst src n : Z) : mem :=
  let aligned s d := (Z.rem (s32 s) 4 =? 0) && (Z.rem (s32 d) 4 =? 0) && (n mod 4 =? 0) in
  if (src <? dst) && (dst <? src + n) then
    let s := src + n in
    let d := dst + n in
    if aligned s d then movsl_down m (d - 4) (s - 4) (Z.to_nat (n / 4))
    else movsb_down m (d - 1) (s - 1) (Z.to_nat n)
  else if aligned src dst then movsl_up m dst src (Z.to_nat (n / 4))
  else movsb_up m dst src (Z.to_nat n).
Definition memcpy (m : mem) (dst src n : Z) : mem := memmove m dst src n.
Fixpoint memcmp (m : mem) (v1 v2 : Z) (n : nat) : Z :=
  match n with
  | O => 0
  | S n' => if negb (m v1 =? m v2) then m v1 - m v2 else memcmp m (v1 + 1) (v2 + 1) n'
  end.
Fixpoint memfind (m : mem) (s c : Z) (n : nat) : Z :=
  match n with
  | O => s
  | S n' => if m s =? u8 c then s else memfind m (s + 1) c n'
  end.

(** *** strtol() *)

Fixpoint skip_blanks (s : list Z) : list Z :=
  match s with
  | c :: s' => if (c =? 32) || (c =? 9) then skip_blanks s' else s
  | [] => []
  end.
Definition digit_of (c : Z) : option Z :=
  if (48 <=? c) && (c <=? 57) then Some (c - 48)
  else if (97 <=? c) && (c <=? 122) then Some (c - 97 + 10)
  else if (65 <=? c) && (c <=? 90) then Some (c - 65 + 10)
  else None.
(** [while (1)]: the value and the rest of the string. *)
Fixpoint strtol_digits (s : list Z) (base val : Z) : Z * list Z :=
  match s with
  | [] => (val, [])
  | c :: s' =>
      match digit_of c with
      | None => (val, s)
      | Some dig => if base <=? dig then (val, s) else strtol_digits s' base (s32 (val * base + dig))
      end
  end.
(** The result and what [*endptr] points to. *)
Definition strtol (s : list Z) (base : Z) : Z * list Z :=
  let s := skip_blanks s in
  let '(neg, s) := match s with
                   | c :: s' => if c =? 43 then (false, s') else if c =? 45 then (true, s') else (false, s)
                   | [] => (false, s)
                   end in
  let '(base, s) :=
    if ((base =? 0) || (base =? 16)) && ((nth 0 s 0 =? 48) && (nth 1 s 0 =? 120)) then (16, drop 2 s)
    else if (base =? 0) && (nth 0 s 0 =? 48) then (8, drop 1 s)
    else if base =? 0 then (10, s)
    else (base, s) in
  let '(val, s) := strtol_digits s base 0 in
  (if neg : bool then s32 (- val) else val, s).

(** ** Memory *)

Lemma memset_eq m v c n : 0 <= n -> memset m v c n = CString.memset m v c n.
Proof.
  intros Hn. unfold memset. destruct (Z.eqb_spec n 0) as [->|Hne]; [|reflexivity].
  unfold CString.memset. destruct (_ && _); reflexivity.
Qed.

Lemma store32_load32 m m' a s x : bytes_ok m ->
  store32 m' a (load32 m s) x = if (a <=? x) && (x <? a + 4) then m (s + (x - a)) else m' x.
Proof.
  intros Hm. destruct (Z.leb_spec a x), (Z.ltb_spec x (a + 4)); cbn [andb]; try (apply store32_other; lia).
  pose proof (Hm s) as B0. pose proof (Hm (s + 1)) as B1. pose proof (Hm (s + 2)) as B2. pose proof (Hm (s + 3)) as B3.
  assert (x = a \/ x = a + 1 \/ x = a + 2 \/ x = a + 3) as Hx by lia.
  unfold store32, store8, load32. change (2 ^ 8) with 256. change (2 ^ 16) with 65536. change (2 ^ 24) with 16777216.
  destruct Hx as [-> | [-> | [-> | ->]]]; repeat match goal with |- context [?p =? ?q] => destruct (Z.eqb_spec p q); try lia end;
    rewrite ?u8_shiftr by lia; unfold u8; change (2 ^ 8) with 256; change (2 ^ 16) with 65536; change (2 ^ 24) with 16777216;
    rewrite ?Z.sub_diag, ?Z.add_simpl_l, ?Z.add_0_r; clear -B0 B1 B2 B3; Z.div_mod_to_equations; lia.
Qed.

Lemma movsl_up_lookup n : forall m d s x, bytes_ok m -> d <= s \/ s + 4 * Z.of_nat n <= d ->
  movsl_up m d s n x = if (d <=? x) && (x <? d + 4 * Z.of_nat n) then m (s + (x - d)) else m x.
Proof.
  induction n as [|n IH]; intros m d s x Hm Hsep; [simpl; mem_cases; reflexivity|].
  cbn [movsl_up]. rewrite IH by (auto using store32_ok || lia). rewrite !store32_load32 by exact Hm.
  mem_cases; first [reflexivity | f_equal; lia].
Qed.
Lemma movsl_down_lookup n : forall m d s x, bytes_ok m -> s <= d ->
  movsl_down m d s n x =
    if (d + 4 - 4 * Z.of_nat n <=? x) && (x <? d + 4) then m (s + (x - d)) else m x.
Proof.
  induction n as [|n IH]; intros m d s x Hm Hsep; [simpl; mem_cases; reflexivity|].
  cbn [movsl_down]. rewrite IH by (auto using store32_ok || lia). rewrite !store32_load32 by exact Hm.
  mem_cases; first [reflexivity | f_equal; lia].
Qed.
Lemma movsb_up_eq n : forall m d s, movsb_up m d s n = copy_up m d s n.
Proof. induction n as [|n IH]; intros; [reflexivity | apply IH]. Qed.
Lemma movsb_down_eq n : forall m d s, movsb_down m (d - 1) (s - 1) n = copy_down m d s n.
Proof. induction n as [|n IH]; intros; [reflexivity|]. cbn [movsb_down copy_down]. apply IH. Qed.

(** memmove() of JOS, which copies by words where addresses and length
    allow it and downwards where the blocks overlap that way, moves the bytes
    as they were before the call and changes no other byte: it is the
    memmove() of xv6, which copies byte by byte. *)
Theorem memmove_words (m : mem) (dst src n x : Z) (Hm : bytes_ok m) (Hn : 0 <= n) :
  memmove m dst src n x = CString.memmove m dst src n x /\
  memmove m dst src n x = if (dst <=? x) && (x <? dst + n) then m (src + (x - dst)) else m x.
Proof.
  rewrite memmove_lookup by assumption. enough (memmove m dst src n x =
    if (dst <=? x) && (x <? dst + n) then m (src + (x - dst)) else m x) as -> by auto.
  unfold memmove. assert (n mod 4 = 0 -> 4 * (n / 4) = n /\ 0 <= n / 4) as Hw by (clear -Hn; intros; dlia).
  destruct ((src <? dst) && (dst <? src + n)) eqn:E; destruct (_ && (n mod 4 =? 0)) eqn:Ew.
  - apply andb_prop in E as [E%Z.ltb_lt _]. apply andb_prop in Ew as [_ Ew%Z.eqb_eq]. apply Hw in Ew as [Ew E0].
    rewrite movsl_down_lookup by (exact Hm || lia). rewrite Z2Nat.id by exact E0. rewrite Ew.
    mem_cases; first [reflexivity | f_equal; lia].
  - apply andb_prop in E as [E%Z.ltb_lt _]. rewrite movsb_down_eq, copy_down_lookup by (exact Hm || lia).
    rewrite Z2Nat.id by lia. mem_cases; first [reflexivity | f_equal; lia].
  - apply andb_prop in Ew as [_ Ew%Z.eqb_eq]. apply Hw in Ew as [Ew E0].
    apply andb_false_iff in E. rewrite movsl_up_lookup; rewrite ?Z2Nat.id, ?Ew by exact E0; [reflexivity | exact Hm|].
    destruct E as [E%Z.ltb_ge|E%Z.ltb_ge]; lia.
  - apply andb_false_iff in E. rewrite movsb_up_eq, copy_up_lookup; rewrite ?Z2Nat.id by lia; [reflexivity | exact Hm|].
    destruct E as [E%Z.ltb_ge|E%Z.ltb_ge]; lia.
Qed.
Example memmove_words_witness :
  let m := fun x => x mod 256 in
  bytes_ok m /\ 0 <= 16 /\ memmove m 104 100 16 110 = 106 /\ memmove m 96 100 16 99 = 103.
Proof.
  intros m. assert (bytes_ok m) as H by (intros x; apply Z.mod_pos_bound; lia).
  split; [exact H|]. split; [lia|].
  rewrite (proj2 (memmove_words m 104 100 16 110 H ltac:(lia))), (proj2 (memmove_words m 96 100 16 99 H ltac:(lia))).
  split; reflexivity.
Defined.

(** ** strtol() reads what the formatter prints *)

Definition hexdigits : list Z := str "0123456789abcdef".
Definition digit_char (d : Z) : Z := nth (Z.to_nat d) hexdigits 0.
(** The digits printnum() prints when it does not pad. *)
Fixpoint digits (fuel : nat) (num base : Z) : list Z :=
  match fuel with
  | O => []
  | S fuel' => (if base <=? num then digits fuel' (num / base) base else []) ++ [digit_char (num mod base)]
  end.

Lemma for_all_app' {S A B} (l1 l2 : list A) (body : A -> M S unit) (k : unit -> M S B) s :
  bind (for_all (l1 ++ l2) body) k s = bind (for_all l1 body) (fun _ => bind (for_all l2 body) k) s.
Proof. unfold bind at 1. rewrite for_all_app, <- bind_assoc. reflexivity. Qed.

Lemma printnum_digits base padc : 2 <= base -> forall fuel num width, 0 <= num < 2 ^ Z.of_nat fuel ->
  (0 < fuel)%nat -> width <= 0 ->
  emits (fun S put => printnum put fuel num base width padc) (digits fuel num base) (inl tt).
Proof.
  intros Hb. induction fuel as [|fuel IH]; intros num width Hn Hf Hw S put s; [lia|]. cbn [printnum digits].
  fold hexdigits. fold (digit_char (num mod base)). rewrite for_all_app'.
  assert (0 <= num / base < 2 ^ Z.of_nat fuel) as Hd.
  { split; [apply Z.div_pos; lia|]. apply Z.div_lt_upper_bound; [lia|].
    rewrite Nat2Z.inj_succ, Z.pow_succ_r in Hn by lia. nia. }
  destruct (Z.leb_spec base num) as [Hle|Hlt].
  - unfold bind at 1. rewrite (IH (num / base) (width - 1) Hd); [|destruct fuel; [cbn in Hn; lia | lia] | lia].
    unfold bind. destruct (for_all _ put s) as [[] s1|]; [|reflexivity]. cbn. unfold bind.
    destruct (put _ s1) as [[] s2|]; reflexivity.
  - replace (Z.to_nat (width - 1)) with O by lia. cbn. unfold bind. destruct (put _ s) as [[] s2|]; reflexivity.
Qed.

Lemma digit_char_ok d : 0 <= d < 16 -> digit_of (digit_char d) = Some d.
Proof.
  intros Hd. assert (forallb (fun d => match digit_of (digit_char d) with Some e => e =? d | None => false end)
    (seqZ 0 16) = true) as Hall by (vm_compute; reflexivity).
  rewrite forallb_forall in Hall. specialize (Hall d ltac:(apply list_elem_of_In, elem_of_seqZ; lia)).
  destruct (digit_of _) as [e|]; [|discriminate]. apply Z.eqb_eq in Hall. congruence.
Qed.
Lemma length_digits fuel num base : digits (S fuel) num base <> [].
Proof. cbn. destruct (base <=? num); [|discriminate]. intros E. apply app_eq_nil in E as [_ E]. discriminate. Qed.

Lemma s32_mul x y b : s32 (s32 x * b + y) = s32 (x * b + y).
Proof.
  assert (exists q, s32 x = x + q * 2 ^ 32) as [q ->].
  { exists (- ((x + 2 ^ 31) / 2 ^ 32)). unfold s32. rewrite Z.mod_eq by lia. lia. }
  unfold s32. replace ((x + q * 2 ^ 32) * b + y + 2 ^ 31) with (x * b + y + 2 ^ 31 + (q * b) * 2 ^ 32) by ring.
  rewrite Z_mod_plus_full. reflexivity.
Qed.

(** Reading digits: the value of what follows them does not matter. *)
Lemma strtol_reads base : 2 <= base <= 16 -> forall fuel num val rest, 0 <= num ->
  (0 < fuel)%nat -> num < base ^ Z.of_nat fuel ->
  strtol_digits (digits fuel num base ++ rest) base (s32 val) =
    strtol_digits rest base (s32 (val * base ^ Z.of_nat (length (digits fuel num base)) + num)).
Proof.
  intros Hb. induction fuel as [|fuel IH]; intros num val rest Hn Hf Hlt; [lia|]. cbn [digits].
  pose proof (Z.mod_pos_bound num base ltac:(lia)) as Hm.
  assert (forall v, strtol_digits ([digit_char (num mod base)] ++ rest) base (s32 v) =
    strtol_digits rest base (s32 (v * base + num mod base))) as Hlast.
  { intros v. cbn [app strtol_digits]. rewrite digit_char_ok by lia. rewrite (proj2 (Z.leb_gt base _)) by lia.
    rewrite s32_mul. reflexivity. }
  rewrite <- app_assoc. destruct (Z.leb_spec base num) as [Hle|Hgt].
  - assert (num / base < base ^ Z.of_nat fuel) as Hd.
    { apply Z.div_lt_upper_bound; [lia|]. rewrite Nat2Z.inj_succ, Z.pow_succ_r in Hlt by lia. exact Hlt. }
    assert (0 < num / base) as Hp by (apply Z.div_str_pos; lia).
    rewrite IH; [|lia | destruct fuel; [cbn in Hd; lia | lia] | exact Hd]. rewrite Hlast. do 2 f_equal.
    rewrite length_app. cbn [length]. rewrite Nat2Z.inj_add. change (Z.of_nat 1) with 1.
    rewrite Z.pow_add_r, Z.pow_1_r by lia. pose proof (Z_div_mod_eq_full num base) as E.
    set (q := num / base) in *. set (r := num mod base) in *. set (p := base ^ _). rewrite E. ring.
  - cbn [app]. cbn [app] in Hlast. rewrite Hlast. cbn [length]. change (Z.of_nat 1) with 1. rewrite Z.pow_1_r.
    rewrite (Z.mod_small num base) by lia. reflexivity.
Qed.

(** What may follow a number: not a letter or a digit. *)
Definition stops (rest : list Z) : Prop := match rest with [] => True | c :: _ => digit_of c = None end.
Lemma strtol_stops rest base val : stops rest -> strtol_digits rest base val = (val, rest).
Proof. destruct rest as [|c rest]; [reflexivity|]. cbn. intros ->. reflexivity. Qed.

Lemma s32_id x : - 2 ^ 31 <= x < 2 ^ 31 -> s32 x = x.
Proof. intros H. unfold s32. rewrite Z.mod_small by lia. lia. Qed.

Lemma strtol_digits_all base num rest : 2 <= base <= 16 -> 0 <= num < 2 ^ 32 -> stops rest ->
  strtol_digits (digits 64 num base ++ rest) base 0 = (s32 num, rest).
Proof.
  intros Hb Hn Hr. change 0 with (s32 0) at 1. rewrite strtol_reads; [|exact Hb | lia | lia |].
  - rewrite Z.mul_0_l, Z.add_0_l. apply strtol_stops. exact Hr.
  - pose proof (Z.pow_le_mono_l 2 base 64 ltac:(lia)). change (Z.of_nat 64) with 64. lia.
Qed.


Definition hex_char (c : Z) : Prop := exists d, digit_of c = Some d /\ d < 16.
Lemma hex_char_range c : hex_char c -> c <> 32 /\ c <> 9 /\ c <> 43 /\ c <> 45 /\ c <> 120.
Proof.
  intros (d & E & Hd). repeat split; intros ->; cbv in E; try discriminate. injection E as <-. lia.
Qed.
Lemma digits_hex base : 2 <= base <= 16 -> forall fuel num, Forall hex_char (digits fuel num base).
Proof.
  intros Hb. induction fuel as [|fuel IH]; intros num; cbn [digits]; [constructor|].
  pose proof (Z.mod_pos_bound num base ltac:(lia)). apply Forall_app. split.
  - destruct (_ <=? _); [apply IH | constructor].
  - constructor; [|constructor]. exists (num mod base). rewrite digit_char_ok by lia. split; [reflexivity | lia].
Qed.

(** A number without a sign, read in its own base, or after "0x" in any. *)
Lemma strtol_unsigned base num rest : base = 8 \/ base = 10 \/ base = 16 -> 0 <= num < 2 ^ 32 -> stops rest ->
  strtol (digits 64 num base ++ rest) base = (s32 num, rest).
Proof.
  intros Hb Hn Hr. assert (2 <= base <= 16) as Hb' by lia.
  pose proof (strtol_digits_all base num rest Hb' Hn Hr) as Hall. revert Hall.
  pose proof (digits_hex base Hb' 64 num) as Hx. pose proof (length_digits 63 num base) as Hne. revert Hx Hne.
  generalize (digits 64 num base). intros l Hx Hne Hall. destruct l as [|c l]; [congruence|].
  apply Forall_cons in Hx as [Hc Hl]. pose proof (hex_char_range c Hc) as (H1 & H2 & H3 & H4 & _).
  unfold strtol. cbn [app skip_blanks]. rewrite (proj2 (Z.eqb_neq c 32)), (proj2 (Z.eqb_neq c 9)) by assumption. cbn [orb].
  rewrite ?(proj2 (Z.eqb_neq c 43)), ?(proj2 (Z.eqb_neq c 45)) by assumption.
  cbv beta iota zeta. assert (nth 1 (c :: l ++ rest) 0 =? 120 = false) as ->.
  { apply Z.eqb_neq. cbn [nth]. destruct l as [|c2 l]; cbn [app nth].
    - destruct rest as [|c2 rest]; cbn [nth]; [lia|]. intros ->. cbv in Hr. discriminate.
    - apply Forall_cons in Hl as [Hc2 _]. apply hex_char_range in Hc2. lia. }
  rewrite !andb_false_r. destruct (Z.eqb_spec base 0); [lia|]. cbn [andb].
  rewrite <- app_comm_cons in Hall. rewrite Hall. reflexivity.
Qed.
Lemma strtol_minus num rest : 0 <= num < 2 ^ 32 -> stops rest ->
  strtol (45 :: digits 64 num 10 ++ rest) 10 = (s32 (- s32 num), rest).
Proof.
  intros Hn Hr. pose proof (strtol_digits_all 10 num rest ltac:(lia) Hn Hr) as Hall.
  unfold strtol. cbn -[digits strtol_digits app]. rewrite Hall. reflexivity.
Qed.
Lemma strtol_0x num rest : 0 <= num < 2 ^ 32 -> stops rest ->
  strtol (48 :: 120 :: digits 64 num 16 ++ rest) 0 = (s32 num, rest).
Proof.
  intros Hn Hr. pose proof (strtol_digits_all 16 num rest ltac:(lia) Hn Hr) as Hall.
  unfold strtol. cbn -[digits strtol_digits app]. unfold drop. rewrite Hall. reflexivity.
Qed.

(** The text of one number by a format with nothing else. *)
Lemma printnum_text num base padc : 2 <= base -> 0 <= num < 2 ^ 64 -> forall S (put : Z -> M S unit) s,
  printnum put 64 num base (-1) padc s = for_all (digits 64 num base) put s.
Proof.
  intros Hb Hn S put s. rewrite (printnum_digits base padc Hb 64 num (-1) Hn ltac:(lia) ltac:(lia)).
  unfold bind. destruct (for_all _ put s) as [[] s'|]; reflexivity.
Qed.
(** The characters that print [x]. *)
Definition decimal (x : Z) : list Z :=
  if x <? 0 then 45 :: digits 64 (u64 (- x)) 10 else digits 64 x 10.
Lemma emits_number num base : 2 <= base -> 0 <= num < 2 ^ 64 ->
  emits (fun S put => number put num base no_flags ;! ret tt) (digits 64 num base) (inl tt).
Proof. intros Hb Hn S put s. unfold number. unfold bind. rewrite printnum_text by assumption. reflexivity. Qed.
Lemma emits_app {A} l1 l2 r (m : forall S, (Z -> M S unit) -> M S unit) (k : forall S, (Z -> M S unit) -> M S A) :
  emits m l1 (inl tt) -> emits k l2 r -> emits (fun S put => m S put ;! k S put) (l1 ++ l2) r.
Proof.
  intros E1 E2 S put s. unfold bind at 1. rewrite (E1 S put s). unfold bind. rewrite for_all_app. unfold bind.
  destruct (for_all l1 put s) as [[] s'|]; [|reflexivity]. exact (E2 S put s').
Qed.
Lemma emits_decimal x : emits (fun S put => (if s32 x <? 0 then put 45 ;! number put (u64 (- s32 x)) 10 no_flags
  else number put (s32 x) 10 no_flags) ;! ret tt) (decimal (s32 x)) (inl tt).
Proof.
  assert (- 2 ^ 31 <= s32 x < 2 ^ 31) as Hx by (unfold s32; dlia). unfold decimal. destruct (Z.ltb_spec (s32 x) 0).
  - intros S put s. transitivity ((put 45 ;! number put (u64 (- s32 x)) 10 no_flags ;! ret tt) s); [apply bind_assoc|].
    apply (emits_then 45 _ (inl tt) (fun S put => number put (u64 (- s32 x)) 10 no_flags ;! ret tt)).
    apply emits_number; [lia | unfold u64; dlia].
  - apply emits_number; lia.
Qed.
Lemma emits_d fuel rest x ap l r : emits (fun S put => vprintfmt put fuel rest ap) l r ->
  emits (fun S put => vprintfmt put (Datatypes.S fuel) (37 :: 100 :: rest) (VInt x :: ap)) (decimal (s32 x) ++ l) r.
Proof.
  intros E S put s. rewrite <- (emits_app _ _ _ _ _ (emits_decimal x) E S put s). symmetry. etransitivity; [apply bind_assoc | reflexivity].
Qed.
Lemma emits_u c base x : c = 120 /\ base = 16 \/ c = 111 /\ base = 8 ->
  emits (fun S put => vprintfmt put 3 [37; c] [VInt x]) (digits 64 (u32 x) base) (inl tt).
Proof.
  intros H S put s. transitivity ((number put (u32 x) base no_flags ;! ret tt) s).
  - destruct H as [[-> ->]|[-> ->]]; reflexivity.
  - apply emits_number; [lia | unfold u32; dlia].
Qed.
Lemma emits_p x : emits (fun S put => vprintfmt put 3 (str "%p") [VInt x]) (48 :: 120 :: digits 64 (u32 x) 16) (inl tt).
Proof.
  intros S put s. transitivity ((put 48 ;! put 120 ;! number put (u32 x) 16 no_flags ;! ret tt) s); [reflexivity|].
  apply (emits_then 48 _ (inl tt) (fun S put => put 120 ;! number put (u32 x) 16 no_flags ;! ret tt)).
  apply (emits_then 120 _ (inl tt) (fun S put => number put (u32 x) 16 no_flags ;! ret tt)).
  apply emits_number; [lia | unfold u32; dlia].
Qed.
Lemma strtol_decimal x rest : - 2 ^ 31 <= x < 2 ^ 31 -> stops rest -> strtol (decimal x ++ rest) 10 = (x, rest).
Proof.
  intros Hx Hr. unfold decimal. destruct (Z.ltb_spec x 0).
  - replace (u64 (- x)) with (- x) by (unfold u64; dlia). rewrite <- app_comm_cons, strtol_minus by (auto || lia).
    f_equal. unfold s32. dlia.
  - rewrite strtol_unsigned by (auto || lia). rewrite s32_id by exact Hx. reflexivity.
Qed.
Lemma s32_u32 x : - 2 ^ 31 <= x < 2 ^ 31 -> s32 (u32 x) = x.
Proof. intros H. unfold s32, u32. dlia. Qed.

(** C33. strtol() reads what the formatter prints: for every 32-bit integer the
    text of "%d" in base 10, of "%x" in base 16, of "%o" in base 8 and of "%p"
    with the base left open is read back as that integer, up to the first
    character that is neither a letter nor a digit. *)
Theorem strtol_print (x : Z) (rest : list Z) (Hx : - 2 ^ 31 <= x < 2 ^ 31) (Hr : stops rest) :
  Forall (fun '(fmt, base) => exists l, text 3 (str fmt) [VInt x] = Ret tt l /\ strtol (l ++ rest) base = (x, rest))
    [("%d", 10); ("%x", 16); ("%o", 8); ("%p", 0)]%string.
Proof.
  assert (0 <= u32 x < 2 ^ 32) as Hu by (unfold u32; dlia).
  repeat apply Forall_cons_2; [..|apply Forall_nil_2]; eexists;
    (split; [first [apply (emits_text 3 _ _ _ (inl tt) (emits_d 2 [] x [] [] _ (emits_end 1 []))) | apply (emits_text 3 _ _ _ (inl tt) (emits_u 120 16 x ltac:(lia)))
      | apply (emits_text 3 _ _ _ (inl tt) (emits_u 111 8 x ltac:(lia))) | apply (emits_text 3 _ _ _ (inl tt) (emits_p x))] |]).
  - rewrite s32_id by exact Hx. rewrite app_nil_r. apply strtol_decimal; assumption.
  - rewrite strtol_unsigned, s32_u32 by (auto || lia). reflexivity.
  - rewrite strtol_unsigned, s32_u32 by (auto || lia). reflexivity.
  - rewrite <- !app_comm_cons, strtol_0x, s32_u32 by assumption. reflexivity.
Qed.
Example strtol_print_witness :
  (- 2 ^ 31 <= - 2 ^ 31 < 2 ^ 31 /\ stops (str " K>")) /\
  (exists l, text 3 (str "%d") [VInt (- 2 ^ 31)] = Ret tt l /\ strtol (l ++ str " K>") 10 = (- 2 ^ 31, str " K>")) /\
  text 3 (str "%d") [VInt (- 2 ^ 31)] = Ret tt (str "-2147483648") /\
  strtol (str "0x1fq") 0 = (31, str "q") /\ strtol (str "  017 ") 0 = (15, str " ").
Proof.
  assert (- 2 ^ 31 <= - 2 ^ 31 < 2 ^ 31 /\ stops (str " K>")) as [Hx Hr] by (split; [lia | reflexivity]).
  split; [auto|]. split; [exact (Forall_inv (strtol_print (- 2 ^ 31) (str " K>") Hx Hr))|].
  repeat split; vm_compute; reflexivity.
Defined.
