(* ===== verification/JosConsole.v ===== *)
(** * The console of JOS

    [src/labs/lab02-mem-management/kern/console.c]: the text screen, the
    serial and the parallel port, the keyboard and the ring of input
    characters.  What the ports return is an argument; what is written to
    them is a list of (port, byte). *)
From S2P Require Import Prelude.

Definition COM1 : Z := 0x3F8.
Definition COM_RX : Z := 0.
Definition COM_TX : Z := 0.
Definition COM_LSR_DATA : Z := 0x01.
Definition MONO_BASE : Z := 0x3B4.
Definition CGA_BASE : Z := 0x3D4.
Definition CRT_ROWS : Z := 25.
Definition CRT_COLS : Z := 80.
Definition CRT_SIZE : Z := CRT_ROWS * CRT_COLS.
Definition CONSBUFSIZE : Z := 512.

(** The static variables of the file, with the cells of the screen. *)
Record cons := mk_cons {
  serial_exists : bool; addr_6845 : Z; crt_buf : list Z; crt_pos : Z; kbd_shift : Z;
  cons_buf : list Z; cons_rpos : Z; cons_wpos : Z; cons_out : list (Z * Z) }.
#[export] Instance eta_cons : Eta cons := fun c =>
  mk_cons (serial_exists c) (addr_6845 c) (crt_buf c) (crt_pos c) (kbd_shift c) (cons_buf c) (cons_rpos c) (cons_wpos c)
    (cons_out c).

Definition outb (port data : Z) : M cons unit := modify (fun s => s <| cons_out ::= fun l => l ++ [(port, u8 data)] |>).
(** [a[i] = v] for an array. *)
Definition set_at (i v : Z) : M (list Z) unit := fun a =>
  if (0 <=? i) && (i <? Z.of_nat (length a)) then Ret tt (<[Z.to_nat i := v]> a) else Stop Faulted a.
Definition get_at (a : list Z) (i : Z) : option Z := if 0 <=? i then a !! Z.to_nat i else None.

(** *** Output *)

(** The waits for the transmitter and the printer are bounded and have no
    effect. *)
Definition serial_putc (c : Z) : M cons unit := outb (COM1 + COM_TX) c.
Definition lpt_putc (c : Z) : M cons unit :=
  outb (0x378 + 0) c ;! outb (0x378 + 2) (Z.lor 0x08 (Z.lor 0x04 0x01)) ;! outb (0x378 + 2) 0x08.

Definition set_cell (i c : Z) : M cons unit := zoom crt_buf (set_at i (u16 c)).
(** [memmove(crt_buf, crt_buf + CRT_COLS, (CRT_SIZE - CRT_COLS) * 2)] *)
Definition move_up (a : list Z) : list Z :=
  let n := Z.to_nat (CRT_SIZE - CRT_COLS) in take n (drop (Z.to_nat CRT_COLS) a) ++ drop n a.
Definition move_cursor : M cons unit :=
  let! addr := get addr_6845 in
  let! pos := get crt_pos in
  outb addr 14 ;! outb (addr + 1) (Z.shiftr pos 8) ;! outb addr 15 ;! outb (addr + 1) pos.
Definition set_pos (f : Z -> Z) : M cons unit := modify (fun s => s <| crt_pos ::= fun p => u16 (f p) |>).
(** "scroll some data when the screen is full" *)
Definition scroll : M cons unit :=
  let! pos := get crt_pos in
  if CRT_SIZE <=? pos then
    modify (fun s => s <| crt_buf ::= move_up |>) ;!
    for_all (seqZ (CRT_SIZE - CRT_COLS) CRT_COLS) (fun i => set_cell i (Z.lor 0x0700 32)) ;!
    set_pos (fun p => p - CRT_COLS)
  else ret tt.
(** [cons_putc] is the function below, called for the blanks of a tab. *)
Definition cga_putc (cons_putc : Z -> M cons unit) (c : Z) : M cons unit :=
  let c := if Z.land c (Z.lnot 0xFF) =? 0 then Z.lor c 0x0700 else c in
  let ch := Z.land c 0xff in
  let! pos := get crt_pos in
  (if ch =? 8 then
     if 0 <? pos then
       set_pos (fun p => p - 1) ;!
       let! pos := get crt_pos in set_cell pos (Z.lor (Z.land c (Z.lnot 0xff)) 32)
     else ret tt
   else if ch =? 10 then
     set_pos (fun p => p + CRT_COLS) ;! set_pos (fun p => p - p mod CRT_COLS)
   else if ch =? 13 then set_pos (fun p => p - p mod CRT_COLS)
   else if ch =? 9 then
     cons_putc 32 ;! cons_putc 32 ;! cons_putc 32 ;! cons_putc 32 ;! cons_putc 32
   else set_pos (fun p => p + 1) ;! set_cell pos c) ;!
  scroll ;!
  move_cursor.
Fixpoint cons_putc_ (fuel : nat) (c : Z) : M cons unit :=
  match fuel with
  | O => halt NoFuel
  | S fuel' => serial_putc c ;! lpt_putc c ;! cga_putc (cons_putc_ fuel') c
  end.
(** A tab prints blanks, which print no more characters. *)
Definition cons_putc (c : Z) : M cons unit := cons_putc_ 2 c.
Definition cputchar (c : Z) : M cons unit := cons_putc c.
Definition cputs (s : list Z) : M cons unit := for_all s cputchar.

(** *** The keyboard *)

Definition SHIFT : Z := Z.shiftl 1 0.
Definition CTL : Z := Z.shiftl 1 1.
Definition ALT : Z := Z.shiftl 1 2.
Definition CAPSLOCK : Z := Z.shiftl 1 3.
Definition NUMLOCK : Z := Z.shiftl 1 4.
Definition SCROLLLOCK : Z := Z.shiftl 1 5.
Definition E0ESC : Z := Z.shiftl 1 6.
Definition KEY_HOME : Z := 0xE0.
Definition KEY_END : Z := 0xE1.
Definition KEY_UP : Z := 0xE2.
Definition KEY_DN : Z := 0xE3.
Definition KEY_LF : Z := 0xE4.
Definition KEY_RT : Z := 0xE5.
Definition KEY_PGUP : Z := 0xE6.
Definition KEY_PGDN : Z := 0xE7.
Definition KEY_INS : Z := 0xE8.
Definition KEY_DEL : Z := 0xE9.
Definition KBS_DIB : Z := 0x01.
Definition KBS_TERR : Z := 0x20.

(** An array of 256 bytes: the first elements, then those given by index. *)
Definition initializer (first : list Z) (rest : list (Z * Z)) : list Z :=
  fold_left (fun a '(i, v) => <[Z.to_nat i := v]> a) rest (first ++ replicate (256 - length first) 0).
Definition shiftcode : list Z :=
  initializer [] [(0x1D, CTL); (0x2A, SHIFT); (0x36, SHIFT); (0x38, ALT); (0x9D, CTL); (0xB8, ALT)].
Definition togglecode : list Z := initializer [] [(0x3A, CAPSLOCK); (0x45, NUMLOCK); (0x46, SCROLLLOCK)].
(** The keys after an E0 byte that the tables share. *)
Definition KEYS : list (Z * Z) :=
  [(0xC8, KEY_UP); (0xC9, KEY_PGUP); (0xCB, KEY_LF); (0xCD, KEY_RT); (0xCF, KEY_END); (0xD0, KEY_DN); (0xD1, KEY_PGDN);
   (0xD2, KEY_INS); (0xD3, KEY_DEL)].
Definition KEYPAD : list Z := [55; 56; 57; 45; 52; 53; 54; 43; 49; 50; 51; 48; 46; 0; 0; 0; 0].
Definition normalmap : list Z :=
  initializer ([0; 0x1B] ++ str "1234567890-=" ++ [8; 9] ++ str "qwertyuiop[]" ++ [10; 0] ++ str "asdfghjkl;'`" ++ [0] ++
      str "\zxcvbnm,./" ++ [0; 42; 0; 32] ++ replicate 13 0 ++ KEYPAD)
    ([(0xC7, KEY_HOME); (0x9C, 10); (0xB5, 47)] ++ KEYS).
Definition shiftmap : list Z :=
  initializer ([0; 0x1B] ++ str "!@#$%^&*()_+" ++ [8; 9] ++ str "QWERTYUIOP{}" ++ [10; 0] ++ str "ASDFGHJKL:" ++ [34; 126; 0] ++
      str "|ZXCVBNM<>?" ++ [0; 42; 0; 32] ++ replicate 13 0 ++ KEYPAD)
    ([(0xC7, KEY_HOME); (0x9C, 10); (0xB5, 47)] ++ KEYS).
(** [C(x)] *)
Definition Ctrl (c : Z) : Z := c - 64.
Definition ctlmap : list Z :=
  initializer (replicate 16 0 ++ map Ctrl (str "QWERTYUIOP") ++ [0; 0; 13; 0] ++ map Ctrl (str "ASDFGHJKL") ++ [0; 0; 0; 0] ++
      map u8 (map Ctrl (str "\ZXCVBNM")) ++ [0; 0; u8 (Ctrl 47); 0; 0])
    ([(0x97, KEY_HOME); (0xB5, u8 (Ctrl 47))] ++ KEYS).
Definition charcode (i : Z) : list Z :=
  if i =? 0 then normalmap else if i =? 1 then shiftmap else ctlmap.

Definition kbd_at (a : list Z) (i : Z) : M cons Z := deref (get_at a i).
Definition shift_upd (f : Z -> Z) : M cons unit := modify (fun s => s <| kbd_shift ::= fun x => u32 (f x) |>).
(** The part behind the scan code: the character of key [data]. *)
Definition kbd_char (data : Z) : M cons Z :=
  let! sc := kbd_at shiftcode data in
  shift_upd (fun shift => Z.lor shift sc) ;!
  let! tc := kbd_at togglecode data in
  shift_upd (fun shift => Z.lxor shift tc) ;!
  let! shift := get kbd_shift in
  let! c := kbd_at (charcode (Z.land shift (Z.lor CTL SHIFT))) data in
  let c := if bitset shift CAPSLOCK then
             if (97 <=? c) && (c <=? 122) then c + (65 - 97)
             else if (65 <=? c) && (c <=? 90) then c + (97 - 65) else c
           else c in
  (if (Z.land (u32 (Z.lnot shift)) (Z.lor CTL ALT) =? 0) && (c =? KEY_DEL) then
     cputs (str "Rebooting!" ++ [10]) ;! outb 0x92 0x3
   else ret tt) ;!
  ret c.
(** [stat] and [data] are what the two ports return. *)
Definition kbd_proc_data (stat data : Z) : M cons Z :=
  if Z.land stat KBS_DIB =? 0 then ret (-1)
  else if bitset stat KBS_TERR then ret (-1)
  else
    let! shift := get kbd_shift in
    if data =? 0xE0 then shift_upd (fun shift => Z.lor shift E0ESC) ;! ret 0
    else if bitset data 0x80 then
      let data := if bitset shift E0ESC then data else Z.land data 0x7F in
      let! sc := kbd_at shiftcode data in
      shift_upd (fun shift => Z.land shift (Z.lnot (Z.lor sc E0ESC))) ;! ret 0
    else if bitset shift E0ESC then
      shift_upd (fun shift => Z.land shift (Z.lnot E0ESC)) ;! kbd_char (Z.lor data 0x80)
    else kbd_char data.

(** *** The ring *)

(** [while ((c = ( *proc)()) != -1)]: [procs] are the calls, the last one
    finds no data. *)
Fixpoint cons_intr (procs : list (M cons Z)) : M cons unit :=
  match procs with
  | [] => ret tt
  | proc :: procs' =>
      let! c := proc in
      if c =? -1 then ret tt
      else
        (if c =? 0 then ret tt
         else
           let! w := get cons_wpos in
           zoom cons_buf (set_at w (u8 c)) ;!
           modify (fun s => s <| cons_wpos := u32 (w + 1) |>) ;!
           let! w := get cons_wpos in
           if w =? CONSBUFSIZE then modify (fun s => s <| cons_wpos := 0 |>) else ret tt) ;!
        cons_intr procs'
  end.
(** The line status register and the receive buffer. *)
Definition serial_proc_data (lsr rx : Z) : M cons Z := if Z.land lsr COM_LSR_DATA =? 0 then ret (-1) else ret rx.
Definition serial_intr (reads : list (Z * Z)) : M cons unit :=
  let! e := get serial_exists in
  if e : bool then cons_intr (map (fun '(lsr, rx) => serial_proc_data lsr rx) reads) else ret tt.
Definition kbd_intr (reads : list (Z * Z)) : M cons unit :=
  cons_intr (map (fun '(stat, data) => kbd_proc_data stat data) reads).
(** What the two devices deliver while they are polled. *)
Definition poll : Type := list (Z * Z) * list (Z * Z).
Definition cons_getc (p : poll) : M cons Z :=
  serial_intr p.1 ;!
  kbd_intr p.2 ;!
  let! s := get id in
  if negb (cons_rpos s =? cons_wpos s) then
    let! c := deref (get_at (cons_buf s) (cons_rpos s)) in
    modify (fun s => s <| cons_rpos ::= fun r => u32 (r + 1) |>) ;!
    let! r := get cons_rpos in
    (if r =? CONSBUFSIZE then modify (fun s => s <| cons_rpos := 0 |>) else ret tt) ;!
    ret c
  else ret 0.
(** [while ((c = cons_getc()) == 0)]: the character and the polls that are
    left. *)
Fixpoint getchar (polls : list poll) : M cons (Z * list poll) :=
  match polls with
  | [] => halt Spinning
  | p :: polls' =>
      let! c := cons_getc p in
      if c =? 0 then getchar polls' else ret (c, polls')
  end.
Definition iscons (fdnum : Z) : Z := 1.

(** *** Initialisation *)

(** [cga] tells whether the memory of the colour screen keeps what is
    written, [cells] are the cells of the screen that is there. *)
Definition cga_init (cga : bool) (cells : list Z) (hi lo : Z) : M cons unit :=
  modify (fun s => s <| addr_6845 := if cga then CGA_BASE else MONO_BASE |>) ;!
  let! addr := get addr_6845 in
  outb addr 14 ;!
  outb addr 15 ;!
  modify (fun s => s <| crt_buf := cells |> <| crt_pos := u16 (Z.lor (Z.shiftl hi 8) lo) |>).
Definition serial_init (lsr : Z) : M cons unit :=
  outb (COM1 + 2) 0 ;!
  outb (COM1 + 3) 0x80 ;!
  outb (COM1 + 0) (115200 / 9600) ;!
  outb (COM1 + 1) 0 ;!
  outb (COM1 + 3) (Z.land 0x03 (Z.lnot 0x80)) ;!
  outb (COM1 + 4) 0 ;!
  outb (COM1 + 1) 0x01 ;!
  modify (fun s => s <| serial_exists := negb (lsr =? 0xFF) |>).
Definition cons_init (cga : bool) (cells : list Z) (hi lo lsr : Z) : M cons unit :=
  cga_init cga cells hi lo ;!
  serial_init lsr ;!
  let! e := get serial_exists in
  if e : bool then ret tt else cputs (str "Serial port does not exist!" ++ [10]).

Example tables_are_bytes :
  forallb (fun a => (length a =? 256)%nat && forallb (fun c => (0 <=? c) && (c <? 256)) a)
    [shiftcode; togglecode; normalmap; shiftmap; ctlmap] = true.
Proof. vm_compute. reflexivity. Qed.
Example some_keys :
  map (fun i => normalmap !! i) [0x1E; 0x39; 0x3F; 0x47; 0x53; 0x29; 0x2B; 0x37; 0x35]%nat =
    map Some [97; 32; 0; 55; 46; 96; 92; 42; 47] /\
  map (fun i => shiftmap !! i) [0x1E; 0x39; 0x28; 0x47; 0x53; 0x29; 0x2B; 0x37; 0x35]%nat =
    map Some [65; 32; 34; 55; 46; 126; 124; 42; 63] /\
  map (fun i => ctlmap !! i) [0x1E; 0x1C; 0x2B; 0x32; 0x35; 0x26; 0x27]%nat = map Some [1; 13; 28; 13; 239; 12; 0].
Proof. vm_compute. repeat split; reflexivity. Qed.
