(* ===== verification/JosTerm.v ===== *)
(** * The console of JOS is a terminal

    cons_putc() on the cells of the screen and the cursor register against a
    terminal of 25 rows: cells are put in the row of the cursor, rows move up
    when it leaves the last one. *)
From S2P Require Import Prelude.
From S2P Require Import JosConsole.

(** ** The terminal *)

Record term := mk_term { t_rows : list (list Z); t_row : nat; t_col : nat }.
Definition blank : Z := 0x0720.
Record term_ok (t : term) : Prop := {
  rows_25 : length (t_rows t) = 25%nat;
  cols_80 : Forall (fun r => length r = 80%nat) (t_rows t);
  row_in : (t_row t < 25)%nat;
  col_in : (t_col t < 80)%nat }.

Definition new_line (t : term) : term :=
  if decide (t_row t = 24%nat) then mk_term (tail (t_rows t) ++ [replicate 80 blank]) 24 0
  else mk_term (t_rows t) (S (t_row t)) 0.
Definition write_cell (c : Z) (t : term) : list (list Z) := alter (<[t_col t := c]>) (t_row t) (t_rows t).
Definition print (c : Z) (t : term) : term :=
  let t' := mk_term (write_cell c t) (t_row t) (t_col t) in
  if decide (t_col t = 79%nat) then new_line t' else mk_term (write_cell c t) (t_row t) (S (t_col t)).
(** One cell back, to the end of the row above from the first one. *)
Definition back (t : term) : term :=
  match t_col t, t_row t with
  | S col, row => mk_term (t_rows t) row col
  | O, S row => mk_term (t_rows t) row 79
  | O, O => t
  end.
Definition rubout (attr : Z) (t : term) : term :=
  if decide (t_row t = 0%nat /\ t_col t = 0%nat) then t
  else let t := back t in mk_term (write_cell (Z.lor attr 32) t) (t_row t) (t_col t).
(** A cell is a character with its attributes; without any it is grey on black. *)
Definition cell (c : Z) : Z := if Z.land c (Z.lnot 0xFF) =? 0 then Z.lor c 0x0700 else c.
Definition tab (t : term) : term := Nat.iter 5 (print (cell 32)) t.
Definition term_putc (t : term) (c : Z) : term :=
  let ch := Z.land (cell c) 0xff in
  if ch =? 8 then rubout (u16 (Z.land (cell c) (Z.lnot 0xff))) t
  else if ch =? 10 then new_line t
  else if ch =? 13 then mk_term (t_rows t) (t_row t) 0
  else if ch =? 9 then tab t
  else print (u16 (cell c)) t.

Lemma new_line_ok t : term_ok t -> term_ok (new_line t).
Proof.
  intros [H25 H80 Hr Hc]. unfold new_line. destruct (decide _) as [E|E]; constructor; cbn [t_rows t_row t_col]; try lia; auto.
  - rewrite length_app, length_tl. cbn. lia.
  - apply Forall_app. split; [|repeat constructor; apply length_replicate].
    destruct (t_rows t); [constructor | apply Forall_cons in H80; tauto].
Qed.
Lemma write_cell_ok c t : term_ok t -> forall row col, (row < 25)%nat -> (col < 80)%nat -> term_ok (mk_term (write_cell c t) row col).
Proof.
  intros [H25 H80 Hr Hc] row col Hrow Hcol. unfold write_cell. constructor; cbn [t_rows t_row t_col]; try lia.
  - rewrite length_alter. exact H25.
  - apply Forall_alter; [exact H80|]. intros r _ Hlen. rewrite length_insert. exact Hlen.
Qed.
Lemma print_ok c t : term_ok t -> term_ok (print c t).
Proof.
  intros H. pose proof (row_in _ H). pose proof (col_in _ H). unfold print. destruct (decide _).
  - apply new_line_ok, write_cell_ok; assumption.
  - apply write_cell_ok; [assumption | assumption | lia].
Qed.
Lemma back_ok t : term_ok t -> term_ok (back t).
Proof.
  intros [H25 H80 Hr Hc]. unfold back. destruct (t_col t) eqn:Ec; [destruct (t_row t) eqn:Er|];
    constructor; cbn [t_rows t_row t_col]; lia || assumption.
Qed.

(** ** The screen shows a terminal *)

(** The bytes that went to a port, to the serial one, and to the one that
    resets the machine. *)
Definition sent (port : Z) (s : cons) : list Z := omap (fun '(p, v) => if p =? port then Some v else None) (cons_out s).
Definition tx (s : cons) : list Z := sent COM1 s.
Definition resets (s : cons) : list Z := sent 0x92 s.

Record shows (s : cons) (t : term) : Prop := {
  sh_ok : term_ok t;
  sh_addr : addr_6845 s = CGA_BASE \/ addr_6845 s = MONO_BASE;
  sh_cells : crt_buf s = concat (t_rows t);
  sh_pos : crt_pos s = Z.of_nat (80 * t_row t + t_col t) }.
(** What writing to the screen leaves alone; [l] goes to the serial port. *)
Record wrote (l : list Z) (s s' : cons) : Prop := {
  wr_exists : serial_exists s' = serial_exists s;
  wr_shift : kbd_shift s' = kbd_shift s;
  wr_buf : cons_buf s' = cons_buf s;
  wr_rpos : cons_rpos s' = cons_rpos s;
  wr_wpos : cons_wpos s' = cons_wpos s;
  wr_tx : tx s' = tx s ++ l;
  wr_resets : resets s' = resets s }.

Lemma wrote_refl s : wrote [] s s.
Proof. constructor; rewrite ?app_nil_r; reflexivity. Qed.
Lemma wrote_trans l1 l2 s1 s2 s3 : wrote l1 s1 s2 -> wrote l2 s2 s3 -> wrote (l1 ++ l2) s1 s3.
Proof. intros [] []. constructor; try congruence. rewrite wr_tx1, wr_tx0, app_assoc. reflexivity. Qed.
(** The memory of the screen. *)
Lemma length_cells (rows : list (list Z)) : Forall (fun r => length r = 80%nat) rows -> length (concat rows) = (80 * length rows)%nat.
Proof. induction 1 as [|r rows Hr _ IH]; cbn [concat length]; [reflexivity|]. rewrite length_app. lia. Qed.
Lemma cells_insert (c : Z) : forall rows row col, Forall (fun r => length r = 80%nat) rows -> (row < length rows)%nat ->
  (col < 80)%nat -> <[(80 * row + col)%nat := c]> (concat rows) = concat (alter (<[col := c]>) row rows).
Proof.
  induction rows as [|r rows IH]; intros row col H80 Hr Hc; [cbn in Hr; lia|]. apply Forall_cons in H80 as [Hl H80].
  destruct row as [|row]; cbn [concat].
  - rewrite insert_app_l by lia. reflexivity.
  - rewrite insert_app_r_alt by lia. replace (80 * S row + col - length r)%nat with (80 * row + col)%nat by lia.
    cbn in Hr. rewrite IH by (assumption || lia). reflexivity.
Qed.

Lemma set_cell_eq i c s : 0 <= i < Z.of_nat (length (crt_buf s)) ->
  set_cell i c s = Ret tt (s <| crt_buf := <[Z.to_nat i := u16 c]> (crt_buf s) |>).
Proof.
  intros H. unfold set_cell, zoom, set_at. destruct (Z.leb_spec 0 i), (Z.ltb_spec i (Z.of_nat (length (crt_buf s)))); cbn [andb]; try lia.
  reflexivity.
Qed.
Lemma clear_cells v n : forall a s, 0 <= a -> a + Z.of_nat n = Z.of_nat (length (crt_buf s)) ->
  for_all (seqZ a (Z.of_nat n)) (fun i => set_cell i v) s =
    Ret tt (s <| crt_buf := take (Z.to_nat a) (crt_buf s) ++ replicate n (u16 v) |>).
Proof.
  induction n as [|n IH]; intros a s Ha Hlen.
  - cbn [seqZ]. change (seqZ a (Z.of_nat 0)) with (@nil Z). cbn [for_all]. rewrite app_nil_r, take_ge by lia. destruct s; reflexivity.
  - rewrite seqZ_cons by lia. cbn [for_all]. step by (apply set_cell_eq; lia).
    replace (Z.pred (Z.of_nat (S n))) with (Z.of_nat n) by lia. rewrite IH.
    + cbn. f_equal. destruct s; cbn. unfold set_field. cbn. f_equal.
      replace (Z.to_nat (Z.succ a)) with (S (Z.to_nat a)) by lia.
      rewrite (take_S_r _ _ (u16 v)) by (apply list_lookup_insert_eq; cbn in Hlen; lia).
      rewrite take_insert_ge by lia. rewrite <- app_assoc. reflexivity.
    + lia.
    + cbn. rewrite length_insert. lia.
Qed.

Lemma move_cursor_ok s : addr_6845 s = CGA_BASE \/ addr_6845 s = MONO_BASE ->
  exists s', move_cursor s = Ret tt s' /\ wrote [] s s' /\
    crt_buf s' = crt_buf s /\ crt_pos s' = crt_pos s /\ addr_6845 s' = addr_6845 s.
Proof.
  intros Ha. eexists. split; [reflexivity|]. cbn. split; [|auto].
  constructor; rewrite ?app_nil_r; try reflexivity; unfold tx, resets, sent; cbn; rewrite !omap_app;
    destruct Ha as [-> | ->]; cbn; rewrite !app_nil_r; reflexivity.
Qed.

(** A terminal whose cursor may have left the last row. *)
Record overshows (s : cons) (rows : list (list Z)) (row col : nat) : Prop := {
  os_addr : addr_6845 s = CGA_BASE \/ addr_6845 s = MONO_BASE;
  os_cells : crt_buf s = concat rows;
  os_pos : crt_pos s = Z.of_nat (80 * row + col);
  os_25 : length rows = 25%nat;
  os_80 : Forall (fun r => length r = 80%nat) rows;
  os_in : (row < 25 /\ col < 80 \/ row = 25 /\ col = 0)%nat }.

Lemma scroll_ok s rows : overshows s rows 25 0 -> exists s', scroll s = Ret tt s' /\ wrote [] s s' /\
  shows s' (mk_term (tail rows ++ [replicate 80 blank]) 24 0).
Proof.
  intros [Ha Hc Hp H25 H80 _]. pose proof (length_cells rows H80) as Hlen. rewrite H25 in Hlen.
  destruct rows as [|r0 rows]; [discriminate|]. apply Forall_cons in H80 as [H0 H80]. cbn [concat] in Hc, Hlen.
  assert (take 1920 (move_up (crt_buf s)) = concat rows) as Hup.
  { rewrite Hc. unfold move_up. change (Z.to_nat (CRT_SIZE - CRT_COLS)) with 1920%nat. change (Z.to_nat CRT_COLS) with 80%nat.
    rewrite length_app in Hlen. rewrite (drop_app_length' r0) by lia. rewrite (take_ge (concat rows)) by lia.
    rewrite (take_app_length' (concat rows)) by lia. reflexivity. }
  assert (length (move_up (crt_buf s)) = 2000%nat) as HL.
  { rewrite Hc. unfold move_up. change (Z.to_nat (CRT_SIZE - CRT_COLS)) with 1920%nat. change (Z.to_nat CRT_COLS) with 80%nat.
    rewrite length_app in Hlen. rewrite length_app, length_take, !length_drop, length_app. lia. }
  eexists. split.
  { unfold scroll. rewrite bind_get, Hp. change (CRT_SIZE <=? Z.of_nat (80 * 25 + 0)) with true. cbn iota.
    rewrite bind_modify. change CRT_COLS with (Z.of_nat 80). change (CRT_SIZE - Z.of_nat 80) with 1920.
    step by (apply (clear_cells (Z.lor 0x0700 32) 80 1920); [lia|];
      change (crt_buf (s <| crt_buf ::= move_up |>)) with (move_up (crt_buf s)); rewrite HL; reflexivity).
    reflexivity. }
  split; [constructor; rewrite ?app_nil_r; reflexivity|]. constructor.
  - constructor; cbn [t_rows t_row t_col]; [rewrite length_app; cbn in H25 |- *; lia | | lia | lia].
    apply Forall_app. split; [exact H80 | repeat constructor; apply length_replicate].
  - exact Ha.
  - change (take 1920 (move_up (crt_buf s)) ++ replicate 80 blank = concat (rows ++ [replicate 80 blank])).
    rewrite Hup, concat_app. cbn [concat]. rewrite app_nil_r. reflexivity.
  - change (u16 (crt_pos s - 80) = Z.of_nat (80 * 24 + 0)). rewrite Hp. reflexivity.
Qed.

Definition settled (rows : list (list Z)) (row col : nat) : term :=
  if decide (row = 25%nat) then mk_term (tail rows ++ [replicate 80 blank]) 24 0 else mk_term rows row col.
Lemma settle s rows row col : overshows s rows row col -> exists s',
  (scroll ;! move_cursor) s = Ret tt s' /\ wrote [] s s' /\ shows s' (settled rows row col).
Proof.
  intros Ho. assert (exists s1, scroll s = Ret tt s1 /\ wrote [] s s1 /\ shows s1 (settled rows row col)) as (s1 & E1 & W1 & [O A C P]).
  { unfold settled. destruct (decide (row = 25%nat)) as [->|Hr].
    - destruct Ho as [Ha Hc Hp H25 H80 Hi]. assert (col = 0%nat) as -> by lia. apply scroll_ok. constructor; assumption.
    - destruct Ho as [Ha Hc Hp H25 H80 Hi]. exists s. split; [|split; [apply wrote_refl|]].
      + unfold scroll. rewrite bind_get, Hp. destruct (Z.leb_spec CRT_SIZE (Z.of_nat (80 * row + col))) as [Hle|]; [|reflexivity].
        change CRT_SIZE with 2000 in Hle. lia.
      + constructor; try assumption. constructor; cbn [t_rows t_row t_col]; try assumption; lia. }
  step by exact E1. destruct (move_cursor_ok s1 A) as (s2 & E2 & W2 & C2 & P2 & A2). exists s2. split; [exact E2|].
  split; [apply (wrote_trans [] [] _ _ _ W1 W2)|]. constructor; congruence.
Qed.

(** Printing one cell, and a character that prints none. *)
Lemma overshows_print s t c : shows s t -> exists s1,
  (set_pos (fun p => p + 1) ;! set_cell (crt_pos s) c) s = Ret tt s1 /\ wrote [] s s1 /\
  exists rows row col, overshows s1 rows row col /\ settled rows row col = print (u16 c) t.
Proof.
  intros [[H25 H80 Hr Hc] A C P]. pose proof (length_cells _ H80) as Hlen. eexists. split.
  { unfold set_pos. rewrite bind_modify. apply set_cell_eq. cbn. rewrite C, Hlen, H25, P. lia. }
  split; [constructor; rewrite ?app_nil_r; reflexivity|].
  exists (write_cell (u16 c) t), (if decide (t_col t = 79%nat) then S (t_row t) else t_row t),
    (if decide (t_col t = 79%nat) then 0%nat else S (t_col t)). split.
  - constructor.
    + exact A.
    + cbn. rewrite C, P, Nat2Z.id. apply cells_insert; lia || assumption.
    + cbn. rewrite P. unfold u16. destruct (decide _); dlia.
    + unfold write_cell. rewrite length_alter. exact H25.
    + apply Forall_alter; [exact H80|]. intros r _ Hl. rewrite length_insert. exact Hl.
    + destruct (decide _); lia.
  - unfold settled, print, new_line. cbn [t_rows t_row t_col]. destruct (decide (t_col t = 79%nat)).
    + destruct (decide (S (t_row t) = 25%nat)), (decide (t_row t = 24%nat)); try lia; reflexivity.
    + destruct (decide (t_row t = 25%nat)); [lia | reflexivity].
Qed.

Lemma shows_over s t : shows s t -> overshows s (t_rows t) (t_row t) (t_col t).
Proof. intros [[H25 H80 Hr Hc] A C P]. constructor; try assumption. lia. Qed.
Lemma settled_in t : term_ok t -> settled (t_rows t) (t_row t) (t_col t) = t.
Proof. intros [_ _ Hr _]. unfold settled. destruct (decide _); [lia|]. destruct t; reflexivity. Qed.

(** An action of one case of the switch that ends in [t'], but for scrolling. *)
Definition acts (m : M cons unit) (l : list Z) (s : cons) (t' : term) : Prop :=
  exists s1 rows row col, m s = Ret tt s1 /\ wrote l s s1 /\ overshows s1 rows row col /\ settled rows row col = t'.
Lemma acts_at m l s s1 t' : m s = Ret tt s1 -> wrote l s s1 -> shows s1 t' -> acts m l s t'.
Proof.
  intros E W Hs. exists s1, (t_rows t'), (t_row t'), (t_col t'). split; [exact E|]. split; [exact W|].
  split; [apply shows_over; exact Hs | apply settled_in, Hs].
Qed.

(** Moving the cursor within the screen. *)
Lemma shows_move s t row col : shows s t -> (row < 25)%nat -> (col < 80)%nat -> forall f,
  u16 (f (crt_pos s)) = Z.of_nat (80 * row + col) ->
  shows (s <| crt_pos ::= fun p => u16 (f p) |>) (mk_term (t_rows t) row col).
Proof.
  intros [[H25 H80 Hr Hc] A C P] Hrow Hcol f Hf. constructor; [constructor; assumption | exact A | exact C | exact Hf].
Qed.
Lemma wrote_pos s f : wrote [] s (s <| crt_pos ::= f |>).
Proof. constructor; rewrite ?app_nil_r; reflexivity. Qed.
Lemma shows_cell s t c : shows s t -> exists s1, set_cell (crt_pos s) c s = Ret tt s1 /\ wrote [] s s1 /\
  shows s1 (mk_term (write_cell (u16 c) t) (t_row t) (t_col t)).
Proof.
  intros [Ht A C P]. pose proof (length_cells _ (cols_80 _ Ht)) as Hlen. rewrite (rows_25 _ Ht) in Hlen.
  pose proof (row_in _ Ht). pose proof (col_in _ Ht). eexists. split; [apply set_cell_eq; rewrite C, Hlen, P; lia|].
  split; [constructor; rewrite ?app_nil_r; reflexivity|]. constructor.
  - apply write_cell_ok; assumption.
  - exact A.
  - cbn. rewrite C, P, Nat2Z.id. apply cells_insert; rewrite ?(rows_25 _ Ht); lia || apply Ht.
  - exact P.
Qed.

Lemma return_acts s t : shows s t ->
  acts (set_pos (fun p => p - p mod CRT_COLS)) [] s (mk_term (t_rows t) (t_row t) 0).
Proof.
  intros Hs. eapply acts_at; [reflexivity | apply wrote_pos |]. apply shows_move; [exact Hs | apply Hs | lia|].
  rewrite (sh_pos _ _ Hs). pose proof (row_in _ (sh_ok _ _ Hs)). pose proof (col_in _ (sh_ok _ _ Hs)).
  unfold u16, CRT_COLS. dlia.
Qed.
Lemma new_line_acts s t : shows s t ->
  acts (set_pos (fun p => p + CRT_COLS) ;! set_pos (fun p => p - p mod CRT_COLS)) [] s (new_line t).
Proof.
  intros [[H25 H80 Hr Hc] A C P]. eexists _, (t_rows t), (S (t_row t)), 0%nat. split; [reflexivity|].
  split; [constructor; rewrite ?app_nil_r; reflexivity|]. split.
  - constructor; try assumption; [|lia]. cbn. rewrite P. unfold u16, CRT_COLS. dlia.
  - unfold settled, new_line. destruct (decide (S (t_row t) = 25%nat)), (decide (t_row t = 24%nat)); try lia; reflexivity.
Qed.
Lemma rubout_acts s t c : shows s t -> acts (let! pos := get crt_pos in
  if 0 <? pos then set_pos (fun p => p - 1) ;! let! pos := get crt_pos in set_cell pos (Z.lor c 32) else ret tt) [] s
  (rubout (u16 c) t).
Proof.
  intros Hs. pose proof (sh_pos _ _ Hs) as P. unfold rubout. destruct (decide _) as [[Er Ec]|Hne].
  - eapply acts_at; [|apply wrote_refl | exact Hs]. rewrite bind_get, P, Er, Ec. reflexivity.
  - assert (shows (s <| crt_pos ::= fun p => u16 (p - 1) |>) (back t)) as Hb.
    { pose proof (row_in _ (sh_ok _ _ Hs)). pose proof (col_in _ (sh_ok _ _ Hs)). unfold back.
      destruct (t_col t) as [|col] eqn:Ec; [destruct (t_row t) as [|row] eqn:Er; [lia|]|];
        (apply (shows_move s t); [exact Hs | lia | lia | rewrite P; unfold u16; dlia]). }
    destruct (shows_cell _ _ (Z.lor c 32) Hb) as (s1 & E1 & W1 & S1). eapply acts_at.
    + rewrite bind_get, P. rewrite (proj2 (Z.ltb_lt _ _)) by lia. unfold set_pos. rewrite bind_modify, bind_get. exact E1.
    + exact (wrote_trans [] [] _ _ _ (wrote_pos _ _) W1).
    + replace (Z.lor (u16 c) 32) with (u16 (Z.lor c 32)); [exact S1|].
      unfold u16. rewrite <- !Z.land_ones by lia. rewrite Z.land_lor_distr_l. reflexivity.
Qed.

(** What goes to the serial port for a character: a tab is sent with the
    blanks it prints. *)
Definition serial_text (c : Z) : list Z := u8 c :: (if Z.land c 0xff =? 9 then replicate 5 32 else []).

Lemma settle_acts m l s t' (k := m ;! scroll ;! move_cursor) : acts m l s t' ->
  exists s', k s = Ret tt s' /\ wrote l s s' /\ shows s' t'.
Proof.
  intros (s1 & rows & row & col & E1 & W1 & O1 & <-). destruct (settle s1 rows row col O1) as (s2 & E2 & W2 & S2).
  exists s2. unfold k. step by exact E1. split; [exact E2|]. split; [|exact S2].
  rewrite <- (app_nil_r l). exact (wrote_trans _ _ _ _ _ W1 W2).
Qed.
(** [putc] prints a character: the screen and the serial port. *)
Definition putc_ok (putc : Z -> M cons unit) (c : Z) : Prop := forall s t, shows s t ->
  exists s', putc c s = Ret tt s' /\ wrote (serial_text c) s s' /\ shows s' (term_putc t c).

Lemma tab_acts putc s t : putc_ok putc 32 -> shows s t ->
  acts (putc 32 ;! putc 32 ;! putc 32 ;! putc 32 ;! putc 32) (replicate 5 32) s (tab t).
Proof.
  intros Hp H0. destruct (Hp s t H0) as (s1 & E1 & W1 & H1). destruct (Hp _ _ H1) as (s2 & E2 & W2 & H2).
  destruct (Hp _ _ H2) as (s3 & E3 & W3 & H3). destruct (Hp _ _ H3) as (s4 & E4 & W4 & H4).
  destruct (Hp _ _ H4) as (s5 & E5 & W5 & H5). eapply acts_at.
  - do 4 (step by eassumption). exact E5.
  - exact (wrote_trans _ _ _ _ _ W1 (wrote_trans _ _ _ _ _ W2 (wrote_trans _ _ _ _ _ W3 (wrote_trans _ _ _ _ _ W4 W5)))).
  - exact H5.
Qed.
Lemma cell_char c : Z.land (cell c) 0xff = Z.land c 0xff.
Proof.
  unfold cell. destruct (_ =? 0); [|reflexivity]. rewrite Z.land_lor_distr_l. change (Z.land 0x0700 0xff) with 0. apply Z.lor_0_r.
Qed.
Lemma cga_putc_ok putc c s t : (Z.land c 0xff = 9 -> putc_ok putc 32) -> shows s t -> exists s',
  cga_putc putc c s = Ret tt s' /\ wrote (if Z.land c 0xff =? 9 then replicate 5 32 else []) s s' /\ shows s' (term_putc t c).
Proof.
  intros Hp Hs. unfold cga_putc. fold (cell c). rewrite bind_get. apply settle_acts. unfold term_putc. rewrite cell_char.
  destruct (Z.eqb_spec (Z.land c 0xff) 8) as [E|_]; [rewrite E; apply rubout_acts, Hs|].
  destruct (Z.eqb_spec (Z.land c 0xff) 10) as [E|_]; [rewrite E; apply new_line_acts, Hs|].
  destruct (Z.eqb_spec (Z.land c 0xff) 13) as [E|_]; [rewrite E; apply return_acts, Hs|].
  destruct (Z.eqb_spec (Z.land c 0xff) 9) as [E|_]; [apply tab_acts; auto|].
  destruct (overshows_print s t (cell c) Hs) as (s1 & E1 & W1 & rows & row & col & O1 & T1).
  exists s1, rows, row, col. auto.
Qed.
Lemma ports_ok c s t : shows s t -> exists s', (forall k : M cons unit, (serial_putc c ;! lpt_putc c ;! k) s = k s') /\
  wrote [u8 c] s s' /\ shows s' t.
Proof.
  intros [O A C P]. eexists. split; [intros k; reflexivity|]. split; [|constructor; assumption].
  constructor; try reflexivity; unfold tx, resets, sent; cbn; rewrite !omap_app; cbn; rewrite !app_nil_r; reflexivity.
Qed.
Lemma putc_ok_level putc_ c fuel : (forall f, putc_ (S f) = fun c => serial_putc c ;! lpt_putc c ;! cga_putc (putc_ f) c) ->
  (Z.land c 0xff = 9 -> putc_ok (putc_ fuel) 32) -> putc_ok (putc_ (S fuel)) c.
Proof.
  intros Hdef Hp s t Hs. destruct (ports_ok c s t Hs) as (s1 & E1 & W1 & S1).
  destruct (cga_putc_ok (putc_ fuel) c s1 t Hp S1) as (s2 & E2 & W2 & S2). exists s2. rewrite Hdef, E1. split; [exact E2|].
  split; [exact (wrote_trans _ _ _ _ _ W1 W2) | exact S2].
Qed.
Lemma cons_putc_ok c : putc_ok cons_putc c.
Proof.
  apply (putc_ok_level cons_putc_ c 1); [reflexivity|]. intros _.
  apply (putc_ok_level cons_putc_ 32 0); [reflexivity | discriminate].
Qed.
Lemma cputs_ok : forall l s t, shows s t ->
  exists s', cputs l s = Ret tt s' /\ wrote (concat (map serial_text l)) s s' /\ shows s' (fold_left term_putc l t).
Proof.
  induction l as [|c l IH]; intros s t Hs; [exists s; split; [reflexivity | split; [apply wrote_refl | exact Hs]]|].
  destruct (cons_putc_ok c s t Hs) as (s1 & E1 & W1 & S1). destruct (IH s1 _ S1) as (s2 & E2 & W2 & S2). exists s2.
  unfold cputs. cbn [for_all]. step by exact E1. split; [exact E2|]. split; [exact (wrote_trans _ _ _ _ _ W1 W2) | exact S2].
Qed.
(** C34. The console of JOS is a terminal: for every text, printing it ends, is
    never out of the memory of the screen, and leaves on the screen what a
    terminal of 25 rows and 80 columns holds after the text, with the cursor
    where the terminal has it.  The serial port gets the text, every tab with
    five blanks behind it; the keyboard and the input ring do not change. *)
Theorem console_is_terminal (s : cons) (t : term) (l : list Z) (Hs : shows s t) :
  exists s', cputs l s = Ret tt s' /\ shows s' (fold_left term_putc l t) /\
    tx s' = tx s ++ concat (map serial_text l) /\
    (serial_exists s', kbd_shift s', cons_buf s', cons_rpos s', cons_wpos s') =
      (serial_exists s, kbd_shift s, cons_buf s, cons_rpos s, cons_wpos s).
Proof.
  destruct (cputs_ok l s t Hs) as (s' & E & [W1 W2 W3 W4 W5 W6 _] & S'). exists s'. rewrite W1, W2, W3, W4, W5. auto.
Qed.

(** The machine after cons_init(), with the cursor near the end of an empty screen. *)
Definition empty_rows : list (list Z) := replicate 25 (replicate 80 blank).
Definition boot : cons :=
  let s0 := mk_cons false 0 [] 0 0 (replicate 512 0) 0 0 [] in
  match cons_init true (concat empty_rows) 0x07 0xCE 0x60 s0 with Ret _ s => s | Stop _ s => s end.
Example console_is_terminal_witness :
  let t := mk_term empty_rows 24 78 in
  let t' := fold_left term_putc (str "abc" ++ [8; 9]) t in
  shows boot t /\
  (exists s', cputs (str "abc" ++ [8; 9]) boot = Ret tt s' /\ shows s' t' /\
     tx s' = tx boot ++ concat (map serial_text (str "abc" ++ [8; 9])) /\
     (serial_exists s', kbd_shift s', cons_buf s', cons_rpos s', cons_wpos s') =
       (serial_exists boot, kbd_shift boot, cons_buf boot, cons_rpos boot, cons_wpos boot)) /\
  (t_row t', t_col t', take 7 (List.last (t_rows t') []), drop 78 (nth 23 (t_rows t') [])) =
    (24%nat, 5%nat, replicate 7 0x0720, [0x0761; 0x0762]) /\
  concat (map serial_text (str "abc" ++ [8; 9])) = str "abc" ++ [8; 9; 32; 32; 32; 32; 32].
Proof.
  intros t t'. assert (shows boot t) as Hs.
  { constructor; [|left; vm_compute; reflexivity | vm_compute; reflexivity | vm_compute; reflexivity].
    constructor; [reflexivity | | unfold t; cbn; lia | unfold t; cbn; lia].
    apply Forall_replicate. reflexivity. }
  split; [exact Hs|]. split; [exact (console_is_terminal boot t _ Hs)|].
  split; vm_compute; reflexivity.
Defined.
