(* ===== verification/JosInput.v ===== *)
(** * Keyboard and input of the JOS console

    kbd_proc_data() against a keyboard with modifier and lock keys, the input
    ring against a list that drops its contents when 512 characters wait, and
    the types of the static variables. *)
From S2P Require Import Prelude.
From S2P Require Import JosConsole.
From S2P Require Import JosTerm.

(** ** The keyboard *)

Record kbd := mk_kbd { k_shift : bool; k_ctl : bool; k_alt : bool; k_caps : bool; k_num : bool; k_scroll : bool }.
Definition bit (b : bool) (mask : Z) : Z := if b then mask else 0.
Definition encode (k : kbd) : Z :=
  bit (k_shift k) 1 + bit (k_ctl k) 2 + bit (k_alt k) 4 + bit (k_caps k) 8 + bit (k_num k) 16 + bit (k_scroll k) 32.

(** A key: the scan code, 128 more for those behind an E0 byte. *)
Definition is_shift (i : Z) : bool := (i =? 0x2A) || (i =? 0x36).
Definition is_ctl (i : Z) : bool := (i =? 0x1D) || (i =? 0x9D).
Definition is_alt (i : Z) : bool := (i =? 0x38) || (i =? 0xB8).
Definition key_down (k : kbd) (i : Z) : kbd :=
  mk_kbd (k_shift k || is_shift i) (k_ctl k || is_ctl i) (k_alt k || is_alt i)
    (xorb (k_caps k) (i =? 0x3A)) (xorb (k_num k) (i =? 0x45)) (xorb (k_scroll k) (i =? 0x46)).
Definition key_up (k : kbd) (i : Z) : kbd :=
  mk_kbd (k_shift k && negb (is_shift i)) (k_ctl k && negb (is_ctl i)) (k_alt k && negb (is_alt i))
    (k_caps k) (k_num k) (k_scroll k).
Definition swap_case (c : Z) : Z :=
  if (97 <=? c) && (c <=? 122) then c - 32 else if (65 <=? c) && (c <=? 90) then c + 32 else c.
(** The character of key [i] with the modifiers as they are. *)
Definition key_char (k : kbd) (i : Z) : Z :=
  let c := nth (Z.to_nat i) (if k_ctl k then ctlmap else if k_shift k then shiftmap else normalmap) 0 in
  if k_caps k then swap_case c else c.
Definition reboots (k : kbd) (c : Z) : bool := k_ctl k && k_alt k && (c =? KEY_DEL).

Inductive event := Down (i : Z) | Up (i : Z).
(** 0x60 would be read as the E0 byte when the key is released. *)
Definition event_ok (e : event) : bool :=
  let '(Down i | Up i) := e in (0 <=? i) && (i <? 256) && negb (i =? 0x60) && negb (i =? 0xE0).
(** The bytes of the controller. *)
Definition scan (e : event) : list Z :=
  match e with
  | Down i => if i <? 128 then [i] else [0xE0; i - 128]
  | Up i => if i <? 128 then [i + 128] else [0xE0; i]
  end.
Definition kbd_step (k : kbd) (e : event) : kbd :=
  match e with Down i => key_down k i | Up i => key_up k i end.
Definition event_char (k : kbd) (e : event) : Z :=
  match e with Down i => key_char (key_down k i) i | Up _ => 0 end.
(** The characters typed, without the keys that have none. *)
Fixpoint typed_chars (k : kbd) (es : list event) : list Z :=
  match es with
  | [] => []
  | e :: es => (let c := event_char k e in if c =? 0 then [] else [c]) ++ typed_chars (kbd_step k e) es
  end.

(** ** Tables *)

(** The state and the character that kbd_char() computes. *)
Definition shift_of (shift data : Z) : Z :=
  u32 (Z.lxor (u32 (Z.lor shift (nth (Z.to_nat data) shiftcode 0))) (nth (Z.to_nat data) togglecode 0)).
Definition char_of (shift data : Z) : Z :=
  let c := nth (Z.to_nat data) (charcode (Z.land shift (Z.lor CTL SHIFT))) 0 in
  if bitset shift CAPSLOCK then
    if (97 <=? c) && (c <=? 122) then c + (65 - 97) else if (65 <=? c) && (c <=? 90) then c + (97 - 65) else c
  else c.
Definition reboot_of (shift c : Z) : bool := (Z.land (u32 (Z.lnot shift)) (Z.lor CTL ALT) =? 0) && (c =? KEY_DEL).

Definition bools : list bool := [true; false].
Definition kbds : list kbd :=
  a ← bools; b ← bools; c ← bools; d ← bools; e ← bools; f ← bools; [mk_kbd a b c d e f].
Lemma forall_kbds (P : kbd -> bool) : forallb P kbds = true -> forall k, P k = true.
Proof.
  rewrite forallb_forall. intros H [a b c d e f]. apply H. destruct a, b, c, d, e, f; cbn; tauto.
Qed.
Lemma forall_codes (P : Z -> bool) n : forallb P (seqZ 0 n) = true -> forall i, 0 <= i < n -> P i = true.
Proof. rewrite forallb_forall. intros H i Hi. apply H, list_elem_of_In, elem_of_seqZ. lia. Qed.

(** The modifiers and the locks of a set, and the set of a key. *)
Definition mods (m : kbd) : kbd := mk_kbd (k_shift m) (k_ctl m) (k_alt m) false false false.
Definition locks (m : kbd) : kbd := mk_kbd false false false (k_caps m) (k_num m) (k_scroll m).
Definition mask_of (i : Z) : kbd := mk_kbd (is_shift i) (is_ctl i) (is_alt i) (i =? 0x3A) (i =? 0x45) (i =? 0x46).
Definition down (k m : kbd) : kbd :=
  mk_kbd (k_shift k || k_shift m) (k_ctl k || k_ctl m) (k_alt k || k_alt m)
    (xorb (k_caps k) (k_caps m)) (xorb (k_num k) (k_num m)) (xorb (k_scroll k) (k_scroll m)).
Definition up (k m : kbd) : kbd :=
  mk_kbd (k_shift k && negb (k_shift m)) (k_ctl k && negb (k_ctl m)) (k_alt k && negb (k_alt m)) (k_caps k) (k_num k) (k_scroll k).
Lemma code_tables i : 0 <= i < 256 ->
  nth (Z.to_nat i) shiftcode 0 = encode (mods (mask_of i)) /\ nth (Z.to_nat i) togglecode 0 = encode (locks (mask_of i)).
Proof.
  intros Hi. assert (forallb (fun i => (nth (Z.to_nat i) shiftcode 0 =? encode (mods (mask_of i))) &&
    (nth (Z.to_nat i) togglecode 0 =? encode (locks (mask_of i)))) (seqZ 0 256) = true) as H by (vm_compute; reflexivity).
  pose proof (forall_codes _ 256 H i Hi) as E. apply andb_prop in E as [E1%Z.eqb_eq E2%Z.eqb_eq]. auto.
Qed.
(** Bit operations on the encodings are operations on the sets. *)
Lemma encode_ops k m : let clear := Z.lnot (Z.lor (encode (mods m)) E0ESC) in
  u32 (Z.lxor (u32 (Z.lor (encode k) (encode (mods m)))) (encode (locks m))) = encode (down k m) /\
  u32 (Z.land (encode k) clear) = encode (up k m) /\ u32 (Z.land (encode k + 64) clear) = encode (up k m).
Proof.
  intros clear. assert (forallb (fun k => forallb (fun m => let clear := Z.lnot (Z.lor (encode (mods m)) E0ESC) in
    (u32 (Z.lxor (u32 (Z.lor (encode k) (encode (mods m)))) (encode (locks m))) =? encode (down k m)) &&
    (u32 (Z.land (encode k) clear) =? encode (up k m)) && (u32 (Z.land (encode k + 64) clear) =? encode (up k m))) kbds) kbds = true) as H
    by (vm_compute; reflexivity).
  pose proof (forall_kbds _ (forall_kbds _ H k) m) as E. cbv beta zeta in E.
  apply andb_prop in E as [[E1%Z.eqb_eq E2%Z.eqb_eq]%andb_prop E3%Z.eqb_eq]. auto.
Qed.
Lemma all_bytes a : forallb (fun c => (0 <=? c) && (c <? 256)) a = true -> forall i, 0 <= nth i a 0 < 256.
Proof.
  intros H i. rewrite forallb_forall in H. destruct (nth_in_or_default i a 0) as [Hin | ->]; [|lia].
  apply H, andb_prop in Hin as [H1%Z.leb_le H2%Z.ltb_lt]. lia.
Qed.
Lemma map_bytes n i : 0 <= nth i (charcode n) 0 < 256.
Proof.
  apply all_bytes. unfold charcode. destruct (n =? 0); [vm_compute; reflexivity|]. destruct (n =? 1); vm_compute; reflexivity.
Qed.
Lemma swap_byte c : 0 <= c < 256 -> 0 <= swap_case c < 256.
Proof. intros H. unfold swap_case. repeat case_match; lia. Qed.
Lemma char_of_eq shift i : char_of shift i =
  (if bitset shift CAPSLOCK then swap_case else id) (nth (Z.to_nat i) (charcode (Z.land shift (Z.lor CTL SHIFT))) 0).
Proof. unfold char_of. destruct (bitset shift CAPSLOCK); reflexivity. Qed.
Lemma char_of_byte shift i : 0 <= char_of shift i < 256.
Proof.
  rewrite char_of_eq. pose proof (map_bytes (Z.land shift (Z.lor CTL SHIFT)) (Z.to_nat i)). destruct (bitset _ _); [apply swap_byte|]; assumption.
Qed.
Lemma char_of_key k i : char_of (encode k) i = key_char k i.
Proof.
  rewrite char_of_eq. unfold key_char.
  assert (charcode (Z.land (encode k) (Z.lor CTL SHIFT)) = if k_ctl k then ctlmap else if k_shift k then shiftmap else normalmap) as ->
    by (destruct k as [[] [] [] [] [] []]; reflexivity).
  assert (bitset (encode k) CAPSLOCK = k_caps k) as -> by (destruct k as [[] [] [] [] [] []]; reflexivity).
  destruct (k_caps k); reflexivity.
Qed.

Lemma down_table k i : 0 <= i < 256 ->
  shift_of (encode k) i = encode (key_down k i) /\ char_of (encode k) i = key_char k i /\ 0 <= key_char k i < 256.
Proof.
  intros Hi. destruct (code_tables i Hi) as [E1 E2]. unfold shift_of. rewrite E1, E2. split; [apply encode_ops|].
  rewrite <- char_of_key. split; [reflexivity | apply char_of_byte].
Qed.
Lemma up_table k i : 0 <= i < 256 -> let mask := Z.lnot (Z.lor (nth (Z.to_nat i) shiftcode 0) E0ESC) in
  u32 (Z.land (encode k) mask) = encode (key_up k i) /\ u32 (Z.land (encode k + 64) mask) = encode (key_up k i).
Proof. intros Hi mask. subst mask. rewrite (proj1 (code_tables i Hi)). apply encode_ops. Qed.
Lemma mask_table k : u32 (Z.lor (encode k) E0ESC) = encode k + 64 /\ u32 (Z.land (encode k + 64) (Z.lnot E0ESC)) = encode k /\
  bitset (encode k) E0ESC = false /\ bitset (encode k + 64) E0ESC = true /\
  (Z.land (u32 (Z.lnot (encode k))) (Z.lor CTL ALT) =? 0) = k_ctl k && k_alt k.
Proof. destruct k as [[] [] [] [] [] []]; repeat split; reflexivity. Qed.

(** ** One byte *)

Lemma kbd_at_eq a i s : length a = 256%nat -> 0 <= i < 256 -> kbd_at a i s = Ret (nth (Z.to_nat i) a 0) s.
Proof.
  intros Hl Hi. unfold kbd_at, get_at. rewrite (proj2 (Z.leb_le 0 i)) by lia.
  destruct (nth_lookup_or_length a (Z.to_nat i) 0) as [-> | Hge]; [reflexivity | lia].
Qed.
Lemma length_charcode i : length (charcode i) = 256%nat.
Proof. unfold charcode. destruct (i =? 0); [reflexivity|]. destruct (i =? 1); reflexivity. Qed.

Definition set_shift (s : cons) (x : Z) : cons := s <| kbd_shift := x |>.
Lemma kbd_char_eq data s : 0 <= data < 256 ->
  let shift := shift_of (kbd_shift s) data in
  let c := char_of shift data in
  kbd_char data s =
    ((if reboot_of shift c then cputs (str "Rebooting!" ++ [10]) ;! outb 0x92 0x3 else ret tt) ;! ret c) (set_shift s shift).
Proof.
  intros Hd shift c. unfold kbd_char. step by (apply kbd_at_eq; [reflexivity | exact Hd]). unfold shift_upd.
  rewrite bind_modify. step by (apply kbd_at_eq; [reflexivity | exact Hd]). rewrite bind_modify, bind_get.
  step by (apply kbd_at_eq; [apply length_charcode | exact Hd]). reflexivity.
Qed.

(** ** The ring *)

(** The [n] characters from index [r] on. *)
Definition waiting (b : list Z) (r : Z) (n : nat) : list Z :=
  map (fun i => nth (Z.to_nat ((r + Z.of_nat i) mod CONSBUFSIZE)) b 0) (seq 0 n).
Record ring (s : cons) (q : list Z) : Prop := {
  rg_len : length (cons_buf s) = Z.to_nat CONSBUFSIZE;
  rg_rpos : 0 <= cons_rpos s < CONSBUFSIZE;
  rg_wpos : 0 <= cons_wpos s < CONSBUFSIZE;
  rg_queue : waiting (cons_buf s) (cons_rpos s) (Z.to_nat ((cons_wpos s - cons_rpos s) mod CONSBUFSIZE)) = q }.
(** A character is put behind the others, but where 511 wait all are lost. *)
Definition enqueue (q : list Z) (c : Z) : list Z := if decide (length q = 511%nat) then [] else q ++ [c].
(** The last n mod 512 of the n characters of the queue and of [l]. *)
Definition received (q l : list Z) : list Z := drop (512 * (length (q ++ l) / 512)) (q ++ l).

Lemma waiting_S b r n : waiting b r (S n) = nth (Z.to_nat (r mod CONSBUFSIZE)) b 0 :: waiting b ((r + 1) mod CONSBUFSIZE) n.
Proof.
  unfold waiting. cbn [seq map]. rewrite Z.add_0_r. f_equal. rewrite <- seq_shift, map_map. apply map_ext. intros i.
  do 2 f_equal. unfold CONSBUFSIZE. rewrite Zplus_mod_idemp_l. f_equal. lia.
Qed.
Lemma waiting_snoc b r n : waiting b r (S n) = waiting b r n ++ [nth (Z.to_nat ((r + Z.of_nat n) mod CONSBUFSIZE)) b 0].
Proof. unfold waiting. rewrite seq_S, map_app. reflexivity. Qed.
Lemma length_waiting b r n : length (waiting b r n) = n.
Proof. unfold waiting. rewrite length_map, length_seq. reflexivity. Qed.
(** Writing behind the [n] characters does not change them. *)
Lemma waiting_insert b r n c : length b = 512%nat -> (n < 512)%nat ->
  waiting (<[Z.to_nat ((r + Z.of_nat n) mod CONSBUFSIZE) := c]> b) r (S n) = waiting b r n ++ [c].
Proof.
  intros Hl Hn. rewrite waiting_snoc. unfold CONSBUFSIZE. f_equal.
  - apply map_ext_in. intros i [_ Hi]%in_seq. rewrite !nth_lookup, list_lookup_insert_ne; [reflexivity|]. unfold CONSBUFSIZE. clear Hl. dlia.
  - rewrite nth_lookup, list_lookup_insert_eq; [reflexivity|]. rewrite Hl. dlia.
Qed.

Lemma ring_put s q c : ring s q -> exists s', ring s' (enqueue q (u8 c)) /\
  (forall B (k : unit -> M cons B), bind (let! w := get cons_wpos in
     zoom cons_buf (set_at w (u8 c)) ;!
     modify (fun s => s <| cons_wpos := u32 (w + 1) |>) ;!
     let! w := get cons_wpos in
     if w =? CONSBUFSIZE then modify (fun s => s <| cons_wpos := 0 |>) else ret tt) k s = k tt s') /\
  s' = s <| cons_buf := <[Z.to_nat (cons_wpos s) := u8 c]> (cons_buf s) |> <| cons_wpos := cons_wpos s' |>.
Proof.
  intros [Hl Hr Hw Hq]. change (Z.to_nat CONSBUFSIZE) with 512%nat in Hl. unfold CONSBUFSIZE in Hr, Hw.
  set (w' := if cons_wpos s + 1 =? 512 then 0 else cons_wpos s + 1).
  exists (s <| cons_buf := <[Z.to_nat (cons_wpos s) := u8 c]> (cons_buf s) |> <| cons_wpos := w' |>).
  split; [|split; [|destruct s; reflexivity]].
  - constructor; cbn; unfold CONSBUFSIZE; [rewrite length_insert; exact Hl | exact Hr | subst w'; destruct (Z.eqb_spec (cons_wpos s + 1) 512); lia |].
    pose proof (length_waiting (cons_buf s) (cons_rpos s) (Z.to_nat ((cons_wpos s - cons_rpos s) mod CONSBUFSIZE))) as Hn.
    rewrite Hq in Hn. unfold CONSBUFSIZE in Hn. unfold enqueue. destruct (decide _) as [E|E].
    + replace ((w' - cons_rpos s) mod 512) with 0; [reflexivity|]. subst w'. clear -Hr Hw Hn E; destruct (Z.eqb_spec (cons_wpos s + 1) 512); dlia.
    + subst q. unfold CONSBUFSIZE in *. set (n := Z.to_nat ((cons_wpos s - cons_rpos s) mod 512)) in *.
      replace (Z.to_nat ((w' - cons_rpos s) mod 512)) with (S n) by (subst w' n; destruct (Z.eqb_spec (cons_wpos s + 1) 512); clear Hl; dlia).
      replace (Z.to_nat (cons_wpos s)) with (Z.to_nat ((cons_rpos s + Z.of_nat n) mod CONSBUFSIZE)) by (subst n; unfold CONSBUFSIZE; clear Hl; dlia).
      apply waiting_insert; [exact Hl | subst n; clear Hl; dlia].
  - intros B k. rewrite bind_assoc, bind_get. unfold zoom at 1, set_at.
    unfold bind at 1 2. rewrite Hl. rewrite (proj2 (Z.leb_le 0 _)), (proj2 (Z.ltb_lt _ _)) by lia. cbn [andb].
    unfold bind. cbn. unfold u32. rewrite Z.mod_small by lia. subst w'. change CONSBUFSIZE with 512.
    destruct (cons_wpos s + 1 =? 512); reflexivity.
Qed.

Lemma ring_short s q : ring s q -> (length q < 512)%nat.
Proof.
  intros [_ _ _ <-]. rewrite length_waiting. pose proof (Z.mod_pos_bound (cons_wpos s - cons_rpos s) CONSBUFSIZE ltac:(reflexivity)).
  change CONSBUFSIZE with 512 in *. lia.
Qed.
Lemma enqueue_short q c : (length q < 512)%nat -> (length (enqueue q c) < 512)%nat.
Proof. intros H. unfold enqueue. destruct (decide _); [cbn; lia|]. rewrite length_app. cbn. lia. Qed.
Lemma received_nil q : (length q < 512)%nat -> received q [] = q.
Proof. intros H. unfold received. rewrite app_nil_r, Nat.div_small by exact H. reflexivity. Qed.
Lemma received_cons q c l : (length q < 512)%nat -> received q (c :: l) = received (enqueue q c) l.
Proof.
  intros H. unfold received, enqueue. destruct (decide _) as [E|E].
  - rewrite app_nil_l. replace (length (q ++ c :: l)) with (1 * 512 + length l)%nat by (rewrite length_app; cbn; lia).
    rewrite Nat.div_add_l by lia. change (c :: l) with ([c] ++ l). rewrite app_assoc, drop_app_ge by (rewrite length_app; cbn [length]; lia).
    f_equal. rewrite length_app. cbn [length]. lia.
  - rewrite <- app_assoc. reflexivity.
Qed.
Lemma received_app l1 : forall q l2, (length q < 512)%nat -> received q (l1 ++ l2) = received (received q l1) l2.
Proof.
  induction l1 as [|c l1 IH]; intros q l2 H; [rewrite received_nil by exact H; reflexivity|].
  rewrite <- app_comm_cons, !received_cons by exact H. apply IH, enqueue_short, H.
Qed.

(** ** Interrupts *)

Record input (s : cons) (k : kbd) (q : list Z) : Prop := {
  in_shift : kbd_shift s = encode k;
  in_ring : ring s q;
  in_term : exists t, shows s t }.

Lemma intr_skip p ps s s' : p s = Ret 0 s' -> cons_intr (p :: ps) s = cons_intr ps s'.
Proof. intros E. cbn [cons_intr]. step by exact E. reflexivity. Qed.
Definition one_char (c : Z) : list Z := if c =? 0 then [] else [u8 c].
Lemma intr_char p s c k q s1 : p s = Ret c s1 -> c <> -1 -> input s1 k q ->
  exists s2, input s2 k (received q (one_char c)) /\ resets s2 = resets s1 /\ serial_exists s2 = serial_exists s1 /\
    forall ps, cons_intr (p :: ps) s = cons_intr ps s2.
Proof.
  intros E Hc [Hk Hq [t Ht]]. pose proof (ring_short _ _ Hq) as Hs. unfold one_char. destruct (Z.eqb_spec c 0) as [->|Hz].
  - exists s1. rewrite received_nil by exact Hs. split; [constructor; eauto|]. split; [reflexivity|]. split; [reflexivity|].
    intros ps. apply intr_skip, E.
  - destruct (ring_put s1 q c Hq) as (s2 & R2 & E2 & F2). exists s2. rewrite received_cons, received_nil by auto using enqueue_short.
    split; [|split; [rewrite F2; reflexivity | split; [rewrite F2; reflexivity|]]].
    + constructor; [rewrite F2; exact Hk | exact R2 | exists t; rewrite F2; destruct Ht; constructor; assumption].
    + intros ps. cbn [cons_intr]. step by exact E. destruct (Z.eqb_spec c (-1)); [congruence|].
      destruct (Z.eqb_spec c 0); [congruence|]. apply E2.
Qed.

Section Ready.
(** The controller has a byte, and not one of the mouse. *)
Context (st : Z) (Hst : (Z.land st KBS_DIB =? 0) = false) (Herr : bitset st KBS_TERR = false).

Lemma shift_upd_eq {B} f (k : unit -> M cons B) s :
  bind (shift_upd f) k s = k tt (set_shift s (u32 (f (kbd_shift s)))).
Proof. reflexivity. Qed.
Lemma high_bit d : 0 <= d < 256 -> bitset d 0x80 = (128 <=? d).
Proof. intros H. apply eqb_prop, (forall_codes (fun d => eqb (bitset d 0x80) (128 <=? d)) 256); [vm_compute; reflexivity | exact H]. Qed.
Lemma or_80 d : 0 <= d < 128 -> Z.lor d 0x80 = d + 128.
Proof. intros H. apply Z.eqb_eq, (forall_codes (fun d => Z.lor d 0x80 =? d + 128) 128); [vm_compute; reflexivity | exact H]. Qed.
Lemma set_shift_same s x : kbd_shift s = x -> set_shift s x = s.
Proof. intros <-. destruct s; reflexivity. Qed.
Lemma byte_E0 s k : kbd_shift s = encode k -> kbd_proc_data st 0xE0 s = Ret 0 (set_shift s (encode k + 64)).
Proof.
  intros Hk. unfold kbd_proc_data. rewrite Hst, Herr, bind_get. change (0xE0 =? 0xE0) with true.
  cbv iota. rewrite shift_upd_eq, Hk, (proj1 (mask_table k)). reflexivity.
Qed.
Lemma byte_up s k (e0 : bool) i : 0 <= i < 256 -> i <> 0xE0 -> i <> 0x60 -> (e0 = true <-> 128 <= i) ->
  kbd_shift s = encode k + bit e0 64 ->
  kbd_proc_data st (if e0 then i else i + 128) s = Ret 0 (set_shift s (encode (key_up k i))).
Proof.
  intros Hi H1 H2 He Hk. unfold kbd_proc_data. rewrite Hst, Herr, bind_get, Hk.
  assert (128 <= (if e0 then i else i + 128) < 256 /\ (if e0 then i else i + 128) <> 0xE0) as [Hr Hn].
  { destruct e0; [intuition lia|]. assert (~ 128 <= i) by (intros X; apply He in X; discriminate). lia. }
  destruct (Z.eqb_spec (if e0 then i else i + 128) 0xE0); [congruence|].
  assert (bitset (if e0 then i else i + 128) 0x80 = true) as ->.
  { rewrite high_bit by lia. apply Z.leb_le. lia. }
  destruct (mask_table k) as (_ & _ & B0 & B1 & _). destruct (up_table k i Hi) as [U0 U1].
  assert ((if bitset (encode k + bit e0 64) E0ESC then if e0 then i else i + 128 else Z.land (if e0 then i else i + 128) 0x7F) = i) as ->.
  { destruct e0; cbn [bit]; [rewrite B1; reflexivity|]. rewrite Z.add_0_r, B0.
    change 0x7F with (Z.ones 7). rewrite Z.land_ones by lia. dlia. }
  step by (apply kbd_at_eq; [reflexivity | exact Hi]). rewrite shift_upd_eq, Hk.
  destruct e0; cbn [bit]; rewrite ?Z.add_0_r, ?U0, ?U1; reflexivity.
Qed.
Lemma byte_down s k (e0 : bool) i : 0 <= i < 256 -> i <> 0x60 -> (e0 = true <-> 128 <= i) ->
  kbd_shift s = encode k + bit e0 64 -> kbd_proc_data st (if e0 then i - 128 else i) s = kbd_char i (set_shift s (encode k)).
Proof.
  intros Hi H2 He Hk. unfold kbd_proc_data. rewrite Hst, Herr, bind_get, Hk.
  assert (0 <= (if e0 then i - 128 else i) < 128) as Hr.
  { destruct e0; [intuition lia|]. assert (~ 128 <= i) by (intros X; apply He in X; discriminate). lia. }
  rewrite (proj2 (Z.eqb_neq _ 0xE0)) by lia.
  assert (bitset (if e0 then i - 128 else i) 0x80 = false /\ Z.lor (if e0 then i - 128 else i) 0x80 = (if e0 then i - 128 else i) + 128) as [-> Hor].
  { split; [rewrite high_bit by lia; apply Z.leb_gt; lia | apply or_80, Hr]. }
  destruct (mask_table k) as (_ & C & B0 & B1 & _). destruct e0; cbn [bit] in *.
  - rewrite B1, Hor. rewrite shift_upd_eq, Hk, C. f_equal. lia.
  - rewrite Z.add_0_r in *. rewrite B0, set_shift_same by exact Hk. reflexivity.
Qed.

Lemma set_shift_twice s x y : set_shift (set_shift s x) y = set_shift s y.
Proof. destruct s; reflexivity. Qed.
Lemma shows_set_shift s x t : shows s t -> shows (set_shift s x) t.
Proof. intros []. constructor; assumption. Qed.
Lemma ring_set_shift s x q : ring s q -> ring (set_shift s x) q.
Proof. intros []. constructor; assumption. Qed.
Lemma input_set_shift s k q k' : input s k q -> input (set_shift s (encode k')) k' q.
Proof. intros [Hk Hq [t Ht]]. constructor; [reflexivity | apply ring_set_shift, Hq | exists t; apply shows_set_shift, Ht]. Qed.

Definition reset_bytes (k : kbd) (e : event) : list Z :=
  match e with
  | Down i => if reboots (key_down k i) (key_char (key_down k i) i) then [3] else []
  | Up _ => []
  end.
Lemma key_press s k q i : input s k q -> 0 <= i < 256 -> exists s',
  kbd_char i s = Ret (key_char (key_down k i) i) s' /\ input s' (key_down k i) q /\
  resets s' = resets s ++ reset_bytes k (Down i) /\ serial_exists s' = serial_exists s.
Proof.
  intros Hin Hi. rewrite kbd_char_eq by exact Hi. rewrite (in_shift _ _ _ Hin).
  rewrite (proj1 (down_table k i Hi)), (proj1 (proj2 (down_table (key_down k i) i Hi))).
  destruct (mask_table (key_down k i)) as (_ & _ & _ & _ & Hm). unfold reboot_of, reset_bytes, reboots. rewrite Hm.
  pose proof (input_set_shift s k q (key_down k i) Hin) as Hin'. revert Hin'.
  assert (resets (set_shift s (encode (key_down k i))) = resets s) as <- by reflexivity.
  assert (serial_exists (set_shift s (encode (key_down k i))) = serial_exists s) as <- by reflexivity.
  generalize (set_shift s (encode (key_down k i))). clear s Hin. intros s Hin. destruct (_ && _ && _).
  - destruct (in_term _ _ _ Hin) as [t Ht]. destruct (cputs_ok (str "Rebooting!" ++ [10]) s t Ht) as (s1 & E1 & W1 & S1).
    eexists. split; [|split; [|split]].
    + rewrite bind_assoc. step by exact E1. unfold outb. rewrite bind_modify. reflexivity.
    + destruct Hin as [Hk [L R W Q] _]. destruct W1. constructor; [cbn; congruence | constructor; cbn; congruence |].
      exists (fold_left term_putc (str "Rebooting!" ++ [10]) t). destruct S1. constructor; assumption.
    + unfold resets at 1, sent. cbn. rewrite omap_app. cbn. f_equal. exact (wr_resets _ _ _ W1).
    + exact (wr_exists _ _ _ W1).
  - exists s. rewrite app_nil_r. split; [reflexivity | auto].
Qed.
Lemma event_intr e s k q : input s k q -> event_ok e = true -> exists s',
  input s' (kbd_step k e) (received q (one_char (event_char k e))) /\
  resets s' = resets s ++ reset_bytes k e /\ serial_exists s' = serial_exists s /\
  forall ps, cons_intr (map (kbd_proc_data st) (scan e) ++ ps) s = cons_intr ps s'.
Proof.
  intros Hin Hok. pose proof (ring_short _ _ (in_ring _ _ _ Hin)) as Hs. pose proof (in_shift _ _ _ Hin) as Hk.
  assert (exists i, e = Down i \/ e = Up i) as [i He] by (destruct e; eauto).
  assert (0 <= i < 256 /\ i <> 0x60 /\ i <> 0xE0) as (Hi & H60 & HE0).
  { destruct He as [-> | ->]; cbn in Hok; apply andb_prop in Hok as [[[?%Z.leb_le ?%Z.ltb_lt]%andb_prop ?%negb_true_iff%Z.eqb_neq]%andb_prop ?%negb_true_iff%Z.eqb_neq]; auto. }
  set (s0 := set_shift s (encode k + 64)).
  assert (forall x, set_shift s0 x = set_shift s x) as Hs0 by apply set_shift_twice.
  assert (forall ps, cons_intr (kbd_proc_data st 0xE0 :: ps) s = cons_intr ps s0) as HE by (intros ps; apply intr_skip, byte_E0, Hk).
  destruct He as [-> | ->]; cbn [scan kbd_step event_char].
  - destruct (key_press s k q i Hin Hi) as (s1 & E1 & I1 & R1 & X1). pose proof (proj2 (proj2 (down_table (key_down k i) i Hi))) as Hc.
    assert (kbd_char i (set_shift s (encode k)) = Ret (key_char (key_down k i) i) s1) as E1' by (rewrite set_shift_same by exact Hk; exact E1).
    destruct (Z.ltb_spec i 128); cbn [map app].
    + destruct (intr_char (kbd_proc_data st i) s (key_char (key_down k i) i) (key_down k i) q s1) as (s2 & I2 & R2 & X2 & E2); [|lia | exact I1|].
      { rewrite (byte_down s k false i); [exact E1' | lia | exact H60 | split; [discriminate | lia] | cbn; lia]. }
      exists s2. rewrite R2, X2. auto.
    + destruct (intr_char (kbd_proc_data st (i - 128)) s0 (key_char (key_down k i) i) (key_down k i) q s1) as (s2 & I2 & R2 & X2 & E2); [|lia | exact I1|].
      { rewrite (byte_down s0 k true i); [rewrite Hs0; exact E1' | lia | exact H60 | split; [lia | reflexivity] | reflexivity]. }
      exists s2. rewrite R2, X2. split; [exact I2|]. split; [exact R1|]. split; [exact X1|]. intros ps. rewrite HE. apply E2.
  - exists (set_shift s (encode (key_up k i))). cbn [one_char]. change (one_char 0) with (@nil Z). rewrite received_nil by exact Hs.
    split; [apply input_set_shift with k, Hin|]. split; [symmetry; apply app_nil_r|]. split; [reflexivity|]. intros ps.
    destruct (Z.ltb_spec i 128); cbn [map app]; [|rewrite HE]; apply intr_skip.
    + apply (byte_up s k false i); [lia | exact HE0 | exact H60 | split; [discriminate | lia] | cbn; lia].
    + rewrite (byte_up s0 k true i); [rewrite Hs0; reflexivity | lia | exact HE0 | exact H60 | split; [lia | reflexivity] | reflexivity].
Qed.
End Ready.

Fixpoint reset_all (k : kbd) (es : list event) : list Z :=
  match es with [] => [] | e :: es => reset_bytes k e ++ reset_all (kbd_step k e) es end.
Lemma event_char_range k e : event_ok e = true -> 0 <= event_char k e < 256.
Proof.
  destruct e as [i|i]; cbn; [|lia]. intros [[[Hl%Z.leb_le Hu%Z.ltb_lt]%andb_prop _]%andb_prop _]%andb_prop.
  apply (down_table (key_down k i) i). lia.
Qed.
Lemma one_char_eq c : 0 <= c < 256 -> one_char c = if c =? 0 then [] else [c].
Proof. intros H. unfold one_char, u8. rewrite Z.mod_small by exact H. reflexivity. Qed.

Lemma events_intr st es : (Z.land st KBS_DIB =? 0) = false -> bitset st KBS_TERR = false ->
  forall s k q, input s k q -> forallb event_ok es = true -> exists s',
  kbd_intr (map (pair st) (concat (map scan es))) s = Ret tt s' /\
  input s' (fold_left kbd_step es k) (received q (typed_chars k es)) /\
  resets s' = resets s ++ reset_all k es /\ serial_exists s' = serial_exists s.
Proof.
  intros Hst Herr. unfold kbd_intr. induction es as [|e es IH]; intros s k q Hin Hok.
  - exists s. cbn [typed_chars reset_all fold_left]. rewrite received_nil, app_nil_r by apply (ring_short _ _ (in_ring _ _ _ Hin)). auto.
  - cbn [forallb] in Hok. apply andb_prop in Hok as [He Hok].
    destruct (event_intr st Hst Herr e s k q Hin He) as (s1 & I1 & R1 & X1 & E1).
    destruct (IH s1 _ _ I1 Hok) as (s2 & E2 & I2 & R2 & X2). exists s2. cbn [map concat typed_chars reset_all fold_left].
    rewrite !map_app. rewrite map_map. split; [|split; [|split; [rewrite R2, R1, app_assoc; reflexivity | congruence]]].
    + rewrite E1. exact E2.
    + cbv zeta. rewrite received_app by apply (ring_short _ _ (in_ring _ _ _ Hin)).
      rewrite <- one_char_eq by (apply event_char_range, He). exact I2.
Qed.
(** What the ring gets from the serial port. *)
Definition nonzero (l : list Z) : list Z := filter (fun c => c <> 0) l.
Lemma serial_intr_ok lsr l : (Z.land lsr COM_LSR_DATA =? 0) = false -> forall s k q, input s k q ->
  Forall (fun c => 0 <= c < 256) l -> exists s',
  cons_intr (map (fun '(lsr, rx) => serial_proc_data lsr rx) (map (pair lsr) l)) s = Ret tt s' /\
  input s' k (received q (nonzero l)) /\ resets s' = resets s /\ serial_exists s' = serial_exists s.
Proof.
  intros Hl. induction l as [|c l IH]; intros s k q Hin Hb.
  - exists s. unfold nonzero. rewrite filter_nil, received_nil by apply (ring_short _ _ (in_ring _ _ _ Hin)). auto.
  - apply Forall_cons in Hb as [Hc Hb].
    destruct (intr_char (serial_proc_data lsr c) s c k q s) as (s1 & I1 & R1 & X1 & E1); [|lia | exact Hin|].
    { unfold serial_proc_data. rewrite Hl. reflexivity. }
    destruct (IH s1 k _ I1 Hb) as (s2 & E2 & I2 & R2 & X2). exists s2. cbn [map]. rewrite E1.
    split; [exact E2|]. split; [|split; congruence]. unfold nonzero in *. rewrite filter_cons.
    rewrite one_char_eq in I2 by exact Hc. destruct (Z.eqb_spec c 0) as [->|Hz].
    + rewrite received_nil in I2 by apply (ring_short _ _ (in_ring _ _ _ Hin)). exact I2.
    + rewrite decide_True by exact Hz. rewrite received_cons by apply (ring_short _ _ (in_ring _ _ _ Hin)).
      rewrite received_cons, received_nil in I2 by (try apply enqueue_short; apply (ring_short _ _ (in_ring _ _ _ Hin))). exact I2.
Qed.
Lemma ring_get s q : ring s q -> exists s', (let! s := get id in
  if negb (cons_rpos s =? cons_wpos s) then
    let! c := deref (get_at (cons_buf s) (cons_rpos s)) in
    modify (fun s => s <| cons_rpos ::= fun r => u32 (r + 1) |>) ;!
    let! r := get cons_rpos in
    (if r =? CONSBUFSIZE then modify (fun s => s <| cons_rpos := 0 |>) else ret tt) ;!
    ret c
  else ret 0) s = Ret (List.hd 0 q) s' /\ ring s' (tail q) /\ s' = s <| cons_rpos := cons_rpos s' |>.
Proof.
  intros [Hl Hr Hw Hq]. rewrite bind_self. unfold CONSBUFSIZE in Hr, Hw. destruct (Z.eqb_spec (cons_rpos s) (cons_wpos s)) as [E|E]; cbn [negb].
  - exists s. rewrite E, Z.sub_diag in Hq. cbn in Hq. subst q. split; [reflexivity|]. split; [|destruct s; reflexivity].
    constructor; try assumption. rewrite E, Z.sub_diag. reflexivity.
  - unfold CONSBUFSIZE in Hq. replace (Z.to_nat ((cons_wpos s - cons_rpos s) mod 512)) with
      (S (Z.to_nat ((cons_wpos s - (cons_rpos s + 1)) mod 512))) in Hq by (clear -Hr Hw E; dlia).
    rewrite waiting_S in Hq. subst q. cbn [List.hd tail]. unfold CONSBUFSIZE. rewrite (Z.mod_small (cons_rpos s)) by exact Hr.
    exists (s <| cons_rpos := (cons_rpos s + 1) mod 512 |>). split; [|split; [|destruct s; reflexivity]].
    + unfold get_at. rewrite (proj2 (Z.leb_le 0 _)) by lia. change (Z.to_nat CONSBUFSIZE) with 512%nat in Hl.
      destruct (nth_lookup_or_length (cons_buf s) (Z.to_nat (cons_rpos s)) 0) as [-> | Hge]; [|lia].
      cbn. unfold bind, u32. cbn. rewrite (Z.mod_small (cons_rpos s + 1)) by lia.
      destruct (Z.eqb_spec (cons_rpos s + 1) 512) as [Eq|Hne]; [rewrite Eq; reflexivity|].
      unfold ret, set_field. cbn. rewrite !(Z.mod_small (cons_rpos s + 1)) by lia. reflexivity.
    + constructor; cbn; unfold CONSBUFSIZE; [exact Hl | apply Z.mod_pos_bound; lia | exact Hw |].
      f_equal. f_equal. rewrite Zminus_mod_idemp_r. reflexivity.
Qed.

Lemma cons_getc_ok (st lsr : Z) (s : cons) (k : kbd) (q l : list Z) (es : list event)
    (Hst : Z.land st KBS_DIB <> 0) (Herr : Z.land st KBS_TERR = 0) (Hlsr : Z.land lsr COM_LSR_DATA <> 0)
    (Hin : input s k q) (Hl : Forall (fun c => 0 <= c < 256) l) (Hes : forallb event_ok es = true) :
  let w := received q ((if serial_exists s then nonzero l else []) ++ typed_chars k es) in
  exists s', cons_getc (map (pair lsr) l, map (pair st) (concat (map scan es))) s = Ret (List.hd 0 w) s' /\
    input s' (fold_left kbd_step es k) (tail w) /\ resets s' = resets s ++ reset_all k es /\ serial_exists s' = serial_exists s.
Proof.
  intros w. assert ((Z.land st KBS_DIB =? 0) = false) as H1 by (apply Z.eqb_neq; exact Hst).
  assert (bitset st KBS_TERR = false) as H2 by (unfold bitset; rewrite Herr; reflexivity).
  assert ((Z.land lsr COM_LSR_DATA =? 0) = false) as H3 by (apply Z.eqb_neq; exact Hlsr).
  assert (exists s1, serial_intr (map (pair lsr) l) s = Ret tt s1 /\
    input s1 k (received q (if serial_exists s then nonzero l else [])) /\ resets s1 = resets s /\ serial_exists s1 = serial_exists s) as (s1 & E1 & I1 & R1 & X1).
  { unfold serial_intr. rewrite bind_get. destruct (serial_exists s) eqn:Es.
    - destruct (serial_intr_ok lsr l H3 s k q Hin Hl) as (s1 & E & I & R & X). exists s1. rewrite X, Es. auto.
    - exists s. rewrite received_nil by apply (ring_short _ _ (in_ring _ _ _ Hin)). auto. }
  destruct (events_intr st es H1 H2 s1 k _ I1 Hes) as (s2 & E2 & I2 & R2 & X2).
  rewrite <- received_app in I2 by apply (ring_short _ _ (in_ring _ _ _ Hin)). fold w in I2.
  destruct (ring_get s2 w (in_ring _ _ _ I2)) as (s3 & E3 & Q3 & F3). exists s3. unfold cons_getc. cbn [fst snd].
  step by exact E1. step by exact E2. split; [exact E3|]. split; [|split; rewrite F3; unfold resets, sent in *; cbn; congruence].
  destruct I2 as [K2 _ [t T2]]. constructor; [rewrite F3; exact K2 | exact Q3 | exists t; rewrite F3; destruct T2; constructor; assumption].
Qed.

(** C35. Input of the JOS console: cons_getc() takes the bytes of the serial
    port and the scan codes of the keyboard.  Whatever keys are pressed and
    released, the keyboard is in the state of a keyboard with three modifiers
    and three locks, the characters of the keys are put behind those that wait,
    the oldest one is returned (0 without any), and Ctrl-Alt-Del alone writes
    to the port that resets the machine.  Of n characters the ring keeps the last n mod 512: with 512
    it drops all. *)
Theorem console_input (st lsr : Z) (s : cons) (k : kbd) (q l : list Z) (es : list event)
    (Hst : Z.land st KBS_DIB <> 0) (Herr : Z.land st KBS_TERR = 0) (Hlsr : Z.land lsr COM_LSR_DATA <> 0)
    (Hin : input s k q) (Hl : Forall (fun c => 0 <= c < 256) l) (Hes : forallb event_ok es = true) :
  let w := received q ((if serial_exists s then nonzero l else []) ++ typed_chars k es) in
  exists s', cons_getc (map (pair lsr) l, map (pair st) (concat (map scan es))) s = Ret (List.hd 0 w) s' /\
    input s' (fold_left kbd_step es k) (tail w) /\ resets s' = resets s ++ reset_all k es.
Proof.
  destruct (cons_getc_ok st lsr s k q l es Hst Herr Hlsr Hin Hl Hes) as (s' & E & I & R & _). exists s'. auto.
Qed.
Definition no_mods : kbd := mk_kbd false false false false false false.
Lemma boot_input : input boot no_mods [].
Proof.
  constructor; [reflexivity | constructor; try (vm_compute; intuition congruence) |].
  exists (mk_term empty_rows 24 78). constructor; [|left; vm_compute; reflexivity | vm_compute; reflexivity | vm_compute; reflexivity].
  constructor; [reflexivity | apply Forall_replicate; reflexivity | cbn; lia | cbn; lia].
Qed.
(** Caps Lock, Shift held for one letter, then Control and c, with "x" from
    the serial port. *)
Definition some_events : list event :=
  [Down 0x3A; Up 0x3A; Down 0x1E; Up 0x1E; Down 0x36; Down 0x30; Up 0x30; Up 0x36; Down 0x9D; Down 0x2E; Up 0x2E; Up 0x9D].
Example console_input_witness :
  (Z.land 0x1D KBS_DIB <> 0 /\ Z.land 0x1D KBS_TERR = 0 /\ Z.land 0x61 COM_LSR_DATA <> 0) /\
  input boot no_mods [] /\ forallb event_ok some_events = true /\
  let w := received [] ((if serial_exists boot then nonzero [120] else []) ++ typed_chars no_mods some_events) in
  w = str "xAb" ++ [3] /\
  exists s', cons_getc (map (pair 0x61) [120], map (pair 0x1D) (concat (map scan some_events))) boot = Ret (List.hd 0 w) s' /\
    input s' (fold_left kbd_step some_events no_mods) (tail w) /\ resets s' = resets boot ++ reset_all no_mods some_events.
Proof.
  assert (Z.land 0x1D KBS_DIB <> 0 /\ Z.land 0x1D KBS_TERR = 0 /\ Z.land 0x61 COM_LSR_DATA <> 0) as (H1 & H2 & H3)
    by (vm_compute; intuition congruence).
  split; [auto|]. split; [exact boot_input|]. split; [vm_compute; reflexivity|]. split; [vm_compute; reflexivity|].
  exact (console_input 0x1D 0x61 boot no_mods [] [120] some_events H1 H2 H3 boot_input
    ltac:(repeat constructor; lia) ltac:(vm_compute; reflexivity)).
Defined.

(** There is no check for a full ring: of 512 characters none is left. *)
Lemma ring_overflow :
  match cons_getc (map (pair 0x61) (replicate 512 97), []) boot with Ret c s => c = 0 /\ ring s [] | Stop _ _ => False end.
Proof. vm_compute. split; [reflexivity|]. constructor; vm_compute; intuition congruence. Qed.

(** ** Types *)

Definition byte (c : Z) : Prop := 0 <= c < 256.
Definition word (c : Z) : Prop := 0 <= c < 65536.
Definition cells_ok (t : term) : Prop := Forall (Forall word) (t_rows t).
Record typed (s : cons) : Prop := {
  ty_shift : 0 <= kbd_shift s < 128;
  ty_ring : exists q, ring s q;
  ty_bytes : Forall byte (cons_buf s);
  ty_screen : exists t, shows s t /\ cells_ok t }.

Lemma write_cell_cells c t row col : word c -> cells_ok t -> cells_ok (mk_term (write_cell c t) row col).
Proof.
  intros Hc Ht. apply Forall_alter; [exact Ht|]. intros r _ Hr. apply Forall_insert; assumption.
Qed.
Lemma new_line_cells t : cells_ok t -> cells_ok (new_line t).
Proof.
  intros Ht. unfold new_line. destruct (decide _); [|exact Ht]. apply Forall_app. split.
  - unfold cells_ok in Ht. destruct (t_rows t); [constructor | apply Forall_cons in Ht; tauto].
  - constructor; [|constructor]. apply Forall_replicate. unfold word, blank. lia.
Qed.
Lemma print_cells c t : word c -> cells_ok t -> cells_ok (print c t).
Proof.
  intros Hc Ht. unfold print. destruct (decide _); [apply new_line_cells|]; apply write_cell_cells; assumption.
Qed.
Lemma u16_word c : word (u16 c).
Proof. apply Z.mod_pos_bound. lia. Qed.
Lemma term_putc_cells t c : cells_ok t -> cells_ok (term_putc t c).
Proof.
  intros Ht. unfold term_putc. destruct (_ =? 8).
  { unfold rubout. destruct (decide _); [exact Ht|]. apply write_cell_cells.
    - replace (Z.lor (u16 (Z.land (cell c) (Z.lnot 255))) 32) with (u16 (Z.lor (Z.land (cell c) (Z.lnot 255)) 32)); [apply u16_word|].
      unfold u16. rewrite <- !Z.land_ones by lia. apply Z.land_lor_distr_l.
    - unfold back. destruct (t_col t); [destruct (t_row t)|]; exact Ht. }
  destruct (_ =? 10); [apply new_line_cells, Ht|]. destruct (_ =? 13); [exact Ht|]. destruct (_ =? 9).
  - unfold tab. assert (word (cell 32)) by (vm_compute; intuition congruence). do 5 (apply print_cells; [assumption|]). exact Ht.
  - apply print_cells; [apply u16_word | exact Ht].
Qed.
Lemma cputs_cells l : forall t, cells_ok t -> cells_ok (fold_left term_putc l t).
Proof. induction l as [|c l IH]; intros t Ht; [exact Ht|]. apply IH, term_putc_cells, Ht. Qed.

Lemma typed_wrote l s s' t : typed s -> wrote l s s' -> shows s' t -> cells_ok t -> typed s'.
Proof.
  intros [K [q [L R W Q]] B _] [] S C. constructor; [congruence | exists q; constructor; congruence | congruence | eauto].
Qed.
Lemma typed_cputs l s : typed s -> exists s', cputs l s = Ret tt s' /\ typed s'.
Proof.
  intros Ht. destruct (ty_screen _ Ht) as (t & S & C). destruct (cputs_ok l s t S) as (s' & E & W & S').
  exists s'. split; [exact E|]. eapply typed_wrote; eauto using cputs_cells.
Qed.
Lemma typed_shift s x : typed s -> 0 <= x < 128 -> typed (set_shift s x).
Proof.
  intros [K [q Q] B (t & S & C)] Hx. constructor; [exact Hx | exists q; apply ring_set_shift, Q | exact B|].
  exists t. split; [apply shows_set_shift, S | exact C].
Qed.
Lemma small_mod x : 0 <= x < 128 -> x = x mod 2 ^ 7.
Proof. intros H. symmetry. apply Z.mod_small. lia. Qed.
Lemma u32_seven x : 0 <= u32 (x mod 2 ^ 7) < 128.
Proof. pose proof (Z.mod_pos_bound x (2 ^ 7) ltac:(lia)). unfold u32. rewrite Z.mod_small; lia. Qed.
Lemma lor_seven x y : 0 <= x < 128 -> 0 <= y < 128 -> 0 <= u32 (Z.lor x y) < 128.
Proof.
  intros Hx Hy. rewrite (small_mod x), (small_mod y) by assumption. rewrite <- !Z.land_ones, <- Z.land_lor_distr_l, Z.land_ones by lia.
  apply u32_seven.
Qed.
Lemma lxor_seven x y : 0 <= x < 128 -> 0 <= y < 128 -> 0 <= u32 (Z.lxor x y) < 128.
Proof.
  intros Hx Hy. replace (Z.lxor x y) with (Z.lxor x y mod 2 ^ 7); [apply u32_seven|].
  rewrite (small_mod x), (small_mod y) at 2 by assumption. rewrite <- !Z.land_ones by lia. apply Z.bits_inj'. intros n Hn.
  rewrite !Z.land_spec, !Z.lxor_spec, !Z.land_spec. destruct (Z.testbit x n), (Z.testbit y n), (Z.testbit (Z.ones 7) n); reflexivity.
Qed.
Lemma shift_table shift data : 0 <= shift < 128 -> 0 <= data < 256 ->
  0 <= shift_of shift data < 128 /\ 0 <= char_of shift data < 256.
Proof.
  intros Hs Hd. split; [|apply char_of_byte]. destruct (code_tables data Hd) as [E1 E2]. unfold shift_of. rewrite E1, E2.
  assert (forall m, 0 <= encode m < 128) as He
    by (intros [[] [] [] [] [] []]; vm_compute; split; congruence).
  apply lxor_seven; [apply lor_seven; [exact Hs | apply He] | apply He].
Qed.
Lemma land_shift shift mask : 0 <= shift < 128 -> 0 <= u32 (Z.land shift mask) < 128.
Proof.
  intros H. replace (Z.land shift mask) with (Z.land shift mask mod 2 ^ 7); [apply u32_seven|].
  rewrite <- Z.land_ones by lia. rewrite <- Z.land_assoc, (Z.land_comm mask), Z.land_assoc. f_equal.
  rewrite Z.land_ones by lia. apply Z.mod_small. lia.
Qed.
Lemma kbd_char_typed data s : typed s -> 0 <= data < 256 -> exists c s', kbd_char data s = Ret c s' /\ typed s' /\ 0 <= c < 256.
Proof.
  intros Ht Hd. rewrite kbd_char_eq by exact Hd. destruct (shift_table _ data (ty_shift _ Ht) Hd) as [Hs _].
  set (shift := shift_of (kbd_shift s) data) in *. destruct (shift_table shift data Hs Hd) as [_ Hc].
  pose proof (typed_shift s shift Ht Hs) as Ht'. destruct (reboot_of _ _).
  - destruct (typed_cputs (str "Rebooting!" ++ [10]) _ Ht') as (s1 & E1 & T1). eexists _, _. split.
    + rewrite bind_assoc. step by exact E1. unfold outb. rewrite bind_modify. reflexivity.
    + split; [|exact Hc]. destruct T1 as [K [q [L R W Q]] B (t & [] & C)]. constructor; [exact K | | exact B|].
      * exists q. constructor; assumption.
      * exists t. split; [constructor; assumption | exact C].
  - eexists _, _. split; [reflexivity | auto].
Qed.
Definition proc_typed (p : M cons Z) : Prop := forall s, typed s -> exists c s', p s = Ret c s' /\ typed s' /\ -1 <= c < 256.
Lemma kbd_proc_typed stat data : byte data -> proc_typed (kbd_proc_data stat data).
Proof.
  intros Hd s Ht. unfold kbd_proc_data. unfold byte in Hd. destruct (_ =? 0); [exists (-1), s; split; [reflexivity|]; split; [exact Ht | lia]|].
  destruct (bitset stat _); [exists (-1), s; split; [reflexivity|]; split; [exact Ht | lia]|]. rewrite bind_get. pose proof (ty_shift _ Ht) as Hs.
  destruct (data =? 0xE0).
  { rewrite shift_upd_eq. eexists _, _. split; [reflexivity|]. split; [|lia]. apply typed_shift; [exact Ht|].
    apply lor_seven; [exact Hs | vm_compute; split; congruence]. }
  destruct (bitset data 0x80) eqn:Eb.
  { assert (0 <= (if bitset (kbd_shift s) E0ESC then data else Z.land data 0x7F) < 256).
    { destruct (bitset (kbd_shift s) E0ESC); [exact Hd|]. change 0x7F with (Z.ones 7). rewrite Z.land_ones by lia. clear; dlia. }
    step by (apply kbd_at_eq; [reflexivity | eassumption]). rewrite shift_upd_eq. eexists _, _. split; [reflexivity|].
    split; [|lia]. apply typed_shift; [exact Ht | apply land_shift, Hs]. }
  destruct (bitset (kbd_shift s) E0ESC).
  - rewrite shift_upd_eq. rewrite high_bit in Eb by exact Hd. apply Z.leb_gt in Eb. rewrite or_80 by lia.
    edestruct (kbd_char_typed (data + 128)) as (c & s1 & E1 & T1 & H1); [|split; [|lia]; lia |].
    + apply typed_shift; [exact Ht | apply (land_shift _ (Z.lnot E0ESC) Hs)].
    + exists c, s1. split; [exact E1|]. split; [exact T1 | lia].
  - destruct (kbd_char_typed data s Ht Hd) as (c & s1 & E1 & T1 & H1). exists c, s1. split; [exact E1|]. split; [exact T1 | lia].
Qed.
Lemma intr_typed ps : Forall proc_typed ps -> forall s, typed s -> exists s', cons_intr ps s = Ret tt s' /\ typed s'.
Proof.
  induction 1 as [|p ps Hp _ IH]; intros s Ht; [exists s; auto|]. destruct (Hp s Ht) as (c & s1 & E1 & T1 & Hc).
  cbn [cons_intr]. step by exact E1. destruct (c =? -1); [exists s1; auto|]. destruct (c =? 0); [apply IH, T1|].
  destruct (ty_ring _ T1) as [q Q]. destruct (ring_put s1 q c Q) as (s2 & R2 & E2 & F2).
  rewrite E2. apply IH. destruct T1 as [K _ B (t & S & C)]. constructor.
  - rewrite F2. exact K.
  - eauto.
  - rewrite F2. apply Forall_insert; [exact B|]. apply Z.mod_pos_bound. lia.
  - exists t. split; [|exact C]. rewrite F2. destruct S. constructor; assumption.
Qed.

(** What the ports return are bytes. *)
Definition bytes_read (l : list (Z * Z)) : Prop := Forall (fun '(x, y) => byte x /\ byte y) l.
(** C36. The console of JOS keeps its types: the cursor is on the screen, the
    cells are 16-bit words, the positions of the ring are indices of it and its
    elements bytes, the modifiers fit their seven bits.  Printing any integer
    and polling the devices with any bytes on their ports never uses an index
    outside an array, and cons_getc() returns a byte. *)
Theorem console_typed (s : cons) (Hs : typed s) :
  (forall c, exists s', cons_putc c s = Ret tt s' /\ typed s') /\
  (forall p, bytes_read p.1 -> bytes_read p.2 -> exists c s', cons_getc p s = Ret c s' /\ typed s' /\ byte c).
Proof.
  split.
  - intros c. destruct (ty_screen _ Hs) as (t & S & C). destruct (cons_putc_ok c s t S) as (s' & E & W & S').
    exists s'. split; [exact E|]. eapply typed_wrote; eauto using term_putc_cells.
  - intros [l1 l2] H1 H2. cbn [fst snd] in *.
    assert (exists s1, serial_intr l1 s = Ret tt s1 /\ typed s1) as (s1 & E1 & T1).
    { unfold serial_intr. rewrite bind_get. destruct (serial_exists s); [|exists s; auto]. apply intr_typed; [|exact Hs].
      apply Forall_map. eapply Forall_impl; [exact H1|]. intros [x y] [_ Hy] s' Hs'. unfold serial_proc_data, byte in *.
      destruct (_ =? 0); eexists _, _; (split; [reflexivity|]); (split; [exact Hs' | lia]). }
    destruct (intr_typed (map (fun '(stat, data) => kbd_proc_data stat data) l2)) with (s := s1) as (s2 & E2 & T2); [|exact T1|].
    { apply Forall_map. eapply Forall_impl; [exact H2|]. intros [x y] [_ Hy]. apply kbd_proc_typed, Hy. }
    destruct (ty_ring _ T2) as [q Q]. destruct (ring_get s2 q Q) as (s3 & E3 & R3 & F3). exists (List.hd 0 q), s3.
    unfold cons_getc. cbn [fst snd]. step by exact E1. step by exact E2. split; [exact E3|].
    destruct T2 as [K _ B (t & S & C)]. split.
    + constructor; [rewrite F3; exact K | eauto | rewrite F3; exact B |]. exists t. split; [|exact C]. rewrite F3. destruct S. constructor; assumption.
    + destruct Q as [L _ _ <-]. unfold waiting.
      destruct (Z.to_nat ((cons_wpos s2 - _) mod _)); cbn [seq map List.hd]; [unfold byte; lia|].
      rewrite nth_lookup. destruct (cons_buf s2 !! _) as [x|] eqn:Ex; cbn; [|unfold byte; lia].
      exact (proj1 (Forall_lookup _ _) B _ _ Ex).
Qed.
Example console_typed_witness : typed boot /\ (exists s', cons_putc (-1) boot = Ret tt s' /\ typed s') /\
  exists c s', cons_getc ([(0x61, 0)], [(0x1D, 0xE0); (0x01, 0xFF); (0x1D, 0x60)]) boot = Ret c s' /\ typed s' /\ byte c.
Proof.
  assert (typed boot) as Hb.
  { constructor; [cbn; lia | exists []; exact (in_ring _ _ _ boot_input) | apply Forall_replicate; unfold byte; lia|].
    exists (mk_term empty_rows 24 78). split.
    - constructor; [|left; vm_compute; reflexivity | vm_compute; reflexivity | vm_compute; reflexivity].
      constructor; [reflexivity | apply Forall_replicate; reflexivity | cbn; lia | cbn; lia].
    - apply Forall_replicate, Forall_replicate. unfold word, blank. lia. }
  split; [exact Hb|]. split; [exact (proj1 (console_typed boot Hb) (-1))|].
  apply (proj2 (console_typed boot Hb)); repeat constructor; cbn; lia.
Defined.
