(* ===== verification/JosMonitor.v ===== *)
(** * The kernel monitor of JOS

    [src/labs/lab02-mem-management/kern/monitor.c] and [lib/readline.c]: lines
    are read from the console into a static buffer, cut into words in place,
    and the first word names a command. *)
From S2P Require Import Prelude.
From S2P Require Import CString.
From S2P Require Import Printfmt.
From S2P Require Import Stab.
From S2P Require Import JosConsole.

(** The console and the memory. *)
Record mon := mk_mon { mo_cons : cons; mo_mem : mem }.
#[export] Instance eta_mon : Eta mon := fun s => mk_mon (mo_cons s) (mo_mem s).
Definition in_console {A} (m : M cons A) : M mon A := zoom mo_cons m.
Definition poke (a v : Z) : M mon unit := modify (fun s => s <| mo_mem ::= fun m => store8 m a v |>).
Definition peek (a : Z) : M mon Z := get (fun s => mo_mem s a).

(** cprintf() on the console; its result is not used. *)
Definition cprintf (fmt : list Z) (ap : list va) : M mon unit :=
  in_console (vprintfmt cputchar (length fmt + 11) fmt ap).
(** A format that ends its line. *)
Definition ln (s : string) : list Z := str s ++ [10].

Definition BUFLEN : Z := 1024.
Definition WHITESPACE : list Z := [9; 13; 10; 32].
Definition MAXARGS : nat := 16.
Definition KERNBASE : Z := 0xF0000000.
(** [strchr(WHITESPACE, c)] for a [c] that is not 0. *)
Definition is_white (c : Z) : bool := existsb (Z.eqb c) WHITESPACE.
(** The string at an address, up to [fuel] bytes, for "%s". *)
Fixpoint string_at (fuel : nat) (m : mem) (a : Z) : list Z :=
  match fuel with
  | O => []
  | S fuel' => if m a =? 0 then [] else m a :: string_at fuel' m (a + 1)
  end.
(** [strcmp(p, name)] for a literal. *)
Fixpoint strcmp_lit (m : mem) (p : Z) (name : list Z) : Z :=
  match name with
  | [] => m p
  | c :: name' => if negb (m p =? 0) && (m p =? c) then strcmp_lit m (p + 1) name' else m p - c
  end.

(** *** readline() *)

Section Readline.
(** The address of the static array [buf]. *)
Context (buf : Z).

(** [while (1)]; [polls] is what the devices deliver, and every round uses up
    some of it. *)
Fixpoint readline_loop (fuel : nat) (i : Z) (polls : list poll) : M mon (option Z * list poll) :=
  match fuel with
  | O => halt NoFuel
  | S fuel' =>
      let! (c, polls) := in_console (getchar polls) in
      if c <? 0 then
        cprintf (ln "read error: %e") [VInt c] ;! ret (None, polls)
      else if ((c =? 8) || (c =? 0x7f)) && (0 <? i) then
        in_console (cputchar 8) ;! readline_loop fuel' (i - 1) polls
      else if (32 <=? c) && (i <? BUFLEN - 1) then
        in_console (cputchar c) ;! poke (buf + i) c ;! readline_loop fuel' (i + 1) polls
      else if (c =? 10) || (c =? 13) then
        in_console (cputchar 10) ;! poke (buf + i) 0 ;! ret (Some buf, polls)
      else readline_loop fuel' i polls
  end.
Definition readline (prompt : option (list Z)) (polls : list poll) : M mon (option Z * list poll) :=
  match prompt with
  | Some p => cprintf (str "%s") [VStr p]
  | None => ret tt
  end ;!
  readline_loop (S (length polls)) 0 polls.
End Readline.

(** *** runcmd() *)

(** "gobble whitespace" *)
Fixpoint gobble (fuel : nat) (buf : Z) : M mon Z :=
  match fuel with
  | O => halt NoFuel
  | S fuel' =>
      let! c := peek buf in
      if negb (c =? 0) && is_white c then poke buf 0 ;! gobble fuel' (buf + 1) else ret buf
  end.
(** "scan past next arg" *)
Fixpoint scan_arg (fuel : nat) (buf : Z) : M mon Z :=
  match fuel with
  | O => halt NoFuel
  | S fuel' =>
      let! c := peek buf in
      if negb (c =? 0) && negb (is_white c) then scan_arg fuel' (buf + 1) else ret buf
  end.
(** argv, or none where there are too many arguments. *)
Fixpoint parse_args (fuel : nat) (buf : Z) (argv : list Z) : M mon (option (list Z)) :=
  match fuel with
  | O => halt NoFuel
  | S fuel' =>
      let! buf := gobble fuel buf in
      let! c := peek buf in
      if c =? 0 then ret (Some argv)
      else if decide (length argv = MAXARGS - 1)%nat then
        cprintf (ln "Too many arguments (max %d)") [VInt (Z.of_nat MAXARGS)] ;! ret None
      else
        let argv := argv ++ [buf] in
        let! buf := scan_arg fuel buf in
        parse_args fuel' buf argv
  end.

Section Monitor.
(** The symbols of the linker, the words of the stack, and the tables of
    debuginfo_eip(). *)
Context (start entry etext edata end_ : Z) (word : Z -> Z) (stabs : Z -> Stab) (nstab : Z) (stabstr : list Z).

(** The functions of the table of commands. *)
Inductive command := Mon_help | Mon_kerninfo | Mon_backtrace.
Definition commands : list (list Z * list Z * command) :=
  [(str "help", str "Display this list of commands", Mon_help);
   (str "kerninfo", str "Display information about the kernel", Mon_kerninfo);
   (str "backtrace", str "Display the stack backtrace", Mon_backtrace)].
Definition mon_help : M mon Z :=
  for_all commands (fun '(name, desc, _) => cprintf (ln "%s - %s") [VStr name; VStr desc]) ;!
  ret 0.
(** [ROUNDUP(a, n)] *)
Definition roundup (a n : Z) : Z := let x := u32 (a + n - 1) in x - x mod n.
Definition mon_kerninfo : M mon Z :=
  cprintf (ln "Special kernel symbols:") [] ;!
  cprintf (ln "  _start                  %08x (phys)") [VInt start] ;!
  cprintf (ln "  entry  %08x (virt)  %08x (phys)") [VInt entry; VInt (entry - KERNBASE)] ;!
  cprintf (ln "  etext  %08x (virt)  %08x (phys)") [VInt etext; VInt (etext - KERNBASE)] ;!
  cprintf (ln "  edata  %08x (virt)  %08x (phys)") [VInt edata; VInt (edata - KERNBASE)] ;!
  cprintf (ln "  end    %08x (virt)  %08x (phys)") [VInt end_; VInt (end_ - KERNBASE)] ;!
  cprintf (ln "Kernel executable memory footprint: %dKB") [VInt (roundup (end_ - entry) 1024 / 1024)] ;!
  ret 0.

(** A name of the string table. *)
Definition name_of (x : option Z) : list Z :=
  match x with
  | Some x => string_at (length stabstr) (fun i => nth (Z.to_nat i) stabstr 0) x
  | None => str "<unknown>"
  end.
Definition eipinfo (fuel : nat) (eip : Z) : M mon Eipdebuginfo := fun s =>
  match debuginfo_eip stabs nstab stabstr fuel eip with
  | Ret (Some (_, info)) _ => Ret info s
  | Ret None _ => Stop NoFuel s
  | Stop w _ => Stop w s
  end.
Definition print_frame (fuel : nat) (ebp : Z) : M mon unit :=
  let arg i := VInt (word (ebp + 4 * i)) in
  cprintf (ln "ebp %x eip %x args %08x %08x %08x %08x %08x") [VInt ebp; arg 1; arg 2; arg 3; arg 4; arg 5; arg 6] ;!
  let! info := eipinfo fuel (word (ebp + 4)) in
  cprintf (ln "%s:%d: %.*s+%d") [VStr (name_of (eip_file info)); VInt (eip_line info); VInt (eip_fn_namelen info); VStr (name_of (eip_fn_name info));
    VInt (word (ebp + 4) - eip_fn_addr info)].
(** [while (ebp_ptr != NULL)]; [depth] bounds the frames, [fuel] the search
    of the tables. *)
Fixpoint frames (depth fuel : nat) (ebp : Z) : M mon unit :=
  if ebp =? 0 then ret tt else
  match depth with
  | O => halt NoFuel
  | S depth' => print_frame fuel ebp ;! frames depth' fuel (word ebp)
  end.
(** [ebp] is the register. *)
Definition mon_backtrace (depth fuel : nat) (ebp : Z) : M mon Z :=
  cprintf (ln "Stack backtrace:") [] ;!
  frames depth fuel ebp ;!
  ret 0.

(** [for (i = 0; i < ARRAY_SIZE(commands); i++)] *)
Fixpoint lookup (cmds : list (list Z * list Z * command)) (m : mem) (arg0 : Z) : option command :=
  match cmds with
  | [] => None
  | (name, _, func) :: cmds' => if strcmp_lit m arg0 name =? 0 then Some func else lookup cmds' m arg0
  end.
Definition invoke (depth fuel : nat) (ebp : Z) (c : command) : M mon Z :=
  match c with
  | Mon_help => mon_help
  | Mon_kerninfo => mon_kerninfo
  | Mon_backtrace => mon_backtrace depth fuel ebp
  end.
(** The line is at most [len] bytes. *)
Definition runcmd (depth fuel len : nat) (ebp buf : Z) : M mon Z :=
  let! argv := parse_args (S len) buf [] in
  match argv with
  | None | Some [] => ret 0
  | Some (arg0 :: _) =>
      let! m := get mo_mem in
      match lookup commands m arg0 with
      | Some func => invoke depth fuel ebp func
      | None => cprintf (ln "Unknown command '%s'") [VStr (string_at (S len) m arg0)] ;! ret 0
      end
  end.
(** [rounds] is the number of lines. *)
Fixpoint monitor_loop (rounds depth fuel : nat) (ebp buf : Z) (polls : list poll) : M mon unit :=
  match rounds with
  | O => halt Spinning
  | S rounds' =>
      let! (line, polls) := readline buf (Some (str "K> ")) polls in
      match line with
      | None => monitor_loop rounds' depth fuel ebp buf polls
      | Some line =>
          let! r := runcmd depth fuel (Z.to_nat BUFLEN) ebp line in
          if r <? 0 then ret tt else monitor_loop rounds' depth fuel ebp buf polls
      end
  end.
Definition monitor (rounds depth fuel : nat) (ebp buf : Z) (polls : list poll) : M mon unit :=
  cprintf (ln "Welcome to the JOS kernel monitor!") [] ;!
  cprintf (ln "Type 'help' for a list of commands.") [] ;!
  monitor_loop rounds depth fuel ebp buf polls.
End Monitor.
