(* ===== verification/JosReadline.v ===== *)
(** * readline() and the words of a command

    From the keys to the line in memory: readline() against an editor of
    lists, for whatever the devices deliver; then the line cut into words. *)
From S2P Require Import Prelude.
From S2P Require Import CString.
From S2P Require Import Printfmt.
From S2P Require Import JosString.
From S2P Require Import JosConsole.
From S2P Require Import JosTerm.
From S2P Require Import JosInput.
From S2P Require Import JosMonitor.

(** ** What getchar() returns *)

(** What the devices deliver at one poll: bytes of the serial port, and keys. *)
Definition batch : Type := list Z * list event.
Definition batch_ok (b : batch) : Prop := Forall byte b.1 /\ forallb event_ok b.2 = true.
(** The waiting characters after a poll; [x] tells whether there is a serial port. *)
Definition after_poll (x : bool) (k : kbd) (q : list Z) (b : batch) : list Z :=
  received q ((if x then nonzero b.1 else []) ++ typed_chars k b.2).
(** The characters of getchar(), one for a poll at most. *)
Fixpoint chars (x : bool) (k : kbd) (q : list Z) (bs : list batch) : list Z :=
  match bs with
  | [] => []
  | b :: bs =>
      let w := after_poll x k q b in
      (if List.hd 0 w =? 0 then [] else [List.hd 0 w]) ++ chars x (fold_left kbd_step b.2 k) (tail w) bs
  end.

Lemma typed_chars_bytes : forall es k, forallb event_ok es = true -> Forall byte (typed_chars k es).
Proof.
  induction es as [|e es IH]; intros k; cbn [forallb typed_chars]; [constructor|]. intros [He Hes]%andb_prop.
  apply Forall_app. split; [|apply IH, Hes]. cbv zeta. destruct (_ =? 0); [constructor|].
  constructor; [apply event_char_range, He | constructor].
Qed.
Lemma after_poll_bytes x k q b : Forall byte q -> batch_ok b -> Forall byte (after_poll x k q b).
Proof.
  intros Hq [H1 H2]. unfold after_poll, received. apply Forall_drop, Forall_app. split; [exact Hq|]. apply Forall_app.
  split; [|apply typed_chars_bytes, H2]. destruct x; [|constructor]. unfold nonzero. apply list.Forall_forall. intros c [_ Hc]%list_elem_of_filter.
  exact (proj1 (list.Forall_forall _ _) H1 c Hc).
Qed.
Lemma chars_bytes x : forall bs k q, Forall byte q -> Forall batch_ok bs -> Forall byte (chars x k q bs).
Proof.
  induction bs as [|b bs IH]; intros k q Hq Hb; cbn [chars]; [constructor|]. apply Forall_cons in Hb as [H1 H2].
  pose proof (after_poll_bytes x k q b Hq H1) as Hw. apply Forall_app. split.
  - destruct (_ =? 0) eqn:E; [constructor|]. destruct (after_poll x k q b); [discriminate|]. apply Forall_cons in Hw as [? _]. auto.
  - apply IH; [|exact H2]. destruct (after_poll x k q b); [constructor | apply Forall_cons in Hw; tauto].
Qed.

Section Devices.
(** The status registers while there is data. *)
Context (st lsr : Z) (Hst : Z.land st KBS_DIB <> 0) (Herr : Z.land st KBS_TERR = 0) (Hlsr : Z.land lsr COM_LSR_DATA <> 0).
Definition poll_of (b : batch) : poll := (map (pair lsr) b.1, map (pair st) (concat (map scan b.2))).

(** A console whose getchar() will return [cs] from the polls [bs]. *)
Definition supplies (s : cons) (bs : list batch) (cs : list Z) : Prop :=
  exists k q, input s k q /\ Forall batch_ok bs /\ Forall byte q /\ chars (serial_exists s) k q bs = cs.

Lemma supplies_bytes s bs cs : supplies s bs cs -> Forall byte cs.
Proof using. intros (k & q & _ & Hb & Hq & <-). apply chars_bytes; assumption. Qed.
Lemma supplies_cputs s bs cs l : supplies s bs cs -> exists s', cputs l s = Ret tt s' /\ supplies s' bs cs.
Proof using.
  intros (k & q & [Hk Hq [t Ht]] & Hb & Hby & Hc). destruct (cputs_ok l s t Ht) as (s' & E & [] & S'). exists s'. split; [exact E|].
  exists k, q. split; [constructor; [congruence | destruct Hq; constructor; congruence | eauto] | rewrite wr_exists; auto].
Qed.
Lemma supplies_cputchar s bs cs c : supplies s bs cs -> exists s', cputchar c s = Ret tt s' /\ supplies s' bs cs.
Proof using.
  intros H. destruct (supplies_cputs s bs cs [c] H) as (s' & E & S'). exists s'. split; [|exact S'].
  unfold cputs in E. cbn [for_all] in E. unfold bind in E. destruct (cputchar c s) as [[] s1|]; [exact E | discriminate].
Qed.
Lemma getchar_ok : forall bs s c cs, supplies s bs (c :: cs) -> exists s' bs',
  getchar (map poll_of bs) s = Ret (c, map poll_of bs') s' /\ supplies s' bs' cs /\ (length bs' < length bs)%nat.
Proof using Hst Herr Hlsr.
  induction bs as [|b bs IH]; intros s c cs (k & q & Hin & Hb & Hq & Hc); [discriminate|].
  apply Forall_cons in Hb as [[Hb1 Hb2] Hb]. cbn [chars] in Hc. destruct b as [l es]. cbn [fst snd] in *.
  pose proof (cons_getc_ok st lsr s k q l es Hst Herr Hlsr Hin Hb1 Hb2) as (s1 & E1 & I1 & _ & X1).
  change (received q _) with (after_poll (serial_exists s) k q (l, es)) in E1, I1.
  pose proof (after_poll_bytes (serial_exists s) k q (l, es) Hq (conj Hb1 Hb2)) as Hw. revert Hc E1 I1 Hw.
  generalize (after_poll (serial_exists s) k q (l, es)). intros w Hc E1 I1 Hw. cbn [map getchar]. unfold poll_of at 1. cbn [fst snd].
  assert (Forall byte (tail w)) as Ht by (destruct w; [constructor | apply Forall_cons in Hw; tauto]).
  rewrite <- X1 in Hc. destruct (List.hd 0 w =? 0) eqn:E.
  - cbn [app] in Hc. destruct (IH s1 c cs) as (s2 & bs2 & E2 & S2 & L2); [exists (fold_left kbd_step es k), (tail w); auto|].
    exists s2, bs2. step by exact E1. rewrite E. split; [exact E2|]. split; [exact S2 | cbn [length]; lia].
  - injection Hc as <- Hc. exists s1, bs. step by exact E1. rewrite E. split; [reflexivity|].
    split; [exists (fold_left kbd_step es k), (tail w); auto | cbn [length]; lia].
Qed.

(** ** readline() *)

(** [l] is in memory at [a]. *)
Fixpoint at_mem (m : mem) (a : Z) (l : list Z) : Prop :=
  match l with
  | [] => True
  | c :: l => m a = c /\ at_mem m (a + 1) l
  end.
Lemma at_mem_app m l1 : forall a l2, at_mem m a (l1 ++ l2) <-> at_mem m a l1 /\ at_mem m (a + Z.of_nat (length l1)) l2.
Proof using.
  induction l1 as [|c l1 IH]; intros a l2; cbn [app at_mem length]; [rewrite Z.add_0_r; tauto|].
  rewrite IH. replace (a + 1 + Z.of_nat (length l1)) with (a + Z.of_nat (S (length l1))) by lia. tauto.
Qed.
Lemma at_mem_ext m m' l : forall a, (forall x, a <= x < a + Z.of_nat (length l) -> m' x = m x) -> at_mem m a l -> at_mem m' a l.
Proof using.
  induction l as [|c l IH]; intros a He; cbn [at_mem length] in *; [auto|]. intros [Hc Hl]. split; [rewrite He by lia; exact Hc|].
  apply IH; [intros x Hx; apply He; lia | exact Hl].
Qed.
Lemma at_mem_cstring m l : forall a, at_mem m a l -> Forall (fun c => c <> 0) l -> m (a + Z.of_nat (length l)) = 0 -> cstring m a l.
Proof using.
  induction l as [|c l IH]; intros a Hl Hz H0; cbn [at_mem cstring length] in *; [rewrite Z.add_0_r in H0; exact H0|].
  apply Forall_cons in Hz as [Hc Hz]. destruct Hl as [H1 Hl]. split; [exact H1|]. split; [exact Hc|]. apply IH; [exact Hl | exact Hz|].
  rewrite <- H0. f_equal. lia.
Qed.

(** The line editor: backspace and delete take the last character away,
    printable characters go behind it while there is room. *)
Definition edit (line : list Z) (c : Z) : list Z :=
  if ((c =? 8) || (c =? 0x7f)) && negb (length line =? 0)%nat then removelast line
  else if (32 <=? c) && (length line <? 1023)%nat then line ++ [c]
  else line.
Lemma edit_short line c : (length line <= 1023)%nat -> (length (edit line c) <= 1023)%nat.
Proof using.
  intros H. unfold edit. destruct (_ && _).
  - destruct (decide (line = [])) as [->|Hn]; [cbn; lia|]. pose proof (f_equal (@length Z) (app_removelast_last 0 Hn)) as E. rewrite length_app in E. cbn in E. lia.
  - destruct (Z.leb_spec 32 c), (Nat.ltb_spec (length line) 1023); cbn [andb]; try exact H. rewrite length_app. cbn. lia.
Qed.
Lemma edit_printable line c : Forall (fun c => 32 <= c) line -> Forall (fun c => 32 <= c) (edit line c).
Proof using.
  intros H. unfold edit. destruct (_ && _).
  - destruct (decide (line = [])) as [->|Hn]; [constructor|]. rewrite (app_removelast_last 0 Hn) in H. apply Forall_app in H. tauto.
  - destruct (Z.leb_spec 32 c); cbn [andb]; [|exact H]. destruct (_ <? _)%nat; [|exact H]. apply Forall_app. auto.
Qed.
(** Delete is a printable character to an empty line. *)
Lemma delete_at_start : edit [] 0x7f = [0x7f] /\ edit (edit [] 104) 0x7f = [].
Proof using. split; reflexivity. Qed.
Definition ends_line (c : Z) : bool := (c =? 10) || (c =? 13).

Context (buf : Z).
(** Outside of the array. *)
Definition same_memory (m m' : mem) : Prop := forall a, ~ (buf <= a < buf + BUFLEN) -> m' a = m a.

Definition conn (s : mon) (c : cons) : mon := s <| mo_cons := c |>.
Lemma in_console_eq {A} (m : M cons A) s a c : m (mo_cons s) = Ret a c -> in_console m s = Ret a (conn s c).
Proof using. intros E. unfold in_console, zoom. rewrite E. reflexivity. Qed.
Lemma same_memory_poke m i c : 0 <= i < BUFLEN -> same_memory m (store8 m (buf + i) c).
Proof using. intros Hi a Ha. unfold store8. destruct (Z.eqb_spec a (buf + i)); [lia | reflexivity]. Qed.

Lemma readline_loop_ok e rest : ends_line e = true -> forall typed bs fuel line s,
  supplies (mo_cons s) bs (typed ++ e :: rest) -> Forall (fun c => ends_line c = false) typed ->
  (length bs < fuel)%nat -> (length line <= 1023)%nat -> Forall (fun c => 32 <= c) line -> at_mem (mo_mem s) buf line ->
  exists s' bs', readline_loop buf fuel (Z.of_nat (length line)) (map poll_of bs) s = Ret (Some buf, map poll_of bs') s' /\
    supplies (mo_cons s') bs' rest /\ same_memory (mo_mem s) (mo_mem s') /\
    cstring (mo_mem s') buf (fold_left edit typed line).
Proof using Hst Herr Hlsr.
  intros He. induction typed as [|c typed IH]; intros bs fuel line s Hs Ht Hf Hl Hp Hm; (destruct fuel as [|fuel]; [lia|]); cbn [readline_loop].
  - cbn [app] in Hs. destruct (getchar_ok bs _ e rest Hs) as (c1 & bs1 & E1 & S1 & L1).
    step by (apply in_console_eq, E1). assert (e = 10 \/ e = 13) as He'
      by (unfold ends_line in He; apply orb_prop in He as [He%Z.eqb_eq|He%Z.eqb_eq]; auto).
    rewrite (proj2 (Z.ltb_ge e 0)), (proj2 (Z.eqb_neq e 8)), (proj2 (Z.eqb_neq e 0x7f)), (proj2 (Z.leb_gt 32 e)) by lia. cbn [orb andb].
    fold (ends_line e). rewrite He. destruct (supplies_cputchar (mo_cons (conn s c1)) bs1 rest 10 S1) as (c2 & E2 & S2).
    step by (apply in_console_eq, E2). eexists _, bs1. split; [reflexivity|]. split; [exact S2|]. split.
    + cbn. apply same_memory_poke. unfold BUFLEN. lia.
    + cbn. apply at_mem_cstring.
      * apply (at_mem_ext (mo_mem s)); [|exact Hm]. intros x Hx. unfold store8. destruct (Z.eqb_spec x (buf + Z.of_nat (length line))); [lia | reflexivity].
      * eapply Forall_impl; [exact Hp|]. cbn. intros x Hx. lia.
      * unfold store8. rewrite Z.eqb_refl. reflexivity.
  - cbn [app] in Hs. pose proof (supplies_bytes _ _ _ Hs) as [Hc _]%Forall_cons. unfold byte in Hc.
    apply Forall_cons in Ht as [Hce Ht]. destruct (getchar_ok bs _ c _ Hs) as (c1 & bs1 & E1 & S1 & L1).
    step by (apply in_console_eq, E1). rewrite (proj2 (Z.ltb_ge c 0)) by lia. fold (ends_line c). rewrite Hce.
    assert ((0 <? Z.of_nat (length line)) = negb (length line =? 0)%nat) as ->
      by (destruct (Z.ltb_spec 0 (Z.of_nat (length line))), (Nat.eqb_spec (length line) 0); reflexivity || lia).
    assert ((Z.of_nat (length line) <? BUFLEN - 1) = (length line <? 1023)%nat) as ->
      by (unfold BUFLEN; destruct (Z.ltb_spec (Z.of_nat (length line)) (1024 - 1)), (Nat.ltb_spec (length line) 1023); reflexivity || lia).
    pose proof (edit_short line c Hl) as Hl2. pose proof (edit_printable line c Hp) as Hp2. revert Hl2 Hp2. cbn [fold_left]. unfold edit at 1 2 4.
    destruct (((c =? 8) || (c =? 0x7f)) && negb (length line =? 0)%nat) eqn:Eb; intros Hl2 Hp2.
    + apply andb_prop in Eb as [_ Hne%negb_true_iff%Nat.eqb_neq]. assert (line <> []) as Hn by (intros ->; apply Hne; reflexivity).
      pose proof (app_removelast_last 0 Hn) as Hd. rewrite Hd in Hm. apply at_mem_app in Hm as [Hm _].
      destruct (supplies_cputchar (mo_cons (conn s c1)) bs1 _ 8 S1) as (c2 & E2 & S2). step by (apply in_console_eq, E2).
      replace (Z.of_nat (length line) - 1) with (Z.of_nat (length (removelast line)))
        by (rewrite Hd at 2; rewrite length_app; cbn [length]; lia).
      apply IH with (s := conn (conn s c1) c2); try assumption; lia.
    + destruct ((32 <=? c) && (length line <? 1023)%nat) eqn:Ep.
      * apply andb_prop in Ep as [H32%Z.leb_le Hlt%Nat.ltb_lt].
        destruct (supplies_cputchar (mo_cons (conn s c1)) bs1 _ c S1) as (c2 & E2 & S2). step by (apply in_console_eq, E2).
        unfold poke. rewrite bind_modify. replace (Z.of_nat (length line) + 1) with (Z.of_nat (length (line ++ [c]))) by (rewrite length_app; cbn; lia).
        edestruct (IH bs1 fuel (line ++ [c])) as (s' & bs' & E' & S' & M' & C'); [| exact Ht | lia | exact Hl2 | exact Hp2 | | exists s', bs'; split; [exact E'|]; split; [exact S'|]; split; [|exact C']].
        -- exact S2.
        -- cbn. apply at_mem_app. split.
           ++ apply (at_mem_ext (mo_mem s)); [|exact Hm]. intros x Hx. unfold store8. destruct (Z.eqb_spec x (buf + Z.of_nat (length line))); [lia | reflexivity].
           ++ cbn. split; [|exact I]. unfold store8. rewrite Z.eqb_refl. unfold u8. apply Z.mod_small. lia.
        -- intros a Ha. rewrite M' by exact Ha. cbn. apply same_memory_poke; [unfold BUFLEN; lia | exact Ha].
      * apply IH with (s := conn s c1); try assumption; lia.
Qed.

(** cprintf() of a format whose text is known. *)
Lemma cprintf_eq fmt ap l s : emits (fun S put => vprintfmt put (length fmt + 11) fmt ap) l (inl tt) ->
  cprintf fmt ap s = in_console (cputs l) s.
Proof using.
  intros E. unfold cprintf, in_console, zoom. rewrite (E _ cputchar (mo_cons s)). unfold bind, cputs.
  destruct (for_all l cputchar (mo_cons s)) as [[] c|]; reflexivity.
Qed.
Lemma prompt_text p : emits (fun S put => vprintfmt put (length (str "%s") + 11) (str "%s") [VStr p]) (map s8 p) (inl tt).
Proof using. rewrite <- (app_nil_r (map s8 p)). apply (emits_s 12 [] p [] [] (inl tt) (emits_end 11 [])). Qed.
End Devices.

(** C37. readline() is a line editor, from the devices to memory: whatever keys
    and serial bytes arrive, in whatever portions, it ends when they amount to
    a carriage return or a newline, and returns its array with the string that
    the editor makes of the characters before: 1023 of them at most, the last
    one taken away by backspace or delete.  No memory outside of the array
    changes and the characters behind the line are still to be read. *)
Theorem readline_edits (st lsr buf : Z) (s : mon) (bs : list batch) (p typed rest : list Z) (e : Z)
    (Hst : Z.land st KBS_DIB <> 0) (Herr : Z.land st KBS_TERR = 0) (Hlsr : Z.land lsr COM_LSR_DATA <> 0)
    (Hs : supplies (mo_cons s) bs (typed ++ e :: rest))
    (He : ends_line e = true) (Ht : Forall (fun c => ends_line c = false) typed) :
  exists s' bs', readline buf (Some p) (map (poll_of st lsr) bs) s = Ret (Some buf, map (poll_of st lsr) bs') s' /\
    cstring (mo_mem s') buf (fold_left edit typed []) /\ (length (fold_left edit typed []) <= 1023)%nat /\
    same_memory buf (mo_mem s) (mo_mem s') /\ supplies (mo_cons s') bs' rest.
Proof.
  destruct (supplies_cputs (mo_cons s) bs _ (map s8 p) Hs) as (c1 & E1 & S1). unfold readline.
  destruct (readline_loop_ok st lsr Hst Herr Hlsr buf e rest He typed bs (S (length (map (poll_of st lsr) bs))) [] (conn s c1))
    as (s' & bs' & E2 & S2 & M2 & C2);
    [exact S1 | exact Ht | rewrite length_map; lia | cbn; lia | constructor | exact I |].
  exists s', bs'. split.
  { rewrite <- E2. unfold bind at 1. rewrite (cprintf_eq _ _ _ s (prompt_text p)), (in_console_eq _ s tt c1 E1). reflexivity. }
  split; [exact C2|]. split; [|split; [exact M2 | exact S2]]. clear. assert (length (@nil Z) <= 1023)%nat as H by (cbn; lia).
  revert H. generalize (@nil Z). induction typed as [|c typed IH]; intros l Hl; [exact Hl | apply IH, edit_short, Hl].
Qed.
Definition boot_mon : mon := mk_mon boot (fun _ => 0).
(** "help", a typing error in it, and Enter, on the serial line, in two portions. *)
Definition some_batches : list batch := [([104; 101; 120], []); ([8; 108; 112; 13], []); ([], []); ([], []); ([], []); ([], []); ([], []); ([], [])].
Example readline_edits_witness :
  let typed := [104; 101; 120; 8; 108; 112] in
  supplies (mo_cons boot_mon) some_batches (typed ++ 13 :: []) /\ fold_left edit typed [] = str "help" /\
  exists s' bs', readline 4096 (Some (str "K> ")) (map (poll_of 0x1D 0x61) some_batches) boot_mon =
      Ret (Some 4096, map (poll_of 0x1D 0x61) bs') s' /\
    cstring (mo_mem s') 4096 (fold_left edit typed []) /\ (length (fold_left edit typed []) <= 1023)%nat /\
    same_memory 4096 (mo_mem boot_mon) (mo_mem s') /\ supplies (mo_cons s') bs' [].
Proof.
  intros typed. assert (supplies (mo_cons boot_mon) some_batches (typed ++ 13 :: [])) as Hs.
  { exists no_mods, []. split; [exact boot_input|]. split; [repeat constructor; cbn; unfold byte; lia|].
    split; [constructor | vm_compute; reflexivity]. }
  split; [exact Hs|]. split; [reflexivity|].
  apply (readline_edits 0x1D 0x61 4096 boot_mon some_batches (str "K> ") typed [] 13);
    [vm_compute; congruence | reflexivity | vm_compute; congruence | exact Hs | reflexivity | repeat constructor].
Defined.
