(* ===== verification/JosCommand.v ===== *)
(** * The commands of the JOS monitor

    runcmd() against the words of the line: the first one names a command. *)
From S2P Require Import Prelude.
From S2P Require Import CString.
From S2P Require Import Printfmt.
From S2P Require Import Stab.
From S2P Require Import JosString.
From S2P Require Import JosConsole.
From S2P Require Import JosTerm.
From S2P Require Import JosMonitor.
From S2P Require Import JosReadline.

(** ** The words of a line *)

Fixpoint pieces (l : list Z) : list (list Z) :=
  match l with
  | [] => [[]]
  | c :: l =>
      if is_white c then [] :: pieces l
      else match pieces l with [] => [[c]] | p :: ps => (c :: p) :: ps end
  end.
(** What is between the blanks, where there is something. *)
Definition words (l : list Z) : list (list Z) := filter (fun p => p <> []) (pieces l).

Fixpoint span (f : Z -> bool) (l : list Z) : list Z * list Z :=
  match l with
  | [] => ([], [])
  | c :: l' => if f c then let '(p, r) := span f l' in (c :: p, r) else ([], l)
  end.
Lemma span_app f l : (span f l).1 ++ (span f l).2 = l.
Proof. induction l as [|c l IH]; cbn; [reflexivity|]. destruct (f c); [|reflexivity]. destruct (span f l). cbn in *. congruence. Qed.
Lemma span_all f l : Forall (fun c => f c = true) (span f l).1.
Proof.
  induction l as [|c l IH]; cbn; [constructor|]. destruct (f c) eqn:E; [|constructor]. destruct (span f l). constructor; assumption.
Qed.
Definition starts (f : Z -> bool) (l : list Z) : Prop := match l with [] => True | c :: _ => f c = true end.
Lemma span_rest f l : starts (fun c => negb (f c)) (span f l).2.
Proof. induction l as [|c l IH]; cbn; [exact I|]. destruct (f c) eqn:E; [|cbn; rewrite E; reflexivity]. destruct (span f l). exact IH. Qed.

Lemma words_blank w l : Forall (fun c => is_white c = true) w -> words (w ++ l) = words l.
Proof.
  induction 1 as [|c w Hc _ IH]; [reflexivity|]. unfold words in *. cbn [app pieces]. rewrite Hc, filter_cons, decide_False by auto. exact IH.
Qed.
Lemma pieces_word p l : Forall (fun c => is_white c = false) p -> starts is_white l ->
  pieces (p ++ l) = p :: tail (pieces l) /\ (exists ps, pieces l = [] :: ps).
Proof.
  intros Hp Hl. assert (exists ps, pieces l = [] :: ps) as [ps Hps] by (destruct l as [|c l]; cbn in *; [eauto | rewrite Hl; eauto]).
  split; [|eauto]. induction Hp as [|c p Hc _ IH]; cbn [app pieces]; [rewrite Hps; reflexivity|]. rewrite Hc, IH. reflexivity.
Qed.
Lemma words_word p l : p <> [] -> Forall (fun c => is_white c = false) p -> starts is_white l -> words (p ++ l) = p :: words l.
Proof.
  intros Hne Hp Hl. destruct (pieces_word p l Hp Hl) as [E [ps Eps]]. unfold words. rewrite E, Eps. cbn [tail].
  rewrite !filter_cons, decide_True, decide_False by auto. reflexivity.
Qed.

(** ** Cutting it in place *)

Definition with_mem (s : mon) (m : mem) : mon := s <| mo_mem := m |>.
Lemma cstring_app m l1 : forall a l2, cstring m a (l1 ++ l2) <->
  at_mem m a l1 /\ Forall (fun c => c <> 0) l1 /\ cstring m (a + Z.of_nat (length l1)) l2.
Proof.
  induction l1 as [|c l1 IH]; intros a l2; cbn [app cstring at_mem length].
  - rewrite Z.add_0_r. split; [auto|tauto].
  - rewrite IH, Forall_cons. replace (a + 1 + Z.of_nat (length l1)) with (a + Z.of_nat (S (length l1))) by lia. tauto.
Qed.
Lemma cstring_head m a l : cstring m a l -> m a = List.hd 0 l /\ (m a = 0 <-> l = []).
Proof. destruct l as [|c l]; cbn; [intros ->; tauto|]. intros (-> & Hc & _). split; [reflexivity|]. split; [tauto | discriminate]. Qed.

Lemma gobble_ok : forall l fuel buf s, cstring (mo_mem s) buf l -> (length l < fuel)%nat ->
  exists m', gobble fuel buf s = Ret (buf + Z.of_nat (length (span is_white l).1)) (with_mem s m') /\
    cstring m' (buf + Z.of_nat (length (span is_white l).1)) (span is_white l).2 /\
    (forall x, ~ (buf <= x < buf + Z.of_nat (length (span is_white l).1)) -> m' x = mo_mem s x) /\
    (starts is_white l -> m' buf = 0).
Proof.
  induction l as [|c l IH]; intros fuel buf s Hl Hf; (destruct fuel as [|fuel]; [lia|]); cbn [gobble span].
  - exists (mo_mem s). unfold peek. rewrite bind_get. cbn in Hl. rewrite Hl. cbn. rewrite Z.add_0_r.
    split; [destruct s; reflexivity | auto].
  - destruct Hl as (Hc & Hz & Hl). unfold peek. rewrite bind_get, Hc. rewrite (proj2 (Z.eqb_neq c 0)) by exact Hz. cbn [negb andb].
    destruct (is_white c) eqn:Ew.
    + unfold poke. rewrite bind_modify. set (s1 := s <| mo_mem ::= fun m => store8 m buf 0 |>).
      destruct (IH fuel (buf + 1) s1) as (m' & E & C & F & Z0).
      { apply (cstring_ext l (mo_mem s)); [|exact Hl]. intros y Hy. subst s1. cbn. unfold store8. destruct (Z.eqb_spec y buf); [lia | reflexivity]. }
      { cbn in Hf. lia. }
      destruct (span is_white l) as [p r]. cbn [fst snd length] in *. exists m'.
      replace (buf + Z.of_nat (S (length p))) with (buf + 1 + Z.of_nat (length p)) by lia. split; [exact E|]. split; [exact C|]. split.
      * intros x Hx. rewrite F by lia. subst s1. cbn. unfold store8. destruct (Z.eqb_spec x buf); [lia | reflexivity].
      * intros _. rewrite F by lia. subst s1. cbn. unfold store8. rewrite Z.eqb_refl. reflexivity.
    + exists (mo_mem s). cbn. rewrite Z.add_0_r. split; [destruct s; reflexivity|]. split; [cbn; auto|]. split; [auto|].
      intros H. change (is_white c = true) in H. congruence.
Qed.
Lemma scan_arg_ok : forall l fuel buf s, cstring (mo_mem s) buf l -> (length l < fuel)%nat ->
  let f c := negb (is_white c) in
  scan_arg fuel buf s = Ret (buf + Z.of_nat (length (span f l).1)) s.
Proof.
  intros l. induction l as [|c l IH]; intros fuel buf s Hl Hf f; (destruct fuel as [|fuel]; [lia|]); cbn [scan_arg span]; unfold peek; rewrite bind_get.
  - cbn in Hl. rewrite Hl. cbn. rewrite Z.add_0_r. reflexivity.
  - destruct Hl as (Hc & Hz & Hl). rewrite Hc. rewrite (proj2 (Z.eqb_neq c 0)) by exact Hz. cbn [negb andb]. fold (f c). destruct (f c).
    + rewrite IH by (exact Hl || (cbn in Hf; lia)). fold f. destruct (span f l). cbn [fst length]. f_equal. lia.
    + cbn. rewrite Z.add_0_r. reflexivity.
Qed.

(** What the loop leaves: the words, each ended by a NUL. *)
Definition too_many : list Z := ln "Too many arguments (max 16)".
Lemma too_many_text : emits (fun S put => vprintfmt put (length (ln "Too many arguments (max %d)") + 11) (ln "Too many arguments (max %d)")
  [VInt (Z.of_nat MAXARGS)]) too_many (inl tt).
Proof.
  change (ln "Too many arguments (max %d)") with (str "Too many arguments (max " ++ [37; 100] ++ [41; 10]).
  change too_many with (str "Too many arguments (max " ++ decimal (s32 16) ++ [41; 10]).
  do 24 (apply emits_lit; [discriminate|]). apply (emits_d _ [41; 10] 16 [] [41; 10]).
  do 2 (apply emits_lit; [discriminate|]). apply emits_end.
Qed.
Definition line_memory (buf : Z) (l : list Z) (m m' : mem) : Prop := forall x, ~ (buf <= x < buf + Z.of_nat (length l)) -> m' x = m x.

Lemma parse_ok : forall fuel l buf argv s, cstring (mo_mem s) buf l -> (length l < fuel)%nat -> (length argv <= 15)%nat ->
  exists m', line_memory buf l (mo_mem s) m' /\ (starts is_white l -> m' buf = 0) /\
    if (length argv + length (words l) <=? 15)%nat
    then exists argv', parse_args fuel buf argv s = Ret (Some (argv ++ argv')) (with_mem s m') /\ Forall2 (cstring m') argv' (words l)
    else parse_args fuel buf argv s = (in_console (cputs too_many) ;! ret None) (with_mem s m').
Proof.
  induction fuel as [|fuel IH]; intros l buf argv s Hl Hf Ha; [lia|]. cbn [parse_args].
  destruct (gobble_ok l (S fuel) buf s Hl Hf) as (m1 & E1 & C1 & F1 & Z1).
  pose proof (span_app is_white l) as Happ. pose proof (span_all is_white l) as Hall. pose proof (span_rest is_white l) as Hrest.
  destruct (span is_white l) as [w r]. cbn [fst snd] in *. step by exact E1. unfold peek. rewrite bind_get. cbn [mo_mem with_mem set_field].
  assert (words l = words r) as -> by (rewrite <- Happ; apply words_blank, Hall). set (b1 := buf + Z.of_nat (length w)) in *.
  assert (length l = (length w + length r)%nat) as Hlen by (rewrite <- Happ, length_app; reflexivity).
  change (mo_mem (with_mem s m1)) with m1. destruct (cstring_head _ _ _ C1) as [Hhd H0]. destruct (Z.eqb_spec (m1 b1) 0) as [Ez|Ez].
  - apply H0 in Ez as ->. exists m1. split; [intros x Hx; apply F1; lia|].
    split; [exact Z1|]. cbn [words pieces]. change (words []) with (@nil (list Z)).
    cbn [length]. rewrite Nat.add_0_r. rewrite (proj2 (Nat.leb_le _ _)) by lia. exists []. rewrite app_nil_r. split; [reflexivity | constructor].
  - set (f := fun c => negb (is_white c)). pose proof (span_app f r) as Happ2. pose proof (span_all f r) as Hall2.
    pose proof (span_rest f r) as Hrest2. pose proof (scan_arg_ok r (S fuel) b1 (with_mem s m1) C1 ltac:(lia)) as E2. cbv zeta in E2. fold f in E2.
    destruct (span f r) as [p r2]. cbn [fst snd] in *.
    assert (p <> []) as Hp.
    { intros ->. cbn in Happ2. subst r2. destruct r as [|c r]; [apply Ez, H0; reflexivity|]. cbn [starts] in Hrest, Hrest2. unfold f in Hrest2.
      rewrite Hrest in Hrest2. discriminate. }
    assert (words r = p :: words r2) as ->.
    { rewrite <- Happ2. apply words_word; [exact Hp | |].
      - eapply Forall_impl; [exact Hall2|]. intros c Hc. apply negb_true_iff, Hc.
      - destruct r2; [exact I|]. cbn [starts] in Hrest2 |- *. unfold f in Hrest2. rewrite negb_involutive in Hrest2. exact Hrest2. }
    cbn [length]. assert (length r = (length p + length r2)%nat) as Hlen2 by (rewrite <- Happ2, length_app; reflexivity).
    destruct (decide (length argv = MAXARGS - 1)%nat) as [Eq|Hne].
    { exists m1. split; [intros x Hx; apply F1; lia|]. split; [exact Z1|].
      change (MAXARGS - 1)%nat with 15%nat in Eq. rewrite (proj2 (Nat.leb_gt _ _)) by lia. unfold bind.
      rewrite (cprintf_eq _ _ _ _ too_many_text). reflexivity. }
    change (MAXARGS - 1)%nat with 15%nat in Hne. step by exact E2. set (b2 := b1 + Z.of_nat (length p)) in *.
    rewrite <- Happ2 in C1. apply cstring_app in C1 as (A1 & Nz & C1). fold b2 in C1.
    destruct (IH r2 b2 (argv ++ [b1]) (with_mem s m1)) as (m2 & F2 & Z2 & R2);
      [exact C1 | destruct p; [congruence | cbn in Hlen2; lia] | rewrite length_app; cbn; lia |].
    change (mo_mem (with_mem s m1)) with m1 in F2. exists m2. split; [|split].
    + intros x Hx. rewrite F2 by lia. apply F1. lia.
    + intros Hs. specialize (Z1 Hs). rewrite F2; [exact Z1|].
      assert (length p <> 0)%nat by (destruct p; [congruence | discriminate]). lia.
    + rewrite length_app in R2. cbn [length] in R2. replace (length argv + S (length (words r2)))%nat with (length argv + 1 + length (words r2))%nat by lia.
      destruct (_ <=? 15)%nat; [|exact R2]. destruct R2 as (argv' & E3 & F3). exists (b1 :: argv'). rewrite <- app_assoc in E3.
      split; [exact E3|]. constructor; [|exact F3]. apply at_mem_cstring; [|exact Nz|].
      * apply (at_mem_ext m1); [|exact A1]. intros x Hx. apply F2. lia.
      * apply Z2. destruct r2; [exact I|]. cbn [starts] in Hrest2 |- *. unfold f in Hrest2. rewrite negb_involutive in Hrest2. exact Hrest2.
Qed.

(** ** The command *)

Lemma strcmp_lit_ok m : forall name a w, cstring m a w -> Forall (fun c => c <> 0) name -> (strcmp_lit m a name = 0 <-> w = name).
Proof.
  induction name as [|c name IH]; intros a w Hw Hn; cbn [strcmp_lit].
  - destruct (cstring_head _ _ _ Hw) as [_ H]. exact H.
  - apply Forall_cons in Hn as [Hc Hn]. destruct w as [|x w]; cbn [cstring] in Hw.
    + rewrite Hw. cbn. split; [lia | discriminate].
    + destruct Hw as (Hx & Hz & Hw). rewrite Hx, (proj2 (Z.eqb_neq x 0)) by exact Hz. cbn [negb andb].
      destruct (Z.eqb_spec x c) as [->|Hne]; [rewrite (IH _ _ Hw Hn); split; congruence|]. split; [lia | congruence].
Qed.
Lemma string_at_ok : forall w fuel m a, cstring m a w -> (length w < fuel)%nat -> string_at fuel m a = w.
Proof.
  induction w as [|c w IH]; intros fuel m a Hw Hf; (destruct fuel as [|fuel]; [lia|]); cbn [string_at cstring] in *.
  - rewrite Hw. reflexivity.
  - destruct Hw as (Hc & Hz & Hw). rewrite Hc, (proj2 (Z.eqb_neq c 0)) by exact Hz. f_equal. apply IH; [exact Hw | cbn in Hf; lia].
Qed.
Fixpoint find_command (cmds : list (list Z * list Z * command)) (w : list Z) : option command :=
  match cmds with
  | [] => None
  | (name, _, func) :: cmds' => if decide (w = name) then Some func else find_command cmds' w
  end.
Lemma lookup_ok m a w : cstring m a w -> lookup commands m a = find_command commands w.
Proof.
  intros Hw. assert (Forall (fun c => Forall (fun c => c <> 0) c.1.1) commands) as Hn by (repeat constructor; discriminate).
  induction Hn as [|[[name desc] func] cmds Hn _ IH]; [reflexivity|]. cbn [lookup find_command]. cbn [fst] in Hn.
  pose proof (strcmp_lit_ok m name a w Hw Hn) as H. destruct (Z.eqb_spec (strcmp_lit m a name) 0), (decide (w = name)); tauto || exact IH.
Qed.
Definition unknown (w : list Z) : list Z := str "Unknown command '" ++ map s8 w ++ ln "'".
Lemma unknown_text w : emits (fun S put => vprintfmt put (length (ln "Unknown command '%s'") + 11) (ln "Unknown command '%s'") [VStr w])
  (unknown w) (inl tt).
Proof.
  change (ln "Unknown command '%s'") with (str "Unknown command '" ++ [37; 115] ++ [39; 10]). unfold unknown.
  change (ln "'") with [39; 10]. do 17 (apply emits_lit; [discriminate|]). apply (emits_s _ [39; 10] w [] [39; 10]).
  do 2 (apply emits_lit; [discriminate|]). apply emits_end.
Qed.
Lemma pieces_length : forall l p, p ∈ pieces l -> (length p <= length l)%nat.
Proof.
  induction l as [|c l IH]; intros p; cbn [pieces length].
  - intros ->%list_elem_of_singleton. cbn. lia.
  - destruct (is_white c).
    + intros [->|Hp]%elem_of_cons; [cbn; lia|]. apply IH in Hp. lia.
    + destruct (pieces l) as [|p0 ps] eqn:E; [intros ->%list_elem_of_singleton; cbn; lia|].
      intros [->|Hp]%elem_of_cons; [specialize (IH p0 (list_elem_of_here _ _)); cbn; lia|].
      specialize (IH p (list_elem_of_further _ _ _ Hp)). lia.
Qed.

Section Respond.
Context (start entry etext edata end_ : Z) (word : Z -> Z) (stabs : Z -> Stab) (nstab : Z) (stabstr : list Z).
Context (depth fuel : nat) (ebp : Z).
Abbreviation invoke' := (invoke start entry etext edata end_ word stabs nstab stabstr depth fuel ebp).
Definition say (l : list Z) : M mon Z := in_console (cputs l) ;! ret 0.
(** The answer to a line with these words. *)
Definition respond (ws : list (list Z)) : M mon Z :=
  if (15 <? length ws)%nat then say too_many
  else
    match ws with
    | [] => ret 0
    | w :: _ =>
        match find_command commands w with
        | Some func => invoke' func
        | None => say (unknown w)
        end
    end.

(** C38. runcmd() runs the command that the first word of the line names: the
    blanks at the start, between the words and at the end do not matter, a
    line of blanks does nothing, a first word that is no command and a line of
    more than 15 words are answered with a message.  Only the bytes of the
    line change. *)
Theorem runcmd_responds (s : mon) (buf : Z) (l : list Z) (len : nat)
    (Hl : cstring (mo_mem s) buf l) (Hlen : (length l <= len)%nat) :
  exists m', line_memory buf l (mo_mem s) m' /\
    runcmd start entry etext edata end_ word stabs nstab stabstr depth fuel len ebp buf s = respond (words l) (with_mem s m').
Proof using.
  destruct (parse_ok (S len) l buf [] s Hl ltac:(lia) ltac:(cbn; lia)) as (m' & F & _ & R). exists m'. split; [exact F|].
  unfold runcmd, respond. cbn [length Nat.add] in R. rewrite Nat.ltb_antisym. destruct (Nat.leb_spec (length (words l)) 15); cbn [negb].
  - destruct R as (argv & E & Hw). step by exact E. cbn [app]. destruct (words l) as [|w ws] eqn:Ew.
    { apply Forall2_nil_inv_r in Hw as ->. reflexivity. }
    apply Forall2_cons_inv_r in Hw as (a & argv' & Hw & _ & ->). rewrite bind_get. change (mo_mem (with_mem s m')) with m'. rewrite (lookup_ok m' a w Hw).
    destruct (find_command commands w); [reflexivity|]. unfold say, bind.
    assert (length w <= length l)%nat as Hwl.
    { apply pieces_length. assert (w ∈ words l) as Hin by (rewrite Ew; constructor). apply list_elem_of_filter in Hin. tauto. }
    rewrite (string_at_ok w) by (exact Hw || lia). rewrite (cprintf_eq _ _ _ _ (unknown_text w)). reflexivity.
  - unfold bind at 1. rewrite R. unfold say, bind. destruct (in_console _ _) as [[] s1|]; reflexivity.
Qed.
End Respond.

Example runcmd_responds_witness :
  let l := str "  hlep " ++ [9] ++ str "me " in
  let s := mk_mon boot (mem_of l) in
  let respond := respond 0 0 0 0 0 (fun _ => 0) demo_stabs 0 [] 0 0 0 in
  (cstring (mo_mem s) 0 l /\ (length l <= 1024)%nat) /\
  (exists m', line_memory 0 l (mo_mem s) m' /\
     runcmd 0 0 0 0 0 (fun _ => 0) demo_stabs 0 [] 0 0 1024 0 0 s = respond (words l) (with_mem s m')) /\
  words l = [str "hlep"; str "me"] /\
  match respond (words l) s with
  | Ret r s' => r = 0 /\ tx (mo_cons s') = tx boot ++ str "Unknown command 'hlep'" ++ [10]
  | Stop _ _ => False
  end.
Proof.
  intros l s respond'. assert (cstring (mo_mem s) 0 l /\ (length l <= 1024)%nat) as [H1 H2].
  { split; [vm_compute; repeat split; discriminate | vm_compute; repeat constructor]. }
  split; [auto|]. split; [exact (runcmd_responds 0 0 0 0 0 (fun _ => 0) demo_stabs 0 [] 0 0 0 s 0 l 1024 H1 H2)|].
  split; [vm_compute; reflexivity|]. vm_compute. auto.
Defined.
